(* ===== verification/_CoqProject ===== *)
-Q . S2P
Prelude.v
DList.v
SList.v
Ffs.v
KState.v
Kservice.v
Str.v
Printf.v
CFormat.v
Format.v
Calendar.v
Path.v
RingBuf.v
RingBlk.v
Wf.v
Inv.v
Sched.v
Object.v
Timer.v
Thread.v
TimerRun.v
Sleep.v
Clock.v
Ipc.v
Sem.v
Mutex.v
Event.v
Mailbox.v
MsgQueue.v
IpcObjects.v
Errno.v
Mempool.v
Beside.v
Idle.v
Completion.v
DataQueue.v
WaitQueue.v
UserTimer.v
TimerCheck.v
SoftTimer.v
Startup.v
WorkQueue.v
Device.v
Console.v
Rtc.v
Serial.v
SerialDev.v
Fd.v
Vfs.v
Posix.v
Mount.v
Devfs.v
Partition.v
Mem.v
MemBlocks.v
MemOps.v
Memory.v
Heap.v
HeapUse.v
