(* ===== verification/Prelude.v ===== *)
(** * The RT-Thread kernel of RT-Thread-AIOT

    The repository is a board project (STM32L431) around the RT-Thread real-time
    kernel; this development models and verifies that kernel, the code under
    src/BerPi_nbiot/rt-thread/src, in the configuration of rtconfig.h: one core,
    32 priorities, 1000 ticks per second, hard and soft timers, all five kinds of
    IPC object, assertions on, no signals and no modules.

    ** The program and its parts

    Threads are linked into lists: one ready queue per priority, one waiting list
    per IPC object (two for mailboxes and message queues), the list of closed
    threads.  The scheduler (scheduler.c) picks the head of the most urgent
    non-empty ready queue, found with a bitmap and find-first-set.  thread.c
    moves threads between states; a thread that waits has a built-in timer
    (timer.c) in a list ordered by expiry.  The tick interrupt (drv_common.c,
    clock.c) advances the clock, ends time slices and runs due timers, which wake
    threads with -RT_ETIMEOUT.  The IPC objects (ipc.c) suspend and wake threads
    and call the scheduler.  object.c registers every object under its name; the
    idle thread (idle.c) reclaims closed threads.  The heap (mem.c) divides a
    piece of memory into blocks, protected by a semaphore; a memory pool
    (mempool.c) gives out blocks of one size, and a thread can wait for one.
    Drivers register devices (device.c) and exchange bytes with applications
    through ring buffers; they wait and wake with completions, data queues and
    wait queues, and leave work to the thread of a work queue
    (components/drivers/src).  The virtual file system (components/dfs) opens paths
    on the file systems that are mounted and hands out descriptors; one of them
    shows the devices as files.

    ** How it is modelled

    The kernel's memory is one record, [kst] (KState.v): maps from identifiers to
    the C structures, the thread lists as sequences, and the global variables.  A
    routine is a function in the outcome monad of this file: it returns, stops in
    a failed RT_ASSERT ([Halt]), makes an undefined access ([UB]) or uses up the
    fuel of a loop ([NoFuel]).  [wp m s Q] says that [m] returns from [s] and
    that result and final state satisfy [Q]; every theorem stated with it is a
    total-correctness statement.  Machine integers are [Z] with their wrap-around
    written where the source stores a value.

    A section with interrupts disabled is one piece.  A call that blocks is two
    definitions: [_enter] ends with the scheduling pass and says which thread
    waits, [_resume] is the code that runs when that thread is scheduled again.
    Application and driver code is an argument: timeout functions, thread cleanup
    functions (and rt_free where the idle thread frees a stack) and the handlers of a
    device.  Where a kernel object is created on
    the heap, the result of the allocation is an argument too; the heap itself
    works on memory byte by byte, with its own state ([heap], beside the kernel
    state in [mst]).  A component outside the kernel keeps its data next to the
    kernel state ([beside]); the file system's is [vfs], next to the devices, with
    what a file system promises stated once ([fops_ok], or [fops_tame] for one whose
    routines need not return, with the class [ErrnoAble] for the kernel below).

    ** Files

    - Prelude: machine integers, error codes, the monad and its rules, lists.
    - DList: rt_list_t (include/rtservice.h) on a heap of nodes; the pointer
      routines implement the operations on sequences the other files use; SList:
      the same for rt_slist_t.
    - Ffs: __rt_ffs, table driven (kservice.c) and of the port.
    - KState: the kernel's data (include/rtdef.h) and its accessors.
    - Wf, Inv: the kernel invariant [kinv]: lists are disjoint and agree with the
      state field and the bitmap; headers are typed; a running thread timer
      belongs to a suspended thread.  A decision procedure and a sample state.
    - Sched (scheduler.c), Object (object.c), Timer and TimerRun (timer.c),
      Thread (thread.c), Sleep (the sleeping calls of thread.c), Clock (clock.c,
      irq.c, SysTick_Handler).
    - Ipc (the waiting lists of ipc.c), Sem, Mutex, Event, Mailbox, MsgQueue (the
      rest of ipc.c), IpcObjects (creation and closing of the five kinds).
    - Errno: the errno of the running thread; Mempool (mempool.c); Device
      (device.c); Console: the console device (kservice.c); Rtc: the clock of the
      system (rtc.c, soft_rtc.c and time of time.c).
    - Calendar: dates and seconds (components/libc, time.c).
    - Path: dfs_normalize_path on byte memory (components/dfs, dfs.c); Fd: the table
      of file descriptors (dfs.c); Vfs: types of file systems, mount points and files
      (dfs_fs.c, dfs_file.c); Posix: the calls of an application (dfs_posix.c); Mount:
      registration and mounting; Devfs: devices as files (devfs.c); Partition: the
      partition table of a disk (dfs_fs.c).
    - Beside: components with data of their own next to the kernel; Idle (idle.c);
      Completion
      (completion.c), DataQueue (dataqueue.c), WaitQueue (waitqueue.c), WorkQueue
      (workqueue.c); UserTimer: the timers such components start; TimerCheck:
      starting and checking timers of both kinds; SoftTimer: the thread that runs the
      soft timers (timer.c).
    - Startup: from the board's initialisation to the first thread (components.c),
      the main thread and the rounds of the idle thread (idle.c).
    - Str and Printf: string routines and rt_vsnprintf of kservice.c; CFormat: what
      a format means in C, defined without the routines; Format: that rt_vsnprintf
      prints that text.
    - Kservice: rt_memset, rt_memcpy, rt_memmove and rt_memcmp of kservice.c on
      byte memory; RingBuf: the ring buffer; RingBlk: the ring of blocks
      (ringblk_buf.c).
    - Serial: the receive buffer of serial devices; SerialDev: the handlers of these
      devices, behind the device layer of Device (components/drivers, serial.c).
    - Mem: data and routines of mem.c; MemBlocks: block lists and the heap
      invariant [heap_ok]; MemOps: the critical sections on block lists; Memory:
      rt_malloc, rt_free, rt_realloc and rt_calloc; Heap: initialisation, the
      abstract store the heap implements, mutual exclusion; HeapUse: rt_strdup and
      the aligned blocks (kservice.c), proved against that store.

    ** What the theorems show

    - Lists and find-first-set: the pointer lists refine sequences; the two
      versions of __rt_ffs agree on all 32-bit words.
    - Scheduling: a pass dispatches the thread the priority rules choose, no
      ready thread is more urgent afterwards, the lock nests, time slices give
      round robin.
    - Threads: creation, start, suspension, wake-up, change of priority, sleeping
      and closing do what they say on every branch and keep [kinv].
    - Timers: starting keeps the list of the timer's kind ordered across the wrap
      of the clock; a check terminates, wakes the threads whose time is up, runs the
      due timers of applications, one-shot and periodic, and leaves no due timer; the
      whole tick interrupt keeps [kinv].  The timer thread waits for the first soft
      timer and calls the functions of those that are due, in order, and the periodic
      ones start again.  Timeout functions may do what their contracts allow
      ([callback_ok], [hard_callback], [soft_callback]).
    - Start-up: from a state without threads, and whatever else the board has set
      up, it establishes [kinv] with the timer thread running and the main and
      idle threads ready; the main thread ends in the list the idle thread
      empties.  The idle thread deals with the closed threads up to the first static
      one: cleanup functions are called, stacks freed, objects deleted or detached.
    - IPC: each operation refines an abstract object, on every branch.  The
      abstract objects: a count with a sequence of waiting threads (semaphore); a
      mutex that is free or held, with priority inheritance; an event set that
      satisfies nobody who waits; a sequence of mails in a ring; a sequence of
      messages in linked slots, none of them lost while others are in flight.
      Closing an object wakes everybody with -RT_ERROR.
    - Objects: an object enters and leaves its container and the others stay; lookup
      by name finds what was registered.
    - Heap: initialisation makes one free block; every valid call of a client
      returns and does what the same call does on an abstract store of disjoint
      blocks, each of which keeps the bytes its holder wrote; RT_NULL means that no
      free block from lfree on is large enough; freed memory is joined, and rt_free undoes rt_malloc; a second thread waits outside.  A
      duplicated string is a block of its own with the same bytes; an aligned
      block is aligned, large enough, and its bytes are the client's.
    - Memory pools: allocation and freeing keep the free list and the blocks in
      use apart, on every branch, waiting included.
    - Devices: whatever a conforming driver does, openings are counted, a device
      that is open is initialised, a stand-alone one is open once; a closed
      device is not read or written; names in the registry are unique.
    - Completions, data queues, wait queues: waiting and waking on every branch; a
      data queue is a bounded sequence until an index wraps around, and a wake-up
      that comes before the wait is not lost.
    - Work queues: works run in the order they were submitted; a delayed work is
      submitted after its time; the end of a work wakes all who wait for it.
    - Strings and printing: the string routines agree with definitions on lists;
      rt_vsnprintf leaves in the buffer what fits of the text C gives the format,
      where it follows C; printed integers read back; what is printed on the console reaches its
      device if that is open.
    - Dates: gmtime_r and mktime agree with a calendar that counts days one by one
      and are inverse to each other; setting date or time through the device
      layer shows exactly that second, and the clock runs with the ticks.
    - Files: a path is normalised to the names a walk over it keeps; a path is looked up
      on the longest mount point that covers it; a mount that meets its conditions
      succeeds, and unmounting undoes it where the type can be unmounted.  Descriptors
      are a bounded map to counted files: over file systems whose routines leave the
      tables alone where they return, as those of devfs do, sequences of POSIX calls
      neither leak nor lose a descriptor and stop nowhere but in such a routine.  A device that is opened as a file is counted and
      closed as often; its directory lists every device once.
    - Serial devices: the receive buffer is a queue of the newest characters, however
      the reader and the interrupts interleave; behind the device layer, every sequence
      of opens in the same modes, closes, reads, controls and interrupts returns, and
      the structures of the driver exist exactly while the device is open.
    - Byte memory and ring buffers: the word loops of the memory routines agree
      with byte by byte definitions; the ring buffer is a bounded queue; the
      blocks of a ring block buffer stay inside it and apart.

    Some theorems show behaviour that the comments of the source do not promise
    or contradict: rt_thread_yield_keeps_running, rt_thread_delay_until_late,
    rt_timer_check_zero_period, rt_sem_release_wraps, rt_realloc_hides_memory,
    rt_malloc_tail_block, rt_malloc_wraps, rt_malloc_tiny_heap,
    rt_ringbuffer_put_force_correct, rt_mp_init_too_small,
    rt_device_destroy_halts, failed_close_sticks, rt_strnlen_overreads,
    print_octal_is_hex, zero_precision_prints_nothing,
    zero_precision_keeps_string, completion_lost,
    data_queue_overwrites, wqueue_wakeup_lost, submit_cancel_undefined,
    submit_missed, cancel_all_blocks_works, delayed_work_null_queue,
    timer_thread_misses_last_tick, timer_start_missed, stopped_soft_timer_fires,
    rbb_alloc_overruns, rbb_empty_block_overlaps, rbb_queue_free_undefined,
    rbb_queue_memory_reused, rbb_queue_not_continuous, rt_malloc_align_wraps,
    console_failed_open, mktime_normalises_wrongly, asctime_not_terminated,
    soft_rtc_runs, normalize_loses_root, rename_unmounted_undefined, mounted_twice,
    open_file_unlinked, device_as_directory_freed,
    directory_without_memory_halts, serial_buffer_kept, serial_callback_removed,
    serial_dma_tx_leaks and serial_int_without_buffer.

    ** Fuel

    Only loops whose length depends on the state take fuel.  rt_timer_check,
    rt_soft_timer_check and rt_thread_idle_excute take it as an argument and the
    theorems say how much is enough (one more than the due timers, or than the
    closed threads), and so does the completion of a work (two more than the
    threads that wait for it); rt_ipc_list_resume_all and the reset of a message queue take
    the length of the list they empty.  The loops of rt_malloc take one more than
    the size of the heap, which is more than it has blocks; those of the memory
    routines and of dfs_normalize_path the number of bytes.  The other loops are structural.

    ** What is not modelled

    The context switch in assembly (it is the change of rt_current_thread), the
    contents of thread stacks beyond the guard byte and the stack pointer, hooks
    (RT_NULL unless set), debug output; the endless loops of the idle and timer
    threads and of a work queue's thread beyond one round; the board's
    initialisation, which is an argument of the start-up;
    SMP, signals and modules, which are not configured; the writing of a serial device
    that waits; the drivers of the board, HAL, shell, file
    systems other than that of the devices, which are arguments of the virtual file
    system, network stacks and applications. *)

From Stdlib Require Import ZArith Lia.
From stdpp Require Export tactics option fin_maps gmap list.
Set Default Proof Using "Type".
#[global] Open Scope Z_scope.

(** ** Machine integers

    C integers are [Z]; a value is brought back to its width where the source
    stores it.  Unsigned types wrap modulo [2^w], signed ones are the two's
    complement reading of the same bits. *)

Definition u8 (x : Z) : Z := x `mod` 2 ^ 8.
Definition u16 (x : Z) : Z := x `mod` 2 ^ 16.
Definition u32 (x : Z) : Z := x `mod` 2 ^ 32.
Definition i8 (x : Z) : Z := (x + 2 ^ 7) `mod` 2 ^ 8 - 2 ^ 7.
Definition i16 (x : Z) : Z := (x + 2 ^ 15) `mod` 2 ^ 16 - 2 ^ 15.
Definition i32 (x : Z) : Z := (x + 2 ^ 31) `mod` 2 ^ 32 - 2 ^ 31.

Lemma u16_range x : 0 <= u16 x < 2 ^ 16.
Proof. apply Z.mod_pos_bound; lia. Qed.
Lemma u32_range x : 0 <= u32 x < 2 ^ 32.
Proof. apply Z.mod_pos_bound; lia. Qed.
Lemma u8_small x : 0 <= x < 2 ^ 8 -> u8 x = x.
Proof. apply Z.mod_small. Qed.
Lemma u16_small x : 0 <= x < 2 ^ 16 -> u16 x = x.
Proof. apply Z.mod_small. Qed.
Lemma u32_small x : 0 <= x < 2 ^ 32 -> u32 x = x.
Proof. apply Z.mod_small. Qed.
Lemma i16_small x : - 2 ^ 15 <= x < 2 ^ 15 -> i16 x = x.
Proof. intros. unfold i16. rewrite Z.mod_small; lia. Qed.
Lemma i32_small x : - 2 ^ 31 <= x < 2 ^ 31 -> i32 x = x.
Proof. intros. unfold i32. rewrite Z.mod_small; lia. Qed.

(** Alignment (rtdef.h): up and down to a multiple of a power of two. *)
Definition RT_ALIGN (size align : Z) : Z := Z.land (size + align - 1) (Z.lnot (align - 1)).
Definition RT_ALIGN_DOWN (size align : Z) : Z := Z.land size (Z.lnot (align - 1)).

Lemma align_down_spec x n : 0 <= n -> RT_ALIGN_DOWN x (2 ^ n) = x - x `mod` 2 ^ n.
Proof.
  intros Hn. unfold RT_ALIGN_DOWN. replace (2 ^ n - 1) with (Z.ones n) by (rewrite Z.ones_equiv; lia).
  rewrite <- Z.ldiff_land, Z.ldiff_ones_r, Z.shiftr_div_pow2, Z.shiftl_mul_pow2 by done.
  pose proof (Z.div_mod x (2 ^ n) ltac:(pose proof (Z.pow_pos_nonneg 2 n); lia)). lia.
Qed.
Lemma align_spec x n : 0 <= n -> RT_ALIGN x (2 ^ n) = x + (2 ^ n - 1) - (x + (2 ^ n - 1)) `mod` 2 ^ n.
Proof.
  intros Hn. rewrite <- align_down_spec by done. unfold RT_ALIGN, RT_ALIGN_DOWN. f_equal. lia.
Qed.

(** A test of one bit. *)
Lemma land_bit v i : 0 <= i -> negb (Z.land v (2 ^ i) =? 0) = Z.testbit v i.
Proof.
  intros Hi. destruct (Z.testbit v i) eqn:E.
  - apply negb_true_iff, Z.eqb_neq. intros H. assert (Z.testbit (Z.land v (2 ^ i)) i = false) as H0 by (rewrite H; apply Z.bits_0).
    rewrite Z.land_spec, E, Z.pow2_bits_true in H0; [done|lia].
  - apply negb_false_iff, Z.eqb_eq. apply Z.bits_inj'. intros j Hj. rewrite Z.land_spec, Z.bits_0. destruct (decide (j = i)) as [->|Hne].
    + by rewrite E.
    + rewrite (Z.pow2_bits_false i j) by done. apply andb_false_r.
Qed.

(** ** Error numbers (rtdef.h) *)

Definition RT_EOK : Z := 0.
Definition RT_ERROR : Z := 1.
Definition RT_ETIMEOUT : Z := 2.
Definition RT_EFULL : Z := 3.
Definition RT_EEMPTY : Z := 4.
Definition RT_ENOMEM : Z := 5.
Definition RT_ENOSYS : Z := 6.
Definition RT_EBUSY : Z := 7.
Definition RT_EIO : Z := 8.
Definition RT_EINTR : Z := 9.
Definition RT_EINVAL : Z := 10.

(** ** The outcome monad

    A kernel routine maps the state it starts in to an outcome: it returns
    ([Ok]), a failed [RT_ASSERT] stops the machine in [rt_assert_handler]
    ([Halt]), the code reads memory it has no right to ([UB]: a dangling or
    null pointer, an index past an array), or a loop of the model used up its
    fuel ([NoFuel]). *)

Inductive res (S A : Type) : Type :=
| Ok (a : A) (s : S)
| Halt
| UB
| NoFuel.
Arguments Ok {S A} _ _.
Arguments Halt {S A}.
Arguments UB {S A}.
Arguments NoFuel {S A}.

Definition M (S A : Type) : Type := S -> res S A.

Definition ret {S A} (a : A) : M S A := fun s => Ok a s.
Definition bind {S A B} (m : M S A) (f : A -> M S B) : M S B := fun s =>
  match m s with
  | Ok a s' => f a s'
  | Halt => Halt
  | UB => UB
  | NoFuel => NoFuel
  end.
Definition get {S} : M S S := fun s => Ok s s.
Definition gets {S A} (f : S -> A) : M S A := fun s => Ok (f s) s.
Definition modify {S} (f : S -> S) : M S unit := fun s => Ok tt (f s).
Definition halt {S A} : M S A := fun _ => Halt.
Definition ub {S A} : M S A := fun _ => UB.
Definition nofuel {S A} : M S A := fun _ => NoFuel.

(** [RT_ASSERT(b)]: rt_assert_handler never returns when [b] is false. *)
Definition RT_ASSERT {S} (b : bool) : M S unit := fun s => if b then Ok tt s else Halt.
(** An access the C standard leaves undefined when [b] is false. *)
Definition valid {S} (b : bool) : M S unit := fun s => if b then Ok tt s else UB.
(** Dereference of a pointer: the object read from the state, or [UB]. *)
Definition deref {S A} (f : S -> option A) : M S A := fun s =>
  match f s with Some a => Ok a s | None => UB end.
Definition when {S} (b : bool) (m : M S unit) : M S unit := if b then m else ret tt.

Declare Scope kernel_scope.
Delimit Scope kernel_scope with K.
Notation "x <- c ;; k" := (bind c (fun x => k))
  (at level 100, c at next level, k at level 200, right associativity) : kernel_scope.
Notation "' p <- c ;; k" := (bind c (fun x => match x with p => k end))
  (at level 100, p pattern, c at next level, k at level 200, right associativity) : kernel_scope.
Notation "c ;; k" := (bind c (fun _ => k))
  (at level 100, k at level 200, right associativity) : kernel_scope.
#[global] Open Scope kernel_scope.

(** ** Total-correctness triples

    [wp m s Q]: started in [s], [m] returns (no failed assertion, no undefined
    access, no exhausted fuel) and the result and final state satisfy [Q]. *)

Definition wp {S A} (m : M S A) (s : S) (Q : A -> S -> Prop) : Prop :=
  match m s with Ok a s' => Q a s' | _ => False end.

Section wp_rules.
Context {S : Type}.

Lemma wp_ret {A} (a : A) (s : S) Q : Q a s -> wp (ret a) s Q.
Proof. done. Qed.
Lemma wp_bind {A B} (m : M S A) (f : A -> M S B) s Q :
  wp m s (fun a s' => wp (f a) s' Q) -> wp (bind m f) s Q.
Proof. unfold wp, bind. by destruct (m s). Qed.
Lemma wp_unbind {A B} (m : M S A) (f : A -> M S B) s Q :
  wp (bind m f) s Q -> wp m s (fun a s' => wp (f a) s' Q).
Proof. unfold wp, bind. by destruct (m s). Qed.
Lemma wp_mono {A} (m : M S A) s (P Q : A -> S -> Prop) :
  wp m s P -> (forall a s', P a s' -> Q a s') -> wp m s Q.
Proof. unfold wp. destruct (m s); eauto. Qed.
Lemma wp_and {A} (m : M S A) s (P Q : A -> S -> Prop) :
  wp m s P -> wp m s Q -> wp m s (fun a s' => P a s' /\ Q a s').
Proof. unfold wp. destruct (m s); done. Qed.
Lemma wp_get (s : S) Q : Q s s -> wp get s Q.
Proof. done. Qed.
Lemma wp_gets {A} (f : S -> A) s Q : Q (f s) s -> wp (gets f) s Q.
Proof. done. Qed.
Lemma wp_modify (f : S -> S) s Q : Q tt (f s) -> wp (modify f) s Q.
Proof. done. Qed.
Lemma wp_assert b (s : S) Q : b = true -> Q tt s -> wp (RT_ASSERT b) s Q.
Proof. by intros ->. Qed.
Lemma wp_valid b (s : S) Q : b = true -> Q tt s -> wp (valid b) s Q.
Proof. by intros ->. Qed.
Lemma wp_deref {A} (f : S -> option A) a s Q :
  f s = Some a -> Q a s -> wp (deref f) s Q.
Proof. unfold wp, deref. by intros ->. Qed.
Lemma wp_run {A} (m : M S A) s Q : wp m s Q -> exists a s', m s = Ok a s' /\ Q a s'.
Proof. unfold wp. destruct (m s); naive_solver. Qed.
Lemma wp_assoc {A B C} (m : M S A) (f : A -> M S B) (g : B -> M S C) s Q :
  wp (bind (bind m f) g) s Q -> wp (bind m (fun a => bind (f a) g)) s Q.
Proof. unfold wp, bind. by destruct (m s). Qed.
Lemma bind_halt {A B} (m : M S A) (f : A -> M S B) s : m s = Halt -> bind m f s = Halt.
Proof. unfold bind. by intros ->. Qed.
Lemma bind_ok {A B} (m : M S A) (f : A -> M S B) s a s' :
  m s = Ok a s' -> bind m f s = f a s'.
Proof. unfold bind. by intros ->. Qed.
End wp_rules.

(** A routine on a part of the state, run on the whole. *)
(** Up to a point where the whole stops. *)
Lemma bind_to_halt {S A B} (m : M S A) (f : A -> M S B) s : wp m s (fun a s' => f a s' = Halt) -> bind m f s = Halt.
Proof. unfold wp, bind. by destruct (m s). Qed.

Definition zoom {S T A} (part : S -> T) (put : T -> S -> S) (m : M T A) : M S A := fun s =>
  match m (part s) with Ok a t => Ok a (put t s) | Halt => Halt | UB => UB | NoFuel => NoFuel end.

Lemma wp_zoom {S T A} (part : S -> T) (put : T -> S -> S) (m : M T A) s Q :
  wp m (part s) (fun a t => Q a (put t s)) -> wp (zoom part put m) s Q.
Proof. unfold wp, zoom. by destruct (m (part s)). Qed.

(** One step of symbolic execution of a routine under [wp]. *)
Ltac kstep :=
  lazymatch goal with
  | |- wp (ret _) _ _ => apply wp_ret
  | |- wp (bind _ _) _ _ => apply wp_bind
  | |- wp get _ _ => apply wp_get
  | |- wp (gets _) _ _ => apply wp_gets
  | |- wp (modify _) _ _ => apply wp_modify
  | |- wp (if ?b then _ else _) _ _ => destruct b eqn:?
  | |- wp (when _ _) _ _ => unfold when
  | |- wp (match ?o with _ => _ end) _ _ => destruct o eqn:?
  end.
Ltac ksteps := repeat (kstep; cbv beta).

(** ** Loops

    [loop fuel c b a]: [while (c) b] on the local variables [a].  A variant that
    goes down in every turn bounds the fuel that is needed. *)

Fixpoint loop {S A} (fuel : nat) (c : A -> bool) (b : A -> M S A) (a : A) : M S A :=
  if c a then match fuel with O => nofuel | Datatypes.S fuel => a <- b a ;; loop fuel c b a end else ret a.

Lemma wp_loop {S A} (I : A -> S -> Prop) (v : A -> nat) (c : A -> bool) (b : A -> M S A) fuel a s :
  (forall a s, I a s -> c a = true -> wp (b a) s (fun a' s' => I a' s' /\ (v a' < v a)%nat)) ->
  I a s -> (v a <= fuel)%nat -> wp (loop fuel c b a) s (fun a' s' => I a' s' /\ c a' = false).
Proof.
  intros Hstep. revert a s. induction fuel as [|fuel IH]; intros a s HI Hv; cbn [loop]; destruct (c a) eqn:E; try by apply wp_ret.
  - destruct (wp_run _ _ _ (Hstep a s HI E)) as (? & ? & _ & _ & ?). lia.
  - apply wp_bind. eapply wp_mono; [by apply Hstep|]. intros a' s' [HI' Hv']. apply IH; [done|lia].
Qed.

(** ** List lemmas shared by the components *)

Section lists.
Context {A : Type} `{!EqDecision A}.
Implicit Types l : list A.

(** The list with every occurrence of [x] taken out: what
    [rt_list_remove] does to the list a node is linked in. *)
Definition without (x : A) l : list A := filter (fun y => y <> x) l.

Lemma elem_of_without x y l : y ∈ without x l <-> y <> x /\ y ∈ l.
Proof. unfold without. by rewrite list_elem_of_filter. Qed.
Lemma without_notin x l : x ∉ l -> without x l = l.
Proof.
  unfold without. induction l as [|a l IH]; [done|]. intros Hn.
  rewrite filter_cons. case_decide as Ha.
  - f_equal. apply IH. set_solver.
  - exfalso. apply Hn. rewrite Ha. left.
Qed.
Lemma NoDup_without x l : NoDup l -> NoDup (without x l).
Proof. apply NoDup_filter. Qed.
Lemma without_app x l1 l2 : without x (l1 ++ l2) = without x l1 ++ without x l2.
Proof. apply filter_app. Qed.
Lemma without_head x l : NoDup (x :: l) -> without x (x :: l) = l.
Proof.
  intros [Hx _]%NoDup_cons. unfold without. rewrite filter_cons.
  case_decide; [done|]. by apply without_notin.
Qed.
Lemma without_cons_ne x y l : y <> x -> without x (y :: l) = y :: without x l.
Proof. intros. unfold without. rewrite filter_cons. by case_decide. Qed.
Lemma without_mid x l1 l2 : NoDup (l1 ++ x :: l2) -> without x (l1 ++ x :: l2) = l1 ++ l2.
Proof.
  intros (H1 & H2 & H3)%NoDup_app. rewrite without_app, without_head by done.
  rewrite without_notin; [done|]. set_solver.
Qed.
End lists.

Lemma filter_id {A} (P : A -> Prop) `{!forall x, Decision (P x)} (l : list A) :
  (forall x, x ∈ l -> P x) -> filter P l = l.
Proof.
  induction l as [|a l IH]; intros Hall; [done|]. rewrite filter_cons, decide_True by (apply Hall; left).
  f_equal. apply IH. intros x Hx. apply Hall. by right.
Qed.

(** Membership in concrete lists, by propositional reasoning. *)
Ltac lset :=
  repeat first
    [ progress (rewrite ?elem_of_cons, ?elem_of_app, ?elem_of_nil, ?not_elem_of_cons, ?not_elem_of_app in * )
    | progress subst ]; intuition (subst; eauto).

(** ** Strings *)

(** A C string: its characters, none of them NUL, and the terminator. *)
Definition cstring (l : list Z) : list Z := l ++ [0].
Definition chars_ok (l : list Z) : Prop := Forall (fun c => 1 <= c < 2 ^ 8) l.
