(* ===== verification/DList.v ===== *)
(** * Intrusive doubly linked lists (include/rtservice.h)

    The list routines at the level of pointers: a memory maps the address of
    an [rt_list_t] to its [next] and [prev] fields, and each routine performs
    the assignments of the C code, one by one.  [dlist m h xs] says that the
    ring through head [h] holds the nodes [xs] in this order.

    The second half is the refinement: a *list store* maps every head to the
    list of its nodes, and the pointer routines implement its operations
    ([store_append], [store_prepend], [store_insert_before], [store_remove]).
    The kernel state of KState.v is built on list-store operations. *)

From S2P Require Import Prelude.

Module DList.

(** ** The memory of list nodes *)

Record rt_list_node := mkNode { next : Z; prev : Z }.

Abbreviation mem := (gmap Z rt_list_node).

Definition set_next (p v : Z) : M mem unit := fun m =>
  match m !! p with
  | Some nd => Ok tt (<[p := mkNode v (prev nd)]> m)
  | None => UB
  end.
Definition set_prev (p v : Z) : M mem unit := fun m =>
  match m !! p with
  | Some nd => Ok tt (<[p := mkNode (next nd) v]> m)
  | None => UB
  end.
Definition get_next (p : Z) : M mem Z := deref (fun m => next <$> m !! p).
Definition get_prev (p : Z) : M mem Z := deref (fun m => prev <$> m !! p).

(** ** The routines, assignment by assignment *)

Definition rt_list_init (l : Z) : M mem unit :=
  set_prev l l ;; set_next l l.

Definition rt_list_insert_after (l n : Z) : M mem unit :=
  ln <- get_next l ;; set_prev ln n ;;
  ln' <- get_next l ;; set_next n ln' ;;
  set_next l n ;;
  set_prev n l.

Definition rt_list_insert_before (l n : Z) : M mem unit :=
  lp <- get_prev l ;; set_next lp n ;;
  lp' <- get_prev l ;; set_prev n lp' ;;
  set_prev l n ;;
  set_next n l.

Definition rt_list_remove (n : Z) : M mem unit :=
  nn <- get_next n ;; np <- get_prev n ;; set_prev nn np ;;
  np' <- get_prev n ;; nn' <- get_next n ;; set_next np' nn' ;;
  set_prev n n ;; set_next n n.

Definition rt_list_isempty (l : Z) : M mem bool :=
  ln <- get_next l ;; ret (bool_decide (ln = l)).

(** The loop of [rt_list_len], with the cursor [p] and the count [len]. *)
Fixpoint rt_list_len_loop (fuel : nat) (l p len : Z) : M mem Z :=
  match fuel with
  | O => nofuel
  | S fuel =>
      pn <- get_next p ;;
      if bool_decide (pn = l) then ret len
      else rt_list_len_loop fuel l pn (u32 (len + 1))
  end.
Definition rt_list_len (fuel : nat) (l : Z) : M mem Z := rt_list_len_loop fuel l l 0.

(** ** The shape of a list in memory *)

Definition nxt (m : mem) (p : Z) : option Z := next <$> m !! p.
Definition prv (m : mem) (p : Z) : option Z := prev <$> m !! p.

(** Consecutive elements of a path point at each other. *)
Fixpoint linked (m : mem) (l : list Z) : Prop :=
  match l with
  | x :: ((y :: _) as t) => nxt m x = Some y /\ prv m y = Some x /\ linked m t
  | _ => True
  end.

Definition dlist (m : mem) (h : Z) (xs : list Z) : Prop :=
  NoDup (h :: xs) /\ linked m (h :: xs ++ [h]).

(** The effect of both insertions: [n] linked between [x] and [y]. *)
Definition link_between (x n y : Z) (m m' : mem) : Prop :=
  nxt m' x = Some n /\ prv m' n = Some x /\ nxt m' n = Some y /\ prv m' y = Some n /\
  (forall p, p <> x -> p <> n -> nxt m' p = nxt m p) /\
  (forall p, p <> y -> p <> n -> prv m' p = prv m p).

Lemma linked_cons2 m x y t :
  linked m (x :: y :: t) = (nxt m x = Some y /\ prv m y = Some x /\ linked m (y :: t)).
Proof. done. Qed.

Lemma linked_mid m p x q :
  linked m (p ++ x :: q) <-> linked m (p ++ [x]) /\ linked m (x :: q).
Proof.
  induction p as [|a p IH]; cbn [app]; [cbn; tauto|].
  destruct p as [|b p]; cbn [app] in *; cbn [linked]; [cbn; tauto|].
  tauto.
Qed.

Lemma linked_frame m m' l :
  (forall p, p ∈ removelast l -> nxt m' p = nxt m p) ->
  (forall p, p ∈ tail l -> prv m' p = prv m p) ->
  linked m l -> linked m' l.
Proof.
  induction l as [|x l IH]; [done|]. intros Hn Hp Hl.
  destruct l as [|y l]; [done|]. destruct Hl as (H1 & H2 & H3).
  split; [|split].
  - rewrite Hn; [done|]. cbn. left.
  - rewrite Hp; [done|]. cbn. left.
  - apply IH; [| |done].
    + intros p Hi. apply Hn. change (removelast (x :: y :: l)) with (x :: removelast (y :: l)).
      by right.
    + intros p Hi. apply Hp. cbn. right. exact Hi.
Qed.

Lemma removelast_in (l : list Z) (p : Z) : p ∈ removelast l -> p ∈ l.
Proof.
  induction l as [|x l IH]; [done|]. destruct l as [|y l]; cbn; [by intros ?%elem_of_nil|].
  intros [->|H]%elem_of_cons; [left|right]. by apply IH.
Qed.

Lemma tail_in (l : list Z) (p : Z) : p ∈ tail l -> p ∈ l.
Proof. destruct l; [done|]. by right. Qed.

(** The two halves of a path around the edge from [x] to [y] survive a change
    of that edge alone. *)
Lemma linked_halves m m' x n y pre post :
  NoDup (removelast (pre ++ x :: y :: post)) ->
  NoDup (tail (pre ++ x :: y :: post)) ->
  n ∉ pre ++ x :: y :: post ->
  (forall p, p <> x -> p <> n -> nxt m' p = nxt m p) ->
  (forall p, p <> y -> p <> n -> prv m' p = prv m p) ->
  (linked m (pre ++ [x]) -> linked m' (pre ++ [x])) /\
  (linked m (y :: post) -> linked m' (y :: post)).
Proof.
  intros N1 N2 Hn L5 L6.
  assert (forall q, q ∈ pre ++ x :: y :: post -> q <> n) as Hqn by (intros q ? ->; done).
  split; apply linked_frame.
  - intros q Hq. rewrite removelast_last in Hq. apply L5; [|apply Hqn; set_solver].
    rewrite removelast_app in N1 by done. apply NoDup_app in N1 as (_ & Hd & _).
    intros ->. apply (Hd x Hq). left.
  - intros q Hq. pose proof (tail_in _ _ Hq) as Hq'. apply L6; [|apply Hqn; set_solver].
    intros ->. destruct pre as [|z pre]; cbn in Hq; [by apply elem_of_nil in Hq|].
    cbn in N2. apply NoDup_app in N2 as (_ & Hd & N2). apply elem_of_app in Hq as [Hq|Hq].
    + apply (Hd y Hq). right. left.
    + apply list_elem_of_singleton in Hq as ->. apply NoDup_cons in N2 as [N2 _]. apply N2. left.
  - intros q Hq. pose proof (removelast_in _ _ Hq) as Hq'. apply L5; [|apply Hqn; set_solver].
    intros ->. rewrite removelast_app in N1 by done. apply NoDup_app in N1 as (_ & _ & N1).
    change (removelast (x :: y :: post)) with (x :: removelast (y :: post)) in N1.
    apply NoDup_cons in N1 as [? _]. done.
  - intros q Hq. cbn in Hq. apply L6; [|apply Hqn; set_solver]. intros ->.
    assert (NoDup (y :: post)) as [? _]%NoDup_cons; [|done].
    destruct pre; cbn in N2; [done|]. apply NoDup_app in N2 as (_ & _ & N2).
    by apply NoDup_cons in N2 as [_ ?].
Qed.

(** ** What the routines do to the memory *)

Ltac mem_solve :=
  unfold nxt, prv in *; rewrite ?lookup_insert; repeat case_decide; subst;
  simplify_eq; cbn in *;
  repeat match goal with H : ?m !! ?p = Some _ |- context [?m !! ?p] => rewrite H end;
  cbn; auto; try congruence.

(** Symbolic execution of one pointer access whose node is known. *)
Ltac mem_run :=
  repeat first
    [ progress (cbn [prev next fmap option_fmap option_map])
    | match goal with
      | H : ?m !! ?p = Some _ |- context [?m !! ?p] => rewrite H
      | |- context [<[?p := _]> _ !! ?p] => rewrite lookup_insert_eq
      | H : ?p <> ?q |- context [<[?p := _]> _ !! ?q] => rewrite (lookup_insert_ne _ p q) by exact H
      | H : ?q <> ?p |- context [<[?p := _]> _ !! ?q] =>
          rewrite (lookup_insert_ne _ p q) by (intros E; apply H; symmetry; exact E)
      end ].

Lemma insert_after_wp m l n :
  forall y pl yd nd, m !! l = Some (mkNode y pl) -> m !! y = Some yd -> m !! n = Some nd ->
  n <> l -> n <> y ->
  wp (rt_list_insert_after l n) m
     (fun _ m' => link_between l n y m m' /\ dom m' = dom m).
Proof.
  intros y pl yd nd Hl Hy Hn Hnl Hny.
  unfold wp, rt_list_insert_after, bind, get_next, set_prev, set_next, deref.
  destruct (decide (y = l)) as [->|Hyl]; mem_run.
  all: split; [|by rewrite !dom_insert_lookup_L by (rewrite ?lookup_insert; repeat case_decide; eauto)].
  all: repeat split; intros; mem_solve.
Qed.

Lemma insert_before_wp m l n :
  forall x nl xd nd, m !! l = Some (mkNode nl x) -> m !! x = Some xd -> m !! n = Some nd ->
  n <> l -> n <> x ->
  wp (rt_list_insert_before l n) m
     (fun _ m' => link_between x n l m m' /\ dom m' = dom m).
Proof.
  intros x nl xd nd Hl Hx Hn Hnl Hnx.
  unfold wp, rt_list_insert_before, bind, get_prev, set_prev, set_next, deref.
  destruct (decide (x = l)) as [->|Hxl]; mem_run.
  all: split; [|by rewrite !dom_insert_lookup_L by (rewrite ?lookup_insert; repeat case_decide; eauto)].
  all: repeat split; intros; mem_solve.
Qed.

(** The effect of [rt_list_remove]: the neighbours meet, the node points to itself. *)
Definition unlinked (x n y : Z) (m m' : mem) : Prop :=
  nxt m' n = Some n /\ prv m' n = Some n /\ (x <> n -> nxt m' x = Some y) /\
  (y <> n -> prv m' y = Some x) /\
  (forall p, p <> x -> p <> n -> nxt m' p = nxt m p) /\
  (forall p, p <> y -> p <> n -> prv m' p = prv m p).

Lemma remove_wp m n :
  forall x y xd yd, m !! n = Some (mkNode y x) -> m !! x = Some xd -> m !! y = Some yd ->
  wp (rt_list_remove n) m (fun _ m' => unlinked x n y m m' /\ dom m' = dom m).
Proof.
  intros x y xd yd Hn Hx Hy.
  unfold wp, rt_list_remove, bind, get_prev, get_next, set_prev, set_next, deref.
  destruct (decide (y = n)), (decide (x = n)), (decide (x = y));
    subst; try done; simplify_eq; mem_run.
  all: split; [|by rewrite !dom_insert_lookup_L by (rewrite ?lookup_insert; repeat case_decide; eauto)].
  all: repeat split; intros; mem_solve.
Qed.

(** ** From memory to lists *)

Lemma dlist_path h (a b : list Z) x y :
  last (h :: a) = Some x -> head (b ++ [h]) = Some y ->
  exists pre post, h :: (a ++ b) ++ [h] = pre ++ x :: y :: post /\ h :: a = pre ++ [x] /\
    b ++ [h] = y :: post.
Proof.
  intros (pre & Hpre)%last_Some Hy.
  destruct (b ++ [h]) as [|y' post] eqn:Hb; [done|]. injection Hy as ->.
  exists pre, post. split; [|done].
  change (h :: (a ++ b) ++ [h]) with ((h :: a ++ b) ++ [h]).
  rewrite app_comm_cons, Hpre, <- app_assoc, <- app_assoc, Hb. done.
Qed.

Lemma dlist_nodup_path m h xs :
  dlist m h xs -> NoDup (removelast (h :: xs ++ [h])) /\ NoDup (tail (h :: xs ++ [h])).
Proof.
  intros [Hnd _]. change (h :: xs ++ [h]) with ((h :: xs) ++ [h]). rewrite removelast_last.
  split; [done|]. cbn. rewrite <- Permutation_cons_append. done.
Qed.

Lemma dlist_adj m h a b x y :
  dlist m h (a ++ b) -> last (h :: a) = Some x -> head (b ++ [h]) = Some y ->
  nxt m x = Some y /\ prv m y = Some x.
Proof.
  intros [_ Hl] Hx Hy. destruct (dlist_path h a b x y Hx Hy) as (pre & post & Hp & _).
  rewrite Hp in Hl. apply linked_mid in Hl as [_ Hl]. rewrite linked_cons2 in Hl. tauto.
Qed.

Lemma dlist_insert m m' h a b n x y :
  dlist m h (a ++ b) -> last (h :: a) = Some x -> head (b ++ [h]) = Some y ->
  n ∉ h :: a ++ b -> link_between x n y m m' -> dlist m' h (a ++ n :: b).
Proof.
  intros Hd Hx Hy Hn (L1 & L2 & L3 & L4 & L5 & L6).
  pose proof (dlist_nodup_path _ _ _ Hd) as [N1 N2]. destruct Hd as [Hnd Hl]. split.
  - assert ((h :: a ++ n :: b) ≡ₚ (n :: h :: a ++ b)) as -> by (rewrite <- Permutation_middle; constructor).
    by apply NoDup_cons.
  - destruct (dlist_path h a b x y Hx Hy) as (pre & post & Hp & Ha & Hb).
    assert (n ∉ pre ++ x :: y :: post) as Hn'.
    { rewrite <- Hp. change (h :: (a ++ b) ++ [h]) with ((h :: a ++ b) ++ [h]). set_solver. }
    rewrite Hp in *. rewrite <- app_assoc. cbn [app]. rewrite Hb, app_comm_cons, Ha, <- app_assoc.
    destruct (linked_halves m m' x n y pre post) as [F1 F2]; auto.
    apply linked_mid in Hl as [Hl1 Hl2]. rewrite linked_cons2 in Hl2.
    apply linked_mid. cbn [app]. rewrite !linked_cons2. naive_solver.
Qed.

Lemma dlist_remove m m' h a n b x y :
  dlist m h (a ++ n :: b) -> last (h :: a) = Some x -> head (b ++ [h]) = Some y ->
  unlinked x n y m m' -> dlist m' h (a ++ b) /\ dlist m' n [].
Proof.
  intros Hd Hx Hy (U1 & U2 & U3 & U4 & U5 & U6).
  assert (n ∉ h :: a ++ b /\ NoDup (h :: a ++ b)) as [Hn Hnd].
  { destruct Hd as [Hnd _]. rewrite <- Permutation_middle in Hnd.
    rewrite (Permutation_swap n h (a ++ b)) in Hnd. by apply NoDup_cons in Hnd as [??]. }
  split; [split; [done|]|split; [apply NoDup_singleton|cbn; auto]].
  destruct (dlist_path h a b x y Hx Hy) as (pre & post & Hp & Ha & Hb).
  assert (n ∉ pre ++ x :: y :: post) as Hn'.
  { rewrite <- Hp. change (h :: (a ++ b) ++ [h]) with ((h :: a ++ b) ++ [h]). set_solver. }
  assert (NoDup (removelast (pre ++ x :: y :: post)) /\ NoDup (tail (pre ++ x :: y :: post))) as [N1 N2].
  { rewrite <- Hp. change (h :: (a ++ b) ++ [h]) with ((h :: a ++ b) ++ [h]). rewrite removelast_last.
    split; [done|]. cbn. by rewrite <- Permutation_cons_append. }
  destruct Hd as [_ Hl]. change (h :: (a ++ n :: b) ++ [h]) with ((h :: a ++ n :: b) ++ [h]) in Hl.
  rewrite app_comm_cons, Ha, <- !app_assoc in Hl. cbn [app] in Hl. rewrite Hb in Hl.
  rewrite Hp. apply linked_mid in Hl as [Hl1 Hl2]. rewrite !linked_cons2 in Hl2.
  destruct (linked_halves m m' x n y pre post) as [F1 F2]; auto.
  apply linked_mid. rewrite linked_cons2. split; [tauto|].
  repeat split; [apply U3|apply U4|tauto]; intros ->; apply Hn'; set_solver.
Qed.

(** ** The list store and its refinement *)

(** Every head with the nodes of its list; a detached node is a head of an
    empty list, as [rt_list_init] and [rt_list_remove] leave it. *)
Abbreviation store := (gmap Z (list Z)).

Fixpoint insert_before_in (l n : Z) (xs : list Z) : list Z :=
  match xs with
  | [] => []
  | x :: t => if decide (x = l) then n :: x :: t else x :: insert_before_in l n t
  end.

Inductive list_op :=
| LAppend (h n : Z)       (** rt_list_insert_before(&head, &node) *)
| LPrepend (h n : Z)      (** rt_list_insert_after(&head, &node) *)
| LInsertBefore (l n : Z) (** rt_list_insert_before(&other_node, &node) *)
| LRemove (n : Z).        (** rt_list_remove(&node) *)

Definition store_op (op : list_op) (σ : store) : store :=
  match op with
  | LAppend h n => <[h := default [] (σ !! h) ++ [n]]> (delete n σ)
  | LPrepend h n => <[h := n :: default [] (σ !! h)]> (delete n σ)
  | LInsertBefore l n => insert_before_in l n <$> delete n σ
  | LRemove n => <[n := []]> (without n <$> σ)
  end.

Definition ptr_op (op : list_op) : M mem unit :=
  match op with
  | LAppend h n => rt_list_insert_before h n
  | LPrepend h n => rt_list_insert_after h n
  | LInsertBefore l n => rt_list_insert_before l n
  | LRemove n => rt_list_remove n
  end.

(** When the kernel may perform an operation: the inserted node is detached,
    the position is in some list. *)
Definition enabled (σ : store) (op : list_op) : Prop :=
  match op with
  | LAppend h n | LPrepend h n => is_Some (σ !! h) /\ σ !! n = Some [] /\ h <> n
  | LInsertBefore l n => (exists h xs, σ !! h = Some xs /\ l ∈ xs) /\ σ !! n = Some []
  | LRemove n => exists h xs, σ !! h = Some xs /\ (n ∈ xs \/ (n = h /\ xs = []))
  end.

Definition rep (m : mem) (σ : store) : Prop :=
  (forall h xs, σ !! h = Some xs -> dlist m h xs) /\
  (forall h1 xs1 h2 xs2 p, σ !! h1 = Some xs1 -> σ !! h2 = Some xs2 ->
     p ∈ h1 :: xs1 -> p ∈ h2 :: xs2 -> h1 = h2).

Lemma dlist_frame m m' h xs :
  (forall p, p ∈ h :: xs -> nxt m' p = nxt m p /\ prv m' p = prv m p) ->
  dlist m h xs -> dlist m' h xs.
Proof.
  intros HF [Hnd Hl]. split; [done|]. eapply linked_frame; [| |exact Hl].
  - intros p Hp. change (h :: xs ++ [h]) with ((h :: xs) ++ [h]) in Hp.
    rewrite removelast_last in Hp. by apply HF.
  - intros p Hp. cbn in Hp. apply HF. set_solver.
Qed.

Lemma path_ends h (a b : list Z) x y :
  last (h :: a) = Some x -> head (b ++ [h]) = Some y -> x ∈ h :: a ++ b /\ y ∈ h :: a ++ b.
Proof.
  intros Hx Hy. destruct (dlist_path h a b x y Hx Hy) as (pre & post & _ & Ha & Hb). split.
  - rewrite app_comm_cons, Ha. set_solver.
  - assert (y ∈ b ++ [h]) by (rewrite Hb; left). set_solver.
Qed.

Lemma rep_insert m m' σ h a b n x y :
  rep m σ -> σ !! h = Some (a ++ b) -> σ !! n = Some [] -> n <> h ->
  last (h :: a) = Some x -> head (b ++ [h]) = Some y ->
  link_between x n y m m' -> rep m' (<[h := a ++ n :: b]> (delete n σ)).
Proof.
  intros [Hd Hdisj] Hh Hn Hnh Hx Hy Hlk.
  assert (n ∉ h :: a ++ b) as Hnotin.
  { intros Hin. apply Hnh. eapply (Hdisj n [] h (a ++ b) n); eauto. left. }
  pose proof (path_ends h a b x y Hx Hy) as [Hxi Hyi].
  split.
  - intros k xs Hk. apply lookup_insert_Some in Hk as [[<- <-]|[Hkh Hk]].
    { eapply dlist_insert; eauto. }
    apply lookup_delete_Some in Hk as [Hkn Hk].
    apply (dlist_frame m); [|by apply Hd].
    destruct Hlk as (_ & _ & _ & _ & L5 & L6). intros p Hp.
    assert (forall q, q ∈ h :: a ++ b -> p <> q) as Hph.
    { intros q Hq ->. apply Hkh. exact (Hdisj h _ k _ q Hh Hk Hq Hp). }
    assert (p <> n) as Hpn.
    { intros ->. apply Hkn. refine (Hdisj n _ k _ n Hn Hk _ Hp). left. }
    split; [apply L5|apply L6]; auto.
  - assert (forall k xs p, <[h := a ++ n :: b]> (delete n σ) !! k = Some xs -> p ∈ k :: xs ->
      (p = n /\ k = h) \/ (p <> n /\ exists xs', σ !! k = Some xs' /\ p ∈ k :: xs')) as Hback.
    { intros k xs p Hk Hp. apply lookup_insert_Some in Hk as [[<- <-]|[Hkh Hk]].
      - destruct (decide (p = n)) as [->|Hpn]; [by left|].
        right. split; [done|]. exists (a ++ b). split; [done|]. revert Hp.
        rewrite !elem_of_cons, !elem_of_app, !elem_of_cons. tauto.
      - apply lookup_delete_Some in Hk as [Hkn Hk]. right. split; [|eauto].
        intros ->. apply Hkn. refine (Hdisj n _ k _ n Hn Hk _ Hp). left. }
    intros k1 xs1 k2 xs2 p H1 H2 Hp1 Hp2.
    destruct (Hback _ _ _ H1 Hp1) as [[-> ->]|(Hn1 & ys1 & G1 & P1)],
      (Hback _ _ _ H2 Hp2) as [[? ->]|(Hn2 & ys2 & G2 & P2)]; try done. eauto.
Qed.

Lemma rep_remove m m' σ h a n b x y :
  rep m σ -> σ !! h = Some (a ++ n :: b) ->
  last (h :: a) = Some x -> head (b ++ [h]) = Some y ->
  unlinked x n y m m' -> rep m' (<[n := []]> (<[h := a ++ b]> σ)).
Proof.
  intros [Hd Hdisj] Hh Hx Hy Hun.
  destruct (dlist_remove m m' h a n b x y (Hd _ _ Hh) Hx Hy Hun) as [D1 D2].
  assert (n ∉ h :: a ++ b) as Hnotin.
  { destruct (Hd _ _ Hh) as [Hnd _]. rewrite <- Permutation_middle in Hnd.
    rewrite (Permutation_swap n h (a ++ b)) in Hnd. by apply NoDup_cons in Hnd as [??]. }
  pose proof (path_ends h a b x y Hx Hy) as [Hxi Hyi].
  assert (forall q, q ∈ n :: h :: a ++ b -> q ∈ h :: a ++ n :: b) as Hsub by (intros q; rewrite !elem_of_cons, !elem_of_app, !elem_of_cons; tauto).
  split.
  - intros k xs Hk. apply lookup_insert_Some in Hk as [[<- <-]|[Hkn Hk]]; [done|].
    apply lookup_insert_Some in Hk as [[<- <-]|[Hkh Hk]]; [done|].
    apply (dlist_frame m); [|by apply Hd].
    destruct Hun as (_ & _ & _ & _ & U5 & U6). intros p Hp.
    assert (forall q, q ∈ n :: h :: a ++ b -> p <> q) as Hpq.
    { intros q Hq ->. apply Hkh. exact (Hdisj h _ k _ q Hh Hk (Hsub _ Hq) Hp). }
    split; [apply U5|apply U6]; apply Hpq; rewrite elem_of_cons; auto.
  - assert (forall k xs p, <[n := []]> (<[h := a ++ b]> σ) !! k = Some xs -> p ∈ k :: xs ->
      (p = n /\ k = n) \/ (p <> n /\ exists xs', σ !! k = Some xs' /\ p ∈ k :: xs')) as Hback.
    { intros k xs p Hk Hp. apply lookup_insert_Some in Hk as [[<- <-]|[Hkn Hk]].
      { left. apply elem_of_cons in Hp as [->|?%elem_of_nil]; done. }
      apply lookup_insert_Some in Hk as [[<- <-]|[Hkh Hk]]; right.
      - split; [by intros ->|]. exists (a ++ n :: b). split; [done|]. apply Hsub. by right.
      - split; [|eauto]. intros ->. apply Hkh.
        refine (Hdisj h _ k _ n Hh Hk _ Hp). apply Hsub. left. }
    intros k1 xs1 k2 xs2 p H1 H2 Hp1 Hp2.
    destruct (Hback _ _ _ H1 Hp1) as [[-> ->]|(Hn1 & ys1 & G1 & P1)],
      (Hback _ _ _ H2 Hp2) as [[? ->]|(Hn2 & ys2 & G2 & P2)]; try done. eauto.
Qed.

Lemma insert_before_in_notin l n xs : l ∉ xs -> insert_before_in l n xs = xs.
Proof.
  induction xs as [|x t IH]; [done|]. intros Hn. cbn. case_decide; [set_solver|].
  f_equal. apply IH. set_solver.
Qed.
Lemma insert_before_in_mid l n a b :
  l ∉ a -> insert_before_in l n (a ++ l :: b) = a ++ n :: l :: b.
Proof.
  induction a as [|x t IH]; cbn; intros Hn; [by rewrite decide_True|].
  case_decide; [set_solver|]. f_equal. apply IH. set_solver.
Qed.

(** Node contents at the two ends of an insertion point. *)
Lemma rep_edge m σ h a b x y :
  rep m σ -> σ !! h = Some (a ++ b) -> last (h :: a) = Some x -> head (b ++ [h]) = Some y ->
  (exists px, m !! x = Some (mkNode y px)) /\ (exists ny, m !! y = Some (mkNode ny x)).
Proof.
  intros [Hd _] Hh Hx Hy. destruct (dlist_adj m h a b x y (Hd _ _ Hh) Hx Hy) as [H1 H2].
  unfold nxt, prv in *. destruct (m !! x) as [[]|] eqn:E1, (m !! y) as [[]|] eqn:E2; try done.
  cbn in *. simplify_eq. eauto.
Qed.

Lemma rep_node m σ n : rep m σ -> σ !! n = Some [] -> exists nd, m !! n = Some nd.
Proof.
  intros [Hd _] Hn. destruct (Hd _ _ Hn) as [_ Hl]. cbn in Hl. unfold nxt in Hl.
  destruct (m !! n); [eauto|]. by destruct Hl.
Qed.

Lemma rep_ends h (a b : list Z) :
  exists x y, last (h :: a) = Some x /\ head (b ++ [h]) = Some y.
Proof.
  destruct (last (h :: a)) as [x|] eqn:E; [|by apply last_None in E].
  destruct b; cbn; eauto.
Qed.

(** An insertion of the detached node [n] at the place [a ++ . ++ b] of the
    list of [h], done by either insertion routine. *)
Lemma rep_insert_wp m σ h a b n (c : M mem unit) x y :
  rep m σ -> σ !! h = Some (a ++ b) -> σ !! n = Some [] -> n <> h ->
  last (h :: a) = Some x -> head (b ++ [h]) = Some y ->
  c = rt_list_insert_after x n \/ c = rt_list_insert_before y n ->
  wp c m (fun _ m' => rep m' (<[h := a ++ n :: b]> (delete n σ))).
Proof.
  intros Hr Hh Hn Hnh Hx Hy Hc.
  destruct (rep_edge m σ h a b x y Hr Hh Hx Hy) as [[px Hmx] [ny Hmy]].
  destruct (rep_node m σ n Hr Hn) as [nd Hmn].
  pose proof (path_ends h a b x y Hx Hy) as [Hxi Hyi].
  assert (n ∉ h :: a ++ b) as Hnotin.
  { intros Hin. apply Hnh. destruct Hr as [_ Hdisj]. refine (Hdisj n [] h _ n Hn Hh _ Hin). left. }
  destruct Hc as [-> | ->].
  - eapply wp_mono; [eapply insert_after_wp; eauto; congruence|].
    intros _ m' [Hlk _]. eapply rep_insert; eauto.
  - eapply wp_mono; [eapply insert_before_wp; eauto; congruence|].
    intros _ m' [Hlk _]. eapply rep_insert; eauto.
Qed.

Lemma store_notin_other m σ h xs l :
  rep m σ -> σ !! h = Some xs -> l ∈ xs -> forall k ys, σ !! k = Some ys -> k <> h -> l ∉ ys.
Proof.
  intros [_ Hdisj] Hh Hl k ys Hk Hkh Hin. apply Hkh.
  refine (Hdisj k ys h xs l Hk Hh _ _); by right.
Qed.

(** The map-wide operations of the store touch one list only. *)
Lemma store_insert_before_eq m σ h a l b n :
  rep m σ -> σ !! h = Some (a ++ l :: b) -> n <> h ->
  insert_before_in l n <$> delete n σ = <[h := a ++ n :: l :: b]> (delete n σ).
Proof.
  intros Hr Hh Hnh. assert (l ∈ a ++ l :: b) as Hl by set_solver.
  assert (l ∉ a) as Hla.
  { destruct Hr as [Hd _]. destruct (Hd _ _ Hh) as [Hnd _].
    apply NoDup_cons in Hnd as [_ Hnd]. apply NoDup_app in Hnd as (_ & Hd' & _).
    intros Hin. apply (Hd' l Hin). left. }
  apply map_eq. intros k. rewrite lookup_fmap, lookup_insert. case_decide as E.
  - subst k. rewrite lookup_delete_ne, Hh by done. cbn. by rewrite insert_before_in_mid.
  - rewrite lookup_delete. case_decide; [done|].
    destruct (σ !! k) as [ys|] eqn:Ek; [|done]. cbn. f_equal.
    apply insert_before_in_notin. eapply (store_notin_other m σ h); eauto.
Qed.

Lemma store_remove_eq m σ h a n b :
  rep m σ -> σ !! h = Some (a ++ n :: b) -> without n <$> σ = <[h := a ++ b]> σ.
Proof.
  intros Hr Hh. assert (n ∈ a ++ n :: b) as Hn by set_solver.
  apply map_eq. intros k. rewrite lookup_fmap, lookup_insert. case_decide as E.
  - subst k. rewrite Hh. cbn. rewrite without_mid; [done|].
    destruct Hr as [Hd _]. destruct (Hd _ _ Hh) as [Hnd _]. by apply NoDup_cons in Hnd as [_ ?].
  - destruct (σ !! k) as [ys|] eqn:Ek; [|done]. cbn. f_equal. apply without_notin.
    eapply (store_notin_other m σ h); eauto.
Qed.

Lemma rep_remove_linked_wp m σ h a n b :
  rep m σ -> σ !! h = Some (a ++ n :: b) ->
  wp (rt_list_remove n) m (fun _ m' => rep m' (<[n := []]> (<[h := a ++ b]> σ))).
Proof.
  intros Hr Hh. destruct (rep_ends h a b) as (x & y & Hx & Hy).
  destruct (rep_edge m σ h a (n :: b) x n Hr Hh Hx eq_refl) as [[px Hmx] [nn Hmn']].
  assert (σ !! h = Some ((a ++ [n]) ++ b)) as Hh' by (by rewrite <- app_assoc).
  assert (last (h :: a ++ [n]) = Some n) as Hlast by (rewrite app_comm_cons, last_snoc; done).
  destruct (rep_edge m σ h (a ++ [n]) b n y Hr Hh' Hlast Hy) as [[pn Hmn] [ny Hmy]].
  rewrite Hmn in Hmn'. injection Hmn' as <- ->.
  eapply wp_mono; [eapply remove_wp; eauto|]. intros _ m' [Hun _]. eapply rep_remove; eauto.
Qed.

Lemma rep_remove_detached_wp m σ h :
  rep m σ -> σ !! h = Some [] ->
  wp (rt_list_remove h) m (fun _ m' => rep m' (<[h := []]> (without h <$> σ))).
Proof.
  intros Hr Hh. assert (<[h := []]> (without h <$> σ) = σ) as ->.
  { apply map_eq. intros k. rewrite lookup_insert. case_decide as E; [by subst|].
    rewrite lookup_fmap. destruct (σ !! k) as [ys|] eqn:Ek; [|done]. cbn. f_equal.
    apply without_notin. intros Hin. apply E. destruct Hr as [_ Hdisj].
    refine (Hdisj h [] k ys h Hh Ek _ _); [left|by right]. }
  destruct (rep_edge m σ h [] [] h h Hr Hh eq_refl eq_refl) as [[px Hm] [ny Hm']].
  rewrite Hm in Hm'. injection Hm' as E1 E2. subst ny px.
  eapply wp_mono; [eapply remove_wp; eauto|]. intros _ m' [(U1 & U2 & _ & _ & U5 & U6) _].
  destruct Hr as [Hd Hdisj]. split; [|done].
  intros k ys Hk. apply (dlist_frame m); [|by apply Hd]. intros p _.
  destruct (decide (p = h)) as [Ep|]; [|split; [apply U5|apply U6]; done].
  subst p. unfold nxt, prv in *. rewrite Hm, U1, U2. done.
Qed.

(** C21: The pointer routines of rtservice.h refine the list store: from a
    memory that represents a store (disjoint rings, one per head), every
    insertion of a detached node and every removal returns, and the resulting
    memory represents the store with the list operation applied; the nodes of
    all other lists keep their links. *)
Theorem dlist_refines_store m σ op :
  rep m σ -> enabled σ op -> wp (ptr_op op) m (fun _ m' => rep m' (store_op op σ)).
Proof.
  intros Hr Hen. destruct op as [h n|h n|l n|n]; cbn [ptr_op store_op enabled] in *.
  - destruct Hen as ([xs Hh] & Hn & Hhn). rewrite Hh. cbn [default].
    destruct (rep_ends h xs []) as (x & y & Hx & Hy).
    eapply (rep_insert_wp m σ h xs []); eauto; [by rewrite app_nil_r|].
    cbn in Hy. injection Hy as <-. by right.
  - destruct Hen as ([xs Hh] & Hn & Hhn). rewrite Hh. cbn [default].
    destruct (rep_ends h [] xs) as (x & y & Hx & Hy).
    eapply (rep_insert_wp m σ h [] xs); eauto.
    cbn in Hx. injection Hx as <-. by left.
  - destruct Hen as ((h & xs & Hh & Hl) & Hn). apply list_elem_of_split in Hl as (a & b & ->).
    assert (n <> h) as Hnh by (intros ->; rewrite Hh in Hn; by destruct a).
    rewrite (store_insert_before_eq m σ h a l b n) by done.
    destruct (rep_ends h a (l :: b)) as (x & y & Hx & Hy).
    eapply (rep_insert_wp m σ h a (l :: b)); eauto. cbn in Hy. injection Hy as <-. by right.
  - destruct Hen as (h & xs & Hh & [Hl|[-> ->]]); [|by apply rep_remove_detached_wp].
    apply list_elem_of_split in Hl as (a & b & ->).
    rewrite (store_remove_eq m σ h a n b) by done. by apply rep_remove_linked_wp.
Qed.

(** Two heads, one of them with two nodes, and a detached node. *)
Definition demo_mem : mem :=
  <[10 := mkNode 11 12]> (<[11 := mkNode 12 10]> (<[12 := mkNode 10 11]>
  (<[20 := mkNode 20 20]> {[30 := mkNode 30 30]}))).
Definition demo_store : store := <[10 := [11; 12]]> (<[20 := []]> {[30 := []]}).

Lemma demo_rep : rep demo_mem demo_store.
Proof.
  unfold demo_store. split.
  - intros h xs Hh. repeat (apply lookup_insert_Some in Hh as [[<- <-]|[_ Hh]]);
      [..|apply lookup_singleton_Some in Hh as [<- <-]];
      (split; [repeat constructor; set_solver|by vm_compute]).
  - intros h1 xs1 h2 xs2 p H1 H2 Hp1 Hp2.
    repeat (apply lookup_insert_Some in H1 as [[<- <-]|[_ H1]]);
      [..|apply lookup_singleton_Some in H1 as [<- <-]];
    (repeat (apply lookup_insert_Some in H2 as [[<- <-]|[_ H2]]);
      [..|apply lookup_singleton_Some in H2 as [<- <-]]); try done; exfalso;
    rewrite ?elem_of_cons, ?elem_of_nil in *; lia.
Qed.

Lemma dlist_refines_store_witness :
  exists m', ptr_op (LInsertBefore 12 30) demo_mem = Ok tt m' /\
    rep m' (store_op (LInsertBefore 12 30) demo_store) /\
    store_op (LInsertBefore 12 30) demo_store !! 10 = Some [11; 30; 12].
Proof.
  destruct (wp_run _ _ _ (dlist_refines_store demo_mem demo_store (LInsertBefore 12 30) demo_rep
    ltac:(split; [exists 10, [11; 12]; split; [reflexivity|set_solver]|reflexivity])))
    as ([] & m' & E & Hr).
  exists m'. split; [exact E|]. split; [exact Hr|]. vm_compute. reflexivity.
Defined.

(** ** Queries *)

Lemma rt_list_isempty_ok m h xs :
  dlist m h xs -> wp (rt_list_isempty h) m (fun b m' => m' = m /\ (b = true <-> xs = [])).
Proof.
  intros [Hnd Hl]. unfold rt_list_isempty, wp, bind, get_next, deref.
  destruct xs as [|x xs]; cbn [app] in Hl; rewrite linked_cons2 in Hl; destruct Hl as (Hn & _);
    unfold nxt in Hn; rewrite Hn; cbn; (split; [done|]).
  - by rewrite bool_decide_true.
  - apply NoDup_cons in Hnd as [Hnd _]. rewrite bool_decide_false by (intros ->; set_solver). done.
Qed.

Lemma rt_list_len_loop_ok m h ys : forall p len fuel,
  linked m (p :: ys ++ [h]) -> h ∉ ys -> (length ys < fuel)%nat ->
  0 <= len -> len + Z.of_nat (length ys) < 2 ^ 32 ->
  rt_list_len_loop fuel h p len m = Ok (len + Z.of_nat (length ys)) m.
Proof.
  induction ys as [|y ys IH]; intros p len [|fuel] Hl Hh Hf Hlen Hb; cbn [length] in *; try lia;
    cbn [rt_list_len_loop app] in *; rewrite linked_cons2 in Hl; destruct Hl as (Hn & _ & Hl);
    unfold bind, get_next, deref; unfold nxt in Hn; rewrite Hn.
  - rewrite bool_decide_true by done. cbn. f_equal. lia.
  - rewrite bool_decide_false by set_solver. rewrite IH; [|done|set_solver|lia| |].
    + f_equal. rewrite u32_small; lia.
    + pose proof (u32_range (len + 1)). lia.
    + rewrite u32_small; lia.
Qed.

(** [rt_list_len] walks the ring once and returns the number of nodes
    linked between the head and itself; one iteration more than that number
    is enough, and the memory is only read. *)
Theorem rt_list_len_ok m h xs fuel :
  dlist m h xs -> (length xs < fuel)%nat -> Z.of_nat (length xs) < 2 ^ 32 ->
  rt_list_len fuel h m = Ok (Z.of_nat (length xs)) m.
Proof.
  intros [Hnd Hl] Hf Hb. apply NoDup_cons in Hnd as [Hnd _].
  unfold rt_list_len. rewrite (rt_list_len_loop_ok m h xs); auto; lia.
Qed.

Lemma rt_list_len_ok_witness : rt_list_len 3 10 demo_mem = Ok 2 demo_mem.
Proof.
  apply (rt_list_len_ok demo_mem 10 [11; 12] 3);
    [apply (proj1 demo_rep 10 [11; 12]); reflexivity|cbn; lia|cbn; lia].
Defined.

End DList.
