(* ===== verification/SList.v ===== *)
(** * Singly linked lists (include/rtservice.h)

    rt_slist_t at the level of pointers: a memory maps the address of a node to
    its next field, 0 being RT_NULL.  [slist m h xs] says that the list with head
    [h] holds the nodes [xs]; the routines implement operations on sequences,
    which RingBlk.v is built on. *)

From S2P Require Import Prelude.

Module SList.

Abbreviation mem := (gmap Z Z).

Definition get_next (p : Z) : M mem Z := deref (fun m => m !! p).
Definition set_next (p v : Z) : M mem unit := get_next p ;; modify <[p := v]>.

Definition rt_slist_init (l : Z) : M mem unit := set_next l 0.

(** while (node->next) node = node->next; *)
Fixpoint last_node (fuel : nat) (node : Z) : M mem Z :=
  match fuel with
  | O => nofuel
  | S fuel => next <- get_next node ;; if next =? 0 then ret node else last_node fuel next
  end.
Definition rt_slist_append (fuel : nat) (l n : Z) : M mem unit :=
  node <- last_node fuel l ;; set_next node n ;; set_next n 0.

Definition rt_slist_insert (l n : Z) : M mem unit :=
  next <- get_next l ;; set_next n next ;; set_next l n.

Fixpoint slist_len_loop (fuel : nat) (list len : Z) : M mem Z :=
  match fuel with
  | O => nofuel
  | S fuel => if list =? 0 then ret len else next <- get_next list ;; slist_len_loop fuel next (u32 (len + 1))
  end.
Definition rt_slist_len (fuel : nat) (l : Z) : M mem Z := list <- get_next l ;; slist_len_loop fuel list 0.

(** while (node->next && node->next != n) node = node->next; *)
Fixpoint node_before (fuel : nat) (node n : Z) : M mem Z :=
  match fuel with
  | O => nofuel
  | S fuel => next <- get_next node ;; if (next =? 0) || (next =? n) then ret node else node_before fuel next n
  end.
Definition rt_slist_remove (fuel : nat) (l n : Z) : M mem Z :=
  node <- node_before fuel l n ;;
  next <- get_next node ;;
  (if negb (next =? 0) then nn <- get_next next ;; set_next node nn else ret tt) ;;
  ret l.

Definition rt_slist_first (l : Z) : M mem Z := get_next l.
Definition rt_slist_tail (fuel : nat) (l : Z) : M mem Z := last_node fuel l.
Definition rt_slist_next (n : Z) : M mem Z := get_next n.
Definition rt_slist_isempty (l : Z) : M mem bool := next <- get_next l ;; ret (next =? 0).

(** ** The shape of a list *)

(** From [p] through [xs], the last next field being [e]. *)
Fixpoint chain (m : mem) (p : Z) (xs : list Z) (e : Z) : Prop :=
  match xs with [] => m !! p = Some e | x :: xs => m !! p = Some x /\ chain m x xs e end.
Definition slist (m : mem) (h : Z) (xs : list Z) : Prop := NoDup (h :: xs) /\ 0 ∉ xs /\ chain m h xs 0.

Lemma chain_app m p a x b e : chain m p (a ++ x :: b) e <-> chain m p a x /\ chain m x b e.
Proof. revert p. induction a as [|y a IH]; intros p; cbn; [done|]. rewrite IH. tauto. Qed.
Lemma chain_frame m m' p xs e : (forall q, q ∈ p :: xs -> m' !! q = m !! q) -> chain m p xs e -> chain m' p xs e.
Proof.
  revert p. induction xs as [|x xs IH]; intros p H; cbn; [by rewrite H by left|]. rewrite H by left. intros [? ?]. split; [done|]. apply IH; [|done]. intros q Hq. apply H. by right.
Qed.
(** The list up to the node where a change is made. *)
Lemma chain_last m p xs e : chain m p xs e -> exists a z, p :: xs = a ++ [z] /\ m !! z = Some e /\ forall m' e', (forall q, q ∈ a -> m' !! q = m !! q) -> m' !! z = Some e' -> chain m' p xs e'.
Proof.
  revert p. induction xs as [|x xs IH]; intros p; cbn.
  - intros E. exists [], p. by split_and!.
  - intros [E Hc]. destruct (IH x Hc) as (a & z & Ea & Ez & H). exists (p :: a), z. split; [by rewrite Ea|]. split; [done|]. intros m' e' Hq Hz. split; [by rewrite Hq by left|]. apply H; [|done]. intros q ?. apply Hq. by right.
Qed.

Lemma wp_slist_set_next p v v0 m Q : m !! p = Some v0 -> Q tt (<[p := v]> m) -> wp (set_next p v) m Q.
Proof. intros E H. unfold set_next, get_next. apply wp_bind. apply (wp_deref _ v0); [done|]. by apply wp_modify. Qed.

Lemma last_node_wp fuel m p xs : 0 ∉ xs -> chain m p xs 0 -> (length xs < fuel)%nat -> wp (last_node fuel p) m (fun r m' => m' = m /\ exists a, p :: xs = a ++ [r] /\ m !! r = Some 0).
Proof.
  revert fuel p. induction xs as [|x xs IH]; intros [|fuel] p H0 Hc Hf; cbn in Hf; try lia; cbn [last_node chain] in *.
  - apply wp_bind, (wp_deref _ 0); [done|]. cbn. apply wp_ret. split; [done|]. by exists [].
  - destruct Hc as [E Hc]. apply wp_bind, (wp_deref _ x); [done|]. apply not_elem_of_cons in H0 as [H0 H0']. rewrite (proj2 (Z.eqb_neq x 0)) by congruence.
    eapply wp_mono; [apply (IH fuel x H0' Hc); lia|]. intros r m' (-> & a & Ea & Er). split; [done|]. exists (p :: a). by rewrite Ea.
Qed.

Lemma node_before_absent fuel m p xs n : 0 ∉ xs -> n ∉ xs -> chain m p xs 0 -> (length xs < fuel)%nat -> wp (node_before fuel p n) m (fun r m' => m' = m /\ m !! r = Some 0).
Proof.
  revert fuel p. induction xs as [|x xs IH]; intros [|fuel] p H0 Hn Hc Hf; cbn in Hf; try lia; cbn [node_before chain] in *.
  - apply wp_bind, (wp_deref _ 0); [done|]. cbn. by apply wp_ret.
  - destruct Hc as [E Hc]. apply wp_bind, (wp_deref _ x); [done|]. apply not_elem_of_cons in H0 as [H0 H0'], Hn as [Hn Hn']. rewrite !(proj2 (Z.eqb_neq x _)) by congruence. apply (IH fuel x); [done..|lia].
Qed.
Lemma node_before_present fuel m p a n b : 0 ∉ a -> n ∉ a -> n <> 0 -> chain m p (a ++ n :: b) 0 -> (length a < fuel)%nat ->
  wp (node_before fuel p n) m (fun r m' => m' = m /\ m !! r = Some n /\ exists a', p :: a = a' ++ [r]).
Proof.
  intros H0 Hn Hnz. revert fuel p. induction a as [|x a IH]; intros [|fuel] p Hc Hf; cbn in Hf; try lia; cbn [node_before app chain] in *.
  - destruct Hc as [E _]. apply wp_bind, (wp_deref _ n); [done|]. rewrite Z.eqb_refl, orb_true_r. apply wp_ret. split_and!; [done|done|]. by exists [].
  - destruct Hc as [E Hc]. apply wp_bind, (wp_deref _ x); [done|]. apply not_elem_of_cons in H0 as [H0 H0'], Hn as [Hn Hn']. rewrite !(proj2 (Z.eqb_neq x _)) by congruence.
    eapply wp_mono; [apply (IH H0' Hn' fuel x Hc); lia|]. intros r m' (-> & Er & a' & Ea). split_and!; [done|done|]. exists (p :: a'). by rewrite Ea.
Qed.

Lemma slist_len_loop_wp fuel m xs : forall p len, 0 ∉ xs -> chain m p xs 0 -> (length xs < fuel)%nat -> 0 <= len -> len + Z.of_nat (length xs) < 2 ^ 32 ->
  wp (next <- get_next p ;; slist_len_loop fuel next len) m (fun r m' => m' = m /\ r = len + Z.of_nat (length xs)).
Proof.
  revert fuel. induction xs as [|x xs IH]; intros [|fuel] p len H0 Hc Hf Hl Hb; cbn in Hf; try lia; cbn [slist_len_loop chain] in *.
  - apply wp_bind, (wp_deref _ 0); [done|]. cbn. apply wp_ret. split; [done|]. lia.
  - destruct Hc as [E Hc]. apply wp_bind, (wp_deref _ x); [done|]. apply not_elem_of_cons in H0 as [H0 H0']. rewrite (proj2 (Z.eqb_neq x 0)) by congruence. cbn [length] in Hb. rewrite u32_small by lia.
    eapply wp_mono; [apply (IH fuel x (len + 1)); [done|done|lia..]|]. intros r m' [-> ->]. split; [done|]. cbn [length]. lia.
Qed.

(** A node whose next field comes to point past [n], or to a new node. *)
Lemma chain_redirect m p e xs : m !! p = Some e -> chain m p xs 0 -> forall m' r, m' !! r = Some (default 0 (head xs)) -> (forall q, q ∈ xs -> m' !! q = m !! q) -> chain m' r xs 0.
Proof. intros _ Hc m' r Er Hq. destruct xs as [|x xs]; cbn in *; [done|]. destruct Hc as [_ Hc]. split; [done|]. by apply (chain_frame m). Qed.
Lemma chain_first m p xs : chain m p xs 0 -> m !! p = Some (default 0 (head xs)).
Proof. destruct xs as [|x xs]; cbn; [done|]. by intros [? _]. Qed.

Section ops.
Context (m : mem) (h : Z) (xs : list Z) (n : Z) (fuel : nat).
Context (Hs : slist m h xs) (Hnz : n <> 0) (Hnh : n <> h) (Hmem : is_Some (m !! n)) (Hf : (length xs < fuel)%nat).

Lemma slist_append_wp : n ∉ xs -> wp (rt_slist_append fuel h n) m (fun _ m' => slist m' h (xs ++ [n]) /\ forall q, q ∉ h :: n :: xs -> m' !! q = m !! q).
Proof using Hs Hnz Hnh Hmem Hf.
  destruct Hs as (Hd & H0 & Hc), Hmem as [vn En]. intros Hn. unfold rt_slist_append. apply wp_bind. eapply wp_mono; [by apply (last_node_wp fuel m h xs H0 Hc)|]. intros r m' (-> & a & Ea & Er).
  assert (r ∈ h :: xs) as Hr by (rewrite Ea; apply elem_of_app; right; left). assert (n ∉ h :: xs) as Hn' by (apply not_elem_of_cons; by split). assert (r <> n) as Hrn by congruence.
  apply wp_bind, (wp_slist_set_next _ _ 0); [done|]. apply (wp_slist_set_next _ _ vn); [by rewrite lookup_insert_ne|]. split.
  - split; [|split; [intros [?|?%list_elem_of_singleton]%elem_of_app; [done|congruence]|]].
    + change (h :: xs ++ [n]) with ((h :: xs) ++ [n]). apply NoDup_app. split; [done|]. split; [|apply NoDup_singleton]. intros x Hx ->%list_elem_of_singleton. done.
    + apply chain_app. split; [|cbn; by rewrite lookup_insert_eq]. destruct (chain_last m h xs 0 Hc) as (a' & z & Ea' & Ez & H). rewrite Ea in Ea'. apply app_inj_tail in Ea' as [<- <-]. apply H; [|by rewrite lookup_insert_ne, lookup_insert_eq].
      intros q Hq. rewrite !lookup_insert_ne; [done| |]; intros ->; [rewrite Ea in Hd; apply NoDup_app in Hd as (_ & Hd & _); apply (Hd q Hq); left|apply Hn'; rewrite Ea; apply elem_of_app; by left].
  - intros q Hq. rewrite !not_elem_of_cons in Hq. rewrite !lookup_insert_ne; [done| |]; intros ->; [apply elem_of_cons in Hr|]; tauto.
Qed.

Lemma slist_insert_wp : n ∉ xs -> wp (rt_slist_insert h n) m (fun _ m' => slist m' h (n :: xs) /\ forall q, q ∉ h :: n :: xs -> m' !! q = m !! q).
Proof using Hs Hnz Hnh Hmem.
  destruct Hs as (Hd & H0 & Hc), Hmem as [vn En]. intros Hn. pose proof (chain_first m h xs Hc) as Ee. apply NoDup_cons in Hd as [Hh Hd].
  unfold rt_slist_insert. apply wp_bind, (wp_deref _ (default 0 (head xs))); [done|]. apply wp_bind, (wp_slist_set_next _ _ vn); [done|]. eapply wp_slist_set_next; [by rewrite lookup_insert_ne|]. split.
  - split; [|split; [intros [?|?]%elem_of_cons; [congruence|done]|]].
    + apply NoDup_cons. split; [intros [?|?]%elem_of_cons; [congruence|done]|]. by apply NoDup_cons.
    + cbn. split; [by rewrite lookup_insert_eq|]. apply (chain_redirect m h _ xs Ee Hc); [by rewrite lookup_insert_ne, lookup_insert_eq by done|]. intros q Hq. rewrite !lookup_insert_ne; [done|intros ->; done..].
  - intros q Hq. rewrite !not_elem_of_cons in Hq. rewrite !lookup_insert_ne; [done|intros ->; tauto..].
Qed.

Lemma slist_remove_wp : wp (rt_slist_remove fuel h n) m (fun r m' => r = h /\ slist m' h (without n xs) /\ forall q, q ∉ h :: xs -> m' !! q = m !! q).
Proof using Hs Hnz Hf.
  destruct Hs as (Hd & H0 & Hc). unfold rt_slist_remove. apply wp_bind. destruct (decide (n ∈ xs)) as [Hin|Hn].
  - apply list_elem_of_split in Hin as (a & b & ->). pose proof Hd as [_ Hd']%NoDup_cons. rewrite without_mid by done. assert (n ∉ a /\ 0 ∉ a) as [Hna H0a].
    { rewrite not_elem_of_app in H0. split; [|tauto]. apply NoDup_app in Hd' as (_ & Hd1 & _). intros Hx. apply (Hd1 n Hx). left. }
    eapply wp_mono; [apply (node_before_present fuel m h a n b); [done..|rewrite length_app in Hf; lia]|]. intros r m' (-> & Er & a' & Ea). apply wp_bind, (wp_deref _ n); [done|]. rewrite (proj2 (Z.eqb_neq n 0)) by done. cbn [negb].
    apply chain_app in Hc as [Hc1 Hc2]. pose proof (chain_first m n b Hc2) as Ee. apply wp_bind, wp_bind, (wp_deref _ (default 0 (head b))); [done|]. apply (wp_slist_set_next _ _ n); [done|]. apply wp_ret. split; [done|].
    change (h :: a ++ n :: b) with ((h :: a) ++ n :: b) in *. rewrite Ea in Hd |- *. rewrite <- (assoc_L (++)) in Hd |- *. cbn [app] in Hd |- *. pose proof Hd as (N1 & N2 & N3)%NoDup_app. apply NoDup_cons in N3 as [N3 N4]. apply NoDup_cons in N4 as [_ N4]. split.
    + split; [|split; [rewrite not_elem_of_app, not_elem_of_cons in H0; rewrite not_elem_of_app; tauto|]].
      * change (h :: a ++ b) with ((h :: a) ++ b). rewrite Ea, <- (assoc_L (++)). cbn [app]. apply NoDup_app. split; [done|]. split; [|apply NoDup_cons; split; [intros ?; apply N3; by right|done]].
        intros x Hx [->|Hx']%elem_of_cons; apply (N2 _ Hx); [left|right; by right].
      * assert (chain (<[r := default 0 (head b)]> m) r b 0) as Hcb by (apply (chain_redirect m n _ b Ee Hc2); [by rewrite lookup_insert_eq|]; intros q Hq; rewrite lookup_insert_ne; [done|]; intros ->; apply N3; by right).
        destruct (decide (a = [])) as [->|Hne]; [symmetry in Ea; apply app_eq_unit in Ea as [[-> [= ->]]|[_ ?]]; [exact Hcb|done]|]. destruct (exists_last Hne) as (a0 & z & ->). assert (z = r /\ a' = h :: a0) as [-> ->]. { change (h :: a0 ++ [z]) with ((h :: a0) ++ [z]) in Ea. by apply app_inj_tail in Ea as [-> ->]. }
        rewrite <- (assoc_L (++)). apply chain_app. split; [|exact Hcb]. rewrite chain_app in Hc1. apply (chain_frame m); [|apply Hc1]. intros q Hq. rewrite lookup_insert_ne; [done|]. intros ->. apply (N2 _ Hq). left.
    + intros q Hq. rewrite lookup_insert_ne; [done|]. intros ->. apply Hq, elem_of_app. right. left.
  - eapply wp_mono; [by apply (node_before_absent fuel m h xs n)|]. intros r m' (-> & Er). apply wp_bind, (wp_deref _ 0); [done|]. cbn. rewrite without_notin by done. by split_and!.
Qed.
End ops.

(** The routines of rt_slist_t implement operations on sequences.  On a list
    with the nodes [xs], and with enough fuel for its length, appending and
    inserting a node that is not in it, removing a node whether it is in it or
    not, and the queries return, do to the list what their names say, and leave
    every other node alone. *)
Theorem slist_refines_sequence m h xs n fuel :
  slist m h xs -> n <> 0 -> n <> h -> is_Some (m !! n) -> (length xs < fuel)%nat -> Z.of_nat (length xs) < 2 ^ 32 ->
  (n ∉ xs -> wp (rt_slist_append fuel h n) m (fun _ m' => slist m' h (xs ++ [n]) /\ forall q, q ∉ h :: n :: xs -> m' !! q = m !! q)) /\
  (n ∉ xs -> wp (rt_slist_insert h n) m (fun _ m' => slist m' h (n :: xs) /\ forall q, q ∉ h :: n :: xs -> m' !! q = m !! q)) /\
  wp (rt_slist_remove fuel h n) m (fun r m' => r = h /\ slist m' h (without n xs) /\ forall q, q ∉ h :: xs -> m' !! q = m !! q) /\
  wp (rt_slist_len fuel h) m (fun r m' => m' = m /\ r = Z.of_nat (length xs)) /\
  wp (rt_slist_first h) m (fun r m' => m' = m /\ r = default 0 (head xs)) /\
  wp (rt_slist_tail fuel h) m (fun r m' => m' = m /\ last (h :: xs) = Some r) /\
  wp (rt_slist_isempty h) m (fun r m' => m' = m /\ r = bool_decide (xs = [])).
Proof.
  intros Hs Hnz Hnh Hmem Hf Hb. pose proof Hs as (Hd & H0 & Hc). split_and!; [by apply slist_append_wp|by apply slist_insert_wp|by apply slist_remove_wp|..].
  - unfold rt_slist_len. eapply wp_mono; [by apply (slist_len_loop_wp fuel m xs h 0)|]. intros r m' [-> ->]. split; [done|lia].
  - apply (wp_deref _ (default 0 (head xs))); [by apply chain_first|done].
  - unfold rt_slist_tail. eapply wp_mono; [by apply (last_node_wp fuel m h xs)|]. intros r m' (-> & a & Ea & _). split; [done|]. rewrite Ea. apply last_snoc.
  - apply wp_bind, (wp_deref _ (default 0 (head xs))); [by apply chain_first|]. apply wp_ret. split; [done|]. destruct xs as [|x xs]; [done|]. rewrite bool_decide_false by done. change (default 0 (head (x :: xs))) with x. apply Z.eqb_neq. intros ->. apply H0. left.
Qed.

Definition demo_mem : mem := <[10 := 11]> (<[11 := 12]> (<[12 := 0]> {[20 := 0]})).
Lemma slist_refines_sequence_witness :
  wp (rt_slist_append 3 10 20) demo_mem (fun _ m' => slist m' 10 [11; 12; 20] /\ forall q, q ∉ [10; 20; 11; 12] -> m' !! q = demo_mem !! q) /\
  wp (rt_slist_remove 3 10 20) demo_mem (fun r m' => r = 10 /\ slist m' 10 [11; 12] /\ forall q, q ∉ [10; 11; 12] -> m' !! q = demo_mem !! q).
Proof.
  destruct (slist_refines_sequence demo_mem 10 [11; 12] 20 3) as (H1 & _ & H2 & _); [|done|done|by eexists|cbn; lia|done|].
  - split; [apply (proj1 (bool_decide_eq_true _)); vm_compute; reflexivity|]. split; [apply (proj1 (bool_decide_eq_true _)); vm_compute; reflexivity|]. by split_and!.
  - split; [apply H1; apply (proj1 (bool_decide_eq_true _)); vm_compute; reflexivity|exact H2].
Defined.
End SList.
