(* ===== verification/Ffs.v ===== *)
(** * Find first set (src/kservice.c, libcpu/arm/cortex-m4/cpuport.c)

    The scheduler turns its 32-bit bitmap of ready priorities into the highest
    ready priority with [__rt_ffs].  This build selects the Cortex-M4 routine
    ([RT_USING_CPU_FFS], gcc), which is the compiler's [__builtin_ffs];
    kservice.c has the portable version with a 256-entry table.  Both are
    defined here and shown to compute the position of the least set bit. *)

From S2P Require Import Prelude.


(** [const rt_uint8_t __lowest_bit_bitmap[]], row by row. *)
Definition bitmap_row (first : Z) : list Z :=
  [first; 0; 1; 0; 2; 0; 1; 0; 3; 0; 1; 0; 2; 0; 1; 0].
Definition __lowest_bit_bitmap : list Z :=
  concat (bitmap_row <$> [0; 4; 5; 4; 6; 4; 5; 4; 7; 4; 5; 4; 6; 4; 5; 4]).

Definition lowest_bit (i : Z) : Z := nth (Z.to_nat i) __lowest_bit_bitmap 0.

(** [int __rt_ffs(int value)] of kservice.c. *)
Definition __rt_ffs_table (value : Z) : Z :=
  if value =? 0 then 0
  else if negb (Z.land value 0xff =? 0) then lowest_bit (Z.land value 0xff) + 1
  else if negb (Z.land value 0xff00 =? 0) then
    lowest_bit (Z.shiftr (Z.land value 0xff00) 8) + 9
  else if negb (Z.land value 0xff0000 =? 0) then
    lowest_bit (Z.shiftr (Z.land value 0xff0000) 16) + 17
  else lowest_bit (Z.shiftr (Z.land value 0xff000000) 24) + 25.

(** [__builtin_ffs]: one plus the index of the least significant 1-bit of the
    int, or zero for zero. *)
Fixpoint first_set (n : nat) (i value : Z) : Z :=
  match n with
  | O => 0
  | S n => if Z.testbit value i then i + 1 else first_set n (i + 1) value
  end.
Definition __rt_ffs (value : Z) : Z := first_set 32 0 value.

(** What both promise: [r - 1] is the least set bit. *)
Definition is_ffs (value r : Z) : Prop :=
  1 <= r /\ Z.testbit value (r - 1) = true /\
  forall i, 0 <= i < r - 1 -> Z.testbit value i = false.

Lemma is_ffs_unique value r1 r2 : is_ffs value r1 -> is_ffs value r2 -> r1 = r2.
Proof.
  intros (H1 & T1 & L1) (H2 & T2 & L2).
  destruct (Z.lt_trichotomy r1 r2) as [Hlt|[?|Hlt]]; [|done|].
  - rewrite L2 in T1 by lia. done.
  - rewrite L1 in T2 by lia. done.
Qed.

Lemma first_set_ok n : forall i value, 0 <= i ->
  (forall j, 0 <= j < i -> Z.testbit value j = false) ->
  (exists j, 0 <= j < i + Z.of_nat n /\ Z.testbit value j = true) ->
  is_ffs value (first_set n i value) /\ first_set n i value <= i + Z.of_nat n.
Proof.
  induction n as [|n IH]; intros i value Hi Hlow (j & Hj & Ht).
  - rewrite Hlow in Ht by lia. done.
  - cbn [first_set]. destruct (Z.testbit value i) eqn:E.
    + split; [|lia]. repeat split; [lia|by replace (i + 1 - 1) with i by lia|].
      intros k Hk. apply Hlow. lia.
    + destruct (IH (i + 1) value) as [H1 H2]; [lia| |exists j; split; [lia|done]|split; [done|lia]].
      intros k Hk. destruct (decide (k = i)) as [->|]; [done|]. apply Hlow. lia.
Qed.

(** A 32-bit int is zero exactly when its 32 bits are. *)
Lemma int32_has_bit value :
  - 2 ^ 31 <= value < 2 ^ 32 -> value <> 0 ->
  exists j, 0 <= j < 32 /\ Z.testbit value j = true.
Proof.
  intros Hr Hnz. destruct (decide (value `mod` 2 ^ 32 = 0)) as [E|E].
  - exfalso. assert (value = 2 ^ 32 * (value / 2 ^ 32)) by (apply Z_div_exact_2; lia). lia.
  - assert (0 < value `mod` 2 ^ 32) as Hpos
      by (pose proof (Z.mod_pos_bound value (2 ^ 32)); lia).
    pose proof (Z.mod_pos_bound value (2 ^ 32) ltac:(lia)) as Hb.
    exists (Z.log2 (value `mod` 2 ^ 32)).
    pose proof (Z.log2_nonneg (value `mod` 2 ^ 32)).
    assert (Z.log2 (value `mod` 2 ^ 32) < 32) by (apply Z.log2_lt_pow2; lia).
    split; [lia|]. rewrite <- (Z.mod_pow2_bits_low value 32) by lia. by apply Z.bit_log2.
Qed.

Lemma __rt_ffs_ok value :
  - 2 ^ 31 <= value < 2 ^ 32 -> value <> 0 -> is_ffs value (__rt_ffs value) /\ __rt_ffs value <= 32.
Proof.
  intros Hr Hnz. unfold __rt_ffs. apply (first_set_ok 32 0); [lia|intros; lia|].
  destruct (int32_has_bit value Hr Hnz) as (j & Hj & ?). exists j. split; [lia|done].
Qed.

Lemma __rt_ffs_zero : __rt_ffs 0 = 0.
Proof. reflexivity. Qed.

(** The 256 table entries, by evaluation. *)
Definition entry_ok (b : Z) : bool :=
  (0 <=? lowest_bit b) && Z.testbit b (lowest_bit b) &&
  forallb (fun i => negb (Z.testbit b (Z.of_nat i))) (seq 0 (Z.to_nat (lowest_bit b))).

Lemma table_entries : forallb (fun i => entry_ok (Z.of_nat i)) (seq 1 255) = true.
Proof. vm_compute. reflexivity. Qed.

Lemma lowest_bit_ok b : 1 <= b < 256 -> is_ffs b (lowest_bit b + 1).
Proof.
  intros Hb. pose proof table_entries as H. rewrite List.forallb_forall in H.
  specialize (H (Z.to_nat b)). rewrite Z2Nat.id in H by lia. unfold entry_ok in H.
  assert (In (Z.to_nat b) (seq 1 255)) as Hin by (apply in_seq; lia).
  apply H in Hin. apply andb_prop in Hin as [[H1%Z.leb_le H2]%andb_prop H3].
  rewrite List.forallb_forall in H3. repeat split; [lia|by replace (lowest_bit b + 1 - 1) with (lowest_bit b) by lia|].
  intros i Hi. specialize (H3 (Z.to_nat i)). rewrite Z2Nat.id in H3 by lia.
  apply negb_true_iff, H3, in_seq. lia.
Qed.

(** Byte [k] of the value. *)
Lemma land_byte value k :
  0 <= k -> Z.shiftr (Z.land value (Z.shiftl 0xff (8 * k))) (8 * k) =
            (Z.shiftr value (8 * k)) `mod` 256.
Proof.
  intros Hk. rewrite Z.shiftr_land, Z.shiftr_shiftl_l, Z.sub_diag by lia.
  change (Z.shiftl 0xff 0) with (Z.ones 8). rewrite Z.land_ones by lia. done.
Qed.

Lemma byte_testbit value k i :
  0 <= k -> 0 <= i < 8 -> Z.testbit ((Z.shiftr value (8 * k)) `mod` 256) i = Z.testbit value (i + 8 * k).
Proof.
  intros Hk Hi. change 256 with (2 ^ 8). rewrite Z.mod_pow2_bits_low by lia.
  apply Z.shiftr_spec. lia.
Qed.

Lemma byte_zero value k :
  0 <= k -> (Z.shiftr value (8 * k)) `mod` 256 = 0 ->
  forall i, 8 * k <= i < 8 * k + 8 -> Z.testbit value i = false.
Proof.
  intros Hk E i Hi. replace i with (i - 8 * k + 8 * k) by lia.
  rewrite <- byte_testbit by lia. by rewrite E, Z.bits_0.
Qed.

Lemma byte_ffs value k :
  0 <= k -> (Z.shiftr value (8 * k)) `mod` 256 <> 0 ->
  (forall i, 0 <= i < 8 * k -> Z.testbit value i = false) ->
  is_ffs value (lowest_bit ((Z.shiftr value (8 * k)) `mod` 256) + 8 * k + 1).
Proof.
  intros Hk E Hlow. set (b := (Z.shiftr value (8 * k)) `mod` 256) in *.
  assert (0 <= b < 256) as Hb by (apply Z.mod_pos_bound; lia).
  destruct (lowest_bit_ok b) as (H1 & H2 & H3); [lia|].
  replace (lowest_bit b + 1 - 1) with (lowest_bit b) in * by lia.
  assert (lowest_bit b < 8) as H8.
  { destruct (Z.lt_ge_cases (lowest_bit b) 8); [done|].
    rewrite Z.bits_above_log2 in H2; [done|lia|].
    destruct (decide (b = 0)) as [->|]; [cbn; lia|]. apply Z.log2_lt_pow2; [lia|].
    enough (2 ^ 8 <= 2 ^ lowest_bit b) by lia. apply Z.pow_le_mono_r; lia. }
  repeat split; [lia| |].
  - replace (lowest_bit b + 8 * k + 1 - 1) with (lowest_bit b + 8 * k) by lia.
    rewrite <- byte_testbit by lia. done.
  - intros i Hi. destruct (Z.lt_ge_cases i (8 * k)); [apply Hlow; lia|].
    replace i with (i - 8 * k + 8 * k) by lia. rewrite <- byte_testbit by lia. apply H3. lia.
Qed.

Lemma land_zero_byte value k :
  0 <= k -> Z.land value (Z.shiftl 0xff (8 * k)) = 0 <-> (Z.shiftr value (8 * k)) `mod` 256 = 0.
Proof.
  intros Hk. rewrite <- land_byte by done. split; [intros ->; apply Z.shiftr_0_l|]. intros E.
  apply Z.bits_inj'. intros i Hi. rewrite Z.bits_0, Z.land_spec.
  destruct (Z.lt_ge_cases i (8 * k)).
  - rewrite Z.shiftl_spec_low by done. apply andb_false_r.
  - assert (Z.testbit (Z.shiftr (Z.land value (Z.shiftl 255 (8 * k))) (8 * k)) (i - 8 * k) = false) as F
      by (by rewrite E, Z.bits_0).
    rewrite Z.shiftr_spec, Z.land_spec in F by lia. by replace (i - 8 * k + 8 * k) with i in F by lia.
Qed.

(** One byte of the table version: either it holds the answer, or all bits so
    far are zero. *)
Lemma byte_case value k mask :
  0 <= k -> mask = Z.shiftl 0xff (8 * k) ->
  (forall i, 0 <= i < 8 * k -> Z.testbit value i = false) ->
  (Z.land value mask <> 0 ->
     is_ffs value (lowest_bit (Z.shiftr (Z.land value mask) (8 * k)) + (8 * k + 1))) /\
  (Z.land value mask = 0 -> forall i, 0 <= i < 8 * (k + 1) -> Z.testbit value i = false).
Proof.
  intros Hk -> Hlow. rewrite land_zero_byte, land_byte by done. split.
  - intros E. rewrite Z.add_assoc. by apply byte_ffs.
  - intros E i Hi. destruct (Z.lt_ge_cases i (8 * k)); [apply Hlow; lia|].
    apply (byte_zero value k); [done..|lia].
Qed.

(** C22: The portable [__rt_ffs] of kservice.c (table look-up, byte by byte)
    returns the same as the Cortex-M4 [__rt_ffs] for every 32-bit argument,
    negative ints and the 0 case included. *)
Theorem rt_ffs_table_equiv value :
  - 2 ^ 31 <= value < 2 ^ 32 -> __rt_ffs_table value = __rt_ffs value.
Proof.
  intros Hr. unfold __rt_ffs_table.
  destruct (Z.eqb_spec value 0) as [->|Hnz]; [by rewrite __rt_ffs_zero|].
  destruct (__rt_ffs_ok value Hr Hnz) as [Hspec _]. apply (is_ffs_unique value); [|done].
  destruct (byte_case value 0 0xff) as [F0 L0]; [lia|done|intros; lia|].
  destruct (Z.eqb_spec (Z.land value 0xff) 0) as [E0|E0]; cbn [negb]; [|exact (F0 E0)].
  destruct (byte_case value 1 0xff00) as [F1 L1]; [lia|done|exact (L0 E0)|].
  destruct (Z.eqb_spec (Z.land value 0xff00) 0) as [E1|E1]; cbn [negb]; [|exact (F1 E1)].
  destruct (byte_case value 2 0xff0000) as [F2 L2]; [lia|done|exact (L1 E1)|].
  destruct (Z.eqb_spec (Z.land value 0xff0000) 0) as [E2|E2]; cbn [negb]; [|exact (F2 E2)].
  destruct (byte_case value 3 0xff000000) as [F3 L3]; [lia|done|exact (L2 E2)|].
  apply F3. intros E3. destruct (int32_has_bit value Hr Hnz) as (j & Hj & Ht).
  rewrite (L3 E3) in Ht by lia. done.
Qed.

Lemma rt_ffs_table_equiv_witness :
  __rt_ffs_table (-2147483648) = __rt_ffs (-2147483648) /\ __rt_ffs (-2147483648) = 32.
Proof.
  split; [apply (rt_ffs_table_equiv (-2147483648)); lia|vm_compute; reflexivity].
Defined.

