(* ===== verification/KState.v ===== *)
(** * Kernel state (include/rtdef.h)

    The data of the kernel: threads, object headers, timers, the five kinds of
    IPC object, and the scheduler's globals, as one record.  A pointer to an
    object is the identifier it has in the map of its kind; [RT_NULL] is
    [None].  The lists threads are linked in through [tlist] are one list store
    ([k_queues], keyed by the list head), whose operations are those the pointer
    routines of DList.v implement.  Every routine of the kernel is a function in
    the outcome monad over this record.

    A section between [rt_hw_interrupt_disable] and [rt_hw_interrupt_enable] is
    atomic and is run as one piece; the hooks ([RT_OBJECT_HOOK_CALL]) are
    [RT_NULL], their initial value, and [RT_DEBUG_LOG] is compiled out. *)

From S2P Require Import Prelude Ffs.

(** ** Constants of rtdef.h and rtconfig.h *)

Definition RT_THREAD_PRIORITY_MAX : Z := 32.
Definition RT_NAME_MAX : nat := 8.
Definition RT_TICK_MAX : Z := 0xffffffff.
Definition RT_TICK_PER_SECOND : Z := 1000.
Definition RT_ALIGN_SIZE : Z := 4.

Definition RT_THREAD_INIT : Z := 0.
Definition RT_THREAD_READY : Z := 1.
Definition RT_THREAD_SUSPEND : Z := 2.
Definition RT_THREAD_RUNNING : Z := 3.
Definition RT_THREAD_CLOSE : Z := 4.
Definition RT_THREAD_STAT_MASK : Z := 7.
Definition RT_THREAD_STAT_YIELD : Z := 8.

Definition RT_TIMER_FLAG_ACTIVATED : Z := 1.
Definition RT_TIMER_FLAG_PERIODIC : Z := 2.
Definition RT_TIMER_FLAG_SOFT_TIMER : Z := 4.

Definition RT_Object_Class_Thread : Z := 1.
Definition RT_Object_Class_Semaphore : Z := 2.
Definition RT_Object_Class_Mutex : Z := 3.
Definition RT_Object_Class_Event : Z := 4.
Definition RT_Object_Class_MailBox : Z := 5.
Definition RT_Object_Class_MessageQueue : Z := 6.
Definition RT_Object_Class_MemPool : Z := 8.
Definition RT_Object_Class_Device : Z := 9.
Definition RT_Object_Class_Timer : Z := 10.
Definition RT_Object_Class_Unknown : Z := 12.
Definition RT_Object_Class_Static : Z := 0x80.

Definition RT_IPC_FLAG_FIFO : Z := 0.
Definition RT_IPC_FLAG_PRIO : Z := 1.
Definition RT_IPC_CMD_RESET : Z := 1.
Definition RT_WAITING_FOREVER : Z := -1.
Definition RT_EVENT_FLAG_AND : Z := 1.
Definition RT_EVENT_FLAG_OR : Z := 2.
Definition RT_EVENT_FLAG_CLEAR : Z := 4.

(** ** Identifiers *)

(** Timers: the [thread_timer] built into a thread, or a timer of its own. *)
Inductive tmid := TmThread (t : nat) | TmUser (n : nat).

(** Kernel objects, by kind. *)
Inductive oid :=
| OThread (t : nat) | OSem (n : nat) | OMutex (n : nat) | OEvent (n : nat)
| OMailbox (n : nat) | OMq (n : nat) | OTimer (tm : tmid) | OMp (n : nat) | ODevice (n : nat).

(** Heads of thread lists: the ready queues, the suspend list of each IPC
    object, the sender lists of mailboxes and message queues, the defunct list;
    the lists of memory pools, completions and data queues. *)
Inductive qid :=
| QReady (p : Z)
| QSem (n : nat) | QMutex (n : nat) | QEvent (n : nat) | QMailbox (n : nat) | QMq (n : nat)
| QMbSender (n : nat) | QMqSender (n : nat)
| QDefunct
| QMp (n : nat) | QCompletion (n : nat) | QPush (n : nat) | QPop (n : nat).

(** [timeout_func] with its [parameter]: the thread timeout, or a user function. *)
Inductive timeout_fn := TFThread (t : nat) | TFUser (f param : Z).

#[global] Instance tmid_eq_dec : EqDecision tmid.
Proof. solve_decision. Defined.
#[global] Instance tmid_countable : Countable tmid.
Proof.
  refine (inj_countable' (fun x => match x with TmThread t => inl t | TmUser n => inr n end)
    (fun y => match y with inl t => TmThread t | inr n => TmUser n end) _); by intros [].
Defined.
#[global] Instance oid_eq_dec : EqDecision oid.
Proof. solve_decision. Defined.
#[global] Instance oid_countable : Countable oid.
Proof.
  refine (inj_countable' (fun x => match x with
      | OThread t => inl (0%nat, t) | OSem n => inl (1%nat, n) | OMutex n => inl (2%nat, n)
      | OEvent n => inl (3%nat, n) | OMailbox n => inl (4%nat, n) | OMq n => inl (5%nat, n)
      | OMp n => inl (6%nat, n) | ODevice n => inl (7%nat, n)
      | OTimer tm => inr tm end)
    (fun y => match y with
      | inl (0%nat, t) => OThread t | inl (1%nat, n) => OSem n | inl (2%nat, n) => OMutex n
      | inl (3%nat, n) => OEvent n | inl (4%nat, n) => OMailbox n | inl (5%nat, n) => OMq n
      | inl (6%nat, n) => OMp n | inl (_, n) => ODevice n
      | inr tm => OTimer tm end) _); by intros [].
Defined.
#[global] Instance qid_eq_dec : EqDecision qid.
Proof. solve_decision. Defined.
#[global] Instance qid_countable : Countable qid.
Proof.
  refine (inj_countable' (fun x => match x with
      | QReady p => inl p | QSem n => inr (0%nat, n) | QMutex n => inr (1%nat, n)
      | QEvent n => inr (2%nat, n) | QMailbox n => inr (3%nat, n) | QMq n => inr (4%nat, n)
      | QMbSender n => inr (5%nat, n) | QMqSender n => inr (6%nat, n) | QDefunct => inr (7%nat, 0%nat)
      | QMp n => inr (8%nat, n) | QCompletion n => inr (9%nat, n) | QPush n => inr (10%nat, n) | QPop n => inr (11%nat, n) end)
    (fun y => match y with
      | inl p => QReady p | inr (0%nat, n) => QSem n | inr (1%nat, n) => QMutex n
      | inr (2%nat, n) => QEvent n | inr (3%nat, n) => QMailbox n | inr (4%nat, n) => QMq n
      | inr (5%nat, n) => QMbSender n | inr (6%nat, n) => QMqSender n | inr (7%nat, _) => QDefunct
      | inr (8%nat, n) => QMp n | inr (9%nat, n) => QCompletion n | inr (10%nat, n) => QPush n | inr (_, n) => QPop n end) _);
  by intros [].
Defined.

(** ** Records *)

(** struct rt_object: the header of every kernel object (its [list] node is the
    object's place in [k_objects]). *)
Record rt_object := mkObject {
  o_name : list Z;  (** char name[RT_NAME_MAX] *)
  o_type : Z;  (** rt_uint8_t type *)
  o_flag : Z  (** rt_uint8_t flag *)
}.

Definition set_o_name (v : list Z) (r : rt_object) : rt_object :=
  mkObject v (o_type r) (o_flag r).
Definition set_o_type (v : Z) (r : rt_object) : rt_object :=
  mkObject (o_name r) v (o_flag r).
Definition set_o_flag (v : Z) (r : rt_object) : rt_object :=
  mkObject (o_name r) (o_type r) v.

(** struct rt_timer (header and list node apart). *)
Record rt_timer := mkTimer {
  tm_func : timeout_fn;  (** timeout_func and parameter *)
  tm_init_tick : Z;  (** rt_tick_t init_tick *)
  tm_timeout_tick : Z  (** rt_tick_t timeout_tick *)
}.

Definition set_tm_func (v : timeout_fn) (r : rt_timer) : rt_timer :=
  mkTimer v (tm_init_tick r) (tm_timeout_tick r).
Definition set_tm_init_tick (v : Z) (r : rt_timer) : rt_timer :=
  mkTimer (tm_func r) v (tm_timeout_tick r).
Definition set_tm_timeout_tick (v : Z) (r : rt_timer) : rt_timer :=
  mkTimer (tm_func r) (tm_init_tick r) v.

(** struct rt_thread (header, list nodes and built-in timer apart). *)
Record rt_thread := mkThread {
  th_entry : Z;  (** void *entry *)
  th_parameter : Z;  (** void *parameter *)
  th_stack_addr : Z;  (** void *stack_addr *)
  th_stack_size : Z;  (** rt_uint32_t stack_size *)
  th_sp : Z;  (** void *sp *)
  th_stack_mark : Z;  (** the byte at stack_addr *)
  th_error : Z;  (** rt_err_t error *)
  th_stat : Z;  (** rt_uint8_t stat *)
  th_current_priority : Z;  (** rt_uint8_t *)
  th_init_priority : Z;  (** rt_uint8_t *)
  th_number_mask : Z;  (** rt_uint32_t *)
  th_event_set : Z;  (** rt_uint32_t *)
  th_event_info : Z;  (** rt_uint8_t *)
  th_init_tick : Z;  (** rt_ubase_t *)
  th_remaining_tick : Z;  (** rt_ubase_t *)
  th_cleanup : option Z;  (** cleanup function or RT_NULL *)
  th_user_data : Z  (** rt_uint32_t *)
}.

Definition set_th_entry (v : Z) (r : rt_thread) : rt_thread :=
  mkThread v (th_parameter r) (th_stack_addr r) (th_stack_size r) (th_sp r) (th_stack_mark r)
    (th_error r) (th_stat r) (th_current_priority r) (th_init_priority r) (th_number_mask r)
    (th_event_set r) (th_event_info r) (th_init_tick r) (th_remaining_tick r) (th_cleanup r)
    (th_user_data r).
Definition set_th_parameter (v : Z) (r : rt_thread) : rt_thread :=
  mkThread (th_entry r) v (th_stack_addr r) (th_stack_size r) (th_sp r) (th_stack_mark r)
    (th_error r) (th_stat r) (th_current_priority r) (th_init_priority r) (th_number_mask r)
    (th_event_set r) (th_event_info r) (th_init_tick r) (th_remaining_tick r) (th_cleanup r)
    (th_user_data r).
Definition set_th_stack_addr (v : Z) (r : rt_thread) : rt_thread :=
  mkThread (th_entry r) (th_parameter r) v (th_stack_size r) (th_sp r) (th_stack_mark r)
    (th_error r) (th_stat r) (th_current_priority r) (th_init_priority r) (th_number_mask r)
    (th_event_set r) (th_event_info r) (th_init_tick r) (th_remaining_tick r) (th_cleanup r)
    (th_user_data r).
Definition set_th_stack_size (v : Z) (r : rt_thread) : rt_thread :=
  mkThread (th_entry r) (th_parameter r) (th_stack_addr r) v (th_sp r) (th_stack_mark r)
    (th_error r) (th_stat r) (th_current_priority r) (th_init_priority r) (th_number_mask r)
    (th_event_set r) (th_event_info r) (th_init_tick r) (th_remaining_tick r) (th_cleanup r)
    (th_user_data r).
Definition set_th_sp (v : Z) (r : rt_thread) : rt_thread :=
  mkThread (th_entry r) (th_parameter r) (th_stack_addr r) (th_stack_size r) v (th_stack_mark r)
    (th_error r) (th_stat r) (th_current_priority r) (th_init_priority r) (th_number_mask r)
    (th_event_set r) (th_event_info r) (th_init_tick r) (th_remaining_tick r) (th_cleanup r)
    (th_user_data r).
Definition set_th_stack_mark (v : Z) (r : rt_thread) : rt_thread :=
  mkThread (th_entry r) (th_parameter r) (th_stack_addr r) (th_stack_size r) (th_sp r) v
    (th_error r) (th_stat r) (th_current_priority r) (th_init_priority r) (th_number_mask r)
    (th_event_set r) (th_event_info r) (th_init_tick r) (th_remaining_tick r) (th_cleanup r)
    (th_user_data r).
Definition set_th_error (v : Z) (r : rt_thread) : rt_thread :=
  mkThread (th_entry r) (th_parameter r) (th_stack_addr r) (th_stack_size r) (th_sp r)
    (th_stack_mark r) v (th_stat r) (th_current_priority r) (th_init_priority r) (th_number_mask
    r) (th_event_set r) (th_event_info r) (th_init_tick r) (th_remaining_tick r) (th_cleanup r)
    (th_user_data r).
Definition set_th_stat (v : Z) (r : rt_thread) : rt_thread :=
  mkThread (th_entry r) (th_parameter r) (th_stack_addr r) (th_stack_size r) (th_sp r)
    (th_stack_mark r) (th_error r) v (th_current_priority r) (th_init_priority r)
    (th_number_mask r) (th_event_set r) (th_event_info r) (th_init_tick r) (th_remaining_tick r)
    (th_cleanup r) (th_user_data r).
Definition set_th_current_priority (v : Z) (r : rt_thread) : rt_thread :=
  mkThread (th_entry r) (th_parameter r) (th_stack_addr r) (th_stack_size r) (th_sp r)
    (th_stack_mark r) (th_error r) (th_stat r) v (th_init_priority r) (th_number_mask r)
    (th_event_set r) (th_event_info r) (th_init_tick r) (th_remaining_tick r) (th_cleanup r)
    (th_user_data r).
Definition set_th_init_priority (v : Z) (r : rt_thread) : rt_thread :=
  mkThread (th_entry r) (th_parameter r) (th_stack_addr r) (th_stack_size r) (th_sp r)
    (th_stack_mark r) (th_error r) (th_stat r) (th_current_priority r) v (th_number_mask r)
    (th_event_set r) (th_event_info r) (th_init_tick r) (th_remaining_tick r) (th_cleanup r)
    (th_user_data r).
Definition set_th_number_mask (v : Z) (r : rt_thread) : rt_thread :=
  mkThread (th_entry r) (th_parameter r) (th_stack_addr r) (th_stack_size r) (th_sp r)
    (th_stack_mark r) (th_error r) (th_stat r) (th_current_priority r) (th_init_priority r) v
    (th_event_set r) (th_event_info r) (th_init_tick r) (th_remaining_tick r) (th_cleanup r)
    (th_user_data r).
Definition set_th_event_set (v : Z) (r : rt_thread) : rt_thread :=
  mkThread (th_entry r) (th_parameter r) (th_stack_addr r) (th_stack_size r) (th_sp r)
    (th_stack_mark r) (th_error r) (th_stat r) (th_current_priority r) (th_init_priority r)
    (th_number_mask r) v (th_event_info r) (th_init_tick r) (th_remaining_tick r) (th_cleanup r)
    (th_user_data r).
Definition set_th_event_info (v : Z) (r : rt_thread) : rt_thread :=
  mkThread (th_entry r) (th_parameter r) (th_stack_addr r) (th_stack_size r) (th_sp r)
    (th_stack_mark r) (th_error r) (th_stat r) (th_current_priority r) (th_init_priority r)
    (th_number_mask r) (th_event_set r) v (th_init_tick r) (th_remaining_tick r) (th_cleanup r)
    (th_user_data r).
Definition set_th_init_tick (v : Z) (r : rt_thread) : rt_thread :=
  mkThread (th_entry r) (th_parameter r) (th_stack_addr r) (th_stack_size r) (th_sp r)
    (th_stack_mark r) (th_error r) (th_stat r) (th_current_priority r) (th_init_priority r)
    (th_number_mask r) (th_event_set r) (th_event_info r) v (th_remaining_tick r) (th_cleanup r)
    (th_user_data r).
Definition set_th_remaining_tick (v : Z) (r : rt_thread) : rt_thread :=
  mkThread (th_entry r) (th_parameter r) (th_stack_addr r) (th_stack_size r) (th_sp r)
    (th_stack_mark r) (th_error r) (th_stat r) (th_current_priority r) (th_init_priority r)
    (th_number_mask r) (th_event_set r) (th_event_info r) (th_init_tick r) v (th_cleanup r)
    (th_user_data r).
Definition set_th_cleanup (v : option Z) (r : rt_thread) : rt_thread :=
  mkThread (th_entry r) (th_parameter r) (th_stack_addr r) (th_stack_size r) (th_sp r)
    (th_stack_mark r) (th_error r) (th_stat r) (th_current_priority r) (th_init_priority r)
    (th_number_mask r) (th_event_set r) (th_event_info r) (th_init_tick r) (th_remaining_tick r)
    v (th_user_data r).
Definition set_th_user_data (v : Z) (r : rt_thread) : rt_thread :=
  mkThread (th_entry r) (th_parameter r) (th_stack_addr r) (th_stack_size r) (th_sp r)
    (th_stack_mark r) (th_error r) (th_stat r) (th_current_priority r) (th_init_priority r)
    (th_number_mask r) (th_event_set r) (th_event_info r) (th_init_tick r) (th_remaining_tick r)
    (th_cleanup r) v.

(** struct rt_mutex. *)
Record rt_mutex := mkMutex {
  mx_value : Z;  (** rt_uint16_t value *)
  mx_original_priority : Z;  (** rt_uint8_t *)
  mx_hold : Z;  (** rt_uint8_t hold *)
  mx_owner : option nat  (** owner thread or RT_NULL *)
}.

Definition set_mx_value (v : Z) (r : rt_mutex) : rt_mutex :=
  mkMutex v (mx_original_priority r) (mx_hold r) (mx_owner r).
Definition set_mx_original_priority (v : Z) (r : rt_mutex) : rt_mutex :=
  mkMutex (mx_value r) v (mx_hold r) (mx_owner r).
Definition set_mx_hold (v : Z) (r : rt_mutex) : rt_mutex :=
  mkMutex (mx_value r) (mx_original_priority r) v (mx_owner r).
Definition set_mx_owner (v : option nat) (r : rt_mutex) : rt_mutex :=
  mkMutex (mx_value r) (mx_original_priority r) (mx_hold r) v.

(** struct rt_mailbox. *)
Record rt_mailbox := mkMailbox {
  mb_msg_pool : list Z;  (** the words of msg_pool *)
  mb_size : Z;  (** rt_uint16_t *)
  mb_entry : Z;  (** rt_uint16_t *)
  mb_in_offset : Z;  (** rt_uint16_t *)
  mb_out_offset : Z  (** rt_uint16_t *)
}.

Definition set_mb_msg_pool (v : list Z) (r : rt_mailbox) : rt_mailbox :=
  mkMailbox v (mb_size r) (mb_entry r) (mb_in_offset r) (mb_out_offset r).
Definition set_mb_size (v : Z) (r : rt_mailbox) : rt_mailbox :=
  mkMailbox (mb_msg_pool r) v (mb_entry r) (mb_in_offset r) (mb_out_offset r).
Definition set_mb_entry (v : Z) (r : rt_mailbox) : rt_mailbox :=
  mkMailbox (mb_msg_pool r) (mb_size r) v (mb_in_offset r) (mb_out_offset r).
Definition set_mb_in_offset (v : Z) (r : rt_mailbox) : rt_mailbox :=
  mkMailbox (mb_msg_pool r) (mb_size r) (mb_entry r) v (mb_out_offset r).
Definition set_mb_out_offset (v : Z) (r : rt_mailbox) : rt_mailbox :=
  mkMailbox (mb_msg_pool r) (mb_size r) (mb_entry r) (mb_in_offset r) v.

(** struct rt_mq_message with its payload. *)
Record rt_mq_message := mkMsg {
  msg_next : option nat;  (** struct rt_mq_message *next *)
  msg_data : list Z  (** the msg_size bytes behind the header *)
}.

Definition set_msg_next (v : option nat) (r : rt_mq_message) : rt_mq_message :=
  mkMsg v (msg_data r).
Definition set_msg_data (v : list Z) (r : rt_mq_message) : rt_mq_message :=
  mkMsg (msg_next r) v.

(** struct rt_messagequeue. *)
Record rt_messagequeue := mkMq {
  mq_nodes : list rt_mq_message;  (** the messages of msg_pool, by index *)
  mq_msg_size : Z;  (** rt_uint16_t *)
  mq_max_msgs : Z;  (** rt_uint16_t *)
  mq_entry : Z;  (** rt_uint16_t *)
  mq_head : option nat;  (** msg_queue_head *)
  mq_tail : option nat;  (** msg_queue_tail *)
  mq_free : option nat  (** msg_queue_free *)
}.

Definition set_mq_nodes (v : list rt_mq_message) (r : rt_messagequeue) : rt_messagequeue :=
  mkMq v (mq_msg_size r) (mq_max_msgs r) (mq_entry r) (mq_head r) (mq_tail r) (mq_free r).
Definition set_mq_msg_size (v : Z) (r : rt_messagequeue) : rt_messagequeue :=
  mkMq (mq_nodes r) v (mq_max_msgs r) (mq_entry r) (mq_head r) (mq_tail r) (mq_free r).
Definition set_mq_max_msgs (v : Z) (r : rt_messagequeue) : rt_messagequeue :=
  mkMq (mq_nodes r) (mq_msg_size r) v (mq_entry r) (mq_head r) (mq_tail r) (mq_free r).
Definition set_mq_entry (v : Z) (r : rt_messagequeue) : rt_messagequeue :=
  mkMq (mq_nodes r) (mq_msg_size r) (mq_max_msgs r) v (mq_head r) (mq_tail r) (mq_free r).
Definition set_mq_head (v : option nat) (r : rt_messagequeue) : rt_messagequeue :=
  mkMq (mq_nodes r) (mq_msg_size r) (mq_max_msgs r) (mq_entry r) v (mq_tail r) (mq_free r).
Definition set_mq_tail (v : option nat) (r : rt_messagequeue) : rt_messagequeue :=
  mkMq (mq_nodes r) (mq_msg_size r) (mq_max_msgs r) (mq_entry r) (mq_head r) v (mq_free r).
Definition set_mq_free (v : option nat) (r : rt_messagequeue) : rt_messagequeue :=
  mkMq (mq_nodes r) (mq_msg_size r) (mq_max_msgs r) (mq_entry r) (mq_head r) (mq_tail r) v.

(** The kernel's global state. *)
Record kst := mkKst {
  k_threads : gmap nat rt_thread;
  k_objects : gmap oid rt_object;  (** object headers *)
  k_containers : gmap Z (list oid);  (** rt_object_container, by class *)
  k_queues : gmap qid (list nat);  (** the lists threads are linked in by tlist *)
  k_timers : gmap tmid rt_timer;
  k_timer_list : list tmid;  (** rt_timer_list *)
  k_soft_timer_list : list tmid;  (** rt_soft_timer_list *)
  k_sems : gmap nat Z;  (** rt_semaphore: value *)
  k_mutexes : gmap nat rt_mutex;
  k_events : gmap nat Z;  (** rt_event: set *)
  k_mailboxes : gmap nat rt_mailbox;
  k_mqs : gmap nat rt_messagequeue;
  k_ready_group : Z;  (** rt_thread_ready_priority_group *)
  k_current : option nat;  (** rt_current_thread *)
  k_current_priority : Z;  (** rt_current_priority *)
  k_lock_nest : Z;  (** rt_scheduler_lock_nest (rt_int16_t) *)
  k_irq_nest : Z;  (** rt_interrupt_nest (rt_uint8_t) *)
  k_tick : Z;  (** rt_tick (rt_tick_t) *)
  k_timer_thread : option nat  (** timer_thread, once initialised *)
}.

Definition set_k_threads (v : gmap nat rt_thread) (r : kst) : kst :=
  mkKst v (k_objects r) (k_containers r) (k_queues r) (k_timers r) (k_timer_list r)
    (k_soft_timer_list r) (k_sems r) (k_mutexes r) (k_events r) (k_mailboxes r) (k_mqs r)
    (k_ready_group r) (k_current r) (k_current_priority r) (k_lock_nest r) (k_irq_nest r)
    (k_tick r) (k_timer_thread r).
Definition set_k_objects (v : gmap oid rt_object) (r : kst) : kst :=
  mkKst (k_threads r) v (k_containers r) (k_queues r) (k_timers r) (k_timer_list r)
    (k_soft_timer_list r) (k_sems r) (k_mutexes r) (k_events r) (k_mailboxes r) (k_mqs r)
    (k_ready_group r) (k_current r) (k_current_priority r) (k_lock_nest r) (k_irq_nest r)
    (k_tick r) (k_timer_thread r).
Definition set_k_containers (v : gmap Z (list oid)) (r : kst) : kst :=
  mkKst (k_threads r) (k_objects r) v (k_queues r) (k_timers r) (k_timer_list r)
    (k_soft_timer_list r) (k_sems r) (k_mutexes r) (k_events r) (k_mailboxes r) (k_mqs r)
    (k_ready_group r) (k_current r) (k_current_priority r) (k_lock_nest r) (k_irq_nest r)
    (k_tick r) (k_timer_thread r).
Definition set_k_queues (v : gmap qid (list nat)) (r : kst) : kst :=
  mkKst (k_threads r) (k_objects r) (k_containers r) v (k_timers r) (k_timer_list r)
    (k_soft_timer_list r) (k_sems r) (k_mutexes r) (k_events r) (k_mailboxes r) (k_mqs r)
    (k_ready_group r) (k_current r) (k_current_priority r) (k_lock_nest r) (k_irq_nest r)
    (k_tick r) (k_timer_thread r).
Definition set_k_timers (v : gmap tmid rt_timer) (r : kst) : kst :=
  mkKst (k_threads r) (k_objects r) (k_containers r) (k_queues r) v (k_timer_list r)
    (k_soft_timer_list r) (k_sems r) (k_mutexes r) (k_events r) (k_mailboxes r) (k_mqs r)
    (k_ready_group r) (k_current r) (k_current_priority r) (k_lock_nest r) (k_irq_nest r)
    (k_tick r) (k_timer_thread r).
Definition set_k_timer_list (v : list tmid) (r : kst) : kst :=
  mkKst (k_threads r) (k_objects r) (k_containers r) (k_queues r) (k_timers r) v
    (k_soft_timer_list r) (k_sems r) (k_mutexes r) (k_events r) (k_mailboxes r) (k_mqs r)
    (k_ready_group r) (k_current r) (k_current_priority r) (k_lock_nest r) (k_irq_nest r)
    (k_tick r) (k_timer_thread r).
Definition set_k_soft_timer_list (v : list tmid) (r : kst) : kst :=
  mkKst (k_threads r) (k_objects r) (k_containers r) (k_queues r) (k_timers r) (k_timer_list r)
    v (k_sems r) (k_mutexes r) (k_events r) (k_mailboxes r) (k_mqs r) (k_ready_group r)
    (k_current r) (k_current_priority r) (k_lock_nest r) (k_irq_nest r) (k_tick r)
    (k_timer_thread r).
Definition set_k_sems (v : gmap nat Z) (r : kst) : kst :=
  mkKst (k_threads r) (k_objects r) (k_containers r) (k_queues r) (k_timers r) (k_timer_list r)
    (k_soft_timer_list r) v (k_mutexes r) (k_events r) (k_mailboxes r) (k_mqs r) (k_ready_group
    r) (k_current r) (k_current_priority r) (k_lock_nest r) (k_irq_nest r) (k_tick r)
    (k_timer_thread r).
Definition set_k_mutexes (v : gmap nat rt_mutex) (r : kst) : kst :=
  mkKst (k_threads r) (k_objects r) (k_containers r) (k_queues r) (k_timers r) (k_timer_list r)
    (k_soft_timer_list r) (k_sems r) v (k_events r) (k_mailboxes r) (k_mqs r) (k_ready_group r)
    (k_current r) (k_current_priority r) (k_lock_nest r) (k_irq_nest r) (k_tick r)
    (k_timer_thread r).
Definition set_k_events (v : gmap nat Z) (r : kst) : kst :=
  mkKst (k_threads r) (k_objects r) (k_containers r) (k_queues r) (k_timers r) (k_timer_list r)
    (k_soft_timer_list r) (k_sems r) (k_mutexes r) v (k_mailboxes r) (k_mqs r) (k_ready_group r)
    (k_current r) (k_current_priority r) (k_lock_nest r) (k_irq_nest r) (k_tick r)
    (k_timer_thread r).
Definition set_k_mailboxes (v : gmap nat rt_mailbox) (r : kst) : kst :=
  mkKst (k_threads r) (k_objects r) (k_containers r) (k_queues r) (k_timers r) (k_timer_list r)
    (k_soft_timer_list r) (k_sems r) (k_mutexes r) (k_events r) v (k_mqs r) (k_ready_group r)
    (k_current r) (k_current_priority r) (k_lock_nest r) (k_irq_nest r) (k_tick r)
    (k_timer_thread r).
Definition set_k_mqs (v : gmap nat rt_messagequeue) (r : kst) : kst :=
  mkKst (k_threads r) (k_objects r) (k_containers r) (k_queues r) (k_timers r) (k_timer_list r)
    (k_soft_timer_list r) (k_sems r) (k_mutexes r) (k_events r) (k_mailboxes r) v (k_ready_group
    r) (k_current r) (k_current_priority r) (k_lock_nest r) (k_irq_nest r) (k_tick r)
    (k_timer_thread r).
Definition set_k_ready_group (v : Z) (r : kst) : kst :=
  mkKst (k_threads r) (k_objects r) (k_containers r) (k_queues r) (k_timers r) (k_timer_list r)
    (k_soft_timer_list r) (k_sems r) (k_mutexes r) (k_events r) (k_mailboxes r) (k_mqs r) v
    (k_current r) (k_current_priority r) (k_lock_nest r) (k_irq_nest r) (k_tick r)
    (k_timer_thread r).
Definition set_k_current (v : option nat) (r : kst) : kst :=
  mkKst (k_threads r) (k_objects r) (k_containers r) (k_queues r) (k_timers r) (k_timer_list r)
    (k_soft_timer_list r) (k_sems r) (k_mutexes r) (k_events r) (k_mailboxes r) (k_mqs r)
    (k_ready_group r) v (k_current_priority r) (k_lock_nest r) (k_irq_nest r) (k_tick r)
    (k_timer_thread r).
Definition set_k_current_priority (v : Z) (r : kst) : kst :=
  mkKst (k_threads r) (k_objects r) (k_containers r) (k_queues r) (k_timers r) (k_timer_list r)
    (k_soft_timer_list r) (k_sems r) (k_mutexes r) (k_events r) (k_mailboxes r) (k_mqs r)
    (k_ready_group r) (k_current r) v (k_lock_nest r) (k_irq_nest r) (k_tick r) (k_timer_thread
    r).
Definition set_k_lock_nest (v : Z) (r : kst) : kst :=
  mkKst (k_threads r) (k_objects r) (k_containers r) (k_queues r) (k_timers r) (k_timer_list r)
    (k_soft_timer_list r) (k_sems r) (k_mutexes r) (k_events r) (k_mailboxes r) (k_mqs r)
    (k_ready_group r) (k_current r) (k_current_priority r) v (k_irq_nest r) (k_tick r)
    (k_timer_thread r).
Definition set_k_irq_nest (v : Z) (r : kst) : kst :=
  mkKst (k_threads r) (k_objects r) (k_containers r) (k_queues r) (k_timers r) (k_timer_list r)
    (k_soft_timer_list r) (k_sems r) (k_mutexes r) (k_events r) (k_mailboxes r) (k_mqs r)
    (k_ready_group r) (k_current r) (k_current_priority r) (k_lock_nest r) v (k_tick r)
    (k_timer_thread r).
Definition set_k_tick (v : Z) (r : kst) : kst :=
  mkKst (k_threads r) (k_objects r) (k_containers r) (k_queues r) (k_timers r) (k_timer_list r)
    (k_soft_timer_list r) (k_sems r) (k_mutexes r) (k_events r) (k_mailboxes r) (k_mqs r)
    (k_ready_group r) (k_current r) (k_current_priority r) (k_lock_nest r) (k_irq_nest r) v
    (k_timer_thread r).
Definition set_k_timer_thread (v : option nat) (r : kst) : kst :=
  mkKst (k_threads r) (k_objects r) (k_containers r) (k_queues r) (k_timers r) (k_timer_list r)
    (k_soft_timer_list r) (k_sems r) (k_mutexes r) (k_events r) (k_mailboxes r) (k_mqs r)
    (k_ready_group r) (k_current r) (k_current_priority r) (k_lock_nest r) (k_irq_nest r)
    (k_tick r) v.

Definition K (A : Type) : Type := M kst A.

(** ** Access to objects *)

Definition get_thread (t : nat) : K rt_thread := deref (fun s => k_threads s !! t).
Definition mod_thread (t : nat) (f : rt_thread -> rt_thread) : K unit :=
  th <- get_thread t ;; modify (fun s => set_k_threads (<[t := f th]> (k_threads s)) s).

Definition get_object (o : oid) : K rt_object := deref (fun s => k_objects s !! o).
Definition mod_object (o : oid) (f : rt_object -> rt_object) : K unit :=
  ob <- get_object o ;; modify (fun s => set_k_objects (<[o := f ob]> (k_objects s)) s).

Definition get_timer (tm : tmid) : K rt_timer := deref (fun s => k_timers s !! tm).
Definition mod_timer (tm : tmid) (f : rt_timer -> rt_timer) : K unit :=
  ti <- get_timer tm ;; modify (fun s => set_k_timers (<[tm := f ti]> (k_timers s)) s).

(** [rt_current_thread->...] *)
Definition current_thread : K nat := deref k_current.
Definition set_current (t : nat) : K unit := modify (set_k_current (Some t)).

(** ** Thread lists *)

Definition qget (s : kst) (q : qid) : list nat := default [] (k_queues s !! q).

(** rt_list_insert_before(&head, &thread->tlist) *)
Definition q_append (q : qid) (t : nat) : K unit :=
  modify (fun s => set_k_queues (<[q := qget s q ++ [t]]> (k_queues s)) s).
(** rt_list_insert_after(&head, &thread->tlist) *)
Definition q_prepend (q : qid) (t : nat) : K unit :=
  modify (fun s => set_k_queues (<[q := t :: qget s q]> (k_queues s)) s).
(** rt_list_insert_before(&other->tlist, &thread->tlist), [other] linked in [q] *)
Fixpoint insert_before_node (u t : nat) (l : list nat) : list nat :=
  match l with
  | [] => []
  | x :: l' => if decide (x = u) then t :: x :: l' else x :: insert_before_node u t l'
  end.
Definition q_insert_before (q : qid) (u t : nat) : K unit :=
  modify (fun s => set_k_queues (<[q := insert_before_node u t (qget s q)]> (k_queues s)) s).
(** rt_list_remove(&thread->tlist): out of the list it is linked in, if any *)
Definition q_remove (t : nat) : K unit :=
  modify (fun s => set_k_queues (without t <$> k_queues s) s).
(** rt_list_init(&head) *)
Definition q_init (q : qid) : K unit :=
  modify (fun s => set_k_queues (<[q := []]> (k_queues s)) s).
(** !rt_list_isempty(&head) *)
Definition q_nonempty (q : qid) : K bool := gets (fun s => negb (bool_decide (qget s q = []))).
(** rt_list_entry(head.next, struct rt_thread, tlist) of a list that is not empty *)
Definition q_first (q : qid) : K nat := deref (fun s => head (qget s q)).

(** ** Types of objects (src/object.c) *)

(** rt_object_get_type *)
Definition rt_object_get_type (o : oid) : K Z :=
  ob <- get_object o ;; ret (Z.land (o_type ob) (Z.lnot RT_Object_Class_Static)).
(** rt_object_is_systemobject *)
Definition rt_object_is_systemobject (o : oid) : K bool :=
  ob <- get_object o ;; ret (negb (Z.land (o_type ob) RT_Object_Class_Static =? 0)).

(** RT_ASSERT(rt_object_get_type(o) == cls) *)
Definition assert_type (o : oid) (cls : Z) : K unit :=
  ty <- rt_object_get_type o ;; RT_ASSERT (ty =? cls).

(** RT_DEBUG_NOT_IN_INTERRUPT, RT_DEBUG_IN_THREAD_CONTEXT (include/rtdebug.h) *)
Definition RT_DEBUG_NOT_IN_INTERRUPT : K unit :=
  nest <- gets k_irq_nest ;; RT_ASSERT (nest =? 0).
Definition RT_DEBUG_IN_THREAD_CONTEXT : K unit :=
  cur <- gets k_current ;; RT_ASSERT (bool_decide (is_Some cur)) ;;
  RT_DEBUG_NOT_IN_INTERRUPT.

(** The state field without the yield and signal bits:
    [stat & RT_THREAD_STAT_MASK]. *)
Definition st (th : rt_thread) : Z := Z.land (th_stat th) RT_THREAD_STAT_MASK.
(** [v | (stat & ~RT_THREAD_STAT_MASK)] *)
Definition with_st (v : Z) (th : rt_thread) : rt_thread :=
  set_th_stat (Z.lor v (Z.land (th_stat th) (Z.lnot RT_THREAD_STAT_MASK))) th.
