(* ===== verification/Kservice.v ===== *)
(** * Memory and string services (src/kservice.c)

    Memory is a map from addresses to bytes; an access to an address that is not
    mapped is [UB].  The word accesses of the routines are little-endian accesses
    of four bytes, as on the target.  [write_bytes] and [read_bytes] are what the
    routines are measured against: a block of bytes at an address. *)

From S2P Require Import Prelude.

Notation mem := (gmap Z Z).
Definition B (A : Type) : Type := M mem A.

Fixpoint write_bytes (a : Z) (l : list Z) (m : mem) : mem :=
  match l with [] => m | x :: l => <[a := x]> (write_bytes (a + 1) l m) end.
Fixpoint read_bytes (m : mem) (a : Z) (n : nat) : option (list Z) :=
  match n with
  | O => Some []
  | S n => match m !! a with Some x => cons x <$> read_bytes m (a + 1) n | None => None end
  end.

(** Little-endian words of [n] bytes. *)
Fixpoint le_bytes (n : nat) (v : Z) : list Z :=
  match n with O => [] | S n => v `mod` 256 :: le_bytes n (v / 256) end.
Fixpoint le_value (l : list Z) : Z :=
  match l with [] => 0 | x :: l => x + 256 * le_value l end.

Definition mapped (m : mem) (a : Z) (n : nat) : bool := bool_decide (is_Some (read_bytes m a n)).

(** [*(T * )a] and [*(T * )a = v] for a type of [n] bytes. *)
Definition load (n : nat) (a : Z) : B Z := deref (fun m => le_value <$> read_bytes m a n).
Definition store (n : nat) (a v : Z) : B unit :=
  m <- get ;; valid (mapped m a n) ;; modify (write_bytes a (le_bytes n v)).

(** ** rt_memset, rt_memcpy, rt_memmove, rt_memcmp *)

Definition rt_memset (s c count : Z) : B Z :=
  let fuel := Z.to_nat count in
  let d := Z.land c 0xff in
  '(m, count) <-
    (if negb (count <? 4) && (Z.land s 3 =? 0) then
       let buffer := Z.lor (Z.shiftl d 8) d in
       let buffer := Z.lor buffer (Z.shiftl buffer 16) in
       r <- loop fuel (fun ac => 16 <=? snd ac) (fun ac =>
              store 4 (fst ac) buffer ;; store 4 (fst ac + 4) buffer ;;
              store 4 (fst ac + 8) buffer ;; store 4 (fst ac + 12) buffer ;;
              ret (fst ac + 16, snd ac - 16)) (s, count) ;;
       loop fuel (fun ac => 4 <=? snd ac) (fun ac =>
         store 4 (fst ac) buffer ;; ret (fst ac + 4, snd ac - 4)) r
     else ret (s, count)) ;;
  loop fuel (fun mc => negb (snd mc =? 0)) (fun mc =>
    store 1 (fst mc) d ;; ret (fst mc + 1, snd mc - 1)) (m, count) ;;
  ret s.

(** [*aligned_dst++ = *aligned_src++] *)
Definition copy (n : nat) (d s : Z) : B unit := v <- load n s ;; store n d v.

Definition rt_memcpy (dst src count : Z) : B Z :=
  let fuel := Z.to_nat count in
  '(d, s, len) <-
    (if negb (count <? 16) && (Z.lor (Z.land src 3) (Z.land dst 3) =? 0) then
       r <- loop fuel (fun x => 16 <=? snd x) (fun x =>
              let '(d, s, len) := x in
              copy 4 d s ;; copy 4 (d + 4) (s + 4) ;; copy 4 (d + 8) (s + 8) ;; copy 4 (d + 12) (s + 12) ;;
              ret (d + 16, s + 16, len - 16)) (dst, src, count) ;;
       loop fuel (fun x => 4 <=? snd x) (fun x =>
         let '(d, s, len) := x in copy 4 d s ;; ret (d + 4, s + 4, len - 4)) r
     else ret (dst, src, count)) ;;
  loop fuel (fun x => negb (snd x =? 0)) (fun x =>
    let '(d, s, len) := x in copy 1 d s ;; ret (d + 1, s + 1, len - 1)) (d, s, len) ;;
  ret dst.

Definition rt_memmove (dest src n : Z) : B Z :=
  let fuel := Z.to_nat n in
  (if (src <? dest) && (dest <? src + n) then
     loop fuel (fun x => negb (snd x =? 0)) (fun x =>
       let '(tmp, s, n) := x in copy 1 (tmp - 1) (s - 1) ;; ret (tmp - 1, s - 1, n - 1)) (dest + n, src + n, n)
   else
     loop fuel (fun x => negb (snd x =? 0)) (fun x =>
       let '(tmp, s, n) := x in copy 1 tmp s ;; ret (tmp + 1, s + 1, n - 1)) (dest, src, n)) ;;
  ret dest.

(** The loop of rt_memcmp breaks with the first difference. *)
Fixpoint memcmp_loop (n : nat) (su1 su2 res : Z) : B Z :=
  match n with
  | O => ret res
  | S n =>
      x <- load 1 su1 ;; y <- load 1 su2 ;;
      if negb (x - y =? 0) then ret (x - y) else memcmp_loop n (su1 + 1) (su2 + 1) (x - y)
  end.
Definition rt_memcmp (cs ct count : Z) : B Z := memcmp_loop (Z.to_nat count) cs ct 0.

(** ** Lemmas on blocks of bytes *)

Lemma lookup_write_bytes a l m b :
  write_bytes a l m !! b = if (a <=? b) && (b <? a + Z.of_nat (length l)) then l !! Z.to_nat (b - a) else m !! b.
Proof.
  revert a. induction l as [|x l IH]; intros a; cbn [write_bytes length].
  - destruct (Z.leb_spec a b); cbn; [|done]. by rewrite (proj2 (Z.ltb_ge _ _)) by lia.
  - destruct (decide (a = b)) as [->|Hn].
    + rewrite lookup_insert_eq, Z.leb_refl, (proj2 (Z.ltb_lt _ _)), Z.sub_diag by lia. done.
    + rewrite lookup_insert_ne, IH by done. destruct (Z.leb_spec a b); cbn [andb].
      * rewrite (proj2 (Z.leb_le (a + 1) b)) by lia. cbn [andb].
        replace (a + Z.of_nat (S (length l))) with (a + 1 + Z.of_nat (length l)) by lia.
        destruct (_ <? _); [|done]. replace (Z.to_nat (b - a)) with (S (Z.to_nat (b - (a + 1)))) by lia. done.
      * rewrite (proj2 (Z.leb_gt (a + 1) b)) by lia. done.
Qed.
Lemma lookup_write_in a l m b : a <= b < a + Z.of_nat (length l) -> write_bytes a l m !! b = l !! Z.to_nat (b - a).
Proof. intros. by rewrite lookup_write_bytes, (proj2 (Z.leb_le _ _)), (proj2 (Z.ltb_lt _ _)) by lia. Qed.
Lemma lookup_write_out a l m b : b < a \/ a + Z.of_nat (length l) <= b -> write_bytes a l m !! b = m !! b.
Proof.
  intros. rewrite lookup_write_bytes. destruct (Z.leb_spec a b); [|done]. by rewrite (proj2 (Z.ltb_ge _ _)) by lia.
Qed.
Lemma write_bytes_app a l1 l2 m : write_bytes a (l1 ++ l2) m = write_bytes (a + Z.of_nat (length l1)) l2 (write_bytes a l1 m).
Proof.
  apply map_eq. intros b. destruct (decide (a <= b < a + Z.of_nat (length (l1 ++ l2)))) as [H|H]; rewrite length_app in H.
  - rewrite lookup_write_in by (rewrite length_app; lia). destruct (decide (b < a + Z.of_nat (length l1))).
    + rewrite lookup_write_out, lookup_write_in by lia. apply lookup_app_l. lia.
    + rewrite lookup_write_in by lia. rewrite lookup_app_r by lia. f_equal. lia.
  - rewrite !lookup_write_out by (rewrite ?length_app; lia). done.
Qed.
Lemma write_bytes_comm a1 l1 a2 l2 m :
  a1 + Z.of_nat (length l1) <= a2 \/ a2 + Z.of_nat (length l2) <= a1 ->
  write_bytes a1 l1 (write_bytes a2 l2 m) = write_bytes a2 l2 (write_bytes a1 l1 m).
Proof.
  intros H. apply map_eq. intros b.
  destruct (decide (a1 <= b < a1 + Z.of_nat (length l1))).
  - rewrite lookup_write_in, lookup_write_out, lookup_write_in by lia. done.
  - rewrite (lookup_write_out a1) by lia. destruct (decide (a2 <= b < a2 + Z.of_nat (length l2))).
    + by rewrite !lookup_write_in by lia.
    + by rewrite !lookup_write_out by lia.
Qed.
Lemma write_bytes_write a l1 l2 m : length l1 = length l2 -> write_bytes a l1 (write_bytes a l2 m) = write_bytes a l1 m.
Proof.
  intros E. apply map_eq. intros b. destruct (decide (a <= b < a + Z.of_nat (length l1))).
  - by rewrite !lookup_write_in by lia.
  - by rewrite !lookup_write_out by lia.
Qed.

Lemma read_bytes_Some m a n l :
  read_bytes m a n = Some l <-> length l = n /\ forall i, (i < n)%nat -> m !! (a + Z.of_nat i) = l !! i.
Proof.
  revert a l. induction n as [|n IH]; intros a l; cbn [read_bytes].
  - split; [intros [= <-]; split; [done|lia]|]. intros [E _]. by destruct l.
  - destruct (m !! a) as [x|] eqn:Ex.
    + rewrite fmap_Some. setoid_rewrite IH. split.
      * intros (l' & [El Hl] & ->). split; [cbn; lia|]. intros [|i] Hi; [by rewrite Z.add_0_r|].
        change ((x :: l') !! S i) with (l' !! i). rewrite <- Hl by lia. f_equal. lia.
      * intros [El Hl]. destruct l as [|y l]; [done|]. pose proof (Hl 0%nat ltac:(lia)) as H0. rewrite Z.add_0_r, Ex in H0.
        injection H0 as <-. exists l. split; [|done]. split; [by injection El|]. intros i Hi.
        specialize (Hl (S i) ltac:(lia)). change ((x :: l) !! S i) with (l !! i) in Hl. rewrite <- Hl. f_equal. lia.
    + split; [done|]. intros [El Hl]. pose proof (Hl 0%nat ltac:(lia)) as H0. rewrite Z.add_0_r, Ex in H0. by destruct l.
Qed.
Lemma read_bytes_length m a n l : read_bytes m a n = Some l -> length l = n.
Proof. by intros [? _]%read_bytes_Some. Qed.
Lemma read_bytes_frame m m' a n : (forall i, (i < n)%nat -> m' !! (a + Z.of_nat i) = m !! (a + Z.of_nat i)) ->
  read_bytes m' a n = read_bytes m a n.
Proof.
  revert a. induction n as [|n IH]; intros a H; cbn [read_bytes]; [done|].
  pose proof (H 0%nat ltac:(lia)) as H0. rewrite Z.add_0_r in H0. rewrite H0. destruct (m !! a); [|done].
  rewrite IH; [done|]. intros i Hi. specialize (H (S i) ltac:(lia)).
  by replace (a + 1 + Z.of_nat i) with (a + Z.of_nat (S i)) by lia.
Qed.
Lemma read_write_out m a n b l :
  a + Z.of_nat n <= b \/ b + Z.of_nat (length l) <= a -> read_bytes (write_bytes b l m) a n = read_bytes m a n.
Proof. intros H. apply read_bytes_frame. intros i Hi. apply lookup_write_out. lia. Qed.
Lemma read_write_same m a n l : length l = n -> read_bytes (write_bytes a l m) a n = Some l.
Proof.
  intros <-. apply read_bytes_Some. split; [done|]. intros i Hi. rewrite lookup_write_in by lia. f_equal. lia.
Qed.
Lemma read_bytes_app m a n1 n2 l1 l2 :
  read_bytes m a n1 = Some l1 -> read_bytes m (a + Z.of_nat n1) n2 = Some l2 -> read_bytes m a (n1 + n2) = Some (l1 ++ l2).
Proof.
  intros [E1 H1]%read_bytes_Some [E2 H2]%read_bytes_Some. apply read_bytes_Some. split; [rewrite length_app; lia|].
  intros i Hi. destruct (decide (i < n1)%nat); [rewrite lookup_app_l, H1 by lia; done|].
  rewrite lookup_app_r by lia. rewrite E1, <- H2 by lia. f_equal. lia.
Qed.
Lemma read_bytes_sub m a n l k j :
  read_bytes m a n = Some l -> (k + j <= n)%nat -> read_bytes m (a + Z.of_nat k) j = Some (take j (drop k l)).
Proof.
  intros [E H]%read_bytes_Some Hk. apply read_bytes_Some. rewrite length_take, length_drop. split; [lia|]. intros i Hi.
  rewrite lookup_take_lt, lookup_drop, <- H by lia. f_equal. lia.
Qed.
Lemma read_bytes_take m a n l c : read_bytes m a n = Some l -> (c <= n)%nat -> read_bytes m a c = Some (take c l).
Proof. intros H Hc. pose proof (read_bytes_sub _ _ _ _ 0 c H Hc) as E. by rewrite Z.add_0_r in E. Qed.
Lemma mapped_true m a n : mapped m a n = true <-> is_Some (read_bytes m a n).
Proof. apply bool_decide_eq_true. Qed.
Lemma mapped_sub m a n k j : mapped m a n = true -> (k + j <= n)%nat -> mapped m (a + Z.of_nat k) j = true.
Proof. rewrite !mapped_true. intros [l Hl] Hk. rewrite (read_bytes_sub _ _ _ _ _ _ Hl Hk). eauto. Qed.
Lemma mapped_write m a n b l : mapped m a n = true -> mapped (write_bytes b l m) a n = true.
Proof.
  rewrite !mapped_true. revert a. induction n as [|n IH]; intros a H; cbn [read_bytes] in *; [by eexists|].
  destruct (m !! a) as [x|] eqn:Ex; [|by destruct H].
  assert (is_Some (read_bytes m (a + 1) n)) as [l' Hl'] by (destruct (read_bytes m (a + 1) n); [done|by destruct H]).
  destruct (IH (a + 1) (mk_is_Some _ _ Hl')) as [l2 ->]. rewrite lookup_write_bytes.
  destruct ((b <=? a) && (a <? b + Z.of_nat (length l))) eqn:E; [|rewrite Ex; by eexists].
  destruct (lookup_lt_is_Some_2 l (Z.to_nat (a - b)) ltac:(lia)) as [y ->]. by eexists.
Qed.

Lemma le_bytes_length n v : length (le_bytes n v) = n.
Proof. revert v. induction n as [|n IH]; intros v; cbn; [done|]. by rewrite IH. Qed.
Lemma le_value_bytes n v : le_value (le_bytes n v) = v `mod` 256 ^ Z.of_nat n.
Proof.
  revert v. induction n as [|n IH]; intros v; cbn [le_bytes le_value].
  - by rewrite Z.mod_1_r.
  - rewrite IH, Nat2Z.inj_succ, Z.pow_succ_r by lia. rewrite Z.rem_mul_r by (try apply Z.pow_nonzero; lia). done.
Qed.

Definition byte_range (l : list Z) : Prop := Forall (fun x => 0 <= x < 256) l.

Lemma le_bytes_value l : byte_range l -> le_bytes (length l) (le_value l) = l.
Proof.
  induction 1 as [|x l Hx Hl IH]; cbn [le_bytes le_value length]; [done|]. f_equal.
  - rewrite Z.mul_comm, Z_mod_plus_full. by apply Z.mod_small.
  - rewrite Z.mul_comm, Z.div_add, Z.div_small by lia. done.
Qed.

Lemma wp_load n a m l (Q : Z -> mem -> Prop) : read_bytes m a n = Some l -> Q (le_value l) m -> wp (load n a) m Q.
Proof. intros H HQ. eapply wp_deref; [|exact HQ]. cbn. by rewrite H. Qed.
Lemma wp_store n a v m (Q : unit -> mem -> Prop) :
  mapped m a n = true -> Q tt (write_bytes a (le_bytes n v) m) -> wp (store n a v) m Q.
Proof. intros H HQ. unfold store. kstep. kstep. kstep. apply wp_valid; [done|]. by kstep. Qed.
Lemma wp_copy n d s m l (Q : unit -> mem -> Prop) :
  read_bytes m s n = Some l -> byte_range l -> mapped m d n = true -> Q tt (write_bytes d l m) -> wp (copy n d s) m Q.
Proof.
  intros H Hr Hd HQ. unfold copy. kstep. eapply wp_load; [done|]. apply wp_store; [done|].
  by rewrite <- (read_bytes_length _ _ _ _ H), le_bytes_value.
Qed.

(** ** Correctness of the memory routines *)

(** What rt_memset has written after [i] bytes. *)
Definition filled (s d : Z) (m : mem) (i : Z) : mem := write_bytes s (replicate (Z.to_nat i) d) m.

Lemma filled_step s d m i j : 0 <= i -> 0 <= j ->
  write_bytes (s + i) (replicate (Z.to_nat j) d) (filled s d m i) = filled s d m (i + j).
Proof.
  intros. unfold filled. rewrite Z2Nat.inj_add, replicate_add, write_bytes_app, length_replicate by done. f_equal. lia.
Qed.

(** The word rt_memset stores consists of four times the byte. *)
Lemma fill_word d : 0 <= d < 256 ->
  let b := Z.lor (Z.shiftl d 8) d in le_bytes 4 (Z.lor b (Z.shiftl b 16)) = replicate (Z.to_nat 4) d.
Proof.
  intros Hd. set (P := fun d => let b := Z.lor (Z.shiftl d 8) d in bool_decide (le_bytes 4 (Z.lor b (Z.shiftl b 16)) = replicate 4 d)).
  assert (forallb P (seqZ 0 256) = true) as H by by vm_compute.
  rewrite forallb_forall in H. specialize (H d). eapply bool_decide_eq_true_1, H, list_elem_of_In, elem_of_seqZ. lia.
Qed.

Section memset.
Context (m : mem) (s d n v : Z) (w : nat).
Hypothesis (Hmap : mapped m s (Z.to_nat n) = true) (Hv : le_bytes w v = replicate w d).

Lemma fill_store i : 0 <= i -> i + Z.of_nat w <= n ->
  wp (store w (s + i) v) (filled s d m i) (fun _ m' => m' = filled s d m (i + Z.of_nat w)).
Proof using All.
  intros Hi Hn. apply wp_store.
  - apply mapped_write. rewrite <- (Z2Nat.id i) by done. apply (mapped_sub _ _ (Z.to_nat n)); [done|lia].
  - rewrite Hv, <- filled_step by lia. by rewrite Nat2Z.id.
Qed.

Definition fill_inv (ac : Z * Z) (m' : mem) : Prop :=
  0 <= snd ac <= n /\ fst ac = s + (n - snd ac) /\ m' = filled s d m (n - snd ac).

Lemma fill_turn a c m' a1 c1 : fill_inv (a, c) m' -> Z.of_nat w <= c -> a1 = a + Z.of_nat w -> c1 = c - Z.of_nat w ->
  wp (store w a v) m' (fun _ m'' => fill_inv (a1, c1) m'').
Proof using All.
  intros (H1 & H2 & ->) Hc -> ->. cbn [fst snd] in *. subst a. eapply wp_mono; [apply fill_store; lia|]. intros [] ? ->.
  unfold fill_inv. cbn [fst snd]. split_and!; [lia..|]. f_equal. lia.
Qed.
End memset.

Lemma rt_memset_wp m s c n :
  0 <= n -> mapped m s (Z.to_nat n) = true ->
  wp (rt_memset s c n) m (fun r m' => r = s /\ m' = write_bytes s (replicate (Z.to_nat n) (c `mod` 256)) m).
Proof.
  intros Hn Hm. set (d := c `mod` 256). assert (0 <= d < 256) as Hd by (apply Z.mod_pos_bound; lia). fold (filled s d m n).
  unfold rt_memset. change 0xff with (Z.ones 8). rewrite Z.land_ones by lia. fold d. change (2 ^ 8) with 256. fold d.
  set (b := Z.lor (Z.lor (Z.shiftl d 8) d) _). pose proof (fill_word d Hd) as Hb. fold b in Hb. change (Z.to_nat 4) with 4%nat in Hb.
  assert (fill_inv m s d n (s, n) m) as I0 by (unfold fill_inv, filled; cbn [fst snd]; rewrite Z.sub_diag; split_and!; [lia..|done]).
  kstep. eapply (wp_mono _ _ (fill_inv m s d n)).
  - destruct (negb (n <? 4) && (Z.land s 3 =? 0)); [|by kstep]. kstep.
    eapply wp_mono; [apply (wp_loop (fill_inv m s d n) (fun ac => Z.to_nat (snd ac))); [|exact I0|cbn; lia]|].
    + intros [a k] m1 I1 Hk%Z.leb_le. cbn [fst snd] in *.
      kstep. eapply wp_mono; [apply (fill_turn m s d n b 4 Hm Hb _ _ _ (a + 4) (k - 4) I1); lia|]. intros [] m2 I2.
      kstep. eapply wp_mono; [apply (fill_turn m s d n b 4 Hm Hb _ _ _ (a + 8) (k - 8) I2); lia|]. intros [] m3 I3.
      kstep. eapply wp_mono; [apply (fill_turn m s d n b 4 Hm Hb _ _ _ (a + 12) (k - 12) I3); lia|]. intros [] m4 I4.
      kstep. eapply wp_mono; [apply (fill_turn m s d n b 4 Hm Hb _ _ _ (a + 16) (k - 16) I4); lia|]. intros [] m5 I5.
      kstep. split; [done|cbn; lia].
    + intros r m1 [I1 _]. eapply wp_mono; [apply (wp_loop (fill_inv m s d n) (fun ac => Z.to_nat (snd ac)));
        [|exact I1|destruct I1; lia]|by intros ? ? []].
      intros [a k] m2 I2 Hk%Z.leb_le. cbn [fst snd] in *. kstep.
      eapply wp_mono; [apply (fill_turn m s d n b 4 Hm Hb _ _ _ (a + 4) (k - 4) I2); lia|]. intros [] m3 I3. kstep. split; [done|cbn; lia].
  - intros [a k] m1 I1. kstep. eapply wp_mono; [apply (wp_loop (fill_inv m s d n) (fun ac => Z.to_nat (snd ac)));
      [|exact I1|destruct I1; cbn in *; lia]|].
    + intros [a1 k1] m2 I2 Hk%negb_true_iff%Z.eqb_neq. cbn [fst snd] in *. kstep. pose proof I2 as [[? _] _]. cbn [snd] in *.
      assert (le_bytes 1 d = replicate 1 d) as Hd1 by (cbn; by rewrite Z.mod_small).
      eapply wp_mono; [apply (fill_turn m s d n d 1 Hm Hd1 _ _ _ (a1 + 1) (k1 - 1) I2); lia|]. intros [] m3 I3. kstep. split; [done|cbn; lia].
    + intros [a' k'] m2 [(I2 & _ & ->) Hk%negb_false_iff%Z.eqb_eq]. cbn [snd] in *. kstep. split; [done|]. f_equal. lia.
Qed.

(** Rt_memset fills exactly the [n] bytes from [s] with the low byte of [c],
    whatever the alignment and the length: the word and unrolled loops agree with
    a byte loop, terminate, and touch nothing else. *)
Theorem rt_memset_correct m s c n :
  0 <= n -> mapped m s (Z.to_nat n) = true ->
  rt_memset s c n m = Ok s (write_bytes s (replicate (Z.to_nat n) (c `mod` 256)) m).
Proof. intros Hn Hm. destruct (wp_run _ _ _ (rt_memset_wp m s c n Hn Hm)) as (? & ? & E & -> & ->). done. Qed.

(** Copying upwards: right when the areas are apart or the target is below. *)
Section copying.
Context (m : mem) (dst src n : Z) (l : list Z).
Hypothesis (Hread : read_bytes m src (Z.to_nat n) = Some l) (Hr : byte_range l).
Hypothesis (Hmap : mapped m dst (Z.to_nat n) = true) (Hn : 0 <= n) (Hdir : dst <= src \/ src + n <= dst).

Definition copied (i : Z) : mem := write_bytes dst (take (Z.to_nat i) l) m.

Lemma copied_step i w : 0 <= i -> i + Z.of_nat w <= n ->
  write_bytes (dst + i) (take w (drop (Z.to_nat i) l)) (copied i) = copied (i + Z.of_nat w).
Proof using Hread.
  intros Hi Hw. pose proof (read_bytes_length _ _ _ _ Hread) as El. unfold copied.
  replace (Z.to_nat (i + Z.of_nat w)) with (Z.to_nat i + w)%nat by lia.
  rewrite <- (take_take_drop l), write_bytes_app, length_take. f_equal. lia.
Qed.

Definition copy_inv (x : Z * Z * Z) (m' : mem) : Prop :=
  let '(d, s, k) := x in 0 <= k <= n /\ d = dst + (n - k) /\ s = src + (n - k) /\ m' = copied (n - k).

Lemma copy_inv_start : copy_inv (dst, src, n) m.
Proof using Hn. unfold copy_inv, copied. rewrite Z.sub_diag. split_and!; [lia..|done]. Qed.

Lemma copy_turn w d s k m' d1 s1 k1 : copy_inv (d, s, k) m' -> Z.of_nat w <= k ->
  d1 = d + Z.of_nat w -> s1 = s + Z.of_nat w -> k1 = k - Z.of_nat w ->
  wp (copy w d s) m' (fun _ m'' => copy_inv (d1, s1, k1) m'').
Proof using All.
  intros (H1 & -> & -> & ->) Hw -> -> ->. pose proof (read_bytes_length _ _ _ _ Hread) as El. set (i := n - k).
  apply (wp_copy _ _ _ _ (take w (drop (Z.to_nat i) l))).
  - unfold copied. rewrite read_write_out by (rewrite length_take; lia). rewrite <- (Z2Nat.id i) by lia.
    replace (Z.to_nat (Z.of_nat (Z.to_nat i))) with (Z.to_nat i) by lia. apply (read_bytes_sub _ _ _ _ _ _ Hread). lia.
  - by apply Forall_take, Forall_drop.
  - apply mapped_write. rewrite <- (Z2Nat.id i) by lia. apply (mapped_sub _ _ (Z.to_nat n)); [done|lia].
  - rewrite copied_step by lia. unfold copy_inv. split_and!; [lia..|]. f_equal. lia.
Qed.

(** The byte loop at the end of a copy. *)
Lemma copy_bytes_wp x m' fuel : copy_inv x m' -> (Z.to_nat (snd x) <= fuel)%nat ->
  wp (loop fuel (fun x => negb (snd x =? 0)) (fun x =>
        let '(d, s, len) := x in copy 1 d s ;; ret (d + 1, s + 1, len - 1)) x) m' (fun _ m'' => m'' = write_bytes dst l m).
Proof using All.
  intros I1 Hf. eapply wp_mono; [apply (wp_loop copy_inv (fun x => Z.to_nat (snd x))); [|exact I1|done]|].
  - intros [[d s] k] m2 I2 Hk%negb_true_iff%Z.eqb_neq. cbn [snd] in *. pose proof I2 as [[? _] _]. kstep.
    eapply wp_mono; [apply (copy_turn 1 _ _ _ _ (d + 1) (s + 1) (k - 1) I2); lia|]. intros [] m3 I3. kstep. split; [done|cbn; lia].
  - intros [[d s] k] m2 [(H1 & _ & _ & ->) Hk%negb_false_iff%Z.eqb_eq]. cbn [snd] in *. unfold copied.
    rewrite take_ge; [done|]. rewrite (read_bytes_length _ _ _ _ Hread). lia.
Qed.
End copying.

Lemma rt_memcpy_wp m dst src n l :
  read_bytes m src (Z.to_nat n) = Some l -> byte_range l -> mapped m dst (Z.to_nat n) = true -> 0 <= n ->
  dst <= src \/ src + n <= dst ->
  wp (rt_memcpy dst src n) m (fun r m' => r = dst /\ m' = write_bytes dst l m).
Proof.
  intros Hl Hr Hm Hn Hdir. unfold rt_memcpy. kstep.
  pose proof (copy_inv_start m dst src n l Hn) as I0. pose proof (copy_turn m dst src n l Hl Hr Hm Hn Hdir 4) as Hturn.
  eapply (wp_mono _ _ (copy_inv m dst src n l)).
  - destruct (negb (n <? 16) && _); [|by kstep]. kstep.
    eapply wp_mono; [apply (wp_loop (copy_inv m dst src n l) (fun x => Z.to_nat (snd x))); [|exact I0|cbn; lia]|].
    + intros [[d s] k] m1 I1 Hk%Z.leb_le. cbn [snd] in *.
      kstep. eapply wp_mono; [apply (Hturn _ _ _ _ (d + 4) (s + 4) (k - 4) I1); lia|]. intros [] m2 I2.
      kstep. eapply wp_mono; [apply (Hturn _ _ _ _ (d + 8) (s + 8) (k - 8) I2); lia|]. intros [] m3 I3.
      kstep. eapply wp_mono; [apply (Hturn _ _ _ _ (d + 12) (s + 12) (k - 12) I3); lia|]. intros [] m4 I4.
      kstep. eapply wp_mono; [apply (Hturn _ _ _ _ (d + 16) (s + 16) (k - 16) I4); lia|]. intros [] m5 I5.
      kstep. split; [done|cbn; lia].
    + intros r m1 [I1 _]. eapply wp_mono; [apply (wp_loop (copy_inv m dst src n l) (fun x => Z.to_nat (snd x)));
        [|exact I1|destruct r as [[] ?], I1; cbn; lia]|by intros ? ? []].
      intros [[d s] k] m2 I2 Hk%Z.leb_le. cbn [snd] in *. kstep.
      eapply wp_mono; [apply (Hturn _ _ _ _ (d + 4) (s + 4) (k - 4) I2); lia|]. intros [] m3 I3. kstep. split; [done|cbn; lia].
  - intros [[d s] k] m1 I1. kstep. eapply wp_mono; [apply (copy_bytes_wp m dst src n l); [done..|destruct I1; cbn; lia]|].
    intros [] m2 ->. by kstep.
Qed.

(** Copying downwards: right when the target is above the source. *)
Lemma rt_memmove_down_wp m dst src n l fuel :
  read_bytes m src (Z.to_nat n) = Some l -> byte_range l -> mapped m dst (Z.to_nat n) = true -> 0 <= n -> src < dst ->
  (Z.to_nat n <= fuel)%nat ->
  wp (loop fuel (fun x => negb (snd x =? 0)) (fun x =>
       let '(tmp, s, n) := x in copy 1 (tmp - 1) (s - 1) ;; ret (tmp - 1, s - 1, n - 1)) (dst + n, src + n, n)) m
    (fun _ m' => m' = write_bytes dst l m).
Proof.
  intros Hl Hr Hm Hn Hdir Hfuel. pose proof (read_bytes_length _ _ _ _ Hl) as El.
  set (I := fun (x : Z * Z * Z) m' => let '(d, s, k) := x in
    0 <= k <= n /\ d = dst + k /\ s = src + k /\ m' = write_bytes (dst + k) (drop (Z.to_nat k) l) m).
  eapply wp_mono; [apply (wp_loop I (fun x => Z.to_nat (snd x))); [| |cbn; lia]|].
  - intros [[d s] k] m2 (H1 & -> & -> & ->) Hk%negb_true_iff%Z.eqb_neq. cbn [snd] in *. kstep.
    assert (exists j, Z.to_nat k = S j /\ k - 1 = Z.of_nat j) as (j & Ej & Ek) by (exists (Z.to_nat k - 1)%nat; lia).
    destruct (lookup_lt_is_Some_2 l j ltac:(lia)) as [x Hx].
    apply (wp_copy _ _ _ _ [x]).
    + rewrite read_write_out by (rewrite length_drop; lia). replace (src + k - 1) with (src + Z.of_nat j) by lia.
      rewrite (read_bytes_sub _ _ _ _ j 1 Hl) by lia. by rewrite (drop_S _ x).
    + constructor; [|constructor]. exact (Forall_lookup_1 _ l j x Hr Hx).
    + apply mapped_write. replace (dst + k - 1) with (dst + Z.of_nat j) by lia. apply (mapped_sub _ _ (Z.to_nat n)); [done|lia].
    + kstep. split; [|cbn; lia]. unfold I. split_and!; [lia..|].
      replace (Z.to_nat (k - 1)) with j by lia. rewrite Ej, (drop_S l x j) by done. cbn [write_bytes].
      replace (dst + (k - 1) + 1) with (dst + k) by lia. by replace (dst + k - 1) with (dst + (k - 1)) by lia.
  - unfold I. split_and!; [lia..|]. by rewrite drop_ge by lia.
  - intros [[d s] k] m2 [(H1 & _ & _ & ->) Hk%negb_false_iff%Z.eqb_eq]. cbn [snd] in *. subst k. by rewrite Z.add_0_r.
Qed.

(** Rt_memcpy and rt_memmove copy.  rt_memmove leaves in the target exactly
    the bytes the source held before the call, however the two areas overlap;
    rt_memcpy, with its unrolled word loops, does so when they are apart or the
    target is below the source.  Both terminate and touch no byte outside the
    target. *)
Theorem memory_copies m dst src n l :
  read_bytes m src (Z.to_nat n) = Some l -> byte_range l -> mapped m dst (Z.to_nat n) = true -> 0 <= n ->
  rt_memmove dst src n m = Ok dst (write_bytes dst l m) /\
  (dst <= src \/ src + n <= dst -> rt_memcpy dst src n m = Ok dst (write_bytes dst l m)).
Proof.
  intros Hl Hr Hm Hn. split.
  - enough (wp (rt_memmove dst src n) m (fun r m' => r = dst /\ m' = write_bytes dst l m)) as Hwp.
    { destruct (wp_run _ _ _ Hwp) as (? & ? & E & -> & ->). done. }
    unfold rt_memmove. kstep. destruct ((src <? dst) && (dst <? src + n)) eqn:E.
    + apply andb_true_iff in E as [E _]. apply Z.ltb_lt in E. eapply wp_mono; [by apply (rt_memmove_down_wp m dst src n l)|].
      intros r m' ->. by kstep.
    + assert (dst <= src \/ src + n <= dst) as Hdir by (apply andb_false_iff in E as [E|E]; apply Z.ltb_ge in E; lia).
      eapply wp_mono; [apply (copy_bytes_wp m dst src n l); [done..|by apply copy_inv_start|cbn; lia]|]. intros r m' ->. by kstep.
  - intros Hdir. destruct (wp_run _ _ _ (rt_memcpy_wp m dst src n l Hl Hr Hm Hn Hdir)) as (? & ? & E & -> & ->). done.
Qed.

Definition sample_mem : mem := write_bytes 100 [1; 2; 3; 4; 5; 6; 7; 8; 9; 10; 11; 12; 13; 14; 15; 16; 17; 18; 19; 20; 21; 22] ∅.

Lemma memory_copies_witness :
  rt_memmove 103 100 17 sample_mem = Ok 103 (write_bytes 103 [1; 2; 3; 4; 5; 6; 7; 8; 9; 10; 11; 12; 13; 14; 15; 16; 17] sample_mem) /\
  (103 <= 100 \/ 100 + 17 <= 103 ->
     rt_memcpy 103 100 17 sample_mem = Ok 103 (write_bytes 103 [1; 2; 3; 4; 5; 6; 7; 8; 9; 10; 11; 12; 13; 14; 15; 16; 17] sample_mem)).
Proof.
  apply memory_copies; [by vm_compute|repeat (apply Forall_cons; split; [lia|]); apply Forall_nil_2|by vm_compute|lia].
Defined.

Lemma rt_memset_correct_witness :
  rt_memset 100 0x1ff 17 sample_mem = Ok 100 (write_bytes 100 (replicate 17 255) sample_mem).
Proof. exact (rt_memset_correct sample_mem 100 0x1ff 17 ltac:(lia) ltac:(by vm_compute)). Defined.

(** ** Comparing *)

(** The difference of the first bytes that differ. *)
Fixpoint first_diff (l1 l2 : list Z) : Z :=
  match l1, l2 with x :: l1, y :: l2 => if x =? y then first_diff l1 l2 else x - y | _, _ => 0 end.

Lemma read_bytes_cons m a n l : read_bytes m a (S n) = Some l -> exists x l', l = x :: l' /\ m !! a = Some x /\ read_bytes m (a + 1) n = Some l'.
Proof. cbn. destruct (m !! a) as [x|]; [|done]. intros (l' & ? & ->)%fmap_Some. eauto. Qed.

Lemma rt_memcmp_ok m cs ct n l1 l2 :
  read_bytes m cs (Z.to_nat n) = Some l1 -> read_bytes m ct (Z.to_nat n) = Some l2 ->
  rt_memcmp cs ct n m = Ok (first_diff l1 l2) m.
Proof.
  unfold rt_memcmp. generalize (Z.to_nat n) as k. intros k. revert cs ct l1 l2.
  induction k as [|k IH]; intros cs ct l1 l2 H1 H2; [by injection H1 as <-; injection H2 as <-|].
  destruct (read_bytes_cons _ _ _ _ H1) as (x & l1' & -> & Hx & H1'). destruct (read_bytes_cons _ _ _ _ H2) as (y & l2' & -> & Hy & H2').
  cbn [memcmp_loop]. assert (forall z a, m !! a = Some z -> load 1 a m = Ok z m) as Hload.
  { intros z a Ha. unfold load, deref. cbn. rewrite Ha. cbn. by rewrite Z.add_0_r. }
  rewrite (bind_ok _ _ _ _ _ (Hload _ _ Hx)), (bind_ok _ _ _ _ _ (Hload _ _ Hy)). cbn [first_diff].
  destruct (Z.eqb_spec x y) as [->|Hn].
  - rewrite Z.sub_diag. cbn [Z.eqb negb]. by apply IH.
  - by rewrite (proj2 (Z.eqb_neq _ _)) by lia.
Qed.

Lemma first_diff_zero l1 l2 : length l1 = length l2 -> first_diff l1 l2 = 0 <-> l1 = l2.
Proof.
  revert l2. induction l1 as [|x l1 IH]; intros [|y l2] E; cbn in *; try done. destruct (Z.eqb_spec x y) as [->|Hn].
  - rewrite IH by lia. naive_solver.
  - split; [lia|]. by intros [= ? ?].
Qed.
