(* ===== verification/Str.v ===== *)
(** * Strings in memory (src/kservice.c)

    rt_strlen, rt_strnlen, rt_strcmp, rt_strcasecmp and rt_strstr on byte memory.
    A loop that runs up to a NUL takes the number of mapped bytes as fuel: it
    reads a byte that is not mapped, or meets the NUL, before. *)

From S2P Require Import Prelude Kservice.

Definition mapped_bytes : B nat := gets (fun m : mem => S (size m)).

Fixpoint strlen_loop (fuel : nat) (sc : Z) : B Z :=
  match fuel with
  | O => nofuel
  | S fuel => c <- load 1 sc ;; if negb (c =? 0) then strlen_loop fuel (sc + 1) else ret sc
  end.
Definition rt_strlen (s : Z) : B Z :=
  fuel <- mapped_bytes ;;
  sc <- strlen_loop fuel s ;;
  ret (sc - s).

Fixpoint strnlen_loop (fuel : nat) (s maxlen sc : Z) : B Z :=
  match fuel with
  | O => nofuel
  | S fuel => c <- load 1 sc ;; if negb (c =? 0) && (u32 (sc - s) <? maxlen) then strnlen_loop fuel s maxlen (sc + 1) else ret sc
  end.
Definition rt_strnlen (s maxlen : Z) : B Z :=
  fuel <- mapped_bytes ;;
  sc <- strnlen_loop fuel s maxlen s ;;
  ret (sc - s).

Fixpoint strcmp_loop (fuel : nat) (cs ct : Z) : B (Z * Z) :=
  match fuel with
  | O => nofuel
  | S fuel =>
      x <- load 1 cs ;;
      if x =? 0 then ret (cs, ct)
      else
        y <- load 1 ct ;;
        if x =? y then strcmp_loop fuel (cs + 1) (ct + 1) else ret (cs, ct)
  end.
Definition rt_strcmp (cs ct : Z) : B Z :=
  fuel <- mapped_bytes ;;
  '(cs, ct) <- strcmp_loop fuel cs ct ;;
  x <- load 1 cs ;;
  y <- load 1 ct ;;
  ret (x - y).

(** Upper case letters become lower case ones. *)
Definition fold_case (c : Z) : Z := if (0x41 <=? c) && (c <=? 0x5a) then c + (0x61 - 0x41) else c.

Fixpoint strcasecmp_loop (fuel : nat) (a b : Z) : B (Z * Z) :=
  match fuel with
  | O => nofuel
  | S fuel =>
      x <- load 1 a ;;
      y <- load 1 b ;;
      let ca := fold_case (Z.land x 0xff) in
      let cb := fold_case (Z.land y 0xff) in
      if (ca =? cb) && negb (ca =? 0) then strcasecmp_loop fuel (a + 1) (b + 1) else ret (ca, cb)
  end.
Definition rt_strcasecmp (a b : Z) : B Z :=
  fuel <- mapped_bytes ;;
  '(ca, cb) <- strcasecmp_loop fuel a b ;;
  ret (u32 (ca - cb)).

Fixpoint strstr_loop (fuel : nat) (l1 l2 s1 s2 : Z) : B Z :=
  if l2 <=? l1 then
    match fuel with
    | O => nofuel
    | S fuel =>
        r <- rt_memcmp s1 s2 l2 ;;
        if r =? 0 then ret s1 else strstr_loop fuel (l1 - 1) l2 (s1 + 1) s2
    end
  else ret 0.
Definition rt_strstr (s1 s2 : Z) : B Z :=
  l2 <- rt_strlen s2 ;;
  let l2 := i32 l2 in
  if l2 =? 0 then ret s1
  else
    l1 <- rt_strlen s1 ;;
    let l1 := i32 l1 in
    strstr_loop (Z.to_nat (l1 + 1)) l1 l2 s1 s2.

(** ** C strings in memory *)

Definition cstr (m : mem) (p : Z) (l : list Z) : Prop :=
  chars_ok l /\ read_bytes m p (S (length l)) = Some (cstring l).

Lemma wp_load1 m a x (Q : Z -> mem -> Prop) : m !! a = Some x -> Q x m -> wp (load 1 a) m Q.
Proof. intros E HQ. apply (wp_load _ _ _ [x]); [cbn; by rewrite E|]. cbn. by rewrite Z.add_0_r. Qed.

Lemma cstr_nil m p : cstr m p [] -> m !! p = Some 0.
Proof. intros [_ H]. cbn in H. destruct (m !! p); cbn in *; congruence. Qed.
Lemma cstr_cons m p c l : cstr m p (c :: l) <-> m !! p = Some c /\ 1 <= c < 256 /\ cstr m (p + 1) l.
Proof.
  unfold cstr, chars_ok, cstring. rewrite Forall_cons. cbn [length app]. split.
  - intros [[Hc Hl] H]. destruct (read_bytes_cons _ _ _ _ H) as (x & l' & [= <- <-] & ? & ?). done.
  - intros (E & Hc & Hl & H). split; [done|]. change (match m !! p with Some x => cons x <$> read_bytes m (p + 1) (S (length l)) | None => None end = Some (c :: l ++ [0])).
    by rewrite E, H.
Qed.

(** Mapped bytes that are read one after the other are no more than there are. *)
Lemma read_bytes_size m a n l : read_bytes m a n = Some l -> (n <= size m)%nat.
Proof.
  intros [El Hl]%read_bytes_Some. assert (list_to_set (C := gset Z) ((fun i => a + Z.of_nat i) <$> seq 0 n) ⊆ dom m) as Hs.
  { intros x. rewrite elem_of_list_to_set, list_elem_of_fmap. intros (i & -> & Hi%elem_of_seq). apply elem_of_dom. rewrite Hl by lia. apply lookup_lt_is_Some. lia. }
  apply subseteq_size in Hs. rewrite size_dom, size_list_to_set, length_fmap, length_seq in Hs; [done|].
  apply NoDup_fmap_2_strong; [intros; lia|apply NoDup_seq].
Qed.
Lemma cstr_size m p l : cstr m p l -> (length l < size m)%nat.
Proof. intros [_ H]. by apply read_bytes_size in H. Qed.
Lemma cstr_frame m m' p l : (forall i, (i <= length l)%nat -> m' !! (p + Z.of_nat i) = m !! (p + Z.of_nat i)) -> cstr m p l -> cstr m' p l.
Proof. intros H [Hl Hr]. split; [done|]. rewrite <- Hr. apply read_bytes_frame. intros i Hi. apply H. lia. Qed.

(** ** Lengths *)

Lemma strlen_loop_wp m l fuel : forall p, (length l < fuel)%nat -> cstr m p l ->
  wp (strlen_loop fuel p) m (fun r m' => m' = m /\ r = p + Z.of_nat (length l)).
Proof.
  revert fuel. induction l as [|c l IH]; intros [|fuel] p Hf H; try (cbn in Hf; lia); cbn [strlen_loop]; kstep.
  - apply (wp_load1 _ _ 0); [by apply cstr_nil|]. cbn [Z.eqb negb]. kstep. split; [done|cbn; lia].
  - apply cstr_cons in H as (E & Hc & H). apply (wp_load1 _ _ c); [done|]. rewrite (proj2 (Z.eqb_neq c 0)) by lia. cbn [negb].
    eapply wp_mono; [apply IH; [cbn in Hf; lia|done]|]. intros r m' [-> ->]. split; [done|cbn; lia].
Qed.
Lemma rt_strlen_wp m p l : cstr m p l -> wp (rt_strlen p) m (fun r m' => m' = m /\ r = Z.of_nat (length l)).
Proof.
  intros H. unfold rt_strlen, mapped_bytes. ksteps. eapply wp_mono; [apply strlen_loop_wp; [|done]|].
  - pose proof (cstr_size _ _ _ H). lia.
  - intros r m' [-> ->]. kstep. split; [done|lia].
Qed.

Lemma strnlen_loop_wp m l s maxlen fuel : forall p, (length l < fuel)%nat -> cstr m p l -> 0 <= p - s -> p - s + Z.of_nat (length l) < 2 ^ 32 -> p - s <= maxlen ->
  wp (strnlen_loop fuel s maxlen p) m (fun r m' => m' = m /\ r = Z.min (p + Z.of_nat (length l)) (s + maxlen)).
Proof.
  revert fuel. induction l as [|c l IH]; intros [|fuel] p Hf H Hp Hb Hm; try (cbn in Hf; lia); cbn [strnlen_loop]; kstep.
  - apply (wp_load1 _ _ 0); [by apply cstr_nil|]. cbn [Z.eqb negb andb]. kstep. split; [done|cbn; lia].
  - apply cstr_cons in H as (E & Hc & H). apply (wp_load1 _ _ c); [done|]. rewrite (proj2 (Z.eqb_neq c 0)) by lia. cbn [negb andb length] in *.
    rewrite u32_small by lia. destruct (Z.ltb_spec (p - s) maxlen).
    + eapply wp_mono; [apply IH; [lia|done|lia|lia|lia]|]. intros r m' [-> ->]. split; [done|lia].
    + kstep. split; [done|lia].
Qed.

(** rt_strnlen looks at one character more than it is allowed to: it reads the
    byte at [s + maxlen] before it compares the position with [maxlen]. *)
Lemma strnlen_loop_reads s maxlen m l fuel : forall p, (length l < fuel)%nat -> chars_ok l -> read_bytes m p (length l) = Some l ->
  0 <= p - s -> p - s + Z.of_nat (length l) = maxlen -> maxlen < 2 ^ 32 -> m !! (s + maxlen) = None -> strnlen_loop fuel s maxlen p m = UB.
Proof.
  revert fuel. induction l as [|c l IH]; intros [|fuel] p Hf Hl H Hp Hm Hb Hn; try (cbn in Hf; lia); cbn [strnlen_loop]; unfold bind, load, deref; cbn [read_bytes].
  - cbn in Hm. replace p with (s + maxlen) by lia. by rewrite Hn.
  - destruct (read_bytes_cons _ _ _ _ H) as (x & l' & [= <- <-] & Ex & Hr). inversion Hl; subst. rewrite Ex. cbn [fmap option_fmap option_map le_value]. rewrite Z.mul_0_r, Z.add_0_r.
    cbn [length] in *. rewrite (proj2 (Z.eqb_neq c 0)) by lia. cbn [negb andb]. rewrite u32_small, (proj2 (Z.ltb_lt _ _)) by lia. apply IH; try done; lia.
Qed.
Theorem rt_strnlen_overreads m s l : chars_ok l -> read_bytes m s (length l) = Some l -> Z.of_nat (length l) < 2 ^ 32 ->
  m !! (s + Z.of_nat (length l)) = None -> rt_strnlen s (Z.of_nat (length l)) m = UB.
Proof.
  intros Hl H Hb Hn. unfold rt_strnlen, mapped_bytes, bind at 1, gets. unfold bind.
  rewrite (strnlen_loop_reads s _ m l); try done; [|lia|lia]. pose proof (read_bytes_size _ _ _ _ H). lia.
Qed.

(** ** Comparisons *)

(** Lexicographic order of strings, the reference of the comparisons. *)
Fixpoint str_compare (l1 l2 : list Z) : comparison :=
  match l1, l2 with
  | [], [] => Eq
  | [], _ :: _ => Lt
  | _ :: _, [] => Gt
  | x :: l1, y :: l2 => match x ?= y with Eq => str_compare l1 l2 | c => c end
  end.
Lemma str_compare_eq l1 l2 : str_compare l1 l2 = Eq <-> l1 = l2.
Proof.
  revert l2. induction l1 as [|x l1 IH]; intros [|y l2]; cbn; try done. destruct (Z.compare_spec x y) as [->|H|H].
  - rewrite IH. naive_solver.
  - split; [done|]. intros [= -> _]. lia.
  - split; [done|]. intros [= -> _]. lia.
Qed.

Lemma strcmp_loop_wp m l1 fuel : forall cs ct l2, (length l1 < fuel)%nat -> cstr m cs l1 -> cstr m ct l2 ->
  wp ('(cs, ct) <- strcmp_loop fuel cs ct ;; x <- load 1 cs ;; y <- load 1 ct ;; ret (x - y)) m (fun r m' => m' = m /\ (r ?= 0) = str_compare l1 l2).
Proof.
  assert (forall c, 1 <= c < 256 -> (c - 0 ?= 0) = Gt) as Hgt by (intros; apply Z.compare_gt_iff; lia).
  assert (forall c, 1 <= c < 256 -> (0 - c ?= 0) = Lt) as Hlt by (intros; apply Z.compare_lt_iff; lia).
  revert fuel. induction l1 as [|c l1 IH]; intros [|fuel] cs ct l2 Hf H1 H2; try (cbn in Hf; lia); cbn [strcmp_loop]; kstep; kstep.
  - apply cstr_nil in H1. apply (wp_load1 _ _ 0); [done|]. cbn [Z.eqb]. ksteps. apply (wp_load1 _ _ 0); [done|]. kstep. destruct l2 as [|d l2].
    + apply cstr_nil in H2. by apply (wp_load1 _ _ 0).
    + apply cstr_cons in H2 as (E2 & Hd & _). apply (wp_load1 _ _ d); [done|]. kstep. split; [done|]. by apply Hlt.
  - apply cstr_cons in H1 as (E1 & Hc & H1). apply (wp_load1 _ _ c); [done|]. rewrite (proj2 (Z.eqb_neq c 0)) by lia. kstep. destruct l2 as [|d l2].
    + apply cstr_nil in H2. apply (wp_load1 _ _ 0); [done|]. rewrite (proj2 (Z.eqb_neq c 0)) by lia. ksteps. apply (wp_load1 _ _ c); [done|]. kstep. apply (wp_load1 _ _ 0); [done|]. kstep. split; [done|]. by apply Hgt.
    + apply cstr_cons in H2 as (E2 & Hd & H2). apply (wp_load1 _ _ d); [done|]. cbn [str_compare]. destruct (Z.eqb_spec c d) as [->|Hn].
      * rewrite Z.compare_refl. apply wp_unbind. apply IH; [cbn in Hf; lia|done|done].
      * ksteps. apply (wp_load1 _ _ c); [done|]. kstep. apply (wp_load1 _ _ d); [done|]. kstep. split; [done|]. destruct (Z.compare_spec c d); [done|apply Z.compare_lt_iff; lia|apply Z.compare_gt_iff; lia].
Qed.

Lemma fold_case_range c : 1 <= c < 256 -> 1 <= fold_case (Z.land c 0xff) < 256 /\ Z.land c 0xff = c.
Proof.
  intros H. assert (Z.land c 0xff = c) as E by (change 0xff with (Z.ones 8); rewrite Z.land_ones by lia; apply Z.mod_small; lia).
  rewrite E. split; [|done]. unfold fold_case. destruct (_ && _) eqn:Eb; [|lia]. lia.
Qed.

Lemma strcasecmp_loop_wp m l1 fuel : forall a b l2, (length l1 < fuel)%nat -> cstr m a l1 -> cstr m b l2 ->
  wp (strcasecmp_loop fuel a b) m (fun r m' => m' = m /\ 0 <= r.1 < 256 /\ 0 <= r.2 < 256 /\ (r.1 = r.2 <-> fold_case <$> l1 = fold_case <$> l2)).
Proof.
  revert fuel. induction l1 as [|c l1 IH]; intros [|fuel] a b l2 Hf H1 H2; try (cbn in Hf; lia); cbn [strcasecmp_loop]; kstep.
  - apply cstr_nil in H1. apply (wp_load1 _ _ 0); [done|]. kstep. destruct l2 as [|d l2].
    + apply cstr_nil in H2. by apply (wp_load1 _ _ 0).
    + apply cstr_cons in H2 as (E2 & Hd & _). apply (wp_load1 _ _ d); [done|]. cbn zeta. destruct (fold_case_range d Hd) as [Hr Er].
      change (fold_case (Z.land 0 255)) with 0. rewrite (proj2 (Z.eqb_neq 0 _)) by lia. cbn [andb]. kstep. cbn. split_and!; try lia; [done|]. split; [lia|done].
  - apply cstr_cons in H1 as (E1 & Hc & H1). apply (wp_load1 _ _ c); [done|]. kstep. destruct (fold_case_range c Hc) as [Hr Er]. destruct l2 as [|d l2].
    + apply cstr_nil in H2. apply (wp_load1 _ _ 0); [done|]. cbn zeta. change (fold_case (Z.land 0 255)) with 0. rewrite (proj2 (Z.eqb_neq _ 0)) by lia. cbn [andb]. kstep.
      cbn. split_and!; try lia; [done|]. split; [lia|done].
    + apply cstr_cons in H2 as (E2 & Hd & H2). apply (wp_load1 _ _ d); [done|]. destruct (fold_case_range d Hd) as [Hr2 Er2]. cbn zeta. rewrite Er, Er2 in *.
      destruct (Z.eqb_spec (fold_case c) (fold_case d)) as [E|Hn]; cbn [andb].
      * rewrite (proj2 (Z.eqb_neq _ 0)) by lia. cbn [negb]. eapply wp_mono; [apply IH; [cbn in Hf; lia|done|done]|]. intros [ca cb] m' (-> & ? & ? & Hi).
        cbn [fst snd] in *. do 3 (split; [done|]). cbn. rewrite E, Hi. split; [by intros ->|by intros [= ->]].
      * kstep. cbn [fst snd]. do 3 (split; [done || lia|]). cbn. split; [lia|by intros [= ]].
Qed.

(** ** Searching *)

(** [l2] is in [l1] from position [i] on. *)
Definition occurs_at (l1 l2 : list Z) (i : nat) : Prop := (i + length l2 <= length l1)%nat /\ take (length l2) (drop i l1) = l2.

Lemma strstr_loop_wp m s1 s2 l1 l2 : cstr m s1 l1 -> cstr m s2 l2 -> l2 <> [] -> forall n i, (length l1 < n + i)%nat -> (i <= length l1)%nat ->
  (forall j, (j < i)%nat -> ~ occurs_at l1 l2 j) ->
  wp (strstr_loop n (Z.of_nat (length l1) - Z.of_nat i) (Z.of_nat (length l2)) (s1 + Z.of_nat i) s2) m (fun r m' => m' = m /\
    ((exists k, r = s1 + Z.of_nat k /\ occurs_at l1 l2 k /\ forall j, (j < k)%nat -> ~ occurs_at l1 l2 j) \/ (r = 0 /\ forall j, ~ occurs_at l1 l2 j))).
Proof.
  intros [_ H1] [_ H2] Hne n. assert (0 < length l2)%nat as Hp by (destruct l2; [done|cbn; lia]).
  induction n as [|n IH]; intros i Hn Hi Hj; cbn [strstr_loop]; [lia|]. destruct (Z.leb_spec (Z.of_nat (length l2)) (Z.of_nat (length l1) - Z.of_nat i)) as [Hl|Hl].
  - kstep. pose proof (read_bytes_sub _ _ _ _ i (length l2) H1 ltac:(lia)) as R1. pose proof (read_bytes_take _ _ _ _ (length l2) H2 ltac:(lia)) as R2.
    unfold cstring in R1, R2. rewrite drop_app_le, take_app_le in R1 by (rewrite ?length_drop; lia). rewrite take_app_le, firstn_all in R2 by lia.
    unfold wp. rewrite (rt_memcmp_ok m _ _ (Z.of_nat (length l2)) (take (length l2) (drop i l1)) l2); rewrite ?Nat2Z.id; [|done|done].
    assert (first_diff (take (length l2) (drop i l1)) l2 = 0 <-> take (length l2) (drop i l1) = l2) as Hz by (apply first_diff_zero; rewrite length_take, length_drop; lia).
    destruct (Z.eqb_spec (first_diff (take (length l2) (drop i l1)) l2) 0) as [E|E].
    + cbn. split; [done|]. left. exists i. split; [done|]. split; [|done]. split; [lia|]. by apply Hz.
    + replace (Z.of_nat (length l1) - Z.of_nat i - 1) with (Z.of_nat (length l1) - Z.of_nat (S i)) by lia.
      replace (s1 + Z.of_nat i + 1) with (s1 + Z.of_nat (S i)) by lia. apply IH; [lia|lia|]. intros j Hji. destruct (decide (j = i)) as [->|]; [|apply Hj; lia].
      intros [_ Ho]. apply E, Hz, Ho.
  - kstep. split; [done|]. right. split; [done|]. intros j [Ho1 Ho2]. destruct (decide (j < i)%nat) as [Hji|]; [|lia]. apply (Hj j Hji). by split.
Qed.

(** The string routines.  On C strings in memory, of which they change
    nothing, rt_strlen returns the length, rt_strnlen the length up to a limit,
    rt_strcmp a number with the sign of the lexicographic order, rt_strcasecmp
    zero exactly for strings that agree but for the case of letters, and
    rt_strstr the first place where the second string occurs in the first, or
    RT_NULL when it does not. *)
Theorem string_routines_correct m p q l1 l2 maxlen :
  cstr m p l1 -> cstr m q l2 -> Z.of_nat (length l1) < 2 ^ 31 -> Z.of_nat (length l2) < 2 ^ 31 -> 0 <= maxlen ->
  wp (rt_strlen p) m (fun r m' => m' = m /\ r = Z.of_nat (length l1)) /\
  wp (rt_strnlen p maxlen) m (fun r m' => m' = m /\ r = Z.min (Z.of_nat (length l1)) maxlen) /\
  wp (rt_strcmp p q) m (fun r m' => m' = m /\ (r ?= 0) = str_compare l1 l2) /\
  wp (rt_strcasecmp p q) m (fun r m' => m' = m /\ (r = 0 <-> fold_case <$> l1 = fold_case <$> l2)) /\
  wp (rt_strstr p q) m (fun r m' => m' = m /\
    ((exists k, r = p + Z.of_nat k /\ occurs_at l1 l2 k /\ forall j, (j < k)%nat -> ~ occurs_at l1 l2 j) \/
     (r = 0 /\ forall j, ~ occurs_at l1 l2 j))).
Proof.
  intros H1 H2 B1 B2 Hm. pose proof (cstr_size _ _ _ H1) as S1. split_and!.
  - by apply rt_strlen_wp.
  - unfold rt_strnlen, mapped_bytes. ksteps. eapply wp_mono; [apply (strnlen_loop_wp m l1); [lia|done|lia|lia|lia]|]. intros r m' [-> ->]. kstep. split; [done|lia].
  - unfold rt_strcmp, mapped_bytes. kstep. kstep. apply strcmp_loop_wp; [lia|done|done].
  - unfold rt_strcasecmp, mapped_bytes. kstep. kstep. kstep. eapply wp_mono; [apply (strcasecmp_loop_wp m l1 _ p q l2); [lia|done|done]|]. intros [ca cb] m' (-> & Ha & Hb & Hi).
    cbn [fst snd] in *. kstep. split; [done|]. rewrite <- Hi. unfold u32. split; [|intros ->; by rewrite Z.sub_diag].
    intros E. destruct (decide (ca - cb < 0)); [|rewrite Z.mod_small in E; lia].
    rewrite <- (Z.mod_add _ 1), Z.mod_small in E; lia.
  - unfold rt_strstr. kstep. eapply wp_mono; [by apply rt_strlen_wp|]. intros r m' [-> ->]. rewrite i32_small by lia. destruct (Z.eqb_spec (Z.of_nat (length l2)) 0) as [E|E].
    + kstep. split; [done|]. left. exists 0%nat. split; [lia|]. destruct l2; [|done]. split; [split; [cbn; lia|done]|]. intros; lia.
    + kstep. eapply wp_mono; [by apply rt_strlen_wp|]. intros r m' [-> ->]. rewrite i32_small by lia.
      pose proof (strstr_loop_wp m p q l1 l2 H1 H2 ltac:(by intros ->) (Z.to_nat (Z.of_nat (length l1) + 1)) 0 ltac:(lia) ltac:(lia) ltac:(lia)) as Hw.
      rewrite Z.sub_0_r, Z.add_0_r in Hw. exact Hw.
Qed.

(** "abcb" at 100 and "cb" at 200. *)
Definition sample_strings : mem := write_bytes 100 [97; 98; 99; 98; 0] (write_bytes 200 [99; 98; 0] ∅).
Lemma sample_cstr1 : cstr sample_strings 100 [97; 98; 99; 98].
Proof. split; [repeat constructor; lia|reflexivity]. Qed.
Lemma sample_cstr2 : cstr sample_strings 200 [99; 98].
Proof. split; [repeat constructor; lia|reflexivity]. Qed.

Lemma string_routines_correct_witness :
  wp (rt_strnlen 100 3) sample_strings (fun r m' => m' = sample_strings /\ r = 3) /\
  wp (rt_strcmp 100 200) sample_strings (fun r m' => m' = sample_strings /\ (r ?= 0) = Lt) /\
  wp (rt_strstr 100 200) sample_strings (fun r m' => m' = sample_strings /\
    ((exists k, r = 100 + Z.of_nat k /\ occurs_at [97; 98; 99; 98] [99; 98] k /\ forall j, (j < k)%nat -> ~ occurs_at [97; 98; 99; 98] [99; 98] j) \/
     (r = 0 /\ forall j, ~ occurs_at [97; 98; 99; 98] [99; 98] j))).
Proof.
  destruct (string_routines_correct sample_strings 100 200 [97; 98; 99; 98] [99; 98] 3 sample_cstr1 sample_cstr2 ltac:(cbn; lia) ltac:(cbn; lia) ltac:(lia)) as (_ & H1 & H2 & _ & H3).
  split; [exact H1|]. split; [exact H2|exact H3].
Defined.
Lemma rt_strnlen_overreads_witness : rt_strnlen 200 3 (write_bytes 200 [99; 98; 97] ∅) = UB.
Proof. exact (rt_strnlen_overreads (write_bytes 200 [99; 98; 97] ∅) 200 [99; 98; 97] ltac:(repeat constructor; lia) eq_refl ltac:(cbn; lia) eq_refl). Defined.
