(* ===== verification/Printf.v ===== *)
(** * Formatted printing (src/kservice.c)

    rt_vsnprintf and what it is made of, on byte memory.  An argument list is the
    list of the 32-bit words the caller passed: [va_arg] takes one off, and there
    is none to take when the list is empty ([UB]).  [int] and [long] have 32
    bits, [char] is unsigned, as on the target; arithmetic on [int] that
    overflows is [UB], but for the negation in print_number, which wraps. *)

From Stdlib Require Import Ascii.
From S2P Require Import Prelude Kservice Str.

(** The code of a character. *)
Notation ch c := (ltac:(let x := eval vm_compute in (Z.of_N (N_of_ascii c%char)) in exact x)) (only parsing).

Definition ZEROPAD : Z := Z.shiftl 1 0.
Definition SIGN : Z := Z.shiftl 1 1.
Definition PLUS : Z := Z.shiftl 1 2.
Definition SPACE : Z := Z.shiftl 1 3.
Definition LEFT : Z := Z.shiftl 1 4.
Definition SPECIAL : Z := Z.shiftl 1 5.
Definition LARGE : Z := Z.shiftl 1 6.

Definition has (type flag : Z) : bool := negb (Z.land type flag =? 0).
Definition isdigit (c : Z) : bool := u32 (c - ch "0") <? 10.

(** Arithmetic on [int]: the result must fit. *)
Definition int (x : Z) : B Z := valid ((- 2 ^ 31 <=? x) && (x <? 2 ^ 31)) ;; ret x.
Definition va_arg (args : list Z) : B (Z * list Z) := deref (fun _ => match args with a :: args => Some (a, args) | [] => None end).

(** The remainder and the quotient by 10, or else by 16. *)
Definition divide (n base : Z) : Z * Z :=
  if base =? 10 then (u32 n `mod` 10, i32 (u32 n / 10)) else (u32 n `mod` 16, i32 (u32 n / 16)).

Fixpoint skip_atoi_loop (fuel : nat) (s i : Z) : B (Z * Z) :=
  match fuel with
  | O => nofuel
  | S fuel =>
      c <- load 1 s ;;
      if isdigit c then
        i10 <- int (i * 10) ;;
        x <- int (i10 + c) ;;
        i <- int (x - ch "0") ;;
        skip_atoi_loop fuel (s + 1) i
      else ret (i, s)
  end.
(** The number and the position behind it. *)
Definition skip_atoi (s : Z) : B (Z * Z) := fuel <- mapped_bytes ;; skip_atoi_loop fuel s 0.

(** ** Output *)

(** [if (str < end) *str = c; ++str;] *)
Definition put (c str end_ : Z) : B Z :=
  when (str <? end_) (store 1 str c) ;;
  ret (u32 (str + 1)).
Fixpoint put_list (l : list Z) (str end_ : Z) : B Z :=
  match l with [] => ret str | c :: l => str <- put c str end_ ;; put_list l str end_ end.
Definition put_n (n : Z) (c str end_ : Z) : B Z := put_list (replicate (Z.to_nat n) c) str end_.

(** [while (size-- > 0)] put [c]: the size and the position behind it. *)
Definition pad (c size str end_ : Z) : B (Z * Z) :=
  str <- put_n size c str end_ ;;
  size <- int (Z.min size 0 - 1) ;;
  ret (size, str).

Definition small_digits : list Z :=
  [ch "0"; ch "1"; ch "2"; ch "3"; ch "4"; ch "5"; ch "6"; ch "7"; ch "8"; ch "9"; ch "a"; ch "b"; ch "c"; ch "d"; ch "e"; ch "f"].
Definition large_digits : list Z :=
  [ch "0"; ch "1"; ch "2"; ch "3"; ch "4"; ch "5"; ch "6"; ch "7"; ch "8"; ch "9"; ch "A"; ch "B"; ch "C"; ch "D"; ch "E"; ch "F"].

(** The loop that fills tmp, an array of 16 characters, of which [tmp] is the
    part already filled. *)
Fixpoint digits_loop (fuel : nat) (digits : list Z) (num base : Z) (tmp : list Z) : B (list Z) :=
  if num =? 0 then ret tmp
  else
    match fuel with
    | O => nofuel
    | S fuel =>
        let '(r, num) := divide num base in
        d <- deref (fun _ => digits !! Z.to_nat r) ;;
        valid (length tmp <? 16)%nat ;;
        digits_loop fuel digits num base (tmp ++ [d])
    end.

Definition print_number (buf end_ num base s precision type : Z) : B Z :=
  let precision_bak := precision in
  let size := s in
  let digits := if has type LARGE then large_digits else small_digits in
  let type := if has type LEFT then Z.land type (Z.lnot ZEROPAD) else type in
  let c := if has type ZEROPAD then ch "0" else ch " " in
  let '(sign, num) :=
    if has type SIGN then
      if num <? 0 then (ch "-", i32 (- num))
      else if has type PLUS then (ch "+", num)
      else if has type SPACE then (ch " ", num)
      else (0, num)
    else (0, num) in
  tmp <- (if num =? 0 then ret [ch "0"] else digits_loop 32 digits num base []) ;;
  let i := Z.of_nat (length tmp) in
  let precision := if precision <? i then i else precision in
  size <- int (size - precision) ;;
  '(size, buf) <-
    (if negb (has type (Z.lor ZEROPAD LEFT)) then
       let size := if negb (sign =? 0) && (0 <? size) then size - 1 else size in
       pad (ch " ") size buf end_
     else ret (size, buf)) ;;
  '(size, buf) <-
    (if negb (sign =? 0) then
       buf <- put sign buf end_ ;;
       size <- int (size - 1) ;;
       ret (size, buf)
     else ret (size, buf)) ;;
  '(size, buf) <- (if negb (has type LEFT) then pad c size buf end_ else ret (size, buf)) ;;
  buf <- put_n (precision - i) (ch "0") buf end_ ;;
  buf <- (if negb (precision_bak =? 0) then put_list (reverse tmp) buf end_ else ret buf) ;;
  '(_, buf) <- pad (ch " ") size buf end_ ;;
  ret buf.

(** ** The parts of a directive *)

Definition flag_of (c : Z) : option Z :=
  if c =? ch "-" then Some LEFT
  else if c =? ch "+" then Some PLUS
  else if c =? ch " " then Some SPACE
  else if c =? ch "#" then Some SPECIAL
  else if c =? ch "0" then Some ZEROPAD
  else None.
Fixpoint flags_loop (fuel : nat) (fmt flags : Z) : B (Z * Z) :=
  match fuel with
  | O => nofuel
  | S fuel =>
      let fmt := fmt + 1 in
      c <- load 1 fmt ;;
      match flag_of c with
      | Some f => flags_loop fuel fmt (Z.lor flags f)
      | None => ret (fmt, flags)
      end
  end.

(** The position behind the width, the width, the flags and the arguments left. *)
Definition get_width (fmt flags : Z) (args : list Z) : B (Z * Z * Z * list Z) :=
  c <- load 1 fmt ;;
  if isdigit c then
    '(w, fmt) <- skip_atoi fmt ;;
    ret (fmt, w, flags, args)
  else if c =? ch "*" then
    let fmt := fmt + 1 in
    '(a, args) <- va_arg args ;;
    let field_width := i32 a in
    if field_width <? 0 then
      field_width <- int (- field_width) ;;
      ret (fmt, field_width, Z.lor flags LEFT, args)
    else ret (fmt, field_width, flags, args)
  else ret (fmt, -1, flags, args).

Definition get_precision (fmt : Z) (args : list Z) : B (Z * Z * list Z) :=
  c <- load 1 fmt ;;
  if c =? ch "." then
    let fmt := fmt + 1 in
    c <- load 1 fmt ;;
    '(fmt, precision, args) <-
      (if isdigit c then
         '(p, fmt) <- skip_atoi fmt ;;
         ret (fmt, p, args)
       else if c =? ch "*" then
         '(a, args) <- va_arg args ;;
         ret (fmt + 1, i32 a, args)
       else ret (fmt, -1, args)) ;;
    ret (fmt, (if precision <? 0 then 0 else precision), args)
  else ret (fmt, -1, args).

Definition get_qualifier (fmt : Z) : B (Z * Z) :=
  c <- load 1 fmt ;;
  if (c =? ch "h") || (c =? ch "l") then ret (fmt + 1, c) else ret (fmt, 0).

(** case 'c' *)
Definition put_char (a field_width flags str end_ : Z) : B Z :=
  '(field_width, str) <-
    (if negb (has flags LEFT) then
       str <- put_n (field_width - 1) (ch " ") str end_ ;;
       field_width <- int (Z.min 0 (field_width - 1)) ;;
       ret (field_width, str)
     else ret (field_width, str)) ;;
  str <- put (u8 a) str end_ ;;
  put_n (field_width - 1) (ch " ") str end_.

(** [for (i = 0; i < len; ++i)] put [*s++]. *)
Fixpoint put_mem (len : nat) (s str end_ : Z) : B Z :=
  match len with
  | O => ret str
  | S len => c <- load 1 s ;; str <- put c str end_ ;; put_mem len (s + 1) str end_
  end.
Definition NULL_text : list Z := [ch "("; ch "N"; ch "U"; ch "L"; ch "L"; ch ")"].

(** case 's' *)
Definition put_string (s field_width precision flags str end_ : Z) : B Z :=
  len <- (if s =? 0 then ret (Z.of_nat (length NULL_text)) else rt_strlen s) ;;
  let len := i32 len in
  let len := if (0 <? precision) && (precision <? len) then precision else len in
  '(field_width, str) <-
    (if negb (has flags LEFT) then
       str <- put_n (field_width - len) (ch " ") str end_ ;;
       field_width <- int (Z.min field_width len - 1) ;;
       ret (field_width, str)
     else ret (field_width, str)) ;;
  str <- (if s =? 0 then put_list (take (Z.to_nat len) NULL_text) str end_ else put_mem (Z.to_nat len) s str end_) ;;
  put_n (field_width - len) (ch " ") str end_.

(** The integer conversions: base and flags. *)
Definition number_conversion (c flags : Z) : option (Z * Z) :=
  if c =? ch "o" then Some (8, flags)
  else if c =? ch "X" then Some (16, Z.lor flags LARGE)
  else if c =? ch "x" then Some (16, flags)
  else if (c =? ch "d") || (c =? ch "i") then Some (10, Z.lor flags SIGN)
  else if c =? ch "u" then Some (10, flags)
  else None.
(** The argument of an integer conversion, in an rt_uint32_t. *)
Definition number_arg (qualifier flags a : Z) : Z :=
  if qualifier =? ch "l" then u32 a
  else if qualifier =? ch "h" then (if has flags SIGN then u32 (i16 (u16 a)) else u16 a)
  else u32 a.

(** The conversion at [fmt]: the position of its last character, the arguments
    left and the output position. *)
Definition convert (fmt flags field_width precision qualifier : Z) (args : list Z) (str end_ : Z) : B (Z * list Z * Z) :=
  c <- load 1 fmt ;;
  if c =? ch "c" then
    '(a, args) <- va_arg args ;;
    str <- put_char a field_width flags str end_ ;;
    ret (fmt, args, str)
  else if c =? ch "s" then
    '(a, args) <- va_arg args ;;
    str <- put_string a field_width precision flags str end_ ;;
    ret (fmt, args, str)
  else if c =? ch "p" then
    let '(field_width, flags) := if field_width =? -1 then (Z.shiftl 4 1, Z.lor flags ZEROPAD) else (field_width, flags) in
    '(a, args) <- va_arg args ;;
    str <- print_number str end_ (i32 a) 16 field_width precision flags ;;
    ret (fmt, args, str)
  else if c =? ch "%" then
    str <- put (ch "%") str end_ ;;
    ret (fmt, args, str)
  else
    match number_conversion c flags with
    | Some (base, flags) =>
        '(a, args) <- va_arg args ;;
        str <- print_number str end_ (i32 (number_arg qualifier flags a)) base field_width precision flags ;;
        ret (fmt, args, str)
    | None =>
        str <- put (ch "%") str end_ ;;
        if negb (c =? 0) then
          str <- put c str end_ ;;
          ret (fmt, args, str)
        else ret (fmt - 1, args, str)
    end.

Fixpoint vsnprintf_loop (fuel : nat) (fmt : Z) (args : list Z) (str end_ : Z) : B Z :=
  match fuel with
  | O => nofuel
  | S fuel =>
      c <- load 1 fmt ;;
      if c =? 0 then ret str
      else if negb (c =? ch "%") then
        str <- put c str end_ ;;
        vsnprintf_loop fuel (fmt + 1) args str end_
      else
        n <- mapped_bytes ;;
        '(fmt, flags) <- flags_loop n fmt 0 ;;
        '(fmt, field_width, flags, args) <- get_width fmt flags args ;;
        '(fmt, precision, args) <- get_precision fmt args ;;
        '(fmt, qualifier) <- get_qualifier fmt ;;
        '(fmt, args, str) <- convert fmt flags field_width precision qualifier args str end_ ;;
        vsnprintf_loop fuel (fmt + 1) args str end_
  end.

Definition rt_vsnprintf (buf size fmt : Z) (args : list Z) : B Z :=
  let end_ := u32 (buf + size) in
  let '(end_, size) := if end_ <? buf then (2 ^ 32 - 1, 2 ^ 32 - 1 - buf) else (end_, size) in
  fuel <- mapped_bytes ;;
  str <- vsnprintf_loop fuel fmt args buf end_ ;;
  when (0 <? size) (if str <? end_ then store 1 str 0 else store 1 (end_ - 1) 0) ;;
  ret (i32 (str - buf)).

Definition rt_snprintf (buf size fmt : Z) (args : list Z) : B Z := rt_vsnprintf buf size fmt args.
Definition rt_vsprintf (buf fmt : Z) (args : list Z) : B Z := rt_vsnprintf buf (2 ^ 32 - 1) fmt args.
Definition rt_sprintf (buf fmt : Z) (args : list Z) : B Z := rt_vsprintf buf fmt args.

(** ** What is printed

    The text the routine produces for a format and its arguments, as a list of
    characters, with no buffer, its differences from C included (CFormat has the
    independent reference).  [strs] gives the strings the pointers among the
    arguments point to.  Widths and precisions are below 2^30; there is no text
    when one is not, or when an argument is missing. *)

Definition blanks (n : Z) : list Z := replicate (Z.to_nat n) (ch " ").
Definition zeros (n : Z) : list Z := replicate (Z.to_nat n) (ch "0").

(** The digits of [n] in base [b], the most significant first. *)
Fixpoint to_digits (fuel : nat) (b n : Z) : list Z :=
  match fuel with O => [] | S fuel => if n =? 0 then [] else to_digits fuel b (n / b) ++ [n `mod` b] end.
Definition digit_char (large : bool) (d : Z) : Z := if d <? 10 then ch "0" + d else (if large then ch "A" else ch "a") + (d - 10).
(** All bases but 10 are printed as 16. *)
Definition text_base (base : Z) : Z := if base =? 10 then 10 else 16.
Definition number_digits (large : bool) (base n : Z) : list Z :=
  if n =? 0 then [ch "0"] else digit_char large <$> to_digits 32 (text_base base) n.

Definition number_sign (num type : Z) : list Z :=
  if has type SIGN then
    if num <? 0 then [ch "-"] else if has type PLUS then [ch "+"] else if has type SPACE then [ch " "] else []
  else [].
Definition magnitude (num type : Z) : Z := if has type SIGN && (num <? 0) then - num else u32 num.

Definition number_text (num base s precision type : Z) : list Z :=
  let sign := number_sign num type in
  let ds := number_digits (has type LARGE) base (magnitude num type) in
  let body := if precision =? 0 then [] else zeros (precision - Z.of_nat (length ds)) ++ ds in
  let fill := s - Z.max (Z.of_nat (length ds)) precision - Z.of_nat (length sign) in
  if has type LEFT then sign ++ body ++ blanks fill
  else if has type ZEROPAD then sign ++ zeros fill ++ body
  else blanks fill ++ sign ++ body.

(** A field of width [w]: blanks in front, or behind with LEFT. *)
Definition field (w flags : Z) (l : list Z) : list Z :=
  let fill := blanks (w - Z.of_nat (length l)) in if has flags LEFT then l ++ fill else fill ++ l.

Fixpoint p_flags (l : list Z) (flags : Z) : list Z * Z :=
  match l with
  | c :: l' => match flag_of c with Some f => p_flags l' (Z.lor flags f) | None => (l, flags) end
  | [] => ([], flags)
  end.
Fixpoint p_num (l : list Z) (i : Z) : Z * list Z :=
  match l with
  | c :: l' => if isdigit c then p_num l' (i * 10 + (c - ch "0")) else (i, l)
  | [] => (i, [])
  end.
Definition first (l : list Z) : Z := default 0 (head l).
Definition small (x : Z) : option Z := if x <? 2 ^ 30 then Some x else None.

Definition p_width (l : list Z) (flags : Z) (args : list Z) : option (list Z * Z * Z * list Z) :=
  if isdigit (first l) then let '(w, l) := p_num l 0 in w ← small w; Some (l, w, flags, args)
  else if first l =? ch "*" then
    match args with
    | a :: args =>
        w ← small (Z.abs (i32 a)); Some (tail l, w, (if i32 a <? 0 then Z.lor flags LEFT else flags), args)
    | [] => None
    end
  else Some (l, -1, flags, args).
Definition p_precision (l : list Z) (args : list Z) : option (list Z * Z * list Z) :=
  if first l =? ch "." then
    let l := tail l in
    if isdigit (first l) then let '(p, l) := p_num l 0 in p ← small p; Some (l, p, args)
    else if first l =? ch "*" then
      match args with a :: args => p ← small (Z.max 0 (i32 a)); Some (tail l, p, args) | [] => None end
    else Some (l, 0, args)
  else Some (l, -1, args).
Definition p_qualifier (l : list Z) : list Z * Z :=
  if (first l =? ch "h") || (first l =? ch "l") then (tail l, first l) else (l, 0).

Section render.
Context (strs : Z -> option (list Z)).

(** The text of one conversion and the arguments left. *)
Definition conversion_text (c flags w p q : Z) (args : list Z) : option (list Z * list Z) :=
  if c =? ch "c" then match args with a :: args => Some (field w flags [u8 a], args) | [] => None end
  else if c =? ch "s" then
    match args with
    | a :: args =>
        t ← (if a =? 0 then Some NULL_text else strs a);
        Some (field w flags (if 0 <? p then take (Z.to_nat p) t else t), args)
    | [] => None
    end
  else if c =? ch "p" then
    match args with
    | a :: args => Some (if w =? -1 then number_text (i32 a) 16 8 p (Z.lor flags ZEROPAD) else number_text (i32 a) 16 w p flags, args)
    | [] => None
    end
  else if c =? ch "%" then Some ([ch "%"], args)
  else
    match number_conversion c flags with
    | Some (base, flags) =>
        match args with
        | a :: args => Some (number_text (i32 (number_arg q flags a)) base w p flags, args)
        | [] => None
        end
    | None => Some (if c =? 0 then [ch "%"] else [ch "%"; c], args)
    end.

Fixpoint render (fuel : nat) (l : list Z) (args : list Z) : option (list Z) :=
  match fuel with
  | O => None
  | S fuel =>
      match l with
      | [] => Some []
      | c :: l =>
          if negb (c =? ch "%") then cons c <$> render fuel l args
          else
            let '(l, flags) := p_flags l 0 in
            width ← p_width l flags args; let '(l, w, flags, args) := width in
            precision ← p_precision l args; let '(l, p, args) := precision in
            let '(l, q) := p_qualifier l in
            text ← conversion_text (first l) flags w p q args; let '(t, args) := text in
            app t <$> render fuel (tail l) args
      end
  end.
(** The text of a format. *)
Definition format_text (l : list Z) (args : list Z) : option (list Z) := render (S (length l)) l args.
End render.
