(* ===== verification/CFormat.v ===== *)
(** * What a format means

    The reference for formatted printing (src/kservice.c): the text of a format
    and its arguments, as the C standard describes it, on characters and numbers
    alone.  It shares no definition with the routines that print.  An argument
    list is a list of 32-bit words; [strs] gives the strings that pointers among
    them point to.

    There is no text, [None], where an argument is missing, where a width or a
    precision is 2^30 or more, and for the directives on which the routines
    differ from C: %o, the flag # and the precision 0 (also as a precision that
    is negative or has no digits), a precision together with the flag 0 or with %p. *)

From Stdlib Require Import Ascii.
From S2P Require Import Prelude.

(** The code of a character. *)
Notation code c := (ltac:(let x := eval vm_compute in (Z.of_N (N_of_ascii c%char)) in exact x)) (only parsing).

(** ** Numbers *)

(** The value of [a] as an unsigned and as a signed integer of [w] bits. *)
Definition unsigned (w a : Z) : Z := a `mod` 2 ^ w.
Definition signed (w a : Z) : Z := if unsigned w a <? 2 ^ (w - 1) then unsigned w a else unsigned w a - 2 ^ w.

(** The digits of [n], the most significant first; 32 are enough for 32 bits. *)
Fixpoint digits (fuel : nat) (b n : Z) : list Z :=
  match fuel with
  | O => []
  | S fuel => if n <? b then [n] else digits fuel b (n / b) ++ [n `mod` b]
  end.
Inductive letters := LowerCase | UpperCase.
Definition digit (ls : letters) (d : Z) : Z :=
  if d <=? 9 then code "0" + d else match ls with LowerCase => code "a" | UpperCase => code "A" end + (d - 10).
Definition numeral (ls : letters) (b n : Z) : list Z := digit ls <$> digits 32 b n.

(** ** Directives *)

Record flags := mkFlags { fl_minus : bool; fl_plus : bool; fl_space : bool; fl_hash : bool; fl_zero : bool }.
Definition no_flags : flags := mkFlags false false false false false.
Definition set_minus (f : flags) : flags := mkFlags true (fl_plus f) (fl_space f) (fl_hash f) (fl_zero f).

Record directive := mkDirective {
  d_flags : flags;
  d_width : option Z;
  d_precision : option Z;
  d_short : bool;  (** the qualifier h *)
  d_conversion : Z  (** its character, 0 at the end of the format *)
}.

(** [n] times [c], none when [n] is negative. *)
Definition times (n c : Z) : list Z := repeat c (Z.to_nat n).

(** A text in a field of the directive's width. *)
Definition in_field (d : directive) (t : list Z) : list Z :=
  let fill := times (default 0 (d_width d) - Z.of_nat (length t)) (code " ") in
  if fl_minus (d_flags d) then t ++ fill else fill ++ t.
(** A number: its sign and its digits, with zeros in front up to the precision,
    or up to the width with the flag 0. *)
Definition number_field (d : directive) (sign ds : list Z) : list Z :=
  let body := times (default 0 (d_precision d) - Z.of_nat (length ds)) (code "0") ++ ds in
  if fl_zero (d_flags d) && negb (fl_minus (d_flags d))
  then sign ++ times (default 0 (d_width d) - Z.of_nat (length (sign ++ body))) (code "0") ++ body
  else in_field d (sign ++ body).

Definition signed_field (d : directive) (x : Z) : list Z :=
  let f := d_flags d in
  number_field d (if x <? 0 then [code "-"] else if fl_plus f then [code "+"] else if fl_space f then [code " "] else [])
    (numeral LowerCase 10 (Z.abs x)).

(** The directives for numbers on which the routines agree with C. *)
Definition number_covered (d : directive) : bool :=
  negb (fl_hash (d_flags d)) &&
  match d_precision d with Some p => (0 <? p) && negb (fl_zero (d_flags d)) | None => true end.
Definition text_covered (d : directive) : bool :=
  match d_precision d with Some p => 0 <? p | None => true end.

Definition null_text : list Z := [code "("; code "N"; code "U"; code "L"; code "L"; code ")"].

Section meaning.
Context (strs : Z -> option (list Z)).

Definition bits (d : directive) : Z := if d_short d then 16 else 32.

(** The text of a directive with the argument [a]. *)
Definition with_argument (d : directive) (a : Z) : option (list Z) :=
  let c := d_conversion d in
  if c =? code "c" then Some (in_field d [unsigned 8 a])
  else if c =? code "s" then
    if text_covered d then
      t ← (if a =? 0 then Some null_text else strs a);
      Some (in_field d (match d_precision d with Some p => take (Z.to_nat p) t | None => t end))
    else None
  else if negb (number_covered d) then None
  else if (c =? code "d") || (c =? code "i") then Some (signed_field d (signed (bits d) a))
  else if c =? code "u" then Some (number_field d [] (numeral LowerCase 10 (unsigned (bits d) a)))
  else if c =? code "x" then Some (number_field d [] (numeral LowerCase 16 (unsigned (bits d) a)))
  else if c =? code "X" then Some (number_field d [] (numeral UpperCase 16 (unsigned (bits d) a)))
  else if c =? code "p" then
    match d_width d, d_precision d with
    | Some _, None => Some (number_field d [] (numeral LowerCase 16 (unsigned 32 a)))
    | None, None =>
        let f := d_flags d in
        let wide := mkDirective (mkFlags (fl_minus f) (fl_plus f) (fl_space f) (fl_hash f) true) (Some 8) None (d_short d) (d_conversion d) in
        Some (number_field wide [] (numeral LowerCase 16 (unsigned 32 a)))
    | _, Some _ => None
    end
  else None.

Definition takes_argument (c : Z) : bool :=
  existsb (Z.eqb c) [code "c"; code "s"; code "d"; code "i"; code "u"; code "x"; code "X"; code "p"; code "o"].

Definition directive_text (d : directive) (args : list Z) : option (list Z * list Z) :=
  let c := d_conversion d in
  if takes_argument c then
    match args with a :: args => t ← with_argument d a; Some (t, args) | [] => None end
  else if (c =? code "%") || (c =? 0) then Some ([code "%"], args)
  else Some ([code "%"; c], args).

(** ** Reading a directive *)

Fixpoint read_flags (l : list Z) (f : flags) : list Z * flags :=
  match l with
  | c :: l' =>
      if c =? code "-" then read_flags l' (set_minus f)
      else if c =? code "+" then read_flags l' (mkFlags (fl_minus f) true (fl_space f) (fl_hash f) (fl_zero f))
      else if c =? code " " then read_flags l' (mkFlags (fl_minus f) (fl_plus f) true (fl_hash f) (fl_zero f))
      else if c =? code "#" then read_flags l' (mkFlags (fl_minus f) (fl_plus f) (fl_space f) true (fl_zero f))
      else if c =? code "0" then read_flags l' (mkFlags (fl_minus f) (fl_plus f) (fl_space f) (fl_hash f) true)
      else (l, f)
  | [] => ([], f)
  end.

Definition is_digit (c : Z) : bool := (code "0" <=? c) && (c <=? code "9").
(** The digits at the front, and what follows them. *)
Fixpoint span_digits (l : list Z) : list Z * list Z :=
  match l with
  | c :: l' => if is_digit c then let '(ds, r) := span_digits l' in (c :: ds, r) else ([], l)
  | [] => ([], [])
  end.
Definition decimal (ds : list Z) : Z := fold_left (fun n c => 10 * n + (c - code "0")) ds 0.
Definition limited (n : Z) : option Z := if n <? 2 ^ 30 then Some n else None.

Definition read_width (l args : list Z) (f : flags) : option (list Z * list Z * flags * option Z) :=
  match l with
  | c :: l' =>
      if is_digit c then let '(ds, r) := span_digits l in w ← limited (decimal ds); Some (r, args, f, Some w)
      else if c =? code "*" then
        match args with
        | a :: args => w ← limited (Z.abs (signed 32 a)); Some (l', args, (if signed 32 a <? 0 then set_minus f else f), Some w)
        | [] => None
        end
      else Some (l, args, f, None)
  | [] => Some ([], args, f, None)
  end.
Definition read_precision (l args : list Z) : option (list Z * list Z * option Z) :=
  match l with
  | c :: l' =>
      if c =? code "." then
        match l' with
        | c' :: l'' =>
            if is_digit c' then let '(ds, r) := span_digits l' in p ← limited (decimal ds); Some (r, args, Some p)
            else if c' =? code "*" then
              match args with a :: args => p ← limited (Z.max 0 (signed 32 a)); Some (l'', args, Some p) | [] => None end
            else Some (l', args, Some 0)
        | [] => Some ([], args, Some 0)
        end
      else Some (l, args, None)
  | [] => Some ([], args, None)
  end.
Definition read_qualifier (l : list Z) : list Z * bool :=
  match l with
  | c :: l' => if c =? code "h" then (l', true) else if c =? code "l" then (l', false) else (l, false)
  | [] => ([], false)
  end.

Definition read_directive (l args : list Z) : option (list Z * list Z * directive) :=
  let '(l, f) := read_flags l no_flags in
  width ← read_width l args f; let '(l, args, f, w) := width in
  precision ← read_precision l args; let '(l, args, p) := precision in
  let '(l, h) := read_qualifier l in
  match l with
  | c :: l => Some (l, args, mkDirective f w p h c)
  | [] => Some ([], args, mkDirective f w p h 0)
  end.

(** Every round takes a character: the length of the format bounds them. *)
Fixpoint text (fuel : nat) (l args : list Z) : option (list Z) :=
  match fuel with
  | O => None
  | S fuel =>
      match l with
      | [] => Some []
      | c :: l =>
          if c =? code "%" then
            next ← read_directive l args; let '(l, args, d) := next in
            printed ← directive_text d args; let '(t, args) := printed in
            app t <$> text fuel l args
          else cons c <$> text fuel l args
      end
  end.
Definition c_text (l args : list Z) : option (list Z) := text (S (length l)) l args.
End meaning.

(** "%5d|%-5d|%05d|%+d|%x|%X|%hd|%u|%s|%5.3d" *)
Example c_text_1 : c_text (fun _ => None) [code "%"; code "5"; code "d"; code "|"; code "%"; code "-"; code "5"; code "d"; code "|"; code "%"; code "0"; code "5"; code "d"] [42; 42; 2 ^ 32 - 42] =
  Some [code " "; code " "; code " "; code "4"; code "2"; code "|"; code "4"; code "2"; code " "; code " "; code " "; code "|"; code "-"; code "0"; code "0"; code "4"; code "2"].
Proof. reflexivity. Qed.
Example c_text_2 : c_text (fun _ => None) [code "%"; code "x"; code "%"; code "X"; code "%"; code "h"; code "d"; code "%"; code "u"] [171; 171; 65535; 2 ^ 32 - 1] =
  Some [code "a"; code "b"; code "A"; code "B"; code "-"; code "1"; code "4"; code "2"; code "9"; code "4"; code "9"; code "6"; code "7"; code "2"; code "9"; code "5"].
Proof. reflexivity. Qed.
Example c_text_3 : c_text (fun _ => Some [code "a"; code "b"; code "c"]) [code "%"; code "."; code "2"; code "s"; code "%"; code "5"; code "."; code "3"; code "d"; code "%"; code "%"; code "%"; code "o"] [1; 7; 8] = None /\
  c_text (fun _ => Some [code "a"; code "b"; code "c"]) [code "%"; code "."; code "2"; code "s"; code "%"; code "5"; code "."; code "3"; code "d"; code "%"; code "%"] [1; 7] =
  Some [code "a"; code "b"; code " "; code " "; code "0"; code "0"; code "7"; code "%"].
Proof. by split. Qed.
