(* ===== verification/Format.v ===== *)
(** * rt_vsnprintf prints the text of its format

    The buffer holds as much of the text as fits ([at_out]); every part of
    rt_vsnprintf appends the part of the text it stands for.  The text is that of
    [format_text], which follows the routine in all it does; [c_text_agree] shows
    that it is the text of the independent reference, [c_text], wherever that
    gives one. *)

From Stdlib Require Import Ascii.
From S2P Require Import Prelude Kservice Str Printf CFormat.

Section output.
Context (m0 : mem) (buf end_ : Z) (lim : nat).

Definition cap : nat := Z.to_nat (end_ - buf).
(** [out], of no more than [lim] characters, has been printed: the position and
    the memory. *)
Definition at_out (out : list Z) (str : Z) (m : mem) : Prop :=
  str = buf + Z.of_nat (length out) /\ m = write_bytes buf (take cap out) m0 /\ (length out <= lim)%nat.
(** The position behind [out] is an address, and within the limit. *)
Definition fits (out : list Z) : Prop := buf + Z.of_nat (length out) < 2 ^ 32 /\ (length out <= lim)%nat.

Hypothesis (Hbuf : 0 <= buf) (Hend : buf <= end_) (Hmap : mapped m0 buf (cap `min` lim) = true).

Lemma fits_app out l : fits (out ++ l) -> fits out.
Proof. unfold fits. rewrite length_app. lia. Qed.

Lemma put_wp c out str m : 0 <= c < 256 -> fits (out ++ [c]) -> at_out out str m -> wp (put c str end_) m (at_out (out ++ [c])).
Proof.
  intros Hc Hf (-> & -> & Hl0). unfold fits in Hf. rewrite length_app in Hf. cbn [length] in Hf. unfold put. kstep. kstep.
  assert (u32 (buf + Z.of_nat (length out) + 1) = buf + Z.of_nat (length (out ++ [c]))) as Eu by (rewrite length_app; cbn [length]; rewrite u32_small; lia).
  destruct (Z.ltb_spec (buf + Z.of_nat (length out)) end_) as [Hl|Hl].
  - apply wp_store.
    { apply mapped_write. apply (mapped_sub _ _ _ (length out) 1 Hmap). unfold cap. lia. }
    kstep. split; [done|]. split; [|rewrite length_app; cbn; lia]. rewrite !take_ge by (unfold cap; rewrite ?length_app; cbn; lia). rewrite write_bytes_app. f_equal. cbn. by rewrite Z.mod_small.
  - kstep. kstep. split; [done|]. split; [|rewrite length_app; cbn; lia]. rewrite take_app_le by (unfold cap; lia). done.
Qed.
Lemma put_list_wp l : forall out str m, byte_range l -> fits (out ++ l) -> at_out out str m -> wp (put_list l str end_) m (at_out (out ++ l)).
Proof.
  induction l as [|c l IH]; intros out str m Hl Hf Ho; cbn [put_list]; [kstep; by rewrite app_nil_r|].
  inversion Hl; subst. kstep. replace (out ++ c :: l) with ((out ++ [c]) ++ l) in * by (by rewrite <- app_assoc). eapply wp_mono; [apply (put_wp _ out); [done|by apply fits_app in Hf|done]|].
  intros str' m' Ho'. by apply IH.
Qed.
Lemma put_n_wp n c out str m : 0 <= c < 256 -> fits (out ++ replicate (Z.to_nat n) c) -> at_out out str m ->
  wp (put_n n c str end_) m (at_out (out ++ replicate (Z.to_nat n) c)).
Proof. intros Hc Hf Ho. apply put_list_wp; [|done|done]. by apply Forall_replicate. Qed.
Lemma wp_int x m (Q : Z -> mem -> Prop) : - 2 ^ 31 <= x < 2 ^ 31 -> Q x m -> wp (int x) m Q.
Proof. intros Hx HQ. unfold int. kstep. apply wp_valid; [|by kstep]. apply andb_true_iff. rewrite Z.leb_le, Z.ltb_lt. lia. Qed.
Lemma pad_wp c n out str m : 0 <= c < 256 -> - 2 ^ 31 < n -> fits (out ++ replicate (Z.to_nat n) c) -> at_out out str m ->
  wp (pad c n str end_) m (fun r m' => r.1 = Z.min n 0 - 1 /\ at_out (out ++ replicate (Z.to_nat n) c) r.2 m').
Proof.
  intros Hc Hn Hf Ho. unfold pad. kstep. eapply wp_mono; [by apply put_n_wp|]. intros str' m' Ho'. kstep. apply wp_int; [lia|]. by kstep.
Qed.

(** ** Numbers *)

Lemma nth_digit (large : bool) d : 0 <= d < 16 -> (if large then large_digits else small_digits) !! Z.to_nat d = Some (digit_char large d).
Proof.
  intros Hd. assert (d ∈ seqZ 0 16) as Hin by (apply elem_of_seqZ; lia). change (seqZ 0 16) with [0; 1; 2; 3; 4; 5; 6; 7; 8; 9; 10; 11; 12; 13; 14; 15] in Hin.
  rewrite !elem_of_cons, elem_of_nil in Hin. destruct large; destruct_or! Hin; by subst.
Qed.
Lemma text_base_cases base : text_base base = 10 \/ text_base base = 16.
Proof. unfold text_base. destruct (base =? 10); auto. Qed.
Lemma divide_spec n base : divide n base = (u32 n `mod` text_base base, i32 (u32 n / text_base base)).
Proof. unfold divide, text_base. by destruct (base =? 10). Qed.

Lemma i32_u32 n : u32 (i32 n) = u32 n.
Proof.
  unfold u32, i32. rewrite Zminus_mod, Zmod_mod, <- Zminus_mod. f_equal. lia.
Qed.
Lemma i32_zero n : 0 <= n < 2 ^ 32 -> i32 n = 0 <-> n = 0.
Proof. intros Hn. pose proof (i32_u32 n) as E. split; [|by intros ->]. intros E0. rewrite E0 in E. rewrite (u32_small n) in E by lia. unfold u32 in E. rewrite Z.mod_0_l in E; lia. Qed.

(** The loop writes the digits, the least significant first, and never more
    than ten of them. *)
Lemma digits_loop_wp m (large : bool) base (k : nat) : forall n fuel tmp, 0 <= n < 2 ^ 32 -> n < 10 ^ Z.of_nat k -> (k <= fuel)%nat -> (length tmp + k <= 16)%nat ->
  wp (digits_loop fuel (if large then large_digits else small_digits) (i32 n) base tmp) m
    (fun r m' => m' = m /\ r = tmp ++ (digit_char large <$> reverse (to_digits fuel (text_base base) n))).
Proof.
  pose proof (text_base_cases base) as Hb. induction k as [|k IH]; intros n fuel tmp Hn Hk Hf Ht.
  - assert (n = 0) as -> by (cbn in Hk; lia). destruct fuel; cbn [digits_loop to_digits]; change (i32 0 =? 0) with true; apply wp_ret; (split; [done|by rewrite app_nil_r]).
  - destruct fuel as [|fuel]; [lia|]. cbn [digits_loop to_digits]. destruct (Z.eqb_spec n 0) as [->|Hz].
    { change (i32 0 =? 0) with true. apply wp_ret. split; [done|by rewrite app_nil_r]. }
    rewrite (proj2 (Z.eqb_neq _ _)) by (rewrite i32_zero; lia). rewrite divide_spec, i32_u32, u32_small by lia.
    assert (0 <= n / text_base base < 2 ^ 32 /\ n / text_base base < 10 ^ Z.of_nat k) as [Hq Hq'].
    { rewrite Nat2Z.inj_succ, Z.pow_succ_r in Hk by lia. split.
      - split; [apply Z.div_pos; lia|]. apply Z.div_lt_upper_bound; [lia|]. destruct Hb as [-> | ->]; lia.
      - apply Z.div_lt_upper_bound; [lia|]. destruct Hb as [-> | ->]; lia. }
    kstep. eapply wp_deref; [apply nth_digit; pose proof (Z.mod_pos_bound n (text_base base)); destruct Hb as [E|E]; rewrite E in *; lia|].
    kstep. apply wp_valid; [apply Nat.ltb_lt; lia|]. eapply wp_mono; [apply IH; [done|done|lia|rewrite length_app; cbn; lia]|].
    intros r m' [-> ->]. split; [done|]. rewrite reverse_app, fmap_app. by rewrite <- app_assoc.
Qed.
Lemma to_digits_range b fuel n : 0 < b -> 0 <= n -> Forall (fun d => 0 <= d < b) (to_digits fuel b n).
Proof.
  intros Hb. revert n. induction fuel as [|fuel IH]; intros n Hn; cbn [to_digits]; [constructor|]. destruct (n =? 0); [constructor|].
  apply Forall_app. split; [apply IH, Z.div_pos; lia|]. constructor; [apply Z.mod_pos_bound; lia|constructor].
Qed.
Lemma to_digits_length b fuel n (k : nat) : 10 <= b -> 0 <= n < 10 ^ Z.of_nat k -> (length (to_digits fuel b n) <= k)%nat.
Proof.
  intros Hb. revert n k. induction fuel as [|fuel IH]; intros n k Hn; cbn [to_digits]; [cbn; lia|]. destruct (Z.eqb_spec n 0); [cbn; lia|].
  destruct k as [|k]; [cbn in Hn; lia|]. rewrite length_app. cbn [length]. rewrite Nat2Z.inj_succ, Z.pow_succ_r in Hn by lia.
  assert (length (to_digits fuel b (n / b)) <= k)%nat; [|lia]. apply IH. split; [apply Z.div_pos; lia|]. apply Z.div_lt_upper_bound; nia.
Qed.
Lemma to_digits_pos b fuel n : n <> 0 -> (0 < length (to_digits (S fuel) b n))%nat.
Proof. intros Hn. cbn [to_digits]. rewrite (proj2 (Z.eqb_neq n 0)) by done. rewrite length_app. cbn. lia. Qed.
Lemma digit_char_range large d : 0 <= d < 16 -> 0 <= digit_char large d < 256.
Proof. intros Hd. unfold digit_char. destruct (d <? 10) eqn:E; [lia|]. apply Z.ltb_ge in E. destruct large; lia. Qed.

Lemma has_bit type i : 0 <= i -> has type (2 ^ i) = Z.testbit type i.
Proof. apply land_bit. Qed.
(** LEFT takes ZEROPAD away. *)
Definition pads (type : Z) : Z := if has type LEFT then Z.land type (Z.lnot ZEROPAD) else type.
Lemma pads_has type i : 1 <= i <= 4 -> has (pads type) (2 ^ i) = has type (2 ^ i).
Proof.
  intros Hi. unfold pads. destruct (has type LEFT); [|done]. rewrite !has_bit, Z.land_spec, Z.lnot_spec by lia.
  change ZEROPAD with (2 ^ 0). rewrite Z.pow2_bits_false by lia. apply andb_true_r.
Qed.
Lemma pads_zero type : has (pads type) ZEROPAD = has type ZEROPAD && negb (has type LEFT).
Proof.
  unfold pads. destruct (has type LEFT) eqn:E; cbn [negb]; [|by rewrite andb_true_r]. rewrite andb_false_r.
  change ZEROPAD with (2 ^ 0) at 2. by rewrite has_bit, Z.land_spec, Z.lnot_spec, andb_false_r by lia.
Qed.
Lemma has_lor type a b : has type (Z.lor a b) = has type a || has type b.
Proof.
  unfold has. rewrite Z.land_lor_distr_r. destruct (Z.eqb_spec (Z.land type a) 0) as [->|Ha]; cbn [negb orb]; [by rewrite Z.lor_0_l|].
  apply negb_true_iff, Z.eqb_neq. intros [? _]%Z.lor_eq_0_iff. done.
Qed.

(** Sign and magnitude as print_number computes them. *)
Definition sign_of (num type : Z) : Z * Z :=
  if has type SIGN then
    if num <? 0 then (45, i32 (- num)) else if has type PLUS then (43, num) else if has type SPACE then (32, num) else (0, num)
  else (0, num).
Lemma i32_range_u32 num : - 2 ^ 31 <= num < 2 ^ 31 -> i32 (u32 num) = num.
Proof.
  intros H. unfold i32, u32. rewrite Zplus_mod, Zmod_mod, <- Zplus_mod. rewrite Z.mod_small; lia.
Qed.
Lemma sign_spec num type : - 2 ^ 31 <= num < 2 ^ 31 ->
  exists sign, sign_of num (pads type) = (sign, i32 (magnitude num type)) /\ number_sign num type = (if sign =? 0 then [] else [sign]) /\ 0 <= sign < 256 /\
    0 <= magnitude num type < 2 ^ 32.
Proof.
  intros Hn. unfold sign_of, number_sign, magnitude. change SIGN with (2 ^ 1). change PLUS with (2 ^ 2). change SPACE with (2 ^ 3). rewrite !pads_has by lia.
  pose proof (u32_range num) as Hu. destruct (has type (2 ^ 1)); cbn [andb]; [|exists 0; rewrite i32_range_u32 by lia; done]. destruct (Z.ltb_spec num 0) as [Hz|Hz].
  - exists 45. split_and!; try done; lia.
  - destruct (has type (2 ^ 2)); [exists 43; rewrite i32_range_u32 by lia; done|].
    destruct (has type (2 ^ 3)); [exists 32; rewrite i32_range_u32 by lia; done|exists 0; rewrite i32_range_u32 by lia; done].
Qed.

(** The digits, as tmp holds them. *)
Lemma tmp_wp m (large : bool) base n : 0 <= n < 2 ^ 32 ->
  wp (if i32 n =? 0 then ret [48] else digits_loop 32 (if large then large_digits else small_digits) (i32 n) base []) m
    (fun tmp m' => m' = m /\ reverse tmp = number_digits large base n /\ (0 < length tmp <= 10)%nat /\ byte_range (number_digits large base n)).
Proof.
  intros Hn. unfold number_digits. destruct (Z.eqb_spec n 0) as [->|Hz].
  - change (i32 0 =? 0) with true. apply wp_ret. split_and!; [done|done|cbn; lia|cbn; lia|]. constructor; [lia|constructor].
  - rewrite (proj2 (Z.eqb_neq _ _)) by (rewrite i32_zero; lia). eapply wp_mono; [apply (digits_loop_wp m large base 10); [done| |lia|cbn; lia]|].
    { change (10 ^ Z.of_nat 10) with 10000000000. lia. }
    intros tmp m' [-> ->]. cbn [app]. rewrite length_fmap, length_reverse. destruct (text_base_cases base) as [Hb|Hb].
    all: split_and!; [done|by rewrite <- fmap_reverse, reverse_involutive| | |].
    all: try (apply to_digits_length; [lia|change (10 ^ Z.of_nat 10) with 10000000000; lia]).
    all: try by apply to_digits_pos.
    all: apply Forall_fmap; eapply Forall_impl; [apply (to_digits_range (text_base base)); lia|]; intros d Hd; cbv beta in Hd; apply digit_char_range; lia.
Qed.

Lemma fits_le F out : fits F -> (length out <= length F)%nat -> fits out.
Proof. unfold fits. lia. Qed.
Lemma replicate_none n (c : Z) : n <= 0 -> replicate (Z.to_nat n) c = [].
Proof. intros H. by replace (Z.to_nat n) with 0%nat by lia. Qed.

(** The padding, the sign and the digits, once these are known. *)
Definition number_out (type c sign : Z) (tmp : list Z) (precision_bak precision i size str : Z) : B Z :=
  '(size, str) <-
    (if negb (has type (Z.lor ZEROPAD LEFT)) then
       let size := if negb (sign =? 0) && (0 <? size) then size - 1 else size in
       pad 32 size str end_
     else ret (size, str)) ;;
  '(size, str) <-
    (if negb (sign =? 0) then
       str <- put sign str end_ ;;
       size <- int (size - 1) ;;
       ret (size, str)
     else ret (size, str)) ;;
  '(size, str) <- (if negb (has type LEFT) then pad c size str end_ else ret (size, str)) ;;
  str <- put_n (precision - i) 48 str end_ ;;
  str <- (if negb (precision_bak =? 0) then put_list (reverse tmp) str end_ else ret str) ;;
  '(_, str) <- pad 32 size str end_ ;;
  ret str.
Lemma print_number_out str num base s precision type :
  print_number str end_ num base s precision type =
    let '(sign, num) := sign_of num (pads type) in
    tmp <- (if num =? 0 then ret [48] else digits_loop 32 (if has type LARGE then large_digits else small_digits) num base []) ;;
    let i := Z.of_nat (length tmp) in
    let precision' := if precision <? i then i else precision in
    size <- int (s - precision') ;;
    number_out (pads type) (if has (pads type) ZEROPAD then 48 else 32) sign tmp precision precision' i size str.
Proof. reflexivity. Qed.

(** What follows the sign: zeros up to the precision, the digits, blanks. *)
Lemma number_tail_wp ds bak p i size F out str m : byte_range ds -> - 2 ^ 31 < size -> fits F ->
  F = out ++ (zeros (p - i) ++ (if bak =? 0 then [] else ds)) ++ blanks size -> at_out out str m ->
  wp (str <- put_n (p - i) 48 str end_ ;;
      str <- (if negb (bak =? 0) then put_list ds str end_ else ret str) ;;
      '(_, str) <- pad 32 size str end_ ;;
      ret str) m (at_out F).
Proof.
  intros Hds Hs HF EF Ho. assert (fits ((out ++ zeros (p - i)) ++ (if bak =? 0 then [] else ds))) as H2.
  { apply (fits_le F); [done|]. rewrite EF, !length_app. lia. }
  kstep. eapply wp_mono; [apply (put_n_wp _ _ out); [lia|by apply fits_app in H2|done]|]. intros str1 m1 Ho1. kstep.
  eapply (wp_mono _ _ (at_out ((out ++ zeros (p - i)) ++ (if bak =? 0 then [] else ds)))).
  { destruct (bak =? 0); cbn [negb]; [kstep; by rewrite app_nil_r|]. by apply put_list_wp. }
  intros str2 m2 Ho2. kstep. eapply wp_mono; [eapply (pad_wp 32 size _ str2 m2); [lia|done| |exact Ho2]|].
  { rewrite <- !app_assoc. rewrite EF in HF. unfold blanks in HF. rewrite <- !app_assoc in HF. exact HF. }
  intros [sz str3] m3 [_ Ho3]. kstep. cbn [snd] in Ho3. rewrite EF. unfold blanks. rewrite <- !app_assoc in *. exact Ho3.
Qed.

Definition signs (sign : Z) : list Z := if sign =? 0 then [] else [sign].
Lemma sign_wp sign size out str m : 0 <= sign < 256 -> - 2 ^ 31 < size < 2 ^ 31 -> fits (out ++ signs sign) -> at_out out str m ->
  wp (if negb (sign =? 0) then str <- put sign str end_ ;; size <- int (size - 1) ;; ret (size, str) else ret (size, str)) m
    (fun r m' => r.1 = size - Z.of_nat (length (signs sign)) /\ at_out (out ++ signs sign) r.2 m').
Proof.
  intros Hs Hz Hf Ho. unfold signs in *. destruct (sign =? 0); cbn [negb]; [kstep; cbn; rewrite app_nil_r; split; [lia|done]|].
  kstep. eapply wp_mono; [by apply (put_wp _ out)|]. intros str' m' Ho'. kstep. apply wp_int; [lia|]. by kstep.
Qed.

Lemma number_out_wp type sign tmp bak p i size out str m F :
  let body := zeros (p - i) ++ (if bak =? 0 then [] else reverse tmp) in
  let fill := size - Z.of_nat (length (signs sign)) in
  F = out ++ (if has type LEFT then signs sign ++ body ++ blanks fill
              else if has type ZEROPAD then signs sign ++ zeros fill ++ body
              else blanks fill ++ signs sign ++ body) ->
  (has type LEFT = true -> has type ZEROPAD = false) ->
  0 <= sign < 256 -> byte_range (reverse tmp) -> - 2 ^ 31 + 10 < size < 2 ^ 31 -> fits F -> at_out out str m ->
  wp (number_out type (if has type ZEROPAD then 48 else 32) sign tmp bak p i size str) m (at_out F).
Proof.
  intros body fill EF HLZ Hs Hr Hz HF Ho. unfold number_out. rewrite has_lor.
  assert (length (signs sign) <= 1)%nat as Hl1 by (unfold signs; destruct (sign =? 0); cbn; lia).
  assert (negb (sign =? 0) = true -> length (signs sign) = 1%nat) as Hl2 by (unfold signs; by destruct (sign =? 0)).
  assert (negb (sign =? 0) = false -> length (signs sign) = 0%nat) as Hl3 by (unfold signs; by destruct (sign =? 0)).
  destruct (has type LEFT) eqn:EL; [rewrite (HLZ eq_refl)|destruct (has type ZEROPAD) eqn:EZ]; cbn [orb negb].
  - kstep. kstep. kstep. eapply wp_mono; [apply (sign_wp sign size out); [done|lia| |done]|].
    { apply (fits_le F); [done|]. rewrite EF, !length_app. lia. }
    intros [sz str1] m1 [E1 Ho1]. cbn [fst snd] in *. subst sz. kstep. kstep.
    apply (number_tail_wp _ _ _ _ _ F (out ++ signs sign)); [done|lia|done| |done]. rewrite EF. unfold body. by rewrite <- !app_assoc.
  - kstep. kstep. kstep. eapply wp_mono; [apply (sign_wp sign size out); [done|lia| |done]|].
    { apply (fits_le F); [done|]. rewrite EF, !length_app. lia. }
    intros [sz str1] m1 [E1 Ho1]. cbn [fst snd] in *. subst sz. kstep. eapply wp_mono; [apply (pad_wp 48 _ (out ++ signs sign)); [lia|lia| |done]|].
    { apply (fits_le F); [done|]. rewrite EF, !length_app. unfold zeros, fill. lia. }
    intros [sz str2] m2 [E2 Ho2]. cbn [fst snd] in *. apply (number_tail_wp _ _ _ _ _ F ((out ++ signs sign) ++ zeros fill)); [done|lia|done| |done].
    rewrite EF. unfold body, blanks. rewrite (replicate_none sz) by lia. by rewrite app_nil_r, <- !app_assoc.
  - kstep. assert ((if negb (sign =? 0) && (0 <? size) then size - 1 else size) = fill \/ fill <= 0 /\ (if negb (sign =? 0) && (0 <? size) then size - 1 else size) = Z.min size 0) as Hfill.
    { unfold fill. destruct (negb (sign =? 0)) eqn:Es; [rewrite Hl2 by done|rewrite Hl3 by done; left; cbn; lia]. cbn [andb]. destruct (Z.ltb_spec 0 size); lia. }
    set (size1 := if _ && _ then _ else _) in *. assert (replicate (Z.to_nat size1) 32 = blanks fill) as Eb.
    { unfold blanks. destruct Hfill as [->|[? ->]]; [done|]. by rewrite !replicate_none by lia. }
    assert (size1 <= size) as Hs1 by (unfold size1; destruct (_ && _); lia). assert (- 2 ^ 31 + 9 < size1) as Hs2 by (unfold size1; destruct (_ && _) eqn:E; lia).
    eapply wp_mono; [apply (pad_wp 32 size1 out); [lia|lia| |done]|].
    { apply (fits_le F); [done|]. rewrite EF, Eb, !length_app. lia. }
    rewrite Eb. intros [sz str1] m1 [E1 Ho1]. cbn [fst snd] in *. kstep. eapply wp_mono; [apply (sign_wp sign sz (out ++ blanks fill)); [done|lia| |done]|].
    { apply (fits_le F); [done|]. rewrite EF, !length_app. lia. }
    intros [sz2 str2] m2 [E2 Ho2]. cbn [fst snd] in *. kstep. eapply wp_mono; [apply (pad_wp 32 sz2 ((out ++ blanks fill) ++ signs sign)); [lia|lia| |done]|].
    { rewrite replicate_none, app_nil_r by lia. apply (fits_le F); [done|]. rewrite EF, !length_app. lia. }
    rewrite (replicate_none sz2), app_nil_r by lia. intros [sz3 str3] m3 [E3 Ho3]. cbn [fst snd] in *.
    apply (number_tail_wp _ _ _ _ _ F ((out ++ blanks fill) ++ signs sign)); [done|lia|done| |done]. rewrite EF. unfold body. replace (blanks sz3) with (@nil Z) by (symmetry; apply replicate_none; lia).
    by rewrite app_nil_r, <- !app_assoc.
Qed.

Lemma print_number_wp num base s precision type out str m :
  - 2 ^ 31 <= num < 2 ^ 31 -> -1 <= s < 2 ^ 30 -> -1 <= precision < 2 ^ 30 -> fits (out ++ number_text num base s precision type) -> at_out out str m ->
  wp (print_number str end_ num base s precision type) m (at_out (out ++ number_text num base s precision type)).
Proof.
  intros Hn Hs Hp HF Ho. rewrite print_number_out. destruct (sign_spec num type Hn) as (sign & -> & Esg & Hsg & Hm). kstep.
  eapply wp_mono; [apply tmp_wp, Hm|]. intros tmp m' (-> & Ed & Hl & Hr). cbn zeta. kstep.
  assert (length (number_digits (has type LARGE) base (magnitude num type)) = length tmp) as El by (by rewrite <- Ed, length_reverse).
  set (p := if precision <? _ then _ else _). assert (p = Z.max (Z.of_nat (length tmp)) precision) as Ep by (unfold p; destruct (Z.ltb_spec precision (Z.of_nat (length tmp))); lia).
  apply wp_int; [lia|]. apply (number_out_wp _ _ _ _ _ _ _ out); try done; [|by rewrite pads_zero; change LEFT with (2 ^ 4); rewrite pads_has by lia; intros ->; rewrite andb_false_r|by rewrite Ed|lia].
  f_equal. unfold number_text. rewrite Esg, El, Ed, pads_zero. change LEFT with (2 ^ 4). rewrite pads_has by lia. fold (signs sign).
  rewrite <- Ep. assert (zeros (p - Z.of_nat (length tmp)) ++ (if precision =? 0 then [] else number_digits (has type LARGE) base (magnitude num type)) =
    (if precision =? 0 then [] else zeros (precision - Z.of_nat (length tmp)) ++ number_digits (has type LARGE) base (magnitude num type))) as ->.
  { destruct (Z.eqb_spec precision 0) as [->|Hz]; [unfold zeros; rewrite replicate_none by lia; done|]. f_equal. unfold zeros. f_equal. lia. }
  destruct (has type (2 ^ 4)); [done|]. by rewrite andb_true_r.
Qed.

(** ** Sources

    A string the routine reads: it does not overlap the buffer. *)

Definition src (p : Z) (l : list Z) : Prop :=
  cstr m0 p l /\ forall i, (i <= length l)%nat -> p + Z.of_nat i < buf \/ buf + Z.of_nat (cap `min` lim) <= p + Z.of_nat i.

Lemma src_cstr p l out str m : src p l -> at_out out str m -> cstr m p l.
Proof.
  intros [H Ho] (_ & -> & Hl). apply (cstr_frame m0); [|done]. intros i Hi. apply lookup_write_out. rewrite length_take. specialize (Ho i Hi). lia.
Qed.
Lemma src_cons p c l : src p (c :: l) -> 1 <= c < 256 /\ src (p + 1) l.
Proof.
  intros [H Ho]. apply cstr_cons in H as (_ & Hc & H). split; [done|]. split; [done|]. intros i Hi. specialize (Ho (S i) ltac:(cbn; lia)). lia.
Qed.
Lemma src_load p l out str m (Q : Z -> mem -> Prop) : src p l -> at_out out str m -> (0 <= first l < 256 -> Q (first l) m) -> wp (load 1 p) m Q.
Proof.
  intros Hs Ho HQ. pose proof (src_cstr _ _ _ _ _ Hs Ho) as Hc. destruct l as [|c l].
  - apply (wp_load1 _ _ 0); [by apply cstr_nil|]. apply HQ. cbn. lia.
  - apply cstr_cons in Hc as (E & Hr & _). apply (wp_load1 _ _ c); [done|]. apply HQ. cbn. lia.
Qed.
Lemma src_tail p l : src p l -> first l <> 0 -> src (p + 1) (tail l).
Proof. destruct l as [|c l]; [done|]. intros H _. by apply src_cons in H as [_ H]. Qed.
Lemma src_size p l out str m : src p l -> at_out out str m -> (length l < size m)%nat.
Proof. intros Hs Ho. apply (cstr_size _ p). by eapply src_cstr. Qed.

(** ** The parts of a directive *)

Lemma isdigit_range c : 0 <= c < 256 -> isdigit c = true <-> 48 <= c <= 57.
Proof.
  intros Hc. unfold isdigit, u32. rewrite Z.ltb_lt. destruct (decide (c < 48)).
  - rewrite <- (Z.mod_add _ 1), Z.mod_small by lia. lia.
  - rewrite Z.mod_small by lia. lia.
Qed.
Lemma p_num_ge l : forall i, 0 <= i -> Forall (fun c => 0 <= c < 256) l -> i <= (p_num l i).1.
Proof.
  induction l as [|c l IH]; intros i Hi Hl; cbn [p_num]; [cbn; lia|]. inversion Hl; subst. destruct (isdigit c) eqn:E; [|cbn; lia].
  apply isdigit_range in E; [|done]. specialize (IH (i * 10 + (c - 48)) ltac:(lia) ltac:(done)). lia.
Qed.
Lemma src_bytes p l : src p l -> Forall (fun c => 0 <= c < 256) l.
Proof. intros [[H _] _]. eapply Forall_impl; [exact H|]. cbn. intros; lia. Qed.

Lemma skip_atoi_loop_wp l : forall fuel p i out str m, src p l -> at_out out str m -> (length l < fuel)%nat -> 0 <= i -> (p_num l i).1 < 2 ^ 30 ->
  wp (skip_atoi_loop fuel p i) m (fun r m' => m' = m /\ r.1 = (p_num l i).1 /\ src r.2 (p_num l i).2).
Proof.
  induction l as [|c l IH]; intros [|fuel] p i out str m Hs Ho Hf Hi Hb; try (cbn in Hf; lia); cbn [skip_atoi_loop]; kstep; apply (src_load _ _ _ _ _ _ Hs Ho); intros Hc; cbn [first head default from_option id] in *.
  - change (isdigit 0) with false. apply wp_ret. done.
  - cbn [p_num] in *. destruct (isdigit c) eqn:E; [|by kstep]. apply isdigit_range in E; [|done]. apply src_cons in Hs as [Hc1 Hs].
    pose proof (p_num_ge l (i * 10 + (c - 48)) ltac:(lia) ltac:(by eapply src_bytes)) as Hg. kstep. apply wp_int; [lia|]. kstep. apply wp_int; [lia|]. kstep. apply wp_int; [lia|].
    replace (i * 10 + c - 48) with (i * 10 + (c - 48)) by lia. eapply IH; [done|done|cbn in Hf; lia|lia|done].
Qed.
Lemma skip_atoi_wp l p out str m : src p l -> at_out out str m -> (p_num l 0).1 < 2 ^ 30 ->
  wp (skip_atoi p) m (fun r m' => m' = m /\ r.1 = (p_num l 0).1 /\ src r.2 (p_num l 0).2).
Proof.
  intros Hs Ho Hb. unfold skip_atoi, mapped_bytes. kstep. kstep. pose proof (src_size _ _ _ _ _ Hs Ho). eapply skip_atoi_loop_wp; [done|done|lia|lia|done].
Qed.

Lemma flags_loop_wp l : forall fuel p flags out str m, src (p + 1) l -> at_out out str m -> (length l < fuel)%nat ->
  wp (flags_loop fuel p flags) m (fun r m' => m' = m /\ src r.1 (p_flags l flags).1 /\ r.2 = (p_flags l flags).2).
Proof.
  induction l as [|c l IH]; intros [|fuel] p flags out str m Hs Ho Hf; try (cbn in Hf; lia); cbn [flags_loop]; kstep; apply (src_load _ _ _ _ _ _ Hs Ho); intros Hc; cbn [first head default from_option id] in *.
  - change (flag_of 0) with (@None Z). by apply wp_ret.
  - cbn [p_flags]. destruct (flag_of c); [|by kstep]. apply src_cons in Hs as [_ Hs]. eapply IH; [done|done|cbn in Hf; lia].
Qed.

Lemma small_Some x y : small x = Some y -> y = x /\ x < 2 ^ 30.
Proof. unfold small. destruct (Z.ltb_spec x (2 ^ 30)); by intros [= ->]. Qed.

Lemma get_width_wp l p flags args l' w flags' args' out str m : src p l -> at_out out str m -> p_width l flags args = Some (l', w, flags', args') ->
  -1 <= w < 2 ^ 30 /\ wp (get_width p flags args) m (fun r m' => m' = m /\ exists p', r = (p', w, flags', args') /\ src p' l').
Proof.
  intros Hs Ho E. unfold p_width, get_width in *. destruct (isdigit (first l)) eqn:Ed.
  - destruct (p_num l 0) as [v l1] eqn:En. destruct (small v) as [v'|] eqn:Ev; simplify_eq/=. apply small_Some in Ev as [-> Hv].
    pose proof (p_num_ge l 0 ltac:(lia) ltac:(by eapply src_bytes)) as Hg. rewrite En in Hg. cbn in Hg. split; [lia|]. kstep. apply (src_load _ _ _ _ _ _ Hs Ho). intros _. rewrite Ed. kstep.
    eapply wp_mono; [eapply skip_atoi_wp; [done|done|by rewrite En]|]. rewrite En. intros [a b] m' (-> & Ea & Hb). cbn [fst snd] in *. kstep. subst a. eauto.
  - destruct (first l =? 42) eqn:Es.
    + destruct args as [|a args]; [done|]. destruct (small (Z.abs (i32 a))) as [v|] eqn:Ev; simplify_eq/=. apply small_Some in Ev as [-> Hv]. split; [lia|].
      apply Z.eqb_eq in Es. kstep. apply (src_load _ _ _ _ _ _ Hs Ho). intros _. rewrite Ed, Es. rewrite Z.eqb_refl. cbv iota. kstep. unfold va_arg. eapply wp_deref; [done|]. cbn beta iota.
      pose proof (src_tail _ _ Hs ltac:(lia)) as Ht. destruct (Z.ltb_spec (i32 a) 0).
      * kstep. apply wp_int; [lia|]. kstep. rewrite Z.abs_neq by lia. eauto.
      * kstep. rewrite Z.abs_eq by lia. eauto.
    + simplify_eq/=. split; [lia|]. kstep. apply (src_load _ _ _ _ _ _ Hs Ho). intros _. rewrite Ed, Es. kstep. eauto.
Qed.

Lemma get_precision_wp l p args l' w args' out str m : src p l -> at_out out str m -> p_precision l args = Some (l', w, args') ->
  -1 <= w < 2 ^ 30 /\ wp (get_precision p args) m (fun r m' => m' = m /\ exists p', r = (p', w, args') /\ src p' l').
Proof.
  intros Hs Ho E. unfold p_precision, get_precision in *. destruct (first l =? 46) eqn:Edot.
  2:{ simplify_eq/=. split; [lia|]. kstep. apply (src_load _ _ _ _ _ _ Hs Ho). intros _. rewrite Edot. kstep. eauto. }
  apply Z.eqb_eq in Edot. pose proof (src_tail _ _ Hs ltac:(lia)) as Ht. cbn zeta in E. destruct (isdigit (first (tail l))) eqn:Ed.
  - destruct (p_num (tail l) 0) as [v l1] eqn:En. destruct (small v) as [v'|] eqn:Ev; simplify_eq/=. apply small_Some in Ev as [-> Hv].
    pose proof (p_num_ge (tail l) 0 ltac:(lia) ltac:(by eapply src_bytes)) as Hg. rewrite En in Hg. cbn in Hg. split; [lia|].
    kstep. apply (src_load _ _ _ _ _ _ Hs Ho). intros _. rewrite Edot. rewrite Z.eqb_refl. cbv iota. kstep. apply (src_load _ _ _ _ _ _ Ht Ho). intros _. kstep. rewrite Ed. kstep.
    eapply wp_mono; [eapply skip_atoi_wp; [done|done|by rewrite En]|]. rewrite En. intros [a b] m' (-> & Ea & Hb). cbn [fst snd] in *. kstep. kstep. subst a. rewrite (proj2 (Z.ltb_ge _ _)) by lia. eauto.
  - destruct (first (tail l) =? 42) eqn:Es.
    + destruct args as [|a args]; [done|]. destruct (small (Z.max 0 (i32 a))) as [v|] eqn:Ev; simplify_eq/=. apply small_Some in Ev as [-> Hv]. split; [lia|].
      apply Z.eqb_eq in Es. kstep. apply (src_load _ _ _ _ _ _ Hs Ho). intros _. rewrite Edot. rewrite Z.eqb_refl. cbv iota. kstep. apply (src_load _ _ _ _ _ _ Ht Ho). intros _. kstep. rewrite Ed, Es. rewrite Z.eqb_refl. cbv iota. kstep.
      unfold va_arg. eapply wp_deref; [done|]. cbn beta iota. kstep. kstep. pose proof (src_tail _ _ Ht ltac:(lia)) as Ht2. split; [done|]. eexists. split; [|exact Ht2].
      destruct (Z.ltb_spec (i32 a) 0); [by rewrite Z.max_l by lia|by rewrite Z.max_r by lia].
    + simplify_eq/=. split; [lia|]. kstep. apply (src_load _ _ _ _ _ _ Hs Ho). intros _. rewrite Edot. rewrite Z.eqb_refl. cbv iota. kstep. apply (src_load _ _ _ _ _ _ Ht Ho). intros _. kstep. rewrite Ed, Es. kstep. kstep. eauto.
Qed.

Lemma get_qualifier_wp l p out str m : src p l -> at_out out str m ->
  wp (get_qualifier p) m (fun r m' => m' = m /\ r.2 = (p_qualifier l).2 /\ src r.1 (p_qualifier l).1).
Proof.
  intros Hs Ho. unfold get_qualifier, p_qualifier. kstep. apply (src_load _ _ _ _ _ _ Hs Ho). intros _. kstep; kstep; [|done].
  split; [done|]. split; [done|]. apply src_tail; [done|]. apply orb_true_iff in Heqb. rewrite !Z.eqb_eq in Heqb. lia.
Qed.

(** ** Conversions *)

Lemma put_char_wp a w flags out str m : -1 <= w < 2 ^ 30 -> fits (out ++ field w flags [u8 a]) -> at_out out str m ->
  wp (put_char a w flags str end_) m (at_out (out ++ field w flags [u8 a])).
Proof.
  intros Hw HF Ho. pose proof (Z.mod_pos_bound a (2 ^ 8) ltac:(lia)) as Ha. fold (u8 a) in Ha. unfold put_char, field in *. cbn [length] in *. change (Z.of_nat 1) with 1 in *.
  destruct (has flags LEFT); cbn [negb]; kstep.
  - kstep. kstep. rewrite (app_assoc out) in *. eapply wp_mono; [apply (put_wp _ out); [lia|by apply fits_app in HF|done]|]. intros str1 m1 Ho1. apply put_n_wp; [lia|done|done].
  - rewrite (app_assoc out) in *. kstep. eapply wp_mono; [apply (put_n_wp _ _ out); [lia|by apply fits_app in HF|done]|]. intros str1 m1 Ho1. kstep. apply wp_int; [lia|]. kstep. kstep.
    eapply wp_mono; [apply (put_wp _ (out ++ blanks (w - 1))); [lia|done|done]|]. intros str2 m2 Ho2.
    unfold put_n. rewrite replicate_none by lia. by apply wp_ret.
Qed.

Lemma put_mem_wp t : forall n s out str m, src s t -> (n <= length t)%nat -> fits (out ++ take n t) -> at_out out str m ->
  wp (put_mem n s str end_) m (at_out (out ++ take n t)).
Proof.
  induction t as [|c t IH]; intros [|n] s out str m Hs Hn HF Ho; cbn [put_mem take length] in *; try lia; try (kstep; by rewrite app_nil_r).
  kstep. apply (src_load _ _ _ _ _ _ Hs Ho). cbn. intros Hc. apply src_cons in Hs as [_ Hs]. replace (out ++ c :: take n t) with ((out ++ [c]) ++ take n t) in * by (by rewrite <- app_assoc).
  kstep. eapply wp_mono; [apply (put_wp _ out); [done|by apply fits_app in HF|done]|]. intros str1 m1 Ho1. apply IH; [done|lia|done|done].
Qed.

(** The strings the arguments point to. *)
Context (strs : Z -> option (list Z)).
Hypothesis Hstrs : forall a t, strs a = Some t -> src a t /\ Z.of_nat (length t) < 2 ^ 31.

Lemma string_body_wp s t len out str m : (if s =? 0 then Some NULL_text else strs s) = Some t -> 0 <= len <= Z.of_nat (length t) ->
  fits (out ++ take (Z.to_nat len) t) -> at_out out str m ->
  wp (if s =? 0 then put_list (take (Z.to_nat len) NULL_text) str end_ else put_mem (Z.to_nat len) s str end_) m (at_out (out ++ take (Z.to_nat len) t)).
Proof.
  intros Ht Hl HF Ho. destruct (s =? 0).
  - injection Ht as <-. apply put_list_wp; [|done|done]. apply Forall_take. repeat constructor; lia.
  - destruct (Hstrs _ _ Ht) as [Hs _]. apply put_mem_wp; [done|lia|done|done].
Qed.
Lemma put_string_wp s t w p flags out str m : (if s =? 0 then Some NULL_text else strs s) = Some t -> -1 <= w < 2 ^ 30 ->
  fits (out ++ field w flags (if 0 <? p then take (Z.to_nat p) t else t)) -> at_out out str m ->
  wp (put_string s w p flags str end_) m (at_out (out ++ field w flags (if 0 <? p then take (Z.to_nat p) t else t))).
Proof.
  intros Ht Hw HF Ho. assert (Z.of_nat (length t) < 2 ^ 31) as Hlt.
  { destruct (s =? 0); [injection Ht as <-; cbn; lia|by apply (Hstrs _ _ Ht)]. }
  unfold put_string. kstep. eapply (wp_mono _ _ (fun r m' => m' = m /\ r = Z.of_nat (length t))).
  { destruct (s =? 0) eqn:E0; [kstep; by injection Ht as <-|]. destruct (Hstrs _ _ Ht) as [Hs _]. apply rt_strlen_wp. by eapply src_cstr. }
  intros r m' [-> ->]. cbn zeta. rewrite i32_small by lia. set (len := if _ && _ then p else _).
  assert (0 <= len <= Z.of_nat (length t) /\ (if 0 <? p then take (Z.to_nat p) t else t) = take (Z.to_nat len) t) as [Hl Et].
  { unfold len. destruct (Z.ltb_spec 0 p); cbn [andb]; [|split; [lia|by rewrite Nat2Z.id, firstn_all]].
    destruct (Z.ltb_spec p (Z.of_nat (length t))); [split; [lia|done]|]. split; [lia|]. by rewrite Nat2Z.id, !take_ge by lia. }
  rewrite Et in *. assert (Z.of_nat (length (take (Z.to_nat len) t)) = len) as El by (rewrite length_take; lia). unfold field in *. rewrite El in *. clearbody len. clear Et.
  destruct (has flags LEFT); cbn [negb]; kstep.
  - kstep. kstep. rewrite (app_assoc out) in *. eapply wp_mono; [apply (string_body_wp s t len out); [done|done|by apply fits_app in HF|done]|].
    intros str1 m1 Ho1. apply put_n_wp; [lia|done|done].
  - rewrite (app_assoc out) in *. kstep. eapply wp_mono; [apply (put_n_wp _ _ out); [lia|by apply fits_app in HF|done]|]. intros str1 m1 Ho1. kstep. apply wp_int; [lia|]. kstep. kstep.
    eapply wp_mono; [apply (string_body_wp s t len (out ++ blanks (w - len))); done|]. intros str2 m2 Ho2. unfold put_n. rewrite replicate_none by lia. by apply wp_ret.
Qed.

Lemma i32_range x : - 2 ^ 31 <= i32 x < 2 ^ 31.
Proof. unfold i32. pose proof (Z.mod_pos_bound (x + 2 ^ 31) (2 ^ 32) ltac:(lia)). lia. Qed.

Lemma convert_wp l p flags w pr q args t args' out str m : src p l -> at_out out str m -> -1 <= w < 2 ^ 30 -> -1 <= pr < 2 ^ 30 ->
  conversion_text strs (first l) flags w pr q args = Some (t, args') -> fits (out ++ t) ->
  wp (convert p flags w pr q args str end_) m (fun r m' => exists p' str', r = (p', args', str') /\ src (p' + 1) (tail l) /\ at_out (out ++ t) str' m').
Proof.
  intros Hs Ho Hw Hp E HF. unfold convert. kstep. apply (src_load _ _ _ _ _ _ Hs Ho). intros Hc. unfold conversion_text in E.
  pose proof (src_tail _ _ Hs) as Ht. destruct (first l =? 99) eqn:Ec.
  { destruct args as [|a args]; simplify_eq. kstep. unfold va_arg. eapply wp_deref; [done|]. cbn beta iota. kstep. eapply wp_mono; [by apply (put_char_wp a w flags out)|].
    intros str' m' Ho'. kstep. eexists _, _. split; [done|]. split; [apply Ht; lia|done]. }
  destruct (first l =? 115) eqn:Es.
  { destruct args as [|a args]; [done|]. destruct (if a =? 0 then Some NULL_text else strs a) as [tx|] eqn:Etx; simplify_eq/=. kstep. unfold va_arg. eapply wp_deref; [done|]. cbn beta iota. kstep.
    eapply wp_mono; [by apply (put_string_wp a tx w pr flags out)|]. intros str' m' Ho'. kstep. eexists _, _. split; [done|]. split; [apply Ht; lia|done]. }
  destruct (first l =? 112) eqn:Ep.
  { destruct args as [|a args]; simplify_eq. pose proof (i32_range a) as Ha. destruct (Z.eqb_spec w (-1)) as [->|Hw1].
    all: kstep; unfold va_arg; eapply wp_deref; [done|]; cbn beta iota; kstep.
    all: eapply wp_mono; [apply (print_number_wp _ _ _ _ _ out); [done|try done; change (Z.shiftl 4 1) with 8; lia|done|done|done]|].
    all: intros str' m' Ho'; kstep; eexists _, _; split; [done|]; split; [apply Ht; lia|done]. }
  destruct (first l =? 37) eqn:Epc.
  { simplify_eq. kstep. eapply wp_mono; [apply (put_wp _ out); [lia|done|done]|]. intros str' m' Ho'. kstep. eexists _, _. split; [done|]. split; [apply Ht; lia|done]. }
  destruct (number_conversion (first l) flags) as [[base flags']|] eqn:Enc.
  { destruct args as [|a args]; simplify_eq. kstep. unfold va_arg. eapply wp_deref; [done|]. cbn beta iota. kstep.
    eapply wp_mono; [apply (print_number_wp _ _ _ _ _ out); [apply i32_range|done|done|done|done]|]. intros str' m' Ho'. kstep. eexists _, _. split; [done|].
    split; [|done]. apply Ht. intros E0. by rewrite E0 in Enc. }
  kstep. destruct (Z.eqb_spec (first l) 0) as [E0|E0]; cbn [negb]; simplify_eq.
  - eapply wp_mono; [apply (put_wp _ out); [lia|done|done]|]. intros str' m' Ho'. kstep. eexists _, _. split; [done|]. split; [|done].
    rewrite Z.sub_add. destruct l as [|c l]; [done|]. apply src_cons in Hs. cbn in E0. lia.
  - replace (out ++ [37; first l]) with ((out ++ [37]) ++ [first l]) in * by (by rewrite <- app_assoc). eapply wp_mono; [apply (put_wp _ out); [lia|by apply fits_app in HF|done]|].
    intros str' m' Ho'. kstep. eapply wp_mono; [apply (put_wp _ (out ++ [37])); [done|done|done]|]. intros str2 m2 Ho2. kstep. eexists _, _. split; [done|]. split; [by apply Ht|done].
Qed.

(** ** The format *)

Lemma p_flags_length l : forall flags, (length (p_flags l flags).1 <= length l)%nat.
Proof. induction l as [|c l IH]; intros flags; cbn [p_flags]; [done|]. destruct (flag_of c); cbn [length fst]; [|done]. specialize (IH (Z.lor flags z)). lia. Qed.
Lemma p_num_length l : forall i, (length (p_num l i).2 <= length l)%nat.
Proof. induction l as [|c l IH]; intros i; cbn [p_num]; [done|]. destruct (isdigit c); cbn [length snd]; [|done]. specialize (IH (i * 10 + (c - 48))). lia. Qed.
Lemma tail_length (l : list Z) : (length (tail l) <= length l)%nat.
Proof. destruct l; cbn; lia. Qed.
Lemma p_width_length l flags args l' w flags' args' : p_width l flags args = Some (l', w, flags', args') -> (length l' <= length l)%nat.
Proof.
  unfold p_width. intros E. pose proof (p_num_length l 0) as Hn. pose proof (tail_length l) as Ht. destruct (isdigit _); [|destruct (_ =? _)].
  - destruct (p_num l 0) as [v l1]. destruct (small v); simplify_eq/=. done.
  - destruct args as [|a args]; [done|]. destruct (small _); by simplify_eq/=.
  - by simplify_eq.
Qed.
Lemma p_precision_length l args l' w args' : p_precision l args = Some (l', w, args') -> (length l' <= length l)%nat.
Proof.
  unfold p_precision. intros E. pose proof (p_num_length (tail l) 0) as Hn. pose proof (tail_length l) as Ht. pose proof (tail_length (tail l)) as Ht2.
  destruct (_ =? 46); [|by simplify_eq]. cbn zeta in E. destruct (isdigit _); [|destruct (_ =? _)].
  - destruct (p_num (tail l) 0) as [v l1]. destruct (small v); simplify_eq/=. lia.
  - destruct args as [|a args]; [done|]. destruct (small _); simplify_eq/=. lia.
  - by simplify_eq.
Qed.
Lemma p_qualifier_length l : (length (p_qualifier l).1 <= length l)%nat.
Proof. unfold p_qualifier. pose proof (tail_length l). by destruct (_ || _). Qed.

Lemma vsnprintf_loop_wp rf : forall fuel l p args t out str m, src p l -> at_out out str m -> (length l < fuel)%nat ->
  render strs rf l args = Some t -> fits (out ++ t) -> wp (vsnprintf_loop fuel p args str end_) m (at_out (out ++ t)).
Proof using Hbuf Hend Hmap Hstrs.
  induction rf as [|rf IH]; intros [|fuel] l p args t out str m Hs Ho Hf E HF; try (cbn in *; lia || done).
  cbn [vsnprintf_loop render] in *. kstep. apply (src_load _ _ _ _ _ _ Hs Ho). intros Hc. destruct l as [|c l]; cbn [first head default from_option id] in *.
  { simplify_eq. change (0 =? 0) with true. apply wp_ret. by rewrite app_nil_r. }
  apply src_cons in Hs as [Hc1 Hs]. rewrite (proj2 (Z.eqb_neq c 0)) by lia. cbn [length] in Hf. destruct (c =? 37) eqn:Ec; cbn [negb] in *.
  - kstep. unfold mapped_bytes. kstep. kstep. pose proof (src_size _ _ _ _ _ Hs Ho) as Hsz. eapply wp_mono; [eapply (flags_loop_wp l); [done|done|lia]|].
    intros [p1 fl] m' (-> & Hs1 & E1). cbn [fst snd] in *. subst fl. pose proof (p_flags_length l 0) as L1. destruct (p_flags l 0) as [l1 fl]. cbn [fst snd] in *.
    destruct (p_width l1 fl args) as [[[[l2 w] fl2] args2]|] eqn:Ew; [|done]. cbn in E. pose proof (p_width_length _ _ _ _ _ _ _ Ew) as L2.
    destruct (get_width_wp _ _ _ _ _ _ _ _ _ _ _ Hs1 Ho Ew) as [Hw W]. kstep. eapply wp_mono; [exact W|]. intros r m' (-> & p2 & -> & Hs2).
    destruct (p_precision l2 args2) as [[[l3 pr] args3]|] eqn:Epr; [|done]. cbn in E. pose proof (p_precision_length _ _ _ _ _ Epr) as L3.
    destruct (get_precision_wp _ _ _ _ _ _ _ _ _ Hs2 Ho Epr) as [Hpr P]. kstep. eapply wp_mono; [exact P|]. intros r m' (-> & p3 & -> & Hs3).
    kstep. eapply wp_mono; [by eapply get_qualifier_wp|]. intros [p4 q] m' (-> & E4 & Hs4). cbn [fst snd] in *. subst q. pose proof (p_qualifier_length l3) as L4.
    destruct (p_qualifier l3) as [l4 q]. cbn [fst snd] in *. destruct (conversion_text strs (first l4) fl2 w pr q args3) as [[t1 args4]|] eqn:Ect; [|done]. cbn in E.
    destruct (render strs rf (tail l4) args4) as [t2|] eqn:Er; [|done]. cbn in E. injection E as <-. rewrite app_assoc in *. kstep.
    eapply wp_mono; [eapply (convert_wp l4 p4 fl2 w pr q args3 t1 args4 out); [done|done|done|done|done|by apply fits_app in HF]|].
    intros r m' (p5 & str' & -> & Hs5 & Ho5). pose proof (tail_length l4). by apply (IH fuel (tail l4)); [done|done|lia| |].
  - destruct (render strs rf l args) as [t1|] eqn:Er; [|done]. cbn in E. injection E as <-. kstep.
    replace (out ++ c :: t1) with ((out ++ [c]) ++ t1) in * by (by rewrite <- app_assoc). eapply wp_mono; [apply (put_wp _ out); [lia|by apply fits_app in HF|done]|].
    intros str1 m1 Ho1. apply (IH fuel l); [done|done|lia|done|done].
Qed.
End output.

(** What is left in a buffer of [size] characters: the text as far as it fits,
    and a NUL, unless the buffer is empty. *)
Definition printed (size : Z) (t : list Z) : list Z := if size =? 0 then [] else take (Z.to_nat size - 1) t ++ [0].

Section vsnprintf.
Context (m : mem) (buf size fmt : Z) (args l t : list Z) (strs : Z -> option (list Z)).
(** The part of the buffer that is written. *)
Definition used_part : nat := Z.to_nat size `min` S (length t).
(** A string outside that part. *)
Definition readable (p : Z) (s : list Z) : Prop := src m buf (buf + size) (S (length t)) p s.

Lemma vsnprintf_end_wp fuel : 0 <= buf -> 0 <= size -> buf + size <= 2 ^ 32 -> Z.of_nat (length t) < 2 ^ 31 -> buf + Z.of_nat (length t) < 2 ^ 32 ->
  mapped m buf used_part = true -> readable fmt l ->
  (forall a s, strs a = Some s -> readable a s /\ Z.of_nat (length s) < 2 ^ 31) -> format_text strs l args = Some t -> (length l < fuel)%nat ->
  wp (str <- vsnprintf_loop fuel fmt args buf (buf + size) ;;
      when (0 <? size) (if str <? buf + size then store 1 str 0 else store 1 (buf + size - 1) 0) ;;
      ret (i32 (str - buf))) m (fun r m' => r = Z.of_nat (length t) /\ m' = write_bytes buf (printed size t) m).
Proof.
  intros Hb Hs He Hl Hf Hm Hr Hstrs Ht Hfuel. assert (cap buf (buf + size) = Z.to_nat size) as Ecap by (unfold cap; f_equal; lia).
  kstep. eapply wp_mono; [apply (vsnprintf_loop_wp m buf (buf + size) (S (length t)) Hb ltac:(lia) ltac:(by rewrite Ecap) strs Hstrs (S (length l)) fuel l fmt args t [] buf m)|].
  - done.
  - split; [cbn; lia|]. split; [by rewrite take_nil|cbn; lia].
  - done.
  - done.
  - split; cbn [app]; lia.
  - cbn [app]. intros str m' (-> & -> & _). rewrite Ecap. kstep. kstep. unfold printed. rewrite Z.add_simpl_l, i32_small by lia. destruct (Z.ltb_spec 0 size) as [Hz|Hz].
    2:{ kstep. kstep. split; [done|]. replace size with 0 by lia. by rewrite Z.eqb_refl, take_0. }
    rewrite (proj2 (Z.eqb_neq size 0)) by lia. destruct (Z.ltb_spec (buf + Z.of_nat (length t)) (buf + size)) as [Hlt|Hge].
    + apply wp_store; [apply mapped_write; apply (mapped_sub _ _ _ (length t) 1 Hm); unfold used_part; lia|]. kstep. split; [done|].
      rewrite !take_ge by lia. by rewrite write_bytes_app.
    + apply wp_store.
      { replace (buf + size - 1) with (buf + Z.of_nat (Z.to_nat size - 1)) by lia. apply mapped_write. apply (mapped_sub _ _ _ (Z.to_nat size - 1) 1 Hm). unfold used_part. lia. }
      kstep. split; [done|]. set (k := (Z.to_nat size - 1)%nat). replace (Z.to_nat size) with (S k) by lia.
      destruct (lookup_lt_is_Some_2 t k ltac:(lia)) as [x Ex]. rewrite (take_S_r _ _ x Ex), !write_bytes_app. rewrite length_take, Nat.min_l by lia.
      replace (buf + size - 1) with (buf + Z.of_nat k) by lia. rewrite write_bytes_write; done.
Qed.
End vsnprintf.

Lemma rt_vsnprintf_wp m buf size fmt args l t strs :
  0 <= buf -> 0 <= size -> buf + size < 2 ^ 32 -> Z.of_nat (length t) < 2 ^ 31 -> buf + Z.of_nat (length t) < 2 ^ 32 ->
  mapped m buf (used_part size t) = true -> readable m buf size t fmt l ->
  (forall a s, strs a = Some s -> readable m buf size t a s /\ Z.of_nat (length s) < 2 ^ 31) -> format_text strs l args = Some t ->
  wp (rt_vsnprintf buf size fmt args) m (fun r m' => r = Z.of_nat (length t) /\ m' = write_bytes buf (printed size t) m).
Proof.
  intros Hb Hs He Hl Hf Hm Hr Hstrs Ht. unfold rt_vsnprintf. rewrite u32_small by lia. rewrite (proj2 (Z.ltb_ge _ _)) by lia. unfold mapped_bytes. kstep. kstep.
  apply (vsnprintf_end_wp _ _ _ _ _ l t strs); try done; [lia|]. destruct Hr as [Hc _]. apply cstr_size in Hc. lia.
Qed.

(** ** The text of the format is what C describes *)

(** The flags of a directive as bits. *)
Definition as_bits (f : flags) (z : Z) : Prop :=
  has z LEFT = fl_minus f /\ has z PLUS = fl_plus f /\ has z SPACE = fl_space f /\ has z ZEROPAD = fl_zero f /\ has z SIGN = false /\ has z LARGE = false.
Lemma has_set z a g : has (Z.lor z a) g = has z g || has a g.
Proof.
  unfold has. rewrite Z.land_lor_distr_l. destruct (Z.eqb_spec (Z.land z g) 0) as [->|Hz]; cbn [negb orb]; [by rewrite Z.lor_0_l|].
  apply negb_true_iff, Z.eqb_neq. intros [? _]%Z.lor_eq_0_iff. done.
Qed.
Lemma as_bits_add f z f' a : as_bits f z ->
  (a = LEFT /\ f' = set_minus f) \/ (a = PLUS /\ f' = mkFlags (fl_minus f) true (fl_space f) (fl_hash f) (fl_zero f)) \/
  (a = SPACE /\ f' = mkFlags (fl_minus f) (fl_plus f) true (fl_hash f) (fl_zero f)) \/ (a = SPECIAL /\ f' = mkFlags (fl_minus f) (fl_plus f) (fl_space f) true (fl_zero f)) \/
  (a = ZEROPAD /\ f' = mkFlags (fl_minus f) (fl_plus f) (fl_space f) (fl_hash f) true) -> as_bits f' (Z.lor z a).
Proof.
  intros (H1 & H2 & H3 & H4 & H5 & H6) Ha. unfold as_bits. rewrite !has_set, H1, H2, H3, H4, H5, H6. destruct_or! Ha; destruct Ha as [-> ->]; cbn; rewrite ?orb_false_r, ?orb_true_r; done.
Qed.
Lemma read_flags_agree l : forall f z, as_bits f z -> exists z', p_flags l z = (fst (read_flags l f), z') /\ as_bits (snd (read_flags l f)) z'.
Proof.
  induction l as [|c l IH]; intros f z Hf; [by exists z|]. cbn [p_flags read_flags]. unfold flag_of.
  destruct (c =? 45); [apply IH, (as_bits_add f z); [done|by left]|]. destruct (c =? 43); [apply IH, (as_bits_add f z); [done|by right; left]|].
  destruct (c =? 32); [apply IH, (as_bits_add f z); [done|by right; right; left]|]. destruct (c =? 35); [apply IH, (as_bits_add f z); [done|by right; right; right; left]|].
  destruct (c =? 48); [apply IH, (as_bits_add f z); [done|by right; right; right; right]|]. by exists z.
Qed.

Lemma signed_wrap w x : 0 < w -> signed w x = (x + 2 ^ (w - 1)) `mod` 2 ^ w - 2 ^ (w - 1).
Proof.
  intros Hw. unfold signed, unsigned. assert (2 ^ w = 2 * 2 ^ (w - 1)) as E by (rewrite <- Z.pow_succ_r by lia; f_equal; lia). assert (0 < 2 ^ (w - 1)) by lia.
  set (h := 2 ^ (w - 1)) in *. rewrite E. pose proof (Z.mod_pos_bound x (2 * h) ltac:(lia)). pose proof (Z.div_mod x (2 * h) ltac:(lia)) as D.
  destruct (Z.ltb_spec (x `mod` (2 * h)) h).
  - rewrite <- (Z.mod_unique (x + h) (2 * h) (x / (2 * h)) (x `mod` (2 * h) + h)); lia.
  - rewrite <- (Z.mod_unique (x + h) (2 * h) (x / (2 * h) + 1) (x `mod` (2 * h) - h)); lia.
Qed.
Lemma signed_i32 x : signed 32 x = i32 x.
Proof. by rewrite signed_wrap. Qed.

Lemma is_digit_agree c : 0 <= c < 256 -> isdigit c = is_digit c.
Proof.
  intros Hc. unfold isdigit, is_digit, u32. destruct (decide (48 <= c)) as [H|H].
  - rewrite Z.mod_small by lia. rewrite (proj2 (Z.leb_le _ _)) by lia. cbn [andb]. destruct (Z.leb_spec c 57); lia.
  - rewrite (proj2 (Z.leb_gt _ _)) by lia. cbn [andb]. rewrite <- (Z.mod_add _ 1), Z.mod_small by lia. lia.
Qed.
#[local] Notation chars l := (Forall (fun c => 0 <= c < 256) l).
Lemma span_digits_agree l : forall i, chars l -> p_num l i = (fold_left (fun n c => 10 * n + (c - 48)) (fst (span_digits l)) i, snd (span_digits l)).
Proof.
  induction l as [|c l IH]; intros i Hl; [done|]. inversion Hl; subst. cbn [p_num span_digits]. rewrite is_digit_agree by done. destruct (is_digit c); [|done].
  rewrite IH by done. destruct (span_digits l) as [ds r]. cbn [fst snd fold_left]. by replace (i * 10 + (c - 48)) with (10 * i + (c - 48)) by lia.
Qed.
Lemma span_digits_ok l : chars l -> chars (snd (span_digits l)) /\ forall i, 0 <= i -> 0 <= fold_left (fun n c => 10 * n + (c - 48)) (fst (span_digits l)) i.
Proof.
  induction 1 as [|c l Hc Hl IH]; [done|]. cbn [span_digits]. destruct (is_digit c) eqn:E; [|split; [by constructor|done]]. destruct (span_digits l) as [ds r]. destruct IH as [H1 H2].
  split; [done|]. intros i Hi. cbn [fst fold_left]. apply H2. unfold is_digit in E. lia.
Qed.
Lemma first_chars l : chars l -> 0 <= first l < 256.
Proof. destruct 1; cbn; lia. Qed.

Definition known (o : option Z) : Prop := match o with Some x => 0 <= x | None => True end.

Lemma read_width_agree l args f z r : chars l -> as_bits f z -> read_width l args f = Some r ->
  let '(l', args', f', w) := r in exists z', p_width l z args = Some (l', default (-1) w, z', args') /\ as_bits f' z' /\ chars l' /\ known w.
Proof.
  intros Hl Hf. destruct l as [|c l]; cbn [read_width]; [intros [= <-]; exists z; by split_and!|]. inversion Hl as [|? ? Hc Hl']; subst.
  unfold p_width. change (first (c :: l)) with c. rewrite is_digit_agree by done. destruct (is_digit c).
  - rewrite span_digits_agree by done. destruct (span_digits_ok (c :: l) Hl) as [H1 H2]. destruct (span_digits (c :: l)) as [ds r']. cbn [fst snd] in *. unfold limited, small, decimal in *.
    destruct (_ <? _); [|done]. intros [= <-]. exists z. split; [done|]. split; [done|]. split; [done|]. by apply H2.
  - destruct (c =? 42); [|intros [= <-]; by exists z]. destruct args as [|a args]; [done|]. rewrite signed_i32. unfold limited, small. destruct (Z.abs (i32 a) <? 2 ^ 30); [|done]. intros [= <-].
    eexists. split; [done|]. split; [|split; [done|cbn; lia]]. destruct (_ <? _); [|done]. apply (as_bits_add f z); [done|by left].
Qed.
Lemma read_precision_agree l args r : chars l -> read_precision l args = Some r ->
  let '(l', args', p) := r in p_precision l args = Some (l', default (-1) p, args') /\ chars l' /\ known p.
Proof.
  intros Hl. destruct l as [|c l]; cbn [read_precision]; [by intros [= <-]|]. inversion Hl as [|? ? Hc Hl']; subst. unfold p_precision. change (first (c :: l)) with c. cbn [tail].
  destruct (c =? 46); [|by intros [= <-]]. destruct l as [|c' l]; [by intros [= <-]|]. change (first (c' :: l)) with c'. inversion Hl' as [|? ? Hc' Hl'']; subst. rewrite is_digit_agree by done. destruct (is_digit c').
  - rewrite span_digits_agree by done. destruct (span_digits_ok (c' :: l) Hl') as [H1 H2]. destruct (span_digits (c' :: l)) as [ds r']. cbn [fst snd] in *. unfold limited, small, decimal in *.
    destruct (_ <? _); [|done]. intros [= <-]. split; [done|]. split; [done|]. by apply H2.
  - destruct (c' =? 42); [|by intros [= <-]]. destruct args as [|a args]; [done|]. rewrite signed_i32. unfold limited, small. destruct (_ <? _); [|done]. intros [= <-]. split; [done|]. split; [done|cbn; lia].
Qed.
Lemma read_qualifier_agree l : chars l -> exists q, p_qualifier l = (fst (read_qualifier l), q) /\ (q =? 104) = snd (read_qualifier l) /\ chars (fst (read_qualifier l)).
Proof.
  intros Hl. destruct l as [|c l]; [by exists 0|]. inversion Hl; subst. unfold p_qualifier. cbn [read_qualifier]. change (first (c :: l)) with c. cbn [tail].
  destruct (Z.eqb_spec c 104) as [->|?]; [by exists 104|]. destruct (Z.eqb_spec c 108) as [->|?]; [by exists 108|]. by exists 0.
Qed.

Lemma digits_agree b fuel : 0 < b -> forall n, 0 < n -> to_digits fuel b n = digits fuel b n.
Proof.
  intros Hb. induction fuel as [|fuel IH]; intros n Hn; [done|]. cbn [to_digits digits]. rewrite (proj2 (Z.eqb_neq n 0)) by lia. destruct (Z.ltb_spec n b) as [Hlt|Hge].
  - rewrite Z.div_small, Z.mod_small by lia. by destruct fuel.
  - rewrite IH; [done|]. pose proof (Z.div_le_lower_bound n b 1 Hb). lia.
Qed.
Lemma numeral_agree (large : bool) base n : 0 <= n -> number_digits large base n = numeral (if large then UpperCase else LowerCase) (text_base base) n.
Proof.
  intros Hn. unfold number_digits, numeral. destruct (Z.eqb_spec n 0) as [->|Hz]; [by destruct (text_base_cases base) as [-> | ->], large|].
  rewrite digits_agree by (destruct (text_base_cases base); lia). apply list_fmap_ext. intros _ d _. unfold digit_char, digit.
  destruct (Z.ltb_spec d 10), (Z.leb_spec d 9); [done|lia|lia|by destruct large].
Qed.
Lemma numeral_pos ls b n : 0 < b -> (0 < length (numeral ls b n))%nat.
Proof. intros Hb. unfold numeral. rewrite length_fmap. cbn [digits]. destruct (_ <? _); [cbn; lia|]. rewrite length_app. cbn. lia. Qed.

Lemma times_none n c : n <= 0 -> times n c = [].
Proof. intros H. unfold times. by replace (Z.to_nat n) with 0%nat by lia. Qed.
Lemma replicate_times n c : replicate (Z.to_nat n) c = times n c.
Proof. unfold times. generalize (Z.to_nat n) as k. induction k as [|k IH]; [done|]. cbn. by rewrite IH. Qed.
Lemma length_times n c : Z.of_nat (length (times n c)) = Z.max 0 n.
Proof. unfold times. rewrite repeat_length. lia. Qed.

Lemma field_agree d z t : as_bits (d_flags d) z -> known (d_width d) -> field (default (-1) (d_width d)) z t = in_field d t.
Proof.
  intros (H1 & _) Hw. unfold field, in_field, blanks. rewrite H1, replicate_times. by destruct (d_width d) as [w|]; [|cbn [default]; rewrite !times_none by lia].
Qed.
Lemma number_agree d z num base : has z LEFT = fl_minus (d_flags d) -> has z ZEROPAD = fl_zero (d_flags d) -> number_covered d = true -> known (d_width d) ->
  0 <= magnitude num z ->
  number_text num base (default (-1) (d_width d)) (default (-1) (d_precision d)) z =
    number_field d (number_sign num z) (numeral (if has z LARGE then UpperCase else LowerCase) (text_base base) (magnitude num z)).
Proof.
  intros H1 H2 [_ Hp]%andb_true_iff Hw Hm. unfold number_text, number_field, in_field. rewrite H1, H2, numeral_agree by done.
  pose proof (numeral_pos (if has z LARGE then UpperCase else LowerCase) (text_base base) (magnitude num z) ltac:(destruct (text_base_cases base); lia)) as Hpos.
  set (ds := numeral _ _ _) in *. set (sg := number_sign num z). unfold zeros, blanks. rewrite !replicate_times.
  assert ((default (-1) (d_precision d) =? 0) = false) as -> by (destruct (d_precision d); cbn; lia).
  assert (times (default (-1) (d_precision d) - Z.of_nat (length ds)) 48 = times (default 0 (d_precision d) - Z.of_nat (length ds)) 48) as -> by (destruct (d_precision d); [done|]; cbn [default]; rewrite !times_none by lia; done).
  set (body := _ ++ ds). assert (Z.max (Z.of_nat (length ds)) (default (-1) (d_precision d)) = Z.of_nat (length body)) as Hb.
  { unfold body. rewrite length_app, Nat2Z.inj_add, length_times. destruct (d_precision d); cbn [default] in *; lia. }
  assert (forall c, times (default (-1) (d_width d) - Z.max (Z.of_nat (length ds)) (default (-1) (d_precision d)) - Z.of_nat (length sg)) c = times (default 0 (d_width d) - Z.of_nat (length (sg ++ body))) c) as Hfill.
  { intros c. rewrite Hb, length_app, Nat2Z.inj_add. destruct (d_width d); cbn [default]; [f_equal; lia|]. rewrite !times_none by lia. done. }
  rewrite !Hfill. destruct (fl_minus (d_flags d)); [by rewrite andb_false_r, <- app_assoc|]. rewrite andb_true_r. by destruct (fl_zero (d_flags d)).
Qed.

(** The argument of a number, signed and unsigned. *)
Lemma unsigned_agree q z a d : (q =? 104) = d_short d -> has z SIGN = false ->
  magnitude (i32 (number_arg q z a)) z = unsigned (bits d) a /\ number_sign (i32 (number_arg q z a)) z = [].
Proof.
  intros Hq Hs. unfold magnitude, number_sign, number_arg, bits, unsigned. rewrite Hs, Hq, i32_u32. cbn [andb]. split; [|done]. unfold u32, u16.
  destruct (Z.eqb_spec q 108) as [->|_]; [destruct (d_short d); [done|by rewrite Zmod_mod]|]. destruct (d_short d); [|by rewrite Zmod_mod].
  rewrite (Z.mod_small (a `mod` 2 ^ 16)); [done|]. pose proof (Z.mod_pos_bound a (2 ^ 16)). lia.
Qed.
Lemma i32_of_u32 x : i32 (u32 x) = i32 x.
Proof. unfold i32, u32. by rewrite Zplus_mod, Zmod_mod, <- Zplus_mod. Qed.
Lemma signed_agree q z a d : (q =? 104) = d_short d -> has z SIGN = true -> i32 (number_arg q z a) = signed (bits d) a.
Proof.
  intros Hq Hs. unfold number_arg, bits. rewrite Hs, Hq. destruct (Z.eqb_spec q 108) as [->|_]; [destruct (d_short d); [done|by rewrite signed_i32, i32_of_u32]|].
  destruct (d_short d); [|by rewrite signed_i32, i32_of_u32]. rewrite signed_wrap by lia. change (16 - 1) with 15. unfold i16, u16. rewrite (Zplus_mod (a `mod` _)), Zmod_mod, <- Zplus_mod.
  pose proof (Z.mod_pos_bound (a + 2 ^ 15) (2 ^ 16) ltac:(lia)). rewrite i32_range_u32 by lia. done.
Qed.

Lemma signed_field_agree d z q a : as_bits (d_flags d) z -> known (d_width d) -> (q =? 104) = d_short d -> number_covered d = true ->
  number_text (i32 (number_arg q (Z.lor z SIGN) a)) 10 (default (-1) (d_width d)) (default (-1) (d_precision d)) (Z.lor z SIGN) = signed_field d (signed (bits d) a).
Proof.
  intros (H1 & H2 & H3 & H4 & H5 & H6) Hw Hq Hc. assert (has (Z.lor z SIGN) SIGN = true) as Hs by (rewrite has_set; apply orb_true_r).
  rewrite (signed_agree q _ a d Hq Hs). set (x := signed (bits d) a).
  assert (magnitude x (Z.lor z SIGN) = Z.abs x) as Hm.
  { unfold magnitude. rewrite Hs. cbn [andb]. destruct (Z.ltb_spec x 0); [lia|]. assert (x < 2 ^ 32); [|rewrite u32_small; lia].
    unfold x, signed, unsigned, bits. destruct (d_short d); pose proof (Z.mod_pos_bound a (2 ^ 16)); pose proof (Z.mod_pos_bound a (2 ^ 32)); destruct (_ <? _); lia. }
  rewrite (number_agree d) by (rewrite ?has_set, ?Hm; cbn; rewrite ?orb_false_r; try done; lia).
  rewrite Hm, has_set, H6. unfold signed_field, number_sign. rewrite Hs, !has_set, H2, H3. cbn [orb]. change (has SIGN PLUS) with false. change (has SIGN SPACE) with false. by rewrite !orb_false_r.
Qed.
Lemma unsigned_field_agree d z q a base z' : as_bits (d_flags d) z -> known (d_width d) -> (q =? 104) = d_short d -> number_covered d = true -> (z' = z \/ z' = Z.lor z LARGE) ->
  number_text (i32 (number_arg q z' a)) base (default (-1) (d_width d)) (default (-1) (d_precision d)) z' =
    number_field d [] (numeral (if has z' LARGE then UpperCase else LowerCase) (text_base base) (unsigned (bits d) a)).
Proof.
  intros (H1 & H2 & H3 & H4 & H5 & H6) Hw Hq Hc Hz. assert (has z' LEFT = has z LEFT /\ has z' ZEROPAD = has z ZEROPAD /\ has z' SIGN = false) as (E1 & E2 & E3).
  { destruct Hz as [->| ->]; rewrite ?has_set, ?H5; cbn; rewrite ?orb_false_r; done. }
  destruct (unsigned_agree q z' a d Hq E3) as [Em Es]. assert (0 <= unsigned (bits d) a) as Hn by (unfold unsigned, bits; destruct (d_short d); apply Z.mod_pos_bound; lia).
  rewrite (number_agree d) by (rewrite ?E1, ?E2, ?Em; done). by rewrite Em, Es.
Qed.
Lemma pointer_field_agree d z a : as_bits (d_flags d) z -> known (d_width d) -> number_covered d = true ->
  number_text (i32 a) 16 (default (-1) (d_width d)) (default (-1) (d_precision d)) z = number_field d [] (numeral LowerCase 16 (unsigned 32 a)).
Proof.
  intros (H1 & H2 & H3 & H4 & H5 & H6) Hw Hc. assert (magnitude (i32 a) z = unsigned 32 a) as Em by (unfold magnitude; rewrite H5; cbn [andb]; apply i32_u32).
  rewrite (number_agree d) by (rewrite ?Em; first [done|apply Z.mod_pos_bound; lia]). rewrite Em, H6. unfold number_sign. by rewrite H5.
Qed.

Lemma with_argument_agree strs d z q a args t : as_bits (d_flags d) z -> known (d_width d) -> known (d_precision d) -> (q =? 104) = d_short d ->
  with_argument strs d a = Some t ->
  conversion_text strs (d_conversion d) z (default (-1) (d_width d)) (default (-1) (d_precision d)) q (a :: args) = Some (t, args).
Proof.
  intros Hf Hw Hp Hq. unfold with_argument, conversion_text, number_conversion. set (c := d_conversion d).
  destruct (Z.eqb_spec c 99) as [->|]; [intros [= <-]; by rewrite field_agree|].
  destruct (Z.eqb_spec c 115) as [->|].
  { destruct (text_covered d) eqn:Ec; [|done]. change null_text with NULL_text. destruct (if a =? 0 then Some NULL_text else strs a) as [x|]; [|done]. cbn [mbind option_bind]. intros [= <-]. rewrite field_agree by done.
    unfold text_covered in Ec. destruct (d_precision d) as [p|]; [|done]. cbn [default]. unfold id. by rewrite Ec. }
  destruct (number_covered d) eqn:Hc; [|done]. cbn [negb].
  destruct (Z.eqb_spec c 112) as [->|]; [|destruct (Z.eqb_spec c 37) as [->|]; [done|]].
  { cbn [Z.eqb Pos.eqb orb]. intros H. destruct (d_width d) as [w|] eqn:Ew, (d_precision d) as [p|] eqn:Ep; try done; injection H as <-.
    - pose proof (pointer_field_agree d z a Hf ltac:(by rewrite Ew) Hc) as E. rewrite Ew, Ep in E. cbn [default] in *. unfold id in *. rewrite (proj2 (Z.eqb_neq w (-1))) by (cbn in Hw; lia). by rewrite E.
    - cbn [default]. change (-1 =? -1) with true. cbv iota. set (wide := mkDirective _ _ _ _ _). pose proof (pointer_field_agree wide (Z.lor z ZEROPAD) a) as E. cbn [d_width d_precision wide default] in E. unfold id in E.
      rewrite E; [done| |done|].
      + apply (as_bits_add (d_flags d) z); [done|]. by right; right; right; right.
      + unfold number_covered in Hc |- *. rewrite Ep in Hc. exact Hc. }
  destruct (Z.eqb_spec c 100) as [->|]; [intros [= <-]; cbn [Z.eqb Pos.eqb orb]; by rewrite signed_field_agree|].
  destruct (Z.eqb_spec c 105) as [->|]; [intros [= <-]; cbn [Z.eqb Pos.eqb orb]; by rewrite signed_field_agree|]. cbn [orb].
  destruct (Z.eqb_spec c 117) as [->|]; [intros [= <-]; cbn [Z.eqb Pos.eqb orb]; rewrite (unsigned_field_agree d z) by (done || by left); destruct Hf as (_ & _ & _ & _ & _ & ->); done|].
  destruct (Z.eqb_spec c 120) as [->|]; [intros [= <-]; cbn [Z.eqb Pos.eqb orb]; rewrite (unsigned_field_agree d z) by (done || by left); destruct Hf as (_ & _ & _ & _ & _ & ->); done|].
  destruct (Z.eqb_spec c 88) as [->|]; [|done]. intros [= <-]. cbn [Z.eqb Pos.eqb orb]. rewrite (unsigned_field_agree d z) by (done || by right). rewrite has_set, orb_true_r. done.
Qed.
Lemma directive_text_agree strs d z q args r : as_bits (d_flags d) z -> known (d_width d) -> known (d_precision d) -> (q =? 104) = d_short d ->
  directive_text strs d args = Some r -> conversion_text strs (d_conversion d) z (default (-1) (d_width d)) (default (-1) (d_precision d)) q args = Some r.
Proof.
  intros Hf Hw Hp Hq. unfold directive_text. destruct (takes_argument (d_conversion d)) eqn:Et.
  - destruct args as [|a args]; [done|]. destruct (with_argument strs d a) as [t|] eqn:Ea; [|done]. cbn [mbind option_bind]. intros [= <-]. by apply with_argument_agree.
  - unfold takes_argument in Et. cbn [existsb] in Et. rewrite !orb_false_iff in Et. destruct Et as (E1 & E2 & E3 & E4 & E5 & E6 & E7 & E8 & E9 & _).
    unfold conversion_text, number_conversion. rewrite E1, E2, E3, E4, E5, E6, E7, E8, E9. cbn [orb]. destruct (d_conversion d =? 37); [done|]. cbn [orb]. by destruct (d_conversion d =? 0).
Qed.
Lemma read_flags_chars l : forall f, chars l -> chars (fst (read_flags l f)).
Proof.
  induction l as [|c l IH]; intros f Hl; [done|]. pose proof Hl as Hl0. inversion Hl0; subst. cbn [read_flags]. repeat (destruct (c =? _); [by apply IH|]). done.
Qed.
Lemma read_directive_agree l args r : chars l -> read_directive l args = Some r -> let '(l', args', d) := r in
  exists l0 z0 l1 z1 args1 l2 q l3, p_flags l 0 = (l0, z0) /\ p_width l0 z0 args = Some (l1, default (-1) (d_width d), z1, args1) /\
    p_precision l1 args1 = Some (l2, default (-1) (d_precision d), args') /\ p_qualifier l2 = (l3, q) /\ d_conversion d = first l3 /\ l' = tail l3 /\
    as_bits (d_flags d) z1 /\ known (d_width d) /\ known (d_precision d) /\ (q =? 104) = d_short d /\ chars l'.
Proof.
  intros Hl. unfold read_directive. destruct (read_flags_agree l no_flags 0) as (z0 & E0 & B0); [by split_and!|]. pose proof (read_flags_chars l no_flags Hl) as C0.
  destruct (read_flags l no_flags) as [l0 f0]. cbn [fst snd] in *. destruct (read_width l0 args f0) as [w|] eqn:Ew; [|done]. cbn [mbind option_bind].
  pose proof (read_width_agree l0 args f0 z0 w C0 B0 Ew) as Hw. destruct w as [[[l1 args1] f1] w]. destruct Hw as (z1 & Pw & B1 & C1 & K1).
  destruct (read_precision l1 args1) as [p|] eqn:Ep; [|done]. cbn [mbind option_bind]. pose proof (read_precision_agree l1 args1 p C1 Ep) as Hp.
  destruct p as [[l2 args2] p]. destruct Hp as (Pp & C2 & K2). destruct (read_qualifier_agree l2 C2) as (q & Pq & Hq & C3). destruct (read_qualifier l2) as [l3 h]. cbn [fst snd] in *.
  intros H. assert (r = (tail l3, args2, mkDirective f1 w p h (first l3))) as -> by (destruct l3; injection H as <-; done).
  exists l0, z0, l1, z1, args1, l2, q, l3. cbn [d_flags d_width d_precision d_short d_conversion]. split_and!; try done. destruct C3; by cbn.
Qed.
Lemma text_agree strs fuel : forall l args t, chars l -> text strs fuel l args = Some t -> render strs fuel l args = Some t.
Proof.
  induction fuel as [|fuel IH]; intros l args t Hl; [done|]. destruct l as [|c l]; [done|]. inversion Hl as [|? ? Hc Hl']; subst. cbn [text render].
  destruct (c =? 37); cbn [negb]; [|intros (x & E & ->)%fmap_Some; by rewrite (IH l args x)].
  destruct (read_directive l args) as [r|] eqn:Er; [|done]. cbn [mbind option_bind]. pose proof (read_directive_agree l args r Hl' Er) as H. destruct r as [[l' args'] d].
  destruct H as (l0 & z0 & l1 & z1 & args1 & l2 & q & l3 & -> & -> & H3 & H4 & Ec & El & B & K1 & K2 & Hq & C). cbn [mbind option_bind]. rewrite H3. cbn [mbind option_bind]. rewrite H4, <- Ec, <- El.
  destruct (directive_text strs d args') as [[x args2]|] eqn:Ed; [|done]. cbn [mbind option_bind]. rewrite (directive_text_agree strs d z1 q args' (x, args2)) by done. cbn [mbind option_bind].
  intros (y & E & ->)%fmap_Some. by rewrite (IH l' args2 y).
Qed.
Lemma c_text_agree strs l args t : chars_ok l -> c_text strs l args = Some t -> format_text strs l args = Some t.
Proof. intros Hl. apply text_agree. eapply Forall_impl; [exact Hl|]. cbn. lia. Qed.

(** C38: rt_vsnprintf prints the text C describes for its format ([c_text], which
    is independent of the routines).  Given a format, arguments and the strings
    they point to, none of which the buffer overlaps, it returns the length of the
    whole text and leaves in the buffer the first size - 1 characters of it and a
    NUL; it writes nothing outside, and nothing at all when the size is 0.  The
    formats are those of %c %s %d %i %u %x %X %p %% with the flags - + space 0, a
    width, a precision and the qualifiers h and l; where the routine differs from
    C there is no [c_text]: %o, the flag #, a precision of 0, and a precision
    together with the flag 0 or with %p. *)
Theorem rt_vsnprintf_correct m buf size fmt args l t strs :
  0 <= buf -> 0 <= size -> buf + size < 2 ^ 32 -> Z.of_nat (length t) < 2 ^ 31 -> buf + Z.of_nat (length t) < 2 ^ 32 ->
  mapped m buf (used_part size t) = true -> readable m buf size t fmt l ->
  (forall a s, strs a = Some s -> readable m buf size t a s /\ Z.of_nat (length s) < 2 ^ 31) -> c_text strs l args = Some t ->
  wp (rt_vsnprintf buf size fmt args) m (fun r m' => r = Z.of_nat (length t) /\ m' = write_bytes buf (printed size t) m).
Proof.
  intros H1 H2 H3 H4 H5 H6 H7 H8 Ht. apply (rt_vsnprintf_wp m buf size fmt args l t strs); try done. apply c_text_agree; [|done]. by destruct H7 as [[? _] _].
Qed.

Lemma rt_sprintf_wp m buf fmt args l t strs :
  0 <= buf -> Z.of_nat (length t) < 2 ^ 31 -> buf + Z.of_nat (length t) < 2 ^ 32 - 1 ->
  mapped m buf (S (length t)) = true -> readable m buf (2 ^ 32 - 1 - buf) t fmt l ->
  (forall a s, strs a = Some s -> readable m buf (2 ^ 32 - 1 - buf) t a s /\ Z.of_nat (length s) < 2 ^ 31) -> format_text strs l args = Some t ->
  wp (rt_sprintf buf fmt args) m (fun r m' => r = Z.of_nat (length t) /\ m' = write_bytes buf (t ++ [0]) m).
Proof.
  intros Hb Hl Hf Hm Hr Hstrs Ht. unfold rt_sprintf, rt_vsprintf, rt_vsnprintf. unfold mapped_bytes.
  assert ((if u32 (buf + (2 ^ 32 - 1)) <? buf then (2 ^ 32 - 1, 2 ^ 32 - 1 - buf) else (u32 (buf + (2 ^ 32 - 1)), 2 ^ 32 - 1)) = (buf + (2 ^ 32 - 1 - buf), 2 ^ 32 - 1 - buf)) as ->.
  { unfold u32. destruct (decide (buf = 0)) as [->|Hn]; [reflexivity|].
    rewrite <- (Z.mod_add _ (-1)), Z.mod_small by lia. rewrite (proj2 (Z.ltb_lt _ _)) by lia. f_equal; lia. }
  kstep. kstep. assert (printed (2 ^ 32 - 1 - buf) t = t ++ [0]) as <-.
  { unfold printed. rewrite (proj2 (Z.eqb_neq _ _)) by lia. by rewrite take_ge by lia. }
  apply (vsnprintf_end_wp _ _ _ _ _ l t strs); try done; try lia.
  - unfold used_part. by rewrite Nat.min_r by lia.
  - destruct Hr as [Hc _]. apply cstr_size in Hc. lia.
Qed.

(** Rt_sprintf prints the whole text, however long, and a NUL behind it,
    and returns its length; only the memory it writes has to exist. *)
Theorem rt_sprintf_correct m buf fmt args l t strs :
  0 <= buf -> Z.of_nat (length t) < 2 ^ 31 -> buf + Z.of_nat (length t) < 2 ^ 32 - 1 ->
  mapped m buf (S (length t)) = true -> readable m buf (2 ^ 32 - 1 - buf) t fmt l ->
  (forall a s, strs a = Some s -> readable m buf (2 ^ 32 - 1 - buf) t a s /\ Z.of_nat (length s) < 2 ^ 31) -> format_text strs l args = Some t ->
  wp (rt_sprintf buf fmt args) m (fun r m' => r = Z.of_nat (length t) /\ m' = write_bytes buf (t ++ [0]) m).
Proof. apply rt_sprintf_wp. Qed.

(** ** Numbers read back *)

(** The value of digits in base [b], and of a decimal number with its sign. *)
Definition digit_value (c : Z) : Z := if c <? 58 then c - 48 else if c <? 71 then c - 55 else c - 87.
Definition num_value (b : Z) (l : list Z) : Z := fold_left (fun v c => v * b + digit_value c) l 0.
Definition int_value (l : list Z) : Z :=
  match l with c :: l' => if c =? 45 then - num_value 10 l' else num_value 10 l | [] => 0 end.

Lemma digit_value_char large d : 0 <= d < 16 -> digit_value (digit_char large d) = d.
Proof.
  intros Hd. unfold digit_value, digit_char. destruct (Z.ltb_spec d 10) as [H|H]; [rewrite (proj2 (Z.ltb_lt _ _)) by lia; lia|].
  destruct large; [rewrite (proj2 (Z.ltb_ge _ 58)), (proj2 (Z.ltb_lt _ 71)) by lia; lia|rewrite (proj2 (Z.ltb_ge _ 58)), (proj2 (Z.ltb_ge _ 71)) by lia; lia].
Qed.
Lemma to_digits_value large b fuel : 2 <= b <= 16 -> forall n, 0 <= n < b ^ Z.of_nat fuel -> num_value b (digit_char large <$> to_digits fuel b n) = n.
Proof.
  intros Hb. induction fuel as [|fuel IH]; intros n Hn; [cbn in *; lia|]. cbn [to_digits]. destruct (Z.eqb_spec n 0) as [->|Hz]; [done|].
  rewrite Nat2Z.inj_succ, Z.pow_succ_r in Hn by lia. pose proof (Z.mod_pos_bound n b ltac:(lia)) as Hm.
  rewrite fmap_app. unfold num_value in *. rewrite fold_left_app. cbn [fmap list_fmap fold_left]. rewrite IH, digit_value_char by (try split; try apply Z.div_pos; try apply Z.div_lt_upper_bound; lia).
  pose proof (Z.div_mod n b ltac:(lia)). lia.
Qed.
Lemma number_digits_value large base n : 0 <= n < 2 ^ 32 -> num_value (text_base base) (number_digits large base n) = n.
Proof.
  intros Hn. unfold number_digits. destruct (Z.eqb_spec n 0) as [->|Hz]; [done|]. destruct (text_base_cases base) as [E|E]; rewrite E; apply to_digits_value; lia.
Qed.
Lemma number_digits_length large base n : 0 <= n < 2 ^ 32 -> (length (number_digits large base n) <= 10)%nat.
Proof.
  intros Hn. unfold number_digits. destruct (n =? 0); [cbn; lia|]. rewrite length_fmap. apply to_digits_length; [destruct (text_base_cases base) as [-> | ->]; lia|].
  change (10 ^ Z.of_nat 10) with 10000000000. lia.
Qed.
(** No flags, no width, no precision. *)
Lemma number_text_plain num base type : - 2 ^ 31 <= num < 2 ^ 31 -> has type LEFT = false -> has type ZEROPAD = false -> (length (number_sign num type) <= 1)%nat ->
  number_text num base (-1) (-1) type = number_sign num type ++ number_digits (has type LARGE) base (magnitude num type).
Proof.
  intros Hn E1 E2 Hl. unfold number_text. rewrite E1, E2. change (-1 =? 0) with false. unfold blanks, zeros. by rewrite !replicate_none by lia.
Qed.
Lemma int_value_digits large base n : 0 <= n < 2 ^ 32 -> int_value (number_digits large base n) = num_value 10 (number_digits large base n).
Proof.
  intros Hn. assert (Forall (fun c => 48 <= c) (number_digits large base n)) as HF.
  { unfold number_digits. destruct (n =? 0); [constructor; [lia|constructor]|]. apply Forall_fmap. eapply Forall_impl; [apply (to_digits_range (text_base base))|].
    - destruct (text_base_cases base); lia.
    - lia.
    - intros d Hd. cbv beta in Hd. unfold compose, digit_char. destruct (Z.ltb_spec d 10); [lia|]. destruct large; lia. }
  destruct (number_digits large base n) as [|c l]; [done|]. inversion HF; subst. cbn [int_value]. by rewrite (proj2 (Z.eqb_neq c 45)) by lia.
Qed.

(** The number a conversion prints, and what the printed text reads as. *)
Definition converted (c a : Z) : Z := if (c =? ch "d") || (c =? ch "i") then i32 a else u32 a.
Definition reads_as (c : Z) (t : list Z) : Z :=
  if (c =? ch "d") || (c =? ch "i") then int_value t else if c =? ch "u" then num_value 10 t else num_value 16 t.

Lemma plain_number_text strs c a : c ∈ [ch "d"; ch "i"; ch "u"; ch "x"; ch "X"] ->
  exists t, format_text strs [ch "%"; c] [a] = Some t /\ (length t <= 11)%nat /\ reads_as c t = converted c a.
Proof.
  intros Hc. pose proof (i32_range (u32 a)) as Hr. pose proof (u32_range a) as Hu. assert (i32 (u32 a) = i32 a) as Ei by (unfold i32, u32; rewrite Zplus_mod, Zmod_mod, <- Zplus_mod; done).
  assert (forall type, has type SIGN = false -> number_sign (i32 (u32 a)) type = [] /\ magnitude (i32 (u32 a)) type = u32 a) as Hplain.
  { intros type E. unfold number_sign, magnitude. rewrite E. cbn [andb]. split; [done|]. rewrite i32_u32. by apply u32_small. }
  assert (exists base type, format_text strs [37; c] [a] = Some (number_text (i32 (u32 a)) base (-1) (-1) type ++ []) /\ has type LEFT = false /\ has type ZEROPAD = false /\
    ((reads_as c = int_value /\ converted c a = i32 a /\ base = 10 /\ type = SIGN) \/ (reads_as c = num_value (text_base base) /\ converted c a = u32 a /\ has type SIGN = false))) as (base & type & -> & E1 & E2 & Hcase).
  { rewrite !elem_of_cons, elem_of_nil in Hc. destruct_or! Hc; subst; try done; (eexists _, _; split; [reflexivity|]; split; [reflexivity|]; split; [reflexivity|]); [left|left|right|right|right]; done. }
  rewrite app_nil_r. assert (length (number_sign (i32 (u32 a)) type) <= 1)%nat as Hl by (unfold number_sign; repeat case_match; cbn; lia).
  rewrite number_text_plain by done. eexists. split; [done|]. destruct Hcase as [(-> & -> & -> & ->)|(-> & -> & Es)].
  - rewrite Ei. unfold number_sign, magnitude. change (has SIGN SIGN) with true. change (has SIGN PLUS) with false. change (has SIGN SPACE) with false. cbn [andb]. rewrite Ei in Hr.
    destruct (Z.ltb_spec (i32 a) 0) as [Hz|Hz].
    + split; [rewrite length_app; cbn [length]; pose proof (number_digits_length (has SIGN LARGE) 10 (- i32 a)); lia|]. cbn [app int_value]. rewrite Z.eqb_refl.
      change 10 with (text_base 10) at 1. rewrite number_digits_value by lia. lia.
    + rewrite u32_small by lia. cbn [app]. split; [pose proof (number_digits_length (has SIGN LARGE) 10 (i32 a)); lia|]. rewrite int_value_digits by lia.
      change 10 with (text_base 10) at 1. by rewrite number_digits_value by lia.
  - destruct (Hplain type Es) as [-> ->]. cbn [app]. split; [pose proof (number_digits_length (has type LARGE) base (u32 a)); lia|]. by rewrite number_digits_value by lia.
Qed.

(** Printed numbers read back.  For %d, %i, %u, %x and %X without flags,
    rt_sprintf writes into a buffer of 12 bytes, which is always enough, a text
    that reads as the argument: with its sign for %d and %i, in base 16 for %x
    and %X. *)
Theorem printed_number_reads_back m buf fmt c a :
  c ∈ [ch "d"; ch "i"; ch "u"; ch "x"; ch "X"] -> 0 <= buf -> buf + 12 < 2 ^ 32 -> mapped m buf 12 = true ->
  cstr m fmt [ch "%"; c] -> fmt + 3 <= buf \/ buf + 12 <= fmt ->
  wp (rt_sprintf buf fmt [a]) m (fun r m' => exists t, r = Z.of_nat (length t) /\ r <= 11 /\ m' = write_bytes buf (t ++ [0]) m /\ reads_as c t = converted c a).
Proof.
  intros Hc Hb Hb2 Hm Hf Hd. destruct (plain_number_text (fun _ => None) c a Hc) as (t & Et & Hl & Hv).
  eapply wp_mono; [apply (rt_sprintf_wp _ _ _ _ [37; c] t (fun _ => None)); try done; try lia|].
  - apply (mapped_sub m buf 12 0 (S (length t))) in Hm; [|lia]. by rewrite Z.add_0_r in Hm.
  - split; [done|]. intros i Hi. cbn [length] in Hi. lia.
  - intros r m' [-> ->]. exists t. split_and!; [done|lia|done|done].
Qed.

(** ** What C would print differently *)

Lemma digits_loop_octal fuel : forall digits num tmp m, digits_loop fuel digits num 8 tmp m = digits_loop fuel digits num 16 tmp m.
Proof.
  induction fuel as [|fuel IH]; intros digits num tmp m; [done|]. cbn [digits_loop]. destruct (num =? 0); [done|]. unfold divide. cbn [Z.eqb Pos.eqb].
  unfold bind, deref, valid. destruct (digits !! _); [|done]. destruct (length tmp <? 16)%nat; [apply IH|done].
Qed.

(** %o prints the number in base 16: divide knows bases 10 and 16 only. *)
Theorem print_octal_is_hex str end_ num s precision type m :
  print_number str end_ num 8 s precision type m = print_number str end_ num 16 s precision type m.
Proof.
  rewrite !print_number_out. destruct (sign_of num (pads type)) as [sign num']. unfold bind at 1 4. destruct (num' =? 0); [done|]. by rewrite digits_loop_octal.
Qed.

(** With a precision of 0 no number is printed, only its sign; C leaves out the
    digits of 0 alone. *)
Theorem zero_precision_prints_nothing m buf fmt a :
  0 <= buf -> buf + 2 < 2 ^ 32 -> mapped m buf 2 = true -> cstr m fmt [ch "%"; ch "."; ch "0"; ch "d"] -> fmt + 5 <= buf \/ buf + 2 <= fmt ->
  wp (rt_sprintf buf fmt [a]) m (fun r m' => m' = write_bytes buf ((if i32 a <? 0 then [ch "-"] else []) ++ [0]) m).
Proof.
  intros Hb Hb2 Hm Hf Hd. set (t := if i32 a <? 0 then [45] else []). assert (length t <= 1)%nat as Hl by (unfold t; destruct (_ <? _); cbn; lia).
  assert (i32 (u32 a) = i32 a) as Ei by (unfold i32, u32; rewrite Zplus_mod, Zmod_mod, <- Zplus_mod; done).
  assert (format_text (fun _ => None) [37; 46; 48; 100] [a] = Some t) as Et.
  { transitivity (Some (number_text (i32 (u32 a)) 10 (-1) 0 SIGN ++ [])); [reflexivity|]. rewrite app_nil_r, Ei. f_equal. unfold number_text, blanks, zeros.
    change (has SIGN LEFT) with false. change (has SIGN ZEROPAD) with false. cbn [Z.eqb]. rewrite replicate_none by lia. rewrite app_nil_r. done. }
  eapply wp_mono; [apply (rt_sprintf_wp _ _ _ _ [37; 46; 48; 100] t (fun _ => None)); try done; try lia|].
  - apply (mapped_sub m buf 2 0 (S (length t))) in Hm; [|lia]. by rewrite Z.add_0_r in Hm.
  - split; [done|]. intros i Hi. cbn [length] in Hi. lia.
  - by intros r m' [_ ->].
Qed.

(** ** Witnesses *)

(** "a%dz" at 100, "%d" at 200, a buffer of 12 bytes at 1000. *)
Definition sample_print : mem := write_bytes 100 [97; 37; 100; 122; 0] (write_bytes 200 [37; 100; 0] (write_bytes 300 [37; 46; 48; 100; 0] (write_bytes 1000 (replicate 12 0) ∅))).
Lemma sample_format1 : cstr sample_print 100 [97; 37; 100; 122].
Proof. split; [repeat constructor; lia|reflexivity]. Qed.
Lemma sample_format2 : cstr sample_print 200 [37; 100].
Proof. split; [repeat constructor; lia|reflexivity]. Qed.
Lemma sample_format3 : cstr sample_print 300 [37; 46; 48; 100].
Proof. split; [repeat constructor; lia|reflexivity]. Qed.

(** In a buffer of 3 bytes "a-5z" is "a-" and the NUL; the length returned is 4. *)
Lemma rt_vsnprintf_correct_witness :
  wp (rt_vsnprintf 1000 3 100 [2 ^ 32 - 5]) sample_print (fun r m' => r = 4 /\ m' = write_bytes 1000 [97; 45; 0] sample_print).
Proof.
  refine (rt_vsnprintf_correct sample_print 1000 3 100 [2 ^ 32 - 5] [97; 37; 100; 122] [97; 45; 53; 122] (fun _ => None) _ _ _ _ _ _ _ _ _).
  all: try lia; try reflexivity; try done.
  split; [exact sample_format1|]. intros i Hi. cbn in Hi |- *. lia.
Defined.
Lemma rt_sprintf_correct_witness :
  wp (rt_sprintf 1000 100 [2 ^ 32 - 5]) sample_print (fun r m' => r = 4 /\ m' = write_bytes 1000 [97; 45; 53; 122; 0] sample_print).
Proof.
  refine (rt_sprintf_correct sample_print 1000 100 [2 ^ 32 - 5] [97; 37; 100; 122] [97; 45; 53; 122] (fun _ => None) _ _ _ _ _ _ _).
  all: try (cbn; lia); try reflexivity; try done.
  split; [exact sample_format1|]. intros i Hi. cbn in Hi |- *. lia.
Defined.
Lemma printed_number_reads_back_witness :
  wp (rt_sprintf 1000 200 [2 ^ 31]) sample_print (fun r m' => exists t, r = Z.of_nat (length t) /\ r <= 11 /\ m' = write_bytes 1000 (t ++ [0]) sample_print /\ reads_as 100 t = - 2 ^ 31).
Proof. exact (printed_number_reads_back sample_print 1000 200 100 (2 ^ 31) ltac:(left) ltac:(lia) ltac:(lia) eq_refl sample_format2 ltac:(lia)). Defined.
Lemma zero_precision_prints_nothing_witness : wp (rt_sprintf 1000 300 [5]) sample_print (fun r m' => m' = write_bytes 1000 [0] sample_print).
Proof. exact (zero_precision_prints_nothing sample_print 1000 300 5 ltac:(lia) ltac:(lia) eq_refl sample_format3 ltac:(lia)). Defined.
(** With a precision of 0 the whole string is printed; in C a precision is the most that is
    printed of a string. *)
Example zero_precision_keeps_string :
  wp (rt_sprintf 1000 300 [200]) (write_bytes 300 [37; 46; 48; 115; 0] (write_bytes 200 [97; 98; 0] sample_print)) (fun r m' => r = 2 /\ m' !! 1000 = Some 97 /\ m' !! 1001 = Some 98 /\ m' !! 1002 = Some 0).
Proof. vm_compute. auto. Qed.
