(* ===== verification/Calendar.v ===== *)
(** * The calendar (components/libc/compilers/common/time.c)

    gmtime_r turns seconds since 1970 into a date and mktime turns a date into
    seconds.  Both are measured against a calendar that counts the days of the
    years and months one by one.  time_t is a type of the C library: a parameter,
    of which the theorems use that small values fit. *)

From Stdlib Require Import String.
From S2P Require Import Prelude Kservice Str.

(** struct tm; tm_isdst is neither read nor written. *)
Record tm := mkTm { tm_sec : Z; tm_min : Z; tm_hour : Z; tm_mday : Z; tm_mon : Z; tm_year : Z; tm_wday : Z; tm_yday : Z }.

Definition __spm : list Z :=
  [0; 31; 31 + 28; 31 + 28 + 31; 31 + 28 + 31 + 30; 31 + 28 + 31 + 30 + 31; 31 + 28 + 31 + 30 + 31 + 30;
   31 + 28 + 31 + 30 + 31 + 30 + 31; 31 + 28 + 31 + 30 + 31 + 30 + 31 + 31; 31 + 28 + 31 + 30 + 31 + 30 + 31 + 31 + 30;
   31 + 28 + 31 + 30 + 31 + 30 + 31 + 31 + 30 + 31; 31 + 28 + 31 + 30 + 31 + 30 + 31 + 31 + 30 + 31 + 30;
   31 + 28 + 31 + 30 + 31 + 30 + 31 + 31 + 30 + 31 + 30 + 31].
(** [__spm[i]] *)
Definition spm {S} (i : Z) : M S Z := deref (fun _ => if i <? 0 then None else __spm !! Z.to_nat i).

Definition SPD : Z := 24 * 60 * 60.

Definition __isleap (year : Z) : bool := (Z.rem year 4 =? 0) && (negb (Z.rem year 100 =? 0) || (Z.rem year 400 =? 0)).

Section time.
Context {S : Type} (time_t : Z -> Z).
Notation T A := (M S A).

(** The year [i] and the day of the year that are left of [work] days from the
    first of January of year [i]. *)
Fixpoint year_loop (fuel : nat) (i work : Z) : T (Z * Z) :=
  match fuel with
  | O => nofuel
  | Datatypes.S fuel =>
      let k := if __isleap (i32 i) then 366 else 365 in
      if k <=? work then year_loop fuel (time_t (i + 1)) (time_t (work - k)) else ret (i, work)
  end.
Fixpoint month_loop (i : nat) (work : Z) : T Z :=
  match i with
  | O => ret 0
  | Datatypes.S j => d <- spm (Z.of_nat i) ;; if work <? d then month_loop j work else ret (Z.of_nat i)
  end.

Definition gmtime_r (timep : Z) : T tm :=
  let work := time_t (Z.rem timep SPD) in
  let sec := i32 (Z.rem work 60) in
  let work := time_t (Z.quot work 60) in
  let min := i32 (Z.rem work 60) in
  let hour := i32 (Z.quot work 60) in
  let work := time_t (Z.quot timep SPD) in
  let wday := i32 (Z.rem (time_t (4 + work)) 7) in
  '(i, work) <- year_loop (Datatypes.S (Z.to_nat (work / 365))) 1970 work ;;
  let year := i32 (i - 1900) in
  let yday := i32 work in
  let '(mday, work) :=
    if __isleap (i32 i) && (58 <? work) then ((if work =? 59 then 2 else 1), time_t (work - 1)) else (1, work) in
  mon <- month_loop 11 work ;;
  d <- spm mon ;;
  ret (mkTm sec min hour (i32 (mday + (work - d))) mon year wday yday).

(** The whole months of [mday], as mktime takes them off; [fuel] bounds the
    rounds. *)
Fixpoint mday_loop (fuel : nat) (mday mon year : Z) : T (Z * Z * Z) :=
  d <- spm (1 + mon) ;;
  if mday <=? d then ret (mday, mon, year)
  else
    match fuel with
    | O => nofuel
    | Datatypes.S fuel =>
        let mday := if (mon =? 1) && __isleap (i32 (year + 1900)) then i32 (mday - 1) else mday in
        d <- spm mon ;;
        let mday := i32 (mday - d) in
        let mon := mon + 1 in
        if 11 <? mon then mday_loop fuel mday 0 (i32 (year + 1)) else mday_loop fuel mday mon year
    end.

(** Leap days that are none, in the years from 2100 to the year 1970 + [years]. *)
Definition century_days (years : Z) : Z :=
  if 131 <=? years then
    let years := Z.quot (years - 131) 100 in
    let days := Z.shiftr years 2 * 3 + 1 in
    let years := Z.land years 3 in
    days + (if years =? 3 then years - 1 else years)
  else 0.

Definition mktime (t : tm) : T (Z * tm) :=
  let years := time_t (tm_year t - 70) in
  let '(min, sec) := if 60 <? tm_sec t then (i32 (tm_min t + Z.quot (tm_sec t) 60), Z.rem (tm_sec t) 60) else (tm_min t, tm_sec t) in
  let '(hour, min) := if 60 <? min then (i32 (tm_hour t + Z.quot min 60), Z.rem min 60) else (tm_hour t, min) in
  let '(mday, hour) := if 24 <? hour then (i32 (tm_mday t + Z.quot hour 24), Z.rem hour 24) else (tm_mday t, hour) in
  let '(year, mon) := if 12 <? tm_mon t then (i32 (tm_year t + Z.quot (tm_mon t) 12), Z.rem (tm_mon t) 12) else (tm_year t, tm_mon t) in
  '(mday, mon, year) <- mday_loop (Z.to_nat mday + 12) mday mon year ;;
  if year <? 70 then ret (time_t (-1), mkTm sec min hour mday mon year (tm_wday t) (tm_yday t))
  else
    let day := time_t (years * 365 + Z.quot (years + 1) 4) in
    let day := time_t (day - century_days years) in
    d <- spm mon ;;
    let yday := d + mday - 1 + (if __isleap (i32 (year + 1900)) && (1 <? mon) then 1 else 0) in
    let day := time_t (day + yday) in
    let wday := i32 (Z.rem (time_t (day + 4)) 7) in
    let day := time_t (day * 24) in
    ret (time_t (((day + hour) * 60 + min) * 60 + sec), mkTm sec min hour mday mon year wday yday).
End time.

(** ** asctime *)

Definition codes (x : string) : list Z := (fun c => Z.of_nat (Ascii.nat_of_ascii c)) <$> list_ascii_of_string x.
Definition days : list Z := cstring (codes "Sun Mon Tue Wed Thu Fri Sat ").
Definition months : list Z := cstring (codes "Jan Feb Mar Apr May Jun Jul Aug Sep Oct Nov Dec ").
(** [*(int* )(tab + i)] *)
Definition table_word (tab : list Z) (i : Z) : B Z :=
  deref (fun _ => if (i <? 0) || (Z.of_nat (List.length tab) <? i + 4) then None else Some (le_value (take 4 (drop (Z.to_nat i) tab)))).

Definition num2str (c i : Z) : B unit :=
  store 1 c (u8 (Z.quot i 10 + 48)) ;;
  store 1 (c + 1) (u8 (Z.rem i 10 + 48)).

Definition asctime_r (t : tm) (buf : Z) : B Z :=
  w <- table_word days (Z.shiftl (tm_wday t) 2) ;;
  store 4 buf w ;;
  w <- table_word months (Z.shiftl (tm_mon t) 2) ;;
  store 4 (buf + 4) w ;;
  num2str (buf + 8) (tm_mday t) ;;
  c <- load 1 (buf + 8) ;;
  when (c =? 48) (store 1 (buf + 8) 32) ;;
  store 1 (buf + 10) 32 ;;
  num2str (buf + 11) (tm_hour t) ;;
  store 1 (buf + 13) 58 ;;
  num2str (buf + 14) (tm_min t) ;;
  store 1 (buf + 16) 58 ;;
  num2str (buf + 17) (tm_sec t) ;;
  store 1 (buf + 19) 32 ;;
  num2str (buf + 20) (Z.quot (tm_year t + 1900) 100) ;;
  num2str (buf + 22) (Z.rem (tm_year t + 1900) 100) ;;
  store 1 (buf + 24) 10 ;;
  ret buf.

(** [asctime_buf]: the address of the static buffer of 25 bytes. *)
Definition asctime (asctime_buf : Z) (timeptr : tm) : B Z := asctime_r timeptr asctime_buf.
Definition localtime_r {S} (time_t : Z -> Z) (t : Z) : M S tm := gmtime_r time_t t.
Definition ctime (time_t : Z -> Z) (asctime_buf timep : Z) : B Z := t <- localtime_r time_t timep ;; asctime asctime_buf t.

(** ** The calendar the routines are measured against

    Years are counted from 1970 as natural numbers, months and days as in struct
    tm. *)

Definition leap_year (y : Z) : bool := (y `mod` 4 =? 0) && (negb (y `mod` 100 =? 0) || (y `mod` 400 =? 0)).
Definition year_days (y : Z) : Z := if leap_year y then 366 else 365.
Definition month_days (y : Z) : list Z := [31; if leap_year y then 29 else 28; 31; 30; 31; 30; 31; 31; 30; 31; 30; 31].
Fixpoint days_before_year (n : nat) : Z :=
  match n with O => 0 | Datatypes.S n => days_before_year n + year_days (1970 + Z.of_nat n) end.
Definition days_before_month (y m : Z) : Z := foldr Z.add 0 (take (Z.to_nat m) (month_days y)).

Definition year_of (t : tm) : Z := tm_year t + 1900.
Definition day_number (t : tm) : Z := days_before_year (Z.to_nat (tm_year t - 70)) + days_before_month (year_of t) (tm_mon t) + tm_mday t - 1.
Definition seconds_of (t : tm) : Z := day_number t * 86400 + tm_hour t * 3600 + tm_min t * 60 + tm_sec t.

Record valid_tm (t : tm) : Prop := {
  vt_sec : 0 <= tm_sec t < 60;
  vt_min : 0 <= tm_min t < 60;
  vt_hour : 0 <= tm_hour t < 24;
  vt_mday : 1 <= tm_mday t <= nth (Z.to_nat (tm_mon t)) (month_days (year_of t)) 0;
  vt_mon : 0 <= tm_mon t < 12;
  vt_year : 70 <= tm_year t
}.
(** The day of the week (0 is Sunday; 1970 began on a Thursday) and of the year. *)
Definition dated (t : tm) : Prop :=
  tm_wday t = (4 + day_number t) `mod` 7 /\ tm_yday t = days_before_month (year_of t) (tm_mon t) + tm_mday t - 1.

Lemma isleap_spec y : 0 <= y -> __isleap y = leap_year y.
Proof. intros. unfold __isleap, leap_year. by rewrite !Z.rem_mod_nonneg by lia. Qed.
Lemma year_days_bounds y : 365 <= year_days y <= 366.
Proof. unfold year_days. destruct leap_year; lia. Qed.
Lemma days_before_year_low n : 365 * Z.of_nat n <= days_before_year n.
Proof. induction n as [|n IH]; [done|]. cbn [days_before_year]. pose proof (year_days_bounds (1970 + Z.of_nat n)). lia. Qed.
Lemma days_before_year_mono m n : (m < n)%nat -> days_before_year m + year_days (1970 + Z.of_nat m) <= days_before_year n.
Proof.
  induction n as [|n IH]; [lia|]. intros Hn. cbn [days_before_year]. pose proof (year_days_bounds (1970 + Z.of_nat n)). destruct (decide (m = n)) as [->|]; [lia|]. specialize (IH ltac:(lia)). lia.
Qed.

(** Case analysis on a month, and on whether the year is a leap year. *)
Ltac month_cases m :=
  let H := fresh in
  assert (m = 0 \/ m = 1 \/ m = 2 \/ m = 3 \/ m = 4 \/ m = 5 \/ m = 6 \/ m = 7 \/ m = 8 \/ m = 9 \/ m = 10 \/ m = 11) as H by lia;
  repeat destruct H as [H|H]; subst.

Lemma month_room y m : 0 <= m < 12 -> days_before_month y m + nth (Z.to_nat m) (month_days y) 0 <= year_days y /\ 0 <= days_before_month y m /\ nth (Z.to_nat m) (month_days y) 0 <= 31.
Proof. intros Hm. unfold days_before_month, month_days, year_days. month_cases m; destruct (leap_year y); split_and!; by vm_compute. Qed.
(** The table and the months of the calendar. *)
Lemma spm_spec y m : 0 <= m < 12 -> exists d, __spm !! Z.to_nat m = Some d /\ days_before_month y m = d + (if leap_year y && (1 <? m) then 1 else 0).
Proof. intros Hm. unfold days_before_month, month_days. month_cases m; destruct (leap_year y); eexists; (split; [reflexivity|]); reflexivity. Qed.
Lemma wp_spm {S} i d (s : S) (Q : Z -> S -> Prop) : 0 <= i -> __spm !! Z.to_nat i = Some d -> Q d s -> wp (spm i) s Q.
Proof. intros Hi E HQ. apply (wp_deref _ d); [|done]. by rewrite (proj2 (Z.ltb_ge i 0)) by lia. Qed.

(** A date is determined by its seconds. *)
Lemma day_number_year t : valid_tm t -> let n := Z.to_nat (tm_year t - 70) in days_before_year n <= day_number t < days_before_year n + year_days (1970 + Z.of_nat n).
Proof.
  intros [_ _ _ Hd Hm Hy] n. unfold day_number. fold n. pose proof (month_room (year_of t) (tm_mon t) Hm) as (A & B & _). replace (1970 + Z.of_nat n) with (year_of t) by (unfold year_of, n; lia). lia.
Qed.
Lemma month_unique y m1 m2 d1 d2 : 0 <= m1 < 12 -> 0 <= m2 < 12 -> 1 <= d1 <= nth (Z.to_nat m1) (month_days y) 0 -> 1 <= d2 <= nth (Z.to_nat m2) (month_days y) 0 ->
  days_before_month y m1 + d1 = days_before_month y m2 + d2 -> m1 = m2 /\ d1 = d2.
Proof.
  intros H1 H2 B1 B2 E. assert (forall a b, 0 <= a -> a < b < 12 -> days_before_month y a + nth (Z.to_nat a) (month_days y) 0 <= days_before_month y b) as Hmono.
  { clear. intros a b Ha Hb. unfold days_before_month, month_days. month_cases a; destruct (leap_year y); month_cases b; first [lia|by vm_compute]. }
  destruct (Z.lt_trichotomy m1 m2) as [H|[->|H]]; [specialize (Hmono m1 m2); lia|lia|specialize (Hmono m2 m1); lia].
Qed.
Lemma seconds_unique t1 t2 : valid_tm t1 -> valid_tm t2 -> seconds_of t1 = seconds_of t2 ->
  tm_sec t1 = tm_sec t2 /\ tm_min t1 = tm_min t2 /\ tm_hour t1 = tm_hour t2 /\ tm_mday t1 = tm_mday t2 /\ tm_mon t1 = tm_mon t2 /\ tm_year t1 = tm_year t2.
Proof.
  intros V1 V2 E. pose proof (day_number_year t1 V1) as D1. pose proof (day_number_year t2 V2) as D2. cbv zeta in D1, D2. destruct V1 as [S1 M1 H1 B1 C1 Y1], V2 as [S2 M2 H2 B2 C2 Y2]. unfold seconds_of in E.
  assert (day_number t1 = day_number t2 /\ tm_hour t1 = tm_hour t2 /\ tm_min t1 = tm_min t2 /\ tm_sec t1 = tm_sec t2) as (Ed & -> & -> & ->) by lia.
  assert (tm_year t1 = tm_year t2) as Ey.
  { destruct (Nat.lt_trichotomy (Z.to_nat (tm_year t1 - 70)) (Z.to_nat (tm_year t2 - 70))) as [H|[H|H]]; [|lia|]; pose proof (days_before_year_mono _ _ H); lia. }
  unfold day_number, year_of in *. rewrite Ey in *. destruct (month_unique (tm_year t2 + 1900) (tm_mon t1) (tm_mon t2) (tm_mday t1) (tm_mday t2)) as [-> ->]; try done. lia.
Qed.

Section correct.
Context {S : Type} (time_t : Z -> Z) (time_max : Z).
Context (time_max_low : 2 ^ 31 <= time_max) (time_max_high : time_max <= 2 ^ 55) (time_t_fits : forall x, 0 <= x < time_max -> time_t x = x).
Implicit Types s : S.

(** ** gmtime_r *)

Lemma year_loop_wp days fuel n work s : days * 86400 < time_max -> days_before_year n + work = days -> 0 <= work -> work / 365 < Z.of_nat fuel ->
  wp (year_loop time_t fuel (1970 + Z.of_nat n) work) s (fun r s' => s' = s /\ exists m, fst r = 1970 + Z.of_nat m /\ days_before_year m + snd r = days /\ 0 <= snd r < year_days (fst r)).
Proof using time_max_low time_max_high time_t_fits.
  intros Hd. revert n work. induction fuel as [|fuel IH]; intros n work E Hw Hf; [Z.div_mod_to_equations; lia|]. pose proof (days_before_year_low n) as Hn. cbn [year_loop]. cbv zeta.
  rewrite (i32_small (1970 + Z.of_nat n)), isleap_spec by lia. fold (year_days (1970 + Z.of_nat n)). pose proof (year_days_bounds (1970 + Z.of_nat n)) as Hy. destruct (Z.leb_spec (year_days (1970 + Z.of_nat n)) work) as [H|H].
  - rewrite !time_t_fits by lia. replace (1970 + Z.of_nat n + 1) with (1970 + Z.of_nat (Datatypes.S n)) by lia. apply IH; [cbn [days_before_year]; lia|lia|].
    assert ((work - year_days (1970 + Z.of_nat n)) / 365 <= work / 365 - 1); [|lia]. replace (work / 365 - 1) with ((work - 365) / 365) by (Z.div_mod_to_equations; lia). apply Z.div_le_mono; lia.
  - kstep. split; [done|]. exists n. cbn [fst snd]. split_and!; [done|lia|lia|lia].
Qed.

(** The month of a day of a year without a leap day. *)
Lemma month_loop_wp work s : 0 <= work < 365 ->
  wp (month_loop 11 work) s (fun mon s' => s' = s /\ 0 <= mon < 12 /\ exists d d', __spm !! Z.to_nat mon = Some d /\ __spm !! Z.to_nat (mon + 1) = Some d' /\ d <= work < d').
Proof using.
  intros Hw. assert (forall j, (j < 12)%nat -> (forall d', __spm !! Datatypes.S j = Some d' -> work < d') ->
    wp (month_loop j work) s (fun mon s' => s' = s /\ 0 <= mon < 12 /\ exists d d', __spm !! Z.to_nat mon = Some d /\ __spm !! Z.to_nat (mon + 1) = Some d' /\ d <= work < d')) as H.
  { induction j as [|j IH]; intros Hj Hlt; cbn [month_loop].
    - kstep. split_and!; [done|lia|lia|]. exists 0, 31. split_and!; [done|done|lia|by apply Hlt].
    - destruct (lookup_lt_is_Some_2 __spm (Datatypes.S j)) as [d Ed]; [cbn; lia|]. destruct (lookup_lt_is_Some_2 __spm (Datatypes.S (Datatypes.S j))) as [d' Ed']; [cbn; lia|].
      kstep. apply (wp_spm _ d); [lia|by rewrite Nat2Z.id|]. destruct (Z.ltb_spec work d) as [H|H].
      + apply IH; [lia|]. intros x Ex. congruence.
      + kstep. split_and!; [done|lia|lia|]. exists d, d'. rewrite Nat2Z.id. replace (Z.to_nat (Z.of_nat (Datatypes.S j) + 1)) with (Datatypes.S (Datatypes.S j)) by lia. split_and!; [done|done|lia|by apply Hlt]. }
  apply H; [lia|]. intros d' [= <-]. lia.
Qed.

(** A day of the year and its month and day. *)
Definition leap_shift (y work : Z) : Z * Z := if leap_year y && (58 <? work) then ((if work =? 59 then 2 else 1), work - 1) else (1, work).
Lemma leap_shift_spec y work : 0 <= work < year_days y -> 0 <= snd (leap_shift y work) < 365 /\ 1 <= fst (leap_shift y work) <= 2.
Proof using. unfold leap_shift, year_days. intros H. destruct (leap_year y), (Z.ltb_spec 58 work), (Z.eqb_spec work 59); cbn; lia. Qed.
Lemma month_day_spec y work mon d d' : 0 <= work < year_days y -> 0 <= mon < 12 -> __spm !! Z.to_nat mon = Some d -> __spm !! Z.to_nat (mon + 1) = Some d' -> d <= snd (leap_shift y work) < d' ->
  let mday := fst (leap_shift y work) + (snd (leap_shift y work) - d) in 1 <= mday <= nth (Z.to_nat mon) (month_days y) 0 /\ days_before_month y mon + mday - 1 = work.
Proof using.
  intros Hw Hm Ed Ed' Hd mday. unfold mday, leap_shift, days_before_month, month_days, year_days in *.
  month_cases mon; vm_compute in Ed, Ed'; injection Ed as <-; injection Ed' as <-; destruct (leap_year y); cbn [andb] in *; destruct (Z.ltb_spec 58 work), (Z.eqb_spec work 59); cbn [fst snd] in *;
    match goal with |- context [Z.to_nat ?k] => let n := eval vm_compute in (Z.to_nat k) in change (Z.to_nat k) with n end; cbn [nth take foldr]; lia.
Qed.

Lemma gmtime_r_wp t s : 0 <= t < time_max -> wp (gmtime_r time_t t) s (fun r s' => s' = s /\ valid_tm r /\ seconds_of r = t /\ dated r).
Proof using time_max_low time_max_high time_t_fits.
  intros Ht. set (days := t / 86400). set (rest := t mod 86400). assert (0 <= rest < 86400) as Hrest by (apply Z.mod_pos_bound; lia). pose proof (Z.div_mod t 86400 ltac:(lia)) as Et. fold days rest in Et.
  assert (0 <= days) as Hdays by (apply Z.div_pos; lia). assert (0 <= rest / 60 < 1440) as Hmin by (clear -Hrest; Z.div_mod_to_equations; lia). assert (days < 2 ^ 40) as Hdays' by lia. unfold gmtime_r. cbv zeta. change SPD with 86400. rewrite (Z.rem_mod_nonneg t), (Z.quot_div_nonneg t) by lia. fold days rest. clearbody days rest. rewrite (time_t_fits rest), (time_t_fits days) by lia.
  rewrite (Z.quot_div_nonneg rest 60), (time_t_fits (rest / 60)), (time_t_fits (4 + days)) by lia. rewrite (Z.rem_mod_nonneg rest 60), (Z.rem_mod_nonneg (rest / 60)), (Z.quot_div_nonneg (rest / 60)), (Z.rem_mod_nonneg (4 + days)) by lia.
  rewrite !i32_small by (clear -Hmin; Z.div_mod_to_equations; lia). kstep. eapply wp_mono; [apply (year_loop_wp days _ 0 days s); [lia|done|done|]|]. { rewrite Nat2Z.inj_succ, Z2Nat.id by (apply Z.div_pos; lia). lia. }
  intros [i work] s' (-> & m & Ei & Em & Hw). cbn [fst snd] in Ei, Em, Hw. pose proof (days_before_year_low m) as Hm. pose proof (year_days_bounds i) as Hy. rewrite !i32_small, isleap_spec by lia.
  assert ((if leap_year i && (58 <? work) then (if work =? 59 then 2 else 1, time_t (work - 1)) else (1, work)) = leap_shift i work) as ->.
  { unfold leap_shift. destruct (leap_year i && _) eqn:E; [|done]. apply andb_true_iff in E as [_ E]. rewrite Z.ltb_lt in E. by rewrite time_t_fits by lia. }
  pose proof (leap_shift_spec i work Hw) as [L1 L2]. destruct (leap_shift i work) as [mday w] eqn:Els. cbn [fst snd] in L1, L2. kstep. eapply wp_mono; [by apply month_loop_wp|]. intros mon s' (-> & Hmon & d & d' & Ed & Ed' & Hd). kstep. apply (wp_spm _ d); [lia|done|]. kstep.
  pose proof (month_day_spec i work mon d d' Hw Hmon Ed Ed') as Hmd. rewrite Els in Hmd. cbn [fst snd] in Hmd. destruct (Hmd Hd) as [M1 M2]. destruct (month_room i mon Hmon) as (_ & _ & M3). rewrite (i32_small (mday + (w - d))) by lia.
  assert (Z.to_nat (i - 1900 - 70) = m) as Emn by lia. split; [done|]. assert (day_number (mkTm (rest `mod` 60) ((rest / 60) `mod` 60) (rest / 60 / 60) (mday + (w - d)) mon (i - 1900) ((4 + days) `mod` 7) work) = days) as Edn.
  { unfold day_number, year_of. cbn [tm_year tm_mon tm_mday]. rewrite Emn. replace (i - 1900 + 1900) with i by lia. lia. }
  split_and!.
  - split; unfold year_of; cbn [tm_sec tm_min tm_hour tm_mday tm_mon tm_year]; [Z.div_mod_to_equations; lia..| |done|lia]. by replace (i - 1900 + 1900) with i by lia.
  - unfold seconds_of. rewrite Edn. cbn [tm_sec tm_min tm_hour]. clear -Hrest Et. Z.div_mod_to_equations; lia.
  - unfold dated. rewrite Edn. cbn [tm_wday tm_yday tm_mon tm_mday]. split; [done|]. unfold year_of. cbn [tm_year]. replace (i - 1900 + 1900) with i by lia. lia.
Qed.

(** ** mktime *)

Lemma div_step a k : 0 < k -> (a + 1) / k = a / k + (if (a + 1) `mod` k =? 0 then 1 else 0).
Proof using.
  intros Hk. pose proof (Z.div_mod a k ltac:(lia)). pose proof (Z.mod_pos_bound a k Hk). pose proof (Z.div_mod (a + 1) k ltac:(lia)). pose proof (Z.mod_pos_bound (a + 1) k Hk). destruct (Z.eqb_spec ((a + 1) `mod` k) 0); nia.
Qed.
(** The leap years are every fourth one, less every hundredth, plus every four
    hundredth. *)
Lemma days_before_year_closed n : let y := Z.of_nat n in days_before_year n = 365 * y + (y + 1) / 4 - (y + 69) / 100 + (y + 369) / 400.
Proof using.
  cbv zeta. induction n as [|n IH]; [done|]. cbn [days_before_year]. rewrite IH, Nat2Z.inj_succ. unfold Z.succ. set (y := Z.of_nat n) in *. replace (y + 1 + 1) with ((y + 1) + 1) by lia. replace (y + 1 + 69) with ((y + 69) + 1) by lia. replace (y + 1 + 369) with ((y + 369) + 1) by lia.
  rewrite !div_step by lia. unfold year_days, leap_year.
  replace ((1970 + y) `mod` 4) with ((y + 1 + 1) `mod` 4) by (replace (1970 + y) with (y + 1 + 1 + 492 * 4) by lia; by rewrite Z.mod_add). replace ((1970 + y) `mod` 100) with ((y + 69 + 1) `mod` 100) by (replace (1970 + y) with (y + 69 + 1 + 19 * 100) by lia; by rewrite Z.mod_add).
  replace ((1970 + y) `mod` 400) with ((y + 369 + 1) `mod` 400) by (replace (1970 + y) with (y + 369 + 1 + 4 * 400) by lia; by rewrite Z.mod_add).
  destruct (Z.eqb_spec ((y + 1 + 1) `mod` 4) 0), (Z.eqb_spec ((y + 69 + 1) `mod` 100) 0), (Z.eqb_spec ((y + 369 + 1) `mod` 400) 0); cbn [andb orb negb]; Z.div_mod_to_equations; lia.
Qed.
Lemma century_days_spec n : let y := Z.of_nat n in century_days y = (y + 69) / 100 - (y + 369) / 400.
Proof using.
  cbv zeta. set (y := Z.of_nat n). unfold century_days. destruct (Z.leb_spec 131 y) as [H|H].
  - rewrite Z.quot_div_nonneg, Z.shiftr_div_pow2 by lia. change (2 ^ 2) with 4. set (c := (y - 131) / 100). assert (Z.land c 3 = c `mod` 4) as -> by (change 3 with (Z.ones 2); by rewrite Z.land_ones).
    assert ((y + 69) / 100 = c + 2) as -> by (unfold c; rewrite <- Z.div_add by lia; f_equal; lia). assert ((y + 369) / 400 = (c + 5) / 4) as ->.
    { change 400 with (100 * 4). rewrite <- Z.div_div by lia. f_equal. unfold c. rewrite <- Z.div_add by lia. f_equal. lia. }
    clearbody c. clear. destruct (Z.eqb_spec (c `mod` 4) 3); Z.div_mod_to_equations; lia.
  - assert (0 <= y) by lia. Z.div_mod_to_equations; lia.
Qed.

(** A valid date has no whole month to take off. *)
Lemma mday_loop_valid t fuel s (Q : Z * Z * Z -> S -> Prop) : valid_tm t -> Q (tm_mday t, tm_mon t, tm_year t) s -> wp (mday_loop fuel (tm_mday t) (tm_mon t) (tm_year t)) s Q.
Proof using.
  intros [_ _ _ Hd Hm _] HQ. destruct (month_room (year_of t) (tm_mon t) Hm) as (_ & _ & H31). assert (exists d, __spm !! Z.to_nat (1 + tm_mon t) = Some d /\ 31 <= d) as (d & Ed & Hd').
  { clear -Hm. set (m := tm_mon t) in *. clearbody m. month_cases m; eexists; (split; [reflexivity|by vm_compute]). }
  destruct fuel; cbn [mday_loop]; kstep; (apply (wp_spm _ d); [lia|done|]); rewrite (proj2 (Z.leb_le _ _)) by lia; by kstep.
Qed.

Lemma mktime_wp t s : valid_tm t -> seconds_of t < time_max ->
  wp (mktime time_t t) s (fun r s' => s' = s /\ fst r = seconds_of t /\ valid_tm (snd r) /\ seconds_of (snd r) = seconds_of t /\ dated (snd r)).
Proof using time_max_low time_max_high time_t_fits.
  intros Hv Hs. pose proof (day_number_year t Hv) as Hdn. cbv zeta in Hdn. destruct (Hv) as [V1 V2 V3 V4 V5 V6]. set (n := Z.to_nat (tm_year t - 70)) in *. assert (tm_year t - 70 = Z.of_nat n) as En by lia. pose proof (days_before_year_low n) as Hlow.
  unfold seconds_of in Hs. assert (0 <= day_number t) as Hd0 by lia. assert (day_number t * 86400 < time_max) as Hdmax by lia.
  unfold mktime. cbv zeta. rewrite En, (time_t_fits (Z.of_nat n)) by lia. rewrite (proj2 (Z.ltb_ge 60 (tm_sec t))), (proj2 (Z.ltb_ge 60 (tm_min t))), (proj2 (Z.ltb_ge 24 (tm_hour t))), (proj2 (Z.ltb_ge 12 (tm_mon t))) by lia.
  kstep. apply mday_loop_valid; [done|]. rewrite (proj2 (Z.ltb_ge (tm_year t) 70)) by lia. destruct (spm_spec (year_of t) (tm_mon t) V5) as (d & Ed & Edm). kstep. apply (wp_spm _ d); [lia|done|]. kstep. cbn [fst snd].
  change (tm_year t + 1900) with (year_of t). rewrite (i32_small (year_of t)), isleap_spec by (unfold year_of; lia).
  replace (d + tm_mday t - 1 + (if leap_year (year_of t) && (1 <? tm_mon t) then 1 else 0)) with (days_before_month (year_of t) (tm_mon t) + tm_mday t - 1) by lia. set (yday := days_before_month _ _ + tm_mday t - 1).
  assert (day_number t = days_before_year n + yday) as Edn by (unfold day_number, yday; fold n; lia). pose proof (days_before_year_closed n) as Hcl. pose proof (century_days_spec n) as Hce. cbv zeta in Hcl, Hce.
  rewrite Z.quot_div_nonneg by lia. assert (0 <= Z.of_nat n * 365 + (Z.of_nat n + 1) / 4 < time_max) as Hb1 by (Z.div_mod_to_equations; lia). rewrite (time_t_fits _ Hb1).
  replace (Z.of_nat n * 365 + (Z.of_nat n + 1) / 4 - century_days (Z.of_nat n)) with (days_before_year n) by lia. rewrite (time_t_fits (days_before_year n)) by lia. rewrite <- Edn. rewrite (time_t_fits (day_number t)), (time_t_fits (day_number t * 24)), (time_t_fits (day_number t + 4)) by lia.
  rewrite time_t_fits, Z.rem_mod_nonneg, (i32_small ((day_number t + 4) `mod` 7)) by (clear -Hd0 Hs V1 V2 V3; Z.div_mod_to_equations; lia).
  set (r := mkTm _ _ _ _ _ _ _ _). assert (day_number r = day_number t) as Er by done. split_and!; [done|unfold seconds_of; lia|by split|done|]. unfold dated. rewrite Er. split; [|done]. cbn [tm_wday r]. f_equal. lia.
Qed.

Lemma dated_unique t1 t2 : valid_tm t1 -> valid_tm t2 -> seconds_of t1 = seconds_of t2 -> dated t1 -> dated t2 -> t1 = t2.
Proof using.
  intros V1 V2 E [W1 D1] [W2 D2]. destruct (seconds_unique t1 t2 V1 V2 E) as (E1 & E2 & E3 & E4 & E5 & E6). unfold day_number, year_of in *. destruct t1, t2. cbn in *. congruence.
Qed.

(** Gmtime_r is the calendar: for every time that fits time_t it returns the
    valid date that is that many seconds after 1970 began, with its day of the
    week and of the year.  (By [seconds_unique] there is only one such date.) *)
Theorem gmtime_r_correct t s : 0 <= t < time_max -> wp (gmtime_r time_t t) s (fun r s' => s' = s /\ valid_tm r /\ seconds_of r = t /\ dated r).
Proof using time_max_low time_max_high time_t_fits. apply gmtime_r_wp. Qed.

(** Mktime of a valid date from 1970 on is its number of seconds, leap years
    and the missing leap days of the centuries included; it fills in the day of
    the week and of the year and changes no other field. *)
Theorem mktime_correct t s : valid_tm t -> seconds_of t < time_max ->
  wp (mktime time_t t) s (fun r s' => s' = s /\ fst r = seconds_of t /\ valid_tm (snd r) /\ seconds_of (snd r) = seconds_of t /\ dated (snd r)).
Proof using time_max_low time_max_high time_t_fits. apply mktime_wp. Qed.

(** C39: gmtime_r and mktime are inverse to each other: from seconds to a date and
    back, the date left unchanged, and from a date to seconds and back. *)
Theorem calendar_roundtrip s :
  (forall t, 0 <= t < time_max -> wp (r <- gmtime_r time_t t ;; v <- mktime time_t r ;; ret (r, v)) s (fun x s' => s' = s /\ snd x = (t, fst x))) /\
  (forall r, valid_tm r -> dated r -> seconds_of r < time_max -> wp (v <- mktime time_t r ;; gmtime_r time_t (fst v)) s (fun r' s' => s' = s /\ r' = r)).
Proof using time_max_low time_max_high time_t_fits.
  split.
  - intros t Ht. kstep. eapply wp_mono; [by apply gmtime_r_wp|]. intros r s' (-> & V & E & D). kstep. eapply wp_mono; [apply mktime_wp; [done|lia]|]. intros [v r'] s' (-> & Ev & V' & E' & D'). kstep. split; [done|]. cbn [fst snd] in *. f_equal; [lia|]. by apply dated_unique.
  - intros r V D Hs. kstep. eapply wp_mono; [by apply mktime_wp|]. intros [v r'] s' (-> & Ev & _). cbn [fst snd] in *. rewrite Ev. assert (0 <= seconds_of r).
    { pose proof (day_number_year r V) as [H _]. pose proof (days_before_year_low (Z.to_nat (tm_year r - 70))). destruct V. unfold seconds_of. lia. }
    eapply wp_mono; [apply gmtime_r_wp; lia|]. intros r'' s' (-> & V'' & E'' & D''). split; [done|]. by apply dated_unique.
Qed.
End correct.

(** ** asctime *)

Definition day_names : list (list Z) := [codes "Sun"; codes "Mon"; codes "Tue"; codes "Wed"; codes "Thu"; codes "Fri"; codes "Sat"].
Definition month_names : list (list Z) :=
  [codes "Jan"; codes "Feb"; codes "Mar"; codes "Apr"; codes "May"; codes "Jun"; codes "Jul"; codes "Aug"; codes "Sep"; codes "Oct"; codes "Nov"; codes "Dec"].
Definition two_digits (i : Z) : list Z := [48 + i / 10; 48 + i `mod` 10].
(** "Wed Jun 30 21:49:08 1993" and the end of the line *)
Definition asctime_text (t : tm) : list Z :=
  nth (Z.to_nat (tm_wday t)) day_names [] ++ codes " " ++ nth (Z.to_nat (tm_mon t)) month_names [] ++ codes " " ++
  (if tm_mday t <? 10 then [32; 48 + tm_mday t] else two_digits (tm_mday t)) ++ codes " " ++
  two_digits (tm_hour t) ++ codes ":" ++ two_digits (tm_min t) ++ codes ":" ++ two_digits (tm_sec t) ++ codes " " ++
  two_digits (year_of t / 100) ++ two_digits (year_of t `mod` 100) ++ [10].

(** The buffer is filled from the front. *)
Lemma append_store n buf k l v m (Q : unit -> mem -> Prop) : mapped m buf 25 = true -> k = Z.of_nat (List.length l) -> (List.length l + n <= 25)%nat ->
  Q tt (write_bytes buf (l ++ le_bytes n v) m) -> wp (store n (buf + k) v) (write_bytes buf l m) Q.
Proof.
  intros Hm -> Hn HQ. apply wp_store; [by apply mapped_write, (mapped_sub _ _ 25)|]. by rewrite <- write_bytes_app.
Qed.
Lemma append_num2str buf k l i m (Q : unit -> mem -> Prop) : mapped m buf 25 = true -> k = Z.of_nat (List.length l) -> (List.length l + 2 <= 25)%nat -> 0 <= i < 100 ->
  Q tt (write_bytes buf (l ++ two_digits i) m) -> wp (num2str (buf + k) i) (write_bytes buf l m) Q.
Proof.
  intros Hm -> Hn Hi HQ. unfold num2str. rewrite Z.quot_div_nonneg, Z.rem_mod_nonneg, !u8_small by (Z.div_mod_to_equations; lia). kstep. apply append_store; [done|done|lia|]. rewrite <- Z.add_assoc. apply append_store; [done|rewrite length_app; cbn; lia|rewrite length_app; cbn; lia|].
  rewrite <- app_assoc. cbn [le_bytes app]. rewrite !Z.mod_small by (Z.div_mod_to_equations; lia). unfold two_digits in HQ. by rewrite (Z.add_comm _ 48), (Z.add_comm (i `mod` 10) 48).
Qed.
Lemma table_day i m (Q : Z -> mem -> Prop) : 0 <= i < 7 -> (forall w, le_bytes 4 w = nth (Z.to_nat i) day_names [] ++ codes " " -> Q w m) -> wp (table_word days (Z.shiftl i 2)) m Q.
Proof.
  intros Hi HQ. assert (i = 0 \/ i = 1 \/ i = 2 \/ i = 3 \/ i = 4 \/ i = 5 \/ i = 6) as H by lia. repeat destruct H as [H|H]; subst; (eapply wp_deref; [vm_compute; reflexivity|]); apply HQ; by vm_compute.
Qed.
Lemma table_month i m (Q : Z -> mem -> Prop) : 0 <= i < 12 -> (forall w, le_bytes 4 w = nth (Z.to_nat i) month_names [] ++ codes " " -> Q w m) -> wp (table_word months (Z.shiftl i 2)) m Q.
Proof. intros Hi HQ. month_cases i; (eapply wp_deref; [vm_compute; reflexivity|]); apply HQ; by vm_compute. Qed.
(** A blank for the leading zero of the day. *)
Lemma blank_day buf l mday m : mapped m buf 25 = true -> List.length l = 8%nat -> 0 <= mday < 100 ->
  wp (load 1 (buf + 8)) (write_bytes buf (l ++ two_digits mday) m) (fun c m' => wp (when (c =? 48) (store 1 (buf + 8) 32)) m' (fun _ m' =>
    m' = write_bytes buf (l ++ (if mday <? 10 then [32; 48 + mday] else two_digits mday)) m)).
Proof.
  intros Hm Hl Hd. assert (mapped (write_bytes buf (l ++ two_digits mday) m) (buf + 8) 1 = true) as Hm8 by (apply mapped_write; apply (mapped_sub _ _ 25 8 1); [done|lia]).
  apply (wp_load _ _ _ [48 + mday / 10]).
  - cbn [read_bytes]. rewrite lookup_write_in by (rewrite length_app, Hl; cbn; lia). replace (Z.to_nat (buf + 8 - buf)) with (List.length l + 0)%nat by lia. by rewrite lookup_app_r, Nat.add_comm, Nat.add_sub by lia.
  - cbn [le_value]. rewrite Z.mul_0_r, Z.add_0_r. destruct (Z.ltb_spec mday 10) as [H|H].
    + rewrite Z.div_small by lia. cbn [Z.add Z.eqb when]. change (48 + 0 =? 48) with true. cbn [when]. apply wp_store; [done|]. cbn [le_bytes]. rewrite !write_bytes_app, Hl. unfold two_digits. cbn [write_bytes]. change (Z.of_nat 8) with 8. by rewrite insert_insert_eq, !Z.mod_small by lia.
    + rewrite (proj2 (Z.eqb_neq _ _)) by (Z.div_mod_to_equations; lia). cbn [when]. by kstep.
Qed.

Lemma asctime_r_wp t buf m : valid_tm t -> 0 <= tm_wday t < 7 -> year_of t < 10000 -> mapped m buf 25 = true -> wp (asctime_r t buf) m (fun r m' => r = buf /\ m' = write_bytes buf (asctime_text t) m).
Proof.
  intros [V1 V2 V3 V4 V5 V6] Hw Hy Hm. destruct (month_room (year_of t) (tm_mon t) V5) as (_ & _ & H31). unfold asctime_r. kstep. apply table_day; [done|]. intros w1 E1. kstep.
  assert (List.length (le_bytes 4 w1) = 4%nat) as L1 by done. rewrite <- (Z.add_0_r buf) at 1. change m with (write_bytes buf [] m) at 1. apply append_store; [done|done|cbn; lia|]. cbn [app].
  kstep. apply table_month; [done|]. intros w2 E2. kstep. assert (List.length (le_bytes 4 w2) = 4%nat) as L2 by done. apply append_store; [done|lia|lia|].
  set (p := le_bytes 4 w1 ++ le_bytes 4 w2). assert (List.length p = 8%nat) as Lp by (unfold p; rewrite length_app; lia). assert (p = nth (Z.to_nat (tm_wday t)) day_names [] ++ codes " " ++ nth (Z.to_nat (tm_mon t)) month_names [] ++ codes " ") as Ep by (unfold p; rewrite E1, E2; by rewrite <- app_assoc). clearbody p. clear E1 E2 L1 L2.
  kstep. apply append_num2str; [done|lia|lia|lia|]. kstep. eapply wp_mono; [apply (blank_day buf p (tm_mday t) m); [done|done|lia]|]. intros c m' Hb. kstep. eapply wp_mono; [exact Hb|]. clear m' Hb. intros [] m' ->. set (d := if tm_mday t <? 10 then _ else _). assert (List.length d = 2%nat) as Ld by (unfold d; by destruct (tm_mday t <? 10)).
  change (tm_year t + 1900) with (year_of t). assert (0 <= year_of t) by (unfold year_of; lia). rewrite Z.quot_div_nonneg, Z.rem_mod_nonneg by lia.
  assert (0 <= year_of t / 100 < 100 /\ 0 <= year_of t `mod` 100 < 100) as [Hc1 Hc2] by (Z.div_mod_to_equations; lia).
  do 10 (kstep; first [apply append_store | apply append_num2str]; [done|rewrite ?length_app, ?Lp, ?Ld; cbn; lia|rewrite ?length_app, ?Lp, ?Ld; cbn; lia|try lia..]).
  all: try (kstep; split; [done|]; f_equal; unfold asctime_text; fold d; rewrite Ep, <- !app_assoc; reflexivity).
Qed.

Lemma names_ok : Forall (fun x => chars_ok x /\ List.length x = 3%nat) day_names /\ Forall (fun x => chars_ok x /\ List.length x = 3%nat) month_names.
Proof. unfold chars_ok. split; apply (bool_decide_eq_true_1 _); by vm_compute. Qed.
Lemma asctime_text_chars t : valid_tm t -> 0 <= tm_wday t < 7 -> year_of t < 10000 -> chars_ok (asctime_text t) /\ List.length (asctime_text t) = 25%nat.
Proof.
  intros [V1 V2 V3 V4 V5 V6] Hw Hy. destruct (month_room (year_of t) (tm_mon t) V5) as (_ & _ & H31). assert (0 <= year_of t) by (unfold year_of; lia).
  assert (forall i, 0 <= i < 100 -> chars_ok (two_digits i)) as Htwo. { intros i Hi. unfold two_digits. repeat constructor; Z.div_mod_to_equations; lia. }
  assert (chars_ok (nth (Z.to_nat (tm_wday t)) day_names []) /\ List.length (nth (Z.to_nat (tm_wday t)) day_names []) = 3%nat) as [D1 D2].
  { apply (proj1 (Forall_nth _ _ _) (proj1 names_ok)). change (List.length day_names) with 7%nat. lia. }
  assert (chars_ok (nth (Z.to_nat (tm_mon t)) month_names []) /\ List.length (nth (Z.to_nat (tm_mon t)) month_names []) = 3%nat) as [M1 M2].
  { apply (proj1 (Forall_nth _ _ _) (proj2 names_ok)). change (List.length month_names) with 12%nat. lia. }
  unfold asctime_text. split.
  - unfold chars_ok in *. repeat (apply Forall_app; split); try done; try (apply Htwo; lia); try (apply Htwo; Z.div_mod_to_equations; lia); try (repeat constructor; by vm_compute).
    destruct (Z.ltb_spec (tm_mday t) 10); [repeat constructor; lia|apply Htwo; lia].
  - rewrite !length_app, D2, M2. by destruct (tm_mday t <? 10).
Qed.

Section printed.
Context (time_t : Z -> Z) (time_max : Z).
Context (time_max_low : 2 ^ 31 <= time_max) (time_max_high : time_max <= 2 ^ 55) (time_t_fits : forall x, 0 <= x < time_max -> time_t x = x).

(** Ctime writes the date of a time up to the end of the year 9999 into the buffer, day
    and month by name, and nothing else. *)
Theorem ctime_correct buf t m : 0 <= t < time_max -> t < 253402300800 -> mapped m buf 25 = true ->
  wp (ctime time_t buf t) m (fun r m' => r = buf /\ exists d, valid_tm d /\ seconds_of d = t /\ dated d /\ m' = write_bytes buf (asctime_text d) m).
Proof using time_max_low time_max_high time_t_fits.
  intros Ht Hy Hm. unfold ctime, localtime_r, asctime. kstep. eapply wp_mono; [by eapply (gmtime_r_wp time_t time_max)|]. intros d m' (-> & V & E & D).
  assert (year_of d < 10000) as Hyear.
  { destruct (decide (year_of d < 10000)) as [|Hn]; [done|exfalso]. pose proof (day_number_year d V) as [Hlow _]. unfold year_of in Hn. pose proof (days_before_year_closed (Z.to_nat (tm_year d - 70))) as Hcl. cbv zeta in Hcl. rewrite Z2Nat.id in Hcl by lia.
    assert (2932897 <= days_before_year (Z.to_nat (tm_year d - 70))) as Hbig by (rewrite Hcl; clear -Hn; Z.div_mod_to_equations; lia).
    destruct V. unfold seconds_of in E. lia. }
  eapply wp_mono; [apply asctime_r_wp; [done| |done|done]|].
  - destruct D as [-> _]. apply Z.mod_pos_bound. lia.
  - intros r m' [-> ->]. split; [done|]. by exists d.
Qed.

(** What asctime leaves is not a string: the 25 characters fill the buffer
    and there is no NUL, so whoever reads the result as a string reads on behind
    the buffer. *)
Theorem asctime_not_terminated t buf m : valid_tm t -> 0 <= tm_wday t < 7 -> year_of t < 10000 -> mapped m buf 25 = true ->
  wp (asctime buf t) m (fun r m' => r = buf /\ forall l, cstr m' r l -> (25 <= List.length l)%nat).
Proof using.
  intros V Hw Hy Hm. destruct (asctime_text_chars t V Hw Hy) as [Hc Hl]. eapply wp_mono; [by apply asctime_r_wp|]. intros r m' [-> ->]. split; [done|]. intros l [_ Hr]. destruct (decide (25 <= List.length l)%nat) as [|Hn]; [done|exfalso].
  destruct (proj1 (read_bytes_Some _ _ _ _) Hr) as [_ Hat]. specialize (Hat (List.length l)). destruct (lookup_lt_is_Some_2 (asctime_text t) (List.length l)) as [c Ec]; [lia|]. pose proof (Forall_lookup_1 _ _ _ _ Hc Ec) as Hcr. cbn in Hcr.
  rewrite lookup_write_in in Hat by lia. replace (Z.to_nat (buf + Z.of_nat (List.length l) - buf)) with (List.length l) in Hat by lia. unfold cstring in Hat. rewrite Ec, lookup_app_r, Nat.sub_diag in Hat by lia. specialize (Hat ltac:(lia)). injection Hat. lia.
Qed.
End printed.

(** ** Dates that need normalising *)

(** Takes time_t off closed terms, from the inside. *)
Ltac closed_times Hf :=
  repeat match goal with
  | |- context [?f ?x] => match type of Hf with forall x, _ -> f x = x => idtac end; lazymatch x with context [f] => fail | _ => rewrite (Hf x) by (by split; vm_compute) end
  end.

(** Mktime and dates that are not valid.  The thirty-second of January 2020
    becomes the third of March (its loop compares with the days before the next
    month and takes off the days before this one); month 13 of 2020 is counted
    as a month of 2020; with month 12 and months before -1 the table is read
    outside its bounds. *)
Theorem mktime_normalises_wrongly {S} time_t (s : S) :
  (forall x, 0 <= x < 2 ^ 31 -> time_t x = x) ->
  wp (mktime time_t (mkTm 0 0 0 32 0 120 0 0)) s (fun r _ => fst r = seconds_of (mkTm 0 0 0 3 2 120 0 0)) /\
  wp (mktime time_t (mkTm 0 0 0 1 13 120 0 0)) s (fun r _ => fst r = seconds_of (mkTm 0 0 0 1 1 120 0 0) /\ tm_year (snd r) = 121) /\
  (forall t, tm_mon t = 12 \/ tm_mon t < -1 -> mktime time_t t s = UB).
Proof.
  intros Hf. split_and!.
  - assert (mday_loop (Z.to_nat 32 + 12) 32 0 120 s = Ok (32, 1, 120) s) as El by (vm_compute; reflexivity).
    unfold mktime. cbn [tm_year tm_sec tm_min tm_hour tm_mday tm_mon]. rewrite (Hf (120 - 70)) by lia. cbv zeta. change (60 <? 0) with false. change (24 <? 0) with false. change (12 <? 0) with false. cbv beta iota. change (60 <? 0) with false. cbv beta iota. change (24 <? 0) with false. cbv beta iota. kstep. unfold wp at 1. rewrite El. cbv beta iota. change (120 <? 70) with false. cbv beta iota. kstep. apply (wp_spm _ 31); [done|done|]. kstep. change (__isleap _) with true. cbn [andb]. change (century_days _) with 0.
    change (Z.quot (120 - 70 + 1) 4) with 12. closed_times Hf. by vm_compute.
  - assert (mday_loop (Z.to_nat 1 + 12) 1 1 121 s = Ok (1, 1, 121) s) as El by (vm_compute; reflexivity).
    unfold mktime. cbn [tm_year tm_sec tm_min tm_hour tm_mday tm_mon]. rewrite (Hf (120 - 70)) by lia. cbv zeta. change (60 <? 0) with false. change (24 <? 0) with false. change (12 <? 13) with true. change (i32 (120 + Z.quot 13 12)) with 121. change (Z.rem 13 12) with 1. cbv beta iota. change (60 <? 0) with false. cbv beta iota. change (24 <? 0) with false. cbv beta iota. kstep. unfold wp at 1. rewrite El. cbv beta iota. change (121 <? 70) with false. cbv beta iota. kstep. apply (wp_spm _ 31); [done|done|]. kstep. change (__isleap _) with false. cbn [andb]. change (century_days _) with 0.
    change (Z.quot (120 - 70 + 1) 4) with 12. closed_times Hf. split; by vm_compute.
  - intros t Hm. unfold mktime. cbv zeta. rewrite (proj2 (Z.ltb_ge 12 (tm_mon t))) by lia.
    assert (forall fuel mday year, mday_loop fuel mday (tm_mon t) year s = UB) as Hub.
    { intros fuel mday year. destruct Hm as [->|Hm]; destruct fuel; cbn [mday_loop]; unfold bind, spm, deref; [done|done|..]; by rewrite (proj2 (Z.ltb_lt (1 + tm_mon t) 0)) by lia. }
    repeat case_match; unfold bind; rewrite Hub; done.
Qed.

(** ** Witnesses *)

(** A time_t of 32 bits, as the minilibc of the repository has it; 1582934400 is the
    29th of February 2020, a Saturday. *)
Definition leap_day : tm := mkTm 0 0 0 29 1 120 6 59.
Lemma time32 x : 0 <= x < 2 ^ 31 -> i32 x = x.
Proof. intros. apply i32_small. lia. Qed.
Lemma leap_day_valid : valid_tm leap_day.
Proof. split; cbn; first [lia|by vm_compute]. Qed.
Lemma leap_day_dated : dated leap_day.
Proof. by vm_compute. Qed.

Lemma gmtime_r_correct_witness : wp (gmtime_r i32 1582934400) tt (fun r s' => s' = tt /\ valid_tm r /\ seconds_of r = 1582934400 /\ dated r).
Proof. apply (gmtime_r_correct i32 (2 ^ 31)); [lia|lia|exact time32|lia]. Defined.
Lemma mktime_correct_witness : wp (mktime i32 leap_day) tt (fun r s' => s' = tt /\ fst r = 1582934400 /\ dated (snd r)).
Proof.
  eapply wp_mono; [apply (mktime_correct i32 (2 ^ 31)); [lia|lia|exact time32|exact leap_day_valid|by vm_compute]|]. intros r s' (-> & -> & _ & _ & D). split; [done|]. split; [by vm_compute|done].
Defined.
Lemma calendar_roundtrip_witness : wp (v <- mktime i32 leap_day ;; gmtime_r i32 (fst v)) tt (fun r' s' => s' = tt /\ r' = leap_day).
Proof. apply (calendar_roundtrip i32 (2 ^ 31) ltac:(lia) ltac:(lia) time32 tt); [exact leap_day_valid|exact leap_day_dated|by vm_compute]. Defined.
Lemma ctime_correct_witness : wp (ctime i32 100 1582934400) (write_bytes 100 (replicate 25 0) ∅) (fun r m' => r = 100 /\ exists d, seconds_of d = 1582934400 /\ m' = write_bytes 100 (asctime_text d) (write_bytes 100 (replicate 25 0) ∅)).
Proof.
  eapply wp_mono; [apply (ctime_correct i32 (2 ^ 31)); [lia|lia|exact time32|lia|lia|by vm_compute]|]. intros r m' (-> & d & _ & E & _ & ->). split; [done|]. by exists d.
Defined.
Lemma asctime_not_terminated_witness : wp (asctime 100 leap_day) (write_bytes 100 (replicate 25 0) ∅) (fun r m' => r = 100 /\ forall l, cstr m' r l -> (25 <= List.length l)%nat).
Proof. apply asctime_not_terminated; [exact leap_day_valid|by vm_compute|by vm_compute|by vm_compute]. Defined.
Lemma mktime_normalises_wrongly_witness : wp (mktime i32 (mkTm 0 0 0 32 0 120 0 0)) tt (fun r _ => fst r = seconds_of (mkTm 0 0 0 3 2 120 0 0)).
Proof. destruct (mktime_normalises_wrongly i32 tt time32) as (H & _). exact H. Defined.
