(* ===== verification/Path.v ===== *)
(** * Paths (components/dfs/src/dfs.c): dfs_normalize_path

    A path is made absolute and its "." and ".." are worked off, in place, in the
    memory of the result.  The reference works on the list of the names between
    the slashes. *)

From Stdlib Require Import Ascii.
From S2P Require Import Prelude Kservice Str Printf Format.

(** ** The routine

    The loops are bounded by [n], the number of mapped bytes. *)

Fixpoint skip_slashes (n : nat) (src : Z) : B Z :=
  match n with
  | O => nofuel
  | S n => c <- load 1 src ;; if (c =? 47) && negb (c =? 0) then skip_slashes n (src + 1) else ret src
  end.
(** The name up to the next slash; the character behind it has been read. *)
Fixpoint copy_name (n : nat) (src dst : Z) : B (Z * Z * Z) :=
  match n with
  | O => nofuel
  | S n =>
      c <- load 1 src ;;
      if negb (c =? 0) && negb (c =? 47) then store 1 dst c ;; copy_name n (src + 1) (dst + 1)
      else ret (c, src + 1, dst)
  end.
Fixpoint skip_run (n : nat) (c src : Z) : B Z :=
  match n with
  | O => nofuel
  | S n => if c =? 47 then c <- load 1 src ;; skip_run n c (src + 1) else ret src
  end.
Fixpoint back_up (n : nat) (dst0 dst : Z) : B Z :=
  match n with
  | O => nofuel
  | S n =>
      if dst0 <? dst then
        c <- load 1 (dst - 1) ;;
        if negb (c =? 47) then back_up n dst0 (dst - 1) else ret dst
      else ret dst
  end.

(** The end of the path in [dst], or None where it has a ".." too many. *)
Fixpoint path_loop (n fuel : nat) (dst0 src dst : Z) : B (option Z) :=
  match fuel with
  | O => nofuel
  | S fuel =>
      let copy_next (src : Z) : B (option Z) :=
        '(c, src, dst) <- copy_name n src dst ;;
        if c =? 47 then
          store 1 dst 47 ;;
          src <- skip_run n c src ;;
          path_loop n fuel dst0 (src - 1) (dst + 1)
        else ret (Some dst) in
      let up_one (src : Z) : B (option Z) :=
        let dst := dst - 1 in
        if dst <? dst0 then ret None
        else dst <- back_up n dst0 dst ;; path_loop n fuel dst0 src dst in
      c <- load 1 src ;;
      if c =? 46 then
        c1 <- load 1 (src + 1) ;;
        if c1 =? 0 then copy_next (src + 1)
        else if c1 =? 47 then src <- skip_slashes n (src + 2) ;; path_loop n fuel dst0 src dst
        else if c1 =? 46 then
          c2 <- load 1 (src + 2) ;;
          if c2 =? 0 then up_one (src + 2)
          else if c2 =? 47 then src <- skip_slashes n (src + 3) ;; up_one src
          else copy_next src
        else copy_next src
      else copy_next src
  end.

(** The end of the string: the path ends at [dst]. *)
Definition finish (fullpath dst : Z) : B Z :=
  store 1 dst 0 ;;
  let dst := dst - 1 in
  when (negb (dst =? fullpath)) (c <- load 1 dst ;; when (c =? 47) (store 1 dst 0)) ;;
  c <- load 1 fullpath ;;
  when (c =? 0) (store 1 fullpath 47 ;; store 1 (fullpath + 1) 0) ;;
  ret fullpath.

(** The part behind the copy; 0 is RT_NULL, and the memory has been freed. *)
Definition normalize (fullpath : Z) : B Z :=
  n <- mapped_bytes ;;
  r <- path_loop n n fullpath fullpath fullpath ;;
  match r with
  | None => ret 0
  | Some dst => finish fullpath dst
  end.

(** [malloced]: the memory rt_malloc or rt_strdup found, or 0; [fmt]: the address
    of "%s/%s"; [working_directory]: that of the static buffer. *)
Definition dfs_normalize_path (malloced fmt working_directory directory filename : Z) : B Z :=
  RT_ASSERT (negb (filename =? 0)) ;;
  let directory := if directory =? 0 then working_directory else directory in
  c <- load 1 filename ;;
  if negb (c =? 47) then
    if malloced =? 0 then ret 0
    else
      l1 <- rt_strlen directory ;;
      l2 <- rt_strlen filename ;;
      rt_snprintf malloced (l1 + l2 + 2) fmt [directory; filename] ;;
      normalize malloced
  else
    l <- rt_strlen filename ;;
    if malloced =? 0 then ret 0
    else rt_memcpy malloced filename (l + 1) ;; normalize malloced.

(** ** The reference *)

(** The names between the slashes. *)
Fixpoint names (l : list Z) : list (list Z) :=
  match l with
  | [] => [[]]
  | c :: l =>
      if c =? 47 then [] :: names l
      else match names l with x :: r => (c :: x) :: r | [] => [[c]] end
  end.
(** Works off names, [st] being the names kept so far, the last one first. *)
Fixpoint walk (cs : list (list Z)) (st : list (list Z)) : option (list (list Z)) :=
  match cs with
  | [] => Some st
  | c :: cs =>
      if decide (c = [] \/ c = [46]) then walk cs st
      else if decide (c = [46; 46]) then match st with [] => None | _ :: st => walk cs st end
      else walk cs (c :: st)
  end.
(** A leading slash is an empty first name. *)
Definition path_names (l : list Z) : option (list (list Z)) :=
  match l with c :: l' => if c =? 47 then walk (names l') [[]] else walk (names l) [] | [] => walk (names l) [] end.
Fixpoint join (cs : list (list Z)) : list Z :=
  match cs with [] => [] | [c] => c | c :: cs => c ++ 47 :: join cs end.
Definition path_text (st : list (list Z)) : list Z := if decide (st = [] \/ st = [[]]) then [47] else join (rev st).

Example path_ex1 : path_text <$> path_names [47; 97; 47; 46; 47; 98; 47; 47; 46; 46; 47; 99; 47] = Some [47; 97; 47; 99].
Proof. reflexivity. Qed.

(** ** Names and slashes *)

Definition name_ok (x : list Z) : Prop := Forall (fun c => 1 <= c < 256 /\ c <> 47) x.
Fixpoint drop_slashes (l : list Z) : list Z := match l with c :: l' => if c =? 47 then drop_slashes l' else l | [] => [] end.
Definition at_end (tl : list Z) : Prop := tl = [] \/ exists more, tl = 47 :: more.

Lemma first_name l : chars_ok l -> exists x tl, l = x ++ tl /\ name_ok x /\ at_end tl.
Proof.
  intros H. induction H as [|c l Hc _ (x & tl & -> & Hx & Ht)]; [exists [], []; split_and!; [done|constructor|by left]|].
  destruct (decide (c = 47)) as [->|Hn]; [exists [], (47 :: x ++ tl); split_and!; [done|constructor|right; eauto]|].
  exists (c :: x), tl. split_and!; [done|constructor; [lia|done]|done].
Qed.
Lemma names_last x : name_ok x -> names x = [x].
Proof. induction 1 as [|c x [_ Hc] _ IH]; [done|]. cbn [names]. by rewrite (proj2 (Z.eqb_neq c 47)), IH. Qed.
Lemma names_first x more : name_ok x -> names (x ++ 47 :: more) = x :: names more.
Proof. induction 1 as [|c x [_ Hc] _ IH]; [done|]. cbn [names app]. by rewrite (proj2 (Z.eqb_neq c 47)), IH. Qed.
Lemma walk_drop_slashes l st : walk (names (drop_slashes l)) st = walk (names l) st.
Proof.
  induction l as [|c l IH]; [done|]. cbn [drop_slashes]. destruct (Z.eqb_spec c 47) as [->|Hn]; [|done]. rewrite IH. cbn [names]. rewrite Z.eqb_refl. cbn [walk]. by rewrite decide_True by auto.
Qed.
Lemma drop_slashes_app l : exists k, l = replicate k 47 ++ drop_slashes l.
Proof.
  induction l as [|c l [k IH]]; [by exists 0%nat|]. cbn [drop_slashes]. destruct (Z.eqb_spec c 47) as [->|Hn]; [|by exists 0%nat]. exists (S k). cbn. by f_equal.
Qed.
Lemma drop_slashes_first l : match drop_slashes l with c :: _ => c <> 47 | [] => True end.
Proof. induction l as [|c l IH]; [done|]. cbn [drop_slashes]. by destruct (Z.eqb_spec c 47). Qed.
Lemma drop_slashes_chars l : chars_ok l -> chars_ok (drop_slashes l).
Proof. induction 1 as [|c l Hc Hl IH]; [constructor|]. cbn [drop_slashes]. destruct (c =? 47); [done|by constructor]. Qed.
Lemma drop_slashes_length l : (length (drop_slashes l) <= length l)%nat.
Proof. induction l as [|c l IH]; [done|]. cbn [drop_slashes]. destruct (c =? 47); cbn; lia. Qed.

(** The text of the names kept, each with a slash behind it. *)
Fixpoint render (st : list (list Z)) : list Z := match st with [] => [] | c :: st => render st ++ c ++ [47] end.

(** ** The memory of the path

    [image b]: the memory with [b] at the address of the path.  While the loop
    runs, [b] is what has been written, a gap, and what has not been read. *)
Section path.
Context (full : Z) (m0 : mem).
Definition image (b : list Z) : mem := write_bytes full b m0.

Lemma image_insert b i v : (i < length b)%nat -> write_bytes (full + Z.of_nat i) [v] (image b) = image (<[i := v]> b).
Proof using.
  intros Hi. apply map_eq. intros a. unfold image. rewrite !lookup_write_bytes, length_insert. cbn [length].
  destruct (decide (a = full + Z.of_nat i)) as [->|Hn].
  - rewrite Z.leb_refl, (proj2 (Z.ltb_lt _ _)), Z.sub_diag by lia. cbn [andb]. rewrite (proj2 (Z.leb_le _ _)), (proj2 (Z.ltb_lt _ _)) by lia. cbn [andb]. replace (Z.to_nat (full + Z.of_nat i - full)) with i by lia. by rewrite list_lookup_insert_eq.
  - destruct (Z.leb_spec (full + Z.of_nat i) a), (Z.ltb_spec a (full + Z.of_nat i + Z.of_nat 1)); cbn [andb]; try lia; destruct (Z.leb_spec full a), (Z.ltb_spec a (full + Z.of_nat (length b))); cbn [andb]; try done; rewrite list_lookup_insert_ne by lia; done.
Qed.
Lemma load_image b i c (Q : Z -> mem -> Prop) : b !! i = Some c -> Q c (image b) -> wp (load 1 (full + Z.of_nat i)) (image b) Q.
Proof using.
  intros E HQ. apply (wp_load1 _ _ c); [|done]. pose proof (lookup_lt_Some _ _ _ E). unfold image. rewrite lookup_write_in by lia. by replace (Z.to_nat (full + Z.of_nat i - full)) with i by lia.
Qed.
Lemma store_image b i v (Q : unit -> mem -> Prop) : (i < length b)%nat -> 0 <= v < 256 -> Q tt (image (<[i := v]> b)) -> wp (store 1 (full + Z.of_nat i) v) (image b) Q.
Proof using.
  intros Hi Hv HQ. apply wp_store.
  - apply mapped_true. cbn [read_bytes]. unfold image. rewrite lookup_write_in by lia. replace (Z.to_nat (full + Z.of_nat i - full)) with i by lia. destruct (lookup_lt_is_Some_2 b i Hi) as [x ->]. by eexists.
  - cbn [le_bytes]. by rewrite Z.mod_small, image_insert by lia.
Qed.

Definition buf (out gap rest : list Z) : list Z := out ++ gap ++ rest ++ [0].
(** The next character is written behind what has been written. *)
Lemma buf_write out gap c x rest : exists gap', length gap' = length gap /\ <[length out := x]> (buf out gap (c :: rest)) = buf (out ++ [x]) gap' rest.
Proof using.
  unfold buf. exists (drop 1 (gap ++ [c])). rewrite length_drop, length_app. split; [cbn; lia|]. rewrite insert_app_r_alt, Nat.sub_diag by lia. destruct gap as [|g gap]; rewrite <- !app_assoc; [done|]. change (drop 1 ((g :: gap) ++ [c])) with (gap ++ [c]). by rewrite <- app_assoc.
Qed.
Lemma buf_next out gap rest i : buf out gap rest !! (length out + length gap + i)%nat = (rest ++ [0]) !! i.
Proof using. unfold buf. rewrite app_assoc, lookup_app_r by (rewrite length_app; lia). rewrite length_app. f_equal. lia. Qed.
Lemma buf_skip out gap x rest : buf out gap (x ++ rest) = buf out (gap ++ x) rest.
Proof using. unfold buf. by rewrite <- !app_assoc. Qed.

(** ** The inner loops *)

Lemma copy_name_wp x : forall n out gap tl i j, name_ok x -> at_end tl -> (length x < n)%nat -> i = (length out + length gap)%nat -> j = length out ->
  wp (copy_name n (full + Z.of_nat i) (full + Z.of_nat j)) (image (buf out gap (x ++ tl))) (fun r m' => exists gap', length gap' = length gap /\ m' = image (buf (out ++ x) gap' tl) /\
    r = ((if decide (tl = []) then 0 else 47), full + Z.of_nat (i + length x + 1), full + Z.of_nat (j + length x))).
Proof using.
  induction x as [|c x IH]; intros [|n] out gap tl i j Hx Ht Hn -> ->; try (cbn in Hn; lia); cbn [copy_name app].
  - kstep. set (c := if decide (tl = []) then 0 else 47). apply (load_image _ _ c).
    { rewrite <- (Nat.add_0_r (length out + length gap)), buf_next. by destruct Ht as [->|[more ->]]. }
    assert (negb (c =? 0) && negb (c =? 47) = false) as -> by by destruct Ht as [->|[more ->]]. kstep. exists gap. rewrite app_nil_r. split_and!; [done|done|]. cbn [length]. f_equal; [f_equal|]; lia.
  - inversion Hx as [|? ? [Hc Hc'] Hx']; subst. kstep. eapply load_image; [rewrite <- (Nat.add_0_r (length out + length gap)), buf_next; reflexivity|]. rewrite (proj2 (Z.eqb_neq c 0)), (proj2 (Z.eqb_neq c 47)) by lia. cbn [negb andb].
    kstep. destruct (buf_write out gap c c (x ++ tl)) as (gap' & Hg & Eb). apply store_image; [unfold buf; rewrite !length_app; cbn; lia|lia|]. rewrite Eb.
    replace (full + Z.of_nat (length out + length gap) + 1) with (full + Z.of_nat (length (out ++ [c]) + length gap')) by (rewrite length_app; cbn; lia). replace (full + Z.of_nat (length out) + 1) with (full + Z.of_nat (length (out ++ [c]))) by (rewrite length_app; cbn; lia).
    eapply wp_mono; [apply (IH n (out ++ [c]) gap' tl); [done|done|cbn in Hn; lia|done|done]|]. intros r m' (gap'' & Hg' & -> & ->). exists gap''. rewrite <- app_assoc. split_and!; [lia|done|]. rewrite !length_app. cbn [length]. f_equal; [f_equal|]; f_equal; lia.
Qed.

(** A run of slashes is passed, up to the character behind it. *)
Lemma skip_slashes_wp l : forall n b i, (length l < n)%nat -> drop i b = l ++ [0] ->
  wp (skip_slashes n (full + Z.of_nat i)) (image b) (fun r m' => m' = image b /\ r = full + Z.of_nat (i + (length l - length (drop_slashes l)))).
Proof using.
  induction l as [|c l IH]; intros [|n] b i Hn Hb; try (cbn in Hn; lia); cbn [skip_slashes]; kstep.
  - apply (load_image b i 0); [rewrite <- (Nat.add_0_r i), <- lookup_drop, Hb; done|]. cbn [Z.eqb andb]. kstep. split; [done|]. cbn. f_equal. lia.
  - apply (load_image b i c); [rewrite <- (Nat.add_0_r i), <- lookup_drop, Hb; done|]. cbn [drop_slashes]. destruct (Z.eqb_spec c 47) as [->|Hc]; cbn [andb].
    + change (negb (47 =? 0)) with true. replace (full + Z.of_nat i + 1) with (full + Z.of_nat (S i)) by lia. eapply wp_mono; [apply (IH n b (S i)); [cbn in Hn; lia|]|].
      { rewrite <- (Nat.add_1_r i), <- drop_drop, Hb. done. } intros r m' [-> ->]. split; [done|]. pose proof (drop_slashes_length l). cbn [length]. f_equal. lia.
    + kstep. split; [done|]. f_equal. lia.
Qed.
Lemma skip_run_wp l : forall n b i, (length l + 1 < n)%nat -> drop i b = l ++ [0] ->
  wp (skip_run n 47 (full + Z.of_nat i)) (image b) (fun r m' => m' = image b /\ r - 1 = full + Z.of_nat (i + (length l - length (drop_slashes l)))).
Proof using.
  induction l as [|c l IH]; intros [|[|n]] b i Hn Hb; try (cbn in Hn; lia); cbn [skip_run]; change (47 =? 47) with true; cbv iota; kstep.
  - apply (load_image b i 0); [rewrite <- (Nat.add_0_r i), <- lookup_drop, Hb; done|]. cbn [Z.eqb]. kstep. split; [done|]. cbn. lia.
  - apply (load_image b i c); [rewrite <- (Nat.add_0_r i), <- lookup_drop, Hb; done|]. cbn [drop_slashes]. destruct (Z.eqb_spec c 47) as [->|Hc].
    + replace (full + Z.of_nat i + 1) with (full + Z.of_nat (S i)) by lia. specialize (IH (S n) b (S i)). cbn [skip_run] in IH. change (47 =? 47) with true in IH. cbv iota in IH.
      eapply wp_mono; [apply IH; [cbn in Hn; lia|rewrite <- (Nat.add_1_r i), <- drop_drop, Hb; done]|]. intros r m' [-> E]. split; [done|]. pose proof (drop_slashes_length l). cbn [length]. rewrite E. f_equal. lia.
    + kstep. split; [done|]. lia.
Qed.

(** Back to the slash in front of a name. *)
Lemma back_up_wp st x : forall n b, name_ok x -> (length x < n)%nat -> (exists t, b = render st ++ x ++ t) ->
  wp (back_up n full (full + Z.of_nat (length (render st ++ x)))) (image b) (fun r m' => m' = image b /\ r = full + Z.of_nat (length (render st))).
Proof using.
  induction x as [|c x IH] using rev_ind; intros [|n] b Hx Hn [t Eb]; try (rewrite ?length_app in Hn; cbn in Hn; lia); cbn [back_up].
  - rewrite app_nil_r. destruct (Z.ltb_spec full (full + Z.of_nat (length (render st)))) as [H|H]; [|kstep; by split].
    destruct st as [|c st]; [cbn in H; lia|]. kstep. replace (full + Z.of_nat (length (render (c :: st))) - 1) with (full + Z.of_nat (length (render (c :: st)) - 1)) by lia. apply (load_image b _ 47).
    { rewrite Eb. cbn [render app]. rewrite !length_app. cbn [length]. rewrite lookup_app_l by (rewrite !length_app; cbn; lia). rewrite app_assoc, lookup_app_r by (rewrite length_app; lia). rewrite length_app. by replace (length (render st) + (length c + 1) - 1 - (length (render st) + length c))%nat with 0%nat by lia. }
    change (negb (47 =? 47)) with false. cbv iota. kstep. split; [done|]. f_equal.
  - apply Forall_app in Hx as [Hx Hc]. inversion Hc as [|? ? [Hc1 Hc2] _]; subst. rewrite (proj2 (Z.ltb_lt _ _)) by (rewrite !length_app; cbn; lia). kstep.
    replace (full + Z.of_nat (length (render st ++ x ++ [c])) - 1) with (full + Z.of_nat (length (render st ++ x))) by (rewrite !length_app; cbn; lia). apply (load_image _ _ c).
    { rewrite <- !app_assoc, app_assoc. by rewrite lookup_app_r, Nat.sub_diag by lia. }
    rewrite (proj2 (Z.eqb_neq c 47)) by lia. cbn [negb]. apply IH; [done|rewrite length_app in Hn; cbn in Hn; lia|]. exists (c :: t). by rewrite <- !app_assoc.
Qed.

(** ** The loop *)

Notation pos k := (full + Z.of_nat k).
Lemma copy_next_wp n fuel st gap x tl (Q : option Z -> mem -> Prop) : name_ok x -> at_end tl -> (length (buf (render st) gap (x ++ tl)) < n)%nat ->
  (tl = [] -> forall gap', length gap' = length gap -> Q (Some (pos (length (render st ++ x)))) (image (buf (render st ++ x) gap' []))) ->
  (forall more gap', tl = 47 :: more -> length (buf (render (x :: st)) gap' (drop_slashes more)) = length (buf (render st) gap (x ++ tl)) ->
    wp (path_loop n fuel full (pos (length (render (x :: st)) + length gap')) (pos (length (render (x :: st))))) (image (buf (render (x :: st)) gap' (drop_slashes more))) Q) ->
  wp ('(c, src, dst) <- copy_name n (pos (length (render st) + length gap)) (pos (length (render st))) ;;
      if c =? 47 then store 1 dst 47 ;; src <- skip_run n c src ;; path_loop n fuel full (src - 1) (dst + 1) else ret (Some dst)) (image (buf (render st) gap (x ++ tl))) Q.
Proof using.
  intros Hx Ht Hn Hend Hgo. assert (length x + length tl + 1 < n)%nat as Hn' by (unfold buf in Hn; rewrite !length_app in Hn; cbn in Hn; lia). kstep. eapply wp_mono; [apply copy_name_wp; [done|done|lia|done|done]|]. intros r m' (gap' & Hg & -> & ->). destruct Ht as [->|[more ->]].
  - rewrite decide_True by done. change (0 =? 47) with false. cbv iota. kstep. rewrite <- length_app. by apply Hend.
  - rewrite decide_False by done. change (47 =? 47) with true. cbv iota. kstep. rewrite <- length_app. destruct (buf_write (render st ++ x) gap' 47 47 more) as (gap'' & Hg'' & Eb).
    apply store_image; [unfold buf; rewrite !length_app; cbn; lia|lia|]. rewrite Eb. change ((render st ++ x) ++ [47]) with ((render st ++ x) ++ [47]). rewrite <- app_assoc. change (render st ++ x ++ [47]) with (render (x :: st)). kstep.
    replace (length (render st) + length gap + length x + 1)%nat with (length (render (x :: st)) + length gap'')%nat by (cbn [render]; rewrite !length_app; cbn; lia).
    eapply wp_mono; [apply (skip_run_wp more)|].
    + cbn in Hn'. lia.
    + unfold buf. rewrite app_assoc, drop_app_length'; [done|by rewrite length_app].
    + intros r m' [-> ->]. destruct (drop_slashes_app more) as [k Ek]. replace (buf (render (x :: st)) gap'' more) with (buf (render (x :: st)) (gap'' ++ replicate k 47) (drop_slashes more)) by (rewrite <- buf_skip, <- Ek; done).
      pose proof (f_equal length Ek) as El. rewrite length_app, length_replicate in El. replace (length (render (x :: st)) + length gap'' + (length more - length (drop_slashes more)))%nat with (length (render (x :: st)) + length (gap'' ++ replicate k 47%Z))%nat by (rewrite length_app, length_replicate; lia).
      replace (pos (length (render st ++ x)) + 1) with (pos (length (render (x :: st)))) by (cbn [render]; rewrite !length_app; cbn; lia). apply Hgo; [done|]. unfold buf. cbn [render]. rewrite !length_app, length_replicate. cbn [length]. lia.
Qed.

(** One name less; [rest] is what has not been read. *)
Lemma up_one_wp n fuel st gap rest src (Q : option Z -> mem -> Prop) : Forall name_ok st -> (length (buf (render st) gap rest) < n)%nat ->
  (st = [] -> Q None (image (buf (render st) gap rest))) ->
  (forall c st' gap', st = c :: st' -> buf (render st) gap rest = buf (render st') gap' rest -> length gap' = (length gap + length c + 1)%nat ->
    wp (path_loop n fuel full src (pos (length (render st')))) (image (buf (render st') gap' rest)) Q) ->
  wp (if pos (length (render st)) - 1 <? full then ret None else dst <- back_up n full (pos (length (render st)) - 1) ;; path_loop n fuel full src dst) (image (buf (render st) gap rest)) Q.
Proof using.
  intros Hst Hn H0 Hgo. destruct st as [|c st]; [rewrite (proj2 (Z.ltb_lt _ _)) by (cbn; lia); kstep; by apply H0|]. inversion Hst as [|? ? Hc _]; subst. unfold buf in Hn. cbn [render] in Hn. rewrite !length_app in Hn. cbn in Hn.
  replace (pos (length (render (c :: st))) - 1) with (pos (length (render st ++ c))) by (cbn [render]; rewrite !length_app; cbn; lia). rewrite (proj2 (Z.ltb_ge _ _)) by lia. kstep.
  eapply wp_mono; [apply (back_up_wp st c); [done|lia|]|]. { exists (47 :: gap ++ rest ++ [0]). unfold buf. cbn [render]. by rewrite <- !app_assoc. }
  intros r m' [-> ->]. assert (buf (render (c :: st)) gap rest = buf (render st) (c ++ [47] ++ gap) rest) as Eb by (unfold buf; cbn [render]; by rewrite <- !app_assoc). rewrite Eb. apply (Hgo c st _ eq_refl Eb). rewrite !length_app. cbn. lia.
Qed.

(** What the loop leaves in front of its end for the names [st]: the last one has
    a slash behind it or not. *)
Definition written (o : list Z) (st : list (list Z)) : Prop := o = render st \/ exists c st', st = c :: st' /\ c <> [] /\ o = render st' ++ c.
Definition loop_result (len : nat) (w : option (list (list Z))) (r : option Z) (m' : mem) : Prop :=
  exists b', length b' = len /\ m' = image b' /\
    match w with None => r = None | Some st' => Forall name_ok st' /\ exists o t, r = Some (pos (length o)) /\ b' = o ++ t /\ t <> [] /\ written o st' end.

Lemma walk_end x st : name_ok x -> x <> [46] -> x <> [46; 46] -> walk (names x) st = Some (if decide (x = []) then st else x :: st).
Proof using. intros Hx H1 H2. rewrite names_last by done. cbn [walk]. case_decide as H; [destruct H as [->|H]; [by rewrite decide_True|done]|]. rewrite decide_False by done. by rewrite decide_False by auto. Qed.
Lemma walk_push x more st : name_ok x -> x <> [] -> x <> [46] -> x <> [46; 46] -> walk (names (x ++ 47 :: more)) st = walk (names (drop_slashes more)) (x :: st).
Proof using. intros Hx H0 H1 H2. rewrite names_first, walk_drop_slashes by done. cbn [walk]. rewrite decide_False by (intros [?|?]; done). by rewrite decide_False. Qed.

Lemma next_wp st gap rest i c (Q : Z -> mem -> Prop) : (rest ++ [0]) !! i = Some c -> Q c (image (buf (render st) gap rest)) ->
  wp (load 1 (pos (length (render st) + length gap) + Z.of_nat i)) (image (buf (render st) gap rest)) Q.
Proof using. intros E HQ. rewrite <- Z.add_assoc, <- Nat2Z.inj_add. apply (load_image _ _ c); [by rewrite buf_next|done]. Qed.
Lemma next_wp0 st gap rest c (Q : Z -> mem -> Prop) : (rest ++ [0]) !! 0%nat = Some c -> Q c (image (buf (render st) gap rest)) ->
  wp (load 1 (pos (length (render st) + length gap))) (image (buf (render st) gap rest)) Q.
Proof using. intros E HQ. rewrite <- (Z.add_0_r (pos _)). by apply (next_wp st gap rest 0 c). Qed.
(** The characters [y] have been read and the slashes behind them are passed. *)
Lemma skipped_wp n st gap y more (Q : Z -> mem -> Prop) : (length (buf (render st) gap (y ++ more)) < n)%nat ->
  (forall gap', length (buf (render st) gap' (drop_slashes more)) = length (buf (render st) gap (y ++ more)) -> buf (render st) gap (y ++ more) = buf (render st) gap' (drop_slashes more) ->
    Q (pos (length (render st) + length gap')) (image (buf (render st) gap' (drop_slashes more)))) ->
  wp (skip_slashes n (pos (length (render st) + length gap) + Z.of_nat (length y))) (image (buf (render st) gap (y ++ more))) Q.
Proof using.
  intros Hn HQ. destruct (drop_slashes_app more) as [k Ek]. pose proof (f_equal length Ek) as El. rewrite length_app, length_replicate in El. rewrite buf_skip in *. rewrite <- Z.add_assoc, <- Nat2Z.inj_add, <- Nat.add_assoc, <- length_app.
  eapply wp_mono; [apply (skip_slashes_wp more); [unfold buf in Hn; rewrite !length_app in Hn; lia|unfold buf; rewrite (app_assoc (render st)), drop_app_length'; [done|by rewrite (length_app (render st))]]|]. intros r m' [-> ->].
  assert (buf (render st) (gap ++ y) more = buf (render st) ((gap ++ y) ++ replicate k 47) (drop_slashes more)) as Eb by (rewrite <- (buf_skip _ (gap ++ y)), <- Ek; done). rewrite Eb. replace (length (render st) + length (gap ++ y) + (length more - length (drop_slashes more)))%nat with (length (render st) + length ((gap ++ y) ++ replicate k 47%Z))%nat by (rewrite (length_app (gap ++ y)), length_replicate; lia).
  apply HQ; by rewrite <- Eb.
Qed.

Lemma path_loop_wp n fuel : forall st gap rest, chars_ok rest -> (match rest with c :: _ => c <> 47 | [] => True end) -> Forall name_ok st -> (length rest < fuel)%nat -> (length (buf (render st) gap rest) < n)%nat ->
  wp (path_loop n fuel full (pos (length (render st) + length gap)) (pos (length (render st)))) (image (buf (render st) gap rest)) (loop_result (length (buf (render st) gap rest)) (walk (names rest) st)).
Proof using.
  induction fuel as [|fuel IH]; intros st gap rest Hch Hfirst Hst Hf Hn; [lia|]. destruct (first_name rest Hch) as (x & tl & -> & Hx & Ht). cbn [path_loop]. cbv zeta.
  set (len := length (buf (render st) gap (x ++ tl))) in *. assert (chars_ok tl) as Htl by (by apply Forall_app in Hch as [_ ?]). rewrite length_app in Hf.
  assert (x <> [46] -> x <> [46; 46] -> (x = [] -> tl = []) -> wp ('(c, src, dst) <- copy_name n (pos (length (render st) + length gap)) (pos (length (render st))) ;;
      if c =? 47 then store 1 dst 47 ;; src <- skip_run n c src ;; path_loop n fuel full (src - 1) (dst + 1) else ret (Some dst)) (image (buf (render st) gap (x ++ tl))) (loop_result len (walk (names (x ++ tl)) st))) as Hcopy.
  { intros H1 H2 H0. apply copy_next_wp; [done|done|done| |].
    - intros -> gap' Hg. rewrite app_nil_r, walk_end by done. eexists. split; [|split; [done|]].
      + unfold len, buf. rewrite !length_app. cbn. rewrite ?app_nil_r, ?length_app. cbn. lia.
      + case_decide as Ex; (split; [by try constructor|]); exists (render st ++ x), (gap' ++ [0]); (split_and!; [done|by unfold buf|by destruct gap'|]); [left; subst; by rewrite app_nil_r|right; by exists x, st].
    - intros more gap' -> El. assert (x <> []) as Hne by (intros ->; by specialize (H0 eq_refl)). rewrite walk_push by done. unfold len. rewrite <- El. inversion Htl; subst. apply IH; [by apply drop_slashes_chars|apply drop_slashes_first|by constructor| |unfold len in Hn; lia].
      pose proof (drop_slashes_length more). cbn in Hf. destruct x; [done|cbn in Hf; lia]. }
  assert (forall y more gap', x = y -> tl = 47 :: more -> buf (render st) gap (y ++ tl) = buf (render st) gap' (drop_slashes more) -> (length (drop_slashes more) < fuel)%nat /\ chars_ok (drop_slashes more)) as Hmore.
  { intros y more gap' -> -> _. inversion Htl; subst. split; [|by apply drop_slashes_chars]. pose proof (drop_slashes_length more). cbn in Hf. lia. }
  destruct x as [|c1 x].
  { assert (tl = []) as -> by (destruct Ht as [->|[more ->]]; [done|cbn in Hfirst; lia]). kstep. apply (next_wp0 _ _ _ 0); [done|]. change (0 =? 46) with false. cbv iota. by apply Hcopy. }
  inversion Hx as [|? ? Hc1 Hx1]; subst. kstep. apply (next_wp0 _ _ _ c1); [done|]. destruct (Z.eqb_spec c1 46) as [->|Hn46]; [|by apply Hcopy; congruence].
  destruct x as [|c2 x].
  { destruct Ht as [->|[more ->]].
    - kstep. apply (next_wp _ _ _ 1 0); [done|]. change (0 =? 0) with true. cbv iota. rewrite names_last by done. cbn [walk]. rewrite decide_True by auto. change ([46] ++ []) with ([46] ++ [] : list Z). rewrite buf_skip in *.
      replace (pos (length (render st) + length gap) + 1) with (pos (length (render st) + length (gap ++ [46]))) by (rewrite length_app; cbn; lia).
      change (buf (render st) (gap ++ [46]) []) with (buf (render st) (gap ++ [46]) ([] ++ [])). apply (copy_next_wp n fuel st (gap ++ [46]) [] []); [by apply Forall_nil|by left|unfold len in Hn; rewrite buf_skip in Hn; exact Hn| |by intros ? ? ?].
      intros _ gap' Hg. exists (buf (render st) gap' []). rewrite app_nil_r. split; [unfold len, buf; rewrite !length_app; cbn; rewrite ?length_app; cbn; rewrite Hg, length_app; cbn; lia|]. split; [done|]. split; [done|]. exists (render st), (gap' ++ [0]). split_and!; [done|by unfold buf|by destruct gap'|by left].
    - kstep. apply (next_wp _ _ _ 1 47); [done|]. change (47 =? 0) with false. change (47 =? 47) with true. cbv iota. kstep. change ([46] ++ 47 :: more) with ([46; 47] ++ more) in *. apply (skipped_wp n st gap [46; 47] more); [done|]. intros gap' El Eb.
      assert (walk (names ([46; 47] ++ more)) st = walk (names (drop_slashes more)) st) as ->. { change ([46; 47] ++ more) with ([46] ++ 47 :: more). rewrite names_first, walk_drop_slashes by done. cbn [walk]. by rewrite decide_True by auto. }
      destruct (Hmore [46] more gap' eq_refl eq_refl Eb) as [M1 M2]. unfold len. rewrite <- El. apply IH; [done|apply drop_slashes_first|done|done|]. unfold len in Hn. lia. }
  inversion Hx1 as [|? ? Hc2 Hx2]; subst. kstep. apply (next_wp _ _ _ 1 c2); [done|]. rewrite (proj2 (Z.eqb_neq c2 0)), (proj2 (Z.eqb_neq c2 47)) by lia. destruct (Z.eqb_spec c2 46) as [->|Hn46]; [|by apply Hcopy; congruence].
  destruct x as [|c3 x]; [|inversion Hx2 as [|? ? Hc3 Hx3]; subst; kstep; apply (next_wp _ _ _ 2 c3); [done|]; rewrite (proj2 (Z.eqb_neq c3 0)), (proj2 (Z.eqb_neq c3 47)) by lia; by apply Hcopy].
  assert (forall gap' rest', chars_ok rest' -> (match rest' with c :: _ => c <> 47 | [] => True end) -> (length rest' < fuel)%nat -> length (buf (render st) gap' rest') = len ->
    wp (if pos (length (render st)) - 1 <? full then ret None else dst <- back_up n full (pos (length (render st)) - 1) ;; path_loop n fuel full (pos (length (render st) + length gap')) dst) (image (buf (render st) gap' rest'))
      (loop_result len (match st with [] => None | _ :: st => walk (names rest') st end))) as Hup.
  { intros gap' rest' R1 R2 R3 R4. apply up_one_wp; [done|lia| |].
    - intros ->. exists (buf (render []) gap' rest'). by split_and!.
    - intros c st' gap'' -> Eb Hg. replace (length (render (c :: st')) + length gap')%nat with (length (render st') + length gap'')%nat by (cbn [render]; rewrite !length_app; cbn; lia). rewrite <- R4, Eb. apply IH; [done|done|by inversion Hst|done|]. rewrite <- Eb, R4. done. }
  assert (forall tl', names ([46; 46] ++ tl) = [46; 46] :: tl' -> walk (names ([46; 46] ++ tl)) st = match st with [] => None | _ :: st => walk tl' st end) as Hwalk.
  { intros tl' ->. cbn [walk]. rewrite decide_False by (intros [?|?]; done). by rewrite decide_True. }
  kstep. destruct Ht as [->|[more ->]].
  - apply (next_wp _ _ _ 2 0); [done|]. change (0 =? 0) with true. cbv iota. rewrite (Hwalk []) by (by rewrite app_nil_r, names_last). replace (pos (length (render st) + length gap) + 2) with (pos (length (render st) + length (gap ++ [46; 46]))) by (rewrite length_app; cbn; lia).
    specialize (Hup (gap ++ [46; 46]) []). rewrite <- (buf_skip _ gap [46; 46] []) in Hup. specialize (Hup ltac:(constructor) I). cbn [length names] in Hup. cbn in Hf. specialize (Hup ltac:(lia) eq_refl). destruct st as [|c st]; [done|]. cbn [walk] in Hup |- *. by rewrite decide_True in Hup by auto.
  - apply (next_wp _ _ _ 2 47); [done|]. change (47 =? 0) with false. change (47 =? 47) with true. cbv iota. rewrite (Hwalk (names more)) by (by rewrite names_first). kstep. change ([46; 46] ++ 47 :: more) with ([46; 46; 47] ++ more) in *. apply (skipped_wp n st gap [46; 46; 47] more); [done|]. intros gap' El Eb.
    destruct (Hmore [46; 46] more gap' eq_refl eq_refl Eb) as [M1 M2]. specialize (Hup gap' (drop_slashes more) M2 (drop_slashes_first more) M1 El). destruct st as [|c st]; [done|]. by rewrite walk_drop_slashes in Hup.
Qed.
End path.

(** ** The text of the names *)

Lemma render_app st1 st2 : render (st1 ++ st2) = render st2 ++ render st1.
Proof. induction st1 as [|c st1 IH]; cbn; [by rewrite app_nil_r|]. by rewrite IH, <- !app_assoc. Qed.
Lemma join_rev c st : join (rev (c :: st)) = render st ++ c.
Proof.
  cbn [rev]. rewrite <- (rev_involutive st) at 2. generalize (rev st) as cs. induction cs as [|x cs IH]; [done|]. cbn [app rev]. rewrite render_app. cbn [render app]. destruct (cs ++ [c]) as [|y r] eqn:E; [by destruct cs|]. change (join (x :: y :: r)) with (x ++ 47 :: join (y :: r)). by rewrite IH, <- !app_assoc.
Qed.
Lemma path_text_written o st : Forall name_ok st -> written o st -> o <> [] ->
  path_text st = if decide ((1 < length o)%nat /\ last o = Some 47) then take (length o - 1) o else o.
Proof.
  intros Hst [->|(c & st' & -> & Hc & ->)] Hne.
  - destruct st as [|c st]; [done|]. assert (last (render (c :: st)) = Some 47) as Hl by (cbn [render]; by rewrite app_assoc, last_snoc). unfold path_text. destruct (decide (1 < length (render (c :: st)))%nat) as [H|H].
    + rewrite decide_False. 2: { intros [?|[= -> ->]]; [done|]. cbn in H. lia. } rewrite decide_True by done. rewrite join_rev. cbn [render]. rewrite app_assoc, length_app. cbn [length]. by rewrite Nat.add_sub, take_app_length.
    + rewrite (decide_False (P := _ /\ _)) by (intros [? _]; lia). cbn [render] in *. rewrite !length_app in H. cbn in H. assert (c = []) as -> by (destruct c; cbn in H; [done|lia]). assert (render st = []) as E by (destruct (render st); cbn in H; [done|lia]). assert (st = []) as -> by (destruct st as [|y st]; [done|]; cbn in E; by destruct (render st), y). by rewrite decide_True by auto.
  - assert (last (render st' ++ c) <> Some 47) as Hl. { inversion Hst as [|? ? Hc' _]; subst. destruct c as [|z c _] using rev_ind; [done|]. rewrite app_assoc, last_snoc. apply Forall_app in Hc' as [_ Hz]. inversion Hz as [|? ? [_ Hz'] _]; subst. congruence. }
    unfold path_text. rewrite decide_False by (intros [?|[= -> ->]]; done). rewrite (decide_False (P := _ /\ _)) by (intros [_ ?]; done). by rewrite join_rev.
Qed.
Lemma written_chars o st : Forall name_ok st -> written o st -> chars_ok o.
Proof.
  assert (forall st, Forall name_ok st -> chars_ok (render st)) as Hr.
  { clear. induction 1 as [|c st Hc _ IH]; [constructor|]. cbn [render]. apply Forall_app. split; [done|]. apply Forall_app. split; [|repeat constructor; lia]. eapply Forall_impl; [exact Hc|]. cbn. lia. }
  intros Hst [->|(c & st' & -> & _ & ->)]; [by apply Hr|]. inversion Hst as [|? ? Hc Hst']; subst. apply Forall_app. split; [by apply Hr|]. eapply Forall_impl; [exact Hc|]. cbn. lia.
Qed.

Section result.
Context (full : Z) (m0 : mem).
Notation pos k := (full + Z.of_nat k).

Definition result_of (st : list (list Z)) (len : nat) (r : Z) (m' : mem) : Prop := r = full /\ exists t, length (path_text st ++ 0 :: t) = len /\ m' = image full m0 (path_text st ++ 0 :: t).

(** With no name left the routine reads, and may write, the byte before the block. *)
Definition guarded (st : list (list Z)) : Prop := st = [] -> exists before, m0 !! (full - 1) = Some before /\ before <> 47.

Lemma finish_wp o y t st : guarded st -> Forall name_ok st -> written o st -> (2 <= length (o ++ y :: t))%nat -> wp (finish full (pos (length o))) (image full m0 (o ++ y :: t)) (result_of st (length (o ++ y :: t))).
Proof.
  intros Hg Hst Hw H2. pose proof (written_chars o st Hst Hw) as Hch. unfold finish. kstep. apply store_image; [rewrite length_app; cbn; lia|lia|]. rewrite insert_app_r_alt, Nat.sub_diag by lia. cbn [list_insert]. change (<[0%nat:=0]> (y :: t)) with (0 :: t). cbv zeta.
  destruct o as [|a o].
  - assert (st = []) as -> by (destruct Hw as [E|(c & st' & -> & Hc & E)]; [by destruct st as [|c st]; [|cbn in E; destruct (render st), c]|by destruct (render st'), c]). destruct (Hg eq_refl) as (before & H_before & H_slash). cbn [app length] in *. rewrite Z.add_0_r, (proj2 (Z.eqb_neq (full - 1) full)) by lia. cbn [negb when]. kstep. kstep.
    apply (wp_load1 _ _ before); [unfold image; by rewrite lookup_write_out by lia|]. rewrite (proj2 (Z.eqb_neq before 47)) by done. cbn [when]. kstep. kstep. rewrite <- (Z.add_0_r full) at 1. apply (load_image full m0 _ 0 0); [done|]. change (0 =? 0) with true. cbn [when]. kstep. kstep. rewrite <- (Z.add_0_r full) at 1. apply (store_image full m0 _ 0); [cbn; lia|lia|].
    apply (store_image full m0 _ 1); [cbn in *; lia|lia|]. kstep. split; [done|]. destruct t as [|z t]; [cbn in H2; lia|]. exists t. by split.
  - assert (1 <= a < 256) as Ha by (by inversion Hch). unfold result_of; rewrite (path_text_written (a :: o) st Hst Hw) by done.
    assert (forall b, (exists t', b = a :: t') -> wp (c <- load 1 full ;; when (c =? 0) (store 1 full 47 ;; store 1 (full + 1) 0) ;; ret full) (image full m0 b) (fun r m' => r = full /\ m' = image full m0 b)) as Hend.
    { intros b [t' ->]. kstep. rewrite <- (Z.add_0_r full) at 1. apply (load_image full m0 _ 0 a); [done|]. rewrite (proj2 (Z.eqb_neq a 0)) by lia. cbn [when]. kstep. kstep. kstep. by split. }
    destruct (Z.eqb_spec (pos (length (a :: o)) - 1) full) as [E|E].
    + assert (o = []) as -> by (destruct o; [done|cbn in E; lia]). rewrite (decide_False (P := _ /\ _)) by (cbn; lia). cbn [negb when]. kstep. kstep. eapply wp_mono; [apply Hend; by eexists|]. intros r m' [-> ->]. split; [done|]. exists t. split; [rewrite !length_app; cbn; lia|done].
    + assert (o <> []) as Ho by (intros ->; cbn in E; lia). destruct o as [|z o _] using rev_ind; [done|]. cbn [negb when]. change (a :: o ++ [z]) with ((a :: o) ++ [z]) in *. kstep. kstep.
      replace (pos (length ((a :: o) ++ [z])) - 1) with (pos (length (a :: o))) by (rewrite length_app; cbn; lia). apply (load_image full m0 _ _ z); [rewrite <- app_assoc, lookup_app_r, Nat.sub_diag by lia; done|]. rewrite last_snoc. assert (1 < length ((a :: o) ++ [z]))%nat as Hlen by (rewrite length_app; cbn; lia).
      destruct (Z.eqb_spec z 47) as [->|Hz]; cbn [when].
      * rewrite decide_True by done. apply store_image; [rewrite !length_app; cbn; lia|lia|]. rewrite <- app_assoc, insert_app_r_alt, Nat.sub_diag by lia. change (<[0%nat:=0]> ([47] ++ 0 :: t)) with (0 :: 0 :: t). eapply wp_mono; [apply Hend; by eexists|]. intros r m' [-> ->]. split; [done|]. replace (length ((a :: o) ++ [47%Z]) - 1)%nat with (length (a :: o)) by (rewrite length_app; cbn; lia). rewrite take_app_length. exists (0 :: t). split; [rewrite !length_app; cbn; lia|done].
      * rewrite decide_False by (intros [_ ?]; congruence). kstep. eapply wp_mono; [apply Hend; by eexists|]. intros r m' [-> ->]. split; [done|]. exists t. split; [rewrite !length_app; cbn; lia|done].
Qed.
End result.

(** Memory that differs from [m] between two addresses only. *)
Definition changed_in (m : mem) (a : Z) (n : nat) (m' : mem) : Prop := forall b, b < a \/ a + Z.of_nat n <= b -> m' !! b = m !! b.
Lemma image_changed full m b n : length b = n -> changed_in m full n (image full m b).
Proof. intros <- x Hx. unfold image. by rewrite lookup_write_out. Qed.
Lemma image_cstr full m l t : chars_ok l -> cstr (image full m (l ++ 0 :: t)) full l.
Proof.
  intros Hl. split; [done|]. unfold image. pose proof (read_write_same m full (length (l ++ 0 :: t)) (l ++ 0 :: t) eq_refl) as Hr. apply (read_bytes_take _ _ _ _ (S (length l))) in Hr; [|rewrite length_app; cbn; lia]. rewrite Hr. f_equal. unfold cstring. replace (l ++ 0 :: t) with ((l ++ [0]) ++ t) by (by rewrite <- app_assoc). replace (S (length l)) with (length (l ++ [0])) by (rewrite length_app; cbn; lia). by rewrite take_app_length.
Qed.
Lemma write_same m a l : read_bytes m a (length l) = Some l -> write_bytes a l m = m.
Proof.
  intros [_ H]%read_bytes_Some. apply map_eq. intros b. rewrite lookup_write_bytes. destruct (Z.leb_spec a b), (Z.ltb_spec b (a + Z.of_nat (length l))); cbn [andb]; try done. rewrite <- H by lia. f_equal. lia.
Qed.

Lemma path_text_chars st : Forall name_ok st -> chars_ok (path_text st).
Proof.
  intros Hst. unfold path_text. case_decide; [repeat constructor; lia|]. destruct st as [|c st]; [tauto|]. rewrite join_rev. inversion Hst as [|? ? Hc Hst']; subst. apply Forall_app. split; [by apply (written_chars _ st); [|left]|]. eapply Forall_impl; [exact Hc|]. cbn. lia.
Qed.

Lemma start_wp n full m l : chars_ok l -> l <> [] -> (S (length l) < n)%nat -> wp (path_loop n n full full full) (image full m (buf [] [] l)) (loop_result full m (S (length l)) (path_names l)).
Proof.
  intros Hch Hne Hn. assert (length (buf [] [] l) = S (length l)) as Hlen by (unfold buf; cbn; rewrite length_app; cbn; lia). replace (path_loop n n full full full) with (path_loop n n full (full + Z.of_nat 0) (full + Z.of_nat 0)) by (by rewrite Z.add_0_r).
  unfold path_names. destruct l as [|c l]; [done|]. destruct (Z.eqb_spec c 47) as [->|Hc].
  - inversion Hch; subst. destruct n as [|n]; [lia|]. cbn [path_loop]. cbv zeta. kstep. apply (next_wp0 full m [] [] (47 :: l) 47); [done|]. change (47 =? 46) with false. cbv iota. apply (copy_next_wp full m (S n) n [] [] [] (47 :: l)); [by apply Forall_nil|right; by eexists|cbn [app render]; lia|done|].
    intros more gap' [= <-] El. cbn [app] in El. change (render []) with ([] : list Z) in El. rewrite <- walk_drop_slashes. rewrite Hlen in El. rewrite <- El. pose proof (drop_slashes_length l). apply path_loop_wp; [by apply drop_slashes_chars|apply drop_slashes_first|repeat constructor|cbn in Hn; lia|lia].
  - rewrite <- Hlen. apply (path_loop_wp full m n n [] []); [done|done|by apply Forall_nil|lia|cbn [render]; lia].
Qed.
Lemma normalize_wp m full l : cstr m full l -> l <> [] -> (forall st, path_names l = Some st -> guarded full m st) ->
  wp (normalize full) m (fun r m' => changed_in m full (S (length l)) m' /\ match path_names l with None => r = 0 | Some st => r = full /\ Forall name_ok st /\ cstr m' full (path_text st) end).
Proof.
  intros Hs Hne Hg. pose proof (cstr_size _ _ _ Hs) as Hsz. destruct (Hs) as [Hch Hr]. assert (m = image full m (buf [] [] l)) as Em by (symmetry; apply write_same; unfold buf; cbn [app]; rewrite length_app; cbn [length]; by rewrite Nat.add_1_r).
  unfold normalize, mapped_bytes. kstep. kstep. kstep. eapply (wp_mono _ _ (loop_result full m (S (length l)) (path_names l))).
  - pose proof (start_wp (S (size m)) full m l Hch Hne ltac:(lia)) as Hst. by rewrite <- Em in Hst.
  - intros r m' (b & Hlb & -> & Hw). destruct (path_names l) as [st|].
    + destruct Hw as (Hst & o & t & -> & -> & Ht & Hw). destruct t as [|y t]; [done|]. eapply wp_mono; [apply (finish_wp full m); [by apply Hg|done|done|]|]. { rewrite Hlb. destruct l; [done|cbn; lia]. }
      intros r m' (-> & t' & Hlt & ->). split; [apply image_changed; lia|]. split_and!; [done|done|]. apply image_cstr. by apply path_text_chars.
    + subst r. kstep. split; [by apply image_changed|done].
Qed.

(** ** The whole routine *)

Definition path_format : list Z := [37; 115; 47; 37; 115].
Definition absolute (f : list Z) : bool := match f with c :: _ => c =? 47 | [] => false end.
Definition joined (d f : list Z) : list Z := if absolute f then f else d ++ 47 :: f.

Lemma field_plain l : field (-1) 0 l = l.
Proof. unfold field, blanks. change (has 0 LEFT) with false. cbv iota. by replace (Z.to_nat (-1 - Z.of_nat (length l))) with 0%nat by lia. Qed.
Lemma string_conversion strs fuel l a args x : strs a = Some x -> a <> 0 -> Printf.render strs (S fuel) (37 :: 115 :: l) (a :: args) = app x <$> Printf.render strs fuel l args.
Proof.
  intros Ea Ha. cbn [Printf.render]. change (negb (37 =? ch "%"%char)) with false. cbv beta iota. change (p_flags (115 :: l) 0) with (115 :: l, 0). cbv beta iota. change (p_width (115 :: l) 0 (a :: args)) with (Some (115 :: l, -1, 0, a :: args)). cbn [mbind option_bind]. cbv beta iota.
  change (p_precision (115 :: l) (a :: args)) with (Some (115 :: l, -1, a :: args)). cbn [mbind option_bind]. cbv beta iota. change (p_qualifier (115 :: l)) with (115 :: l, 0). cbv beta iota. change (first (115 :: l)) with 115. unfold conversion_text. change (115 =? ch "c"%char) with false. change (115 =? ch "s"%char) with true. cbv beta iota.
  rewrite (proj2 (Z.eqb_neq a 0)), Ea by done. cbn [mbind option_bind]. change (0 <? -1) with false. cbv beta iota. by rewrite field_plain.
Qed.
Lemma path_format_text strs a b d f : strs a = Some d -> strs b = Some f -> a <> 0 -> b <> 0 -> format_text strs path_format [a; b] = Some (d ++ 47 :: f).
Proof.
  intros Ea Eb Ha Hb. unfold format_text, path_format. cbn [length]. rewrite (string_conversion _ _ _ _ _ d) by done. assert (forall fuel l args, Printf.render strs (S fuel) (47 :: l) args = cons 47 <$> Printf.render strs fuel l args) as -> by done. rewrite (string_conversion _ _ _ _ _ f) by done. cbn. by rewrite app_nil_r.
Qed.
Lemma cstr_same m a l1 : forall l2 b, b = a -> cstr m a l1 -> cstr m b l2 -> l1 = l2.
Proof.
  revert a. induction l1 as [|c l1 IH]; intros a [|c2 l2] b -> H1 H2; [done|..].
  - apply cstr_nil in H1. apply cstr_cons in H2 as (E & ? & _). rewrite H1 in E. injection E. lia.
  - apply cstr_nil in H2. apply cstr_cons in H1 as (E & ? & _). rewrite H2 in E. injection E. lia.
  - apply cstr_cons in H1 as (E1 & _ & H1). apply cstr_cons in H2 as (E2 & _ & H2). rewrite E1 in E2. injection E2 as ->. f_equal. by apply (IH (a + 1) l2 (a + 1)).
Qed.
Lemma cstr_first m p f : cstr m p f -> m !! p = Some (default 0 (head f)).
Proof. destruct f as [|c f]; intros H; [by apply cstr_nil in H|]. by apply cstr_cons in H as (? & _). Qed.
Lemma changed_in_trans m p n m1 m2 : changed_in m p n m1 -> changed_in m1 p n m2 -> changed_in m p n m2.
Proof. intros H1 H2 b Hb. rewrite H2, H1 by done. done. Qed.

Lemma joined_ok d f : chars_ok d -> chars_ok f -> joined d f <> [] /\ chars_ok (joined d f).
Proof.
  intros Hd Hf. unfold joined, absolute. destruct f as [|c f]; [|destruct (c =? 47)]; (split; [try done; by destruct d|]); try done; (apply Forall_app; split; [done|]; constructor; [lia|done]).
Qed.

(** The block is apart from a string. *)
Definition clear_of (p : Z) (n : nat) (a : Z) (l : list Z) : Prop := a + Z.of_nat (length l) < p \/ p + Z.of_nat n <= a.

Section whole.
Context (m : mem) (p fmt working_directory directory filename : Z) (d f : list Z).
Let t := joined d f.
Let dir := if directory =? 0 then working_directory else directory.
Context (H_file : filename <> 0) (H_dir : dir <> 0) (H_f : cstr m filename f) (H_d : cstr m dir d) (H_fmt : cstr m fmt path_format).
Context (H_p : 0 < p) (H_size : p + Z.of_nat (length t) + 1 < 2 ^ 32) (H_len : Z.of_nat (length t) < 2 ^ 31).
Context (H_block : mapped m p (S (length t)) = true) (H_guard : forall st, path_names t = Some st -> guarded p m st).
Context (C_f : clear_of p (S (length t)) filename f) (C_d : clear_of p (S (length t)) dir d) (C_fmt : clear_of p (S (length t)) fmt path_format).

(** The block holds the text. *)
Lemma filled_wp : wp (normalize p) (write_bytes p (cstring t) m) (fun r m' => changed_in m p (S (length t)) m' /\ match path_names t with None => r = 0 | Some st => r = p /\ Forall name_ok st /\ cstr m' p (path_text st) end).
Proof using H_d H_f H_guard.
  destruct (joined_ok d f (proj1 H_d) (proj1 H_f)) as [Hne Hch]. fold t in Hne, Hch. assert (length (cstring t) = S (length t)) as Hl by (unfold cstring; rewrite length_app; cbn; lia). eapply wp_mono; [apply (normalize_wp _ p t); [|done|]|].
  - split; [done|]. by rewrite read_write_same.
  - intros st Est E. destruct (H_guard st Est E) as (b & Hb & ?). exists b. by rewrite lookup_write_out by lia.
  - intros r m' [Hc Hr]. split; [|done]. eapply changed_in_trans; [|exact Hc]. intros b Hb. by rewrite lookup_write_out by (rewrite Hl; done).
Qed.
Lemma dfs_normalize_path_wp : wp (dfs_normalize_path p fmt working_directory directory filename) m (fun r m' => changed_in m p (S (length t)) m' /\ match path_names t with None => r = 0 | Some st => r = p /\ Forall name_ok st /\ cstr m' p (path_text st) end).
Proof using All.
  unfold dfs_normalize_path. kstep. apply wp_assert; [by rewrite (proj2 (Z.eqb_neq filename 0))|]. cbv zeta. fold dir. kstep. apply (wp_load1 _ _ (default 0 (head f))); [by apply cstr_first|].
  assert (default 0 (head f) =? 47 = absolute f) as -> by by destruct f. rewrite (proj2 (Z.eqb_neq p 0)) by lia. pose proof filled_wp as Hfin. unfold t, joined in *. destruct (absolute f) eqn:Ea; cbn [negb].
  - kstep. eapply wp_mono; [by apply (rt_strlen_wp _ _ f)|]. intros r m' [-> ->]. kstep. assert (Z.to_nat (Z.of_nat (length f) + 1) = S (length f)) as En by lia. eapply wp_mono; [apply (rt_memcpy_wp _ p filename _ (cstring f))|intros r m' [_ ->]; exact Hfin].
    + rewrite En. by destruct H_f.
    + destruct H_f as [Hf _]. unfold cstring. apply Forall_app. split; [eapply Forall_impl; [exact Hf|]; cbn; lia|by repeat constructor].
    + by rewrite En.
    + lia.
    + unfold clear_of in C_f. lia.
  - kstep. eapply wp_mono; [by apply (rt_strlen_wp _ _ d)|]. intros r m' [-> ->]. kstep. eapply wp_mono; [by apply (rt_strlen_wp _ _ f)|]. intros r m' [-> ->]. kstep. unfold rt_snprintf. set (T := d ++ 47 :: f) in *. assert (length T = length d + length f + 1)%nat as HT by (unfold T; rewrite length_app; cbn; lia).
    replace (Z.of_nat (length d) + Z.of_nat (length f) + 2) with (Z.of_nat (length T) + 1) by lia.
    eapply wp_mono; [apply (rt_vsnprintf_wp m p (Z.of_nat (length T) + 1) fmt [dir; filename] path_format T (fun a => if decide (a = dir) then Some d else if decide (a = filename) then Some f else None)); try lia|].
    + unfold used_part. by replace (Z.to_nat (Z.of_nat (length T) + 1) `min` S (length T))%nat with (S (length T)) by lia.
    + split; [done|]. intros i Hi. unfold clear_of in C_fmt. lia.
    + intros a x. repeat case_decide; intros [= <-]; subst a; (split; [split; [done|]; intros i Hi; unfold clear_of in *; lia|lia]).
    + apply path_format_text; [by rewrite decide_True| |done|done]. case_decide as E; [|by rewrite decide_True]. f_equal. symmetry. by apply (cstr_same m filename f d dir).
    + intros r m' [_ ->]. assert (printed (Z.of_nat (length T) + 1) T = cstring T) as ->; [|exact Hfin]. unfold printed. rewrite (proj2 (Z.eqb_neq _ 0)) by lia. replace (Z.to_nat (Z.of_nat (length T) + 1) - 1)%nat with (length T) by lia. by rewrite take_ge by lia.
Qed.
End whole.

(** *** Absolute paths *)

Definition plain (x : list Z) : Prop := name_ok x /\ x <> [] /\ x <> [46] /\ x <> [46; 46].
Lemma path_names_ok l : chars_ok l -> Forall name_ok (names l).
Proof.
  induction 1 as [|c l Hc _ IH]; [by repeat constructor|]. cbn [names]. destruct (Z.eqb_spec c 47) as [->|Hn]; [by constructor; [apply Forall_nil|]|]. destruct (names l) as [|x r]; [by repeat constructor; lia|]. inversion IH; subst. constructor; [constructor; [lia|done]|done].
Qed.
Lemma walk_plain cs : forall st st', Forall name_ok cs -> Forall plain st -> walk cs st = Some st' -> Forall plain st'.
Proof.
  induction cs as [|c cs IH]; intros st st' Hc Hst; cbn [walk]; [by intros [= <-]|]. inversion Hc; subst. repeat case_decide; [by apply IH| |].
  - destruct st as [|x st]; [done|]. apply IH; [done|by inversion Hst].
  - apply IH; [done|]. constructor; [|done]. split_and!; [done|tauto|tauto|done].
Qed.
Lemma walk_base cs base : forall st st', walk cs st = Some st' -> walk cs (st ++ base) = Some (st' ++ base).
Proof.
  induction cs as [|c cs IH]; intros st st'; cbn [walk]; [by intros [= <-]|]. repeat case_decide; [by apply IH|destruct st; [done|by apply IH]|]. change (c :: st ++ base) with ((c :: st) ++ base). by apply IH.
Qed.
Lemma walk_names_join st : forall base, Forall plain st -> walk (names (join (rev st))) base = Some (st ++ base).
Proof.
  destruct st as [|c st]; intros base Hst; [done|]. rewrite join_rev. revert c base Hst. induction st as [|x st IH]; intros c base Hst.
  - inversion Hst as [|? ? (Hn & H0 & H1 & H2) _]; subst. cbn [render app]. rewrite walk_end by done. by rewrite decide_False.
  - inversion Hst as [|? ? (Hn & H0 & H1 & H2) Hst']; subst. cbn [render]. rewrite <- !app_assoc. cbn [app].
    assert (forall y l b, walk (names (y ++ 47 :: l)) b = match walk (names y) b with Some b' => walk (names l) b' | None => None end) as Hsplit.
    { clear. intros y l. assert (names (y ++ 47 :: l) = names y ++ names l) as ->. { induction y as [|z y IH]; [done|]. cbn [names app]. rewrite IH. destruct (z =? 47); [done|]. destruct (names y) eqn:E; [|done]. destruct y; cbn in E; [done|]. by repeat case_match. }
      generalize (names y) as cs. induction cs as [|c cs IH]; intros b; [done|]. cbn [walk app]. repeat case_decide; [done|by destruct b|done]. }
    rewrite app_assoc, Hsplit, IH by done. rewrite walk_end by done. by rewrite decide_False.
Qed.

(** The names of a path that never climbs above the root are kept behind it. *)
Lemma below_root l st : chars_ok l -> walk (names l) [] = Some st ->
  Forall plain st /\ path_names (47 :: l) = Some (st ++ [[]]) /\ path_text (st ++ [[]]) = 47 :: join (rev st) /\ path_names (47 :: join (rev st)) = Some (st ++ [[]]).
Proof.
  intros Hch Hw. pose proof (walk_plain _ _ _ (path_names_ok l Hch) ltac:(by apply Forall_nil) Hw) as Hp. pose proof (walk_base _ [[]] _ _ Hw) as Hpn. cbn [app] in Hpn.
  split; [done|]. split; [unfold path_names; by rewrite Z.eqb_refl|]. split; [|unfold path_names; rewrite Z.eqb_refl; by apply walk_names_join].
  unfold path_text. rewrite rev_app_distr. cbn [rev app]. destruct st as [|c st]; [done|]. rewrite decide_False.
  2: { intros [?|[= -> E]]; [done|]. inversion Hp as [|? ? (_ & ? & _) _]; done. }
  destruct (rev (c :: st)) as [|y r] eqn:E; [apply (f_equal length) in E; rewrite length_rev in E; done|]. done.
Qed.


(** Normalising a path that does not climb above the root a second time gives
    the same names. *)
Theorem normalize_absolute m full l st : cstr m full (47 :: l) -> walk (names l) [] = Some st ->
  wp (normalize full) m (fun r m' => r = full /\ changed_in m full (S (length (47 :: l))) m' /\ Forall plain st /\ cstr m' full (47 :: join (rev st)) /\ path_names (47 :: join (rev st)) = path_names (47 :: l)).
Proof.
  intros Hs Hw. assert (chars_ok l) as Hch by (destruct Hs as [Hc _]; by inversion Hc). destruct (below_root l st Hch Hw) as (Hp & Hpn & Et & Hid).
  eapply wp_mono; [apply (normalize_wp _ _ (47 :: l)); [done|done|]|].
  - rewrite Hpn. intros st' [= <-] E. by destruct st.
  - intros r m' [Hc Hr]. rewrite Hpn in Hr |- *. destruct Hr as (-> & _ & Hr). rewrite Et in Hr. by split_and!.
Qed.

(** A ".." at the root takes the root away: "/../x" becomes the relative path
    "x", and a second ".." makes the call fail. *)
Theorem normalize_loses_root m full x : plain x -> cstr m full (47 :: 46 :: 46 :: 47 :: x) ->
  wp (normalize full) m (fun r m' => r = full /\ cstr m' full x).
Proof.
  intros (Hn & H0 & H1 & H2) Hs.
  assert (path_names (47 :: 46 :: 46 :: 47 :: x) = Some [x]) as E. { unfold path_names. rewrite Z.eqb_refl. change (46 :: 46 :: 47 :: x) with ([46; 46] ++ 47 :: x). rewrite names_first, names_last by (done || by repeat constructor). cbn [walk]. rewrite (decide_False (P := [46; 46] = [] \/ _)) by (intros [?|?]; done). rewrite (decide_True (P := [46; 46] = [46; 46])) by done. rewrite decide_False by tauto. by rewrite decide_False. }
  eapply wp_mono; [apply (normalize_wp _ _ (47 :: 46 :: 46 :: 47 :: x)); [done|done|]|]; [rewrite E; by intros st [= <-]|]. intros r m' [_ Hr].
  rewrite E in Hr. destruct Hr as (-> & _ & Hr). split; [done|]. unfold path_text in Hr. rewrite decide_False in Hr by (intros [?|[= ?]]; done). done.
Qed.

(** ** Witnesses *)

(** The file "b/../c" in the working directory "/a"; the block is at 400. *)
Definition sample_paths : mem := write_bytes 100 (cstring [98; 47; 46; 46; 47; 99]) (write_bytes 200 (cstring [47; 97]) (write_bytes 300 (cstring path_format) (write_bytes 399 (replicate 11 0) ∅))).
(** "/a/./b/../c" at 400 *)
Definition sample_path (l : list Z) : mem := write_bytes 399 (0 :: cstring l) ∅.
Lemma normalize_absolute_witness : wp (normalize 400) (sample_path [47; 97; 47; 46; 47; 98; 47; 46; 46; 47; 99]) (fun r m' => r = 400 /\ cstr m' 400 [47; 97; 47; 99]).
Proof.
  eapply wp_mono; [apply (normalize_absolute _ 400 [97; 47; 46; 47; 98; 47; 46; 46; 47; 99] [[99]; [97]]); [split; [repeat constructor; lia|by vm_compute]|by vm_compute]|]. by intros r m' (-> & _ & _ & H & _).
Defined.
Lemma normalize_loses_root_witness : wp (normalize 400) (sample_path [47; 46; 46; 47; 97]) (fun r m' => r = 400 /\ cstr m' 400 [97]).
Proof. apply (normalize_loses_root _ 400 [97]); [split_and!; [repeat constructor; lia|done..]|split; [repeat constructor; lia|by vm_compute]]. Defined.
