(* ===== verification/RingBuf.v ===== *)
(** * Ring buffers (components/drivers/src/ringbuffer.c)

    The byte buffer the device drivers put between an interrupt and a thread.
    [rt_ringbuffer] is the structure of ipc/ringbuffer.h with the bytes of its
    pool; the two indices are bit fields of 15 bits, each with a mirror bit of
    its own, and the arithmetic is brought back to those widths where the source
    stores it.  The buffers of the caller are byte lists; a copy past the end of
    a list is [UB].  [rb_rep rb l] says that the buffer holds the bytes [l],
    oldest first: the routines implement a queue of at most [buffer_size]
    bytes. *)

From S2P Require Import Prelude KState.

(** struct rt_ringbuffer *)
Record rt_ringbuffer := mkRb {
  rb_buffer : list Z;  (** the bytes at buffer_ptr *)
  rb_read_mirror : Z;  (** rt_uint16_t : 1 *)
  rb_read_index : Z;  (** rt_uint16_t : 15 *)
  rb_write_mirror : Z;  (** rt_uint16_t : 1 *)
  rb_write_index : Z;  (** rt_uint16_t : 15 *)
  rb_buffer_size : Z  (** rt_int16_t *)
}.

Inductive rt_ringbuffer_state := RT_RINGBUFFER_EMPTY | RT_RINGBUFFER_FULL | RT_RINGBUFFER_HALFFULL.

#[global] Instance rt_ringbuffer_state_eq_dec : EqDecision rt_ringbuffer_state.
Proof. solve_decision. Defined.

(** Bit fields of one and of fifteen bits. *)
Definition bit1 (x : Z) : Z := x `mod` 2.
Definition bit15 (x : Z) : Z := x `mod` 2 ^ 15.

Definition set_rb_read (m i : Z) (rb : rt_ringbuffer) : rt_ringbuffer :=
  mkRb (rb_buffer rb) m i (rb_write_mirror rb) (rb_write_index rb) (rb_buffer_size rb).
Definition set_rb_write (m i : Z) (rb : rt_ringbuffer) : rt_ringbuffer :=
  mkRb (rb_buffer rb) (rb_read_mirror rb) (rb_read_index rb) m i (rb_buffer_size rb).
Definition set_rb_buffer (b : list Z) (rb : rt_ringbuffer) : rt_ringbuffer :=
  mkRb b (rb_read_mirror rb) (rb_read_index rb) (rb_write_mirror rb) (rb_write_index rb) (rb_buffer_size rb).

Definition R (A : Type) : Type := M rt_ringbuffer A.

(** [n] bytes from [&p[i]]. *)
Definition bytes_at (p : list Z) (i n : Z) : option (list Z) :=
  if (0 <=? i) && (0 <=? n) && (i + n <=? Z.of_nat (length p)) then Some (take (Z.to_nat n) (drop (Z.to_nat i) p)) else None.
(** [p] with the bytes [d] written from [&p[i]]. *)
Definition write_at (p : list Z) (i : Z) (d : list Z) : option (list Z) :=
  if (0 <=? i) && (i + Z.of_nat (length d) <=? Z.of_nat (length p))
  then Some (list_inserts (Z.to_nat i) d p) else None.

(** memcpy(&rb->buffer_ptr[i], &p[j], n) *)
Definition copy_in (i : Z) (p : list Z) (j n : Z) : R unit :=
  d <- deref (fun _ => bytes_at p j n) ;;
  b <- deref (fun rb => write_at (rb_buffer rb) i d) ;;
  modify (set_rb_buffer b).
(** The bytes memcpy(.., &rb->buffer_ptr[i], n) copies out. *)
Definition copy_out (i n : Z) : R (list Z) := deref (fun rb => bytes_at (rb_buffer rb) i n).

Definition rt_ringbuffer_status (rb : rt_ringbuffer) : rt_ringbuffer_state :=
  if rb_read_index rb =? rb_write_index rb then
    if rb_read_mirror rb =? rb_write_mirror rb then RT_RINGBUFFER_EMPTY else RT_RINGBUFFER_FULL
  else RT_RINGBUFFER_HALFFULL.

(** rt_size_t: the values are brought to 32 bits. *)
Definition rt_ringbuffer_data_len (rb : rt_ringbuffer) : Z :=
  match rt_ringbuffer_status rb with
  | RT_RINGBUFFER_EMPTY => 0
  | RT_RINGBUFFER_FULL => u32 (rb_buffer_size rb)
  | RT_RINGBUFFER_HALFFULL =>
      if rb_read_index rb <? rb_write_index rb then u32 (rb_write_index rb - rb_read_index rb)
      else u32 (rb_buffer_size rb - (rb_read_index rb - rb_write_index rb))
  end.
Definition rt_ringbuffer_space_len (rb : rt_ringbuffer) : Z :=
  u32 (rb_buffer_size rb - rt_ringbuffer_data_len rb).
Definition rt_ringbuffer_get_size (rb : rt_ringbuffer) : Z := u16 (rb_buffer_size rb).

(** rt_ringbuffer_init on a structure whose memory holds anything. *)
Definition rt_ringbuffer_init (pool : list Z) (size : Z) : R unit :=
  RT_ASSERT (0 <? size) ;;
  modify (fun _ => mkRb pool 0 0 0 0 (i16 (RT_ALIGN_DOWN size RT_ALIGN_SIZE))).

Definition rt_ringbuffer_reset : R unit :=
  modify (fun rb => set_rb_write 0 0 (set_rb_read 0 0 rb)).

Definition rt_ringbuffer_put (ptr : list Z) (length : Z) : R Z :=
  size <- gets (fun rb => u16 (rt_ringbuffer_space_len rb)) ;;
  if size =? 0 then ret 0 else
  let length := if size <? length then size else length in
  rb <- get ;;
  let w := rb_write_index rb in
  let room := rb_buffer_size rb - w in
  if length <? room then
    copy_in w ptr 0 length ;;
    modify (set_rb_write (rb_write_mirror rb) (bit15 (w + length))) ;;
    ret length
  else
    copy_in w ptr 0 room ;;
    copy_in 0 ptr room (length - room) ;;
    modify (set_rb_write (bit1 (Z.lnot (rb_write_mirror rb))) (bit15 (length - room))) ;;
    ret length.

Definition rt_ringbuffer_put_force (ptr : list Z) (length : Z) : R Z :=
  space_length <- gets (fun rb => u16 (rt_ringbuffer_space_len rb)) ;;
  rb <- get ;;
  let size := rb_buffer_size rb in
  '(ptr, length) <- (if size <? length then p <- deref (fun _ => bytes_at ptr (length - size) size) ;; ret (p, u16 size)
                     else ret (ptr, length)) ;;
  let w := rb_write_index rb in
  let room := size - w in
  if length <? room then
    copy_in w ptr 0 length ;;
    modify (set_rb_write (rb_write_mirror rb) (bit15 (w + length))) ;;
    when (space_length <? length)
      (modify (fun rb => set_rb_read (rb_read_mirror rb) (rb_write_index rb) rb)) ;;
    ret length
  else
    copy_in w ptr 0 room ;;
    copy_in 0 ptr room (length - room) ;;
    modify (set_rb_write (bit1 (Z.lnot (rb_write_mirror rb))) (bit15 (length - room))) ;;
    when (space_length <? length)
      (modify (fun rb => set_rb_read (bit1 (Z.lnot (rb_read_mirror rb))) (rb_write_index rb) rb)) ;;
    ret length.

(** The result and the bytes the caller's buffer receives. *)
Definition rt_ringbuffer_get (length : Z) : R (Z * list Z) :=
  size <- gets rt_ringbuffer_data_len ;;
  if size =? 0 then ret (0, []) else
  let length := if size <? length then u16 size else length in
  rb <- get ;;
  let r := rb_read_index rb in
  let room := rb_buffer_size rb - r in
  if length <? room then
    d <- copy_out r length ;;
    modify (set_rb_read (rb_read_mirror rb) (bit15 (r + length))) ;;
    ret (length, d)
  else
    d1 <- copy_out r room ;;
    d2 <- copy_out 0 (length - room) ;;
    modify (set_rb_read (bit1 (Z.lnot (rb_read_mirror rb))) (bit15 (length - room))) ;;
    ret (length, d1 ++ d2).

Definition rt_ringbuffer_putchar (ch : Z) : R Z :=
  space <- gets rt_ringbuffer_space_len ;;
  if space =? 0 then ret 0 else
  rb <- get ;;
  copy_in (rb_write_index rb) [ch] 0 1 ;;
  (if rb_write_index rb =? rb_buffer_size rb - 1
   then modify (set_rb_write (bit1 (Z.lnot (rb_write_mirror rb))) 0)
   else modify (set_rb_write (rb_write_mirror rb) (bit15 (rb_write_index rb + 1)))) ;;
  ret 1.

Definition rt_ringbuffer_putchar_force (ch : Z) : R Z :=
  old_state <- gets rt_ringbuffer_status ;;
  rb <- get ;;
  copy_in (rb_write_index rb) [ch] 0 1 ;;
  (if rb_write_index rb =? rb_buffer_size rb - 1 then
     modify (set_rb_write (bit1 (Z.lnot (rb_write_mirror rb))) 0) ;;
     when (bool_decide (old_state = RT_RINGBUFFER_FULL))
       (modify (fun rb => set_rb_read (bit1 (Z.lnot (rb_read_mirror rb))) (rb_write_index rb) rb))
   else
     modify (set_rb_write (rb_write_mirror rb) (bit15 (rb_write_index rb + 1))) ;;
     when (bool_decide (old_state = RT_RINGBUFFER_FULL))
       (modify (fun rb => set_rb_read (rb_read_mirror rb) (rb_write_index rb) rb))) ;;
  ret 1.

(** The result and the byte stored through [ch], if any. *)
Definition rt_ringbuffer_getchar : R (Z * option Z) :=
  len <- gets rt_ringbuffer_data_len ;;
  if len =? 0 then ret (0, None) else
  rb <- get ;;
  d <- copy_out (rb_read_index rb) 1 ;;
  (if rb_read_index rb =? rb_buffer_size rb - 1
   then modify (set_rb_read (bit1 (Z.lnot (rb_read_mirror rb))) 0)
   else modify (set_rb_read (rb_read_mirror rb) (bit15 (rb_read_index rb + 1)))) ;;
  ret (1, head d).

(** rt_ringbuffer_create: the structure and the pool come from two calls of
    rt_malloc, [rb_mem] and [pool_mem]; the result is the new buffer. *)
Definition rt_ringbuffer_create (size : Z) (rb_mem : bool) (pool_mem : option (list Z)) : R bool :=
  RT_ASSERT (0 <? size) ;;
  let size := u16 (RT_ALIGN_DOWN size RT_ALIGN_SIZE) in
  if negb rb_mem then ret false
  else match pool_mem with
       | None => ret false
       | Some pool => rt_ringbuffer_init pool (i16 size) ;; ret true
       end.

(** ** What the buffer holds

    [turn rb] is 0 when reader and writer are in the same mirror and one whole
    buffer when the writer is one mirror ahead. *)

Definition turn (rb : rt_ringbuffer) : Z :=
  if rb_read_mirror rb =? rb_write_mirror rb then 0 else rb_buffer_size rb.
(** Index [i], less than two buffers, brought into the buffer. *)
Definition ring_pos (size i : Z) : Z := if i <? size then i else i - size.
(** How far index [k] is from [w], going up and around. *)
Definition ring_dist (size w k : Z) : Z := if w <=? k then k - w else k + size - w.

Record rb_rep (rb : rt_ringbuffer) (l : list Z) : Prop := {
  rr_size : 0 < rb_buffer_size rb < 2 ^ 15;
  rr_pool : rb_buffer_size rb <= Z.of_nat (length (rb_buffer rb));
  rr_read_mirror : 0 <= rb_read_mirror rb < 2;
  rr_write_mirror : 0 <= rb_write_mirror rb < 2;
  rr_read : 0 <= rb_read_index rb < rb_buffer_size rb;
  rr_write : 0 <= rb_write_index rb < rb_buffer_size rb;
  rr_len : rb_read_index rb + Z.of_nat (length l) = rb_write_index rb + turn rb;
  rr_fits : Z.of_nat (length l) <= rb_buffer_size rb;
  rr_bytes : forall i, (i < length l)%nat ->
    rb_buffer rb !! Z.to_nat (ring_pos (rb_buffer_size rb) (rb_read_index rb + Z.of_nat i)) = l !! i
}.

(** Index and mirror bit after moving up by [n], at most one buffer. *)
Definition advance (size m i n : Z) : Z * Z := if i + n <? size then (m, i + n) else (1 - m, i + n - size).

Definition read_by (n : Z) (rb : rt_ringbuffer) : rt_ringbuffer :=
  let p := advance (rb_buffer_size rb) (rb_read_mirror rb) (rb_read_index rb) n in set_rb_read (fst p) (snd p) rb.
Definition write_by (n : Z) (rb : rt_ringbuffer) : rt_ringbuffer :=
  let p := advance (rb_buffer_size rb) (rb_write_mirror rb) (rb_write_index rb) n in set_rb_write (fst p) (snd p) rb.

(** [b'] is [b] with [d] written into the ring of [size] bytes from index [w]. *)
Definition ring_written (size w : Z) (d b b' : list Z) : Prop :=
  length b' = length b /\ forall k, 0 <= k < size ->
    b' !! Z.to_nat k = if ring_dist size w k <? Z.of_nat (length d) then d !! Z.to_nat (ring_dist size w k) else b !! Z.to_nat k.

Ltac ring_cases := unfold advance, ring_pos, ring_dist, turn in *; cbn [rb_buffer rb_read_mirror rb_read_index rb_write_mirror rb_write_index rb_buffer_size fst snd set_rb_read set_rb_write set_rb_buffer] in *; repeat
  match goal with
  | |- context [?a <? ?b] => destruct (Z.ltb_spec a b)
  | H : context [?a <? ?b] |- _ => destruct (Z.ltb_spec a b)
  | |- context [?a <=? ?b] => destruct (Z.leb_spec a b)
  | H : context [?a <=? ?b] |- _ => destruct (Z.leb_spec a b)
  | |- context [?a =? ?b] => destruct (Z.eqb_spec a b)
  | H : context [?a =? ?b] |- _ => destruct (Z.eqb_spec a b)
  end; cbn [fst snd] in *; try lia.

Lemma rep_data_len rb l : rb_rep rb l -> rt_ringbuffer_data_len rb = Z.of_nat (length l).
Proof.
  intros [H1 H2 H3 H4 H5 H6 H7 H8 _]. unfold rt_ringbuffer_data_len, rt_ringbuffer_status.
  ring_cases; rewrite ?u32_small; lia.
Qed.
Lemma rep_space_len rb l : rb_rep rb l -> rt_ringbuffer_space_len rb = rb_buffer_size rb - Z.of_nat (length l).
Proof. intros H. unfold rt_ringbuffer_space_len. rewrite (rep_data_len rb l H). destruct H. apply u32_small. lia. Qed.

(** Taking [n] bytes away from the front moves the reader up by [n]. *)
Lemma rep_drop rb l n : rb_rep rb l -> (n <= length l)%nat -> rb_rep (read_by (Z.of_nat n) rb) (drop n l).
Proof.
  intros [H1 H2 H3 H4 H5 H6 H7 H8 H9] Hn. unfold read_by.
  split; rewrite ?length_drop; try (ring_cases; lia).
  intros i Hi. rewrite lookup_drop, <- H9 by lia. clear H9. f_equal. ring_cases.
Qed.

(** Writing [d] where it fits moves the writer up and appends [d]. *)
Lemma rep_append rb l d b' :
  rb_rep rb l -> Z.of_nat (length l) + Z.of_nat (length d) <= rb_buffer_size rb ->
  ring_written (rb_buffer_size rb) (rb_write_index rb) d (rb_buffer rb) b' ->
  rb_rep (write_by (Z.of_nat (length d)) (set_rb_buffer b' rb)) (l ++ d).
Proof.
  intros [H1 H2 H3 H4 H5 H6 H7 H8 H9] Hn [Hl Hw]. unfold write_by.
  split; rewrite ?length_app; try (ring_cases; lia).
  intros i Hi. cbn. change (rb_buffer (set_rb_write _ _ _)) with b'. rewrite Hw by (clear H9 Hw; ring_cases).
  destruct (decide (i < length l)%nat) as [Hi'|Hi'].
  - rewrite lookup_app_l by done. rewrite <- H9 by done. clear Hw H9.
    destruct (Z.ltb_spec (ring_dist (rb_buffer_size rb) (rb_write_index rb)
      (ring_pos (rb_buffer_size rb) (rb_read_index rb + Z.of_nat i))) (Z.of_nat (length d))); [|done]. exfalso. ring_cases.
  - rewrite lookup_app_r by lia. clear Hw H9.
    assert (ring_dist (rb_buffer_size rb) (rb_write_index rb) (ring_pos (rb_buffer_size rb) (rb_read_index rb + Z.of_nat i))
      = Z.of_nat i - Z.of_nat (length l)) as -> by ring_cases.
    rewrite (proj2 (Z.ltb_lt _ _)) by lia. f_equal. lia.
Qed.

(** ** The routines *)

Lemma bytes_at_take p i n :
  0 <= i -> 0 <= n -> i + n <= Z.of_nat (length p) -> bytes_at p i n = Some (take (Z.to_nat n) (drop (Z.to_nat i) p)).
Proof. intros. unfold bytes_at. by rewrite !(proj2 (Z.leb_le _ _)) by lia. Qed.

Lemma copy_in_wp i p j n rb (Q : unit -> rt_ringbuffer -> Prop) :
  0 <= j -> 0 <= n -> j + n <= Z.of_nat (length p) -> 0 <= i -> i + n <= Z.of_nat (length (rb_buffer rb)) ->
  Q tt (set_rb_buffer (list_inserts (Z.to_nat i) (take (Z.to_nat n) (drop (Z.to_nat j) p)) (rb_buffer rb)) rb) ->
  wp (copy_in i p j n) rb Q.
Proof.
  intros Hj Hn Hjn Hi Hin HQ. unfold copy_in. kstep. eapply wp_deref; [by apply bytes_at_take|]. kstep.
  eapply wp_deref; [|by kstep]. unfold write_at.
  rewrite length_take, length_drop, !(proj2 (Z.leb_le _ _)) by lia. done.
Qed.
Lemma copy_out_wp i n rb (Q : list Z -> rt_ringbuffer -> Prop) :
  0 <= i -> 0 <= n -> i + n <= Z.of_nat (length (rb_buffer rb)) ->
  Q (take (Z.to_nat n) (drop (Z.to_nat i) (rb_buffer rb))) rb -> wp (copy_out i n) rb Q.
Proof. intros. eapply wp_deref; [by apply bytes_at_take|done]. Qed.

Lemma written_one size w d b :
  0 <= w -> w + Z.of_nat (length d) <= size -> size <= Z.of_nat (length b) ->
  ring_written size w d b (list_inserts (Z.to_nat w) d b).
Proof.
  intros Hw Hd Hb. split; [apply length_inserts|]. intros k Hk.
  destruct (Z.ltb_spec (ring_dist size w k) (Z.of_nat (length d))).
  - rewrite list_lookup_inserts by (ring_cases; lia). f_equal. ring_cases.
  - destruct (decide (k < w)); [apply list_lookup_inserts_lt; lia|]. apply list_lookup_inserts_ge. ring_cases.
Qed.
Lemma written_two size w d1 d2 b :
  0 <= w < size -> w + Z.of_nat (length d1) = size -> Z.of_nat (length d2) <= w -> size <= Z.of_nat (length b) ->
  ring_written size w (d1 ++ d2) b (list_inserts 0 d2 (list_inserts (Z.to_nat w) d1 b)).
Proof.
  intros Hw H1 H2 Hb. split; [by rewrite !length_inserts|]. intros k Hk. rewrite length_app.
  destruct (decide (k < Z.of_nat (length d2))).
  - rewrite list_lookup_inserts by (rewrite ?length_inserts; lia). rewrite (proj2 (Z.ltb_lt _ _)) by ring_cases.
    rewrite lookup_app_r by ring_cases. f_equal. ring_cases.
  - rewrite list_lookup_inserts_ge by lia. destruct (decide (k < w)).
    + rewrite list_lookup_inserts_lt by lia. rewrite (proj2 (Z.ltb_ge _ _)) by ring_cases. done.
    + rewrite list_lookup_inserts by lia. rewrite (proj2 (Z.ltb_lt _ _)) by ring_cases.
      rewrite lookup_app_l by ring_cases. f_equal. ring_cases.
Qed.

Lemma bit1_flip m : 0 <= m < 2 -> bit1 (Z.lnot m) = 1 - m.
Proof. intros. assert (m = 0 \/ m = 1) as [-> | ->] by lia; done. Qed.
Lemma bit15_small x : 0 <= x < 2 ^ 15 -> bit15 x = x.
Proof. apply Z.mod_small. Qed.

(** The copy both put routines make: [n] bytes into the ring from the write
    index, around the end if need be, and the write index moved up. *)
Lemma ring_put_wp {A} rb p n (k1 k2 : R A) Q :
  0 < rb_buffer_size rb < 2 ^ 15 -> rb_buffer_size rb <= Z.of_nat (length (rb_buffer rb)) ->
  0 <= rb_write_mirror rb < 2 -> 0 <= rb_write_index rb < rb_buffer_size rb ->
  0 <= n <= rb_buffer_size rb -> n <= Z.of_nat (length p) ->
  let room := rb_buffer_size rb - rb_write_index rb in
  (forall b', ring_written (rb_buffer_size rb) (rb_write_index rb) (take (Z.to_nat n) p) (rb_buffer rb) b' ->
    wp (if n <? room then k1 else k2) (write_by n (set_rb_buffer b' rb)) Q) ->
  wp (if n <? room then
        copy_in (rb_write_index rb) p 0 n ;;
        modify (set_rb_write (rb_write_mirror rb) (bit15 (rb_write_index rb + n))) ;; k1
      else
        copy_in (rb_write_index rb) p 0 room ;;
        copy_in 0 p room (n - room) ;;
        modify (set_rb_write (bit1 (Z.lnot (rb_write_mirror rb))) (bit15 (n - room))) ;; k2) rb Q.
Proof.
  intros H1 H2 H3 H4 Hn Hp room HQ. unfold room in *. destruct (Z.ltb_spec n (rb_buffer_size rb - rb_write_index rb)).
  - kstep. apply copy_in_wp; [lia..|]. kstep. kstep. rewrite bit15_small by lia. rewrite drop_0.
    eassert (ring_written _ _ _ _ _) as W by (apply (written_one (rb_buffer_size rb) (rb_write_index rb) (take (Z.to_nat n) p) (rb_buffer rb)); rewrite ?length_take; lia).
    apply HQ in W. unfold write_by, advance in W. cbn [rb_buffer_size rb_write_index rb_write_mirror set_rb_buffer] in W.
    by rewrite (proj2 (Z.ltb_lt _ _)) in W by lia.
  - kstep. apply copy_in_wp; [lia..|]. kstep. apply copy_in_wp; [cbn; rewrite ?length_inserts; lia..|]. kstep. kstep.
    rewrite bit1_flip, bit15_small by lia. rewrite drop_0.
    eassert (ring_written _ _ _ _ _) as W.
    { apply (written_two (rb_buffer_size rb) (rb_write_index rb) (take (Z.to_nat (rb_buffer_size rb - rb_write_index rb)) p)
        (take (Z.to_nat (n - (rb_buffer_size rb - rb_write_index rb))) (drop (Z.to_nat (rb_buffer_size rb - rb_write_index rb)) p)) (rb_buffer rb));
        rewrite ?length_take, ?length_drop; lia. }
    rewrite take_take_drop in W.
    replace (Z.to_nat _ + Z.to_nat _)%nat with (Z.to_nat n) in W by lia.
    apply HQ in W. unfold write_by, advance in W. cbn [rb_buffer_size rb_write_index rb_write_mirror set_rb_buffer] in W.
    rewrite (proj2 (Z.ltb_ge _ _)) in W by lia. cbn [fst snd] in W.
    by replace (rb_write_index rb + n - rb_buffer_size rb) with (n - (rb_buffer_size rb - rb_write_index rb)) in W by lia.
Qed.

(** The bytes of the ring from the read index are the front of what it holds. *)
Lemma rep_front rb l n :
  rb_rep rb l -> 0 <= n <= Z.of_nat (length l) ->
  let room := rb_buffer_size rb - rb_read_index rb in
  take (Z.to_nat n) l = if n <? room then take (Z.to_nat n) (drop (Z.to_nat (rb_read_index rb)) (rb_buffer rb))
    else take (Z.to_nat room) (drop (Z.to_nat (rb_read_index rb)) (rb_buffer rb)) ++ take (Z.to_nat (n - room)) (rb_buffer rb).
Proof.
  intros [H1 H2 H3 H4 H5 H6 H7 H8 H9] Hn room. unfold room. apply list_eq. intros i.
  destruct (decide (i < Z.to_nat n)%nat) as [Hi|Hi].
  - rewrite lookup_take_lt by done. rewrite <- H9 by lia. clear H9.
    destruct (Z.ltb_spec n (rb_buffer_size rb - rb_read_index rb)).
    + rewrite lookup_take_lt, lookup_drop by lia. f_equal. ring_cases.
    + destruct (decide (Z.of_nat i < rb_buffer_size rb - rb_read_index rb)).
      * rewrite lookup_app_l by (rewrite length_take, length_drop; lia).
        rewrite lookup_take_lt, lookup_drop by lia. f_equal. ring_cases.
      * rewrite lookup_app_r by (rewrite length_take, length_drop; lia). rewrite length_take, length_drop.
        rewrite lookup_take_lt by lia. f_equal. ring_cases.
  - rewrite lookup_ge_None_2 by (rewrite length_take; lia). symmetry. apply lookup_ge_None_2.
    destruct (Z.ltb_spec n (rb_buffer_size rb - rb_read_index rb)); rewrite ?length_app, ?length_take, ?length_drop; lia.
Qed.

Lemma rt_ringbuffer_put_wp rb l p n :
  rb_rep rb l -> 0 <= n < 2 ^ 16 -> n <= Z.of_nat (length p) ->
  let k := Z.min n (rb_buffer_size rb - Z.of_nat (length l)) in
  wp (rt_ringbuffer_put p n) rb (fun r rb' =>
    r = k /\ rb_rep rb' (l ++ take (Z.to_nat k) p) /\ rb_buffer_size rb' = rb_buffer_size rb).
Proof.
  intros H Hn Hp k. pose proof H as [H1 H2 H3 H4 H5 H6 H7 H8 _]. unfold rt_ringbuffer_put. kstep. kstep.
  rewrite (rep_space_len rb l H), u16_small by lia. set (sp := rb_buffer_size rb - Z.of_nat (length l)) in *.
  assert ((if sp <? n then sp else n) = k) as -> by (unfold k; destruct (Z.ltb_spec sp n); lia).
  destruct (Z.eqb_spec sp 0) as [E|E].
  - kstep. assert (k = 0) as -> by (unfold k; lia). cbn [Z.to_nat take]. by rewrite app_nil_r.
  - kstep. kstep. apply ring_put_wp; [lia..|]. intros b' W.
    assert (Z.of_nat (length (take (Z.to_nat k) p)) = k) as El by (rewrite length_take; lia).
    eassert (rb_rep _ _) as Hrep by (apply (rep_append rb l (take (Z.to_nat k) p) b'); [done|lia|done]). rewrite El in Hrep.
    by destruct (k <? _); kstep.
Qed.

Lemma rt_ringbuffer_get_wp rb l n :
  rb_rep rb l -> 0 <= n < 2 ^ 16 ->
  let k := Z.to_nat (Z.min n (Z.of_nat (length l))) in
  wp (rt_ringbuffer_get n) rb (fun r rb' =>
    r = (Z.of_nat k, take k l) /\ rb_rep rb' (drop k l) /\ rb_buffer_size rb' = rb_buffer_size rb).
Proof.
  intros H Hn k. pose proof H as [H1 H2 H3 H4 H5 H6 H7 H8 _]. unfold rt_ringbuffer_get. kstep. kstep.
  rewrite (rep_data_len rb l H). rewrite u16_small by lia.
  destruct (Z.eqb_spec (Z.of_nat (length l)) 0) as [E|E].
  - kstep. destruct l; [|done]. assert (k = 0%nat) as -> by (unfold k; cbn; lia). done.
  - assert ((if Z.of_nat (length l) <? n then Z.of_nat (length l) else n) = Z.of_nat k) as ->
      by (unfold k; destruct (Z.ltb_spec (Z.of_nat (length l)) n); lia).
    kstep. kstep. pose proof (rep_drop rb l k H ltac:(lia)) as Hrep. unfold read_by, advance in Hrep.
    pose proof (rep_front rb l (Z.of_nat k) H ltac:(lia)) as Hf. rewrite Nat2Z.id in Hf. cbv zeta in Hf. rewrite Hf. clear Hf.
    destruct (Z.ltb_spec (Z.of_nat k) (rb_buffer_size rb - rb_read_index rb)).
    + kstep. apply copy_out_wp; [lia..|]. kstep. kstep. kstep. rewrite bit15_small by lia.
      rewrite (proj2 (Z.ltb_lt _ _)) in Hrep by lia. by rewrite Nat2Z.id.
    + kstep. apply copy_out_wp; [lia..|]. kstep. apply copy_out_wp; [lia..|]. kstep. kstep. kstep.
      rewrite bit1_flip, bit15_small by lia. rewrite (proj2 (Z.ltb_ge _ _)) in Hrep by lia. cbn [fst snd] in Hrep.
      replace (Z.of_nat k - (rb_buffer_size rb - rb_read_index rb)) with (rb_read_index rb + Z.of_nat k - rb_buffer_size rb) by lia.
      done.
Qed.

(** One byte, copied to the write index, which moves up by one. *)
Lemma ring_putc_wp rb ch (Q : unit -> rt_ringbuffer -> Prop) :
  rb_buffer_size rb <= Z.of_nat (length (rb_buffer rb)) -> 0 <= rb_write_index rb < rb_buffer_size rb ->
  (forall b', ring_written (rb_buffer_size rb) (rb_write_index rb) [ch] (rb_buffer rb) b' -> Q tt (set_rb_buffer b' rb)) ->
  wp (copy_in (rb_write_index rb) [ch] 0 1) rb Q.
Proof. intros H1 H2 HQ. apply copy_in_wp; [cbn; lia..|]. apply HQ. apply (written_one _ _ [ch]); cbn; lia. Qed.

Lemma step_one size m i : 0 < size < 2 ^ 15 -> 0 <= m < 2 -> 0 <= i < size ->
  advance size m i 1 = if i =? size - 1 then (bit1 (Z.lnot m), 0) else (m, bit15 (i + 1)).
Proof.
  intros. rewrite bit1_flip by done. unfold advance.
  destruct (Z.eqb_spec i (size - 1)); [rewrite (proj2 (Z.ltb_ge _ _)) by lia; f_equal; lia|].
  by rewrite (proj2 (Z.ltb_lt _ _)), bit15_small by lia.
Qed.

Lemma rt_ringbuffer_putchar_wp rb l ch :
  rb_rep rb l ->
  wp (rt_ringbuffer_putchar ch) rb (fun r rb' => rb_buffer_size rb' = rb_buffer_size rb /\
    if Z.of_nat (length l) <? rb_buffer_size rb then r = 1 /\ rb_rep rb' (l ++ [ch]) else r = 0 /\ rb' = rb).
Proof.
  intros H. pose proof H as [H1 H2 H3 H4 H5 H6 H7 H8 _]. unfold rt_ringbuffer_putchar. kstep. kstep.
  rewrite (rep_space_len rb l H). destruct (Z.ltb_spec (Z.of_nat (length l)) (rb_buffer_size rb)) as [Hl|Hl].
  - rewrite (proj2 (Z.eqb_neq _ _)) by lia. kstep. kstep. kstep. apply ring_putc_wp; [lia..|]. intros b' W.
    eassert (rb_rep _ _) as Hrep by (apply (rep_append rb l [ch] b'); [done|cbn; lia|done]).
    change (Z.of_nat (length [ch])) with 1 in Hrep. unfold write_by in Hrep. rewrite step_one in Hrep by (cbn; lia).
    kstep. cbn [rb_write_index rb_buffer_size rb_write_mirror set_rb_buffer] in Hrep. by destruct (_ =? _); ksteps.
  - assert (rb_buffer_size rb - Z.of_nat (length l) = 0) as -> by lia. by kstep.
Qed.

Lemma rt_ringbuffer_getchar_wp rb l :
  rb_rep rb l ->
  wp rt_ringbuffer_getchar rb (fun r rb' => rb_buffer_size rb' = rb_buffer_size rb /\
    match l with [] => r = (0, None) /\ rb' = rb | x :: l' => r = (1, Some x) /\ rb_rep rb' l' end).
Proof.
  intros H. pose proof H as [H1 H2 H3 H4 H5 H6 H7 H8 _]. unfold rt_ringbuffer_getchar. kstep. kstep.
  rewrite (rep_data_len rb l H). destruct l as [|x l']; [by kstep|]. rewrite (proj2 (Z.eqb_neq _ _)) by (cbn; lia). kstep. kstep.
  kstep. apply copy_out_wp; [lia..|].
  pose proof (rep_drop rb (x :: l') 1 H ltac:(cbn; lia)) as Hrep. change (Z.of_nat 1) with 1 in Hrep.
  unfold read_by in Hrep. rewrite step_one in Hrep by lia.
  pose proof (rr_bytes rb (x :: l') H 0 ltac:(cbn; lia)) as Hx.
  replace (ring_pos (rb_buffer_size rb) (rb_read_index rb + Z.of_nat 0)) with (rb_read_index rb) in Hx by ring_cases.
  assert (head (take (Z.to_nat 1) (drop (Z.to_nat (rb_read_index rb)) (rb_buffer rb))) = Some x) as ->.
  { change (Z.to_nat 1) with 1%nat. rewrite (drop_S _ x) by done. done. }
  kstep. by destruct (_ =? _); ksteps.
Qed.

Lemma rep_full rb l : rb_rep rb l ->
  bool_decide (rt_ringbuffer_status rb = RT_RINGBUFFER_FULL) = (rb_buffer_size rb <=? Z.of_nat (length l)).
Proof.
  intros [H1 H2 H3 H4 H5 H6 H7 H8 _]. unfold rt_ringbuffer_status.
  destruct (rb_read_index rb =? rb_write_index rb) eqn:E1; [destruct (rb_read_mirror rb =? rb_write_mirror rb) eqn:E2|];
    case_bool_decide; try done; symmetry; [apply Z.leb_gt|apply Z.leb_le|apply Z.leb_gt]; ring_cases.
Qed.

(** The reader and the writer of a full buffer are at the same index, one mirror
    apart; they move up together. *)
Lemma rep_push rb l d b' k :
  rb_rep rb l -> k = Z.of_nat (length l) + Z.of_nat (length d) - rb_buffer_size rb -> 0 <= k <= Z.of_nat (length l) ->
  ring_written (rb_buffer_size rb) (rb_write_index rb) d (rb_buffer rb) b' ->
  rb_rep (write_by (Z.of_nat (length d)) (read_by k (set_rb_buffer b' rb))) (drop (Z.to_nat k) l ++ d).
Proof.
  intros H Hk Hr W. rewrite <- (Z2Nat.id k) at 1 by lia. change (read_by (Z.of_nat (Z.to_nat k)) (set_rb_buffer b' rb))
    with (set_rb_buffer b' (read_by (Z.of_nat (Z.to_nat k)) rb)).
  apply rep_append; [apply rep_drop; [done|lia]|rewrite length_drop; cbn; lia|done].
Qed.

Lemma rt_ringbuffer_putchar_force_wp rb l ch :
  rb_rep rb l ->
  wp (rt_ringbuffer_putchar_force ch) rb (fun r rb' => rb_buffer_size rb' = rb_buffer_size rb /\ r = 1 /\
    rb_rep rb' ((if Z.of_nat (length l) <? rb_buffer_size rb then l else tail l) ++ [ch])).
Proof.
  intros H. pose proof H as [H1 H2 H3 H4 H5 H6 H7 H8 _]. unfold rt_ringbuffer_putchar_force. kstep. kstep.
  rewrite (rep_full rb l H). kstep. kstep. kstep. apply ring_putc_wp; [lia..|]. intros b' W.
  destruct (Z.leb_spec (rb_buffer_size rb) (Z.of_nat (length l))) as [Hf|Hf].
  - rewrite (proj2 (Z.ltb_ge _ _)) by lia. assert (rb_read_index rb = rb_write_index rb /\ rb_read_mirror rb = 1 - rb_write_mirror rb) as [E1 E2] by ring_cases.
    eassert (rb_rep _ _) as Hrep by (apply (rep_push rb l [ch] b' 1); [done|cbn; lia|lia|done]).
    change (Z.to_nat 1) with 1%nat in Hrep. change (Z.of_nat (length [ch])) with 1 in Hrep.
    unfold write_by, read_by in Hrep. rewrite !step_one in Hrep by (cbn; lia).
    cbn [rb_write_index rb_buffer_size rb_write_mirror rb_read_mirror rb_read_index set_rb_buffer set_rb_read] in Hrep.
    rewrite E1, E2 in Hrep. replace (tail l) with (drop 1 l) by (by destruct l). kstep.
    destruct (_ =? _); cbn [when fst snd] in Hrep |- *; ksteps; (split; [done|]); (split; [done|]).
    + cbn [rb_read_mirror set_rb_write set_rb_buffer]. by rewrite E2.
    + unfold set_rb_write, set_rb_read, set_rb_buffer in Hrep |- *. cbn in Hrep |- *. by rewrite E2.
  - rewrite (proj2 (Z.ltb_lt _ _)) by lia.
    eassert (rb_rep _ _) as Hrep by (apply (rep_append rb l [ch] b'); [done|cbn; lia|done]).
    change (Z.of_nat (length [ch])) with 1 in Hrep. unfold write_by in Hrep. rewrite step_one in Hrep by (cbn; lia).
    kstep. cbn [rb_write_index rb_buffer_size rb_write_mirror set_rb_buffer] in Hrep. by destruct (_ =? _); cbn [when]; ksteps.
Qed.

(** The bytes rt_ringbuffer_put_force writes: all [n], or the last ones that fit
    into the whole buffer. *)
Definition forced (size : Z) (p : list Z) (n : Z) : list Z :=
  if size <? n then take (Z.to_nat size) (drop (Z.to_nat (n - size)) p) else take (Z.to_nat n) p.

Lemma length_forced size p n : 0 < size -> 0 <= n <= Z.of_nat (length p) ->
  Z.of_nat (length (forced size p n)) = Z.min n size.
Proof. intros. unfold forced. destruct (Z.ltb_spec size n); rewrite ?length_take, ?length_drop; lia. Qed.

(** After the copy, when the new bytes overwrote old ones. *)
Lemma rep_overrun rb l d b' :
  rb_rep rb l -> rb_buffer_size rb < Z.of_nat (length l) + Z.of_nat (length d) -> Z.of_nat (length d) <= rb_buffer_size rb ->
  ring_written (rb_buffer_size rb) (rb_write_index rb) d (rb_buffer rb) b' ->
  let rb1 := write_by (Z.of_nat (length d)) (set_rb_buffer b' rb) in
  let wraps := negb (Z.of_nat (length d) <? rb_buffer_size rb - rb_write_index rb) in
  rb_rep (set_rb_read (if wraps then bit1 (Z.lnot (rb_read_mirror rb1)) else rb_read_mirror rb1) (rb_write_index rb1) rb1)
    (if rb_read_mirror rb =? rb_write_mirror rb then [] else drop (Z.to_nat (Z.of_nat (length l) + Z.of_nat (length d) - rb_buffer_size rb)) l ++ d).
Proof.
  intros H Hov Hd W rb1 wraps. pose proof H as [H1 H2 H3 H4 H5 H6 H7 H8 _].
  destruct (Z.eqb_spec (rb_read_mirror rb) (rb_write_mirror rb)) as [E|E].
  - assert (wraps = true) as -> by (unfold wraps; ring_cases; done). unfold rb1, write_by in *.
    destruct W as [Wl _]. split; cbn [length]; rewrite ?bit1_flip by (cbn; lia); try (ring_cases; lia).
  - pose proof (rep_push rb l d b' _ H eq_refl ltac:(lia) W) as Hrep. unfold rb1, wraps in *. rewrite bit1_flip by (cbn; lia).
    unfold write_by, read_by in Hrep |- *.
    cbn [rb_write_index rb_buffer_size rb_write_mirror rb_read_mirror rb_read_index set_rb_buffer set_rb_read set_rb_write] in Hrep |- *.
    set (k := Z.of_nat (length l) + Z.of_nat (length d) - rb_buffer_size rb) in *.
    assert (rb_read_index rb + k = rb_write_index rb + Z.of_nat (length d)) as Ek by (unfold k; ring_cases).
    unfold advance in Hrep |- *. rewrite Ek in Hrep.
    destruct (Z.ltb_spec (rb_write_index rb + Z.of_nat (length d)) (rb_buffer_size rb)) as [Hw|Hw]; cbn [fst snd] in *;
      [rewrite (proj2 (Z.ltb_lt _ _)) by lia|rewrite (proj2 (Z.ltb_ge _ _)) by lia]; exact Hrep.
Qed.

(** Forcing bytes into a ring buffer, on every branch.  What fits is
    appended.  What does not fit replaces the oldest bytes, as the comment says,
    when the writer is a mirror ahead of the reader.  When reader and writer are
    in the same mirror, the routine flips the read mirror although the reader
    does not go around, and the buffer, just filled, reads as empty: every byte
    of it is lost. *)
Theorem rt_ringbuffer_put_force_correct rb l p n :
  rb_rep rb l -> 0 <= n < 2 ^ 16 -> n <= Z.of_nat (length p) ->
  let d := forced (rb_buffer_size rb) p n in
  let over := Z.of_nat (length l) + Z.of_nat (length d) - rb_buffer_size rb in
  exists rb', rt_ringbuffer_put_force p n rb = Ok (Z.of_nat (length d)) rb' /\ rb_buffer_size rb' = rb_buffer_size rb /\
    rb_rep rb' (if over <=? 0 then l ++ d
                else if rb_read_mirror rb =? rb_write_mirror rb then [] else drop (Z.to_nat over) l ++ d).
Proof.
  intros H Hn Hp d over. pose proof H as [H1 H2 H3 H4 H5 H6 H7 H8 _].
  pose proof (length_forced (rb_buffer_size rb) p n ltac:(lia) ltac:(lia)) as Ld. fold d in Ld.
  enough (wp (rt_ringbuffer_put_force p n) rb (fun r rb' => r = Z.of_nat (length d) /\ rb_buffer_size rb' = rb_buffer_size rb /\
    rb_rep rb' (if over <=? 0 then l ++ d
                else if rb_read_mirror rb =? rb_write_mirror rb then [] else drop (Z.to_nat over) l ++ d))) as Hwp.
  { destruct (wp_run _ _ _ Hwp) as (r & rb' & E & -> & ?). eauto. }
  unfold rt_ringbuffer_put_force. kstep. kstep. rewrite (rep_space_len rb l H), u16_small by lia. kstep. kstep. kstep.
  set (P := fun (pn : list Z * Z) (s : rt_ringbuffer) => s = rb /\ snd pn = Z.of_nat (length d) /\ take (length d) (fst pn) = d /\ (length d <= length (fst pn))%nat).
  eapply (wp_mono _ _ P).
  { unfold P, d, forced. destruct (Z.ltb_spec (rb_buffer_size rb) n).
    - kstep. eapply wp_deref; [apply bytes_at_take; lia|]. kstep. cbn [fst snd].
      split_and!; [done|rewrite u16_small, length_take, length_drop by lia; lia|apply take_ge; lia|done].
    - kstep. cbn [fst snd]. rewrite length_take. split_and!; [done|lia| |lia]. f_equal. lia. }
  intros [p' n'] s (-> & En & Et & Hl). cbn [fst snd] in *. subst n'. apply ring_put_wp; [lia..|]. rewrite Nat2Z.id, Et.
  intros b' W. destruct (Z.leb_spec over 0) as [Ho|Ho].
  - pose proof (rep_append rb l d b' H ltac:(lia) W) as Hrep.
    destruct (_ <? _); cbn [when]; rewrite (proj2 (Z.ltb_ge _ _)) by lia; unfold when; by ksteps.
  - pose proof (rep_overrun rb l d b' H ltac:(lia) ltac:(lia) W) as Hrep. cbv zeta in Hrep. fold over in Hrep.
    destruct (_ <? rb_buffer_size rb - _); cbn [negb] in Hrep; rewrite (proj2 (Z.ltb_lt _ _)) by lia; unfold when; by ksteps.
Qed.

Definition sample_rb : rt_ringbuffer := mkRb [1; 2; 3; 4; 5; 6; 7; 8] 0 2 0 6 8.
Lemma sample_rb_rep : rb_rep sample_rb [3; 4; 5; 6].
Proof. split; cbn; try lia. intros i Hi. do 4 (destruct i as [|i]; [done|]). lia. Qed.

(** Five bytes forced into a buffer that has room for four: the buffer is empty. *)
Lemma rt_ringbuffer_put_force_correct_witness :
  exists rb', rt_ringbuffer_put_force [21; 22; 23; 24; 25] 5 sample_rb = Ok 5 rb' /\ rb_buffer_size rb' = 8 /\ rb_rep rb' [].
Proof.
  exact (rt_ringbuffer_put_force_correct sample_rb [3; 4; 5; 6] [21; 22; 23; 24; 25] 5 sample_rb_rep ltac:(lia) ltac:(cbn; lia)).
Defined.

(** ** The buffer as a queue *)

Lemma rt_ringbuffer_init_wp rb0 pool size :
  4 <= size < 2 ^ 15 -> size <= Z.of_nat (length pool) ->
  wp (rt_ringbuffer_init pool size) rb0 (fun _ rb =>
    rb_rep rb [] /\ rb_buffer_size rb = size - size `mod` 4).
Proof.
  intros Hs Hp. unfold rt_ringbuffer_init. kstep. apply wp_assert; [apply Z.ltb_lt; lia|]. kstep.
  change RT_ALIGN_SIZE with (2 ^ 2). rewrite align_down_spec by lia. change (2 ^ 2) with 4.
  pose proof (Z.mod_pos_bound size 4 ltac:(lia)). assert (size `mod` 4 <= size - 4).
  { pose proof (Z.div_mod size 4 ltac:(lia)). pose proof (Z.div_le_lower_bound size 4 1 ltac:(lia) ltac:(lia)). lia. }
  rewrite i16_small by lia. split; [|done]. split; cbn; try lia.
Qed.

Lemma rt_ringbuffer_reset_wp rb l :
  rb_rep rb l -> wp rt_ringbuffer_reset rb (fun _ rb' => rb_rep rb' [] /\ rb_buffer_size rb' = rb_buffer_size rb).
Proof.
  intros [H1 H2 H3 H4 H5 H6 H7 H8 _]. unfold rt_ringbuffer_reset. kstep. split; [|done]. split; cbn; lia.
Qed.

(** A call of a driver, its result with the bytes the caller receives, and what a
    queue of at most [size] bytes does on it. *)
Inductive rb_op := RbPut (p : list Z) (n : Z) | RbGet (n : Z) | RbPutchar (ch : Z) | RbPutcharForce (ch : Z) | RbGetchar | RbReset.

Definition rb_exec (op : rb_op) : R (Z * list Z) :=
  match op with
  | RbPut p n => r <- rt_ringbuffer_put p n ;; ret (r, [])
  | RbGet n => rt_ringbuffer_get n
  | RbPutchar ch => r <- rt_ringbuffer_putchar ch ;; ret (r, [])
  | RbPutcharForce ch => r <- rt_ringbuffer_putchar_force ch ;; ret (r, [])
  | RbGetchar => r <- rt_ringbuffer_getchar ;; ret (fst r, option_list (snd r))
  | RbReset => rt_ringbuffer_reset ;; ret (0, [])
  end.
Fixpoint rb_run (ops : list rb_op) : R (list (Z * list Z)) :=
  match ops with
  | [] => ret []
  | op :: ops => r <- rb_exec op ;; rs <- rb_run ops ;; ret (r :: rs)
  end.

Definition queue_exec (size : Z) (op : rb_op) (l : list Z) : (Z * list Z) * list Z :=
  let space := size - Z.of_nat (length l) in
  match op with
  | RbPut p n => let k := Z.min n space in ((k, []), l ++ take (Z.to_nat k) p)
  | RbGet n => let k := Z.to_nat (Z.min n (Z.of_nat (length l))) in ((Z.of_nat k, take k l), drop k l)
  | RbPutchar ch => if 0 <? space then ((1, []), l ++ [ch]) else ((0, []), l)
  | RbPutcharForce ch => ((1, []), (if 0 <? space then l else tail l) ++ [ch])
  | RbGetchar => match l with [] => ((0, []), []) | x :: l' => ((1, [x]), l') end
  | RbReset => ((0, []), [])
  end.
Fixpoint queue_run (size : Z) (ops : list rb_op) (l : list Z) : list (Z * list Z) * list Z :=
  match ops with
  | [] => ([], l)
  | op :: ops => let '(r, l1) := queue_exec size op l in let '(rs, l2) := queue_run size ops l1 in (r :: rs, l2)
  end.

(** The length a caller passes is a rt_uint16_t and no longer than its buffer. *)
Definition rb_op_ok (op : rb_op) : Prop :=
  match op with RbPut p n => 0 <= n < 2 ^ 16 /\ n <= Z.of_nat (length p) | RbGet n => 0 <= n < 2 ^ 16 | _ => True end.

Lemma rb_exec_wp rb l op :
  rb_rep rb l -> rb_op_ok op ->
  wp (rb_exec op) rb (fun r rb' => r = fst (queue_exec (rb_buffer_size rb) op l) /\
    rb_rep rb' (snd (queue_exec (rb_buffer_size rb) op l)) /\ rb_buffer_size rb' = rb_buffer_size rb).
Proof.
  intros H Hop. assert ((0 <? rb_buffer_size rb - Z.of_nat (length l)) = (Z.of_nat (length l) <? rb_buffer_size rb)) as Es.
  { destruct (Z.ltb_spec (Z.of_nat (length l)) (rb_buffer_size rb)); [apply Z.ltb_lt|apply Z.ltb_ge]; lia. }
  destruct op as [p n|n|ch|ch| |]; cbn [rb_exec queue_exec]; cbv zeta; rewrite ?Es.
  - kstep. destruct Hop. eapply wp_mono; [by apply rt_ringbuffer_put_wp|]. intros r rb' (-> & ? & ?). by kstep.
  - by apply rt_ringbuffer_get_wp.
  - kstep. eapply wp_mono; [by apply (rt_ringbuffer_putchar_wp rb l)|]. intros r rb' [? Hr]. kstep. revert Hr.
    by destruct (Z.of_nat (length l) <? rb_buffer_size rb); intros [-> Hr]; subst.
  - kstep. eapply wp_mono; [by apply (rt_ringbuffer_putchar_force_wp rb l)|]. intros r rb' (? & -> & ?). by kstep.
  - kstep. eapply wp_mono; [by apply (rt_ringbuffer_getchar_wp rb l)|]. intros r rb' [? Hr]. kstep.
    by destruct l; destruct Hr as [-> Hr]; subst.
  - kstep. eapply wp_mono; [by apply (rt_ringbuffer_reset_wp rb l)|]. intros r rb' [? ?]. by kstep.
Qed.

Lemma rb_run_wp ops rb l :
  rb_rep rb l -> Forall rb_op_ok ops ->
  wp (rb_run ops) rb (fun rs rb' => rs = fst (queue_run (rb_buffer_size rb) ops l) /\
    rb_rep rb' (snd (queue_run (rb_buffer_size rb) ops l))).
Proof.
  revert rb l. induction ops as [|op ops IH]; intros rb l H Hops; cbn [rb_run queue_run]; [by kstep|].
  apply Forall_cons in Hops as [Hop Hops]. kstep. eapply wp_mono; [by apply rb_exec_wp|]. intros r rb1 (-> & H1 & E1).
  destruct (queue_exec _ op l) as [r l1]. cbn [fst snd] in *. kstep. eapply wp_mono; [by apply IH|]. rewrite E1.
  intros rs rb2 [-> H2]. destruct (queue_run _ ops l1) as [rs l2]. by kstep.
Qed.

(** C30: a ring buffer is a queue of bytes.  Set up over a pool of [size] bytes,
    then driven by any sequence of put, get, single-byte, overwriting single-byte
    and reset calls, it returns the results and bytes of a first-in first-out
    queue of [size] rounded down to a multiple of four bytes: what does not fit
    is refused (or pushes the oldest byte out), nothing is lost, duplicated or
    reordered, across any number of turns around the pool, and no access leaves
    the pool. *)
Theorem ringbuffer_refines_queue rb0 pool size ops :
  4 <= size < 2 ^ 15 -> size <= Z.of_nat (length pool) -> Forall rb_op_ok ops ->
  exists rb, (rt_ringbuffer_init pool size ;; rb_run ops) rb0 =
      Ok (fst (queue_run (size - size `mod` 4) ops [])) rb /\
    rb_rep rb (snd (queue_run (size - size `mod` 4) ops [])) /\
    rt_ringbuffer_data_len rb = Z.of_nat (length (snd (queue_run (size - size `mod` 4) ops []))).
Proof.
  intros Hs Hp Hops. enough (wp (rt_ringbuffer_init pool size ;; rb_run ops) rb0 (fun rs rb =>
    rs = fst (queue_run (size - size `mod` 4) ops []) /\ rb_rep rb (snd (queue_run (size - size `mod` 4) ops [])))) as Hwp.
  { destruct (wp_run _ _ _ Hwp) as (r & rb & E & -> & H). exists rb. split_and!; [done|done|by apply rep_data_len]. }
  kstep. eapply wp_mono; [by apply rt_ringbuffer_init_wp|]. intros [] rb [H <-]. by apply rb_run_wp.
Qed.

Lemma ringbuffer_refines_queue_witness :
  let ops := [RbPut [1; 2; 3] 3; RbGet 2; RbPut [4; 5; 6; 7] 4; RbPutcharForce 8; RbGet 9] in
  exists rb, (rt_ringbuffer_init [0; 0; 0; 0; 0] 5 ;; rb_run ops) sample_rb =
      Ok [(3, []); (2, [1; 2]); (3, []); (1, []); (4, [4; 5; 6; 8])] rb /\
    rb_rep rb [] /\ rt_ringbuffer_data_len rb = 0.
Proof.
  exact (ringbuffer_refines_queue sample_rb [0; 0; 0; 0; 0] 5 [RbPut [1; 2; 3] 3; RbGet 2; RbPut [4; 5; 6; 7] 4; RbPutcharForce 8; RbGet 9]
    ltac:(lia) ltac:(cbn; lia) ltac:(repeat apply Forall_cons_2; [cbn; lia..|apply Forall_nil_2])).
Defined.
