(* ===== verification/RingBlk.v ===== *)
(** * Ring block buffers (components/drivers/src/ringblk_buf.c)

    A buffer that is given out in blocks, which are filled, read and freed in the
    order they were allocated.  Blocks are indices of blk_set, blk_list is the
    sequence its nodes hold (SList.v), addresses are 32-bit. *)

From S2P Require Import Prelude.

Inductive rt_rbb_status := RT_RBB_BLK_UNUSED | RT_RBB_BLK_INITED | RT_RBB_BLK_PUT | RT_RBB_BLK_GET.
#[global] Instance rt_rbb_status_eq_dec : EqDecision rt_rbb_status.
Proof. solve_decision. Defined.

Record rt_rbb_blk := mkBlk { blk_status : rt_rbb_status; blk_size : Z; blk_buf : Z }.
Record rt_rbb := mkRbb { rbb_buf : Z; rbb_buf_size : Z; rbb_blk_set : list rt_rbb_blk; rbb_blk_max_num : Z; rbb_blk_list : list nat }.
(** A queue of blocks: its first block, blocks, is taken for the start of an
    array of blk_num blocks. *)
Record rt_rbb_blk_queue := mkBlkQueue { blocks : nat; blk_num : Z }.

Definition set_blk_set (l : list rt_rbb_blk) (b : rt_rbb) : rt_rbb := mkRbb (rbb_buf b) (rbb_buf_size b) l (rbb_blk_max_num b) (rbb_blk_list b).
Definition set_blk_list (l : list nat) (b : rt_rbb) : rt_rbb := mkRbb (rbb_buf b) (rbb_buf_size b) (rbb_blk_set b) (rbb_blk_max_num b) l.
Definition get_blk (i : nat) : M rt_rbb rt_rbb_blk := deref (fun b => rbb_blk_set b !! i).
Definition put_blk (i : nat) (x : rt_rbb_blk) : M rt_rbb unit := get_blk i ;; modify (fun b => set_blk_set (<[i := x]> (rbb_blk_set b)) b).
Definition set_blk_status (i : nat) (v : rt_rbb_status) : M rt_rbb unit := x <- get_blk i ;; put_blk i (mkBlk v (blk_size x) (blk_buf x)).

(** The block array starts out with any contents [set]. *)
Fixpoint init_blocks (n : nat) (set : list rt_rbb_blk) : option (list rt_rbb_blk) :=
  match n, set with
  | O, _ => Some set
  | S n, [] => None
  | S n, x :: set => cons (mkBlk RT_RBB_BLK_UNUSED (blk_size x) (blk_buf x)) <$> init_blocks n set
  end.
Definition rt_rbb_init (buf buf_size : Z) (set : list rt_rbb_blk) (blk_max_num : Z) : option rt_rbb :=
  set ← init_blocks (Z.to_nat blk_max_num) set; Some (mkRbb buf buf_size set blk_max_num []).
(** The three allocations are arguments; the blocks are [raw] memory. *)
Definition rt_rbb_create (buf_size blk_max_num : Z) (rbb : bool) (buf : option Z) (raw : option (list rt_rbb_blk)) : option (option rt_rbb) :=
  if negb rbb then Some None
  else match buf with
       | None => Some None
       | Some buf => match raw with None => Some None | Some set => Some <$> rt_rbb_init buf buf_size set blk_max_num end
       end.

Fixpoint find_unused (set : list rt_rbb_blk) (i n : nat) : option nat :=
  match n, set with
  | S n, x :: set => if decide (blk_status x = RT_RBB_BLK_UNUSED) then Some i else find_unused set (S i) n
  | _, _ => None
  end.
Definition find_empty_blk_in_set : M rt_rbb (option nat) := gets (fun b => find_unused (rbb_blk_set b) 0 (Z.to_nat (rbb_blk_max_num b))).

(** rt_slist_append, then the fields of the new block. *)
Definition take_blk (i : nat) (buf size : Z) : M rt_rbb (option nat) :=
  modify (fun b => set_blk_list (rbb_blk_list b ++ [i]) b) ;;
  put_blk i (mkBlk RT_RBB_BLK_INITED size buf) ;;
  ret (Some i).

Definition rt_rbb_blk_alloc (n : Z) : M rt_rbb (option nat) :=
  RT_ASSERT (n <? 2 ^ 24) ;;
  new <- find_empty_blk_in_set ;;
  b <- gets id ;;
  match new with
  | Some i =>
      if Z.of_nat (length (rbb_blk_list b)) <? rbb_blk_max_num b then
        match rbb_blk_list b with
        | [] => take_blk i (rbb_buf b) n
        | h :: l =>
            head <- get_blk h ;;
            tail <- get_blk (List.last l h) ;;
            let tail_end := u32 (blk_buf tail + blk_size tail) in
            if blk_buf head <=? blk_buf tail then
              let empty1 := u32 (rbb_buf b + rbb_buf_size b - tail_end) in
              let empty2 := u32 (blk_buf head - rbb_buf b) in
              if n <=? empty1 then take_blk i tail_end n
              else if n <=? empty2 then take_blk i (rbb_buf b) n
              else ret None
            else
              let empty1 := u32 (blk_buf head - tail_end) in
              if n <=? empty1 then take_blk i tail_end n else ret None
        end
      else ret None
  | None => ret None
  end.

Definition rt_rbb_blk_put (i : nat) : M rt_rbb unit :=
  x <- get_blk i ;;
  RT_ASSERT (bool_decide (blk_status x = RT_RBB_BLK_INITED)) ;;
  set_blk_status i RT_RBB_BLK_PUT.

Fixpoint first_put (l : list nat) : M rt_rbb (option nat) :=
  match l with
  | [] => ret None
  | i :: l =>
      x <- get_blk i ;;
      if decide (blk_status x = RT_RBB_BLK_PUT) then set_blk_status i RT_RBB_BLK_GET ;; ret (Some i) else first_put l
  end.
Definition rt_rbb_blk_get : M rt_rbb (option nat) := l <- gets rbb_blk_list ;; first_put l.

Definition rt_rbb_blk_size (i : nat) : M rt_rbb Z := x <- get_blk i ;; ret (blk_size x).
Definition rt_rbb_blk_buf (i : nat) : M rt_rbb Z := x <- get_blk i ;; ret (blk_buf x).

Definition rt_rbb_blk_free (i : nat) : M rt_rbb unit :=
  x <- get_blk i ;;
  RT_ASSERT (bool_decide (blk_status x <> RT_RBB_BLK_UNUSED)) ;;
  modify (fun b => set_blk_list (without i (rbb_blk_list b)) b) ;;
  set_blk_status i RT_RBB_BLK_UNUSED.

(** The end of a round: the block leaves the list, [q] is the queue so far. *)
Definition queue_take (i : nat) (q : rt_rbb_blk_queue) (total : Z) : M rt_rbb (rt_rbb_blk_queue * Z) :=
  modify (fun b => set_blk_list (without i (rbb_blk_list b)) b) ;;
  x <- get_blk i ;;
  set_blk_status i RT_RBB_BLK_GET ;;
  ret (mkBlkQueue (blocks q) (u32 (blk_num q + 1)), u32 (total + blk_size x)).
Fixpoint queue_get_loop (l : list nat) (queue_data_len : Z) (last : option nat) (q : rt_rbb_blk_queue) (total : Z) : M rt_rbb (rt_rbb_blk_queue * Z) :=
  match l with
  | [] => ret (q, total)
  | i :: l =>
      x <- get_blk i ;;
      match last with
      | None =>
          if decide (blk_status x = RT_RBB_BLK_PUT) then
            '(q, total) <- queue_take i (mkBlkQueue i 0) total ;; queue_get_loop l queue_data_len (Some i) q total
          else queue_get_loop l queue_data_len None q total
      | Some j =>
          y <- get_blk j ;;
          if bool_decide (blk_status x <> RT_RBB_BLK_PUT) || (blk_buf x <? blk_buf y) || (queue_data_len <? u32 (total + blk_size x)) then ret (q, total)
          else '(q, total) <- queue_take i q total ;; queue_get_loop l queue_data_len (Some i) q total
      end
  end.
(** [q]: the queue of the caller, which is written when a block is found. *)
Definition rt_rbb_blk_queue_get (queue_data_len : Z) (q : rt_rbb_blk_queue) : M rt_rbb (rt_rbb_blk_queue * Z) :=
  l <- gets rbb_blk_list ;; queue_get_loop l queue_data_len None q 0.

Fixpoint queue_len_loop (n i : nat) (total : Z) : M rt_rbb Z :=
  match n with O => ret total | S n => x <- get_blk i ;; queue_len_loop n (S i) (u32 (total + blk_size x)) end.
Definition rt_rbb_blk_queue_len (q : rt_rbb_blk_queue) : M rt_rbb Z := queue_len_loop (Z.to_nat (blk_num q)) (blocks q) 0.
Definition rt_rbb_blk_queue_buf (q : rt_rbb_blk_queue) : M rt_rbb Z := rt_rbb_blk_buf (blocks q).
Fixpoint queue_free_loop (n i : nat) : M rt_rbb unit :=
  match n with O => ret tt | S n => rt_rbb_blk_free i ;; queue_free_loop n (S i) end.
Definition rt_rbb_blk_queue_free (q : rt_rbb_blk_queue) : M rt_rbb unit := queue_free_loop (Z.to_nat (blk_num q)) (blocks q).

Fixpoint next_queue_loop (l : list nat) (last : option nat) (total : Z) : M rt_rbb Z :=
  match l with
  | [] => ret total
  | i :: l =>
      x <- get_blk i ;;
      match last with
      | None => if decide (blk_status x = RT_RBB_BLK_PUT) then next_queue_loop l (Some i) (u32 (total + blk_size x)) else next_queue_loop l None total
      | Some j =>
          y <- get_blk j ;;
          if bool_decide (blk_status x <> RT_RBB_BLK_PUT) || (blk_buf x <? blk_buf y) then ret total
          else next_queue_loop l (Some i) (u32 (total + blk_size x))
      end
  end.
Definition rt_rbb_next_blk_queue_len : M rt_rbb Z := l <- gets rbb_blk_list ;; next_queue_loop l None 0.
Definition rt_rbb_get_buf_size : M rt_rbb Z := gets rbb_buf_size.

(** ** Blocks in the buffer *)

Definition blk_at (s : rt_rbb) (i : nat) : rt_rbb_blk := default (mkBlk RT_RBB_BLK_UNUSED 0 0) (rbb_blk_set s !! i).
Definition blk_end (x : rt_rbb_blk) : Z := blk_buf x + blk_size x.

(** The blocks [l] lie between [lo] and [hi], one behind the other. *)
Fixpoint laid (f : nat -> rt_rbb_blk) (lo hi : Z) (l : list nat) : Prop :=
  match l with [] => lo <= hi | i :: l => lo <= blk_buf (f i) /\ 0 < blk_size (f i) /\ laid f (blk_end (f i)) hi l end.

Lemma laid_bounds f lo hi l : laid f lo hi l -> lo <= hi.
Proof. revert lo. induction l as [|i l IH]; intros lo; cbn; [done|]. unfold blk_end. intros (? & ? & ?%IH). lia. Qed.
Lemma laid_mono f lo hi lo' hi' l : lo' <= lo -> hi <= hi' -> laid f lo hi l -> laid f lo' hi' l.
Proof.
  revert lo lo'. induction l as [|i l IH]; intros lo lo' H1 H2; cbn; [lia|]. intros (? & ? & ?). split_and!; [lia|done|]. by apply (IH (blk_end (f i))).
Qed.
Lemma laid_app f lo hi a b : laid f lo hi (a ++ b) <-> exists mid, laid f lo mid a /\ laid f mid hi b.
Proof.
  revert lo. induction a as [|i a IH]; intros lo; cbn [app laid].
  - split; [intros H; exists lo; by split|]. intros (mid & H & ?). by apply (laid_mono f mid hi).
  - rewrite IH. naive_solver.
Qed.
Lemma laid_ext f g lo hi l : (forall i, i ∈ l -> blk_buf (g i) = blk_buf (f i) /\ blk_size (g i) = blk_size (f i)) -> laid f lo hi l -> laid g lo hi l.
Proof.
  revert lo. induction l as [|i l IH]; intros lo H; cbn; [done|]. destruct (H i ltac:(left)) as [E1 E2]. unfold blk_end. rewrite E1, E2. intros (? & ? & ?). split_and!; [done|done|]. apply IH; [|done]. intros j Hj. apply H. by right.
Qed.
Lemma laid_without f lo hi i l : laid f lo hi l -> laid f lo hi (without i l).
Proof.
  revert lo. induction l as [|j l IH]; intros lo; [done|]. cbn [laid]. intros (H1 & H2 & H3). destruct (decide (j = i)) as [->|Hne].
  - unfold without. rewrite filter_cons, decide_False by tauto. apply (laid_mono f (blk_end (f i)) hi); [unfold blk_end; lia|done|]. by apply IH.
  - rewrite without_cons_ne by done. cbn. split_and!; [done|done|]. by apply IH.
Qed.
Lemma laid_in f lo hi l i : laid f lo hi l -> i ∈ l -> lo <= blk_buf (f i) /\ 0 < blk_size (f i) /\ blk_end (f i) <= hi.
Proof.
  revert lo. induction l as [|j l IH]; intros lo; cbn; [by intros _ ?%elem_of_nil|]. intros (H1 & H2 & H3) [->|Hin]%elem_of_cons; [by apply laid_bounds in H3|]. destruct (IH _ H3 Hin) as (? & ? & ?). unfold blk_end in *. lia.
Qed.
Definition apart (x y : rt_rbb_blk) : Prop := blk_end x <= blk_buf y \/ blk_end y <= blk_buf x.
Lemma laid_apart f lo hi l i j : laid f lo hi l -> i ∈ l -> j ∈ l -> i <> j -> apart (f i) (f j).
Proof.
  revert lo. induction l as [|k l IH]; intros lo; cbn; [by intros _ ?%elem_of_nil|]. intros (H1 & H2 & H3) [->|Hi]%elem_of_cons [->|Hj]%elem_of_cons Hne; [done| | |by apply (IH (blk_end (f k)))].
  - left. by apply (laid_in f _ hi l j).
  - right. by apply (laid_in f _ hi l i).
Qed.
Lemma laid_snoc f lo hi l i a n : laid f lo a l -> f i = mkBlk RT_RBB_BLK_INITED n a -> 0 < n -> a + n <= hi -> laid f lo hi (l ++ [i]).
Proof. intros H E Hn Hh. apply laid_app. exists a. split; [done|]. cbn. unfold blk_end. rewrite E. cbn. lia. Qed.
(** The blocks end with the last one. *)
Lemma laid_last f lo hi l h : laid f lo hi (h :: l) -> laid f lo (blk_end (f (List.last l h))) (h :: l) /\ blk_end (f (List.last l h)) <= hi /\ blk_buf (f h) <= blk_buf (f (List.last l h)).
Proof.
  revert lo h. induction l as [|i l IH]; intros lo h; cbn [laid]; [cbn; unfold blk_end; lia|]. intros (H1 & H2 & H3). destruct (IH _ _ H3) as (A & B & C).
  replace (List.last (i :: l) h) with (List.last l i). 2:{ clear. revert i. induction l as [|j l IH]; intros i; [done|]. cbn [List.last] in *. destruct l; [done|]. apply IH. }
  destruct H3 as (D & E & F). split; [exact (conj H1 (conj H2 A))|]. split; [done|]. unfold blk_end in D. lia.
Qed.

(** The invariant: blocks in the list are in use, and lie in the buffer in the
    order of the list, which goes on at the start of the buffer at most once. *)
Record rbb_ok (s : rt_rbb) : Prop := {
  ro_buf : 0 <= rbb_buf s /\ 0 <= rbb_buf_size s /\ rbb_buf s + rbb_buf_size s < 2 ^ 32;
  ro_set : rbb_blk_max_num s = Z.of_nat (length (rbb_blk_set s));
  ro_nodup : NoDup (rbb_blk_list s);
  ro_used : forall i, i ∈ rbb_blk_list s -> exists x, rbb_blk_set s !! i = Some x /\ blk_status x <> RT_RBB_BLK_UNUSED;
  ro_laid : exists l1 l2 mid, rbb_blk_list s = l1 ++ l2 /\ laid (blk_at s) mid (rbb_buf s + rbb_buf_size s) l1 /\ laid (blk_at s) (rbb_buf s) mid l2 /\ (l1 = [] -> l2 = [])
}.

(** The blocks of a ring block buffer lie in its buffer and do not overlap. *)
Lemma rbb_inside s i : rbb_ok s -> i ∈ rbb_blk_list s ->
  rbb_buf s <= blk_buf (blk_at s i) /\ 0 < blk_size (blk_at s i) /\ blk_end (blk_at s i) <= rbb_buf s + rbb_buf_size s.
Proof.
  intros [Hb _ _ _ (l1 & l2 & mid & El & H1 & H2 & _)] Hi. rewrite El in Hi. pose proof (laid_bounds _ _ _ _ H1). pose proof (laid_bounds _ _ _ _ H2).
  apply elem_of_app in Hi as [Hi|Hi]; [apply (laid_in _ _ _ _ _ H1) in Hi|apply (laid_in _ _ _ _ _ H2) in Hi]; lia.
Qed.
Lemma rbb_apart s i j : rbb_ok s -> i ∈ rbb_blk_list s -> j ∈ rbb_blk_list s -> i <> j ->
  rbb_buf s <= blk_buf (blk_at s i) /\ blk_end (blk_at s i) <= rbb_buf s + rbb_buf_size s /\ apart (blk_at s i) (blk_at s j).
Proof.
  intros [Hb _ _ _ (l1 & l2 & mid & El & H1 & H2 & _)] Hi Hj Hne. rewrite El in Hi, Hj. pose proof (laid_bounds _ _ _ _ H1). pose proof (laid_bounds _ _ _ _ H2).
  apply elem_of_app in Hi, Hj. destruct Hi as [Hi|Hi], Hj as [Hj|Hj]; first [pose proof (laid_in _ _ _ _ _ H1 Hi)|pose proof (laid_in _ _ _ _ _ H2 Hi)]; first [pose proof (laid_in _ _ _ _ _ H1 Hj)|pose proof (laid_in _ _ _ _ _ H2 Hj)]; split_and!; try lia.
  - by apply (laid_apart (blk_at s) mid (rbb_buf s + rbb_buf_size s) l1).
  - right. lia.
  - left. lia.
  - by apply (laid_apart (blk_at s) (rbb_buf s) mid l2).
Qed.

(** ** Allocating *)

Lemma find_unused_spec set : forall i n, (length set <= n)%nat -> match find_unused set i n with
  | Some k => exists d x, k = (i + d)%nat /\ set !! d = Some x /\ blk_status x = RT_RBB_BLK_UNUSED
  | None => forall d x, set !! d = Some x -> blk_status x <> RT_RBB_BLK_UNUSED end.
Proof.
  induction set as [|x set IH]; intros i [|n] Hn; cbn in Hn; try lia; cbn [find_unused]; [done..|]. case_decide as Hs.
  - exists 0%nat, x. split_and!; [lia|done|done].
  - specialize (IH (S i) n ltac:(lia)). destruct (find_unused set (S i) n) as [k|].
    + destruct IH as (d & y & -> & Ed & Hy). exists (S d), y. split_and!; [lia|done|done].
    + intros [|d] y; cbn; [intros [= ->]; done|apply IH].
Qed.

Definition taken (i : nat) (a n : Z) (s : rt_rbb) : rt_rbb := set_blk_set (<[i := mkBlk RT_RBB_BLK_INITED n a]> (rbb_blk_set s)) (set_blk_list (rbb_blk_list s ++ [i]) s).
Lemma take_blk_wp i a n s x : rbb_blk_set s !! i = Some x -> wp (take_blk i a n) s (fun r s' => r = Some i /\ s' = taken i a n s).
Proof. intros E. unfold take_blk, put_blk, get_blk. apply wp_bind, wp_modify, wp_bind, wp_bind, (wp_deref _ x); [done|]. apply wp_modify. by apply wp_ret. Qed.

Lemma blk_at_insert s i x y l j : rbb_blk_set s !! i = Some x -> blk_at (set_blk_set (<[i := y]> (rbb_blk_set s)) (set_blk_list l s)) j = if decide (j = i) then y else blk_at s j.
Proof.
  intros E. unfold blk_at. cbn. case_decide; [subst; by rewrite list_lookup_insert_eq by by eapply lookup_lt_Some|]. by rewrite list_lookup_insert_ne.
Qed.

Section alloc.
Context (s : rt_rbb) (i : nat) (n : Z) (x : rt_rbb_blk).
Context (Hok : rbb_ok s) (Ex : rbb_blk_set s !! i = Some x) (Hx : blk_status x = RT_RBB_BLK_UNUSED) (Hn : 0 < n).

Lemma unused_unlisted : i ∉ rbb_blk_list s.
Proof using Hok Ex Hx. intros Hin. destruct (ro_used _ Hok i Hin) as (y & Ey & Hy). congruence. Qed.
Lemma taken_new a : blk_at (taken i a n s) i = mkBlk RT_RBB_BLK_INITED n a.
Proof using Ex. unfold taken. rewrite (blk_at_insert s i x) by done. by rewrite decide_True. Qed.
Lemma taken_laid a lo hi l : i ∉ l -> laid (blk_at s) lo hi l -> laid (blk_at (taken i a n s)) lo hi l.
Proof using Ex. intros Hl. apply laid_ext. intros j Hj. unfold taken. rewrite (blk_at_insert s i x) by done. by rewrite decide_False by (intros ->; done). Qed.

Lemma taken_blk_ok a : (exists l1 l2 mid, rbb_blk_list s ++ [i] = l1 ++ l2 /\ laid (blk_at (taken i a n s)) mid (rbb_buf s + rbb_buf_size s) l1 /\ laid (blk_at (taken i a n s)) (rbb_buf s) mid l2 /\ (l1 = [] -> l2 = [])) ->
  rbb_ok (taken i a n s).
Proof using Hok Ex Hx.
  intros HL. pose proof unused_unlisted as Hu. destruct Hok as [B1 B2 B3 B4 _]. split; [done|cbn; by rewrite length_insert|apply NoDup_app; split; [done|]; split; [by intros j ? ->%list_elem_of_singleton|apply NoDup_singleton]| |exact HL].
  intros j Hj. cbn in *. apply elem_of_app in Hj as [Hj| ->%list_elem_of_singleton].
  - destruct (B4 j Hj) as (y & Ey & Hy). exists y. rewrite list_lookup_insert_ne by (intros ->; done). done.
  - eexists. rewrite list_lookup_insert_eq by (by eapply lookup_lt_Some). done.
Qed.

Lemma take_first : rbb_blk_list s = [] -> n <= rbb_buf_size s -> rbb_ok (taken i (rbb_buf s) n s).
Proof using Hok Ex Hx Hn.
  intros El Hs. apply taken_blk_ok. exists [i], [], (rbb_buf s). rewrite El. split_and!; [done| |cbn; lia|done]. cbn [laid]. unfold blk_end. rewrite taken_new. cbn. lia.
Qed.
(** The blocks do not go round the end of the buffer. *)
Lemma take_behind h l lo : rbb_blk_list s = h :: l -> laid (blk_at s) lo (rbb_buf s + rbb_buf_size s) (h :: l) -> rbb_buf s <= lo -> blk_end (blk_at s (List.last l h)) + n <= rbb_buf s + rbb_buf_size s ->
  rbb_ok (taken i (blk_end (blk_at s (List.last l h))) n s).
Proof using Hok Ex Hx Hn.
  intros El HL Hlo He. apply taken_blk_ok. exists ((h :: l) ++ [i]), [], lo. rewrite El. split_and!; [by rewrite app_nil_r| |done|done].
  eapply laid_snoc; [apply taken_laid; [rewrite <- El; apply unused_unlisted|apply (laid_last _ _ _ _ _ HL)]|apply taken_new|done|done].
Qed.
Lemma take_round h l lo : rbb_blk_list s = h :: l -> laid (blk_at s) lo (rbb_buf s + rbb_buf_size s) (h :: l) -> rbb_buf s + n <= blk_buf (blk_at s h) -> rbb_ok (taken i (rbb_buf s) n s).
Proof using Hok Ex Hx Hn.
  intros El HL He. apply taken_blk_ok. exists (h :: l), [i], (blk_buf (blk_at s h)). rewrite El. split_and!; [done| |cbn [laid]; unfold blk_end; rewrite taken_new; cbn; lia|done].
  apply taken_laid; [rewrite <- El; apply unused_unlisted|]. destruct HL as (_ & H1 & H2). by split_and!.
Qed.
(** They do: the new block goes between the last one and the first one. *)
Lemma take_between h l1 k l2 mid : rbb_blk_list s = (h :: l1) ++ k :: l2 -> laid (blk_at s) mid (rbb_buf s + rbb_buf_size s) (h :: l1) -> laid (blk_at s) (rbb_buf s) mid (k :: l2) ->
  blk_end (blk_at s (List.last l2 k)) + n <= blk_buf (blk_at s h) -> rbb_ok (taken i (blk_end (blk_at s (List.last l2 k))) n s).
Proof using Hok Ex Hx Hn.
  intros El H1 H2 He. pose proof unused_unlisted as Hu. rewrite El, not_elem_of_app in Hu. destruct Hu as [Hu1 Hu2]. apply taken_blk_ok. exists (h :: l1), ((k :: l2) ++ [i]), (blk_buf (blk_at s h)). rewrite El. split_and!; [by rewrite <- (assoc_L (++))| | |done].
  - apply taken_laid; [done|]. destruct H1 as (_ & H1 & H1'). by split_and!.
  - eapply laid_snoc; [apply taken_laid; [done|apply (laid_last _ _ _ _ _ H2)]|apply taken_new|done|done].
Qed.
End alloc.

Lemma last_cons_default {A} (l : list A) i h : List.last (i :: l) h = List.last l i.
Proof. revert i. induction l as [|j l IH]; intros i; [done|]. cbn [List.last] in *. destruct l; [done|]. apply IH. Qed.
Lemma last_app_cons {A} (l1 l2 : list A) k h : List.last (l1 ++ k :: l2) h = List.last l2 k.
Proof. revert h. induction l1 as [|i l1 IH]; intros h; cbn [app]; rewrite last_cons_default; [done|apply IH]. Qed.
Lemma last_in {A} (l : list A) h : List.last l h ∈ h :: l.
Proof. revert h. induction l as [|i l IH]; intros h; [left|]. rewrite last_cons_default. right. apply IH. Qed.

Lemma blk_at_lookup s i x : rbb_blk_set s !! i = Some x -> blk_at s i = x.
Proof. unfold blk_at. by intros ->. Qed.
Lemma wp_get_blk s i x Q : rbb_blk_set s !! i = Some x -> Q x s -> wp (get_blk i) s Q.
Proof. intros E H. by apply (wp_deref _ x). Qed.
Lemma wp_get_listed s i (Q : rt_rbb_blk -> rt_rbb -> Prop) : rbb_ok s -> i ∈ rbb_blk_list s -> Q (blk_at s i) s -> wp (get_blk i) s Q.
Proof. intros H Hi HQ. destruct (ro_used s H i Hi) as (x & E & _). apply (wp_get_blk s i x); [done|]. by rewrite <- (blk_at_lookup s i x). Qed.

(** The two shapes a list that is not empty can have. *)
Lemma rbb_shape s h l : rbb_ok s -> rbb_blk_list s = h :: l ->
  (exists lo, rbb_buf s <= lo /\ laid (blk_at s) lo (rbb_buf s + rbb_buf_size s) (h :: l)) \/
  (exists l1 k l2 mid, l = l1 ++ k :: l2 /\ laid (blk_at s) mid (rbb_buf s + rbb_buf_size s) (h :: l1) /\ laid (blk_at s) (rbb_buf s) mid (k :: l2)).
Proof.
  intros [_ _ _ _ (l1 & l2 & mid & El & H1 & H2 & H3)] E. rewrite E in El. destruct l1 as [|h' l1]; [rewrite H3 in El by done; done|]. injection El as <- ->. destruct l2 as [|k l2]; [left; exists mid; rewrite app_nil_r; by split|right; eauto 10].
Qed.

(** Why an allocation fails: no block structure is free, or there is no room of
    [n] bytes behind the last block, nor, if the blocks do not go round yet, in
    front of the first. *)
Definition no_room (s : rt_rbb) (n : Z) : Prop :=
  (forall i x, rbb_blk_set s !! i = Some x -> blk_status x <> RT_RBB_BLK_UNUSED) \/ rbb_blk_max_num s <= Z.of_nat (length (rbb_blk_list s)) \/
  exists h l, rbb_blk_list s = h :: l /\ let head := blk_at s h in let tail := blk_at s (List.last l h) in
    if blk_buf head <=? blk_buf tail then rbb_buf s + rbb_buf_size s - blk_end tail < n /\ blk_buf head - rbb_buf s < n else blk_buf head - blk_end tail < n.
Definition allocated (s : rt_rbb) (n : Z) (r : option nat) (s' : rt_rbb) : Prop :=
  match r with
  | Some i => (exists x, rbb_blk_set s !! i = Some x /\ blk_status x = RT_RBB_BLK_UNUSED) /\ rbb_ok s' /\ exists a, s' = taken i a n s
  | None => s' = s /\ no_room s n
  end.

Lemma rt_rbb_blk_alloc_wp s n : rbb_ok s -> 0 < n < 2 ^ 24 -> (rbb_blk_list s = [] -> n <= rbb_buf_size s) -> wp (rt_rbb_blk_alloc n) s (allocated s n).
Proof.
  intros Hok Hn He. pose proof Hok as [Hb Hs _ _ _]. unfold rt_rbb_blk_alloc. apply wp_bind, wp_assert; [apply Z.ltb_lt; lia|]. apply wp_bind, wp_gets. pose proof (find_unused_spec (rbb_blk_set s) 0 (Z.to_nat (rbb_blk_max_num s)) ltac:(lia)) as Hfind.
  destruct (find_unused _ _ _) as [i|]; apply wp_bind, wp_gets; [|apply wp_ret; split; [done|by left]]. destruct Hfind as (d & x & -> & Ex & Hx). cbn [Nat.add] in *. unfold id.
  destruct (Z.ltb_spec (Z.of_nat (length (rbb_blk_list s))) (rbb_blk_max_num s)) as [_|Hge]; [|apply wp_ret; split; [done|right; by left]].
  assert (forall a, rbb_ok (taken d a n s) -> wp (take_blk d a n) s (allocated s n)) as Htake.
  { intros a Ha. eapply wp_mono; [by apply (take_blk_wp d a n s x)|]. intros r s' [-> ->]. split; [eauto|]. split; [done|]. by exists a. }
  destruct (rbb_blk_list s) as [|h l] eqn:El; [apply Htake, (take_first s d n x); auto; lia|].
  apply wp_bind, wp_get_listed; [done|rewrite El; left|]. apply wp_bind, wp_get_listed; [done|rewrite El; apply last_in|]. cbv zeta.
  destruct (rbb_shape s h l Hok El) as [(lo & Hlo & HL)|(l1 & k & l2 & mid & -> & H1 & H2)].
  - destruct (laid_last _ _ _ _ _ HL) as (_ & Hend & Hle). pose proof (laid_in _ _ _ _ _ HL (last_in l h)) as (? & ? & ?). pose proof HL as (? & ? & _). fold (blk_end (blk_at s (List.last l h))).
    rewrite (proj2 (Z.leb_le _ _)) by done. unfold blk_end in *. rewrite !(u32_small (blk_buf (blk_at s (List.last l h)) + blk_size (blk_at s (List.last l h)))), !u32_small by lia.
    destruct (Z.leb_spec n (rbb_buf s + rbb_buf_size s - (blk_buf (blk_at s (List.last l h)) + blk_size (blk_at s (List.last l h))))) as [Hf|Hf]; [apply Htake, (take_behind s d n x Hok Ex Hx ltac:(lia) h l lo); unfold blk_end; auto; lia|].
    destruct (Z.leb_spec n (blk_buf (blk_at s h) - rbb_buf s)) as [Hg|Hg]; [apply Htake, (take_round s d n x Hok Ex Hx ltac:(lia) h l lo); auto; lia|].
    apply wp_ret. split; [done|]. right. right. exists h, l. split; [done|]. cbv zeta. rewrite (proj2 (Z.leb_le _ _)) by done. unfold blk_end. lia.
  - rewrite last_app_cons. destruct (laid_last _ _ _ _ _ H2) as (_ & Hend & Hle). pose proof (laid_in _ _ _ _ _ H2 (last_in l2 k)) as (? & ? & ?). pose proof H1 as (? & ? & Hr). apply laid_bounds in Hr. unfold blk_end in *.
    rewrite (proj2 (Z.leb_gt _ _)) by lia. rewrite !(u32_small (blk_buf (blk_at s (List.last l2 k)) + blk_size (blk_at s (List.last l2 k)))), !u32_small by lia.
    destruct (Z.leb_spec n (blk_buf (blk_at s h) - (blk_buf (blk_at s (List.last l2 k)) + blk_size (blk_at s (List.last l2 k))))) as [Hf|Hf]; [apply Htake, (take_between s d n x Hok Ex Hx ltac:(lia) h l1 k l2 mid); unfold blk_end; auto; lia|].
    apply wp_ret. split; [done|]. right. right. exists h, (l1 ++ k :: l2). split; [done|]. cbv zeta. rewrite last_app_cons. rewrite (proj2 (Z.leb_gt _ _)) by lia. unfold blk_end. lia.
Qed.

(** ** Putting, getting and freeing *)

(** Block [i] gets status [v] and the list becomes [l]. *)
Definition upd_blk (i : nat) (v : rt_rbb_status) (l : list nat) (s : rt_rbb) : rt_rbb :=
  set_blk_set (<[i := mkBlk v (blk_size (blk_at s i)) (blk_buf (blk_at s i))]> (rbb_blk_set s)) (set_blk_list l s).
Definition with_status (i : nat) (v : rt_rbb_status) (s : rt_rbb) : rt_rbb := upd_blk i v (rbb_blk_list s) s.
Definition without_blk (i : nat) (v : rt_rbb_status) (s : rt_rbb) : rt_rbb := upd_blk i v (without i (rbb_blk_list s)) s.

Lemma set_blk_status_wp s i x v (Q : unit -> rt_rbb -> Prop) : rbb_blk_set s !! i = Some x -> Q tt (with_status i v s) -> wp (set_blk_status i v) s Q.
Proof.
  intros E H. unfold set_blk_status, put_blk. apply wp_bind, (wp_get_blk _ _ x); [done|]. apply wp_bind, (wp_get_blk _ _ x); [done|]. apply wp_modify. unfold with_status, upd_blk in H. rewrite (blk_at_lookup s i x E) in H. by destruct s.
Qed.
Lemma unlink_blk_wp {A} s i x v (k : unit -> M rt_rbb A) Q : rbb_blk_set s !! i = Some x -> wp (k tt) (without_blk i v s) Q ->
  wp (modify (fun b => set_blk_list (without i (rbb_blk_list b)) b) ;; bind (set_blk_status i v) k) s Q.
Proof. intros E H. apply wp_bind, wp_modify. apply wp_bind. by apply (set_blk_status_wp _ _ x). Qed.

Lemma upd_blk_at s i v l j : is_Some (rbb_blk_set s !! i) -> blk_buf (blk_at (upd_blk i v l s) j) = blk_buf (blk_at s j) /\ blk_size (blk_at (upd_blk i v l s) j) = blk_size (blk_at s j) /\
  blk_status (blk_at (upd_blk i v l s) j) = if decide (j = i) then v else blk_status (blk_at s j).
Proof. intros [x E]. unfold upd_blk. rewrite (blk_at_insert s i x) by done. case_decide; by subst. Qed.
Lemma upd_blk_some s i v l j : is_Some (rbb_blk_set (upd_blk i v l s) !! j) <-> is_Some (rbb_blk_set s !! j).
Proof. unfold upd_blk. cbn. rewrite !lookup_lt_is_Some. by rewrite length_insert. Qed.
Lemma upd_blk_laid s i v l lo hi l' : is_Some (rbb_blk_set s !! i) -> laid (blk_at s) lo hi l' -> laid (blk_at (upd_blk i v l s)) lo hi l'.
Proof. intros E. apply laid_ext. intros j _. destruct (upd_blk_at s i v l j E) as (? & ? & _). by split. Qed.
Lemma upd_blk_used s i v l : rbb_ok s -> is_Some (rbb_blk_set s !! i) -> (forall j, j ∈ l -> j ∈ rbb_blk_list s) -> (v = RT_RBB_BLK_UNUSED -> i ∉ l) ->
  forall j, j ∈ l -> exists x, rbb_blk_set (upd_blk i v l s) !! j = Some x /\ blk_status x <> RT_RBB_BLK_UNUSED.
Proof.
  intros Hok Hi Hl Hv j Hj. destruct (ro_used s Hok j (Hl j Hj)) as (x & E & Hx). destruct (proj2 (upd_blk_some s i v l j)) as [y Ey]; [by eexists|]. exists y. split; [done|].
  rewrite <- (blk_at_lookup _ _ _ Ey). destruct (upd_blk_at s i v l j Hi) as (_ & _ & ->). case_decide; [subst; intros ->; by apply Hv|by rewrite (blk_at_lookup s j x)].
Qed.

Lemma with_status_ok s i v : rbb_ok s -> is_Some (rbb_blk_set s !! i) -> v <> RT_RBB_BLK_UNUSED -> rbb_ok (with_status i v s).
Proof.
  intros Hok Hi Hv. pose proof Hok as [B1 B2 B3 B4 (l1 & l2 & mid & El & H1 & H2 & H3)]. split; [done|cbn; by rewrite length_insert|done|by apply upd_blk_used|].
  exists l1, l2, mid. split_and!; [done|by apply upd_blk_laid..|done].
Qed.
Lemma without_blk_ok s i v : rbb_ok s -> is_Some (rbb_blk_set s !! i) -> rbb_ok (without_blk i v s).
Proof.
  intros Hok Hi. pose proof Hok as [B1 B2 B3 B4 (l1 & l2 & mid & El & H1 & H2 & H3)]. split; [done|cbn; by rewrite length_insert|by apply NoDup_without| |].
  - apply upd_blk_used; [done|done|intros j; by rewrite elem_of_without; intros [_ ?]|]. intros _. rewrite elem_of_without. tauto.
  - cbn [rbb_blk_list without_blk upd_blk set_blk_set set_blk_list rbb_buf rbb_buf_size]. rewrite El, without_app. fold (without_blk i v s). unfold without_blk. pose proof (laid_bounds _ _ _ _ H1). pose proof (laid_bounds _ _ _ _ H2).
    assert (laid (blk_at (upd_blk i v (without i (rbb_blk_list s)) s)) mid (rbb_buf s + rbb_buf_size s) (without i l1)) as A1 by by apply upd_blk_laid, laid_without.
    assert (laid (blk_at (upd_blk i v (without i (rbb_blk_list s)) s)) (rbb_buf s) mid (without i l2)) as A2 by by apply upd_blk_laid, laid_without.
    rewrite El, without_app in A1, A2. destruct (without i l1) as [|h l1'] eqn:E1; [|by exists (h :: l1'), (without i l2), mid]. exists (without i l2), [], (rbb_buf s). rewrite app_nil_r. split_and!; [done| |cbn; lia|done]. by apply (laid_mono _ (rbb_buf s) mid).
Qed.

(** The first block of [l] that holds data. *)
Lemma first_put_wp l : forall s, rbb_ok s -> (forall i, i ∈ l -> i ∈ rbb_blk_list s) -> wp (first_put l) s (fun r s' => rbb_ok s' /\
  match r with
  | Some i => exists a b, l = a ++ i :: b /\ (forall j, j ∈ a -> blk_status (blk_at s j) <> RT_RBB_BLK_PUT) /\ blk_status (blk_at s i) = RT_RBB_BLK_PUT /\ s' = with_status i RT_RBB_BLK_GET s
  | None => s' = s /\ forall j, j ∈ l -> blk_status (blk_at s j) <> RT_RBB_BLK_PUT
  end).
Proof.
  induction l as [|i l IH]; intros s Hok Hl; cbn [first_put]; [apply wp_ret; split; [done|]; split; [done|by intros j ?%elem_of_nil]|].
  destruct (ro_used s Hok i) as (x & Ex & _); [apply Hl; left|]. apply wp_bind, wp_get_listed; [done|apply Hl; left|]. case_decide as Hs.
  - apply wp_bind, (set_blk_status_wp _ _ x); [done|]. apply wp_ret. split; [apply with_status_ok; [done|by eexists|done]|]. exists [], l. split_and!; [done|by intros j ?%elem_of_nil|done|done].
  - eapply wp_mono; [apply IH; [done|intros j Hj; apply Hl; by right]|]. intros r s' [Hok' Hr]. split; [done|]. destruct r as [k|].
    + destruct Hr as (a & b & -> & Ha & Hk & ->). exists (i :: a), b. split_and!; [done| |done|done]. intros j [->|Hj]%elem_of_cons; auto.
    + destruct Hr as [-> Hr]. split; [done|]. intros j [->|Hj]%elem_of_cons; auto.
Qed.

Lemma init_blocks_spec n : forall raw set, init_blocks n raw = Some set -> length set = length raw /\ (n <= length raw)%nat /\ forall i x, (i < n)%nat -> set !! i = Some x -> blk_status x = RT_RBB_BLK_UNUSED.
Proof.
  induction n as [|n IH]; intros raw set; cbn; [intros [= ->]; split_and!; [done|lia|lia]|]. destruct raw as [|x raw]; [done|]. intros (l & E & ->)%fmap_Some. destruct (IH raw l E) as (H1 & H2 & H3). cbn. split_and!; [lia|lia|].
  intros [|i] y Hi; cbn; [by intros [= <-]|]. apply H3. lia.
Qed.
Lemma rt_rbb_init_ok buf size raw max s : rt_rbb_init buf size raw max = Some s -> 0 <= buf -> 0 <= size -> buf + size < 2 ^ 32 -> max = Z.of_nat (length raw) ->
  rbb_ok s /\ rbb_blk_list s = [] /\ rbb_buf s = buf /\ rbb_buf_size s = size /\ forall i x, rbb_blk_set s !! i = Some x -> blk_status x = RT_RBB_BLK_UNUSED.
Proof.
  unfold rt_rbb_init. intros (set & E & [= <-])%bind_Some Hb Hs He Hm. destruct (init_blocks_spec _ _ _ E) as (H1 & _ & H3). split_and!; [|done|done|done|cbn; intros i x Ex; apply (H3 i x); [apply lookup_lt_Some in Ex; lia|done]].
  split; cbn; [done|lia|constructor|by intros i ?%elem_of_nil|]. exists [], [], buf. split_and!; [done|cbn; lia|cbn; lia|done].
Qed.

Lemma ring_block_calls_wp s :
  rbb_ok s ->
  (forall n, 0 < n < 2 ^ 24 -> (rbb_blk_list s = [] -> n <= rbb_buf_size s) -> wp (rt_rbb_blk_alloc n) s (allocated s n)) /\
  (forall i x, rbb_blk_set s !! i = Some x -> blk_status x = RT_RBB_BLK_INITED -> wp (rt_rbb_blk_put i) s (fun _ s' => s' = with_status i RT_RBB_BLK_PUT s /\ rbb_ok s')) /\
  wp rt_rbb_blk_get s (fun r s' => rbb_ok s' /\ match r with
    | Some i => exists a b, rbb_blk_list s = a ++ i :: b /\ (forall j, j ∈ a -> blk_status (blk_at s j) <> RT_RBB_BLK_PUT) /\ blk_status (blk_at s i) = RT_RBB_BLK_PUT /\ s' = with_status i RT_RBB_BLK_GET s
    | None => s' = s /\ forall j, j ∈ rbb_blk_list s -> blk_status (blk_at s j) <> RT_RBB_BLK_PUT end) /\
  (forall i, i ∈ rbb_blk_list s -> wp (rt_rbb_blk_free i) s (fun _ s' => s' = without_blk i RT_RBB_BLK_UNUSED s /\ rbb_ok s')).
Proof.
  intros Hok. split_and!.
  - intros n Hn He. by apply rt_rbb_blk_alloc_wp.
  - intros i x Ex Hx. unfold rt_rbb_blk_put. apply wp_bind, (wp_get_blk _ _ x); [done|]. apply wp_bind, wp_assert; [by apply bool_decide_eq_true|]. apply (set_blk_status_wp _ _ x); [done|]. split; [done|]. apply with_status_ok; [done|by eexists|done].
  - unfold rt_rbb_blk_get. apply wp_bind, wp_gets. by apply first_put_wp.
  - intros i Hi. destruct (ro_used s Hok i Hi) as (x & Ex & Hx). unfold rt_rbb_blk_free. apply wp_bind, (wp_get_blk _ _ x); [done|]. apply wp_bind, wp_assert; [by apply bool_decide_eq_true|].
    apply wp_bind, wp_modify, (set_blk_status_wp _ _ x); [done|]. split; [done|]. change (rbb_ok (without_blk i RT_RBB_BLK_UNUSED s)). apply without_blk_ok; [done|by eexists].
Qed.

(** The blocks of a ring block buffer, one call at a time, on every branch.
    Allocating takes a free block structure and appends a block of the asked size
    to the list, or fails for want of a structure or of room; getting takes the
    oldest block that was put; putting and freeing do what they say.  Every call
    returns and leaves blocks that lie in the buffer and do not overlap. *)
Theorem ring_block_calls s :
  rbb_ok s ->
  (forall n, 0 < n < 2 ^ 24 -> (rbb_blk_list s = [] -> n <= rbb_buf_size s) -> wp (rt_rbb_blk_alloc n) s (allocated s n)) /\
  (forall i x, rbb_blk_set s !! i = Some x -> blk_status x = RT_RBB_BLK_INITED -> wp (rt_rbb_blk_put i) s (fun _ s' => s' = with_status i RT_RBB_BLK_PUT s /\ rbb_ok s')) /\
  wp rt_rbb_blk_get s (fun r s' => rbb_ok s' /\ match r with
    | Some i => exists a b, rbb_blk_list s = a ++ i :: b /\ (forall j, j ∈ a -> blk_status (blk_at s j) <> RT_RBB_BLK_PUT) /\ blk_status (blk_at s i) = RT_RBB_BLK_PUT /\ s' = with_status i RT_RBB_BLK_GET s
    | None => s' = s /\ forall j, j ∈ rbb_blk_list s -> blk_status (blk_at s j) <> RT_RBB_BLK_PUT end) /\
  (forall i, i ∈ rbb_blk_list s -> wp (rt_rbb_blk_free i) s (fun _ s' => s' = without_blk i RT_RBB_BLK_UNUSED s /\ rbb_ok s')).
Proof. exact (ring_block_calls_wp s). Qed.

(** Clients that allocate blocks of at least one and at most as many bytes as
    the buffer has, and put and free the blocks they were given: [hold] maps the
    blocks they hold to the sizes they asked for. *)
Inductive rbb_call := CAlloc (n : Z) | CPut (i : nat) | CGet | CFree (i : nat).
Definition run_call (c : rbb_call) (hold : gmap nat Z) : M rt_rbb (gmap nat Z) :=
  match c with
  | CAlloc n => r <- rt_rbb_blk_alloc n ;; ret (match r with Some i => <[i := n]> hold | None => hold end)
  | CPut i => rt_rbb_blk_put i ;; ret hold
  | CGet => rt_rbb_blk_get ;; ret hold
  | CFree i => rt_rbb_blk_free i ;; ret (delete i hold)
  end.
Definition call_ok (s : rt_rbb) (hold : gmap nat Z) (c : rbb_call) : Prop :=
  match c with
  | CAlloc n => 0 < n < 2 ^ 24 /\ n <= rbb_buf_size s
  | CPut i => is_Some (hold !! i) /\ blk_status (blk_at s i) = RT_RBB_BLK_INITED
  | CGet => True
  | CFree i => is_Some (hold !! i)
  end.
Fixpoint run_calls (cs : list rbb_call) (hold : gmap nat Z) : M rt_rbb (gmap nat Z) :=
  match cs with [] => ret hold | c :: cs => hold <- run_call c hold ;; run_calls cs hold end.
Fixpoint calls_ok (cs : list rbb_call) (s : rt_rbb) (hold : gmap nat Z) : Prop :=
  match cs with [] => True | c :: cs => call_ok s hold c /\ forall s' hold', run_call c hold s = Ok hold' s' -> calls_ok cs s' hold' end.

(** The blocks in the list are the blocks held, with the sizes asked for. *)
Definition tracks (s : rt_rbb) (hold : gmap nat Z) : Prop :=
  (forall i, i ∈ rbb_blk_list s <-> is_Some (hold !! i)) /\
  forall i n, hold !! i = Some n -> exists x, rbb_blk_set s !! i = Some x /\ blk_size x = n.

Lemma tracks_upd s hold i v l hold' : tracks s hold -> is_Some (rbb_blk_set s !! i) ->
  (forall j, j ∈ l <-> is_Some (hold' !! j)) -> (forall j, is_Some (hold' !! j) -> hold' !! j = hold !! j) -> tracks (upd_blk i v l s) hold'.
Proof.
  intros [_ T] [y Ey] Hl Hh. split; [exact Hl|]. intros j n E. rewrite Hh in E by done. destruct (T j n E) as (x & Ex & Hx). unfold upd_blk. cbn.
  destruct (decide (i = j)) as [<-|Hne]; [|rewrite list_lookup_insert_ne by done; eauto].
  rewrite list_lookup_insert_eq by (by apply lookup_lt_is_Some_1; eexists). eexists. split; [done|]. cbn. unfold blk_at. by rewrite Ex.
Qed.
Lemma tracks_taken s hold i a n x : tracks s hold -> rbb_ok s -> rbb_blk_set s !! i = Some x -> blk_status x = RT_RBB_BLK_UNUSED -> tracks (taken i a n s) (<[i := n]> hold).
Proof.
  intros [T1 T2] Hok Ex Hx. split.
  - intros j. unfold taken. cbn. rewrite elem_of_app, list_elem_of_singleton, T1. destruct (decide (i = j)) as [<-|Hne].
    + rewrite lookup_insert_eq. split; [eauto|by right].
    + rewrite lookup_insert_ne by done. split; [intros [?|?]; [done|congruence]|by left].
  - intros j m. unfold taken. cbn. destruct (decide (i = j)) as [<-|Hne].
    + rewrite lookup_insert_eq. intros [= <-]. rewrite list_lookup_insert_eq by (by apply lookup_lt_is_Some_1; eexists). eexists. by split.
    + rewrite lookup_insert_ne, list_lookup_insert_ne by done. apply T2.
Qed.

Lemma run_call_ok s hold c : rbb_ok s -> tracks s hold -> call_ok s hold c ->
  wp (run_call c hold) s (fun hold' s' => rbb_ok s' /\ tracks s' hold' /\ rbb_buf s' = rbb_buf s /\ rbb_buf_size s' = rbb_buf_size s).
Proof.
  intros Hok Ht Hc. destruct (ring_block_calls_wp s Hok) as (HA & HP & HG & HF). pose proof Ht as [T1 T2].
  assert (forall i, is_Some (hold !! i) -> is_Some (rbb_blk_set s !! i)) as Hs by (intros i [n (x & ? & _)%T2]; by eexists).
  destruct c as [n|i| |i]; cbn [run_call call_ok] in *; apply wp_bind.
  - eapply wp_mono; [apply HA; [apply Hc|intros _; apply Hc]|]. intros [i|] s' H; apply wp_ret; [destruct H as ((x & Ex & Hx) & ? & a & ->)|by destruct H as [-> _]].
    split_and!; [done|by apply (tracks_taken s hold i a n x)|done|done].
  - destruct Hc as [Hi Hst]. destruct (Hs i Hi) as [x Ex]. unfold blk_at in Hst. rewrite Ex in Hst. eapply wp_mono; [by apply (HP i x)|]. intros [] s' [-> ?]. apply wp_ret.
    split_and!; [done| |done|done]. apply (tracks_upd s hold); [done|by eexists|done|done].
  - eapply wp_mono; [exact HG|]. intros [i|] s' [? H]; apply wp_ret; [destruct H as (a & b & El & _ & _ & ->)|by destruct H as [-> _]].
    split_and!; [done| |done|done]. apply (tracks_upd s hold); [done| |done|done]. apply Hs, T1. rewrite El. set_solver.
  - eapply wp_mono; [by apply HF, T1|]. intros [] s' [-> ?]. apply wp_ret. split_and!; [done| |done|done]. apply (tracks_upd s hold); [done|by apply Hs| |].
    + intros j. rewrite elem_of_without, T1. destruct (decide (i = j)) as [<-|Hne]; [rewrite lookup_delete_eq; split; [by intros []|by intros [? ?]]|].
      rewrite lookup_delete_ne by done. split; [tauto|]. split; [congruence|done].
    + intros j. destruct (decide (i = j)) as [<-|Hne]; [rewrite lookup_delete_eq; by intros [? ?]|by rewrite lookup_delete_ne].
Qed.

(** C31: no client of the block calls corrupts another one's block.  From a
    buffer that was just initialised, every sequence of valid calls of
    rt_rbb_blk_alloc, rt_rbb_blk_put, rt_rbb_blk_get and rt_rbb_blk_free returns.
    At its end the blocks in the list are those that were given out and not freed;
    each has the size asked for and lies inside the buffer, and no two overlap.
    Sequences with rt_rbb_blk_queue_get and rt_rbb_blk_queue_free are not
    covered: there it does not hold. *)
Theorem ring_blocks_safe buf size raw max s cs :
  rt_rbb_init buf size raw max = Some s -> 0 <= buf -> 0 <= size -> buf + size < 2 ^ 32 -> max = Z.of_nat (length raw) -> calls_ok cs s ∅ ->
  wp (run_calls cs ∅) s (fun hold s' =>
    (forall i, i ∈ rbb_blk_list s' <-> is_Some (hold !! i)) /\
    (forall i n, hold !! i = Some n -> exists x, rbb_blk_set s' !! i = Some x /\ blk_status x <> RT_RBB_BLK_UNUSED /\ blk_size x = n /\
       0 < n /\ buf <= blk_buf x /\ blk_buf x + n <= buf + size) /\
    (forall i j, is_Some (hold !! i) -> is_Some (hold !! j) -> i <> j -> apart (blk_at s' i) (blk_at s' j))).
Proof.
  intros E Hb Hs He Hm Hc. destruct (rt_rbb_init_ok buf size raw max s E Hb Hs He Hm) as (Hok & El & <- & <- & _).
  assert (tracks s ∅) as Ht.
  { split; [|by intros i n ?%lookup_empty_Some]. intros i. rewrite El, elem_of_nil, lookup_empty. split; [done|by intros [? ?]]. }
  clear E Hb Hs He Hm El. revert Ht Hc. generalize (∅ : gmap nat Z). intros hold Ht Hc.
  assert (wp (run_calls cs hold) s (fun hold' s' => rbb_ok s' /\ tracks s' hold' /\ rbb_buf s' = rbb_buf s /\ rbb_buf_size s' = rbb_buf_size s)) as H.
  { revert s hold Hok Ht Hc. induction cs as [|c cs IH]; intros s hold Hok Ht Hc; cbn [run_calls]; [by apply wp_ret|]. destruct Hc as [Hc Hcs].
    destruct (wp_run _ _ _ (run_call_ok s hold c Hok Ht Hc)) as (hold1 & s1 & E & Hok1 & Ht1 & Eb & Es).
    apply wp_bind. unfold wp at 1. rewrite E. eapply wp_mono; [by apply IH; [| |apply Hcs]|]. intros h2 s2 (? & ? & -> & ->). by rewrite Eb, Es. }
  eapply wp_mono; [exact H|]. intros hold' s' (Hok' & [T1 T2] & <- & <-). split; [done|]. split.
  - intros i n Hi. destruct (T2 i n Hi) as (x & Ex & Hx). assert (i ∈ rbb_blk_list s') as Hin by (apply T1; by eexists).
    destruct (ro_used _ Hok' i Hin) as (y & Ey & Hy). simplify_eq. destruct (rbb_inside s' i Hok' Hin) as (I1 & I2 & I3).
    unfold blk_end, blk_at in *. rewrite Ex in *. cbn in *. eexists. by split_and!.
  - intros i j Hi Hj Hne. apply rbb_apart; [done|by apply T1..|done].
Qed.

(** ** Queues of blocks *)

(** The blocks behind block [j] that rt_rbb_blk_queue_get takes with it. *)
Fixpoint queue_run (s : rt_rbb) (len : Z) (j : nat) (total : Z) (l : list nat) : list nat :=
  match l with
  | [] => []
  | i :: l =>
      if decide (blk_status (blk_at s i) = RT_RBB_BLK_PUT /\ blk_buf (blk_at s j) <= blk_buf (blk_at s i) /\ total + blk_size (blk_at s i) <= len)
      then i :: queue_run s len i (total + blk_size (blk_at s i)) l else []
  end.
(** The queue: the first block that was put, and its run. *)
Fixpoint queue_of (s : rt_rbb) (len : Z) (l : list nat) : list nat :=
  match l with
  | [] => []
  | i :: l => if decide (blk_status (blk_at s i) = RT_RBB_BLK_PUT) then i :: queue_run s len i (blk_size (blk_at s i)) l else queue_of s len l
  end.
Definition sizes (s : rt_rbb) (l : list nat) : Z := foldr (fun i n => blk_size (blk_at s i) + n) 0 l.
(** The state after the blocks [t] were taken. *)
Definition got (t : list nat) (s : rt_rbb) : rt_rbb := foldl (fun s i => without_blk i RT_RBB_BLK_GET s) s t.

Lemma laid_sizes s lo hi l : laid (blk_at s) lo hi l -> 0 <= sizes s l <= hi - lo.
Proof. revert lo. induction l as [|i l IH]; intros lo; cbn; [lia|]. unfold blk_end. intros (? & ? & ?%IH). unfold sizes in *. lia. Qed.
Lemma sizes_app s a b : sizes s (a ++ b) = sizes s a + sizes s b.
Proof. unfold sizes. induction a as [|i a IH]; cbn; [done|]. rewrite IH. lia. Qed.
Lemma rbb_sizes s : rbb_ok s -> 0 <= sizes s (rbb_blk_list s) <= rbb_buf_size s.
Proof. intros [_ _ _ _ (l1 & l2 & mid & -> & H1%laid_sizes & H2%laid_sizes & _)]. rewrite sizes_app. lia. Qed.
Lemma sizes_ext s s' l : (forall i, i ∈ l -> blk_size (blk_at s' i) = blk_size (blk_at s i)) -> sizes s' l = sizes s l.
Proof. induction l as [|i l IH]; intros H; [done|]. unfold sizes in *. cbn. rewrite H by left. rewrite IH; [done|]. intros j Hj. apply H. by right. Qed.
Lemma queue_run_ext s s' len l : forall j total, (forall i, i ∈ j :: l -> blk_buf (blk_at s' i) = blk_buf (blk_at s i) /\ blk_size (blk_at s' i) = blk_size (blk_at s i)) -> (forall i, i ∈ l -> blk_status (blk_at s' i) = blk_status (blk_at s i)) ->
  queue_run s' len j total l = queue_run s len j total l.
Proof.
  induction l as [|i l IH]; intros j total H H'; [done|]. cbn. destruct (H j ltac:(left)) as [-> _], (H i ltac:(right; left)) as [-> ->]. rewrite H' by left. case_decide; [|done]. f_equal. apply IH; intros k Hk; [apply H; by right|apply H'; by right].
Qed.
Lemma queue_run_prefix s len l : forall j total, exists b, l = queue_run s len j total l ++ b.
Proof. induction l as [|i l IH]; intros j total; cbn; [by exists []|]. case_decide; [|by exists (i :: l)]. destruct (IH i (total + blk_size (blk_at s i))) as [b Hb]. exists b. cbn. by f_equal. Qed.
Lemma queue_of_part s len l : exists a b, l = a ++ queue_of s len l ++ b /\ forall i, i ∈ a -> blk_status (blk_at s i) <> RT_RBB_BLK_PUT.
Proof.
  induction l as [|i l IH]; cbn; [exists [], []; split; [done|by intros i ?%elem_of_nil]|]. case_decide as Hs.
  - destruct (queue_run_prefix s len l i (blk_size (blk_at s i))) as [b Hb]. exists [], b. cbn. split; [by f_equal|by intros j ?%elem_of_nil].
  - destruct IH as (a & b & E & Ha). exists (i :: a), b. cbn. split; [by f_equal|]. intros j [->|Hj]%elem_of_cons; auto.
Qed.

Definition known (s : rt_rbb) (l : list nat) : Prop := forall i, i ∈ l -> is_Some (rbb_blk_set s !! i) /\ 0 <= blk_size (blk_at s i).
Lemma known_sizes s l : known s l -> 0 <= sizes s l.
Proof. induction l as [|i l IH]; intros H; [done|]. unfold sizes in *. cbn. destruct (H i ltac:(left)) as [_ ?]. assert (known s l) as ?%IH by (intros j Hj; apply H; by right). lia. Qed.
Lemma known_without s l i v : is_Some (rbb_blk_set s !! i) -> known s l -> known (without_blk i v s) l.
Proof. intros Hi H j Hj. destruct (H j Hj) as [? ?]. split; [by apply upd_blk_some|]. unfold without_blk. by destruct (upd_blk_at s i v (without i (rbb_blk_list s)) j Hi) as (_ & -> & _). Qed.

Lemma queue_take_wp s i q total : is_Some (rbb_blk_set s !! i) -> 0 <= total + blk_size (blk_at s i) < 2 ^ 32 -> 0 <= blk_num q + 1 < 2 ^ 32 ->
  wp (queue_take i q total) s (fun r s' => s' = without_blk i RT_RBB_BLK_GET s /\ r = (mkBlkQueue (blocks q) (blk_num q + 1), total + blk_size (blk_at s i))).
Proof.
  intros [x E] Ht Hq. unfold queue_take. apply wp_bind, wp_modify, wp_bind, (wp_get_blk _ _ x); [done|]. apply wp_bind, (set_blk_status_wp _ _ x); [done|]. apply wp_ret. split; [done|]. rewrite (blk_at_lookup s i x E) in *. by rewrite !u32_small by lia.
Qed.

Lemma run_unchanged s i v len j total l : is_Some (rbb_blk_set s !! i) -> i ∉ l -> queue_run (without_blk i v s) len j total l = queue_run s len j total l.
Proof.
  intros Hi Hn. apply queue_run_ext; intros k Hk; unfold without_blk; destruct (upd_blk_at s i v (without i (rbb_blk_list s)) k Hi) as (? & ? & Hs); [by split|]. by rewrite Hs, decide_False by (intros ->; done).
Qed.
Lemma sizes_unchanged s i v l : is_Some (rbb_blk_set s !! i) -> sizes (without_blk i v s) l = sizes s l.
Proof. intros Hi. apply sizes_ext. intros k _. unfold without_blk. by destruct (upd_blk_at s i v (without i (rbb_blk_list s)) k Hi) as (_ & ? & _). Qed.

Lemma queue_run_wp len l : forall s j q total, 0 <= len < 2 ^ 32 -> NoDup l -> is_Some (rbb_blk_set s !! j) -> known s l -> 0 <= total -> total + sizes s l < 2 ^ 32 -> 0 <= blk_num q -> blk_num q + Z.of_nat (length l) < 2 ^ 32 ->
  wp (queue_get_loop l len (Some j) q total) s (fun r s' => let t := queue_run s len j total l in s' = got t s /\ r = (mkBlkQueue (blocks q) (blk_num q + Z.of_nat (length t)), total + sizes s t)).
Proof.
  induction l as [|i l IH]; intros s j q total Hlen Hd Hj Hk Ht Hs Hq0 Hq; cbn [queue_get_loop queue_run].
  - apply wp_ret. cbn. split; [done|]. rewrite !Z.add_0_r. by destruct q.
  - apply NoDup_cons in Hd as [Hn Hd]. destruct (Hk i ltac:(left)) as [[x Ex] Hx]. assert (known s l) as Hk' by (intros k ?; apply Hk; by right). pose proof (known_sizes s l Hk'). unfold sizes in Hs. cbn [foldr] in Hs. fold (sizes s l) in Hs. cbn [length] in Hq.
    apply wp_bind, (wp_get_blk _ _ x); [done|]. rewrite <- (blk_at_lookup s i x Ex). destruct Hj as [y Ey]. apply wp_bind, (wp_get_blk _ _ y); [done|]. rewrite <- (blk_at_lookup s j y Ey). rewrite u32_small by lia. cbv zeta.
    destruct (decide _) as [(D1 & D2 & D3)|D].
    + rewrite bool_decide_false by tauto. rewrite (proj2 (Z.ltb_ge _ _) D2), (proj2 (Z.ltb_ge _ _) D3). cbn [orb]. apply wp_bind. eapply wp_mono; [apply queue_take_wp; [by eexists|lia|lia]|]. intros r s1 [-> ->]. assert (is_Some (rbb_blk_set s !! i)) as Hi by by eexists.
      eapply wp_mono; [apply (IH (without_blk i RT_RBB_BLK_GET s) i); try done; [by apply upd_blk_some|by apply known_without|lia|rewrite sizes_unchanged by done; lia|cbn; lia|cbn; lia]|].
      cbn [blk_num blocks]. intros r s2. rewrite run_unchanged, sizes_unchanged by done. intros [-> ->]. split; [done|]. cbn [length]. unfold sizes at 2. cbn [foldr]. fold (sizes s (queue_run s len i (total + blk_size (blk_at s i)) l)). f_equal; [f_equal|]; lia.
    + assert (bool_decide (blk_status (blk_at s i) <> RT_RBB_BLK_PUT) || (blk_buf (blk_at s i) <? blk_buf (blk_at s j)) || (len <? total + blk_size (blk_at s i)) = true) as ->.
      { destruct (bool_decide_reflect (blk_status (blk_at s i) <> RT_RBB_BLK_PUT)) as [?|Hp]; [done|]. apply dec_stable in Hp. cbn. apply orb_true_iff. rewrite !Z.ltb_lt. destruct (Z.lt_ge_cases (blk_buf (blk_at s i)) (blk_buf (blk_at s j))); [by left|]. right. apply Z.nle_gt. intros ?. apply D. by split_and!. }
      apply wp_ret. cbn. split; [done|]. rewrite !Z.add_0_r. by destruct q.
Qed.

Lemma queue_get_loop_wp len l : forall s q, 0 <= len < 2 ^ 32 -> NoDup l -> known s l -> sizes s l < 2 ^ 32 -> Z.of_nat (length l) < 2 ^ 32 ->
  wp (queue_get_loop l len None q 0) s (fun r s' => let t := queue_of s len l in s' = got t s /\ r = (match t with [] => q | h :: _ => mkBlkQueue h (Z.of_nat (length t)) end, sizes s t)).
Proof.
  induction l as [|i l IH]; intros s q Hlen Hd Hk Hs Hl; cbn [queue_get_loop queue_of]; [by apply wp_ret|]. apply NoDup_cons in Hd as [Hn Hd]. destruct (Hk i ltac:(left)) as [[x Ex] Hx].
  assert (known s l) as Hk' by (intros k ?; apply Hk; by right). pose proof (known_sizes s l Hk'). unfold sizes in Hs. cbn [foldr] in Hs. fold (sizes s l) in Hs. cbn [length] in Hl.
  apply wp_bind, (wp_get_blk _ _ x); [done|]. rewrite <- (blk_at_lookup s i x Ex). assert (is_Some (rbb_blk_set s !! i)) as Hi by by eexists. case_decide as Hput; [|apply (IH s q); try done; lia].
  apply wp_bind. eapply wp_mono; [apply queue_take_wp; [done|lia|cbn; lia]|]. intros r s1 [-> ->]. cbn [blk_num blocks]. rewrite Z.add_0_l.
  eapply wp_mono; [apply (queue_run_wp len l (without_blk i RT_RBB_BLK_GET s) i); try done; [by apply upd_blk_some|by apply known_without|rewrite sizes_unchanged by done; lia|cbn; lia]|].
  cbv zeta. cbn [blk_num blocks]. intros r s2. rewrite run_unchanged, sizes_unchanged by done. intros [-> ->]. split; [done|]. cbn [length]. unfold sizes at 2. cbn [foldr]. fold (sizes s (queue_run s len i (blk_size (blk_at s i)) l)). change (0 + blk_size (blk_at s i)) with (blk_size (blk_at s i)). f_equal. f_equal. lia.
Qed.

Lemma got_ok t : forall s, rbb_ok s -> (forall i, i ∈ t -> is_Some (rbb_blk_set s !! i)) -> rbb_ok (got t s) /\
  (forall i, i ∈ rbb_blk_list (got t s) <-> i ∈ rbb_blk_list s /\ i ∉ t) /\
  (forall i, blk_status (blk_at (got t s) i) = if decide (i ∈ t) then RT_RBB_BLK_GET else blk_status (blk_at s i)).
Proof.
  induction t as [|k t IH]; intros s Hok Ht; cbn [got foldl].
  - split; [done|]. split; [intros i; rewrite elem_of_nil; tauto|]. intros i. by rewrite decide_False by apply not_elem_of_nil.
  - assert (is_Some (rbb_blk_set s !! k)) as Hk by (apply Ht; left). destruct (IH (without_blk k RT_RBB_BLK_GET s)) as (A & B & C); [by apply without_blk_ok|intros i Hi; apply upd_blk_some, Ht; by right|]. split; [done|]. split.
    + intros i. unfold got in B. rewrite B. cbn. rewrite elem_of_without, not_elem_of_cons. tauto.
    + intros i. unfold got in C. rewrite C. unfold without_blk. destruct (upd_blk_at s k RT_RBB_BLK_GET (without k (rbb_blk_list s)) i Hk) as (_ & _ & ->). repeat case_decide; subst; try done; set_solver.
Qed.

Lemma listed_known s l : rbb_ok s -> (forall i, i ∈ l -> i ∈ rbb_blk_list s) -> known s l.
Proof.
  intros Hok Hl i Hi. destruct (ro_used s Hok i (Hl i Hi)) as (x & E & _). split; [by eexists|]. destruct Hok as [_ _ _ _ (l1 & l2 & mid & El & H1 & H2 & _)]. specialize (Hl i Hi). rewrite El in Hl.
  apply elem_of_app in Hl as [Hl|Hl]; [apply (laid_in _ _ _ _ _ H1) in Hl|apply (laid_in _ _ _ _ _ H2) in Hl]; lia.
Qed.

Lemma next_run_wp l : forall s j total, is_Some (rbb_blk_set s !! j) -> known s l -> 0 <= total -> total + sizes s l < 2 ^ 32 ->
  wp (next_queue_loop l (Some j) total) s (fun r s' => s' = s /\ r = total + sizes s (queue_run s (2 ^ 32 - 1) j total l)).
Proof.
  induction l as [|i l IH]; intros s j total Hj Hk Ht Hs; cbn [next_queue_loop queue_run]; [apply wp_ret; split; [done|cbn; lia]|].
  destruct (Hk i ltac:(left)) as [[x Ex] Hx]. assert (known s l) as Hk' by (intros k ?; apply Hk; by right). pose proof (known_sizes s l Hk'). unfold sizes in Hs. cbn [foldr] in Hs. fold (sizes s l) in Hs.
  apply wp_bind, (wp_get_blk _ _ x); [done|]. rewrite <- (blk_at_lookup s i x Ex). destruct Hj as [y Ey]. apply wp_bind, (wp_get_blk _ _ y); [done|]. rewrite <- (blk_at_lookup s j y Ey). rewrite u32_small by lia. destruct (decide _) as [(D1 & D2 & D3)|D].
  - rewrite bool_decide_false by tauto. rewrite (proj2 (Z.ltb_ge _ _) D2). cbn [orb]. eapply wp_mono; [apply (IH s i); [by eexists|done|lia..]|]. intros r s' [-> ->]. split; [done|]. unfold sizes at 2. cbn [foldr]. fold (sizes s (queue_run s (2 ^ 32 - 1) i (total + blk_size (blk_at s i)) l)). lia.
  - assert (bool_decide (blk_status (blk_at s i) <> RT_RBB_BLK_PUT) || (blk_buf (blk_at s i) <? blk_buf (blk_at s j)) = true) as ->.
    { destruct (bool_decide_reflect (blk_status (blk_at s i) <> RT_RBB_BLK_PUT)) as [?|Hp]; [done|]. apply dec_stable in Hp. cbn. apply Z.ltb_lt, Z.nle_gt. intros ?. apply D. split_and!; [done|done|lia]. }
    apply wp_ret. split; [done|cbn; lia].
Qed.
Lemma next_loop_wp l : forall s, known s l -> sizes s l < 2 ^ 32 -> wp (next_queue_loop l None 0) s (fun r s' => s' = s /\ r = sizes s (queue_of s (2 ^ 32 - 1) l)).
Proof.
  induction l as [|i l IH]; intros s Hk Hs; cbn [next_queue_loop queue_of]; [by apply wp_ret|]. destruct (Hk i ltac:(left)) as [[x Ex] Hx]. assert (known s l) as Hk' by (intros k ?; apply Hk; by right). pose proof (known_sizes s l Hk'). unfold sizes in Hs. cbn [foldr] in Hs. fold (sizes s l) in Hs.
  apply wp_bind, (wp_get_blk _ _ x); [done|]. rewrite <- (blk_at_lookup s i x Ex). case_decide; [|apply IH; [done|lia]]. rewrite Z.add_0_l, u32_small by lia. eapply wp_mono; [apply (next_run_wp l s i); [by eexists|done|lia..]|]. intros r s' [-> ->]. done.
Qed.

(** Rt_rbb_blk_queue_get.  It takes the first block that was put and those
    behind it that were put too, do not go back in the buffer, and fit into the
    given length; they leave the list and get the status GET, all others stay as
    they are, and the result is the sum of their sizes.  The first block is taken
    whatever its size.  rt_rbb_next_blk_queue_len is the result of the same call
    without a limit. *)
Theorem rt_rbb_blk_queue_get_correct s len q :
  rbb_ok s -> 0 <= len < 2 ^ 32 -> Z.of_nat (length (rbb_blk_list s)) < 2 ^ 32 ->
  wp (rt_rbb_blk_queue_get len q) s (fun r s' => let t := queue_of s len (rbb_blk_list s) in
    rbb_ok s' /\ r = (match t with [] => q | h :: _ => mkBlkQueue h (Z.of_nat (length t)) end, sizes s t) /\
    (exists a b, rbb_blk_list s = a ++ t ++ b /\ forall i, i ∈ a -> blk_status (blk_at s i) <> RT_RBB_BLK_PUT) /\
    (forall i, i ∈ rbb_blk_list s' <-> i ∈ rbb_blk_list s /\ i ∉ t) /\
    forall i, blk_status (blk_at s' i) = if decide (i ∈ t) then RT_RBB_BLK_GET else blk_status (blk_at s i)) /\
  wp rt_rbb_next_blk_queue_len s (fun r s' => s' = s /\ r = sizes s (queue_of s (2 ^ 32 - 1) (rbb_blk_list s))).
Proof.
  intros Hok Hlen Hnum. pose proof (rbb_sizes s Hok). pose proof (ro_buf s Hok). assert (known s (rbb_blk_list s)) as Hk by by apply listed_known. split.
  - unfold rt_rbb_blk_queue_get. apply wp_bind, wp_gets. eapply wp_mono; [apply queue_get_loop_wp; [done|apply Hok|done|lia|done]|]. cbv zeta. intros r s' [-> ->]. destruct (queue_of_part s len (rbb_blk_list s)) as (a & b & E & Ha).
    destruct (got_ok (queue_of s len (rbb_blk_list s)) s Hok) as (A & B & C); [|by split_and!; [|done|exists a, b|..]]. intros i Hi. apply Hk. rewrite E. apply elem_of_app. right. apply elem_of_app. by left.
  - unfold rt_rbb_next_blk_queue_len. apply wp_bind, wp_gets. apply next_loop_wp; [done|lia].
Qed.

(** ** Where blocks go wrong *)

(** The first block of an empty buffer is not compared with the size of the
    buffer: it may end behind it. *)
Theorem rbb_alloc_overruns s n i x :
  rbb_ok s -> rbb_blk_list s = [] -> rbb_blk_set s !! i = Some x -> blk_status x = RT_RBB_BLK_UNUSED -> rbb_buf_size s < n < 2 ^ 24 ->
  wp (rt_rbb_blk_alloc n) s (fun r s' => exists k, r = Some k /\ rbb_buf s' + rbb_buf_size s' < blk_end (blk_at s' k)).
Proof.
  intros Hok El Ex Hx Hn. pose proof (ro_set s Hok) as Hs. unfold rt_rbb_blk_alloc. apply wp_bind, wp_assert; [apply Z.ltb_lt; lia|]. apply wp_bind, wp_gets. pose proof (find_unused_spec (rbb_blk_set s) 0 (Z.to_nat (rbb_blk_max_num s)) ltac:(lia)) as Hfind.
  destruct (find_unused _ _ _) as [k|]; [|by destruct (Hfind i x Ex)]. destruct Hfind as (d & y & -> & Ey & _). cbn [Nat.add]. apply wp_bind, wp_gets. unfold id. rewrite El. apply lookup_lt_Some in Ex. rewrite (proj2 (Z.ltb_lt _ _)) by (cbn; lia).
  eapply wp_mono; [by apply (take_blk_wp d _ n s y)|]. intros r s' [-> ->]. exists d. split; [done|]. rewrite (taken_new s d n y) by done. cbn. unfold blk_end. cbn. lia.
Qed.

Definition sample_rbb (n : nat) : rt_rbb := mkRbb 0x20001000 16 (replicate n (mkBlk RT_RBB_BLK_UNUSED 0 0)) (Z.of_nat n) [].
Definition overlap (x y : rt_rbb_blk) : bool := (blk_buf x <? blk_end y) && (blk_buf y <? blk_end x).

(** Blocks of size 0 break the order: when the buffer is full and goes round, such
    a block starts where the first one does, the list is taken not to go round,
    and the next block is put on top of the first. *)
Theorem rbb_empty_block_overlaps :
  wp (rt_rbb_blk_alloc 8 ;; rt_rbb_blk_alloc 8 ;; rt_rbb_blk_free 0 ;; rt_rbb_blk_alloc 8 ;; rt_rbb_blk_alloc 0 ;; rt_rbb_blk_alloc 8) (sample_rbb 4)
    (fun r s' => r = Some 3%nat /\ rbb_blk_list s' = [1%nat; 0%nat; 2%nat; 3%nat] /\ overlap (blk_at s' 1) (blk_at s' 3) = true).
Proof. vm_compute. by split_and!. Qed.

(** A queue is taken for an array of blocks, but its blocks need not be next to
    each other in blk_set: freeing the queue goes past the end of the array. *)
Theorem rbb_queue_free_undefined :
  (rt_rbb_blk_alloc 4 ;; rt_rbb_blk_alloc 4 ;; rt_rbb_blk_alloc 4 ;; rt_rbb_blk_free 0 ;; rt_rbb_blk_alloc 4 ;;
   rt_rbb_blk_put 1 ;; rt_rbb_blk_put 2 ;; rt_rbb_blk_put 0 ;;
   '(q, _) <- rt_rbb_blk_queue_get 100 (mkBlkQueue 0 0) ;; rt_rbb_blk_queue_free q) (sample_rbb 3) = UB.
Proof. reflexivity. Qed.

(** The blocks of a queue are out of the list although their data is still to be
    read: the next allocation gives out their memory. *)
Theorem rbb_queue_memory_reused :
  wp (rt_rbb_blk_alloc 8 ;; rt_rbb_blk_put 0 ;; '(q, _) <- rt_rbb_blk_queue_get 8 (mkBlkQueue 0 0) ;; i <- rt_rbb_blk_alloc 8 ;; ret (q, i)) (sample_rbb 2)
    (fun r s' => r = (mkBlkQueue 0 1, Some 1%nat) /\ blk_status (blk_at s' 0) = RT_RBB_BLK_GET /\ overlap (blk_at s' 0) (blk_at s' 1) = true).
Proof. vm_compute. by split_and!. Qed.

(** The memory of a queue has holes where blocks were freed, and the first block
    may be larger than the limit. *)
Theorem rbb_queue_not_continuous :
  wp (rt_rbb_blk_alloc 4 ;; rt_rbb_blk_alloc 4 ;; rt_rbb_blk_alloc 4 ;; rt_rbb_blk_put 0 ;; rt_rbb_blk_put 2 ;; rt_rbb_blk_free 1 ;; rt_rbb_blk_queue_get 8 (mkBlkQueue 0 0)) (sample_rbb 3)
    (fun r s' => r = (mkBlkQueue 0 2, 8) /\ blk_status (blk_at s' 2) = RT_RBB_BLK_GET /\ (blk_end (blk_at s' 0) =? blk_buf (blk_at s' 2)) = false) /\
  wp (rt_rbb_blk_alloc 8 ;; rt_rbb_blk_put 0 ;; rt_rbb_blk_queue_get 1 (mkBlkQueue 0 0)) (sample_rbb 3) (fun r _ => r = (mkBlkQueue 0 1, 8)).
Proof. split; vm_compute; [by split_and!|done]. Qed.

(** ** Witnesses *)

(** Two blocks with data and a free structure. *)
Definition sample_ring : rt_rbb := mkRbb 0x20001000 16 [mkBlk RT_RBB_BLK_PUT 4 0x20001004; mkBlk RT_RBB_BLK_PUT 4 0x20001008; mkBlk RT_RBB_BLK_UNUSED 0 0] 3 [0%nat; 1%nat].
Lemma sample_ring_ok : rbb_ok sample_ring.
Proof.
  split; [done|done|apply (proj1 (bool_decide_eq_true _)); vm_compute; reflexivity| |].
  - intros i Hi. cbn in Hi. rewrite !elem_of_cons, elem_of_nil in Hi. destruct Hi as [->|[->|[]]]; eexists; split; by cbn.
  - exists [0%nat; 1%nat], [], 0x20001004. by split_and!.
Qed.
Lemma sample_rbb_ok n : rbb_ok (sample_rbb n).
Proof.
  split; cbn; [done|by rewrite length_replicate|constructor|by intros i ?%elem_of_nil|]. exists [], [], 0x20001000. by split_and!.
Qed.
Lemma ring_blocks_safe_witness :
  wp (run_calls [CAlloc 8; CAlloc 8; CPut 0; CGet; CFree 0; CAlloc 6] ∅) (sample_rbb 3) (fun hold s' =>
    (forall i, i ∈ rbb_blk_list s' <-> is_Some (hold !! i)) /\
    (forall i n, hold !! i = Some n -> exists x, rbb_blk_set s' !! i = Some x /\ blk_status x <> RT_RBB_BLK_UNUSED /\ blk_size x = n /\
       0 < n /\ 0x20001000 <= blk_buf x /\ blk_buf x + n <= 0x20001000 + 16) /\
    (forall i j, is_Some (hold !! i) -> is_Some (hold !! j) -> i <> j -> apart (blk_at s' i) (blk_at s' j))).
Proof.
  apply (ring_blocks_safe 0x20001000 16 (replicate 3 (mkBlk RT_RBB_BLK_UNUSED 0 0)) 3 (sample_rbb 3)); try done.
  repeat (split; [first [done|by eexists|split; [by eexists|done]]|intros ? ? [= <- <-]]). done.
Defined.
Lemma ring_block_calls_witness :
  wp (rt_rbb_blk_alloc 4) sample_ring (allocated sample_ring 4) /\ wp (rt_rbb_blk_free 1) sample_ring (fun _ s' => s' = without_blk 1 RT_RBB_BLK_UNUSED sample_ring /\ rbb_ok s').
Proof.
  destruct (ring_block_calls sample_ring sample_ring_ok) as (H1 & _ & _ & H2). split; [by apply H1|]. apply H2. right. left.
Defined.
Lemma rt_rbb_blk_queue_get_correct_witness : wp rt_rbb_next_blk_queue_len sample_ring (fun r s' => s' = sample_ring /\ r = 8).
Proof. exact (proj2 (rt_rbb_blk_queue_get_correct sample_ring 100 (mkBlkQueue 0 0) sample_ring_ok ltac:(done) ltac:(done))). Defined.
Lemma rbb_alloc_overruns_witness : wp (rt_rbb_blk_alloc 17) (sample_rbb 2) (fun r s' => exists k, r = Some k /\ rbb_buf s' + rbb_buf_size s' < blk_end (blk_at s' k)).
Proof. apply (rbb_alloc_overruns (sample_rbb 2) 17 0 (mkBlk RT_RBB_BLK_UNUSED 0 0)); [apply sample_rbb_ok|reflexivity|reflexivity|reflexivity|by cbn]. Defined.
