(* ===== verification/Wf.v ===== *)
(** * The scheduler invariant

    [wf s]: thread lists are disjoint and duplicate free; a thread is in the
    ready queue of its priority exactly when its state is READY; waiting lists
    hold suspended threads; only [rt_current_thread] is RUNNING; the bitmap has
    the bit of a priority set exactly when its queue is not empty.

    Routines break the invariant for one or two threads between two of their
    assignments, so it is stated for all threads but those of a set [X]
    ([wfx]); the lemmas say how each primitive update moves threads in and out
    of [X]. *)

From S2P Require Import Prelude Ffs KState.

(** ** Bit fields *)

Lemma testbit_7 i : 0 <= i -> Z.testbit 7 i = (i <? 3).
Proof.
  intros Hi. change 7 with (Z.ones 3). rewrite Z.testbit_ones by lia.
  destruct (Z.leb_spec 0 i); [done|lia].
Qed.

Lemma small_bits_above v i : 0 <= v < 8 -> 3 <= i -> Z.testbit v i = false.
Proof.
  intros Hv Hi. destruct (decide (v = 0)) as [->|]; [apply Z.bits_0|].
  apply Z.bits_above_log2; [lia|]. apply Z.log2_lt_pow2; [lia|].
  enough (2 ^ 3 <= 2 ^ i) by lia. apply Z.pow_le_mono_r; lia.
Qed.

Lemma st_with_st v th : 0 <= v < 8 -> st (with_st v th) = v.
Proof.
  intros Hv. unfold st, with_st, RT_THREAD_STAT_MASK. cbn [th_stat set_th_stat].
  apply Z.bits_inj'. intros i Hi.
  rewrite Z.land_spec, Z.lor_spec, Z.land_spec, Z.lnot_spec, testbit_7 by lia.
  destruct (Z.ltb_spec i 3); [by rewrite andb_false_r, orb_false_r, andb_true_r|].
  by rewrite andb_false_r, small_bits_above.
Qed.

Lemma st_yield_clear x : Z.land (Z.land x (Z.lnot RT_THREAD_STAT_YIELD)) RT_THREAD_STAT_MASK =
  Z.land x RT_THREAD_STAT_MASK.
Proof. by rewrite <- Z.land_assoc. Qed.
Lemma st_yield_set x : Z.land (Z.lor x RT_THREAD_STAT_YIELD) RT_THREAD_STAT_MASK =
  Z.land x RT_THREAD_STAT_MASK.
Proof. rewrite Z.land_lor_distr_l. apply Z.lor_0_r. Qed.
Lemma yield_set x : Z.land (Z.lor x RT_THREAD_STAT_YIELD) RT_THREAD_STAT_YIELD = RT_THREAD_STAT_YIELD.
Proof.
  apply Z.bits_inj'. intros i Hi. rewrite Z.land_spec, Z.lor_spec.
  destruct (Z.testbit RT_THREAD_STAT_YIELD i); [by rewrite orb_true_r|apply andb_false_r].
Qed.

Lemma testbit_set g p q : 0 <= q -> 0 <= p ->
  Z.testbit (Z.lor g (2 ^ p)) q = Z.testbit g q || (q =? p).
Proof.
  intros. rewrite Z.lor_spec. f_equal. rewrite Z.pow2_bits_eqb by lia. apply Z.eqb_sym.
Qed.
Lemma testbit_clear g p q : 0 <= q -> 0 <= p ->
  Z.testbit (Z.land g (Z.lnot (2 ^ p))) q = Z.testbit g q && negb (q =? p).
Proof.
  intros. rewrite Z.land_spec, Z.lnot_spec by lia. do 2 f_equal.
  rewrite Z.pow2_bits_eqb by lia. apply Z.eqb_sym.
Qed.

Lemma below_pow2_bits g n : 0 <= n -> 0 <= g -> (forall i, n <= i -> Z.testbit g i = false) -> g < 2 ^ n.
Proof.
  intros Hn Hg H. destruct (decide (g = 0)) as [->|]; [apply Z.pow_pos_nonneg; lia|].
  apply Z.log2_lt_pow2; [lia|]. destruct (Z.lt_ge_cases (Z.log2 g) n); [done|].
  pose proof (Z.bit_log2 g ltac:(lia)) as Hb. rewrite H in Hb by lia. done.
Qed.

Lemma high_bits_zero g n i : 0 <= n -> 0 <= g < 2 ^ n -> n <= i -> Z.testbit g i = false.
Proof.
  intros Hn Hg Hi. destruct (decide (g = 0)) as [->|]; [apply Z.bits_0|].
  apply Z.bits_above_log2; [lia|]. apply Z.log2_lt_pow2; [lia|].
  enough (2 ^ n <= 2 ^ i) by lia. apply Z.pow_le_mono_r; lia.
Qed.

Lemma set_range g p : 0 <= g < 2 ^ 32 -> 0 <= p < 32 -> 0 <= Z.lor g (2 ^ p) < 2 ^ 32.
Proof.
  intros Hg Hp. pose proof (Z.pow_pos_nonneg 2 p ltac:(lia) ltac:(lia)).
  split; [by apply Z.lor_nonneg; lia|]. apply below_pow2_bits; [lia|apply Z.lor_nonneg; lia|].
  intros i Hi. rewrite testbit_set by lia. rewrite (high_bits_zero g 32) by lia.
  destruct (Z.eqb_spec i p); [lia|done].
Qed.
Lemma clear_range g x : 0 <= g < 2 ^ 32 -> 0 <= Z.land g x < 2 ^ 32.
Proof.
  intros Hg. assert (0 <= Z.land g x) by (apply Z.land_nonneg; lia). split; [done|].
  apply below_pow2_bits; [lia|done|]. intros i Hi. rewrite Z.land_spec, (high_bits_zero g 32) by lia. done.
Qed.

(** ** The invariant *)

(** What being linked in list [q] says of a thread. *)
Definition place_ok (q : qid) (th : rt_thread) : Prop :=
  match q with
  | QReady p => st th = RT_THREAD_READY /\ th_current_priority th = p /\ th_number_mask th = 2 ^ p
  | QDefunct => st th = RT_THREAD_CLOSE
  | _ => st th = RT_THREAD_SUSPEND
  end.

Definition prio_ok (th : rt_thread) : Prop :=
  0 <= th_current_priority th < RT_THREAD_PRIORITY_MAX /\
  (th_number_mask th = 2 ^ th_current_priority th \/ th_number_mask th = 0).

(** The stack guard of _rt_scheduler_stack_check is intact.  The stack pointer
    belongs to the thread and the port; no kernel routine changes these fields. *)
Definition stack_ok (th : rt_thread) : Prop :=
  th_stack_mark th = 35 /\ th_stack_addr th < th_sp th <= th_stack_addr th + th_stack_size th.

Definition thread_ok (s : kst) (t : nat) (th : rt_thread) : Prop :=
  (st th <> RT_THREAD_INIT -> st th <> RT_THREAD_CLOSE -> th_number_mask th = 2 ^ th_current_priority th) /\
  (st th = RT_THREAD_READY -> t ∈ qget s (QReady (th_current_priority th))) /\
  (st th = RT_THREAD_RUNNING -> k_current s = Some t).

Definition can_be_current (th : rt_thread) : Prop :=
  st th = RT_THREAD_RUNNING \/ st th = RT_THREAD_SUSPEND \/ st th = RT_THREAD_CLOSE.

Record wfx (X : gset nat) (s : kst) : Prop := {
  wf_nodup : forall q, NoDup (qget s q);
  wf_unique : forall q1 q2 t, t ∈ qget s q1 -> t ∈ qget s q2 -> q1 = q2;
  wf_place : forall q t, t ∈ qget s q -> exists th, k_threads s !! t = Some th /\ place_ok q th;
  wf_prio : forall t th, k_threads s !! t = Some th -> prio_ok th;
  wf_stack : forall t th, k_threads s !! t = Some th -> stack_ok th;
  wf_thread : forall t th, k_threads s !! t = Some th -> t ∉ X -> thread_ok s t th;
  wf_current : forall t, k_current s = Some t ->
    exists th, k_threads s !! t = Some th /\ (t ∉ X -> can_be_current th);
  wf_group_range : 0 <= k_ready_group s < 2 ^ 32;
  wf_group : forall p, 0 <= p < 32 ->
    Z.testbit (k_ready_group s) p = true <-> qget s (QReady p) <> []
}.

Arguments wf_nodup {X s}.
Arguments wf_unique {X s}.
Arguments wf_place {X s}.
Arguments wf_prio {X s}.
Arguments wf_stack {X s}.
Arguments wf_thread {X s}.
Arguments wf_current {X s}.
Arguments wf_group_range {X s}.
Arguments wf_group {X s}.

Definition wf (s : kst) : Prop := wfx ∅ s.

Definition detached (s : kst) (t : nat) : Prop := forall q, t ∉ qget s q.

Lemma wfx_weaken X Y s : X ⊆ Y -> wfx X s -> wfx Y s.
Proof.
  intros HXY H. destruct H. split; eauto.
  intros t Ht. destruct (wf_current0 t Ht) as (th & ? & Hc). exists th. split; [done|].
  intros Hn. apply Hc. set_solver.
Qed.

(** ** Primitive updates *)

Definition upd_thread (t : nat) (th : rt_thread) (s : kst) : kst :=
  set_k_threads (<[t := th]> (k_threads s)) s.
Definition upd_queue (q : qid) (l : list nat) (s : kst) : kst :=
  set_k_queues (<[q := l]> (k_queues s)) s.
Definition unlink (t : nat) (s : kst) : kst :=
  set_k_queues (without t <$> k_queues s) s.

(** Projections of updated states, computed where they stand. *)
Ltac kproj1 p u :=
  lazymatch u with
  | _ _ =>
    let r := eval cbn [k_threads k_objects k_containers k_queues k_timers k_timer_list k_soft_timer_list k_sems
      k_mutexes k_events k_mailboxes k_mqs k_ready_group k_current k_current_priority
      k_lock_nest k_irq_nest k_tick k_timer_thread set_k_threads set_k_objects set_k_containers
      set_k_queues set_k_timers set_k_timer_list set_k_soft_timer_list set_k_sems set_k_mutexes
      set_k_events set_k_mailboxes set_k_mqs set_k_ready_group set_k_current
      set_k_current_priority set_k_lock_nest set_k_irq_nest set_k_tick set_k_timer_thread
      upd_thread upd_queue unlink] in (p u) in
    progress change (p u) with r in *
  end.
Ltac kproj :=
  repeat match goal with
  | H : context [k_threads ?u] |- _ => kproj1 k_threads u
  | |- context [k_threads ?u] => kproj1 k_threads u
  | H : context [k_objects ?u] |- _ => kproj1 k_objects u
  | |- context [k_objects ?u] => kproj1 k_objects u
  | H : context [k_containers ?u] |- _ => kproj1 k_containers u
  | |- context [k_containers ?u] => kproj1 k_containers u
  | H : context [k_queues ?u] |- _ => kproj1 k_queues u
  | |- context [k_queues ?u] => kproj1 k_queues u
  | H : context [k_timers ?u] |- _ => kproj1 k_timers u
  | |- context [k_timers ?u] => kproj1 k_timers u
  | H : context [k_timer_list ?u] |- _ => kproj1 k_timer_list u
  | |- context [k_timer_list ?u] => kproj1 k_timer_list u
  | H : context [k_soft_timer_list ?u] |- _ => kproj1 k_soft_timer_list u
  | |- context [k_soft_timer_list ?u] => kproj1 k_soft_timer_list u
  | H : context [k_sems ?u] |- _ => kproj1 k_sems u
  | |- context [k_sems ?u] => kproj1 k_sems u
  | H : context [k_mutexes ?u] |- _ => kproj1 k_mutexes u
  | |- context [k_mutexes ?u] => kproj1 k_mutexes u
  | H : context [k_events ?u] |- _ => kproj1 k_events u
  | |- context [k_events ?u] => kproj1 k_events u
  | H : context [k_mailboxes ?u] |- _ => kproj1 k_mailboxes u
  | |- context [k_mailboxes ?u] => kproj1 k_mailboxes u
  | H : context [k_mqs ?u] |- _ => kproj1 k_mqs u
  | |- context [k_mqs ?u] => kproj1 k_mqs u
  | H : context [k_ready_group ?u] |- _ => kproj1 k_ready_group u
  | |- context [k_ready_group ?u] => kproj1 k_ready_group u
  | H : context [k_current ?u] |- _ => kproj1 k_current u
  | |- context [k_current ?u] => kproj1 k_current u
  | H : context [k_current_priority ?u] |- _ => kproj1 k_current_priority u
  | |- context [k_current_priority ?u] => kproj1 k_current_priority u
  | H : context [k_lock_nest ?u] |- _ => kproj1 k_lock_nest u
  | |- context [k_lock_nest ?u] => kproj1 k_lock_nest u
  | H : context [k_irq_nest ?u] |- _ => kproj1 k_irq_nest u
  | |- context [k_irq_nest ?u] => kproj1 k_irq_nest u
  | H : context [k_tick ?u] |- _ => kproj1 k_tick u
  | |- context [k_tick ?u] => kproj1 k_tick u
  | H : context [k_timer_thread ?u] |- _ => kproj1 k_timer_thread u
  | |- context [k_timer_thread ?u] => kproj1 k_timer_thread u
  end.

Lemma qget_upd_queue q l s q' :
  qget (upd_queue q l s) q' = if decide (q = q') then l else qget s q'.
Proof. unfold qget, upd_queue. cbn. rewrite lookup_insert. by case_decide. Qed.
Lemma qget_unlink t s q : qget (unlink t s) q = without t (qget s q).
Proof. unfold qget, unlink. cbn. rewrite lookup_fmap. by destruct (k_queues s !! q). Qed.
(** Lists are not touched by updates of other fields. *)
Lemma qget_k_threads v s q : qget (set_k_threads v s) q = qget s q.
Proof. done. Qed.
Lemma qget_k_objects v s q : qget (set_k_objects v s) q = qget s q.
Proof. done. Qed.
Lemma qget_k_containers v s q : qget (set_k_containers v s) q = qget s q.
Proof. done. Qed.
Lemma qget_k_timers v s q : qget (set_k_timers v s) q = qget s q.
Proof. done. Qed.
Lemma qget_k_timer_list v s q : qget (set_k_timer_list v s) q = qget s q.
Proof. done. Qed.
Lemma qget_k_soft_timer_list v s q : qget (set_k_soft_timer_list v s) q = qget s q.
Proof. done. Qed.
Lemma qget_k_sems v s q : qget (set_k_sems v s) q = qget s q.
Proof. done. Qed.
Lemma qget_k_mutexes v s q : qget (set_k_mutexes v s) q = qget s q.
Proof. done. Qed.
Lemma qget_k_events v s q : qget (set_k_events v s) q = qget s q.
Proof. done. Qed.
Lemma qget_k_mailboxes v s q : qget (set_k_mailboxes v s) q = qget s q.
Proof. done. Qed.
Lemma qget_k_mqs v s q : qget (set_k_mqs v s) q = qget s q.
Proof. done. Qed.
Lemma qget_k_ready_group v s q : qget (set_k_ready_group v s) q = qget s q.
Proof. done. Qed.
Lemma qget_k_current v s q : qget (set_k_current v s) q = qget s q.
Proof. done. Qed.
Lemma qget_k_current_priority v s q : qget (set_k_current_priority v s) q = qget s q.
Proof. done. Qed.
Lemma qget_k_lock_nest v s q : qget (set_k_lock_nest v s) q = qget s q.
Proof. done. Qed.
Lemma qget_k_irq_nest v s q : qget (set_k_irq_nest v s) q = qget s q.
Proof. done. Qed.
Lemma qget_k_tick v s q : qget (set_k_tick v s) q = qget s q.
Proof. done. Qed.
Lemma qget_k_timer_thread v s q : qget (set_k_timer_thread v s) q = qget s q.
Proof. done. Qed.
Lemma qget_upd_thread t th s q : qget (upd_thread t th s) q = qget s q.
Proof. done. Qed.
#[export] Hint Rewrite qget_k_threads qget_k_objects qget_k_containers qget_k_timers qget_k_timer_list qget_k_soft_timer_list qget_k_sems qget_k_mutexes qget_k_events qget_k_mailboxes qget_k_mqs qget_k_ready_group qget_k_current qget_k_current_priority qget_k_lock_nest qget_k_irq_nest qget_k_tick qget_k_timer_thread qget_upd_thread qget_upd_queue qget_unlink : qget.
Ltac qsimp := autorewrite with qget in *.

Lemma lookup_upd_thread t th s t' :
  k_threads (upd_thread t th s) !! t' = if decide (t = t') then Some th else k_threads s !! t'.
Proof. unfold upd_thread. cbn. rewrite lookup_insert. by case_decide. Qed.

Definition sched_same (th th' : rt_thread) : Prop :=
  st th' = st th /\ th_current_priority th' = th_current_priority th /\
  th_number_mask th' = th_number_mask th /\ (stack_ok th -> stack_ok th').

Lemma sched_same_place q th th' : sched_same th th' -> place_ok q th -> place_ok q th'.
Proof. intros (E1 & E2 & E3 & E4). unfold place_ok. rewrite E1, E2, E3. done. Qed.
Lemma sched_same_ok s t th th' : sched_same th th' -> thread_ok s t th -> thread_ok s t th'.
Proof. intros (E1 & E2 & E3 & E4). unfold thread_ok. rewrite E1, E2, E3. done. Qed.
Lemma sched_same_prio th th' : sched_same th th' -> prio_ok th -> prio_ok th'.
Proof. intros (E1 & E2 & E3 & E4). unfold prio_ok. rewrite E2, E3. done. Qed.
Lemma sched_same_cur th th' : sched_same th th' -> can_be_current th -> can_be_current th'.
Proof. intros (E1 & E2 & E3 & E4). unfold can_be_current. rewrite E1. done. Qed.

(** A field the scheduler does not look at. *)
Lemma wfx_upd_same X s t th th' :
  wfx X s -> k_threads s !! t = Some th -> sched_same th th' -> wfx X (upd_thread t th' s).
Proof.
  intros H Ht Hs. pose proof H as H'. destruct H. split; try done.
  - intros q t' Hin. destruct (wf_place0 q t' Hin) as (th0 & E & Hp). rewrite lookup_upd_thread.
    case_decide; subst; simplify_eq; eauto using sched_same_place.
  - intros t' th0. rewrite lookup_upd_thread. case_decide; subst; intros E; simplify_eq;
      eauto using sched_same_prio.
  - intros t' th0. rewrite lookup_upd_thread. case_decide; subst; intros E; simplify_eq; [|eauto].
    destruct Hs as (_ & _ & _ & Hs). eauto.
  - intros t' th0. rewrite lookup_upd_thread. case_decide; subst; intros E Hn; simplify_eq.
    + apply (sched_same_ok s t' th); eauto.
    + by apply wf_thread0.
  - intros t' Hc. destruct (wf_current0 t' Hc) as (th0 & E & Hp). rewrite lookup_upd_thread.
    case_decide; subst; simplify_eq; eauto using sched_same_cur.
Qed.

(** Any change of a thread that is exempt and in no list. *)
Lemma wfx_upd_exempt X s t th th' :
  wfx X s -> k_threads s !! t = Some th -> t ∈ X -> detached s t -> prio_ok th' -> stack_ok th' ->
  wfx X (upd_thread t th' s).
Proof.
  intros H Ht HX Hd Hp Hs. destruct H. split; try done.
  - intros q t' Hin. destruct (wf_place0 q t' Hin) as (th0 & E & Hpl). rewrite lookup_upd_thread.
    case_decide; subst; [by apply Hd in Hin|eauto].
  - intros t' th0. rewrite lookup_upd_thread. case_decide; subst; intros E; simplify_eq; eauto.
  - intros t' th0. rewrite lookup_upd_thread. case_decide; subst; intros E; simplify_eq; eauto.
  - intros t' th0. rewrite lookup_upd_thread. case_decide; subst; intros E Hn; simplify_eq; [done|].
    by apply wf_thread0.
  - intros t' Hc. destruct (wf_current0 t' Hc) as (th0 & E & Hpl). rewrite lookup_upd_thread.
    case_decide; subst; simplify_eq; [|eauto]. exists th'. split; [done|]. intros Hn. by destruct Hn.
Qed.

(** A thread leaves the exempt set once it satisfies the invariant. *)
Lemma wfx_release X s t th :
  wfx ({[t]} ∪ X) s -> k_threads s !! t = Some th -> thread_ok s t th ->
  (k_current s = Some t -> can_be_current th) -> wfx X s.
Proof.
  intros H Ht Hok Hcur. destruct H. split; try done.
  - intros t' th' E Hn. destruct (decide (t' = t)) as [->|]; [by simplify_eq|].
    apply wf_thread0; [done|]. set_solver.
  - intros t' Hc. destruct (wf_current0 t' Hc) as (th' & E & Hc'). exists th'. split; [done|].
    intros Hn. destruct (decide (t' = t)) as [->|]; [simplify_eq; auto|]. apply Hc'. set_solver.
Qed.

(** rt_list_remove of a thread whose queue is not a ready queue. *)
Lemma wfx_unlink X s t th :
  wfx X s -> k_threads s !! t = Some th -> st th <> RT_THREAD_READY -> wfx X (unlink t s).
Proof.
  intros H Ht Hst. pose proof H as H'. destruct H.
  assert (forall p, qget (unlink t s) (QReady p) = qget s (QReady p)) as Hr.
  { intros p. rewrite qget_unlink. apply without_notin. intros Hin.
    destruct (wf_place0 _ _ Hin) as (th' & E & (Hp & _)). by simplify_eq. }
  split; try done.
  - intros q. rewrite qget_unlink. by apply NoDup_without.
  - intros q1 q2 t'. rewrite !qget_unlink, !elem_of_without. intros [_ ?] [_ ?]. eauto.
  - intros q t'. rewrite qget_unlink, elem_of_without. intros [_ ?]. eauto.
  - intros t' th' E Hn. destruct (wf_thread0 t' th' E Hn) as (T1 & T2 & T3).
    split; [done|split; [|done]]. intros Hrdy. rewrite Hr. auto.
  - intros p Hp. rewrite Hr. eauto.
Qed.

(** Linking a detached suspended (or closed) thread into a list. *)
Lemma wfx_link X s q t th l :
  wfx X s -> k_threads s !! t = Some th -> detached s t -> l ≡ₚ t :: qget s q ->
  (forall p, q <> QReady p) -> place_ok q th -> wfx X (upd_queue q l s).
Proof.
  intros H Ht Hd Hl Hq Hpl. destruct H. split; try done.
  - intros q'. rewrite qget_upd_queue. case_decide; subst; [|done].
    rewrite Hl. apply NoDup_cons. split; [apply Hd|done].
  - intros q1 q2 t'. rewrite !qget_upd_queue. repeat case_decide; subst; try done.
    + rewrite Hl. intros [->|H1]%elem_of_cons H2; [by apply Hd in H2|eauto].
    + rewrite Hl. intros H1 [->|H2]%elem_of_cons; [by apply Hd in H1|eauto].
    + eauto.
  - intros q' t'. rewrite qget_upd_queue. case_decide; subst; [|eauto].
    rewrite Hl. intros [->|Hin]%elem_of_cons; eauto.
  - intros t' th' E Hn. destruct (wf_thread0 t' th' E Hn) as (T1 & T2 & T3).
    split; [done|split; [|done]]. intros Hrdy. rewrite qget_upd_queue.
    case_decide; [by destruct (Hq (th_current_priority th'))|auto].
  - intros p Hp. rewrite qget_upd_queue. case_decide; [by destruct (Hq p)|eauto].
Qed.

(** rt_current_thread = t *)
Lemma wfx_set_current X s t th :
  wfx X s -> k_threads s !! t = Some th -> t ∈ X ->
  (forall c cth, k_current s = Some c -> k_threads s !! c = Some cth ->
     c ∈ X \/ st cth <> RT_THREAD_RUNNING) ->
  wfx X (set_k_current (Some t) s).
Proof.
  intros H Ht HX Hc. destruct H. split; try done.
  - intros t' th' E Hn. destruct (wf_thread0 t' th' E Hn) as (T1 & T2 & T3).
    split; [done|split; [done|]]. intros Hrun. cbn. specialize (T3 Hrun).
    destruct (Hc t' th' T3 E); done.
  - intros t' [= <-]. cbn. exists th. split; [done|]. intros Hn. by destruct Hn.
Qed.

(** ** Rules for the accessors *)

Lemma wp_get_thread t th s Q :
  k_threads s !! t = Some th -> Q th s -> wp (get_thread t) s Q.
Proof. intros H1 H2. by apply (wp_deref _ th). Qed.
Lemma wp_mod_thread t f th s Q :
  k_threads s !! t = Some th -> Q tt (upd_thread t (f th) s) -> wp (mod_thread t f) s Q.
Proof. intros H1 H2. apply wp_bind, (wp_get_thread _ th); [done|]. by apply wp_modify. Qed.
Lemma wp_q_append q t s Q : Q tt (upd_queue q (qget s q ++ [t]) s) -> wp (q_append q t) s Q.
Proof. done. Qed.
Lemma wp_q_prepend q t s Q : Q tt (upd_queue q (t :: qget s q) s) -> wp (q_prepend q t) s Q.
Proof. done. Qed.
Lemma wp_q_remove t s Q : Q tt (unlink t s) -> wp (q_remove t) s Q.
Proof. done. Qed.
Lemma wp_q_nonempty q s Q :
  Q (negb (bool_decide (qget s q = []))) s -> wp (q_nonempty q) s Q.
Proof. done. Qed.
Lemma wp_q_first q t l s Q : qget s q = t :: l -> Q t s -> wp (q_first q) s Q.
Proof. intros H1 H2. apply (wp_deref _ t); [|done]. by rewrite H1. Qed.
Lemma wp_current t s Q : k_current s = Some t -> Q t s -> wp current_thread s Q.
Proof. intros H1 H2. by apply (wp_deref _ t). Qed.

Lemma wp_get_object o ob s Q :
  k_objects s !! o = Some ob -> Q ob s -> wp (get_object o) s Q.
Proof. intros H1 H2. by apply (wp_deref _ ob). Qed.
Lemma wp_mod_object o f ob s Q :
  k_objects s !! o = Some ob -> Q tt (set_k_objects (<[o := f ob]> (k_objects s)) s) ->
  wp (mod_object o f) s Q.
Proof. intros H1 H2. apply wp_bind, (wp_get_object _ ob); [done|]. by apply wp_modify. Qed.
Lemma wp_get_timer tm ti s Q :
  k_timers s !! tm = Some ti -> Q ti s -> wp (get_timer tm) s Q.
Proof. intros H1 H2. by apply (wp_deref _ ti). Qed.
Lemma wp_mod_timer tm f ti s Q :
  k_timers s !! tm = Some ti -> Q tt (set_k_timers (<[tm := f ti]> (k_timers s)) s) ->
  wp (mod_timer tm f) s Q.
Proof. intros H1 H2. apply wp_bind, (wp_get_timer _ ti); [done|]. by apply wp_modify. Qed.
Lemma wp_assert_type o ob cls s Q :
  k_objects s !! o = Some ob -> Z.land (o_type ob) (Z.lnot RT_Object_Class_Static) = cls ->
  Q tt s -> wp (assert_type o cls) s Q.
Proof.
  intros H1 H2 H3. apply wp_bind, wp_bind, (wp_get_object _ ob); [done|]. apply wp_ret, wp_assert; [|done].
  by apply Z.eqb_eq.
Qed.

(** What the scheduler leaves alone, as one tuple. *)
Definition rest (s : kst) :=
  (k_objects s, k_containers s, k_timers s, k_timer_list s, k_soft_timer_list s,
   (k_sems s, k_mutexes s, k_events s, k_mailboxes s, k_mqs s),
   k_lock_nest s, k_irq_nest s, k_tick s, k_timer_thread s).

(** A thread whose record changed in [stat] only, between READY and RUNNING. *)
Definition runnable (th : rt_thread) : Prop :=
  st th = RT_THREAD_READY \/ st th = RT_THREAD_RUNNING.
Definition thread_step (th th' : rt_thread) : Prop :=
  set_th_stat 0 th' = set_th_stat 0 th /\
  (st th' = st th \/ (runnable th /\ runnable th')).

Lemma thread_step_refl th : thread_step th th.
Proof. split; auto. Qed.
Lemma thread_step_trans a b c : thread_step a b -> thread_step b c -> thread_step a c.
Proof.
  intros [E1 H1] [E2 H2]. split; [congruence|]. unfold runnable in *.
  destruct H1 as [H1|[? ?]], H2 as [H2|[? ?]]; rewrite ?H1, ?H2 in *; auto.
Qed.

(** What every scheduler routine leaves as it was: the other components, the
    lists that are not ready queues, and everything about a thread but whether
    it runs. *)
Record sched_frame (s s' : kst) : Prop := {
  sf_rest : rest s' = rest s;
  sf_queues : forall q, (forall p, q <> QReady p) -> qget s' q = qget s q;
  sf_threads : forall t, option_Forall2 thread_step (k_threads s !! t) (k_threads s' !! t)
}.

Lemma option_Forall2_refl_step (o : option rt_thread) : option_Forall2 thread_step o o.
Proof. destruct o; constructor. apply thread_step_refl. Qed.
Lemma sched_frame_refl s : sched_frame s s.
Proof. split; auto using option_Forall2_refl_step. Qed.
Lemma sched_frame_trans s1 s2 s3 : sched_frame s1 s2 -> sched_frame s2 s3 -> sched_frame s1 s3.
Proof.
  intros [R1 Q1 T1] [R2 Q2 T2]. split; [congruence| |].
  - intros q Hq. rewrite Q2, Q1 by done. done.
  - intros t. specialize (T1 t). specialize (T2 t).
    destruct T1 as [a b H1|]; inversion T2; subst; constructor. eauto using thread_step_trans.
Qed.
Lemma sched_frame_lookup s s' t th :
  sched_frame s s' -> k_threads s !! t = Some th ->
  exists th', k_threads s' !! t = Some th' /\ thread_step th th'.
Proof.
  intros [_ _ T] E. specialize (T t). rewrite E in T. inversion T; subst. eauto.
Qed.
Lemma sched_frame_lookup_inv s s' t th' :
  sched_frame s s' -> k_threads s' !! t = Some th' ->
  exists th, k_threads s !! t = Some th /\ thread_step th th'.
Proof.
  intros [_ _ T] E. specialize (T t). rewrite E in T. inversion T; subst. eauto.
Qed.

Create HintDb kernel.
#[export] Hint Resolve sched_frame_refl thread_step_refl : kernel.

(** ** Deciding the invariant

    [wfb] evaluates [wf] on a concrete state. *)

#[global] Instance place_ok_dec q th : Decision (place_ok q th).
Proof. destruct q; unfold place_ok; apply _. Defined.
#[global] Instance prio_ok_dec th : Decision (prio_ok th).
Proof. unfold prio_ok; apply _. Defined.
#[global] Instance stack_ok_dec th : Decision (stack_ok th).
Proof. unfold stack_ok; apply _. Defined.
#[global] Instance thread_ok_dec s t th : Decision (thread_ok s t th).
Proof. unfold thread_ok; apply _. Defined.
#[global] Instance can_be_current_dec th : Decision (can_be_current th).
Proof. unfold can_be_current; apply _. Defined.

Definition wfb (s : kst) : bool :=
  bool_decide (NoDup (concat (map_to_list (k_queues s)).*2)) &&
  forallb (fun ql => forallb (fun t => match k_threads s !! t with
                                       | Some th => bool_decide (place_ok ql.1 th)
                                       | None => false end) ql.2) (map_to_list (k_queues s)) &&
  forallb (fun tt => bool_decide (prio_ok tt.2) && bool_decide (stack_ok tt.2) &&
                     bool_decide (thread_ok s tt.1 tt.2)) (map_to_list (k_threads s)) &&
  match k_current s with
  | Some t => match k_threads s !! t with Some th => bool_decide (can_be_current th) | None => false end
  | None => true
  end &&
  ((0 <=? k_ready_group s) && (k_ready_group s <? 2 ^ 32)) &&
  forallb (fun p => eqb (Z.testbit (k_ready_group s) p) (negb (bool_decide (qget s (QReady p) = []))))
    (seqZ 0 32).

Lemma NoDup_concat_in {A} (ls : list (list A)) l : NoDup (concat ls) -> l ∈ ls -> NoDup l.
Proof.
  induction ls as [|l' ls IH]; [by intros _ ?%elem_of_nil|]. cbn.
  intros (H1 & _ & H3)%NoDup_app [->|?]%elem_of_cons; auto.
Qed.
Lemma NoDup_concat_unique {A K} (ls : list (K * list A)) k1 k2 l1 l2 x :
  NoDup (concat ls.*2) -> (k1, l1) ∈ ls -> (k2, l2) ∈ ls -> x ∈ l1 -> x ∈ l2 -> k1 = k2.
Proof.
  induction ls as [|[k l] ls IH]; [by intros _ ?%elem_of_nil|]. cbn.
  intros (H1 & H2 & H3)%NoDup_app E1 E2 Hx1 Hx2.
  assert (forall k' l', (k', l') ∈ ls -> x ∈ l' -> x ∈ concat ls.*2) as Hc.
  { intros k' l' Hin Hx. apply list_elem_of_In, in_concat. exists l'.
    split; apply list_elem_of_In; [|done]. apply list_elem_of_fmap. by exists (k', l'). }
  apply elem_of_cons in E1 as [E1|E1], E2 as [E2|E2]; simplify_eq; [done| | |by eapply IH].
  - destruct (H2 x Hx1). by eapply Hc.
  - destruct (H2 x Hx2). by eapply Hc.
Qed.

Lemma qget_elem s q t : t ∈ qget s q -> exists l, (q, l) ∈ map_to_list (k_queues s) /\ l = qget s q.
Proof.
  unfold qget. destruct (k_queues s !! q) as [l|] eqn:E; [|by intros ?%elem_of_nil].
  exists l. split; [|done]. by apply elem_of_map_to_list.
Qed.

Lemma forallb_elem {A} (f : A -> bool) l x : forallb f l = true -> x ∈ l -> f x = true.
Proof. intros H Hx. rewrite forallb_forall in H. apply H. by apply list_elem_of_In. Qed.

Lemma wfb_sound s : wfb s = true -> wf s.
Proof.
  unfold wfb. rewrite !andb_true_iff. intros [[[[[H1 H2] H3] H4] [H5 H5']] H6].
  apply bool_decide_eq_true in H1. split.
  - intros q. destruct (qget s q) as [|x l] eqn:E; [constructor|].
    destruct (qget_elem s q x) as (l' & Hl & El); [rewrite E; left|].
    apply (NoDup_concat_in _ (x :: l)) in H1; [done|]. apply list_elem_of_fmap. exists (q, l'). split; [|done].
    cbn. congruence.
  - intros q1 q2 t Hq1 Hq2. destruct (qget_elem s q1 t Hq1) as (l1 & E1 & ->).
    destruct (qget_elem s q2 t Hq2) as (l2 & E2 & ->). by eapply (NoDup_concat_unique _ _ _ _ _ t H1).
  - intros q t Hq. destruct (qget_elem s q t Hq) as (l & E & ->).
    apply (forallb_elem _ _ _ H2) in E. cbn in E. apply (forallb_elem _ _ _ E) in Hq.
    destruct (k_threads s !! t) as [th|]; [|done]. apply bool_decide_eq_true in Hq. eauto.
  - intros t th Ht. apply elem_of_map_to_list, (forallb_elem _ _ _ H3) in Ht. cbn in Ht.
    rewrite !andb_true_iff, !bool_decide_eq_true in Ht. tauto.
  - intros t th Ht. apply elem_of_map_to_list, (forallb_elem _ _ _ H3) in Ht. cbn in Ht.
    rewrite !andb_true_iff, !bool_decide_eq_true in Ht. tauto.
  - intros t th Ht _. apply elem_of_map_to_list, (forallb_elem _ _ _ H3) in Ht. cbn in Ht.
    rewrite !andb_true_iff, !bool_decide_eq_true in Ht. tauto.
  - intros t Ht. rewrite Ht in H4. destruct (k_threads s !! t) as [th|]; [|done].
    apply bool_decide_eq_true in H4. eauto.
  - lia.
  - intros p Hp. assert (p ∈ seqZ 0 32) as Hin by (apply elem_of_seqZ; lia).
    apply (forallb_elem _ _ _ H6) in Hin. cbn in Hin. apply eqb_prop in Hin. rewrite Hin.
    rewrite negb_true_iff, bool_decide_eq_false. done.
Qed.
