(* ===== verification/Inv.v ===== *)
(** * Headers and timers: the rest of the kernel invariant

    [tinv s] says what the routines that block and wake threads rely on beside
    the scheduler invariant: a thread that is not closed has a typed header and
    a typed built-in timer that calls [rt_thread_timeout] on it; the timer lists
    hold each timer at most once; a running thread timer is marked ACTIVATED,
    hangs in the hard timer list, and its thread is suspended.  [kinv] is the
    whole invariant, decided on concrete states by [kinvb]. *)

From S2P Require Import Prelude Ffs KState Wf.

Definition has_type (s : kst) (o : oid) (cls : Z) : Prop :=
  exists ob, k_objects s !! o = Some ob /\ Z.land (o_type ob) (Z.lnot RT_Object_Class_Static) = cls.

(** The built-in timer of thread [t]: a one-shot hard timer. *)
Definition thread_timer_ok (s : kst) (t : nat) : Prop :=
  exists ob ti, k_objects s !! OTimer (TmThread t) = Some ob /\ k_timers s !! TmThread t = Some ti /\
    o_type ob = Z.lor RT_Object_Class_Timer RT_Object_Class_Static /\
    Z.land (o_flag ob) (Z.lor RT_TIMER_FLAG_PERIODIC RT_TIMER_FLAG_SOFT_TIMER) = 0 /\
    tm_func ti = TFThread t.

Definition timer_activated (s : kst) (tm : tmid) : Prop :=
  exists ob, k_objects s !! OTimer tm = Some ob /\ Z.land (o_flag ob) RT_TIMER_FLAG_ACTIVATED <> 0.

Definition all_timers (s : kst) : list tmid := k_timer_list s ++ k_soft_timer_list s.

Record tinv (s : kst) : Prop := {
  ti_thread : forall t th, k_threads s !! t = Some th -> st th <> RT_THREAD_CLOSE ->
    has_type s (OThread t) RT_Object_Class_Thread /\ thread_timer_ok s t;
  ti_nodup : NoDup (all_timers s);
  ti_listed : forall tm, tm ∈ all_timers s ->
    is_Some (k_timers s !! tm) /\ has_type s (OTimer tm) RT_Object_Class_Timer;
  ti_wait : forall t, TmThread t ∈ all_timers s ->
    TmThread t ∈ k_timer_list s /\ timer_activated s (TmThread t) /\
    exists th, k_threads s !! t = Some th /\ st th = RT_THREAD_SUSPEND
}.
Arguments ti_thread {s}.
Arguments ti_nodup {s}.
Arguments ti_listed {s}.
Arguments ti_wait {s}.

Definition kinv (s : kst) : Prop := wf s /\ tinv s.

(** [tinv] looks at headers, timers and at whether threads are suspended or closed. *)
Lemma tinv_same s s' :
  k_objects s' = k_objects s -> k_timers s' = k_timers s ->
  k_timer_list s' = k_timer_list s -> k_soft_timer_list s' = k_soft_timer_list s ->
  (forall t th', k_threads s' !! t = Some th' -> st th' <> RT_THREAD_CLOSE ->
     exists th, k_threads s !! t = Some th /\ st th <> RT_THREAD_CLOSE) ->
  (forall t th, k_threads s !! t = Some th -> st th = RT_THREAD_SUSPEND -> TmThread t ∈ all_timers s ->
     exists th', k_threads s' !! t = Some th' /\ st th' = RT_THREAD_SUSPEND) ->
  tinv s -> tinv s'.
Proof.
  intros E1 E2 E3 E4 H1 H2 [T1 T2 T3 T4].
  assert (all_timers s' = all_timers s) as E5 by (unfold all_timers; congruence).
  split; unfold has_type, thread_timer_ok, timer_activated; rewrite ?E1, ?E2, ?E3, ?E5; [|done|done|].
  - intros t th' Ht Hst. destruct (H1 t th' Ht Hst) as (th & ? & ?). eauto.
  - intros t Hin. destruct (T4 t Hin) as (? & ? & th & ? & ?). eauto 10.
Qed.

Lemma sched_frame_tinv s s' : sched_frame s s' -> tinv s -> tinv s'.
Proof.
  intros F. pose proof (sf_rest _ _ F) as R. unfold rest in R. injection R as R1 R2 R3 R4 R5 R6 R7 R8 R9 R10.
  apply tinv_same; [congruence..| |].
  - intros t th' Ht Hst. destruct (sched_frame_lookup_inv s s' t th' F Ht) as (th & E & [_ Hs]).
    exists th. split; [done|]. destruct Hs as [Hs|[[Hs|Hs] _]]; rewrite Hs in *; done.
  - intros t th Ht Hst _. destruct (sched_frame_lookup s s' t th F Ht) as (th' & E & [_ Hs]).
    exists th'. split; [done|]. destruct Hs as [Hs|[[Hs|Hs] _]]; rewrite Hs in *; done.
Qed.

(** A thread update that keeps the state field. *)
Lemma tinv_upd_thread s t th th' :
  k_threads s !! t = Some th -> st th' = st th -> tinv s -> tinv (upd_thread t th' s).
Proof.
  intros Ht Hs. apply tinv_same; try done; intros u ?; rewrite lookup_upd_thread; case_decide; subst; intros; simplify_eq.
  - exists th. by rewrite <- Hs.
  - eauto.
  - exists th'. by rewrite Hs.
  - eauto.
Qed.

(** ** Deciding the invariant *)

#[global] Instance has_type_dec s o cls : Decision (has_type s o cls).
Proof.
  refine (match k_objects s !! o as x return k_objects s !! o = x -> _ with
    | Some ob => fun E => cast_if (decide (Z.land (o_type ob) (Z.lnot RT_Object_Class_Static) = cls))
    | None => fun E => right _ end eq_refl); unfold has_type; rewrite E; naive_solver.
Defined.
#[global] Instance timer_activated_dec s tm : Decision (timer_activated s tm).
Proof.
  refine (match k_objects s !! OTimer tm as x return k_objects s !! OTimer tm = x -> _ with
    | Some ob => fun E => cast_if (decide (Z.land (o_flag ob) RT_TIMER_FLAG_ACTIVATED <> 0))
    | None => fun E => right _ end eq_refl); unfold timer_activated; rewrite E; naive_solver.
Defined.
#[global] Instance timeout_fn_eq_dec : EqDecision timeout_fn.
Proof. solve_decision. Defined.

Definition thread_timer_okb (s : kst) (t : nat) : bool :=
  match k_objects s !! OTimer (TmThread t), k_timers s !! TmThread t with
  | Some ob, Some ti =>
      (o_type ob =? Z.lor RT_Object_Class_Timer RT_Object_Class_Static) &&
      (Z.land (o_flag ob) (Z.lor RT_TIMER_FLAG_PERIODIC RT_TIMER_FLAG_SOFT_TIMER) =? 0) &&
      bool_decide (tm_func ti = TFThread t)
  | _, _ => false
  end.

Definition tinvb (s : kst) : bool :=
  forallb (fun tt => (st tt.2 =? RT_THREAD_CLOSE) ||
    bool_decide (has_type s (OThread tt.1) RT_Object_Class_Thread) && thread_timer_okb s tt.1)
    (map_to_list (k_threads s)) &&
  bool_decide (NoDup (all_timers s)) &&
  forallb (fun tm => bool_decide (is_Some (k_timers s !! tm)) &&
    bool_decide (has_type s (OTimer tm) RT_Object_Class_Timer)) (all_timers s) &&
  forallb (fun tm => match tm with
    | TmThread t => bool_decide (TmThread t ∈ k_timer_list s) && bool_decide (timer_activated s (TmThread t)) &&
        match k_threads s !! t with Some th => st th =? RT_THREAD_SUSPEND | None => false end
    | TmUser _ => true end) (all_timers s).

Lemma tinvb_sound s : tinvb s = true -> tinv s.
Proof.
  unfold tinvb. rewrite !andb_true_iff, bool_decide_eq_true. intros [[[H1 H2] H3] H4]. split; [|done| |].
  - intros t th Ht Hst. apply elem_of_map_to_list, (forallb_elem _ _ _ H1) in Ht. cbn in Ht.
    rewrite (proj2 (Z.eqb_neq _ _)) in Ht by done. cbn in Ht. rewrite andb_true_iff, bool_decide_eq_true in Ht.
    destruct Ht as [? Ht]. split; [done|]. unfold thread_timer_okb in Ht.
    destruct (k_objects s !! OTimer (TmThread t)) as [ob|] eqn:Eo; [|done].
    destruct (k_timers s !! TmThread t) as [ti|] eqn:Et; [|done].
    rewrite !andb_true_iff, !Z.eqb_eq, bool_decide_eq_true in Ht. exists ob, ti. tauto.
  - intros tm Htm. apply (forallb_elem _ _ _ H3) in Htm. by rewrite andb_true_iff, !bool_decide_eq_true in Htm.
  - intros t Htm. apply (forallb_elem _ _ _ H4) in Htm. cbn in Htm.
    destruct (k_threads s !! t) as [th|]; [|by rewrite andb_false_r in Htm].
    rewrite !andb_true_iff, !bool_decide_eq_true, Z.eqb_eq in Htm. destruct Htm as [[? ?] ?]. eauto 10.
Qed.

Definition kinvb (s : kst) : bool := wfb s && tinvb s.
Lemma kinvb_sound s : kinvb s = true -> kinv s.
Proof. intros [H1 H2]%andb_prop. split; [by apply wfb_sound|by apply tinvb_sound]. Qed.

(** ** A sample state

    The idle thread (0), two threads of priority 10, one of them running
    (1 and 2), and a thread of priority 5 (3) that waits on semaphore 0 with its
    timer due at tick 120; a mutex, an event, a mailbox and a message queue, all
    free.  The properties' witnesses start from it. *)

Definition sample_thread (prio stat : Z) : rt_thread :=
  mkThread 0 0 0x20000000 512 0x200001c0 35 0 stat prio prio (2 ^ prio) 0 0 5 5 None 0.
Definition sample_header (ty flag : Z) : rt_object :=
  mkObject (repeat 97 RT_NAME_MAX) (Z.lor ty RT_Object_Class_Static) flag.

Definition sample : kst := mkKst
  (list_to_map [(0%nat, sample_thread 31 RT_THREAD_READY); (1%nat, sample_thread 10 RT_THREAD_RUNNING);
                (2%nat, sample_thread 10 RT_THREAD_READY); (3%nat, sample_thread 5 RT_THREAD_SUSPEND)])
  (list_to_map
     ([(OSem 0, sample_header RT_Object_Class_Semaphore RT_IPC_FLAG_FIFO);
       (OMutex 0, sample_header RT_Object_Class_Mutex RT_IPC_FLAG_PRIO);
       (OEvent 0, sample_header RT_Object_Class_Event RT_IPC_FLAG_PRIO);
       (OMailbox 0, sample_header RT_Object_Class_MailBox RT_IPC_FLAG_FIFO);
       (OMq 0, sample_header RT_Object_Class_MessageQueue RT_IPC_FLAG_FIFO);
       (OTimer (TmUser 0), sample_header RT_Object_Class_Timer (Z.lor RT_TIMER_FLAG_ACTIVATED RT_TIMER_FLAG_PERIODIC))] ++
      ((fun t => (OThread t, sample_header RT_Object_Class_Thread 0)) <$> [0; 1; 2; 3]%nat) ++
      ((fun t => (OTimer (TmThread t), sample_header RT_Object_Class_Timer (if decide (t = 3%nat) then 1 else 0)))
         <$> [0; 1; 2; 3]%nat)))
  (list_to_map [(RT_Object_Class_Thread, [OThread 3; OThread 2; OThread 1; OThread 0]);
                (RT_Object_Class_Semaphore, [OSem 0]); (RT_Object_Class_Mutex, [OMutex 0]);
                (RT_Object_Class_Event, [OEvent 0]); (RT_Object_Class_MailBox, [OMailbox 0]);
                (RT_Object_Class_MessageQueue, [OMq 0]);
                (RT_Object_Class_Timer, [OTimer (TmUser 0); OTimer (TmThread 3); OTimer (TmThread 2);
                                         OTimer (TmThread 1); OTimer (TmThread 0)])])
  (list_to_map [(QReady 31, [0%nat]); (QReady 10, [2%nat]); (QSem 0, [3%nat])])
  (list_to_map ((TmUser 0, mkTimer (TFUser 7 8) 50 150) ::
                ((fun t => (TmThread t, mkTimer (TFThread t) 20 120)) <$> [0; 1; 2; 3]%nat)))
  [TmThread 3; TmUser 0] []
  {[ 0%nat := 0 ]} {[ 0%nat := mkMutex 1 0xff 0 None ]} {[ 0%nat := 0 ]}
  {[ 0%nat := mkMailbox [0; 0; 0] 3 0 0 0 ]}
  {[ 0%nat := mkMq [mkMsg None [0; 0]; mkMsg (Some 0%nat) [0; 0]] 2 2 0 None None (Some 1%nat) ]}
  (2 ^ 31 + 2 ^ 10) (Some 1%nat) 10 0 0 100 None.

Lemma sample_kinv : kinv sample.
Proof. apply kinvb_sound. vm_compute. reflexivity. Qed.
