(* ===== verification/Sched.v ===== *)
(** * The scheduler (src/scheduler.c, configuration without RT_USING_SMP)

    The ready queues, the bitmap of ready priorities, the scheduler lock and
    the choice of the next thread.  The context switch itself is assembly of
    the port; here it is the assignment of [rt_current_thread], which the code
    makes before it calls the port. *)

From S2P Require Import Prelude Ffs KState Wf Inv.

(** rt_list_init of the 32 entries of rt_thread_priority_table. *)
Fixpoint init_priority_table (n : nat) : K unit :=
  match n with
  | O => ret tt
  | S n => init_priority_table n ;; q_init (QReady (Z.of_nat n))
  end.

Definition rt_system_scheduler_init : K unit :=
  modify (set_k_lock_nest 0) ;;
  init_priority_table (Z.to_nat RT_THREAD_PRIORITY_MAX) ;;
  modify (set_k_ready_group 0) ;;
  q_init QDefunct.

(** _rt_scheduler_stack_check: on an overflow the routine stops in
    [while (level);], called with interrupts disabled ([level] is not 0). *)
Definition _rt_scheduler_stack_check (t : nat) : K unit :=
  th <- get_thread t ;;
  if negb (th_stack_mark th =? 35) ||
     (th_sp th <=? th_stack_addr th) ||
     (th_stack_addr th + th_stack_size th <? th_sp th)
  then halt else ret tt.

(** The highest ready priority and the first thread of its queue. *)
Definition _get_highest_priority_thread : K (nat * Z) :=
  group <- gets k_ready_group ;;
  let p := __rt_ffs group - 1 in
  valid ((0 <=? p) && (p <? RT_THREAD_PRIORITY_MAX)) ;;
  t <- q_first (QReady p) ;;
  ret (t, p).

Definition rt_schedule_insert_thread (t : nat) : K unit :=
  th <- get_thread t ;;
  cur <- gets k_current ;;
  if bool_decide (cur = Some t) then
    (* it's current thread, it should be RUNNING thread *)
    mod_thread t (with_st RT_THREAD_RUNNING)
  else
    (* READY thread, insert to ready queue *)
    mod_thread t (with_st RT_THREAD_READY) ;;
    valid (th_current_priority th <? RT_THREAD_PRIORITY_MAX) ;;
    q_append (QReady (th_current_priority th)) t ;;
    modify (fun s => set_k_ready_group (Z.lor (k_ready_group s) (th_number_mask th)) s).

Definition rt_schedule_remove_thread (t : nat) : K unit :=
  th <- get_thread t ;;
  q_remove t ;;
  valid (th_current_priority th <? RT_THREAD_PRIORITY_MAX) ;;
  ne <- q_nonempty (QReady (th_current_priority th)) ;;
  if ne then ret tt
  else modify (fun s =>
         set_k_ready_group (Z.land (k_ready_group s) (Z.lnot (th_number_mask th))) s).

Definition rt_system_scheduler_start : K unit :=
  '(to_thread, _) <- _get_highest_priority_thread ;;
  set_current to_thread ;;
  rt_schedule_remove_thread to_thread ;;
  mod_thread to_thread (set_th_stat RT_THREAD_RUNNING).

(** The choice of [to_thread] in [rt_schedule], with [need_insert_from_thread];
    the yield bit is cleared when the running thread gives way. *)
Definition pick_to_thread (cur highest : nat) (hp : Z) : K (nat * bool) :=
  cth <- get_thread cur ;;
  if st cth =? RT_THREAD_RUNNING then
    if th_current_priority cth <? hp then ret (cur, false)
    else if (th_current_priority cth =? hp) &&
            (Z.land (th_stat cth) RT_THREAD_STAT_YIELD =? 0) then ret (cur, false)
    else
      mod_thread cur (fun th => set_th_stat (Z.land (th_stat th) (Z.lnot RT_THREAD_STAT_YIELD)) th) ;;
      ret (highest, true)
  else ret (highest, false).

Definition switch_to (from_thread to_thread : nat) (hp : Z) (need_insert : bool) : K unit :=
  modify (set_k_current_priority (u8 hp)) ;;
  set_current to_thread ;;
  when need_insert (rt_schedule_insert_thread from_thread) ;;
  rt_schedule_remove_thread to_thread ;;
  mod_thread to_thread (with_st RT_THREAD_RUNNING) ;;
  _rt_scheduler_stack_check to_thread.

Definition rt_schedule : K unit :=
  lock <- gets k_lock_nest ;;
  if lock =? 0 then
    group <- gets k_ready_group ;;
    if group =? 0 then ret tt
    else
      '(highest, hp) <- _get_highest_priority_thread ;;
      cur <- current_thread ;;
      '(to_thread, need_insert) <- pick_to_thread cur highest hp ;;
      if bool_decide (to_thread = cur) then
        rt_schedule_remove_thread cur ;;
        mod_thread cur (with_st RT_THREAD_RUNNING)
      else switch_to cur to_thread hp need_insert
  else ret tt.

Definition rt_enter_critical : K unit :=
  modify (fun s => set_k_lock_nest (i16 (k_lock_nest s + 1)) s).

Definition rt_exit_critical : K unit :=
  modify (fun s => set_k_lock_nest (i16 (k_lock_nest s - 1)) s) ;;
  nest <- gets k_lock_nest ;;
  if nest <=? 0 then
    modify (set_k_lock_nest 0) ;;
    cur <- gets k_current ;;
    when (bool_decide (is_Some cur)) rt_schedule
  else ret tt.

Definition rt_critical_level : K Z := gets (fun s => u16 (k_lock_nest s)).

(** ** Ready queue updates *)

Lemma group_nonzero X s : wfx X s -> (k_ready_group s <> 0 <-> exists p, 0 <= p < 32 /\ qget s (QReady p) <> []).
Proof.
  intros H. pose proof (wf_group_range H) as Hr. split.
  - intros Hnz. destruct (int32_has_bit (k_ready_group s) ltac:(lia) Hnz) as (p & Hp & Ht).
    exists p. split; [done|]. by apply (wf_group H).
  - intros (p & Hp & Hq) E. apply (wf_group H) in Hq; [|done]. by rewrite E, Z.bits_0 in Hq.
Qed.

Lemma ready_prio_range X s p t : wfx X s -> t ∈ qget s (QReady p) -> 0 <= p < 32.
Proof.
  intros H Hin. destruct (wf_place H _ _ Hin) as (th & E & (_ & <- & _)).
  by destruct (wf_prio H _ _ E).
Qed.

Lemma ready_other_prio X s t th p :
  wfx X s -> k_threads s !! t = Some th -> p <> th_current_priority th -> t ∉ qget s (QReady p).
Proof.
  intros H Ht Hp Hin. destruct (wf_place H _ _ Hin) as (th' & E & (_ & Hq & _)).
  apply Hp. congruence.
Qed.

(** The bitmap after a removal: the bit of the thread's priority is cleared
    exactly when its queue became empty. *)
Lemma removed_group X s t th p :
  wfx X s -> k_threads s !! t = Some th -> 0 <= p < 32 ->
  Z.testbit (if decide (without t (qget s (QReady (th_current_priority th))) = [])
             then Z.land (k_ready_group s) (Z.lnot (th_number_mask th)) else k_ready_group s) p = true <->
  without t (qget s (QReady p)) <> [].
Proof.
  intros H Ht Hp. destruct (wf_prio H _ _ Ht) as [Hr Hm]. set (pt := th_current_priority th) in *.
  destruct (decide (p = pt)) as [->|Hne].
  - case_decide as E; [|rewrite (wf_group H) by done; split; [done|]; intros _ E'; by rewrite E' in E].
    rewrite E. split; [|done]. intros Hb. exfalso. destruct Hm as [Hm|Hm]; rewrite Hm in Hb.
    + rewrite testbit_clear, Z.eqb_refl, andb_false_r in Hb by (unfold pt; lia). done.
    + rewrite Z.lnot_0, Z.land_m1_r in Hb. apply (wf_group H) in Hb; [|done].
      assert (t ∉ qget s (QReady pt)) as Hnot; [|by rewrite without_notin in E].
      intros Hin. destruct (wf_place H _ _ Hin) as (th' & E' & (_ & _ & Hmask)). simplify_eq.
      rewrite Hm in Hmask. pose proof (Z.pow_pos_nonneg 2 pt). unfold pt in *. lia.
  - rewrite (without_notin t (qget s (QReady p))) by exact (ready_other_prio X s t th p H Ht Hne).
    rewrite <- (wf_group H p Hp). case_decide; [|done]. destruct Hm as [Hm|Hm]; rewrite Hm.
    + rewrite testbit_clear by (unfold pt; lia). rewrite (proj2 (Z.eqb_neq p pt)) by done.
      by rewrite andb_true_r.
    + by rewrite Z.lnot_0, Z.land_m1_r.
Qed.

(** Removing a thread that the invariant does not need in its ready queue. *)
Lemma rt_schedule_remove_thread_wp X s t th :
  wfx X s -> k_threads s !! t = Some th -> t ∈ X \/ st th <> RT_THREAD_READY ->
  wp (rt_schedule_remove_thread t) s
     (fun _ s' => wfx X s' /\ exists g, s' = set_k_ready_group g (unlink t s)).
Proof.
  intros H Ht HX. destruct (wf_prio H _ _ Ht) as [Hp Hm].
  unfold rt_schedule_remove_thread. ksteps. apply (wp_get_thread _ th); [done|].
  ksteps. apply wp_q_remove. ksteps. apply wp_valid; [apply Z.ltb_lt; lia|]. ksteps.
  apply wp_q_nonempty. rewrite qget_unlink. set (p := th_current_priority th).
  set (g := if decide (without t (qget s (QReady p)) = [])
            then Z.land (k_ready_group s) (Z.lnot (th_number_mask th)) else k_ready_group s).
  assert (wfx X (set_k_ready_group g (unlink t s))) as Hwf.
  { split; cbn [k_threads k_current k_ready_group set_k_ready_group];
      try setoid_rewrite qget_k_ready_group.
    - intros q. rewrite qget_unlink. apply NoDup_without, (wf_nodup H).
    - intros q1 q2 t'. rewrite !qget_unlink, !elem_of_without. intros [_ ?] [_ ?]. by apply (wf_unique H _ _ t').
    - intros q t'. rewrite qget_unlink, elem_of_without. intros [_ ?]. by apply (wf_place H).
    - exact (wf_prio H).
    - exact (wf_stack H).
    - intros t' th' E Hn. destruct ((wf_thread H) t' th' E Hn) as (T1 & T2 & T3).
      split; [done|split; [|done]]. intros Hrdy. qsimp. rewrite elem_of_without.
      split; [|auto]. intros ->. destruct HX as [?|Hst]; [done|]. kproj. by simplify_eq.
    - exact (wf_current H).
    - pose proof (wf_group_range H). unfold g. case_decide; [by apply clear_range|done].
    - intros q Hq. rewrite qget_unlink. by apply removed_group with X. }
  unfold g in Hwf. destruct (decide (without t (qget s (QReady p)) = [])) as [E|E].
  - rewrite bool_decide_true by done. cbn [negb]. apply wp_modify. eauto.
  - rewrite bool_decide_false by done. cbn [negb]. apply wp_ret. split; [exact Hwf|].
    exists (k_ready_group s). by destruct s.
Qed.

Definition ready_insert (t : nat) (th : rt_thread) (s : kst) : kst :=
  set_k_ready_group (Z.lor (k_ready_group s) (th_number_mask th))
    (upd_queue (QReady (th_current_priority th)) (qget s (QReady (th_current_priority th)) ++ [t])
      (upd_thread t (with_st RT_THREAD_READY th) s)).

Definition inserted (t : nat) (th : rt_thread) (s : kst) : kst :=
  if decide (k_current s = Some t) then upd_thread t (with_st RT_THREAD_RUNNING th) s
  else ready_insert t th s.

Lemma wfx_ready_insert X s t th :
  wfx ({[t]} ∪ X) s -> k_threads s !! t = Some th -> detached s t ->
  th_number_mask th = 2 ^ th_current_priority th -> k_current s <> Some t ->
  wfx X (ready_insert t th s).
Proof.
  intros H Ht Hd Hm Hc. destruct (wf_prio H _ _ Ht) as [Hp _].
  assert (place_ok (QReady (th_current_priority th)) (with_st RT_THREAD_READY th)) as Hpl.
  { split; [by apply st_with_st|done]. }
  unfold ready_insert. set (p := th_current_priority th) in *.
  split.
  - intros q. qsimp. case_decide; [|apply (wf_nodup H)]. subst q.
    apply NoDup_app. split; [apply (wf_nodup H)|split; [|apply NoDup_singleton]].
    intros x Hx ->%list_elem_of_singleton. by apply Hd in Hx.
  - intros q1 q2 t'. qsimp. repeat case_decide; subst; try done; rewrite ?elem_of_app, ?list_elem_of_singleton.
    + intros [?| ->] H2; [by apply (wf_unique H _ _ t')|by apply Hd in H2].
    + intros H1 [?| ->]; [by apply (wf_unique H _ _ t')|by apply Hd in H1].
    + apply (wf_unique H).
  - intros q t'. qsimp. kproj. rewrite lookup_insert. case_decide; subst.
    + rewrite elem_of_app, list_elem_of_singleton. intros [Hin| ->]; [|rewrite decide_True by done; eauto].
      case_decide; subst; [by apply Hd in Hin|by apply (wf_place H)].
    + intros Hin. case_decide; subst; [by apply Hd in Hin|by apply (wf_place H)].
  - intros t' th'. kproj. rewrite lookup_insert. case_decide; [|apply (wf_prio H)].
    intros [= <-]. apply (wf_prio H _ _ Ht).
  - intros t' th'. kproj. rewrite lookup_insert. case_decide; [|apply (wf_stack H)].
    intros [= <-]. apply (wf_stack H _ _ Ht).
  - intros t' th'. kproj. rewrite lookup_insert. case_decide; subst.
    + intros [= <-] _. split; [done|split].
      * intros _. qsimp. cbn [th_current_priority with_st set_th_stat]. rewrite decide_True by done.
        rewrite elem_of_app, list_elem_of_singleton. auto.
      * rewrite st_with_st by done. done.
    + intros E Hn. destruct (wf_thread H t' th' E) as (T1 & T2 & T3); [set_solver|].
      split; [done|split; [|done]]. intros Hr. qsimp. case_decide as Eq; [|auto].
      injection Eq as ->. apply elem_of_app. auto.
  - intros t' Hct. kproj. rewrite lookup_insert. case_decide; [congruence|].
    destruct (wf_current H t' Hct) as (th' & E & Hc'). exists th'. split; [done|].
    intros Hn. apply Hc'. set_solver.
  - kproj. rewrite Hm. apply set_range; [apply (wf_group_range H)|done].
  - intros q Hq. qsimp. kproj. rewrite Hm, testbit_set by (unfold p in *; lia).
    case_decide as Eq.
    + injection Eq as <-. rewrite Z.eqb_refl, orb_true_r. split; [|done]. intros _ E. by destruct (qget s (QReady p)).
    + rewrite (proj2 (Z.eqb_neq q p)), orb_false_r by congruence. by apply (wf_group H).
Qed.

(** Making a detached thread runnable: READY at the tail of its queue, or
    RUNNING when it is the current thread. *)
Lemma rt_schedule_insert_thread_wp X s t th :
  wfx ({[t]} ∪ X) s -> k_threads s !! t = Some th -> detached s t ->
  th_number_mask th = 2 ^ th_current_priority th ->
  wp (rt_schedule_insert_thread t) s (fun _ s' => wfx X s' /\ s' = inserted t th s).
Proof.
  intros H Ht Hd Hm. destruct (wf_prio H _ _ Ht) as [Hp Hm'].
  unfold rt_schedule_insert_thread, inserted. ksteps. apply (wp_get_thread _ th); [done|]. ksteps.
  - apply bool_decide_eq_true in Heqb. apply (wp_mod_thread _ _ th); [done|].
    rewrite decide_True by done. split; [|done].
    eapply (wfx_release _ _ t (with_st RT_THREAD_RUNNING th)).
    + apply (wfx_upd_exempt _ _ _ th); [done|done|set_solver|done|exact (wf_prio H _ _ Ht)|exact (wf_stack H _ _ Ht)].
    + by rewrite lookup_upd_thread, decide_True.
    + split; [done|]. rewrite st_with_st by done. done.
    + intros _. left. by apply st_with_st.
  - apply bool_decide_eq_false in Heqb. apply (wp_mod_thread _ _ th); [done|]. ksteps.
    apply wp_valid; [apply Z.ltb_lt; lia|]. ksteps. apply wp_q_append. ksteps.
    rewrite decide_False by done. split; [|done]. exact (wfx_ready_insert X s t th H Ht Hd Hm Heqb).
Qed.

(** ** Frames of the updates *)

Lemma frame_upd_thread s t th th' :
  k_threads s !! t = Some th -> thread_step th th' -> sched_frame s (upd_thread t th' s).
Proof.
  intros Ht Hs. split; [done|done|]. intros t'. rewrite lookup_upd_thread.
  case_decide; subst; [rewrite Ht; by constructor|apply option_Forall2_refl_step].
Qed.
Lemma frame_same_threads s s' :
  rest s' = rest s -> (forall q, (forall p, q <> QReady p) -> qget s' q = qget s q) ->
  k_threads s' = k_threads s -> sched_frame s s'.
Proof. intros H1 H2 H3. split; [done|done|]. rewrite H3. auto using option_Forall2_refl_step. Qed.
Lemma frame_unlink X s t th :
  wfx X s -> k_threads s !! t = Some th -> runnable th -> sched_frame s (unlink t s).
Proof.
  intros H Ht Hr. apply frame_same_threads; [done| |done]. intros q Hq. rewrite qget_unlink.
  apply without_notin. intros Hin. destruct (wf_place H _ _ Hin) as (th' & E & Hp). simplify_eq.
  destruct q; cbn in Hp; try (by destruct (Hq p)); destruct Hr as [Hr|Hr]; rewrite Hp in Hr; done.
Qed.
Lemma with_st_step v th : 0 <= v < 8 -> v = RT_THREAD_READY \/ v = RT_THREAD_RUNNING ->
  runnable th -> thread_step th (with_st v th).
Proof.
  intros Hv Hc Hr. split; [done|]. right. split; [done|]. unfold runnable. by rewrite st_with_st.
Qed.
Lemma frame_inserted s t th :
  k_threads s !! t = Some th -> runnable th -> sched_frame s (inserted t th s).
Proof.
  intros Ht Hr. unfold inserted. case_decide.
  - apply (frame_upd_thread _ _ th); [done|]. apply with_st_step; auto. done.
  - eapply sched_frame_trans; [apply (frame_upd_thread _ t th (with_st RT_THREAD_READY th)); [done|]|].
    + apply with_st_step; auto. done.
    + apply frame_same_threads; [done| |done]. intros q Hq. unfold ready_insert. qsimp.
      by rewrite decide_False by (intros <-; by eapply Hq).
Qed.

(** ** The choice of the next thread *)

(** [t] is the first thread of the most urgent non-empty ready queue. *)
Definition highest_ready (s : kst) (t : nat) (p : Z) : Prop :=
  0 <= p < RT_THREAD_PRIORITY_MAX /\ head (qget s (QReady p)) = Some t /\
  forall p', 0 <= p' < p -> qget s (QReady p') = [].

Lemma get_highest_wp X s :
  wfx X s -> k_ready_group s <> 0 ->
  wp _get_highest_priority_thread s (fun r s' => s' = s /\ highest_ready s (fst r) (snd r)).
Proof.
  intros H Hnz. pose proof (wf_group_range H) as Hr.
  destruct (__rt_ffs_ok (k_ready_group s) ltac:(lia) Hnz) as ((H1 & H2 & H3) & H4).
  unfold _get_highest_priority_thread. ksteps. set (p := __rt_ffs (k_ready_group s) - 1) in *.
  assert (0 <= p < 32) as Hp by (unfold p; lia).
  apply wp_valid; [apply andb_true_intro; split; [apply Z.leb_le|apply Z.ltb_lt]; unfold RT_THREAD_PRIORITY_MAX; lia|].
  ksteps. apply (wf_group H) in H2; [|done].
  destruct (qget s (QReady p)) as [|t l] eqn:E; [done|].
  apply (wp_q_first _ t l); [done|]. ksteps. split; [done|]. cbn [fst snd].
  split; [done|]. split; [by rewrite E|]. intros p' Hp'.
  destruct (qget s (QReady p')) eqn:E'; [done|]. exfalso.
  assert (Z.testbit (k_ready_group s) p' = true) as Hb.
  { apply (wf_group H); [lia|]. by rewrite E'. }
  rewrite H3 in Hb by lia. done.
Qed.

Lemma highest_ready_unique s t1 p1 t2 p2 :
  highest_ready s t1 p1 -> highest_ready s t2 p2 -> t1 = t2 /\ p1 = p2.
Proof.
  intros (R1 & H1 & L1) (R2 & H2 & L2).
  destruct (Z.lt_trichotomy p1 p2) as [Hl|[->|Hl]].
  - rewrite L2 in H1 by lia. done.
  - rewrite H1 in H2. by simplify_eq.
  - rewrite L1 in H2 by lia. done.
Qed.

(** Who runs after a scheduling pass, given the current thread and the
    highest ready one: the running thread keeps the processor against lower
    priorities, and against its own priority unless it has yielded. *)
Definition sched_choice (c : nat) (cth : rt_thread) (t : nat) (p : Z) : nat :=
  if (st cth =? RT_THREAD_RUNNING) &&
     ((th_current_priority cth <? p) ||
      ((th_current_priority cth =? p) && (Z.land (th_stat cth) RT_THREAD_STAT_YIELD =? 0)))
  then c else t.

(** The end of [switch_to]: the chosen thread leaves its queue and runs. *)
Lemma dispatch_wp s t th :
  wfx {[t]} s -> k_current s = Some t -> k_threads s !! t = Some th -> st th = RT_THREAD_READY ->
  th_number_mask th = 2 ^ th_current_priority th ->
  wp (rt_schedule_remove_thread t ;; mod_thread t (with_st RT_THREAD_RUNNING) ;;
      _rt_scheduler_stack_check t) s
     (fun _ s' => wf s' /\ sched_frame s s' /\ k_current s' = Some t /\
        k_threads s' !! t = Some (with_st RT_THREAD_RUNNING th) /\
        (forall u, u <> t -> k_threads s' !! u = k_threads s !! u) /\
        (forall p, qget s' (QReady p) = without t (qget s (QReady p)))).
Proof.
  intros H Hc Ht Hst Hm. ksteps.
  eapply wp_mono; [eapply (rt_schedule_remove_thread_wp _ _ _ th); [done|done|left; set_solver]|].
  intros _ s' (Hwf & g & ->). ksteps. apply (wp_mod_thread _ _ th); [done|]. ksteps.
  unfold _rt_scheduler_stack_check. ksteps.
  apply (wp_get_thread _ (with_st RT_THREAD_RUNNING th)); [by rewrite lookup_upd_thread, decide_True|].
  destruct (wf_stack H _ _ Ht) as (S1 & S2 & S3).
  cbn [th_stack_mark th_stack_addr th_stack_size th_sp with_st set_th_stat].
  rewrite S1, Z.eqb_refl, (proj2 (Z.leb_gt _ _)), (proj2 (Z.ltb_ge _ _)) by lia. cbn [negb orb]. ksteps.
  assert (wf (upd_thread t (with_st RT_THREAD_RUNNING th) (set_k_ready_group g (unlink t s)))) as Hwf'.
  { eapply (wfx_release _ _ t (with_st RT_THREAD_RUNNING th)).
    - rewrite (right_id_L ∅ (∪)). apply (wfx_upd_exempt _ _ _ th); [done|done|set_solver| | |].
      + intros q. qsimp. rewrite elem_of_without. tauto.
      + exact (wf_prio H _ _ Ht).
      + exact (wf_stack H _ _ Ht).
    - by rewrite lookup_upd_thread, decide_True.
    - split; [done|]. rewrite st_with_st by done. done.
    - intros _. left. by apply st_with_st. }
  split; [done|]. split; [|split; [done|split; [|split]]].
  - eapply sched_frame_trans; [apply (frame_unlink _ s t th H Ht); by left|].
    eapply sched_frame_trans; [apply (frame_same_threads _ (set_k_ready_group g (unlink t s))); done|].
    apply (frame_upd_thread _ _ th); [done|]. apply with_st_step; [done|auto|by left].
  - by rewrite lookup_upd_thread, decide_True.
  - intros u Hu. by rewrite lookup_upd_thread, decide_False.
  - intros p. qsimp. done.
Qed.

(** The ready queue [q] after a pass that moved from [c] to [n]: the chosen
    thread left, and a preempted (still RUNNING) thread went to the tail of the
    queue of its priority. *)
Definition queue_after (s : kst) (c : nat) (cth : rt_thread) (n : nat) (q : Z) : list nat :=
  if decide (n = c) then qget s (QReady q)
  else without n (qget s (QReady q)) ++
       (if (st cth =? RT_THREAD_RUNNING) && (q =? th_current_priority cth) then [c] else []).

Record sched_post (s : kst) (c : nat) (cth : rt_thread) (s' : kst) : Prop := {
  sp_wf : wf s';
  sp_frame : sched_frame s s';
  sp_idle : k_ready_group s = 0 -> s' = s;
  sp_choice : forall t p, highest_ready s t p ->
    k_current s' = Some (sched_choice c cth t p) /\
    (exists nth, k_threads s' !! sched_choice c cth t p = Some nth /\ st nth = RT_THREAD_RUNNING) /\
    forall q, qget s' (QReady q) = queue_after s c cth (sched_choice c cth t p) q
}.

Lemma current_detached s c cth :
  wf s -> k_current s = Some c -> k_threads s !! c = Some cth ->
  st cth = RT_THREAD_RUNNING -> detached s c.
Proof.
  intros H Hc Ht Hr q Hin. destruct (wf_place H _ _ Hin) as (th & E & Hp). simplify_eq.
  destruct q; cbn in Hp; [destruct Hp as [Hp _]|..]; rewrite Hp in Hr; done.
Qed.

Lemma current_not_ready s c p : wf s -> k_current s = Some c -> c ∉ qget s (QReady p).
Proof.
  intros H Hc Hin. destruct (wf_place H _ _ Hin) as (th & E & (Hp & _)).
  destruct (wf_current H c Hc) as (th' & E' & Hcan). simplify_eq.
  destruct Hcan as [Hx|[Hx|Hx]]; [set_solver|rewrite Hp in Hx; done..].
Qed.

(** The current thread stays: it is RUNNING and nothing more urgent is ready. *)
Lemma stay_wp s c cth t p :
  wf s -> k_current s = Some c -> k_threads s !! c = Some cth -> st cth = RT_THREAD_RUNNING ->
  highest_ready s t p -> sched_choice c cth t p = c ->
  wp (rt_schedule_remove_thread c ;; mod_thread c (with_st RT_THREAD_RUNNING)) s
     (fun _ s' => sched_post s c cth s').
Proof.
  intros H Hc Ht Hr Hh Hch. pose proof (current_detached s c cth H Hc Ht Hr) as Hd. ksteps.
  eapply wp_mono; [eapply (rt_schedule_remove_thread_wp _ _ _ cth); [done|done|right; by rewrite Hr]|].
  intros _ s' (Hwf & g & ->). apply (wp_mod_thread _ _ cth); [done|].
  assert (sched_same cth (with_st RT_THREAD_RUNNING cth)) as Hsame.
  { split_and!; [|done..]. by rewrite st_with_st. }
  split.
  - by apply (wfx_upd_same _ _ _ cth).
  - eapply sched_frame_trans; [apply (frame_unlink _ s c cth H Ht); by right|].
    eapply sched_frame_trans; [apply (frame_same_threads _ (set_k_ready_group g (unlink c s))); done|].
    apply (frame_upd_thread _ _ cth); [done|]. apply with_st_step; [done|auto|by right].
  - intros E. exfalso. destruct Hh as (Hp & Hhd & _).
    apply (proj2 (group_nonzero _ s H)); [|done]. exists p. split; [done|]. by destruct (qget s (QReady p)).
  - intros t' p' Hh'. destruct (highest_ready_unique s t p t' p' Hh Hh') as [<- <-]. rewrite Hch.
    split; [done|]. split; [exists (with_st RT_THREAD_RUNNING cth); split|].
    + by rewrite lookup_upd_thread, decide_True.
    + by apply st_with_st.
    + intros q. unfold queue_after. rewrite decide_True by done. qsimp. apply without_notin, Hd.
Qed.

(** A switch away from a thread that no longer runs (blocked or closed). *)
Lemma switch_blocked_wp s c cth t p :
  wf s -> k_current s = Some c -> k_threads s !! c = Some cth -> st cth <> RT_THREAD_RUNNING ->
  highest_ready s t p -> wp (switch_to c t p false) s (fun _ s' => sched_post s c cth s').
Proof.
  intros H Hc Ht Hr Hh. pose proof Hh as (Hp & Hhd & Hlow).
  assert (t ∈ qget s (QReady p)) as Hin by (destruct (qget s (QReady p)); simplify_eq; set_solver).
  destruct (wf_place H _ _ Hin) as (th & E & (Hst & Hpr & Hm)).
  assert (t <> c) as Htc by (intros ->; by eapply current_not_ready).
  assert (sched_choice c cth t p = t) as Hch.
  { unfold sched_choice. by rewrite (proj2 (Z.eqb_neq _ _)). }
  unfold switch_to, set_current, when. ksteps.
  apply wp_unbind; eapply wp_mono; [apply (dispatch_wp _ t th); [|done|done|done|by rewrite Hpr]|].
  { apply (wfx_set_current _ _ _ th); [|done|set_solver|].
    - apply (wfx_weaken ∅); [set_solver|]. destruct H. by split.
    - intros c' cth' Hc' Ht'. right. kproj. by simplify_eq. }
  intros _ s' (Hwf & Hf & Hcur & Hn & Hoth & Hq). split; [done| | |].
  - eapply sched_frame_trans; [|exact Hf]. by apply frame_same_threads.
  - intros Eg. exfalso. apply (proj2 (group_nonzero _ s H)); [|done]. exists p. split; [done|].
    by destruct (qget s (QReady p)).
  - intros t' p' Hh'. destruct (highest_ready_unique s t p t' p' Hh Hh') as [<- <-]. rewrite Hch.
    split; [done|]. split; [eexists; split; [done|by apply st_with_st]|].
    intros q. rewrite Hq. unfold queue_after. rewrite decide_False by done.
    rewrite (proj2 (Z.eqb_neq (st cth) _)) by done. cbn [andb]. rewrite app_nil_r. done.
Qed.

(** A switch away from a running thread, which goes back to its ready queue. *)
Lemma switch_preempt_wp s c cth t p :
  wf s -> k_current s = Some c -> k_threads s !! c = Some cth -> st cth = RT_THREAD_RUNNING ->
  highest_ready s t p -> sched_choice c cth t p = t ->
  wp (mod_thread c (fun th => set_th_stat (Z.land (th_stat th) (Z.lnot RT_THREAD_STAT_YIELD)) th) ;;
      switch_to c t p true) s (fun _ s' => sched_post s c cth s').
Proof.
  intros H Hc Ht Hr Hh Hch. pose proof Hh as (Hp & Hhd & Hlow).
  pose proof (current_detached s c cth H Hc Ht Hr) as Hd.
  assert (t ∈ qget s (QReady p)) as Hin by (destruct (qget s (QReady p)); simplify_eq; set_solver).
  destruct (wf_place H _ _ Hin) as (th & E & (Hst & Hpr & Hm)).
  assert (t <> c) as Htc by (intros ->; by eapply current_not_ready).
  assert (th_number_mask cth = 2 ^ th_current_priority cth) as Hcm.
  { apply (wf_thread H c cth Ht); [set_solver|by rewrite Hr..]. }
  ksteps. apply (wp_mod_thread _ _ cth); [done|].
  set (cth' := set_th_stat (Z.land (th_stat cth) (Z.lnot RT_THREAD_STAT_YIELD)) cth).
  assert (sched_same cth cth') as Hsame.
  { split_and!; [|done..]. unfold st, cth'. cbn [th_stat set_th_stat]. apply st_yield_clear. }
  assert (st cth' = RT_THREAD_RUNNING) as Hr' by (by rewrite (proj1 Hsame)).
  set (s1 := set_k_current (Some t) (set_k_current_priority (u8 p) (upd_thread c cth' s))).
  assert (wfx ({[c]} ∪ {[t]}) s1) as Hwf1.
  { apply (wfx_set_current _ _ _ th); [| |set_solver|].
    - assert (wfx ({[c]} ∪ {[t]}) (upd_thread c cth' s)) as G; [|destruct G; by split].
      apply (wfx_weaken ∅); [set_solver|]. by apply (wfx_upd_same _ _ _ cth).
    - kproj. by rewrite lookup_insert_ne.
    - intros c' ? Hc' _. left. kproj. simplify_eq. set_solver. }
  assert (k_threads s1 !! c = Some cth') as Hc1.
  { unfold s1. kproj. apply lookup_insert_eq. }
  unfold switch_to, set_current, when. ksteps. fold s1.
  eapply wp_mono; [apply (rt_schedule_insert_thread_wp {[t]} s1 c cth'); [done|done|exact Hd|done]|].
  intros _ s2 (Hwf2 & ->). unfold inserted. rewrite decide_False by (unfold s1; kproj; congruence).
  eapply wp_mono; [apply (dispatch_wp _ t th); [|done| |done|by rewrite Hpr]|].
  { unfold inserted in Hwf2. rewrite decide_False in Hwf2 by (unfold s1; kproj; congruence). done. }
  { unfold ready_insert, s1. kproj. by rewrite !lookup_insert_ne. }
  intros _ s' (Hwf & Hf & Hcur & Hn & Hoth & Hq). split; [done| | |].
  - eapply sched_frame_trans; [|exact Hf]. eapply sched_frame_trans; [|].
    + apply (frame_upd_thread s c cth cth' Ht). split; [done|]. left. apply Hsame.
    + eapply sched_frame_trans; [by apply (frame_same_threads _ s1)|].
      assert (inserted c cth' s1 = ready_insert c cth' s1) as <-.
      { unfold inserted. rewrite decide_False by (unfold s1; kproj; congruence). done. }
      apply frame_inserted; [done|]. by right.
  - intros Eg. exfalso. apply (proj2 (group_nonzero _ s H)); [|done]. exists p. split; [done|].
    by destruct (qget s (QReady p)).
  - intros t' p' Hh'. destruct (highest_ready_unique s t p t' p' Hh Hh') as [<- <-]. rewrite Hch.
    split; [done|]. split; [eexists; split; [done|by apply st_with_st]|].
    intros q. rewrite Hq. unfold queue_after, ready_insert. rewrite decide_False by done.
    rewrite Hr, Z.eqb_refl. cbn [andb]. qsimp. unfold s1. qsimp.
    cbn [th_current_priority cth' set_th_stat].
    destruct (Z.eqb_spec q (th_current_priority cth)) as [->|Hne].
    + rewrite decide_True by done. rewrite without_app. f_equal. by rewrite without_cons_ne.
    + rewrite decide_False by congruence. by rewrite app_nil_r.
Qed.

(** One scheduling pass with the scheduler unlocked. *)
Lemma rt_schedule_wp s c cth :
  wf s -> k_current s = Some c -> k_threads s !! c = Some cth -> k_lock_nest s = 0 ->
  wp rt_schedule s (fun _ s' => sched_post s c cth s').
Proof.
  intros H Hc Ht Hl. unfold rt_schedule. ksteps; [| |by rewrite Hl in Heqb].
  - apply Z.eqb_eq in Heqb0. split; [done|apply sched_frame_refl|done|].
    intros t p (Hp & Hhd & _). exfalso. revert Heqb0. apply (group_nonzero _ s H).
    exists p. split; [done|]. by destruct (qget s (QReady p)).
  - apply Z.eqb_neq in Heqb0.
    eapply wp_mono; [by apply (get_highest_wp ∅)|]. intros [t p] s' [-> Hh]. cbn [fst snd] in Hh.
    ksteps. apply (wp_current c); [done|]. ksteps. unfold pick_to_thread. ksteps.
    apply (wp_get_thread _ cth); [done|].
    assert (t <> c) as Htc.
    { intros ->. eapply (current_not_ready s c p); eauto. destruct Hh as (_ & Hhd & _).
      destruct (qget s (QReady p)); simplify_eq; set_solver. }
    destruct (Z.eqb_spec (st cth) RT_THREAD_RUNNING) as [Hr|Hr].
    2:{ apply wp_ret; cbv beta iota. rewrite bool_decide_false by done. by apply switch_blocked_wp. }
    assert (sched_choice c cth t p = if (th_current_priority cth <? p) ||
      ((th_current_priority cth =? p) && (Z.land (th_stat cth) RT_THREAD_STAT_YIELD =? 0)) then c else t) as Hch.
    { unfold sched_choice. by rewrite Hr, Z.eqb_refl. }
    destruct (th_current_priority cth <? p) eqn:E1.
    { apply wp_ret; cbv beta iota. rewrite bool_decide_true by done. by apply (stay_wp s c cth t p). }
    destruct ((th_current_priority cth =? p) && _) eqn:E2.
    { apply wp_ret; cbv beta iota. rewrite bool_decide_true by done. by apply (stay_wp s c cth t p). }
    pose proof (switch_preempt_wp s c cth t p H Hc Ht Hr Hh Hch) as Hsw. cbn [orb] in Hsw.
    apply wp_bind. apply (wp_mod_thread _ _ cth); [done|]. apply wp_ret; cbv beta iota.
    rewrite bool_decide_false by done. apply wp_unbind in Hsw. unfold wp, mod_thread in Hsw.
    rewrite (bind_ok _ _ _ cth s) in Hsw; [done|]. unfold get_thread, deref. by rewrite Ht.
Qed.

Lemma rt_schedule_locked s : k_lock_nest s <> 0 -> rt_schedule s = Ok tt s.
Proof.
  intros Hl. unfold rt_schedule, bind, gets. by rewrite (proj2 (Z.eqb_neq _ _)).
Qed.

(** What a scheduling pass guarantees its callers, locked or not. *)
Lemma rt_schedule_frame s :
  wf s -> is_Some (k_current s) ->
  wp rt_schedule s (fun _ s' => wf s' /\ sched_frame s s' /\ is_Some (k_current s')).
Proof.
  intros H [c Hc]. destruct (wf_current H c Hc) as (cth & Ht & _).
  destruct (decide (k_lock_nest s = 0)) as [Hl|Hl].
  - eapply wp_mono; [by apply (rt_schedule_wp s c cth)|]. intros [] s' [P1 P2 P3 P4]. split; [done|]. split; [done|].
    destruct (decide (k_ready_group s = 0)) as [Hg|Hg]; [rewrite P3 by done; eauto|].
    destruct (wp_run _ _ _ (get_highest_wp _ s H Hg)) as ([t p] & ? & _ & _ & Hh).
    destruct (P4 t p Hh) as (-> & _). eauto.
  - unfold wp. rewrite rt_schedule_locked by done. eauto with kernel.
Qed.

(** Fields of the state the invariant does not look at. *)
Lemma wfx_same X s s' :
  k_threads s' = k_threads s -> (forall q, qget s' q = qget s q) -> k_current s' = k_current s ->
  k_ready_group s' = k_ready_group s -> wfx X s -> wfx X s'.
Proof.
  intros E1 Eq E3 E4 H.
  destruct H. split; try setoid_rewrite Eq; try rewrite E1; try rewrite E3; try rewrite E4; try done.
  intros t th Ht HX. destruct (wf_thread t th Ht HX) as (T1 & T2 & T3).
  unfold thread_ok. rewrite Eq, E3. auto.
Qed.

Lemma rt_exit_critical_wp s :
  wf s -> 1 <= k_lock_nest s < 2 ^ 15 ->
  wp rt_exit_critical s
     (fun _ s' => wf s' /\ sched_frame (set_k_lock_nest (k_lock_nest s - 1) s) s').
Proof.
  intros H Hn. unfold rt_exit_critical. ksteps.
  all: rewrite i16_small in * by lia; kproj.
  - apply Z.leb_le in Heqb. replace (k_lock_nest s - 1) with 0 by lia.
    change (set_k_lock_nest 0 (set_k_lock_nest 0 s)) with (set_k_lock_nest 0 s).
    eapply wp_mono; [apply rt_schedule_frame; [by apply (wfx_same _ s)|]|].
    + by apply bool_decide_eq_true in Heqb0.
    + intros [] s' (? & ? & _). done.
  - apply Z.leb_le in Heqb. replace (k_lock_nest s - 1) with 0 by lia.
    split; [by apply (wfx_same _ s)|apply sched_frame_refl].
  - split; [by apply (wfx_same _ s)|apply sched_frame_refl].
Qed.

(** ** Properties *)

(** C1: a scheduling pass with the scheduler unlocked returns, keeps the
    invariant, changes nothing when no thread is ready, and otherwise makes
    current (and RUNNING) the thread [sched_choice] names: the running thread
    against less urgent ones and, unless it has yielded, against its own
    priority, else the head of the most urgent ready queue; the chosen thread
    leaves its queue and a preempted one goes to the tail of its own. *)
Theorem rt_schedule_correct s c cth :
  wf s -> k_current s = Some c -> k_threads s !! c = Some cth -> k_lock_nest s = 0 ->
  exists s', rt_schedule s = Ok tt s' /\ sched_post s c cth s'.
Proof.
  intros H Hc Ht Hl. destruct (wp_run _ _ _ (rt_schedule_wp s c cth H Hc Ht Hl)) as ([] & s' & E & Hp).
  eauto.
Qed.

(** The running thread of the sample has used up its time slice. *)
Definition sample_yielding : kst :=
  upd_thread 1 (sample_thread 10 (Z.lor RT_THREAD_RUNNING RT_THREAD_STAT_YIELD)) sample.
Lemma sample_yielding_wf : wf sample_yielding.
Proof. apply wfb_sound. vm_compute. reflexivity. Qed.

Lemma rt_schedule_correct_witness :
  exists s', rt_schedule sample_yielding = Ok tt s' /\
    sched_post sample_yielding 1 (sample_thread 10 (Z.lor RT_THREAD_RUNNING RT_THREAD_STAT_YIELD)) s'.
Proof. apply rt_schedule_correct; [exact sample_yielding_wf|vm_compute; reflexivity..]. Defined.

Lemma queue_after_elem s c cth n q t :
  t ∈ queue_after s c cth n q -> t ∈ qget s (QReady q) \/ (t = c /\ st cth = RT_THREAD_RUNNING /\ q = th_current_priority cth).
Proof.
  unfold queue_after. case_decide; [auto|]. rewrite elem_of_app, elem_of_without.
  intros [[_ ?]|Hin]; [auto|]. destruct (_ && _) eqn:E; [|by apply elem_of_nil in Hin].
  apply andb_prop in E as [?%Z.eqb_eq ->%Z.eqb_eq]. apply list_elem_of_singleton in Hin. auto.
Qed.

(** Fixed-priority preemption.  After a pass with the scheduler unlocked
    the current thread is RUNNING unless nothing was ready, and no ready thread
    is more urgent than it. *)
Theorem rt_schedule_most_urgent s c cth :
  wf s -> k_current s = Some c -> k_threads s !! c = Some cth -> k_lock_nest s = 0 ->
  k_ready_group s <> 0 ->
  exists s' n nth, rt_schedule s = Ok tt s' /\ k_current s' = Some n /\
    k_threads s' !! n = Some nth /\ st nth = RT_THREAD_RUNNING /\
    forall t th, k_threads s' !! t = Some th -> st th = RT_THREAD_READY ->
      th_current_priority nth <= th_current_priority th.
Proof.
  intros H Hc Ht Hl Hg. destruct (wp_run _ _ _ (rt_schedule_wp s c cth H Hc Ht Hl)) as ([] & s' & E & Hp).
  destruct (wp_run _ _ _ (get_highest_wp _ s H Hg)) as ([t p] & ? & _ & _ & Hh). cbn in Hh.
  destruct (sp_choice _ _ _ _ Hp t p Hh) as (Hcur & (nth & Hn & Hr) & Hq).
  set (n := sched_choice c cth t p) in *.
  exists s', n, nth. repeat split; [done..|]. intros u th Hu Hst.
  pose proof (wf_thread (sp_wf _ _ _ _ Hp) u th Hu ltac:(set_solver)) as (_ & Hrdy & _).
  specialize (Hrdy Hst). rewrite Hq in Hrdy.
  destruct Hh as (Hpr & Hhd & Hlow).
  assert (t ∈ qget s (QReady p)) as Hin by (destruct (qget s (QReady p)); simplify_eq; set_solver).
  destruct (wf_place H _ _ Hin) as (tth & Et & (_ & Hpt & _)).
  assert (forall m mth mth', k_threads s !! m = Some mth -> k_threads s' !! m = Some mth' ->
    th_current_priority mth' = th_current_priority mth) as Hsame.
  { intros m mth mth' E1 E2. destruct (sched_frame_lookup s s' m mth (sp_frame _ _ _ _ Hp) E1) as (? & E3 & [E4 _]).
    rewrite E2 in E3. injection E3 as <-. by injection E4. }
  assert (forall q v, v ∈ qget s (QReady q) -> p <= q) as Hmin.
  { intros q v Hv. destruct (Z.le_gt_cases p q); [done|].
    pose proof (ready_prio_range _ s q v H Hv). rewrite Hlow in Hv by lia. by apply elem_of_nil in Hv. }
  unfold sched_choice in n. apply queue_after_elem in Hrdy.
  destruct ((st cth =? RT_THREAD_RUNNING) && _) eqn:Ech; subst n.
  - rewrite (Hsame c cth nth Ht Hn). apply andb_prop in Ech as [_ Ech].
    assert (th_current_priority cth <= p) as Hle.
    { apply orb_prop in Ech as [?%Z.ltb_lt|[?%Z.eqb_eq _]%andb_prop]; lia. }
    destruct Hrdy as [Hin'|(-> & _ & <-)]; [|lia]. apply Hmin in Hin'. lia.
  - rewrite (Hsame t tth nth Et Hn), Hpt.
    destruct Hrdy as [Hin'|(-> & Hr' & ->)]; [by apply Hmin in Hin'|].
    rewrite Hr', Z.eqb_refl in Ech. cbn [andb] in Ech.
    apply orb_false_elim in Ech as [?%Z.ltb_ge _]. done.
Qed.

Lemma rt_schedule_most_urgent_witness :
  exists s' n nth, rt_schedule sample_yielding = Ok tt s' /\ k_current s' = Some n /\
    k_threads s' !! n = Some nth /\ st nth = RT_THREAD_RUNNING /\
    forall t th, k_threads s' !! t = Some th -> st th = RT_THREAD_READY ->
      th_current_priority nth <= th_current_priority th.
Proof.
  eapply rt_schedule_most_urgent; [exact sample_yielding_wf|vm_compute; reflexivity..|vm_compute; discriminate].
Defined.

(** The scheduler lock nests.  Inside a critical section no scheduling pass
    does anything; leaving an inner section only counts down, and leaving the
    outermost one runs the pass that was held back. *)
Theorem critical_section s :
  0 <= k_lock_nest s < 2 ^ 15 - 1 ->
  (rt_enter_critical ;; rt_schedule) s = rt_enter_critical s /\
  (rt_enter_critical ;; rt_critical_level) s =
    Ok (k_lock_nest s + 1) (set_k_lock_nest (k_lock_nest s + 1) s) /\
  (rt_enter_critical ;; rt_exit_critical) s =
    (if k_lock_nest s =? 0 then if k_current s then rt_schedule s else Ok tt s else Ok tt s).
Proof.
  intros Hn. assert (i16 (k_lock_nest s + 1) = k_lock_nest s + 1) as E1 by (apply i16_small; lia).
  assert (forall v, set_k_lock_nest v (set_k_lock_nest (k_lock_nest s + 1) s) = set_k_lock_nest v s) as E2 by done.
  assert (set_k_lock_nest (k_lock_nest s) s = s) as E3 by (by destruct s).
  split_and!.
  - unfold bind, rt_enter_critical, modify. rewrite E1. apply rt_schedule_locked. cbn. lia.
  - unfold bind, rt_enter_critical, rt_critical_level, modify, gets. rewrite E1. cbn [k_lock_nest set_k_lock_nest].
    rewrite u16_small by lia. done.
  - unfold rt_enter_critical, rt_exit_critical, bind, modify, gets, when. rewrite E1.
    cbn [k_lock_nest set_k_lock_nest k_current]. rewrite Z.add_simpl_r, i16_small, E2 by lia.
    destruct (Z.eqb_spec (k_lock_nest s) 0) as [E|E].
    + rewrite E. cbn [Z.leb Z.compare]. rewrite <- E, E3. replace (set_k_lock_nest 0 s) with s by (by rewrite <- E).
      destruct (k_current s) as [c|] eqn:Ec.
      * by rewrite bool_decide_true, E3 by eauto.
      * by rewrite bool_decide_false, E3 by (intros []; done).
    + rewrite (proj2 (Z.leb_gt _ _)) by lia. by rewrite E3.
Qed.

Lemma critical_section_witness :
  0 <= k_lock_nest sample < 2 ^ 15 - 1 /\
  (rt_enter_critical ;; rt_exit_critical) sample = rt_schedule sample.
Proof.
  assert (0 <= k_lock_nest sample < 2 ^ 15 - 1) as H by (vm_compute; split; [discriminate|reflexivity]).
  split; [exact H|]. exact (proj2 (proj2 (critical_section sample H))).
Defined.
