(* ===== verification/Object.v ===== *)
(** * Kernel objects (src/object.c, with rt_strncpy and rt_strncmp of src/kservice.c)

    Every kernel object starts with a header that names and types it and links
    it into the container of its class.  [rt_object_init] registers a static
    object, [rt_object_allocate] a heap one (the allocation itself is an
    argument: the identifier of the fresh object, or none), and
    [rt_object_find] searches a container by name. *)

From S2P Require Import Prelude Ffs KState Wf Inv Sched.

(** ** Names *)

(** rt_strncpy into a buffer of [n] bytes; [None] when the source is read past
    its end. *)
Fixpoint rt_strncpy (n : nat) (src : list Z) : option (list Z) :=
  match n, src with
  | O, _ => Some []
  | S n, [] => None
  | S n, c :: src => if c =? 0 then Some (0 :: repeat 0 n) else cons c <$> rt_strncpy n src
  end.

Fixpoint rt_strncmp (cs ct : list Z) (count : nat) : option Z :=
  match count with
  | O => Some 0
  | S count =>
      match cs, ct with
      | a :: cs, b :: ct =>
          let r := i8 (a - b) in
          if negb (r =? 0) || (a =? 0) then Some r else rt_strncmp cs ct count
      | _, _ => None
      end
  end.

(** ** Containers *)

(** The classes of [rt_object_container] in this configuration. *)
Definition rt_object_container : list Z :=
  [RT_Object_Class_Thread; RT_Object_Class_Semaphore; RT_Object_Class_Mutex; RT_Object_Class_Event;
   RT_Object_Class_MailBox; RT_Object_Class_MessageQueue; RT_Object_Class_MemPool;
   RT_Object_Class_Device; RT_Object_Class_Timer].

Definition rt_object_get_information (type : Z) : option Z :=
  head (filter (fun c => c = type) rt_object_container).

Definition object_list (s : kst) (info : Z) : list oid := default [] (k_containers s !! info).

(** rt_list_insert_after(&(information->object_list), &(object->list)) *)
Definition container_insert (info : Z) (o : oid) : K unit :=
  modify (fun s => set_k_containers (<[info := o :: object_list s info]> (k_containers s)) s).
(** rt_list_remove(&(object->list)) *)
Definition container_remove (o : oid) : K unit :=
  modify (fun s => set_k_containers (without o <$> k_containers s) s).

(** Object memory starts out zeroed: static storage by the C runtime, heap
    storage by the rt_memset of rt_object_allocate. *)
Definition raw_flag (s : kst) (o : oid) : Z :=
  match k_objects s !! o with Some ob => o_flag ob | None => 0 end.

Definition rt_object_init (o : oid) (type : Z) (name : list Z) : K unit :=
  RT_ASSERT (bool_decide (is_Some (rt_object_get_information type))) ;;
  rt_enter_critical ;;
  l <- gets (fun s => object_list s type) ;;
  RT_ASSERT (bool_decide (o ∉ l)) ;;
  rt_exit_critical ;;
  nm <- deref (fun _ => rt_strncpy RT_NAME_MAX name) ;;
  modify (fun s => set_k_objects
    (<[o := mkObject nm (Z.lor type RT_Object_Class_Static) (raw_flag s o)]> (k_objects s)) s) ;;
  container_insert type o.

Definition rt_object_detach (o : oid) : K unit :=
  mod_object o (set_o_type 0) ;;
  container_remove o.

Definition rt_object_allocate (type : Z) (name : list Z) (malloced : option oid) : K (option oid) :=
  RT_DEBUG_NOT_IN_INTERRUPT ;;
  RT_ASSERT (bool_decide (is_Some (rt_object_get_information type))) ;;
  match malloced with
  | None => ret None
  | Some o =>
      nm <- deref (fun _ => rt_strncpy RT_NAME_MAX name) ;;
      modify (fun s => set_k_objects (<[o := mkObject nm type 0]> (k_objects s)) s) ;;
      container_insert type o ;;
      ret (Some o)
  end.

(** rt_object_delete: the header is gone with the freed memory. *)
Definition rt_object_delete (o : oid) : K unit :=
  sys <- rt_object_is_systemobject o ;;
  RT_ASSERT (negb sys) ;;
  mod_object o (set_o_type 0) ;;
  container_remove o ;;
  modify (fun s => set_k_objects (delete o (k_objects s)) s).

(** The walk over the container: the first object whose name compares equal. *)
Fixpoint find_named (l : list oid) (name : list Z) : K (option oid) :=
  match l with
  | [] => ret None
  | o :: l =>
      ob <- get_object o ;;
      r <- deref (fun _ => rt_strncmp (o_name ob) name RT_NAME_MAX) ;;
      if r =? 0 then ret (Some o) else find_named l name
  end.

Definition rt_object_find (name : option (list Z)) (type : Z) : K (option oid) :=
  match name with
  | None => ret None
  | Some name =>
      if RT_Object_Class_Unknown <? type then ret None
      else
        RT_DEBUG_NOT_IN_INTERRUPT ;;
        rt_enter_critical ;;
        RT_ASSERT (bool_decide (is_Some (rt_object_get_information type))) ;;
        l <- gets (fun s => object_list s type) ;;
        r <- find_named l name ;;
        rt_exit_critical ;;
        ret r
  end.

(** ** Strings *)

(** What rt_strncpy leaves in a buffer of [n] bytes: the characters that fit,
    padded with NULs. *)
Definition padded (n : nat) (l : list Z) : list Z := take n l ++ repeat 0 (n - length l).

Lemma rt_strncpy_ok n l : chars_ok l -> rt_strncpy n (cstring l) = Some (padded n l).
Proof.
  unfold cstring, padded. revert l. induction n as [|n IH]; intros l Hl; [done|].
  destruct l as [|c l]; [done|]. inversion Hl as [|? ? Hc Hl']; subst. cbn.
  rewrite (proj2 (Z.eqb_neq c 0)) by lia. by rewrite IH.
Qed.

(** Copying a stored name again. *)
Lemma rt_strncpy_padded n l : chars_ok l -> rt_strncpy n (padded n l) = Some (padded n l).
Proof.
  unfold padded. revert l. induction n as [|n IH]; intros l Hl; [done|].
  destruct l as [|c l]; [done|]. inversion Hl as [|? ? Hc Hl']; subst. cbn.
  rewrite (proj2 (Z.eqb_neq c 0)) by lia. by rewrite IH.
Qed.

Lemma i8_diff_zero a b : 0 <= a < 2 ^ 8 -> 0 <= b < 2 ^ 8 -> (i8 (a - b) =? 0) = (a =? b).
Proof.
  intros Ha Hb. destruct (Z.eqb_spec a b) as [->|Hne]; [by rewrite Z.sub_diag|].
  apply Z.eqb_neq. unfold i8. intros E. apply Hne.
  pose proof (Z.div_mod (a - b + 2 ^ 7) (2 ^ 8) ltac:(lia)) as D.
  assert ((a - b + 2 ^ 7) `mod` 2 ^ 8 = 2 ^ 7) as E' by lia. rewrite E' in D.
  assert (a - b = 2 ^ 8 * ((a - b + 2 ^ 7) `div` 2 ^ 8)) by lia. lia.
Qed.

(** Comparing a stored name with a string: equal exactly when the two agree on
    the characters that fit. *)
Lemma rt_strncmp_padded n l1 l2 :
  chars_ok l1 -> chars_ok l2 ->
  exists r, rt_strncmp (padded n l1) (cstring l2) n = Some r /\ (r = 0 <-> take n l1 = take n l2).
Proof.
  unfold cstring, padded. revert l1 l2. induction n as [|n IH]; intros l1 l2 H1 H2; [by exists 0|].
  destruct l1 as [|a l1], l2 as [|b l2]; cbn.
  - by exists 0.
  - inversion H2 as [|? ? Hb _]; subst. exists (i8 (0 - b)). rewrite orb_true_r. split; [done|].
    rewrite <- Z.eqb_eq, i8_diff_zero, Z.eqb_eq by lia. split; [lia|done].
  - inversion H1 as [|? ? Ha _]; subst. pose proof (i8_diff_zero a 0 ltac:(lia) ltac:(lia)) as E.
    rewrite (proj2 (Z.eqb_neq a 0)) in E by lia. rewrite E. exists (i8 (a - 0)). split; [done|].
    apply Z.eqb_neq in E. split; [done|]. intros [= ].
  - inversion H1 as [|? ? Ha Ht1]; subst. inversion H2 as [|? ? Hb Ht2]; subst.
    pose proof (i8_diff_zero a b ltac:(lia) ltac:(lia)) as E. rewrite E.
    destruct (Z.eqb_spec a b) as [->|Hne]; cbn.
    + rewrite (proj2 (Z.eqb_neq b 0)) by lia. destruct (IH l1 l2 Ht1 Ht2) as (r & Er & Hr).
      exists r. split; [done|]. rewrite Hr. split; [by intros ->|by intros [= ]].
    + exists (i8 (a - b)). split; [done|]. apply Z.eqb_neq in E. split; [done|]. by intros [= ].
Qed.

(** ** The container invariant *)

Definition registered (s : kst) (cls : Z) (o : oid) : Prop := o ∈ object_list s cls.

(** Containers list objects once; a listed object has a header of the class of
    its container, with a name rt_strncpy produced. *)
Record cinv (s : kst) : Prop := {
  ci_nodup : forall cls, NoDup (object_list s cls);
  ci_header : forall cls o, registered s cls o -> exists ob l, k_objects s !! o = Some ob /\
    Z.land (o_type ob) (Z.lnot RT_Object_Class_Static) = cls /\
    chars_ok l /\ o_name ob = padded RT_NAME_MAX l
}.

Definition attach (o : oid) (ob : rt_object) (cls : Z) (s : kst) : kst :=
  set_k_containers (<[cls := o :: object_list s cls]> (k_containers s))
    (set_k_objects (<[o := ob]> (k_objects s)) s).
Definition unattach (o : oid) (s : kst) : kst := set_k_containers (without o <$> k_containers s) s.

Lemma object_list_attach o ob cls s cls' :
  object_list (attach o ob cls s) cls' = if decide (cls = cls') then o :: object_list s cls else object_list s cls'.
Proof. unfold object_list, attach. cbn. rewrite lookup_insert. by case_decide. Qed.
Lemma object_list_unattach o s cls : object_list (unattach o s) cls = without o (object_list s cls).
Proof. unfold object_list, unattach. cbn. rewrite lookup_fmap. by destruct (k_containers s !! cls). Qed.

Lemma class_known cls : is_Some (rt_object_get_information cls) -> 1 <= cls <= 10.
Proof.
  unfold rt_object_get_information. intros [c Hc].
  assert (c ∈ filter (fun c => c = cls) rt_object_container) as Hin.
  { destruct (filter _ _); simplify_eq/=. left. }
  apply list_elem_of_filter in Hin as [-> Hin].
  unfold rt_object_container in Hin. rewrite !elem_of_cons, elem_of_nil in Hin.
  destruct_or! Hin; subst; try done; vm_compute; split; discriminate.
Qed.

Lemma static_class cls b : 1 <= cls <= 10 -> b = 0 \/ b = RT_Object_Class_Static ->
  Z.land (Z.lor cls b) (Z.lnot RT_Object_Class_Static) = cls.
Proof.
  intros Hc Hb. assert (cls ∈ seqZ 1 10) as Hin by (apply elem_of_seqZ; lia).
  change (seqZ 1 10) with [1; 2; 3; 4; 5; 6; 7; 8; 9; 10] in Hin.
  rewrite !elem_of_cons, elem_of_nil in Hin. destruct Hb as [->| ->]; destruct_or! Hin; by subst.
Qed.

Lemma cinv_attach s o ob cls l :
  cinv s -> (forall c, ~ registered s c o) -> Z.land (o_type ob) (Z.lnot RT_Object_Class_Static) = cls ->
  chars_ok l -> o_name ob = padded RT_NAME_MAX l -> cinv (attach o ob cls s).
Proof.
  intros [C1 C2] Hn Ht Hl Hnm. split.
  - intros cls'. rewrite object_list_attach. case_decide; [|done]. apply NoDup_cons. split; [apply Hn|done].
  - intros cls' o'. unfold registered. rewrite object_list_attach. cbn [k_objects attach set_k_containers set_k_objects].
    intros Hin. destruct (decide (o' = o)) as [->|Hne].
    + rewrite lookup_insert_eq. case_decide; [subst; eauto 10|]. by destruct (Hn cls').
    + rewrite lookup_insert_ne by done. apply C2. case_decide; [|done]. subst cls'. unfold registered.
      by apply elem_of_cons in Hin as [?|?].
Qed.

(** The header of an unattached object may change in any way. *)
Lemma cinv_unattach s o m :
  cinv s -> (forall o', o' <> o -> m !! o' = k_objects s !! o') -> cinv (unattach o (set_k_objects m s)).
Proof.
  intros [C1 C2] Hm. split.
  - intros cls. rewrite object_list_unattach. apply NoDup_without, C1.
  - intros cls o'. unfold registered. rewrite object_list_unattach, elem_of_without. intros [Hne Hin].
    cbn. rewrite Hm by done. by apply C2.
Qed.

Lemma sched_frame_objects s s' : sched_frame s s' ->
  k_objects s' = k_objects s /\ k_containers s' = k_containers s /\ k_lock_nest s' = k_lock_nest s /\
  k_irq_nest s' = k_irq_nest s.
Proof. intros F. pose proof (sf_rest _ _ F) as R. unfold rest in R. by injection R. Qed.

Lemma sched_frame_tick s s' : sched_frame s s' -> k_tick s' = k_tick s.
Proof. intros F. pose proof (sf_rest _ _ F) as R. unfold rest in R. by injection R. Qed.

Lemma cinv_same s s' : k_objects s' = k_objects s -> k_containers s' = k_containers s -> cinv s -> cinv s'.
Proof.
  intros E1 E2 [C1 C2]. unfold registered, object_list in *.
  split; unfold registered, object_list; rewrite E2; [done|rewrite E1; done].
Qed.

(** The header rt_object_init writes. *)
Definition static_header (s : kst) (o : oid) (cls : Z) (l : list Z) : rt_object :=
  mkObject (padded RT_NAME_MAX l) (Z.lor cls RT_Object_Class_Static) (raw_flag s o).

Lemma rt_object_init_wp s o cls name l :
  wf s -> 0 <= k_lock_nest s < 2 ^ 15 - 1 -> is_Some (rt_object_get_information cls) -> rt_strncpy RT_NAME_MAX name = Some (padded RT_NAME_MAX l) ->
  ~ registered s cls o ->
  wp (rt_object_init o cls name) s (fun _ s' => exists s1, wf s1 /\ sched_frame s s1 /\
    s' = attach o (static_header s o cls l) cls s1).
Proof.
  intros H Hn Hc Hl Ho. unfold rt_object_init, rt_enter_critical. ksteps.
  apply wp_assert; [by apply bool_decide_eq_true|]. ksteps. apply wp_assert; [by apply bool_decide_eq_true|].
  rewrite i16_small by lia. ksteps.
  eapply wp_mono; [apply rt_exit_critical_wp; [by apply (wfx_same _ s)|kproj; lia]|].
  intros _ s1 [H1 F]. kproj. rewrite Z.add_simpl_r in F.
  assert (sched_frame s s1) as F'.
  { replace s with (set_k_lock_nest (k_lock_nest s) (set_k_lock_nest (k_lock_nest s + 1) s)) by (by destruct s).
    exact F. }
  ksteps. apply (wp_deref _ (padded RT_NAME_MAX l)); [done|]. ksteps. apply wp_modify.
  exists s1. split; [done|]. split; [done|]. unfold static_header, attach, raw_flag.
  destruct (sched_frame_objects s s1 F') as (-> & _). done.
Qed.

Lemma padded_inj n l1 l2 :
  chars_ok l1 -> chars_ok l2 -> padded n l1 = padded n l2 <-> take n l1 = take n l2.
Proof.
  unfold padded. revert l1 l2. induction n as [|n IH]; intros l1 l2 H1 H2; [done|].
  destruct l1 as [|a l1], l2 as [|b l2]; cbn; [done| | |].
  - inversion H2; subst. split; [|done]. intros [= E _]. lia.
  - inversion H1; subst. split; [|done]. intros [= E _]. lia.
  - inversion H1; inversion H2; subst. split; intros [= -> E]; f_equal; by apply IH.
Qed.

(** The object is named [nm], as far as names are kept. *)
Definition name_is (s : kst) (nm : list Z) (o : oid) : Prop :=
  o_name <$> (k_objects s !! o) = Some (padded RT_NAME_MAX nm).

#[global] Instance name_is_dec s nm o : Decision (name_is s nm o).
Proof. unfold name_is; apply _. Defined.

Lemma find_named_wp s l nm :
  (forall o, o ∈ l -> exists ob l', k_objects s !! o = Some ob /\ chars_ok l' /\ o_name ob = padded RT_NAME_MAX l') ->
  chars_ok nm ->
  wp (find_named l (cstring nm)) s (fun r s' => s' = s /\ r = head (filter (name_is s nm) l)).
Proof.
  intros Hl Hnm. induction l as [|o l IH]; cbn [find_named]; [by apply wp_ret|].
  destruct (Hl o) as (ob & l' & Eo & Hc & En); [left|].
  destruct (rt_strncmp_padded RT_NAME_MAX l' nm Hc Hnm) as (r & Er & Hr). rewrite <- En in Er.
  ksteps. apply (wp_get_object _ ob); [done|]. ksteps. apply (wp_deref _ r); [done|].
  assert (name_is s nm o <-> r = 0) as Hiff.
  { unfold name_is. rewrite Eo, Hr, <- padded_inj, <- En by done. cbn. split; [by intros [= ]|by intros ->]. }
  rewrite filter_cons. ksteps.
  - apply Z.eqb_eq in Heqb. rewrite decide_True by (by apply Hiff). done.
  - apply Z.eqb_neq in Heqb. rewrite decide_False by (by rewrite Hiff). apply IH. set_solver.
Qed.

Lemma rt_object_find_wp s cls nm :
  wf s -> cinv s -> 0 <= k_lock_nest s < 2 ^ 15 - 1 -> k_irq_nest s = 0 ->
  is_Some (rt_object_get_information cls) -> chars_ok nm ->
  wp (rt_object_find (Some (cstring nm)) cls) s (fun r s' => wf s' /\ sched_frame s s' /\
    r = head (filter (name_is s nm) (object_list s cls))).
Proof.
  intros H Hc Hn Hi Hk Hnm. pose proof (class_known cls Hk) as Hr. unfold rt_object_find, RT_DEBUG_NOT_IN_INTERRUPT, rt_enter_critical.
  rewrite (proj2 (Z.ltb_ge _ _)) by (unfold RT_Object_Class_Unknown; lia).
  ksteps. apply wp_assert; [by rewrite Hi|]. ksteps. apply wp_assert; [by apply bool_decide_eq_true|]. ksteps.
  rewrite i16_small by lia. set (s1 := set_k_lock_nest (k_lock_nest s + 1) s).
  eapply wp_mono.
  { apply (find_named_wp s1 _ nm); [|done]. intros o Ho. destruct (ci_header _ Hc cls o Ho) as (ob & l & ? & _ & ? & ?). eauto. }
  intros r s2 [-> ->]. ksteps.
  eapply wp_mono; [apply rt_exit_critical_wp; [by apply (wfx_same _ s)|unfold s1; kproj; lia]|].
  intros _ s2 [H2 F]. unfold s1 in F. kproj. rewrite Z.add_simpl_r in F. ksteps. split; [done|]. split; [|done].
  replace s with (set_k_lock_nest (k_lock_nest s) (set_k_lock_nest (k_lock_nest s + 1) s)) by (by destruct s).
  exact F.
Qed.

(** [cinv], decided on a concrete state. *)
Fixpoint name_chars (l : list Z) : list Z :=
  match l with [] => [] | c :: l => if c =? 0 then [] else c :: name_chars l end.
Definition headerb (s : kst) (cls : Z) (o : oid) : bool :=
  match k_objects s !! o with
  | Some ob => (Z.land (o_type ob) (Z.lnot RT_Object_Class_Static) =? cls) &&
      forallb (fun c => (1 <=? c) && (c <? 2 ^ 8)) (name_chars (o_name ob)) &&
      bool_decide (o_name ob = padded RT_NAME_MAX (name_chars (o_name ob)))
  | None => false
  end.
Definition cinvb (s : kst) : bool :=
  forallb (fun cl => bool_decide (NoDup cl.2) && forallb (headerb s cl.1) cl.2) (map_to_list (k_containers s)).

Lemma cinvb_sound s : cinvb s = true -> cinv s.
Proof.
  intros H. assert (forall cls l, k_containers s !! cls = Some l ->
    NoDup l /\ forall o, o ∈ l -> headerb s cls o = true) as Hcl.
  { intros cls l E%elem_of_map_to_list. apply (forallb_elem _ _ _ H) in E. cbn in E.
    rewrite andb_true_iff, bool_decide_eq_true in E. destruct E as [E1 E2]. split; [done|].
    intros o Ho. exact (forallb_elem _ _ _ E2 Ho). }
  split; unfold registered, object_list.
  - intros cls. destruct (k_containers s !! cls) as [l|] eqn:E; [by apply (Hcl cls)|constructor].
  - intros cls o. destruct (k_containers s !! cls) as [l|] eqn:E; [|by intros ?%elem_of_nil].
    intros Ho. destruct (Hcl cls l E) as [_ Hh]. specialize (Hh o Ho). unfold headerb in Hh.
    destruct (k_objects s !! o) as [ob|]; [|done].
    rewrite !andb_true_iff, Z.eqb_eq, bool_decide_eq_true in Hh. destruct Hh as [[H1 H2] H3].
    exists ob, (name_chars (o_name ob)). split_and!; [done|done| |done].
    apply Forall_forall. intros c Hc%list_elem_of_In. rewrite forallb_forall in H2. specialize (H2 c Hc). lia.
Qed.
Lemma sample_cinv : cinv sample.
Proof. apply cinvb_sound. vm_compute. reflexivity. Qed.
Lemma sample_fresh_sem cls : ~ registered sample cls (OSem 7).
Proof.
  intros H. destruct (ci_header _ sample_cinv _ _ H) as (ob & l & E & _). vm_compute in E. done.
Qed.

(** ** One object in, one object out *)

(** From [s] to [s'] the object [o] has entered the container [cls], at its head;
    every other container and every other header is as it was. *)
Definition entered (s s' : kst) (cls : Z) (o : oid) (ob : rt_object) : Prop :=
  (forall c, object_list s' c = if decide (c = cls) then o :: object_list s c else object_list s c) /\
  k_objects s' !! o = Some ob /\ forall o', o' <> o -> k_objects s' !! o' = k_objects s !! o'.
(** The object [o] has left: the containers hold the other objects, in their
    order, with their headers. *)
Definition departed (s s' : kst) (o : oid) : Prop :=
  (forall c, object_list s' c = filter (fun x => x <> o) (object_list s c)) /\
  forall o', o' <> o -> k_objects s' !! o' = k_objects s !! o'.

Lemma entered_attach s s1 o ob cls : k_objects s1 = k_objects s -> k_containers s1 = k_containers s -> entered s (attach o ob cls s1) cls o ob.
Proof.
  intros E1 E2. unfold entered. assert (forall c, object_list s1 c = object_list s c) as E by (intros c; unfold object_list; by rewrite E2). split; [|split].
  - intros c. rewrite object_list_attach, !E. repeat case_decide; congruence.
  - unfold attach. kproj. apply lookup_insert_eq.
  - intros o' Hne. unfold attach. kproj. by rewrite lookup_insert_ne, E1.
Qed.
Lemma departed_unattach s s' o m :
  (forall o', o' <> o -> m !! o' = k_objects s !! o') -> k_objects s' = m -> k_containers s' = without o <$> k_containers s -> departed s s' o.
Proof.
  intros Hm E1 E2. split; [|intros o' Hne; rewrite E1; auto]. intros c. unfold object_list. rewrite E2, lookup_fmap. by destruct (k_containers s !! c).
Qed.

Lemma rt_object_allocate_wp s o cls l :
  k_irq_nest s = 0 -> is_Some (rt_object_get_information cls) -> chars_ok l ->
  wp (rt_object_allocate cls (cstring l) (Some o)) s (fun r s' => r = Some o /\ s' = attach o (mkObject (padded RT_NAME_MAX l) cls 0) cls s).
Proof.
  intros Hi Hk Hl. unfold rt_object_allocate, RT_DEBUG_NOT_IN_INTERRUPT, container_insert. ksteps. apply wp_assert; [by rewrite Hi|]. ksteps.
  apply wp_assert; [by apply bool_decide_eq_true|]. ksteps. by apply (wp_deref _ (padded RT_NAME_MAX l)); [apply rt_strncpy_ok|]; ksteps.
Qed.
Lemma rt_object_detach_wp s o ob :
  wf s -> cinv s -> k_objects s !! o = Some ob ->
  wp (rt_object_detach o) s (fun _ s' => wf s' /\ cinv s' /\ departed s s' o /\ k_objects s' !! o = Some (set_o_type 0 ob)).
Proof.
  intros H Hc Eo. unfold rt_object_detach, container_remove. kstep. apply (wp_mod_object _ _ ob); [done|]. apply wp_modify.
  assert (forall o', o' <> o -> <[o := set_o_type 0 ob]> (k_objects s) !! o' = k_objects s !! o') as Hm by (intros; by rewrite lookup_insert_ne).
  split; [by apply (wfx_same _ s)|]. split; [by apply cinv_unattach|]. split; [by eapply departed_unattach|]. kproj. apply lookup_insert_eq.
Qed.
Lemma rt_object_delete_wp s o ob :
  wf s -> cinv s -> k_objects s !! o = Some ob -> Z.land (o_type ob) RT_Object_Class_Static = 0 ->
  wp (rt_object_delete o) s (fun _ s' => wf s' /\ cinv s' /\ departed s s' o /\ k_objects s' !! o = None).
Proof.
  intros H Hc Eo Hs. unfold rt_object_delete, rt_object_is_systemobject, container_remove. ksteps. apply (wp_get_object _ ob); [done|]. ksteps.
  apply wp_assert; [by rewrite Hs|]. ksteps. apply (wp_mod_object _ _ ob); [done|]. ksteps.
  set (m := delete o (<[o := set_o_type 0 ob]> (k_objects s))).
  assert (forall o', o' <> o -> m !! o' = k_objects s !! o') as Hm by (intros; unfold m; by rewrite lookup_delete_ne, lookup_insert_ne).
  split; [by apply (wfx_same _ s)|]. split; [apply (cinv_same (unattach o (set_k_objects m s))); [done|done|by apply cinv_unattach]|].
  split; [by eapply departed_unattach|]. kproj. apply lookup_delete_eq.
Qed.
Lemma rt_object_delete_static s o ob :
  k_objects s !! o = Some ob -> Z.land (o_type ob) RT_Object_Class_Static <> 0 -> rt_object_delete o s = Halt.
Proof.
  intros Eo Hs. unfold rt_object_delete, rt_object_is_systemobject, get_object, deref, RT_ASSERT, bind, ret. rewrite Eo.
  by rewrite (proj2 (Z.eqb_neq _ _)) by done.
Qed.

(** ** Properties *)

(** C25: registering and unregistering objects, from any state with consistent
    containers.  Initialising or allocating an object that is in no container
    puts it at the head of the container of its class; detaching any registered
    object, and deleting any registered heap object, takes it out of its
    container.  In every case the other objects stay registered in their order
    with their headers, and the containers stay consistent: no duplicates, and
    members that carry a header of the container's class and a proper name.
    Without memory rt_object_allocate changes nothing; deleting a static object
    stops on the assertion. *)
Theorem containers_consistent s o cls l :
  wf s -> cinv s -> 0 <= k_lock_nest s < 2 ^ 15 - 1 -> k_irq_nest s = 0 ->
  is_Some (rt_object_get_information cls) -> chars_ok l ->
  ((forall c, ~ registered s c o) ->
     wp (rt_object_init o cls (cstring l)) s (fun _ s' => wf s' /\ cinv s' /\ entered s s' cls o (static_header s o cls l)) /\
     wp (rt_object_allocate cls (cstring l) (Some o)) s (fun r s' => r = Some o /\ wf s' /\ cinv s' /\
       entered s s' cls o (mkObject (padded RT_NAME_MAX l) cls 0))) /\
  rt_object_allocate cls (cstring l) None s = Ok None s /\
  (registered s cls o -> exists ob, k_objects s !! o = Some ob /\
     wp (rt_object_detach o) s (fun _ s' => wf s' /\ cinv s' /\ departed s s' o /\ k_objects s' !! o = Some (set_o_type 0 ob)) /\
     if Z.land (o_type ob) RT_Object_Class_Static =? 0
     then wp (rt_object_delete o) s (fun _ s' => wf s' /\ cinv s' /\ departed s s' o /\ k_objects s' !! o = None)
     else rt_object_delete o s = Halt).
Proof.
  intros H Hc Hn Hi Hk Hl. pose proof (class_known cls Hk) as Hr. split; [intros Ho; split|split].
  - eapply wp_mono; [apply (rt_object_init_wp _ _ _ _ l); auto using rt_strncpy_ok|]. intros _ s' (s1 & H1 & F & ->).
    destruct (sched_frame_objects s s1 F) as (E1 & E2 & _ & _). split; [by apply (wfx_same _ s1)|]. split; [|by apply entered_attach].
    apply (cinv_attach _ _ _ _ l); [by apply (cinv_same s)| | |done|done]; [|apply static_class; auto].
    intros c. unfold registered, object_list. rewrite E2. apply Ho.
  - eapply wp_mono; [by apply rt_object_allocate_wp|]. intros r s' [-> ->]. split; [done|]. split; [by apply (wfx_same _ s)|].
    split; [|by apply entered_attach]. apply (cinv_attach _ _ _ _ l); [done..| |done|done]. cbn. rewrite <- (static_class cls 0) at 2 by auto.
    by rewrite Z.lor_0_r.
  - unfold rt_object_allocate, RT_DEBUG_NOT_IN_INTERRUPT, RT_ASSERT, gets, bind, ret. rewrite Hi. cbn [Z.eqb]. by rewrite bool_decide_true.
  - intros Ho. destruct (ci_header _ Hc cls o Ho) as (ob & _ & Eo & _). exists ob. split; [done|]. split; [by apply rt_object_detach_wp|].
    destruct (Z.eqb_spec (Z.land (o_type ob) RT_Object_Class_Static) 0); [by apply (rt_object_delete_wp s o ob)|by apply (rt_object_delete_static s o ob)].
Qed.

Lemma containers_consistent_witness :
  wp (rt_object_init (OSem 7) RT_Object_Class_Semaphore (cstring [115; 101; 109])) sample (fun _ s' =>
    wf s' /\ cinv s' /\ entered sample s' RT_Object_Class_Semaphore (OSem 7) (static_header sample (OSem 7) RT_Object_Class_Semaphore [115; 101; 109])).
Proof.
  apply containers_consistent; [apply sample_kinv|exact sample_cinv|vm_compute; split; [discriminate|reflexivity]|
    reflexivity|vm_compute; eauto|repeat constructor; lia|exact sample_fresh_sem].
Defined.

(** A name finds the object registered under it.  After rt_object_init with
    some name, rt_object_find with any string that agrees with that name on its
    first RT_NAME_MAX characters returns the object just registered. *)
Theorem rt_object_find_registered s o cls l nm :
  wf s -> cinv s -> 0 <= k_lock_nest s < 2 ^ 15 - 1 -> k_irq_nest s = 0 ->
  is_Some (rt_object_get_information cls) -> chars_ok l -> chars_ok nm ->
  (forall c, ~ registered s c o) -> take RT_NAME_MAX nm = take RT_NAME_MAX l ->
  wp (rt_object_init o cls (cstring l) ;; rt_object_find (Some (cstring nm)) cls) s
     (fun r s' => wf s' /\ r = Some o).
Proof.
  intros H Hc Hn Hi Hk Hl Hnm Ho Heq. ksteps. eapply wp_mono; [apply (rt_object_init_wp _ _ _ _ l); auto using rt_strncpy_ok|].
  intros _ s' (s1 & H1 & F & ->). destruct (sched_frame_objects s s1 F) as (E1 & E2 & E3 & E4).
  eapply wp_mono; [apply rt_object_find_wp|].
  - by apply (wfx_same _ s1).
  - apply (cinv_attach _ _ _ _ l); [by apply (cinv_same s)| | |done|done].
    + intros c. unfold registered, object_list. rewrite E2. apply Ho.
    + apply static_class; [by apply class_known|auto].
  - unfold attach. kproj. by rewrite E3.
  - unfold attach. kproj. by rewrite E4.
  - done.
  - done.
  - intros r s2 (H2 & _ & ->). split; [done|]. rewrite object_list_attach, decide_True by done.
    rewrite filter_cons, decide_True; [done|]. unfold name_is, attach. kproj. rewrite lookup_insert_eq. cbn.
    f_equal. by apply padded_inj.
Qed.

Lemma rt_object_find_registered_witness :
  wp (rt_object_init (OSem 7) RT_Object_Class_Semaphore (cstring [115; 101; 109]) ;;
      rt_object_find (Some (cstring [115; 101; 109])) RT_Object_Class_Semaphore) sample
     (fun r s' => wf s' /\ r = Some (OSem 7)).
Proof.
  apply rt_object_find_registered; [apply sample_kinv|exact sample_cinv|vm_compute; split; [discriminate|reflexivity]|
    reflexivity|vm_compute; eauto|repeat constructor; lia|repeat constructor; lia|exact sample_fresh_sem|reflexivity].
Defined.
