(* ===== verification/Timer.v ===== *)
(** * Timers (src/timer.c): initialisation, removal, control and the ordered list

    The skip list has one level (RT_TIMER_SKIP_LIST_LEVEL = 1), so each of
    [rt_timer_list] and [rt_soft_timer_list] is one ordered list.  Ticks are
    32-bit and wrap; the order of two due times is read off their wrapped
    difference.  The routines that need the thread operations ([rt_timer_start]
    as a whole, [rt_timer_check]) are in TimerRun.v. *)

From stdpp Require Import sorting.
From S2P Require Import Prelude Ffs KState Wf Inv Sched Object.

Definition RT_TIMER_CTRL_SET_TIME : Z := 0.
Definition RT_TIMER_CTRL_GET_TIME : Z := 1.
Definition RT_TIMER_CTRL_SET_ONESHOT : Z := 2.
Definition RT_TIMER_CTRL_SET_PERIODIC : Z := 3.
Definition TICK_HALF : Z := RT_TICK_MAX / 2.

Definition flag_clear (mask : Z) (ob : rt_object) : rt_object :=
  set_o_flag (Z.land (o_flag ob) (Z.lnot mask)) ob.
Definition flag_set (mask : Z) (ob : rt_object) : rt_object :=
  set_o_flag (Z.lor (o_flag ob) mask) ob.
Definition flag_test (mask : Z) (ob : rt_object) : bool := negb (Z.land (o_flag ob) mask =? 0).

(** rt_list_remove(&timer->row[i]): out of the list it is linked in, if any *)
Definition _rt_timer_remove (tm : tmid) : K unit :=
  modify (fun s => set_k_soft_timer_list (without tm (k_soft_timer_list s))
                     (set_k_timer_list (without tm (k_timer_list s)) s)).

Definition _rt_timer_init (tm : tmid) (timeout : timeout_fn) (time flag : Z) : K unit :=
  mod_object (OTimer tm) (set_o_flag flag) ;;
  mod_object (OTimer tm) (flag_clear RT_TIMER_FLAG_ACTIVATED) ;;
  modify (fun s => set_k_timers (<[tm := mkTimer timeout time 0]> (k_timers s)) s).

Definition rt_timer_init (tm : tmid) (name : list Z) (timeout : timeout_fn) (time flag : Z) : K unit :=
  rt_object_init (OTimer tm) RT_Object_Class_Timer name ;;
  _rt_timer_init tm timeout time flag.

Definition rt_timer_detach (tm : tmid) : K Z :=
  assert_type (OTimer tm) RT_Object_Class_Timer ;;
  sys <- rt_object_is_systemobject (OTimer tm) ;;
  RT_ASSERT sys ;;
  _rt_timer_remove tm ;;
  rt_object_detach (OTimer tm) ;;
  ret RT_EOK.

Definition rt_timer_create (name : list Z) (timeout : timeout_fn) (time flag : Z) (malloced : option nat)
  : K (option nat) :=
  o <- rt_object_allocate RT_Object_Class_Timer name ((fun n => OTimer (TmUser n)) <$> malloced) ;;
  match o, malloced with
  | Some _, Some n => _rt_timer_init (TmUser n) timeout time flag ;; ret (Some n)
  | _, _ => ret None
  end.

Definition rt_timer_delete (tm : tmid) : K Z :=
  assert_type (OTimer tm) RT_Object_Class_Timer ;;
  sys <- rt_object_is_systemobject (OTimer tm) ;;
  RT_ASSERT (negb sys) ;;
  _rt_timer_remove tm ;;
  rt_object_delete (OTimer tm) ;;
  modify (fun s => set_k_timers (delete tm (k_timers s)) s) ;;
  ret RT_EOK.

Definition rt_timer_stop (tm : tmid) : K Z :=
  assert_type (OTimer tm) RT_Object_Class_Timer ;;
  ob <- get_object (OTimer tm) ;;
  if flag_test RT_TIMER_FLAG_ACTIVATED ob then
    _rt_timer_remove tm ;;
    mod_object (OTimer tm) (flag_clear RT_TIMER_FLAG_ACTIVATED) ;;
    ret RT_EOK
  else ret (- RT_ERROR).

(** [arg] is the tick value the pointer argument refers to; the result is the
    error code and that value afterwards. *)
Definition rt_timer_control (tm : tmid) (cmd arg : Z) : K (Z * Z) :=
  assert_type (OTimer tm) RT_Object_Class_Timer ;;
  if cmd =? RT_TIMER_CTRL_GET_TIME then
    ti <- get_timer tm ;; ret (RT_EOK, tm_init_tick ti)
  else if cmd =? RT_TIMER_CTRL_SET_TIME then
    mod_timer tm (set_tm_init_tick arg) ;; ret (RT_EOK, arg)
  else if cmd =? RT_TIMER_CTRL_SET_ONESHOT then
    mod_object (OTimer tm) (flag_clear RT_TIMER_FLAG_PERIODIC) ;; ret (RT_EOK, arg)
  else if cmd =? RT_TIMER_CTRL_SET_PERIODIC then
    mod_object (OTimer tm) (flag_set RT_TIMER_FLAG_PERIODIC) ;; ret (RT_EOK, arg)
  else ret (RT_EOK, arg).

(** The walk of rt_timer_start: past the timers due earlier and those due at
    the same tick. *)
Fixpoint insert_timer (tm : tmid) (timeout_tick : Z) (l : list tmid) : K (list tmid) :=
  match l with
  | [] => ret [tm]
  | t :: l' =>
      ti <- get_timer t ;;
      let d := u32 (tm_timeout_tick ti - timeout_tick) in
      if (negb (d =? 0)) && (d <? TICK_HALF) then ret (tm :: t :: l')
      else r <- insert_timer tm timeout_tick l' ;; ret (t :: r)
  end.

(** rt_timer_start up to the point where the soft timer thread is woken. *)
Definition rt_timer_enqueue (tm : tmid) : K unit :=
  assert_type (OTimer tm) RT_Object_Class_Timer ;;
  _rt_timer_remove tm ;;
  mod_object (OTimer tm) (flag_clear RT_TIMER_FLAG_ACTIVATED) ;;
  ti <- get_timer tm ;;
  RT_ASSERT (tm_init_tick ti <? TICK_HALF) ;;
  now <- gets k_tick ;;
  let due := u32 (now + tm_init_tick ti) in
  mod_timer tm (set_tm_timeout_tick due) ;;
  ob <- get_object (OTimer tm) ;;
  (if flag_test RT_TIMER_FLAG_SOFT_TIMER ob then
     l <- gets k_soft_timer_list ;;
     l' <- insert_timer tm due l ;; modify (set_k_soft_timer_list l')
   else
     l <- gets k_timer_list ;;
     l' <- insert_timer tm due l ;; modify (set_k_timer_list l')) ;;
  mod_object (OTimer tm) (flag_set RT_TIMER_FLAG_ACTIVATED).

Definition rt_timer_list_next_timeout (list : kst -> list tmid) : K Z :=
  l <- gets list ;;
  match l with
  | [] => ret RT_TICK_MAX
  | t :: _ => ti <- get_timer t ;; ret (tm_timeout_tick ti)
  end.

Definition rt_timer_next_timeout_tick : K Z := rt_timer_list_next_timeout k_timer_list.

Definition rt_system_timer_init : K unit := modify (set_k_timer_list []).

(** ** Frames *)

Definition ipc_data (s : kst) := (k_sems s, k_mutexes s, k_events s, k_mailboxes s, k_mqs s).
(** What neither the scheduler nor the timers own. *)
Definition misc (s : kst) :=
  (k_containers s, ipc_data s, k_lock_nest s, k_irq_nest s, k_tick s, k_timer_thread s).
Definition same_headers (s s' : kst) : Prop :=
  forall o, (forall tm, o <> OTimer tm) -> k_objects s' !! o = k_objects s !! o.

(** A routine that moves threads and timers only. *)
Definition kframe (s s' : kst) : Prop := misc s' = misc s /\ same_headers s s'.
(** A routine that touches timers only. *)
Definition tframe (s s' : kst) : Prop :=
  kframe s s' /\ k_threads s' = k_threads s /\ k_queues s' = k_queues s /\ k_current s' = k_current s /\
  k_ready_group s' = k_ready_group s.

Lemma kframe_refl s : kframe s s.
Proof. split; [done|]. by intros o. Qed.
Lemma kframe_trans s1 s2 s3 : kframe s1 s2 -> kframe s2 s3 -> kframe s1 s3.
Proof.
  intros [M1 H1] [M2 H2]. split; [congruence|]. intros o Ho. rewrite H2, H1 by done. done.
Qed.
Lemma tframe_refl s : tframe s s.
Proof. split; [apply kframe_refl|done]. Qed.
Lemma tframe_trans s1 s2 s3 : tframe s1 s2 -> tframe s2 s3 -> tframe s1 s3.
Proof.
  intros (K1 & A1 & B1 & C1 & D1) (K2 & A2 & B2 & C2 & D2).
  split; [by eapply kframe_trans|]. split_and!; congruence.
Qed.
Lemma sched_kframe s s' : sched_frame s s' -> kframe s s'.
Proof.
  intros F. pose proof (sf_rest _ _ F) as R. unfold rest in R. injection R as R1 R2 R3 R4 R5 R6 R7 R8 R9 R10 R11 R12 R13 R14.
  split; [unfold misc, ipc_data; congruence|]. intros o _. congruence.
Qed.
Lemma tframe_wfx X s s' : tframe s s' -> wfx X s -> wfx X s'.
Proof. intros (_ & A & B & C & D). apply wfx_same; [done| |done|done]. intros q. unfold qget. by rewrite B. Qed.
Lemma kframe_same s s' : misc s' = misc s -> k_objects s' = k_objects s -> kframe s s'.
Proof. intros H1 H2. split; [done|]. intros o _. by rewrite H2. Qed.
Lemma tframe_timer_object s tm ob s' :
  misc s' = misc s -> k_objects s' = <[OTimer tm := ob]> (k_objects s) ->
  k_threads s' = k_threads s -> k_queues s' = k_queues s -> k_current s' = k_current s ->
  k_ready_group s' = k_ready_group s -> tframe s s'.
Proof.
  intros H1 H2. split; [split; [done|]|done]. intros o Ho. rewrite H2, lookup_insert_ne; [done|]. intros <-. by destruct (Ho tm).
Qed.

(** ** Timer updates and the invariant *)

Lemma flag_bits_clear f :
  Z.land (Z.land f (Z.lnot RT_TIMER_FLAG_ACTIVATED)) (Z.lor RT_TIMER_FLAG_PERIODIC RT_TIMER_FLAG_SOFT_TIMER) =
  Z.land f (Z.lor RT_TIMER_FLAG_PERIODIC RT_TIMER_FLAG_SOFT_TIMER).
Proof. by rewrite <- Z.land_assoc. Qed.
Lemma flag_bits_set f :
  Z.land (Z.lor f RT_TIMER_FLAG_ACTIVATED) (Z.lor RT_TIMER_FLAG_PERIODIC RT_TIMER_FLAG_SOFT_TIMER) =
  Z.land f (Z.lor RT_TIMER_FLAG_PERIODIC RT_TIMER_FLAG_SOFT_TIMER).
Proof. rewrite Z.land_lor_distr_l. apply Z.lor_0_r. Qed.
Lemma flag_activated f : Z.land (Z.lor f RT_TIMER_FLAG_ACTIVATED) RT_TIMER_FLAG_ACTIVATED = RT_TIMER_FLAG_ACTIVATED.
Proof.
  apply Z.bits_inj'. intros i Hi. rewrite Z.land_spec, Z.lor_spec.
  destruct (Z.testbit RT_TIMER_FLAG_ACTIVATED i); [by rewrite orb_true_r|apply andb_false_r].
Qed.

(** The header of timer [tm] changes in its ACTIVATED bit, its record keeps the
    timeout function, and the lists change in where [tm] is. *)
Lemma tinv_timer_update s s' tm ob ob' :
  tinv s -> k_objects s !! OTimer tm = Some ob -> k_objects s' = <[OTimer tm := ob']> (k_objects s) ->
  o_type ob' = o_type ob ->
  Z.land (o_flag ob') (Z.lor RT_TIMER_FLAG_PERIODIC RT_TIMER_FLAG_SOFT_TIMER) =
    Z.land (o_flag ob) (Z.lor RT_TIMER_FLAG_PERIODIC RT_TIMER_FLAG_SOFT_TIMER) ->
  (forall tm', tm' <> tm -> k_timers s' !! tm' = k_timers s !! tm') ->
  tm_func <$> (k_timers s' !! tm) = tm_func <$> (k_timers s !! tm) ->
  k_threads s' = k_threads s ->
  NoDup (all_timers s') ->
  (forall tm', tm' <> tm -> tm' ∈ k_timer_list s' <-> tm' ∈ k_timer_list s) ->
  (forall tm', tm' <> tm -> tm' ∈ k_soft_timer_list s' <-> tm' ∈ k_soft_timer_list s) ->
  (tm ∈ all_timers s' -> is_Some (k_timers s !! tm) /\ has_type s (OTimer tm) RT_Object_Class_Timer /\
     forall t, tm = TmThread t -> tm ∈ k_timer_list s' /\ Z.land (o_flag ob') RT_TIMER_FLAG_ACTIVATED <> 0 /\
       exists th, k_threads s !! t = Some th /\ st th = RT_THREAD_SUSPEND) ->
  tinv s'.
Proof.
  intros [T1 T2 T3 T4] Eo Eo' Hty Hfl Htm Hfn Hth Hnd Hl1 Hl2 Hin.
  assert (forall o cls, has_type s o cls -> has_type s' o cls) as Htype.
  { intros o cls (x & Ex & Hx). unfold has_type. rewrite Eo'. destruct (decide (o = OTimer tm)) as [->|Hne].
    - rewrite lookup_insert_eq. simplify_eq. exists ob'. by rewrite Hty.
    - rewrite lookup_insert_ne by done. eauto. }
  assert (forall tm', tm' <> tm -> tm' ∈ all_timers s' <-> tm' ∈ all_timers s) as Hall.
  { intros tm' Hne. unfold all_timers. rewrite !elem_of_app, Hl1, Hl2 by done. done. }
  assert (is_Some (k_timers s !! tm) -> is_Some (k_timers s' !! tm)) as Hsome.
  { rewrite <- !(fmap_is_Some tm_func), Hfn. done. }
  split; [|done| |].
  - intros t th Ht Hst. rewrite Hth in Ht. destruct (T1 t th Ht Hst) as (H1 & x & ti & E1 & E2 & E3 & E4 & E5).
    split; [by apply Htype|]. destruct (decide (tm = TmThread t)) as [->|Hne].
    + rewrite Eo in E1. injection E1 as ->. rewrite E2 in Hfn. cbn in Hfn.
      destruct (k_timers s' !! TmThread t) as [ti'|] eqn:E; [|done]. injection Hfn as Hfn.
      exists ob', ti'. rewrite Eo', lookup_insert_eq. split_and!; [done|done|congruence|congruence|congruence].
    + exists x, ti. rewrite Eo', lookup_insert_ne, Htm by congruence. done.
  - intros tm' Htm'. destruct (decide (tm' = tm)) as [->|Hne].
    + destruct (Hin Htm') as (? & ? & _). auto.
    + rewrite Htm by done. rewrite Hall in Htm' by done. destruct (T3 tm' Htm'). auto.
  - intros t Ht. rewrite Hth. unfold timer_activated. rewrite Eo'. destruct (decide (TmThread t = tm)) as [<-|Hne].
    + destruct (Hin Ht) as (_ & _ & Hin'). destruct (Hin' t eq_refl) as (? & ? & ?).
      rewrite lookup_insert_eq. eauto.
    + rewrite lookup_insert_ne by congruence. rewrite Hall in Ht by done. rewrite Hl1 by done. by apply T4.
Qed.

Lemma all_timers_without tm s :
  all_timers (set_k_soft_timer_list (without tm (k_soft_timer_list s))
     (set_k_timer_list (without tm (k_timer_list s)) s)) = without tm (all_timers s).
Proof. unfold all_timers. kproj. by rewrite without_app. Qed.

Lemma rt_timer_stop_wp s t th :
  tinv s -> k_threads s !! t = Some th -> st th <> RT_THREAD_CLOSE ->
  wp (rt_timer_stop (TmThread t)) s (fun _ s' => tframe s s' /\ tinv s' /\ TmThread t ∉ all_timers s').
Proof.
  intros T Ht Hst. destruct (ti_thread T t th Ht Hst) as [_ Hok].
  pose proof Hok as (ob & ti & Eo & Et & Hty & Hfl & Hfn).
  unfold rt_timer_stop. ksteps. apply (wp_assert_type _ ob); [done|by rewrite Hty|]. ksteps.
  apply (wp_get_object _ ob); [done|]. unfold flag_test, _rt_timer_remove. ksteps.
  - apply (wp_mod_object _ _ ob); [done|]. ksteps.
    set (ob' := flag_clear RT_TIMER_FLAG_ACTIVATED ob).
    split; [by apply (tframe_timer_object _ (TmThread t) ob')|].
    assert (TmThread t ∉ without (TmThread t) (all_timers s)) as Hn by (rewrite elem_of_without; tauto).
    split; [|unfold all_timers; kproj; by rewrite <- without_app].
    apply (tinv_timer_update s _ (TmThread t) ob ob'); try done.
    + apply flag_bits_clear.
    + unfold all_timers. kproj. rewrite <- without_app. apply NoDup_without, T.
    + intros tm' Hne. kproj. rewrite elem_of_without. tauto.
    + intros tm' Hne. kproj. rewrite elem_of_without. tauto.
    + unfold all_timers. kproj. by rewrite <- without_app.
  - split; [apply tframe_refl|]. split; [done|]. intros Hin. destruct (ti_wait T t Hin) as (_ & (x & Ex & Hx) & _).
    simplify_eq. apply negb_false_iff, Z.eqb_eq in Heqb. done.
Qed.

(** The tick value is stored in the thread timer. *)
Lemma rt_timer_control_wp s t th arg :
  tinv s -> k_threads s !! t = Some th -> st th <> RT_THREAD_CLOSE ->
  wp (rt_timer_control (TmThread t) RT_TIMER_CTRL_SET_TIME arg) s (fun _ s' => tframe s s' /\ tinv s' /\
    k_objects s' = k_objects s /\ k_timer_list s' = k_timer_list s /\ k_soft_timer_list s' = k_soft_timer_list s /\
    exists ti, k_timers s !! TmThread t = Some ti /\
      k_timers s' = <[TmThread t := set_tm_init_tick arg ti]> (k_timers s)).
Proof.
  intros T Ht Hst. destruct (ti_thread T t th Ht Hst) as [_ Hok].
  pose proof Hok as (ob & ti & Eo & Et & Hty & Hfl & Hfn).
  unfold rt_timer_control. kstep. apply (wp_assert_type _ ob); [done|by rewrite Hty|]. 
  change (RT_TIMER_CTRL_SET_TIME =? RT_TIMER_CTRL_GET_TIME) with false.
  change (RT_TIMER_CTRL_SET_TIME =? RT_TIMER_CTRL_SET_TIME) with true. cbv iota. ksteps. apply (wp_mod_timer _ _ ti); [done|]. ksteps. split; [split; [by apply kframe_same|done]|].
  split; [|by eauto 10].
  - apply (tinv_timer_update s _ (TmThread t) ob ob); try done; kproj.
    + by rewrite insert_id.
    + intros tm' Hne. by rewrite lookup_insert_ne.
    + by rewrite lookup_insert_eq, Et.
    + apply T.
    + unfold all_timers. kproj. intros Hin. destruct (ti_listed T (TmThread t) Hin). split; [done|]. split; [done|].
      intros t' [= <-]. destruct (ti_wait T t Hin) as (? & (x & Ex & Hx) & ?). simplify_eq. done.
Qed.

(** The timers of [l] that rt_timer_start inserts a timer due at [due] before. *)
Definition due_later (s : kst) (due : Z) (t : tmid) : bool :=
  match k_timers s !! t with
  | Some ti => let d := u32 (tm_timeout_tick ti - due) in negb (d =? 0) && (d <? TICK_HALF)
  | None => false
  end.

Lemma insert_timer_wp s tm due l :
  (forall t, t ∈ l -> is_Some (k_timers s !! t)) ->
  wp (insert_timer tm due l) s (fun l' s' => s' = s /\ exists l1 l2, l = l1 ++ l2 /\ l' = l1 ++ tm :: l2 /\
    Forall (fun t => due_later s due t = false) l1 /\ (forall t, head l2 = Some t -> due_later s due t = true)).
Proof.
  induction l as [|t l IH]; intros Hl; cbn [insert_timer]; ksteps.
  - split; [done|]. exists [], []. split_and!; [done|done|constructor|done].
  - destruct (Hl t) as [ti Et]; [left|]. apply (wp_get_timer _ ti); [done|].
    assert (due_later s due t = (negb (u32 (tm_timeout_tick ti - due) =? 0) && (u32 (tm_timeout_tick ti - due) <? TICK_HALF))) as Ed
      by (unfold due_later; by rewrite Et).
    cbv zeta. rewrite <- Ed. ksteps.
    + split; [done|]. exists [], (t :: l). split_and!; [done|done|constructor|]. by intros ? [= <-].
    + eapply wp_mono; [apply IH; set_solver|]. intros l' s' (-> & l1 & l2 & -> & -> & H1 & H2). apply wp_ret.
      split; [done|]. exists (t :: l1), l2. split_and!; [done|done|by constructor|done].
Qed.

(** [l'] is [l] with timer [tm], due at [due], put in its place. *)
Definition enqueued (s : kst) (tm : tmid) (due : Z) (l l' : list tmid) : Prop :=
  exists l1 l2, without tm l = l1 ++ l2 /\ l' = l1 ++ tm :: l2 /\
    Forall (fun t => due_later s due t = false) l1 /\ (forall t, head l2 = Some t -> due_later s due t = true).

Lemma due_later_upd s s' due tm ti t :
  k_timers s' = <[tm := ti]> (k_timers s) -> t <> tm -> due_later s' due t = due_later s due t.
Proof. intros E Hne. unfold due_later. by rewrite E, lookup_insert_ne. Qed.

(** One list of rt_timer_start: the walk over it and the new list. *)
Lemma enqueue_list_wp s s1 tm due ti (l : list tmid) (setl : list tmid -> kst -> kst) Q :
  (forall t, t ∈ l -> is_Some (k_timers s !! t)) ->
  k_timers s1 = <[tm := ti]> (k_timers s) ->
  (forall l', enqueued s tm due l l' -> Q tt (setl l' s1)) ->
  wp (l' <- insert_timer tm due (without tm l) ;; modify (setl l')) s1 Q.
Proof.
  intros Hl Et HQ. apply wp_bind. eapply wp_mono; [apply insert_timer_wp|].
  - intros t [Hne Hin]%elem_of_without. rewrite Et, lookup_insert_ne by done. auto.
  - intros l' s' (-> & l1 & l2 & E1 & -> & H1 & H2). apply wp_modify, HQ. exists l1, l2.
    assert (forall t, t ∈ l1 \/ t ∈ l2 -> t <> tm) as Hne.
    { intros t Ht. enough (t ∈ without tm l) as [? _]%elem_of_without by done. rewrite E1. by apply elem_of_app. }
    split_and!; [done|done| |].
    + rewrite Forall_forall in H1 |- *. intros t Ht. rewrite <- (due_later_upd s s1 due tm ti); auto.
    + intros t Ht. rewrite <- (due_later_upd s s1 due tm ti); auto. apply Hne. right. destruct l2; simplify_eq/=. left.
Qed.

Lemma enqueued_perm s tm due l l' : enqueued s tm due l l' -> l' ≡ₚ tm :: without tm l.
Proof. intros (l1 & l2 & -> & -> & _). by rewrite Permutation_middle. Qed.

(** [rt_timer_start], its list part: the timer is marked and hangs in its list,
    after the timers due earlier or at the same tick. *)
Lemma rt_timer_enqueue_wp s tm ti ob :
  tinv s -> k_objects s !! OTimer tm = Some ob ->
  Z.land (o_type ob) (Z.lnot RT_Object_Class_Static) = RT_Object_Class_Timer ->
  k_timers s !! tm = Some ti -> tm_init_tick ti < TICK_HALF ->
  (forall t, tm = TmThread t -> Z.land (o_flag ob) RT_TIMER_FLAG_SOFT_TIMER = 0 /\
     exists th, k_threads s !! t = Some th /\ st th = RT_THREAD_SUSPEND) ->
  let due := u32 (k_tick s + tm_init_tick ti) in
  wp (rt_timer_enqueue tm) s (fun _ s' =>
    tframe s s' /\ tinv s' /\ k_timers s' = <[tm := set_tm_timeout_tick due ti]> (k_timers s) /\
    k_objects s' = <[OTimer tm := flag_set RT_TIMER_FLAG_ACTIVATED (flag_clear RT_TIMER_FLAG_ACTIVATED ob)]> (k_objects s) /\
    if flag_test RT_TIMER_FLAG_SOFT_TIMER ob
    then enqueued s tm due (k_soft_timer_list s) (k_soft_timer_list s') /\ k_timer_list s' = without tm (k_timer_list s)
    else enqueued s tm due (k_timer_list s) (k_timer_list s') /\ k_soft_timer_list s' = without tm (k_soft_timer_list s)).
Proof.
  intros T Eo Hty Et Hti Hth due. set (ob1 := flag_clear RT_TIMER_FLAG_ACTIVATED ob).
  set (ob2 := flag_set RT_TIMER_FLAG_ACTIVATED ob1).
  assert (flag_test RT_TIMER_FLAG_SOFT_TIMER ob1 = flag_test RT_TIMER_FLAG_SOFT_TIMER ob) as Esoft.
  { unfold flag_test. cbn [ob1 flag_clear o_flag set_o_flag]. by rewrite <- Z.land_assoc. }
  unfold rt_timer_enqueue, _rt_timer_remove. ksteps. apply (wp_assert_type _ ob); [done|done|]. ksteps.
  apply (wp_mod_object _ _ ob); [done|]. ksteps. apply (wp_get_timer _ ti); [done|]. ksteps.
  apply wp_assert; [by apply Z.ltb_lt|]. ksteps. apply (wp_mod_timer _ _ ti); [done|]. ksteps.
  apply (wp_get_object _ ob1); [kproj; apply lookup_insert_eq|]. rewrite Esoft. kproj. fold due.
  match goal with |- wp _ ?s1 _ => set (s3 := s1) end.
  assert (NoDup (all_timers s)) as Hnd by apply T. unfold all_timers in Hnd.
  assert (forall l l', enqueued s tm due l l' -> forall t, t <> tm -> t ∈ l' <-> t ∈ l) as Hperm.
  { intros l l' Hp%enqueued_perm t Hne. rewrite Hp, elem_of_cons, elem_of_without. tauto. }
  destruct (flag_test RT_TIMER_FLAG_SOFT_TIMER ob) eqn:Ef; ksteps; apply wp_unbind.
  - apply (enqueue_list_wp s s3 tm due (set_tm_timeout_tick due ti) (k_soft_timer_list s)).
    { intros t Hin. apply (ti_listed T). unfold all_timers. apply elem_of_app. auto. }
    { done. }
    intros l' Hl'. apply (wp_mod_object _ _ ob1); [unfold s3; kproj; apply lookup_insert_eq|].
    unfold s3. kproj. rewrite insert_insert_eq. split; [by apply (tframe_timer_object _ tm ob2)|].
    split; [|done]. apply (tinv_timer_update s _ tm ob ob2); try done; kproj.
    + unfold ob2, ob1. cbn. by rewrite flag_bits_set, flag_bits_clear.
    + intros tm' Hne. by rewrite lookup_insert_ne.
    + by rewrite lookup_insert_eq, Et.
    + unfold all_timers. kproj. rewrite (enqueued_perm _ _ _ _ _ Hl'), <- Permutation_middle, <- without_app.
      apply NoDup_cons. split; [rewrite elem_of_without; tauto|by apply NoDup_without].
    + intros tm' Hne. rewrite elem_of_without. tauto.
    + by apply Hperm.
    + intros _. split; [done|]. split; [by exists ob|]. intros t ->. destruct (Hth t eq_refl) as [Hs _].
      unfold flag_test in Ef. by rewrite Hs in Ef.
  - apply (enqueue_list_wp s s3 tm due (set_tm_timeout_tick due ti) (k_timer_list s)).
    { intros t Hin. apply (ti_listed T). unfold all_timers. apply elem_of_app. auto. }
    { done. }
    intros l' Hl'. apply (wp_mod_object _ _ ob1); [unfold s3; kproj; apply lookup_insert_eq|].
    unfold s3. kproj. rewrite insert_insert_eq. split; [by apply (tframe_timer_object _ tm ob2)|].
    split; [|done]. apply (tinv_timer_update s _ tm ob ob2); try done; kproj.
    + unfold ob2, ob1. cbn. by rewrite flag_bits_set, flag_bits_clear.
    + intros tm' Hne. by rewrite lookup_insert_ne.
    + by rewrite lookup_insert_eq, Et.
    + unfold all_timers. kproj. rewrite (enqueued_perm _ _ _ _ _ Hl'). cbn [app]. rewrite <- without_app.
      apply NoDup_cons. split; [rewrite elem_of_without; tauto|by apply NoDup_without].
    + by apply Hperm.
    + intros tm' Hne. rewrite elem_of_without. tauto.
    + intros _. split; [done|]. split; [by exists ob|]. intros t ->. destruct (Hth t eq_refl) as [_ Hs].
      split; [|split; [|done]].
      * rewrite (enqueued_perm _ _ _ _ _ Hl'). left.
      * unfold ob2. cbn. by rewrite flag_activated.
Qed.

(** A time of RT_TICK_MAX/2 ticks or more stops in the assertion. *)
Lemma rt_timer_enqueue_halt s tm ti ob :
  k_objects s !! OTimer tm = Some ob ->
  Z.land (o_type ob) (Z.lnot RT_Object_Class_Static) = RT_Object_Class_Timer ->
  k_timers s !! tm = Some ti -> TICK_HALF <= tm_init_tick ti -> rt_timer_enqueue tm s = Halt.
Proof.
  intros Eo Hty Et Hti. unfold rt_timer_enqueue, assert_type, rt_object_get_type, mod_object, get_object, get_timer,
    _rt_timer_remove, deref, modify, ret, RT_ASSERT, bind. rewrite Eo, Hty, Z.eqb_refl. kproj. rewrite Eo. kproj.
  rewrite Et. by rewrite (proj2 (Z.ltb_ge _ _)).
Qed.

(** ** The order of the timer list *)

(** Ticks until timer [t] is due, counted from the current tick. *)
Definition ticks_left (s : kst) (t : tmid) : Z :=
  match k_timers s !! t with Some ti => u32 (tm_timeout_tick ti - k_tick s) | None => 0 end.

(** Nothing is overdue and due times do not decrease along the list. *)
Definition timers_ordered (s : kst) (l : list tmid) : Prop :=
  Forall (fun t => ticks_left s t < TICK_HALF) l /\
  StronglySorted (fun a b => ticks_left s a <= ticks_left s b) l.

Lemma timers_ordered_same s s' l :
  (forall t, t ∈ l -> ticks_left s' t = ticks_left s t) -> timers_ordered s l -> timers_ordered s' l.
Proof.
  intros E [H1 H2]. split.
  - rewrite Forall_forall in *. intros t Ht. rewrite E by done. auto.
  - clear H1. induction H2 as [|a l Hs IH Hall]; constructor; [apply IH; set_solver|].
    rewrite Forall_forall in *. intros x Hx. rewrite !E by set_solver. auto.
Qed.

Lemma TICK_HALF_val : TICK_HALF = 2 ^ 31 - 1.
Proof. reflexivity. Qed.

(** On timers that are not overdue the wrapped comparison of rt_timer_start is
    the comparison of the ticks left. *)
Lemma due_later_left s t n :
  is_Some (k_timers s !! t) -> ticks_left s t < TICK_HALF -> 0 <= n < TICK_HALF ->
  due_later s (u32 (k_tick s + n)) t = (n <? ticks_left s t).
Proof.
  unfold due_later, ticks_left. rewrite TICK_HALF_val. intros [ti ->] Hl Hn. cbv zeta.
  set (a := tm_timeout_tick ti) in *. set (k := u32 (a - k_tick s)) in *.
  assert (0 <= k < 2 ^ 32) as Hk by apply u32_range.
  assert (u32 (a - u32 (k_tick s + n)) = u32 (k - n)) as ->.
  { unfold k, u32. rewrite Zminus_mod_idemp_r, Zminus_mod_idemp_l. f_equal. lia. }
  destruct (Z.ltb_spec n k).
  - rewrite u32_small by lia. rewrite (proj2 (Z.eqb_neq _ _)), (proj2 (Z.ltb_lt _ _)) by lia. done.
  - destruct (decide (k = n)) as [->|]; [by rewrite Z.sub_diag|].
    assert (u32 (k - n) = k - n + 2 ^ 32) as ->.
    { unfold u32. symmetry. apply (Zmod_unique (k - n) (2 ^ 32) (-1)); lia. }
    rewrite (proj2 (Z.ltb_ge _ _)) by lia. by rewrite andb_false_r.
Qed.

Lemma ticks_left_new s s' tm ti n :
  k_tick s' = k_tick s -> k_timers s' !! tm = Some ti -> tm_timeout_tick ti = u32 (k_tick s + n) ->
  0 <= n < TICK_HALF -> ticks_left s' tm = n.
Proof.
  intros E1 E2 E3 Hn. unfold ticks_left. rewrite E1, E2, E3. unfold u32. rewrite Zminus_mod_idemp_l.
  replace (k_tick s + n - k_tick s) with n by lia. apply u32_small. rewrite TICK_HALF_val in Hn. lia.
Qed.

Lemma StronglySorted_filter {A} (R : A -> A -> Prop) (P : A -> Prop) `{!forall x, Decision (P x)} l :
  StronglySorted R l -> StronglySorted R (filter P l).
Proof.
  induction 1 as [|a l Hs IH Hf]; [constructor|]. rewrite filter_cons. case_decide; [|done].
  constructor; [done|]. rewrite Forall_forall in *. intros x [_ Hx]%list_elem_of_filter. auto.
Qed.

Lemma enqueued_ordered s s' tm ti n l l' :
  timers_ordered s l -> (forall t, t ∈ l -> is_Some (k_timers s !! t)) ->
  0 <= n < TICK_HALF -> k_tick s' = k_tick s ->
  k_timers s' = <[tm := set_tm_timeout_tick (u32 (k_tick s + n)) ti]> (k_timers s) ->
  enqueued s tm (u32 (k_tick s + n)) l l' ->
  timers_ordered s' l' /\ exists l1 l2, without tm l = l1 ++ l2 /\ l' = l1 ++ tm :: l2 /\
    Forall (fun t => ticks_left s t <= n) l1 /\ Forall (fun t => n < ticks_left s t) l2.
Proof.
  intros [Hf Hs] Hin Hn Etk Etm (l1 & l2 & E & -> & H1 & H2). rewrite Forall_forall in Hf.
  assert (StronglySorted (fun a b => ticks_left s a <= ticks_left s b) (l1 ++ l2)) as Hs'.
  { rewrite <- E. by apply StronglySorted_filter. }
  assert (forall t, t ∈ l1 ++ l2 -> t <> tm /\ t ∈ l) as Hl.
  { intros t Ht. rewrite <- E in Ht. by apply elem_of_without in Ht. }
  assert (forall t, t ∈ l1 ++ l2 -> due_later s (u32 (k_tick s + n)) t = (n <? ticks_left s t)) as Hd.
  { intros t [_ Ht]%Hl. apply due_later_left; auto. }
  assert (Forall (fun t => ticks_left s t <= n) l1) as F1.
  { rewrite Forall_forall in *. intros t Ht. specialize (H1 t Ht). rewrite Hd in H1 by (apply elem_of_app; auto). lia. }
  assert (Forall (fun t => n < ticks_left s t) l2) as F2.
  { destruct l2 as [|t2 l2]; [constructor|]. specialize (H2 t2 eq_refl).
    rewrite Hd in H2 by (apply elem_of_app; right; left). apply StronglySorted_app in Hs' as (_ & _ & Hs2).
    inversion Hs2 as [|? ? _ Hall]; subst. constructor; [lia|]. rewrite Forall_forall in *.
    intros t Ht. specialize (Hall t Ht). lia. }
  assert (ticks_left s' tm = n) as En.
  { apply (ticks_left_new s s' tm (set_tm_timeout_tick (u32 (k_tick s + n)) ti)); [done| |done|done].
    rewrite Etm. apply lookup_insert_eq. }
  assert (forall t, t ∈ l1 ++ l2 -> ticks_left s' t = ticks_left s t) as Eo.
  { intros t [Hne _]%Hl. unfold ticks_left. by rewrite Etk, Etm, lookup_insert_ne. }
  rewrite Forall_forall in F1, F2.
  split; [split|exists l1, l2; rewrite !Forall_forall; done].
  - apply Forall_forall. intros t. rewrite elem_of_app, elem_of_cons. intros [Ht|[->|Ht]]; [|lia|].
    + rewrite Eo by (apply elem_of_app; auto). apply Hf, Hl, elem_of_app. auto.
    + rewrite Eo by (apply elem_of_app; auto). apply Hf, Hl, elem_of_app. auto.
  - apply StronglySorted_app in Hs' as (Hx & Hs1 & Hs2). apply StronglySorted_app. split_and!.
    + intros a b Ha Hb. rewrite (Eo a) by (apply elem_of_app; auto). apply elem_of_cons in Hb as [->|Hb].
      * rewrite En. auto.
      * rewrite (Eo b) by (apply elem_of_app; auto). auto.
    + clear -Hs1 Eo. induction Hs1 as [|a l Hs IH Hall]; constructor; [apply IH; set_solver|].
      rewrite Forall_forall in *. intros x Hx. rewrite !Eo by set_solver. auto.
    + constructor.
      * clear -Hs2 Eo. induction Hs2 as [|a l Hs IH Hall]; constructor; [apply IH; set_solver|].
        rewrite Forall_forall in *. intros x Hx. rewrite !Eo by set_solver. auto.
      * apply Forall_forall. intros b Hb. rewrite En, Eo by (apply elem_of_app; auto). apply Z.lt_le_incl, F2, Hb.
Qed.
