(* ===== verification/Thread.v ===== *)
(** * Threads (src/thread.c; rt_hw_stack_init of the Cortex-M4 port)

    Creation and start of threads, suspension, resumption, the thread timeout,
    exit, removal and the change of priority.  The sleeping calls, which start
    the thread's timer and wait, are in Sleep.v. *)

From S2P Require Import Prelude Ffs KState Wf Inv Sched Object Timer.

Definition RT_THREAD_CTRL_STARTUP : Z := 0.
Definition RT_THREAD_CTRL_CLOSE : Z := 1.
Definition RT_THREAD_CTRL_CHANGE_PRIORITY : Z := 2.

Definition rt_thread_self : K (option nat) := gets k_current.

(** The first frame of a thread: the stack pointer and the 17 words of the
    frame (flag, r4-r11, r0-r3, r12, lr, pc, psr) in the FPU configuration. *)
Definition STACK_FRAME_SIZE : Z := 68.
Definition rt_hw_stack_init (tentry parameter stack_addr texit : Z) : Z * list Z :=
  (RT_ALIGN_DOWN (u32 (stack_addr + 4)) 8 - STACK_FRAME_SIZE,
   0 :: repeat 0xdeadbeef 8 ++ [parameter; 0; 0; 0; 0; texit; tentry; 0x01000000]).

(** Thread memory starts out zeroed. *)
Definition raw_thread (s : kst) (t : nat) : rt_thread :=
  default (mkThread 0 0 0 0 0 0 0 0 0 0 0 0 0 0 0 None 0) (k_threads s !! t).

(** [exit_addr] is the address of rt_thread_exit.  The memset of the stack
    leaves '#' (35) in its first byte; rt_list_init of [tlist] has no effect on
    a thread that is in no list. *)
Definition _rt_thread_init (t : nat) (entry parameter stack_start stack_size priority tick exit_addr : Z) : K Z :=
  let sp := fst (rt_hw_stack_init entry parameter (stack_start + stack_size - 4) exit_addr) in
  RT_ASSERT (priority <? RT_THREAD_PRIORITY_MAX) ;;
  raw <- gets (fun s => raw_thread s t) ;;
  modify (fun s => set_k_threads
    (<[t := mkThread entry parameter stack_start stack_size sp 35 RT_EOK RT_THREAD_INIT priority priority 0
              (th_event_set raw) (th_event_info raw) tick tick None 0]> (k_threads s)) s) ;;
  ob <- get_object (OThread t) ;;
  rt_timer_init (TmThread t) (o_name ob) (TFThread t) 0 0 ;;
  ret RT_EOK.

Definition rt_thread_init (t : nat) (name : list Z)
  (entry parameter stack_start stack_size priority tick exit_addr : Z) : K Z :=
  RT_ASSERT (negb (stack_start =? 0)) ;;
  rt_object_init (OThread t) RT_Object_Class_Thread name ;;
  _rt_thread_init t entry parameter stack_start stack_size priority tick exit_addr.

Definition rt_thread_suspend (t : nat) : K Z :=
  assert_type (OThread t) RT_Object_Class_Thread ;;
  th <- get_thread t ;;
  let stat := st th in
  if negb (stat =? RT_THREAD_READY) && negb (stat =? RT_THREAD_RUNNING) then ret (- RT_ERROR)
  else
    when (stat =? RT_THREAD_RUNNING)
      (self <- rt_thread_self ;; RT_ASSERT (bool_decide (self = Some t))) ;;
    rt_schedule_remove_thread t ;;
    mod_thread t (with_st RT_THREAD_SUSPEND) ;;
    rt_timer_stop (TmThread t) ;;
    ret RT_EOK.

Definition rt_thread_resume (t : nat) : K Z :=
  assert_type (OThread t) RT_Object_Class_Thread ;;
  th <- get_thread t ;;
  if negb (st th =? RT_THREAD_SUSPEND) then ret (- RT_ERROR)
  else
    q_remove t ;;
    rt_timer_stop (TmThread t) ;;
    rt_schedule_insert_thread t ;;
    ret RT_EOK.

Definition rt_thread_timeout (t : nat) : K unit :=
  th <- get_thread t ;;
  RT_ASSERT (st th =? RT_THREAD_SUSPEND) ;;
  assert_type (OThread t) RT_Object_Class_Thread ;;
  mod_thread t (set_th_error (- RT_ETIMEOUT)) ;;
  q_remove t ;;
  rt_schedule_insert_thread t ;;
  rt_schedule.

Definition rt_thread_startup (t : nat) : K Z :=
  th <- get_thread t ;;
  RT_ASSERT (st th =? RT_THREAD_INIT) ;;
  assert_type (OThread t) RT_Object_Class_Thread ;;
  mod_thread t (fun th => set_th_current_priority (th_init_priority th) th) ;;
  mod_thread t (fun th => set_th_number_mask (u32 (Z.shiftl 1 (th_current_priority th))) th) ;;
  mod_thread t (set_th_stat RT_THREAD_SUSPEND) ;;
  rt_thread_resume t ;;
  self <- rt_thread_self ;;
  when (bool_decide (is_Some self)) rt_schedule ;;
  ret RT_EOK.

Definition thread_cleanup_is_null (t : nat) : K bool :=
  th <- get_thread t ;; ret (match th_cleanup th with None => true | Some _ => false end).

Definition rt_thread_exit : K unit :=
  t <- current_thread ;;
  rt_schedule_remove_thread t ;;
  mod_thread t (set_th_stat RT_THREAD_CLOSE) ;;
  rt_timer_detach (TmThread t) ;;
  sys <- rt_object_is_systemobject (OThread t) ;;
  null <- thread_cleanup_is_null t ;;
  (if sys && null then rt_object_detach (OThread t) else q_prepend QDefunct t) ;;
  rt_schedule.

Definition rt_thread_detach (t : nat) : K Z :=
  assert_type (OThread t) RT_Object_Class_Thread ;;
  sys <- rt_object_is_systemobject (OThread t) ;;
  RT_ASSERT sys ;;
  th <- get_thread t ;;
  when (negb (st th =? RT_THREAD_INIT)) (rt_schedule_remove_thread t) ;;
  rt_timer_detach (TmThread t) ;;
  mod_thread t (set_th_stat RT_THREAD_CLOSE) ;;
  sys <- rt_object_is_systemobject (OThread t) ;;
  null <- thread_cleanup_is_null t ;;
  (if sys && null then rt_object_detach (OThread t) else q_prepend QDefunct t) ;;
  ret RT_EOK.

(** The two allocations (thread object, stack) are arguments. *)
Definition rt_thread_create (name : list Z) (entry parameter stack_size priority tick exit_addr : Z)
  (malloced : option nat) (stack : option Z) : K (option nat) :=
  o <- rt_object_allocate RT_Object_Class_Thread name (OThread <$> malloced) ;;
  match o, malloced with
  | Some _, Some t =>
      match stack with
      | None => rt_object_delete (OThread t) ;; ret None
      | Some stack_start =>
          _rt_thread_init t entry parameter stack_start stack_size priority tick exit_addr ;; ret (Some t)
      end
  | _, _ => ret None
  end.

Definition rt_thread_delete (t : nat) : K Z :=
  assert_type (OThread t) RT_Object_Class_Thread ;;
  sys <- rt_object_is_systemobject (OThread t) ;;
  RT_ASSERT (negb sys) ;;
  th <- get_thread t ;;
  when (negb (st th =? RT_THREAD_INIT)) (rt_schedule_remove_thread t) ;;
  rt_timer_detach (TmThread t) ;;
  mod_thread t (set_th_stat RT_THREAD_CLOSE) ;;
  q_prepend QDefunct t ;;
  ret RT_EOK.

(** As in the source, the yield bit is not set here. *)
Definition rt_thread_yield : K Z := rt_schedule ;; ret RT_EOK.

Definition set_priority (p : Z) (th : rt_thread) : rt_thread :=
  set_th_number_mask (u32 (Z.shiftl 1 (u8 p))) (set_th_current_priority (u8 p) th).

Definition rt_thread_control (t : nat) (cmd arg : Z) : K Z :=
  assert_type (OThread t) RT_Object_Class_Thread ;;
  if cmd =? RT_THREAD_CTRL_CHANGE_PRIORITY then
    (* 1 << priority is undefined from 32 on *)
    valid (u8 arg <? 32) ;;
    th <- get_thread t ;;
    (if st th =? RT_THREAD_READY then
       rt_schedule_remove_thread t ;;
       mod_thread t (set_priority arg) ;;
       rt_schedule_insert_thread t
     else mod_thread t (set_priority arg)) ;;
    ret RT_EOK
  else if cmd =? RT_THREAD_CTRL_STARTUP then rt_thread_startup t
  else if cmd =? RT_THREAD_CTRL_CLOSE then rt_thread_delete t
  else ret RT_EOK.

Definition rt_thread_find (name : list Z) : K (option oid) :=
  self <- rt_thread_self ;;
  when (bool_decide (is_Some self)) rt_enter_critical ;;
  l <- gets (fun s => object_list s RT_Object_Class_Thread) ;;
  r <- find_named l name ;;
  self <- rt_thread_self ;;
  when (bool_decide (is_Some self)) rt_exit_critical ;;
  ret r.

(** ** Suspending and waking *)

Lemma kinv_wf s : kinv s -> wf s.
Proof. by intros []. Qed.
Lemma kinv_tinv s : kinv s -> tinv s.
Proof. by intros []. Qed.
#[export] Hint Resolve kinv_wf kinv_tinv : kernel.

Lemma tframe_kinv s s' : tframe s s' -> tinv s' -> kinv s -> kinv s'.
Proof. intros F T [W _]. split; [by eapply tframe_wfx|done]. Qed.

Lemma thread_typed s t th :
  kinv s -> k_threads s !! t = Some th -> st th <> RT_THREAD_CLOSE ->
  exists ob, k_objects s !! OThread t = Some ob /\
    Z.land (o_type ob) (Z.lnot RT_Object_Class_Static) = RT_Object_Class_Thread.
Proof. intros [_ T] Ht Hst. apply (ti_thread T t th Ht Hst). Qed.

(** The thread a list operation moved: everything about the rest of the kernel
    stays, [t] has the record [th'] and is where [place] says. *)
Record moved (s s' : kst) (t : nat) (th' : rt_thread) (queue : qid -> list nat) : Prop := {
  mv_inv : kinv s';
  mv_frame : kframe s s';
  mv_threads : k_threads s' = <[t := th']> (k_threads s);
  mv_queues : forall q, qget s' q = queue q;
  mv_current : k_current s' = k_current s
}.

Definition suspended (th : rt_thread) : rt_thread := with_st RT_THREAD_SUSPEND th.

Lemma runnable_open th : runnable th -> st th <> RT_THREAD_CLOSE.
Proof. by intros [->| ->]. Qed.
Lemma runnable_not_suspended th : runnable th -> st th <> RT_THREAD_SUSPEND.
Proof. by intros [->| ->]. Qed.

(** Taking a runnable thread out of its queue and marking it suspended. *)
Lemma suspend_tail_wp s t th :
  kinv s -> k_threads s !! t = Some th -> runnable th ->
  wp (rt_schedule_remove_thread t ;; mod_thread t (with_st RT_THREAD_SUSPEND) ;;
      rt_timer_stop (TmThread t) ;; ret RT_EOK) s (fun r s' => r = RT_EOK /\
    moved s s' t (suspended th) (fun q => without t (qget s q)) /\ TmThread t ∉ all_timers s').
Proof.
  intros [W T] Ht Hr.
  assert (thread_ok s t th) as (Hm & _ & _) by (apply (wf_thread W); [done|set_solver]).
  ksteps. eapply wp_mono.
  { apply (rt_schedule_remove_thread_wp {[t]} s t th); [by apply (wfx_weaken ∅)|done|left; set_solver]. }
  intros _ s1 (W1 & g & ->). ksteps. apply (wp_mod_thread _ _ th); [done|]. fold (suspended th).
  set (s2 := upd_thread t (suspended th) (set_k_ready_group g (unlink t s))).
  assert (st (suspended th) = RT_THREAD_SUSPEND) as Hs by (by apply st_with_st).
  assert (k_threads s2 !! t = Some (suspended th)) as Ht2 by (unfold s2; kproj; apply lookup_insert_eq).
  assert (wfx ∅ s2) as W2.
  { apply (wfx_release _ _ t (suspended th)); [|done| |by right; left].
    - rewrite (right_id_L ∅ (∪)). apply (wfx_upd_exempt _ _ _ th); [done|done|set_solver| | |].
      + intros q. qsimp. rewrite elem_of_without. tauto.
      + exact (wf_prio W _ _ Ht).
      + exact (wf_stack W _ _ Ht).
    - split; [|by rewrite Hs]. intros _ _. apply Hm; by destruct Hr as [->| ->]. }
  assert (tinv s2) as T2.
  { refine (tinv_same s s2 eq_refl eq_refl eq_refl eq_refl _ _ T); intros u uth; unfold s2; kproj;
      rewrite lookup_insert; case_decide; subst; intros; simplify_eq; eauto using runnable_open. }
  ksteps. eapply wp_mono; [apply (rt_timer_stop_wp s2 t (suspended th)); [done|done|by rewrite Hs]|].
  intros _ s3 (F & T3 & Hn). ksteps. split; [done|]. split; [|done].
  pose proof F as (KF & E1 & E2 & E3 & E4). split.
  - split; [by eapply tframe_wfx|done].
  - eapply kframe_trans; [|exact KF]. by apply kframe_same.
  - by rewrite E1.
  - intros q. unfold qget at 1. rewrite E2. change (qget s2 q = without t (qget s q)). unfold s2. by qsimp.
  - by rewrite E3.
Qed.

Lemma rt_thread_suspend_wp s t th :
  kinv s -> k_threads s !! t = Some th -> runnable th ->
  wp (rt_thread_suspend t) s (fun r s' => r = RT_EOK /\
    moved s s' t (suspended th) (fun q => without t (qget s q)) /\ TmThread t ∉ all_timers s').
Proof.
  intros Hk Ht Hr. destruct (thread_typed s t th Hk Ht (runnable_open th Hr)) as (ob & Eo & Hty).
  assert (thread_ok s t th) as (_ & _ & Hrun) by (apply (wf_thread (kinv_wf s Hk)); [done|set_solver]).
  unfold rt_thread_suspend. kstep. apply (wp_assert_type _ ob); [done|done|]. kstep.
  apply (wp_get_thread _ th); [done|]. cbv zeta.
  destruct (negb _ && _) eqn:E; [exfalso; destruct Hr as [Hr|Hr]; rewrite Hr in E; done|].
  kstep. unfold rt_thread_self. ksteps; [|by apply wp_unbind, suspend_tail_wp].
  apply wp_assert; [apply bool_decide_eq_true, Hrun; by apply Z.eqb_eq|]. by apply suspend_tail_wp.
Qed.

(** Suspending fails, and changes nothing, on any other thread. *)
Lemma rt_thread_suspend_fail s t th :
  kinv s -> k_threads s !! t = Some th -> ~ runnable th -> st th <> RT_THREAD_CLOSE ->
  rt_thread_suspend t s = Ok (- RT_ERROR) s.
Proof.
  intros Hk Ht Hr Hc. destruct (thread_typed s t th Hk Ht Hc) as (ob & Eo & Hty).
  enough (wp (rt_thread_suspend t) s (fun r s' => r = - RT_ERROR /\ s' = s)) as Hwp.
  { destruct (wp_run _ _ _ Hwp) as (? & ? & E & -> & ->). done. }
  unfold rt_thread_suspend. kstep. apply (wp_assert_type _ ob); [done|done|]. kstep.
  apply (wp_get_thread _ th); [done|]. cbv zeta. unfold runnable in Hr.
  rewrite (proj2 (Z.eqb_neq (st th) RT_THREAD_READY)), (proj2 (Z.eqb_neq (st th) RT_THREAD_RUNNING)) by tauto.
  by cbn [negb andb]; apply wp_ret.
Qed.

(** The queues after [t] is made runnable. *)
Definition woken_queue (s : kst) (t : nat) (th : rt_thread) (q : qid) : list nat :=
  without t (qget s q) ++
  (if decide (k_current s <> Some t /\ q = QReady (th_current_priority th)) then [t] else []).
Definition woken (s : kst) (t : nat) (th : rt_thread) : rt_thread :=
  with_st (if decide (k_current s = Some t) then RT_THREAD_RUNNING else RT_THREAD_READY) th.

Lemma woken_runnable s t th : runnable (woken s t th).
Proof. unfold woken, runnable. case_decide; rewrite st_with_st by done; auto. Qed.

Lemma insert_woken_wp s t th :
  kinv s -> k_threads s !! t = Some th -> st th = RT_THREAD_SUSPEND -> detached s t ->
  TmThread t ∉ all_timers s ->
  wp (rt_schedule_insert_thread t) s (fun _ s' =>
    moved s s' t (woken s t th) (woken_queue s t th) /\ k_objects s' = k_objects s /\ k_timers s' = k_timers s /\
    k_timer_list s' = k_timer_list s /\ k_soft_timer_list s' = k_soft_timer_list s).
Proof.
  intros [W T] Ht Hst Hd Hn.
  assert (thread_ok s t th) as (Hm & _ & _) by (apply (wf_thread W); [done|set_solver]).
  eapply wp_mono.
  { apply (rt_schedule_insert_thread_wp ∅ s t th); [apply (wfx_weaken ∅); [set_solver|done]|done|done|].
    apply Hm; by rewrite Hst. }
  intros _ s' [W' ->].
  assert (k_threads (inserted t th s) = <[t := woken s t th]> (k_threads s)) as Eth.
  { unfold inserted, woken. by case_decide. }
  assert (misc (inserted t th s) = misc s /\ k_objects (inserted t th s) = k_objects s /\
    k_timers (inserted t th s) = k_timers s /\ k_timer_list (inserted t th s) = k_timer_list s /\
    k_soft_timer_list (inserted t th s) = k_soft_timer_list s /\ k_current (inserted t th s) = k_current s)
    as (E1 & E2 & E3 & E4 & E5 & E6) by (unfold inserted; by case_decide).
  split; [|done]. split; [split; [done|]|by apply kframe_same|done| |done].
  - apply (tinv_same s); try done; intros u uth; rewrite Eth, lookup_insert; case_decide; subst; intros; simplify_eq; eauto; [|done].
    exists th. by rewrite Hst.
  - intros q. unfold woken_queue, inserted, ready_insert. rewrite (without_notin t (qget s q)) by apply Hd.
    destruct (decide (k_current s = Some t)) as [Hc|Hc].
    + rewrite decide_False by tauto. qsimp. by rewrite app_nil_r.
    + qsimp. destruct (decide (QReady (th_current_priority th) = q)) as [<-|Hq].
      * by rewrite decide_True.
      * rewrite decide_False by (intros [_ ->]; done). by rewrite app_nil_r.
Qed.

Lemma unlink_kinv s t th :
  kinv s -> k_threads s !! t = Some th -> st th <> RT_THREAD_READY -> kinv (unlink t s).
Proof. intros [W T] Ht Hst. split; [by apply (wfx_unlink _ _ _ th)|]. by apply (tinv_same s); eauto. Qed.

Lemma rt_thread_resume_wp s t th :
  kinv s -> k_threads s !! t = Some th -> st th = RT_THREAD_SUSPEND ->
  wp (rt_thread_resume t) s (fun r s' => r = RT_EOK /\
    moved s s' t (woken s t th) (woken_queue s t th) /\ TmThread t ∉ all_timers s').
Proof.
  intros Hk Ht Hst. destruct (thread_typed s t th Hk Ht) as (ob & Eo & Hty); [by rewrite Hst|].
  unfold rt_thread_resume. kstep. apply (wp_assert_type _ ob); [done|done|]. kstep.
  apply (wp_get_thread _ th); [done|]. rewrite Hst. cbn [negb]. rewrite Z.eqb_refl. cbn [negb].
  kstep. apply wp_q_remove. kstep.
  assert (kinv (unlink t s)) as Hk1 by (apply (unlink_kinv s t th); [done|done|by rewrite Hst]).
  eapply wp_mono; [apply (rt_timer_stop_wp (unlink t s) t th); [apply Hk1|done|by rewrite Hst]|].
  intros _ s2 (F & T2 & Hn). pose proof F as (KF & E1 & E2 & E3 & E4).
  assert (forall q, qget s2 q = without t (qget s q)) as Eq.
  { intros q. unfold qget at 1. rewrite E2. change (qget (unlink t s) q = without t (qget s q)). by qsimp. }
  kstep. eapply wp_mono.
  { apply (insert_woken_wp s2 t th); [by apply (tframe_kinv (unlink t s))|by rewrite E1|done| |done].
    intros q. rewrite Eq, elem_of_without. tauto. }
  intros _ s3 (Hmv & _ & _ & El & Es). kstep. split; [done|]. split; [|unfold all_timers; by rewrite El, Es].
  destruct Hmv as [M1 M2 M3 M4 M5]. split; [done| | | |by rewrite M5, E3].
  - eapply kframe_trans; [|exact M2]. eapply kframe_trans; [|exact KF]. by apply kframe_same.
  - rewrite M3, E1. unfold woken. by rewrite E3.
  - intros q. rewrite M4. unfold woken_queue. rewrite Eq, E3. cbn [k_current unlink set_k_queues].
    rewrite without_notin by (rewrite elem_of_without; tauto). done.
Qed.

(** A field update the invariants do not look at. *)
Lemma kinv_upd_same s t th th' :
  kinv s -> k_threads s !! t = Some th -> sched_same th th' -> kinv (upd_thread t th' s).
Proof.
  intros [W T] Ht Hs. split; [by apply (wfx_upd_same _ _ _ th)|]. apply (tinv_upd_thread _ _ th); [done|apply Hs|done].
Qed.

Lemma sched_kinv s s' : kinv s -> sched_frame s s' -> wf s' -> kinv s'.
Proof. intros [_ T] F W. split; [done|by eapply sched_frame_tinv]. Qed.

(** A scheduling pass, as its callers in the kernel use it. *)
Lemma rt_schedule_kinv s :
  kinv s -> is_Some (k_current s) ->
  wp rt_schedule s (fun _ s' => kinv s' /\ sched_frame s s' /\ is_Some (k_current s')).
Proof.
  intros Hk Hc. eapply wp_mono; [apply rt_schedule_frame; [apply Hk|done]|].
  intros [] s' (? & ? & ?). eauto using sched_kinv.
Qed.

Lemma rt_thread_timeout_wp s t th :
  kinv s -> k_threads s !! t = Some th -> st th = RT_THREAD_SUSPEND -> TmThread t ∉ all_timers s ->
  is_Some (k_current s) ->
  let th1 := set_th_error (- RT_ETIMEOUT) th in
  wp (rt_thread_timeout t) s (fun _ s' => kinv s' /\ is_Some (k_current s') /\ exists s1,
    moved s s1 t (woken s t th1) (woken_queue s t th1) /\ sched_frame s1 s' /\
    k_objects s1 = k_objects s /\ k_timers s1 = k_timers s /\
    k_timer_list s1 = k_timer_list s /\ k_soft_timer_list s1 = k_soft_timer_list s).
Proof.
  intros Hk Ht Hst Hn Hc th1. destruct (thread_typed s t th Hk Ht) as (ob & Eo & Hty); [by rewrite Hst|].
  unfold rt_thread_timeout. kstep. apply (wp_get_thread _ th); [done|]. kstep.
  apply wp_assert; [by apply Z.eqb_eq|]. kstep. apply (wp_assert_type _ ob); [done|done|]. kstep.
  apply (wp_mod_thread _ _ th); [done|]. fold th1. kstep. apply wp_q_remove. kstep.
  assert (st th1 = RT_THREAD_SUSPEND) as Hst1 by done.
  assert (kinv (upd_thread t th1 s)) as Hk1 by (by apply (kinv_upd_same s t th)).
  set (s1 := unlink t (upd_thread t th1 s)).
  assert (k_threads s1 !! t = Some th1) as Ht1 by (unfold s1; kproj; apply lookup_insert_eq).
  assert (kinv s1) as Hk2.
  { apply (unlink_kinv _ t th1); [done|by rewrite lookup_upd_thread, decide_True|by rewrite Hst1]. }
  eapply wp_mono.
  { apply (insert_woken_wp s1 t th1); [done|done|done| |done]. intros q. unfold s1. qsimp. rewrite elem_of_without. tauto. }
  intros _ s2 ([M1 M2 M3 M4 M5] & E1 & E2 & E3 & E4).
  eapply wp_mono; [apply rt_schedule_kinv; [done|by rewrite M5]|].
  intros [] s3 (Hk3 & F & Hc3). split; [done|]. split; [done|]. exists s2. split; [|done]. split; [done| | | |done].
  - eapply kframe_trans; [|exact M2]. by apply kframe_same.
  - rewrite M3. unfold s1. kproj. by rewrite insert_insert_eq.
  - intros q. rewrite M4. unfold woken_queue, s1. qsimp. kproj.
    rewrite without_notin by (rewrite elem_of_without; tauto). done.
Qed.

(** ** Closing threads *)

Definition only_thread_headers (s s' : kst) (t : nat) : Prop :=
  forall o, o <> OThread t -> o <> OTimer (TmThread t) -> k_objects s' !! o = k_objects s !! o.

Lemma tinv_closed s s' t th' :
  tinv s -> k_threads s' = <[t := th']> (k_threads s) -> st th' = RT_THREAD_CLOSE ->
  only_thread_headers s s' t -> k_timers s' = k_timers s ->
  k_timer_list s' = without (TmThread t) (k_timer_list s) ->
  k_soft_timer_list s' = without (TmThread t) (k_soft_timer_list s) -> tinv s'.
Proof.
  intros T Eth Hst Ho Etm El Es.
  assert (all_timers s' = without (TmThread t) (all_timers s)) as Ea.
  { unfold all_timers. by rewrite El, Es, without_app. }
  split.
  - intros u uth. rewrite Eth, lookup_insert. case_decide; subst; intros E Hc; simplify_eq.
    destruct (ti_thread T u uth E Hc) as ((x & Ex & Hx) & y & ti & Ey & Hti & Hy).
    split; [exists x; by rewrite Ho by congruence|]. exists y, ti. by rewrite Ho, Etm by congruence.
  - rewrite Ea. apply NoDup_without, T.
  - intros tm. rewrite Ea, elem_of_without. intros [Hne Hin]. destruct (ti_listed T tm Hin) as (? & x & Ex & Hx).
    rewrite Etm. split; [done|]. exists x. by rewrite Ho by congruence.
  - intros u. rewrite Ea, El, !elem_of_without. intros [Hne Hin].
    destruct (ti_wait T u Hin) as (H1 & (x & Ex & Hx) & uth & Eu & Hu). split; [done|]. split.
    + exists x. by rewrite Ho by congruence.
    + exists uth. rewrite Eth, lookup_insert_ne by congruence. done.
Qed.

(** [t] closed: out of every list, or in the defunct list only. *)
Definition closed_queue (s : kst) (t : nat) (defunct : bool) (q : qid) : list nat :=
  (if defunct && bool_decide (q = QDefunct) then [t] else []) ++ without t (qget s q).

Record closed_post (s s' : kst) (t : nat) (th : rt_thread) (defunct : bool) : Prop := {
  cl_inv : kinv s';
  cl_threads : k_threads s' = <[t := set_th_stat RT_THREAD_CLOSE th]> (k_threads s);
  cl_queues : forall q, qget s' q = closed_queue s t defunct q;
  cl_timers : all_timers s' = without (TmThread t) (all_timers s);
  cl_current : k_current s' = k_current s;
  cl_headers : only_thread_headers s s' t
}.

Lemma closed_kinv s s' t th g defunct :
  kinv s -> k_threads s !! t = Some th -> wfx {[t]} (set_k_ready_group g (unlink t s)) ->
  k_threads s' = <[t := set_th_stat RT_THREAD_CLOSE th]> (k_threads s) ->
  (forall q, qget s' q = closed_queue s t defunct q) -> k_current s' = k_current s -> k_ready_group s' = g ->
  only_thread_headers s s' t -> k_timers s' = k_timers s ->
  k_timer_list s' = without (TmThread t) (k_timer_list s) ->
  k_soft_timer_list s' = without (TmThread t) (k_soft_timer_list s) ->
  closed_post s s' t th defunct.
Proof.
  intros [W T] Ht W1 Eth Eq Ec Eg Ho Etm El Es. set (th' := set_th_stat RT_THREAD_CLOSE th) in *.
  assert (st th' = RT_THREAD_CLOSE) as Hst by done.
  set (s2 := upd_thread t th' (set_k_ready_group g (unlink t s))).
  assert (detached s2 t) as Hd by (intros q; unfold s2; qsimp; rewrite elem_of_without; tauto).
  assert (wf s2) as W2.
  { apply (wfx_release _ _ t th'); [|unfold s2; kproj; apply lookup_insert_eq| |by right; right].
    - rewrite (right_id_L ∅ (∪)). apply (wfx_upd_exempt _ _ _ th); [done|done|set_solver| | |].
      + intros q. qsimp. rewrite elem_of_without. tauto.
      + exact (wf_prio W _ _ Ht).
      + exact (wf_stack W _ _ Ht).
    - split; [done|]. by rewrite Hst. }
  split; [split|done|done|unfold all_timers; by rewrite El, Es, without_app|done|done].
  - destruct defunct.
    + apply (wfx_same _ (upd_queue QDefunct (t :: qget s2 QDefunct) s2)); [done| |done|done|].
      * intros q. rewrite Eq. unfold closed_queue, s2. qsimp. destruct (decide (QDefunct = q)) as [<-|Hne]; [done|].
        by rewrite bool_decide_false.
      * apply (wfx_link _ _ _ t th'); [done|unfold s2; kproj; apply lookup_insert_eq|done|done|done|done].
    + apply (wfx_same _ s2); [done| |done|done|done]. intros q. rewrite Eq. unfold closed_queue, s2. by qsimp.
  - by apply (tinv_closed s s' t th').
Qed.

Lemma rt_timer_detach_wp s t ob :
  k_objects s !! OTimer (TmThread t) = Some ob ->
  o_type ob = Z.lor RT_Object_Class_Timer RT_Object_Class_Static ->
  wp (rt_timer_detach (TmThread t)) s (fun _ s' => exists m c,
    s' = set_k_containers c (set_k_objects m (set_k_soft_timer_list (without (TmThread t) (k_soft_timer_list s))
           (set_k_timer_list (without (TmThread t) (k_timer_list s)) s))) /\
    forall o, o <> OTimer (TmThread t) -> m !! o = k_objects s !! o).
Proof.
  intros Eo Hty. unfold rt_timer_detach, rt_object_is_systemobject, _rt_timer_remove, rt_object_detach, container_remove.
  ksteps. apply (wp_assert_type _ ob); [done|by rewrite Hty|]. ksteps. apply (wp_get_object _ ob); [done|]. ksteps.
  apply wp_assert; [by rewrite Hty|]. ksteps. apply (wp_mod_object _ _ ob); [done|]. ksteps.
  eexists _, _. split; [reflexivity|]. intros o Hne. by rewrite lookup_insert_ne.
Qed.

Definition goes_defunct (ob : rt_object) (th : rt_thread) : bool :=
  negb (negb (Z.land (o_type ob) RT_Object_Class_Static =? 0) && match th_cleanup th with None => true | _ => false end).

(** The last part of the three closing routines, on a thread that is out of its
    list and marked closed: detach the object or queue the thread for the idle
    thread. *)
Lemma closing_end_wp {A} s t th ob (k : K A) (Q : A -> kst -> Prop) :
  k_objects s !! OThread t = Some ob -> k_threads s !! t = Some th ->
  (forall m c, (forall o, o <> OThread t -> m !! o = k_objects s !! o) ->
     wp k (if goes_defunct ob th then upd_queue QDefunct (t :: qget s QDefunct) s
           else set_k_containers c (set_k_objects m s)) Q) ->
  wp (sys <- rt_object_is_systemobject (OThread t) ;; null <- thread_cleanup_is_null t ;;
      (if sys && null then rt_object_detach (OThread t) else q_prepend QDefunct t) ;; k) s Q.
Proof.
  intros Eo Et HQ. unfold rt_object_is_systemobject, thread_cleanup_is_null, rt_object_detach, container_remove.
  kstep. kstep. apply (wp_get_object _ ob); [done|]. kstep. kstep. kstep. apply (wp_get_thread _ th); [done|]. kstep. kstep.
  unfold goes_defunct in HQ. destruct (negb (Z.land _ _ =? 0) && _).
  - kstep. apply (wp_mod_object _ _ ob); [done|]. kstep. apply HQ. intros o Hne. by rewrite lookup_insert_ne.
  - apply wp_q_prepend. by apply (HQ (k_objects s) (k_containers s)).
Qed.

Lemma thread_headers s t th :
  kinv s -> k_threads s !! t = Some th -> st th <> RT_THREAD_CLOSE ->
  exists ob tob ti, k_objects s !! OThread t = Some ob /\
    Z.land (o_type ob) (Z.lnot RT_Object_Class_Static) = RT_Object_Class_Thread /\
    k_objects s !! OTimer (TmThread t) = Some tob /\
    o_type tob = Z.lor RT_Object_Class_Timer RT_Object_Class_Static /\ k_timers s !! TmThread t = Some ti.
Proof.
  intros [_ T] Ht Hst. destruct (ti_thread T t th Ht Hst) as ((ob & ? & ?) & tob & ti & ? & ? & ? & _). eauto 10.
Qed.

(** rt_thread_exit up to its scheduling pass. *)
Lemma rt_thread_exit_wp s t th :
  kinv s -> k_current s = Some t -> k_threads s !! t = Some th -> st th <> RT_THREAD_CLOSE ->
  wp rt_thread_exit s (fun _ s' => exists ob s1, k_objects s !! OThread t = Some ob /\
    closed_post s s1 t th (goes_defunct ob th) /\ sched_frame s1 s' /\ kinv s' /\ is_Some (k_current s')).
Proof.
  intros Hk Hc Ht Hst. destruct (thread_headers s t th Hk Ht Hst) as (ob & tob & ti & Eo & Hty & Et & Htt & Eti).
  pose proof Hk as [W T]. unfold rt_thread_exit. kstep. apply (wp_current t); [done|]. kstep. eapply wp_mono.
  { apply (rt_schedule_remove_thread_wp {[t]} s t th); [by apply (wfx_weaken ∅)|done|left; set_solver]. }
  intros _ s1 (W1 & g & ->). kstep. apply (wp_mod_thread _ _ th); [done|]. kstep.
  set (th' := set_th_stat RT_THREAD_CLOSE th). eapply wp_mono; [by apply (rt_timer_detach_wp _ t tob)|].
  intros _ s2 (m & c & -> & Hm).
  apply (closing_end_wp _ t th' ob); [kproj; by rewrite Hm|kproj; apply lookup_insert_eq|].
  intros m' c' Hm'. change (goes_defunct ob th') with (goes_defunct ob th). set (d := goes_defunct ob th).
  match goal with |- wp _ ?u _ => set (s3 := u) end.
  assert (closed_post s s3 t th d) as Hcl.
  { apply (closed_kinv s s3 t th g d Hk Ht W1); unfold s3; destruct d; try done.
    - intros q. unfold closed_queue. qsimp. destruct (decide (QDefunct = q)) as [<-|Hne]; [done|].
      by rewrite bool_decide_false.
    - intros q. unfold closed_queue. by qsimp.
    - intros o H1 H2. kproj. by rewrite Hm.
    - intros o H1 H2. kproj. by rewrite Hm', Hm. }
  eapply wp_mono; [apply rt_schedule_kinv; [apply Hcl|rewrite (cl_current _ _ _ _ _ Hcl); eauto]|].
  intros [] s4 (Hk4 & F & Hc4). eauto 10.
Qed.

(** Removing a thread from whatever list it is in, unless it was never started. *)
Lemma remove_if_started_wp {A} s t th (k : K A) Q :
  kinv s -> k_threads s !! t = Some th ->
  (forall g, wfx {[t]} (set_k_ready_group g (unlink t s)) ->
     forall s1, k_threads s1 = k_threads s -> (forall q, qget s1 q = without t (qget s q)) ->
       k_ready_group s1 = g -> rest s1 = rest s -> k_current s1 = k_current s -> wp k s1 Q) ->
  wp (when (negb (st th =? RT_THREAD_INIT)) (rt_schedule_remove_thread t) ;; k) s Q.
Proof.
  intros [W T] Ht HQ. unfold when. kstep. destruct (Z.eqb_spec (st th) RT_THREAD_INIT) as [Hi|Hi]; cbn [negb].
  - assert (detached s t) as Hd.
    { intros q Hin. destruct (wf_place W _ _ Hin) as (x & Ex & Hp). simplify_eq.
      destruct q; cbn in Hp; [destruct Hp as [Hp _]|..]; rewrite Hp in Hi; done. }
    kstep. apply (HQ (k_ready_group s)); try done.
    + apply (wfx_same _ s); [done| |done|done|by apply (wfx_weaken ∅)].
      intros q. qsimp. by rewrite without_notin by apply Hd.
    + intros q. by rewrite without_notin by apply Hd.
  - eapply wp_mono.
    { apply (rt_schedule_remove_thread_wp {[t]} s t th); [by apply (wfx_weaken ∅)|done|left; set_solver]. }
    intros _ s1 (W1 & g & ->). apply (HQ g); try done. intros q. by qsimp.
Qed.

Lemma rest_timers s s1 : rest s1 = rest s -> k_objects s1 = k_objects s /\ k_timers s1 = k_timers s /\
  k_timer_list s1 = k_timer_list s /\ k_soft_timer_list s1 = k_soft_timer_list s.
Proof. unfold rest. by intros [= ]. Qed.

Lemma rt_thread_detach_wp s t th ob :
  kinv s -> k_threads s !! t = Some th -> st th <> RT_THREAD_CLOSE ->
  k_objects s !! OThread t = Some ob -> Z.land (o_type ob) RT_Object_Class_Static <> 0 ->
  wp (rt_thread_detach t) s (fun r s' => r = RT_EOK /\ closed_post s s' t th (goes_defunct ob th)).
Proof.
  intros Hk Ht Hst Eo Hsys. destruct (thread_headers s t th Hk Ht Hst) as (ob' & tob & ti & Eo' & Hty & Et & Htt & Eti).
  simplify_eq. unfold rt_thread_detach. kstep. apply (wp_assert_type _ ob); [done|done|]. kstep.
  unfold rt_object_is_systemobject at 1. kstep. apply (wp_get_object _ ob); [done|]. kstep. kstep.
  apply wp_assert; [by rewrite (proj2 (Z.eqb_neq _ _))|]. kstep. apply (wp_get_thread _ th); [done|].
  apply remove_if_started_wp; [done|done|]. intros g W1 s1 E1 E2 E3 E4 E5.
  apply rest_timers in E4 as (F1 & F2 & F3 & F4).
  kstep. eapply wp_mono; [apply (rt_timer_detach_wp _ t tob); [by rewrite F1|done]|].
  intros _ s2 (m & c & -> & Hm). kstep. apply (wp_mod_thread _ _ th); [kproj; by rewrite E1|].
  set (th' := set_th_stat RT_THREAD_CLOSE th).
  apply (closing_end_wp _ t th' ob); [kproj; by rewrite Hm, F1|kproj; apply lookup_insert_eq|].
  intros m' c' Hm'. change (goes_defunct ob th') with (goes_defunct ob th). set (d := goes_defunct ob th).
  kstep. split; [done|].
  apply (closed_kinv s _ t th g d Hk Ht W1); destruct d; kproj; rewrite ?E1, ?F3, ?F4; try done.
  - intros q. unfold closed_queue. qsimp. rewrite !E2. destruct (decide (QDefunct = q)) as [<-|Hne]; [done|].
    by rewrite bool_decide_false.
  - intros o H1 H2. kproj. by rewrite Hm, F1.
  - intros o H1 H2. kproj. by rewrite Hm', Hm, F1.
Qed.

Lemma rt_thread_delete_wp s t th ob :
  kinv s -> k_threads s !! t = Some th -> st th <> RT_THREAD_CLOSE ->
  k_objects s !! OThread t = Some ob -> Z.land (o_type ob) RT_Object_Class_Static = 0 ->
  wp (rt_thread_delete t) s (fun r s' => r = RT_EOK /\ closed_post s s' t th true).
Proof.
  intros Hk Ht Hst Eo Hsys. destruct (thread_headers s t th Hk Ht Hst) as (ob' & tob & ti & Eo' & Hty & Et & Htt & Eti).
  simplify_eq. unfold rt_thread_delete. kstep. apply (wp_assert_type _ ob); [done|done|]. kstep.
  unfold rt_object_is_systemobject at 1. kstep. apply (wp_get_object _ ob); [done|]. kstep. kstep.
  apply wp_assert; [by rewrite (proj2 (Z.eqb_eq _ _))|]. kstep. apply (wp_get_thread _ th); [done|].
  apply remove_if_started_wp; [done|done|]. intros g W1 s1 E1 E2 E3 E4 E5.
  apply rest_timers in E4 as (F1 & F2 & F3 & F4).
  kstep. eapply wp_mono; [apply (rt_timer_detach_wp _ t tob); [by rewrite F1|done]|].
  intros _ s2 (m & c & -> & Hm). kstep. apply (wp_mod_thread _ _ th); [kproj; by rewrite E1|].
  kstep. apply wp_q_prepend. kstep. split; [done|].
  apply (closed_kinv s _ t th g true Hk Ht W1); kproj; rewrite ?E1, ?F3, ?F4; try done.
  - intros q. unfold closed_queue. qsimp. rewrite !E2. destruct (decide (QDefunct = q)) as [<-|Hne]; [done|].
    by rewrite bool_decide_false.
  - intros o H1 H2. kproj. by rewrite Hm, F1.
Qed.

(** ** Creating and starting threads *)

Lemma mask_pow p : 0 <= p < 32 -> u32 (Z.shiftl 1 p) = 2 ^ p.
Proof.
  intros Hp. rewrite Z.shiftl_1_l. apply u32_small. split; [apply Z.pow_nonneg; lia|]. apply Z.pow_lt_mono_r; lia.
Qed.

Lemma init_detached s t th : wf s -> k_threads s !! t = Some th -> st th = RT_THREAD_INIT -> detached s t.
Proof.
  intros W Ht Hi q Hin. destruct (wf_place W _ _ Hin) as (x & Ex & Hp). simplify_eq.
  destruct q; cbn in Hp; [destruct Hp as [Hp _]|..]; rewrite Hp in Hi; done.
Qed.

(** What rt_thread_startup makes of the record before it resumes the thread. *)
Definition started (th : rt_thread) : rt_thread :=
  set_th_stat RT_THREAD_SUSPEND (set_th_number_mask (2 ^ th_init_priority th)
    (set_th_current_priority (th_init_priority th) th)).

Lemma rt_thread_startup_wp s t th :
  kinv s -> k_threads s !! t = Some th -> st th = RT_THREAD_INIT ->
  0 <= th_init_priority th < RT_THREAD_PRIORITY_MAX ->
  wp (rt_thread_startup t) s (fun r s' => r = RT_EOK /\ kinv s' /\ exists s1,
    moved s s1 t (with_st RT_THREAD_READY (started th)) (woken_queue s t (started th)) /\ sched_frame s1 s').
Proof.
  intros Hk Ht Hst Hp. destruct (thread_typed s t th Hk Ht) as (ob & Eo & Hty); [by rewrite Hst|].
  pose proof Hk as [W T]. pose proof (init_detached s t th W Ht Hst) as Hd.
  assert (k_current s <> Some t) as Hc.
  { intros E. destruct (wf_current W t E) as (x & Ex & Hcan). simplify_eq.
    destruct Hcan as [Hx|[Hx|Hx]]; [set_solver|rewrite Hst in Hx; done..]. }
  unfold rt_thread_startup. kstep. apply (wp_get_thread _ th); [done|]. kstep. apply wp_assert; [by apply Z.eqb_eq|].
  kstep. apply (wp_assert_type _ ob); [done|done|]. kstep. apply (wp_mod_thread _ _ th); [done|]. kstep.
  eapply wp_mod_thread; [kproj; apply lookup_insert_eq|]. kstep. eapply wp_mod_thread; [kproj; apply lookup_insert_eq|].
  cbn [th_current_priority set_th_current_priority]. rewrite mask_pow by done. fold (started th).
  set (s1 := upd_thread t (started th) s).
  assert (forall a b, upd_thread t (started th) (upd_thread t a (upd_thread t b s)) = s1) as ->.
  { intros a b. unfold s1, upd_thread, set_k_threads. cbn. by rewrite !insert_insert_eq. }
  assert (kinv s1) as Hk1.
  { split.
    - apply (wfx_release _ _ t (started th)); [|unfold s1; kproj; apply lookup_insert_eq| |done].
      + rewrite (right_id_L ∅ (∪)). apply (wfx_upd_exempt _ _ _ th); [by apply (wfx_weaken ∅)|done|set_solver|done| |].
        * split; [done|]. left. done.
        * exact (wf_stack W _ _ Ht).
      + split; [done|]. done.
    - refine (tinv_same s s1 eq_refl eq_refl eq_refl eq_refl _ _ T); intros u uth; unfold s1; kproj;
        rewrite lookup_insert; case_decide; subst; intros; simplify_eq; eauto.
      exists th. by rewrite Hst. }
  kstep. eapply wp_mono; [apply (rt_thread_resume_wp s1 t (started th)); [done|unfold s1; kproj; apply lookup_insert_eq|done]|].
  intros r s2 (_ & M & _). destruct M as [M1 M2 M3 M4 M5].
  assert (moved s s2 t (with_st RT_THREAD_READY (started th)) (woken_queue s t (started th))) as M.
  { split; [done| | |by intros q; rewrite M4|done].
    - eapply kframe_trans; [|exact M2]. by apply kframe_same.
    - rewrite M3. unfold s1, woken. kproj. rewrite decide_False by done. by rewrite insert_insert_eq. }
  unfold rt_thread_self, when. ksteps.
  - apply bool_decide_eq_true in Heqb. eapply wp_mono; [by apply rt_schedule_kinv|].
    intros [] s3 (? & ? & _). ksteps. eauto 10.
  - eauto 10 with kernel.
Qed.

Lemma tinv_new_thread s s' t :
  tinv s -> k_threads s !! t = None ->
  (forall u uth, u <> t -> k_threads s' !! u = Some uth -> st uth <> RT_THREAD_CLOSE ->
     exists th, k_threads s !! u = Some th /\ st th <> RT_THREAD_CLOSE) ->
  (forall u th, u <> t -> k_threads s !! u = Some th -> st th = RT_THREAD_SUSPEND ->
     exists th', k_threads s' !! u = Some th' /\ st th' = RT_THREAD_SUSPEND) ->
  only_thread_headers s s' t -> (forall tm, tm <> TmThread t -> k_timers s' !! tm = k_timers s !! tm) ->
  k_timer_list s' = k_timer_list s -> k_soft_timer_list s' = k_soft_timer_list s ->
  has_type s' (OThread t) RT_Object_Class_Thread -> thread_timer_ok s' t -> tinv s'.
Proof.
  intros T Hnone H1 H2 Ho Htm El Es Hty Htt.
  assert (TmThread t ∉ all_timers s) as Hn.
  { intros Hin. destruct (ti_wait T t Hin) as (_ & _ & th & E & _). congruence. }
  assert (all_timers s' = all_timers s) as Ea by (unfold all_timers; congruence).
  split; rewrite ?Ea.
  - intros u uth Hu Hc. destruct (decide (u = t)) as [->|Hne]; [done|].
    destruct (H1 u uth Hne Hu Hc) as (th & E & Hc').
    destruct (ti_thread T u th E Hc') as ((x & Ex & Hx) & y & ti & Ey & Hti & Hy).
    split; [exists x; by rewrite Ho by congruence|]. exists y, ti. by rewrite Ho, Htm by congruence.
  - apply T.
  - intros tm Hin. destruct (ti_listed T tm Hin) as (? & x & Ex & Hx).
    rewrite Htm by congruence. split; [done|]. exists x. by rewrite Ho by congruence.
  - intros u Hin. destruct (ti_wait T u Hin) as (? & (x & Ex & Hx) & uth & Eu & Hu). rewrite El.
    assert (u <> t) as Hne by congruence. split; [done|]. split; [exists x; by rewrite Ho by congruence|eauto].
Qed.

(** Adding the record of a thread that did not exist. *)
Lemma wf_new_thread s t th :
  wf s -> k_threads s !! t = None -> prio_ok th -> stack_ok th -> st th = RT_THREAD_INIT -> wf (upd_thread t th s).
Proof.
  intros W Hn Hp Hs Hst. destruct W. split; try done.
  - intros q u Hin. destruct (wf_place q u Hin) as (x & E & Hx). exists x. rewrite lookup_upd_thread.
    rewrite decide_False by congruence. done.
  - intros u uth. rewrite lookup_upd_thread. case_decide; intros; simplify_eq; eauto.
  - intros u uth. rewrite lookup_upd_thread. case_decide; intros; simplify_eq; eauto.
  - intros u uth. rewrite lookup_upd_thread. case_decide; intros; simplify_eq; [|by apply wf_thread].
    split; [done|]. by rewrite Hst.
  - intros u Hc. destruct (wf_current u Hc) as (x & E & Hx). exists x. rewrite lookup_upd_thread.
    rewrite decide_False by congruence. done.
Qed.

(** A stack that holds the first frame. *)
Definition stack_fits (start size : Z) : Prop := 0 <= start /\ start + size < 2 ^ 32 /\ STACK_FRAME_SIZE + 8 <= size.

Lemma stack_init_ok entry par start size ex :
  stack_fits start size ->
  let sp := fst (rt_hw_stack_init entry par (start + size - 4) ex) in start < sp <= start + size.
Proof.
  intros (H1 & H2 & H3). unfold rt_hw_stack_init, STACK_FRAME_SIZE in *. cbn [fst].
  replace (start + size - 4 + 4) with (start + size) by lia. rewrite u32_small by lia.
  change 8 with (2 ^ 3). rewrite align_down_spec by lia. pose proof (Z.mod_pos_bound (start + size) (2 ^ 3) ltac:(lia)). lia.
Qed.

(** The record _rt_thread_init writes. *)
Definition new_thread (raw : rt_thread) (entry par start size prio tick ex : Z) : rt_thread :=
  mkThread entry par start size (fst (rt_hw_stack_init entry par (start + size - 4) ex)) 35 RT_EOK
    RT_THREAD_INIT prio prio 0 (th_event_set raw) (th_event_info raw) tick tick None 0.

Lemma thread_info : is_Some (rt_object_get_information RT_Object_Class_Thread).
Proof. by eexists. Qed.
Lemma timer_info : is_Some (rt_object_get_information RT_Object_Class_Timer).
Proof. by eexists. Qed.

Lemma rt_timer_init_wp s t name l :
  wf s -> 0 <= k_lock_nest s < 2 ^ 15 - 1 -> rt_strncpy RT_NAME_MAX name = Some (padded RT_NAME_MAX l) ->
  ~ registered s RT_Object_Class_Timer (OTimer (TmThread t)) ->
  wp (rt_timer_init (TmThread t) name (TFThread t) 0 0) s (fun _ s' => exists s1 m c,
    wf s1 /\ sched_frame s s1 /\
    s' = set_k_timers (<[TmThread t := mkTimer (TFThread t) 0 0]> (k_timers s1)) (set_k_objects m (set_k_containers c s1)) /\
    m !! OTimer (TmThread t) = Some (mkObject (padded RT_NAME_MAX l) (Z.lor RT_Object_Class_Timer RT_Object_Class_Static) 0) /\
    forall o, o <> OTimer (TmThread t) -> m !! o = k_objects s1 !! o).
Proof.
  intros W Hl Hn Ho. unfold rt_timer_init, _rt_timer_init. kstep. eapply wp_mono.
  { by apply (rt_object_init_wp s (OTimer (TmThread t)) RT_Object_Class_Timer name l); [| |apply timer_info| |]. }
  intros _ s' (s1 & W1 & F & ->). kstep.
  eapply wp_mod_object; [unfold attach; kproj; apply lookup_insert_eq|]. kstep.
  eapply wp_mod_object; [kproj; apply lookup_insert_eq|]. apply wp_modify.
  eexists s1, _, _. split; [done|]. split; [done|]. split; [reflexivity|]. unfold attach. kproj.
  split; [by rewrite lookup_insert_eq|]. intros o Hne. by rewrite !lookup_insert_ne.
Qed.

(** _rt_thread_init, after the header of the thread object was attached. *)
Lemma _rt_thread_init_wp s1 t hd l entry par start size prio tick ex :
  kinv s1 -> 0 <= k_lock_nest s1 < 2 ^ 15 - 1 -> chars_ok l -> k_threads s1 !! t = None ->
  o_name hd = padded RT_NAME_MAX l -> Z.land (o_type hd) (Z.lnot RT_Object_Class_Static) = RT_Object_Class_Thread ->
  ~ registered s1 RT_Object_Class_Timer (OTimer (TmThread t)) -> stack_fits start size -> 0 <= prio < RT_THREAD_PRIORITY_MAX ->
  wp (_rt_thread_init t entry par start size prio tick ex) (attach (OThread t) hd RT_Object_Class_Thread s1) (fun r s' => r = RT_EOK /\ kinv s' /\
    k_lock_nest s' = k_lock_nest s1 /\ k_irq_nest s' = k_irq_nest s1 /\
    exists th, k_threads s' !! t = Some th /\ thread_step (new_thread (raw_thread s1 t) entry par start size prio tick ex) th).
Proof.
  intros [W1 T1] Hl Hc Hnone Hname Hcls Hr2 Hfit Hp. set (s2 := attach (OThread t) hd RT_Object_Class_Thread s1).
  unfold _rt_thread_init. cbv zeta. kstep. apply wp_assert; [apply Z.ltb_lt, Hp|]. kstep. kstep. kstep. kstep.
  change (raw_thread s2 t) with (raw_thread s1 t). set (th := new_thread (raw_thread s1 t) entry par start size prio tick ex).
  change (set_k_threads _ s2) with (upd_thread t th s2). set (s3 := upd_thread t th s2).
  assert (wf s3) as W3.
  { apply wf_new_thread; [by apply (wfx_same _ s1)|done| |split; [done|exact (stack_init_ok entry par start size ex Hfit)]|done].
    split; [done|by right]. }
  kstep. apply (wp_get_object _ hd); [unfold s3, s2, attach; kproj; apply lookup_insert_eq|]. kstep. eapply wp_mono.
  { apply (rt_timer_init_wp s3 t _ l); [done|done|rewrite Hname; by apply rt_strncpy_padded|].
    unfold registered. change (OTimer (TmThread t) ∉ object_list s2 RT_Object_Class_Timer). unfold s2.
    rewrite object_list_attach, decide_False by done. exact Hr2. }
  intros _ s' (s4 & m & c & W4 & F4 & -> & Hm & Hm'). kstep. split; [done|].
  destruct (sched_frame_objects s3 s4 F4) as (Eo4 & _ & L4 & I4).
  pose proof (sf_rest _ _ F4) as R4. apply rest_timers in R4 as (_ & Et4 & El4 & Es4).
  assert (k_threads s3 !! t = Some th) as Ht3 by (unfold s3; kproj; apply lookup_insert_eq).
  split; [split; [by apply (wfx_same _ s4)|]|split; [done|split; [done|destruct (sched_frame_lookup s3 s4 t th F4 Ht3) as (? & ? & ?); eauto]]].
  apply (tinv_new_thread s1 _ t).
  - done.
  - done.
  - intros u uth Hne Hu Hcl. kproj. destruct (sched_frame_lookup_inv s3 s4 u uth F4 Hu) as (x & Ex & [_ Hx]).
    unfold s3 in Ex. kproj. rewrite lookup_insert_ne in Ex by done. exists x. split; [done|].
    destruct Hx as [<-|[Hx _]]; [done|by apply runnable_open].
  - intros u uth Hne Hu Hcl. kproj. destruct (sched_frame_lookup s3 s4 u uth F4) as (x & Ex & [_ Hx]).
    { unfold s3. kproj. by rewrite lookup_insert_ne. }
    exists x. split; [done|]. destruct Hx as [->|[Hx _]]; [done|by apply runnable_not_suspended in Hx].
  - intros o Ho1 Ho2. kproj. rewrite Hm', Eo4 by done. unfold s3, s2, attach. kproj. by rewrite lookup_insert_ne.
  - intros tm Hne. kproj. rewrite lookup_insert_ne by done. by rewrite Et4.
  - kproj. by rewrite El4.
  - kproj. by rewrite Es4.
  - exists hd. kproj. split; [|done]. rewrite Hm', Eo4 by done. unfold s3, s2, attach. kproj. apply lookup_insert_eq.
  - eexists _, _. kproj. split; [exact Hm|]. split; [apply lookup_insert_eq|]. done.
Qed.

Lemma rt_thread_init_wp s t l entry par start size prio tick ex :
  kinv s -> 0 <= k_lock_nest s < 2 ^ 15 - 1 -> chars_ok l -> k_threads s !! t = None ->
  ~ registered s RT_Object_Class_Thread (OThread t) ->
  ~ registered s RT_Object_Class_Timer (OTimer (TmThread t)) ->
  start <> 0 -> stack_fits start size -> 0 <= prio < RT_THREAD_PRIORITY_MAX ->
  wp (rt_thread_init t (cstring l) entry par start size prio tick ex) s (fun r s' => r = RT_EOK /\ kinv s' /\
    k_lock_nest s' = k_lock_nest s /\ k_irq_nest s' = k_irq_nest s /\
    exists th, k_threads s' !! t = Some th /\ thread_step (new_thread (raw_thread s t) entry par start size prio tick ex) th).
Proof.
  intros Hk Hl Hc Hnone Hr1 Hr2 Hnz Hfit Hp. pose proof Hk as [W T]. unfold rt_thread_init. kstep.
  apply wp_assert; [by rewrite (proj2 (Z.eqb_neq _ _))|]. kstep. eapply wp_mono.
  { apply (rt_object_init_wp s (OThread t) RT_Object_Class_Thread (cstring l) l); auto using thread_info, rt_strncpy_ok. }
  intros _ s' (s1 & W1 & F1 & ->). destruct (sched_frame_objects s s1 F1) as (Eo & Ec & El & Ei).
  assert (k_threads s1 !! t = None) as Hnone1.
  { pose proof (sf_threads _ _ F1 t) as Hf. rewrite Hnone in Hf. by inversion Hf. }
  assert (raw_thread s1 t = raw_thread s t) as Er by (unfold raw_thread; by rewrite Hnone, Hnone1). rewrite <- Er, <- El, <- Ei.
  apply (_rt_thread_init_wp s1 t _ l); try done; [by apply (sched_kinv s)|by rewrite El|unfold registered, object_list; rewrite Ec; exact Hr2].
Qed.

(** Creating a thread on the heap: [t] and [start] are what the allocations
    returned. *)
Lemma rt_thread_create_wp s t l entry par start size prio tick ex :
  kinv s -> 0 <= k_lock_nest s < 2 ^ 15 - 1 -> k_irq_nest s = 0 -> chars_ok l -> k_threads s !! t = None ->
  ~ registered s RT_Object_Class_Timer (OTimer (TmThread t)) -> stack_fits start size -> 0 <= prio < RT_THREAD_PRIORITY_MAX ->
  wp (rt_thread_create (cstring l) entry par size prio tick ex (Some t) (Some start)) s (fun r s' => r = Some t /\ kinv s' /\
    k_lock_nest s' = k_lock_nest s /\ k_irq_nest s' = k_irq_nest s /\
    exists th, k_threads s' !! t = Some th /\ thread_step (new_thread (raw_thread s t) entry par start size prio tick ex) th).
Proof.
  intros Hk Hl Hi Hc Hnone Hr2 Hfit Hp. unfold rt_thread_create, rt_object_allocate, RT_DEBUG_NOT_IN_INTERRUPT. kstep. kstep. kstep. kstep. apply wp_assert; [by rewrite Hi|]. kstep. apply wp_assert; [by apply bool_decide_eq_true, thread_info|].
  cbn [fmap option_fmap option_map]. kstep. apply (wp_deref _ (padded RT_NAME_MAX l)); [by apply rt_strncpy_ok|]. unfold container_insert. kstep. kstep. kstep. kstep. kstep. kstep.
  eapply wp_mono; [apply (_rt_thread_init_wp s t (mkObject (padded RT_NAME_MAX l) RT_Object_Class_Thread 0) l entry par start size prio tick ex); done|].
  intros r s' (-> & H). kstep. by split.
Qed.

(** ** Changing a priority *)

Lemma set_priority_fields p th : 0 <= p < 32 ->
  th_current_priority (set_priority p th) = p /\ th_number_mask (set_priority p th) = 2 ^ p /\
  st (set_priority p th) = st th.
Proof.
  intros Hp. unfold set_priority. cbn. rewrite (u8_small p) by lia. by rewrite mask_pow.
Qed.

Lemma wfx_upd_prio X s t th p :
  wfx X s -> k_threads s !! t = Some th -> st th <> RT_THREAD_READY -> 0 <= p < 32 ->
  wfx X (upd_thread t (set_priority p th) s).
Proof.
  intros W Ht Hst Hp. destruct (set_priority_fields p th Hp) as (E1 & E2 & E3). destruct W. split; try done.
  - intros q u Hin. destruct (wf_place q u Hin) as (x & E & Hx). rewrite lookup_upd_thread. case_decide; [|eauto].
    simplify_eq. exists (set_priority p th). split; [done|].
    destruct q; cbn in Hx |- *; rewrite ?E3; [by destruct Hx|done..].
  - intros u uth. rewrite lookup_upd_thread. case_decide; intros; simplify_eq; [|eauto].
    split; [by rewrite E1|]. left. by rewrite E1, E2.
  - intros u uth. rewrite lookup_upd_thread. case_decide; intros; simplify_eq; [|eauto]. exact (wf_stack _ _ Ht).
  - intros u uth. rewrite lookup_upd_thread. case_decide; intros; simplify_eq; [|by apply wf_thread].
    destruct (wf_thread u th Ht H1) as (T1 & T2 & T3). unfold thread_ok. rewrite E1, E2, E3. done.
  - intros u Hc. destruct (wf_current u Hc) as (x & E & Hx). rewrite lookup_upd_thread. case_decide; [|eauto].
    simplify_eq. exists (set_priority p th). split; [done|]. unfold can_be_current. by rewrite E3.
Qed.

(** The queues after a change of priority: only a READY thread moves. *)
Definition reprioritised_queue (s : kst) (t : nat) (th : rt_thread) (p : Z) (q : qid) : list nat :=
  if decide (st th = RT_THREAD_READY) then woken_queue s t (set_priority p th) q else qget s q.

Lemma with_st_ready_id th : st th = RT_THREAD_READY -> with_st RT_THREAD_READY th = th.
Proof.
  intros H. unfold with_st. rewrite <- H. unfold st. rewrite <- Z.land_lor_distr_r, Z.lor_lnot_diag, Z.land_m1_r.
  by destruct th.
Qed.

Lemma with_st_with_st a th : with_st a (suspended th) = with_st a th.
Proof.
  unfold with_st, suspended. unfold with_st. cbn [th_stat set_th_stat].
  by rewrite Z.land_lor_distr_l, <- Z.land_assoc, Z.land_diag.
Qed.

Lemma change_priority_wp s t th p :
  kinv s -> k_threads s !! t = Some th -> st th <> RT_THREAD_CLOSE -> 0 <= p < 32 ->
  wp (rt_thread_control t RT_THREAD_CTRL_CHANGE_PRIORITY p) s (fun r s' => r = RT_EOK /\
    moved s s' t (set_priority p th) (reprioritised_queue s t th p)).
Proof.
  intros Hk Ht Hcl Hp. destruct (thread_typed s t th Hk Ht Hcl) as (ob & Eo & Hty). pose proof Hk as [W T].
  destruct (set_priority_fields p th Hp) as (E1 & E2 & E3).
  unfold rt_thread_control. kstep. apply (wp_assert_type _ ob); [done|done|]. rewrite Z.eqb_refl. kstep.
  apply wp_valid; [rewrite u8_small by lia; apply Z.ltb_lt, Hp|]. kstep.
  apply (wp_get_thread _ th); [done|]. kstep.
  destruct (Z.eqb_spec (st th) RT_THREAD_READY) as [Hr|Hr].
  2:{ apply (wp_mod_thread _ _ th); [done|]. kstep. split; [done|]. split; [|by apply kframe_same|done| |done].
      2:{ intros q. unfold reprioritised_queue. by rewrite decide_False. }
      split; [by apply wfx_upd_prio|]. by apply (tinv_upd_thread _ _ th). }
  kstep. eapply wp_mono.
  { apply (rt_schedule_remove_thread_wp {[t]} s t th); [by apply (wfx_weaken ∅)|done|left; set_solver]. }
  intros _ s1 (W1 & g & ->). kstep. apply (wp_mod_thread _ _ th); [done|].
  set (s2 := upd_thread t (set_priority p th) (set_k_ready_group g (unlink t s))).
  assert (k_current s <> Some t) as Hc.
  { intros Hc. eapply (current_not_ready s t (th_current_priority th)); [done|done|].
    apply (wf_thread W t th Ht); [set_solver|done]. }
  assert (detached s2 t) as Hd by (intros q; unfold s2; qsimp; rewrite elem_of_without; tauto).
  assert (wfx {[t]} s2) as W2.
  { apply (wfx_upd_exempt _ _ _ th); [done|done|set_solver|by intros q; specialize (Hd q); unfold s2 in Hd; qsimp| |exact (wf_stack W _ _ Ht)].
    split; [by rewrite E1|]. left. by rewrite E1, E2. }
  eapply wp_mono.
  { apply (rt_schedule_insert_thread_wp ∅ s2 t (set_priority p th)); [by rewrite (right_id_L ∅ (∪))|unfold s2; kproj; apply lookup_insert_eq|done|].
    by rewrite E1, E2. }
  intros _ s3 [W3 ->]. unfold inserted. rewrite decide_False by done.
  unfold inserted in W3. rewrite decide_False in W3 by done.
  assert (k_threads (ready_insert t (set_priority p th) s2) = <[t := set_priority p th]> (k_threads s)) as Eth.
  { unfold ready_insert, s2. kproj. rewrite insert_insert_eq, with_st_ready_id by (by rewrite E3). done. }
  kstep. split; [done|]. split; [split; [done|]|by apply kframe_same|done| |done].
  - apply (tinv_same s); try done; intros u uth; rewrite Eth, lookup_insert; case_decide; subst; intros; simplify_eq; eauto.
  - intros q. unfold reprioritised_queue. rewrite decide_True by done. unfold woken_queue, ready_insert, s2. qsimp. rewrite E1.
    destruct (decide (QReady p = q)) as [<-|Hne].
    + by rewrite decide_True.
    + rewrite decide_False by (intros [_ ->]; done). by rewrite app_nil_r.
Qed.

(** ** Properties *)

(** Suspending a ready thread and resuming it.  The thread leaves its ready
    queue for the time in between, comes back with its record unchanged, and has
    lost its turn: it stands at the tail of the queue of its priority.  Every
    other list is as it was, and the invariant holds throughout. *)
Theorem suspend_resume s t th :
  kinv s -> k_threads s !! t = Some th -> st th = RT_THREAD_READY ->
  wp (rt_thread_suspend t) s (fun r s1 => r = RT_EOK /\ kinv s1 /\ (forall q, t ∉ qget s1 q) /\
    wp (rt_thread_resume t) s1 (fun r s2 => r = RT_EOK /\ kinv s2 /\ k_threads s2 = k_threads s /\
      qget s2 (QReady (th_current_priority th)) = without t (qget s (QReady (th_current_priority th))) ++ [t] /\
      forall q, q <> QReady (th_current_priority th) -> qget s2 q = qget s q)).
Proof.
  intros Hk Ht Hst. assert (k_current s <> Some t) as Hc.
  { intros Hc. eapply (current_not_ready s t (th_current_priority th)); [apply Hk|done|].
    apply (wf_thread (proj1 Hk) t th Ht); [set_solver|done]. }
  assert (forall q, q <> QReady (th_current_priority th) -> t ∉ qget s q) as Hother.
  { intros q Hq Hin. apply Hq. eapply (wf_unique (proj1 Hk)); [done|]. apply (wf_thread (proj1 Hk) t th Ht); [set_solver|done]. }
  eapply wp_mono; [apply (rt_thread_suspend_wp s t th Hk Ht); by left|].
  intros r s1 (-> & [M1 M2 M3 M4 M5] & Hn). split; [done|]. split; [done|]. split.
  { intros q. rewrite M4, elem_of_without. tauto. }
  eapply wp_mono.
  { apply (rt_thread_resume_wp s1 t (suspended th)); [done|rewrite M3; apply lookup_insert_eq|by apply st_with_st]. }
  intros r s2 (-> & [N1 N2 N3 N4 N5] & Hn2). split; [done|]. split; [done|].
  assert (woken s1 t (suspended th) = th) as Ew.
  { unfold woken. rewrite M5, decide_False by done. rewrite <- (with_st_ready_id th) at 2 by done.
    by apply with_st_with_st. }
  split; [by rewrite N3, Ew, M3, insert_insert_eq, insert_id|].
  split; [|intros q Hq]; rewrite N4; unfold woken_queue; rewrite M4, M5, without_notin by (rewrite elem_of_without; tauto).
  - by rewrite decide_True.
  - rewrite decide_False by (intros [_ ->]; done). by rewrite app_nil_r, without_notin by auto.
Qed.

Lemma suspend_resume_witness :
  wp (rt_thread_suspend 2) sample (fun r s1 => r = RT_EOK /\ kinv s1 /\ (forall q, 2%nat ∉ qget s1 q) /\
    wp (rt_thread_resume 2) s1 (fun r s2 => r = RT_EOK /\ kinv s2 /\ k_threads s2 = k_threads sample /\
      qget s2 (QReady 10) = without 2%nat (qget sample (QReady 10)) ++ [2%nat] /\
      forall q, q <> QReady 10 -> qget s2 q = qget sample q)).
Proof.
  apply (suspend_resume sample 2 (sample_thread 10 RT_THREAD_READY)); [exact sample_kinv|vm_compute; reflexivity|reflexivity].
Defined.

(** Bringing up a thread.  rt_thread_init of a fresh, static thread object
    on a stack that holds the first frame, followed by rt_thread_startup,
    satisfies every assertion and keeps the kernel invariant; the thread ends up
    READY or RUNNING, at the priority it was created with, with the bit mask of
    that priority and a full time slice. *)
Theorem rt_thread_init_startup s t l entry par start size prio tick ex :
  kinv s -> 0 <= k_lock_nest s < 2 ^ 15 - 1 -> chars_ok l -> k_threads s !! t = None ->
  ~ registered s RT_Object_Class_Thread (OThread t) ->
  ~ registered s RT_Object_Class_Timer (OTimer (TmThread t)) ->
  start <> 0 -> stack_fits start size -> 0 <= prio < RT_THREAD_PRIORITY_MAX ->
  wp (rt_thread_init t (cstring l) entry par start size prio tick ex ;; rt_thread_startup t) s (fun r s' =>
    r = RT_EOK /\ kinv s' /\ exists th, k_threads s' !! t = Some th /\ runnable th /\
      th_current_priority th = prio /\ th_number_mask th = 2 ^ prio /\ th_remaining_tick th = tick /\
      th_entry th = entry /\ th_parameter th = par).
Proof.
  intros Hk Hl Hch Hnone Hr1 Hr2 Hnz Hfit Hp. kstep. eapply wp_mono; [by apply rt_thread_init_wp|].
  intros r s1 (-> & Hk1 & _ & _ & th & Ht & [Eth Hst]).
  assert (st th = RT_THREAD_INIT) as Hst'.
  { destruct Hst as [->|[Hr _]]; [done|]. by destruct Hr as [Hr|Hr]. }
  assert (forall A (f : rt_thread -> A), (forall x, f (set_th_stat 0 x) = f x) ->
    f th = f (new_thread (raw_thread s t) entry par start size prio tick ex)) as Hf.
  { intros A f Hf. rewrite <- (Hf th), Eth. apply Hf. }
  pose proof (Hf _ th_init_priority ltac:(done)) as E1. pose proof (Hf _ th_remaining_tick ltac:(done)) as E2.
  pose proof (Hf _ th_entry ltac:(done)) as E3. pose proof (Hf _ th_parameter ltac:(done)) as E4. cbn in E1, E2, E3, E4.
  eapply wp_mono; [apply (rt_thread_startup_wp s1 t th Hk1 Ht Hst'); by rewrite E1|].
  intros r s2 (-> & Hk2 & s3 & [M1 M2 M3 M4 M5] & F). split; [done|]. split; [done|].
  destruct (sched_frame_lookup s3 s2 t (with_st RT_THREAD_READY (started th)) F) as (th' & Et' & Hstep).
  { rewrite M3. apply lookup_insert_eq. }
  exists th'. split; [done|]. split.
  { destruct Hstep as [_ [E|[_ Hx]]]; [|done]. left. rewrite E. by apply st_with_st. }
  destruct Hstep as [E _]. assert (forall A (f : rt_thread -> A), (forall x, f (set_th_stat 0 x) = f x) ->
    f th' = f (with_st RT_THREAD_READY (started th))) as Hg.
  { intros A f Hg. rewrite <- (Hg th'), E. apply Hg. }
  rewrite (Hg _ th_current_priority), (Hg _ th_number_mask), (Hg _ th_remaining_tick), (Hg _ th_entry), (Hg _ th_parameter) by done.
  cbn. rewrite E1. done.
Qed.

Lemma sample_fresh_thread cls : ~ registered sample cls (OThread 9) /\ ~ registered sample cls (OTimer (TmThread 9)).
Proof.
  split; intros H; destruct (ci_header _ sample_cinv _ _ H) as (ob & l & E & _); vm_compute in E; done.
Qed.

Lemma rt_thread_init_startup_witness :
  wp (rt_thread_init 9 (cstring [116]) 0x8001 0 0x20001000 256 7 20 0x8100 ;; rt_thread_startup 9) sample (fun r s' =>
    r = RT_EOK /\ kinv s' /\ exists th, k_threads s' !! 9%nat = Some th /\ runnable th /\
      th_current_priority th = 7 /\ th_number_mask th = 2 ^ 7 /\ th_remaining_tick th = 20 /\
      th_entry th = 0x8001 /\ th_parameter th = 0).
Proof.
  apply rt_thread_init_startup; [exact sample_kinv|vm_compute; split; [discriminate|reflexivity]|repeat constructor; lia|
    vm_compute; reflexivity|apply sample_fresh_thread|apply sample_fresh_thread|discriminate| |];
    vm_compute; repeat split; discriminate.
Defined.

(** C23: a thread that ends is gone from the kernel's lists.  rt_thread_exit on
    the current thread, rt_thread_detach on a static one and rt_thread_delete on
    a heap one close the thread: its state is CLOSE, its timer is stopped, it is
    in no list but, when it has memory to free or a cleanup to run, the defunct
    list, and the kernel invariant holds. *)
Theorem thread_closed s t th ob :
  kinv s -> k_threads s !! t = Some th -> st th <> RT_THREAD_CLOSE -> k_objects s !! OThread t = Some ob ->
  (k_current s = Some t -> wp rt_thread_exit s (fun _ s' => kinv s' /\ exists s1,
     closed_post s s1 t th (goes_defunct ob th) /\ sched_frame s1 s')) /\
  (Z.land (o_type ob) RT_Object_Class_Static <> 0 ->
     wp (rt_thread_detach t) s (fun r s' => r = RT_EOK /\ closed_post s s' t th (goes_defunct ob th))) /\
  (Z.land (o_type ob) RT_Object_Class_Static = 0 ->
     wp (rt_thread_delete t) s (fun r s' => r = RT_EOK /\ closed_post s s' t th true)).
Proof.
  intros Hk Ht Hst Eo. split_and!.
  - intros Hc. eapply wp_mono; [by apply (rt_thread_exit_wp s t th)|].
    intros [] s' (ob' & s1 & Eo' & H1 & F & Hk' & _). simplify_eq. eauto.
  - intros Hs. by apply (rt_thread_detach_wp s t th ob).
  - intros Hs. by apply (rt_thread_delete_wp s t th ob).
Qed.

Lemma thread_closed_witness :
  wp rt_thread_exit sample (fun _ s' => kinv s' /\ exists s1,
    closed_post sample s1 1 (sample_thread 10 RT_THREAD_RUNNING) false /\ sched_frame s1 s').
Proof.
  refine (proj1 (thread_closed sample 1 (sample_thread 10 RT_THREAD_RUNNING) (sample_header RT_Object_Class_Thread 0)
    sample_kinv _ _ _) eq_refl); vm_compute; first [reflexivity|discriminate].
Defined.

(** Rt_thread_control changes priorities safely.  For a priority below
    RT_THREAD_PRIORITY_MAX the command succeeds on any thread that is not closed
    and keeps the invariant: a READY thread moves to the tail of the queue of
    the new priority, any other keeps its place, and priority and bit mask agree
    afterwards. *)
Theorem change_priority_correct s t th p :
  kinv s -> k_threads s !! t = Some th -> st th <> RT_THREAD_CLOSE -> 0 <= p < RT_THREAD_PRIORITY_MAX ->
  exists s' th', rt_thread_control t RT_THREAD_CTRL_CHANGE_PRIORITY p s = Ok RT_EOK s' /\ kinv s' /\
    k_threads s' = <[t := th']> (k_threads s) /\ th_current_priority th' = p /\ th_number_mask th' = 2 ^ p /\
    st th' = st th /\ forall q, qget s' q =
      if decide (st th = RT_THREAD_READY) then without t (qget s q) ++ (if decide (q = QReady p) then [t] else [])
      else qget s q.
Proof.
  intros Hk Ht Hst Hp. destruct (wp_run _ _ _ (change_priority_wp s t th p Hk Ht Hst Hp)) as (r & s' & E & -> & [M1 M2 M3 M4 M5]).
  destruct (set_priority_fields p th Hp) as (E1 & E2 & E3).
  exists s', (set_priority p th). split_and!; try done. intros q. rewrite M4. unfold reprioritised_queue, woken_queue.
  case_decide as Hr; [|done]. rewrite E1. f_equal. destruct (decide (q = QReady p)) as [->|Hne].
  - rewrite decide_True; [done|]. split; [|done]. intros Hc.
    eapply (current_not_ready s t (th_current_priority th)); [apply Hk|done|].
    apply (wf_thread (proj1 Hk) t th Ht); [set_solver|done].
  - by rewrite decide_False by tauto.
Qed.

Lemma change_priority_correct_witness :
  exists s' th', rt_thread_control 2 RT_THREAD_CTRL_CHANGE_PRIORITY 4 sample = Ok RT_EOK s' /\ kinv s' /\
    k_threads s' = <[2%nat := th']> (k_threads sample) /\ th_current_priority th' = 4 /\ th_number_mask th' = 2 ^ 4 /\
    st th' = RT_THREAD_READY /\ forall q, qget s' q =
      if decide (RT_THREAD_READY = RT_THREAD_READY) then without 2%nat (qget sample q) ++ (if decide (q = QReady 4) then [2%nat] else [])
      else qget sample q.
Proof.
  apply (change_priority_correct sample 2 (sample_thread 10 RT_THREAD_READY)); [exact sample_kinv|vm_compute; reflexivity|
    discriminate|vm_compute; split; [discriminate|reflexivity]].
Defined.

(** Rt_thread_yield does not yield to threads of the same priority.  The
    routine only runs a scheduling pass; unless the tick has already marked the
    thread, a running thread that calls it stays current, whatever other threads
    of its priority are ready (the comment says it yields the processor). *)
Theorem rt_thread_yield_keeps_running s c cth :
  kinv s -> k_current s = Some c -> k_threads s !! c = Some cth -> st cth = RT_THREAD_RUNNING ->
  Z.land (th_stat cth) RT_THREAD_STAT_YIELD = 0 ->
  (forall p, 0 <= p < th_current_priority cth -> qget s (QReady p) = []) ->
  exists s', rt_thread_yield s = Ok RT_EOK s' /\ k_current s' = Some c.
Proof.
  intros Hk Hc Ht Hr Hy Hlow. unfold rt_thread_yield. destruct (decide (k_lock_nest s = 0)) as [Hl|Hl].
  2:{ exists s. split; [|done]. by rewrite (bind_ok _ _ _ tt s) by (by apply rt_schedule_locked). }
  destruct (wp_run _ _ _ (rt_schedule_wp s c cth (proj1 Hk) Hc Ht Hl)) as ([] & s' & E & [P1 P2 P3 P4]).
  exists s'. split; [by rewrite (bind_ok _ _ _ tt s')|].
  destruct (decide (k_ready_group s = 0)) as [Hg|Hg]; [by rewrite P3|].
  destruct (wp_run _ _ _ (get_highest_wp _ s (proj1 Hk) Hg)) as ([t p] & ? & _ & _ & Hh). cbn in Hh.
  destruct (P4 t p Hh) as (-> & _). unfold sched_choice. rewrite Hr, Hy, !Z.eqb_refl. cbn [andb].
  destruct Hh as (Hp & Hhd & _). destruct (Z.lt_trichotomy (th_current_priority cth) p) as [Hlt|[->|Hgt]].
  - by rewrite (proj2 (Z.ltb_lt _ _)).
  - by rewrite Z.eqb_refl, orb_true_r.
  - rewrite Hlow in Hhd by lia. done.
Qed.

Lemma rt_thread_yield_keeps_running_witness :
  qget sample (QReady 10) = [2%nat] /\
  exists s', rt_thread_yield sample = Ok RT_EOK s' /\ k_current s' = Some 1%nat.
Proof.
  split; [reflexivity|].
  apply (rt_thread_yield_keeps_running sample 1 (sample_thread 10 RT_THREAD_RUNNING));
    [exact sample_kinv|reflexivity|vm_compute; reflexivity|reflexivity|reflexivity|].
  intros p Hp. change (th_current_priority _) with 10 in Hp. unfold qget.
  change (k_queues sample) with (<[QReady 31 := [0%nat]]> (<[QReady 10 := [2%nat]]> (<[QSem 0 := [3%nat]]> (∅ : gmap qid (list nat))))).
  rewrite !lookup_insert_ne by (intros [= E]; lia). reflexivity.
Defined.
