(* ===== verification/TimerRun.v ===== *)
(** * Running timers (src/timer.c): rt_timer_start, rt_timer_check, the soft timers

    [user f p] stands for the timeout functions of the applications, which are
    not part of the kernel: the routines take it as an argument, and the theorems
    say what they need of it ([callback_ok]). *)

From S2P Require Import Prelude Ffs KState Wf Inv Sched Object Timer Thread.

(** The timer thread is a static object: until rt_system_timer_thread_init has
    run its state field is zero, which is not RT_THREAD_SUSPEND. *)
Definition wake_timer_thread : K unit :=
  timer_thread <- gets k_timer_thread ;;
  match timer_thread with
  | Some t =>
      th <- get_thread t ;;
      if st th =? RT_THREAD_SUSPEND then rt_thread_resume t ;; rt_schedule else ret tt
  | None => ret tt
  end.

Definition rt_timer_start (tm : tmid) : K Z :=
  rt_timer_enqueue tm ;;
  ob <- get_object (OTimer tm) ;;
  when (flag_test RT_TIMER_FLAG_SOFT_TIMER ob) wake_timer_thread ;;
  ret RT_EOK.

(** [current_tick - timeout_tick < RT_TICK_MAX / 2] *)
Definition timed_out (current_tick : Z) (ti : rt_timer) : bool :=
  u32 (current_tick - tm_timeout_tick ti) <? TICK_HALF.

(** The end of an iteration: a periodic timer that is still active starts again,
    any other becomes inactive. *)
Definition timer_rearm (tm : tmid) : K unit :=
  ob <- get_object (OTimer tm) ;;
  if flag_test RT_TIMER_FLAG_PERIODIC ob && flag_test RT_TIMER_FLAG_ACTIVATED ob then
    mod_object (OTimer tm) (flag_clear RT_TIMER_FLAG_ACTIVATED) ;;
    rt_timer_start tm ;;
    ret tt
  else mod_object (OTimer tm) (flag_clear RT_TIMER_FLAG_ACTIVATED).

Section check.
Variable user : Z -> Z -> K unit.

Definition call_timeout (f : timeout_fn) : K unit :=
  match f with TFThread t => rt_thread_timeout t | TFUser f p => user f p end.

(** The loop of rt_timer_check; each iteration uses one unit of fuel. *)
Fixpoint timer_check_loop (fuel : nat) (current_tick : Z) : K unit :=
  match fuel with
  | O => nofuel
  | S fuel =>
      l <- gets k_timer_list ;;
      match l with
      | [] => ret tt
      | t :: _ =>
          ti <- get_timer t ;;
          if timed_out current_tick ti then
            _rt_timer_remove t ;;
            call_timeout (tm_func ti) ;;
            current_tick <- gets k_tick ;;
            timer_rearm t ;;
            timer_check_loop fuel current_tick
          else ret tt
      end
  end.

Definition rt_timer_check (fuel : nat) : K unit :=
  current_tick <- gets k_tick ;; timer_check_loop fuel current_tick.

(** [n->next] in the soft timer list: [None] is the list head; a node that is
    in no list points to itself. *)
Fixpoint next_node (l : list tmid) (tm : tmid) : option tmid :=
  match l with
  | [] => Some tm
  | x :: l => if decide (x = tm) then head l else next_node l tm
  end.

Fixpoint soft_check_loop (fuel : nat) (current_tick : Z) (n : option tmid) : K unit :=
  match fuel with
  | O => nofuel
  | S fuel =>
      match n with
      | None => rt_exit_critical
      | Some t =>
          ti <- get_timer t ;;
          if timed_out current_tick ti then
            n <- gets (fun s => next_node (k_soft_timer_list s) t) ;;
            _rt_timer_remove t ;;
            rt_exit_critical ;;
            call_timeout (tm_func ti) ;;
            current_tick <- gets k_tick ;;
            rt_enter_critical ;;
            timer_rearm t ;;
            soft_check_loop fuel current_tick n
          else rt_exit_critical
      end
  end.

Definition rt_soft_timer_check (fuel : nat) : K unit :=
  current_tick <- gets k_tick ;;
  rt_enter_critical ;;
  n <- gets (fun s => head (k_soft_timer_list s)) ;;
  soft_check_loop fuel current_tick n.
End check.

(** ** rt_timer_start *)

(** What the routines below need of the timer thread, once it exists. *)
Definition timer_thread_exists (s : kst) : Prop :=
  forall t, k_timer_thread s = Some t -> is_Some (k_threads s !! t).

Lemma wake_timer_thread_wp s :
  kinv s -> is_Some (k_current s) -> timer_thread_exists s ->
  wp wake_timer_thread s (fun _ s' => kinv s' /\ kframe s s' /\ is_Some (k_current s') /\
    (forall t, is_Some (k_threads s !! t) -> is_Some (k_threads s' !! t))).
Proof.
  intros Hk Hc Htt. unfold wake_timer_thread. kstep. kstep. destruct (k_timer_thread s) as [t|] eqn:Et.
  2:{ kstep. auto using kframe_refl. }
  destruct (Htt t Et) as [th Ht]. kstep. apply (wp_get_thread _ th); [done|].
  destruct (Z.eqb_spec (st th) RT_THREAD_SUSPEND) as [Hst|Hst].
  2:{ kstep. auto using kframe_refl. }
  kstep. eapply wp_mono; [by apply (rt_thread_resume_wp s t th)|].
  intros r s1 (_ & [M1 M2 M3 M4 M5] & _). eapply wp_mono; [apply rt_schedule_kinv; [done|by rewrite M5]|].
  intros [] s2 (Hk2 & F & Hc2). split; [done|]. split; [eapply kframe_trans; eauto using sched_kframe|]. split; [done|].
  intros u [uth Hu]. assert (is_Some (k_threads s1 !! u)) as [x Hx].
  { rewrite M3, lookup_insert. case_decide; eauto. }
  destruct (sched_frame_lookup s1 s2 u x F Hx) as (? & ? & _). eauto.
Qed.

Lemma rt_timer_start_hard_wp s tm ti ob :
  kinv s -> k_objects s !! OTimer tm = Some ob ->
  Z.land (o_type ob) (Z.lnot RT_Object_Class_Static) = RT_Object_Class_Timer ->
  flag_test RT_TIMER_FLAG_SOFT_TIMER ob = false ->
  k_timers s !! tm = Some ti -> tm_init_tick ti < TICK_HALF ->
  (forall t, tm = TmThread t -> exists th, k_threads s !! t = Some th /\ st th = RT_THREAD_SUSPEND) ->
  let due := u32 (k_tick s + tm_init_tick ti) in
  wp (rt_timer_start tm) s (fun r s' => r = RT_EOK /\ kinv s' /\ tframe s s' /\
    k_timers s' = <[tm := set_tm_timeout_tick due ti]> (k_timers s) /\
    k_objects s' = <[OTimer tm := flag_set RT_TIMER_FLAG_ACTIVATED (flag_clear RT_TIMER_FLAG_ACTIVATED ob)]> (k_objects s) /\
    enqueued s tm due (k_timer_list s) (k_timer_list s') /\
    k_soft_timer_list s' = without tm (k_soft_timer_list s)).
Proof.
  intros Hk Eo Hty Hsoft Et Hti Hth due. unfold rt_timer_start. kstep. eapply wp_mono.
  { apply (rt_timer_enqueue_wp s tm ti ob); [apply Hk|done..|]. intros t ->. split; [|by apply Hth].
    unfold flag_test in Hsoft. by apply negb_false_iff, Z.eqb_eq in Hsoft. }
  intros _ s' (F & T & Etm & Eob & Hl). rewrite Hsoft in Hl. destruct Hl as [Hl Hs].
  kstep. eapply wp_get_object; [rewrite Eob; apply lookup_insert_eq|].
  assert (flag_test RT_TIMER_FLAG_SOFT_TIMER (flag_set RT_TIMER_FLAG_ACTIVATED (flag_clear RT_TIMER_FLAG_ACTIVATED ob)) = false) as ->.
  { unfold flag_test in *. cbn. by rewrite Z.land_lor_distr_l, <- Z.land_assoc, Z.lor_0_r. }
  unfold when. kstep. kstep. kstep. split; [done|]. split; [by apply (tframe_kinv s)|]. done.
Qed.

(** ** rt_timer_check *)

Definition expired (s : kst) (tm : tmid) : Prop :=
  exists ti, k_timers s !! tm = Some ti /\ u32 (k_tick s - tm_timeout_tick ti) < TICK_HALF.
Lemma timed_out_spec tick ti : timed_out tick ti = true <-> u32 (tick - tm_timeout_tick ti) < TICK_HALF.
Proof. apply Z.ltb_lt. Qed.
#[global] Instance expired_dec s tm : Decision (expired s tm).
Proof.
  refine (match k_timers s !! tm as x return k_timers s !! tm = x -> _ with
    | Some ti => fun E => cast_if (decide (u32 (k_tick s - tm_timeout_tick ti) < TICK_HALF))
    | None => fun E => right _ end eq_refl); unfold expired; rewrite E; naive_solver.
Defined.

Definition due_timers (s : kst) : list tmid := filter (expired s) (k_timer_list s).

(** The hard timer list holds hard timers, periodic timers have a period, and
    the timers of their own call application functions. *)
Record timers_sane (s : kst) : Prop := {
  ts_hard : forall tm ob, tm ∈ k_timer_list s -> k_objects s !! OTimer tm = Some ob ->
    flag_test RT_TIMER_FLAG_SOFT_TIMER ob = false;
  ts_period : forall tm ob ti, k_objects s !! OTimer tm = Some ob -> k_timers s !! tm = Some ti ->
    flag_test RT_TIMER_FLAG_PERIODIC ob = true -> 1 <= tm_init_tick ti < TICK_HALF;
  ts_user : forall n ti, k_timers s !! TmUser n = Some ti -> exists f p, tm_func ti = TFUser f p
}.

(** What rt_timer_check relies on between two iterations. *)
Definition check_inv (s : kst) : Prop := kinv s /\ is_Some (k_current s) /\ timers_sane s.

(** A timer the loop of rt_timer_check is working on: it exists and is hard. *)
Definition hard_timer (s : kst) (tm : tmid) : Prop :=
  is_Some (k_timers s !! tm) /\ exists ob, k_objects s !! OTimer tm = Some ob /\
    Z.land (o_type ob) (Z.lnot RT_Object_Class_Static) = RT_Object_Class_Timer /\
    flag_test RT_TIMER_FLAG_SOFT_TIMER ob = false /\
    (forall t, tm = TmThread t -> flag_test RT_TIMER_FLAG_PERIODIC ob = false /\ tm ∉ all_timers s).

(** The contract of a timeout function, called with its timer [tm] off the
    list: it keeps the invariant, does not move the clock, starts no timer that
    is due at once, and does not delete timer [tm]. *)
Definition callback_ok (m : K unit) (tm : tmid) (s : kst) : Prop :=
  wp m s (fun _ s' => check_inv s' /\ (k_tick s' = k_tick s /\ k_irq_nest s' = k_irq_nest s) /\
    (length (due_timers s') <= length (due_timers s))%nat /\ hard_timer s' tm).

Lemma sched_frame_timers s s' : sched_frame s s' -> k_objects s' = k_objects s /\ k_timers s' = k_timers s /\
  k_timer_list s' = k_timer_list s /\ k_soft_timer_list s' = k_soft_timer_list s /\ k_tick s' = k_tick s.
Proof. intros F. pose proof (sf_rest _ _ F) as R. unfold rest in R. by injection R. Qed.

Lemma timers_sane_same s s' :
  k_objects s' = k_objects s -> k_timers s' = k_timers s ->
  (forall tm, tm ∈ k_timer_list s' -> tm ∈ k_timer_list s) -> timers_sane s -> timers_sane s'.
Proof. intros E1 E2 E3 [H1 H2 H3]. split; rewrite ?E1, ?E2; eauto. Qed.

Lemma due_timers_same s s' :
  k_timers s' = k_timers s -> k_timer_list s' = k_timer_list s -> k_tick s' = k_tick s -> due_timers s' = due_timers s.
Proof.
  intros E1 E2 E3. unfold due_timers. rewrite E2. apply list_filter_iff. intros tm. unfold expired. by rewrite E1, E3.
Qed.

(** The state with timer [tm] taken off the lists. *)
Definition unlisted (tm : tmid) (s : kst) : kst :=
  set_k_soft_timer_list (without tm (k_soft_timer_list s)) (set_k_timer_list (without tm (k_timer_list s)) s).

Lemma unlisted_kinv s tm : kinv s -> tm ∈ all_timers s -> kinv (unlisted tm s).
Proof.
  intros [W T] Hin. split; [by apply (wfx_same _ s)|]. destruct (ti_listed T tm Hin) as (Htm & ob & Eo & Hty).
  apply (tinv_timer_update s _ tm ob ob); try done; unfold unlisted; kproj.
  - by rewrite insert_id.
  - rewrite all_timers_without. apply NoDup_without, T.
  - intros tm' Hne. rewrite elem_of_without. tauto.
  - intros tm' Hne. rewrite elem_of_without. tauto.
  - rewrite all_timers_without, elem_of_without. tauto.
Qed.

Lemma unlisted_check_inv s tm l :
  check_inv s -> k_timer_list s = tm :: l -> expired s tm ->
  check_inv (unlisted tm s) /\ hard_timer (unlisted tm s) tm /\
  length (due_timers s) = S (length (due_timers (unlisted tm s))).
Proof.
  intros (Hk & Hc & Hs) El Hx. assert (tm ∈ k_timer_list s) as Hin by (rewrite El; left).
  assert (tm ∈ all_timers s) as Hin' by (apply elem_of_app; auto).
  destruct (ti_listed (proj2 Hk) tm Hin') as (Htm & ob & Eo & Hty).
  split; [split; [by apply unlisted_kinv|split; [done|]]|split].
  - apply (timers_sane_same s); [done|done| |done]. intros t [_ Ht]%elem_of_without. done.
  - split; [done|]. exists ob. split_and!; [done|done|by apply (ts_hard s Hs tm)|]. intros t ->.
    destruct (ti_wait (proj2 Hk) t Hin') as (_ & _ & th & Eth & Hst).
    destruct (ti_thread (proj2 Hk) t th Eth) as (_ & x & ti & Ex & _ & _ & Hfl & _); [by rewrite Hst|]. simplify_eq. split.
    + unfold flag_test. apply negb_false_iff, Z.eqb_eq.
      replace RT_TIMER_FLAG_PERIODIC with (Z.land (Z.lor RT_TIMER_FLAG_PERIODIC RT_TIMER_FLAG_SOFT_TIMER) RT_TIMER_FLAG_PERIODIC) by done.
      by rewrite Z.land_assoc, Hfl.
    + unfold unlisted. rewrite all_timers_without, elem_of_without. tauto.
  - assert (NoDup (k_timer_list s)) as Hnd.
    { pose proof (ti_nodup (proj2 Hk)) as Hnd. by apply NoDup_app in Hnd as [? _]. }
    assert (due_timers (unlisted tm s) = filter (expired s) l) as ->.
    { unfold due_timers, unlisted. kproj. rewrite El in *. rewrite without_head by done. by apply list_filter_iff. }
    unfold due_timers. by rewrite El, filter_cons, decide_True.
Qed.

(** rt_thread_timeout as the callback of its thread's timer. *)
Lemma thread_timeout_callback s t :
  check_inv s -> TmThread t ∈ all_timers s -> TmThread t ∈ k_timer_list s ->
  hard_timer (unlisted (TmThread t) s) (TmThread t) -> check_inv (unlisted (TmThread t) s) ->
  callback_ok (rt_thread_timeout t) (TmThread t) (unlisted (TmThread t) s).
Proof.
  intros (Hk & _ & _) Hin Hin' Hhard (Hk1 & Hc1 & Hs1). destruct (ti_wait (proj2 Hk) t Hin) as (_ & _ & th & Eth & Hst).
  eapply wp_mono.
  { apply (rt_thread_timeout_wp _ t th); [done|done|done| |done].
    unfold unlisted. rewrite all_timers_without, elem_of_without. tauto. }
  intros [] s' (Hk' & Hc' & s2 & [M1 M2 M3 M4 M5] & F & E1 & E2 & E3 & E4).
  destruct (sched_frame_timers s2 s' F) as (F1 & F2 & F3 & F4 & F5).
  assert (k_tick s' = k_tick (unlisted (TmThread t) s) /\ k_irq_nest s' = k_irq_nest (unlisted (TmThread t) s)) as [Etick Eirq].
  { destruct (sched_frame_objects s2 s' F) as (_ & _ & _ & ->). rewrite F5. destruct M2 as [M2 _]. unfold misc in M2. by injection M2. }
  split; [|split; [done|split]].
  - split; [done|split; [done|]]. apply (timers_sane_same (unlisted (TmThread t) s)); [congruence|congruence| |done].
    intros tm. by rewrite F3, E3.
  - rewrite (due_timers_same (unlisted (TmThread t) s) s') by congruence. done.
  - unfold hard_timer, all_timers in *. rewrite F1, F2, F3, F4, E1, E2, E3, E4. done.
Qed.

(** A timer that was just started with a period is not due. *)
Lemma started_not_due now n ti : 1 <= n < TICK_HALF -> tm_timeout_tick ti = u32 (now + n) -> timed_out now ti = false.
Proof.
  rewrite TICK_HALF_val. intros Hn E. unfold timed_out. rewrite E. apply Z.ltb_ge. unfold u32.
  rewrite Zminus_mod_idemp_r. replace (now - (now + n)) with (- n) by lia.
  rewrite <- (Zmod_unique (- n) (2 ^ 32) (-1) (2 ^ 32 - n)) by lia. rewrite TICK_HALF_val. lia.
Qed.

Lemma filter_length_le {A} (P Q : A -> Prop) `{!forall x, Decision (P x)} `{!forall x, Decision (Q x)} l :
  (forall x, x ∈ l -> P x -> Q x) -> (length (filter P l) <= length (filter Q l))%nat.
Proof.
  induction l as [|a l IH]; intros Himp; [done|]. rewrite !filter_cons.
  assert (length (filter P l) <= length (filter Q l))%nat by (apply IH; set_solver).
  pose proof (Himp a ltac:(left)). repeat case_decide; cbn; try tauto; lia.
Qed.

Lemma timer_rearm_wp s tm :
  check_inv s -> hard_timer s tm ->
  wp (timer_rearm tm) s (fun _ s' => check_inv s' /\ (k_tick s' = k_tick s /\ k_irq_nest s' = k_irq_nest s) /\
    (length (due_timers s') <= length (due_timers s))%nat).
Proof.
  intros (Hk & Hc & Hs) ([ti Eti] & ob & Eo & Hty & Hsoft & Hth). unfold timer_rearm. kstep.
  apply (wp_get_object _ ob); [done|].
  set (ob1 := flag_clear RT_TIMER_FLAG_ACTIVATED ob).
  set (s1 := set_k_objects (<[OTimer tm := ob1]> (k_objects s)) s).
  assert (flag_test RT_TIMER_FLAG_SOFT_TIMER ob1 = flag_test RT_TIMER_FLAG_SOFT_TIMER ob /\
          flag_test RT_TIMER_FLAG_PERIODIC ob1 = flag_test RT_TIMER_FLAG_PERIODIC ob) as [Hs1 Hp1].
  { unfold flag_test, ob1. cbn. by rewrite <- !Z.land_assoc. }
  assert (kinv s1) as Hk1.
  { split; [apply (wfx_same _ s); try done; apply Hk|].
    apply (tinv_timer_update s _ tm ob ob1); try done; [apply Hk|apply flag_bits_clear|apply Hk|].
    intros Hin. destruct (ti_listed (proj2 Hk) tm Hin) as (? & ?). split; [done|]. split; [done|].
    intros t Et. by destruct (Hth t Et) as [_ []]. }
  assert (timers_sane s1) as Hsane1.
  { destruct Hs as [H1 H2 H3]. unfold s1. split; kproj; [| |done].
    - intros tm' x Hin. rewrite lookup_insert. case_decide; [|by apply H1]. intros [= <-]. congruence.
    - intros tm' x ti'. rewrite lookup_insert. case_decide as E; [|by apply H2]. injection E as <-.
      intros [= <-] E2 Hper. apply (H2 tm ob); [done|done|congruence]. }
  destruct (flag_test RT_TIMER_FLAG_PERIODIC ob && flag_test RT_TIMER_FLAG_ACTIVATED ob) eqn:Eper.
  2:{ apply (wp_mod_object _ _ ob); [done|]. fold ob1. fold s1. split; [done|]. split; [done|].
      by rewrite (due_timers_same s s1). }
  apply andb_prop in Eper as [Hper _]. pose proof (ts_period _ Hs tm ob ti Eo Eti Hper) as Hinit.
  kstep. apply (wp_mod_object _ _ ob); [done|]. fold ob1. fold s1. kstep. eapply wp_mono.
  { apply (rt_timer_start_hard_wp s1 tm ti ob1); [done|unfold s1; kproj; apply lookup_insert_eq|done|congruence|done|lia|].
    intros t Et. destruct (Hth t Et) as [Hx _]. congruence. }
  intros r s2 (_ & Hk2 & F & E1 & E2 & Hl & Hsl). kstep. pose proof F as (KF & F1 & F2 & F3 & F4).
  assert (k_tick s2 = k_tick s /\ k_irq_nest s2 = k_irq_nest s) as [Etick Eirq].
  { destruct KF as [KF _]. unfold misc in KF. by injection KF. }
  pose proof (enqueued_perm _ _ _ _ _ Hl) as Hperm.
  split; [split; [done|split; [by rewrite F3|]]|split; [done|]].
  - destruct Hsane1 as [H1 H2 H3]. split.
    + intros tm' x. rewrite Hperm, elem_of_cons, elem_of_without, E2, lookup_insert. intros Hin.
      case_decide as E; [|apply H1; destruct Hin as [->|[_ ?]]; [by destruct E|done]].
      injection E as <-. intros [= <-]. revert Hsoft. unfold flag_test, ob1. cbn.
      by rewrite Z.land_lor_distr_l, <- !Z.land_assoc, Z.lor_0_r.
    + intros tm' x ti'. rewrite E1, E2, !lookup_insert. destruct (decide (tm = tm')) as [<-|Hne].
      * rewrite decide_True by done. intros _ [= <-] _. done.
      * rewrite decide_False by congruence. by apply H2.
    + intros n ti'. rewrite E1, lookup_insert. case_decide; [|by apply H3]. intros [= <-]. subst tm. exact (H3 n ti Eti).
  - unfold due_timers. rewrite Hperm, filter_cons.
    rewrite decide_False.
    2:{ intros (x & Ex & Hx). rewrite E1, lookup_insert_eq in Ex. injection Ex as <-.
        apply timed_out_spec in Hx. rewrite Etick, (started_not_due _ (tm_init_tick ti)) in Hx; done. }
    etrans; [apply (filter_length_le _ (expired s))|].
    + intros x [Hne _]%elem_of_without (y & Ey & Hy). exists y. rewrite E1, lookup_insert_ne in Ey by done.
      by rewrite Etick in Hy.
    + unfold without. rewrite list_filter_filter. apply filter_length_le. tauto.
Qed.

(** ** rt_timer_check, as a whole *)

Section check_proofs.
Variable user : Z -> Z -> K unit.
Hypothesis user_ok : forall f p n s, check_inv s -> hard_timer s (TmUser n) -> TmUser n ∉ k_timer_list s ->
  callback_ok (user f p) (TmUser n) s.

Lemma call_timeout_ok s tm ti l :
  check_inv s -> k_timer_list s = tm :: l -> k_timers s !! tm = Some ti -> expired s tm ->
  callback_ok (call_timeout user (tm_func ti)) tm (unlisted tm s).
Proof.
  intros H El Et Hx. destruct (unlisted_check_inv s tm l H El Hx) as (H1 & Hh & _).
  assert (tm ∈ k_timer_list s) as Hin by (rewrite El; left).
  assert (tm ∈ all_timers s) as Hin' by (apply elem_of_app; auto).
  destruct tm as [t|n].
  - destruct H as (Hk & Hc & Hs). destruct (ti_wait (proj2 Hk) t Hin') as (_ & _ & th & Eth & Hst).
    destruct (ti_thread (proj2 Hk) t th Eth) as (_ & x & y & _ & Ey & _ & _ & Hfn); [by rewrite Hst|].
    simplify_eq. rewrite Hfn. by apply thread_timeout_callback.
  - destruct H as (_ & _ & Hs). destruct (ts_user s Hs n ti Et) as (f & p & ->). apply user_ok; [done|done|].
    unfold unlisted. kproj. rewrite elem_of_without. tauto.
Qed.

Lemma timer_check_loop_wp fuel s :
  check_inv s -> (length (due_timers s) < fuel)%nat ->
  wp (timer_check_loop user fuel (k_tick s)) s (fun _ s' => check_inv s' /\ (k_tick s' = k_tick s /\ k_irq_nest s' = k_irq_nest s) /\
    forall tm, head (k_timer_list s') = Some tm -> ~ expired s' tm).
Proof.
  revert s. induction fuel as [|fuel IH]; intros s H Hf; [lia|]. cbn [timer_check_loop]. kstep. kstep.
  destruct (k_timer_list s) as [|tm l] eqn:El.
  { kstep. split; [done|]. split; [done|]. by rewrite El. }
  destruct (ti_listed (proj2 (proj1 H)) tm) as ([ti Et] & _); [apply elem_of_app; rewrite El; left; left|].
  kstep. apply (wp_get_timer _ ti); [done|]. destruct (timed_out (k_tick s) ti) eqn:Ex.
  2:{ kstep. split; [done|]. split; [done|]. rewrite El. intros ? [= <-] (x & E1 & E2). simplify_eq. apply timed_out_spec in E2. congruence. }
  assert (expired s tm) as Hx by (exists ti; by rewrite <- timed_out_spec).
  destruct (unlisted_check_inv s tm l H El Hx) as (H1 & Hh & Hlen).
  unfold _rt_timer_remove. kstep. kstep. fold (unlisted tm s). kstep.
  eapply wp_mono; [by apply (call_timeout_ok s tm ti l)|]. intros [] s2 (H2 & [Et2 Ei2] & Hl2 & Hh2). kstep. kstep. kstep.
  eapply wp_mono; [by apply timer_rearm_wp|]. intros [] s3 (H3 & [Et3 Ei3] & Hl3).
  assert (k_tick s2 = k_tick s3) as -> by congruence.
  eapply wp_mono; [apply IH; [done|lia]|]. intros [] s4 (H4 & [Et4 Ei4] & Hhd). split; [done|]. split; [|done].
  rewrite Et4, Et3, Et2, Ei4, Ei3, Ei2. done.
Qed.
End check_proofs.

(** ** Which threads a check wakes *)

(** Between [s] and [s'] exactly the threads of [ts] timed out: they are
    runnable, with error -RT_ETIMEOUT, and out of the waiting lists. *)
Record timed_out_threads (ts : list nat) (s s' : kst) : Prop := {
  to_threads : forall u th, k_threads s !! u = Some th -> exists th', k_threads s' !! u = Some th' /\
    if decide (u ∈ ts)
    then runnable th' /\ set_th_stat 0 th' = set_th_stat 0 (set_th_error (- RT_ETIMEOUT) th)
    else thread_step th th';
  to_queues : forall q, (forall p, q <> QReady p) -> qget s' q = filter (fun u => u ∉ ts) (qget s q)
}.

Lemma timed_out_threads_nil s : timed_out_threads [] s s.
Proof.
  split.
  - intros u th Hu. exists th. split; [done|]. rewrite decide_False by apply not_elem_of_nil. apply thread_step_refl.
  - intros q _. symmetry. apply filter_id. intros u _. apply not_elem_of_nil.
Qed.

Lemma thread_step_runnable th th' : thread_step th th' -> runnable th -> runnable th'.
Proof. intros [_ [E|[_ H]]] Hr; [|done]. unfold runnable in *. by rewrite E. Qed.

Lemma timed_out_threads_cons t ts s1 s2 s3 :
  t ∉ ts -> timed_out_threads [t] s1 s2 -> timed_out_threads ts s2 s3 -> timed_out_threads (t :: ts) s1 s3.
Proof.
  intros Hn [A1 A2] [B1 B2]. split.
  - intros u th Hu. destruct (A1 u th Hu) as (th2 & H2 & R2). destruct (B1 u th2 H2) as (th3 & H3 & R3).
    exists th3. split; [done|]. destruct (decide (u = t)) as [->|Hne].
    + rewrite decide_True in R2 by (by apply list_elem_of_singleton). rewrite decide_False in R3 by done.
      rewrite decide_True by left. destruct R2 as [R2 E2], R3 as [E3 R3].
      split; [by eapply thread_step_runnable|congruence].
    + rewrite decide_False in R2 by (by rewrite list_elem_of_singleton). destruct (decide (u ∈ ts)) as [Hin|Hin].
      * rewrite decide_True by (by right). destruct R2 as [E2 _], R3 as [R3 E3]. split; [done|]. rewrite E3.
        change (set_th_error (- RT_ETIMEOUT) (set_th_stat 0 th2) = set_th_error (- RT_ETIMEOUT) (set_th_stat 0 th)). by rewrite E2.
      * rewrite decide_False by (by apply not_elem_of_cons). by eapply thread_step_trans.
  - intros q Hq. rewrite B2, A2, list_filter_filter by done. apply list_filter_iff. intros u.
    rewrite !not_elem_of_cons. pose proof (not_elem_of_nil u). tauto.
Qed.

Lemma timed_out_threads_same ts s1 s2 s3 :
  k_threads s3 = k_threads s2 -> k_queues s3 = k_queues s2 -> timed_out_threads ts s1 s2 -> timed_out_threads ts s1 s3.
Proof. intros E1 E2 [H1 H2]. split; unfold qget; rewrite ?E1, ?E2; done. Qed.

Lemma thread_timeout_wakes s t th :
  kinv s -> k_threads s !! t = Some th -> st th = RT_THREAD_SUSPEND -> TmThread t ∉ all_timers s -> is_Some (k_current s) ->
  wp (rt_thread_timeout t) s (fun _ s' => timed_out_threads [t] s s' /\ k_objects s' = k_objects s /\
    k_timers s' = k_timers s /\ k_timer_list s' = k_timer_list s).
Proof.
  intros Hk Ht Hst Hn Hc. eapply wp_mono; [by apply (rt_thread_timeout_wp s t th)|].
  intros [] s' (_ & _ & s1 & [M1 M2 M3 M4 M5] & F & E1 & E2 & E3 & E4).
  destruct (sched_frame_timers s1 s' F) as (F1 & F2 & F3 & F4 & F5).
  split; [|split_and!; congruence]. split.
  - intros u uth Hu. destruct (decide (u = t)) as [->|Hne].
    + simplify_eq. destruct (sched_frame_lookup s1 s' t (woken s t (set_th_error (- RT_ETIMEOUT) th)) F) as (th' & Et' & Hstep);
        [rewrite M3; apply lookup_insert_eq|].
      exists th'. split; [done|]. rewrite decide_True by (by apply list_elem_of_singleton). split.
      * eapply thread_step_runnable; [done|apply woken_runnable].
      * destruct Hstep as [-> _]. done.
    + destruct (sched_frame_lookup s1 s' u uth F) as (th' & Et' & Hstep); [by rewrite M3, lookup_insert_ne|].
      exists th'. split; [done|]. by rewrite decide_False by (by rewrite list_elem_of_singleton).
  - intros q Hq. rewrite (sf_queues _ _ F) by done. rewrite M4. unfold woken_queue.
    rewrite decide_False by (intros [_ ->]; by eapply Hq). rewrite app_nil_r. apply list_filter_iff.
    intros u. by rewrite list_elem_of_singleton.
Qed.

Lemma timer_rearm_oneshot s tm ob :
  k_objects s !! OTimer tm = Some ob -> flag_test RT_TIMER_FLAG_PERIODIC ob = false ->
  wp (timer_rearm tm) s (fun _ s' => s' = set_k_objects (<[OTimer tm := flag_clear RT_TIMER_FLAG_ACTIVATED ob]> (k_objects s)) s).
Proof.
  intros Eo Hp. unfold timer_rearm. kstep. apply (wp_get_object _ ob); [done|]. rewrite Hp. cbn [andb].
  by apply (wp_mod_object _ _ ob).
Qed.

(** One iteration on the timer of thread [t]. *)
Lemma thread_timer_iteration user s t l fuel Q :
  check_inv s -> k_timer_list s = TmThread t :: l -> expired s (TmThread t) ->
  (forall s', check_inv s' -> timed_out_threads [t] s s' -> k_timer_list s' = l -> k_timers s' = k_timers s ->
     k_tick s' = k_tick s -> (forall o, o <> OTimer (TmThread t) -> k_objects s' !! o = k_objects s !! o) ->
     wp (timer_check_loop user fuel (k_tick s)) s' Q) ->
  wp (timer_check_loop user (S fuel) (k_tick s)) s Q.
Proof.
  intros H El Hx HQ. destruct (unlisted_check_inv s (TmThread t) l H El Hx) as (H1 & Hh & _).
  destruct Hx as (ti & Et & Ex%timed_out_spec). assert (TmThread t ∈ all_timers s) as Hin by (apply elem_of_app; rewrite El; left; left).
  pose proof H as (Hk & Hc & Hs). destruct (ti_wait (proj2 Hk) t Hin) as (Hl & _ & th & Eth & Hst).
  destruct (ti_thread (proj2 Hk) t th Eth) as (_ & x & y & _ & Ey & _ & _ & Hfn); [by rewrite Hst|]. simplify_eq.
  assert (TmThread t ∉ all_timers (unlisted (TmThread t) s)) as Hn.
  { unfold unlisted. rewrite all_timers_without, elem_of_without. tauto. }
  assert (NoDup (TmThread t :: l)) as Hnd.
  { rewrite <- El. pose proof (ti_nodup (proj2 Hk)) as Hnd. by apply NoDup_app in Hnd as [? _]. }
  cbn [timer_check_loop]. kstep. kstep. rewrite El. kstep. apply (wp_get_timer _ ti); [done|]. rewrite Ex.
  unfold _rt_timer_remove. kstep. kstep. fold (unlisted (TmThread t) s). kstep. rewrite Hfn. cbn [call_timeout].
  pose proof (thread_timeout_callback s t H Hin Hl Hh H1) as Hcb.
  pose proof (thread_timeout_wakes (unlisted (TmThread t) s) t th (proj1 H1) Eth Hst Hn Hc) as Hw.
  eapply wp_mono; [exact (wp_and _ _ _ _ Hcb Hw)|].
  intros [] s2 [(H2 & [Et2 _] & _ & Hh2) (Hw2 & Eo2 & Etm2 & El2)]. kstep. kstep. kstep.
  pose proof Hh2 as (_ & ob & Eob & _ & _ & Hper).
  eapply wp_mono; [exact (wp_and _ _ _ _ (timer_rearm_wp s2 _ H2 Hh2)
                            (timer_rearm_oneshot s2 _ ob Eob (proj1 (Hper t eq_refl))))|].
  intros [] s3 [(H3 & _ & _) ->]. rewrite Et2.
  apply HQ; [exact H3| | | |exact Et2|].
  - apply (timed_out_threads_same _ _ s2); [done|done|]. destruct Hw2 as [W1 W2]. by split.
  - kproj. rewrite El2. unfold unlisted. kproj. by rewrite El, without_head.
  - kproj. by rewrite Etm2.
  - intros o Ho. kproj. rewrite lookup_insert_ne by done. by rewrite Eo2.
Qed.

(** ** Properties *)

(** C16: rt_timer_check terminates and leaves no due timer at the head of the
    hard list.  Whatever the application timeout functions do within
    [callback_ok] (they keep the invariant, leave the clock alone, start nothing
    due at once, do not delete their own timer), one more iteration than there
    are due timers is enough, every assertion on the way holds, and the kernel
    invariant holds at the end. *)
Theorem rt_timer_check_terminates user s fuel :
  (forall f p n s, check_inv s -> hard_timer s (TmUser n) -> TmUser n ∉ k_timer_list s ->
     callback_ok (user f p) (TmUser n) s) ->
  check_inv s -> (length (due_timers s) < fuel)%nat ->
  exists s', rt_timer_check user fuel s = Ok tt s' /\ check_inv s' /\
    (k_tick s' = k_tick s /\ k_irq_nest s' = k_irq_nest s) /\
    forall tm, head (k_timer_list s') = Some tm -> ~ expired s' tm.
Proof.
  intros Hu H Hf. destruct (wp_run _ _ _ (timer_check_loop_wp user Hu fuel s H Hf)) as ([] & s' & E & Hp).
  exists s'. split; [exact E|done].
Qed.

(** An application timeout function that returns at once. *)
Definition idle_callback (f p : Z) : K unit := ret tt.
Lemma idle_callback_ok f p n s :
  check_inv s -> hard_timer s (TmUser n) -> TmUser n ∉ k_timer_list s -> callback_ok (idle_callback f p) (TmUser n) s.
Proof. intros H Hh _. apply wp_ret. auto. Qed.

(** The sample with the clock at 120, when the wait of thread 3 is over. *)
Definition sample_due : kst := set_k_tick 120 sample.

Definition timers_saneb (s : kst) : bool :=
  forallb (fun tm => match k_objects s !! OTimer tm with
    | Some ob => negb (flag_test RT_TIMER_FLAG_SOFT_TIMER ob) | None => true end) (k_timer_list s) &&
  forallb (fun tt => match k_objects s !! OTimer tt.1 with
    | Some ob => negb (flag_test RT_TIMER_FLAG_PERIODIC ob) || ((1 <=? tm_init_tick tt.2) && (tm_init_tick tt.2 <? TICK_HALF))
    | None => true end) (map_to_list (k_timers s)) &&
  forallb (fun tt => match tt.1, tm_func tt.2 with TmUser _, TFThread _ => false | _, _ => true end) (map_to_list (k_timers s)).
Lemma timers_saneb_sound s : timers_saneb s = true -> timers_sane s.
Proof.
  unfold timers_saneb. rewrite !andb_true_iff. intros [[H1 H2] H3]. split.
  - intros tm ob Hin Eo. apply (forallb_elem _ _ _ H1) in Hin. rewrite Eo in Hin. by apply negb_true_iff in Hin.
  - intros tm ob ti Eo Et Hp. apply elem_of_map_to_list, (forallb_elem _ _ _ H2) in Et. cbn in Et. rewrite Eo, Hp in Et.
    cbn in Et. lia.
  - intros n ti Et. apply elem_of_map_to_list, (forallb_elem _ _ _ H3) in Et. cbn in Et. destruct (tm_func ti); [done|eauto].
Qed.
Lemma sample_due_check : check_inv sample_due.
Proof.
  split; [apply kinvb_sound; vm_compute; reflexivity|]. split; [by eexists|].
  apply timers_saneb_sound. vm_compute. reflexivity.
Qed.

Lemma rt_timer_check_terminates_witness :
  exists s', rt_timer_check idle_callback 2 sample_due = Ok tt s' /\ check_inv s' /\
    (k_tick s' = k_tick sample_due /\ k_irq_nest s' = k_irq_nest sample_due) /\
    forall tm, head (k_timer_list s') = Some tm -> ~ expired s' tm.
Proof.
  apply rt_timer_check_terminates; [exact idle_callback_ok|exact sample_due_check|].
  vm_compute. lia.
Defined.

(** A periodic hard timer of period 0, due now, and nothing else. *)
Definition sample_zero_period : kst :=
  set_k_timers (<[TmUser 0 := mkTimer (TFUser 7 8) 0 100]> (k_timers sample)) (set_k_timer_list [TmUser 0] sample).

(** One iteration of the loop of rt_timer_check on a due timer. *)
Definition timer_iteration (user : Z -> Z -> K unit) (t : tmid) (ti : rt_timer) : K Z :=
  _rt_timer_remove t ;; call_timeout user (tm_func ti) ;; current_tick <- gets k_tick ;; timer_rearm t ;; ret current_tick.

Lemma timer_check_loop_step user n tick s t l ti :
  k_timer_list s = t :: l -> k_timers s !! t = Some ti -> timed_out tick ti = true ->
  timer_check_loop user (S n) tick s = bind (timer_iteration user t ti) (timer_check_loop user n) s.
Proof.
  intros El Et Ex. cbn [timer_check_loop]. unfold timer_iteration, bind, gets, get_timer, deref. rewrite El, Et, Ex.
  destruct (_rt_timer_remove t s) as [[] s1| | |]; [|done..].
  destruct (call_timeout user (tm_func ti) s1) as [[] s2| | |]; [|done..].
  by destruct (timer_rearm t s2) as [[] s3| | |].
Qed.

(** A periodic timer of period 0, which rt_timer_init and rt_timer_start
    both accept, keeps rt_timer_check in its loop for ever: it is due again as
    soon as it is started again, with interrupts disabled. *)
Theorem rt_timer_check_zero_period fuel : rt_timer_check idle_callback fuel sample_zero_period = NoFuel.
Proof.
  change (rt_timer_check idle_callback fuel sample_zero_period)
    with (timer_check_loop idle_callback fuel 100 sample_zero_period).
  induction fuel as [|fuel IH]; [reflexivity|].
  rewrite (timer_check_loop_step _ _ _ _ (TmUser 0) [] (mkTimer (TFUser 7 8) 0 100)) by reflexivity.
  rewrite (bind_ok _ _ _ 100 sample_zero_period); [exact IH|]. vm_compute. reflexivity.
Qed.
