(* ===== verification/Sleep.v ===== *)
(** * Sleeping (src/thread.c) and the tick arithmetic (src/clock.c)

    A call that blocks runs up to its scheduling pass and goes on when the thread
    is scheduled again.  It is two definitions: the part up to and including
    [rt_schedule], with the suffix [_enter], and the part after it, with the
    suffix [_resume], which takes the local variables that are still needed. *)

From S2P Require Import Prelude Ffs KState Wf Inv Sched Object Timer Thread TimerRun.

(** The two calls that set and start the timer of a thread, wherever a wait
    is bounded. *)
Definition start_thread_timer (t : nat) (tick : Z) : K unit :=
  rt_timer_control (TmThread t) RT_TIMER_CTRL_SET_TIME tick ;;
  rt_timer_start (TmThread t) ;;
  ret tt.

Definition rt_thread_sleep_enter (tick : Z) : K nat :=
  self <- rt_thread_self ;;
  match self with
  | None => halt
  | Some t =>
      assert_type (OThread t) RT_Object_Class_Thread ;;
      rt_thread_suspend t ;;
      start_thread_timer t tick ;;
      rt_schedule ;;
      ret t
  end.

(** if (thread->error == -RT_ETIMEOUT) thread->error = RT_EOK *)
Definition clear_timeout (t : nat) : K unit :=
  th <- get_thread t ;;
  when (th_error th =? - RT_ETIMEOUT) (mod_thread t (set_th_error RT_EOK)).

Definition rt_thread_sleep_resume (t : nat) : K Z := clear_timeout t ;; ret RT_EOK.

Definition rt_thread_delay_enter (tick : Z) : K nat := rt_thread_sleep_enter tick.

(** [tick] is the value of [*tick] at the call; the result says whether the
    thread went to sleep (and as which thread). *)
Definition rt_thread_delay_until_enter (tick inc_tick : Z) : K (option nat) :=
  self <- rt_thread_self ;;
  match self with
  | None => halt
  | Some t =>
      assert_type (OThread t) RT_Object_Class_Thread ;;
      now <- gets k_tick ;;
      if u32 (now - tick) <? inc_tick then
        let tick := u32 (now - tick + inc_tick) in
        rt_thread_suspend t ;;
        start_thread_timer t tick ;;
        rt_schedule ;;
        ret (Some t)
      else ret None
  end.

(** The rest of the call: the error code and the final value of [*tick]. *)
Definition rt_thread_delay_until_resume (slept : option nat) : K (Z * Z) :=
  match slept with Some t => clear_timeout t | None => ret tt end ;;
  now <- gets k_tick ;;
  ret (RT_EOK, now).

Definition rt_tick_from_millisecond (ms : Z) : Z :=
  if ms <? 0 then u32 RT_WAITING_FOREVER
  else
    let tick := u32 (RT_TICK_PER_SECOND * (ms / 1000)) in
    u32 (tick + (RT_TICK_PER_SECOND * (ms `mod` 1000) + 999) / 1000).

Definition rt_thread_mdelay_enter (ms : Z) : K nat := rt_thread_sleep_enter (rt_tick_from_millisecond ms).

(** ** Starting a thread's timer *)

Lemma start_thread_timer_wp s t th n :
  kinv s -> k_threads s !! t = Some th -> st th = RT_THREAD_SUSPEND -> 0 <= n < TICK_HALF ->
  wp (start_thread_timer t n) s (fun _ s' => kinv s' /\ tframe s s' /\ TmThread t ∈ k_timer_list s' /\
    ticks_left s' (TmThread t) = n /\
    (timers_ordered s (k_timer_list s) -> timers_ordered s' (k_timer_list s'))).
Proof.
  intros Hk Ht Hst Hn. unfold start_thread_timer. kstep. eapply wp_mono.
  { apply (rt_timer_control_wp s t th n); [apply Hk|done|by rewrite Hst]. }
  intros r s1 (F1 & T1 & Eo & El & Esl & ti0 & Et0 & Etm1). pose proof F1 as (KF1 & A1 & B1 & C1 & D1).
  assert (kinv s1) as Hk1 by (by apply (tframe_kinv s)).
  assert (k_tick s1 = k_tick s) as Etk1.
  { destruct KF1 as [F _]. unfold misc in F. by injection F. }
  destruct (ti_thread T1 t th) as (_ & ob & ti & Eob & Et & Hty & Hfl & _); [by rewrite A1|by rewrite Hst|].
  assert (tm_init_tick ti = n) as Hti.
  { rewrite Etm1, lookup_insert_eq in Et. by injection Et as <-. }
  kstep. eapply wp_mono.
  { apply (rt_timer_start_hard_wp s1 (TmThread t) ti ob); [done|done|by rewrite Hty| |done|lia|].
    - unfold flag_test. apply negb_false_iff, Z.eqb_eq.
      replace RT_TIMER_FLAG_SOFT_TIMER with (Z.land (Z.lor RT_TIMER_FLAG_PERIODIC RT_TIMER_FLAG_SOFT_TIMER) RT_TIMER_FLAG_SOFT_TIMER) by done.
      by rewrite Z.land_assoc, Hfl.
    - intros t' [= <-]. rewrite A1. eauto. }
  intros r' s2 (_ & Hk2 & F2 & Etm2 & _ & Hl & _). kstep.
  assert (k_tick s2 = k_tick s1) as Etk.
  { destruct F2 as ([F _] & _). unfold misc in F. by injection F. }
  rewrite Hti in *.
  split; [done|]. split; [by eapply tframe_trans|]. split; [rewrite (enqueued_perm _ _ _ _ _ Hl); left|]. split.
  - eapply (ticks_left_new s1 s2 _ (set_tm_timeout_tick _ ti)); [done|by rewrite Etm2, lookup_insert_eq|done|done].
  - intros Hord. eapply (enqueued_ordered s1 s2 (TmThread t) ti n); [| |done|done|done|exact Hl].
    + rewrite El. eapply timers_ordered_same; [|exact Hord]. intros tm _. unfold ticks_left.
      rewrite Etm1, Etk1, lookup_insert. case_decide; [|done]. subst tm. by rewrite Et0.
    + intros tm Hin. apply (ti_listed T1), elem_of_app. by left.
Qed.

Lemma start_thread_timer_halt s t th n :
  kinv s -> k_threads s !! t = Some th -> st th = RT_THREAD_SUSPEND -> TICK_HALF <= n ->
  start_thread_timer t n s = Halt.
Proof.
  intros Hk Ht Hst Hn. unfold start_thread_timer.
  destruct (wp_run _ _ _ (rt_timer_control_wp s t th n (proj2 Hk) Ht ltac:(by rewrite Hst)))
    as (r & s1 & E & F & T1 & _ & _ & _ & ti0 & _ & Etm).
  rewrite (bind_ok _ _ _ r s1 E). apply bind_halt. unfold rt_timer_start. apply bind_halt.
  destruct F as (_ & A & _). destruct (ti_thread T1 t th) as (_ & ob & ti & Eob & Et & Hty & _ & _); [by rewrite A|by rewrite Hst|].
  apply (rt_timer_enqueue_halt s1 _ ti ob); [done|by rewrite Hty|done|].
  rewrite Etm, lookup_insert_eq in Et. by injection Et as <-.
Qed.

(** A running thread is marked suspended and its timer started. *)
Lemma suspend_and_arm_wp s c cth n :
  kinv s -> k_threads s !! c = Some cth -> runnable cth -> 0 <= n < TICK_HALF ->
  wp (rt_thread_suspend c ;; start_thread_timer c n) s (fun _ s' =>
    moved s s' c (suspended cth) (fun q => without c (qget s q)) /\ TmThread c ∈ k_timer_list s' /\
    ticks_left s' (TmThread c) = n).
Proof.
  intros Hk Ht Hr Hn. kstep. eapply wp_mono; [by apply (rt_thread_suspend_wp s c cth)|].
  intros r s1 (_ & [M1 M2 M3 M4 M5] & _). eapply wp_mono.
  { apply (start_thread_timer_wp s1 c (suspended cth) n); [done|rewrite M3; apply lookup_insert_eq|by apply st_with_st|done]. }
  intros _ s2 (Hk2 & F2 & Hin & Hleft & _). destruct F2 as (KF & A & B & C & D). split; [|done].
  split; [done|by eapply kframe_trans|by rewrite A| |by rewrite C]. intros q. rewrite <- M4. unfold qget. by rewrite B.
Qed.

Lemma current_runnable s c cth : kinv s -> k_current s = Some c -> k_threads s !! c = Some cth ->
  st cth = RT_THREAD_RUNNING -> runnable cth /\ st cth <> RT_THREAD_CLOSE.
Proof. intros _ _ _ Hr. split; [by right|by rewrite Hr]. Qed.

Lemma rt_thread_sleep_enter_wp s c cth n :
  kinv s -> k_current s = Some c -> k_threads s !! c = Some cth -> st cth = RT_THREAD_RUNNING -> 0 <= n < TICK_HALF ->
  wp (rt_thread_sleep_enter n) s (fun r s' => r = c /\ kinv s' /\ exists s1, sched_frame s1 s' /\
    moved s s1 c (suspended cth) (fun q => without c (qget s q)) /\ TmThread c ∈ k_timer_list s1 /\
    ticks_left s1 (TmThread c) = n).
Proof.
  intros Hk Hc Ht Hr Hn. destruct (current_runnable s c cth Hk Hc Ht Hr) as [Hrun Hcl].
  destruct (thread_typed s c cth Hk Ht Hcl) as (ob & Eo & Hty).
  unfold rt_thread_sleep_enter, rt_thread_self. kstep. kstep. rewrite Hc. kstep.
  apply (wp_assert_type _ ob); [done|done|]. apply wp_assoc. kstep. eapply wp_mono; [by apply (suspend_and_arm_wp s c cth n)|].
  intros [] s1 (M & Hin & Hleft). kstep. eapply wp_mono; [apply rt_schedule_kinv; [apply M|rewrite (mv_current _ _ _ _ _ M); eauto]|].
  intros [] s2 (Hk2 & F & _). kstep. eauto 10.
Qed.

(** A suspended thread stays as it is through scheduling passes. *)
Lemma sched_frame_suspended s s' t th :
  sched_frame s s' -> k_threads s !! t = Some th -> st th = RT_THREAD_SUSPEND ->
  exists th', k_threads s' !! t = Some th' /\ st th' = RT_THREAD_SUSPEND.
Proof.
  intros F Ht Hst. destruct (sched_frame_lookup s s' t th F Ht) as (th' & E & [_ Hs]). exists th'. split; [done|].
  destruct Hs as [->|[[Hx|Hx] _]]; [done|rewrite Hst in Hx; done..].
Qed.

Lemma sched_frame_ticks_left s s' tm : sched_frame s s' -> ticks_left s' tm = ticks_left s tm.
Proof. intros F. destruct (sched_frame_timers s s' F) as (_ & E1 & _ & _ & E2). unfold ticks_left. by rewrite E1, E2. Qed.

(** ** Properties *)

(** Going to sleep.  A running thread that sleeps for less than
    RT_TICK_MAX/2 ticks is suspended, in no ready queue, and its timer is in the
    hard timer list with exactly that many ticks left; the kernel invariant holds
    and another thread may run.  A longer sleep (rt_thread_mdelay of a negative
    time among them) stops in the assertion of rt_timer_start. *)
Theorem rt_thread_sleep_correct s c cth n :
  kinv s -> k_current s = Some c -> k_threads s !! c = Some cth -> st cth = RT_THREAD_RUNNING -> 0 <= n ->
  if n <? TICK_HALF then
    exists s' cth', rt_thread_sleep_enter n s = Ok c s' /\ kinv s' /\
      k_threads s' !! c = Some cth' /\ st cth' = RT_THREAD_SUSPEND /\ (forall p, c ∉ qget s' (QReady p)) /\
      TmThread c ∈ k_timer_list s' /\ ticks_left s' (TmThread c) = n
  else rt_thread_sleep_enter n s = Halt.
Proof.
  intros Hk Hc Ht Hr Hn. destruct (Z.ltb_spec n TICK_HALF) as [Hlt|Hge].
  - destruct (wp_run _ _ _ (rt_thread_sleep_enter_wp s c cth n Hk Hc Ht Hr (conj Hn Hlt)))
      as (r & s' & E & -> & Hk' & s1 & F & [M1 M2 M3 M4 M5] & Hin & Hleft).
    destruct (sched_frame_suspended s1 s' c (suspended cth) F) as (cth' & Ec & Hst).
    { rewrite M3. apply lookup_insert_eq. }
    { by apply st_with_st. }
    destruct (sched_frame_timers s1 s' F) as (_ & _ & El & _).
    exists s', cth'. split_and!; try done.
    + intros p Hp. destruct (wf_place (proj1 Hk') _ _ Hp) as (x & Ex & (Hx & _)). simplify_eq. by rewrite Hst in Hx.
    + by rewrite El.
    + by rewrite (sched_frame_ticks_left s1 s').
  - destruct (current_runnable s c cth Hk Hc Ht Hr) as [Hrun Hcl].
    destruct (thread_typed s c cth Hk Ht Hcl) as (ob & Eo & Hty).
    unfold rt_thread_sleep_enter, rt_thread_self, bind at 1, gets. rewrite Hc.
    unfold bind at 1, assert_type, rt_object_get_type, bind at 1, get_object, deref. unfold bind at 1. rewrite Eo.
    unfold ret, RT_ASSERT. rewrite Hty, Z.eqb_refl.
    destruct (wp_run _ _ _ (rt_thread_suspend_wp s c cth Hk Ht Hrun)) as (r & s1 & E1 & -> & [M1 M2 M3 M4 M5] & _).
    rewrite (bind_ok _ _ _ RT_EOK s1 E1).
    by rewrite (bind_halt _ _ _ (start_thread_timer_halt s1 c (suspended cth) n M1
      ltac:(rewrite M3; apply lookup_insert_eq) ltac:(by apply st_with_st) Hge)).
Qed.

Lemma rt_thread_sleep_correct_witness :
  exists s' cth', rt_thread_sleep_enter 20 sample = Ok 1%nat s' /\ kinv s' /\
    k_threads s' !! 1%nat = Some cth' /\ st cth' = RT_THREAD_SUSPEND /\ (forall p, 1%nat ∉ qget s' (QReady p)) /\
    TmThread 1 ∈ k_timer_list s' /\ ticks_left s' (TmThread 1) = 20.
Proof.
  exact (rt_thread_sleep_correct sample 1 (sample_thread 10 RT_THREAD_RUNNING) 20 sample_kinv
    eq_refl ltac:(vm_compute; reflexivity) eq_refl ltac:(lia)).
Defined.

(** Rt_thread_delay_until does not delay until the tick it is asked for.
    It is to sleep until [tick + inc_tick]; called [e] ticks after [tick], with
    [e < inc_tick], it starts a timer of [e + inc_tick] ticks instead of
    [inc_tick - e], so the thread sleeps [2 * e] ticks too long. *)
Theorem rt_thread_delay_until_late s c cth e inc :
  kinv s -> k_current s = Some c -> k_threads s !! c = Some cth -> st cth = RT_THREAD_RUNNING ->
  0 <= e < inc -> e + inc < TICK_HALF ->
  exists s', rt_thread_delay_until_enter (u32 (k_tick s - e)) inc s = Ok (Some c) s' /\ kinv s' /\
    TmThread c ∈ k_timer_list s' /\ ticks_left s' (TmThread c) = (inc - e) + 2 * e.
Proof.
  intros Hk Hc Ht Hr He Hsum. destruct (current_runnable s c cth Hk Hc Ht Hr) as [Hrun Hcl].
  destruct (thread_typed s c cth Hk Ht Hcl) as (ob & Eo & Hty). rewrite TICK_HALF_val in Hsum.
  assert (u32 (k_tick s - u32 (k_tick s - e)) = e) as E1.
  { unfold u32. rewrite Zminus_mod_idemp_r. replace (k_tick s - (k_tick s - e)) with e by lia. apply Z.mod_small; lia. }
  assert (u32 (k_tick s - u32 (k_tick s - e) + inc) = e + inc) as E2.
  { transitivity (u32 (u32 (k_tick s - u32 (k_tick s - e)) + inc)); [unfold u32 at 3; unfold u32; by rewrite Zplus_mod_idemp_l|].
    rewrite E1. apply u32_small. lia. }
  enough (wp (rt_thread_delay_until_enter (u32 (k_tick s - e)) inc) s (fun r s' => r = Some c /\ kinv s' /\
    TmThread c ∈ k_timer_list s' /\ ticks_left s' (TmThread c) = (inc - e) + 2 * e)) as Hwp.
  { destruct (wp_run _ _ _ Hwp) as (r & s' & E & -> & ?). eauto. }
  unfold rt_thread_delay_until_enter, rt_thread_self. kstep. kstep. rewrite Hc. kstep.
  apply (wp_assert_type _ ob); [done|done|]. kstep. kstep. rewrite E1, (proj2 (Z.ltb_lt _ _)) by lia. cbv zeta. rewrite E2.
  apply wp_assoc. kstep. eapply wp_mono; [apply (suspend_and_arm_wp s c cth (e + inc)); [done|done|done|rewrite TICK_HALF_val; lia]|].
  intros [] s1 (M & Hin & Hleft). kstep.
  eapply wp_mono; [apply rt_schedule_kinv; [apply M|rewrite (mv_current _ _ _ _ _ M); eauto]|].
  intros [] s2 (Hk2 & F & _). kstep. split; [done|]. split; [done|].
  destruct (sched_frame_timers s1 s2 F) as (_ & _ & El & _). rewrite El, (sched_frame_ticks_left s1 s2), Hleft by done.
  split; [done|lia].
Qed.

Lemma rt_thread_delay_until_late_witness :
  exists s', rt_thread_delay_until_enter (u32 (k_tick sample - 3)) 10 sample = Ok (Some 1%nat) s' /\ kinv s' /\
    TmThread 1 ∈ k_timer_list s' /\ ticks_left s' (TmThread 1) = (10 - 3) + 2 * 3.
Proof.
  apply (rt_thread_delay_until_late sample 1 (sample_thread 10 RT_THREAD_RUNNING) 3 10 sample_kinv);
    [reflexivity|vm_compute; reflexivity|reflexivity|lia|reflexivity].
Defined.

(** Milliseconds to ticks.  For every non-negative rt_int32_t the result is
    the time rounded up to whole ticks, without overflow; a negative time is
    RT_WAITING_FOREVER. *)
Theorem rt_tick_from_millisecond_correct ms :
  - 2 ^ 31 <= ms < 2 ^ 31 ->
  rt_tick_from_millisecond ms =
    if ms <? 0 then RT_TICK_MAX else (ms * RT_TICK_PER_SECOND + 999) / 1000.
Proof.
  intros H. unfold rt_tick_from_millisecond, RT_TICK_PER_SECOND. destruct (Z.ltb_spec ms 0); [reflexivity|]. cbv zeta.
  pose proof (Z.div_mod ms 1000 ltac:(lia)) as D. pose proof (Z.mod_pos_bound ms 1000 ltac:(lia)) as B.
  set (q := ms / 1000) in *. set (r := ms `mod` 1000) in *.
  assert ((1000 * r + 999) / 1000 = r) as ->.
  { symmetry. apply (Z.div_unique _ _ _ 999); lia. }
  rewrite !u32_small by (rewrite ?u32_small; lia). apply (Z.div_unique _ _ _ 999); lia.
Qed.

Lemma rt_tick_from_millisecond_correct_witness : rt_tick_from_millisecond 1500 = 1500.
Proof. exact (rt_tick_from_millisecond_correct 1500 ltac:(lia)). Defined.
