(* ===== verification/Clock.v ===== *)
(** * The system tick (src/clock.c), interrupt nesting (src/irq.c) and the tick
    interrupt (drivers/drv_common.c) *)

From S2P Require Import Prelude Ffs KState Wf Inv Sched Object Timer Thread TimerRun.

Definition rt_tick_get : K Z := gets k_tick.
Definition rt_tick_set (tick : Z) : K unit := modify (set_k_tick tick).

Definition rt_interrupt_enter : K unit := modify (fun s => set_k_irq_nest (u8 (k_irq_nest s + 1)) s).
Definition rt_interrupt_leave : K unit := modify (fun s => set_k_irq_nest (u8 (k_irq_nest s - 1)) s).
Definition rt_interrupt_get_nest : K Z := gets k_irq_nest.

(** The time slice of the running thread: [-- remaining_tick], and at zero a new
    slice, the yield bit and a scheduling pass. *)
Definition slice_tick : K unit :=
  t <- current_thread ;;
  mod_thread t (fun th => set_th_remaining_tick (u32 (th_remaining_tick th - 1)) th) ;;
  th <- get_thread t ;;
  if th_remaining_tick th =? 0 then
    mod_thread t (fun th => set_th_remaining_tick (th_init_tick th) th) ;;
    mod_thread t (fun th => set_th_stat (Z.lor (th_stat th) RT_THREAD_STAT_YIELD) th) ;;
    rt_thread_yield ;;
    ret tt
  else ret tt.

(** [fuel] bounds the loop of rt_timer_check. *)
Definition rt_tick_increase (user : Z -> Z -> K unit) (fuel : nat) : K unit :=
  modify (fun s => set_k_tick (u32 (k_tick s + 1)) s) ;;
  slice_tick ;;
  rt_timer_check user fuel.

(** HAL_IncTick counts in the vendor library and touches nothing here. *)
Definition SysTick_Handler (user : Z -> Z -> K unit) (fuel : nat) : K unit :=
  rt_interrupt_enter ;;
  rt_tick_increase user fuel ;;
  rt_interrupt_leave.

(** ** The time slice *)

(** The running thread after one tick of its slice. *)
Definition ticked (th : rt_thread) : rt_thread :=
  set_th_remaining_tick (u32 (th_remaining_tick th - 1)) th.
(** ... and after the last one. *)
Definition slice_over (th : rt_thread) : rt_thread :=
  set_th_stat (Z.lor (th_stat th) RT_THREAD_STAT_YIELD) (set_th_remaining_tick (th_init_tick th) th).

Lemma ticked_same th : sched_same th (ticked th).
Proof. done. Qed.
Lemma slice_over_same th : sched_same th (slice_over th).
Proof. split; [|done]. unfold st, slice_over. cbn. apply st_yield_set. Qed.
Lemma slice_over_yields th : Z.land (th_stat (slice_over th)) RT_THREAD_STAT_YIELD <> 0.
Proof. unfold slice_over. cbn. by rewrite yield_set. Qed.

Lemma slice_tick_wp s c cth :
  kinv s -> k_current s = Some c -> k_threads s !! c = Some cth ->
  wp slice_tick s (fun _ s' => kinv s' /\ is_Some (k_current s') /\
    if th_remaining_tick (ticked cth) =? 0
    then let s1 := upd_thread c (slice_over cth) s in
         kinv s1 /\ rt_schedule s1 = Ok tt s' /\ sched_frame s1 s'
    else s' = upd_thread c (ticked cth) s).
Proof.
  intros Hk Hc Ht. unfold slice_tick. kstep. apply (wp_current c); [done|]. kstep.
  apply (wp_mod_thread _ _ cth); [done|]. fold (ticked cth). kstep.
  assert (kinv (upd_thread c (ticked cth) s)) as Hk1 by (apply (kinv_upd_same s c cth); auto using ticked_same).
  apply (wp_get_thread _ (ticked cth)); [by rewrite lookup_upd_thread, decide_True|].
  destruct (th_remaining_tick (ticked cth) =? 0) eqn:E.
  2:{ kstep. split; [done|]. split; [kproj; eauto|done]. }
  kstep. eapply wp_mod_thread; [by rewrite lookup_upd_thread, decide_True|]. kstep.
  eapply wp_mod_thread; [by rewrite lookup_upd_thread, decide_True|].
  set (s1 := upd_thread c (slice_over cth) s).
  match goal with |- context [upd_thread c ?x (upd_thread c ?y (upd_thread c ?z s))] =>
    assert (upd_thread c x (upd_thread c y (upd_thread c z s)) = s1) as -> end.
  { unfold s1, upd_thread, set_k_threads. cbn. by rewrite !insert_insert_eq. }
  assert (kinv s1) as Hks by (apply (kinv_upd_same s c cth); auto using slice_over_same).
  unfold rt_thread_yield. kstep. kstep.
  destruct (wp_run _ _ _ (rt_schedule_kinv s1 Hks ltac:(unfold s1; kproj; eauto))) as ([] & s2 & E2 & Hk2 & F & Hc2).
  unfold wp at 1. rewrite E2. kstep. kstep. done.
Qed.

Lemma kinv_tick s v : kinv s -> kinv (set_k_tick v s).
Proof. intros [W T]. split; [by apply (wfx_same _ s)|]. by apply (tinv_same s); eauto. Qed.
Lemma check_inv_tick s v : check_inv s -> check_inv (set_k_tick v s).
Proof.
  intros (Hk & Hc & Hs). split; [by apply kinv_tick|]. split; [done|]. by apply (timers_sane_same s).
Qed.

Lemma check_inv_frame s s' : kinv s' -> is_Some (k_current s') -> sched_frame s s' -> timers_sane s -> check_inv s'.
Proof.
  intros Hk Hc F Hs. split; [done|]. split; [done|]. destruct (sched_frame_timers s s' F) as (E1 & E2 & E3 & _).
  apply (timers_sane_same s); try done. by rewrite E3.
Qed.

Lemma slice_tick_check s c cth :
  check_inv s -> k_current s = Some c -> k_threads s !! c = Some cth ->
  wp slice_tick s (fun _ s' => check_inv s' /\ k_timers s' = k_timers s /\ k_timer_list s' = k_timer_list s /\
    k_tick s' = k_tick s /\ k_irq_nest s' = k_irq_nest s).
Proof.
  intros (Hk & Hcc & Hs) Hc Ht. eapply wp_mono; [by apply (slice_tick_wp s c cth)|]. intros [] s' (Hk' & Hc' & Hpost).
  destruct (_ =? 0).
  - destruct Hpost as (_ & _ & F). destruct (sched_frame_timers _ _ F) as (E1 & E2 & E3 & _ & E5).
    destruct (sched_frame_objects _ _ F) as (_ & _ & _ & E6).
    split; [|done]. eapply check_inv_frame; [done|done|exact F|]. by apply (timers_sane_same s).
  - subst s'. split; [|done]. split; [done|]. split; [done|]. by apply (timers_sane_same s).
Qed.

(** ** Properties *)

(** C5: the tick interrupt keeps the kernel invariant.  Whatever the
    application timeout functions do within their contract, SysTick_Handler
    returns, every assertion on the way holds, the tick counter advances by one
    modulo 2^32, the interrupt nesting is back where it was, no timer at the head
    of the hard list is due, and the invariant holds. *)
Theorem SysTick_Handler_correct user s fuel :
  (forall f p n s, check_inv s -> hard_timer s (TmUser n) -> TmUser n ∉ k_timer_list s ->
     callback_ok (user f p) (TmUser n) s) ->
  check_inv s -> 0 <= k_irq_nest s < 2 ^ 8 - 1 ->
  (length (due_timers (set_k_tick (u32 (k_tick s + 1)) s)) < fuel)%nat ->
  exists s', SysTick_Handler user fuel s = Ok tt s' /\ check_inv s' /\ k_tick s' = u32 (k_tick s + 1) /\
    k_irq_nest s' = k_irq_nest s /\ forall tm, head (k_timer_list s') = Some tm -> ~ expired s' tm.
Proof.
  intros Hu H Hn Hf. pose proof H as (Hk & [c Hc] & Hs). destruct (wf_current (proj1 Hk) c Hc) as (cth & Ht & _).
  enough (wp (SysTick_Handler user fuel) s (fun _ s' => check_inv s' /\ k_tick s' = u32 (k_tick s + 1) /\
    k_irq_nest s' = k_irq_nest s /\ forall tm, head (k_timer_list s') = Some tm -> ~ expired s' tm)) as Hwp.
  { destruct (wp_run _ _ _ Hwp) as ([] & s' & E & Hp). eauto. }
  unfold SysTick_Handler, rt_tick_increase, rt_interrupt_enter, rt_interrupt_leave. kstep. kstep. kstep. kstep. kstep. kstep.
  set (s1 := set_k_tick _ _). assert (check_inv s1) as H1.
  { apply check_inv_tick. split; [|split; [done|by apply (timers_sane_same s)]].
    destruct Hk as [W T]. split; [by apply (wfx_same _ s)|by apply (tinv_same s); eauto]. }
  eapply wp_mono; [by apply (slice_tick_check s1 c cth)|]. intros [] s2 (H2 & E1 & E2 & E3 & E4).
  unfold rt_timer_check. kstep. kstep. eapply wp_mono.
  { apply timer_check_loop_wp; [done|done|]. rewrite (due_timers_same s1 s2) by done.
    rewrite (due_timers_same (set_k_tick (u32 (k_tick s + 1)) s) s1) by done. done. }
  intros [] s3 ((Hk3 & Hc3 & Hs3) & [Et Ei] & Hhd). apply wp_modify. split; [|split; [|split; [|done]]].
  - split; [|split; [done|by apply (timers_sane_same s3)]].
    destruct Hk3 as [W T]. split; [by apply (wfx_same _ s3)|by apply (tinv_same s3); eauto].
  - kproj. rewrite Et, E3. done.
  - kproj. rewrite Ei, E4. unfold s1. kproj. rewrite !u8_small; rewrite ?u8_small; lia.
Qed.

Lemma SysTick_Handler_correct_witness :
  exists s', SysTick_Handler idle_callback 2 (set_k_tick 119 sample) = Ok tt s' /\ check_inv s' /\
    k_tick s' = u32 (119 + 1) /\ k_irq_nest s' = 0 /\
    forall tm, head (k_timer_list s') = Some tm -> ~ expired s' tm.
Proof.
  apply (SysTick_Handler_correct idle_callback (set_k_tick 119 sample) 2);
    [exact idle_callback_ok|exact (check_inv_tick sample_due 119 sample_due_check)|
     vm_compute; split; [discriminate|reflexivity]|vm_compute; lia].
Defined.

(** Round robin.  When the running thread has one tick of its slice left,
    the scheduler is unlocked and the most urgent ready thread has the same
    priority, a tick gives the processor to the head of that queue; the thread
    that ran goes to the tail of the queue, READY, with a full slice again. *)
Theorem round_robin s c cth t l :
  kinv s -> k_current s = Some c -> k_threads s !! c = Some cth -> st cth = RT_THREAD_RUNNING ->
  th_remaining_tick cth = 1 -> k_lock_nest s = 0 ->
  qget s (QReady (th_current_priority cth)) = t :: l ->
  (forall p, 0 <= p < th_current_priority cth -> qget s (QReady p) = []) ->
  exists s' cth', slice_tick s = Ok tt s' /\ kinv s' /\ k_current s' = Some t /\
    qget s' (QReady (th_current_priority cth)) = l ++ [c] /\
    k_threads s' !! c = Some cth' /\ st cth' = RT_THREAD_READY /\ th_remaining_tick cth' = th_init_tick cth.
Proof.
  intros Hk Hc Ht Hr Hrem Hl Hq Hlow.
  destruct (wp_run _ _ _ (slice_tick_wp s c cth Hk Hc Ht)) as ([] & s' & E & Hk' & Hc' & Hpost).
  cbn [ticked th_remaining_tick set_th_remaining_tick] in Hpost. rewrite Hrem in Hpost.
  change (u32 (1 - 1) =? 0) with true in Hpost. cbv iota zeta in Hpost. destruct Hpost as (Hk1 & E1 & F).
  set (s1 := upd_thread c (slice_over cth) s) in *. set (p := th_current_priority cth) in *.
  assert (k_threads s1 !! c = Some (slice_over cth)) as Ht1 by (unfold s1; kproj; apply lookup_insert_eq).
  pose proof (rt_schedule_wp s1 c (slice_over cth) (proj1 Hk1) Hc Ht1 Hl) as Hwp. unfold wp in Hwp. rewrite E1 in Hwp.
  assert (0 <= p < 32) as Hp by apply (wf_prio (proj1 Hk) c cth Ht).
  assert (highest_ready s1 t p) as Hh.
  { split; [done|]. split; [|done]. change (head (qget s (QReady p)) = Some t). by rewrite Hq. }
  destruct (sp_choice _ _ _ _ Hwp t p Hh) as (Hcur & (nth & Hn & Hnr) & Hqs).
  assert (st (slice_over cth) = RT_THREAD_RUNNING) as Hr1.
  { by rewrite (proj1 (slice_over_same cth)). }
  assert (sched_choice c (slice_over cth) t p = t) as Hch.
  { unfold sched_choice. rewrite Hr1. change (th_current_priority (slice_over cth)) with p.
    rewrite Z.ltb_irrefl, !Z.eqb_refl. cbn [andb orb]. by rewrite (proj2 (Z.eqb_neq _ _)) by apply slice_over_yields. }
  rewrite Hch in *. assert (t <> c) as Htc.
  { intros ->. eapply (current_not_ready s c p); [apply Hk|done|rewrite Hq; left]. }
  assert (qget s' (QReady p) = l ++ [c]) as Hqc.
  { rewrite Hqs. unfold queue_after. rewrite decide_False by done. rewrite Hr1, Z.eqb_refl.
    change (th_current_priority (slice_over cth)) with p. rewrite Z.eqb_refl. cbn [andb].
    change (qget s1 (QReady p)) with (qget s (QReady p)). rewrite Hq, without_head; [done|].
    rewrite <- Hq. apply (wf_nodup (proj1 Hk)). }
  destruct (wf_place (proj1 Hk') (QReady p) c) as (cth' & Ec & (Hst & _)).
  { rewrite Hqc. apply elem_of_app. right. left. }
  exists s', cth'. split_and!; try done.
  destruct (sched_frame_lookup s1 s' c (slice_over cth) F Ht1) as (x & Ex & [Hx _]). rewrite Ec in Ex. injection Ex as <-.
  change (th_remaining_tick (set_th_stat 0 cth') = th_init_tick cth). by rewrite Hx.
Qed.

(** The sample with the running thread in the last tick of its slice. *)
Definition sample_last_tick : kst :=
  upd_thread 1 (set_th_remaining_tick 1 (sample_thread 10 RT_THREAD_RUNNING)) sample.

Lemma round_robin_witness :
  exists s' cth', slice_tick sample_last_tick = Ok tt s' /\ kinv s' /\ k_current s' = Some 2%nat /\
    qget s' (QReady 10) = [1%nat] /\ k_threads s' !! 1%nat = Some cth' /\ st cth' = RT_THREAD_READY /\
    th_remaining_tick cth' = 5.
Proof.
  apply (round_robin sample_last_tick 1 (set_th_remaining_tick 1 (sample_thread 10 RT_THREAD_RUNNING)) 2 []);
    [apply kinvb_sound; vm_compute; reflexivity|reflexivity|vm_compute; reflexivity|reflexivity|reflexivity|reflexivity|reflexivity|].
  intros p Hp. change (th_current_priority _) with 10 in Hp. unfold qget.
  change (k_queues sample_last_tick) with (<[QReady 31 := [0%nat]]> (<[QReady 10 := [2%nat]]> (<[QSem 0 := [3%nat]]> (∅ : gmap qid (list nat))))).
  rewrite !lookup_insert_ne by (intros [= E]; lia). reflexivity.
Defined.
