(* ===== verification/Ipc.v ===== *)
(** * Waiting lists of IPC objects (src/ipc.c)

    [rt_ipc_list_suspend], [rt_ipc_list_resume] and [rt_ipc_list_resume_all]:
    what all five kinds of IPC object are built on.  A blocking call is two
    definitions, as in Sleep.v: the part up to its scheduling pass ([_enter])
    returns [Waiting t] when thread [t] went to wait, and the part after it
    ([_resume]) runs when [t] is scheduled again. *)

From stdpp Require Import sorting.
From S2P Require Import Prelude Ffs KState Wf Inv Sched Object Timer Thread TimerRun Sleep.

Inductive outcome (A : Type) : Type :=
| Returned (a : A)
| Waiting (t : nat).
Arguments Returned {A} _.
Arguments Waiting {A} _.

(** The walk of the priority case: the first waiting thread that is less urgent. *)
Fixpoint first_less_urgent (prio : Z) (l : list nat) : K (option nat) :=
  match l with
  | [] => ret None
  | u :: l =>
      sthread <- get_thread u ;;
      if prio <? th_current_priority sthread then ret (Some u) else first_less_urgent prio l
  end.

Definition rt_ipc_list_suspend (q : qid) (t : nat) (flag : Z) : K Z :=
  rt_thread_suspend t ;;
  (if flag =? RT_IPC_FLAG_FIFO then q_append q t
   else if flag =? RT_IPC_FLAG_PRIO then
     th <- get_thread t ;;
     l <- gets (fun s => qget s q) ;;
     n <- first_less_urgent (th_current_priority th) l ;;
     match n with Some u => q_insert_before q u t | None => q_append q t end
   else ret tt) ;;
  ret RT_EOK.

Definition rt_ipc_list_resume (q : qid) : K Z :=
  t <- q_first q ;;
  rt_thread_resume t ;;
  ret RT_EOK.

(** The loop of rt_ipc_list_resume_all: one unit of fuel per waiting thread. *)
Fixpoint resume_all_loop (fuel : nat) (q : qid) : K unit :=
  ne <- q_nonempty q ;;
  if ne then
    match fuel with
    | O => nofuel
    | S fuel =>
        t <- q_first q ;;
        mod_thread t (set_th_error (- RT_ERROR)) ;;
        rt_thread_resume t ;;
        resume_all_loop fuel q
    end
  else ret tt.

Definition rt_ipc_list_resume_all (q : qid) : K Z :=
  l <- gets (fun s => qget s q) ;;
  resume_all_loop (length l) q ;;
  ret RT_EOK.

(** [thread->error], read after the scheduling pass of a blocking call. *)
Definition wait_result (t : nat) : K Z := th <- get_thread t ;; ret (th_error th).

(** ** The order of waiting *)

(** A list that only suspended threads are linked in. *)
Definition wait_list (q : qid) : Prop :=
  match q with QReady _ | QDefunct => False | _ => True end.

Definition thread_prio (s : kst) (t : nat) : Z :=
  match k_threads s !! t with Some th => th_current_priority th | None => 0 end.

(** By priority, behind the threads that are at least as urgent. *)
Fixpoint prio_insert (prio : nat -> Z) (p : Z) (t : nat) (l : list nat) : list nat :=
  match l with
  | [] => [t]
  | u :: l' => if p <? prio u then t :: u :: l' else u :: prio_insert prio p t l'
  end.

Definition wait_insert (s : kst) (flag : Z) (t : nat) (l : list nat) : list nat :=
  if flag =? RT_IPC_FLAG_FIFO then l ++ [t] else prio_insert (thread_prio s) (thread_prio s t) t l.

Lemma prio_insert_perm f p t l : prio_insert f p t l ≡ₚ t :: l.
Proof.
  induction l as [|u l IH]; cbn; [done|]. destruct (p <? f u); [done|]. rewrite IH. by apply Permutation_swap.
Qed.
Lemma wait_insert_perm s flag t l : wait_insert s flag t l ≡ₚ t :: l.
Proof. unfold wait_insert. destruct (flag =? _); [by rewrite Permutation_app_comm|apply prio_insert_perm]. Qed.

Lemma prio_insert_ext f g p t l : (forall u, u ∈ l -> f u = g u) -> prio_insert f p t l = prio_insert g p t l.
Proof.
  induction l as [|u l IH]; intros H; cbn; [done|]. rewrite H by left. destruct (p <? g u); [done|].
  f_equal. apply IH. intros x Hx. apply H. by right.
Qed.

(** Waiting by priority keeps the list sorted, most urgent first. *)
Lemma prio_insert_sorted f p t l :
  f t = p -> StronglySorted (fun a b => f a <= f b) l -> StronglySorted (fun a b => f a <= f b) (prio_insert f p t l).
Proof.
  intros Hp. induction 1 as [|u l Hs IH Hall]; cbn; [repeat constructor|].
  destruct (Z.ltb_spec p (f u)) as [Hlt|Hge].
  - constructor; [by constructor|]. constructor; [lia|]. eapply Forall_impl; [exact Hall|]. cbn. lia.
  - constructor; [done|]. rewrite prio_insert_perm. constructor; [lia|done].
Qed.

(** The new thread stands behind every thread that is at least as urgent. *)
Lemma prio_insert_split f p t l :
  StronglySorted (fun a b => f a <= f b) l ->
  exists l1 l2, l = l1 ++ l2 /\ prio_insert f p t l = l1 ++ t :: l2 /\
    Forall (fun u => f u <= p) l1 /\ Forall (fun u => p < f u) l2.
Proof.
  induction 1 as [|u l Hs IH Hall]; cbn; [exists [], []; repeat constructor|].
  destruct (Z.ltb_spec p (f u)) as [Hlt|Hge].
  - exists [], (u :: l). split_and!; [done|done|constructor|]. constructor; [done|].
    eapply Forall_impl; [exact Hall|]. cbn. lia.
  - destruct IH as (l1 & l2 & -> & -> & H1 & H2). exists (u :: l1), l2. split_and!; [done|done|by constructor|done].
Qed.

(** ** Suspending on a list *)

Lemma first_less_urgent_wp s p l t :
  (forall u, u ∈ l -> is_Some (k_threads s !! u)) -> NoDup l ->
  wp (first_less_urgent p l) s (fun r s' => s' = s /\ (forall v, r = Some v -> v ∈ l) /\
    match r with Some u => insert_before_node u t l | None => l ++ [t] end = prio_insert (thread_prio s) p t l).
Proof.
  induction l as [|u l IH]; intros Hl Hnd; cbn [first_less_urgent]; [by apply wp_ret|].
  destruct (Hl u ltac:(left)) as [uth Hu]. apply NoDup_cons in Hnd as [Hnu Hnd].
  kstep. apply (wp_get_thread _ uth); [done|]. cbn [prio_insert].
  assert (thread_prio s u = th_current_priority uth) as -> by (unfold thread_prio; by rewrite Hu).
  destruct (p <? th_current_priority uth).
  - kstep. split; [done|]. split; [intros v [= <-]; left|]. cbn. by rewrite decide_True.
  - eapply wp_mono; [apply IH; [set_solver|done]|]. intros r s' (-> & Hin & E). split; [done|].
    split; [intros v Hv; right; auto|]. rewrite <- E. destruct r as [v|]; cbn; [|done].
    rewrite decide_False; [done|]. intros ->. auto.
Qed.

(** Linking a suspended, detached thread into a waiting list. *)
Lemma kinv_link s q t th l :
  kinv s -> k_threads s !! t = Some th -> st th = RT_THREAD_SUSPEND -> detached s t -> wait_list q ->
  l ≡ₚ t :: qget s q -> kinv (upd_queue q l s).
Proof.
  intros [W T] Ht Hst Hd Hq Hl. split.
  - apply (wfx_link _ _ _ t th); try done; by destruct q.
  - by apply (tinv_same s); eauto.
Qed.

(** What a waiting list looks like after thread [t] suspended on it. *)
Definition waiting_queue (s : kst) (q : qid) (flag : Z) (t : nat) (q' : qid) : list nat :=
  if decide (q' = q) then wait_insert s flag t (qget s q) else qget s q'.

Lemma rt_ipc_list_suspend_wp s q t th flag :
  kinv s -> k_current s = Some t -> k_threads s !! t = Some th -> st th = RT_THREAD_RUNNING ->
  wait_list q -> flag = RT_IPC_FLAG_FIFO \/ flag = RT_IPC_FLAG_PRIO ->
  wp (rt_ipc_list_suspend q t flag) s (fun r s' => r = RT_EOK /\
    moved s s' t (suspended th) (waiting_queue s q flag t) /\ TmThread t ∉ all_timers s').
Proof.
  intros Hk Hc Ht Hr Hq Hf. pose proof (current_detached s t th (proj1 Hk) Hc Ht Hr) as Hd.
  unfold rt_ipc_list_suspend. kstep. eapply wp_mono; [apply (rt_thread_suspend_wp s t th Hk Ht); by right|].
  intros r s1 (-> & [M1 M2 M3 M4 M5] & Hn).
  assert (forall q', qget s1 q' = qget s q') as Eq by (intros q'; rewrite M4; apply without_notin, Hd).
  assert (k_threads s1 !! t = Some (suspended th)) as Ht1 by (rewrite M3; apply lookup_insert_eq).
  assert (forall l, l = wait_insert s flag t (qget s q) ->
    kinv (upd_queue q l s1) /\ moved s (upd_queue q l s1) t (suspended th) (waiting_queue s q flag t)) as Hend.
  { intros l ->. assert (kinv (upd_queue q (wait_insert s flag t (qget s q)) s1)) as Hk1.
    { apply (kinv_link _ _ t (suspended th)); [done|done|by apply st_with_st| |done|].
      - intros q'. rewrite Eq. apply Hd.
      - rewrite Eq. apply wait_insert_perm. }
    split; [done|]. split; [done|eapply kframe_trans; [exact M2|by apply kframe_same]|done| |done].
    intros q'. unfold waiting_queue. qsimp. rewrite Eq. destruct (decide (q = q')) as [<-|Hne].
    - by rewrite decide_True.
    - by rewrite decide_False by congruence. }
  unfold wait_insert in Hend. destruct Hf as [->| ->].
  - cbn [Z.eqb]. kstep. apply wp_q_append. kstep. split; [done|]. split; [|done]. apply Hend. by rewrite Eq.
  - change (RT_IPC_FLAG_PRIO =? RT_IPC_FLAG_FIFO) with false in *. change (RT_IPC_FLAG_PRIO =? RT_IPC_FLAG_PRIO) with true.
    cbv iota in *. kstep. kstep. apply (wp_get_thread _ (suspended th)); [done|]. kstep. kstep. kstep.
    assert (forall u, u ∈ qget s q -> thread_prio s1 u = thread_prio s u) as Hp.
    { intros u Hu. unfold thread_prio. rewrite M3, lookup_insert_ne; [done|]. intros <-. by apply Hd in Hu. }
    eapply wp_mono; [apply (first_less_urgent_wp s1 _ _ t)|].
    + intros u Hu. destruct (wf_place (proj1 M1) _ _ Hu) as (x & Ex & _). eauto.
    + apply (wf_nodup (proj1 M1)).
    + intros r s2 (-> & _ & E). rewrite Eq in E.
      rewrite (prio_insert_ext _ (thread_prio s)) in E by done.
      assert (th_current_priority (suspended th) = thread_prio s t) as Et by (unfold thread_prio; by rewrite Ht).
      rewrite Et in E. destruct r as [u|].
      * apply wp_modify. kstep. split; [done|]. split; [|done]. apply Hend. by rewrite Eq.
      * apply wp_q_append. kstep. split; [done|]. split; [|done]. apply Hend. by rewrite Eq.
Qed.

(** The first waiting thread becomes runnable. *)
Lemma rt_ipc_list_resume_wp s q t l :
  kinv s -> wait_list q -> qget s q = t :: l ->
  wp (rt_ipc_list_resume q) s (fun r s' => r = RT_EOK /\ exists th, k_threads s !! t = Some th /\
    st th = RT_THREAD_SUSPEND /\ moved s s' t (woken s t th) (woken_queue s t th) /\ TmThread t ∉ all_timers s').
Proof.
  intros Hk Hq El. destruct (wf_place (proj1 Hk) q t) as (th & Ht & Hp); [rewrite El; left|].
  assert (st th = RT_THREAD_SUSPEND) as Hst by (by destruct q).
  unfold rt_ipc_list_resume. kstep. apply (wp_q_first _ t l); [done|]. kstep.
  eapply wp_mono; [by apply (rt_thread_resume_wp s t th)|]. intros r s' (_ & M & Hn). kstep. split; [done|]. eauto.
Qed.

(** The waiting lists after a wake-up: the woken thread is out of its own. *)
Lemma woken_queue_wait s t th q' : wait_list q' -> woken_queue s t th q' = without t (qget s q').
Proof. intros Hq. unfold woken_queue. rewrite decide_False by (intros [_ ->]; done). apply app_nil_r. Qed.

Lemma wait_unique s q q' t :
  kinv s -> t ∈ qget s q -> q' <> q -> without t (qget s q') = qget s q'.
Proof. intros Hk Hin Hne. apply without_notin. intros Hin'. apply Hne. eapply (wf_unique (proj1 Hk)); eauto. Qed.

(** Every thread of [ts] was woken with error -RT_ERROR. *)
Record all_resumed (ts : list nat) (s s' : kst) : Prop := {
  ar_inv : kinv s';
  ar_frame : kframe s s';
  ar_current : k_current s' = k_current s;
  ar_woken : forall t, t ∈ ts -> exists th th', k_threads s !! t = Some th /\ k_threads s' !! t = Some th' /\
    runnable th' /\ set_th_stat 0 th' = set_th_stat 0 (set_th_error (- RT_ERROR) th);
  ar_others : forall t, t ∉ ts -> k_threads s' !! t = k_threads s !! t;
  ar_queues : forall q, wait_list q -> qget s' q = filter (fun t => t ∉ ts) (qget s q)
}.

Lemma filter_self (l : list nat) : filter (fun t => t ∉ l) l = [].
Proof. apply elem_of_nil_inv. intros t. rewrite list_elem_of_filter. tauto. Qed.

Lemma resume_all_loop_wp ts : forall s q,
  kinv s -> wait_list q -> qget s q = ts ->
  wp (resume_all_loop (length ts) q) s (fun _ s' => all_resumed ts s s').
Proof.
  induction ts as [|t ts IH]; intros s q Hk Hq El; cbn [resume_all_loop length]; kstep; apply wp_q_nonempty; rewrite El.
  - rewrite bool_decide_true by done. cbn [negb]. kstep. split; [done|apply kframe_refl|done| |done|].
    + by intros t ?%elem_of_nil.
    + intros q' _. symmetry. apply filter_id. intros t _. apply not_elem_of_nil.
  - rewrite bool_decide_false by done. cbn [negb]. kstep. apply (wp_q_first _ t ts); [done|].
    assert (t ∈ qget s q) as Hin by (rewrite El; left).
    destruct (wf_place (proj1 Hk) q t Hin) as (th & Ht & Hp). assert (st th = RT_THREAD_SUSPEND) as Hst by (by destruct q).
    kstep. apply (wp_mod_thread _ _ th); [done|]. set (th1 := set_th_error (- RT_ERROR) th). set (s1 := upd_thread t th1 s).
    assert (kinv s1) as Hk1 by (by apply (kinv_upd_same s t th)).
    assert (k_threads s1 !! t = Some th1) as Ht1 by (unfold s1; kproj; apply lookup_insert_eq).
    kstep. eapply wp_mono; [by apply (rt_thread_resume_wp s1 t th1)|]. intros r s2 (_ & [M1 M2 M3 M4 M5] & _).
    assert (NoDup (t :: ts)) as Hnd by (rewrite <- El; apply (wf_nodup (proj1 Hk))).
    assert (k_threads s2 = <[t := woken s1 t th1]> (k_threads s)) as Eth by (rewrite M3; unfold s1; kproj; by rewrite insert_insert_eq).
    assert (forall q', wait_list q' -> qget s2 q' = without t (qget s q')) as Eq.
    { intros q' Hq'. by rewrite M4, woken_queue_wait. }
    eapply wp_mono; [apply (IH s2 q); [done|done|by rewrite Eq, El, without_head]|].
    intros [] s3 [A1 A2 A3 A4 A5 A6]. apply NoDup_cons in Hnd as [Hnt Hnd]. split; [done| |by rewrite A3, M5| | |].
    + eapply kframe_trans; [|exact A2]. eapply kframe_trans; [|exact M2]. by apply kframe_same.
    + intros u [->|Hu]%elem_of_cons.
      * exists th, (woken s1 t th1). rewrite A5 by done. rewrite Eth, lookup_insert_eq.
        split_and!; [done|done|apply woken_runnable|done].
      * destruct (A4 u Hu) as (x & x' & Ex & Ex' & Hx). rewrite Eth, lookup_insert_ne in Ex by (intros <-; done). eauto 10.
    + intros u Hu. apply not_elem_of_cons in Hu as [Hne Hu]. rewrite A5 by done. by rewrite Eth, lookup_insert_ne.
    + intros q' Hq'. rewrite A6, Eq by done. unfold without. rewrite list_filter_filter. apply list_filter_iff.
      intros u. rewrite not_elem_of_cons. tauto.
Qed.

Lemma rt_ipc_list_resume_all_wp s q :
  kinv s -> wait_list q ->
  wp (rt_ipc_list_resume_all q) s (fun r s' => r = RT_EOK /\ all_resumed (qget s q) s s').
Proof.
  intros Hk Hq. unfold rt_ipc_list_resume_all. kstep. kstep. kstep. eapply wp_mono; [by apply resume_all_loop_wp|].
  intros [] s' H. by kstep.
Qed.

(** ** Waiting and waking, up to and including the scheduling pass *)

(** Thread [u] changed at most between READY and RUNNING. *)
Definition kept (s s' : kst) (u : nat) : Prop := option_Forall2 thread_step (k_threads s !! u) (k_threads s' !! u).

(** Thread [t] went to wait for [time] ticks (for ever when negative) in list [q],
    which now reads [l]. *)
Record blocked_at (s s' : kst) (q : qid) (l : list nat) (t : nat) (th : rt_thread) (time : Z) : Prop := {
  ba_inv : kinv s';
  ba_frame : kframe s s';
  ba_current : is_Some (k_current s');
  ba_thread : exists th', k_threads s' !! t = Some th' /\ st th' = RT_THREAD_SUSPEND /\ set_th_stat 0 th' = set_th_stat 0 th;
  ba_others : forall u, u <> t -> kept s s' u;
  ba_queues : forall q', wait_list q' -> qget s' q' = if decide (q' = q) then l else qget s q';
  ba_timer : if 0 <? time then TmThread t ∈ k_timer_list s' /\ ticks_left s' (TmThread t) = time
             else TmThread t ∉ all_timers s'
}.

(** Thread [t] went to wait in list [q] for [time] ticks (for ever when negative). *)
Record blocked_post (s s' : kst) (q : qid) (flag : Z) (t : nat) (th : rt_thread) (time : Z) : Prop := {
  bp_inv : kinv s';
  bp_frame : kframe s s';
  bp_current : is_Some (k_current s');
  bp_thread : exists th', k_threads s' !! t = Some th' /\ st th' = RT_THREAD_SUSPEND /\ set_th_stat 0 th' = set_th_stat 0 th;
  bp_others : forall u, u <> t -> kept s s' u;
  bp_queues : forall q', wait_list q' -> qget s' q' = waiting_queue s q flag t q';
  bp_timer : if 0 <? time then TmThread t ∈ k_timer_list s' /\ ticks_left s' (TmThread t) = time
             else TmThread t ∉ all_timers s'
}.

Lemma wait_list_not_ready q : wait_list q -> forall p, q <> QReady p.
Proof. by destruct q. Qed.

Lemma sched_frame_kept s1 s2 s3 u : k_threads s2 !! u = k_threads s1 !! u -> sched_frame s2 s3 -> kept s1 s3 u.
Proof. intros E F. unfold kept. rewrite <- E. apply (sf_threads _ _ F). Qed.

Lemma block_at_wp {A B} (link : K B) s q l t th time (k : K A) Q :
  k_current s = Some t -> k_threads s !! t = Some th -> time < TICK_HALF ->
  wp link s (fun _ s1 => moved s s1 t (suspended th) (fun q' => if decide (q' = q) then l else qget s q') /\ TmThread t ∉ all_timers s1) ->
  (forall s', blocked_at s s' q l t th time -> wp k s' Q) ->
  wp (link ;; when (0 <? time) (start_thread_timer t time) ;; rt_schedule ;; k) s Q.
Proof.
  intros Hc Ht Htime Hlink HQ. kstep. eapply wp_mono; [exact Hlink|].
  intros r s1 ([M1 M2 M3 M4 M5] & Hn). unfold when. kstep.
  assert (k_threads s1 !! t = Some (suspended th)) as Ht1 by (rewrite M3; apply lookup_insert_eq).
  assert (st (suspended th) = RT_THREAD_SUSPEND) as Hst by (by apply st_with_st).
  assert (wp (if 0 <? time then start_thread_timer t time else ret tt) s1 (fun _ s2 => kinv s2 /\ tframe s1 s2 /\
    if 0 <? time then TmThread t ∈ k_timer_list s2 /\ ticks_left s2 (TmThread t) = time else TmThread t ∉ all_timers s2)) as Hwp.
  { destruct (Z.ltb_spec 0 time) as [Hp|Hp].
    - eapply wp_mono; [apply (start_thread_timer_wp s1 t (suspended th)); [done..|lia]|]. intros [] s2 (? & ? & ? & ? & _). auto.
    - kstep. auto using tframe_refl. }
  eapply wp_mono; [exact Hwp|]. intros [] s2 (Hk2 & (KF & F1 & F2 & F3 & F4) & Htm). kstep.
  eapply wp_mono; [apply rt_schedule_kinv; [done|rewrite F3, M5; eauto]|]. intros [] s3 (Hk3 & F & Hc3). apply HQ.
  assert (k_threads s2 !! t = Some (suspended th)) as Ht2 by (by rewrite F1).
  split; [done| |done| | | |].
  - eapply kframe_trans; [exact M2|]. eapply kframe_trans; [exact KF|]. by apply sched_kframe.
  - destruct (sched_frame_lookup s2 s3 t (suspended th) F Ht2) as (th' & Et' & [E Hs]). exists th'. split; [done|].
    split; [|by rewrite E]. destruct Hs as [->|[[Hx|Hx] _]]; [done|rewrite Hst in Hx; done..].
  - intros u Hu. apply (sched_frame_kept s s2); [|done]. by rewrite F1, M3, lookup_insert_ne.
  - intros q' Hq'. rewrite (sf_queues _ _ F) by (by apply wait_list_not_ready). rewrite <- M4. unfold qget. by rewrite F2.
  - destruct (sched_frame_timers s2 s3 F) as (_ & _ & E1 & E2 & _). unfold all_timers in *.
    rewrite E1, E2, (sched_frame_ticks_left s2 s3) by done. done.
Qed.

Lemma block_wp {A} s q t th flag time (k : K A) Q :
  kinv s -> k_current s = Some t -> k_threads s !! t = Some th -> st th = RT_THREAD_RUNNING ->
  wait_list q -> flag = RT_IPC_FLAG_FIFO \/ flag = RT_IPC_FLAG_PRIO -> time < TICK_HALF ->
  (forall s', blocked_post s s' q flag t th time -> wp k s' Q) ->
  wp (rt_ipc_list_suspend q t flag ;; when (0 <? time) (start_thread_timer t time) ;; rt_schedule ;; k) s Q.
Proof.
  intros Hk Hc Ht Hr Hq Hf Htime HQ. apply (block_at_wp _ s q (wait_insert s flag t (qget s q)) t th); [done|done|done| |].
  - eapply wp_mono; [by apply (rt_ipc_list_suspend_wp s q t th flag)|]. by intros r s1 (_ & M & Hn).
  - intros s' [B1 B2 B3 B4 B5 B6 B7]. apply HQ. by split.
Qed.

(** A running thread that suspends and links itself at one end of a list. *)
Lemma suspend_link_wp s q t th l (link : K unit) :
  kinv s -> k_current s = Some t -> k_threads s !! t = Some th -> st th = RT_THREAD_RUNNING -> wait_list q ->
  (link = q_prepend q t /\ l = t :: qget s q) \/ (link = q_append q t /\ l = qget s q ++ [t]) ->
  wp (rt_thread_suspend t ;; link) s (fun _ s1 => moved s s1 t (suspended th) (fun q' => if decide (q' = q) then l else qget s q') /\
    TmThread t ∉ all_timers s1).
Proof.
  intros Hk Hc Ht Hr Hq Hl. pose proof (current_detached s t th (proj1 Hk) Hc Ht Hr) as Hd.
  kstep. eapply wp_mono; [apply (rt_thread_suspend_wp s t th Hk Ht); by right|]. intros r s1 (-> & [M1 M2 M3 M4 M5] & Hn).
  assert (forall q', qget s1 q' = qget s q') as Eq by (intros q'; rewrite M4; apply without_notin, Hd).
  assert (moved s (upd_queue q l s1) t (suspended th) (fun q' => if decide (q' = q) then l else qget s q')) as Hend.
  { split; [|eapply kframe_trans; [exact M2|by apply kframe_same]|done| |done].
    - apply (kinv_link _ _ t (suspended th)); [done|rewrite M3; apply lookup_insert_eq|by apply st_with_st|intros q'; rewrite Eq; apply Hd|done|].
      rewrite Eq. destruct Hl as [[_ ->]|[_ ->]]; [done|by rewrite Permutation_app_comm].
    - intros q'. qsimp. rewrite Eq. destruct (decide (q = q')) as [<-|Hne]; [by rewrite decide_True|by rewrite decide_False by congruence]. }
  destruct Hl as [[-> ->]|[-> ->]]; apply wp_modify; rewrite Eq; done.
Qed.

(** The first thread of waiting list [q] was woken. *)
Record woken_post (s s' : kst) (q : qid) (t : nat) : Prop := {
  wo_inv : kinv s';
  wo_frame : kframe s s';
  wo_current : is_Some (k_current s');
  wo_thread : exists th th', k_threads s !! t = Some th /\ k_threads s' !! t = Some th' /\ runnable th' /\
    set_th_stat 0 th' = set_th_stat 0 th;
  wo_others : forall u, u <> t -> kept s s' u;
  wo_queues : forall q', wait_list q' -> qget s' q' = if decide (q' = q) then tail (qget s q) else qget s q'
}.

Lemma resume_first_wp {A} s q t l (k : K A) Q :
  kinv s -> is_Some (k_current s) -> wait_list q -> qget s q = t :: l ->
  (forall s', woken_post s s' q t -> TmThread t ∉ all_timers s' -> k_current s' = k_current s -> wp k s' Q) ->
  wp (rt_ipc_list_resume q ;; k) s Q.
Proof.
  intros Hk Hc Hq El HQ. kstep. eapply wp_mono; [by apply (rt_ipc_list_resume_wp s q t l)|].
  intros r s1 (_ & th & Ht & Hst & [M1 M2 M3 M4 M5] & Hn). apply HQ; [|done|done].
  assert (t ∈ qget s q) as Hin by (rewrite El; left).
  split; [done|done|by rewrite M5| | |].
  - exists th, (woken s t th). split_and!; [done|rewrite M3; apply lookup_insert_eq|apply woken_runnable|done].
  - intros u Hu. unfold kept. rewrite M3, lookup_insert_ne by done. apply option_Forall2_refl_step.
  - intros q' Hq'. rewrite M4, woken_queue_wait by done. case_decide as E; [|by eapply wait_unique].
    subst q'. rewrite El, without_head; [done|]. rewrite <- El. apply (wf_nodup (proj1 Hk)).
Qed.

Lemma kept_trans s1 s2 s3 u : kept s1 s2 u -> kept s2 s3 u -> kept s1 s3 u.
Proof.
  unfold kept. intros H1 H2. destruct H1 as [a b H1|]; inversion H2; subst; constructor. eauto using thread_step_trans.
Qed.
Lemma kept_frame s s' u : sched_frame s s' -> kept s s' u.
Proof. intros F. apply (sf_threads _ _ F). Qed.

(** A scheduling pass after a wake-up. *)
Lemma woken_post_sched s s1 s2 q t :
  woken_post s s1 q t -> sched_frame s1 s2 -> kinv s2 -> is_Some (k_current s2) -> woken_post s s2 q t.
Proof.
  intros [P1 P2 P3 (th & th' & Ht & Ht' & Hr & E) P5 P6] F Hk Hc. split; [done| |done| | |].
  - eapply kframe_trans; [exact P2|by apply sched_kframe].
  - destruct (sched_frame_lookup s1 s2 t th' F Ht') as (x & Ex & Hx). exists th, x. split_and!; [done|done| |].
    + by eapply thread_step_runnable.
    + destruct Hx as [-> _]. done.
  - intros u Hu. eapply kept_trans; [by apply P5|by apply kept_frame].
  - intros q' Hq'. rewrite (sf_queues _ _ F) by (by apply wait_list_not_ready). auto.
Qed.

Lemma kframe_ipc s s' : kframe s s' -> ipc_data s' = ipc_data s.
Proof. intros [H _]. unfold misc in H. unfold ipc_data in *. by injection H as E1 E2 E3 E4 E5 E6 E7 E8 E9 E10; congruence. Qed.

(** The waiting-list flag of an object: FIFO or by priority. *)
Definition ipc_header (s : kst) (o : oid) (cls flag : Z) : Prop :=
  exists ob, k_objects s !! o = Some ob /\ Z.land (o_type ob) (Z.lnot RT_Object_Class_Static) = cls /\
    o_flag ob = flag /\ (flag = RT_IPC_FLAG_FIFO \/ flag = RT_IPC_FLAG_PRIO).

Lemma kframe_header s s' o cls flag :
  kframe s s' -> (forall tm, o <> OTimer tm) -> ipc_header s o cls flag -> ipc_header s' o cls flag.
Proof. intros [_ H] Ho (ob & E & Hx). exists ob. by rewrite H. Qed.

Lemma wait_insert_ext s s' flag t l :
  (forall u, u = t \/ u ∈ l -> thread_prio s' u = thread_prio s u) -> wait_insert s' flag t l = wait_insert s flag t l.
Proof.
  intros E. unfold wait_insert. destruct (flag =? _); [done|]. rewrite E by (by left). apply prio_insert_ext. auto.
Qed.

Lemma kept_prio s s' u : kept s s' u -> thread_prio s' u = thread_prio s u.
Proof.
  unfold kept, thread_prio. intros [x y [E _]|]; [|done]. by apply (f_equal th_current_priority) in E.
Qed.
Lemma kept_open s s' u th : kept s s' u -> k_threads s !! u = Some th -> st th <> RT_THREAD_CLOSE ->
  exists th', k_threads s' !! u = Some th' /\ st th' <> RT_THREAD_CLOSE.
Proof.
  unfold kept. intros H Ht Hst. rewrite Ht in H. inversion H as [x y [_ Hs]|]; subst. exists y. split; [done|].
  destruct Hs as [->|[_ Hr]]; [done|by apply runnable_open].
Qed.

Lemma wait_insert_upd s t th th' flag u l :
  k_threads s !! t = Some th -> th_current_priority th' = th_current_priority th ->
  wait_insert (upd_thread t th' s) flag u l = wait_insert s flag u l.
Proof.
  intros Ht E. unfold wait_insert. destruct (flag =? _); [done|].
  assert (forall v, thread_prio (upd_thread t th' s) v = thread_prio s v) as Ep.
  { intros v. unfold thread_prio. rewrite lookup_upd_thread. case_decide; [|done]. subst. by rewrite Ht. }
  rewrite Ep. by apply prio_insert_ext.
Qed.

(** ** Calls from a running thread *)

(** Thread [c] is running and calls the kernel outside interrupts. *)
Record caller (s : kst) (c : nat) (th : rt_thread) : Prop := {
  ca_current : k_current s = Some c;
  ca_thread : k_threads s !! c = Some th;
  ca_running : st th = RT_THREAD_RUNNING;
  ca_nest : k_irq_nest s = 0
}.

Lemma sample_caller : caller sample 1 (sample_thread 10 RT_THREAD_RUNNING).
Proof. by split. Qed.

Lemma wp_in_thread_context s c th Q : caller s c th -> Q tt s -> wp RT_DEBUG_IN_THREAD_CONTEXT s Q.
Proof.
  intros [Hc _ _ Hi] HQ. unfold RT_DEBUG_IN_THREAD_CONTEXT, RT_DEBUG_NOT_IN_INTERRUPT. kstep. kstep. rewrite Hc. kstep.
  apply wp_assert; [by apply bool_decide_eq_true|]. kstep. kstep. apply wp_assert; [by rewrite Hi|done].
Qed.

(** Fields of the caller that are set before it goes to wait. *)
Lemma caller_upd s c th th' : caller s c th -> st th' = st th -> caller (upd_thread c th' s) c th'.
Proof. intros [H1 H2 H3 H4] E. split; [done|kproj; apply lookup_insert_eq|by rewrite E|done]. Qed.

Lemma blocked_post_upd s s' q flag t th th1 time :
  k_threads s !! t = Some th -> th_current_priority th1 = th_current_priority th ->
  blocked_post (upd_thread t th1 s) s' q flag t th1 time -> blocked_post s s' q flag t th1 time.
Proof.
  intros Ht E [B1 B2 B3 B4 B5 B6 B7]. split; [done| |done|done| | |done].
  - eapply kframe_trans; [|exact B2]. by apply kframe_same.
  - intros u Hu. specialize (B5 u Hu). unfold kept in *. by rewrite lookup_upd_thread, decide_False in B5.
  - intros q' Hq'. rewrite B6 by done. unfold waiting_queue. qsimp. by rewrite (wait_insert_upd s t th).
Qed.

(** A caller whose record was updated to [th1] goes to wait. *)
Lemma block_upd_wp {A} s q c th th1 flag time (k : K A) Q :
  kinv s -> caller s c th -> sched_same th th1 -> wait_list q -> flag = RT_IPC_FLAG_FIFO \/ flag = RT_IPC_FLAG_PRIO ->
  time < TICK_HALF -> (forall s', blocked_post s s' q flag c th1 time -> wp k s' Q) ->
  wp (rt_ipc_list_suspend q c flag ;; when (0 <? time) (start_thread_timer c time) ;; rt_schedule ;; k) (upd_thread c th1 s) Q.
Proof.
  intros Hk [Hc Ht Hr _] Hs Hq Hf Htime HQ. apply (block_wp _ _ _ th1); try done.
  - by apply (kinv_upd_same s c th).
  - kproj. apply lookup_insert_eq.
  - destruct Hs as [E _]. by rewrite E.
  - intros s' B. apply HQ. apply (blocked_post_upd s s' q flag c th); [done|apply Hs|done].
Qed.

(** The same for a thread that links itself at one end of a list. *)
Lemma block_link_upd_wp {A} s q c th th1 time l (link : K unit) (k : K A) Q :
  kinv s -> caller s c th -> sched_same th th1 -> wait_list q -> time < TICK_HALF ->
  (link = q_prepend q c /\ l = c :: qget s q) \/ (link = q_append q c /\ l = qget s q ++ [c]) ->
  (forall s', blocked_at s s' q l c th1 time -> wp k s' Q) ->
  wp ((rt_thread_suspend c ;; link) ;; when (0 <? time) (start_thread_timer c time) ;; rt_schedule ;; k) (upd_thread c th1 s) Q.
Proof.
  intros Hk [Hc Ht Hr _] Hs Hq Htime Hl HQ. assert (k_threads (upd_thread c th1 s) !! c = Some th1) as Ht1 by (kproj; apply lookup_insert_eq).
  apply (block_at_wp _ _ q l c th1); [done|done|done| |].
  - apply suspend_link_wp; [by apply (kinv_upd_same s c th)|done|done|destruct Hs as [E _]; by rewrite E|done|exact Hl].
  - intros s' [B1 B2 B3 B4 B5 B6 B7]. apply HQ. split; [done| |done|done| |done|done].
    + eapply kframe_trans; [|exact B2]. by apply kframe_same.
    + intros u Hu. specialize (B5 u Hu). unfold kept in *. by rewrite lookup_upd_thread, decide_False in B5.
Qed.

(** Waking the first thread of a list, by name. *)
Lemma resume_known_wp {A} s q t l (k : K A) Q :
  qget s q = t :: l -> wp (rt_ipc_list_resume q ;; k) s Q -> wp (rt_thread_resume t ;; k) s Q.
Proof.
  intros El. unfold rt_ipc_list_resume, wp, bind, q_first, deref. rewrite El. cbn. by destruct (rt_thread_resume t s).
Qed.

(** The waiting list of [q] after the caller went to wait. *)
Lemma blocked_here s s' q flag t th time :
  blocked_post s s' q flag t th time -> wait_list q -> qget s' q = wait_insert s flag t (qget s q).
Proof. intros B Hq. rewrite (bp_queues _ _ _ _ _ _ _ B) by done. unfold waiting_queue. by rewrite decide_True. Qed.

(** The two flags a waiting list can have. *)
Lemma header_flag s o cls flag : ipc_header s o cls flag -> flag = RT_IPC_FLAG_FIFO \/ flag = RT_IPC_FLAG_PRIO.
Proof. by intros (ob & _ & _ & _ & ?). Qed.
Lemma wp_ipc_type s o cls flag Q : ipc_header s o cls flag -> Q tt s -> wp (assert_type o cls) s Q.
Proof. intros (ob & E & Hty & _) HQ. by apply (wp_assert_type _ ob). Qed.
Lemma wp_ipc_flag s o cls flag {A} (k : rt_object -> K A) Q :
  ipc_header s o cls flag -> (forall ob, o_flag ob = flag -> wp (k ob) s Q) -> wp (ob <- get_object o ;; k ob) s Q.
Proof. intros (ob & E & _ & Hf & _) HQ. kstep. apply (wp_deref _ ob); [done|auto]. Qed.
Lemma header_upd_thread s t th o cls flag :
  ipc_header s o cls flag -> ipc_header (upd_thread t th s) o cls flag.
Proof. done. Qed.

(** ** Closing an IPC object *)

Definition ipc_object (o : oid) : Prop := match o with OThread _ | OTimer _ => False | _ => True end.

Lemma kinv_headers s m c :
  kinv s -> (forall o, ~ ipc_object o -> m !! o = k_objects s !! o) -> kinv (set_k_containers c (set_k_objects m s)).
Proof.
  intros [W [T1 T2 T3 T4]] Hm. split; [by apply (wfx_same _ s)|].
  assert (forall t, m !! OThread t = k_objects s !! OThread t) as E1 by (intros; apply Hm; cbn; tauto).
  assert (forall tm, m !! OTimer tm = k_objects s !! OTimer tm) as E2 by (intros; apply Hm; cbn; tauto).
  split; unfold has_type, thread_timer_ok, timer_activated; kproj.
  - intros t th Ht Hs. rewrite E1, E2. by apply (T1 t th).
  - done.
  - intros tm Htm. rewrite E2. by apply T3.
  - intros t Ht. rewrite E2. by apply T4.
Qed.

(** The threads [ts] were woken with -RT_ERROR and the object is gone: no
    routine accepts it any more. *)
Record ipc_closed (ts : list nat) (s s' : kst) (o : oid) : Prop := {
  ic_inv : kinv s';
  ic_woken : forall t, t ∈ ts -> exists th th', k_threads s !! t = Some th /\ k_threads s' !! t = Some th' /\
    runnable th' /\ set_th_stat 0 th' = set_th_stat 0 (set_th_error (- RT_ERROR) th);
  ic_others : forall t, t ∉ ts -> k_threads s' !! t = k_threads s !! t;
  ic_queues : forall q, wait_list q -> qget s' q = filter (fun t => t ∉ ts) (qget s q);
  ic_untyped : forall cls, cls <> 0 -> ~ has_type s' o cls;
  ic_unregistered : forall cls, o ∉ object_list s' cls
}.

Lemma all_resumed_closed ts s s1 m o :
  all_resumed ts s s1 -> ipc_object o ->
  (forall o', o' <> o -> m !! o' = k_objects s1 !! o') -> (forall ob, m !! o = Some ob -> o_type ob = 0) ->
  ipc_closed ts s (set_k_containers (without o <$> k_containers s1) (set_k_objects m s1)) o.
Proof.
  intros [A1 A2 A3 A4 A5 A6] Ho Hm Hn. split; [|done|done|done| |].
  - apply kinv_headers; [done|]. intros o' Ho'. apply Hm. intros ->. done.
  - intros cls Hc (ob & E & Hty). apply Hn in E. rewrite E in Hty. by apply Hc.
  - intros cls. change (o ∉ object_list (unattach o s1) cls). rewrite object_list_unattach, elem_of_without. tauto.
Qed.

Lemma resumed_object ts s s1 o ob : all_resumed ts s s1 -> ipc_object o -> k_objects s !! o = Some ob -> k_objects s1 !! o = Some ob.
Proof. intros A Ho E. rewrite (proj2 (ar_frame _ _ _ A)); [done|]. by intros tm ->. Qed.

Lemma detach_tail_wp ts s s1 o ob :
  all_resumed ts s s1 -> ipc_object o -> k_objects s !! o = Some ob ->
  wp (rt_object_detach o ;; ret RT_EOK) s1 (fun r s' => r = RT_EOK /\ ipc_closed ts s s' o).
Proof.
  intros A Ho E. pose proof (resumed_object _ _ _ _ _ A Ho E) as E1. unfold rt_object_detach. kstep. kstep.
  apply (wp_mod_object _ _ ob); [done|]. apply wp_modify. kstep. split; [done|].
  apply (all_resumed_closed ts s s1 (<[o := set_o_type 0 ob]> (k_objects s1))); [done|done| |].
  - intros o' Hne. by rewrite lookup_insert_ne.
  - intros ob'. rewrite lookup_insert_eq. by intros [= <-].
Qed.

Lemma delete_tail_wp ts s s1 o ob :
  all_resumed ts s s1 -> ipc_object o -> k_objects s !! o = Some ob -> Z.land (o_type ob) RT_Object_Class_Static = 0 ->
  wp (rt_object_delete o ;; ret RT_EOK) s1 (fun r s' => r = RT_EOK /\ ipc_closed ts s s' o).
Proof.
  intros A Ho E Hd. pose proof (resumed_object _ _ _ _ _ A Ho E) as E1. unfold rt_object_delete, rt_object_is_systemobject.
  kstep. kstep. kstep. apply (wp_deref _ ob); [done|]. kstep. rewrite Hd. kstep. apply wp_assert; [done|]. kstep.
  apply (wp_mod_object _ _ ob); [done|]. kstep. apply wp_modify. apply wp_modify. kstep. split; [done|].
  refine (all_resumed_closed ts s s1 (delete o (<[o := set_o_type 0 ob]> (k_objects s1))) o A Ho _ _).
  - intros o' Hne. by rewrite lookup_delete_ne, lookup_insert_ne.
  - intros ob'. by rewrite lookup_delete_eq.
Qed.

(** Static and heap objects of class [cls]. *)
Definition static_object (s : kst) (o : oid) (cls : Z) : Prop :=
  exists ob, k_objects s !! o = Some ob /\ o_type ob = Z.lor cls RT_Object_Class_Static.
Definition heap_object (s : kst) (o : oid) (cls : Z) : Prop :=
  exists ob, k_objects s !! o = Some ob /\ o_type ob = cls.

Definition ipc_class (cls : Z) : Prop := cls ∈ [RT_Object_Class_Semaphore; RT_Object_Class_Mutex; RT_Object_Class_Event;
  RT_Object_Class_MailBox; RT_Object_Class_MessageQueue; RT_Object_Class_MemPool; RT_Object_Class_Device].

Lemma class_bits cls : ipc_class cls ->
  Z.land (Z.lor cls RT_Object_Class_Static) (Z.lnot RT_Object_Class_Static) = cls /\
  Z.land (Z.lor cls RT_Object_Class_Static) RT_Object_Class_Static <> 0 /\
  Z.land cls (Z.lnot RT_Object_Class_Static) = cls /\ Z.land cls RT_Object_Class_Static = 0.
Proof.
  unfold ipc_class. rewrite !elem_of_cons, elem_of_nil. intros Hc. destruct_or! Hc; subst; try done; by split_and!.
Qed.

(** The guards of the detaching and deleting routines. *)
Lemma wp_static_guard {A} s o cls (k : K A) Q :
  static_object s o cls -> ipc_class cls -> wp k s Q ->
  wp (assert_type o cls ;; sys <- rt_object_is_systemobject o ;; RT_ASSERT sys ;; k) s Q.
Proof.
  intros (ob & E & Hty) Hc HQ. destruct (class_bits cls Hc) as (B1 & B2 & _).
  kstep. apply (wp_assert_type _ ob); [done|by rewrite Hty|]. unfold rt_object_is_systemobject. kstep. kstep.
  apply (wp_deref _ ob); [done|]. kstep. kstep. apply wp_assert; [|done]. rewrite Hty. by apply negb_true_iff, Z.eqb_neq.
Qed.
Lemma wp_heap_guard {A} s o cls (k : K A) Q :
  heap_object s o cls -> ipc_class cls -> wp k s Q ->
  wp (assert_type o cls ;; sys <- rt_object_is_systemobject o ;; RT_ASSERT (negb sys) ;; k) s Q.
Proof.
  intros (ob & E & Hty) Hc HQ. destruct (class_bits cls Hc) as (_ & _ & B1 & B2).
  kstep. apply (wp_assert_type _ ob); [done|by rewrite Hty|]. unfold rt_object_is_systemobject. kstep. kstep.
  apply (wp_deref _ ob); [done|]. kstep. kstep. apply wp_assert; [|done]. by rewrite Hty, B2.
Qed.

(** The routines of one waiting list: rt_sem_detach, rt_mutex_detach, rt_event_detach. *)
Lemma ipc_detach_wp s q o cls :
  kinv s -> wait_list q -> ipc_object o -> ipc_class cls -> static_object s o cls ->
  wp (assert_type o cls ;; sys <- rt_object_is_systemobject o ;; RT_ASSERT sys ;;
      rt_ipc_list_resume_all q ;; rt_object_detach o ;; ret RT_EOK) s
    (fun r s' => r = RT_EOK /\ ipc_closed (qget s q) s s' o).
Proof.
  intros Hk Hq Ho Hc Hs. apply wp_static_guard; [done|done|]. kstep.
  eapply wp_mono; [by apply rt_ipc_list_resume_all_wp|]. intros r s1 [_ A]. destruct Hs as (ob & E & _).
  by apply (detach_tail_wp _ _ _ _ ob).
Qed.
Lemma ipc_delete_wp s q o cls :
  kinv s -> wait_list q -> ipc_object o -> ipc_class cls -> heap_object s o cls ->
  wp (assert_type o cls ;; sys <- rt_object_is_systemobject o ;; RT_ASSERT (negb sys) ;;
      rt_ipc_list_resume_all q ;; rt_object_delete o ;; ret RT_EOK) s
    (fun r s' => r = RT_EOK /\ ipc_closed (qget s q) s s' o).
Proof.
  intros Hk Hq Ho Hc Hs. apply wp_heap_guard; [done|done|]. kstep.
  eapply wp_mono; [by apply rt_ipc_list_resume_all_wp|]. intros r s1 [_ A]. destruct Hs as (ob & E & Hty).
  apply (delete_tail_wp _ _ _ _ ob); [done|done|done|]. rewrite Hty. by apply class_bits.
Qed.

(** Two waiting lists, one after the other: mailboxes and message queues. *)
Lemma all_resumed_app l1 l2 s s1 s2 :
  all_resumed l1 s s1 -> all_resumed l2 s1 s2 -> (forall t, t ∈ l1 -> t ∉ l2) -> all_resumed (l1 ++ l2) s s2.
Proof.
  intros [A1 A2 A3 A4 A5 A6] [B1 B2 B3 B4 B5 B6] Hd. split; [done|by eapply kframe_trans|congruence| | |].
  - intros t [Ht|Ht]%elem_of_app.
    + destruct (A4 t Ht) as (th & th' & ? & ? & ?). exists th, th'. by rewrite B5 by auto.
    + destruct (B4 t Ht) as (th & th' & E & ? & ?). exists th, th'. rewrite A5 in E; [done|]. intros ?. by eapply Hd.
  - intros t Ht. rewrite not_elem_of_app in Ht. by rewrite B5, A5 by tauto.
  - intros q Hq. rewrite B6, A6 by done. rewrite list_filter_filter. apply list_filter_iff. intros t.
    rewrite not_elem_of_app. tauto.
Qed.

Lemma resume_two_wp {A} s q1 q2 (k : K A) Q :
  kinv s -> wait_list q1 -> wait_list q2 -> q1 <> q2 ->
  (forall s', all_resumed (qget s q1 ++ qget s q2) s s' -> wp k s' Q) ->
  wp (rt_ipc_list_resume_all q1 ;; rt_ipc_list_resume_all q2 ;; k) s Q.
Proof.
  intros Hk H1 H2 Hne HQ. kstep. eapply wp_mono; [by apply rt_ipc_list_resume_all_wp|]. intros r s1 [_ A1]. kstep.
  eapply wp_mono; [apply rt_ipc_list_resume_all_wp; [apply A1|done]|]. intros r' s2 [_ A2]. apply HQ.
  assert (forall t, t ∈ qget s q1 -> t ∉ qget s q2) as Hd.
  { intros t Ht1 Ht2. apply Hne. eapply (wf_unique (proj1 Hk)); eauto. }
  assert (qget s1 q2 = qget s q2) as E.
  { rewrite (ar_queues _ _ _ A1) by done. apply filter_id. intros t Ht Ht'. by apply (Hd t). }
  rewrite E in A2. by apply (all_resumed_app _ _ s s1 s2).
Qed.

(** ** Initialising an IPC object *)

(** Object [o] of class [cls] is not registered and no thread is in its list [q]. *)
Record fresh_object (s : kst) (o : oid) (cls : Z) (q : qid) : Prop := {
  fo_inv : kinv s;
  fo_lock : 0 <= k_lock_nest s < 2 ^ 15 - 1;
  fo_new : ~ registered s cls o;
  fo_empty : qget s q = [];
  fo_kind : ipc_object o /\ ipc_class cls /\ wait_list q
}.

Lemma kinv_header_upd s o ob : kinv s -> ipc_object o -> kinv (set_k_objects (<[o := ob]> (k_objects s)) s).
Proof.
  intros Hk Ho. replace (set_k_objects _ s) with (set_k_containers (k_containers s) (set_k_objects (<[o := ob]> (k_objects s)) s))
    by (by destruct s).
  apply kinv_headers; [done|]. intros o' Ho'. rewrite lookup_insert_ne; [done|]. intros <-. done.
Qed.
Lemma kinv_q_init s q : kinv s -> qget s q = [] -> kinv (upd_queue q [] s).
Proof.
  intros [W T] E. split; [|by apply (tinv_same s); eauto]. apply (wfx_same _ s); try done.
  intros q'. qsimp. case_decide; subst; done.
Qed.

Lemma init_object_irq_wp {A} s o cls q l (k : K A) Q :
  fresh_object s o cls q -> chars_ok l ->
  (forall s1, kinv s1 -> (forall q, wait_list q -> qget s1 q = qget s q) -> ipc_data s1 = ipc_data s ->
     k_objects s1 !! o = Some (static_header s o cls l) -> k_irq_nest s1 = k_irq_nest s -> wp k s1 Q) ->
  wp (rt_object_init o cls (cstring l) ;; k) s Q.
Proof.
  intros [Hk Hl Hn He (Ho & Hc & Hq)] Hch HQ. kstep. eapply wp_mono; [apply (rt_object_init_wp s o cls (cstring l) l)|].
  - apply Hk.
  - done.
  - unfold ipc_class in Hc. rewrite !elem_of_cons, elem_of_nil in Hc. destruct_or! Hc; subst; try done; by eexists.
  - by apply rt_strncpy_ok.
  - done.
  - intros [] s' (s1 & W & F & ->). apply HQ.
    + apply kinv_headers; [by apply (sched_kinv s)|]. intros o' Ho'. rewrite lookup_insert_ne; [done|]. intros <-. done.
    + intros q' Hq'. change (qget s1 q' = qget s q'). apply (sf_queues _ _ F). by apply wait_list_not_ready.
    + change (ipc_data s1 = ipc_data s). by apply kframe_ipc, sched_kframe.
    + unfold attach. kproj. apply lookup_insert_eq.
    + pose proof (sf_rest _ _ F) as E. unfold rest in E. by injection E.
Qed.
Lemma init_object_wp {A} s o cls q l (k : K A) Q :
  fresh_object s o cls q -> chars_ok l ->
  (forall s1, kinv s1 -> (forall q, wait_list q -> qget s1 q = qget s q) -> ipc_data s1 = ipc_data s ->
     k_objects s1 !! o = Some (static_header s o cls l) -> wp k s1 Q) ->
  wp (rt_object_init o cls (cstring l) ;; k) s Q.
Proof. intros Hf Hl HQ. apply (init_object_irq_wp s o cls q l k Q Hf Hl). intros s1 H1 H2 H3 H4 _. by apply HQ. Qed.

(** ** Parts mailboxes and message queues share *)

(** [timeout -= rt_tick_get() - start], not below zero; a call that waits for
    ever keeps its negative timeout. *)
Definition remaining_time (timeout start now : Z) : Z :=
  if 0 <? timeout then
    let left := i32 (timeout - u32 (now - start)) in
    if left <? 0 then 0 else left
  else timeout.

(** Wake the first thread of [q], if any, and let the scheduler choose. *)
Definition wake_one (q : qid) : K unit :=
  waiting <- q_nonempty q ;;
  when waiting (rt_ipc_list_resume q ;; rt_schedule).

(** Go to wait in [q], on behalf of object [o]. *)
Definition wait_in (q : qid) (o : oid) (t : nat) (timeout : Z) : K unit :=
  RT_DEBUG_IN_THREAD_CONTEXT ;;
  ob <- get_object o ;;
  rt_ipc_list_suspend q t (o_flag ob) ;;
  when (0 <? timeout) (start_thread_timer t timeout) ;;
  rt_schedule.

Lemma wp_end (m : K unit) s Q : wp (m ;; ret tt) s Q -> wp m s Q.
Proof. unfold wp, bind, ret. by destruct (m s) as [[] ?| | |]. Qed.

Lemma wait_in_wp s q o cls flag c th th1 timeout :
  kinv s -> caller s c th -> sched_same th th1 -> ipc_header s o cls flag -> wait_list q -> timeout < TICK_HALF ->
  wp (wait_in q o c timeout) (upd_thread c th1 s) (fun _ s' => blocked_post s s' q flag c th1 timeout).
Proof.
  intros Hk Hca Hs Hh Hq Hmax. unfold wait_in. kstep.
  apply (wp_in_thread_context _ c th1); [apply (caller_upd s c th); [done|apply Hs]|].
  apply (wp_ipc_flag _ _ cls flag); [by apply header_upd_thread|]. intros ob ->. kstep.
  pose proof (block_upd_wp s q c th th1 flag timeout (ret tt) (fun _ s' => blocked_post s s' q flag c th1 timeout)
    Hk Hca Hs Hq (header_flag _ _ _ _ Hh) Hmax (fun s' B => wp_ret tt s' (fun _ s' => blocked_post s s' q flag c th1 timeout) B)) as H.
  apply wp_unbind in H. eapply wp_mono; [exact H|]. intros r s1 H1. cbv beta in H1. apply wp_unbind in H1. kstep.
  eapply wp_mono; [exact H1|]. intros [] s2 H2.
  by apply wp_end.
Qed.

(** The first thread of [q] was woken, if there is one. *)
Definition woke (s s' : kst) (q : qid) : Prop :=
  match qget s q with [] => s' = s | t :: _ => woken_post s s' q t end.

Lemma wake_one_wp s q :
  kinv s -> is_Some (k_current s) -> wait_list q -> wp (wake_one q) s (fun _ s' => kinv s' /\ woke s s' q).
Proof.
  intros Hk Hc Hq. unfold wake_one, woke. kstep. apply wp_q_nonempty. destruct (qget s q) as [|t l] eqn:El.
  - rewrite bool_decide_true by done. unfold when. cbn [negb]. by kstep.
  - rewrite bool_decide_false by done. unfold when. cbn [negb]. apply (resume_first_wp s q t l); [done..|]. intros s1 P _ Ec.
    eapply wp_mono; [apply rt_schedule_kinv; [apply P|by rewrite Ec]|]. intros [] s2 (Hk2 & F & Hc2).
    split; [done|]. by eapply woken_post_sched.
Qed.

Lemma woke_frame s s' q : woke s s' q -> kframe s s'.
Proof. unfold woke. destruct (qget s q); [intros ->; apply kframe_refl|apply wo_frame]. Qed.

(** ** Resetting an IPC object *)

(** The threads [ts] are runnable and their calls fail with -RT_ERROR. *)
Definition failed (s : kst) (ts : list nat) : Prop :=
  forall t, t ∈ ts -> exists th, k_threads s !! t = Some th /\ runnable th /\ th_error th = - RT_ERROR.

(** The scheduling pass at the end of a reset, [s2] being the state with the
    object's data set. *)
Lemma reset_schedule_wp ts s s1 s2 :
  all_resumed ts s s1 -> is_Some (k_current s) -> kinv s2 -> k_threads s2 = k_threads s1 ->
  k_queues s2 = k_queues s1 -> k_current s2 = k_current s1 ->
  wp rt_schedule s2 (fun _ s3 => kinv s3 /\ sched_frame s2 s3 /\ failed s3 ts /\
    forall q, wait_list q -> (forall t, t ∈ qget s q -> t ∈ ts) -> qget s3 q = []).
Proof.
  intros A Hc Hk Et Eq Ec. eapply wp_mono; [apply rt_schedule_kinv; [done|by rewrite Ec, (ar_current _ _ _ A)]|].
  intros [] s3 (Hk3 & F & _). split; [done|]. split; [done|]. split.
  - intros t Ht. destruct (ar_woken _ _ _ A t Ht) as (th & th1 & _ & E1 & Hr & Eth). rewrite <- Et in E1.
    destruct (sched_frame_lookup s2 s3 t th1 F E1) as (th' & E3 & Hstep). exists th'.
    split_and!; [done|by eapply thread_step_runnable|]. destruct Hstep as [Est _]. rewrite Eth in Est.
    by apply (f_equal th_error) in Est.
  - intros q Hq Hin. rewrite (sf_queues _ _ F) by (by apply wait_list_not_ready).
    change (qget s2 q) with (default [] (k_queues s2 !! q)). rewrite Eq. change (qget s1 q = []).
    rewrite (ar_queues _ _ _ A) by done. apply elem_of_nil_inv. intros t [Hn Ht]%list_elem_of_filter. by apply Hn, Hin.
Qed.

(** The threads of list [l] stand most urgent first. *)
Definition prio_sorted (s : kst) (l : list nat) : Prop :=
  StronglySorted (fun a b => thread_prio s a <= thread_prio s b) l.

Lemma prio_sorted_ext s s' l : (forall u, thread_prio s' u = thread_prio s u) -> prio_sorted s l -> prio_sorted s' l.
Proof.
  intros E. induction 1 as [|u l Hs IH Hall]; constructor; [done|]. eapply Forall_impl; [exact Hall|].
  cbn. intros x. by rewrite !E.
Qed.

(** The order of waiting.  The running thread that goes to wait on a FIFO
    object stands last in the waiting list; on a priority object it stands behind
    every thread that is at least as urgent and before every other, and the list
    stays sorted by priority.  It is suspended, no timer of it runs, and the
    kernel invariant holds. *)
Theorem rt_ipc_list_suspend_order s q c th flag :
  kinv s -> caller s c th -> wait_list q -> flag = RT_IPC_FLAG_FIFO \/ flag = RT_IPC_FLAG_PRIO ->
  (flag = RT_IPC_FLAG_PRIO -> prio_sorted s (qget s q)) ->
  exists s' l1 l2, rt_ipc_list_suspend q c flag s = Ok RT_EOK s' /\ kinv s' /\
    k_threads s' = <[c := suspended th]> (k_threads s) /\ TmThread c ∉ all_timers s' /\
    qget s q = l1 ++ l2 /\ qget s' q = l1 ++ c :: l2 /\
    (flag = RT_IPC_FLAG_FIFO -> l2 = []) /\
    (flag = RT_IPC_FLAG_PRIO -> prio_sorted s' (qget s' q) /\
       Forall (fun u => thread_prio s u <= thread_prio s c) l1 /\ Forall (fun u => thread_prio s c < thread_prio s u) l2).
Proof.
  intros Hk [Hc Ht Hr _] Hq Hf Hs.
  destruct (wp_run _ _ _ (rt_ipc_list_suspend_wp s q c th flag Hk Hc Ht Hr Hq Hf)) as (r & s' & E & -> & [M1 M2 M3 M4 M5] & Hn).
  assert (forall u, thread_prio s' u = thread_prio s u) as Ep.
  { intros u. unfold thread_prio. rewrite M3. destruct (decide (c = u)) as [<-|]; [by rewrite lookup_insert_eq, Ht|by rewrite lookup_insert_ne]. }
  specialize (M4 q). unfold waiting_queue in M4. rewrite decide_True in M4 by done. unfold wait_insert in M4.
  destruct Hf as [->| ->].
  - exists s', (qget s q), []. rewrite app_nil_r. by split_and!.
  - change (RT_IPC_FLAG_PRIO =? RT_IPC_FLAG_FIFO) with false in M4. cbv iota in M4.
    destruct (prio_insert_split (thread_prio s) (thread_prio s c) c (qget s q) (Hs eq_refl)) as (l1 & l2 & E1 & E2 & F1 & F2).
    exists s', l1, l2. rewrite M4, E2. split_and!; try done. intros _. split; [|done]. unfold prio_sorted. rewrite <- E2.
    apply (prio_sorted_ext s); [done|]. apply (prio_insert_sorted (thread_prio s)); [done|by apply Hs].
Qed.

Lemma rt_ipc_list_suspend_order_witness :
  exists s' l1 l2, rt_ipc_list_suspend (QSem 0) 1 RT_IPC_FLAG_PRIO sample = Ok RT_EOK s' /\ kinv s' /\
    k_threads s' = <[1%nat := suspended (sample_thread 10 RT_THREAD_RUNNING)]> (k_threads sample) /\
    TmThread 1 ∉ all_timers s' /\
    qget sample (QSem 0) = l1 ++ l2 /\ qget s' (QSem 0) = l1 ++ 1%nat :: l2 /\
    (RT_IPC_FLAG_PRIO = RT_IPC_FLAG_FIFO -> l2 = []) /\
    (RT_IPC_FLAG_PRIO = RT_IPC_FLAG_PRIO -> prio_sorted s' (qget s' (QSem 0)) /\
       Forall (fun u => thread_prio sample u <= thread_prio sample 1) l1 /\
       Forall (fun u => thread_prio sample 1 < thread_prio sample u) l2).
Proof.
  apply (rt_ipc_list_suspend_order sample (QSem 0) 1 (sample_thread 10 RT_THREAD_RUNNING) RT_IPC_FLAG_PRIO);
    [exact sample_kinv|exact sample_caller|done|by right|intros _; repeat constructor].
Defined.
