(* ===== verification/Sem.v ===== *)
(** * Semaphores (src/ipc.c)

    [k_sems] holds the [value] of each semaphore; the threads that wait are in
    list [QSem n].  [asem] is the abstract semaphore the routines implement: a
    count and a sequence of waiting threads, where a release hands the token to
    the first waiting thread if there is one. *)

From S2P Require Import Prelude Ffs KState Wf Inv Sched Object Timer Thread TimerRun Sleep Ipc.

Definition get_sem (n : nat) : K Z := deref (fun s => k_sems s !! n).
Definition set_sem (n : nat) (v : Z) : K unit := modify (fun s => set_k_sems (<[n := v]> (k_sems s)) s).

Definition rt_sem_init (n : nat) (name : list Z) (value flag : Z) : K Z :=
  RT_ASSERT (value <? 0x10000) ;;
  rt_object_init (OSem n) RT_Object_Class_Semaphore name ;;
  q_init (QSem n) ;;
  set_sem n (u16 value) ;;
  mod_object (OSem n) (set_o_flag flag) ;;
  ret RT_EOK.

Definition rt_sem_detach (n : nat) : K Z :=
  assert_type (OSem n) RT_Object_Class_Semaphore ;;
  sys <- rt_object_is_systemobject (OSem n) ;;
  RT_ASSERT sys ;;
  rt_ipc_list_resume_all (QSem n) ;;
  rt_object_detach (OSem n) ;;
  ret RT_EOK.

Definition rt_sem_create (name : list Z) (value flag : Z) (malloced : option nat) : K (option nat) :=
  RT_DEBUG_NOT_IN_INTERRUPT ;;
  RT_ASSERT (value <? 0x10000) ;;
  o <- rt_object_allocate RT_Object_Class_Semaphore name (OSem <$> malloced) ;;
  match o, malloced with
  | Some _, Some n =>
      q_init (QSem n) ;;
      set_sem n (u16 value) ;;
      mod_object (OSem n) (set_o_flag flag) ;;
      ret (Some n)
  | _, _ => ret None
  end.

Definition rt_sem_delete (n : nat) : K Z :=
  RT_DEBUG_NOT_IN_INTERRUPT ;;
  assert_type (OSem n) RT_Object_Class_Semaphore ;;
  sys <- rt_object_is_systemobject (OSem n) ;;
  RT_ASSERT (negb sys) ;;
  rt_ipc_list_resume_all (QSem n) ;;
  rt_object_delete (OSem n) ;;
  ret RT_EOK.

Definition rt_sem_take_enter (n : nat) (time : Z) : K (outcome Z) :=
  assert_type (OSem n) RT_Object_Class_Semaphore ;;
  value <- get_sem n ;;
  if 0 <? value then
    set_sem n (u16 (value - 1)) ;;
    ret (Returned RT_EOK)
  else if time =? 0 then ret (Returned (- RT_ETIMEOUT))
  else
    RT_DEBUG_IN_THREAD_CONTEXT ;;
    t <- current_thread ;;
    mod_thread t (set_th_error RT_EOK) ;;
    ob <- get_object (OSem n) ;;
    rt_ipc_list_suspend (QSem n) t (o_flag ob) ;;
    when (0 <? time) (start_thread_timer t time) ;;
    rt_schedule ;;
    ret (Waiting t).

(** After the wait: the thread's error code, RT_EOK when it got the semaphore. *)
Definition rt_sem_take_resume (t : nat) : K Z :=
  e <- wait_result t ;;
  if negb (e =? RT_EOK) then ret e else ret RT_EOK.

Definition rt_sem_trytake (n : nat) : K (outcome Z) := rt_sem_take_enter n 0.

Definition rt_sem_release (n : nat) : K Z :=
  assert_type (OSem n) RT_Object_Class_Semaphore ;;
  waiting <- q_nonempty (QSem n) ;;
  if waiting then
    rt_ipc_list_resume (QSem n) ;;
    rt_schedule ;;
    ret RT_EOK
  else
    value <- get_sem n ;;
    set_sem n (u16 (value + 1)) ;;
    ret RT_EOK.

Definition rt_sem_control (n : nat) (cmd arg : Z) : K Z :=
  assert_type (OSem n) RT_Object_Class_Semaphore ;;
  if cmd =? RT_IPC_CMD_RESET then
    rt_ipc_list_resume_all (QSem n) ;;
    set_sem n (u16 arg) ;;
    rt_schedule ;;
    ret RT_EOK
  else ret (- RT_ERROR).

(** ** The abstract semaphore *)

Record asem := ASem { as_value : Z; as_waiting : list nat }.

Definition abs_sem (s : kst) (n : nat) : option asem := (fun v => ASem v (qget s (QSem n))) <$> (k_sems s !! n).

(** A release: the first waiting thread gets the token, else the count goes up. *)
Definition asem_release (a : asem) : asem * option nat :=
  match as_waiting a with
  | t :: w => (ASem (as_value a) w, Some t)
  | [] => (ASem (u16 (as_value a + 1)) [], None)
  end.

(** A well-formed semaphore: a 16-bit count, and nobody waits while it is
    positive. *)
Definition sem_ok (s : kst) (n : nat) (a : asem) (flag : Z) : Prop :=
  abs_sem s n = Some a /\ ipc_header s (OSem n) RT_Object_Class_Semaphore flag /\
  0 <= as_value a < 2 ^ 16 /\ (0 < as_value a -> as_waiting a = []).

Lemma sem_ok_value s n a flag : sem_ok s n a flag -> k_sems s !! n = Some (as_value a) /\ qget s (QSem n) = as_waiting a.
Proof.
  intros (H & _). unfold abs_sem in H. destruct (k_sems s !! n) as [v|]; [|done]. cbn in H. by injection H as <-.
Qed.

Lemma wp_get_sem n v s Q : k_sems s !! n = Some v -> Q v s -> wp (get_sem n) s Q.
Proof. intros H1 H2. by apply (wp_deref _ v). Qed.
Lemma kinv_set_sems s m : kinv s -> kinv (set_k_sems m s).
Proof. intros [W T]. split; [by apply (wfx_same _ s)|by apply (tinv_same s); eauto]. Qed.

(** The semaphore with its count and waiting list, after a step that moved
    threads and timers only. *)
Lemma sem_ok_frame s s' n a w flag :
  kframe s s' -> sem_ok s n a flag -> qget s' (QSem n) = w -> (0 < as_value a -> w = []) ->
  sem_ok s' n (ASem (as_value a) w) flag.
Proof.
  intros F H Ew Hw. destruct (sem_ok_value _ _ _ _ H) as [Ev _]. destruct H as (_ & Hh & Hr & _).
  split_and!; [|by eapply kframe_header|cbn; lia..|done]. unfold abs_sem.
  apply kframe_ipc in F. unfold ipc_data in F. injection F as -> _ _ _ _. by rewrite Ev, Ew.
Qed.
Lemma sem_ok_set s n a v flag :
  sem_ok s n a flag -> 0 <= v < 2 ^ 16 -> (0 < v -> as_waiting a = []) ->
  sem_ok (set_k_sems (<[n := v]> (k_sems s)) s) n (ASem v (as_waiting a)) flag.
Proof.
  intros H Hv Hw. destruct (sem_ok_value _ _ _ _ H) as [_ El]. destruct H as (_ & Hh & _).
  split_and!; [|done|cbn; lia..|done]. unfold abs_sem. cbn. by rewrite lookup_insert_eq, <- El.
Qed.

Lemma rt_sem_take_available s n a flag time :
  sem_ok s n a flag -> 0 < as_value a ->
  rt_sem_take_enter n time s = Ok (Returned RT_EOK) (set_k_sems (<[n := as_value a - 1]> (k_sems s)) s).
Proof.
  intros H Hv. destruct (sem_ok_value _ _ _ _ H) as [Ev _]. pose proof H as (_ & Hh & Hr & _).
  enough (wp (rt_sem_take_enter n time) s (fun r s' => r = Returned RT_EOK /\ s' = set_k_sems (<[n := as_value a - 1]> (k_sems s)) s)) as Hwp.
  { destruct (wp_run _ _ _ Hwp) as (r & s' & E & -> & ->). done. }
  unfold rt_sem_take_enter. kstep. apply (wp_ipc_type _ _ _ flag); [done|]. kstep. apply (wp_get_sem _ (as_value a)); [done|].
  rewrite (proj2 (Z.ltb_lt _ _)) by done. unfold set_sem. rewrite u16_small by lia. by do 3 kstep.
Qed.
Lemma rt_sem_take_poll s n a flag :
  sem_ok s n a flag -> as_value a = 0 -> rt_sem_take_enter n 0 s = Ok (Returned (- RT_ETIMEOUT)) s.
Proof.
  intros H Hv. destruct (sem_ok_value _ _ _ _ H) as [Ev _]. pose proof H as (_ & Hh & _).
  enough (wp (rt_sem_take_enter n 0) s (fun r s' => r = Returned (- RT_ETIMEOUT) /\ s' = s)) as Hwp.
  { destruct (wp_run _ _ _ Hwp) as (r & s' & E & -> & ->). done. }
  unfold rt_sem_take_enter. kstep. apply (wp_ipc_type _ _ _ flag); [done|]. kstep. apply (wp_get_sem _ (as_value a)); [done|].
  rewrite Hv. by kstep.
Qed.
Lemma rt_sem_take_block_wp s n a flag time c th :
  kinv s -> sem_ok s n a flag -> caller s c th -> as_value a = 0 -> time <> 0 -> time < TICK_HALF ->
  wp (rt_sem_take_enter n time) s (fun r s' => r = Waiting c /\
    blocked_post s s' (QSem n) flag c (set_th_error RT_EOK th) time).
Proof.
  intros Hk H Hca Hv Htime Hmax. destruct (sem_ok_value _ _ _ _ H) as [Ev _]. pose proof H as (_ & Hh & _).
  unfold rt_sem_take_enter. kstep. apply (wp_ipc_type _ _ _ flag); [done|]. kstep. apply (wp_get_sem _ (as_value a)); [done|].
  rewrite Hv, (proj2 (Z.eqb_neq _ _) Htime). cbn [Z.ltb Z.compare]. kstep. apply (wp_in_thread_context s c th); [done|].
  kstep. apply (wp_current c); [apply Hca|]. kstep. apply (wp_mod_thread _ _ th); [apply Hca|].
  apply (wp_ipc_flag _ _ RT_Object_Class_Semaphore flag); [by apply header_upd_thread|]. intros ob ->.
  apply (block_upd_wp s (QSem n) c th); [done|done|by split_and!|done|by eapply header_flag|done|]. intros s' B. by kstep.
Qed.

(** C13: taking a semaphore, on every branch.  With a positive count the call
    takes a token and returns RT_EOK without waiting; with no token it returns
    -RT_ETIMEOUT at once when the timeout is 0, and nothing changes; otherwise
    the calling thread goes to wait in its place in the waiting list, its timer
    running for [time] ticks (or stopped, when it waits for ever), its error code
    reset, and the count stays 0.  Semaphore and kernel invariant hold after. *)
Theorem rt_sem_take_correct s n a flag time c th :
  kinv s -> sem_ok s n a flag -> caller s c th -> time < TICK_HALF ->
  exists r s', rt_sem_take_enter n time s = Ok r s' /\ kinv s' /\
    if 0 <? as_value a then
      r = Returned RT_EOK /\ sem_ok s' n (ASem (as_value a - 1) []) flag /\ k_threads s' = k_threads s
    else if time =? 0 then r = Returned (- RT_ETIMEOUT) /\ s' = s
    else r = Waiting c /\ sem_ok s' n (ASem 0 (wait_insert s flag c (as_waiting a))) flag /\
      blocked_post s s' (QSem n) flag c (set_th_error RT_EOK th) time.
Proof.
  intros Hk H Hca Hmax. pose proof H as (_ & _ & Hr & Hw). destruct (Z.ltb_spec 0 (as_value a)) as [Hv|Hv].
  - eexists _, _. split; [by apply (rt_sem_take_available s n a flag)|]. split; [by apply kinv_set_sems|].
    split_and!; [done| |done]. rewrite <- (Hw Hv). apply sem_ok_set; [done|lia|auto].
  - assert (as_value a = 0) as Hv0 by lia. destruct (Z.eqb_spec time 0) as [->|Htime].
    + eexists _, _. split; [by apply (rt_sem_take_poll s n a flag)|]. done.
    + destruct (wp_run _ _ _ (rt_sem_take_block_wp s n a flag time c th Hk H Hca Hv0 Htime Hmax)) as (r & s' & E & -> & B).
      exists (Waiting c), s'. split; [done|]. split; [apply B|]. split_and!; [done| |done]. rewrite <- Hv0.
      apply (sem_ok_frame s); [apply B|done| |lia]. rewrite (blocked_here _ _ _ _ _ _ _ B) by done.
      by destruct (sem_ok_value _ _ _ _ H) as [_ ->].
Qed.

Lemma sample_sem : sem_ok sample 0 (ASem 0 [3%nat]) RT_IPC_FLAG_FIFO.
Proof. split_and!; [done| |cbn; lia..]. eexists. split; [reflexivity|]. split_and!; [done|done|by left]. Qed.

Lemma rt_sem_take_correct_witness :
  exists r s', rt_sem_take_enter 0 50 sample = Ok r s' /\ kinv s' /\
    r = Waiting 1 /\ sem_ok s' 0 (ASem 0 [3%nat; 1%nat]) RT_IPC_FLAG_FIFO /\
    blocked_post sample s' (QSem 0) RT_IPC_FLAG_FIFO 1 (set_th_error RT_EOK (sample_thread 10 RT_THREAD_RUNNING)) 50.
Proof.
  exact (rt_sem_take_correct sample 0 _ _ 50 1 _ sample_kinv sample_sem sample_caller ltac:(by rewrite TICK_HALF_val)).
Defined.

(** ** Release *)

Lemma rt_sem_release_handover s n a flag t w :
  kinv s -> sem_ok s n a flag -> is_Some (k_current s) -> as_waiting a = t :: w ->
  wp (rt_sem_release n) s (fun r s' => r = RT_EOK /\ woken_post s s' (QSem n) t).
Proof.
  intros Hk H Hc Ew. destruct (sem_ok_value _ _ _ _ H) as [_ El]. pose proof H as (_ & Hh & _). rewrite Ew in El.
  unfold rt_sem_release. kstep. apply (wp_ipc_type _ _ _ flag); [done|]. kstep. apply wp_q_nonempty.
  rewrite El, bool_decide_false by done. cbn [negb]. apply (resume_first_wp _ _ t w); [done..|]. intros s1 P _ Ec. kstep.
  eapply wp_mono; [apply rt_schedule_kinv; [apply P|by rewrite Ec]|]. intros [] s2 (Hk2 & F & Hc2). kstep.
  split; [done|]. by eapply woken_post_sched.
Qed.

Lemma rt_sem_release_counts s n a flag :
  sem_ok s n a flag -> as_waiting a = [] -> as_value a < 2 ^ 16 - 1 ->
  rt_sem_release n s = Ok RT_EOK (set_k_sems (<[n := as_value a + 1]> (k_sems s)) s).
Proof.
  intros H Ew Hv. destruct (sem_ok_value _ _ _ _ H) as [Ev El]. pose proof H as (_ & Hh & Hr & _). rewrite Ew in El.
  enough (wp (rt_sem_release n) s (fun r s' => r = RT_EOK /\ s' = set_k_sems (<[n := as_value a + 1]> (k_sems s)) s)) as Hwp.
  { destruct (wp_run _ _ _ Hwp) as (r & s' & E & -> & ->). done. }
  unfold rt_sem_release. kstep. apply (wp_ipc_type _ _ _ flag); [done|]. kstep. apply wp_q_nonempty.
  rewrite El, bool_decide_true by done. cbn [negb]. kstep. apply (wp_get_sem _ (as_value a)); [done|].
  unfold set_sem. rewrite u16_small by lia. by do 3 kstep.
Qed.

(** C14: releasing a semaphore hands the token over.  If threads wait, the first
    of them leaves the waiting list, becomes runnable and, when it runs, its
    rt_sem_take returns the error code it went to wait with (RT_EOK); the count
    stays 0.  Otherwise the count goes up by one, modulo 2^16.  This is the
    abstract release, and semaphore and kernel invariant hold after. *)
Theorem rt_sem_release_correct s n a flag :
  kinv s -> sem_ok s n a flag -> is_Some (k_current s) -> as_value a < 2 ^ 16 - 1 ->
  exists s', rt_sem_release n s = Ok RT_EOK s' /\ kinv s' /\ sem_ok s' n (fst (asem_release a)) flag /\
    match snd (asem_release a) with
    | Some t => woken_post s s' (QSem n) t /\ exists th, k_threads s !! t = Some th /\
        rt_sem_take_resume t s' = Ok (th_error th) s'
    | None => k_threads s' = k_threads s
    end.
Proof.
  intros Hk H Hc Hv. destruct (sem_ok_value _ _ _ _ H) as [Ev El]. pose proof H as (_ & Hh & Hr & Hw).
  unfold asem_release. destruct (as_waiting a) as [|t w] eqn:Ew; cbn [fst snd].
  - eexists. split; [by apply (rt_sem_release_counts s n a flag)|].
    split; [by apply kinv_set_sems|]. split; [|done]. rewrite u16_small by lia. rewrite <- Ew.
    apply sem_ok_set; [done|lia|done].
  - destruct (wp_run _ _ _ (rt_sem_release_handover s n a flag t w Hk H Hc Ew)) as (r & s' & E & -> & P). exists s'.
    split; [done|]. split; [apply P|]. split.
    + apply (sem_ok_frame s); [apply P|done| |by intros ?%Hw]. rewrite (wo_queues _ _ _ _ P) by done.
      by rewrite decide_True, El.
    + split; [done|]. destruct (wo_thread _ _ _ _ P) as (th & th' & Ht & Ht' & _ & Eth). exists th. split; [done|].
      assert (th_error th' = th_error th) as Ee by (by apply (f_equal th_error) in Eth).
      unfold rt_sem_take_resume, wait_result, get_thread, bind, deref, ret. rewrite Ht', Ee.
      destruct (Z.eqb_spec (th_error th) RT_EOK) as [->|]; done.
Qed.

Lemma rt_sem_release_correct_witness :
  exists s', rt_sem_release 0 sample = Ok RT_EOK s' /\ kinv s' /\ sem_ok s' 0 (ASem 0 []) RT_IPC_FLAG_FIFO /\
    woken_post sample s' (QSem 0) 3 /\ exists th, k_threads sample !! 3%nat = Some th /\
      rt_sem_take_resume 3 s' = Ok (th_error th) s'.
Proof.
  exact (rt_sem_release_correct sample 0 _ _ sample_kinv sample_sem (mk_is_Some _ _ eq_refl) ltac:(cbn; lia)).
Defined.

(** A release of a full semaphore loses every token.  At 65535 without
    waiting threads the 16-bit count wraps to 0 and the call still reports
    success (the routine has no overflow check). *)
Theorem rt_sem_release_wraps s n flag :
  sem_ok s n (ASem (2 ^ 16 - 1) []) flag ->
  exists s', rt_sem_release n s = Ok RT_EOK s' /\ sem_ok s' n (ASem 0 []) flag.
Proof.
  intros H. destruct (sem_ok_value _ _ _ _ H) as [Ev El]. pose proof H as (_ & Hh & _).
  exists (set_k_sems (<[n := 0]> (k_sems s)) s). split; [|by apply (sem_ok_set _ _ _ 0 flag H)].
  enough (wp (rt_sem_release n) s (fun r s' => r = RT_EOK /\ s' = set_k_sems (<[n := 0]> (k_sems s)) s)) as Hwp.
  { destruct (wp_run _ _ _ Hwp) as (r & s' & E & -> & ->). done. }
  unfold rt_sem_release. kstep. apply (wp_ipc_type _ _ _ flag); [done|]. kstep. apply wp_q_nonempty.
  rewrite El, bool_decide_true by done. cbn [negb]. kstep. apply (wp_get_sem _ (2 ^ 16 - 1)); [done|].
  unfold set_sem. by do 3 kstep.
Qed.

Lemma rt_sem_release_wraps_witness :
  let full := set_k_sems {[ 0%nat := 2 ^ 16 - 1 ]} (upd_queue (QSem 0) [] sample) in
  exists s', rt_sem_release 0 full = Ok RT_EOK s' /\ sem_ok s' 0 (ASem 0 []) RT_IPC_FLAG_FIFO.
Proof.
  apply rt_sem_release_wraps. split_and!; [done| |cbn; lia..|done].
  eexists. split; [reflexivity|]. split_and!; [done|done|by left].
Defined.

(** ** Initialising and closing *)

Lemma rt_sem_init_irq_wp s n l v flag :
  fresh_object s (OSem n) RT_Object_Class_Semaphore (QSem n) -> chars_ok l -> 0 <= v < 2 ^ 16 ->
  flag = RT_IPC_FLAG_FIFO \/ flag = RT_IPC_FLAG_PRIO ->
  wp (rt_sem_init n (cstring l) v flag) s (fun r s' => r = RT_EOK /\ kinv s' /\ sem_ok s' n (ASem v []) flag /\ k_irq_nest s' = k_irq_nest s).
Proof.
  intros Hf Hl Hv Hfl. unfold rt_sem_init. kstep. apply wp_assert; [apply Z.ltb_lt; lia|].
  apply (init_object_irq_wp _ _ _ (QSem n)); [done|done|]. intros s1 Hk Eq Ed Eo Ei. kstep. apply wp_modify. kstep.
  unfold set_sem. kstep. kstep. apply (wp_mod_object _ _ (static_header s (OSem n) RT_Object_Class_Semaphore l)); [done|].
  kstep. split; [done|]. split; [|split; [|done]].
  - apply kinv_header_upd; [|done]. apply kinv_set_sems, kinv_q_init; [done|]. rewrite Eq by done. apply Hf.
  - rewrite u16_small by done. split_and!; [|eexists; split; [apply lookup_insert_eq|by split_and!]|cbn; lia..|done].
    unfold abs_sem. kproj. rewrite lookup_insert_eq. cbn. unfold qget. kproj. by rewrite lookup_insert_eq.
Qed.
Lemma rt_sem_init_wp s n l v flag :
  fresh_object s (OSem n) RT_Object_Class_Semaphore (QSem n) -> chars_ok l -> 0 <= v < 2 ^ 16 ->
  flag = RT_IPC_FLAG_FIFO \/ flag = RT_IPC_FLAG_PRIO ->
  wp (rt_sem_init n (cstring l) v flag) s (fun r s' => r = RT_EOK /\ kinv s' /\ sem_ok s' n (ASem v []) flag).
Proof. intros Hf Hl Hv Hfl. eapply wp_mono; [by apply rt_sem_init_irq_wp|]. by intros r s' (? & ? & ? & _). Qed.

Lemma rt_sem_detach_wp s n :
  kinv s -> static_object s (OSem n) RT_Object_Class_Semaphore ->
  wp (rt_sem_detach n) s (fun r s' => r = RT_EOK /\ ipc_closed (qget s (QSem n)) s s' (OSem n)).
Proof. intros Hk Hs. apply ipc_detach_wp; [done|done|done|unfold ipc_class; set_solver|done]. Qed.

Lemma rt_sem_delete_wp s n :
  kinv s -> k_irq_nest s = 0 -> heap_object s (OSem n) RT_Object_Class_Semaphore ->
  wp (rt_sem_delete n) s (fun r s' => r = RT_EOK /\ ipc_closed (qget s (QSem n)) s s' (OSem n)).
Proof.
  intros Hk Hi Hs. unfold rt_sem_delete, RT_DEBUG_NOT_IN_INTERRUPT. kstep. kstep. kstep. apply wp_assert; [by rewrite Hi|].
  apply ipc_delete_wp; [done|done|done|unfold ipc_class; set_solver|done].
Qed.

Lemma rt_sem_control_wp s n a flag cmd arg :
  kinv s -> sem_ok s n a flag -> is_Some (k_current s) ->
  wp (rt_sem_control n cmd arg) s (fun r s' => kinv s' /\
    if cmd =? RT_IPC_CMD_RESET then r = RT_EOK /\ sem_ok s' n (ASem (u16 arg) []) flag /\ failed s' (as_waiting a)
    else r = - RT_ERROR /\ s' = s).
Proof.
  intros Hk H Hc. destruct (sem_ok_value _ _ _ _ H) as [Ev El]. pose proof H as (_ & Hh & _).
  unfold rt_sem_control. kstep. apply (wp_ipc_type _ _ _ flag); [done|]. destruct (cmd =? RT_IPC_CMD_RESET); [|by kstep].
  kstep. eapply wp_mono; [by apply rt_ipc_list_resume_all_wp|]. intros r s1 [_ A]. rewrite El in A. unfold set_sem. kstep. kstep.
  kstep. eapply wp_mono; [by apply (reset_schedule_wp (as_waiting a) s s1); [exact A|exact Hc|apply kinv_set_sems, A|..]|].
  intros [] s3 (Hk3 & F & Hfail & Hempty). kstep. split; [done|]. split; [done|]. split; [|done].
  assert (ipc_header s1 (OSem n) RT_Object_Class_Semaphore flag) as Hh1 by (apply (kframe_header s); [apply A|done|done]).
  assert (sem_ok (set_k_sems (<[n := u16 arg]> (k_sems s1)) s1) n (ASem (u16 arg) []) flag) as H2.
  { split_and!; [|exact Hh1|apply u16_range..|done]. unfold abs_sem. kproj. rewrite lookup_insert_eq. cbn.
    change (Some (ASem (u16 arg) (qget s1 (QSem n))) = Some (ASem (u16 arg) [])).
    by rewrite (ar_queues _ _ _ A), El, filter_self by done. }
  apply (sem_ok_frame _ s3 n (ASem (u16 arg) []) [] flag (sched_kframe _ _ F) H2); [|done]. apply Hempty; [done|]. by rewrite El.
Qed.
