(* ===== verification/Mutex.v ===== *)
(** * Mutexes with priority inheritance (src/ipc.c)

    [amutex] is the abstract mutex: free, or held by a thread that took it
    [hold] times and had priority [prio] when it first did.  [mutex_ok] ties it to
    the fields [value], [owner], [hold] and [original_priority]; the theorems show
    what take and release do to it, to the waiting list, and to the priorities of
    the threads. *)

From S2P Require Import Prelude Ffs KState Wf Inv Sched Object Timer Thread TimerRun Sleep Ipc.

Definition get_mutex (n : nat) : K rt_mutex := deref (fun s => k_mutexes s !! n).
Definition set_mutex (n : nat) (mx : rt_mutex) : K unit := modify (fun s => set_k_mutexes (<[n := mx]> (k_mutexes s)) s).

Definition rt_mutex_init (n : nat) (name : list Z) (flag : Z) : K Z :=
  rt_object_init (OMutex n) RT_Object_Class_Mutex name ;;
  q_init (QMutex n) ;;
  set_mutex n (mkMutex 1 0xff 0 None) ;;
  mod_object (OMutex n) (set_o_flag flag) ;;
  ret RT_EOK.

Definition rt_mutex_detach (n : nat) : K Z :=
  assert_type (OMutex n) RT_Object_Class_Mutex ;;
  sys <- rt_object_is_systemobject (OMutex n) ;;
  RT_ASSERT sys ;;
  rt_ipc_list_resume_all (QMutex n) ;;
  rt_object_detach (OMutex n) ;;
  ret RT_EOK.

Definition rt_mutex_create (name : list Z) (flag : Z) (malloced : option nat) : K (option nat) :=
  RT_DEBUG_NOT_IN_INTERRUPT ;;
  o <- rt_object_allocate RT_Object_Class_Mutex name (OMutex <$> malloced) ;;
  match o, malloced with
  | Some _, Some n =>
      q_init (QMutex n) ;;
      set_mutex n (mkMutex 1 0xff 0 None) ;;
      mod_object (OMutex n) (set_o_flag flag) ;;
      ret (Some n)
  | _, _ => ret None
  end.

Definition rt_mutex_delete (n : nat) : K Z :=
  RT_DEBUG_NOT_IN_INTERRUPT ;;
  assert_type (OMutex n) RT_Object_Class_Mutex ;;
  sys <- rt_object_is_systemobject (OMutex n) ;;
  RT_ASSERT (negb sys) ;;
  rt_ipc_list_resume_all (QMutex n) ;;
  rt_object_delete (OMutex n) ;;
  ret RT_EOK.

(** From the label [__again] on: take a free mutex, give up, or wait for it. *)
Definition rt_mutex_take_again (n t : nat) (time : Z) : K (outcome Z) :=
  mx <- get_mutex n ;;
  if 0 <? mx_value mx then
    th <- get_thread t ;;
    set_mutex n (mkMutex (u16 (mx_value mx - 1)) (th_current_priority th) (u8 (mx_hold mx + 1)) (Some t)) ;;
    ret (Returned RT_EOK)
  else if time =? 0 then
    mod_thread t (set_th_error (- RT_ETIMEOUT)) ;;
    ret (Returned (- RT_ETIMEOUT))
  else
    th <- get_thread t ;;
    owner <- deref (fun _ => mx_owner mx) ;;
    oth <- get_thread owner ;;
    when (th_current_priority th <? th_current_priority oth)
      (rt_thread_control owner RT_THREAD_CTRL_CHANGE_PRIORITY (th_current_priority th) ;; ret tt) ;;
    ob <- get_object (OMutex n) ;;
    rt_ipc_list_suspend (QMutex n) t (o_flag ob) ;;
    when (0 <? time) (start_thread_timer t time) ;;
    rt_schedule ;;
    ret (Waiting t).

Definition rt_mutex_take_enter (n : nat) (time : Z) : K (outcome Z) :=
  RT_DEBUG_IN_THREAD_CONTEXT ;;
  assert_type (OMutex n) RT_Object_Class_Mutex ;;
  t <- current_thread ;;
  mod_thread t (set_th_error RT_EOK) ;;
  mx <- get_mutex n ;;
  if bool_decide (mx_owner mx = Some t) then
    set_mutex n (set_mx_hold (u8 (mx_hold mx + 1)) mx) ;;
    ret (Returned RT_EOK)
  else rt_mutex_take_again n t time.

(** After the wait: the mutex was handed over, the wait failed, or a signal
    interrupted it and the call tries again. *)
Definition rt_mutex_take_resume (n t : nat) (time : Z) : K (outcome Z) :=
  e <- wait_result t ;;
  if negb (e =? RT_EOK) then
    if e =? - RT_EINTR then rt_mutex_take_again n t time else ret (Returned e)
  else ret (Returned RT_EOK).

Definition rt_mutex_release (n : nat) : K Z :=
  assert_type (OMutex n) RT_Object_Class_Mutex ;;
  RT_DEBUG_IN_THREAD_CONTEXT ;;
  t <- current_thread ;;
  mx <- get_mutex n ;;
  if negb (bool_decide (mx_owner mx = Some t)) then
    mod_thread t (set_th_error (- RT_ERROR)) ;;
    ret (- RT_ERROR)
  else
    let hold := u8 (mx_hold mx - 1) in
    set_mutex n (set_mx_hold hold mx) ;;
    if hold =? 0 then
      th <- get_thread t ;;
      when (negb (mx_original_priority mx =? th_current_priority th))
        (rt_thread_control t RT_THREAD_CTRL_CHANGE_PRIORITY (mx_original_priority mx) ;; ret tt) ;;
      waiting <- q_nonempty (QMutex n) ;;
      if waiting then
        u <- q_first (QMutex n) ;;
        uth <- get_thread u ;;
        set_mutex n (mkMutex (mx_value mx) (th_current_priority uth) (u8 (hold + 1)) (Some u)) ;;
        rt_ipc_list_resume (QMutex n) ;;
        rt_schedule ;;
        ret RT_EOK
      else
        set_mutex n (mkMutex (u16 (mx_value mx + 1)) 0xff hold None) ;;
        ret RT_EOK
    else ret RT_EOK.

Definition rt_mutex_control (n : nat) (cmd : Z) : K Z :=
  assert_type (OMutex n) RT_Object_Class_Mutex ;;
  ret (- RT_ERROR).

(** ** The abstract mutex *)

Inductive amutex := AFree | AHeld (owner : nat) (hold prio : Z).

Definition repr_mutex (a : amutex) : rt_mutex :=
  match a with
  | AFree => mkMutex 1 0xff 0 None
  | AHeld o h p => mkMutex 0 p h (Some o)
  end.

(** A held mutex has an open owner that is not waiting for it, a hold count from
    1 to 255 and a valid priority to go back to; nobody waits for a free one. *)
Definition amutex_ok (s : kst) (a : amutex) (w : list nat) : Prop :=
  match a with
  | AFree => w = []
  | AHeld o h p => 1 <= h < 2 ^ 8 /\ 0 <= p < RT_THREAD_PRIORITY_MAX /\ o ∉ w /\
      exists th, k_threads s !! o = Some th /\ st th <> RT_THREAD_CLOSE
  end.

Record mutex_ok (s : kst) (n : nat) (a : amutex) (w : list nat) (flag : Z) : Prop := {
  mo_data : k_mutexes s !! n = Some (repr_mutex a);
  mo_waiting : qget s (QMutex n) = w;
  mo_header : ipc_header s (OMutex n) RT_Object_Class_Mutex flag;
  mo_ok : amutex_ok s a w
}.

Lemma kinv_set_mutexes s m : kinv s -> kinv (set_k_mutexes m s).
Proof. intros [W T]. split; [by apply (wfx_same _ s)|by apply (tinv_same s); eauto]. Qed.
Lemma wp_get_mutex n mx s Q : k_mutexes s !! n = Some mx -> Q mx s -> wp (get_mutex n) s Q.
Proof. intros H1 H2. by apply (wp_deref _ mx). Qed.
Lemma kframe_mutexes s s' : kframe s s' -> k_mutexes s' = k_mutexes s.
Proof. intros F%kframe_ipc. unfold ipc_data in F. by injection F as _ -> _ _ _. Qed.

(** ** Changing the owner's priority *)

Record repriority (s s' : kst) (o : nat) (oth : rt_thread) (p : Z) : Prop := {
  rp_inv : kinv s';
  rp_frame : kframe s s';
  rp_current : k_current s' = k_current s;
  rp_owner : exists oth', k_threads s' !! o = Some oth' /\ st oth' = st oth /\ th_current_priority oth' = p /\
    th_error oth' = th_error oth;
  rp_others : forall u, u <> o -> k_threads s' !! u = k_threads s !! u;
  rp_queues : forall q, wait_list q -> qget s' q = qget s q
}.

Lemma reprioritised_wait s t th p q :
  kinv s -> k_threads s !! t = Some th -> wait_list q -> reprioritised_queue s t th p q = qget s q.
Proof.
  intros Hk Ht Hq. unfold reprioritised_queue. case_decide as Hr; [|done]. rewrite woken_queue_wait by done.
  apply without_notin. intros Hin. destruct (wf_place (proj1 Hk) q t Hin) as (x & Ex & Hx).
  assert (st x = RT_THREAD_SUSPEND) as Hs by (by destruct q). simplify_eq. by rewrite Hr in Hs.
Qed.

Lemma repriority_wp s o oth p (b : bool) :
  kinv s -> k_threads s !! o = Some oth -> st oth <> RT_THREAD_CLOSE -> 0 <= p < 32 ->
  wp (when b (rt_thread_control o RT_THREAD_CTRL_CHANGE_PRIORITY p ;; ret tt)) s
    (fun _ s' => repriority s s' o oth (if b then p else th_current_priority oth)).
Proof.
  intros Hk Ho Hcl Hp. unfold when. destruct b.
  - kstep. eapply wp_mono; [by apply (change_priority_wp s o oth p)|]. intros r s' (_ & [M1 M2 M3 M4 M5]). kstep.
    destruct (set_priority_fields p oth Hp) as (E1 & E2 & E3). split; [done|done|done| | |].
    + exists (set_priority p oth). split_and!; [rewrite M3; apply lookup_insert_eq|done|done|done].
    + intros u Hu. by rewrite M3, lookup_insert_ne.
    + intros q Hq. rewrite M4. by apply reprioritised_wait.
  - kstep. split; [done|apply kframe_refl|done|eauto|done|done].
Qed.

(** ** Taking *)

Lemma prio_range s t th : kinv s -> k_threads s !! t = Some th -> 0 <= th_current_priority th < 32.
Proof. intros Hk Ht. apply (wf_prio (proj1 Hk) t th Ht). Qed.

(** The part every call of rt_mutex_take starts with. *)
Lemma take_start_wp s n a w flag time c th Q :
  mutex_ok s n a w flag -> caller s c th ->
  (let s0 := upd_thread c (set_th_error RT_EOK th) s in
   wp (if bool_decide (mx_owner (repr_mutex a) = Some c) then
         set_mutex n (set_mx_hold (u8 (mx_hold (repr_mutex a) + 1)) (repr_mutex a)) ;; ret (Returned RT_EOK)
       else rt_mutex_take_again n c time) s0 Q) ->
  wp (rt_mutex_take_enter n time) s Q.
Proof.
  intros [Hd _ Hh _] Hca HQ. unfold rt_mutex_take_enter. kstep. apply (wp_in_thread_context s c th); [done|]. kstep.
  apply (wp_ipc_type _ _ _ flag); [done|]. kstep. apply (wp_current c); [apply Hca|]. kstep.
  apply (wp_mod_thread _ _ th); [apply Hca|]. kstep. by apply (wp_get_mutex _ (repr_mutex a)).
Qed.

(** The caller goes to wait, [s1] being the state after the owner got its priority. *)
Lemma take_block_wp s n o h p w flag time c th :
  kinv s -> mutex_ok s n (AHeld o h p) w flag -> caller s c th -> o <> c -> time <> 0 -> time < TICK_HALF ->
  wp (rt_mutex_take_again n c time) s (fun r s' => r = Waiting c /\ exists s1 oth,
    k_threads s !! o = Some oth /\
    repriority s s1 o oth (Z.min (th_current_priority oth) (th_current_priority th)) /\
    blocked_post s1 s' (QMutex n) flag c th time).
Proof.
  intros Hk [Hd Hw Hh (Hr & Hp & Hnw & oth & Ho & Hcl)] Hca Hne Htime Hmax.
  unfold rt_mutex_take_again. kstep. apply (wp_get_mutex _ (repr_mutex (AHeld o h p))); [done|].
  cbn [repr_mutex mx_value mx_owner]. rewrite (proj2 (Z.eqb_neq _ _) Htime). cbn [Z.ltb Z.compare]. kstep.
  apply (wp_get_thread _ th); [apply Hca|]. kstep. apply (wp_deref _ o); [done|]. kstep. apply (wp_get_thread _ oth); [done|].
  kstep. eapply wp_mono; [apply (repriority_wp s o oth); [done..|apply (prio_range s c th); [done|apply Hca]]|].
  intros [] s1 P. destruct Hca as [Hc Ht Hrun _].
  apply (wp_ipc_flag _ _ RT_Object_Class_Mutex flag); [by eapply kframe_header; [apply P| |]|]. intros ob ->.
  apply (block_wp s1 (QMutex n) c th); [apply P|by rewrite (rp_current _ _ _ _ _ P)|by rewrite (rp_others _ _ _ _ _ P)|done|done|
    by eapply header_flag|done|].
  intros s' B. kstep. split; [done|]. exists s1, oth. split; [done|]. split; [|done].
  destruct (Z.ltb_spec (th_current_priority th) (th_current_priority oth)); [by rewrite Z.min_r by lia|by rewrite Z.min_l by lia].
Qed.

Lemma mutex_ok_upd s n a w flag t th th' :
  mutex_ok s n a w flag -> k_threads s !! t = Some th -> st th' = st th -> mutex_ok (upd_thread t th' s) n a w flag.
Proof.
  intros [Hd Hw Hh Hok] Ht Hst. split; [done|done|done|]. destruct a as [|o h p]; [done|].
  destruct Hok as (? & ? & ? & x & Ex & Hx). split_and!; [lia..|done|]. rewrite lookup_upd_thread. case_decide; [|eauto].
  subst. simplify_eq. exists th'. by rewrite Hst.
Qed.

(** A thread that holds the mutex, or gets it. *)
Lemma mutex_ok_held s n w flag o h p th :
  qget s (QMutex n) = w -> ipc_header s (OMutex n) RT_Object_Class_Mutex flag -> o ∉ w ->
  k_threads s !! o = Some th -> st th <> RT_THREAD_CLOSE -> 1 <= h < 2 ^ 8 -> 0 <= p < 32 ->
  mutex_ok (set_k_mutexes (<[n := mkMutex 0 p h (Some o)]> (k_mutexes s)) s) n (AHeld o h p) w flag.
Proof.
  intros Hw Hh Hn Ht Hst Hr Hp. split; [kproj; apply lookup_insert_eq|done|done|].
  split; [done|]. split; [done|]. split; [done|by exists th].
Qed.

(** The mutex after the caller joined the waiting list. *)
Lemma mutex_ok_blocked s s1 s' n o h p w flag c th oth q time :
  mutex_ok s n (AHeld o h p) w flag -> o <> c -> k_threads s !! o = Some oth ->
  repriority s s1 o oth q -> blocked_post s1 s' (QMutex n) flag c th time ->
  mutex_ok s' n (AHeld o h p) (wait_insert s flag c w) flag /\ thread_prio s' o = q.
Proof.
  intros [Hd Hw Hh (Hr & Hp & Hnw & x & Ex & Hcl)] Hne Ho P B. assert (x = oth) as -> by congruence.
  destruct (rp_owner _ _ _ _ _ P) as (oth' & Ho' & Hst & Hq & _).
  assert (kept s1 s' o) as Hk by (by apply (bp_others _ _ _ _ _ _ _ B)).
  split; [|rewrite (kept_prio _ _ _ Hk); unfold thread_prio; by rewrite Ho'].
  assert (kframe s s') as F by (eapply kframe_trans; [apply P|apply B]).
  split; [by rewrite (kframe_mutexes s s')| |by apply (kframe_header s)|].
  - rewrite (blocked_here _ _ _ _ _ _ _ B), (rp_queues _ _ _ _ _ P), Hw by done. apply wait_insert_ext.
    intros u Hu. unfold thread_prio. rewrite (rp_others _ _ _ _ _ P); [done|]. destruct Hu as [->|Hu]; intros ->; done.
  - split; [done|]. split; [done|]. split; [by rewrite wait_insert_perm, not_elem_of_cons|].
    apply (kept_open s1 s' o oth'); [done|done|by rewrite Hst].
Qed.

(** C3: taking a mutex, on every branch.  A free mutex becomes the caller's, with
    hold count 1 and the caller's priority remembered; the owner itself only
    raises its hold count; another thread's mutex gives -RT_ETIMEOUT at once when
    the timeout is 0, and otherwise the caller goes to wait in its place in the
    waiting list.  In that last case the owner inherits the caller's priority if
    it is the more urgent one.  Mutex and kernel invariant hold after. *)
Theorem rt_mutex_take_correct s n a w flag time c th :
  kinv s -> mutex_ok s n a w flag -> caller s c th -> time < TICK_HALF ->
  (forall h p, a = AHeld c h p -> h < 2 ^ 8 - 1) ->
  wp (rt_mutex_take_enter n time) s (fun r s' => kinv s' /\
    match a with
    | AFree => r = Returned RT_EOK /\ mutex_ok s' n (AHeld c 1 (th_current_priority th)) [] flag
    | AHeld o h p =>
        if decide (o = c) then r = Returned RT_EOK /\ mutex_ok s' n (AHeld c (h + 1) p) w flag
        else if time =? 0 then r = Returned (- RT_ETIMEOUT) /\ mutex_ok s' n a w flag
        else r = Waiting c /\ mutex_ok s' n a (wait_insert s flag c w) flag /\
          thread_prio s' o = Z.min (thread_prio s o) (thread_prio s c) /\
          (exists th', k_threads s' !! c = Some th' /\ st th' = RT_THREAD_SUSPEND /\ th_error th' = RT_EOK) /\
          (if 0 <? time then TmThread c ∈ k_timer_list s' /\ ticks_left s' (TmThread c) = time
           else TmThread c ∉ all_timers s')
    end).
Proof.
  intros Hk H Hca Hmax Hh.
  apply (take_start_wp s n a w flag time c th); [done|done|]. intros s0. set (th0 := set_th_error RT_EOK th).
  assert (kinv s0) as Hk0 by (apply (kinv_upd_same s c th); [done|apply Hca|by split_and!]).
  assert (caller s0 c th0) as Hca0 by (by apply (caller_upd s c th)).
  assert (mutex_ok s0 n a w flag) as H0 by (apply (mutex_ok_upd s n a w flag c th); [done|apply Hca|done]).
  assert (0 <= th_current_priority th < 32) as Hpr by (apply (prio_range s c); [done|apply Hca]).
  assert (st th0 <> RT_THREAD_CLOSE) as Hcl by (rewrite (ca_running _ _ _ Hca0); done).
  destruct a as [|o h p]; cbn [repr_mutex mx_owner mx_hold].
  - rewrite bool_decide_false by done. unfold rt_mutex_take_again. kstep.
    apply (wp_get_mutex _ (repr_mutex AFree)); [apply H0|]. cbn [repr_mutex mx_value Z.ltb Z.compare]. kstep.
    apply (wp_get_thread _ th0); [apply Hca0|]. unfold set_mutex. kstep. kstep. kstep.
    split; [by apply kinv_set_mutexes|]. split; [done|]. destruct H0 as [_ E0 ? ->].
    apply (mutex_ok_held s0 n [] flag c 1 _ th0); try done; [by apply not_elem_of_nil|apply Hca0].
  - case_decide as Hoc.
    + subst o. rewrite bool_decide_true by done. unfold set_mutex. kstep. kstep. kstep.
      split; [by apply kinv_set_mutexes|]. split; [done|]. destruct H0 as [_ E0 ? (? & ? & ? & x & ? & ?)].
      specialize (Hh h p eq_refl). rewrite u8_small by lia. apply (mutex_ok_held s0 n w flag c (h + 1) p x); try done. lia.
    + rewrite bool_decide_false by congruence. destruct (Z.eqb_spec time 0) as [->|Htime].
      * unfold rt_mutex_take_again. kstep. apply (wp_get_mutex _ (repr_mutex (AHeld o h p))); [apply H0|].
        cbn [repr_mutex mx_value Z.ltb Z.compare Z.eqb]. kstep. apply (wp_mod_thread _ _ th0); [apply Hca0|]. kstep.
        split; [|split; [done|]].
        -- apply (kinv_upd_same s0 c th0); [done|apply Hca0|by split_and!].
        -- apply (mutex_ok_upd s0 n _ w flag c th0); [done|apply Hca0|done].
      * eapply wp_mono; [by apply (take_block_wp s0 n o h p w flag time c th0)|].
        intros r s' (-> & s1 & oth & Ho & P & B). split; [apply B|].
        destruct (mutex_ok_blocked s0 s1 s' n o h p w flag c th0 oth _ time H0 Hoc Ho P B) as [E1 E2].
        split; [done|]. split; [by rewrite <- (wait_insert_upd s c th th0); [|apply Hca|done]|]. split; [|split; [|apply B]].
        -- rewrite E2. unfold s0 in Ho. rewrite lookup_upd_thread, decide_False in Ho by done.
           unfold thread_prio. by rewrite Ho, (ca_thread _ _ _ Hca).
        -- destruct (bp_thread _ _ _ _ _ _ _ B) as (th' & Et & Hst & Eth). exists th'. split_and!; [done|done|].
           by apply (f_equal th_error) in Eth.
Qed.

(** Mutex 0 of the sample state, held by the idle thread. *)
Definition sample_held : kst := set_k_mutexes {[ 0%nat := mkMutex 0 31 1 (Some 0%nat) ]} sample.
Lemma sample_held_kinv : kinv sample_held.
Proof. apply kinv_set_mutexes, sample_kinv. Qed.
Lemma sample_held_ok : mutex_ok sample_held 0 (AHeld 0 1 31) [] RT_IPC_FLAG_PRIO.
Proof.
  split; [done|done| |].
  - eexists. split; [reflexivity|]. split_and!; [done|done|by right].
  - split; [lia|]. split; [unfold RT_THREAD_PRIORITY_MAX; lia|]. split; [apply not_elem_of_nil|]. by eexists.
Qed.
Lemma sample_held_caller : caller sample_held 1 (sample_thread 10 RT_THREAD_RUNNING).
Proof. by split. Qed.

Lemma rt_mutex_take_correct_witness :
  wp (rt_mutex_take_enter 0 RT_WAITING_FOREVER) sample_held (fun r s' => kinv s' /\ r = Waiting 1 /\
    mutex_ok s' 0 (AHeld 0 1 31) [1%nat] RT_IPC_FLAG_PRIO /\ thread_prio s' 0 = 10 /\
    (exists th', k_threads s' !! 1%nat = Some th' /\ st th' = RT_THREAD_SUSPEND /\ th_error th' = RT_EOK) /\
    TmThread 1 ∉ all_timers s').
Proof.
  refine (rt_mutex_take_correct sample_held 0 _ _ _ RT_WAITING_FOREVER 1 _ sample_held_kinv sample_held_ok
    sample_held_caller _ _); [by rewrite TICK_HALF_val|by intros h p [= ]].
Defined.

(** ** Releasing *)

Lemma release_start_wp s n a w flag c th Q :
  mutex_ok s n a w flag -> caller s c th ->
  wp (if negb (bool_decide (mx_owner (repr_mutex a) = Some c)) then
        mod_thread c (set_th_error (- RT_ERROR)) ;; ret (- RT_ERROR)
      else
        let mx := repr_mutex a in
        let hold := u8 (mx_hold mx - 1) in
        set_mutex n (set_mx_hold hold mx) ;;
        if hold =? 0 then
          th <- get_thread c ;;
          when (negb (mx_original_priority mx =? th_current_priority th))
            (rt_thread_control c RT_THREAD_CTRL_CHANGE_PRIORITY (mx_original_priority mx) ;; ret tt) ;;
          waiting <- q_nonempty (QMutex n) ;;
          if waiting then
            u <- q_first (QMutex n) ;;
            uth <- get_thread u ;;
            set_mutex n (mkMutex (mx_value mx) (th_current_priority uth) (u8 (hold + 1)) (Some u)) ;;
            rt_ipc_list_resume (QMutex n) ;;
            rt_schedule ;;
            ret RT_EOK
          else
            set_mutex n (mkMutex (u16 (mx_value mx + 1)) 0xff hold None) ;;
            ret RT_EOK
        else ret RT_EOK) s Q ->
  wp (rt_mutex_release n) s Q.
Proof.
  intros [Hd _ Hh _] Hca HQ. unfold rt_mutex_release. kstep. apply (wp_ipc_type _ _ _ flag); [done|]. kstep.
  apply (wp_in_thread_context s c th); [done|]. kstep. apply (wp_current c); [apply Hca|]. kstep.
  by apply (wp_get_mutex _ (repr_mutex a)).
Qed.

(** The end of the last release: [s] is the state with the owner's priority
    restored, [t] the first waiting thread. *)
Lemma handover_wp s n w t flag p (e : Z) :
  kinv s -> is_Some (k_current s) -> qget s (QMutex n) = t :: w -> ipc_header s (OMutex n) RT_Object_Class_Mutex flag ->
  thread_prio s t = p ->
  wp (set_mutex n (mkMutex 0 p 1 (Some t)) ;; rt_ipc_list_resume (QMutex n) ;; rt_schedule ;; ret e) s (fun r s' =>
    r = e /\ mutex_ok s' n (AHeld t 1 p) w flag /\
    woken_post (set_k_mutexes (<[n := mkMutex 0 p 1 (Some t)]> (k_mutexes s)) s) s' (QMutex n) t).
Proof.
  intros Hk Hc El Hh Hp. unfold set_mutex. kstep. kstep. set (s1 := set_k_mutexes _ s).
  assert (kinv s1) as Hk1 by (by apply kinv_set_mutexes).
  apply (resume_first_wp s1 (QMutex n) t w); [done..|]. intros s2 P _ Ec. kstep.
  eapply wp_mono; [apply rt_schedule_kinv; [apply P|by rewrite Ec]|]. intros [] s3 (Hk3 & F & Hc3). kstep.
  assert (woken_post s1 s3 (QMutex n) t) as P3 by (by eapply woken_post_sched). split; [done|]. split; [|done].
  destruct (wo_thread _ _ _ _ P3) as (th & th' & Ht & Ht' & Hr & _).
  assert (qget s3 (QMutex n) = w) as E3.
  { rewrite (wo_queues _ _ _ _ P3), decide_True by done. change (qget s1 (QMutex n)) with (qget s (QMutex n)). by rewrite El. }
  split; [|done| |].
  - rewrite (kframe_mutexes s1 s3 (wo_frame _ _ _ _ P3)). apply lookup_insert_eq.
  - apply (kframe_header s1 s3); [apply P3|done|done].
  - split; [lia|]. split; [|split; [|exists th'; split; [done|by apply runnable_open]]].
    + rewrite <- Hp. unfold thread_prio. change (k_threads s1) with (k_threads s) in Ht. rewrite Ht. by apply (prio_range s t).
    + pose proof (wf_nodup (proj1 Hk) (QMutex n)) as Hnd. rewrite El in Hnd. by apply NoDup_cons in Hnd as [? _].
Qed.

(** The owner's last release, from the state with hold count 0 on: the priority
    goes back, and the mutex passes to the first waiting thread or becomes free. *)
Lemma last_release_wp s n w flag c th p :
  kinv s -> k_current s = Some c -> k_threads s !! c = Some th -> st th <> RT_THREAD_CLOSE -> 0 <= p < 32 ->
  qget s (QMutex n) = w -> c ∉ w -> ipc_header s (OMutex n) RT_Object_Class_Mutex flag ->
  wp (th <- get_thread c ;;
      when (negb (p =? th_current_priority th)) (rt_thread_control c RT_THREAD_CTRL_CHANGE_PRIORITY p ;; ret tt) ;;
      waiting <- q_nonempty (QMutex n) ;;
      if waiting then
        u <- q_first (QMutex n) ;;
        uth <- get_thread u ;;
        set_mutex n (mkMutex 0 (th_current_priority uth) (u8 (0 + 1)) (Some u)) ;;
        rt_ipc_list_resume (QMutex n) ;;
        rt_schedule ;;
        ret RT_EOK
      else set_mutex n (mkMutex (u16 (0 + 1)) 0xff 0 None) ;; ret RT_EOK) s
    (fun r s' => r = RT_EOK /\ kinv s' /\ thread_prio s' c = p /\
       match w with
       | [] => mutex_ok s' n AFree [] flag /\ k_current s' = Some c
       | t :: w' => mutex_ok s' n (AHeld t 1 (thread_prio s t)) w' flag /\
           exists uth th', k_threads s !! t = Some uth /\ k_threads s' !! t = Some th' /\ runnable th' /\
             th_error th' = th_error uth
       end).
Proof.
  intros Hk Hc Ht Hcl Hp Hw Hn Hh. kstep. apply (wp_get_thread _ th); [done|]. kstep.
  eapply wp_mono; [by apply (repriority_wp s c th p)|]. intros [] s1 P.
  assert ((if negb (p =? th_current_priority th) then p else th_current_priority th) = p) as Ep.
  { destruct (Z.eqb_spec p (th_current_priority th)); done. }
  rewrite Ep in P. destruct (rp_owner _ _ _ _ _ P) as (cth & Hc1 & Hst & Hq & _).
  assert (qget s1 (QMutex n) = w) as Ew by (by rewrite (rp_queues _ _ _ _ _ P)).
  assert (ipc_header s1 (OMutex n) RT_Object_Class_Mutex flag) as Hh1 by (apply (kframe_header s); [apply P|done|done]).
  kstep. apply wp_q_nonempty. rewrite Ew. destruct w as [|t w]; cbn [bool_decide negb]; [rewrite bool_decide_true by done|rewrite bool_decide_false by done]; cbn [negb].
  - unfold set_mutex. kstep. kstep. kstep. split; [done|]. split; [apply kinv_set_mutexes, P|].
    split; [unfold thread_prio; kproj; by rewrite Hc1|]. split; [|kproj; by rewrite (rp_current _ _ _ _ _ P)].
    split; [kproj; apply lookup_insert_eq|done|done|done].
  - assert (t <> c) as Hne by (intros ->; apply Hn; left).
    destruct (wf_place (proj1 (rp_inv _ _ _ _ _ P)) (QMutex n) t) as (uth & Hu & _); [rewrite Ew; left|].
    assert (k_threads s !! t = Some uth) as Hu0 by (by rewrite <- (rp_others _ _ _ _ _ P)).
    assert (thread_prio s1 t = th_current_priority uth) as E1 by (unfold thread_prio; by rewrite Hu).
    assert (thread_prio s t = th_current_priority uth) as -> by (unfold thread_prio; by rewrite Hu0).
    kstep. apply (wp_q_first _ t w); [done|]. kstep. apply (wp_get_thread _ uth); [done|].
    change (u8 (0 + 1)) with 1. eapply wp_mono; [apply (handover_wp s1 n w t flag); [apply P| |done|done|done]|].
    { rewrite (rp_current _ _ _ _ _ P), Hc. done. }
    intros r s' (-> & Hok & W). split; [done|]. split; [apply W|]. split.
    + rewrite (kept_prio _ _ _ (wo_others _ _ _ _ W c (not_eq_sym Hne))). unfold thread_prio. kproj. by rewrite Hc1.
    + split; [done|]. destruct (wo_thread _ _ _ _ W) as (x & th' & Ex & Et & Hr & Eth). kproj. rewrite Hu in Ex. injection Ex as <-.
      exists uth, th'. split_and!; [done|done|done|]. by apply (f_equal th_error) in Eth.
Qed.

(** C10: releasing a mutex, on every branch.  A thread that is not the owner gets
    -RT_ERROR and the mutex stays as it is.  The owner of a mutex it took several
    times lowers the hold count.  The last release gives the owner its original
    priority back and passes the mutex to the first waiting thread, which becomes
    runnable as the new owner and whose rt_mutex_take then returns RT_EOK; with
    nobody waiting the mutex is free and the caller stays current.  Mutex and
    kernel invariant hold after. *)
Theorem rt_mutex_release_correct s n a w flag c th :
  kinv s -> mutex_ok s n a w flag -> caller s c th ->
  wp (rt_mutex_release n) s (fun r s' => kinv s' /\
    match a with
    | AHeld o h p =>
        if decide (o = c) then r = RT_EOK /\
          if 1 <? h then mutex_ok s' n (AHeld c (h - 1) p) w flag /\ k_threads s' = k_threads s
          else thread_prio s' c = p /\
            match w with
            | [] => mutex_ok s' n AFree [] flag /\ k_current s' = Some c
            | t :: w' => mutex_ok s' n (AHeld t 1 (thread_prio s t)) w' flag /\
                exists uth th', k_threads s !! t = Some uth /\ k_threads s' !! t = Some th' /\ runnable th' /\
                  (th_error uth = RT_EOK -> forall time, rt_mutex_take_resume n t time s' = Ok (Returned RT_EOK) s')
            end
        else r = - RT_ERROR /\ mutex_ok s' n a w flag
    | AFree => r = - RT_ERROR /\ mutex_ok s' n a w flag
    end).
Proof.
  intros Hk H Hca. pose proof H as [Hd Hw Hh Hok]. apply (release_start_wp s n a w flag c th); [done|done|].
  assert (mx_owner (repr_mutex a) <> Some c -> wp (mod_thread c (set_th_error (- RT_ERROR)) ;; ret (- RT_ERROR)) s
    (fun r s' => kinv s' /\ r = - RT_ERROR /\ mutex_ok s' n a w flag)) as Hfail.
  { intros _. kstep. apply (wp_mod_thread _ _ th); [apply Hca|]. kstep.
    split; [apply (kinv_upd_same s c th); [done|apply Hca|by split_and!]|]. split; [done|].
    apply (mutex_ok_upd s n a w flag c th); [done|apply Hca|done]. }
  destruct a as [|o h p]; cbn [repr_mutex mx_owner mx_hold mx_original_priority mx_value set_mx_hold] in *.
  { rewrite bool_decide_false by done. by apply Hfail. }
  case_decide as Hoc; [|rewrite bool_decide_false by congruence; apply Hfail; congruence]. subst o.
  rewrite bool_decide_true by done. cbn [negb]. cbv zeta. destruct Hok as (Hr & Hp & Hnw & x & Ex & Hcl).
  rewrite u8_small by lia. unfold set_mutex at 1. kstep. kstep. set (s1 := set_k_mutexes _ s).
  assert (kinv s1) as Hk1 by (by apply kinv_set_mutexes). destruct Hca as [Hc Ht Hrun _]. simplify_eq.
  destruct (Z.ltb_spec 1 h) as [Hh1|Hh1].
  - rewrite (proj2 (Z.eqb_neq _ _)) by lia. kstep. split; [done|]. split; [done|]. split; [|done].
    apply (mutex_ok_held s n _ flag c (h - 1) p th); try done. lia.
  - assert (h = 1) as -> by lia. cbn [Z.sub Z.add Z.opp Z.pos_sub Z.eqb]. change (1 - 1 =? 0) with true. cbv iota.
    eapply wp_mono; [by apply (last_release_wp s1 n (qget s (QMutex n)) flag c th p)|].
    intros r s' (-> & Hk' & E1 & E2). split; [done|]. split; [done|]. split; [done|].
    destruct (qget s (QMutex n)) as [|t w']; [done|]. destruct E2 as (E2 & uth & th' & Eu & Et & Hr' & Ee). split; [done|].
    exists uth, th'. split_and!; [done..|]. intros E0 time.
    unfold rt_mutex_take_resume, wait_result, get_thread, bind, deref, ret. by rewrite Et, Ee, E0.
Qed.

Lemma rt_mutex_release_correct_witness :
  let s := set_k_mutexes {[ 0%nat := mkMutex 0 20 1 (Some 1%nat) ]} sample in
  wp (rt_mutex_release 0) s (fun r s' => kinv s' /\ r = RT_EOK /\
    thread_prio s' 1 = 20 /\ mutex_ok s' 0 AFree [] RT_IPC_FLAG_PRIO /\ k_current s' = Some 1%nat).
Proof.
  intros s. refine (rt_mutex_release_correct s 0 (AHeld 1 1 20) [] RT_IPC_FLAG_PRIO 1 (sample_thread 10 RT_THREAD_RUNNING) _ _ _).
  - apply kinv_set_mutexes, sample_kinv.
  - split; [done|done| |].
    + eexists. split; [reflexivity|]. split_and!; [done|done|by right].
    + split; [lia|]. split; [unfold RT_THREAD_PRIORITY_MAX; lia|]. split; [apply not_elem_of_nil|]. by eexists.
  - by split.
Defined.

(** ** Initialising and closing *)

Lemma rt_mutex_init_wp s n l flag :
  fresh_object s (OMutex n) RT_Object_Class_Mutex (QMutex n) -> chars_ok l ->
  flag = RT_IPC_FLAG_FIFO \/ flag = RT_IPC_FLAG_PRIO ->
  wp (rt_mutex_init n (cstring l) flag) s (fun r s' => r = RT_EOK /\ kinv s' /\ mutex_ok s' n AFree [] flag).
Proof.
  intros Hf Hl Hfl. unfold rt_mutex_init.
  apply (init_object_wp _ _ _ (QMutex n)); [done|done|]. intros s1 Hk Eq Ed Eo. kstep. apply wp_modify. kstep.
  unfold set_mutex. kstep. kstep. apply (wp_mod_object _ _ (static_header s (OMutex n) RT_Object_Class_Mutex l)); [done|].
  kstep. split; [done|]. split.
  - apply kinv_header_upd; [|done]. apply kinv_set_mutexes, kinv_q_init; [done|]. rewrite Eq by done. apply Hf.
  - split; [kproj; apply lookup_insert_eq|unfold qget; kproj; by rewrite lookup_insert_eq| |done].
    eexists. split; [apply lookup_insert_eq|by split_and!].
Qed.

Lemma rt_mutex_detach_wp s n :
  kinv s -> static_object s (OMutex n) RT_Object_Class_Mutex ->
  wp (rt_mutex_detach n) s (fun r s' => r = RT_EOK /\ ipc_closed (qget s (QMutex n)) s s' (OMutex n)).
Proof. intros Hk Hs. apply ipc_detach_wp; [done|done|done|unfold ipc_class; set_solver|done]. Qed.

Lemma rt_mutex_delete_wp s n :
  kinv s -> k_irq_nest s = 0 -> heap_object s (OMutex n) RT_Object_Class_Mutex ->
  wp (rt_mutex_delete n) s (fun r s' => r = RT_EOK /\ ipc_closed (qget s (QMutex n)) s s' (OMutex n)).
Proof.
  intros Hk Hi Hs. unfold rt_mutex_delete, RT_DEBUG_NOT_IN_INTERRUPT. kstep. kstep. kstep. apply wp_assert; [by rewrite Hi|].
  apply ipc_delete_wp; [done|done|done|unfold ipc_class; set_solver|done].
Qed.
