(* ===== verification/Event.v ===== *)
(** * Event sets (src/ipc.c)

    An event object is a 32-bit set; a thread waits for all ([AND]) or any ([OR])
    of the bits it names, and may clear what it got ([CLEAR]).  [received] is the
    test both sides use, [deliver] the effect of one rt_event_send on the threads
    that wait, in list order.  [event_ok] says that no waiting thread is satisfied
    by the current set: a wake-up is never missed. *)

From S2P Require Import Prelude Ffs KState Wf Inv Sched Object Timer Thread TimerRun Sleep Ipc.

Definition get_event (n : nat) : K Z := deref (fun s => k_events s !! n).
Definition set_event (n : nat) (v : Z) : K unit := modify (fun s => set_k_events (<[n := v]> (k_events s)) s).

Definition has_flag (x flag : Z) : bool := negb (Z.land x flag =? 0).

Definition rt_event_init (n : nat) (name : list Z) (flag : Z) : K Z :=
  rt_object_init (OEvent n) RT_Object_Class_Event name ;;
  mod_object (OEvent n) (set_o_flag flag) ;;
  q_init (QEvent n) ;;
  set_event n 0 ;;
  ret RT_EOK.

Definition rt_event_detach (n : nat) : K Z :=
  assert_type (OEvent n) RT_Object_Class_Event ;;
  sys <- rt_object_is_systemobject (OEvent n) ;;
  RT_ASSERT sys ;;
  rt_ipc_list_resume_all (QEvent n) ;;
  rt_object_detach (OEvent n) ;;
  ret RT_EOK.

Definition rt_event_create (name : list Z) (flag : Z) (malloced : option nat) : K (option nat) :=
  RT_DEBUG_NOT_IN_INTERRUPT ;;
  o <- rt_object_allocate RT_Object_Class_Event name (OEvent <$> malloced) ;;
  match o, malloced with
  | Some _, Some n =>
      mod_object (OEvent n) (set_o_flag flag) ;;
      q_init (QEvent n) ;;
      set_event n 0 ;;
      ret (Some n)
  | _, _ => ret None
  end.

Definition rt_event_delete (n : nat) : K Z :=
  assert_type (OEvent n) RT_Object_Class_Event ;;
  sys <- rt_object_is_systemobject (OEvent n) ;;
  RT_ASSERT (negb sys) ;;
  RT_DEBUG_NOT_IN_INTERRUPT ;;
  rt_ipc_list_resume_all (QEvent n) ;;
  rt_object_delete (OEvent n) ;;
  ret RT_EOK.

(** The test of rt_event_send on a waiting thread, given the current set [v]. *)
Definition event_status (t : nat) (v : Z) (th : rt_thread) : K Z :=
  if has_flag (th_event_info th) RT_EVENT_FLAG_AND then
    if Z.land (th_event_set th) v =? th_event_set th then ret RT_EOK else ret (- RT_ERROR)
  else if has_flag (th_event_info th) RT_EVENT_FLAG_OR then
    if has_flag (th_event_set th) v then
      mod_thread t (set_th_event_set (Z.land (th_event_set th) v)) ;;
      ret RT_EOK
    else ret (- RT_ERROR)
  else ret (- RT_ERROR).

(** The walk of rt_event_send over the waiting threads ([n = n->next] is taken
    before the thread leaves the list); true if a scheduling pass is needed. *)
Fixpoint event_wake (n : nat) (l : list nat) : K bool :=
  match l with
  | [] => ret false
  | t :: l =>
      v <- get_event n ;;
      th <- get_thread t ;;
      status <- event_status t v th ;;
      if status =? RT_EOK then
        th <- get_thread t ;;
        when (has_flag (th_event_info th) RT_EVENT_FLAG_CLEAR) (set_event n (Z.land v (Z.lnot (th_event_set th)))) ;;
        rt_thread_resume t ;;
        event_wake n l ;;
        ret true
      else event_wake n l
  end.

Definition rt_event_send (n : nat) (set : Z) : K Z :=
  assert_type (OEvent n) RT_Object_Class_Event ;;
  if set =? 0 then ret (- RT_ERROR)
  else
    v <- get_event n ;;
    set_event n (Z.lor v set) ;;
    l <- gets (fun s => qget s (QEvent n)) ;;
    need_schedule <- event_wake n l ;;
    when need_schedule rt_schedule ;;
    ret RT_EOK.

(** The result is the error code and, when [*recved] was written, its value. *)
Definition rt_event_recv_enter (n : nat) (set opt timeout : Z) : K (outcome (Z * option Z)) :=
  RT_DEBUG_IN_THREAD_CONTEXT ;;
  assert_type (OEvent n) RT_Object_Class_Event ;;
  if set =? 0 then ret (Returned (- RT_ERROR, None))
  else
    t <- current_thread ;;
    mod_thread t (set_th_error RT_EOK) ;;
    v <- get_event n ;;
    status <- (if has_flag opt RT_EVENT_FLAG_AND then
                 if Z.land v set =? set then ret RT_EOK else ret (- RT_ERROR)
               else if has_flag opt RT_EVENT_FLAG_OR then
                 if has_flag v set then ret RT_EOK else ret (- RT_ERROR)
               else RT_ASSERT false ;; ret (- RT_ERROR)) ;;
    if status =? RT_EOK then
      when (has_flag opt RT_EVENT_FLAG_CLEAR) (set_event n (Z.land v (Z.lnot set))) ;;
      th <- get_thread t ;;
      ret (Returned (th_error th, Some (Z.land v set)))
    else if timeout =? 0 then
      mod_thread t (set_th_error (- RT_ETIMEOUT)) ;;
      th <- get_thread t ;;
      ret (Returned (th_error th, None))
    else
      mod_thread t (set_th_event_set set) ;;
      mod_thread t (set_th_event_info opt) ;;
      ob <- get_object (OEvent n) ;;
      rt_ipc_list_suspend (QEvent n) t (o_flag ob) ;;
      when (0 <? timeout) (start_thread_timer t timeout) ;;
      rt_schedule ;;
      ret (Waiting t).

Definition rt_event_recv_resume (t : nat) : K (Z * option Z) :=
  e <- wait_result t ;;
  if negb (e =? RT_EOK) then ret (e, None)
  else
    th <- get_thread t ;;
    ret (th_error th, Some (th_event_set th)).

Definition rt_event_control (n : nat) (cmd : Z) : K Z :=
  assert_type (OEvent n) RT_Object_Class_Event ;;
  if cmd =? RT_IPC_CMD_RESET then
    rt_ipc_list_resume_all (QEvent n) ;;
    set_event n 0 ;;
    rt_schedule ;;
    ret RT_EOK
  else ret (- RT_ERROR).

(** ** What a thread receives *)

(** The events a thread that waits for [es] with options [info] gets from set [v]. *)
Definition received (info es v : Z) : option Z :=
  if has_flag info RT_EVENT_FLAG_AND then if Z.land es v =? es then Some es else None
  else if has_flag info RT_EVENT_FLAG_OR then if has_flag es v then Some (Z.land es v) else None
  else None.

Definition cleared (info v g : Z) : Z := if has_flag info RT_EVENT_FLAG_CLEAR then Z.land v (Z.lnot g) else v.

(** One rt_event_send: each waiting thread in turn gets what it waits for from
    what the ones before it left; the set that remains and who got what. *)
Fixpoint deliver (wants : nat -> Z * Z) (v : Z) (l : list nat) : Z * list (nat * Z) :=
  match l with
  | [] => (v, [])
  | t :: l =>
      match received (fst (wants t)) (snd (wants t)) v with
      | Some g => let r := deliver wants (cleared (fst (wants t)) v g) l in (fst r, (t, g) :: snd r)
      | None => deliver wants v l
      end
  end.

Definition wants (s : kst) (t : nat) : Z * Z :=
  match k_threads s !! t with Some th => (th_event_info th, th_event_set th) | None => (0, 0) end.

Definition event_sub (v' v : Z) : Prop := exists m, v' = Z.land v m.

Lemma event_sub_refl v : event_sub v v.
Proof. exists (-1). by rewrite Z.land_m1_r. Qed.
Lemma event_sub_trans a b c : event_sub a b -> event_sub b c -> event_sub a c.
Proof. intros [m ->] [k ->]. exists (Z.land k m). by rewrite Z.land_assoc. Qed.
Lemma cleared_sub info v g : event_sub (cleared info v g) v.
Proof. unfold cleared. destruct (has_flag _ _); [by eexists|apply event_sub_refl]. Qed.

(** Fewer events satisfy fewer threads. *)
Lemma received_mono info es v v' : event_sub v' v -> received info es v = None -> received info es v' = None.
Proof.
  intros [m ->]. unfold received. destruct (has_flag info _).
  - destruct (Z.eqb_spec (Z.land es v) es) as [|Hne]; [done|]. intros _.
    destruct (Z.eqb_spec (Z.land es (Z.land v m)) es) as [E|]; [|done]. exfalso. apply Hne.
    rewrite <- E at 1. rewrite <- Z.land_assoc, (Z.land_comm (Z.land v m)), Z.land_assoc, <- (Z.land_assoc es v (Z.land v m)).
    by rewrite (Z.land_assoc v v m), Z.land_diag.
  - destruct (has_flag info _); [|done]. unfold has_flag. destruct (Z.eqb_spec (Z.land es v) 0) as [E|]; [|done].
    intros _. by rewrite Z.land_assoc, E, Z.land_0_l.
Qed.

Lemma deliver_sub w v l : event_sub (fst (deliver w v l)) v.
Proof.
  revert v. induction l as [|t l IH]; intros v; cbn; [apply event_sub_refl|].
  destruct (received _ _ v) as [g|]; [|apply IH]. cbn. eapply event_sub_trans; [apply IH|apply cleared_sub].
Qed.

(** Whoever got nothing is not satisfied by what remains. *)
Lemma deliver_unsatisfied w v l t :
  t ∈ l -> t ∉ (snd (deliver w v l)).*1 -> received (fst (w t)) (snd (w t)) (fst (deliver w v l)) = None.
Proof.
  revert v. induction l as [|u l IH]; intros v Hin; [by apply elem_of_nil in Hin|]. cbn.
  destruct (received (fst (w u)) (snd (w u)) v) as [g|] eqn:E; cbn.
  - rewrite not_elem_of_cons. intros [Hne Hn]. apply IH; [|done]. by apply elem_of_cons in Hin as [->|].
  - intros Hn. apply elem_of_cons in Hin as [->|Hin]; [|by apply IH]. eapply received_mono; [apply deliver_sub|done].
Qed.

(** ** The walk over the waiting threads *)

Lemma upd_thread_id s t th : k_threads s !! t = Some th -> upd_thread t th s = s.
Proof. intros H. unfold upd_thread. rewrite insert_id by done. by destruct s. Qed.
Lemma set_events_id s n v : k_events s !! n = Some v -> set_k_events (<[n := v]> (k_events s)) s = s.
Proof. intros H. rewrite insert_id by done. by destruct s. Qed.
Lemma kinv_set_events s m : kinv s -> kinv (set_k_events m s).
Proof. intros [W T]. split; [by apply (wfx_same _ s)|by apply (tinv_same s); eauto]. Qed.
Lemma wp_get_event n v s Q : k_events s !! n = Some v -> Q v s -> wp (get_event n) s Q.
Proof. intros H1 H2. by apply (wp_deref _ v). Qed.
Lemma kframe_events s s' : kframe s s' -> k_events s' = k_events s.
Proof. intros F%kframe_ipc. unfold ipc_data in F. by injection F as _ _ -> _ _. Qed.

Lemma event_status_wp s t v th :
  k_threads s !! t = Some th ->
  wp (event_status t v th) s (fun r s' =>
    match received (th_event_info th) (th_event_set th) v with
    | Some g => r = RT_EOK /\ s' = upd_thread t (set_th_event_set g th) s
    | None => r = - RT_ERROR /\ s' = s
    end).
Proof.
  intros Ht. unfold event_status, received. destruct (has_flag (th_event_info th) RT_EVENT_FLAG_AND).
  - destruct (Z.land _ _ =? _); kstep; [|done]. split; [done|]. symmetry. apply upd_thread_id. by destruct th.
  - destruct (has_flag (th_event_info th) RT_EVENT_FLAG_OR); [|by kstep].
    destruct (has_flag (th_event_set th) v); [|by kstep]. kstep. apply (wp_mod_thread _ _ th); [done|]. by kstep.
Qed.

(** Who woke up with which events, the set left being [v]. *)
Record delivered (s s' : kst) (n : nat) (v : Z) (got : list (nat * Z)) : Prop := {
  de_inv : kinv s';
  de_frame : kframe (set_k_events (<[n := v]> (k_events s)) s) s';
  de_current : k_current s' = k_current s;
  de_woken : forall t g, (t, g) ∈ got -> exists th th', k_threads s !! t = Some th /\ k_threads s' !! t = Some th' /\
    runnable th' /\ set_th_stat 0 th' = set_th_stat 0 (set_th_event_set g th);
  de_others : forall t, t ∉ got.*1 -> k_threads s' !! t = k_threads s !! t;
  de_queues : forall q, wait_list q -> qget s' q = filter (fun t => t ∉ got.*1) (qget s q)
}.

Lemma delivered_nil s n v : kinv s -> k_events s !! n = Some v -> delivered s s n v [].
Proof.
  intros Hk He. split; [done|rewrite set_events_id by done; apply kframe_refl|done|by intros t g ?%elem_of_nil|done|].
  intros q _. symmetry. apply filter_id. intros t _. apply not_elem_of_nil.
Qed.

Lemma delivered_cons s s3 s' n v v' t g got th :
  k_threads s !! t = Some th -> k_threads s3 = <[t := woken s t (set_th_event_set g th)]> (k_threads s) ->
  k_current s3 = k_current s -> kframe (set_k_events (<[n := v]> (k_events s)) s) s3 ->
  (forall q, wait_list q -> qget s3 q = without t (qget s q)) ->
  t ∉ got.*1 -> delivered s3 s' n v' got -> delivered s s' n v' ((t, g) :: got).
Proof.
  intros Ht Eth Ec F Eq Hn [D1 D2 D3 D4 D5 D6]. split; [done| |congruence| | |].
  - eapply kframe_trans; [|exact D2]. pose proof (kframe_events _ _ F) as Ee. destruct F as [F1 F2]. split; [|exact F2].
    unfold misc, ipc_data in *. kproj. injection F1 as ??????????. rewrite Ee, insert_insert_eq. congruence.
  - intros u g' [Heq|Hu]%elem_of_cons.
    + injection Heq as -> ->. exists th, (woken s t (set_th_event_set g th)). rewrite D5 by done. rewrite Eth, lookup_insert_eq.
      split_and!; [done|done|apply woken_runnable|done].
    + destruct (D4 u g' Hu) as (x & x' & Ex & Ex' & Hx). rewrite Eth, lookup_insert_ne in Ex; [eauto 10|].
      intros <-. apply Hn. by apply (list_elem_of_fmap_2 fst _ (t, g')).
  - intros u. cbn. rewrite not_elem_of_cons. intros [Hne Hu]. by rewrite D5, Eth, lookup_insert_ne.
  - intros q Hq. rewrite D6, Eq by done. unfold without. rewrite list_filter_filter. apply list_filter_iff.
    intros u. cbn. rewrite not_elem_of_cons. tauto.
Qed.

Lemma deliver_ext w w' v l : (forall t, t ∈ l -> w t = w' t) -> deliver w v l = deliver w' v l.
Proof.
  revert v. induction l as [|t l IH]; intros v E; cbn; [done|]. rewrite E by left.
  destruct (received _ _ _); rewrite (IH _ (fun u Hu => E u (list_elem_of_further _ _ _ Hu))); done.
Qed.
Lemma deliver_in w v l t : t ∈ (snd (deliver w v l)).*1 -> t ∈ l.
Proof.
  revert v. induction l as [|u l IH]; intros v; cbn; [done|]. destruct (received _ _ _); cbn; [|by right; eapply IH].
  rewrite !elem_of_cons. intros [->|H]; [by left|right; by eapply IH].
Qed.

Lemma event_wake_wp l : forall s n v,
  kinv s -> k_events s !! n = Some v -> NoDup l -> (forall t, t ∈ l -> t ∈ qget s (QEvent n)) ->
  let d := deliver (wants s) v l in
  wp (event_wake n l) s (fun r s' => r = negb (bool_decide (snd d = [])) /\ delivered s s' n (fst d) (snd d)).
Proof.
  induction l as [|t l IH]; intros s n v Hk He Hnd Hl; cbn [event_wake deliver].
  { kstep. split; [done|by apply delivered_nil]. }
  apply NoDup_cons in Hnd as [Hnt Hnd]. destruct (wf_place (proj1 Hk) (QEvent n) t) as (th & Ht & Hst); [apply Hl; left|].
  cbn in Hst. kstep. apply (wp_get_event _ v); [done|]. kstep. apply (wp_get_thread _ th); [done|]. kstep.
  assert (wants s t = (th_event_info th, th_event_set th)) as -> by (unfold wants; by rewrite Ht). cbn [fst snd].
  eapply wp_mono; [by apply (event_status_wp s t v th)|]. intros r s1 Hr.
  destruct (received (th_event_info th) (th_event_set th) v) as [g|]; destruct Hr as [-> ->].
  2:{ change (- RT_ERROR =? RT_EOK) with false. cbv iota. apply IH; [done|done|done|]. intros u Hu. apply Hl. by right. }
  change (RT_EOK =? RT_EOK) with true. cbv iota. set (th1 := set_th_event_set g th). set (s1 := upd_thread t th1 s).
  assert (k_threads s1 !! t = Some th1) as Ht1 by (unfold s1; kproj; apply lookup_insert_eq).
  kstep. apply (wp_get_thread _ th1); [done|]. change (th_event_info th1) with (th_event_info th). change (th_event_set th1) with g.
  set (v' := cleared (th_event_info th) v g). set (s2 := set_k_events (<[n := v']> (k_events s1)) s1).
  kstep. eapply (wp_mono _ _ (fun _ s' => s' = s2)).
  { unfold s2, v', cleared, when. destruct (has_flag (th_event_info th) RT_EVENT_FLAG_CLEAR); [by apply wp_modify|].
    kstep. symmetry. by apply set_events_id. }
  intros [] ? ->. assert (kinv s2) as Hk2 by (apply kinv_set_events; apply (kinv_upd_same s t th); [done|done|by split_and!]).
  kstep. eapply wp_mono; [by apply (rt_thread_resume_wp s2 t th1)|]. intros r s3 (_ & [M1 M2 M3 M4 M5] & _).
  assert (k_threads s3 = <[t := woken s t th1]> (k_threads s)) as Eth.
  { rewrite M3. unfold s2, s1. kproj. by rewrite insert_insert_eq. }
  assert (forall q, wait_list q -> qget s3 q = without t (qget s q)) as Eq by (intros q Hq; by rewrite M4, woken_queue_wait).
  assert (k_events s3 !! n = Some v') as He3 by (rewrite (kframe_events _ _ M2); apply lookup_insert_eq).
  assert (deliver (wants s3) v' l = deliver (wants s) v' l) as Ed.
  { apply deliver_ext. intros u Hu. unfold wants. rewrite Eth, lookup_insert_ne; [done|]. by intros <-. }
  kstep. eapply wp_mono; [apply (IH s3 n v'); [done|done|done|]|].
  { intros u Hu. rewrite Eq, elem_of_without by done. split; [by intros ->|]. apply Hl. by right. }
  intros b s' [_ D]. kstep. rewrite Ed in D. split; [done|]. cbn [fst snd].
  apply (delivered_cons s s3 s' n v' _ t g _ th); try done.
  intros Hin. apply Hnt. by eapply deliver_in.
Qed.

(** ** The event object *)

Record event_ok (s : kst) (n : nat) (v : Z) (w : list nat) (flag : Z) : Prop := {
  eo_value : k_events s !! n = Some v;
  eo_waiting : qget s (QEvent n) = w;
  eo_header : ipc_header s (OEvent n) RT_Object_Class_Event flag;
  eo_unsatisfied : forall t, t ∈ w -> received (fst (wants s t)) (snd (wants s t)) v = None
}.

Lemma kept_wants s s' t : kept s s' t -> wants s' t = wants s t.
Proof.
  unfold kept, wants. intros [x y [E _]|]; [|done].
  pose proof (f_equal th_event_info E) as E1. pose proof (f_equal th_event_set E) as E2. cbn in E1, E2. by rewrite E1, E2.
Qed.

(** A scheduling pass leaves the event object alone. *)
Lemma event_ok_sched s s' n v w flag : sched_frame s s' -> event_ok s n v w flag -> event_ok s' n v w flag.
Proof.
  intros F [E1 E2 E3 E4]. pose proof (sched_kframe _ _ F) as KF. split.
  - by rewrite (kframe_events _ _ KF).
  - rewrite (sf_queues _ _ F) by done. done.
  - by apply (kframe_header s).
  - intros t Ht. rewrite (kept_wants s s' t) by (by apply kept_frame). auto.
Qed.

Lemma event_ok_delivered s s' n v w flag set d :
  event_ok s n v w flag -> d = deliver (wants s) (Z.lor v set) w ->
  delivered (set_k_events (<[n := Z.lor v set]> (k_events s)) s) s' n (fst d) (snd d) ->
  event_ok s' n (fst d) (filter (fun t => t ∉ (snd d).*1) w) flag.
Proof.
  intros [E1 E2 E3 E4] Ed [D1 D2 D3 D4 D5 D6]. split.
  - rewrite (kframe_events _ _ D2). kproj. by rewrite lookup_insert_eq.
  - rewrite D6 by done. by rewrite <- E2.
  - by apply (kframe_header _ s' _ _ _ D2).
  - intros t [Hn Ht]%list_elem_of_filter. assert (wants s' t = wants s t) as -> by (unfold wants; by rewrite D5).
    rewrite Ed. apply deliver_unsatisfied; [done|by rewrite <- Ed].
Qed.

(** C11: sending events.  rt_event_send adds the bits and serves the waiting
    threads in list order: each one whose condition holds leaves the list,
    becomes runnable with the events it got recorded (rt_event_recv then returns
    them with RT_EOK), and, with the CLEAR option, removes them for those behind
    it.  Afterwards no thread that still waits is satisfied by the set: no wake-up
    is missed.  An empty set is refused. *)
Theorem rt_event_send_correct s n v w flag set :
  kinv s -> event_ok s n v w flag -> is_Some (k_current s) ->
  let d := deliver (wants s) (Z.lor v set) w in
  wp (rt_event_send n set) s (fun r s' => kinv s' /\
    if set =? 0 then r = - RT_ERROR /\ s' = s
    else r = RT_EOK /\ event_ok s' n (fst d) (filter (fun t => t ∉ (snd d).*1) w) flag /\
      (forall t, t ∉ (snd d).*1 -> kept s s' t) /\
      forall t g, (t, g) ∈ snd d -> exists th th', k_threads s !! t = Some th /\ k_threads s' !! t = Some th' /\
        runnable th' /\ (th_error th = RT_EOK -> rt_event_recv_resume t s' = Ok (RT_EOK, Some g) s')).
Proof.
  intros Hk H Hc d. pose proof H as [E1 E2 E3 E4]. unfold rt_event_send. kstep. apply (wp_ipc_type _ _ _ flag); [done|].
  destruct (set =? 0); [by kstep|]. kstep. apply (wp_get_event _ v); [done|]. unfold set_event. kstep. kstep. kstep. kstep. kstep.
  set (s1 := set_k_events _ s). change (qget s1 (QEvent n)) with (qget s (QEvent n)). rewrite E2.
  eapply wp_mono; [apply (event_wake_wp w s1 n (Z.lor v set)); [by apply kinv_set_events|apply lookup_insert_eq|..]|].
  { rewrite <- E2. apply (wf_nodup (proj1 Hk)). }
  { intros t Ht. by rewrite <- E2 in Ht. }
  change (wants s1) with (wants s). fold d. intros b s2 [-> D]. unfold when. kstep.
  eapply (wp_mono _ _ (fun _ s3 => kinv s3 /\ sched_frame s2 s3)).
  { destruct (negb _); [|kstep; split; [apply D|apply sched_frame_refl]].
    eapply wp_mono; [apply rt_schedule_kinv; [apply D|by rewrite (de_current _ _ _ _ _ D)]|]. by intros [] s3 (? & ? & _). }
  intros [] s3 [Hk3 F]. kstep. split; [done|]. split; [done|]. split; [|split].
  - apply (event_ok_sched s2); [done|]. by apply (event_ok_delivered s s2 n v w flag set d).
  - intros t Ht. unfold kept. rewrite <- (de_others _ _ _ _ _ D t Ht : _ = k_threads s !! t). by apply kept_frame.
  - intros t g Hg. destruct (de_woken _ _ _ _ _ D t g Hg) as (th & th2 & Et & Et2 & Hr & Eth).
    destruct (sched_frame_lookup s2 s3 t th2 F Et2) as (th3 & Et3 & Hstep). exists th, th3.
    split_and!; [done|done|by eapply thread_step_runnable|]. intros Ee. destruct Hstep as [Est _]. rewrite Eth in Est.
    pose proof (f_equal th_error Est) as F1. pose proof (f_equal th_event_set Est) as F2. cbn in F1, F2.
    unfold rt_event_recv_resume, wait_result, get_thread, bind, deref, ret.
    rewrite Et3, F1, Ee. cbn. by rewrite Et3, F1, Ee, F2.
Qed.

(** Thread 3 of the sample state waits for events 1 and 4 of event object 0. *)
Definition sample_event : kst :=
  upd_queue (QEvent 0) [3%nat] (upd_queue (QSem 0) []
    (upd_thread 3 (set_th_event_info 5 (set_th_event_set 5 (sample_thread 5 RT_THREAD_SUSPEND))) sample)).
Lemma sample_event_kinv : kinv sample_event.
Proof. apply kinvb_sound. vm_compute. reflexivity. Qed.
Lemma sample_event_ok : event_ok sample_event 0 0 [3%nat] RT_IPC_FLAG_PRIO.
Proof.
  split; [done|done| |].
  - eexists. split; [reflexivity|]. split_and!; [done|done|by right].
  - by intros t ->%list_elem_of_singleton.
Qed.

Lemma rt_event_send_correct_witness :
  wp (rt_event_send 0 7) sample_event (fun r s' => kinv s' /\ r = RT_EOK /\ event_ok s' 0 2 [] RT_IPC_FLAG_PRIO /\
    (forall t, t ∉ [3%nat] -> kept sample_event s' t) /\
    forall t g, (t, g) ∈ [(3%nat, 5)] -> exists th th', k_threads sample_event !! t = Some th /\ k_threads s' !! t = Some th' /\
        runnable th' /\ (th_error th = RT_EOK -> rt_event_recv_resume t s' = Ok (RT_EOK, Some g) s')).
Proof.
  exact (rt_event_send_correct sample_event 0 0 [3%nat] RT_IPC_FLAG_PRIO 7 sample_event_kinv sample_event_ok (mk_is_Some _ _ eq_refl)).
Defined.

(** ** Receiving *)

Lemma land_has_flag a b : has_flag a b = has_flag b a.
Proof. unfold has_flag. by rewrite Z.land_comm. Qed.

(** What the fast path clears is what it received. *)
Lemma clear_received v set : Z.land v (Z.lnot set) = Z.land v (Z.lnot (Z.land set v)).
Proof.
  apply Z.bits_inj'. intros i Hi. rewrite !Z.land_spec, !Z.lnot_spec, Z.land_spec by done.
  by destruct (Z.testbit v i), (Z.testbit set i).
Qed.

Lemma received_cleared opt set v g :
  received opt set v = Some g -> Z.land v set = g /\ cleared opt v g = cleared opt v set.
Proof.
  intros Er. unfold cleared. rewrite (clear_received v set). unfold received in Er. destruct (has_flag opt RT_EVENT_FLAG_AND).
  - destruct (Z.eqb_spec (Z.land set v) set) as [E|]; simplify_eq. by rewrite E, Z.land_comm, E.
  - destruct (has_flag opt RT_EVENT_FLAG_OR); [|done]. destruct (has_flag set v); simplify_eq. by rewrite Z.land_comm.
Qed.

Lemma recv_start_wp s n v w flag set opt timeout c th Q :
  event_ok s n v w flag -> caller s c th -> set <> 0 ->
  has_flag opt RT_EVENT_FLAG_AND = true \/ has_flag opt RT_EVENT_FLAG_OR = true ->
  (let s0 := upd_thread c (set_th_error RT_EOK th) s in
   wp (if match received opt set v with Some _ => true | None => false end then
         when (has_flag opt RT_EVENT_FLAG_CLEAR) (set_event n (Z.land v (Z.lnot set))) ;;
         th <- get_thread c ;;
         ret (Returned (th_error th, Some (Z.land v set)))
       else if timeout =? 0 then
         mod_thread c (set_th_error (- RT_ETIMEOUT)) ;;
         th <- get_thread c ;;
         ret (Returned (th_error th, None))
       else
         mod_thread c (set_th_event_set set) ;;
         mod_thread c (set_th_event_info opt) ;;
         ob <- get_object (OEvent n) ;;
         rt_ipc_list_suspend (QEvent n) c (o_flag ob) ;;
         when (0 <? timeout) (start_thread_timer c timeout) ;;
         rt_schedule ;;
         ret (Waiting c)) s0 Q) ->
  wp (rt_event_recv_enter n set opt timeout) s Q.
Proof.
  intros [E1 E2 E3 E4] Hca Hs Ho HQ. unfold rt_event_recv_enter. kstep. apply (wp_in_thread_context s c th); [done|]. kstep.
  apply (wp_ipc_type _ _ _ flag); [done|]. rewrite (proj2 (Z.eqb_neq _ _) Hs). kstep. apply (wp_current c); [apply Hca|]. kstep.
  apply (wp_mod_thread _ _ th); [apply Hca|]. kstep. apply (wp_get_event _ v); [done|]. kstep.
  unfold received in HQ. rewrite (land_has_flag v set), (Z.land_comm v set).
  destruct (has_flag opt RT_EVENT_FLAG_AND).
  - destruct (Z.land set v =? set); kstep; cbn in HQ |- *; by rewrite ?(Z.land_comm v set) in HQ.
  - destruct Ho as [|Ho]; [done|]. rewrite Ho in *.
    destruct (has_flag set v); kstep; cbn in HQ |- *; by rewrite ?(Z.land_comm v set) in HQ.
Qed.

Lemma event_ok_upd s n v w flag c th th' :
  kinv s -> event_ok s n v w flag -> caller s c th -> event_ok (upd_thread c th' s) n v w flag.
Proof.
  intros Hk [E1 E2 E3 E4] [Hc Ht Hr _]. split; [done|done|done|]. intros t Hin.
  assert (t <> c) as Hne.
  { intros ->. rewrite <- E2 in Hin. by apply (current_detached s c th (proj1 Hk) Hc Ht Hr) in Hin. }
  unfold wants. rewrite lookup_upd_thread, decide_False by done. by apply E4.
Qed.

(** The branches with a condition to satisfy. *)
Lemma rt_event_recv_wp s n v w flag set opt timeout c th :
  kinv s -> event_ok s n v w flag -> caller s c th -> set <> 0 -> timeout < TICK_HALF ->
  has_flag opt RT_EVENT_FLAG_AND = true \/ has_flag opt RT_EVENT_FLAG_OR = true ->
  wp (rt_event_recv_enter n set opt timeout) s (fun r s' => kinv s' /\
    match received opt set v with
    | Some g => r = Returned (RT_EOK, Some g) /\ event_ok s' n (cleared opt v g) w flag /\ s' = set_k_events (<[n := cleared opt v g]> (k_events s)) (upd_thread c (set_th_error RT_EOK th) s)
    | None =>
        if timeout =? 0 then r = Returned (- RT_ETIMEOUT, None) /\ event_ok s' n v w flag /\ s' = upd_thread c (set_th_error (- RT_ETIMEOUT) th) s
        else r = Waiting c /\ event_ok s' n v (wait_insert s flag c w) flag /\
          blocked_post s s' (QEvent n) flag c (set_th_event_info opt (set_th_event_set set (set_th_error RT_EOK th))) timeout
    end).
Proof.
  intros Hk H Hca Hs Hmax Ho. apply (recv_start_wp s n v w flag set opt timeout c th); [done..|]. intros s0.
  set (th0 := set_th_error RT_EOK th).
  assert (kinv s0) as Hk0 by (apply (kinv_upd_same s c th); [done|apply Hca|by split_and!]).
  assert (caller s0 c th0) as Hca0 by (by apply (caller_upd s c th)).
  assert (event_ok s0 n v w flag) as H0 by (by apply (event_ok_upd s n v w flag c th)).
  destruct (received opt set v) as [g|] eqn:Er.
  - destruct (received_cleared opt set v g Er) as [Eg Ec].
    set (s1 := set_k_events (<[n := cleared opt v g]> (k_events s0)) s0).
    kstep. eapply (wp_mono _ _ (fun _ s' => s' = s1)).
    { unfold s1. rewrite Ec. unfold cleared, when. destruct (has_flag opt RT_EVENT_FLAG_CLEAR); [by apply wp_modify|].
      kstep. symmetry. apply set_events_id, H0. }
    intros [] ? ->. kstep. apply (wp_get_thread _ th0); [apply Hca0|]. kstep. rewrite Eg.
    split; [by apply kinv_set_events|]. split; [done|]. split; [|done]. destruct H0 as [F1 F2 F3 F4].
    split; [apply lookup_insert_eq|done|done|]. intros t Ht. eapply received_mono; [apply cleared_sub|by apply F4].
  - destruct (timeout =? 0) eqn:Et.
    + kstep. apply (wp_mod_thread _ _ th0); [apply Hca0|]. kstep.
      eapply (wp_get_thread); [apply lookup_insert_eq|]. kstep.
      split; [apply (kinv_upd_same s0 c th0); [done|apply Hca0|by split_and!]|]. split; [done|]. split; [by apply (event_ok_upd s0 n v w flag c th0)|].
      unfold s0, upd_thread. kproj. by rewrite insert_insert_eq.
    + kstep. apply (wp_mod_thread _ _ th0); [apply Hca0|]. kstep. eapply wp_mod_thread; [apply lookup_insert_eq|].
      set (th1 := set_th_event_info opt (set_th_event_set set th0)).
      assert (upd_thread c th1 (upd_thread c (set_th_event_set set th0) s0) = upd_thread c th1 s) as ->.
      { unfold s0, upd_thread. kproj. by rewrite !insert_insert_eq. }
      apply (wp_ipc_flag _ _ RT_Object_Class_Event flag); [apply header_upd_thread, H|]. intros ob ->.
      apply (block_upd_wp s (QEvent n) c th th1); [done|done|by split_and!|done|eapply header_flag, H|done|].
      intros s' B. kstep. split; [apply B|]. split; [done|]. split; [|done]. destruct H as [F1 F2 F3 F4].
      destruct (bp_thread _ _ _ _ _ _ _ B) as (th' & Et' & _ & Eth).
      split; [by rewrite (kframe_events _ _ (bp_frame _ _ _ _ _ _ _ B))| |by apply (kframe_header s); [apply B| |]|].
      * rewrite (blocked_here _ _ _ _ _ _ _ B) by done. by rewrite F2.
      * intros t. rewrite wait_insert_perm, elem_of_cons. intros Hin. destruct (decide (t = c)) as [->|Hne].
        -- unfold wants. rewrite Et'. pose proof (f_equal th_event_info Eth) as G1. pose proof (f_equal th_event_set Eth) as G2.
           cbn in G1, G2. by rewrite G1, G2.
        -- rewrite (kept_wants s s' t) by (by apply (bp_others _ _ _ _ _ _ _ B)). apply F4. by destruct Hin.
Qed.

(** What comes before the condition is looked at. *)
Lemma recv_checks_wp s n v w flag c th (Q : unit -> kst -> Prop) :
  event_ok s n v w flag -> caller s c th -> Q tt s -> wp (RT_DEBUG_IN_THREAD_CONTEXT ;; assert_type (OEvent n) RT_Object_Class_Event) s Q.
Proof. intros [E1 E2 E3 E4] Hca HQ. kstep. apply (wp_in_thread_context s c th); [done|]. by apply (wp_ipc_type _ _ _ flag). Qed.
Lemma recv_no_option s n v w flag set opt timeout c th :
  event_ok s n v w flag -> caller s c th -> set <> 0 -> has_flag opt RT_EVENT_FLAG_AND || has_flag opt RT_EVENT_FLAG_OR = false -> rt_event_recv_enter n set opt timeout s = Halt.
Proof.
  intros H Hca Hs [Ha Ho]%orb_false_iff. unfold rt_event_recv_enter. rewrite (proj2 (Z.eqb_neq _ _) Hs). apply bind_to_halt, (wp_in_thread_context s c th); [done|]. apply bind_to_halt, (wp_ipc_type _ _ _ flag); [by destruct H|].
  apply bind_to_halt, (wp_current c); [apply Hca|]. apply bind_to_halt, (wp_mod_thread _ _ th); [apply Hca|]. apply bind_to_halt, (wp_get_event _ v); [by destruct H|]. rewrite Ha, Ho. done.
Qed.

(** C18: receiving events, on every branch.  With an empty set of events the call returns -RT_ERROR
    and changes nothing; with neither AND nor OR it stops in an assertion.  If the events
    satisfy the caller it returns RT_EOK with those it asked for and, with CLEAR, removes
    exactly them; otherwise, with timeout 0, it returns -RT_ETIMEOUT and nothing changes but
    its error code; otherwise it goes to wait in its place in the waiting list with its
    condition recorded.  The event invariant (nobody waits who could be served) and the kernel
    invariant hold after. *)
Theorem rt_event_recv_correct s n v w flag set opt timeout c th :
  kinv s -> event_ok s n v w flag -> caller s c th -> timeout < TICK_HALF ->
  if set =? 0 then rt_event_recv_enter n set opt timeout s = Ok (Returned (- RT_ERROR, None)) s
  else if negb (has_flag opt RT_EVENT_FLAG_AND || has_flag opt RT_EVENT_FLAG_OR) then rt_event_recv_enter n set opt timeout s = Halt
  else wp (rt_event_recv_enter n set opt timeout) s (fun r s' => kinv s' /\
    match received opt set v with
    | Some g => r = Returned (RT_EOK, Some g) /\ event_ok s' n (cleared opt v g) w flag /\ s' = set_k_events (<[n := cleared opt v g]> (k_events s)) (upd_thread c (set_th_error RT_EOK th) s)
    | None =>
        if timeout =? 0 then r = Returned (- RT_ETIMEOUT, None) /\ event_ok s' n v w flag /\ s' = upd_thread c (set_th_error (- RT_ETIMEOUT) th) s
        else r = Waiting c /\ event_ok s' n v (wait_insert s flag c w) flag /\
          blocked_post s s' (QEvent n) flag c (set_th_event_info opt (set_th_event_set set (set_th_error RT_EOK th))) timeout
    end).
Proof.
  intros Hk H Hca Hmax. destruct (Z.eqb_spec set 0) as [->|Hs].
  - assert (wp (rt_event_recv_enter n 0 opt timeout) s (fun r s' => r = Returned (- RT_ERROR, None) /\ s' = s)) as Hw by (unfold rt_event_recv_enter; apply wp_assoc, wp_bind, (recv_checks_wp s n v w flag c th); [done|done|]; by kstep). destruct (wp_run _ _ _ Hw) as (r & s' & E & -> & ->). done.
  - destruct (has_flag opt RT_EVENT_FLAG_AND || has_flag opt RT_EVENT_FLAG_OR) eqn:Ho; cbn [negb]; [|by apply (recv_no_option s n v w flag set opt timeout c th)]. apply rt_event_recv_wp; try done. by apply orb_prop.
Qed.

Lemma rt_event_recv_correct_witness :
  wp (rt_event_recv_enter 0 6 RT_EVENT_FLAG_OR 9) sample_event (fun r s' => kinv s' /\ r = Waiting 1 /\
    event_ok s' 0 0 [3%nat; 1%nat] RT_IPC_FLAG_PRIO /\
    blocked_post sample_event s' (QEvent 0) RT_IPC_FLAG_PRIO 1
      (set_th_event_info RT_EVENT_FLAG_OR (set_th_event_set 6 (set_th_error RT_EOK (sample_thread 10 RT_THREAD_RUNNING)))) 9).
Proof.
  refine (rt_event_recv_correct sample_event 0 0 [3%nat] RT_IPC_FLAG_PRIO 6 RT_EVENT_FLAG_OR 9 1 _ sample_event_kinv
    sample_event_ok _ _); [by split|by rewrite TICK_HALF_val].
Defined.

(** ** Initialising, resetting and closing *)

Lemma rt_event_init_wp s n l flag :
  fresh_object s (OEvent n) RT_Object_Class_Event (QEvent n) -> chars_ok l ->
  flag = RT_IPC_FLAG_FIFO \/ flag = RT_IPC_FLAG_PRIO ->
  wp (rt_event_init n (cstring l) flag) s (fun r s' => r = RT_EOK /\ kinv s' /\ event_ok s' n 0 [] flag).
Proof.
  intros Hf Hl Hfl. unfold rt_event_init.
  apply (init_object_wp _ _ _ (QEvent n)); [done|done|]. intros s1 Hk Eq Ed Eo. kstep.
  apply (wp_mod_object _ _ (static_header s (OEvent n) RT_Object_Class_Event l)); [done|]. kstep. apply wp_modify. kstep.
  unfold set_event. kstep. kstep. split; [done|]. split.
  - apply kinv_set_events, kinv_q_init; [by apply kinv_header_upd|]. change (qget s1 (QEvent n) = []). rewrite Eq by done. apply Hf.
  - split; [kproj; apply lookup_insert_eq|unfold qget; kproj; by rewrite lookup_insert_eq| |by intros t ?%elem_of_nil].
    eexists. split; [apply lookup_insert_eq|by split_and!].
Qed.

Lemma rt_event_detach_wp s n :
  kinv s -> static_object s (OEvent n) RT_Object_Class_Event ->
  wp (rt_event_detach n) s (fun r s' => r = RT_EOK /\ ipc_closed (qget s (QEvent n)) s s' (OEvent n)).
Proof. intros Hk Hs. apply ipc_detach_wp; [done|done|done|unfold ipc_class; set_solver|done]. Qed.

Lemma rt_event_delete_wp s n :
  kinv s -> k_irq_nest s = 0 -> heap_object s (OEvent n) RT_Object_Class_Event ->
  wp (rt_event_delete n) s (fun r s' => r = RT_EOK /\ ipc_closed (qget s (QEvent n)) s s' (OEvent n)).
Proof.
  intros Hk Hi Hs. unfold rt_event_delete. apply wp_heap_guard; [done|unfold ipc_class; set_solver|].
  unfold RT_DEBUG_NOT_IN_INTERRUPT. kstep. kstep. kstep. apply wp_assert; [by rewrite Hi|]. kstep.
  eapply wp_mono; [by apply rt_ipc_list_resume_all_wp|]. intros r s1 [_ A]. destruct Hs as (ob & E & Hty).
  apply (delete_tail_wp _ _ _ _ ob); [done|done|done|by rewrite Hty].
Qed.

Lemma rt_event_control_wp s n v w flag cmd :
  kinv s -> event_ok s n v w flag -> is_Some (k_current s) ->
  wp (rt_event_control n cmd) s (fun r s' => kinv s' /\
    if cmd =? RT_IPC_CMD_RESET then r = RT_EOK /\ event_ok s' n 0 [] flag /\ failed s' w
    else r = - RT_ERROR /\ s' = s).
Proof.
  intros Hk [E1 E2 E3 E4] Hc. unfold rt_event_control. kstep. apply (wp_ipc_type _ _ _ flag); [done|].
  destruct (cmd =? RT_IPC_CMD_RESET); [|by kstep]. kstep. eapply wp_mono; [by apply rt_ipc_list_resume_all_wp|].
  intros r s1 [_ A]. rewrite E2 in A. unfold set_event. kstep. kstep. kstep.
  eapply wp_mono; [by apply (reset_schedule_wp w s s1); [exact A|exact Hc|apply kinv_set_events, A|..]|].
  intros [] s3 (Hk3 & F & Hfail & Hempty). kstep. split; [done|]. split; [done|]. split; [|done].
  assert (ipc_header s1 (OEvent n) RT_Object_Class_Event flag) as Hh1 by (apply (kframe_header s); [apply A|done|done]).
  split; [rewrite (kframe_events _ _ (sched_kframe _ _ F)); apply lookup_insert_eq| | |by intros t ?%elem_of_nil].
  - apply Hempty; [done|]. by rewrite E2.
  - by apply (kframe_header _ s3 _ _ _ (sched_kframe _ _ F)).
Qed.
