(* ===== verification/Mailbox.v ===== *)
(** * Mailboxes (src/ipc.c)

    A mailbox is a ring of machine words: [msg_pool], [in_offset], [out_offset]
    and [entry].  Receivers wait in [QMailbox n], senders of a full mailbox in
    [QMbSender n].  [ring_ok mb l] says that the ring holds the sequence [l],
    oldest first; the theorems show that send appends to it and receive takes
    from its front.

    A blocking call loops: it goes to wait, and when it is scheduled again it
    looks at the ring anew with the time that is left.  [mb_send_while] and
    [mb_recv_while] are one pass of that loop; [start] is the tick at which the
    wait began ([tick_delta]). *)

From S2P Require Import Prelude Ffs KState Wf Inv Sched Object Timer Thread TimerRun Sleep Ipc.

Definition get_mb (n : nat) : K rt_mailbox := deref (fun s => k_mailboxes s !! n).
Definition set_mb (n : nat) (mb : rt_mailbox) : K unit := modify (fun s => set_k_mailboxes (<[n := mb]> (k_mailboxes s)) s).

Definition rt_mb_init (n : nat) (name : list Z) (msgpool : list Z) (size flag : Z) : K Z :=
  rt_object_init (OMailbox n) RT_Object_Class_MailBox name ;;
  mod_object (OMailbox n) (set_o_flag flag) ;;
  q_init (QMailbox n) ;;
  set_mb n (mkMailbox msgpool (u16 size) 0 0 0) ;;
  q_init (QMbSender n) ;;
  ret RT_EOK.

Definition rt_mb_detach (n : nat) : K Z :=
  assert_type (OMailbox n) RT_Object_Class_MailBox ;;
  sys <- rt_object_is_systemobject (OMailbox n) ;;
  RT_ASSERT sys ;;
  rt_ipc_list_resume_all (QMailbox n) ;;
  rt_ipc_list_resume_all (QMbSender n) ;;
  rt_object_detach (OMailbox n) ;;
  ret RT_EOK.

(** [pool]: the words RT_KERNEL_MALLOC returned, if it did. *)
Definition rt_mb_create (name : list Z) (size flag : Z) (malloced : option nat) (pool : option (list Z)) : K (option nat) :=
  RT_DEBUG_NOT_IN_INTERRUPT ;;
  o <- rt_object_allocate RT_Object_Class_MailBox name (OMailbox <$> malloced) ;;
  match o, malloced with
  | Some _, Some n =>
      mod_object (OMailbox n) (set_o_flag flag) ;;
      q_init (QMailbox n) ;;
      match pool with
      | None =>
          rt_object_delete (OMailbox n) ;;
          ret None
      | Some msgpool =>
          set_mb n (mkMailbox msgpool (u16 size) 0 0 0) ;;
          q_init (QMbSender n) ;;
          ret (Some n)
      end
  | _, _ => ret None
  end.

Definition rt_mb_delete (n : nat) : K Z :=
  RT_DEBUG_NOT_IN_INTERRUPT ;;
  assert_type (OMailbox n) RT_Object_Class_MailBox ;;
  sys <- rt_object_is_systemobject (OMailbox n) ;;
  RT_ASSERT (negb sys) ;;
  rt_ipc_list_resume_all (QMailbox n) ;;
  rt_ipc_list_resume_all (QMbSender n) ;;
  mb <- get_mb n ;;
  set_mb n (set_mb_msg_pool [] mb) ;;
  rt_object_delete (OMailbox n) ;;
  ret RT_EOK.

(** The end of rt_mb_send_wait: the mail goes into the ring. *)
Definition mb_put (n : nat) (value : Z) : K Z :=
  mb <- get_mb n ;;
  valid (mb_in_offset mb <? Z.of_nat (length (mb_msg_pool mb))) ;;
  let in1 := u16 (mb_in_offset mb + 1) in
  set_mb n (mkMailbox (<[Z.to_nat (mb_in_offset mb) := value]> (mb_msg_pool mb)) (mb_size mb) (u16 (mb_entry mb + 1))
    (if mb_size mb <=? in1 then 0 else in1) (mb_out_offset mb)) ;;
  wake_one (QMailbox n) ;;
  ret RT_EOK.

Definition mb_send_while (n : nat) (self : option nat) (value timeout : Z) : K (outcome Z) :=
  mb <- get_mb n ;;
  if mb_entry mb =? mb_size mb then
    t <- deref (fun _ => self) ;;
    mod_thread t (set_th_error RT_EOK) ;;
    if timeout =? 0 then ret (Returned (- RT_EFULL))
    else
      wait_in (QMbSender n) (OMailbox n) t timeout ;;
      ret (Waiting t)
  else
    r <- mb_put n value ;;
    ret (Returned r).

Definition rt_mb_send_wait_enter (n : nat) (value timeout : Z) : K (outcome Z) :=
  assert_type (OMailbox n) RT_Object_Class_MailBox ;;
  self <- rt_thread_self ;;
  mb <- get_mb n ;;
  if (mb_entry mb =? mb_size mb) && (timeout =? 0) then ret (Returned (- RT_EFULL))
  else mb_send_while n self value timeout.

Definition rt_mb_send_wait_resume (n t : nat) (value timeout start : Z) : K (outcome Z) :=
  e <- wait_result t ;;
  if negb (e =? RT_EOK) then ret (Returned e)
  else
    now <- gets k_tick ;;
    mb_send_while n (Some t) value (remaining_time timeout start now).

Definition rt_mb_send (n : nat) (value : Z) : K (outcome Z) := rt_mb_send_wait_enter n value 0.

(** The end of rt_mb_recv: the oldest mail leaves the ring. *)
Definition mb_get (n : nat) : K (Z * option Z) :=
  mb <- get_mb n ;;
  value <- deref (fun _ => mb_msg_pool mb !! Z.to_nat (mb_out_offset mb)) ;;
  let out1 := u16 (mb_out_offset mb + 1) in
  set_mb n (mkMailbox (mb_msg_pool mb) (mb_size mb) (u16 (mb_entry mb - 1)) (mb_in_offset mb)
    (if mb_size mb <=? out1 then 0 else out1)) ;;
  wake_one (QMbSender n) ;;
  ret (RT_EOK, Some value).

Definition mb_recv_while (n : nat) (self : option nat) (timeout : Z) : K (outcome (Z * option Z)) :=
  mb <- get_mb n ;;
  if mb_entry mb =? 0 then
    t <- deref (fun _ => self) ;;
    mod_thread t (set_th_error RT_EOK) ;;
    if timeout =? 0 then
      mod_thread t (set_th_error (- RT_ETIMEOUT)) ;;
      ret (Returned (- RT_ETIMEOUT, None))
    else
      wait_in (QMailbox n) (OMailbox n) t timeout ;;
      ret (Waiting t)
  else
    r <- mb_get n ;;
    ret (Returned r).

Definition rt_mb_recv_enter (n : nat) (timeout : Z) : K (outcome (Z * option Z)) :=
  assert_type (OMailbox n) RT_Object_Class_MailBox ;;
  self <- rt_thread_self ;;
  mb <- get_mb n ;;
  if (mb_entry mb =? 0) && (timeout =? 0) then ret (Returned (- RT_ETIMEOUT, None))
  else mb_recv_while n self timeout.

Definition rt_mb_recv_resume (n t : nat) (timeout start : Z) : K (outcome (Z * option Z)) :=
  e <- wait_result t ;;
  if negb (e =? RT_EOK) then ret (Returned (e, None))
  else
    now <- gets k_tick ;;
    mb_recv_while n (Some t) (remaining_time timeout start now).

Definition rt_mb_control (n : nat) (cmd : Z) : K Z :=
  assert_type (OMailbox n) RT_Object_Class_MailBox ;;
  if cmd =? RT_IPC_CMD_RESET then
    rt_ipc_list_resume_all (QMailbox n) ;;
    rt_ipc_list_resume_all (QMbSender n) ;;
    mb <- get_mb n ;;
    set_mb n (mkMailbox (mb_msg_pool mb) (mb_size mb) 0 0 0) ;;
    rt_schedule ;;
    ret RT_EOK
  else ret (- RT_ERROR).

(** ** The ring as a sequence *)

Record ring_ok (mb : rt_mailbox) (l : list Z) : Prop := {
  ri_size : mb_size mb = Z.of_nat (length (mb_msg_pool mb)) /\ 0 < mb_size mb < 2 ^ 16;
  ri_entry : mb_entry mb = Z.of_nat (length l) /\ Z.of_nat (length l) <= mb_size mb;
  ri_out : 0 <= mb_out_offset mb < mb_size mb;
  ri_in : mb_in_offset mb = (mb_out_offset mb + Z.of_nat (length l)) `mod` mb_size mb;
  ri_data : forall i x, l !! i = Some x ->
    mb_msg_pool mb !! Z.to_nat ((mb_out_offset mb + Z.of_nat i) `mod` mb_size mb) = Some x
}.

(** An offset moved on by one, as the code does it. *)
Lemma next_offset size k :
  0 < size < 2 ^ 16 -> 0 <= k < size -> (if size <=? u16 (k + 1) then 0 else u16 (k + 1)) = (k + 1) `mod` size.
Proof.
  intros Hs Hk. rewrite u16_small by lia. destruct (Z.leb_spec size (k + 1)).
  - assert (k + 1 = size) as -> by lia. by rewrite Z.mod_same by lia.
  - by rewrite Z.mod_small by lia.
Qed.

(** Two offsets less than [size] apart fall on different words. *)
Lemma offsets_differ size out i j :
  0 <= i < j -> j - i < size -> (out + i) `mod` size <> (out + j) `mod` size.
Proof.
  intros Hi Hj E. assert (((out + j) - (out + i)) `mod` size = 0) as D by (rewrite Zminus_mod, E, Z.sub_diag; apply Z.mod_0_l; lia).
  replace (out + j - (out + i)) with (j - i) in D by lia. rewrite Z.mod_small in D by lia. lia.
Qed.

Lemma ring_put mb l v :
  ring_ok mb l -> Z.of_nat (length l) < mb_size mb ->
  mb_in_offset mb < Z.of_nat (length (mb_msg_pool mb)) /\
  ring_ok (mkMailbox (<[Z.to_nat (mb_in_offset mb) := v]> (mb_msg_pool mb)) (mb_size mb) (u16 (mb_entry mb + 1))
    (if mb_size mb <=? u16 (mb_in_offset mb + 1) then 0 else u16 (mb_in_offset mb + 1)) (mb_out_offset mb)) (l ++ [v]).
Proof.
  intros [[R1 R1'] [R2 R2'] R3 R4 R5] Hlen.
  assert (0 <= mb_in_offset mb < mb_size mb) as Hin by (rewrite R4; apply Z.mod_pos_bound; lia).
  split; [lia|]. rewrite next_offset by lia. split; cbn [mb_size mb_msg_pool mb_entry mb_in_offset mb_out_offset].
  - by rewrite length_insert.
  - rewrite length_app, u16_small by lia. cbn. lia.
  - done.
  - rewrite length_app, R4, Zplus_mod_idemp_l. cbn. f_equal. lia.
  - intros i x. destruct (decide (i = length l)) as [->|Hi].
    + rewrite lookup_app_r, Nat.sub_diag by lia. intros [= <-]. rewrite <- R4. apply list_lookup_insert_eq. lia.
    + intros Hx. assert (i < length l)%nat as Hlt by (apply lookup_lt_Some in Hx; rewrite length_app in Hx; cbn in Hx; lia).
      rewrite lookup_app_l in Hx by done. rewrite list_lookup_insert_ne; [by apply R5|].
      pose proof (offsets_differ (mb_size mb) (mb_out_offset mb) (Z.of_nat i) (Z.of_nat (length l))) as D.
      rewrite <- R4 in D. pose proof (Z.mod_pos_bound (mb_out_offset mb + Z.of_nat i) (mb_size mb)). lia.
Qed.

Lemma ring_get mb v l :
  ring_ok mb (v :: l) ->
  mb_msg_pool mb !! Z.to_nat (mb_out_offset mb) = Some v /\
  ring_ok (mkMailbox (mb_msg_pool mb) (mb_size mb) (u16 (mb_entry mb - 1)) (mb_in_offset mb)
    (if mb_size mb <=? u16 (mb_out_offset mb + 1) then 0 else u16 (mb_out_offset mb + 1))) l.
Proof.
  intros [[R1 R1'] [R2 R2'] R3 R4 R5]. cbn in R2, R2', R4. split.
  - specialize (R5 0%nat v eq_refl). by rewrite Z.add_0_r, Z.mod_small in R5 by lia.
  - rewrite next_offset by lia. split; cbn [mb_size mb_msg_pool mb_entry mb_in_offset mb_out_offset].
    + done.
    + rewrite u16_small by lia. lia.
    + apply Z.mod_pos_bound. lia.
    + rewrite R4, Zplus_mod_idemp_l. f_equal. lia.
    + intros i x Hx. rewrite Zplus_mod_idemp_l. specialize (R5 (S i) x Hx). rewrite <- R5. do 3 f_equal. lia.
Qed.

(** ** Sending and receiving *)

Record mb_ok (s : kst) (n : nat) (size : Z) (l : list Z) (flag : Z) : Prop := {
  mbo_ring : exists mb, k_mailboxes s !! n = Some mb /\ mb_size mb = size /\ ring_ok mb l;
  mbo_header : ipc_header s (OMailbox n) RT_Object_Class_MailBox flag
}.

Lemma kinv_set_mailboxes s m : kinv s -> kinv (set_k_mailboxes m s).
Proof. intros [W T]. split; [by apply (wfx_same _ s)|by apply (tinv_same s); eauto]. Qed.
Lemma wp_get_mb n mb s Q : k_mailboxes s !! n = Some mb -> Q mb s -> wp (get_mb n) s Q.
Proof. intros H1 H2. by apply (wp_deref _ mb). Qed.
Lemma kframe_mailboxes s s' : kframe s s' -> k_mailboxes s' = k_mailboxes s.
Proof. intros F%kframe_ipc. unfold ipc_data in F. by injection F as _ _ _ -> _. Qed.

Lemma mb_ok_frame s s' n size l flag : kframe s s' -> mb_ok s n size l flag -> mb_ok s' n size l flag.
Proof. intros F [R H]. split; [by rewrite (kframe_mailboxes s s')|by apply (kframe_header s)]. Qed.
Lemma mb_ok_set s n mb size l l' flag :
  mb_ok s n size l flag -> mb_size mb = size -> ring_ok mb l' ->
  mb_ok (set_k_mailboxes (<[n := mb]> (k_mailboxes s)) s) n size l' flag.
Proof. intros [_ H] Hs R. split; [|done]. exists mb. kproj. by rewrite lookup_insert_eq. Qed.

(** The state with another ring, from which a waiting thread is woken. *)
Definition ring_step (s s' : kst) (q : qid) : Prop :=
  exists m, woke (set_k_mailboxes m s) s' q.

Lemma mb_put_wp s n size l flag v :
  kinv s -> is_Some (k_current s) -> mb_ok s n size l flag -> Z.of_nat (length l) < size ->
  wp (mb_put n v) s (fun r s' => r = RT_EOK /\ kinv s' /\ mb_ok s' n size (l ++ [v]) flag /\ ring_step s s' (QMailbox n)).
Proof.
  intros Hk Hc H Hlen. pose proof H as [(mb & Em & Hs & R) Hh]. rewrite <- Hs in Hlen.
  destruct (ring_put mb l v R Hlen) as [Hb R']. unfold mb_put. kstep. apply (wp_get_mb _ mb); [done|]. kstep.
  apply wp_valid; [by apply Z.ltb_lt|]. unfold set_mb. kstep. kstep. set (s1 := set_k_mailboxes _ s).
  kstep. eapply wp_mono; [apply wake_one_wp; [by apply kinv_set_mailboxes|done|done]|]. intros [] s' [Hk' W]. kstep.
  split; [done|]. split; [done|]. split; [|by eexists]. apply (mb_ok_frame s1); [by eapply woke_frame|].
  by apply (mb_ok_set s n _ size l).
Qed.

Lemma mb_get_wp s n size v l flag :
  kinv s -> is_Some (k_current s) -> mb_ok s n size (v :: l) flag ->
  wp (mb_get n) s (fun r s' => r = (RT_EOK, Some v) /\ kinv s' /\ mb_ok s' n size l flag /\ ring_step s s' (QMbSender n)).
Proof.
  intros Hk Hc H. pose proof H as [(mb & Em & Hs & R) Hh].
  destruct (ring_get mb v l R) as [Hb R']. unfold mb_get. kstep. apply (wp_get_mb _ mb); [done|]. kstep.
  apply (wp_deref _ v); [done|]. unfold set_mb. kstep. kstep. set (s1 := set_k_mailboxes _ s).
  kstep. eapply wp_mono; [apply wake_one_wp; [by apply kinv_set_mailboxes|done|done]|]. intros [] s' [Hk' W]. kstep.
  split; [done|]. split; [done|]. split; [|by eexists]. apply (mb_ok_frame s1); [by eapply woke_frame|].
  by apply (mb_ok_set s n _ size (v :: l)).
Qed.

(** C9: sending a mail, on every branch.  With room in the mailbox the mail is
    appended to the sequence the ring holds and the first receiver that waits, if
    any, becomes runnable; a full mailbox refuses with -RT_EFULL when the timeout
    is 0, and nothing changes; otherwise the caller goes to wait among the
    senders and the ring is untouched.  Ring and kernel invariant hold after. *)
Theorem rt_mb_send_wait_correct s n size l flag v timeout c th :
  kinv s -> mb_ok s n size l flag -> caller s c th -> timeout < TICK_HALF ->
  wp (rt_mb_send_wait_enter n v timeout) s (fun r s' => kinv s' /\
    if Z.of_nat (length l) <? size then
      r = Returned RT_EOK /\ mb_ok s' n size (l ++ [v]) flag /\ ring_step s s' (QMailbox n)
    else if timeout =? 0 then r = Returned (- RT_EFULL) /\ s' = s
    else r = Waiting c /\ mb_ok s' n size l flag /\
      blocked_post s s' (QMbSender n) flag c (set_th_error RT_EOK th) timeout).
Proof.
  intros Hk H Hca Hmax. pose proof H as [(mb & Em & Hs & R) Hh]. destruct (ri_entry _ _ R) as [Ee Hle].
  unfold rt_mb_send_wait_enter, rt_thread_self. kstep. apply (wp_ipc_type _ _ _ flag); [done|]. kstep. kstep. rewrite (ca_current _ _ _ Hca).
  kstep. apply (wp_get_mb _ mb); [done|]. rewrite Ee, Hs in *. unfold mb_send_while.
  destruct (Z.ltb_spec (Z.of_nat (length l)) size) as [Hlt|Hge].
  - rewrite (proj2 (Z.eqb_neq _ _)) by lia. cbn [andb]. kstep. apply (wp_get_mb _ mb); [done|].
    rewrite Ee, Hs, (proj2 (Z.eqb_neq _ _)) by lia. kstep.
    eapply wp_mono; [apply (mb_put_wp s n size l flag v); [done|rewrite (ca_current _ _ _ Hca); done|done|done]|].
    intros r s' (-> & ? & ? & ?). by kstep.
  - rewrite (proj2 (Z.eqb_eq _ _)) by lia. cbn [andb]. destruct (timeout =? 0) eqn:Et; [by kstep|].
    kstep. apply (wp_get_mb _ mb); [done|]. rewrite Ee, Hs, (proj2 (Z.eqb_eq _ _)) by lia. kstep.
    apply (wp_deref _ c); [done|]. kstep. apply (wp_mod_thread _ _ th); [apply Hca|]. kstep.
    eapply wp_mono; [by apply (wait_in_wp s (QMbSender n) (OMailbox n) RT_Object_Class_MailBox flag c th); [| |split_and!| | |]|].
    intros [] s' B. kstep. split; [apply B|]. split; [done|]. split; [|done]. by apply (mb_ok_frame s); [apply B|].
Qed.

Lemma sample_mb : mb_ok sample 0 3 [] RT_IPC_FLAG_FIFO.
Proof.
  split.
  - eexists. split; [reflexivity|]. split; [done|]. split; cbn; [lia|lia|lia|done|by intros i x].
  - eexists. split; [reflexivity|]. split_and!; [done|done|by left].
Qed.

Lemma rt_mb_send_wait_correct_witness :
  wp (rt_mb_send_wait_enter 0 77 0) sample (fun r s' => kinv s' /\ r = Returned RT_EOK /\
    mb_ok s' 0 3 [77] RT_IPC_FLAG_FIFO /\ ring_step sample s' (QMailbox 0)).
Proof.
  refine (rt_mb_send_wait_correct sample 0 3 [] _ 77 0 1 _ sample_kinv sample_mb sample_caller _). by rewrite TICK_HALF_val.
Defined.

(** C19: receiving a mail, on every branch.  From a mailbox that holds mails the
    oldest one is taken and returned with RT_EOK, and the first sender that
    waits, if any, becomes runnable; an empty mailbox gives -RT_ETIMEOUT when the
    timeout is 0, and nothing changes; otherwise the caller goes to wait among the
    receivers.  Ring and kernel invariant hold after. *)
Theorem rt_mb_recv_correct s n size l flag timeout c th :
  kinv s -> mb_ok s n size l flag -> caller s c th -> timeout < TICK_HALF ->
  wp (rt_mb_recv_enter n timeout) s (fun r s' => kinv s' /\
    match l with
    | v :: l' => r = Returned (RT_EOK, Some v) /\ mb_ok s' n size l' flag /\ ring_step s s' (QMbSender n)
    | [] =>
        if timeout =? 0 then r = Returned (- RT_ETIMEOUT, None) /\ s' = s
        else r = Waiting c /\ mb_ok s' n size [] flag /\
          blocked_post s s' (QMailbox n) flag c (set_th_error RT_EOK th) timeout
    end).
Proof.
  intros Hk H Hca Hmax. pose proof H as [(mb & Em & Hs & R) Hh]. destruct (ri_entry _ _ R) as [Ee Hle].
  unfold rt_mb_recv_enter, rt_thread_self. kstep. apply (wp_ipc_type _ _ _ flag); [done|]. kstep. kstep. rewrite (ca_current _ _ _ Hca).
  kstep. apply (wp_get_mb _ mb); [done|]. rewrite Ee. unfold mb_recv_while. destruct l as [|v l]; cbn [length] in *.
  - change (Z.of_nat 0 =? 0) with true. cbn [andb]. destruct (timeout =? 0) eqn:Et; [by kstep|].
    kstep. apply (wp_get_mb _ mb); [done|]. rewrite Ee. change (Z.of_nat 0 =? 0) with true. cbv iota. kstep.
    apply (wp_deref _ c); [done|]. kstep. apply (wp_mod_thread _ _ th); [apply Hca|]. kstep.
    eapply wp_mono; [by apply (wait_in_wp s (QMailbox n) (OMailbox n) RT_Object_Class_MailBox flag c th); [| |split_and!| | |]|].
    intros [] s' B. kstep. split; [apply B|]. split; [done|]. split; [|done]. by apply (mb_ok_frame s); [apply B|].
  - rewrite (proj2 (Z.eqb_neq _ _)) by lia. cbn [andb]. kstep. apply (wp_get_mb _ mb); [done|].
    rewrite Ee, (proj2 (Z.eqb_neq _ _)) by lia. kstep.
    eapply wp_mono; [apply (mb_get_wp s n size v l flag); [done|rewrite (ca_current _ _ _ Hca); done|done]|].
    intros r s' (-> & ? & ? & ?). by kstep.
Qed.

Lemma rt_mb_recv_correct_witness :
  let s := set_k_mailboxes {[ 0%nat := mkMailbox [9; 0; 8] 3 2 1 2 ]} sample in
  wp (rt_mb_recv_enter 0 5) s (fun r s' => kinv s' /\ r = Returned (RT_EOK, Some 8) /\
    mb_ok s' 0 3 [9] RT_IPC_FLAG_FIFO /\ ring_step s s' (QMbSender 0)).
Proof.
  intros s. refine (rt_mb_recv_correct s 0 3 [8; 9] RT_IPC_FLAG_FIFO 5 1 (sample_thread 10 RT_THREAD_RUNNING) _ _ _ _).
  - apply kinv_set_mailboxes, sample_kinv.
  - split.
    + eexists. split; [reflexivity|]. split; [done|]. split; cbn; [lia|lia|lia|done|]. by intros [|[|i]] x [= <-].
    + eexists. split; [reflexivity|]. split_and!; [done|done|by left].
  - by split.
  - by rewrite TICK_HALF_val.
Defined.

(** A blocked receiver that is woken looks at the mailbox again.  If a mail
    is there it gets the oldest one; if another receiver took it meanwhile, the
    thread waits again, for the time that is left of its timeout, or gives up
    when none is. *)
Theorem rt_mb_recv_again s n size l flag timeout start c th :
  kinv s -> mb_ok s n size l flag -> caller s c th -> th_error th = RT_EOK ->
  0 < timeout < TICK_HALF -> 0 <= u32 (k_tick s - start) < 2 ^ 31 ->
  let left := Z.max 0 (timeout - u32 (k_tick s - start)) in
  wp (rt_mb_recv_resume n c timeout start) s (fun r s' => kinv s' /\
    match l with
    | v :: l' => r = Returned (RT_EOK, Some v) /\ mb_ok s' n size l' flag
    | [] =>
        if left =? 0 then r = Returned (- RT_ETIMEOUT, None) /\ mb_ok s' n size [] flag
        else r = Waiting c /\ mb_ok s' n size [] flag /\
          blocked_post s s' (QMailbox n) flag c (set_th_error RT_EOK th) left
    end).
Proof.
  intros Hk H Hca Herr Hto Htick left. pose proof H as [(mb & Em & Hs & R) Hh]. destruct (ri_entry _ _ R) as [Ee Hle].
  rewrite TICK_HALF_val in Hto. assert (remaining_time timeout start (k_tick s) = left) as El.
  { unfold remaining_time, left. rewrite (proj2 (Z.ltb_lt _ _)) by lia. rewrite i32_small by lia.
    destruct (Z.ltb_spec (timeout - u32 (k_tick s - start)) 0); lia. }
  unfold rt_mb_recv_resume, wait_result. kstep. kstep. apply (wp_get_thread _ th); [apply Hca|]. kstep. rewrite Herr.
  change (negb (RT_EOK =? RT_EOK)) with false. cbv iota. kstep. kstep. rewrite El. unfold mb_recv_while. kstep.
  apply (wp_get_mb _ mb); [done|]. rewrite Ee. destruct l as [|v l]; cbn [length] in *.
  - change (Z.of_nat 0 =? 0) with true. cbv iota. kstep. apply (wp_deref _ c); [done|]. kstep.
    apply (wp_mod_thread _ _ th); [apply Hca|]. destruct (left =? 0) eqn:E0.
    + kstep. eapply wp_mod_thread; [apply lookup_insert_eq|]. kstep. split; [|split; [done|split; apply H]].
      apply (kinv_upd_same (upd_thread c (set_th_error RT_EOK th) s) c (set_th_error RT_EOK th)); [|apply lookup_insert_eq|by split_and!].
      apply (kinv_upd_same s c th); [done|apply Hca|by split_and!].
    + kstep. eapply wp_mono.
      { apply (wait_in_wp s (QMailbox n) (OMailbox n) RT_Object_Class_MailBox flag c th); [done|done|by split_and!|done|done|].
        rewrite TICK_HALF_val. lia. }
      intros [] s' B. kstep. split; [apply B|]. split; [done|]. split; [|done]. by apply (mb_ok_frame s); [apply B|].
  - rewrite (proj2 (Z.eqb_neq _ _)) by lia. kstep.
    eapply wp_mono; [apply (mb_get_wp s n size v l flag); [done|rewrite (ca_current _ _ _ Hca); done|done]|].
    intros r s' (-> & ? & ? & ?). by kstep.
Qed.

Lemma rt_mb_recv_again_witness :
  wp (rt_mb_recv_resume 0 1 50 80) sample (fun r s' => kinv s' /\ r = Waiting 1 /\ mb_ok s' 0 3 [] RT_IPC_FLAG_FIFO /\
    blocked_post sample s' (QMailbox 0) RT_IPC_FLAG_FIFO 1 (set_th_error RT_EOK (sample_thread 10 RT_THREAD_RUNNING)) 30).
Proof.
  refine (rt_mb_recv_again sample 0 3 [] _ 50 80 1 _ sample_kinv sample_mb sample_caller _ _ _);
    [done|rewrite TICK_HALF_val; lia|vm_compute; by split].
Defined.

(** ** Initialising, resetting and closing *)

Lemma empty_ring pool size :
  0 < size < 2 ^ 16 -> size = Z.of_nat (length pool) -> ring_ok (mkMailbox pool (u16 size) 0 0 0) [].
Proof.
  intros Hs Hl. rewrite u16_small by lia. split; cbn; [lia|lia|lia|by rewrite Z.mod_0_l by lia|by intros i x].
Qed.

Lemma rt_mb_init_wp s n l pool size flag :
  fresh_object s (OMailbox n) RT_Object_Class_MailBox (QMailbox n) -> qget s (QMbSender n) = [] -> chars_ok l ->
  0 < size < 2 ^ 16 -> size = Z.of_nat (length pool) -> flag = RT_IPC_FLAG_FIFO \/ flag = RT_IPC_FLAG_PRIO ->
  wp (rt_mb_init n (cstring l) pool size flag) s (fun r s' => r = RT_EOK /\ kinv s' /\ mb_ok s' n size [] flag).
Proof.
  intros Hf He Hl Hs Hp Hfl. unfold rt_mb_init.
  apply (init_object_wp _ _ _ (QMailbox n)); [done|done|]. intros s1 Hk Eq Ed Eo. kstep.
  apply (wp_mod_object _ _ (static_header s (OMailbox n) RT_Object_Class_MailBox l)); [done|]. kstep. apply wp_modify. kstep.
  unfold set_mb. kstep. kstep. apply wp_modify. kstep. split; [done|]. split.
  - apply kinv_q_init; [apply kinv_set_mailboxes, kinv_q_init; [by apply kinv_header_upd|]|].
    + change (qget s1 (QMailbox n) = []). rewrite Eq by done. apply Hf.
    + unfold qget. kproj. rewrite lookup_insert_ne by done. change (qget s1 (QMbSender n) = []). by rewrite Eq.
  - split.
    + eexists. split; [apply lookup_insert_eq|]. split; [cbn; by rewrite u16_small by lia|by apply empty_ring].
    + eexists. split; [apply lookup_insert_eq|by split_and!].
Qed.

Lemma rt_mb_detach_wp s n :
  kinv s -> static_object s (OMailbox n) RT_Object_Class_MailBox ->
  wp (rt_mb_detach n) s (fun r s' => r = RT_EOK /\
    ipc_closed (qget s (QMailbox n) ++ qget s (QMbSender n)) s s' (OMailbox n)).
Proof.
  intros Hk Hs. apply wp_static_guard; [done|unfold ipc_class; set_solver|]. apply resume_two_wp; [done..|].
  intros s' A. destruct Hs as (ob & E & _). by apply (detach_tail_wp _ _ _ _ ob).
Qed.

Lemma rt_mb_control_wp s n size l flag cmd :
  kinv s -> mb_ok s n size l flag -> is_Some (k_current s) ->
  wp (rt_mb_control n cmd) s (fun r s' => kinv s' /\
    if cmd =? RT_IPC_CMD_RESET then
      r = RT_EOK /\ mb_ok s' n size [] flag /\ failed s' (qget s (QMailbox n) ++ qget s (QMbSender n)) /\
      qget s' (QMailbox n) = [] /\ qget s' (QMbSender n) = []
    else r = - RT_ERROR /\ s' = s).
Proof.
  intros Hk H Hc. pose proof H as [(mb & Em & Hs & R) Hh]. unfold rt_mb_control. kstep. apply (wp_ipc_type _ _ _ flag); [done|].
  destruct (cmd =? RT_IPC_CMD_RESET); [|by kstep]. apply resume_two_wp; [done..|]. intros s1 A. kstep.
  apply (wp_get_mb _ mb); [by rewrite (kframe_mailboxes s s1 (ar_frame _ _ _ A))|]. unfold set_mb. kstep. kstep.
  set (s2 := set_k_mailboxes _ s1). kstep.
  eapply wp_mono; [by apply (reset_schedule_wp (qget s (QMailbox n) ++ qget s (QMbSender n)) s s1); [exact A|exact Hc|apply kinv_set_mailboxes, A|..]|].
  intros [] s3 (Hk3 & F & Hfail & Hempty). kstep. split; [done|]. split; [done|]. split_and!; [|done|..].
  - apply (mb_ok_frame s2); [by apply sched_kframe|]. apply (mb_ok_set s1 n _ size l); [by apply (mb_ok_frame s); [apply A|]|done|].
    destruct R as [[R1 R1'] _ _ _ _]. split; cbn; [lia|lia|lia|by rewrite Z.mod_0_l by lia|by intros i x].
  - apply Hempty; [done|]. intros t. rewrite elem_of_app. by left.
  - apply Hempty; [done|]. intros t. rewrite elem_of_app. by right.
Qed.

(** Freeing the pool of a closed object touches no thread. *)
Lemma all_resumed_pool ts s s1 m :
  all_resumed ts s s1 -> all_resumed ts (set_k_mailboxes m s) (set_k_mailboxes m s1).
Proof.
  intros [A1 [A2 A2'] A3 A4 A5 A6]. split; [by apply kinv_set_mailboxes| |done|done|done|done].
  split; [|exact A2']. unfold misc, ipc_data in *. kproj. injection A2 as ??????????. congruence.
Qed.

Lemma rt_mb_delete_wp s n :
  kinv s -> k_irq_nest s = 0 -> heap_object s (OMailbox n) RT_Object_Class_MailBox -> is_Some (k_mailboxes s !! n) ->
  wp (rt_mb_delete n) s (fun r s' => r = RT_EOK /\
    ipc_closed (qget s (QMailbox n) ++ qget s (QMbSender n)) s s' (OMailbox n)).
Proof.
  intros Hk Hi Hs [mb Em]. unfold rt_mb_delete, RT_DEBUG_NOT_IN_INTERRUPT. kstep. kstep. kstep. apply wp_assert; [by rewrite Hi|].
  apply wp_heap_guard; [done|unfold ipc_class; set_solver|]. apply resume_two_wp; [done..|]. intros s1 A. kstep.
  apply (wp_get_mb _ mb); [by rewrite (kframe_mailboxes s s1 (ar_frame _ _ _ A))|]. unfold set_mb. kstep. kstep.
  destruct Hs as (ob & E & Hty). set (m := <[n := _]> _). eapply wp_mono.
  { apply (delete_tail_wp (qget s (QMailbox n) ++ qget s (QMbSender n)) (set_k_mailboxes m s) (set_k_mailboxes m s1) (OMailbox n) ob); [by apply all_resumed_pool|done|done|by rewrite Hty]. }
  intros r s' [-> C]. split; [done|]. by destruct C; split.
Qed.
