(* ===== verification/MsgQueue.v ===== *)
(** * Message queues (src/ipc.c)

    The messages of the pool are linked by [next] into two lists: the queue
    ([msg_queue_head], [msg_queue_tail]) and the free list ([msg_queue_free]).  A
    message is named by its index in the pool.  Sending and receiving enable
    interrupts while they copy the payload; meanwhile the message is in neither
    list.  So each is a sequence of atomic parts: take a message off a list
    ([mq_alloc], [mq_unlink]), copy, and link it into the other list ([mq_link],
    [mq_link_urgent], [mq_release]).  [mq_rep] says which messages are queued,
    which are free, and which are in flight between two parts. *)

From S2P Require Import Prelude Ffs KState Wf Inv Sched Object Timer Thread TimerRun Sleep Ipc.

Definition get_mq (n : nat) : K rt_messagequeue := deref (fun s => k_mqs s !! n).
Definition set_mq (n : nat) (mq : rt_messagequeue) : K unit := modify (fun s => set_k_mqs (<[n := mq]> (k_mqs s)) s).

(** [msg->next = p] *)
Definition upd_next (i : nat) (p : option nat) (mq : rt_messagequeue) : rt_messagequeue :=
  set_mq_nodes (alter (set_msg_next p) i (mq_nodes mq)) mq.

(** The loop that links messages [i, i + count) into the free list. *)
Fixpoint mq_build_free (count i : nat) (mq : rt_messagequeue) : rt_messagequeue :=
  match count with
  | O => mq
  | S count => mq_build_free count (S i) (set_mq_free (Some i) (upd_next i (mq_free mq) mq))
  end.

(** [msgpool] is the pool memory, seen as messages. *)
Definition mq_initial (msgpool : list rt_mq_message) (msg_size max_msgs : Z) : rt_messagequeue :=
  set_mq_entry 0 (mq_build_free (Z.to_nat max_msgs) 0 (mkMq msgpool msg_size max_msgs 0 None None None)).

Definition rt_mq_init (n : nat) (name : list Z) (msgpool : list rt_mq_message) (msg_size pool_size flag : Z) : K Z :=
  rt_object_init (OMq n) RT_Object_Class_MessageQueue name ;;
  mod_object (OMq n) (set_o_flag flag) ;;
  q_init (QMq n) ;;
  let size := u16 (RT_ALIGN msg_size RT_ALIGN_SIZE) in
  let max_msgs := u16 (pool_size / (size + 4)) in
  valid (max_msgs <=? Z.of_nat (length msgpool)) ;;
  set_mq n (mq_initial msgpool size max_msgs) ;;
  q_init (QMqSender n) ;;
  ret RT_EOK.

Definition rt_mq_detach (n : nat) : K Z :=
  assert_type (OMq n) RT_Object_Class_MessageQueue ;;
  sys <- rt_object_is_systemobject (OMq n) ;;
  RT_ASSERT sys ;;
  rt_ipc_list_resume_all (QMq n) ;;
  rt_ipc_list_resume_all (QMqSender n) ;;
  rt_object_detach (OMq n) ;;
  ret RT_EOK.

Definition rt_mq_create (name : list Z) (msg_size max_msgs flag : Z) (malloced : option nat)
  (pool : option (list rt_mq_message)) : K (option nat) :=
  RT_DEBUG_NOT_IN_INTERRUPT ;;
  o <- rt_object_allocate RT_Object_Class_MessageQueue name (OMq <$> malloced) ;;
  match o, malloced with
  | Some _, Some n =>
      mod_object (OMq n) (set_o_flag flag) ;;
      q_init (QMq n) ;;
      let size := u16 (RT_ALIGN msg_size RT_ALIGN_SIZE) in
      match pool with
      | None =>
          rt_object_delete (OMq n) ;;
          ret None
      | Some msgpool =>
          valid (u16 max_msgs <=? Z.of_nat (length msgpool)) ;;
          set_mq n (mq_initial msgpool size (u16 max_msgs)) ;;
          q_init (QMqSender n) ;;
          ret (Some n)
      end
  | _, _ => ret None
  end.

Definition rt_mq_delete (n : nat) : K Z :=
  RT_DEBUG_NOT_IN_INTERRUPT ;;
  assert_type (OMq n) RT_Object_Class_MessageQueue ;;
  sys <- rt_object_is_systemobject (OMq n) ;;
  RT_ASSERT (negb sys) ;;
  rt_ipc_list_resume_all (QMq n) ;;
  rt_ipc_list_resume_all (QMqSender n) ;;
  mq <- get_mq n ;;
  set_mq n (set_mq_nodes [] mq) ;;
  rt_object_delete (OMq n) ;;
  ret RT_EOK.

(** [mq->msg_queue_free = msg->next] *)
Definition mq_alloc (n msg : nat) : K unit :=
  mq <- get_mq n ;;
  m <- deref (fun _ => mq_nodes mq !! msg) ;;
  set_mq n (set_mq_free (msg_next m) mq).

(** rt_memcpy(msg + 1, buffer, size) *)
Definition mq_fill (n msg : nat) (buffer : list Z) (size : Z) : K unit :=
  mq <- get_mq n ;;
  m <- deref (fun _ => mq_nodes mq !! msg) ;;
  valid (size <=? Z.of_nat (length buffer)) ;;
  valid (size <=? Z.of_nat (length (msg_data m))) ;;
  set_mq n (set_mq_nodes (<[msg := set_msg_data (take (Z.to_nat size) buffer ++ drop (Z.to_nat size) (msg_data m)) m]>
    (mq_nodes mq)) mq).

(** The message becomes the tail of the queue. *)
Definition mq_link (n msg : nat) : K Z :=
  mq <- get_mq n ;;
  let mq1 := match mq_tail mq with Some tl => upd_next tl (Some msg) mq | None => mq end in
  let mq2 := set_mq_tail (Some msg) mq1 in
  let mq3 := match mq_head mq2 with None => set_mq_head (Some msg) mq2 | Some _ => mq2 end in
  set_mq n (set_mq_entry (u16 (mq_entry mq3 + 1)) mq3) ;;
  wake_one (QMq n) ;;
  ret RT_EOK.

(** The message becomes the head of the queue. *)
Definition mq_link_urgent (n msg : nat) : K Z :=
  mq <- get_mq n ;;
  let mq1 := set_mq_head (Some msg) (upd_next msg (mq_head mq) mq) in
  let mq2 := match mq_tail mq1 with None => set_mq_tail (Some msg) mq1 | Some _ => mq1 end in
  set_mq n (set_mq_entry (u16 (mq_entry mq2 + 1)) mq2) ;;
  wake_one (QMq n) ;;
  ret RT_EOK.

(** From the free message on to the end of rt_mq_send_wait. *)
Definition mq_put (n msg : nat) (buffer : list Z) (size : Z) : K Z :=
  mq_alloc n msg ;;
  mq <- get_mq n ;;
  set_mq n (upd_next msg None mq) ;;
  mq_fill n msg buffer size ;;
  mq_link n msg.

Definition mq_send_while (n : nat) (self : option nat) (buffer : list Z) (size timeout : Z) : K (outcome Z) :=
  mq <- get_mq n ;;
  match mq_free mq with
  | None =>
      t <- deref (fun _ => self) ;;
      mod_thread t (set_th_error RT_EOK) ;;
      if timeout =? 0 then ret (Returned (- RT_EFULL))
      else
        wait_in (QMqSender n) (OMq n) t timeout ;;
        ret (Waiting t)
  | Some msg =>
      r <- mq_put n msg buffer size ;;
      ret (Returned r)
  end.

Definition rt_mq_send_wait_enter (n : nat) (buffer : list Z) (size timeout : Z) : K (outcome Z) :=
  assert_type (OMq n) RT_Object_Class_MessageQueue ;;
  RT_ASSERT (negb (size =? 0)) ;;
  mq <- get_mq n ;;
  if mq_msg_size mq <? size then ret (Returned (- RT_ERROR))
  else
    self <- rt_thread_self ;;
    if bool_decide (mq_free mq = None) && (timeout =? 0) then ret (Returned (- RT_EFULL))
    else mq_send_while n self buffer size timeout.

Definition rt_mq_send_wait_resume (n t : nat) (buffer : list Z) (size timeout start : Z) : K (outcome Z) :=
  e <- wait_result t ;;
  if negb (e =? RT_EOK) then ret (Returned e)
  else
    now <- gets k_tick ;;
    mq_send_while n (Some t) buffer size (remaining_time timeout start now).

Definition rt_mq_send (n : nat) (buffer : list Z) (size : Z) : K (outcome Z) := rt_mq_send_wait_enter n buffer size 0.

Definition rt_mq_urgent (n : nat) (buffer : list Z) (size : Z) : K Z :=
  assert_type (OMq n) RT_Object_Class_MessageQueue ;;
  RT_ASSERT (negb (size =? 0)) ;;
  mq <- get_mq n ;;
  if mq_msg_size mq <? size then ret (- RT_ERROR)
  else
    match mq_free mq with
    | None => ret (- RT_EFULL)
    | Some msg =>
        mq_alloc n msg ;;
        mq_fill n msg buffer size ;;
        mq_link_urgent n msg
    end.

(** The oldest message leaves the queue. *)
Definition mq_unlink (n : nat) : K nat :=
  mq <- get_mq n ;;
  msg <- deref (fun _ => mq_head mq) ;;
  m <- deref (fun _ => mq_nodes mq !! msg) ;;
  let mq1 := set_mq_head (msg_next m) mq in
  let mq2 := if bool_decide (mq_tail mq1 = Some msg) then set_mq_tail None mq1 else mq1 in
  set_mq n (set_mq_entry (u16 (mq_entry mq2 - 1)) mq2) ;;
  ret msg.

(** rt_memcpy(buffer, msg + 1, size > mq->msg_size ? mq->msg_size : size) *)
Definition mq_copy (n msg : nat) (size : Z) : K (list Z) :=
  mq <- get_mq n ;;
  m <- deref (fun _ => mq_nodes mq !! msg) ;;
  let k := if mq_msg_size mq <? size then mq_msg_size mq else size in
  valid (k <=? Z.of_nat (length (msg_data m))) ;;
  ret (take (Z.to_nat k) (msg_data m)).

(** The message goes back to the free list. *)
Definition mq_release (n msg : nat) : K unit :=
  mq <- get_mq n ;;
  set_mq n (set_mq_free (Some msg) (upd_next msg (mq_free mq) mq)) ;;
  wake_one (QMqSender n).

Definition mq_get (n : nat) (size : Z) : K (Z * option (list Z)) :=
  msg <- mq_unlink n ;;
  data <- mq_copy n msg size ;;
  mq_release n msg ;;
  ret (RT_EOK, Some data).

(** The result is the error code and, on success, the bytes written to [buffer]. *)
Definition mq_recv_while (n : nat) (self : option nat) (size timeout : Z) : K (outcome (Z * option (list Z))) :=
  mq <- get_mq n ;;
  if mq_entry mq =? 0 then
    RT_DEBUG_IN_THREAD_CONTEXT ;;
    t <- deref (fun _ => self) ;;
    mod_thread t (set_th_error RT_EOK) ;;
    if timeout =? 0 then
      mod_thread t (set_th_error (- RT_ETIMEOUT)) ;;
      ret (Returned (- RT_ETIMEOUT, None))
    else
      wait_in (QMq n) (OMq n) t timeout ;;
      ret (Waiting t)
  else
    r <- mq_get n size ;;
    ret (Returned r).

Definition rt_mq_recv_enter (n : nat) (size timeout : Z) : K (outcome (Z * option (list Z))) :=
  assert_type (OMq n) RT_Object_Class_MessageQueue ;;
  RT_ASSERT (negb (size =? 0)) ;;
  self <- rt_thread_self ;;
  mq <- get_mq n ;;
  if (mq_entry mq =? 0) && (timeout =? 0) then ret (Returned (- RT_ETIMEOUT, None))
  else mq_recv_while n self size timeout.

Definition rt_mq_recv_resume (n t : nat) (size timeout start : Z) : K (outcome (Z * option (list Z))) :=
  e <- wait_result t ;;
  if negb (e =? RT_EOK) then ret (Returned (e, None))
  else
    now <- gets k_tick ;;
    mq_recv_while n (Some t) size (remaining_time timeout start now).

(** The loop of the reset: every queued message goes to the free list. *)
Fixpoint mq_drain (fuel n : nat) : K unit :=
  mq <- get_mq n ;;
  match mq_head mq with
  | None => ret tt
  | Some msg =>
      match fuel with
      | O => nofuel
      | S fuel =>
          m <- deref (fun _ => mq_nodes mq !! msg) ;;
          let mq1 := set_mq_head (msg_next m) mq in
          let mq2 := if bool_decide (mq_tail mq1 = Some msg) then set_mq_tail None mq1 else mq1 in
          set_mq n (set_mq_free (Some msg) (upd_next msg (mq_free mq2) mq2)) ;;
          mq_drain fuel n
      end
  end.

(** A queue of a pool of [k] messages has at most [k] of them to release. *)
Definition rt_mq_control (n : nat) (cmd : Z) : K Z :=
  assert_type (OMq n) RT_Object_Class_MessageQueue ;;
  if cmd =? RT_IPC_CMD_RESET then
    rt_ipc_list_resume_all (QMq n) ;;
    rt_ipc_list_resume_all (QMqSender n) ;;
    mq <- get_mq n ;;
    mq_drain (length (mq_nodes mq)) n ;;
    mq <- get_mq n ;;
    set_mq n (set_mq_entry 0 mq) ;;
    rt_schedule ;;
    ret RT_EOK
  else ret (- RT_ERROR).

(** ** Linked messages *)

Definition next_of (nodes : list rt_mq_message) (i : nat) : option (option nat) := msg_next <$> nodes !! i.

(** From [p], the [next] pointers run through the messages [l] and end. *)
Fixpoint chain (nodes : list rt_mq_message) (p : option nat) (l : list nat) : Prop :=
  match l with
  | [] => p = None
  | i :: l => p = Some i /\ exists p', next_of nodes i = Some p' /\ chain nodes p' l
  end.

Lemma next_of_alter nodes j p i :
  next_of (alter (set_msg_next p) j nodes) i = if decide (i = j) then (fun _ => p) <$> nodes !! i else next_of nodes i.
Proof.
  unfold next_of. case_decide as E.
  - subst. rewrite list_lookup_alter_eq, <- option_fmap_compose. done.
  - by rewrite list_lookup_alter_ne by congruence.
Qed.
Lemma chain_ext nodes nodes' p l :
  (forall i, i ∈ l -> next_of nodes' i = next_of nodes i) -> chain nodes p l -> chain nodes' p l.
Proof.
  revert p. induction l as [|i l IH]; intros p E; cbn; [done|]. intros (-> & p' & Ep & C). split; [done|]. exists p'.
  rewrite E by left. split; [done|]. apply IH; [|done]. intros j Hj. apply E. by right.
Qed.
Lemma chain_alter nodes p l j q : j ∉ l -> chain nodes p l -> chain (alter (set_msg_next q) j nodes) p l.
Proof. intros Hj. apply chain_ext. intros i Hi. rewrite next_of_alter, decide_False; [done|]. by intros ->. Qed.

(** Linking message [m] behind the last one. *)
Lemma chain_snoc nodes p l tl m :
  NoDup l -> last l = Some tl -> m ∉ l -> next_of nodes m = Some None ->
  chain nodes p l -> chain (alter (set_msg_next (Some m)) tl nodes) p (l ++ [m]).
Proof.
  intros Hnd Htl Hm Hnext. revert p Hnd Htl Hm. induction l as [|i l IH]; intros p Hnd Htl Hm; [done|].
  apply NoDup_cons in Hnd as [Hi Hnd]. apply not_elem_of_cons in Hm as [Hne Hm]. intros (-> & p' & Ep & C). cbn.
  split; [done|]. destruct l as [|j l].
  - injection Htl as ->. cbn in C. subst p'. exists (Some m). rewrite next_of_alter, decide_True by done.
    unfold next_of in Ep. destruct (nodes !! tl) as [x|] eqn:Ex; [|done]. cbn. split; [done|]. split; [done|]. exists None.
    by rewrite next_of_alter, decide_False by done.
  - cbn [last] in Htl. assert (tl ∈ j :: l) as Hin by (by apply last_Some_elem_of).
    exists p'. rewrite next_of_alter, decide_False by (by intros ->). split; [done|]. by apply IH.
Qed.

(** Payloads are no part of the links. *)
Lemma next_of_data nodes i m d j :
  nodes !! i = Some m -> next_of (<[i := set_msg_data d m]> nodes) j = next_of nodes j.
Proof.
  intros Hi. unfold next_of. destruct (decide (j = i)) as [->|]; [|by rewrite list_lookup_insert_ne by congruence].
  rewrite list_lookup_insert_eq by (by eapply lookup_lt_Some). by rewrite Hi.
Qed.

Ltac mqsimp := cbn [mq_nodes mq_head mq_tail mq_free mq_max_msgs mq_msg_size mq_entry set_mq_nodes set_mq_head set_mq_tail
  set_mq_free set_mq_entry upd_next] in *.

(** ** The pool: queued, free and in-flight messages *)

Definition payload (mq : rt_messagequeue) (i : nat) : list Z := default [] (msg_data <$> mq_nodes mq !! i).

Record mq_rep (mq : rt_messagequeue) (q f x : list nat) : Prop := {
  mr_queue : chain (mq_nodes mq) (mq_head mq) q;
  mr_tail : mq_tail mq = last q;
  mr_free : chain (mq_nodes mq) (mq_free mq) f;
  mr_pool : q ++ f ++ x ≡ₚ seq 0 (Z.to_nat (mq_max_msgs mq));
  mr_size : 0 <= mq_max_msgs mq < 2 ^ 16 /\ mq_max_msgs mq <= Z.of_nat (length (mq_nodes mq));
  mr_data : forall i m, mq_nodes mq !! i = Some m -> Z.of_nat (length (msg_data m)) = mq_msg_size mq
}.

Lemma mr_nodup mq q f x : mq_rep mq q f x -> NoDup (q ++ f ++ x).
Proof. intros R. rewrite (mr_pool _ _ _ _ R). apply NoDup_seq. Qed.
Lemma mr_node mq q f x i : mq_rep mq q f x -> i ∈ q ++ f ++ x -> exists m, mq_nodes mq !! i = Some m.
Proof.
  intros R Hi. rewrite (mr_pool _ _ _ _ R) in Hi. apply elem_of_seq in Hi. destruct (mr_size _ _ _ _ R) as [? ?].
  apply lookup_lt_is_Some. lia.
Qed.
Lemma mr_length mq q f x : mq_rep mq q f x -> Z.of_nat (length q + length f + length x) = mq_max_msgs mq.
Proof.
  intros R. pose proof (Permutation_length (mr_pool _ _ _ _ R)) as E. rewrite !length_app, length_seq in E.
  destruct (mr_size _ _ _ _ R) as [? ?]. lia.
Qed.

Lemma data_alter mq p j i m :
  mq_nodes (upd_next j p mq) !! i = Some m -> exists m0, mq_nodes mq !! i = Some m0 /\ msg_data m = msg_data m0.
Proof.
  unfold upd_next. cbn [mq_nodes set_mq_nodes]. destruct (decide (i = j)) as [->|].
  - rewrite list_lookup_alter_eq. destruct (mq_nodes mq !! j) as [m0|]; [|done]. intros [= <-]. eauto.
  - rewrite list_lookup_alter_ne by congruence. eauto.
Qed.
Lemma payload_upd_next mq j p i : payload (upd_next j p mq) i = payload mq i.
Proof.
  unfold payload, upd_next. cbn [mq_nodes set_mq_nodes]. destruct (decide (i = j)) as [->|].
  - rewrite list_lookup_alter_eq. by destruct (mq_nodes mq !! j).
  - by rewrite list_lookup_alter_ne by congruence.
Qed.

(** ** The parts, on the pool *)

Section parts.
Context (mq : rt_messagequeue) (q f x : list nat).

Lemma rep_alloc i : mq_rep mq q (i :: f) x -> exists m, mq_nodes mq !! i = Some m /\ mq_rep (set_mq_free (msg_next m) mq) q f (i :: x).
Proof.
  intros R. destruct (mr_node _ _ _ _ i R) as [m Em]; [set_solver|]. exists m. split; [done|]. destruct R as [R1 R2 R3 R4 R5 R6].
  destruct R3 as (_ & p' & Ep & C). unfold next_of in Ep. rewrite Em in Ep. injection Ep as <-.
  split; mqsimp; try done.
  rewrite <- R4. apply Permutation_app_head. cbn. symmetry. apply Permutation_middle.
Qed.

(** Changing the link of a message in flight. *)
Lemma rep_next_flight i p : mq_rep mq q f (i :: x) -> mq_rep (upd_next i p mq) q f (i :: x).
Proof.
  intros R. pose proof (mr_nodup _ _ _ _ R) as Hnd. destruct R as [R1 R2 R3 R4 R5 R6].
  assert (i ∉ q /\ i ∉ f) as [Hq Hf].
  { apply NoDup_app in Hnd as (_ & H1 & H2). apply NoDup_app in H2 as (_ & H2 & _). split; intros Hi; [apply (H1 i Hi)|apply (H2 i Hi)]; set_solver. }
  split; cbn [upd_next mq_nodes mq_head mq_tail mq_free mq_max_msgs mq_msg_size set_mq_nodes]; try done.
  - by apply chain_alter.
  - by apply chain_alter.
  - by rewrite length_alter.
  - intros j m Hj. apply (data_alter mq p i) in Hj as (m0 & Hm & ->). eauto.
Qed.

Lemma rep_fill i m d :
  mq_rep mq q f x -> mq_nodes mq !! i = Some m -> length d = length (msg_data m) ->
  mq_rep (set_mq_nodes (<[i := set_msg_data d m]> (mq_nodes mq)) mq) q f x.
Proof.
  intros [R1 R2 R3 R4 R5 R6] Hm Hd. split; mqsimp; try done.
  - eapply chain_ext; [|exact R1]. intros j _. by apply next_of_data.
  - eapply chain_ext; [|exact R3]. intros j _. by apply next_of_data.
  - by rewrite length_insert.
  - intros j m'. destruct (decide (j = i)) as [->|].
    + rewrite list_lookup_insert_eq by (by eapply lookup_lt_Some). intros [= <-]. cbn. rewrite Hd. eauto.
    + rewrite list_lookup_insert_ne by congruence. eauto.
Qed.

Definition linked (i : nat) : rt_messagequeue :=
  let mq1 := match mq_tail mq with Some tl => upd_next tl (Some i) mq | None => mq end in
  let mq2 := set_mq_tail (Some i) mq1 in
  match mq_head mq2 with None => set_mq_head (Some i) mq2 | Some _ => mq2 end.

Lemma rep_link i :
  mq_rep mq q f (i :: x) -> next_of (mq_nodes mq) i = Some None -> mq_rep (linked i) (q ++ [i]) f x.
Proof.
  intros R Hn. pose proof (mr_nodup _ _ _ _ R) as Hnd. destruct R as [R1 R2 R3 R4 R5 R6].
  apply NoDup_app in Hnd as (N1 & N2 & N3). apply NoDup_app in N3 as (N3 & N4 & _).
  assert (i ∉ q) as Hq by (intros Hi; apply (N2 i Hi); set_solver).
  assert ((q ++ [i]) ++ f ++ x ≡ₚ seq 0 (Z.to_nat (mq_max_msgs mq))) as P.
  { rewrite <- R4, <- app_assoc. apply Permutation_app_head. cbn [app]. apply Permutation_middle. }
  unfold linked. destruct q as [|j l] eqn:Eq.
  - cbn in R1, R2. rewrite R2. cbn [mq_head set_mq_tail]. rewrite R1.
    split; mqsimp; try done.
    split; [done|]. by exists None.
  - destruct (last (j :: l)) as [tl|] eqn:El; [|by apply last_None in El].
    assert (tl ∈ j :: l) as Hin by (by apply last_Some_elem_of).
    rewrite R2. cbn [mq_head set_mq_tail upd_next set_mq_nodes]. destruct R1 as (Eh & C). rewrite Eh.
    split; mqsimp.
    + apply chain_snoc; [done|done|done|done|]. by split.
    + by rewrite last_snoc.
    + apply chain_alter; [|done]. intros Hf. apply (N2 tl Hin). set_solver.
    + done.
    + by rewrite length_alter.
    + intros k m Hk. apply (data_alter mq (Some i) tl) in Hk as (m0 & Hm & ->). eauto.
Qed.

Lemma payload_linked i k : payload (linked i) k = payload mq k.
Proof.
  unfold linked. destruct (mq_tail mq) as [tl|]; cbn [mq_head set_mq_tail upd_next set_mq_nodes].
  - destruct (mq_head mq); apply (payload_upd_next mq tl (Some i) k).
  - by destruct (mq_head mq).
Qed.

Definition linked_urgent (i : nat) : rt_messagequeue :=
  let mq1 := set_mq_head (Some i) (upd_next i (mq_head mq) mq) in
  match mq_tail mq1 with None => set_mq_tail (Some i) mq1 | Some _ => mq1 end.

Lemma rep_link_urgent i : mq_rep mq q f (i :: x) -> mq_rep (linked_urgent i) (i :: q) f x.
Proof.
  intros R. destruct (mr_node _ _ _ _ i R) as [m Em]; [set_solver|].
  pose proof (rep_next_flight i (mq_head mq) R) as [R1 R2 R3 R4 R5 R6].
  mqsimp.
  assert (chain (alter (set_msg_next (mq_head mq)) i (mq_nodes mq)) (Some i) (i :: q)) as C.
  { split; [done|]. exists (mq_head mq). split; [|done]. by rewrite next_of_alter, decide_True, Em by done. }
  assert ((i :: q) ++ f ++ x ≡ₚ seq 0 (Z.to_nat (mq_max_msgs mq))) as P.
  { rewrite <- R4. cbn. rewrite !app_assoc. apply Permutation_middle. }
  unfold linked_urgent. cbn [mq_tail set_mq_head upd_next set_mq_nodes]. destruct q as [|j l].
  - cbn [last] in R2. rewrite R2. split; mqsimp; done.
  - destruct (mq_tail mq) as [tl|] eqn:Et; [|symmetry in R2; by apply last_None in R2].
    split; mqsimp; try done. by rewrite Et.
Qed.
Lemma payload_linked_urgent i k : payload (linked_urgent i) k = payload mq k.
Proof.
  unfold linked_urgent. cbn [mq_tail set_mq_head upd_next set_mq_nodes].
  destruct (mq_tail mq); apply (payload_upd_next mq i (mq_head mq) k).
Qed.

Definition unlinked (i : nat) (m : rt_mq_message) : rt_messagequeue :=
  let mq1 := set_mq_head (msg_next m) mq in
  if bool_decide (mq_tail mq1 = Some i) then set_mq_tail None mq1 else mq1.

Lemma rep_unlink i :
  mq_rep mq (i :: q) f x ->
  mq_head mq = Some i /\ exists m, mq_nodes mq !! i = Some m /\ mq_rep (unlinked i m) q f (i :: x).
Proof.
  intros R. destruct (mr_node _ _ _ _ i R) as [m Em]; [set_solver|]. pose proof (mr_nodup _ _ _ _ R) as Hnd.
  destruct R as [R1 R2 R3 R4 R5 R6]. destruct R1 as (Eh & p' & Ep & C). split; [done|]. exists m. split; [done|].
  unfold next_of in Ep. rewrite Em in Ep. injection Ep as <-.
  assert (q ++ f ++ i :: x ≡ₚ seq 0 (Z.to_nat (mq_max_msgs mq))) as P.
  { rewrite <- R4. cbn. rewrite !app_assoc. symmetry. apply Permutation_middle. }
  unfold unlinked. cbn [mq_tail set_mq_head]. rewrite R2. destruct q as [|j l]; cbn [last].
  - rewrite bool_decide_true by done.
    split; mqsimp; done.
  - rewrite bool_decide_false.
    + split; mqsimp; done.
    + intros E. apply last_Some_elem_of in E. cbn in Hnd. apply NoDup_cons in Hnd as [Hn _]. apply Hn. set_solver.
Qed.

Lemma rep_release i : mq_rep mq q f (i :: x) -> mq_rep (set_mq_free (Some i) (upd_next i (mq_free mq) mq)) q (i :: f) x.
Proof.
  intros R. destruct (mr_node _ _ _ _ i R) as [m Em]; [set_solver|].
  pose proof (rep_next_flight i (mq_free mq) R) as [R1 R2 R3 R4 R5 R6].
  mqsimp.
  split; mqsimp; try done.
  - split; [done|]. exists (mq_free mq). split; [|done]. by rewrite next_of_alter, decide_True, Em by done.
  - rewrite <- R4. apply Permutation_app_head. cbn [app]. apply Permutation_middle.
Qed.
End parts.

(** ** The parts, in the kernel *)

Definition at_mq (s : kst) (n : nat) (mq : rt_messagequeue) : kst := set_k_mqs (<[n := mq]> (k_mqs s)) s.

Lemma at_mq_id s n mq : k_mqs s !! n = Some mq -> at_mq s n mq = s.
Proof. intros H. unfold at_mq. rewrite insert_id by done. by destruct s. Qed.
Lemma wp_set_mq s n mq mq' Q : Q tt (at_mq s n mq') -> wp (set_mq n mq') (at_mq s n mq) Q.
Proof. intros H. unfold set_mq. apply wp_modify. unfold at_mq in *. kproj. by rewrite insert_insert_eq. Qed.
Lemma wp_get_mq s n mq Q : Q mq (at_mq s n mq) -> wp (get_mq n) (at_mq s n mq) Q.
Proof. apply (wp_deref _ mq). apply lookup_insert_eq. Qed.
Lemma kinv_at_mq s n mq : kinv s -> kinv (at_mq s n mq).
Proof. intros [W T]. split; [by apply (wfx_same _ s)|by apply (tinv_same s); eauto]. Qed.
Lemma kframe_mqs s s' : kframe s s' -> k_mqs s' = k_mqs s.
Proof. intros F%kframe_ipc. unfold ipc_data in F. by injection F as _ _ _ _ ->. Qed.

Lemma mq_fill_wp s n mq i m buffer size Q :
  mq_nodes mq !! i = Some m -> 0 <= size <= Z.of_nat (length buffer) -> size <= Z.of_nat (length (msg_data m)) ->
  Q tt (at_mq s n (set_mq_nodes (<[i := set_msg_data (take (Z.to_nat size) buffer ++ drop (Z.to_nat size) (msg_data m)) m]>
    (mq_nodes mq)) mq)) ->
  wp (mq_fill n i buffer size) (at_mq s n mq) Q.
Proof.
  intros Em H1 H2 HQ. unfold mq_fill. kstep. apply wp_get_mq. kstep. apply (wp_deref _ m); [done|]. kstep.
  apply wp_valid; [apply Z.leb_le; lia|]. kstep. apply wp_valid; [apply Z.leb_le; lia|]. by apply wp_set_mq.
Qed.

(** The queue after a scheduling effect. *)
Lemma woke_mq s s' n mq q : woke (at_mq s n mq) s' q -> k_mqs s' !! n = Some mq.
Proof. intros W. rewrite (kframe_mqs _ _ (woke_frame _ _ _ W)). apply lookup_insert_eq. Qed.

(** The queue holds [msgs], oldest first; [nfree] messages are free, those of [x]
    in flight. *)
Definition mq_ok (s : kst) (n : nat) (msize : Z) (msgs : list (list Z)) (nfree : nat) (x : list nat) (flag : Z) : Prop :=
  ipc_header s (OMq n) RT_Object_Class_MessageQueue flag /\
  exists mq q f, k_mqs s !! n = Some mq /\ mq_rep mq q f x /\ mq_msg_size mq = msize /\
    mq_entry mq = Z.of_nat (length q) /\ payload mq <$> q = msgs /\ length f = nfree.

Lemma mq_ok_frame s s' n msize msgs k x flag : kframe s s' -> mq_ok s n msize msgs k x flag -> mq_ok s' n msize msgs k x flag.
Proof. intros F [H R]. split; [by apply (kframe_header s)|by rewrite (kframe_mqs s s')]. Qed.

Lemma payload_fill mq i m d j :
  mq_nodes mq !! i = Some m ->
  payload (set_mq_nodes (<[i := set_msg_data d m]> (mq_nodes mq)) mq) j = if decide (j = i) then d else payload mq j.
Proof.
  intros Em. unfold payload. cbn [mq_nodes set_mq_nodes]. case_decide as E.
  - subst. by rewrite list_lookup_insert_eq by (by eapply lookup_lt_Some).
  - by rewrite list_lookup_insert_ne by congruence.
Qed.

(** The new message: the bytes sent, then what the slot held before. *)
Definition sent_message (size : Z) (buffer old : list Z) : list Z :=
  take (Z.to_nat size) buffer ++ drop (Z.to_nat size) old.

Lemma length_sent size buffer old :
  0 <= size <= Z.of_nat (length buffer) -> size <= Z.of_nat (length old) -> length (sent_message size buffer old) = length old.
Proof. intros H1 H2. unfold sent_message. rewrite length_app, length_take, length_drop. lia. Qed.

(** A slot in flight and filled. *)
Lemma rep_filled mq q f x i m p size buffer :
  mq_rep mq q f (i :: x) -> mq_nodes mq !! i = Some m -> 0 <= size <= Z.of_nat (length buffer) ->
  size <= Z.of_nat (length (msg_data m)) ->
  let mq' := set_mq_nodes (<[i := set_msg_data (sent_message size buffer (msg_data m)) (set_msg_next p m)]>
    (mq_nodes (upd_next i p mq))) (upd_next i p mq) in
  mq_rep mq' q f (i :: x) /\ next_of (mq_nodes mq') i = Some p /\
  payload mq' i = sent_message size buffer (msg_data m) /\ (forall j, j ∈ q -> payload mq' j = payload mq j).
Proof.
  intros R Em H1 H2 mq'. pose proof (rep_next_flight mq q f x i p R) as R1.
  assert (mq_nodes (upd_next i p mq) !! i = Some (set_msg_next p m)) as Em'.
  { unfold upd_next. cbn [mq_nodes set_mq_nodes]. by rewrite list_lookup_alter_eq, Em. }
  assert (i ∉ q) as Hq.
  { pose proof (mr_nodup _ _ _ _ R) as Hnd. apply NoDup_app in Hnd as (_ & N & _). intros Hi. apply (N i Hi). set_solver. }
  split_and!.
  - apply rep_fill; [done|done|]. rewrite length_sent by done. done.
  - unfold mq', next_of. cbn [mq_nodes set_mq_nodes]. rewrite list_lookup_insert_eq; [done|]. by eapply lookup_lt_Some.
  - unfold mq'. rewrite payload_fill by done. by rewrite decide_True.
  - intros j Hj. unfold mq'. rewrite payload_fill by done. rewrite decide_False by (by intros ->). apply payload_upd_next.
Qed.

Lemma fmap_payload_ext mq mq' (q : list nat) : (forall j, j ∈ q -> payload mq' j = payload mq j) -> payload mq' <$> q = payload mq <$> q.
Proof. intros H. apply list_fmap_ext. intros i j Hj. apply H. by eapply list_elem_of_lookup_2. Qed.

(** A wake-up in the state with another queue. *)
Definition mq_step (s s' : kst) (n : nat) (q : qid) : Prop := exists mq, woke (at_mq s n mq) s' q.

(** The end of both ways to send: the new queue [mq2] is in place. *)
Lemma mq_linked_wp s n msize msgs k x flag mq mq2 q f :
  kinv s -> is_Some (k_current s) -> ipc_header s (OMq n) RT_Object_Class_MessageQueue flag ->
  mq_rep mq2 q f x -> mq_msg_size mq2 = msize -> mq_entry mq2 + 1 = Z.of_nat (length q) ->
  payload mq2 <$> q = msgs -> length f = k ->
  wp (set_mq n (set_mq_entry (u16 (mq_entry mq2 + 1)) mq2) ;; wake_one (QMq n) ;; ret RT_EOK) (at_mq s n mq)
    (fun r s' => r = RT_EOK /\ kinv s' /\ mq_ok s' n msize msgs k x flag /\ mq_step s s' n (QMq n)).
Proof.
  intros Hk Hc Hh R Hs He Hp Hf. kstep. apply wp_set_mq. set (mq3 := set_mq_entry _ mq2). kstep.
  eapply wp_mono; [apply wake_one_wp; [by apply kinv_at_mq|done|done]|]. intros [] s' [Hk' W]. kstep.
  split; [done|]. split; [done|]. split; [|by exists mq3]. split.
  - apply (kframe_header (at_mq s n mq3)); [by eapply woke_frame|done|done].
  - exists mq3, q, f. split; [by eapply woke_mq|]. split; [by destruct R|]. split_and!; try done. cbn [mq3 mq_entry set_mq_entry].
    pose proof (mr_length _ _ _ _ R). destruct (mr_size _ _ _ _ R). rewrite u16_small by lia. lia.
Qed.

Lemma mq_put_wp s n mq q f x i m buffer size flag :
  kinv s -> is_Some (k_current s) -> ipc_header s (OMq n) RT_Object_Class_MessageQueue flag ->
  mq_rep mq q (i :: f) x -> mq_entry mq = Z.of_nat (length q) -> mq_nodes mq !! i = Some m ->
  0 <= size <= Z.of_nat (length buffer) -> size <= mq_msg_size mq ->
  wp (mq_put n i buffer size) (at_mq s n mq) (fun r s' => r = RT_EOK /\ kinv s' /\
    mq_ok s' n (mq_msg_size mq) ((payload mq <$> q) ++ [sent_message size buffer (msg_data m)]) (length f) x flag /\
    mq_step s s' n (QMq n)).
Proof.
  intros Hk Hc Hh R He Em H1 H2. unfold mq_put, mq_alloc. kstep. kstep. apply wp_get_mq. kstep. apply (wp_deref _ m); [done|].
  apply wp_set_mq. destruct (rep_alloc mq q f x i R) as (m' & Em' & R1). rewrite Em in Em'. injection Em' as <-.
  set (mq1 := set_mq_free (msg_next m) mq) in *. kstep. apply wp_get_mq. kstep. apply wp_set_mq. kstep.
  pose proof (mr_data _ _ _ _ R i m Em) as Hd.
  assert (mq_nodes (upd_next i None mq1) !! i = Some (set_msg_next None m)) as Em1.
  { unfold upd_next. cbn [mq_nodes set_mq_nodes]. rewrite list_lookup_alter_eq. cbn. by rewrite Em. }
  apply (mq_fill_wp s n _ i (set_msg_next None m)); [done|done|cbn; lia|].
  destruct (rep_filled mq1 q f x i m None size buffer R1 Em H1 ltac:(lia)) as (R2 & Hn & Hp & Ho).
  set (mq2 := set_mq_nodes _ _) in R2, Hn, Hp, Ho. change (at_mq s n _) with (at_mq s n mq2).
  unfold mq_link. kstep. apply wp_get_mq. change (mq_msg_size mq) with (mq_msg_size mq2).
  apply (mq_linked_wp s n _ _ (length f) x flag mq2 (linked mq2 i) (q ++ [i]) f); try done.
  - by apply rep_link.
  - unfold linked. destruct (mq_tail mq2); cbn [mq_head set_mq_tail upd_next set_mq_nodes]; by destruct (mq_head _).
  - assert (mq_entry (linked mq2 i) = mq_entry mq) as ->.
    { unfold linked. destruct (mq_tail mq2); cbn [mq_head set_mq_tail upd_next set_mq_nodes]; by destruct (mq_head _). }
    rewrite He, length_app. cbn. lia.
  - rewrite fmap_app. cbn. rewrite payload_linked, Hp. f_equal. apply fmap_payload_ext. intros j Hj.
    rewrite payload_linked. by apply Ho.
Qed.

Lemma urgent_put_wp s n mq q f x i m buffer size flag :
  kinv s -> is_Some (k_current s) -> ipc_header s (OMq n) RT_Object_Class_MessageQueue flag ->
  mq_rep mq q (i :: f) x -> mq_entry mq = Z.of_nat (length q) -> mq_nodes mq !! i = Some m ->
  0 <= size <= Z.of_nat (length buffer) -> size <= mq_msg_size mq ->
  wp (mq_alloc n i ;; mq_fill n i buffer size ;; mq_link_urgent n i) (at_mq s n mq) (fun r s' => r = RT_EOK /\ kinv s' /\
    mq_ok s' n (mq_msg_size mq) (sent_message size buffer (msg_data m) :: (payload mq <$> q)) (length f) x flag /\
    mq_step s s' n (QMq n)).
Proof.
  intros Hk Hc Hh R He Em H1 H2. unfold mq_alloc. kstep. kstep. apply wp_get_mq. kstep. apply (wp_deref _ m); [done|].
  apply wp_set_mq. destruct (rep_alloc mq q f x i R) as (m' & Em' & R1). rewrite Em in Em'. injection Em' as <-.
  set (mq1 := set_mq_free (msg_next m) mq) in *. kstep. pose proof (mr_data _ _ _ _ R i m Em) as Hd.
  apply (mq_fill_wp s n mq1 i m); [done|done|lia|]. fold (sent_message size buffer (msg_data m)).
  set (mq2 := set_mq_nodes _ _).
  assert (mq_rep mq2 q f (i :: x)) as R2 by (apply rep_fill; [done|done|by rewrite length_sent by lia]).
  assert (i ∉ q) as Hq.
  { pose proof (mr_nodup _ _ _ _ R) as Hnd. apply NoDup_app in Hnd as (_ & N & _). intros Hi. apply (N i Hi). set_solver. }
  unfold mq_link_urgent. kstep. apply wp_get_mq. change (mq_msg_size mq) with (mq_msg_size mq2).
  apply (mq_linked_wp s n _ _ (length f) x flag mq2 (linked_urgent mq2 i) (i :: q) f); try done.
  - by apply rep_link_urgent.
  - unfold linked_urgent. cbn [mq_tail set_mq_head upd_next set_mq_nodes]. by destruct (mq_tail mq2).
  - assert (mq_entry (linked_urgent mq2 i) = mq_entry mq) as ->.
    { unfold linked_urgent. cbn [mq_tail set_mq_head upd_next set_mq_nodes]. by destruct (mq_tail mq2). }
    rewrite He. cbn [length]. lia.
  - cbn. rewrite payload_linked_urgent. unfold mq2 at 1. rewrite payload_fill, decide_True by done. f_equal.
    apply fmap_payload_ext. intros j Hj. rewrite payload_linked_urgent. unfold mq2.
    rewrite payload_fill by done. by rewrite decide_False by (by intros ->).
Qed.

Lemma mq_get_wp s n mq q f x i size flag :
  kinv s -> is_Some (k_current s) -> ipc_header s (OMq n) RT_Object_Class_MessageQueue flag ->
  mq_rep mq (i :: q) f x -> mq_entry mq = Z.of_nat (length (i :: q)) -> 0 <= size ->
  wp (mq_get n size) (at_mq s n mq) (fun r s' =>
    r = (RT_EOK, Some (take (Z.to_nat (Z.min size (mq_msg_size mq))) (payload mq i))) /\ kinv s' /\
    mq_ok s' n (mq_msg_size mq) (payload mq <$> q) (S (length f)) x flag /\ mq_step s s' n (QMqSender n)).
Proof.
  intros Hk Hc Hh R He H1. destruct (rep_unlink mq q f x i R) as (Eh & m & Em & R1).
  pose proof (mr_data _ _ _ _ R i m Em) as Hd. pose proof (mr_length _ _ _ _ R) as Hlen. destruct (mr_size _ _ _ _ R) as [Hmax _].
  cbn [length] in He, Hlen. unfold mq_get, mq_unlink. kstep. kstep. apply wp_get_mq. kstep. apply (wp_deref _ i); [done|]. kstep.
  apply (wp_deref _ m); [done|]. fold (unlinked mq i m). set (mq1 := unlinked mq i m) in *.
  assert (mq_entry mq1 = mq_entry mq /\ mq_msg_size mq1 = mq_msg_size mq /\ mq_nodes mq1 = mq_nodes mq) as (E1 & E2 & E3).
  { unfold mq1, unlinked. by destruct (bool_decide _). }
  kstep. apply wp_set_mq. set (mq2 := set_mq_entry _ mq1). kstep. unfold mq_copy. kstep. kstep. apply wp_get_mq. kstep.
  apply (wp_deref _ m); [change (mq_nodes mq2) with (mq_nodes mq1); by rewrite E3|].
  change (mq_msg_size mq2) with (mq_msg_size mq1). rewrite E2.
  assert ((if mq_msg_size mq <? size then mq_msg_size mq else size) = Z.min size (mq_msg_size mq)) as ->.
  { destruct (Z.ltb_spec (mq_msg_size mq) size); lia. }
  kstep. apply wp_valid; [apply Z.leb_le; lia|]. kstep. unfold mq_release. kstep. kstep. apply wp_get_mq. kstep.
  apply wp_set_mq. set (mq3 := set_mq_free _ _).
  assert (mq_rep mq3 q (i :: f) x) as R3 by (apply rep_release; by destruct R1).
  eapply wp_mono; [apply wake_one_wp; [by apply kinv_at_mq|done|done]|]. intros [] s' [Hk' W]. kstep.
  split; [unfold payload; by rewrite Em|]. split; [done|]. split; [|by exists mq3]. split.
  - apply (kframe_header (at_mq s n mq3)); [by eapply woke_frame|done|done].
  - exists mq3, q, (i :: f). split; [by eapply woke_mq|]. split; [done|]. split; [done|]. split; [|split; [|done]].
    + change (mq_entry mq3) with (u16 (mq_entry mq1 - 1)). rewrite E1, u16_small by lia. lia.
    + apply fmap_payload_ext. intros j Hj. unfold mq3. transitivity (payload mq2 j); [apply payload_upd_next|].
      unfold payload. change (mq_nodes mq2) with (mq_nodes mq1). by rewrite E3.
Qed.

(** ** Properties *)

(** [m] is a message of the queue's size that starts with the bytes sent. *)
Definition carries (m buffer : list Z) (size msize : Z) : Prop :=
  take (Z.to_nat size) m = take (Z.to_nat size) buffer /\ Z.of_nat (length m) = msize.

Lemma sent_carries size buffer old msize :
  0 <= size <= Z.of_nat (length buffer) -> size <= msize -> Z.of_nat (length old) = msize ->
  carries (sent_message size buffer old) buffer size msize.
Proof.
  intros H1 H2 H3. split; [|rewrite length_sent; lia]. unfold sent_message.
  rewrite take_app_le by (rewrite length_take; lia). by rewrite take_take, Nat.min_id.
Qed.

(** Sending while a slot is free. *)
Lemma rt_mq_send_free_wp s n msize msgs k x flag buffer size timeout c th :
  kinv s -> mq_ok s n msize msgs (S k) x flag -> caller s c th -> 0 < size <= Z.of_nat (length buffer) -> size <= msize ->
  wp (rt_mq_send_wait_enter n buffer size timeout) s (fun r s' => kinv s' /\ r = Returned RT_EOK /\ mq_step s s' n (QMq n) /\
    exists m, carries m buffer size msize /\ mq_ok s' n msize (msgs ++ [m]) k x flag).
Proof.
  intros Hk (Hh & mq & q & f & Em & R & Hms & He & Hp & Hf) Hca Hs Hle.
  unfold rt_mq_send_wait_enter, rt_thread_self. kstep. apply (wp_ipc_type _ _ _ flag); [done|]. kstep.
  apply wp_assert; [by apply negb_true_iff, Z.eqb_neq; lia|]. kstep. apply (wp_deref _ mq); [done|]. rewrite Hms.
  rewrite (proj2 (Z.ltb_ge _ _)) by lia. kstep. kstep. rewrite (ca_current _ _ _ Hca). unfold mq_send_while.
  destruct f as [|i f]; [done|]. injection Hf as <-.
  pose proof (mr_free _ _ _ _ R) as (Ef & _). rewrite Ef, bool_decide_false by done. cbn [andb]. kstep.
  apply (wp_deref _ mq); [done|]. rewrite Ef. kstep. destruct (mr_node _ _ _ _ i R) as [m Hm]; [set_solver|].
  rewrite <- (at_mq_id s n mq Em). eapply wp_mono.
  { apply (mq_put_wp s n mq q f x i m buffer size flag); [done|by rewrite (ca_current _ _ _ Hca)|done..|lia|lia]. }
  rewrite (at_mq_id s n mq Em). intros r s' (-> & Hk' & Hok & St). kstep. split; [done|]. split; [done|]. split; [done|].
  eexists. rewrite Hms, Hp in Hok. split; [|exact Hok]. apply sent_carries; [lia|lia|]. rewrite <- Hms. by apply (mr_data _ _ _ _ R i).
Qed.

(** Receiving while a message is queued. *)
Lemma rt_mq_recv_queued_wp s n msize m msgs k x flag size timeout c th :
  kinv s -> mq_ok s n msize (m :: msgs) k x flag -> caller s c th -> 0 < size ->
  wp (rt_mq_recv_enter n size timeout) s (fun r s' => kinv s' /\
    r = Returned (RT_EOK, Some (take (Z.to_nat (Z.min size msize)) m)) /\
    mq_ok s' n msize msgs (S k) x flag /\ mq_step s s' n (QMqSender n)).
Proof.
  intros Hk (Hh & mq & q & f & Em & R & Hms & He & Hp & Hf) Hca Hs.
  unfold rt_mq_recv_enter, rt_thread_self. kstep. apply (wp_ipc_type _ _ _ flag); [done|]. kstep.
  apply wp_assert; [by apply negb_true_iff, Z.eqb_neq; lia|]. kstep. kstep. rewrite (ca_current _ _ _ Hca). kstep.
  apply (wp_deref _ mq); [done|]. unfold mq_recv_while. destruct q as [|i q]; [done|]. injection Hp as <- <-.
  rewrite He, (proj2 (Z.eqb_neq _ _)) by (cbn [length]; lia). cbn [andb]. kstep. apply (wp_deref _ mq); [done|].
  rewrite He, (proj2 (Z.eqb_neq _ _)) by (cbn [length]; lia). kstep. rewrite <- (at_mq_id s n mq Em). eapply wp_mono.
  { apply (mq_get_wp s n mq q f x i size flag); [done|by rewrite (ca_current _ _ _ Hca)|done|done|done|lia]. }
  rewrite (at_mq_id s n mq Em). intros r s' (-> & Hk' & Hok & St). kstep. rewrite Hms, Hf in *. done.
Qed.

(** C8: sending a message, on every branch.  A message longer than the queue's
    message size is refused with -RT_ERROR.  While a slot is free the message is
    appended to the queue and the first waiting receiver becomes runnable; a full
    queue gives -RT_EFULL when the timeout is 0, and otherwise the caller goes to
    wait among the senders.  Messages in flight of other senders and receivers
    ([x]) are not disturbed, and queue and kernel invariant hold after. *)
Theorem rt_mq_send_wait_correct s n msize msgs k x flag buffer size timeout c th :
  kinv s -> mq_ok s n msize msgs k x flag -> caller s c th -> timeout < TICK_HALF ->
  0 < size <= Z.of_nat (length buffer) ->
  wp (rt_mq_send_wait_enter n buffer size timeout) s (fun r s' => kinv s' /\
    if msize <? size then r = Returned (- RT_ERROR) /\ s' = s
    else match k with
    | S k' => r = Returned RT_EOK /\ mq_step s s' n (QMq n) /\
        exists m, carries m buffer size msize /\ mq_ok s' n msize (msgs ++ [m]) k' x flag
    | O =>
        if timeout =? 0 then r = Returned (- RT_EFULL) /\ s' = s
        else r = Waiting c /\ mq_ok s' n msize msgs 0 x flag /\
          blocked_post s s' (QMqSender n) flag c (set_th_error RT_EOK th) timeout
    end).
Proof.
  intros Hk H Hca Hmax Hs. destruct k as [|k].
  - pose proof H as (Hh & mq & q & f & Em & R & Hms & He & Hp & Hf).
    unfold rt_mq_send_wait_enter, rt_thread_self. kstep. apply (wp_ipc_type _ _ _ flag); [done|]. kstep.
    apply wp_assert; [by apply negb_true_iff, Z.eqb_neq; lia|]. kstep. apply (wp_deref _ mq); [done|]. rewrite Hms.
    destruct (Z.ltb_spec msize size); [by kstep|]. kstep. kstep. rewrite (ca_current _ _ _ Hca). unfold mq_send_while.
    destruct f as [|i f]; [|done]. pose proof (mr_free _ _ _ _ R) as Ef. cbn in Ef. rewrite Ef, bool_decide_true by done.
    cbn [andb]. destruct (timeout =? 0) eqn:Et; [by kstep|]. kstep. apply (wp_deref _ mq); [done|]. rewrite Ef. kstep.
    apply (wp_deref _ c); [done|]. kstep. apply (wp_mod_thread _ _ th); [apply Hca|]. kstep.
    eapply wp_mono; [by apply (wait_in_wp s (QMqSender n) (OMq n) RT_Object_Class_MessageQueue flag c th); [| |split_and!| | |]|].
    intros [] s' B. kstep. split; [apply B|]. split; [done|]. split; [|done]. by apply (mq_ok_frame s); [apply B|].
  - destruct (Z.ltb_spec msize size); [|by apply (rt_mq_send_free_wp s n msize msgs k x flag buffer size timeout c th)].
    destruct H as (Hh & mq & q & f & Em & R & Hms & He & Hp & Hf). unfold rt_mq_send_wait_enter. kstep.
    apply (wp_ipc_type _ _ _ flag); [done|]. kstep. apply wp_assert; [by apply negb_true_iff, Z.eqb_neq; lia|]. kstep.
    apply (wp_deref _ mq); [done|]. rewrite Hms, (proj2 (Z.ltb_lt _ _)) by lia. by kstep.
Qed.

Lemma sample_mq : mq_ok sample 0 2 [] 2 [] RT_IPC_FLAG_FIFO.
Proof.
  split; [eexists; split; [reflexivity|]; split_and!; [done|done|by left]|].
  eexists _, [], [1%nat; 0%nat]. split; [reflexivity|]. split; [|by split_and!]. split.
  - done.
  - done.
  - split; [done|]. eexists. split; [reflexivity|]. split; [done|]. by eexists.
  - apply Permutation_swap.
  - cbn. lia.
  - by intros [|[|i]] m [= <-].
Qed.

Lemma rt_mq_send_wait_correct_witness :
  wp (rt_mq_send_wait_enter 0 [5; 6; 7] 1 0) sample (fun r s' => kinv s' /\ r = Returned RT_EOK /\ mq_step sample s' 0 (QMq 0) /\
    exists m, carries m [5; 6; 7] 1 2 /\ mq_ok s' 0 2 [m] 1 [] RT_IPC_FLAG_FIFO).
Proof.
  refine (rt_mq_send_wait_correct sample 0 2 [] 2 [] _ [5; 6; 7] 1 0 1 _ sample_kinv sample_mq sample_caller _ _);
    [by rewrite TICK_HALF_val|cbn; lia].
Defined.

(** An urgent message overtakes.  rt_mq_urgent puts the message in front of
    all queued ones (and wakes the first receiver), gives -RT_EFULL without
    waiting when no slot is free and -RT_ERROR when the message is too long. *)
Theorem rt_mq_urgent_correct s n msize msgs k x flag buffer size :
  kinv s -> mq_ok s n msize msgs k x flag -> is_Some (k_current s) -> 0 < size <= Z.of_nat (length buffer) ->
  wp (rt_mq_urgent n buffer size) s (fun r s' => kinv s' /\
    if msize <? size then r = - RT_ERROR /\ s' = s
    else match k with
    | S k' => r = RT_EOK /\ mq_step s s' n (QMq n) /\
        exists m, carries m buffer size msize /\ mq_ok s' n msize (m :: msgs) k' x flag
    | O => r = - RT_EFULL /\ s' = s
    end).
Proof.
  intros Hk H Hc Hs. pose proof H as (Hh & mq & q & f & Em & R & Hms & He & Hp & Hf).
  unfold rt_mq_urgent. kstep. apply (wp_ipc_type _ _ _ flag); [done|]. kstep.
  apply wp_assert; [by apply negb_true_iff, Z.eqb_neq; lia|]. kstep. apply (wp_deref _ mq); [done|]. rewrite Hms.
  destruct (Z.ltb_spec msize size); [by kstep|]. destruct f as [|i f]; cbn [length] in Hf; subst k.
  - pose proof (mr_free _ _ _ _ R) as Ef. cbn in Ef. rewrite Ef. by kstep.
  - pose proof (mr_free _ _ _ _ R) as (Ef & _). rewrite Ef. destruct (mr_node _ _ _ _ i R) as [m Hm]; [set_solver|].
    rewrite <- (at_mq_id s n mq Em). eapply wp_mono.
    { apply (urgent_put_wp s n mq q f x i m buffer size flag); [done..|lia|lia]. }
    rewrite (at_mq_id s n mq Em). intros r s' (-> & Hk' & Hok & St). split; [done|]. split; [done|]. split; [done|].
    eexists. rewrite Hms, Hp in Hok. split; [|exact Hok]. apply sent_carries; [lia|lia|]. rewrite <- Hms. by apply (mr_data _ _ _ _ R i).
Qed.

Lemma rt_mq_urgent_correct_witness :
  wp (rt_mq_urgent 0 [5; 6] 2) sample (fun r s' => kinv s' /\ r = RT_EOK /\ mq_step sample s' 0 (QMq 0) /\
    exists m, carries m [5; 6] 2 2 /\ mq_ok s' 0 2 [m] 1 [] RT_IPC_FLAG_FIFO).
Proof.
  refine (rt_mq_urgent_correct sample 0 2 [] 2 [] _ [5; 6] 2 sample_kinv sample_mq (mk_is_Some _ _ eq_refl) _). cbn. lia.
Defined.

(** C20: receiving a message, on every branch.  The oldest message leaves the
    queue, its slot becomes free, the caller gets its first [size] bytes (at most
    the message size) and the first waiting sender becomes runnable; an empty
    queue gives -RT_ETIMEOUT when the timeout is 0, and otherwise the caller goes
    to wait among the receivers.  Queue and kernel invariant hold after. *)
Theorem rt_mq_recv_correct s n msize msgs k x flag size timeout c th :
  kinv s -> mq_ok s n msize msgs k x flag -> caller s c th -> timeout < TICK_HALF -> 0 < size ->
  wp (rt_mq_recv_enter n size timeout) s (fun r s' => kinv s' /\
    match msgs with
    | m :: msgs' => r = Returned (RT_EOK, Some (take (Z.to_nat (Z.min size msize)) m)) /\
        mq_ok s' n msize msgs' (S k) x flag /\ mq_step s s' n (QMqSender n)
    | [] =>
        if timeout =? 0 then r = Returned (- RT_ETIMEOUT, None) /\ s' = s
        else r = Waiting c /\ mq_ok s' n msize [] k x flag /\
          blocked_post s s' (QMq n) flag c (set_th_error RT_EOK th) timeout
    end).
Proof.
  intros Hk H Hca Hmax Hs. destruct msgs as [|m msgs]; [|by apply (rt_mq_recv_queued_wp s n msize m msgs k x flag size timeout c th)].
  pose proof H as (Hh & mq & q & f & Em & R & Hms & He & Hp & Hf).
  unfold rt_mq_recv_enter, rt_thread_self. kstep. apply (wp_ipc_type _ _ _ flag); [done|]. kstep.
  apply wp_assert; [by apply negb_true_iff, Z.eqb_neq; lia|]. kstep. kstep. rewrite (ca_current _ _ _ Hca). kstep.
  apply (wp_deref _ mq); [done|]. unfold mq_recv_while. destruct q as [|i q]; [|done].
  rewrite He. change (Z.of_nat (length []) =? 0) with true. cbn [andb]. destruct (timeout =? 0) eqn:Et; [by kstep|].
  kstep. apply (wp_deref _ mq); [done|]. rewrite He. change (Z.of_nat (length []) =? 0) with true. cbv iota. kstep.
  apply (wp_in_thread_context s c th); [done|]. kstep. apply (wp_deref _ c); [done|]. kstep.
  apply (wp_mod_thread _ _ th); [apply Hca|]. kstep.
  eapply wp_mono; [by apply (wait_in_wp s (QMq n) (OMq n) RT_Object_Class_MessageQueue flag c th); [| |split_and!| | |]|].
  intros [] s' B. kstep. split; [apply B|]. split; [done|]. split; [|done]. by apply (mq_ok_frame s); [apply B|].
Qed.

(** A queue that holds one message, [8; 9], and has one free slot. *)
Definition sample_queued : kst :=
  at_mq sample 0 (mkMq [mkMsg None [8; 9]; mkMsg None [0; 0]] 2 2 1 (Some 0%nat) (Some 0%nat) (Some 1%nat)).
Lemma sample_queued_ok : mq_ok sample_queued 0 2 [[8; 9]] 1 [] RT_IPC_FLAG_FIFO.
Proof.
  split; [eexists; split; [reflexivity|]; split_and!; [done|done|by left]|].
  eexists _, [0%nat], [1%nat]. split; [reflexivity|]. split; [|by split_and!]. split.
  - split; [done|]. by eexists.
  - done.
  - split; [done|]. by eexists.
  - done.
  - cbn. lia.
  - by intros [|[|i]] m [= <-].
Qed.

Lemma rt_mq_recv_correct_witness :
  wp (rt_mq_recv_enter 0 1 0) sample_queued (fun r s' => kinv s' /\ r = Returned (RT_EOK, Some [8]) /\
    mq_ok s' 0 2 [] 2 [] RT_IPC_FLAG_FIFO /\ mq_step sample_queued s' 0 (QMqSender 0)).
Proof.
  refine (rt_mq_recv_correct sample_queued 0 2 [[8; 9]] 1 [] _ 1 0 1 (sample_thread 10 RT_THREAD_RUNNING) _ sample_queued_ok _ _ _);
    [apply kinv_at_mq, sample_kinv|by split|by rewrite TICK_HALF_val|lia].
Defined.

(** What is sent is what is received.  On an empty queue with a free slot and
    nobody waiting, rt_mq_send of [size] bytes followed by rt_mq_recv into a
    buffer of that size gives exactly those bytes back, and the slot is free
    again. *)
Theorem mq_send_recv s n msize k x flag buffer size c th :
  kinv s -> mq_ok s n msize [] (S k) x flag -> caller s c th -> 0 < size <= Z.of_nat (length buffer) -> size <= msize ->
  qget s (QMq n) = [] -> qget s (QMqSender n) = [] ->
  wp (rt_mq_send n buffer size ;; rt_mq_recv_enter n size 0) s (fun r s' =>
    r = Returned (RT_EOK, Some (take (Z.to_nat size) buffer)) /\ mq_ok s' n msize [] (S k) x flag /\ kinv s').
Proof.
  intros Hk H Hca Hs Hm Hq1 Hq2. kstep. eapply wp_mono; [by apply (rt_mq_send_free_wp s n msize [] k x flag buffer size 0 c th)|].
  intros r s1 (Hk1 & _ & [mq W] & m & [Em _] & H1).
  unfold woke in W. change (qget (at_mq s n mq) (QMq n)) with (qget s (QMq n)) in W. rewrite Hq1 in W. subst s1.
  assert (caller (at_mq s n mq) c th) as Hca1 by (destruct Hca; by split).
  eapply wp_mono; [by apply (rt_mq_recv_queued_wp (at_mq s n mq) n msize m [] k x flag size 0 c th); [..|lia]|].
  intros r' s' (Hk' & -> & H' & _). rewrite Z.min_l, Em by lia. done.
Qed.

Lemma mq_send_recv_witness :
  wp (rt_mq_send 0 [5; 6; 7] 2 ;; rt_mq_recv_enter 0 2 0) sample (fun r s' =>
    r = Returned (RT_EOK, Some [5; 6]) /\ mq_ok s' 0 2 [] 2 [] RT_IPC_FLAG_FIFO /\ kinv s').
Proof.
  refine (mq_send_recv sample 0 2 1 [] _ [5; 6; 7] 2 1 _ sample_kinv sample_mq sample_caller _ _ _ _); [cbn; lia|lia|done|done].
Defined.

(** ** Initialising, resetting and closing *)

Lemma build_free_rep count : forall i mq,
  (i + count <= length (mq_nodes mq))%nat -> chain (mq_nodes mq) (mq_free mq) (rev (seq 0 i)) ->
  let mq' := mq_build_free count i mq in
  chain (mq_nodes mq') (mq_free mq') (rev (seq 0 (i + count))) /\ length (mq_nodes mq') = length (mq_nodes mq) /\
  mq_head mq' = mq_head mq /\ mq_tail mq' = mq_tail mq /\ mq_max_msgs mq' = mq_max_msgs mq /\ mq_msg_size mq' = mq_msg_size mq /\
  (forall j m, mq_nodes mq' !! j = Some m -> exists m0, mq_nodes mq !! j = Some m0 /\ msg_data m = msg_data m0).
Proof.
  induction count as [|count IH]; intros i mq Hlen C; cbn [mq_build_free].
  { rewrite Nat.add_0_r. split_and!; try done. eauto. }
  set (mq1 := set_mq_free (Some i) (upd_next i (mq_free mq) mq)).
  assert (length (mq_nodes mq1) = length (mq_nodes mq)) as El by (unfold mq1; mqsimp; apply length_alter).
  destruct (lookup_lt_is_Some_2 (mq_nodes mq) i) as [m0 Em]; [lia|].
  destruct (IH (S i) mq1) as (C' & L' & E1 & E2 & E3 & E4 & D); [lia| |].
  - rewrite seq_S, rev_app_distr. cbn [rev app Nat.add]. unfold mq1. mqsimp. split; [done|]. exists (mq_free mq).
    rewrite next_of_alter, decide_True, Em by done. split; [done|]. apply chain_alter; [|done].
    rewrite list_elem_of_In, <- in_rev, <- list_elem_of_In, elem_of_seq. lia.
  - replace (i + S count)%nat with (S i + count)%nat by lia. split_and!; try done; [by rewrite L'|].
    intros j m Hj. destruct (D j m Hj) as (m1 & Hm1 & ->). by apply (data_alter mq (mq_free mq) i).
Qed.

Lemma initial_rep pool msize max_msgs :
  0 <= max_msgs < 2 ^ 16 -> max_msgs <= Z.of_nat (length pool) ->
  (forall i m, pool !! i = Some m -> Z.of_nat (length (msg_data m)) = msize) ->
  mq_rep (mq_initial pool msize max_msgs) [] (rev (seq 0 (Z.to_nat max_msgs))) [].
Proof.
  intros Hm Hp Hd. unfold mq_initial. set (mq0 := mkMq pool msize max_msgs 0 None None None).
  destruct (build_free_rep (Z.to_nat max_msgs) 0 mq0) as (C & L & E1 & E2 & E3 & E4 & D); [cbn; lia|done|].
  set (mq1 := mq_build_free _ _ _) in *. split; cbn [mq_nodes mq_head mq_tail mq_free mq_max_msgs mq_msg_size set_mq_entry].
  - by rewrite E1.
  - by rewrite E2.
  - exact C.
  - rewrite E3, app_nil_r. cbn. by rewrite <- Permutation_rev.
  - rewrite E3, L. cbn. lia.
  - intros i m Hi. destruct (D i m Hi) as (m0 & H0 & ->). rewrite E4. by apply (Hd i).
Qed.

Lemma rt_mq_init_wp s n l pool msg_size pool_size flag :
  fresh_object s (OMq n) RT_Object_Class_MessageQueue (QMq n) -> qget s (QMqSender n) = [] -> chars_ok l ->
  flag = RT_IPC_FLAG_FIFO \/ flag = RT_IPC_FLAG_PRIO ->
  let msize := u16 (RT_ALIGN msg_size RT_ALIGN_SIZE) in
  let max_msgs := u16 (pool_size / (msize + 4)) in
  max_msgs <= Z.of_nat (length pool) -> (forall i m, pool !! i = Some m -> Z.of_nat (length (msg_data m)) = msize) ->
  wp (rt_mq_init n (cstring l) pool msg_size pool_size flag) s (fun r s' => r = RT_EOK /\ kinv s' /\
    mq_ok s' n msize [] (Z.to_nat max_msgs) [] flag).
Proof.
  intros Hf He Hl Hfl msize max_msgs Hp Hd. unfold rt_mq_init.
  apply (init_object_wp _ _ _ (QMq n)); [done|done|]. intros s1 Hk Eq Ed Eo. kstep.
  apply (wp_mod_object _ _ (static_header s (OMq n) RT_Object_Class_MessageQueue l)); [done|]. kstep. apply wp_modify. kstep.
  fold msize. fold max_msgs. apply wp_valid; [by apply Z.leb_le|]. unfold set_mq. kstep. kstep. kstep. apply wp_modify. kstep.
  split; [done|]. split.
  - apply kinv_q_init.
    + apply (kinv_at_mq (upd_queue (QMq n) [] (set_k_objects _ s1))). apply kinv_q_init; [by apply kinv_header_upd|].
      change (qget s1 (QMq n) = []). rewrite Eq by done. apply Hf.
    + unfold qget. kproj. rewrite lookup_insert_ne by done. change (qget s1 (QMqSender n) = []). by rewrite Eq.
  - pose proof (initial_rep pool msize max_msgs (u16_range _) Hp Hd) as R. split.
    + eexists. split; [apply lookup_insert_eq|by split_and!].
    + eexists _, [], _. split; [apply lookup_insert_eq|]. split; [exact R|]. split_and!; [|done|done|by rewrite length_rev, length_seq].
      unfold mq_initial. cbn [mq_msg_size set_mq_entry].
      by destruct (build_free_rep (Z.to_nat max_msgs) 0 (mkMq pool msize max_msgs 0 None None None)) as (_ & _ & _ & _ & _ & -> & _);
        [cbn; pose proof (u16_range (pool_size / (msize + 4))); lia|done|].
Qed.

Lemma rt_mq_detach_wp s n :
  kinv s -> static_object s (OMq n) RT_Object_Class_MessageQueue ->
  wp (rt_mq_detach n) s (fun r s' => r = RT_EOK /\ ipc_closed (qget s (QMq n) ++ qget s (QMqSender n)) s s' (OMq n)).
Proof.
  intros Hk Hs. apply wp_static_guard; [done|unfold ipc_class; set_solver|]. apply resume_two_wp; [done..|].
  intros s' A. destruct Hs as (ob & E & _). by apply (detach_tail_wp _ _ _ _ ob).
Qed.

Lemma mq_drain_wp q : forall fuel s n mq f x,
  (length q <= fuel)%nat -> mq_rep mq q f x ->
  wp (mq_drain fuel n) (at_mq s n mq) (fun _ s' => exists mq' f', s' = at_mq s n mq' /\ mq_rep mq' [] f' x /\
    length f' = (length q + length f)%nat /\ mq_msg_size mq' = mq_msg_size mq).
Proof.
  induction q as [|i q IH]; intros fuel s n mq f x Hf R.
  - destruct fuel; cbn [mq_drain]; kstep; apply wp_get_mq; pose proof (mr_queue _ _ _ _ R) as Eh; cbn in Eh; rewrite Eh; kstep;
      exists mq, f; done.
  - destruct fuel as [|fuel]; cbn [length] in Hf; [lia|]. cbn [mq_drain]. kstep. apply wp_get_mq.
    destruct (rep_unlink mq q f x i R) as (Eh & m & Em & R1). rewrite Eh. kstep. apply (wp_deref _ m); [done|].
    fold (unlinked mq i m). kstep. apply wp_set_mq. pose proof (rep_release _ q f x i R1) as R2.
    eapply wp_mono; [apply (IH fuel s n _ (i :: f) x); [lia|exact R2]|]. intros [] s' (mq' & f' & -> & R' & L & E).
    exists mq', f'. split; [done|]. split; [done|]. split; [rewrite L; cbn [length]; lia|]. rewrite E.
    unfold unlinked. by destruct (bool_decide _).
Qed.

(** The reset: the loop over the queue ends, and every message that was queued is
    back in the free list. *)
Lemma rt_mq_control_wp s n msize msgs k x flag cmd :
  kinv s -> mq_ok s n msize msgs k x flag -> is_Some (k_current s) ->
  wp (rt_mq_control n cmd) s (fun r s' => kinv s' /\
    if cmd =? RT_IPC_CMD_RESET then
      r = RT_EOK /\ mq_ok s' n msize [] (length msgs + k) x flag /\ failed s' (qget s (QMq n) ++ qget s (QMqSender n)) /\
      qget s' (QMq n) = [] /\ qget s' (QMqSender n) = []
    else r = - RT_ERROR /\ s' = s).
Proof.
  intros Hk H Hc. pose proof H as (Hh & mq & q & f & Em & R & Hms & He & Hp & Hf). unfold rt_mq_control. kstep.
  apply (wp_ipc_type _ _ _ flag); [done|]. destruct (cmd =? RT_IPC_CMD_RESET); [|by kstep].
  apply resume_two_wp; [done..|]. intros s1 A.
  assert (k_mqs s1 !! n = Some mq) as Em1 by (by rewrite (kframe_mqs s s1 (ar_frame _ _ _ A))).
  assert (ipc_header s1 (OMq n) RT_Object_Class_MessageQueue flag) as Hh1 by (apply (kframe_header s); [apply A|done|done]).
  kstep. apply (wp_deref _ mq); [done|]. kstep. rewrite <- (at_mq_id s1 n mq Em1). eapply wp_mono.
  { apply (mq_drain_wp q (length (mq_nodes mq)) s1 n mq f x); [|done].
    pose proof (mr_length _ _ _ _ R). destruct (mr_size _ _ _ _ R). lia. }
  intros [] ? (mq' & f' & -> & R' & L & E'). kstep. apply wp_get_mq. kstep. apply wp_set_mq. set (mq2 := set_mq_entry 0 mq').
  kstep. eapply wp_mono; [by apply (reset_schedule_wp (qget s (QMq n) ++ qget s (QMqSender n)) s s1); [exact A|exact Hc|apply kinv_at_mq, A|..]|].
  intros [] s3 (Hk3 & F & Hfail & Hempty). kstep. split; [done|]. split; [done|]. split_and!; [|done|..].
  - apply (mq_ok_frame (at_mq s1 n mq2)); [by apply sched_kframe|]. split; [done|]. exists mq2, [], f'.
    split; [apply lookup_insert_eq|]. split; [by destruct R'|]. split_and!; [by rewrite <- Hms, <- E'|done|done|].
    rewrite L, <- Hp, length_fmap. lia.
  - apply Hempty; [done|]. intros t. rewrite elem_of_app. by left.
  - apply Hempty; [done|]. intros t. rewrite elem_of_app. by right.
Qed.

(** Freeing the pool of a closed queue touches no thread. *)
Lemma all_resumed_mq ts s s1 m : all_resumed ts s s1 -> all_resumed ts (set_k_mqs m s) (set_k_mqs m s1).
Proof.
  intros [[W T] [A2 A2'] A3 A4 A5 A6].
  split; [split; [by apply (wfx_same _ s1)|by apply (tinv_same s1); eauto]| |done|done|done|done].
  split; [|exact A2']. unfold misc, ipc_data in *. kproj. injection A2 as ??????????. congruence.
Qed.

Lemma rt_mq_delete_wp s n :
  kinv s -> k_irq_nest s = 0 -> heap_object s (OMq n) RT_Object_Class_MessageQueue -> is_Some (k_mqs s !! n) ->
  wp (rt_mq_delete n) s (fun r s' => r = RT_EOK /\ ipc_closed (qget s (QMq n) ++ qget s (QMqSender n)) s s' (OMq n)).
Proof.
  intros Hk Hi Hs [mq Em]. unfold rt_mq_delete, RT_DEBUG_NOT_IN_INTERRUPT. kstep. kstep. kstep. apply wp_assert; [by rewrite Hi|].
  apply wp_heap_guard; [done|unfold ipc_class; set_solver|]. apply resume_two_wp; [done..|]. intros s1 A. kstep.
  apply (wp_deref _ mq); [by rewrite (kframe_mqs s s1 (ar_frame _ _ _ A))|]. unfold set_mq. kstep. kstep.
  destruct Hs as (ob & E & Hty). set (m := <[n := _]> _). eapply wp_mono.
  { apply (delete_tail_wp (qget s (QMq n) ++ qget s (QMqSender n)) (set_k_mqs m s) (set_k_mqs m s1) (OMq n) ob); [by apply all_resumed_mq|done|done|by rewrite Hty]. }
  intros r s' [-> C]. split; [done|]. by destruct C; split.
Qed.
