(* ===== verification/IpcObjects.v ===== *)
(** * Lifecycle of the IPC objects (src/ipc.c)

    What the five kinds of object have in common: initialising one gives an
    empty, well-formed object; detaching one wakes every thread that waits for
    it. *)

From S2P Require Import Prelude Ffs KState Wf Inv Sched Object Timer Thread TimerRun Sleep Ipc Sem Mutex Event Mailbox MsgQueue.

(** The message size and the number of slots rt_mq_init derives from its arguments. *)
Definition slot_size (msg_size : Z) : Z := u16 (RT_ALIGN msg_size RT_ALIGN_SIZE).
Definition slot_count (msg_size pool_size : Z) : Z := u16 (pool_size / (slot_size msg_size + 4)).

(** Every thread that waits for an IPC object, to receive or to send. *)
Definition waiters (s : kst) (o : oid) : list nat :=
  match o with
  | OSem n => qget s (QSem n)
  | OMutex n => qget s (QMutex n)
  | OEvent n => qget s (QEvent n)
  | OMailbox n => qget s (QMailbox n) ++ qget s (QMbSender n)
  | OMq n => qget s (QMq n) ++ qget s (QMqSender n)
  | OMp n => qget s (QMp n)
  | OThread _ | OTimer _ | ODevice _ => []
  end.

(** C26: bringing up IPC objects.  The init routine of each kind, called on a
    fresh static object with a FIFO or priority flag, satisfies its assertions,
    keeps the kernel invariant and leaves the object in its initial state: a
    semaphore with its count, a free mutex, an empty event set, an empty mailbox
    and an empty message queue with all slots free, nobody waiting. *)
Theorem ipc_init_correct s n l flag v pool size slots msg_size pool_size :
  chars_ok l -> flag = RT_IPC_FLAG_FIFO \/ flag = RT_IPC_FLAG_PRIO -> 0 <= v < 2 ^ 16 ->
  0 < size < 2 ^ 16 -> size = Z.of_nat (length pool) -> qget s (QMbSender n) = [] -> qget s (QMqSender n) = [] ->
  slot_count msg_size pool_size <= Z.of_nat (length slots) ->
  (forall i m, slots !! i = Some m -> Z.of_nat (length (msg_data m)) = slot_size msg_size) ->
  (fresh_object s (OSem n) RT_Object_Class_Semaphore (QSem n) ->
     wp (rt_sem_init n (cstring l) v flag) s (fun r s' => r = RT_EOK /\ kinv s' /\ sem_ok s' n (ASem v []) flag)) /\
  (fresh_object s (OMutex n) RT_Object_Class_Mutex (QMutex n) ->
     wp (rt_mutex_init n (cstring l) flag) s (fun r s' => r = RT_EOK /\ kinv s' /\ mutex_ok s' n AFree [] flag)) /\
  (fresh_object s (OEvent n) RT_Object_Class_Event (QEvent n) ->
     wp (rt_event_init n (cstring l) flag) s (fun r s' => r = RT_EOK /\ kinv s' /\ event_ok s' n 0 [] flag)) /\
  (fresh_object s (OMailbox n) RT_Object_Class_MailBox (QMailbox n) ->
     wp (rt_mb_init n (cstring l) pool size flag) s (fun r s' => r = RT_EOK /\ kinv s' /\ mb_ok s' n size [] flag)) /\
  (fresh_object s (OMq n) RT_Object_Class_MessageQueue (QMq n) ->
     wp (rt_mq_init n (cstring l) slots msg_size pool_size flag) s (fun r s' => r = RT_EOK /\ kinv s' /\
       mq_ok s' n (slot_size msg_size) [] (Z.to_nat (slot_count msg_size pool_size)) [] flag)).
Proof.
  intros Hl Hf Hv Hs Hp E1 E2 Hm Hd. split_and!; intros H.
  - by apply rt_sem_init_wp.
  - by apply rt_mutex_init_wp.
  - by apply rt_event_init_wp.
  - by apply rt_mb_init_wp.
  - by apply rt_mq_init_wp.
Qed.

Lemma sample_new_sem : fresh_object sample (OSem 4) RT_Object_Class_Semaphore (QSem 4).
Proof.
  split; [exact sample_kinv|done| |done|split_and!; [done|unfold ipc_class; set_solver|done]].
  intros H. destruct (ci_header _ sample_cinv _ _ H) as (ob & l & E & _). vm_compute in E. done.
Qed.

Lemma ipc_init_correct_witness :
  wp (rt_sem_init 4 (cstring [115]) 2 RT_IPC_FLAG_PRIO) sample (fun r s' =>
    r = RT_EOK /\ kinv s' /\ sem_ok s' 4 (ASem 2 []) RT_IPC_FLAG_PRIO).
Proof.
  refine (proj1 (ipc_init_correct sample 4 [115] RT_IPC_FLAG_PRIO 2 [0] 1 [] 4 0 _ _ _ _ _ _ _ _ _) sample_new_sem);
    try done; [repeat constructor; lia|by right].
Defined.

(** C27: closing an IPC object wakes everybody.  The detach routine of each kind,
    on a static object, and the delete routine, on a heap object outside
    interrupts, make every thread that waits for it runnable with error -RT_ERROR,
    leave the other threads alone, unregister the object and make every later call
    on it fail its type assertion; the kernel invariant holds. *)
Theorem ipc_detach_correct s n :
  kinv s ->
  (static_object s (OSem n) RT_Object_Class_Semaphore ->
     wp (rt_sem_detach n) s (fun r s' => r = RT_EOK /\ ipc_closed (waiters s (OSem n)) s s' (OSem n))) /\
  (static_object s (OMutex n) RT_Object_Class_Mutex ->
     wp (rt_mutex_detach n) s (fun r s' => r = RT_EOK /\ ipc_closed (waiters s (OMutex n)) s s' (OMutex n))) /\
  (static_object s (OEvent n) RT_Object_Class_Event ->
     wp (rt_event_detach n) s (fun r s' => r = RT_EOK /\ ipc_closed (waiters s (OEvent n)) s s' (OEvent n))) /\
  (static_object s (OMailbox n) RT_Object_Class_MailBox ->
     wp (rt_mb_detach n) s (fun r s' => r = RT_EOK /\ ipc_closed (waiters s (OMailbox n)) s s' (OMailbox n))) /\
  (static_object s (OMq n) RT_Object_Class_MessageQueue ->
     wp (rt_mq_detach n) s (fun r s' => r = RT_EOK /\ ipc_closed (waiters s (OMq n)) s s' (OMq n))) /\
  (k_irq_nest s = 0 ->
    (heap_object s (OSem n) RT_Object_Class_Semaphore ->
       wp (rt_sem_delete n) s (fun r s' => r = RT_EOK /\ ipc_closed (waiters s (OSem n)) s s' (OSem n))) /\
    (heap_object s (OMutex n) RT_Object_Class_Mutex ->
       wp (rt_mutex_delete n) s (fun r s' => r = RT_EOK /\ ipc_closed (waiters s (OMutex n)) s s' (OMutex n))) /\
    (heap_object s (OEvent n) RT_Object_Class_Event ->
       wp (rt_event_delete n) s (fun r s' => r = RT_EOK /\ ipc_closed (waiters s (OEvent n)) s s' (OEvent n))) /\
    (heap_object s (OMailbox n) RT_Object_Class_MailBox -> is_Some (k_mailboxes s !! n) ->
       wp (rt_mb_delete n) s (fun r s' => r = RT_EOK /\ ipc_closed (waiters s (OMailbox n)) s s' (OMailbox n))) /\
    (heap_object s (OMq n) RT_Object_Class_MessageQueue -> is_Some (k_mqs s !! n) ->
       wp (rt_mq_delete n) s (fun r s' => r = RT_EOK /\ ipc_closed (waiters s (OMq n)) s s' (OMq n)))).
Proof.
  intros Hk. split_and!; [..|intros Hi; split_and!]; intros H.
  - by apply rt_sem_detach_wp.
  - by apply rt_mutex_detach_wp.
  - by apply rt_event_detach_wp.
  - by apply rt_mb_detach_wp.
  - by apply rt_mq_detach_wp.
  - by apply rt_sem_delete_wp.
  - by apply rt_mutex_delete_wp.
  - by apply rt_event_delete_wp.
  - by apply rt_mb_delete_wp.
  - by apply rt_mq_delete_wp.
Qed.

Lemma ipc_detach_correct_witness :
  wp (rt_sem_detach 0) sample (fun r s' => r = RT_EOK /\ ipc_closed [3%nat] sample s' (OSem 0)).
Proof. refine (proj1 (ipc_detach_correct sample 0 sample_kinv) _). eexists. split; [reflexivity|done]. Defined.

(** Resetting an IPC object.  The reset command of semaphores, events,
    mailboxes and message queues wakes every waiting thread with -RT_ERROR and
    leaves the object empty with nobody waiting: the count given (modulo 2^16), no
    events, no mails, and every queued message back in the free list, none lost;
    any other command is refused and changes nothing.  The kernel invariant
    holds. *)
Theorem ipc_reset_correct s n cmd arg :
  kinv s -> is_Some (k_current s) ->
  let done_or_refused (o : oid) (r : Z) (s' : kst) := kinv s' /\
    if cmd =? RT_IPC_CMD_RESET then r = RT_EOK /\ failed s' (waiters s o) /\ waiters s' o = [] else r = - RT_ERROR /\ s' = s in
  let reset (P : Prop) := cmd = RT_IPC_CMD_RESET -> P in
  (forall a flag, sem_ok s n a flag -> wp (rt_sem_control n cmd arg) s (fun r s' =>
     done_or_refused (OSem n) r s' /\ reset (sem_ok s' n (ASem (u16 arg) []) flag))) /\
  (forall v w flag, event_ok s n v w flag -> wp (rt_event_control n cmd) s (fun r s' =>
     done_or_refused (OEvent n) r s' /\ reset (event_ok s' n 0 [] flag))) /\
  (forall size l flag, mb_ok s n size l flag -> wp (rt_mb_control n cmd) s (fun r s' =>
     done_or_refused (OMailbox n) r s' /\ reset (mb_ok s' n size [] flag))) /\
  (forall msize msgs k x flag, mq_ok s n msize msgs k x flag -> wp (rt_mq_control n cmd) s (fun r s' =>
     done_or_refused (OMq n) r s' /\ reset (mq_ok s' n msize [] (length msgs + k) x flag))).
Proof.
  intros Hk Hc post reset. unfold post, reset. cbn [waiters].
  assert (forall P : Prop, (cmd =? RT_IPC_CMD_RESET) = false -> cmd = RT_IPC_CMD_RESET -> P) as Hn by (intros P ?%Z.eqb_neq ?; congruence).
  split_and!.
  - intros a flag H. eapply wp_mono; [by apply (rt_sem_control_wp s n a flag)|]. destruct (cmd =? RT_IPC_CMD_RESET) eqn:Ec; [|by intros r s' (? & ? & ?); split; [|by apply Hn]].
    intros r s' (? & ? & Hok & ?). destruct (sem_ok_value _ _ _ _ H) as [_ ->]. destruct (sem_ok_value _ _ _ _ Hok) as [_ ->]. done.
  - intros v w flag H. eapply wp_mono; [by apply (rt_event_control_wp s n v w flag)|]. destruct (cmd =? RT_IPC_CMD_RESET) eqn:Ec; [|by intros r s' (? & ? & ?); split; [|by apply Hn]].
    intros r s' (? & ? & Hok & ?). by rewrite (eo_waiting _ _ _ _ _ H), (eo_waiting _ _ _ _ _ Hok).
  - intros size l flag H. eapply wp_mono; [by apply (rt_mb_control_wp s n size l flag)|]. destruct (cmd =? RT_IPC_CMD_RESET) eqn:Ec; [|by intros r s' (? & ? & ?); split; [|by apply Hn]].
    intros r s' (? & ? & Hok & ? & -> & ->). done.
  - intros msize msgs k x flag H. eapply wp_mono; [by apply (rt_mq_control_wp s n msize msgs k x flag)|].
    destruct (cmd =? RT_IPC_CMD_RESET) eqn:Ec; [|by intros r s' (? & ? & ?); split; [|by apply Hn]]. intros r s' (? & ? & Hok & ? & -> & ->). done.
Qed.

Lemma ipc_reset_correct_witness :
  wp (rt_mq_control 0 RT_IPC_CMD_RESET) sample_queued (fun r s' =>
    (kinv s' /\ r = RT_EOK /\ failed s' [] /\ waiters s' (OMq 0) = []) /\
    (RT_IPC_CMD_RESET = RT_IPC_CMD_RESET -> mq_ok s' 0 2 [] 2 [] RT_IPC_FLAG_FIFO)).
Proof.
  destruct (ipc_reset_correct sample_queued 0 RT_IPC_CMD_RESET 0 (kinv_at_mq _ _ _ sample_kinv) (mk_is_Some _ _ eq_refl)) as (_ & _ & _ & H).
  exact (H 2 [[8; 9]] 1%nat [] RT_IPC_FLAG_FIFO sample_queued_ok).
Defined.
