(* ===== verification/Errno.v ===== *)
(** * errno (src/kservice.c)

    [rt_get_errno] and [rt_set_errno]: the error field of the running thread, or
    [__rt_errno] in interrupts and before the first thread runs.  A routine that
    uses them has more state than the kernel's; [part] and [put] say where the
    kernel state and [__rt_errno] are in it. *)

From S2P Require Import Prelude Ffs KState Wf Inv Sched Object Timer Thread TimerRun Sleep Ipc.

Section errno.
Context {S : Type} (part : S -> kst) (put : kst -> S -> S) (errno : S -> Z) (put_errno : Z -> S -> S).

Definition rt_get_errno : M S Z :=
  nest <- zoom part put (gets k_irq_nest) ;;
  if negb (nest =? 0) then gets errno
  else
    tid <- zoom part put rt_thread_self ;;
    match tid with
    | None => gets errno
    | Some t => th <- zoom part put (get_thread t) ;; ret (th_error th)
    end.

Definition rt_set_errno (error : Z) : M S unit :=
  nest <- zoom part put (gets k_irq_nest) ;;
  if negb (nest =? 0) then modify (put_errno error)
  else
    tid <- zoom part put rt_thread_self ;;
    match tid with
    | None => modify (put_errno error)
    | Some t => zoom part put (mod_thread t (set_th_error error))
    end.

Hypothesis put_part : forall s, put (part s) s = s.

(** What a running thread sets is its own. *)
Lemma wp_set_errno s c th e (Q : unit -> S -> Prop) :
  caller (part s) c th -> Q tt (put (upd_thread c (set_th_error e th) (part s)) s) -> wp (rt_set_errno e) s Q.
Proof using put_part.
  intros [Hc Ht _ Hi] HQ. unfold rt_set_errno. kstep. apply wp_zoom. kstep. rewrite Hi. cbn [Z.eqb negb]. kstep. apply wp_zoom.
  unfold rt_thread_self. kstep. rewrite put_part, Hc. apply wp_zoom. rewrite put_part. by apply (wp_mod_thread _ _ th).
Qed.
Lemma errno_roundtrip s c th e : (forall k s, part (put k s) = k) -> caller (part s) c th ->
  wp (rt_set_errno e ;; rt_get_errno) s (fun r s' => r = e).
Proof using put_part.
  intros Hpp Hca. kstep. apply (wp_set_errno s c th); [done|]. pose proof (ca_nest _ _ _ Hca) as Hi. pose proof (ca_current _ _ _ Hca) as Hc.
  unfold rt_get_errno. kstep. apply wp_zoom. kstep. rewrite Hpp. kproj. rewrite Hi. cbn [Z.eqb negb]. kstep. apply wp_zoom. unfold rt_thread_self. kstep.
  rewrite !Hpp. kproj. rewrite Hc. kstep. apply wp_zoom. apply (wp_get_thread _ (set_th_error e th)); [rewrite !Hpp; kproj; apply lookup_insert_eq|]. by kstep.
Qed.
End errno.
