(* ===== verification/Mempool.v ===== *)
(** * Memory pools (src/mempool.c)

    A pool is a piece of memory cut into blocks of one size, each behind a word:
    the next free block while the block is free, the address of the pool while it
    is in use.  A thread that finds no free block waits in [QMp n]; it stands
    first in that list.  [pst] is the kernel state with the memory, the control
    blocks of the pools, by address, and [__rt_errno] of kservice.c.

    As for mailboxes, a blocking call loops: [mp_alloc_while] is one pass of the
    loop, and [start] the tick at which the wait began ([before_sleep]). *)

From S2P Require Import Prelude Ffs KState Kservice Wf Inv Sched Object Timer Thread TimerRun Sleep Ipc Errno.

(** struct rt_mempool (the header and suspend_thread are in the kernel state) *)
Record rt_mempool := mkMp {
  mp_start_address : Z;
  mp_size : Z;
  mp_block_size : Z;
  mp_block_list : Z;
  mp_block_total_count : Z;
  mp_block_free_count : Z
}.

Record pst := mkPst { p_k : kst; p_mem : mem; p_pools : gmap nat rt_mempool; p_errno : Z }.
Definition set_p_pools (v : gmap nat rt_mempool) (s : pst) : pst := mkPst (p_k s) (p_mem s) v (p_errno s).
Definition set_p_errno (v : Z) (s : pst) : pst := mkPst (p_k s) (p_mem s) (p_pools s) v.

Definition in_kernel {A} (m : K A) : M pst A := zoom p_k (fun k s => mkPst k (p_mem s) (p_pools s) (p_errno s)) m.
Definition in_mem {A} (m : B A) : M pst A := zoom p_mem (fun x s => mkPst (p_k s) x (p_pools s) (p_errno s)) m.
Definition get_mp (n : nat) : M pst rt_mempool := deref (fun s => p_pools s !! n).
Definition set_mp (n : nat) (mp : rt_mempool) : M pst unit := modify (fun s => set_p_pools (<[n := mp]> (p_pools s)) s).

Definition mp_set_errno : Z -> M pst unit := rt_set_errno p_k (fun k s => mkPst k (p_mem s) (p_pools s) (p_errno s)) set_p_errno.

(** ** Initialising *)

(** The address of block [i]: pointer and size arithmetic of 32 bits. *)
Definition block_at (start block_size i : Z) : Z := u32 (start + u32 (u32 i * u32 (block_size + 4))).

(** The loop that links the free blocks, from block [i] on, [todo] of them. *)
Fixpoint mp_link (start block_size : Z) (todo : nat) (i : Z) : B unit :=
  match todo with
  | O => ret tt
  | S todo =>
      store 4 (block_at start block_size i) (block_at start block_size (i + 1)) ;;
      mp_link start block_size todo (i + 1)
  end.

(** The free list: every block links to the next, the last to RT_NULL. *)
Definition mp_build (start block_size total : Z) : B unit :=
  mp_link start block_size (Z.to_nat total) 0 ;;
  store 4 (block_at start block_size (total - 1)) 0.

Definition rt_mp_init (n : nat) (name : list Z) (start size block_size : Z) : M pst Z :=
  RT_ASSERT (negb (start =? 0)) ;;
  RT_ASSERT ((0 <? size) && (0 <? block_size)) ;;
  in_kernel (rt_object_init (OMp n) RT_Object_Class_MemPool name) ;;
  let size := RT_ALIGN_DOWN size RT_ALIGN_SIZE in
  let block_size := u32 (RT_ALIGN block_size RT_ALIGN_SIZE) in
  valid (negb (u32 (block_size + 4) =? 0)) ;;
  let total := size / u32 (block_size + 4) in
  in_kernel (q_init (QMp n)) ;;
  in_mem (mp_build start block_size total) ;;
  set_mp n (mkMp start size block_size start total total) ;;
  ret RT_EOK.

Definition rt_mp_detach (n : nat) : M pst Z :=
  in_kernel (
    assert_type (OMp n) RT_Object_Class_MemPool ;;
    sys <- rt_object_is_systemobject (OMp n) ;;
    RT_ASSERT sys ;;
    rt_ipc_list_resume_all (QMp n) ;;
    rt_object_detach (OMp n) ;;
    ret RT_EOK).

(** [malloced]: the control block rt_object_allocate got, if it did; [pool]: the
    address rt_malloc returned, 0 if it failed. *)
Definition rt_mp_create (name : list Z) (block_count block_size : Z) (malloced : option nat) (pool : Z) : M pst (option nat) :=
  in_kernel RT_DEBUG_NOT_IN_INTERRUPT ;;
  RT_ASSERT ((0 <? block_count) && (0 <? block_size)) ;;
  o <- in_kernel (rt_object_allocate RT_Object_Class_MemPool name (OMp <$> malloced)) ;;
  match o, malloced with
  | Some _, Some n =>
      let block_size := u32 (RT_ALIGN block_size RT_ALIGN_SIZE) in
      let size := u32 (u32 (block_size + 4) * block_count) in
      if pool =? 0 then
        in_kernel (rt_object_delete (OMp n)) ;;
        ret None
      else
        in_kernel (q_init (QMp n)) ;;
        in_mem (mp_build pool block_size block_count) ;;
        set_mp n (mkMp pool size block_size pool block_count block_count) ;;
        ret (Some n)
  | _, _ => ret None
  end.

(** rt_free of the pool's memory is the heap's part. *)
Definition rt_mp_delete (n : nat) : M pst Z :=
  in_kernel (
    RT_DEBUG_NOT_IN_INTERRUPT ;;
    assert_type (OMp n) RT_Object_Class_MemPool ;;
    sys <- rt_object_is_systemobject (OMp n) ;;
    RT_ASSERT (negb sys) ;;
    rt_ipc_list_resume_all (QMp n) ;;
    rt_object_delete (OMp n) ;;
    ret RT_EOK).

(** ** Allocating and freeing *)

(** The end of rt_mp_alloc: the first free block is taken. *)
Definition mp_take (n : nat) : M pst Z :=
  mp <- get_mp n ;;
  let block_ptr := mp_block_list mp in
  RT_ASSERT (negb (block_ptr =? 0)) ;;
  next <- in_mem (load 4 block_ptr) ;;
  set_mp n (mkMp (mp_start_address mp) (mp_size mp) (mp_block_size mp) next (mp_block_total_count mp) (u32 (mp_block_free_count mp - 1))) ;;
  in_mem (store 4 block_ptr (Z.of_nat n)) ;;
  ret (block_ptr + 4).

Definition mp_alloc_while (n : nat) (self : option nat) (time : Z) : M pst (outcome Z) :=
  mp <- get_mp n ;;
  if mp_block_free_count mp =? 0 then
    if time =? 0 then
      mp_set_errno (- RT_ETIMEOUT) ;;
      ret (Returned 0)
    else
      t <- in_kernel (
        RT_DEBUG_NOT_IN_INTERRUPT ;;
        t <- deref (fun _ => self) ;;
        mod_thread t (set_th_error RT_EOK) ;;
        (rt_thread_suspend t ;; q_prepend (QMp n) t) ;;
        when (0 <? time) (start_thread_timer t time) ;;
        rt_schedule ;;
        ret t) ;;
      ret (Waiting t)
  else
    p <- mp_take n ;;
    ret (Returned p).

Definition rt_mp_alloc_enter (n : nat) (time : Z) : M pst (outcome Z) :=
  self <- in_kernel rt_thread_self ;;
  mp_alloc_while n self time.

Definition rt_mp_alloc_resume (n t : nat) (time start : Z) : M pst (outcome Z) :=
  e <- in_kernel (wait_result t) ;;
  if negb (e =? RT_EOK) then ret (Returned 0)
  else
    now <- in_kernel (gets k_tick) ;;
    mp_alloc_while n (Some t) (remaining_time time start now).

Definition rt_mp_free (block : Z) : M pst unit :=
  if block =? 0 then ret tt else
  let block_ptr := block - 4 in
  a <- in_mem (load 4 block_ptr) ;;
  let n := Z.to_nat a in
  mp <- get_mp n ;;
  in_mem (store 4 block_ptr (mp_block_list mp)) ;;
  set_mp n (mkMp (mp_start_address mp) (mp_size mp) (mp_block_size mp) block_ptr (mp_block_total_count mp) (u32 (mp_block_free_count mp + 1))) ;;
  in_kernel (
    waiting <- q_nonempty (QMp n) ;;
    when waiting
      (t <- q_first (QMp n) ;;
       mod_thread t (set_th_error RT_EOK) ;;
       rt_thread_resume t ;;
       rt_schedule)).

(** ** Words of memory *)

Definition word (m : mem) (a : Z) : option Z := le_value <$> read_bytes m a 4.

Lemma wp_load_word m a v (Q : Z -> mem -> Prop) : word m a = Some v -> Q v m -> wp (load 4 a) m Q.
Proof. intros E HQ. by apply (wp_deref _ v). Qed.
Lemma wp_store_word m a x v (Q : unit -> mem -> Prop) : word m a = Some x -> Q tt (write_bytes a (le_bytes 4 v) m) -> wp (store 4 a v) m Q.
Proof.
  intros E HQ. apply wp_store; [|done]. apply mapped_true. unfold word in E. destruct (read_bytes m a 4); [by eexists|done].
Qed.
Lemma word_write_same m a v : 0 <= v < 2 ^ 32 -> word (write_bytes a (le_bytes 4 v) m) a = Some v.
Proof. intros Hv. unfold word. rewrite read_write_same by apply le_bytes_length. cbn [fmap option_fmap option_map]. rewrite le_value_bytes. f_equal. by apply Z.mod_small. Qed.
Lemma word_write_other m a v b : a + 4 <= b \/ b + 4 <= a -> word (write_bytes a (le_bytes 4 v) m) b = word m b.
Proof. intros Hb. unfold word. rewrite read_write_out; [done|]. rewrite le_bytes_length. lia. Qed.

(** Only the word at [a] changed. *)
Definition only_word (a : Z) (m m' : mem) : Prop := forall b, b < a \/ a + 4 <= b -> m' !! b = m !! b.
Lemma only_word_write a v m : only_word a m (write_bytes a (le_bytes 4 v) m).
Proof. intros b Hb. apply lookup_write_out. rewrite le_bytes_length. lia. Qed.

(** ** Pools *)

Definition blocks (start block_size total : Z) : list Z := (fun i => start + Z.of_nat i * (block_size + 4)) <$> seq 0 (Z.to_nat total).

(** The free list that starts with pointer [p]. *)
Fixpoint chain (m : mem) (p : Z) (l : list Z) : Prop :=
  match l with
  | [] => p = 0
  | b :: l => p = b /\ exists next, word m b = Some next /\ chain m next l
  end.

(** Pool [n] with its free and its used blocks. *)
Record pool_ok (m : mem) (n : nat) (mp : rt_mempool) (free used : list Z) : Prop := {
  po_addr : 0 < Z.of_nat n < 2 ^ 32;
  po_start : 0 < mp_start_address mp;
  po_size : 0 < mp_block_size mp /\ mp_block_size mp `mod` 4 = 0;
  po_end : mp_start_address mp + mp_block_total_count mp * (mp_block_size mp + 4) <= 2 ^ 32;
  po_total : 0 <= mp_block_total_count mp;
  po_blocks : free ++ used ≡ₚ blocks (mp_start_address mp) (mp_block_size mp) (mp_block_total_count mp);
  po_free : chain m (mp_block_list mp) free;
  po_used : forall b, b ∈ used -> word m b = Some (Z.of_nat n);
  po_count : mp_block_free_count mp = Z.of_nat (length free)
}.

Lemma elem_of_blocks start bs total b : b ∈ blocks start bs total <-> exists i, 0 <= i < total /\ b = start + i * (bs + 4).
Proof.
  unfold blocks. rewrite list_elem_of_fmap. setoid_rewrite elem_of_seq. split.
  - intros (i & -> & Hi). exists (Z.of_nat i). lia.
  - intros (i & Hi & ->). exists (Z.to_nat i). rewrite Z2Nat.id by lia. split; [done|lia].
Qed.
Lemma blocks_nodup start bs total : 0 < bs -> NoDup (blocks start bs total).
Proof. intros Hb. apply NoDup_fmap_2; [|apply NoDup_seq]. intros i j E%Z.add_reg_l%Z.mul_reg_r; lia. Qed.
(** Two blocks are apart. *)
Lemma blocks_apart start bs total b c : 0 < bs -> b ∈ blocks start bs total -> c ∈ blocks start bs total -> b <> c -> b + bs + 4 <= c \/ c + bs + 4 <= b.
Proof.
  intros Hb (i & Hi & ->)%elem_of_blocks (j & Hj & ->)%elem_of_blocks Hne.
  assert (i < j \/ j < i) as [?|?] by (destruct (Z.lt_total i j) as [?|[->|?]]; [by left|done|by right]); [left|right]; nia.
Qed.

Section pool.
Context (m : mem) (n : nat) (mp : rt_mempool) (free used : list Z).
Hypothesis (P : pool_ok m n mp free used).

Lemma pool_nodup : NoDup (free ++ used).
Proof using P. rewrite (po_blocks _ _ _ _ _ P). apply blocks_nodup. apply (po_size _ _ _ _ _ P). Qed.
Lemma pool_block b : b ∈ free ++ used -> 0 < b < 2 ^ 32 /\ b <= 2 ^ 32 - 8.
Proof using P.
  rewrite (po_blocks _ _ _ _ _ P). intros (i & Hi & ->)%elem_of_blocks. pose proof (po_start _ _ _ _ _ P). destruct (po_size _ _ _ _ _ P).
  pose proof (po_end _ _ _ _ _ P). assert ((i + 1) * (mp_block_size mp + 4) <= mp_block_total_count mp * (mp_block_size mp + 4)) by nia.
  assert (mp_block_size mp `mod` 4 = 0 -> 4 <= mp_block_size mp) by (Z.div_mod_to_equations; lia). nia.
Qed.
Lemma pool_apart b c : b ∈ free ++ used -> c ∈ free ++ used -> b <> c -> b + 4 <= c \/ c + 4 <= b.
Proof using P.
  rewrite (po_blocks _ _ _ _ _ P). intros Hb Hc Hne. destruct (po_size _ _ _ _ _ P) as [Hs _].
  destruct (blocks_apart _ _ _ b c Hs Hb Hc Hne); lia.
Qed.
End pool.

(** A store into the word of a block that is not in the list. *)
Lemma chain_write m p l a v : (forall b, b ∈ l -> a + 4 <= b \/ b + 4 <= a) -> chain m p l -> chain (write_bytes a (le_bytes 4 v) m) p l.
Proof.
  revert p. induction l as [|b l IH]; intros p Ha; cbn [chain]; [done|]. intros (-> & next & E & Hc). split; [done|]. exists next.
  split; [rewrite word_write_other; [done|apply Ha; left]|]. apply IH; [|done]. intros c Hc'. apply Ha. by right.
Qed.

(** ** Allocating *)

Lemma wp_in_kernel {A} (c : K A) s (Q : A -> pst -> Prop) :
  wp c (p_k s) (fun a k => Q a (mkPst k (p_mem s) (p_pools s) (p_errno s))) -> wp (in_kernel c) s Q.
Proof. intros H. by apply wp_zoom. Qed.
Lemma wp_in_mem {A} (c : B A) s (Q : A -> pst -> Prop) :
  wp c (p_mem s) (fun a m => Q a (mkPst (p_k s) m (p_pools s) (p_errno s))) -> wp (in_mem c) s Q.
Proof. intros H. by apply wp_zoom. Qed.
Lemma wp_get_mp n mp s (Q : rt_mempool -> pst -> Prop) : p_pools s !! n = Some mp -> Q mp s -> wp (get_mp n) s Q.
Proof. intros E HQ. by apply (wp_deref _ mp). Qed.

(** The first free block is handed out. *)
Lemma mp_take_wp s n mp b free used :
  p_pools s !! n = Some mp -> pool_ok (p_mem s) n mp (b :: free) used ->
  wp (mp_take n) s (fun r s' => r = b + 4 /\ p_k s' = p_k s /\ only_word b (p_mem s) (p_mem s') /\
    exists mp', p_pools s' = <[n := mp']> (p_pools s) /\ pool_ok (p_mem s') n mp' free (b :: used)).
Proof.
  intros Hn P. pose proof (pool_block _ _ _ _ _ P b ltac:(cbn; set_solver)) as [Hb _]. pose proof (pool_nodup _ _ _ _ _ P) as Hnd.
  destruct (po_free _ _ _ _ _ P) as (Ep & next & En & Hc). unfold mp_take. kstep. apply (wp_get_mp n mp); [done|]. rewrite Ep.
  kstep. apply wp_assert; [by apply negb_true_iff, Z.eqb_neq; lia|]. kstep. apply wp_in_mem. apply (wp_load_word _ _ next); [done|].
  kstep. apply wp_modify. kstep. apply wp_in_mem. apply (wp_store_word _ _ next); [done|]. kstep. cbn [p_k p_mem p_pools p_errno set_p_pools].
  split; [done|]. split; [done|]. split; [apply only_word_write|]. eexists. split; [done|].
  assert (forall c, c ∈ free ++ used -> b + 4 <= c \/ c + 4 <= b) as Hap.
  { intros c Hc'. cbn [app] in Hnd. apply NoDup_cons in Hnd as [Hnb _].
    apply (pool_apart _ _ _ _ _ P); [cbn; set_solver|cbn; set_solver|]. by intros ->. }
  destruct P as [P1 P2 P3 P4 P5 P6 P7 P8 P9]. split; cbn [mp_start_address mp_block_size mp_block_total_count mp_block_list mp_block_free_count]; try done.
  - rewrite <- P6. by rewrite <- Permutation_middle.
  - apply chain_write; [|done]. intros c Hc'. apply Hap. set_solver.
  - intros c [->|Hc']%elem_of_cons; [apply word_write_same; lia|]. rewrite word_write_other; [by apply P8|]. apply Hap. set_solver.
  - rewrite P9. cbn [length]. assert (Z.of_nat (length free) < 2 ^ 32).
    { assert (length (b :: free ++ used) = Z.to_nat (mp_block_total_count mp)) as El by (change (b :: free ++ used) with ((b :: free) ++ used); rewrite P6; unfold blocks; by rewrite length_fmap, length_seq).
      cbn in El. rewrite length_app in El. nia. }
    rewrite u32_small; lia.
Qed.

(** What rt_mp_alloc does: the first free block, or RT_NULL with errno set, or
    the caller waits, before everybody else. *)
Definition mp_allocated (s : pst) (n : nat) (free used : list Z) (c : nat) (th : rt_thread) (time : Z) (r : outcome Z) (s' : pst) : Prop :=
  match free with
  | b :: free' => r = Returned (b + 4) /\ p_k s' = p_k s /\ only_word b (p_mem s) (p_mem s') /\
      exists mp', p_pools s' = <[n := mp']> (p_pools s) /\ pool_ok (p_mem s') n mp' free' (b :: used)
  | [] => p_mem s' = p_mem s /\ p_pools s' = p_pools s /\
      if time =? 0 then r = Returned 0 /\ p_k s' = upd_thread c (set_th_error (- RT_ETIMEOUT) th) (p_k s)
      else r = Waiting c /\ blocked_at (p_k s) (p_k s') (QMp n) (c :: qget (p_k s) (QMp n)) c (set_th_error RT_EOK th) time
  end.

Lemma mp_alloc_while_wp s n mp free used c th time :
  kinv (p_k s) -> caller (p_k s) c th -> p_pools s !! n = Some mp -> pool_ok (p_mem s) n mp free used -> time < TICK_HALF ->
  wp (mp_alloc_while n (Some c) time) s (fun r s' => kinv (p_k s') /\ mp_allocated s n free used c th time r s').
Proof.
  intros Hk Hca Hn P Hmax. unfold mp_alloc_while. kstep. apply (wp_get_mp n mp); [done|]. rewrite (po_count _ _ _ _ _ P). destruct free as [|b free].
  - change (Z.of_nat (length (@nil Z)) =? 0) with true. cbv iota. unfold mp_allocated. destruct (Z.eqb_spec time 0) as [->|Htime].
    + kstep. eapply wp_set_errno; [by intros []|done|]. kstep. cbn [p_k p_mem p_pools]. split; [|done].
      apply (kinv_upd_same _ c th); [done|apply Hca|by split_and!].
    + kstep. apply wp_in_kernel. kstep. unfold RT_DEBUG_NOT_IN_INTERRUPT. kstep. kstep. apply wp_assert; [by rewrite (ca_nest _ _ _ Hca)|].
      kstep. apply (wp_deref _ c); [done|]. kstep. apply (wp_mod_thread _ _ th); [apply Hca|].
      apply (block_link_upd_wp (p_k s) (QMp n) c th _ time (c :: qget (p_k s) (QMp n))); [done|done|by split_and!|done|done|by left|].
      intros k' Bl. kstep. kstep. cbn [p_k p_mem p_pools]. split; [apply Bl|done].
  - rewrite (proj2 (Z.eqb_neq _ _)) by (cbn; lia). kstep. eapply wp_mono; [by apply (mp_take_wp s n mp b free used)|].
    intros r s' (-> & E & Ho & HP). kstep. split; [by rewrite E|done].
Qed.

(** Rt_mp_alloc.  With a free block, the call returns the first one, the pool
    has it in use, and no byte but its header word changed; no other block is
    handed out twice.  Without one, a call that does not wait returns RT_NULL and
    sets errno to -RT_ETIMEOUT, and a call that waits suspends the caller before
    all threads that already wait, with its timer running if the time is
    limited. *)
Theorem rt_mp_alloc_correct s n mp free used c th time :
  kinv (p_k s) -> caller (p_k s) c th -> p_pools s !! n = Some mp -> pool_ok (p_mem s) n mp free used -> time < TICK_HALF ->
  exists r s', rt_mp_alloc_enter n time s = Ok r s' /\ kinv (p_k s') /\ NoDup (free ++ used) /\ mp_allocated s n free used c th time r s'.
Proof.
  intros Hk Hca Hn P Hmax. enough (wp (rt_mp_alloc_enter n time) s (fun r s' => kinv (p_k s') /\ mp_allocated s n free used c th time r s')) as Hwp.
  { destruct (wp_run _ _ _ Hwp) as (r & s' & E & Hk' & HA). exists r, s'. split_and!; [done|done|by eapply pool_nodup|done]. }
  unfold rt_mp_alloc_enter. kstep. apply wp_in_kernel. unfold rt_thread_self. kstep. rewrite (ca_current _ _ _ Hca).
  destruct s as [k m ps e]. by apply (mp_alloc_while_wp _ n mp).
Qed.

(** A thread that was woken.  If its wait ended with an error (time out,
    pool closed), rt_mp_alloc returns RT_NULL.  Otherwise it looks again with the
    time that is left: it takes a block, gives up, or waits again, before
    everybody else. *)
Theorem rt_mp_alloc_again s n mp free used c th time start :
  kinv (p_k s) -> caller (p_k s) c th -> p_pools s !! n = Some mp -> pool_ok (p_mem s) n mp free used ->
  time < TICK_HALF -> u32 (k_tick (p_k s) - start) < TICK_HALF ->
  exists r s', rt_mp_alloc_resume n c time start s = Ok r s' /\ kinv (p_k s') /\
    if th_error th =? RT_EOK then
      mp_allocated s n free used c th (if 0 <? time then Z.max 0 (time - u32 (k_tick (p_k s) - start)) else time) r s'
    else r = Returned 0 /\ s' = s.
Proof.
  intros Hk Hca Hn P Hmax Hel. set (left := if 0 <? time then _ else _).
  assert (remaining_time time start (k_tick (p_k s)) = left /\ left < TICK_HALF) as [El Hleft].
  { pose proof (u32_range (k_tick (p_k s) - start)). unfold remaining_time, left. rewrite TICK_HALF_val in *. destruct (Z.ltb_spec 0 time); [|lia].
    rewrite i32_small by lia. destruct (Z.ltb_spec (time - u32 (k_tick (p_k s) - start)) 0); lia. }
  enough (wp (rt_mp_alloc_resume n c time start) s (fun r s' => kinv (p_k s') /\
    if th_error th =? RT_EOK then mp_allocated s n free used c th left r s' else r = Returned 0 /\ s' = s)) as Hwp.
  { destruct (wp_run _ _ _ Hwp) as (r & s' & E & Hk' & HA). by exists r, s'. }
  destruct s as [k m ps en]. cbn [p_k p_mem p_pools] in *. unfold rt_mp_alloc_resume, wait_result. kstep. apply wp_in_kernel. kstep.
  apply (wp_get_thread _ th); [apply Hca|]. kstep. destruct (th_error th =? RT_EOK); cbn [negb]; [|by kstep].
  kstep. apply wp_in_kernel. kstep. cbn [p_k p_mem p_pools p_errno]. rewrite El. by apply (mp_alloc_while_wp (mkPst k m ps en) n mp).
Qed.

(** ** Freeing *)

(** A block in use becomes the first free one. *)
Lemma pool_give m n mp free used b used' :
  pool_ok m n mp free used -> used ≡ₚ b :: used' ->
  pool_ok (write_bytes b (le_bytes 4 (mp_block_list mp)) m) n
    (mkMp (mp_start_address mp) (mp_size mp) (mp_block_size mp) b (mp_block_total_count mp) (u32 (mp_block_free_count mp + 1))) (b :: free) used'.
Proof.
  intros P Hu. pose proof (pool_nodup _ _ _ _ _ P) as Hnd. rewrite Hu, <- Permutation_middle in Hnd. apply NoDup_cons in Hnd as [Hnb _].
  assert (forall x, x ∈ free ++ used' -> b + 4 <= x \/ x + 4 <= b) as Hap.
  { intros x Hx. apply (pool_apart _ _ _ _ _ P); [rewrite Hu; set_solver|rewrite Hu; set_solver|]. by intros <-. }
  assert (0 <= mp_block_list mp < 2 ^ 32) as Hbl.
  { pose proof (po_free _ _ _ _ _ P) as Hf. destruct free as [|x free]; [cbn in Hf; lia|]. destruct Hf as [-> _].
    pose proof (pool_block _ _ _ _ _ P x ltac:(cbn; set_solver)). lia. }
  assert (Z.of_nat (length free) + 1 < 2 ^ 32) as Hlen.
  { pose proof (po_blocks _ _ _ _ _ P) as Hbs. apply Permutation_length in Hbs. unfold blocks in Hbs. rewrite length_fmap, length_seq, length_app, Hu in Hbs. cbn in Hbs.
    pose proof (po_end _ _ _ _ _ P). pose proof (po_start _ _ _ _ _ P). pose proof (po_total _ _ _ _ _ P). destruct (po_size _ _ _ _ _ P). nia. }
  destruct P as [P1 P2 P3 P4 P5 P6 P7 P8 P9]. split; cbn [mp_start_address mp_block_size mp_block_total_count mp_block_list mp_block_free_count]; try done.
  - rewrite <- P6, Hu. cbn [app]. by rewrite Permutation_middle.
  - cbn [chain]. split; [done|]. exists (mp_block_list mp). split; [by apply word_write_same|]. apply chain_write; [|done]. set_solver.
  - intros x Hx. rewrite word_write_other by (apply Hap; set_solver). apply P8. rewrite Hu. by right.
  - rewrite P9. rewrite u32_small by lia. cbn [length]. lia.
Qed.

(** Rt_mp_free.  A block in use goes back to the front of the free list of
    the pool whose address its header holds; no byte but its header word changed.
    If threads wait, the one that went to wait last is woken, with error RT_EOK;
    the kernel invariant holds.  RT_NULL is accepted and does nothing. *)
Theorem rt_mp_free_correct s n mp free used b used' :
  kinv (p_k s) -> is_Some (k_current (p_k s)) -> p_pools s !! n = Some mp -> pool_ok (p_mem s) n mp free used -> used ≡ₚ b :: used' ->
  rt_mp_free 0 s = Ok tt s /\
  exists s', rt_mp_free (b + 4) s = Ok tt s' /\ kinv (p_k s') /\ only_word b (p_mem s) (p_mem s') /\
    (exists mp', p_pools s' = <[n := mp']> (p_pools s) /\ pool_ok (p_mem s') n mp' (b :: free) used') /\
    match qget (p_k s) (QMp n) with
    | [] => p_k s' = p_k s
    | t :: _ => exists th, k_threads (p_k s) !! t = Some th /\ woken_post (upd_thread t (set_th_error RT_EOK th) (p_k s)) (p_k s') (QMp n) t
    end.
Proof.
  intros Hk Hc Hn P Hu. split; [done|]. pose proof (pool_block _ _ _ _ _ P b ltac:(rewrite Hu; set_solver)) as [Hb _].
  set (m' := write_bytes b (le_bytes 4 (mp_block_list mp)) (p_mem s)).
  set (mp' := mkMp (mp_start_address mp) (mp_size mp) (mp_block_size mp) b (mp_block_total_count mp) (u32 (mp_block_free_count mp + 1))).
  pose proof (pool_give _ _ _ _ _ b used' P Hu) as P'. fold mp' m' in P'. pose proof (po_used _ _ _ _ _ P b ltac:(rewrite Hu; left)) as Ew.
  enough (wp (rt_mp_free (b + 4)) s (fun _ s' => kinv (p_k s') /\ p_mem s' = m' /\ p_pools s' = <[n := mp']> (p_pools s) /\
    match qget (p_k s) (QMp n) with
    | [] => p_k s' = p_k s
    | t :: _ => exists th, k_threads (p_k s) !! t = Some th /\ woken_post (upd_thread t (set_th_error RT_EOK th) (p_k s)) (p_k s') (QMp n) t
    end)) as Hwp.
  { destruct (wp_run _ _ _ Hwp) as ([] & s' & E & Hk' & E1 & E2 & Hw). exists s'. rewrite E1, E2. split_and!; [done|done|apply only_word_write|by exists mp'|done]. }
  unfold rt_mp_free. rewrite (proj2 (Z.eqb_neq _ _)) by lia. replace (b + 4 - 4) with b by lia.
  kstep. apply wp_in_mem. apply (wp_load_word _ _ (Z.of_nat n)); [done|]. rewrite Nat2Z.id. kstep. apply (wp_get_mp n mp); [done|].
  kstep. apply wp_in_mem. apply (wp_store_word _ _ (Z.of_nat n)); [done|]. kstep. apply wp_modify. apply wp_in_kernel. cbn [p_k p_mem p_pools set_p_pools].
  kstep. apply wp_q_nonempty. destruct (qget (p_k s) (QMp n)) as [|t l] eqn:El.
  - rewrite bool_decide_true by done. cbn [negb when]. by kstep.
  - rewrite bool_decide_false by done. cbn [negb when]. kstep. apply (wp_q_first _ t l); [done|].
    destruct (wf_place (proj1 Hk) (QMp n) t ltac:(rewrite El; left)) as (th & Ht & _). kstep. apply (wp_mod_thread _ _ th); [done|].
    apply (resume_known_wp _ (QMp n) t l); [done|].
    apply (resume_first_wp _ (QMp n) t l); [apply (kinv_upd_same _ t th); [done|done|by split_and!]|done|done|done|]. intros s1 W1 _ Ec.
    eapply wp_mono; [apply rt_schedule_kinv; [apply W1|by rewrite Ec]|]. intros [] s2 (Hk2 & F & Hc2). split; [done|]. split; [done|]. split; [done|].
    exists th. split; [done|]. by eapply woken_post_sched.
Qed.

(** ** Initialising *)

Lemma block_at_small start bs i : 0 <= start -> 0 <= bs -> bs + 4 < 2 ^ 32 -> 0 <= i -> start + i * (bs + 4) < 2 ^ 32 -> block_at start bs i = start + i * (bs + 4).
Proof.
  intros H1 H2 H3 H4 H5. unfold block_at. rewrite (u32_small (bs + 4)) by lia. assert (i < 2 ^ 32) by nia.
  rewrite (u32_small i) by lia. rewrite (u32_small (i * (bs + 4))) by nia. apply u32_small. nia.
Qed.

(** The blocks from [i] to [total] are linked, the last one to the block behind it. *)
Lemma mp_link_wp start bs total todo : forall m i,
  0 < start -> 0 < bs -> start + total * (bs + 4) < 2 ^ 32 -> 0 <= i -> i + Z.of_nat todo = total ->
  (forall j, i <= j < total -> is_Some (word m (start + j * (bs + 4)))) ->
  wp (mp_link start bs todo i) m (fun _ m' =>
    (forall j, i <= j < total -> word m' (start + j * (bs + 4)) = Some (start + (j + 1) * (bs + 4))) /\
    (forall a, (forall j, i <= j < total -> a < start + j * (bs + 4) \/ start + j * (bs + 4) + 4 <= a) -> m' !! a = m !! a)).
Proof.
  induction todo as [|todo IH]; intros m i Hs Hb Hend Hi Ht Hw; cbn [mp_link].
  - kstep. split; [lia|done].
  - assert ((i + 1) * (bs + 4) <= total * (bs + 4)) by nia. assert (bs + 4 < 2 ^ 32) by nia.
    rewrite !block_at_small by nia.
    destruct (Hw i ltac:(lia)) as [x Ex]. kstep. apply (wp_store_word _ _ x); [done|].
    set (m1 := write_bytes _ _ m). assert (forall j, i < j < total -> word m1 (start + j * (bs + 4)) = word m (start + j * (bs + 4))) as E1.
    { intros j Hj. apply word_write_other. left. nia. }
    eapply wp_mono; [apply (IH m1 (i + 1)); try lia|].
    + intros j Hj. rewrite E1 by lia. apply Hw. lia.
    + intros [] m' [H1 H2]. split.
      * intros j Hj. destruct (decide (j = i)) as [->|Hne]; [|apply H1; lia].
        assert (word m' (start + i * (bs + 4)) = word m1 (start + i * (bs + 4))) as ->.
        { unfold word. f_equal. apply read_bytes_frame. intros k Hk. apply H2. intros j' Hj'. left.
          assert ((i + 1) * (bs + 4) <= j' * (bs + 4)) by nia. lia. }
        apply word_write_same. nia.
      * intros a Ha. rewrite H2 by (intros j Hj; apply Ha; lia). apply lookup_write_out. rewrite le_bytes_length. specialize (Ha i ltac:(lia)). lia.
Qed.

Lemma chain_blocks m start bs (k : nat) : forall i : nat, (0 < k)%nat ->
  (forall j : nat, (i <= j)%nat -> (j + 1 < i + k)%nat -> word m (start + Z.of_nat j * (bs + 4)) = Some (start + Z.of_nat (S j) * (bs + 4))) ->
  word m (start + Z.of_nat (i + k - 1) * (bs + 4)) = Some 0 ->
  chain m (start + Z.of_nat i * (bs + 4)) ((fun j => start + Z.of_nat j * (bs + 4)) <$> seq i k).
Proof.
  induction k as [|k IH]; intros i Hk Hw Hl; [lia|]. cbn [seq fmap list_fmap chain]. split; [done|]. destruct k as [|k].
  - exists 0. replace (i + 1 - 1)%nat with i in Hl by lia. done.
  - exists (start + Z.of_nat (S i) * (bs + 4)). split; [apply Hw; lia|]. apply IH; [lia| |].
    + intros j Hj1 Hj2. apply Hw; lia.
    + by replace (S i + S k - 1)%nat with (i + S (S k) - 1)%nat by lia.
Qed.

Lemma mp_build_wp m start bs total :
  0 < start -> 0 < bs -> 0 < total -> start + total * (bs + 4) < 2 ^ 32 -> mapped m start (Z.to_nat (total * (bs + 4))) = true ->
  wp (mp_build start bs total) m (fun _ m' => chain m' start (blocks start bs total) /\
    forall a, (forall b, b ∈ blocks start bs total -> a < b \/ b + 4 <= a) -> m' !! a = m !! a).
Proof.
  intros Hs Hb Ht Hend Hm. unfold mp_build.
  assert (forall j, 0 <= j < total -> is_Some (word m (start + j * (bs + 4)))) as Hw.
  { intros j Hj. pose proof (mapped_sub _ _ _ (Z.to_nat (j * (bs + 4))) 4 Hm) as Hsub. rewrite Z2Nat.id in Hsub by nia.
    unfold word. destruct (proj1 (mapped_true _ _ _) (Hsub ltac:(nia))) as [l ->]. by eexists. }
  kstep. eapply wp_mono; [apply (mp_link_wp start bs total); (done || lia)|]. intros [] m1 [H1 H2].
  assert ((total - 1) * (bs + 4) < total * (bs + 4)) by nia. rewrite block_at_small by nia.
  apply (wp_store_word _ _ (start + (total - 1 + 1) * (bs + 4))); [apply H1; lia|]. set (m2 := write_bytes _ _ m1). split.
  - replace start with (start + Z.of_nat 0 * (bs + 4)) at 1 by lia. apply (chain_blocks m2 start bs (Z.to_nat total) 0); [lia| |].
    + intros j _ Hj. unfold m2. rewrite word_write_other by (right; nia). rewrite H1 by lia. f_equal. lia.
    + replace (Z.of_nat (0 + Z.to_nat total - 1)) with (total - 1) by lia. by apply word_write_same.
  - intros a Ha. unfold m2. rewrite lookup_write_out.
    + apply H2. intros j Hj. apply Ha, elem_of_blocks. by exists j.
    + rewrite le_bytes_length. assert (start + (total - 1) * (bs + 4) ∈ blocks start bs total) as Hin by (apply elem_of_blocks; exists (total - 1); lia).
      specialize (Ha _ Hin). lia.
Qed.

(** rt_mp_init up to the building of the free list. *)
Lemma rt_mp_init_enter s n l start size block_size (Q : Z -> pst -> Prop) :
  let bs := RT_ALIGN block_size RT_ALIGN_SIZE in let sz := RT_ALIGN_DOWN size RT_ALIGN_SIZE in let total := sz / (bs + 4) in
  fresh_object (p_k s) (OMp n) RT_Object_Class_MemPool (QMp n) -> chars_ok l ->
  0 < start -> 0 < size -> 0 < block_size -> bs + 4 < 2 ^ 32 ->
  (forall k', kinv k' -> qget k' (QMp n) = [] -> wp (mp_build start bs total) (p_mem s) (fun _ m' =>
     Q RT_EOK (mkPst k' m' (<[n := mkMp start sz bs start total total]> (p_pools s)) (p_errno s)))) ->
  wp (rt_mp_init n (cstring l) start size block_size) s Q.
Proof.
  intros bs sz total Hf Hl Hs Hz Hb Hbs HQ. pose proof (align_spec block_size 2 ltac:(lia)) as Ebs. change (2 ^ 2) with RT_ALIGN_SIZE in Ebs. fold bs in Ebs.
  assert (0 < bs) as Hb0 by (rewrite Ebs; change RT_ALIGN_SIZE with 4; Z.div_mod_to_equations; lia).
  unfold rt_mp_init. kstep. apply wp_assert; [by apply negb_true_iff, Z.eqb_neq; lia|]. kstep.
  apply wp_assert; [by rewrite (proj2 (Z.ltb_lt _ _)), (proj2 (Z.ltb_lt _ _)) by lia|]. kstep. apply wp_in_kernel.
  apply wp_end, (init_object_wp _ _ _ (QMp n)); [done|done|]. intros k1 Hk1 Eq _ _. kstep.
  fold bs. fold sz. rewrite (u32_small bs), (u32_small (bs + 4)) by lia. fold total.
  kstep. apply wp_valid; [by apply negb_true_iff, Z.eqb_neq; lia|]. kstep. apply wp_in_kernel. apply wp_modify. cbn [p_k p_mem p_pools p_errno].
  kstep. apply wp_in_mem. cbn [p_k p_mem p_pools p_errno]. eapply wp_mono; [apply (HQ (upd_queue (QMp n) [] k1))|].
  - apply (kinv_q_init k1); [done|]. rewrite Eq by done. apply Hf.
  - unfold qget. kproj. by rewrite lookup_insert_eq.
  - intros [] m' HQ'. kstep. apply wp_modify. kstep. exact HQ'.
Qed.

(** Rt_mp_init.  In a piece of memory large enough for a block, the pool has
    as many blocks as fit, all free, each of at least the size asked for and at a
    multiple of four from the start; nobody waits, the header is registered and
    the kernel invariant holds.  Only header words of the blocks are written. *)
Theorem rt_mp_init_correct s n l start size block_size :
  let bs := RT_ALIGN block_size RT_ALIGN_SIZE in let total := RT_ALIGN_DOWN size RT_ALIGN_SIZE / (bs + 4) in
  fresh_object (p_k s) (OMp n) RT_Object_Class_MemPool (QMp n) -> chars_ok l -> 0 < Z.of_nat n < 2 ^ 32 ->
  0 < start -> 0 < block_size -> bs + 4 < 2 ^ 32 -> bs + 4 <= RT_ALIGN_DOWN size RT_ALIGN_SIZE -> start + size < 2 ^ 32 ->
  mapped (p_mem s) start (Z.to_nat size) = true ->
  exists s' mp, rt_mp_init n (cstring l) start size block_size s = Ok RT_EOK s' /\ kinv (p_k s') /\ qget (p_k s') (QMp n) = [] /\
    p_pools s' = <[n := mp]> (p_pools s) /\ pool_ok (p_mem s') n mp (blocks start bs total) [] /\ 0 < total /\ block_size <= bs /\
    (forall a, (forall b, b ∈ blocks start bs total -> a < b \/ b + 4 <= a) -> p_mem s' !! a = p_mem s !! a).
Proof.
  intros bs total Hf Hl Hn Hs Hb Hbs Hfit Hend Hm. set (sz := RT_ALIGN_DOWN size RT_ALIGN_SIZE) in *.
  assert (bs = block_size + 3 - (block_size + 3) `mod` 4) as Ebs by (unfold bs; change RT_ALIGN_SIZE with (2 ^ 2); rewrite align_spec by lia; done).
  assert (sz = size - size `mod` 4) as Esz by (unfold sz; change RT_ALIGN_SIZE with (2 ^ 2); rewrite align_down_spec by lia; done).
  assert (block_size <= bs /\ bs `mod` 4 = 0) as [Hbs1 Hbs4] by (rewrite Ebs; Z.div_mod_to_equations; lia).
  assert (sz <= size) as Hsz by (rewrite Esz; Z.div_mod_to_equations; lia).
  assert (0 < total) as Htot by (apply Z.div_str_pos; lia). assert (total * (bs + 4) <= sz) as Htb by (unfold total; rewrite Z.mul_comm; apply Z.mul_div_le; lia).
  enough (wp (rt_mp_init n (cstring l) start size block_size) s (fun r s' => r = RT_EOK /\ kinv (p_k s') /\ qget (p_k s') (QMp n) = [] /\
    p_pools s' = <[n := mkMp start sz bs start total total]> (p_pools s) /\ chain (p_mem s') start (blocks start bs total) /\
    (forall a, (forall b, b ∈ blocks start bs total -> a < b \/ b + 4 <= a) -> p_mem s' !! a = p_mem s !! a))) as Hwp.
  { destruct (wp_run _ _ _ Hwp) as (r & s' & E & -> & H1 & H2 & H3 & H4 & H5). eexists s', _. split_and!; [done|done|done|exact H3| |done|done|done].
    split; cbn [mp_start_address mp_block_size mp_block_total_count mp_block_list mp_block_free_count]; try done; [lia..|by rewrite app_nil_r|by intros ? ?%elem_of_nil|].
    unfold blocks. rewrite length_fmap, length_seq. lia. }
  apply rt_mp_init_enter; try (done || lia). intros k' Hk' Eq. fold bs. fold sz. fold total.
  eapply wp_mono; [apply (mp_build_wp (p_mem s) start bs total); [lia|lia|lia|lia|]|].
  { rewrite <- (Z.add_0_r start). change 0 with (Z.of_nat 0). eapply mapped_sub; [exact Hm|lia]. }
  intros [] m' [Hc Hm']. by cbn [p_k p_mem p_pools].
Qed.

(** A piece of memory too small for one block.  rt_mp_init accepts it, and
    the store that ends the free list clears the word one block in front of the
    memory it was given. *)
Theorem rt_mp_init_too_small s n l start size block_size :
  let bs := RT_ALIGN block_size RT_ALIGN_SIZE in
  fresh_object (p_k s) (OMp n) RT_Object_Class_MemPool (QMp n) -> chars_ok l ->
  0 < size -> 0 < block_size -> RT_ALIGN_DOWN size RT_ALIGN_SIZE < bs + 4 -> bs + 4 < start < 2 ^ 32 ->
  is_Some (word (p_mem s) (start - (bs + 4))) ->
  exists s', rt_mp_init n (cstring l) start size block_size s = Ok RT_EOK s' /\
    p_mem s' = write_bytes (start - (bs + 4)) (le_bytes 4 0) (p_mem s).
Proof.
  intros bs Hf Hl Hz Hb Hsz Hs [x Hx].
  assert (bs = block_size + 3 - (block_size + 3) `mod` 4) as Ebs by (unfold bs; change RT_ALIGN_SIZE with (2 ^ 2); rewrite align_spec by lia; done).
  assert (RT_ALIGN_DOWN size RT_ALIGN_SIZE = size - size `mod` 4) as Esz by (change RT_ALIGN_SIZE with (2 ^ 2); rewrite align_down_spec by lia; done).
  assert (0 < bs /\ 0 <= RT_ALIGN_DOWN size RT_ALIGN_SIZE) as [Hb0 Hz0] by (rewrite Ebs, Esz; Z.div_mod_to_equations; lia).
  enough (wp (rt_mp_init n (cstring l) start size block_size) s (fun r s' => r = RT_EOK /\ p_mem s' = write_bytes (start - (bs + 4)) (le_bytes 4 0) (p_mem s))) as Hwp.
  { destruct (wp_run _ _ _ Hwp) as (r & s' & E & -> & Em). by exists s'. }
  apply rt_mp_init_enter; try (done || lia). intros k' Hk' Eq. fold bs. rewrite (Z.div_small (RT_ALIGN_DOWN size RT_ALIGN_SIZE)) by lia.
  unfold mp_build. change (mp_link start bs (Z.to_nat 0) 0) with (ret tt : B unit). kstep. kstep. cbn [p_mem].
  assert (block_at start bs (0 - 1) = start - (bs + 4)) as ->; [|by apply (wp_store_word _ _ x)].
  unfold block_at. rewrite (u32_small (bs + 4)) by lia. change (u32 (0 - 1)) with (2 ^ 32 - 1). unfold u32.
  replace ((2 ^ 32 - 1) * (bs + 4)) with (2 ^ 32 - (bs + 4) + (bs + 3) * 2 ^ 32) by lia. rewrite Z.mod_add, (Z.mod_small (2 ^ 32 - (bs + 4))) by lia.
  replace (start + (2 ^ 32 - (bs + 4))) with (start - (bs + 4) + 1 * 2 ^ 32) by lia. rewrite Z.mod_add, Z.mod_small by lia. done.
Qed.

(** ** Closing *)

(** Detaching a static pool, or deleting one from the heap, wakes every thread
    that waits for a block with -RT_ERROR and unregisters the pool. *)
Theorem mp_close_correct s n :
  kinv (p_k s) ->
  (static_object (p_k s) (OMp n) RT_Object_Class_MemPool -> exists s', rt_mp_detach n s = Ok RT_EOK s' /\
     ipc_closed (qget (p_k s) (QMp n)) (p_k s) (p_k s') (OMp n) /\ p_mem s' = p_mem s) /\
  (k_irq_nest (p_k s) = 0 -> heap_object (p_k s) (OMp n) RT_Object_Class_MemPool -> exists s', rt_mp_delete n s = Ok RT_EOK s' /\
     ipc_closed (qget (p_k s) (QMp n)) (p_k s) (p_k s') (OMp n) /\ p_mem s' = p_mem s).
Proof.
  intros Hk. split.
  - intros Ho. enough (wp (rt_mp_detach n) s (fun r s' => r = RT_EOK /\ ipc_closed (qget (p_k s) (QMp n)) (p_k s) (p_k s') (OMp n) /\ p_mem s' = p_mem s)) as Hwp
      by (destruct (wp_run _ _ _ Hwp) as (? & s' & E & -> & ?); by exists s').
    unfold rt_mp_detach. apply wp_in_kernel. eapply wp_mono; [apply ipc_detach_wp; [done|done|done|unfold ipc_class; set_solver|done]|]. by intros r k' [-> H].
  - intros Hi Ho. enough (wp (rt_mp_delete n) s (fun r s' => r = RT_EOK /\ ipc_closed (qget (p_k s) (QMp n)) (p_k s) (p_k s') (OMp n) /\ p_mem s' = p_mem s)) as Hwp
      by (destruct (wp_run _ _ _ Hwp) as (? & s' & E & -> & ?); by exists s').
    unfold rt_mp_delete, RT_DEBUG_NOT_IN_INTERRUPT. apply wp_in_kernel. kstep. kstep. kstep. apply wp_assert; [by rewrite Hi|].
    eapply wp_mono; [apply ipc_delete_wp; [done|done|done|unfold ipc_class; set_solver|done]|]. by intros r k' [-> H].
Qed.

(** ** A pool to start from

    Three blocks of eight bytes at address 100, the first one in use, in the
    kernel [sample]. *)

Definition sample_pool_mem : mem :=
  write_bytes 100 (le_bytes 4 64) (write_bytes 112 (le_bytes 4 124) (write_bytes 124 (le_bytes 4 0) (write_bytes 80 (replicate 60 0) ∅))).
Definition sample_mp : rt_mempool := mkMp 100 36 8 112 3 2.
Definition sample_pool : pst := mkPst sample sample_pool_mem {[ 64%nat := sample_mp ]} 0.

Lemma sample_pool_ok : pool_ok sample_pool_mem 64 sample_mp [112; 124] [100].
Proof.
  split; try done.
  - change (blocks _ _ _) with [100; 112; 124]. by rewrite (Permutation_app_comm [112; 124] [100]).
  - split; [done|]. exists 124. split; [reflexivity|]. split; [done|]. exists 0. split; reflexivity.
  - intros b ->%list_elem_of_singleton. reflexivity.
Qed.
Lemma sample_new_pool : fresh_object sample (OMp 64) RT_Object_Class_MemPool (QMp 64).
Proof.
  split; [exact sample_kinv|done| |done|split_and!; [done|unfold ipc_class; set_solver|done]].
  intros H. destruct (ci_header _ sample_cinv _ _ H) as (ob & l & E & _). vm_compute in E. done.
Qed.

Lemma rt_mp_alloc_correct_witness :
  exists r s', rt_mp_alloc_enter 64 10 sample_pool = Ok r s' /\ kinv (p_k s') /\ NoDup [112; 124; 100] /\
    mp_allocated sample_pool 64 [112; 124] [100] 1 (sample_thread 10 RT_THREAD_RUNNING) 10 r s'.
Proof.
  exact (rt_mp_alloc_correct sample_pool 64 sample_mp [112; 124] [100] 1 _ 10 sample_kinv sample_caller eq_refl sample_pool_ok
    ltac:(by rewrite TICK_HALF_val)).
Defined.
Lemma rt_mp_alloc_again_witness :
  exists r s', rt_mp_alloc_resume 64 1 10 100 sample_pool = Ok r s' /\ kinv (p_k s') /\
    mp_allocated sample_pool 64 [112; 124] [100] 1 (sample_thread 10 RT_THREAD_RUNNING) 10 r s'.
Proof.
  exact (rt_mp_alloc_again sample_pool 64 sample_mp [112; 124] [100] 1 _ 10 100 sample_kinv sample_caller eq_refl sample_pool_ok
    ltac:(by rewrite TICK_HALF_val) ltac:(by rewrite TICK_HALF_val)).
Defined.
Lemma rt_mp_free_correct_witness :
  rt_mp_free 0 sample_pool = Ok tt sample_pool /\
  exists s', rt_mp_free 104 sample_pool = Ok tt s' /\ kinv (p_k s') /\ only_word 100 sample_pool_mem (p_mem s') /\
    (exists mp', p_pools s' = <[64%nat := mp']> (p_pools sample_pool) /\ pool_ok (p_mem s') 64 mp' [100; 112; 124] []) /\ p_k s' = sample.
Proof.
  exact (rt_mp_free_correct sample_pool 64 sample_mp [112; 124] [100] 100 [] sample_kinv ltac:(by eexists) eq_refl sample_pool_ok (Permutation_refl _)).
Defined.
Lemma rt_mp_init_correct_witness :
  exists s' mp, rt_mp_init 64 (cstring [112]) 100 36 7 sample_pool = Ok RT_EOK s' /\ kinv (p_k s') /\ qget (p_k s') (QMp 64) = [] /\
    p_pools s' = <[64%nat := mp]> (p_pools sample_pool) /\ pool_ok (p_mem s') 64 mp (blocks 100 8 3) [] /\ 0 < 3 /\ 7 <= 8 /\
    (forall a, (forall b, b ∈ blocks 100 8 3 -> a < b \/ b + 4 <= a) -> p_mem s' !! a = p_mem sample_pool !! a).
Proof.
  exact (rt_mp_init_correct sample_pool 64 [112] 100 36 7 sample_new_pool ltac:(repeat constructor; lia) ltac:(lia) ltac:(lia) ltac:(lia)
    ltac:(done) ltac:(done) ltac:(lia) ltac:(reflexivity)).
Defined.
Lemma rt_mp_init_too_small_witness :
  exists s', rt_mp_init 64 (cstring [112]) 100 8 8 sample_pool = Ok RT_EOK s' /\ p_mem s' = write_bytes 88 (le_bytes 4 0) sample_pool_mem.
Proof.
  exact (rt_mp_init_too_small sample_pool 64 [112] 100 8 8 sample_new_pool ltac:(repeat constructor; lia) ltac:(lia) ltac:(lia) ltac:(done)
    ltac:(done) ltac:(by eexists)).
Defined.
