(* ===== verification/Beside.v ===== *)
(** * Components beside the kernel

    A component outside the kernel has data of its own and calls the kernel:
    [beside X] is the kernel's state with data [X] next to it.  The components of
    components/drivers/src wait and wake with the same few calls, which are here
    too. *)

From S2P Require Import Prelude Ffs KState Wf Inv Sched Object Timer Thread TimerRun Sleep Ipc.

Record beside (X : Type) := mkBeside { b_k : kst; b_x : X }.
Arguments mkBeside {X}.
Arguments b_k {X}.
Arguments b_x {X}.

Section beside.
Context {X : Type}.
Definition in_k {A} (m : K A) : M (beside X) A := zoom b_k (fun k s => mkBeside k (b_x s)) m.
Definition in_x {A} (m : M X A) : M (beside X) A := zoom b_x (fun x s => mkBeside (b_k s) x) m.

Lemma wp_beside_k {A} (m : K A) k x (Q : A -> beside X -> Prop) : wp m k (fun a k' => Q a (mkBeside k' x)) -> wp (in_k m) (mkBeside k x) Q.
Proof. intros H. by apply wp_zoom. Qed.
Lemma wp_in_x {A} (m : M X A) k x (Q : A -> beside X -> Prop) : wp m x (fun a x' => Q a (mkBeside k x')) -> wp (in_x m) (mkBeside k x) Q.
Proof. intros H. by apply wp_zoom. Qed.
End beside.

(** One entry of a map of structures. *)
Definition get_at {X} (n : nat) : M (gmap nat X) X := deref (fun m => m !! n).
Definition put_at {X} (n : nat) (x : X) : M (gmap nat X) unit := modify <[n := x]>.
Lemma wp_get_at {X} n (x : X) m Q : m !! n = Some x -> Q x m -> wp (get_at n) m Q.
Proof. intros E HQ. by apply (wp_deref _ x). Qed.

Lemma wp_of_run {S A} (m : M S A) s a s' Q : m s = Ok a s' -> Q a s' -> wp m s Q.
Proof. unfold wp. by intros ->. Qed.
Lemma kframe_nest s s' : kframe s s' -> k_irq_nest s' = k_irq_nest s /\ k_lock_nest s' = k_lock_nest s /\ k_tick s' = k_tick s.
Proof. intros [H _]. unfold misc, ipc_data in H. injection H as E1 E2 E3 E4 E5 E6 E7 E8 E9 E10. done. Qed.

(** A thread waits behind the others in [q]: the error is reset, the thread
    suspended and linked, its timer started when the time is limited; then the
    scheduler runs. *)
Definition wait_behind (q : qid) (t : nat) (timeout : Z) : K unit :=
  mod_thread t (set_th_error RT_EOK) ;;
  (rt_thread_suspend t ;; q_append q t) ;;
  when (0 <? timeout) (start_thread_timer t timeout) ;;
  rt_schedule.

Lemma wait_behind_wp s q c th timeout :
  kinv s -> caller s c th -> wait_list q -> timeout < TICK_HALF ->
  wp (wait_behind q c timeout) s (fun _ s' => blocked_at s s' q (qget s q ++ [c]) c (set_th_error RT_EOK th) timeout).
Proof.
  intros Hk Hca Hq Hmax. unfold wait_behind. kstep. apply (wp_mod_thread _ _ th); [apply Hca|].
  pose proof (block_link_upd_wp s q c th (set_th_error RT_EOK th) timeout (qget s q ++ [c]) (q_append q c) (ret tt)
    (fun _ s' => blocked_at s s' q (qget s q ++ [c]) c (set_th_error RT_EOK th) timeout) Hk Hca ltac:(by split_and!) Hq Hmax ltac:(by right) (fun s' B => wp_ret tt s' _ B)) as H.
  kstep. apply wp_unbind in H. eapply wp_mono; [exact H|]. intros r s1 H1. cbv beta in H1. kstep. apply wp_unbind in H1. eapply wp_mono; [exact H1|].
  intros [] s2 H2. cbv beta in H2. by apply wp_end.
Qed.

(** ** Waking many *)

Lemma failed_sched s s' ts : sched_frame s s' -> failed s ts -> failed s' ts.
Proof.
  intros F H t Ht. destruct (H t Ht) as (th & E & Hr & He). destruct (sched_frame_lookup s s' t th F E) as (th' & E' & Hs). exists th'.
  split_and!; [done|by eapply thread_step_runnable|]. destruct Hs as [Est _]. apply (f_equal th_error) in Est. cbn in Est. congruence.
Qed.
Lemma kinv_lock_nest s n : kinv s -> kinv (set_k_lock_nest n s).
Proof. intros [W T]. split; [by apply (wfx_same _ s)|]. apply (tinv_same s); try done; eauto. Qed.
Lemma filter_none (ts l : list nat) : (forall t, t ∈ l -> t ∉ ts) -> filter (fun t => t ∉ ts) l = l.
Proof.
  induction l as [|t l IH]; intros H; [done|]. rewrite filter_cons, decide_True by (apply H; left). f_equal. apply IH. intros u Hu. apply H. by right.
Qed.
Lemma exit_critical_kinv s : kinv s -> is_Some (k_current s) -> 1 <= k_lock_nest s < 2 ^ 15 ->
  wp rt_exit_critical s (fun _ s' => kinv s' /\ sched_frame (set_k_lock_nest (k_lock_nest s - 1) s) s' /\ is_Some (k_current s')).
Proof.
  intros Hk Hc Hn. unfold rt_exit_critical. ksteps.
  all: rewrite i16_small in * by lia; kproj.
  - apply Z.leb_le in Heqb. replace (k_lock_nest s - 1) with 0 by lia. change (set_k_lock_nest 0 (set_k_lock_nest 0 s)) with (set_k_lock_nest 0 s).
    apply rt_schedule_kinv; [by apply kinv_lock_nest|done].
  - apply Z.leb_le in Heqb. replace (k_lock_nest s - 1) with 0 by lia. change (set_k_lock_nest 0 (set_k_lock_nest 0 s)) with (set_k_lock_nest 0 s). split; [by apply kinv_lock_nest|]. split; [apply sched_frame_refl|done].
  - split; [by apply kinv_lock_nest|]. split; [apply sched_frame_refl|done].
Qed.

(** ** Threads that run on or stay suspended *)

Lemma kept_suspended s s' u th : kept s s' u -> k_threads s !! u = Some th -> st th = RT_THREAD_SUSPEND -> exists th', k_threads s' !! u = Some th' /\ st th' = RT_THREAD_SUSPEND.
Proof.
  unfold kept. intros H Ht Hst. rewrite Ht in H. inversion H as [x y [_ Hs]|]; subst. exists y. split; [done|].
  destruct Hs as [->|[[Hx|Hx] _]]; [done|rewrite Hst in Hx; done..].
Qed.
Lemma kept_runnable s s' u th : kept s s' u -> k_threads s !! u = Some th -> runnable th -> exists th', k_threads s' !! u = Some th' /\ runnable th'.
Proof. unfold kept. intros H Ht Hr. rewrite Ht in H. inversion H as [x y Hs|]; subst. exists y. split; [done|by eapply thread_step_runnable]. Qed.

Definition running_again (s : kst) (t : nat) : Prop := exists th, k_threads s !! t = Some th /\ runnable th.

(** ** Waiting in no list of the kernel

    A thread that suspends itself and is linked in a list of another component,
    or in none. *)
Record parked (s s' : kst) (t : nat) (th : rt_thread) (time : Z) : Prop := {
  pk_inv : kinv s';
  pk_frame : kframe s s';
  pk_current : is_Some (k_current s');
  pk_thread : exists th', k_threads s' !! t = Some th' /\ st th' = RT_THREAD_SUSPEND /\ set_th_stat 0 th' = set_th_stat 0 th;
  pk_others : forall u, u <> t -> kept s s' u;
  pk_queues : forall q, wait_list q -> qget s' q = qget s q;
  pk_timer : if 0 <? time then TmThread t ∈ k_timer_list s' /\ ticks_left s' (TmThread t) = time
             else TmThread t ∉ all_timers s'
}.

Lemma park_wp {A} s t th time (k : K A) Q :
  kinv s -> caller s t th -> time < TICK_HALF -> (forall s', parked s s' t th time -> wp k s' Q) ->
  wp (rt_thread_suspend t ;; when (0 <? time) (start_thread_timer t time) ;; rt_schedule ;; k) s Q.
Proof.
  intros Hk [Hc Ht Hr Hi] Hmax HQ. apply (block_at_wp _ s (QSem 0) (qget s (QSem 0)) t th); [done|done|done| |].
  - eapply wp_mono; [apply (rt_thread_suspend_wp s t th Hk Ht); by right|]. intros r s1 (_ & [M1 M2 M3 M4 M5] & Hn). split; [|done].
    split; [done|done|done| |done]. intros q. rewrite M4, without_notin by (by eapply current_detached; [apply Hk|..]). case_decide; by subst.
  - intros s' [B1 B2 B3 B4 B5 B6 B7]. apply HQ. split; try done. intros q Hq. rewrite B6 by done. case_decide; by subst.
Qed.

Lemma park_end_wp s t th time : kinv s -> caller s t th -> time < TICK_HALF ->
  wp (rt_thread_suspend t ;; when (0 <? time) (start_thread_timer t time) ;; rt_schedule) s (fun _ s' => parked s s' t th time).
Proof.
  intros Hk Hca Hmax. pose proof (park_wp s t th time (ret tt) (fun _ s' => parked s s' t th time) Hk Hca Hmax (fun s' P => wp_ret tt s' _ P)) as H.
  kstep. apply wp_unbind in H. eapply wp_mono; [exact H|]. intros r s1 H1. cbv beta in H1. kstep. apply wp_unbind in H1. eapply wp_mono; [exact H1|].
  intros [] s2 H2. cbv beta in H2. by apply wp_end.
Qed.

(** rt_thread_resume of a thread that may or may not be suspended, and a
    scheduling pass. *)
Record awake (s s' : kst) (t : nat) (th : rt_thread) : Prop := {
  aw_inv : kinv s';
  aw_frame : kframe s s';
  aw_current : is_Some (k_current s');
  aw_thread : if st th =? RT_THREAD_SUSPEND
    then exists th', k_threads s' !! t = Some th' /\ runnable th' /\ set_th_stat 0 th' = set_th_stat 0 th else kept s s' t;
  aw_others : forall u, u <> t -> kept s s' u;
  aw_queues : forall q, wait_list q -> qget s' q = if st th =? RT_THREAD_SUSPEND then without t (qget s q) else qget s q
}.

Lemma rt_thread_resume_fail s t th :
  kinv s -> k_threads s !! t = Some th -> st th <> RT_THREAD_SUSPEND -> st th <> RT_THREAD_CLOSE -> forall Q, Q (- RT_ERROR) s -> wp (rt_thread_resume t) s Q.
Proof.
  intros Hk Ht Hs Hcl Q HQ. destruct (thread_typed s t th Hk Ht Hcl) as (ob & Eo & Hty). unfold rt_thread_resume. kstep. apply (wp_assert_type _ ob); [done|done|]. kstep.
  apply (wp_get_thread _ th); [done|]. rewrite (proj2 (Z.eqb_neq _ _)) by done. cbn [negb]. by kstep.
Qed.
Lemma rt_thread_resume_awake s t th :
  kinv s -> is_Some (k_current s) -> k_threads s !! t = Some th -> st th <> RT_THREAD_CLOSE ->
  wp (rt_thread_resume t) s (fun _ s' => awake s s' t th).
Proof.
  intros Hk Hc Ht Hcl. destruct (decide (st th = RT_THREAD_SUSPEND)) as [Hs|Hs].
  - eapply wp_mono; [by apply (rt_thread_resume_wp s t th)|]. intros r s1 (_ & [M1 M2 M3 M4 M5] & Hn). split; [done|done|by rewrite M5| | |]; rewrite ?Hs, ?Z.eqb_refl.
    + exists (woken s t th). split_and!; [rewrite M3; apply lookup_insert_eq|apply woken_runnable|done].
    + intros u Hu. unfold kept. rewrite M3, lookup_insert_ne by done. apply option_Forall2_refl_step.
    + intros q Hq. rewrite M4. by apply woken_queue_wait.
  - apply (rt_thread_resume_fail s t th); [done..|]. split; [done|apply kframe_refl|done| | |]; rewrite ?(proj2 (Z.eqb_neq _ _)) by done; try done; intros; apply option_Forall2_refl_step.
Qed.
Lemma awake_sched s s1 s2 t th : awake s s1 t th -> sched_frame s1 s2 -> kinv s2 -> is_Some (k_current s2) -> awake s s2 t th.
Proof.
  intros [P1 P2 P3 P4 P5 P6] F Hk Hc. split; [done| |done| | |].
  - eapply kframe_trans; [exact P2|by apply sched_kframe].
  - destruct (st th =? RT_THREAD_SUSPEND); [|eapply kept_trans; [exact P4|by apply kept_frame]]. destruct P4 as (th' & Ht' & Hr & E).
    destruct (sched_frame_lookup s1 s2 t th' F Ht') as (x & Ex & Hx). exists x. split_and!; [done|by eapply thread_step_runnable|]. destruct Hx as [-> _]. done.
  - intros u Hu. eapply kept_trans; [by apply P5|by apply kept_frame].
  - intros q Hq. rewrite (sf_queues _ _ F) by (by apply wait_list_not_ready). auto.
Qed.
Lemma resume_schedule_wp s t th :
  kinv s -> is_Some (k_current s) -> k_threads s !! t = Some th -> st th <> RT_THREAD_CLOSE ->
  wp (rt_thread_resume t ;; rt_schedule) s (fun _ s' => awake s s' t th).
Proof.
  intros Hk Hc Ht Hcl. kstep. eapply wp_mono; [by apply (rt_thread_resume_awake s t th)|]. intros r s1 A.
  eapply wp_mono; [apply rt_schedule_kinv; [apply A|apply A]|]. intros [] s2 (Hk2 & F & Hc2). by apply (awake_sched s s1).
Qed.
