(* ===== verification/Idle.v ===== *)
(** * The idle thread (src/idle.c): hooks and the reclaiming of closed threads *)

From S2P Require Import Prelude Ffs KState Wf Inv Sched Object Timer Thread TimerRun Sleep Ipc Beside.

Definition RT_IDLE_HOOK_LIST_SIZE : nat := 4.

(** ** Idle hooks: the array idle_hook_list, [None] being RT_NULL *)

(** Both routines walk the array to the first slot that matches. *)
Fixpoint replace_slot (old new : option Z) (l : list (option Z)) : option (list (option Z)) :=
  match l with
  | [] => None
  | h :: l => if decide (h = old) then Some (new :: l) else cons h <$> replace_slot old new l
  end.

Definition rt_thread_idle_sethook (hook : Z) (hooks : list (option Z)) : Z * list (option Z) :=
  match replace_slot None (Some hook) hooks with
  | Some hooks' => (RT_EOK, hooks')
  | None => (- RT_EFULL, hooks)
  end.

Definition rt_thread_idle_delhook (hook : Z) (hooks : list (option Z)) : Z * list (option Z) :=
  match replace_slot (Some hook) None hooks with
  | Some hooks' => (RT_EOK, hooks')
  | None => (- RT_ENOSYS, hooks)
  end.

(** The calls one pass of rt_thread_idle_entry makes, in order. *)
Definition idle_hook_calls (hooks : list (option Z)) : list Z := omap id hooks.

(** ** Reclaiming threads *)

Definition _has_defunct_thread : K bool := q_nonempty QDefunct.

(** The loop calls code with data of its own, [X]: [cleanup f t] is the call of
    the thread's cleanup function, [free a] is RT_KERNEL_FREE(a), the heap's
    rt_free.  rt_object_delete frees the thread block: the header is gone. *)
Fixpoint rt_thread_idle_excute {X} (cleanup : Z -> nat -> M (beside X) unit) (free : Z -> M (beside X) unit) (fuel : nat) : M (beside X) unit :=
  match fuel with
  | O => nofuel
  | S fuel =>
      has <- in_k _has_defunct_thread ;;
      if has then
        in_k RT_DEBUG_NOT_IN_INTERRUPT ;;
        again <- in_k _has_defunct_thread ;;
        if again then
          t <- in_k (q_first QDefunct) ;;
          in_k (q_remove t) ;;
          in_k rt_enter_critical ;;
          th <- in_k (get_thread t) ;;
          match th_cleanup th with Some f => cleanup f t | None => ret tt end ;;
          sys <- in_k (rt_object_is_systemobject (OThread t)) ;;
          if sys then in_k (rt_object_detach (OThread t)) ;; in_k rt_exit_critical
          else
            in_k rt_exit_critical ;;
            th <- in_k (get_thread t) ;;
            free (th_stack_addr th) ;;
            in_k (rt_object_delete (OThread t)) ;;
            rt_thread_idle_excute cleanup free fuel
        else ret tt
      else ret tt
  end.

(** ** Proofs *)

Lemma replace_slot_full old new l : replace_slot old new l = None <-> old ∉ l.
Proof.
  induction l as [|h l IH]; cbn; [split; [intros _; apply not_elem_of_nil|done]|].
  destruct (decide (h = old)) as [->|Hne].
  - split; [done|]. intros Hn. destruct Hn. left.
  - rewrite fmap_None, IH, not_elem_of_cons. split; [intros; split; [congruence|done]|tauto].
Qed.

Lemma replace_slot_spec old new l l' : replace_slot old new l = Some l' ->
  exists l1 l2, l = l1 ++ old :: l2 /\ old ∉ l1 /\ l' = l1 ++ new :: l2.
Proof.
  revert l'. induction l as [|h l IH]; cbn; intros l'; [done|]. destruct (decide (h = old)) as [->|Hne].
  - intros [= <-]. exists [], l. split; [done|]. split; [apply not_elem_of_nil|done].
  - intros (x & Ex & ->)%fmap_Some. destruct (IH x Ex) as (l1 & l2 & -> & Hn & ->). exists (h :: l1), l2.
    split; [done|]. split; [apply not_elem_of_cons; split; [congruence|done]|done].
Qed.

(** What the loop calls beside the kernel. *)
Inductive idle_call := Cleanup (f : Z) (t : nat) | KernelFree (a : Z).

Definition static_thread (k : kst) (t : nat) : bool :=
  match k_objects k !! OThread t with
  | Some ob => negb (Z.land (o_type ob) RT_Object_Class_Static =? 0)
  | None => false
  end.

(** The threads one call deals with: the heap threads up to the first static
    one, and that one; the threads it leaves in the list. *)
Fixpoint handled (k : kst) (l : list nat) : list nat :=
  match l with [] => [] | t :: l => t :: if static_thread k t then [] else handled k l end.
Fixpoint remaining (k : kst) (l : list nat) : list nat :=
  match l with [] => [] | t :: l => if static_thread k t then l else remaining k l end.
(** The calls it makes for them: each cleanup function, and the stack of each
    heap thread freed after it. *)
Definition reclaim_calls (k : kst) (t : nat) : list idle_call :=
  match k_threads k !! t with
  | Some th => match th_cleanup th with Some f => [Cleanup f t] | None => [] end ++
               if static_thread k t then [] else [KernelFree (th_stack_addr th)]
  | None => []
  end.

(** The calls on the data beside the kernel, one after the other. *)
Fixpoint run_calls {X} (act : idle_call -> X -> option X) (l : list idle_call) (x : X) : option X :=
  match l with [] => Some x | c :: l => act c x ≫= run_calls act l end.

(** The part of the state the loop relies on besides the kernel's invariant. *)
Record quiet (k k' : kst) : Prop := {
  qu_irq : k_irq_nest k' = k_irq_nest k;
  qu_objects : k_objects k' = k_objects k;
  qu_containers : k_containers k' = k_containers k;
  qu_closed : forall u th, k_threads k !! u = Some th -> st th = RT_THREAD_CLOSE -> exists th', k_threads k' !! u = Some th' /\
    st th' = RT_THREAD_CLOSE /\ th_cleanup th' = th_cleanup th /\ th_stack_addr th' = th_stack_addr th
}.
(** What cleanup functions and rt_free leave alone in the kernel: the kernel
    invariant holds again, and the headers, the containers, the defunct threads
    and the nesting levels are as before. *)
Record leaves (k k' : kst) : Prop := {
  lv_inv : kinv k';
  lv_lock : k_lock_nest k' = k_lock_nest k;
  lv_defunct : qget k' QDefunct = qget k QDefunct;
  lv_quiet : quiet k k'
}.

(** The promise of the cleanup functions and of rt_free: a call that is legal on
    their data ([act] gives the data after it) returns. *)
Record idle_calls_ok {X} (cleanup : Z -> nat -> M (beside X) unit) (free : Z -> M (beside X) unit) (act : idle_call -> X -> option X) : Prop := {
  ic_cleanup : forall f t k x x', kinv k -> act (Cleanup f t) x = Some x' ->
    wp (cleanup f t) (mkBeside k x) (fun _ s' => leaves k (b_k s') /\ b_x s' = x');
  ic_free : forall a k x x', kinv k -> act (KernelFree a) x = Some x' ->
    wp (free a) (mkBeside k x) (fun _ s' => leaves k (b_k s') /\ b_x s' = x')
}.

(** Forgetting the header of a closed thread. *)
Lemma kinv_drop_closed s s' t th :
  kinv s -> k_threads s !! t = Some th -> st th = RT_THREAD_CLOSE ->
  k_threads s' = k_threads s -> k_queues s' = k_queues s -> k_current s' = k_current s ->
  k_ready_group s' = k_ready_group s -> k_timers s' = k_timers s -> k_timer_list s' = k_timer_list s ->
  k_soft_timer_list s' = k_soft_timer_list s ->
  (forall o, o <> OThread t -> k_objects s' !! o = k_objects s !! o) -> kinv s'.
Proof.
  intros [W T] Ht Hst E1 E2 E3 E4 E5 E6 E7 Ho. split.
  { apply (wfx_same _ s); try done. intros q. unfold qget. by rewrite E2. }
  assert (all_timers s' = all_timers s) as Ea by (unfold all_timers; congruence). split; rewrite ?Ea, ?E1, ?E5.
  - intros u uth Hu Hc. destruct (ti_thread T u uth Hu Hc) as ((x & Ex & Hx) & y & ti & Ey & Hti & Hy).
    split; [exists x; by rewrite Ho by congruence|]. exists y, ti. by rewrite Ho, E5 by congruence.
  - apply T.
  - intros tm Hin. destruct (ti_listed T tm Hin) as (? & x & Ex & Hx). split; [done|]. exists x. by rewrite Ho.
  - intros u Hin. destruct (ti_wait T u Hin) as (? & (x & Ex & Hx) & ?). rewrite E6. split; [done|].
    split; [exists x; by rewrite Ho|done].
Qed.

Lemma quiet_trans k1 k2 k3 : quiet k1 k2 -> quiet k2 k3 -> quiet k1 k3.
Proof.
  intros [A1 A2 A3 A4] [B1 B2 B3 B4]. split; [congruence..|]. intros u th Hu Hc. destruct (A4 u th Hu Hc) as (th' & Hu' & Hc' & E1 & E2).
  destruct (B4 u th' Hu' Hc') as (th2 & ? & ? & ? & ?). exists th2. split_and!; congruence.
Qed.
Lemma quiet_threads k k' : k_irq_nest k' = k_irq_nest k -> k_objects k' = k_objects k -> k_containers k' = k_containers k -> k_threads k' = k_threads k -> quiet k k'.
Proof. intros. split; [done..|]. intros u th Hu Hc. exists th. split_and!; congruence. Qed.
Lemma quiet_sched k k' : sched_frame k k' -> quiet k k'.
Proof.
  intros F. destruct (sched_frame_objects k k' F) as (? & ? & _ & ?). split; [done..|]. intros u th Hu Hc.
  destruct (sched_frame_lookup k k' u th F Hu) as (th' & Hu' & [E Hst]). exists th'. split; [done|]. split; [destruct Hst as [->|[[Hx|Hx] _]]; [done|rewrite Hc in Hx; done..]|].
  split; [by apply (f_equal th_cleanup) in E|by apply (f_equal th_stack_addr) in E].
Qed.
Lemma exit_critical_wp s : kinv s -> 1 <= k_lock_nest s < 2 ^ 15 ->
  wp rt_exit_critical s (fun _ s' => kinv s' /\ quiet s s' /\ k_lock_nest s' = k_lock_nest s - 1 /\ qget s' QDefunct = qget s QDefunct).
Proof.
  intros Hk Hl. eapply wp_mono; [apply rt_exit_critical_wp; [apply Hk|done]|]. intros [] s' [W F].
  split; [by apply (sched_kinv _ _ (kinv_lock_nest s (k_lock_nest s - 1) Hk))|]. split.
  - apply (quiet_trans _ (set_k_lock_nest (k_lock_nest s - 1) s)); [by apply quiet_threads|by apply quiet_sched].
  - destruct (sched_frame_objects _ _ F) as (_ & _ & E & _). split; [done|]. by rewrite (sf_queues _ _ F).
Qed.

(** The objects of the threads [ts] have left the containers; the rest is as it
    was. *)
Definition gone (k k' : kst) (ts : list nat) : Prop :=
  (forall c, object_list k' c = filter (fun o => o ∉ OThread <$> ts) (object_list k c)) /\
  forall o, o ∉ OThread <$> ts -> k_objects k' !! o = k_objects k !! o.
Lemma gone_nil k k' : quiet k k' -> gone k k' [].
Proof.
  intros Q. split; [|intros o _; by rewrite (qu_objects _ _ Q)]. intros c. unfold object_list. rewrite (qu_containers _ _ Q).
  symmetry. induction (default [] (k_containers k !! c)) as [|o l IH]; [done|]. rewrite filter_cons, decide_True by apply not_elem_of_nil. by rewrite IH.
Qed.
Lemma gone_cons k k1 k' t ts : departed k k1 (OThread t) -> gone k1 k' ts -> gone k k' (t :: ts).
Proof.
  intros [A1 A2] [B1 B2]. split.
  - intros c. rewrite B1, A1, list_filter_filter. apply list_filter_iff. intros o. rewrite fmap_cons, not_elem_of_cons. tauto.
  - intros o. rewrite fmap_cons, not_elem_of_cons. intros [? ?]. rewrite B2, A2; done.
Qed.
Lemma departed_quiet k k1 k2 k3 o : quiet k k1 -> departed k1 k2 o -> quiet k2 k3 -> departed k k3 o.
Proof.
  intros [_ E1 E2 _] [A1 A2] [_ F1 F2 _]. split; [intros c; specialize (A1 c); unfold object_list in *; by rewrite F2, A1, E2|].
  intros o' Ho. by rewrite F1, A2, E1.
Qed.

Section reclaim.
Context {X : Type} (cleanup : Z -> nat -> M (beside X) unit) (free : Z -> M (beside X) unit) (act : idle_call -> X -> option X)
  (Hcalls : idle_calls_ok cleanup free act).

(** What holds at the top of the loop, [l] being the list of defunct threads. *)
Definition top (k : kst) (l : list nat) : Prop :=
  kinv k /\ k_irq_nest k = 0 /\ 0 <= k_lock_nest k < 2 ^ 15 - 1 /\ qget k QDefunct = l /\ forall u, u ∈ l -> is_Some (k_objects k !! OThread u).

(** A defunct thread is taken from the list and its cleanup function called. *)
Lemma cleanup_wp fuel k x x' t l Q :
  top k (t :: l) -> run_calls act (reclaim_calls k t) x = Some x' ->
  (forall k1 th ob x1, kinv k1 -> quiet k k1 -> k_lock_nest k1 = k_lock_nest k + 1 -> qget k1 QDefunct = l -> t ∉ l ->
     k_threads k1 !! t = Some th -> st th = RT_THREAD_CLOSE -> k_objects k1 !! OThread t = Some ob ->
     (if static_thread k t then Some x1 else act (KernelFree (th_stack_addr th)) x1) = Some x' ->
     wp (if static_thread k t then in_k (rt_object_detach (OThread t)) ;; in_k rt_exit_critical
         else in_k rt_exit_critical ;; th <- in_k (get_thread t) ;; free (th_stack_addr th) ;;
           in_k (rt_object_delete (OThread t)) ;; rt_thread_idle_excute cleanup free fuel) (mkBeside k1 x1) Q) ->
  wp (rt_thread_idle_excute cleanup free (S fuel)) (mkBeside k x) Q.
Proof.
  intros (Hk & Hi & Hl & Hq & Ho) Hrun HQ. destruct (Ho t ltac:(left)) as [ob Eo].
  destruct (wf_place (proj1 Hk) QDefunct t) as (th & Et & Hst); [rewrite Hq; left|]. cbn in Hst.
  assert (NoDup (t :: l)) as Hnd by (rewrite <- Hq; apply (wf_nodup (proj1 Hk))). pose proof (proj1 (proj1 (NoDup_cons _ _) Hnd)) as Hnt.
  cbn [rt_thread_idle_excute]. unfold _has_defunct_thread. kstep. apply wp_beside_k, wp_q_nonempty. rewrite Hq, bool_decide_false by done.
  cbn [negb]. unfold RT_DEBUG_NOT_IN_INTERRUPT. kstep. apply wp_beside_k. kstep. kstep. apply wp_assert; [by rewrite Hi|].
  kstep. apply wp_beside_k, wp_q_nonempty. rewrite Hq, bool_decide_false by done. cbn [negb]. kstep. apply wp_beside_k.
  apply (wp_q_first _ t l); [done|]. kstep. apply wp_beside_k, wp_q_remove. unfold rt_enter_critical. kstep. apply wp_beside_k, wp_modify.
  kstep. apply wp_beside_k, (wp_get_thread _ th); [done|]. kstep. rewrite i16_small by (kproj; lia). set (k1 := set_k_lock_nest _ _).
  assert (kinv k1) as Hk1 by (apply kinv_lock_nest; apply (unlink_kinv k t th); [done|done|by rewrite Hst]).
  assert (quiet k k1) as Hq1 by (by apply quiet_threads).
  assert (qget k1 QDefunct = l) as Hd.
  { change (qget (unlink t k) QDefunct = l). rewrite qget_unlink, Hq. by apply without_head. }
  assert (forall k2 th2 x1, kinv k2 -> quiet k k2 -> k_lock_nest k2 = k_lock_nest k + 1 -> qget k2 QDefunct = l -> k_threads k2 !! t = Some th2 -> st th2 = RT_THREAD_CLOSE ->
    (if static_thread k t then Some x1 else act (KernelFree (th_stack_addr th2)) x1) = Some x' ->
    wp (sys <- in_k (rt_object_is_systemobject (OThread t)) ;;
      if sys then in_k (rt_object_detach (OThread t)) ;; in_k rt_exit_critical
      else in_k rt_exit_critical ;; th <- in_k (get_thread t) ;; free (th_stack_addr th) ;;
           in_k (rt_object_delete (OThread t)) ;; rt_thread_idle_excute cleanup free fuel) (mkBeside k2 x1) Q) as Hrest.
  { intros k2 th2 x1 Hk2 Hq2 Hl2 Hd2 Et2 Hst2 Hx. assert (k_objects k2 !! OThread t = Some ob) as Eo2 by (by rewrite (qu_objects _ _ Hq2)).
    kstep. apply wp_beside_k. unfold rt_object_is_systemobject at 1. kstep. apply (wp_get_object _ ob); [done|]. kstep.
    pose proof (HQ k2 th2 ob x1 Hk2 Hq2 Hl2 Hd2 Hnt Et2 Hst2 Eo2 Hx) as HQ2. unfold static_thread in HQ2. rewrite Eo in HQ2. exact HQ2. }
  unfold reclaim_calls in Hrun. rewrite Et in Hrun.
  destruct (th_cleanup th) as [f|].
  - cbn in Hrun. apply bind_Some in Hrun as (x1 & Hx1 & Hrun). eapply wp_mono; [by apply (ic_cleanup _ _ _ Hcalls f t k1 x x1)|].
    intros [] [k2 x2] [[L1 L2 L3 L4] Ex]. cbn [b_k b_x] in *. subst x2. destruct (qu_closed _ _ L4 t th Et Hst) as (th2 & Et2 & Hst2 & _ & Es).
    apply (Hrest k2 th2); [done|by eapply quiet_trans|by rewrite L2|by rewrite L3|done|done|].
    rewrite Es. destruct (static_thread k t); [done|]. cbn in Hrun. by apply bind_Some in Hrun as (x3 & -> & [= ->]).
  - kstep. apply (Hrest k1 th); [done..|]. destruct (static_thread k t); [done|]. cbn in Hrun. by apply bind_Some in Hrun as (x3 & -> & [= ->]).
Qed.
(** A static thread is detached and the loop left. *)
Lemma static_round fuel k x x' t l :
  top k (t :: l) -> static_thread k t = true -> run_calls act (reclaim_calls k t) x = Some x' ->
  wp (rt_thread_idle_excute cleanup free (S fuel)) (mkBeside k x) (fun _ s' => b_x s' = x' /\ kinv (b_k s') /\ qget (b_k s') QDefunct = l /\
    departed k (b_k s') (OThread t) /\ k_objects (b_k s') !! OThread t = set_o_type 0 <$> k_objects k !! OThread t).
Proof.
  intros Ht Hs Hrun. apply (cleanup_wp fuel k x x' t l); [done|done|]. rewrite Hs. intros k1 th ob x1 Hk1 Hq1 Hl1 Hd1 _ Et Hst Eo [= ->].
  destruct Ht as (_ & _ & Hl & _). unfold rt_object_detach, container_remove. kstep. apply wp_beside_k. kstep. apply (wp_mod_object _ _ ob); [done|]. apply wp_modify.
  apply wp_beside_k. set (k2 := set_k_containers _ _). assert (departed k1 k2 (OThread t)) as Hdep.
  { apply (departed_unattach k1 k2 _ (<[OThread t := set_o_type 0 ob]> (k_objects k1))); [|done|done]. intros o' Hne. by rewrite lookup_insert_ne. }
  assert (kinv k2) as Hk2 by (apply (kinv_drop_closed k1 k2 t th); try done; apply Hdep).
  eapply wp_mono; [apply exit_critical_wp; [done|]|]; [change (k_lock_nest k2) with (k_lock_nest k1); lia|].
  intros [] k3 (Hk3 & Hq3 & _ & Hd3). cbn [b_k b_x]. split_and!; [done|done|by rewrite Hd3| |].
  - by apply (departed_quiet k k1 k2).
  - rewrite (qu_objects _ _ Hq3), <- (qu_objects _ _ Hq1), Eo. apply lookup_insert_eq.
Qed.

Lemma reclaim_calls_quiet k k' u th : quiet k k' -> k_threads k !! u = Some th -> st th = RT_THREAD_CLOSE ->
  reclaim_calls k' u = reclaim_calls k u /\ static_thread k' u = static_thread k u.
Proof.
  intros Q Hu Hc. destruct (qu_closed _ _ Q u th Hu Hc) as (th' & Hu' & _ & E1 & E2). unfold reclaim_calls, static_thread.
  by rewrite Hu, Hu', E1, E2, (qu_objects _ _ Q).
Qed.
Lemma reclaim_calls_same k k' u : k_threads k' = k_threads k -> k_objects k' !! OThread u = k_objects k !! OThread u ->
  reclaim_calls k' u = reclaim_calls k u /\ static_thread k' u = static_thread k u.
Proof. intros E1 E2. unfold reclaim_calls, static_thread. by rewrite E1, E2. Qed.

(** A heap thread is freed and the loop goes on. *)
Lemma heap_round fuel k x x' t l Q :
  top k (t :: l) -> static_thread k t = false -> run_calls act (reclaim_calls k t) x = Some x' ->
  (forall k', top k' l -> departed k k' (OThread t) -> k_objects k' !! OThread t = None -> t ∉ l ->
     (forall u, u ∈ l -> reclaim_calls k' u = reclaim_calls k u /\ static_thread k' u = static_thread k u) ->
     wp (rt_thread_idle_excute cleanup free fuel) (mkBeside k' x') Q) ->
  wp (rt_thread_idle_excute cleanup free (S fuel)) (mkBeside k x) Q.
Proof.
  intros Ht Hs Hrun HQ. apply (cleanup_wp fuel k x x' t l); [done|done|]. rewrite Hs. intros k1 th ob x1 Hk1 Hq1 Hl1 Hd1 Hnt Et Hst Eo Hx.
  destruct Ht as (Hk & Hi & Hl & Hq & Ho). kstep. apply wp_beside_k. eapply wp_mono; [apply exit_critical_wp; [done|lia]|]. intros [] k2 (Hk2 & Hq2 & Hl2 & Hd2).
  destruct (qu_closed _ _ Hq2 t th Et Hst) as (th2 & Et2 & Hst2 & _ & Es). kstep. apply wp_beside_k, (wp_get_thread _ th2); [done|]. kstep. rewrite Es.
  eapply wp_mono; [by apply (ic_free _ _ _ Hcalls _ k2 x1 x')|]. intros [] [k3 x3] [[L1 L2 L3 L4] Ex]. cbn [b_k b_x] in *. subst x3.
  pose proof (quiet_trans _ _ _ Hq1 (quiet_trans _ _ _ Hq2 L4)) as Hq3. destruct (qu_closed _ _ L4 t th2 Et2 Hst2) as (th3 & Et3 & Hst3 & _).
  assert (k_objects k3 !! OThread t = Some ob) as Eo3 by (by rewrite (qu_objects _ _ L4), (qu_objects _ _ Hq2)).
  assert (Z.land (o_type ob) RT_Object_Class_Static = 0) as Hst0.
  { unfold static_thread in Hs. rewrite <- (qu_objects _ _ Hq1), Eo in Hs. apply negb_false_iff in Hs. lia. }
  kstep. apply wp_beside_k. unfold rt_object_delete, rt_object_is_systemobject, container_remove. kstep. kstep. apply (wp_get_object _ ob); [done|].
  kstep. kstep. apply wp_assert; [by rewrite Hst0|]. kstep. apply (wp_mod_object _ _ ob); [done|]. kstep. kstep. apply wp_modify.
  set (m := delete (OThread t) (<[OThread t := set_o_type 0 ob]> (k_objects k3))). set (k4 := set_k_objects m (set_k_containers (without (OThread t) <$> k_containers k3) (set_k_objects (<[OThread t := set_o_type 0 ob]> (k_objects k3)) k3))).
  assert (forall o', o' <> OThread t -> m !! o' = k_objects k3 !! o') as Hm by (intros; unfold m; by rewrite lookup_delete_ne, lookup_insert_ne).
  assert (departed k3 k4 (OThread t)) as Hdep by (by apply (departed_unattach k3 k4 _ m)).
  assert (departed k k4 (OThread t)) as Hdep' by (apply (departed_quiet k k3 k4 k4); [done|done|by apply quiet_threads]).
  apply HQ; [|done|apply lookup_delete_eq|done|].
  - split; [by apply (kinv_drop_closed k3 k4 t th3)|]. split_and!.
    + change (k_irq_nest k3 = 0). by rewrite (qu_irq _ _ Hq3).
    + change (0 <= k_lock_nest k3). lia.
    + change (k_lock_nest k3 < 2 ^ 15 - 1). lia.
    + change (qget k3 QDefunct = l). congruence.
    + intros u Hu. rewrite (proj2 Hdep') by (intros [= ->]; done). apply Ho. by right.
  - intros u Hu. destruct (wf_place (proj1 Hk) QDefunct u) as (uth & Eu & Hust); [rewrite Hq; by right|].
    destruct (reclaim_calls_quiet k k3 u uth Hq3 Eu Hust) as [<- <-]. apply reclaim_calls_same; [done|]. apply Hm. intros [= ->]. done.
Qed.

Lemma run_calls_app l1 l2 x : run_calls act (l1 ++ l2) x = run_calls act l1 x ≫= run_calls act l2.
Proof. revert x. induction l1 as [|c l1 IH]; intros x; [done|]. cbn. destruct (act c x) as [x1|]; [apply IH|done]. Qed.
Lemma handled_ext k k' l : (forall u, u ∈ l -> reclaim_calls k' u = reclaim_calls k u /\ static_thread k' u = static_thread k u) ->
  handled k' l = handled k l /\ remaining k' l = remaining k l /\ (handled k' l ≫= reclaim_calls k') = (handled k l ≫= reclaim_calls k).
Proof.
  induction l as [|t l IH]; intros H; [done|]. destruct (H t ltac:(left)) as [E1 E2]. destruct IH as (I1 & I2 & I3); [intros u Hu; apply H; by right|].
  cbn. rewrite E2. destruct (static_thread k t); cbn; rewrite E1; [done|]. by rewrite I1, I2, <- I3, I1.
Qed.
Lemma handled_sub k l u : u ∈ handled k l -> u ∈ l.
Proof. induction l as [|t l IH]; [done|]. cbn. destruct (static_thread k t); rewrite !elem_of_cons; [intros [->|?%elem_of_nil]; by left|tauto]. Qed.

Lemma reclaim_all l : forall fuel k x x',
  top k l -> (length l < fuel)%nat -> run_calls act (handled k l ≫= reclaim_calls k) x = Some x' ->
  wp (rt_thread_idle_excute cleanup free fuel) (mkBeside k x) (fun _ s' => b_x s' = x' /\ kinv (b_k s') /\ qget (b_k s') QDefunct = remaining k l /\
    gone k (b_k s') (handled k l) /\
    forall u, u ∈ handled k l -> k_objects (b_k s') !! OThread u = if static_thread k u then set_o_type 0 <$> k_objects k !! OThread u else None).
Proof.
  induction l as [|t l IH]; intros fuel k x x' Ht Hf Hrun; (destruct fuel as [|fuel]; [cbn in Hf; lia|]).
  - destruct Ht as (Hk & _ & _ & Hq & _). cbn [rt_thread_idle_excute]. unfold _has_defunct_thread. kstep. apply wp_beside_k, wp_q_nonempty.
    rewrite Hq, bool_decide_true by done. cbn [negb]. kstep. cbn in Hrun. injection Hrun as ->. split_and!; [done|done|done| |by intros u ?%elem_of_nil].
    by apply gone_nil, quiet_threads.
  - cbn [handled remaining] in *. cbn [mbind list_bind] in Hrun. rewrite run_calls_app in Hrun. apply bind_Some in Hrun as (x1 & Hx1 & Hrun).
    destruct (static_thread k t) eqn:Hs.
    + cbn in Hrun. injection Hrun as ->. eapply wp_mono; [by apply (static_round fuel k x x' t l)|]. intros [] s' (E1 & Hk' & Hq' & Hd & Eo).
      split_and!; [done|done|done|apply (gone_cons k (b_k s')); [done|by apply gone_nil, quiet_threads]|]. intros u [->|?%elem_of_nil]%elem_of_cons; [by rewrite Hs|done].
    + apply (heap_round fuel k x x1 t l); [done..|]. intros k' Ht' Hd Eo Hnt Hsame. destruct (handled_ext k k' l Hsame) as (H1 & H2 & H3).
      eapply wp_mono; [apply (IH fuel k' x1 x'); [done|cbn in Hf; lia|by rewrite H3]|]. rewrite H1, H2. intros [] s' (E1 & Hk' & Hq' & Hg & Hh).
      split_and!; [done|done|done|by apply (gone_cons k k')|]. intros u [->|Hu]%elem_of_cons.
      * rewrite Hs, (proj2 Hg), Eo; [done|]. intros (v & [= ->] & Hv)%list_elem_of_fmap. by apply handled_sub in Hv.
      * assert (u <> t) as Hne by (intros ->; by apply handled_sub in Hu). destruct (Hsame u (handled_sub _ _ _ Hu)) as [_ Es].
        rewrite Hh, Es, (proj2 Hd) by first [done|congruence]. done.
Qed.
End reclaim.

(** ** Properties *)


(** Two closed heap threads, the first with a cleanup function, a static one and
    another heap thread. *)
Definition heap_header : rt_object := mkObject (repeat 97 RT_NAME_MAX) RT_Object_Class_Thread 0.
Definition defunct_thread (a : Z) (f : option Z) : rt_thread := set_th_cleanup f (set_th_sp (a + 0x1c0) (set_th_stack_addr a (sample_thread 9 RT_THREAD_CLOSE))).
Definition sample_defunct : kst :=
  upd_queue QDefunct [8%nat; 9%nat; 10%nat; 11%nat]
    (set_k_objects (<[OThread 8 := heap_header]> (<[OThread 9 := heap_header]>
       (<[OThread 10 := set_o_type (Z.lor RT_Object_Class_Thread RT_Object_Class_Static) heap_header]> (<[OThread 11 := heap_header]> (k_objects sample)))))
      (upd_thread 8 (defunct_thread 0x20001000 (Some 0x8000101)) (upd_thread 9 (defunct_thread 0x20002000 None)
        (upd_thread 10 (defunct_thread 0x20003000 (Some 0x8000201)) (upd_thread 11 (defunct_thread 0x20004000 None) sample))))).
(** The calls, written down. *)
Definition note (c : idle_call) : M (beside (list idle_call)) unit := in_x (modify (fun l => l ++ [c])).
Lemma note_wp c k x : kinv k -> wp (note c) (mkBeside k x) (fun _ s' => leaves k (b_k s') /\ b_x s' = x ++ [c]).
Proof. intros Hk. apply wp_in_x, wp_modify. split; [|done]. split; [done|done|done|by apply quiet_threads]. Qed.



(** Idle hooks.  Installing a hook fails with -RT_EFULL exactly when no
    slot is free and otherwise uses the first free slot; removing a hook fails
    with -RT_ENOSYS exactly when it is not installed; removing a hook just
    installed, when it was not installed before, restores the table. *)
Theorem idle_hooks hook hooks :
  (fst (rt_thread_idle_sethook hook hooks) = - RT_EFULL <-> None ∉ hooks) /\
  (fst (rt_thread_idle_delhook hook hooks) = - RT_ENOSYS <-> Some hook ∉ hooks) /\
  (None ∈ hooks -> exists l1 l2, hooks = l1 ++ None :: l2 /\ None ∉ l1 /\
     rt_thread_idle_sethook hook hooks = (RT_EOK, l1 ++ Some hook :: l2) /\
     (Some hook ∉ hooks -> rt_thread_idle_delhook hook (l1 ++ Some hook :: l2) = (RT_EOK, hooks))).
Proof.
  unfold rt_thread_idle_sethook, rt_thread_idle_delhook. split_and!.
  - rewrite <- (replace_slot_full None (Some hook)). by destruct (replace_slot _ _ _).
  - rewrite <- (replace_slot_full (Some hook) None). by destruct (replace_slot _ _ _).
  - intros Hin. destruct (replace_slot None (Some hook) hooks) as [l|] eqn:E; [|by apply replace_slot_full in E].
    destruct (replace_slot_spec _ _ _ _ E) as (l1 & l2 & -> & Hn & ->). exists l1, l2. split_and!; [done|done|done|].
    intros Hh. rewrite not_elem_of_app, not_elem_of_cons in Hh. destruct Hh as (H1 & _ & H2).
    destruct (replace_slot (Some hook) None (l1 ++ Some hook :: l2)) as [l|] eqn:E2.
    2:{ apply replace_slot_full in E2. destruct E2. apply elem_of_app. right. left. }
    destruct (replace_slot_spec _ _ _ _ E2) as (m1 & m2 & Em & Hm & ->). f_equal.
    assert (l1 = m1 /\ l2 = m2) as [-> ->]; [|done]. clear -Em H1 Hm.
    revert m1 Em Hm. induction l1 as [|a l1 IH]; intros [|b m1] Em Hm; cbn in Em.
    + by injection Em.
    + injection Em as <- _. destruct Hm. left.
    + injection Em as -> _. destruct H1. left.
    + injection Em as -> Em. destruct (IH ltac:(set_solver) m1 Em ltac:(set_solver)) as [-> ->]. done.
Qed.
