(* ===== verification/Completion.v ===== *)
(** * Completions (components/drivers/src/completion.c)

    A completion is a flag one thread can wait for; interrupts and threads set
    it.  Beside the kernel: the flag of each completion; the list of the waiting
    thread is [QCompletion]. *)

From S2P Require Import Prelude Ffs KState Wf Inv Sched Object Timer Thread TimerRun Sleep Ipc Beside.

Definition RT_COMPLETED : Z := 1.
Definition RT_UNCOMPLETED : Z := 0.

Definition completions : Type := gmap nat Z.
Definition C (A : Type) : Type := M (beside completions) A.

Definition rt_completion_init (n : nat) : C unit :=
  in_x (put_at n RT_UNCOMPLETED) ;;
  in_k (q_init (QCompletion n)).

Definition rt_completion_wait_enter (n : nat) (timeout : Z) : C (outcome Z) :=
  self <- in_k rt_thread_self ;;
  flag <- in_x (get_at n) ;;
  if negb (flag =? RT_COMPLETED) then
    waiting <- in_k (q_nonempty (QCompletion n)) ;;
    RT_ASSERT (negb waiting) ;;
    if timeout =? 0 then ret (Returned (- RT_ETIMEOUT))
    else
      t <- in_k (
        t <- deref (fun _ => self) ;;
        mod_thread t (set_th_error RT_EOK) ;;
        (rt_thread_suspend t ;; q_append (QCompletion n) t ;; RT_DEBUG_NOT_IN_INTERRUPT) ;;
        when (0 <? timeout) (start_thread_timer t timeout) ;;
        rt_schedule ;;
        ret t) ;;
      ret (Waiting t)
  else
    in_x (put_at n RT_UNCOMPLETED) ;;
    ret (Returned RT_EOK).
(** What the thread does when it is scheduled again. *)
Definition rt_completion_wait_resume (n t : nat) : C Z :=
  result <- in_k (wait_result t) ;;
  in_x (put_at n RT_UNCOMPLETED) ;;
  ret result.

Definition rt_completion_done (n : nat) : C unit :=
  flag <- in_x (get_at n) ;;
  if flag =? RT_COMPLETED then ret tt
  else
    in_x (put_at n RT_COMPLETED) ;;
    in_k (wake_one (QCompletion n)).

(** ** Correctness *)

(** A completion: the flag, and the thread that waits for it, which is there only
    while the flag is not set. *)
Record completion_ok (s : beside completions) (n : nat) (flag : Z) (waiting : option nat) : Prop := {
  co_flag : b_x s !! n = Some flag;
  co_value : flag = RT_COMPLETED \/ flag = RT_UNCOMPLETED;
  co_queue : qget (b_k s) (QCompletion n) = match waiting with Some t => [t] | None => [] end;
  co_alone : flag = RT_COMPLETED -> waiting = None
}.

Lemma wait_completion_wp s n c th timeout :
  kinv s -> caller s c th -> timeout < TICK_HALF ->
  wp (mod_thread c (set_th_error RT_EOK) ;;
      (rt_thread_suspend c ;; q_append (QCompletion n) c ;; RT_DEBUG_NOT_IN_INTERRUPT) ;;
      when (0 <? timeout) (start_thread_timer c timeout) ;;
      rt_schedule ;;
      ret c) s (fun r s' => r = c /\ blocked_at s s' (QCompletion n) (qget s (QCompletion n) ++ [c]) c (set_th_error RT_EOK th) timeout).
Proof.
  intros Hk Hca Hmax. pose proof Hca as [Hc Ht Hr Hi]. set (th1 := set_th_error RT_EOK th). kstep. apply (wp_mod_thread _ _ th); [done|]. fold th1.
  assert (sched_same th th1) as Hs by by split_and!. assert (kinv (upd_thread c th1 s)) as Hk1 by by apply (kinv_upd_same s c th).
  assert (k_threads (upd_thread c th1 s) !! c = Some th1) as Ht1 by (kproj; apply lookup_insert_eq).
  apply (block_at_wp _ _ (QCompletion n) (qget s (QCompletion n) ++ [c]) c th1); [done|done|done| |].
  - pose proof (suspend_link_wp (upd_thread c th1 s) (QCompletion n) c th1 (qget s (QCompletion n) ++ [c]) (q_append (QCompletion n) c) Hk1 Hc Ht1 Hr ltac:(done) ltac:(by right)) as H.
    apply wp_unbind in H. kstep. eapply wp_mono; [exact H|]. intros r s1 H1. cbv beta in H1. kstep. eapply wp_mono; [exact H1|]. intros [] s2 [M Hn].
    unfold RT_DEBUG_NOT_IN_INTERRUPT. kstep. kstep. apply wp_assert; [|done]. destruct (kframe_nest _ _ (mv_frame _ _ _ _ _ M)) as (Ei & _).
    cbn in Ei. by rewrite Ei, Hi.
  - intros s' [B1 B2 B3 B4 B5 B6 B7]. kstep. split; [done|]. split; [done| |done|done| |done|done].
    + eapply kframe_trans; [|exact B2]. by apply kframe_same.
    + intros u Hu. specialize (B5 u Hu). unfold kept in *. by rewrite lookup_upd_thread, decide_False in B5.
Qed.

(** Waiting for a completion.  A completion that is done is used up and the
    call returns RT_EOK; otherwise a call that does not wait returns -RT_ETIMEOUT
    and a call that waits suspends the caller, alone, with its timer running when
    the time is limited.  The kernel invariant holds. *)
Theorem rt_completion_wait_correct s n flag c th timeout :
  kinv (b_k s) -> caller (b_k s) c th -> completion_ok s n flag None -> timeout < TICK_HALF ->
  wp (rt_completion_wait_enter n timeout) s (fun r s' => kinv (b_k s') /\
    if flag =? RT_COMPLETED then r = Returned RT_EOK /\ b_k s' = b_k s /\ completion_ok s' n RT_UNCOMPLETED None
    else if timeout =? 0 then r = Returned (- RT_ETIMEOUT) /\ s' = s
    else r = Waiting c /\ completion_ok s' n RT_UNCOMPLETED (Some c) /\
         blocked_at (b_k s) (b_k s') (QCompletion n) [c] c (set_th_error RT_EOK th) timeout).
Proof.
  intros Hk Hca [E1 E2 E3 E4] Hmax. destruct s as [k x]. cbn [b_k b_x] in *. unfold rt_completion_wait_enter. kstep. apply wp_beside_k. unfold rt_thread_self. kstep.
  rewrite (ca_current _ _ _ Hca). kstep. apply wp_in_x, (wp_get_at _ flag); [done|]. destruct (flag =? RT_COMPLETED) eqn:Ef; cbn [negb].
  - kstep. apply wp_in_x. unfold put_at. kstep. kstep. split; [done|]. split; [done|]. split; [done|]. split; [apply lookup_insert_eq|by right|done|done].
  - assert (flag = RT_UNCOMPLETED) as -> by (destruct E2 as [->| ->]; done). kstep. apply wp_beside_k, wp_q_nonempty. rewrite E3. rewrite bool_decide_true by done. kstep. apply wp_assert; [done|].
    destruct (timeout =? 0); [by kstep|]. kstep. apply wp_beside_k. kstep. apply (wp_deref _ c); [done|].
    eapply wp_mono; [by apply (wait_completion_wp k n c th)|]. intros r k' [-> Bl]. rewrite E3 in Bl. cbn [app] in Bl. kstep. split; [apply Bl|]. split; [done|]. split; [|done].
    split; [done|by right| |done]. cbn. rewrite (ba_queues _ _ _ _ _ _ _ Bl) by done. by rewrite decide_True.
Qed.

(** Rt_completion_done.  A completion that is done already stays as it is.
    Otherwise the flag is set and the thread that waits, if one does, becomes
    runnable with no error, so that its rt_completion_wait returns RT_EOK and
    uses the completion up; the kernel invariant holds. *)
Theorem rt_completion_done_correct s n flag waiting :
  kinv (b_k s) -> is_Some (k_current (b_k s)) -> completion_ok s n flag waiting ->
  wp (rt_completion_done n) s (fun _ s' => kinv (b_k s') /\ completion_ok s' n RT_COMPLETED None /\
    if flag =? RT_COMPLETED then s' = s
    else woke (b_k s) (b_k s') (QCompletion n) /\
      forall t th, waiting = Some t -> k_threads (b_k s) !! t = Some th -> th_error th = RT_EOK ->
        wp (rt_completion_wait_resume n t) s' (fun r s'' => r = RT_EOK /\ b_k s'' = b_k s' /\ completion_ok s'' n RT_UNCOMPLETED None)).
Proof.
  intros Hk Hc [E1 E2 E3 E4]. destruct s as [k x]. cbn [b_k b_x] in *. unfold rt_completion_done. kstep. apply wp_in_x, (wp_get_at _ flag); [done|].
  destruct (flag =? RT_COMPLETED) eqn:Ef.
  { apply Z.eqb_eq in Ef as ->. kstep. split; [done|]. split; [|done]. rewrite (E4 eq_refl) in *. split; [done|by left|done|done]. }
  kstep. apply wp_in_x. unfold put_at. kstep. apply wp_beside_k. eapply wp_mono; [by apply (wake_one_wp k (QCompletion n))|]. intros [] k' [Hk' W]. cbn [b_k].
  split; [done|]. assert (qget k' (QCompletion n) = []) as Eq.
  { unfold woke in W. rewrite E3 in W. destruct waiting as [t|]; [|subst k'; done]. rewrite (wo_queues _ _ _ _ W) by done. rewrite decide_True by done. by rewrite E3. }
  split; [split; [apply lookup_insert_eq|by left|done|done]|]. split; [done|]. intros t th -> Ht He. unfold woke in W. rewrite E3 in W.
  destruct (wo_thread _ _ _ _ W) as (th0 & th' & E0 & Et & _ & Eth). rewrite Ht in E0. injection E0 as <-. unfold rt_completion_wait_resume, wait_result. kstep. apply wp_beside_k. kstep.
  apply (wp_get_thread _ th'); [done|]. kstep. kstep. apply wp_in_x. unfold put_at. kstep. kstep. assert (th_error th' = th_error th) as -> by exact (f_equal th_error Eth).
  split; [done|]. split; [done|]. split; [cbn; apply lookup_insert_eq|by right|done|done].
Qed.

(** A completion can be lost.  When rt_completion_done runs after the wait of
    a thread has timed out but before that thread runs again, the thread clears
    the flag with -RT_ETIMEOUT: nobody learns that the completion was done. *)
Theorem completion_lost s n t th :
  completion_ok s n RT_COMPLETED None -> k_threads (b_k s) !! t = Some th -> th_error th = - RT_ETIMEOUT ->
  wp (rt_completion_wait_resume n t) s (fun r s' => r = - RT_ETIMEOUT /\ completion_ok s' n RT_UNCOMPLETED None).
Proof.
  intros [E1 E2 E3 E4] Ht He. destruct s as [k x]. cbn [b_k b_x] in *. unfold rt_completion_wait_resume, wait_result. kstep. apply wp_beside_k. kstep.
  apply (wp_get_thread _ th); [done|]. kstep. kstep. apply wp_in_x. unfold put_at. kstep. kstep. split; [done|]. split; [apply lookup_insert_eq|by right|done|done].
Qed.

(** ** Witnesses *)

Definition sample_completions : beside completions := mkBeside sample {[ 0%nat := RT_UNCOMPLETED; 1%nat := RT_COMPLETED ]}.
Lemma sample_completion0 : completion_ok sample_completions 0 RT_UNCOMPLETED None.
Proof. split; [done|by right|done|done]. Qed.

Lemma rt_completion_wait_correct_witness :
  wp (rt_completion_wait_enter 0 10) sample_completions (fun r s' => kinv (b_k s') /\ r = Waiting 1 /\ completion_ok s' 0 RT_UNCOMPLETED (Some 1%nat) /\
    blocked_at sample (b_k s') (QCompletion 0) [1%nat] 1 (set_th_error RT_EOK (sample_thread 10 RT_THREAD_RUNNING)) 10).
Proof.
  exact (rt_completion_wait_correct sample_completions 0 RT_UNCOMPLETED 1 _ 10 sample_kinv sample_caller sample_completion0 ltac:(by rewrite TICK_HALF_val)).
Defined.
Lemma rt_completion_done_correct_witness :
  wp (rt_completion_done 0) sample_completions (fun _ s' => kinv (b_k s') /\ completion_ok s' 0 RT_COMPLETED None /\
    (woke sample (b_k s') (QCompletion 0) /\ forall t th, None = Some t -> k_threads sample !! t = Some th -> th_error th = RT_EOK ->
        wp (rt_completion_wait_resume 0 t) s' (fun r s'' => r = RT_EOK /\ b_k s'' = b_k s' /\ completion_ok s'' 0 RT_UNCOMPLETED None))).
Proof. exact (rt_completion_done_correct sample_completions 0 RT_UNCOMPLETED None sample_kinv ltac:(by eexists) sample_completion0). Defined.
Lemma completion_lost_witness :
  wp (rt_completion_wait_resume 1 1) (mkBeside (upd_thread 1 (set_th_error (- RT_ETIMEOUT) (sample_thread 10 RT_THREAD_RUNNING)) sample) {[ 1%nat := RT_COMPLETED ]})
    (fun r s' => r = - RT_ETIMEOUT /\ completion_ok s' 1 RT_UNCOMPLETED None).
Proof.
  apply (completion_lost _ 1 1 (set_th_error (- RT_ETIMEOUT) (sample_thread 10 RT_THREAD_RUNNING))); [|reflexivity|reflexivity]. split; [done|by left|done|done].
Defined.
