(* ===== verification/DataQueue.v ===== *)
(** * Data queues (components/drivers/src/dataqueue.c)

    A ring of (pointer, size) items between drivers and applications.  Beside the
    kernel: the structure of each queue; the two waiting lists are [QPush] and
    [QPop] (waiting_lwm of the structure is never used).  To call evt_notify is the last thing a call does: the event is part
    of the result. *)

From S2P Require Import Prelude Ffs KState Wf Inv Sched Object Timer Thread TimerRun Sleep Ipc Beside.

Definition RT_DATAQUEUE_EVENT_POP : Z := 0x01.
Definition RT_DATAQUEUE_EVENT_PUSH : Z := 0x02.
Definition RT_DATAQUEUE_EVENT_LWM : Z := 0x03.

Record rt_data_queue := mkDq {
  dq_size : Z;  (** rt_uint16_t *)
  dq_lwm : Z;  (** rt_uint16_t *)
  dq_get_index : Z;  (** rt_uint16_t *)
  dq_put_index : Z;  (** rt_uint16_t *)
  dq_queue : list (Z * Z);  (** struct rt_data_item; none for RT_NULL *)
  dq_evt_notify : bool  (** it is not RT_NULL *)
}.
Definition data_queues : Type := gmap nat rt_data_queue.
Definition Q (A : Type) : Type := M (beside data_queues) A.

(** The event to notify at the end of a call. *)
Definition evt_notify (dq : rt_data_queue) (event : Z) : option Z := if dq_evt_notify dq then Some event else None.

(** [malloced]: the items, uninitialised, that rt_malloc found room for, if it did. *)
Definition rt_data_queue_init (n : nat) (size lwm : Z) (notify : bool) (malloced : option (list (Z * Z))) : Q Z :=
  in_k (q_init (QPush n)) ;;
  in_k (q_init (QPop n)) ;;
  in_x (put_at n (mkDq size lwm 0 0 (default [] malloced) notify)) ;;
  ret (if malloced is None then - RT_ENOMEM else RT_EOK).

(** The slot of an index. *)
Definition dq_slot (dq : rt_data_queue) (index : Z) : Q nat :=
  valid (negb (dq_size dq =? 0)) ;;
  let i := Z.to_nat (index `mod` dq_size dq) in
  valid (i <? length (dq_queue dq))%nat ;;
  ret i.

(** The loop of rt_data_queue_push and what follows it. *)
Definition push_while (n : nat) (self : option nat) (data_ptr data_size timeout : Z) : Q (outcome (Z * option Z)) :=
  dq <- in_x (get_at n) ;;
  if dq_put_index dq - dq_get_index dq =? dq_size dq then
    if timeout =? 0 then ret (Returned (- RT_ETIMEOUT, None))
    else
      in_k RT_DEBUG_NOT_IN_INTERRUPT ;;
      t <- deref (fun _ => self) ;;
      in_k (wait_behind (QPush n) t timeout) ;;
      ret (Waiting t)
  else
    i <- dq_slot dq (dq_put_index dq) ;;
    let dq := mkDq (dq_size dq) (dq_lwm dq) (dq_get_index dq) (u16 (dq_put_index dq + 1)) (<[i := (data_ptr, data_size)]> (dq_queue dq)) (dq_evt_notify dq) in
    in_x (put_at n dq) ;;
    waiting <- in_k (q_nonempty (QPop n)) ;;
    if waiting then
      in_k (rt_ipc_list_resume (QPop n) ;; rt_schedule) ;;
      ret (Returned (RT_EOK, None))
    else ret (Returned (RT_EOK, evt_notify dq RT_DATAQUEUE_EVENT_PUSH)).
Definition rt_data_queue_push_enter (n : nat) (data_ptr data_size timeout : Z) : Q (outcome (Z * option Z)) :=
  self <- in_k rt_thread_self ;;
  push_while n self data_ptr data_size timeout.
Definition rt_data_queue_push_resume (n t : nat) (data_ptr data_size timeout : Z) : Q (outcome (Z * option Z)) :=
  result <- in_k (wait_result t) ;;
  if negb (result =? RT_EOK) then ret (Returned (result, None))
  else push_while n (Some t) data_ptr data_size timeout.

(** Result, item and event. *)
Definition popped : Type := Z * option (Z * Z) * option Z.
Definition pop_while (n : nat) (self : option nat) (timeout : Z) : Q (outcome popped) :=
  dq <- in_x (get_at n) ;;
  if dq_get_index dq =? dq_put_index dq then
    if timeout =? 0 then ret (Returned (- RT_ETIMEOUT, None, None))
    else
      in_k RT_DEBUG_NOT_IN_INTERRUPT ;;
      t <- deref (fun _ => self) ;;
      in_k (wait_behind (QPop n) t timeout) ;;
      ret (Waiting t)
  else
    i <- dq_slot dq (dq_get_index dq) ;;
    item <- deref (fun _ => dq_queue dq !! i) ;;
    let dq := mkDq (dq_size dq) (dq_lwm dq) (u16 (dq_get_index dq + 1)) (dq_put_index dq) (dq_queue dq) (dq_evt_notify dq) in
    in_x (put_at n dq) ;;
    if dq_put_index dq - dq_get_index dq <=? dq_lwm dq then
      in_k (wake_one (QPush n)) ;;
      ret (Returned (RT_EOK, Some item, evt_notify dq RT_DATAQUEUE_EVENT_LWM))
    else ret (Returned (RT_EOK, Some item, evt_notify dq RT_DATAQUEUE_EVENT_POP)).
Definition rt_data_queue_pop_enter (n : nat) (timeout : Z) : Q (outcome popped) :=
  self <- in_k rt_thread_self ;;
  pop_while n self timeout.
Definition rt_data_queue_pop_resume (n t : nat) (timeout : Z) : Q (outcome popped) :=
  result <- in_k (wait_result t) ;;
  if negb (result =? RT_EOK) then ret (Returned (result, None, None))
  else pop_while n (Some t) timeout.

Definition rt_data_queue_peak (n : nat) : Q (Z * option (Z * Z)) :=
  dq <- in_x (get_at n) ;;
  if dq_get_index dq =? dq_put_index dq then ret (- RT_EEMPTY, None)
  else
    i <- dq_slot dq (dq_get_index dq) ;;
    item <- deref (fun _ => dq_queue dq !! i) ;;
    ret (RT_EOK, Some item).

Definition rt_data_queue_reset (n : nat) : Q unit :=
  in_k (
    rt_enter_critical ;;
    rt_ipc_list_resume_all (QPop n) ;;
    rt_ipc_list_resume_all (QPush n) ;;
    rt_exit_critical ;;
    rt_schedule).

(** ** The queue as a sequence

    As long as no index has wrapped around, the queue holds the sequence [l]: its
    items lie in the slots from get_index on. *)

Record dq_ok (dq : rt_data_queue) (l : list (Z * Z)) : Prop := {
  qo_size : 0 < dq_size dq;
  qo_room : length (dq_queue dq) = Z.to_nat (dq_size dq);
  qo_get : 0 <= dq_get_index dq;
  qo_put : dq_put_index dq = dq_get_index dq + Z.of_nat (length l);
  qo_width : dq_put_index dq < 2 ^ 16;
  qo_fits : Z.of_nat (length l) <= dq_size dq;
  qo_items : forall i, (i < length l)%nat -> dq_queue dq !! Z.to_nat ((dq_get_index dq + Z.of_nat i) `mod` dq_size dq) = l !! i
}.

Lemma mod_window g i j s : 0 < s -> 0 <= i < j -> j < i + s -> (g + i) `mod` s <> (g + j) `mod` s.
Proof.
  intros Hs Hi Hj E. assert ((j - i) `mod` s = 0) as H0.
  { replace (j - i) with ((g + j) - (g + i)) by lia. rewrite Zminus_mod, E, Z.sub_diag. by apply Z.mod_0_l; lia. }
  rewrite Z.mod_small in H0; lia.
Qed.

Definition pushed (item : Z * Z) (dq : rt_data_queue) : rt_data_queue :=
  mkDq (dq_size dq) (dq_lwm dq) (dq_get_index dq) (u16 (dq_put_index dq + 1)) (<[Z.to_nat (dq_put_index dq `mod` dq_size dq) := item]> (dq_queue dq)) (dq_evt_notify dq).
Definition taken (dq : rt_data_queue) : rt_data_queue :=
  mkDq (dq_size dq) (dq_lwm dq) (u16 (dq_get_index dq + 1)) (dq_put_index dq) (dq_queue dq) (dq_evt_notify dq).

Lemma slot_bound dq x : 0 < dq_size dq -> (Z.to_nat (x `mod` dq_size dq) < Z.to_nat (dq_size dq))%nat.
Proof. intros H. pose proof (Z.mod_pos_bound x (dq_size dq) H). lia. Qed.
Lemma dq_slot_wp dq index k x (P : nat -> beside data_queues -> Prop) : 0 < dq_size dq -> length (dq_queue dq) = Z.to_nat (dq_size dq) ->
  P (Z.to_nat (index `mod` dq_size dq)) (mkBeside k x) -> wp (dq_slot dq index) (mkBeside k x) P.
Proof.
  intros Hs Hr HP. unfold dq_slot. kstep. apply wp_valid; [apply negb_true_iff, Z.eqb_neq; lia|]. kstep. apply wp_valid; [|by kstep].
  apply Nat.ltb_lt. rewrite Hr. by apply slot_bound.
Qed.

Lemma pushed_ok dq l item : dq_ok dq l -> Z.of_nat (length l) < dq_size dq -> dq_put_index dq < 2 ^ 16 - 1 -> dq_ok (pushed item dq) (l ++ [item]).
Proof.
  intros [Q1 Q2 Q3 Q4 Q5 Q6 Q7] Hl Hp. split; cbn [dq_size dq_queue dq_get_index dq_put_index pushed].
  - done.
  - by rewrite length_insert.
  - done.
  - rewrite u16_small, length_app by lia. cbn. lia.
  - rewrite u16_small; lia.
  - rewrite length_app. cbn. lia.
  - intros i Hi. rewrite length_app in Hi. cbn in Hi. rewrite Q4. destruct (decide (i = length l)) as [->|Hne].
    + rewrite list_lookup_insert_eq, lookup_app_r, Nat.sub_diag by (rewrite ?Q2; first [by apply slot_bound|lia]). done.
    + rewrite list_lookup_insert_ne.
      * rewrite Q7, lookup_app_l by lia. done.
      * intros E. apply (mod_window (dq_get_index dq) (Z.of_nat i) (Z.of_nat (length l)) (dq_size dq)); [done|lia|lia|].
        pose proof (Z.mod_pos_bound (dq_get_index dq + Z.of_nat i) (dq_size dq) Q1). pose proof (Z.mod_pos_bound (dq_get_index dq + Z.of_nat (length l)) (dq_size dq) Q1). lia.
Qed.
Lemma dq_taken_ok dq item l : dq_ok dq (item :: l) -> dq_ok (taken dq) l /\ dq_queue dq !! Z.to_nat (dq_get_index dq `mod` dq_size dq) = Some item.
Proof.
  intros [Q1 Q2 Q3 Q4 Q5 Q6 Q7]. cbn [length] in *. split.
  - split; cbn [dq_size dq_queue dq_get_index dq_put_index taken]; rewrite ?u16_small by lia; try done; try lia.
    intros i Hi. specialize (Q7 (S i) ltac:(lia)). change ((item :: l) !! S i) with (l !! i) in Q7. rewrite <- Q7. do 3 f_equal. lia.
  - specialize (Q7 0%nat ltac:(lia)). rewrite Z.add_0_r in Q7. done.
Qed.

(** The state after a push or a pop that did not wait. *)
Definition at_queue (s s' : beside data_queues) (n : nat) (dq : rt_data_queue) : Prop := b_x s' = <[n := dq]> (b_x s).

(** What a push does: refused or waiting when the queue is full, otherwise the
    item is the last one and the first thread that waits to pop is woken. *)
Definition push_result (s : beside data_queues) (n : nat) (dq : rt_data_queue) (l : list (Z * Z)) (c : nat) (th : rt_thread) (ptr size timeout : Z)
    (r : outcome (Z * option Z)) (s' : beside data_queues) : Prop :=
    if Z.of_nat (length l) =? dq_size dq then
      if timeout =? 0 then r = Returned (- RT_ETIMEOUT, None) /\ s' = s
      else r = Waiting c /\ b_x s' = b_x s /\ blocked_at (b_k s) (b_k s') (QPush n) (qget (b_k s) (QPush n) ++ [c]) c (set_th_error RT_EOK th) timeout
    else r = Returned (RT_EOK, if qget (b_k s) (QPop n) is [] then evt_notify dq RT_DATAQUEUE_EVENT_PUSH else None) /\
      at_queue s s' n (pushed (ptr, size) dq) /\ dq_ok (pushed (ptr, size) dq) (l ++ [(ptr, size)]) /\ woke (b_k s) (b_k s') (QPop n).
(** What a pop does: refused or waiting when the queue is empty, otherwise it
    returns the first item; down at the low-water mark it wakes the first thread
    that waits to push. *)
Definition pop_result (s : beside data_queues) (n : nat) (dq : rt_data_queue) (l : list (Z * Z)) (c : nat) (th : rt_thread) (timeout : Z)
    (r : outcome popped) (s' : beside data_queues) : Prop :=
    match l with
    | [] =>
        if timeout =? 0 then r = Returned (- RT_ETIMEOUT, None, None) /\ s' = s
        else r = Waiting c /\ b_x s' = b_x s /\ blocked_at (b_k s) (b_k s') (QPop n) (qget (b_k s) (QPop n) ++ [c]) c (set_th_error RT_EOK th) timeout
    | item :: l' => at_queue s s' n (taken dq) /\ dq_ok (taken dq) l' /\
        if Z.of_nat (length l') <=? dq_lwm dq
        then r = Returned (RT_EOK, Some item, evt_notify dq RT_DATAQUEUE_EVENT_LWM) /\ woke (b_k s) (b_k s') (QPush n)
        else r = Returned (RT_EOK, Some item, evt_notify dq RT_DATAQUEUE_EVENT_POP) /\ b_k s' = b_k s
    end.

Lemma push_while_wp s n dq l c th ptr size timeout :
  kinv (b_k s) -> caller (b_k s) c th -> b_x s !! n = Some dq -> dq_ok dq l -> dq_put_index dq < 2 ^ 16 - 1 -> timeout < TICK_HALF ->
  wp (push_while n (Some c) ptr size timeout) s (fun r s' => kinv (b_k s') /\
    push_result s n dq l c th ptr size timeout r s').
Proof.
  intros Hk Hca Hn Hq Hp Hmax. destruct s as [k x]. cbn [b_k b_x] in *. pose proof Hq as [Q1 Q2 Q3 Q4 Q5 Q6 Q7]. unfold push_while, push_result. cbn [b_k b_x]. kstep. apply wp_in_x, (wp_get_at _ dq); [done|].
  replace (dq_put_index dq - dq_get_index dq) with (Z.of_nat (length l)) by lia. destruct (Z.eqb_spec (Z.of_nat (length l)) (dq_size dq)) as [E|E].
  - destruct (timeout =? 0); [by kstep|]. kstep. apply wp_beside_k. unfold RT_DEBUG_NOT_IN_INTERRUPT. kstep. kstep. apply wp_assert; [by rewrite (ca_nest _ _ _ Hca)|].
    kstep. apply (wp_deref _ c); [done|]. kstep. apply wp_beside_k. eapply wp_mono; [by apply (wait_behind_wp k (QPush n) c th)|]. intros [] k' Bl. kstep. split; [apply Bl|done].
  - kstep. apply dq_slot_wp; [done|done|]. kstep. apply wp_in_x. unfold put_at. kstep. kstep. apply wp_beside_k, wp_q_nonempty.
    pose proof (pushed_ok dq l (ptr, size) Hq ltac:(lia) Hp) as Hq'. unfold woke. destruct (qget k (QPop n)) as [|t w] eqn:Ew.
    + rewrite bool_decide_true by done. cbn [negb]. kstep. split_and!; done.
    + rewrite bool_decide_false by done. cbn [negb]. kstep. apply wp_beside_k. apply (resume_first_wp k (QPop n) t w); [done|by rewrite (ca_current _ _ _ Hca)|done|done|]. intros k1 P _ Ec.
      eapply wp_mono; [apply rt_schedule_kinv; [apply P|by rewrite Ec, (ca_current _ _ _ Hca)]|]. intros [] k2 (Hk2 & F & Hc2). kstep. split_and!; try done. by eapply woken_post_sched.
Qed.

Lemma pop_while_wp s n dq l c th timeout :
  kinv (b_k s) -> caller (b_k s) c th -> b_x s !! n = Some dq -> dq_ok dq l -> timeout < TICK_HALF ->
  wp (pop_while n (Some c) timeout) s (fun r s' => kinv (b_k s') /\
    pop_result s n dq l c th timeout r s').
Proof.
  intros Hk Hca Hn Hq Hmax. destruct s as [k x]. cbn [b_k b_x] in *. unfold pop_while, pop_result. cbn [b_k b_x]. kstep. apply wp_in_x, (wp_get_at _ dq); [done|]. destruct l as [|item l].
  - rewrite (qo_put _ _ Hq). cbn [length Z.of_nat]. rewrite Z.add_0_r, Z.eqb_refl. destruct (timeout =? 0); [by kstep|]. kstep. apply wp_beside_k. unfold RT_DEBUG_NOT_IN_INTERRUPT. kstep. kstep. apply wp_assert; [by rewrite (ca_nest _ _ _ Hca)|].
    kstep. apply (wp_deref _ c); [done|]. kstep. apply wp_beside_k. eapply wp_mono; [by apply (wait_behind_wp k (QPop n) c th)|]. intros [] k' Bl. kstep. split; [apply Bl|done].
  - destruct (dq_taken_ok _ _ _ Hq) as [Hq' Hi]. pose proof Hq as [Q1 Q2 Q3 Q4 Q5 Q6 Q7]. cbn [length] in *. rewrite (proj2 (Z.eqb_neq _ _)) by lia.
    kstep. apply dq_slot_wp; [done|done|]. kstep. apply (wp_deref _ item); [done|]. kstep. apply wp_in_x. unfold put_at. kstep. cbn [dq_put_index dq_get_index dq_lwm].
    pose proof (qo_put _ _ Hq') as Q4'. cbn [dq_put_index dq_get_index taken] in Q4'. replace (dq_put_index dq - u16 (dq_get_index dq + 1)) with (Z.of_nat (length l)) by lia.
    destruct (Z.of_nat (length l) <=? dq_lwm dq).
    + kstep. apply wp_beside_k. eapply wp_mono; [apply (wake_one_wp k (QPush n)); [done|by rewrite (ca_current _ _ _ Hca)|done]|]. intros [] k' [Hk' W]. kstep. split_and!; done.
    + kstep. split_and!; done.
Qed.

(** Rt_data_queue_push.  While no index wraps around, the queue is a bounded
    sequence: a push appends its item, waking the first thread that waits to pop;
    on a full queue it is refused without waiting, or the caller waits behind
    those who already do.  A caller that is woken returns the error of its wait,
    or tries again. *)
Theorem rt_data_queue_push_correct s n dq l c th ptr size timeout :
  kinv (b_k s) -> caller (b_k s) c th -> b_x s !! n = Some dq -> dq_ok dq l -> dq_put_index dq < 2 ^ 16 - 1 -> timeout < TICK_HALF ->
  wp (rt_data_queue_push_enter n ptr size timeout) s (fun r s' => kinv (b_k s') /\ push_result s n dq l c th ptr size timeout r s') /\
  wp (rt_data_queue_push_resume n c ptr size timeout) s (fun r s' => kinv (b_k s') /\
    if th_error th =? RT_EOK then push_result s n dq l c th ptr size timeout r s' else r = Returned (th_error th, None) /\ s' = s).
Proof.
  intros Hk Hca Hn Hq Hp Hmax. pose proof (push_while_wp s n dq l c th ptr size timeout Hk Hca Hn Hq Hp Hmax) as H. destruct s as [k x]. cbn [b_k b_x] in *. split.
  - unfold rt_data_queue_push_enter. kstep. apply wp_beside_k. unfold rt_thread_self. kstep. by rewrite (ca_current _ _ _ Hca).
  - unfold rt_data_queue_push_resume, wait_result. kstep. apply wp_beside_k. kstep. apply (wp_get_thread _ th); [apply Hca|]. kstep. destruct (th_error th =? RT_EOK); cbn [negb]; [done|by kstep].
Qed.

(** Rt_data_queue_pop.  While no index wraps around, a pop takes the first
    item of the sequence; when no more than the low-water mark are left the first
    thread that waits to push is woken.  On an empty queue the call is refused
    without waiting, or the caller waits behind those who already do.  A caller
    that is woken returns the error of its wait, or tries again. *)
Theorem rt_data_queue_pop_correct s n dq l c th timeout :
  kinv (b_k s) -> caller (b_k s) c th -> b_x s !! n = Some dq -> dq_ok dq l -> timeout < TICK_HALF ->
  wp (rt_data_queue_pop_enter n timeout) s (fun r s' => kinv (b_k s') /\ pop_result s n dq l c th timeout r s') /\
  wp (rt_data_queue_pop_resume n c timeout) s (fun r s' => kinv (b_k s') /\
    if th_error th =? RT_EOK then pop_result s n dq l c th timeout r s' else r = Returned (th_error th, None, None) /\ s' = s).
Proof.
  intros Hk Hca Hn Hq Hmax. pose proof (pop_while_wp s n dq l c th timeout Hk Hca Hn Hq Hmax) as H. destruct s as [k x]. cbn [b_k b_x] in *. split.
  - unfold rt_data_queue_pop_enter. kstep. apply wp_beside_k. unfold rt_thread_self. kstep. by rewrite (ca_current _ _ _ Hca).
  - unfold rt_data_queue_pop_resume, wait_result. kstep. apply wp_beside_k. kstep. apply (wp_get_thread _ th); [apply Hca|]. kstep. destruct (th_error th =? RT_EOK); cbn [negb]; [done|by kstep].
Qed.

Lemma rt_data_queue_peak_wp k x n dq l : x !! n = Some dq -> dq_ok dq l ->
  wp (rt_data_queue_peak n) (mkBeside k x) (fun r s' => s' = mkBeside k x /\ r = match l with [] => (- RT_EEMPTY, None) | item :: _ => (RT_EOK, Some item) end).
Proof.
  intros Hn Hq. unfold rt_data_queue_peak. kstep. apply wp_in_x, (wp_get_at _ dq); [done|]. pose proof Hq as [Q1 Q2 Q3 Q4 Q5 Q6 Q7]. destruct l as [|item l].
  - rewrite Q4, Z.add_0_r, Z.eqb_refl. by kstep.
  - destruct (dq_taken_ok _ _ _ Hq) as [_ Hi]. cbn [length] in *. rewrite (proj2 (Z.eqb_neq _ _)) by lia. kstep. apply dq_slot_wp; [done|done|]. kstep. apply (wp_deref _ item); [done|]. by kstep.
Qed.

Lemma rt_data_queue_init_ok s n size lwm notify items :
  0 < size < 2 ^ 16 -> length items = Z.to_nat size ->
  wp (rt_data_queue_init n size lwm notify (Some items)) s (fun r s' => r = RT_EOK /\ qget (b_k s') (QPush n) = [] /\ qget (b_k s') (QPop n) = [] /\
    exists dq, b_x s' = <[n := dq]> (b_x s) /\ dq_ok dq []).
Proof.
  intros Hs Hi. destruct s as [k x]. unfold rt_data_queue_init. kstep. apply wp_beside_k. unfold q_init. kstep. kstep. apply wp_beside_k. kstep. kstep. apply wp_in_x. unfold put_at. kstep. kstep.
  cbn [b_k b_x default]. split; [done|]. split; [unfold qget; cbn; by rewrite lookup_insert_ne, lookup_insert_eq|]. split; [unfold qget; cbn; by rewrite lookup_insert_eq|]. eexists. split; [done|]. split; cbn; try done; try lia.
Qed.

(** A full data queue overwrites its oldest item once put_index has wrapped
    around.  From a queue with one free place at put_index 65535, of a size that
    divides 65536, the next push fills the queue and the push after it, which
    should be refused, succeeds: the oldest item is gone, rt_data_queue_peak
    returns the new one in its place. *)
Theorem data_queue_overwrites k x n dq l a b : let s := mkBeside k x in
  x !! n = Some dq -> dq_ok dq l -> dq_put_index dq = 2 ^ 16 - 1 -> Z.of_nat (length l) + 1 = dq_size dq -> 2 ^ 16 `mod` dq_size dq = 0 -> qget k (QPop n) = [] ->
  wp (r1 <- push_while n None (fst a) (snd a) 0 ;; r2 <- push_while n None (fst b) (snd b) 0 ;; p <- rt_data_queue_peak n ;; ret (r1, r2, p)) s
    (fun r _ => r = (Returned (RT_EOK, evt_notify dq RT_DATAQUEUE_EVENT_PUSH), Returned (RT_EOK, evt_notify dq RT_DATAQUEUE_EVENT_PUSH), (RT_EOK, Some b))).
Proof.
  intros s Hn Hq Hp Hl Hd Hw. subst s. pose proof Hq as [Q1 Q2 Q3 Q4 Q5 Q6 Q7]. assert (dq_size dq < 2 ^ 16 + 1) as Hsz by lia.
  assert (forall d v, dq_put_index d - dq_get_index d <> dq_size d -> 0 < dq_size d -> length (dq_queue d) = Z.to_nat (dq_size d) ->
    wp (push_while n None (fst v) (snd v) 0) (mkBeside k (<[n := d]> x)) (fun r s' => r = Returned (RT_EOK, evt_notify d RT_DATAQUEUE_EVENT_PUSH) /\ s' = mkBeside k (<[n := pushed v d]> x))) as Hpush.
  { intros d v H1 H2 H3. unfold push_while. kstep. apply wp_in_x, (wp_get_at _ d); [apply lookup_insert_eq|]. rewrite (proj2 (Z.eqb_neq _ _)) by done. kstep. apply dq_slot_wp; [done|done|].
    kstep. apply wp_in_x. unfold put_at. kstep. kstep. apply wp_beside_k, wp_q_nonempty. rewrite Hw, bool_decide_true by done. cbn [negb]. kstep. split; [done|]. unfold data_queues. rewrite insert_insert_eq. by destruct v. }
  kstep. replace x with (<[n := dq]> x) at 1 by (by apply insert_id). eapply wp_mono; [apply Hpush; [lia|done|done]|]. intros r1 s1 [-> ->].
  assert (dq_get_index dq = 2 ^ 16 - dq_size dq) as Eg by lia. assert (u16 (dq_put_index dq + 1) = 0) as Eu by (rewrite Hp; reflexivity).
  kstep. eapply wp_mono; [apply Hpush|].
  - cbn [dq_put_index dq_get_index dq_size pushed]. rewrite Eu. lia.
  - done.
  - cbn [dq_queue dq_size pushed]. by rewrite length_insert.
  - intros r2 s2 [-> ->]. kstep. unfold rt_data_queue_peak. kstep. apply wp_in_x. eapply wp_get_at; [apply lookup_insert_eq|]. cbn [dq_put_index dq_get_index pushed]. rewrite Eu.
    change (u16 (0 + 1)) with 1. destruct (Z.eqb_spec (dq_get_index dq) 1) as [E1|E1].
    { exfalso. assert (dq_size dq = 65535) as Es by lia. rewrite Es in Hd. vm_compute in Hd. done. }
    kstep. apply dq_slot_wp; [done|cbn [dq_queue dq_size pushed]; by rewrite !length_insert|]. cbn [dq_size pushed]. kstep. eapply (wp_deref _ b); [|kstep; kstep; done].
    cbn [dq_queue pushed dq_put_index dq_size]. rewrite Eu, Eg. replace ((2 ^ 16 - dq_size dq) `mod` dq_size dq) with 0.
    2:{ symmetry. rewrite <- (Z.mod_add _ 1), Z.mul_1_l, Z.sub_add by lia. done. }
    rewrite Z.mod_0_l by lia. cbn [Z.to_nat]. rewrite list_lookup_insert_eq; [done|]. rewrite length_insert, Q2. lia.
Qed.

(** rt_data_queue_reset: every thread that waits is made runnable and its call
    fails with -RT_ERROR, both waiting lists are empty; the items stay in the
    queue. *)
Theorem rt_data_queue_reset_correct s n :
  kinv (b_k s) -> is_Some (k_current (b_k s)) -> 0 <= k_lock_nest (b_k s) < 2 ^ 15 - 1 ->
  wp (rt_data_queue_reset n) s (fun _ s' => kinv (b_k s') /\ b_x s' = b_x s /\ qget (b_k s') (QPop n) = [] /\ qget (b_k s') (QPush n) = [] /\
    failed (b_k s') (qget (b_k s) (QPop n) ++ qget (b_k s) (QPush n))).
Proof.
  intros Hk Hc Hl. destruct s as [k x]. cbn [b_k b_x] in *. unfold rt_data_queue_reset. apply wp_beside_k. unfold rt_enter_critical. kstep. kstep. rewrite i16_small by lia.
  set (k1 := set_k_lock_nest (k_lock_nest k + 1) k). assert (kinv k1) as Hk1 by by apply kinv_lock_nest.
  kstep. eapply wp_mono; [apply (rt_ipc_list_resume_all_wp k1 (QPop n)); done|]. intros r k2 [-> A1]. change (qget k1 (QPop n)) with (qget k (QPop n)) in A1.
  kstep. eapply wp_mono; [apply (rt_ipc_list_resume_all_wp k2 (QPush n)); [apply A1|done]|]. intros r k3 [-> A2].
  assert (qget k2 (QPush n) = qget k (QPush n)) as Ep.
  { rewrite (ar_queues _ _ _ A1) by done. change (qget k1 (QPush n)) with (qget k (QPush n)). apply filter_none. intros t Hi Hin.
    by pose proof (wf_unique (proj1 Hk) (QPop n) (QPush n) t Hin Hi). }
  rewrite Ep in A2. destruct (kframe_nest _ _ (ar_frame _ _ _ A1)) as (_ & N1 & _). destruct (kframe_nest _ _ (ar_frame _ _ _ A2)) as (_ & N2 & _).
  assert (failed k3 (qget k (QPop n) ++ qget k (QPush n))) as Hf.
  { intros t Ht. destruct (decide (t ∈ qget k (QPush n))) as [Hin|Hn].
    - destruct (ar_woken _ _ _ A2 t Hin) as (th & th' & _ & E & Hr & Eth). exists th'. split_and!; [done|done|exact (f_equal th_error Eth)].
    - apply elem_of_app in Ht as [Ht|Ht]; [|done]. destruct (ar_woken _ _ _ A1 t Ht) as (th & th' & _ & E & Hr & Eth). exists th'. rewrite (ar_others _ _ _ A2) by done.
      split_and!; [done|done|exact (f_equal th_error Eth)]. }
  kstep. eapply wp_mono; [apply exit_critical_kinv; [apply A2|by rewrite (ar_current _ _ _ A2), (ar_current _ _ _ A1)|rewrite N2, N1; unfold k1; cbn; lia]|]. intros [] k4 (Hk4 & F4 & Hc4).
  eapply wp_mono; [by apply rt_schedule_kinv|]. intros [] k5 (Hk5 & F5 & _).
  assert (forall q, wait_list q -> qget k5 q = qget k3 q) as Eq.
  { intros q Hq. rewrite (sf_queues _ _ F5), (sf_queues _ _ F4) by by apply wait_list_not_ready. done. }
  split; [done|]. split; [done|]. rewrite !Eq, !(ar_queues _ _ _ A2), !(ar_queues _ _ _ A1) by done.
  change (qget k1 (QPop n)) with (qget k (QPop n)). change (qget k1 (QPush n)) with (qget k (QPush n)). split_and!.
  - by rewrite filter_self.
  - apply elem_of_nil_inv. intros t. rewrite !list_elem_of_filter. tauto.
  - eapply failed_sched; [exact F5|]. eapply failed_sched; [exact F4|]. exact Hf.
Qed.

(** ** Witnesses *)

Definition sample_dq : rt_data_queue := mkDq 2 1 65533 65534 [(0, 0); (7, 1)] true.
Definition sample_dq_wrap : rt_data_queue := mkDq 2 1 65534 65535 [(7, 1); (0, 0)] true.
Definition sample_queues : beside data_queues := mkBeside sample {[ 0%nat := sample_dq; 1%nat := sample_dq_wrap ]}.
Lemma sample_dq_ok : dq_ok sample_dq [(7, 1)] /\ dq_ok sample_dq_wrap [(7, 1)].
Proof. split; (split; try done; intros i Hi; cbn in Hi; by assert (i = 0%nat) as -> by lia). Qed.

Lemma rt_data_queue_push_correct_witness :
  wp (rt_data_queue_push_enter 0 8 1 0) sample_queues (fun r s' => kinv (b_k s') /\ push_result sample_queues 0 sample_dq [(7, 1)] 1 (sample_thread 10 RT_THREAD_RUNNING) 8 1 0 r s').
Proof.
  exact (proj1 (rt_data_queue_push_correct sample_queues 0 sample_dq [(7, 1)] 1 _ 8 1 0 sample_kinv sample_caller eq_refl (proj1 sample_dq_ok) ltac:(by vm_compute) ltac:(by rewrite TICK_HALF_val))).
Defined.
Lemma rt_data_queue_pop_correct_witness :
  wp (rt_data_queue_pop_enter 0 0) sample_queues (fun r s' => kinv (b_k s') /\ pop_result sample_queues 0 sample_dq [(7, 1)] 1 (sample_thread 10 RT_THREAD_RUNNING) 0 r s').
Proof.
  exact (proj1 (rt_data_queue_pop_correct sample_queues 0 sample_dq [(7, 1)] 1 _ 0 sample_kinv sample_caller eq_refl (proj1 sample_dq_ok) ltac:(by rewrite TICK_HALF_val))).
Defined.
Lemma data_queue_overwrites_witness :
  wp (r1 <- push_while 1 None 8 1 0 ;; r2 <- push_while 1 None 9 1 0 ;; p <- rt_data_queue_peak 1 ;; ret (r1, r2, p)) sample_queues
    (fun r _ => r = (Returned (RT_EOK, Some RT_DATAQUEUE_EVENT_PUSH), Returned (RT_EOK, Some RT_DATAQUEUE_EVENT_PUSH), (RT_EOK, Some (9, 1)))).
Proof.
  exact (data_queue_overwrites sample {[ 0%nat := sample_dq; 1%nat := sample_dq_wrap ]} 1 sample_dq_wrap [(7, 1)] (8, 1) (9, 1) eq_refl (proj2 sample_dq_ok) eq_refl eq_refl eq_refl eq_refl).
Defined.
Lemma rt_data_queue_reset_correct_witness :
  wp (rt_data_queue_reset 0) sample_queues (fun _ s' => kinv (b_k s') /\ b_x s' = b_x sample_queues /\ qget (b_k s') (QPop 0) = [] /\ qget (b_k s') (QPush 0) = [] /\ failed (b_k s') []).
Proof. exact (rt_data_queue_reset_correct sample_queues 0 sample_kinv ltac:(by eexists) ltac:(by split)). Defined.
