(* ===== verification/WaitQueue.v ===== *)
(** * Wait queues (components/drivers/src/waitqueue.c, include/ipc/waitqueue.h)

    Threads that wait for a condition of a device.  Beside the kernel: the queues
    and the nodes linked in them.  A waiting thread is in no list of the kernel;
    its node, the variable __wait of rt_wqueue_wait, is in the queue. *)

From S2P Require Import Prelude Ffs KState Wf Inv Sched Object Timer Thread TimerRun Sleep Ipc Beside.

Definition RT_WQ_FLAG_CLEAN : Z := 0x00.
Definition RT_WQ_FLAG_WAKEUP : Z := 0x01.

(** The variable __wait of a thread, or a node a driver or poll declares. *)
Inductive wq_node := Wait (t : nat) | WqNode (n : nat).
#[global] Instance wq_node_eq_dec : EqDecision wq_node.
Proof. solve_decision. Defined.
#[global] Instance wq_node_countable : Countable wq_node.
Proof.
  refine (inj_countable' (fun x => match x with Wait t => inl t | WqNode n => inr n end)
    (fun y => match y with inl t => Wait t | inr n => WqNode n end) _); by intros [].
Defined.

Record rt_wqueue_node := mkWqn {
  wqn_polling_thread : nat;
  wqn_wakeup : Z -> Z;  (** on the key of the wake-up; it keeps no state here *)
  wqn_key : Z
}.
Record rt_wqueue := mkWq { wq_flag : Z; wq_waiting_list : list wq_node }.
Record wqueues := mkWqs { w_queues : gmap nat rt_wqueue; w_nodes : gmap wq_node rt_wqueue_node }.
Definition W (A : Type) : Type := M (beside wqueues) A.

Definition set_queue (n : nat) (q : rt_wqueue) (x : wqueues) : wqueues := mkWqs (<[n := q]> (w_queues x)) (w_nodes x).
Definition set_node (i : wq_node) (v : rt_wqueue_node) (x : wqueues) : wqueues := mkWqs (w_queues x) (<[i := v]> (w_nodes x)).
Definition get_wqueue (n : nat) : W rt_wqueue := in_x (deref (fun x => w_queues x !! n)).
Definition put_wqueue (n : nat) (q : rt_wqueue) : W unit := in_x (modify (set_queue n q)).
Definition get_node (i : wq_node) : W rt_wqueue_node := in_x (deref (fun x => w_nodes x !! i)).

(** The queue rt_wqueue_init leaves, also where the queue is part of a device. *)
Definition empty_wqueue : rt_wqueue := mkWq RT_WQ_FLAG_CLEAN [].
Definition rt_wqueue_init (n : nat) : W unit := put_wqueue n empty_wqueue.

Definition rt_wqueue_add (n : nat) (i : wq_node) : W unit :=
  q <- get_wqueue n ;;
  put_wqueue n (mkWq (wq_flag q) (wq_waiting_list q ++ [i])).
(** A node takes itself out of the list it is linked in, if it is in one. *)
Definition unlinked (i : wq_node) (q : rt_wqueue) : rt_wqueue := mkWq (wq_flag q) (filter (fun j => j <> i) (wq_waiting_list q)).
Definition rt_wqueue_remove (i : wq_node) : W unit :=
  get_node i ;;
  in_x (modify (fun x => mkWqs (unlinked i <$> w_queues x) (w_nodes x))).

Definition wqueue_default_wake (key : Z) : Z := 0.

(** The loop over the nodes; the result is need_schedule. *)
Fixpoint wakeup_loop (key : Z) (nodes : list wq_node) : W bool :=
  match nodes with
  | [] => ret false
  | i :: nodes =>
      entry <- get_node i ;;
      if wqn_wakeup entry key =? 0 then
        in_k (rt_thread_resume (wqn_polling_thread entry)) ;;
        rt_wqueue_remove i ;;
        ret true
      else wakeup_loop key nodes
  end.
Definition rt_wqueue_wakeup (n : nat) (key : Z) : W unit :=
  q <- get_wqueue n ;;
  put_wqueue n (mkWq RT_WQ_FLAG_WAKEUP (wq_waiting_list q)) ;;
  need_schedule <- wakeup_loop key (wq_waiting_list q) ;;
  when need_schedule (in_k rt_schedule).

(** __exit_wakeup *)
Definition wait_exit (n t : nat) : W Z :=
  q <- get_wqueue n ;;
  put_wqueue n (mkWq 0 (wq_waiting_list q)) ;;
  rt_wqueue_remove (Wait t) ;;
  ret 0.
(** [tick] keeps the value of rt_tick_from_millisecond: it is zero or
    RT_WAITING_FOREVER as an int exactly when it is as an rt_tick_t. *)
Definition rt_wqueue_wait_enter (n : nat) (condition : bool) (msec : Z) : W (outcome Z) :=
  self <- in_k rt_thread_self ;;
  tid <- deref (fun _ => self) ;;
  in_k RT_DEBUG_NOT_IN_INTERRUPT ;;
  let tick := rt_tick_from_millisecond msec in
  if condition || (tick =? 0) then ret (Returned 0)
  else
    in_x (modify (set_node (Wait tid) (mkWqn tid wqueue_default_wake 0))) ;;
    q <- get_wqueue n ;;
    if wq_flag q =? RT_WQ_FLAG_WAKEUP then
      r <- wait_exit n tid ;; ret (Returned r)
    else
      rt_wqueue_add n (Wait tid) ;;
      in_k (
        rt_thread_suspend tid ;;
        when (negb (tick =? u32 RT_WAITING_FOREVER)) (start_thread_timer tid tick) ;;
        rt_schedule) ;;
      ret (Waiting tid).
(** What the thread does when it is scheduled again. *)
Definition rt_wqueue_wait_resume (n t : nat) : W Z := wait_exit n t.

(** ** Correctness *)

(** Every linked node is known and in one list only, once; it belongs to a thread
    that is not closed, and the node of a wait to the thread that waits. *)
Record wq_ok (s : beside wqueues) : Prop := {
  wo_known : forall n q i, w_queues (b_x s) !! n = Some q -> i ∈ wq_waiting_list q -> exists e th,
    w_nodes (b_x s) !! i = Some e /\ k_threads (b_k s) !! wqn_polling_thread e = Some th /\ st th <> RT_THREAD_CLOSE;
  wo_nodup : forall n q, w_queues (b_x s) !! n = Some q -> NoDup (wq_waiting_list q);
  wo_one : forall n n' q q' i, w_queues (b_x s) !! n = Some q -> w_queues (b_x s) !! n' = Some q' ->
    i ∈ wq_waiting_list q -> i ∈ wq_waiting_list q' -> n = n';
  wo_wait : forall t e, w_nodes (b_x s) !! Wait t = Some e -> e = mkWqn t wqueue_default_wake 0
}.
Definition linked (s : beside wqueues) (i : wq_node) : Prop := exists n q, w_queues (b_x s) !! n = Some q /\ i ∈ wq_waiting_list q.

(** The first node whose wakeup function accepts the key. *)
Definition accepts (x : wqueues) (key : Z) (i : wq_node) : bool := if w_nodes x !! i is Some e then wqn_wakeup e key =? 0 else false.
Definition first_accepting (x : wqueues) (key : Z) (l : list wq_node) : option wq_node := List.find (accepts x key) l.

Lemma wp_get_wqueue n q k x Q : w_queues x !! n = Some q -> Q q (mkBeside k x) -> wp (get_wqueue n) (mkBeside k x) Q.
Proof. intros E HQ. apply wp_in_x. by apply (wp_deref _ q). Qed.
Lemma wp_get_node i e k x Q : w_nodes x !! i = Some e -> Q e (mkBeside k x) -> wp (get_node i) (mkBeside k x) Q.
Proof. intros E HQ. apply wp_in_x. by apply (wp_deref _ e). Qed.
Lemma wp_put_wqueue n q k x Q : Q tt (mkBeside k (set_queue n q x)) -> wp (put_wqueue n q) (mkBeside k x) Q.
Proof. intros HQ. apply wp_in_x. by kstep. Qed.

Definition removed (i : wq_node) (x : wqueues) : wqueues := mkWqs (unlinked i <$> w_queues x) (w_nodes x).
Lemma wp_remove i e k x Q : w_nodes x !! i = Some e -> Q tt (mkBeside k (removed i x)) -> wp (rt_wqueue_remove i) (mkBeside k x) Q.
Proof. intros E HQ. unfold rt_wqueue_remove. kstep. apply (wp_get_node _ e); [done|]. apply wp_in_x. by kstep. Qed.
Lemma unlinked_free i q : i ∉ wq_waiting_list q -> unlinked i q = q.
Proof.
  intros H. destruct q as [f l]. unfold unlinked. cbn in *. f_equal. induction l as [|j l IH]; [done|]. apply not_elem_of_cons in H as [H1 H2]. rewrite filter_cons, decide_True by done.
  f_equal. by apply IH.
Qed.
Lemma unlinked_rest (i : wq_node) l : NoDup (i :: l) -> filter (fun j => j <> i) l = l.
Proof. intros [Hi _]%NoDup_cons. by pose proof (f_equal wq_waiting_list (unlinked_free i (mkWq 0 l) Hi)). Qed.
(** Removing a node leaves every other queue as it is. *)
Lemma removed_one i n q x : w_queues x !! n = Some q -> (forall n' q', w_queues x !! n' = Some q' -> i ∈ wq_waiting_list q' -> n' = n) ->
  removed i x = set_queue n (unlinked i q) x.
Proof.
  intros Hn H1. unfold removed, set_queue. f_equal. apply map_eq. intros n'. rewrite lookup_fmap. destruct (decide (n' = n)) as [->|Hne]; [by rewrite lookup_insert_eq, Hn|].
  rewrite lookup_insert_ne by done. destruct (w_queues x !! n') as [q'|] eqn:E; [|done]. cbn. f_equal. apply unlinked_free. intros Hin. by apply Hne, (H1 n' q').
Qed.

(** The kernel may go on beside the queues. *)
Lemma wq_ok_kept s k' : wq_ok s -> (forall u, kept (b_k s) k' u \/ exists th, k_threads k' !! u = Some th /\ st th <> RT_THREAD_CLOSE) -> wq_ok (mkBeside k' (b_x s)).
Proof.
  intros [W1 W2 W3 W4] H. split; try done. intros n q i Hn Hi. destruct (W1 n q i Hn Hi) as (e & th & E & Ht & Hc). cbn [b_k b_x]. exists e.
  destruct (H (wqn_polling_thread e)) as [Hk|(th' & E' & Hc')]; [|by exists th'].
  destruct (kept_open _ _ _ _ Hk Ht Hc) as (th' & E' & Hc'). by exists th'.
Qed.
(** A queue whose list shrinks. *)
Lemma wq_ok_sub s n q q' : wq_ok s -> w_queues (b_x s) !! n = Some q -> wq_waiting_list q' `sublist_of` wq_waiting_list q ->
  wq_ok (mkBeside (b_k s) (set_queue n q' (b_x s))).
Proof.
  intros [W1 W2 W3 W4] Hn Hs. assert (forall m r, <[n := q']> (w_queues (b_x s)) !! m = Some r -> exists r0, w_queues (b_x s) !! m = Some r0 /\ wq_waiting_list r `sublist_of` wq_waiting_list r0) as Hold.
  { intros m r. rewrite lookup_insert. case_decide as E; [subst m|eauto]. intros [= <-]. eauto. }
  split; cbn [b_k b_x w_queues w_nodes set_queue].
  - intros m r i Hm Hi. destruct (Hold m r Hm) as (r0 & E & S). apply (W1 m r0 i E). by eapply elem_of_sublist.
  - intros m r Hm. destruct (Hold m r Hm) as (r0 & E & S). eapply sublist_NoDup; [by apply (W2 m r0)|done].
  - intros m m' r r' i Hm Hm' Hi Hi'. destruct (Hold m r Hm) as (r0 & E & S). destruct (Hold m' r' Hm') as (r0' & E' & S'). apply (W3 m m' r0 r0' i E E'); [exact (elem_of_sublist _ _ _ Hi S)|exact (elem_of_sublist _ _ _ Hi' S')].
  - done.
Qed.

Lemma first_accepting_in x key l i : first_accepting x key l = Some i -> i ∈ l /\ accepts x key i = true.
Proof. intros H. apply List.find_some in H as [H1 H2]. split; [by apply list_elem_of_In|done]. Qed.

Lemma wakeup_loop_wp key l : forall s,
  kinv (b_k s) -> is_Some (k_current (b_k s)) -> (forall i, i ∈ l -> exists e th, w_nodes (b_x s) !! i = Some e /\ k_threads (b_k s) !! wqn_polling_thread e = Some th /\ st th <> RT_THREAD_CLOSE) ->
  wp (wakeup_loop key l) s (fun r s' =>
    match first_accepting (b_x s) key l with
    | None => r = false /\ s' = s
    | Some i => r = true /\ b_x s' = removed i (b_x s) /\
        exists e th, w_nodes (b_x s) !! i = Some e /\ k_threads (b_k s) !! wqn_polling_thread e = Some th /\ awake (b_k s) (b_k s') (wqn_polling_thread e) th
    end).
Proof.
  induction l as [|i l IH]; intros [k x] Hk Hc Hl; cbn [b_k b_x wakeup_loop first_accepting List.find] in *; [by kstep|].
  destruct (Hl i ltac:(left)) as (e & th & E & Ht & Hcl). kstep. apply (wp_get_node _ e); [done|]. unfold accepts at 1. rewrite E. destruct (wqn_wakeup e key =? 0).
  - kstep. apply wp_beside_k. eapply wp_mono; [by apply (rt_thread_resume_awake k (wqn_polling_thread e) th)|]. intros r k' A. kstep. apply (wp_remove _ e); [done|]. kstep. split; [done|]. split; [done|]. by exists e, th.
  - eapply wp_mono; [apply (IH (mkBeside k x)); [done|done|intros j Hj; apply Hl; by right]|]. done.
Qed.

Lemma rt_wqueue_wakeup_wp s n q key :
  kinv (b_k s) -> is_Some (k_current (b_k s)) -> wq_ok s -> w_queues (b_x s) !! n = Some q ->
  wp (rt_wqueue_wakeup n key) s (fun _ s' => kinv (b_k s') /\ wq_ok s' /\
    match first_accepting (b_x s) key (wq_waiting_list q) with
    | None => s' = mkBeside (b_k s) (set_queue n (mkWq RT_WQ_FLAG_WAKEUP (wq_waiting_list q)) (b_x s))
    | Some i => b_x s' = set_queue n (mkWq RT_WQ_FLAG_WAKEUP (filter (fun j => j <> i) (wq_waiting_list q))) (b_x s) /\
        exists e th, w_nodes (b_x s) !! i = Some e /\ k_threads (b_k s) !! wqn_polling_thread e = Some th /\ awake (b_k s) (b_k s') (wqn_polling_thread e) th
    end).
Proof.
  intros Hk Hc Hw Hn. destruct s as [k x]. cbn [b_k b_x] in *. set (q1 := mkWq RT_WQ_FLAG_WAKEUP (wq_waiting_list q)). unfold rt_wqueue_wakeup. kstep. apply (wp_get_wqueue _ q); [done|].
  kstep. apply wp_put_wqueue. fold q1. assert (wq_ok (mkBeside k (set_queue n q1 x))) as Hw1 by (by apply (wq_ok_sub (mkBeside k x) n q)).
  kstep. eapply wp_mono; [apply (wakeup_loop_wp key (wq_waiting_list q) (mkBeside k (set_queue n q1 x))); [done|done|intros i; by apply (wo_known _ Hw n q)]|].
  intros r s1. cbn [b_k b_x]. change (first_accepting (set_queue n q1 x) key) with (first_accepting x key). destruct (first_accepting x key (wq_waiting_list q)) as [i|] eqn:Ei.
  - intros (-> & Ex & e & th & E & Ht & A). destruct s1 as [k1 x1]. cbn [b_k b_x] in *. subst x1. destruct (first_accepting_in _ _ _ _ Ei) as [Hin _].
    rewrite (removed_one i n q1) in *; [|apply lookup_insert_eq|intros n' q' Hn' Hi'; by apply (wo_one _ Hw1 n' n q' q1 i); [|apply lookup_insert_eq|..]].
    unfold when. apply wp_beside_k. eapply wp_mono; [apply rt_schedule_kinv; apply A|]. intros [] k2 (Hk2 & F & Hc2). pose proof (awake_sched _ _ _ _ _ A F Hk2 Hc2) as A2. cbn [b_k b_x]. split; [done|].
    unfold set_queue. cbn [w_queues w_nodes]. rewrite insert_insert_eq. split; [|by eauto 10].
    apply (wq_ok_sub (mkBeside k2 x) n q (unlinked i q1)); [|done|apply sublist_filter]. apply (wq_ok_kept (mkBeside k x)); [done|]. cbn [b_k]. intros u.
    destruct (decide (u = wqn_polling_thread e)) as [->|Hu]; [|left; by apply (aw_others _ _ _ _ A2)]. pose proof (aw_thread _ _ _ _ A2) as Hth. destruct (st th =? RT_THREAD_SUSPEND); [|by left].
    destruct Hth as (th' & E' & Hr & _). right. exists th'. split; [done|by apply runnable_open].
  - intros [-> ->]. unfold when. kstep. done.
Qed.

(** Rt_wqueue_wakeup.  The wake-up is remembered in the flag of the queue.
    The first node whose wakeup function accepts the key is unlinked and its
    thread made runnable if it was suspended, and the scheduler runs; every other
    thread and queue stays as it was.  The invariants of the kernel and of the
    queues are kept. *)
Theorem rt_wqueue_wakeup_correct s n q key :
  kinv (b_k s) -> is_Some (k_current (b_k s)) -> wq_ok s -> w_queues (b_x s) !! n = Some q ->
  wp (rt_wqueue_wakeup n key) s (fun _ s' => kinv (b_k s') /\ wq_ok s' /\
    match first_accepting (b_x s) key (wq_waiting_list q) with
    | None => s' = mkBeside (b_k s) (set_queue n (mkWq RT_WQ_FLAG_WAKEUP (wq_waiting_list q)) (b_x s))
    | Some i => b_x s' = set_queue n (mkWq RT_WQ_FLAG_WAKEUP (filter (fun j => j <> i) (wq_waiting_list q))) (b_x s) /\
        exists e th, w_nodes (b_x s) !! i = Some e /\ k_threads (b_k s) !! wqn_polling_thread e = Some th /\ awake (b_k s) (b_k s') (wqn_polling_thread e) th
    end).
Proof. exact (rt_wqueue_wakeup_wp s n q key). Qed.

Lemma wait_exit_wp s n q t e (Q : Z -> beside wqueues -> Prop) :
  wq_ok s -> w_queues (b_x s) !! n = Some q -> w_nodes (b_x s) !! Wait t = Some e -> (forall n' q', w_queues (b_x s) !! n' = Some q' -> Wait t ∈ wq_waiting_list q' -> n' = n) ->
  (let s' := mkBeside (b_k s) (set_queue n (mkWq 0 (filter (fun j => j <> Wait t) (wq_waiting_list q))) (b_x s)) in wq_ok s' -> Q 0 s') -> wp (wait_exit n t) s Q.
Proof.
  intros Hw Hn He H1 HQ. destruct s as [k x]. cbn [b_k b_x] in *. unfold wait_exit. kstep. apply (wp_get_wqueue _ q); [done|]. kstep. apply wp_put_wqueue. kstep. apply (wp_remove _ e); [done|]. kstep.
  set (q1 := mkWq 0 (wq_waiting_list q)). rewrite (removed_one (Wait t) n q1); [|apply lookup_insert_eq|].
  - unfold set_queue. cbn [w_queues w_nodes]. rewrite insert_insert_eq. apply HQ. apply (wq_ok_sub (mkBeside k x) n q); [done|done|apply sublist_filter].
  - intros n' q' Hn' Hi. cbn in Hn'. rewrite lookup_insert in Hn'. case_decide; [done|]. by apply (H1 n' q').
Qed.

(** The thread sets its node up, and may link it. *)
Lemma wq_ok_node s t : wq_ok s -> ~ linked s (Wait t) -> wq_ok (mkBeside (b_k s) (set_node (Wait t) (mkWqn t wqueue_default_wake 0) (b_x s))).
Proof.
  intros [W1 W2 W3 W4] Hl. split; cbn [b_k b_x w_queues w_nodes set_node]; try done.
  - intros n q i Hn Hi. destruct (W1 n q i Hn Hi) as (e & th & E & H). exists e, th. rewrite lookup_insert_ne; [done|]. intros <-. apply Hl. by exists n, q.
  - intros u e. rewrite lookup_insert. case_decide as E; [injection E as ->; by intros [= <-]|]. apply W4.
Qed.
Lemma wq_ok_link s n q i e th : wq_ok s -> w_queues (b_x s) !! n = Some q -> ~ linked s i ->
  w_nodes (b_x s) !! i = Some e -> k_threads (b_k s) !! wqn_polling_thread e = Some th -> st th <> RT_THREAD_CLOSE ->
  wq_ok (mkBeside (b_k s) (set_queue n (mkWq (wq_flag q) (wq_waiting_list q ++ [i])) (b_x s))).
Proof.
  intros [W1 W2 W3 W4] Hn Hl He Ht Hc. set (q' := mkWq _ _).
  assert (forall m r j, <[n := q']> (w_queues (b_x s)) !! m = Some r -> j ∈ wq_waiting_list r -> (exists r0, w_queues (b_x s) !! m = Some r0 /\ j ∈ wq_waiting_list r0) \/ (m = n /\ j = i)) as Hold.
  { intros m r j. rewrite lookup_insert. case_decide as E; [subst m|eauto]. intros [= <-] Hj. unfold q' in Hj. cbn in Hj. rewrite elem_of_app, list_elem_of_singleton in Hj. naive_solver. }
  split; cbn [b_k b_x w_queues w_nodes set_queue].
  - intros m r j Hm Hj. destruct (Hold m r j Hm Hj) as [(r0 & E & Hj0)|[-> ->]]; eauto.
  - intros m r Hm. rewrite lookup_insert in Hm. case_decide as E; [|eauto]. injection Hm as <-. cbn. apply NoDup_app. split_and!; [eauto| |apply NoDup_singleton].
    intros j Hj Hi. apply list_elem_of_singleton in Hi as ->. apply Hl. by exists n, q.
  - intros m m' r r' j Hm Hm' Hj Hj'. destruct (Hold m r j Hm Hj) as [(r0 & E & Hj0)|[-> ->]]; destruct (Hold m' r' _ Hm' Hj') as [(r0' & E' & Hj0')|[-> Ej]]; try done.
    + by apply (W3 m m' r0 r0' j).
    + exfalso. apply Hl. subst j. by exists m, r0.
    + exfalso. apply Hl. by exists m', r0'.
  - done.
Qed.

(** The time rt_wqueue_wait waits at most, in ticks; for ever when negative. *)
Definition wait_ticks (msec : Z) : Z := if msec <? 0 then -1 else rt_tick_from_millisecond msec.

Lemma forever_ticks msec : msec < 0 \/ rt_tick_from_millisecond msec < TICK_HALF ->
  wait_ticks msec < TICK_HALF /\ (rt_tick_from_millisecond msec =? u32 RT_WAITING_FOREVER) = (msec <? 0).
Proof.
  unfold wait_ticks. intros H. destruct (Z.ltb_spec msec 0) as [Hm|Hm].
  - split; [by rewrite TICK_HALF_val|]. unfold rt_tick_from_millisecond. by rewrite (proj2 (Z.ltb_lt _ _) Hm), Z.eqb_refl.
  - destruct H as [H|H]; [lia|]. split; [done|]. apply Z.eqb_neq. rewrite TICK_HALF_val in H. change (u32 RT_WAITING_FOREVER) with (2 ^ 32 - 1). lia.
Qed.
Lemma tick_nonneg msec : 0 <= rt_tick_from_millisecond msec.
Proof. unfold rt_tick_from_millisecond, u32. destruct (msec <? 0); apply Z.mod_pos_bound; lia. Qed.

(** Rt_wqueue_wait.  The call returns 0 at once when the condition holds or
    the time is zero, and when a wake-up came before it, which it uses up: the
    wake-up of a thread that is about to block is not lost.  Otherwise the thread
    is suspended with its node last in the queue, for the given time, and the
    scheduler runs.  The invariants of the kernel and of the queues are kept. *)
Theorem rt_wqueue_wait_correct s n q c th condition msec :
  kinv (b_k s) -> caller (b_k s) c th -> wq_ok s -> w_queues (b_x s) !! n = Some q -> ~ linked s (Wait c) ->
  msec < 0 \/ rt_tick_from_millisecond msec < TICK_HALF ->
  wp (rt_wqueue_wait_enter n condition msec) s (fun r s' => kinv (b_k s') /\ wq_ok s' /\
    if condition || (rt_tick_from_millisecond msec =? 0) then r = Returned 0 /\ s' = s
    else if wq_flag q =? RT_WQ_FLAG_WAKEUP then r = Returned 0 /\ b_k s' = b_k s /\ w_queues (b_x s') = <[n := mkWq 0 (wq_waiting_list q)]> (w_queues (b_x s))
    else r = Waiting c /\ w_queues (b_x s') = <[n := mkWq (wq_flag q) (wq_waiting_list q ++ [Wait c])]> (w_queues (b_x s)) /\ parked (b_k s) (b_k s') c th (wait_ticks msec)).
Proof.
  intros Hk Hca Hw Hn Hl Hm. destruct s as [k x]. cbn [b_k b_x] in *. pose proof Hca as [Hc Ht Hr Hi]. unfold rt_wqueue_wait_enter. kstep. apply wp_beside_k. unfold rt_thread_self. kstep. rewrite Hc.
  kstep. apply (wp_deref _ c); [done|]. kstep. apply wp_beside_k. unfold RT_DEBUG_NOT_IN_INTERRUPT. kstep. kstep. apply wp_assert; [by rewrite Hi|]. cbv zeta.
  destruct (condition || (rt_tick_from_millisecond msec =? 0)) eqn:Ez; [by kstep|]. apply orb_false_iff in Ez as [_ Ez]. apply Z.eqb_neq in Ez.
  pose proof (wq_ok_node (mkBeside k x) c Hw Hl) as Hw1. cbn [b_k b_x] in Hw1. kstep. apply wp_in_x. kstep. kstep. apply (wp_get_wqueue _ q); [done|].
  assert (~ linked (mkBeside k (set_node (Wait c) (mkWqn c wqueue_default_wake 0) x)) (Wait c)) as Hl1 by done.
  set (x1 := set_node _ _ x) in *. assert (w_nodes x1 !! Wait c = Some (mkWqn c wqueue_default_wake 0)) as He by apply lookup_insert_eq.
  destruct (wq_flag q =? RT_WQ_FLAG_WAKEUP).
  - kstep. apply (wait_exit_wp (mkBeside k x1) n q c (mkWqn c wqueue_default_wake 0)); [done|done|exact He|intros n' q' Hn' Hin; exfalso; apply Hl; by exists n', q'|]. intros s' Hw'. kstep. split; [done|]. split; [done|]. split; [done|].
    split; [done|]. cbn. do 2 f_equal. rewrite <- (unlinked_free (Wait c) q) at 2; [done|]. intros Hin. apply Hl. by exists n, q.
  - kstep. unfold rt_wqueue_add. kstep. apply (wp_get_wqueue _ q); [done|]. apply wp_put_wqueue. destruct (forever_ticks msec Hm) as [Hmax ->]. kstep. apply wp_beside_k.
    assert (negb (msec <? 0) = (0 <? wait_ticks msec)) as Ew.
    { unfold wait_ticks. destruct (Z.ltb_spec msec 0); [done|]. symmetry. apply Z.ltb_lt. pose proof (tick_nonneg msec). lia. }
    assert (when (negb (msec <? 0)) (start_thread_timer c (rt_tick_from_millisecond msec)) = when (0 <? wait_ticks msec) (start_thread_timer c (wait_ticks msec))) as ->.
    { rewrite Ew. unfold wait_ticks. by destruct (msec <? 0). }
    eapply wp_mono; [by apply (park_end_wp k c th (wait_ticks msec))|]. intros [] k' P. kstep. split; [apply P|]. split; [|done].
    apply (wq_ok_kept (mkBeside k (set_queue n (mkWq (wq_flag q) (wq_waiting_list q ++ [Wait c])) x1))).
    + apply (wq_ok_link (mkBeside k x1) n q (Wait c) (mkWqn c wqueue_default_wake 0) th); [done|done|done|done|done|]. by rewrite Hr.
    + intros u. destruct (decide (u = c)) as [->|Hu]; [|left; by apply (pk_others _ _ _ _ _ P)]. right. destruct (pk_thread _ _ _ _ _ P) as (th' & E' & Hs & _). exists th'. split; [done|]. by rewrite Hs.
Qed.

(** A wake-up can be lost.  When the wait of the first thread in the queue has
    timed out but the thread has not run yet, a wake-up is spent on it: after the
    thread has run the flag is clear, every other thread of the queue is still
    suspended and in the queue, and no call has returned because of the wake-up. *)
Theorem wqueue_wakeup_lost s n flag a l key tha :
  kinv (b_k s) -> is_Some (k_current (b_k s)) -> wq_ok s -> w_queues (b_x s) !! n = Some (mkWq flag (Wait a :: l)) ->
  k_threads (b_k s) !! a = Some tha -> st tha <> RT_THREAD_SUSPEND ->
  wp (rt_wqueue_wakeup n key ;; rt_wqueue_wait_resume n a) s (fun r s' => r = 0 /\ w_queues (b_x s') = <[n := mkWq 0 l]> (w_queues (b_x s)) /\
    forall t th, Wait t ∈ l -> k_threads (b_k s) !! t = Some th -> st th = RT_THREAD_SUSPEND -> exists th', k_threads (b_k s') !! t = Some th' /\ st th' = RT_THREAD_SUSPEND).
Proof.
  intros Hk Hc Hw Hn Ha Hs. destruct (wo_known s Hw n _ (Wait a) Hn ltac:(left)) as (e & th & E & Ht & Hcl). pose proof (unlinked_rest (Wait a) l (wo_nodup s Hw n _ Hn)) as Hrest.
  assert (filter (fun j => j <> Wait a) (Wait a :: l) = l) as Hfl by (rewrite filter_cons, decide_False by tauto; exact Hrest).
  pose proof (rt_wqueue_wakeup_wp s n _ key Hk Hc Hw Hn) as Hwk. pose proof (wo_wait s Hw a e E) as ->. unfold first_accepting in Hwk. cbn [wq_waiting_list List.find] in Hwk. unfold accepts in Hwk. rewrite E in Hwk.
  cbn [wqn_wakeup wqueue_default_wake Z.eqb] in Hwk. cbn [wqn_polling_thread] in Ht. simplify_eq. kstep. eapply wp_mono; [exact Hwk|]. intros [] s1 (Hk1 & Hw1 & Ex & e' & th' & E' & Ht' & A). rewrite Hfl in Ex. simplify_eq. cbn in Ht', A. simplify_eq.
  apply (wait_exit_wp s1 n (mkWq RT_WQ_FLAG_WAKEUP l) a (mkWqn a wqueue_default_wake 0)); [done|rewrite Ex; apply lookup_insert_eq|by rewrite Ex| |].
  - rewrite Ex. intros n' q' Hn' Hin. cbn in Hn'. rewrite lookup_insert in Hn'. case_decide; [done|]. apply (wo_one s Hw n' n q' _ (Wait a) Hn' Hn Hin). left.
  - intros s' Hw'. split; [done|]. unfold s'. cbn [b_k b_x]. rewrite Ex. cbn. rewrite insert_insert_eq. split.
    + by rewrite Hrest.
    + intros t tht Hin Htt Hst. apply (kept_suspended (b_k s) _ _ tht); [|done|done]. destruct (decide (t = a)) as [->|Hta]; [by simplify_eq|]. by apply (aw_others _ _ _ _ A).
Qed.

(** ** Witnesses *)

(** Thread 2 has timed out and not run yet, thread 3 waits behind it. *)
Definition sample_wqueues : beside wqueues := mkBeside sample
  (mkWqs {[ 0%nat := mkWq RT_WQ_FLAG_CLEAN [Wait 2; Wait 3]; 1%nat := mkWq RT_WQ_FLAG_CLEAN [] ]}
         {[ Wait 2 := mkWqn 2 wqueue_default_wake 0; Wait 3 := mkWqn 3 wqueue_default_wake 0 ]}).
Lemma sample_wq_cases n q : w_queues (b_x sample_wqueues) !! n = Some q -> (n = 0%nat /\ wq_waiting_list q = [Wait 2; Wait 3]) \/ (n = 1%nat /\ wq_waiting_list q = []).
Proof.
  cbn [sample_wqueues b_x w_queues]. rewrite lookup_insert. case_decide as E; [subst; intros [= <-]; by left|]. rewrite lookup_singleton. case_decide as E'; [|done]. subst. intros [= <-]. by right.
Qed.
Lemma sample_wq_ok : wq_ok sample_wqueues.
Proof.
  split.
  - intros n q i Hn Hi. destruct (sample_wq_cases n q Hn) as [[-> El]|[-> El]]; rewrite El in Hi; [|by apply elem_of_nil in Hi].
    apply elem_of_cons in Hi as [->|Hi]; [eexists _, _; split_and!; [reflexivity|reflexivity|done]|]. apply list_elem_of_singleton in Hi as ->. eexists _, _. split_and!; [reflexivity|reflexivity|done].
  - intros n q Hn. destruct (sample_wq_cases n q Hn) as [[-> ->]|[-> ->]]; [|apply NoDup_nil_2]. apply NoDup_cons. split; [|apply NoDup_singleton]. by intros H%list_elem_of_singleton.
  - intros n n' q q' i Hn Hn' Hi Hi'. destruct (sample_wq_cases n q Hn) as [[-> E]|[-> E]], (sample_wq_cases n' q' Hn') as [[-> E']|[-> E']]; try done; rewrite ?E, ?E' in *; by apply elem_of_nil in Hi || apply elem_of_nil in Hi'.
  - intros t e. cbn [sample_wqueues b_x w_nodes]. rewrite lookup_insert. case_decide as E; [injection E as <-; by intros [= <-]|]. rewrite lookup_singleton. case_decide as E'; [|done]. injection E' as <-. by intros [= <-].
Qed.
Lemma sample_wq_free : ~ linked sample_wqueues (Wait 1).
Proof. intros (n & q & Hn & Hi). destruct (sample_wq_cases n q Hn) as [[-> E]|[-> E]]; rewrite E in Hi; by repeat (apply elem_of_cons in Hi as [Hi|Hi]); try apply elem_of_nil in Hi. Qed.

Lemma rt_wqueue_wakeup_correct_witness :
  wp (rt_wqueue_wakeup 1 0) sample_wqueues (fun _ s' => kinv (b_k s') /\ wq_ok s' /\ s' = mkBeside sample (set_queue 1 (mkWq RT_WQ_FLAG_WAKEUP []) (b_x sample_wqueues))).
Proof. exact (rt_wqueue_wakeup_correct sample_wqueues 1 _ 0 sample_kinv ltac:(by eexists) sample_wq_ok eq_refl). Defined.
Lemma rt_wqueue_wait_correct_witness :
  wp (rt_wqueue_wait_enter 1 false 10) sample_wqueues (fun r s' => kinv (b_k s') /\ wq_ok s' /\ r = Waiting 1 /\
    w_queues (b_x s') = <[1%nat := mkWq RT_WQ_FLAG_CLEAN [Wait 1]]> (w_queues (b_x sample_wqueues)) /\ parked sample (b_k s') 1 (sample_thread 10 RT_THREAD_RUNNING) 10).
Proof. exact (rt_wqueue_wait_correct sample_wqueues 1 _ 1 _ false 10 sample_kinv sample_caller sample_wq_ok eq_refl sample_wq_free ltac:(right; by rewrite TICK_HALF_val)). Defined.
Lemma wqueue_wakeup_lost_witness :
  wp (rt_wqueue_wakeup 0 0 ;; rt_wqueue_wait_resume 0 2) sample_wqueues (fun r s' => r = 0 /\ w_queues (b_x s') = <[0%nat := mkWq 0 [Wait 3]]> (w_queues (b_x sample_wqueues)) /\
    forall t th, Wait t ∈ [Wait 3] -> k_threads sample !! t = Some th -> st th = RT_THREAD_SUSPEND -> exists th', k_threads (b_k s') !! t = Some th' /\ st th' = RT_THREAD_SUSPEND).
Proof. exact (wqueue_wakeup_lost sample_wqueues 0 RT_WQ_FLAG_CLEAN 2 [Wait 3] 0 (sample_thread 10 RT_THREAD_READY) sample_kinv ltac:(by eexists) sample_wq_ok eq_refl eq_refl ltac:(done)). Defined.
