(* ===== verification/UserTimer.v ===== *)
(** * Soft timers of other components

    A structure with a timer in it calls rt_timer_init, rt_timer_start,
    rt_timer_stop and rt_timer_detach on it.  What these calls do to a timer that
    is not the timer of a thread, the wake-up of the timer thread included. *)

From S2P Require Import Prelude Ffs KState Wf Inv Sched Object Timer Thread TimerRun Sleep Ipc Beside.

(** ** Steps that leave something as it is *)

Definition keeps {S A} (R : S -> S -> Prop) (m : M S A) : Prop := forall s, match m s with Ok _ s' => R s s' | _ => True end.

Section keeps.
Context {S : Type} (R : S -> S -> Prop) `{!PreOrder R}.
Lemma keeps_bind {A B} (m : M S A) (f : A -> M S B) : keeps R m -> (forall a, keeps R (f a)) -> keeps R (bind m f).
Proof. intros Hm Hf s. unfold bind. specialize (Hm s). destruct (m s) as [a s'| | |]; try done. specialize (Hf a s'). destruct (f a s'); try done. by transitivity s'. Qed.
Lemma keeps_ret {A} (a : A) : keeps R (ret a : M S A).
Proof. intros s. cbn. reflexivity. Qed.
Lemma keeps_gets {A} (f : S -> A) : keeps R (gets f).
Proof. intros s. cbn. reflexivity. Qed.
Lemma keeps_deref {A} (f : S -> option A) : keeps R (deref f).
Proof. intros s. unfold deref. destruct (f s); [reflexivity|done]. Qed.
Lemma keeps_assert b : keeps R (RT_ASSERT b : M S unit).
Proof. intros s. unfold RT_ASSERT. destruct b; [reflexivity|done]. Qed.
Lemma keeps_valid b : keeps R (valid b : M S unit).
Proof. intros s. unfold valid. destruct b; [reflexivity|done]. Qed.
Lemma keeps_halt {A} : keeps R (halt : M S A).
Proof. intros s. done. Qed.
Lemma keeps_modify f : (forall s, R s (f s)) -> keeps R (modify f).
Proof. intros H s. apply H. Qed.
Lemma wp_keeps {A} (m : M S A) s Q : wp m s Q -> keeps R m -> wp m s (fun a s' => Q a s' /\ R s s').
Proof. unfold wp. intros H Hm. specialize (Hm s). by destruct (m s). Qed.
End keeps.

Ltac keeps_step :=
  lazymatch goal with
  | |- keeps _ (bind _ _) => apply keeps_bind; [apply _| |intros ?]
  | |- keeps _ (ret _) => apply keeps_ret; apply _
  | |- keeps _ (gets _) => apply keeps_gets; apply _
  | |- keeps _ (deref _) => apply keeps_deref; apply _
  | |- keeps _ (RT_ASSERT _) => apply keeps_assert; apply _
  | |- keeps _ (valid _) => apply keeps_valid; apply _
  | |- keeps _ halt => apply keeps_halt
  | |- keeps _ (modify _) => apply keeps_modify; intros ?
  | |- keeps _ (if ?b then _ else _) => destruct b
  | |- keeps _ (let '(_, _) := ?x in _) => destruct x
  | |- keeps _ (match ?x with Some _ => _ | None => _ end) => destruct x
  end.

(** The timers that belong to no thread. *)
Definition user_kept (s s' : kst) : Prop := forall n, k_objects s' !! OTimer (TmUser n) = k_objects s !! OTimer (TmUser n) /\
  k_timers s' !! TmUser n = k_timers s !! TmUser n /\ (TmUser n ∈ k_timer_list s' <-> TmUser n ∈ k_timer_list s) /\ (TmUser n ∈ k_soft_timer_list s' <-> TmUser n ∈ k_soft_timer_list s).
#[global] Instance user_kept_preorder : PreOrder user_kept.
Proof.
  split; [by intros s n|]. intros s1 s2 s3 H1 H2 n. destruct (H1 n) as (A1 & A2 & A3 & A4), (H2 n) as (B1 & B2 & B3 & B4).
  split_and!; [congruence|congruence|tauto|tauto].
Qed.
Lemma user_kept_sched s s' : sched_frame s s' -> user_kept s s'.
Proof. intros F n. destruct (sched_frame_timers s s' F) as (-> & -> & -> & -> & _). done. Qed.

Lemma rt_thread_resume_user t : keeps user_kept (rt_thread_resume t).
Proof.
  unfold rt_thread_resume, assert_type, rt_object_get_type, get_object, get_thread, q_remove, rt_timer_stop, rt_schedule_insert_thread, mod_thread, mod_object, _rt_timer_remove, q_append.
  repeat keeps_step; unfold assert_type, rt_object_get_type, get_object, get_thread; repeat keeps_step; try (by intros n).
  - intros n. kproj. rewrite !elem_of_without. split_and!; [done|done|naive_solver|naive_solver].
  - intros n. kproj. rewrite lookup_insert_ne by done. done.
Qed.

Lemma rt_thread_suspend_user t : keeps user_kept (rt_thread_suspend t).
Proof.
  unfold rt_thread_suspend, assert_type, rt_object_get_type, get_object, get_thread, rt_timer_stop, rt_schedule_remove_thread, mod_thread, mod_object, _rt_timer_remove, q_remove, q_nonempty, rt_thread_self, when.
  repeat keeps_step; unfold assert_type, rt_object_get_type, get_object, get_thread; repeat keeps_step; try (by intros ?).
  - intros n. kproj. rewrite !elem_of_without. split_and!; [done|done|naive_solver|naive_solver].
  - intros n. kproj. rewrite lookup_insert_ne by done. done.
Qed.
Lemma rt_schedule_user : keeps user_kept rt_schedule.
Proof.
  unfold rt_schedule, _get_highest_priority_thread, current_thread, pick_to_thread, switch_to, rt_schedule_remove_thread, rt_schedule_insert_thread, mod_thread, get_thread, q_remove, q_append, _rt_scheduler_stack_check, set_current, q_first, q_nonempty, when.
  repeat keeps_step; try (by intros ?). unfold get_thread. keeps_step.
Qed.

Lemma wake_timer_thread_user s : kinv s -> is_Some (k_current s) -> (forall t, k_timer_thread s = Some t -> exists th, k_threads s !! t = Some th /\ st th <> RT_THREAD_CLOSE) ->
  wp wake_timer_thread s (fun _ s' => kinv s' /\ kframe s s' /\ is_Some (k_current s') /\ user_kept s s' /\
    (s' = s \/ exists t th, k_threads s !! t = Some th /\ awake s s' t th)).
Proof.
  intros Hk Hc Htt. unfold wake_timer_thread. kstep. kstep. destruct (k_timer_thread s) as [t|]; [|by kstep; split_and!; [|apply kframe_refl|..|left]].
  destruct (Htt t eq_refl) as (th & Ht & Hcl). kstep. apply (wp_get_thread _ th); [done|]. destruct (Z.eqb_spec (st th) RT_THREAD_SUSPEND) as [Hst|Hst]; [|by kstep; split_and!; [|apply kframe_refl|..|left]].
  kstep. eapply wp_mono; [apply (wp_keeps user_kept); [by apply (rt_thread_resume_awake s t th)|apply rt_thread_resume_user]|]. intros r s1 [A U].
  eapply wp_mono; [apply rt_schedule_kinv; apply A|]. intros [] s2 (Hk2 & F & Hc2). pose proof (awake_sched _ _ _ _ _ A F Hk2 Hc2) as A2. split; [done|]. split; [apply A2|]. split; [done|]. split; [|right; eauto].
  transitivity s1; [done|by apply user_kept_sched].
Qed.

(** ** The calls *)

(** The invariant after a change of the header and data of a user timer that is
    in no list. *)
Lemma kinv_user_timer s n m c tms :
  kinv s -> TmUser n ∉ all_timers s -> (forall o, o <> OTimer (TmUser n) -> m !! o = k_objects s !! o) -> (forall tm, tm <> TmUser n -> tms !! tm = k_timers s !! tm) ->
  kinv (set_k_timers tms (set_k_objects m (set_k_containers c s))).
Proof.
  intros [W [T1 T2 T3 T4]] Hn Hm Ht. split; [by apply (wfx_same _ s)|]. split; unfold has_type, thread_timer_ok, timer_activated; kproj.
  - intros t th Hth Hs. rewrite !Hm, Ht by done. by apply (T1 t th).
  - done.
  - intros tm Htm. rewrite Hm, Ht by (intros E; simplify_eq; done). by apply T3.
  - intros t Hth. rewrite Hm by done. by apply T4.
Qed.

(** A user timer: its header, in the place of a static object, and its data. *)
Record user_timer (s : kst) (n : nat) (flag : Z) (ti : rt_timer) : Prop := {
  ut_header : exists ob, k_objects s !! OTimer (TmUser n) = Some ob /\ o_type ob = Z.lor RT_Object_Class_Timer RT_Object_Class_Static /\ o_flag ob = flag;
  ut_timer : k_timers s !! TmUser n = Some ti
}.

Lemma rt_object_init_kinv s o cls name l :
  kinv s -> is_Some (k_current s) -> 0 <= k_lock_nest s < 2 ^ 15 - 1 -> is_Some (rt_object_get_information cls) -> rt_strncpy RT_NAME_MAX name = Some (padded RT_NAME_MAX l) ->
  ~ registered s cls o ->
  wp (rt_object_init o cls name) s (fun _ s' => exists s1, kinv s1 /\ is_Some (k_current s1) /\ sched_frame s s1 /\ s' = attach o (static_header s o cls l) cls s1).
Proof.
  intros Hk Hcur Hn Hc Hl Ho. unfold rt_object_init, rt_enter_critical. ksteps.
  apply wp_assert; [by apply bool_decide_eq_true|]. ksteps. apply wp_assert; [by apply bool_decide_eq_true|]. rewrite i16_small by lia. ksteps.
  eapply wp_mono; [apply exit_critical_kinv; [by apply kinv_lock_nest|done|kproj; lia]|]. intros _ s1 (H1 & F & Hc1). kproj. rewrite Z.add_simpl_r in F.
  assert (sched_frame s s1) as F'.
  { replace s with (set_k_lock_nest (k_lock_nest s) (set_k_lock_nest (k_lock_nest s + 1) s)) by (by destruct s). exact F. }
  ksteps. apply (wp_deref _ (padded RT_NAME_MAX l)); [done|]. ksteps. apply wp_modify. exists s1. split_and!; [done|done|done|]. unfold static_header, attach, raw_flag.
  destruct (sched_frame_objects s s1 F') as (-> & _). done.
Qed.

(** The timer is new: its header is not registered and it is in no list. *)
Record new_timer (s : kst) (n : nat) : Prop := {
  nt_inv : kinv s;
  nt_current : is_Some (k_current s);
  nt_lock : 0 <= k_lock_nest s < 2 ^ 15 - 1;
  nt_free : ~ registered s RT_Object_Class_Timer (OTimer (TmUser n));
  nt_unlisted : TmUser n ∉ all_timers s
}.

Lemma rt_timer_init_user s n name l f time flag :
  new_timer s n -> rt_strncpy RT_NAME_MAX name = Some (padded RT_NAME_MAX l) -> Z.land flag (Z.lnot RT_TIMER_FLAG_ACTIVATED) = flag ->
  wp (rt_timer_init (TmUser n) name f time flag) s (fun _ s' => kinv s' /\ is_Some (k_current s') /\ user_timer s' n flag (mkTimer f time 0) /\ all_timers s' = all_timers s /\
    k_timer_thread s' = k_timer_thread s /\ k_tick s' = k_tick s /\ forall u, kept s s' u).
Proof.
  intros [Hk Hc Hl Ho Hno] Hn Hf. unfold rt_timer_init, _rt_timer_init. kstep. eapply wp_mono.
  { apply (rt_object_init_kinv s (OTimer (TmUser n)) RT_Object_Class_Timer name l); [done|done|done|apply timer_info|done|done]. }
  intros _ s' (s1 & Hk1 & Hc1 & F & ->). kstep. eapply wp_mod_object; [unfold attach; kproj; apply lookup_insert_eq|]. kstep. eapply wp_mod_object; [kproj; apply lookup_insert_eq|]. apply wp_modify.
  destruct (sched_frame_timers s s1 F) as (Eo & Et & El & Es & Ek). assert (all_timers s1 = all_timers s) as Ea by (unfold all_timers; congruence).
  destruct (sched_kframe s s1 F) as [Em _]. unfold misc, ipc_data in Em. injection Em as E1 E2 E3 E4 E5 E6 E7 E8 E9 E10. unfold attach. kproj. rewrite insert_insert_eq, insert_insert_eq. set (ob := flag_clear _ _).
  split; [|split; [done|]; split; [|split; [done|]; split; [done|]; split; [done|]]].
  - apply (kinv_user_timer s1 n (<[OTimer (TmUser n) := ob]> (k_objects s1)) _ (<[TmUser n := mkTimer f time 0]> (k_timers s1))); [done|by rewrite Ea|intros o Hne; by rewrite lookup_insert_ne|intros tm Hne; by rewrite lookup_insert_ne].
  - split; [|kproj; apply lookup_insert_eq]. exists ob. split; [kproj; apply lookup_insert_eq|]. split; [done|]. exact Hf.
  - intros u. exact (kept_frame s s1 u F).
Qed.

Lemma soft_flag ob flag : o_flag ob = flag -> Z.land flag RT_TIMER_FLAG_SOFT_TIMER <> 0 -> flag_test RT_TIMER_FLAG_SOFT_TIMER ob = true.
Proof. intros <- H. unfold flag_test. by apply negb_true_iff, Z.eqb_neq. Qed.

(** Starting a soft timer: it is in the list of soft timers, due in the time it
    was initialised with, and the timer thread is runnable if it slept. *)
Lemma rt_timer_start_user s n flag ti :
  kinv s -> is_Some (k_current s) -> user_timer s n flag ti -> Z.land flag RT_TIMER_FLAG_SOFT_TIMER <> 0 -> 0 <= tm_init_tick ti < TICK_HALF ->
  (forall t, k_timer_thread s = Some t -> exists th, k_threads s !! t = Some th /\ st th <> RT_THREAD_CLOSE) ->
  wp (rt_timer_start (TmUser n)) s (fun r s' => r = RT_EOK /\ kinv s' /\ is_Some (k_current s') /\
    TmUser n ∈ k_soft_timer_list s' /\ ticks_left s' (TmUser n) = tm_init_tick ti /\
    (exists ob, k_objects s' !! OTimer (TmUser n) = Some ob /\ o_type ob = Z.lor RT_Object_Class_Timer RT_Object_Class_Static) /\
    forall u, kept s s' u \/ exists th, k_threads s !! u = Some th /\ st th = RT_THREAD_SUSPEND /\ running_again s' u).
Proof.
  intros Hk Hc [(ob & Eo & Hty & Hfl) Et] Hsoft Hti Htt. pose proof (soft_flag ob flag Hfl Hsoft) as Hs. unfold rt_timer_start. kstep. eapply wp_mono.
  { apply (rt_timer_enqueue_wp s (TmUser n) ti ob); [apply Hk|done|by rewrite Hty|done|apply Hti|done]. }
  intros _ s1 (F & T & Etm & Eob & Hl). rewrite Hs in Hl. destruct Hl as [Hl _]. set (ob2 := flag_set _ _) in Eob.
  kstep. eapply wp_get_object; [rewrite Eob; apply lookup_insert_eq|].
  assert (flag_test RT_TIMER_FLAG_SOFT_TIMER ob2 = true) as ->.
  { unfold flag_test in *. unfold ob2. cbn. rewrite Z.land_lor_distr_l, <- Z.land_assoc. cbn. by rewrite Z.lor_0_r. }
  pose proof F as (KF & F1 & F2 & F3 & F4). assert (kinv s1) as Hk1 by (by apply (tframe_kinv s)). destruct (kframe_nest s s1 KF) as (_ & _ & Ek).
  assert (k_timer_thread s1 = k_timer_thread s) as Ett by (destruct KF as [Em _]; unfold misc in Em; by injection Em).
  unfold when. kstep. eapply wp_mono; [apply (wake_timer_thread_user s1); [done|by rewrite F3|rewrite Ett, F1; done]|]. intros [] s2 (Hk2 & KF2 & Hc2 & U & A). kstep.
  destruct (U n) as (U1 & U2 & U3 & U4). destruct (kframe_nest s1 s2 KF2) as (_ & _ & Ek2). split; [done|]. split; [done|]. split; [done|]. split; [|split; [|split]].
  - apply U4. rewrite (enqueued_perm _ _ _ _ _ Hl). left.
  - apply (ticks_left_new s s2 _ (set_tm_timeout_tick (u32 (k_tick s + tm_init_tick ti)) ti)); [congruence|by rewrite U2, Etm, lookup_insert_eq|done|done].
  - exists ob2. split; [by rewrite U1, Eob, lookup_insert_eq|]. done.
  - intros u. destruct A as [->|(t & th & Ht & A)].
    + left. unfold kept. rewrite F1. apply option_Forall2_refl_step.
    + destruct (decide (u = t)) as [->|Hu]; [|left; unfold kept; rewrite <- F1; by apply (aw_others _ _ _ _ A)]. pose proof (aw_thread _ _ _ _ A) as H. rewrite F1 in Ht.
      destruct (Z.eqb_spec (st th) RT_THREAD_SUSPEND); [|left; unfold kept in *; by rewrite <- F1]. right. destruct H as (th' & E & Hr & _). exists th. split_and!; [done|done|by exists th'].
Qed.

(** Stopping and detaching: the timer is in no list and can be initialised
    again. *)
Lemma stop_detach_user s n ob :
  kinv s -> k_objects s !! OTimer (TmUser n) = Some ob -> o_type ob = Z.lor RT_Object_Class_Timer RT_Object_Class_Static ->
  wp (rt_timer_stop (TmUser n) ;; rt_timer_detach (TmUser n)) s (fun _ s' => kinv s' /\ TmUser n ∉ all_timers s' /\ ~ registered s' RT_Object_Class_Timer (OTimer (TmUser n)) /\
    k_threads s' = k_threads s /\ k_queues s' = k_queues s /\ k_current s' = k_current s /\ k_lock_nest s' = k_lock_nest s /\ k_timer_thread s' = k_timer_thread s).
Proof.
  intros Hk Eo Hty. assert (forall ob1 l1 l2, o_type ob1 = o_type ob -> without (TmUser n) l1 = without (TmUser n) (k_timer_list s) -> without (TmUser n) l2 = without (TmUser n) (k_soft_timer_list s) ->
    wp (rt_timer_detach (TmUser n)) (set_k_objects (<[OTimer (TmUser n) := ob1]> (k_objects s)) (set_k_soft_timer_list l2 (set_k_timer_list l1 s))) (fun _ s' => kinv s' /\ TmUser n ∉ all_timers s' /\ ~ registered s' RT_Object_Class_Timer (OTimer (TmUser n)) /\
    k_threads s' = k_threads s /\ k_queues s' = k_queues s /\ k_current s' = k_current s /\ k_lock_nest s' = k_lock_nest s /\ k_timer_thread s' = k_timer_thread s)) as Hd.
  { intros ob1 l1 l2 H1 H2 H3. unfold rt_timer_detach, rt_object_is_systemobject, _rt_timer_remove, rt_object_detach, container_remove. ksteps. eapply wp_assert_type; [kproj; apply lookup_insert_eq|by rewrite H1, Hty|].
    ksteps. eapply wp_get_object; [kproj; apply lookup_insert_eq|]. ksteps. apply wp_assert; [by rewrite H1, Hty|]. ksteps. eapply wp_mod_object; [kproj; apply lookup_insert_eq|]. ksteps. kproj. rewrite insert_insert_eq, H2, H3.
    set (ob2 := set_o_type _ _). split; [|split; [|split; [|done]]].
    - destruct Hk as [W [T1 T2 T3 T4]]. split; [by apply (wfx_same _ s)|]. assert (forall tm, tm ∈ without (TmUser n) (k_timer_list s) ++ without (TmUser n) (k_soft_timer_list s) <-> tm <> TmUser n /\ tm ∈ all_timers s) as Hin.
      { intros tm. unfold all_timers. rewrite !elem_of_app, !elem_of_without. tauto. }
      split; unfold has_type, thread_timer_ok, timer_activated, all_timers; kproj.
      + intros t th Ht Hs. rewrite !lookup_insert_ne by done. by apply (T1 t th).
      + rewrite <- without_app. by apply NoDup_without.
      + intros tm [Hne Htm]%Hin. rewrite lookup_insert_ne by congruence. by apply T3.
      + intros t [_ Ht]%Hin. rewrite lookup_insert_ne by done. destruct (T4 t Ht) as (A & B). split; [|done]. apply elem_of_without. split; [done|]. done.
    - unfold all_timers. kproj. rewrite elem_of_app, !elem_of_without. tauto.
    - unfold registered, object_list. kproj. rewrite lookup_fmap. destruct (k_containers s !! RT_Object_Class_Timer); cbn; [rewrite elem_of_without; tauto|apply not_elem_of_nil]. }
  unfold rt_timer_stop. kstep. kstep. apply (wp_assert_type _ ob); [done|by rewrite Hty|]. kstep. apply (wp_get_object _ ob); [done|]. destruct (flag_test RT_TIMER_FLAG_ACTIVATED ob).
  - unfold _rt_timer_remove at 1. kstep. kstep. kstep. eapply wp_mod_object; [kproj; done|]. kstep. kproj. apply (Hd (flag_clear RT_TIMER_FLAG_ACTIVATED ob)); [done|apply without_notin; rewrite elem_of_without; tauto|apply without_notin; rewrite elem_of_without; tauto].
  - kstep. specialize (Hd ob (k_timer_list s) (k_soft_timer_list s) eq_refl eq_refl eq_refl). rewrite insert_id in Hd by done. by destruct s.
Qed.

Lemma rt_timer_stop_user s n ob : kinv s -> k_objects s !! OTimer (TmUser n) = Some ob -> Z.land (o_type ob) (Z.lnot RT_Object_Class_Static) = RT_Object_Class_Timer ->
  wp (rt_timer_stop (TmUser n)) s (fun _ s' => kinv s' /\ tframe s s' /\ k_timers s' = k_timers s /\ (forall o, o <> OTimer (TmUser n) -> k_objects s' !! o = k_objects s !! o) /\
    forall tm, tm ∈ all_timers s' -> tm ∈ all_timers s).
Proof.
  intros Hk Eo Hty. unfold rt_timer_stop. kstep. apply (wp_assert_type _ ob); [done|done|]. kstep. apply (wp_get_object _ ob); [done|]. destruct (flag_test RT_TIMER_FLAG_ACTIVATED ob); [|kstep; split_and!; try done; apply tframe_refl].
  unfold _rt_timer_remove. kstep. kstep. kstep. apply (wp_mod_object _ _ ob); [done|]. kstep. set (ob' := flag_clear RT_TIMER_FLAG_ACTIVATED ob). match goal with |- kinv ?x /\ _ => set (s' := x) end.
  assert (tframe s s') as F by by apply (tframe_timer_object _ (TmUser n) ob'). destruct Hk as [W T]. split; [split; [by eapply tframe_wfx|]|split; [done|split; [done|split]]].
  - apply (tinv_timer_update s _ (TmUser n) ob ob'); try done; unfold s'; kproj.
    + apply flag_bits_clear.
    + unfold all_timers. kproj. rewrite <- without_app. apply NoDup_without, T.
    + intros tm' Hne. rewrite elem_of_without. tauto.
    + intros tm' Hne. rewrite elem_of_without. tauto.
    + unfold all_timers. kproj. rewrite <- without_app, elem_of_without. tauto.
  - intros o Ho. unfold s'. kproj. by rewrite lookup_insert_ne.
  - intros tm. unfold s', all_timers. kproj. rewrite <- without_app, elem_of_without. tauto.
Qed.
