(* ===== verification/TimerCheck.v ===== *)
(** * Starting and checking timers (src/timer.c): both kinds of timers together

    rt_timer_start on hard and soft timers, and rt_timer_check on a list in which timers
    of threads and of applications are due, one-shot and periodic. *)

From stdpp Require Import sorting.
From S2P Require Import Prelude Ffs KState Wf Inv Sched Object Timer Thread TimerRun Sleep Ipc Beside UserTimer.

(** ** Timers that are due, and timers that start again *)

(** How long a timer is due, and after which time a periodic one is due again. *)
Definition overdue (s : kst) (tm : tmid) : Z :=
  match k_timers s !! tm with Some ti => u32 (k_tick s - tm_timeout_tick ti) | None => 0 end.
Definition period (s : kst) (tm : tmid) : Z :=
  match k_objects s !! OTimer tm, k_timers s !! tm with
  | Some ob, Some ti => if flag_test RT_TIMER_FLAG_PERIODIC ob then tm_init_tick ti else 0
  | _, _ => 0
  end.
(** The timers are not overdue by so much that a timer that starts now would be taken for
    one that is due earlier. *)
Definition in_time (s : kst) (l : list tmid) : Prop := forall a b, a ∈ l -> b ∈ l -> overdue s a + period s b <= TICK_HALF.

Lemma expired_not_later s a n : expired s a -> 0 <= n -> overdue s a + n <= TICK_HALF -> due_later s (u32 (k_tick s + n)) a = false.
Proof.
  unfold overdue, due_later. intros (ti & E & Hx) Hn Hin. rewrite E in *. set (e := u32 (k_tick s - tm_timeout_tick ti)) in *.
  assert (0 <= e < 2 ^ 32) as He by apply u32_range. rewrite TICK_HALF_val in *.
  assert (u32 (tm_timeout_tick ti - u32 (k_tick s + n)) = u32 (- (e + n))) as ->.
  { unfold e, u32. rewrite Zminus_mod_idemp_r. rewrite <- (Z.sub_0_l (_ + n)). rewrite <- (Zminus_mod_idemp_r 0), Zplus_mod_idemp_l, Zminus_mod_idemp_r. f_equal. lia. }
  destruct (decide (e + n = 0)) as [->|Hne]; [done|]. assert (u32 (- (e + n)) = 2 ^ 32 - (e + n)) as ->.
  { unfold u32. symmetry. apply (Zmod_unique _ _ (-1)); lia. }
  rewrite (proj2 (Z.ltb_ge _ _)) by lia. apply andb_false_r.
Qed.

(** A timer that starts again comes behind those that are due. *)
Lemma enqueued_behind s tm due pre rest l' :
  tm ∉ pre ++ rest -> Forall (fun t => due_later s due t = false) pre -> enqueued s tm due (pre ++ rest) l' ->
  exists rest', l' = pre ++ rest' /\ enqueued s tm due rest rest'.
Proof.
  intros Hn Hpre (l1 & l2 & E & -> & H1 & H2). rewrite without_notin in E by done. rewrite Forall_forall in Hpre.
  assert (exists k, l1 = pre ++ k /\ rest = k ++ l2) as (k & -> & ->).
  { destruct (app_eq_inv pre rest l1 l2 E) as [(k & Ek & Er)|(k & Ek & Er)]; [|by exists k]. destruct k as [|a k]; [exists []; rewrite app_nil_r in *; by subst|].
    exfalso. subst l2. specialize (H2 a eq_refl). rewrite Hpre in H2; [done|]. rewrite Ek. apply elem_of_app. right. left. }
  exists (k ++ tm :: l2). split; [by rewrite <- app_assoc|]. exists k, l2. rewrite without_notin by (rewrite elem_of_app in Hn; tauto). apply Forall_app in H1 as [_ H1]. done.
Qed.

(** The end of an iteration on timer [tm]: a periodic timer that is active is in its list
    again, due in its time; any other is inactive. *)
Definition rearms (ob : rt_object) : bool := flag_test RT_TIMER_FLAG_PERIODIC ob && flag_test RT_TIMER_FLAG_ACTIVATED ob.
Definition rearmed (list : kst -> list tmid) (tm : tmid) (s s' : kst) : Prop :=
  exists ob ti, k_objects s !! OTimer tm = Some ob /\ k_timers s !! tm = Some ti /\ tframe s s' /\ (forall o, o <> OTimer tm -> k_objects s' !! o = k_objects s !! o) /\
    if rearms ob then
      timer_activated s' tm /\ k_timers s' = <[tm := set_tm_timeout_tick (u32 (k_tick s + tm_init_tick ti)) ti]> (k_timers s) /\ enqueued s tm (u32 (k_tick s + tm_init_tick ti)) (list s) (list s')
    else ~ timer_activated s' tm /\ k_timers s' = k_timers s /\ list s' = list s.

Lemma activated_again s tm ob : k_objects s !! OTimer tm = Some (flag_set RT_TIMER_FLAG_ACTIVATED ob) -> timer_activated s tm.
Proof. intros E. eexists. split; [done|]. cbn. by rewrite flag_activated. Qed.
Lemma inactive_now s tm ob : k_objects s !! OTimer tm = Some (flag_clear RT_TIMER_FLAG_ACTIVATED ob) -> ~ timer_activated s tm.
Proof. intros E (ob' & E' & H). rewrite E in E'. injection E' as <-. apply H. cbn. rewrite <- Z.land_assoc. by rewrite Z.land_0_r. Qed.

Lemma rearm_stops s tm ob ti list : (forall m s, list (set_k_objects m s) = list s) -> k_objects s !! OTimer tm = Some ob -> k_timers s !! tm = Some ti -> rearms ob = false ->
  wp (timer_rearm tm) s (fun _ s' => s' = set_k_objects (<[OTimer tm := flag_clear RT_TIMER_FLAG_ACTIVATED ob]> (k_objects s)) s /\ rearmed list tm s s').
Proof.
  intros Hlist Eo Et Hr. unfold timer_rearm. kstep. apply (wp_get_object _ ob); [done|]. fold (rearms ob). rewrite Hr. apply (wp_mod_object _ _ ob); [done|]. split; [done|]. exists ob, ti. rewrite Hr. split_and!; [done|done|by apply (tframe_timer_object _ tm (flag_clear RT_TIMER_FLAG_ACTIVATED ob))| | |done|by rewrite Hlist].
  - intros o Ho. kproj. by rewrite lookup_insert_ne.
  - apply (inactive_now _ _ ob). kproj. apply lookup_insert_eq.
Qed.

Lemma rearm_hard s n ob ti : kinv s -> k_objects s !! OTimer (TmUser n) = Some ob -> Z.land (o_type ob) (Z.lnot RT_Object_Class_Static) = RT_Object_Class_Timer -> flag_test RT_TIMER_FLAG_SOFT_TIMER ob = false ->
  k_timers s !! TmUser n = Some ti -> (flag_test RT_TIMER_FLAG_PERIODIC ob = true -> tm_init_tick ti < TICK_HALF) -> wp (timer_rearm (TmUser n)) s (fun _ s' => rearmed k_timer_list (TmUser n) s s').
Proof.
  intros Hk Eo Hty Hsoft Et Hti. destruct (rearms ob) eqn:Hr; [|eapply wp_mono; [by apply (rearm_stops s (TmUser n) ob ti k_timer_list)|by intros [] s' [_ ?]]].
  unfold timer_rearm. kstep. apply (wp_get_object _ ob); [done|]. fold (rearms ob). rewrite Hr. kstep. apply (wp_mod_object _ _ ob); [done|]. set (ob1 := flag_clear RT_TIMER_FLAG_ACTIVATED ob). set (s1 := set_k_objects (<[OTimer (TmUser n) := ob1]> (k_objects s)) s).
  assert (kinv s1) as Hk1. { destruct Hk as [W T]. split; [by apply (wfx_same _ s)|]. apply (tinv_timer_update s _ (TmUser n) ob ob1); try done; [apply flag_bits_clear|apply T|]. intros Hin. destruct (ti_listed T _ Hin) as (? & ?). by split_and!. }
  assert (flag_test RT_TIMER_FLAG_SOFT_TIMER ob1 = false) as Hs1 by (unfold flag_test, ob1 in *; cbn; by rewrite <- Z.land_assoc). kstep.
  eapply wp_mono; [apply (rt_timer_start_hard_wp s1 (TmUser n) ti ob1); [done|apply lookup_insert_eq|done|done|done|apply Hti; unfold rearms in Hr; by apply andb_prop in Hr as [? _]|done]|].
  intros r s2 (_ & Hk2 & F & E1 & E2 & Hl & Hsl). kstep. exists ob, ti. rewrite Hr. split_and!; [done|done| | |by apply (activated_again _ _ (flag_clear RT_TIMER_FLAG_ACTIVATED ob1)); rewrite E2; apply lookup_insert_eq|done|done].
  - apply (tframe_trans _ s1); [by apply (tframe_timer_object _ (TmUser n) ob1)|done].
  - intros o Ho. rewrite E2, lookup_insert_ne by done. unfold s1. kproj. by rewrite lookup_insert_ne.
Qed.

(** ** rt_timer_check with timers of both sorts *)

(** The timeout functions of the applications, as the theorem needs them: what a call of [f]
    with [p] does is [step f p].  They keep the invariant, leave the clock and the timers of
    applications alone, and may wake threads (whose timers then leave the list), but do not
    make one wait with a time-out. *)
Definition hard_callback (step : Z -> Z -> kst -> kst -> Prop) (user : Z -> Z -> K unit) : Prop :=
  forall f p s, check_inv s -> wp (user f p) s (fun _ s' => step f p s s' /\ check_inv s' /\ (k_tick s' = k_tick s /\ k_irq_nest s' = k_irq_nest s) /\ user_kept s s' /\
    (exists stays : tmid -> bool, k_timer_list s' = filter (fun tm => stays tm = true) (k_timer_list s)) /\ forall t, TmThread t ∈ k_timer_list s' -> k_timers s' !! TmThread t = k_timers s !! TmThread t).

(** The timers that ran, each the first of the list when its turn came: a thread timed out,
    or the function of an application was called and its timer started again or stopped. *)
Inductive checked (step : Z -> Z -> kst -> kst -> Prop) : list tmid -> kst -> kst -> Prop :=
| checked_nil s : checked step [] s s
| checked_thread t tms s s1 s' : head (k_timer_list s) = Some (TmThread t) -> timed_out_threads [t] s s1 -> k_timer_list s1 = tail (k_timer_list s) -> checked step tms s1 s' -> checked step (TmThread t :: tms) s s'
| checked_user n ti f p tms s s1 s2 s' : head (k_timer_list s) = Some (TmUser n) -> k_timers s !! TmUser n = Some ti -> tm_func ti = TFUser f p -> step f p (unlisted (TmUser n) s) s1 -> rearmed k_timer_list (TmUser n) s1 s2 ->
    checked step tms s2 s' -> checked step (TmUser n :: tms) s s'.

Lemma checked_threads step ts : forall s s', NoDup ts -> checked step (TmThread <$> ts) s s' -> timed_out_threads ts s s' /\ k_timer_list s' = drop (length ts) (k_timer_list s).
Proof.
  induction ts as [|t ts IH]; intros s s' Hnd H.
  - inversion H; subst. split; [apply timed_out_threads_nil|done].
  - rewrite fmap_cons in H. inversion H as [|? ? ? s1 ? _ Ht El Hc|]; subst. apply NoDup_cons in Hnd as [Hn Hnd]. destruct (IH s1 s' Hnd Hc) as [H1 H2]. split; [by eapply timed_out_threads_cons|]. rewrite H2, El. by destruct (k_timer_list s); cbn; rewrite ?drop_nil.
Qed.

Definition timer_same (s s' : kst) (tm : tmid) : Prop := k_timers s' !! tm = k_timers s !! tm /\ forall n, tm = TmUser n -> k_objects s' !! OTimer tm = k_objects s !! OTimer tm.
Lemma expired_kept s s' tm : k_tick s' = k_tick s -> timer_same s s' tm -> expired s' tm <-> expired s tm.
Proof. intros Ek [E _]. unfold expired. by rewrite Ek, E. Qed.
(** The threads' timers are not periodic. *)
Lemma period_thread s t : kinv s -> TmThread t ∈ all_timers s -> period s (TmThread t) = 0.
Proof.
  intros Hk Hin. destruct (ti_wait (proj2 Hk) t Hin) as (_ & _ & th & Eth & Hst). destruct (ti_thread (proj2 Hk) t th Eth) as (_ & x & ti & Ex & Et & _ & Hfl & _); [by rewrite Hst|]. unfold period. rewrite Ex, Et.
  assert (flag_test RT_TIMER_FLAG_PERIODIC x = false) as ->; [|done]. unfold flag_test. apply negb_false_iff, Z.eqb_eq.
  replace RT_TIMER_FLAG_PERIODIC with (Z.land (Z.lor RT_TIMER_FLAG_PERIODIC RT_TIMER_FLAG_SOFT_TIMER) RT_TIMER_FLAG_PERIODIC) by done. by rewrite Z.land_assoc, Hfl.
Qed.
Lemma overdue_nonneg s tm : 0 <= overdue s tm.
Proof. unfold overdue. destruct (k_timers s !! tm); [apply u32_range|done]. Qed.
(** What is left of the timers that are due is still in time. *)
Lemma in_time_kept s s' pre pre' : k_tick s' = k_tick s -> (forall tm, tm ∈ pre' -> tm ∈ pre /\ timer_same s s' tm) -> kinv s' -> (forall tm, tm ∈ pre' -> tm ∈ all_timers s') ->
  (forall tm, tm ∈ pre -> 0 <= period s tm) -> in_time s pre -> in_time s' pre'.
Proof.
  intros Ek Hs Hk Hall Hp Hin a b Ha Hb. destruct (Hs a Ha) as [Ha' [Ea _]], (Hs b Hb) as [Hb' [Eb Ob]]. assert (overdue s' a = overdue s a) as -> by (unfold overdue; by rewrite Ek, Ea). specialize (Hin a b Ha' Hb'). specialize (Hp b Hb'). destruct b as [t|n].
  - rewrite period_thread by auto. lia.
  - unfold period in *. by rewrite Eb, (Ob n eq_refl).
Qed.

(** What is shown of a run: [pre] were due, [rest] were not. *)
Record check_result (step : Z -> Z -> kst -> kst -> Prop) (pre rest : list tmid) (s : kst) (fired : list tmid) (s' : kst) : Prop := {
  cr_inv : check_inv s';
  cr_tick : k_tick s' = k_tick s;
  cr_ran : checked step fired s s';
  cr_order : fired `sublist_of` pre;
  cr_users : forall n, TmUser n ∈ pre -> TmUser n ∈ fired;
  cr_threads : forall t, TmThread t ∈ k_timer_list s' -> TmThread t ∈ rest;
  cr_head : Forall (fun tm => ~ expired s' tm) (k_timer_list s');
  cr_quiet : (forall n, TmUser n ∉ pre) \/ (forall f p a b, step f p a b -> k_timer_list b = k_timer_list a) -> fired = pre
}.

Section run.
Context (step : Z -> Z -> kst -> kst -> Prop) (user : Z -> Z -> K unit) (user_ok : hard_callback step user).

(** The list after the function of an application: threads may have been woken. *)
Lemma callback_list s s' pre rest (stays : tmid -> bool) : user_kept s s' -> k_timer_list s = pre ++ rest -> k_timer_list s' = filter (fun tm => stays tm = true) (pre ++ rest) ->
  exists pre' rest', k_timer_list s' = pre' ++ rest' /\ pre' `sublist_of` pre /\ rest' `sublist_of` rest /\ forall n, TmUser n ∈ pre -> TmUser n ∈ pre'.
Proof.
  intros U El E. exists (filter (fun tm => stays tm = true) pre), (filter (fun tm => stays tm = true) rest). rewrite E, filter_app. split; [done|]. split; [apply sublist_filter|]. split; [apply sublist_filter|]. intros n Hn. apply list_elem_of_filter. split; [|done].
  destruct (U n) as (_ & _ & Hl & _). assert (TmUser n ∈ k_timer_list s') as Hin by (apply Hl; rewrite El; apply elem_of_app; by left). rewrite E in Hin. by apply list_elem_of_filter in Hin as [? _].
Qed.
(** The list after the timer of an application has started again, or not. *)
Lemma rearmed_list s s' n pre rest : check_inv s -> rearmed k_timer_list (TmUser n) s s' -> k_timer_list s = pre ++ rest -> TmUser n ∉ pre ++ rest -> Forall (expired s) pre -> Forall (fun tm => ~ expired s tm) rest -> (forall a, a ∈ pre -> overdue s a + period s (TmUser n) <= TICK_HALF) ->
  exists rest', k_timer_list s' = pre ++ rest' /\ (forall tm, tm ∈ rest' -> tm = TmUser n \/ tm ∈ rest) /\ k_tick s' = k_tick s /\ (forall tm, tm ∈ pre ++ rest -> timer_same s s' tm) /\ Forall (fun tm => ~ expired s' tm) rest'.
Proof.
  intros (Hk & _ & Hs) (ob & ti & Eo & Et & F & Hob & Hr) El Hn Hpre Hrest Hin. destruct F as (KF & _). destruct (kframe_nest s s' KF) as (_ & _ & Ek). rewrite Forall_forall in Hpre, Hrest.
  assert (forall tm, tm ∈ pre ++ rest -> k_timers s' !! tm = k_timers s !! tm -> timer_same s s' tm) as Hsame. { intros tm Htm E. split; [done|]. intros m ->. apply Hob. intros [= ->]. done. }
  destruct (rearms ob) eqn:Er.
  - destruct Hr as (_ & Etm & He). apply andb_prop in Er as [Hp _]. pose proof (ts_period s Hs _ ob ti Eo Et Hp) as Hti. assert (period s (TmUser n) = tm_init_tick ti) as Epd by (unfold period; by rewrite Eo, Et, Hp). rewrite Epd in Hin.
    rewrite El in He. destruct (enqueued_behind s (TmUser n) (u32 (k_tick s + tm_init_tick ti)) pre rest (k_timer_list s') Hn) as (rest' & E' & He'); [|done|].
    { apply Forall_forall. intros a Ha. apply expired_not_later; [by apply Hpre|lia|by apply Hin]. }
    exists rest'. pose proof (enqueued_perm _ _ _ _ _ He') as Hperm. rewrite without_notin in Hperm by (rewrite elem_of_app in Hn; tauto).
    assert (forall tm, tm ∈ pre ++ rest -> timer_same s s' tm) as Hsm. { intros tm Htm. apply Hsame; [done|]. rewrite Etm, lookup_insert_ne; [done|]. intros <-. done. }
    split_and!; [done|intros tm; rewrite Hperm; apply elem_of_cons|done|done|]. rewrite Hperm. constructor.
    + intros (x & Ex & Hx). rewrite Etm, lookup_insert_eq in Ex. injection Ex as <-. apply timed_out_spec in Hx. rewrite Ek, (started_not_due _ (tm_init_tick ti)) in Hx; done.
    + apply Forall_forall. intros tm Htm. rewrite (expired_kept s s' tm); [by apply Hrest|done|]. apply Hsm, elem_of_app. by right.
  - destruct Hr as (_ & Etm & He). exists rest. assert (forall tm, tm ∈ pre ++ rest -> timer_same s s' tm) as Hsm by (intros tm Htm; apply Hsame; [done|by rewrite Etm]). split_and!; [by rewrite He|by right|done|done|]. apply Forall_forall. intros tm Htm. rewrite (expired_kept s s' tm); [by apply Hrest|done|]. apply Hsm, elem_of_app. by right.
Qed.
Lemma period_nonneg s tm : timers_sane s -> 0 <= period s tm.
Proof. intros Hs. unfold period. destruct (k_objects s !! OTimer tm) as [ob|] eqn:Eo; [|done]. destruct (k_timers s !! tm) as [ti|] eqn:Et; [|done]. destruct (flag_test RT_TIMER_FLAG_PERIODIC ob) eqn:Ep; [|done]. pose proof (ts_period s Hs tm ob ti Eo Et Ep). lia. Qed.

(** An iteration on the timer of an application. *)
Lemma user_timer_iteration s n pre rest fuel (Q : unit -> kst -> Prop) :
  check_inv s -> k_timer_list s = (TmUser n :: pre) ++ rest -> Forall (expired s) (TmUser n :: pre) -> Forall (fun tm => ~ expired s tm) rest -> in_time s (TmUser n :: pre) ->
  (forall ti f p s1 s' pre' rest', k_timers s !! TmUser n = Some ti -> tm_func ti = TFUser f p -> step f p (unlisted (TmUser n) s) s1 -> rearmed k_timer_list (TmUser n) s1 s' ->
     check_inv s' -> k_tick s' = k_tick s -> k_timer_list s' = pre' ++ rest' -> pre' `sublist_of` pre -> (forall m, TmUser m ∈ pre -> TmUser m ∈ pre') -> (forall t, TmThread t ∈ rest' -> TmThread t ∈ rest) ->
     Forall (expired s') pre' -> Forall (fun tm => ~ expired s' tm) rest' -> in_time s' pre' -> ((forall f p a b, step f p a b -> k_timer_list b = k_timer_list a) -> pre' = pre) ->
     wp (timer_check_loop user fuel (k_tick s)) s' Q) ->
  wp (timer_check_loop user (S fuel) (k_tick s)) s Q.
Proof using user_ok.
  intros H El Hpre Hrest Hin HQ. apply Forall_cons in Hpre as [Hx Hpre]. destruct (unlisted_check_inv s (TmUser n) (pre ++ rest) H El Hx) as (H1 & Hh & _). pose proof Hx as (ti & Et & Ex%timed_out_spec). pose proof H as (Hk & Hc & Hs). destruct (ts_user s Hs n ti Et) as (f & p & Hfn).
  assert (NoDup (TmUser n :: pre ++ rest)) as Hnd. { change (NoDup ((TmUser n :: pre) ++ rest)). rewrite <- El. pose proof (ti_nodup (proj2 Hk)) as Hnd. by apply NoDup_app in Hnd as [? _]. } apply NoDup_cons in Hnd as [Hn Hnd].
  cbn [timer_check_loop]. kstep. kstep. rewrite El. cbn [app]. kstep. apply (wp_get_timer _ ti); [done|]. rewrite Ex. unfold _rt_timer_remove. kstep. kstep. fold (unlisted (TmUser n) s). assert (k_timer_list (unlisted (TmUser n) s) = pre ++ rest) as El1 by (unfold unlisted; kproj; rewrite El; cbn [app]; apply without_head; by apply NoDup_cons).
  kstep. rewrite Hfn. cbn [call_timeout]. eapply wp_mono; [by apply user_ok|]. intros [] s1 (Hstep & H2 & [Ek1 _] & U & (stays & E2) & Hth). rewrite El1 in E2. destruct (callback_list _ s1 pre rest stays U El1 E2) as (pre' & rest' & E3 & Hp & Hr & Hu).
  assert (forall tm, tm ∈ pre' ++ rest' -> tm ∈ pre ++ rest /\ timer_same s s1 tm) as Hsame.
  { intros tm Htm. assert (tm ∈ pre ++ rest) as Hin'. { apply elem_of_app in Htm as [?|?]; apply elem_of_app; [left|right]; by eapply elem_of_sublist. } split; [done|]. destruct tm as [t|m]; [split; [|done]; rewrite (Hth t) by (by rewrite E3); done|]. destruct (U m) as (A & B & _). by split. }
  destruct (U n) as (Uo & Ut & _). destruct Hh as (_ & ob & Eo & Hty & Hsoft & _). kstep. kstep. kstep. change (k_tick (unlisted (TmUser n) s)) with (k_tick s) in Ek1.
  assert (hard_timer s1 (TmUser n)) as Hh1. { split; [rewrite Ut; by eexists|]. exists ob. rewrite Uo. split_and!; [done|done|done|done]. }
  eapply wp_mono; [apply wp_and; [by apply (timer_rearm_wp s1 (TmUser n))|apply (rearm_hard s1 n ob ti); [apply H2|by rewrite Uo|done|done|by rewrite Ut|]]|].
  { intros Hper. destruct (ts_period s Hs (TmUser n) ob ti Eo Et Hper). lia. }
  intros [] s2 [(H3 & _ & _) Hre]. rewrite Ek1.
  assert (period s1 (TmUser n) = period s (TmUser n)) as Epd by (unfold period; by rewrite Uo, Ut). rewrite Forall_forall in Hpre, Hrest.
  destruct (rearmed_list s1 s2 n pre' rest') as (rest2 & E4 & Hr2 & Ek2 & Hsame2 & Hrest2); [done|done|done| | | | |].
  { intros Htm. destruct (Hsame _ Htm) as [? _]. done. }
  { apply Forall_forall. intros tm Htm. destruct (Hsame tm) as [_ Hsm]; [apply elem_of_app; by left|]. apply (expired_kept s s1); [done|done|]. apply Hpre. by eapply elem_of_sublist. }
  { apply Forall_forall. intros tm Htm. destruct (Hsame tm) as [_ Hsm]; [apply elem_of_app; by right|]. rewrite (expired_kept s s1) by done. apply Hrest. by eapply elem_of_sublist. }
  { intros a Ha. rewrite Epd. destruct (Hsame a) as [_ [Ea _]]; [apply elem_of_app; by left|]. assert (overdue s1 a = overdue s a) as -> by (unfold overdue; by rewrite Ek1, Ea). apply Hin; [right; by eapply elem_of_sublist|left]. }
  assert (forall tm, tm ∈ pre' -> tm ∈ pre /\ timer_same s s2 tm) as Hsm.
  { intros tm Htm. split; [by eapply elem_of_sublist|]. destruct (Hsame tm) as [_ [A1 A2]]; [apply elem_of_app; by left|]. destruct (Hsame2 tm) as [B1 B2]; [apply elem_of_app; by left|]. split; [congruence|]. intros m ->. rewrite (B2 m eq_refl). by apply (A2 m). }
  assert (k_tick s2 = k_tick s) as Ek by congruence. eapply (HQ ti f p s1 s2 pre' rest2); try done.
  - intros t Ht. apply Hr2 in Ht as [?|Ht]; [done|]. by eapply elem_of_sublist.
  - apply Forall_forall. intros tm Htm. destruct (Hsm tm Htm) as [Hp' Hsm']. apply (expired_kept s s2); [done|done|]. by apply Hpre.
  - apply (in_time_kept s s2 (TmUser n :: pre)); [done| |apply H3| | |done].
    + intros tm Htm. destruct (Hsm tm Htm). split; [by right|done].
    + intros tm Htm. apply elem_of_app. left. rewrite E4. apply elem_of_app. by left.
    + intros tm _. by apply period_nonneg.
  - intros Hq. specialize (Hq _ _ _ _ Hstep). rewrite El1, E3 in Hq. apply sublist_length in Hp as L1. apply sublist_length in Hr as L2. apply (f_equal length) in Hq as L3. rewrite !length_app in L3. apply app_inj_1 in Hq as [-> _]; [done|lia].
Qed.

Lemma check_loop_wp pre : forall fuel s rest, check_inv s -> k_timer_list s = pre ++ rest -> Forall (expired s) pre -> Forall (fun tm => ~ expired s tm) rest -> in_time s pre -> (length pre < fuel)%nat ->
  wp (timer_check_loop user fuel (k_tick s)) s (fun _ s' => exists fired, check_result step pre rest s fired s').
Proof using user_ok.
  remember (length pre) as k eqn:Ek. revert pre Ek. induction (lt_wf k) as [k _ IH]. intros pre Ek fuel s rest H El Hpre Hrest Hin Hf. destruct fuel as [|fuel]; [lia|]. destruct pre as [|[t|n] pre].
  - assert (check_result step [] rest s [] s) as Hend. { split; try done; [apply checked_nil|intros t Ht; by rewrite El in Ht|by rewrite El]. }
    cbn [timer_check_loop]. kstep. kstep. rewrite El. cbn [app]. destruct rest as [|tm rest]; [kstep; by exists []|]. destruct (ti_listed (proj2 (proj1 H)) tm) as ([ti Et] & _); [apply elem_of_app; rewrite El; left; left|].
    kstep. apply (wp_get_timer _ ti); [done|]. destruct (timed_out (k_tick s) ti) eqn:E; [|kstep; by exists []]. exfalso. apply Forall_cons in Hrest as [Hx _]. apply Hx. exists ti. by rewrite <- timed_out_spec.
  - apply (thread_timer_iteration user s t (pre ++ rest)); [done|done|by apply Forall_cons in Hpre as [? _]|]. intros s1 H1 Hw El1 Etm Etk Hob. rewrite <- Etk. rewrite Forall_forall in Hpre, Hrest.
    assert (forall tm, expired s1 tm <-> expired s tm) as Hx by (intros tm; unfold expired; by rewrite Etm, Etk).
    eapply wp_mono; [apply (IH (length pre)) with (pre := pre) (rest := rest); [cbn in Ek; lia|done|done|done| | | |cbn in Ek; lia]|].
    + apply Forall_forall. intros tm Htm. apply Hx, Hpre. by right.
    + apply Forall_forall. intros tm Htm. rewrite Hx. by apply Hrest.
    + apply (in_time_kept s s1 (TmThread t :: pre)); [done| |apply H1| |intros tm _; apply period_nonneg, H|done].
      * intros tm Htm. split; [by right|]. split; [by rewrite Etm|]. intros m ->. by apply Hob.
      * intros tm Htm. apply elem_of_app. left. rewrite El1. apply elem_of_app. by left.
    + intros [] s' (fired & [R1 R2 R3 R4 R5 R6 R7 R8]). exists (TmThread t :: fired). split; try done; [congruence| | | |].
      * apply (checked_thread step t fired s s1 s'); [by rewrite El|done|by rewrite El1, El|done].
      * by apply sublist_skip.
      * intros n Hn. right. apply R5. apply elem_of_cons in Hn as [?|?]; done.
      * intros Hq. f_equal. apply R8. destruct Hq as [Hq|Hq]; [left|by right]. intros n Hn. apply (Hq n). by right.
  - apply (user_timer_iteration s n pre rest); [done|done|done|done|done|]. intros ti f p s1 s2 pre' rest' Et Hfn Hstep Hre H2 Etk El2 Hp Hu Hr Hpre' Hrest' Hin' Hq. rewrite <- Etk. pose proof (sublist_length _ _ Hp) as Hlen.
    eapply wp_mono; [apply (IH (length pre')) with (pre := pre') (rest := rest'); [cbn in Ek; lia|done|done|done|done|done|done|cbn in Ek; lia]|].
    intros [] s' (fired & [R1 R2 R3 R4 R5 R6 R7 R8]). exists (TmUser n :: fired). split; try done; [congruence| | | | |].
    + by apply (checked_user step n ti f p fired s s1 s2 s'); [by rewrite El|..].
    + apply sublist_skip. by etransitivity.
    + intros m Hm. apply elem_of_cons in Hm as [->|Hm]; [left|right]. by apply R5, Hu.
    + intros t Ht. by apply Hr, R6.
    + intros [Hno|Hqs]; [exfalso; apply (Hno n); left|]. f_equal. rewrite <- Hq by done. apply R8. by right.
Qed.
End run.

(** C4: rt_timer_check runs every timer that is due.  [pre] are the timers of the hard list that
    are due, of threads and of applications, one-shot and periodic; none is overdue by so
    much that a period added to it exceeds RT_TICK_MAX/2.  The check returns; the timers run
    in the order of the list, each when it is the first: a thread of [fired] becomes runnable
    with error -RT_ETIMEOUT and leaves the list it waited in, the others and their lists
    staying as they are, and the function of an application is called and its timer starts
    again or stops.  All timers of applications in [pre] run; a thread of [pre] runs unless a
    function woke it before, and its timer is out of the list in any case; no timer of the
    list is due at the end.  The functions of the applications may do anything that
    [hard_callback] allows: waking threads, but not changing timers. *)
Theorem rt_timer_check_wakes step user s pre rest fuel :
  hard_callback step user -> check_inv s -> k_timer_list s = pre ++ rest -> Forall (expired s) pre -> Forall (fun tm => ~ expired s tm) rest -> in_time s pre -> (length pre < fuel)%nat ->
  exists fired s', rt_timer_check user fuel s = Ok tt s' /\ check_result step pre rest s fired s' /\ (forall t, TmThread t ∈ pre -> TmThread t ∉ all_timers s') /\
    forall ts, pre = TmThread <$> ts -> timed_out_threads ts s s' /\ k_timer_list s' = rest.
Proof.
  intros Hu H El Hpre Hrest Hin Hf. destruct (wp_run _ _ _ (check_loop_wp step user Hu pre fuel s rest H El Hpre Hrest Hin Hf)) as ([] & s' & E & fired & R). exists fired, s'. split; [exact E|]. split; [done|].
  pose proof (ti_nodup (proj2 (proj1 H))) as Hnd. unfold all_timers in Hnd. rewrite El in Hnd. apply NoDup_app in Hnd as (Hnd & _). apply NoDup_app in Hnd as (Hnd & Hdis & _). split.
  - intros t Ht Hall. destruct (ti_wait (proj2 (proj1 (cr_inv _ _ _ _ _ _ R))) t Hall) as [Hl _]. apply (Hdis (TmThread t) Ht). by apply (cr_threads _ _ _ _ _ _ R).
  - intros ts ->. assert (fired = TmThread <$> ts) as ->. { apply (cr_quiet _ _ _ _ _ _ R). left. intros n Hn. by apply list_elem_of_fmap in Hn as (? & [=] & _). }
    destruct (checked_threads step ts s s') as [Ht Hl]; [by eapply NoDup_fmap_1|apply R|]. split; [done|]. rewrite Hl, El, drop_app_length'; [done|by rewrite length_fmap].
Qed.

(** At tick 150 thread 3 is overdue and the periodic timer of an application is due. *)
Definition sample_both : kst := set_k_tick 150 sample.
Lemma sample_both_check : check_inv sample_both.
Proof.
  split; [apply kinvb_sound; vm_compute; reflexivity|]. split; [by eexists|]. apply timers_saneb_sound. vm_compute. reflexivity.
Qed.
Lemma idle_hard_callback : hard_callback (fun _ _ s s' => s' = s) idle_callback.
Proof.
  intros f p s H. apply wp_ret. split_and!; try done. exists (fun _ => true). symmetry. by apply filter_id.
Qed.
Lemma rt_timer_check_wakes_witness : exists s', rt_timer_check idle_callback 3 sample_both = Ok tt s' /\
  check_result (fun _ _ s s' => s' = s) [TmThread 3; TmUser 0] [] sample_both [TmThread 3; TmUser 0] s' /\ TmThread 3 ∉ all_timers s'.
Proof.
  destruct (rt_timer_check_wakes (fun _ _ s s' => s' = s) idle_callback sample_both [TmThread 3; TmUser 0] [] 3 idle_hard_callback sample_both_check eq_refl) as (fired & s' & E & R & Hn & _).
  - apply Forall_cons_2; [|apply Forall_cons_2; [|by apply Forall_nil]]; apply (bool_decide_unpack _); by vm_compute.
  - by constructor.
  - intros a b Ha Hb. rewrite !list_elem_of_In in Ha, Hb. destruct Ha as [<-|[<-|[]]], Hb as [<-|[<-|[]]]; by vm_compute.
  - cbn. lia.
  - exists s'. assert (fired = [TmThread 3; TmUser 0]) as -> by (apply (cr_quiet _ _ _ _ _ _ R); right; by intros ? ? ? ? ->). split_and!; [done|done|]. apply Hn. left.
Defined.

(** ** rt_timer_start on both kinds of timers *)

(** The list of a kind of timer. *)
Definition list_of (soft : bool) (s : kst) : list tmid := if soft then k_soft_timer_list s else k_timer_list s.
Definition is_user (tm : tmid) : Prop := match tm with TmUser _ => True | TmThread _ => False end.
#[global] Instance is_user_dec tm : Decision (is_user tm).
Proof. refine (match tm with TmUser _ => left I | TmThread _ => right (fun H => H) end). Defined.
(** The soft list is the same, but for timers of threads, and so are the times. *)
Definition soft_users_kept (s s' : kst) : Prop := filter is_user (k_soft_timer_list s') = filter is_user (k_soft_timer_list s) /\ k_timers s' = k_timers s.
#[global] Instance soft_users_preorder : PreOrder soft_users_kept.
Proof. split; [by intros s|]. intros s1 s2 s3 [H1 E1] [H2 E2]. split; congruence. Qed.
Lemma rt_thread_resume_soft t : keeps soft_users_kept (rt_thread_resume t).
Proof.
  unfold rt_thread_resume, assert_type, rt_object_get_type, get_object, get_thread, q_remove, rt_timer_stop, rt_schedule_insert_thread, mod_thread, mod_object, _rt_timer_remove, q_append.
  repeat keeps_step; unfold assert_type, rt_object_get_type, get_object, get_thread; repeat keeps_step; try (by unfold soft_users_kept). split; [|done]. kproj. unfold without. rewrite list_filter_filter. apply list_filter_iff. intros [?|?]; cbn; naive_solver.
Qed.
Lemma soft_list_users s : kinv s -> filter is_user (k_soft_timer_list s) = k_soft_timer_list s.
Proof.
  intros Hk. apply filter_id. intros [t|n] Hin; [|done]. destruct (ti_wait (proj2 Hk) t) as [Hl _]; [apply elem_of_app; by right|]. pose proof (ti_nodup (proj2 Hk)) as Hnd. apply NoDup_app in Hnd as (_ & Hd & _). by apply (Hd (TmThread t)).
Qed.

Definition timer_thread_open (s : kst) : Prop := forall t, k_timer_thread s = Some t -> exists th, k_threads s !! t = Some th /\ st th <> RT_THREAD_CLOSE.
(** The timer thread is woken, and the soft list stays. *)
Lemma wake_timer_thread_soft s : kinv s -> is_Some (k_current s) -> timer_thread_open s ->
  wp wake_timer_thread s (fun _ s' => kinv s' /\ kframe s s' /\ user_kept s s' /\ k_soft_timer_list s' = k_soft_timer_list s /\ k_timers s' = k_timers s /\ forall t, k_timer_thread s = Some t -> exists th, k_threads s !! t = Some th /\ (st th = RT_THREAD_SUSPEND -> running_again s' t)).
Proof.
  intros Hk Hc Htt. unfold wake_timer_thread. kstep. kstep. destruct (k_timer_thread s) as [t|] eqn:Et; [|kstep; by split_and!; [|apply kframe_refl|..]].
  destruct (Htt t Et) as (th & Ht & Hcl). kstep. apply (wp_get_thread _ th); [done|]. destruct (Z.eqb_spec (st th) RT_THREAD_SUSPEND) as [Hst|Hst]; [|kstep; split_and!; [done|apply kframe_refl|done|done|done|]; intros u [= <-]; by exists th].
  kstep. eapply wp_mono; [apply (wp_keeps soft_users_kept); [apply (wp_keeps user_kept); [by apply (rt_thread_resume_awake s t th)|apply rt_thread_resume_user]|apply rt_thread_resume_soft]|]. intros r s1 [[A U] [S Et1]].
  eapply wp_mono; [apply rt_schedule_kinv; apply A|]. intros [] s2 (Hk2 & F & Hc2). pose proof (awake_sched _ _ _ _ _ A F Hk2 Hc2) as A2. destruct (sched_frame_timers s1 s2 F) as (_ & Et2 & _ & Es & _). split_and!; [done|apply A2|transitivity s1; [done|by apply user_kept_sched]| |congruence|].
  - rewrite <- (soft_list_users s2), <- (soft_list_users s) by done. rewrite Es. exact S.
  - intros u [= <-]. exists th. split; [done|]. intros _. pose proof (aw_thread _ _ _ _ A2) as Hw. rewrite Hst, Z.eqb_refl in Hw. destruct Hw as (th' & E & Hr & _). by exists th'.
Qed.

Lemma soft_after ob : flag_test RT_TIMER_FLAG_SOFT_TIMER (flag_set RT_TIMER_FLAG_ACTIVATED (flag_clear RT_TIMER_FLAG_ACTIVATED ob)) = flag_test RT_TIMER_FLAG_SOFT_TIMER ob.
Proof. unfold flag_test. cbn. by rewrite Z.land_lor_distr_l, <- Z.land_assoc, Z.lor_0_r. Qed.
Lemma rt_timer_start_both_wp s tm ti ob :
  kinv s -> is_Some (k_current s) -> timer_thread_open s -> k_objects s !! OTimer tm = Some ob ->
  Z.land (o_type ob) (Z.lnot RT_Object_Class_Static) = RT_Object_Class_Timer -> k_timers s !! tm = Some ti -> tm_init_tick ti < TICK_HALF ->
  (forall t, tm = TmThread t -> flag_test RT_TIMER_FLAG_SOFT_TIMER ob = false /\ exists th, k_threads s !! t = Some th /\ st th = RT_THREAD_SUSPEND) ->
  let soft := flag_test RT_TIMER_FLAG_SOFT_TIMER ob in let due := u32 (k_tick s + tm_init_tick ti) in
  wp (rt_timer_start tm) s (fun r s' => r = RT_EOK /\ kinv s' /\ k_tick s' = k_tick s /\ k_timers s' = <[tm := set_tm_timeout_tick due ti]> (k_timers s) /\ timer_activated s' tm /\
    enqueued s tm due (list_of soft s) (list_of soft s') /\ tm ∉ list_of (negb soft) s' /\ (forall n, TmUser n <> tm -> TmUser n ∈ list_of (negb soft) s' <-> TmUser n ∈ list_of (negb soft) s) /\
    (soft = true -> forall t th, k_timer_thread s = Some t -> k_threads s !! t = Some th -> st th = RT_THREAD_SUSPEND -> running_again s' t)).
Proof.
  intros Hk Hc Htt Eo Hty Et Hti Hth soft due. unfold rt_timer_start. kstep. eapply wp_mono.
  { apply (rt_timer_enqueue_wp s tm ti ob); [apply Hk|done..|]. intros t ->. destruct (Hth t eq_refl) as [Hf Hs]. split; [|done]. unfold flag_test in Hf. by apply negb_false_iff, Z.eqb_eq in Hf. }
  intros _ s1 (F & T & Etm & Eob & Hl). fold soft due in Hl. kstep. eapply wp_get_object; [rewrite Eob; apply lookup_insert_eq|]. rewrite soft_after. fold soft. kstep. pose proof F as (KF & F1 & F2 & F3 & F4). destruct (kframe_nest s s1 KF) as (_ & _ & Ek).
  assert (kinv s1) as Hk1 by (by apply (tframe_kinv s)). assert (timer_activated s1 tm) as Ha1 by (apply (activated_again _ _ (flag_clear RT_TIMER_FLAG_ACTIVATED ob)); rewrite Eob; apply lookup_insert_eq).
  destruct soft eqn:Es; cbn [when list_of negb].
  - destruct Hl as [Hl Hh]. assert (k_timer_thread s1 = k_timer_thread s) as Ett by (destruct KF as [Em _]; unfold misc in Em; by injection Em). destruct tm as [t|n]; [destruct (Hth t eq_refl) as [Hf _]; unfold soft in Es; congruence|].
    eapply wp_mono; [apply (wake_timer_thread_soft s1); [done|by rewrite F3|intros t Ht; rewrite F1; apply Htt; congruence]|]. intros [] s2 (Hk2 & KF2 & U & Esl & Ets & Hw). kstep. destruct (kframe_nest s1 s2 KF2) as (_ & _ & Ek2). destruct (U n) as (U1 & U2 & U3 & U4). split_and!; [done|done|congruence|rewrite Ets; exact Etm| | | | |].
    + destruct Ha1 as (x & Ex & Hx). exists x. by rewrite U1.
    + by rewrite Esl.
    + rewrite U3, Hh, elem_of_without. tauto.
    + intros m Hm. destruct (U m) as (_ & _ & -> & _). rewrite Hh, elem_of_without. tauto.
    + intros _ t th Ht Eth Hst. rewrite <- Ett in Ht. destruct (Hw t Ht) as (th' & E' & Hr). rewrite F1 in E'. simplify_eq. by apply Hr.
  - destruct Hl as [Hl Hh]. kstep. kstep. split_and!; [done|done|done|done|done|done| | |done].
    + rewrite Hh, elem_of_without. tauto.
    + intros m Hm. rewrite Hh, elem_of_without. tauto.
Qed.

(** C15: rt_timer_start keeps the list of the timer's kind ordered by due time, the hard list for a
    timer without RT_TIMER_FLAG_SOFT_TIMER and the soft list for one with it.  From a list
    that is ordered (ticks left until due never decrease along it, none overdue; ticks wrap
    modulo 2^32), starting a timer of less than RT_TICK_MAX/2 ticks puts it behind every
    timer due no later and before every timer due later, the new list is ordered, the timer is
    active and in no other list.  For a soft timer the timer thread is woken if it is
    suspended. *)
Theorem rt_timer_start_ordered s tm ti ob :
  kinv s -> is_Some (k_current s) -> timer_thread_open s -> k_objects s !! OTimer tm = Some ob ->
  Z.land (o_type ob) (Z.lnot RT_Object_Class_Static) = RT_Object_Class_Timer ->
  k_timers s !! tm = Some ti -> 0 <= tm_init_tick ti < TICK_HALF ->
  (forall t, tm = TmThread t -> flag_test RT_TIMER_FLAG_SOFT_TIMER ob = false /\ exists th, k_threads s !! t = Some th /\ st th = RT_THREAD_SUSPEND) ->
  let soft := flag_test RT_TIMER_FLAG_SOFT_TIMER ob in
  timers_ordered s (list_of soft s) ->
  exists s' l1 l2, rt_timer_start tm s = Ok RT_EOK s' /\ kinv s' /\
    timers_ordered s' (list_of soft s') /\ timer_activated s' tm /\ ticks_left s' tm = tm_init_tick ti /\
    without tm (list_of soft s) = l1 ++ l2 /\ list_of soft s' = l1 ++ tm :: l2 /\
    Forall (fun t => ticks_left s t <= tm_init_tick ti) l1 /\ Forall (fun t => tm_init_tick ti < ticks_left s t) l2 /\
    tm ∉ list_of (negb soft) s' /\ (forall n, TmUser n <> tm -> TmUser n ∈ list_of (negb soft) s' <-> TmUser n ∈ list_of (negb soft) s) /\
    (soft = true -> forall t th, k_timer_thread s = Some t -> k_threads s !! t = Some th -> st th = RT_THREAD_SUSPEND -> running_again s' t).
Proof.
  intros Hk Hc Htt Eo Hty Et Hti Hth soft Hord. pose proof (rt_timer_start_both_wp s tm ti ob Hk Hc Htt Eo Hty Et (proj2 Hti) Hth) as Hw. cbv zeta in Hw. fold soft in Hw. destruct (wp_run _ _ _ Hw) as (r & s' & E & -> & Hk' & Etk & Etm & Ha & Hl & Hn & Hu & Hwake).
  destruct (enqueued_ordered s s' tm ti (tm_init_tick ti) (list_of soft s) (list_of soft s') Hord) as (Hord' & l1 & l2 & E1 & E2 & F1 & F2); [|done|done|done|done|].
  - intros t Ht. apply (ti_listed (proj2 Hk)), elem_of_app. unfold list_of in Ht. destruct soft; auto.
  - exists s', l1, l2. split_and!; try done. eapply (ticks_left_new s s' tm (set_tm_timeout_tick _ ti)); [done|by rewrite Etm, lookup_insert_eq|done|done].
Qed.

(** A soft timer of 50 ticks starts while the timer thread, thread 3, waits for one that is due in
    20 ticks. *)
Definition sample_soft_start : kst :=
  set_k_timer_thread (Some 3%nat) (set_k_timer_list [TmThread 3] (set_k_soft_timer_list [TmUser 1]
    (set_k_timers (<[TmUser 0 := mkTimer (TFUser 7 0) 50 0]> (<[TmUser 1 := mkTimer (TFUser 8 0) 50 120]> (k_timers sample)))
    (set_k_objects (<[OTimer (TmUser 0) := sample_header RT_Object_Class_Timer 4]> (<[OTimer (TmUser 1) := sample_header RT_Object_Class_Timer 5]> (k_objects sample))) sample)))).
Lemma rt_timer_start_ordered_witness : exists s', rt_timer_start (TmUser 0) sample_soft_start = Ok RT_EOK s' /\ kinv s' /\ k_soft_timer_list s' = [TmUser 1; TmUser 0] /\ running_again s' 3.
Proof.
  destruct (rt_timer_start_ordered sample_soft_start (TmUser 0) (mkTimer (TFUser 7 0) 50 0) (sample_header RT_Object_Class_Timer 4)) as (s' & l1 & l2 & E & Hk & _ & _ & _ & E1 & E2 & F1 & F2 & _ & _ & Hw).
  - apply kinvb_sound. by vm_compute.
  - by eexists.
  - intros t [= <-]. eexists. split; [reflexivity|]. by vm_compute.
  - reflexivity.
  - reflexivity.
  - reflexivity.
  - rewrite TICK_HALF_val. cbn. lia.
  - done.
  - split; [apply Forall_cons_2; [by vm_compute|by apply Forall_nil]|repeat constructor].
  - exists s'. split; [done|]. split; [done|]. split.
    + change ([TmUser 1] = l1 ++ l2) in E1. change (k_soft_timer_list s' = l1 ++ TmUser 0 :: l2) in E2. rewrite E2. destruct l1 as [|a l1]; cbn in E1; [subst l2; apply Forall_cons in F2 as [F2 _]; by vm_compute in F2|]. injection E1 as <- E1. symmetry in E1. apply app_nil in E1 as [-> ->]. done.
    + eapply (Hw eq_refl 3%nat); [reflexivity|reflexivity|by vm_compute].
Defined.
