(* ===== verification/SoftTimer.v ===== *)
(** * The timer thread (src/timer.c)

    The thread that runs the soft timers.  Its loop is taken in the pieces that
    interrupts and other threads can come between: looking for the next timeout,
    waiting for it, and rt_soft_timer_check. *)

From stdpp Require Import sorting.
From S2P Require Import Prelude Ffs KState Wf Inv Sched Object Timer Thread TimerRun Sleep Ipc Beside UserTimer TimerCheck.

(** How an iteration of rt_thread_timer_entry waits. *)
Inductive timer_wait := NoWait | Suspended (t : nat) | Delayed (t : nat).

Definition timer_entry_next : K Z := rt_timer_list_next_timeout k_soft_timer_list.
Definition timer_entry_wait (next_timeout : Z) : K timer_wait :=
  if next_timeout =? RT_TICK_MAX then
    self <- rt_thread_self ;;
    t <- deref (fun _ => self) ;;
    rt_thread_suspend t ;;
    rt_schedule ;;
    ret (Suspended t)
  else
    current_tick <- gets k_tick ;;
    if u32 (next_timeout - current_tick) <? TICK_HALF then
      t <- rt_thread_delay_enter (u32 (next_timeout - current_tick)) ;; ret (Delayed t)
    else ret NoWait.
(** The rest of the iteration, when the thread runs again. *)
Definition timer_entry_check (user : Z -> Z -> K unit) (fuel : nat) (w : timer_wait) : K unit :=
  match w with Delayed t => rt_thread_sleep_resume t ;; ret tt | _ => ret tt end ;;
  rt_soft_timer_check user fuel.

Definition RT_TIMER_THREAD_PRIO : Z := 4.
Definition RT_TIMER_THREAD_STACK_SIZE : Z := 512.
Definition timer_name : list Z := [116; 105; 109; 101; 114; 0].
(** [t]: the object timer_thread; [entry], [stack], [exit]: the addresses of
    rt_thread_timer_entry, timer_thread_stack and rt_thread_exit. *)
Definition rt_system_timer_thread_init (t : nat) (entry stack exit : Z) : K unit :=
  modify (set_k_soft_timer_list []) ;;
  rt_thread_init t timer_name entry 0 stack RT_TIMER_THREAD_STACK_SIZE RT_TIMER_THREAD_PRIO 10 exit ;;
  modify (set_k_timer_thread (Some t)) ;;
  rt_thread_startup t ;;
  ret tt.

(** ** Waiting for the first timer *)

Lemma suspend_self_wp s c th : kinv s -> caller s c th -> wp (rt_thread_suspend c ;; rt_schedule) s (fun _ s' => parked s s' c th (-1)).
Proof. intros Hk Hca. exact (park_end_wp s c th (-1) Hk Hca ltac:(by rewrite TICK_HALF_val)). Qed.

Lemma wait_forever_wp s c th : kinv s -> caller s c th -> wp (timer_entry_wait RT_TICK_MAX) s (fun r s' => r = Suspended c /\ parked s s' c th (-1)).
Proof.
  intros Hk Hca. unfold timer_entry_wait. rewrite Z.eqb_refl. unfold rt_thread_self. kstep. kstep. rewrite (ca_current _ _ _ Hca). kstep. apply (wp_deref _ c); [done|].
  apply wp_assoc. kstep. eapply wp_mono; [by apply (suspend_self_wp s c th)|]. intros [] s' P. by kstep.
Qed.

Lemma entry_next_wp s l : k_soft_timer_list s = l -> (forall tm, head l = Some tm -> is_Some (k_timers s !! tm)) ->
  wp timer_entry_next s (fun r s' => s' = s /\ match l with [] => r = RT_TICK_MAX | tm :: _ => exists ti, k_timers s !! tm = Some ti /\ r = tm_timeout_tick ti end).
Proof.
  intros El Hl. unfold timer_entry_next, rt_timer_list_next_timeout. kstep. kstep. rewrite El. destruct l as [|tm l]; [by kstep|]. destruct (Hl tm eq_refl) as [ti E]. kstep. apply (wp_get_timer _ ti); [done|]. kstep. split; [done|]. by exists ti.
Qed.

(** The timer thread sleeps exactly as long as there is nothing to do.  With
    no soft timer it is suspended, and with a first timer that is not overdue it
    sleeps, its own timer due at the very tick that timer is; a timer that is
    overdue is not waited for.  The kernel invariant holds. *)
Theorem timer_thread_waits s c th :
  kinv s -> caller s c th -> (forall tm ti, head (k_soft_timer_list s) = Some tm -> k_timers s !! tm = Some ti -> 0 <= tm_timeout_tick ti < RT_TICK_MAX) ->
  wp (next <- timer_entry_next ;; timer_entry_wait next) s (fun r s' => kinv s' /\
    match k_soft_timer_list s with
    | [] => r = Suspended c /\ parked s s' c th (-1)
    | tm :: _ =>
        if ticks_left s tm <? TICK_HALF then r = Delayed c /\ TmThread c ∈ k_timer_list s' /\ ticks_left s' (TmThread c) = ticks_left s tm /\
          exists th', k_threads s' !! c = Some th' /\ st th' = RT_THREAD_SUSPEND
        else r = NoWait /\ s' = s
    end).
Proof.
  intros Hk Hca Hmax. pose proof Hca as [Hc Ht Hr Hi]. kstep. eapply wp_mono; [apply (entry_next_wp s (k_soft_timer_list s)); [done|]|].
  { intros tm Htm. destruct (ti_listed (proj2 Hk) tm) as [? _]; [|done]. apply elem_of_app. right. destruct (k_soft_timer_list s); [done|]. injection Htm as ->. left. }
  intros r s1 [-> Hn]. destruct (k_soft_timer_list s) as [|tm l] eqn:El.
  { subst r. eapply wp_mono; [by apply (wait_forever_wp s c th)|]. intros r s' [-> P]. split; [apply P|done]. }
  destruct Hn as (ti & Et & ->). specialize (Hmax tm ti eq_refl Et). unfold timer_entry_wait. rewrite (proj2 (Z.eqb_neq _ _)) by lia. kstep. kstep.
  assert (u32 (tm_timeout_tick ti - k_tick s) = ticks_left s tm) as -> by (unfold ticks_left; by rewrite Et). destruct (Z.ltb_spec (ticks_left s tm) TICK_HALF) as [Hlt|Hge]; [|by kstep].
  assert (0 <= ticks_left s tm) as H0 by (unfold ticks_left; rewrite Et; apply u32_range).
  kstep. unfold rt_thread_delay_enter. eapply wp_mono; [by apply (rt_thread_sleep_enter_wp s c th)|]. intros r s' (-> & Hk' & s1 & F & M & Hin & Hleft). kstep. split; [done|]. split; [done|].
  destruct (sched_frame_timers s1 s' F) as (_ & _ & E3 & _). split; [by rewrite E3|]. split; [by rewrite (sched_frame_ticks_left s1 s')|].
  apply (sched_frame_suspended s1 s' c (suspended th)); [done|rewrite (mv_threads _ _ _ _ _ M); apply lookup_insert_eq|by apply st_with_st].
Qed.

(** A soft timer that is due at tick 2^32 - 1 is taken for no timer at all:
    the timer thread goes to sleep without a time-out, although the first soft
    timer is due. *)
Theorem timer_thread_misses_last_tick s c th tm ti l :
  kinv s -> caller s c th -> k_soft_timer_list s = tm :: l -> k_timers s !! tm = Some ti -> tm_timeout_tick ti = RT_TICK_MAX ->
  wp (next <- timer_entry_next ;; timer_entry_wait next) s (fun r s' => r = Suspended c /\ parked s s' c th (-1)).
Proof.
  intros Hk Hca El Et Hmax. kstep. eapply wp_mono; [apply (entry_next_wp s (tm :: l)); [done|by intros ? [= <-]]|]. intros r s1 [-> (ti' & E & ->)]. simplify_eq. rewrite Hmax. by apply wait_forever_wp.
Qed.

(** A soft timer can be started and not run.  When it is started after the
    timer thread has found no soft timer and before that thread is suspended,
    nobody wakes the thread: it sleeps without a time-out, with the timer in its
    list. *)
Theorem timer_start_missed s n flag ti c th :
  kinv s -> is_Some (k_current s) -> k_soft_timer_list s = [] -> user_timer s n flag ti -> Z.land flag RT_TIMER_FLAG_SOFT_TIMER <> 0 -> 0 <= tm_init_tick ti < TICK_HALF ->
  k_timer_thread s = Some c -> k_threads s !! c = Some th -> runnable th ->
  timer_entry_next s = Ok RT_TICK_MAX s /\
  wp (rt_timer_start (TmUser n)) s (fun r s1 => r = RT_EOK /\ running_again s1 c /\ TmUser n ∈ k_soft_timer_list s1 /\ ticks_left s1 (TmUser n) = tm_init_tick ti /\
    forall k th', kinv k -> caller k c th' -> k_soft_timer_list k = k_soft_timer_list s1 ->
      wp (timer_entry_wait RT_TICK_MAX) k (fun r s2 => r = Suspended c /\ parked k s2 c th' (-1) /\ TmUser n ∈ k_soft_timer_list s2)).
Proof.
  intros Hk Hc El U Hsoft Hti Htt Ht Hr. split.
  { unfold timer_entry_next, rt_timer_list_next_timeout, bind, gets. by rewrite El. }
  eapply wp_mono; [apply (rt_timer_start_user s n flag ti); try done|].
  { intros t E. simplify_eq. exists th. split; [done|by apply runnable_open]. }
  intros r s1 (-> & Hk1 & Hc1 & Hin & Hleft & Hob & Hkept). split; [done|]. split; [|split; [done|]; split; [done|]].
  - destruct (Hkept c) as [Hkp|(th0 & E0 & Hs & _)]; [by apply (kept_runnable s s1 c th)|]. simplify_eq. destruct Hr as [Hr|Hr]; by rewrite Hs in Hr.
  - intros k th' Hk2 Hca Es. eapply wp_mono; [apply (wp_keeps user_kept); [by apply (wait_forever_wp k c th')|]|].
    + unfold timer_entry_wait, rt_thread_self. rewrite Z.eqb_refl. repeat keeps_step; first [apply rt_thread_suspend_user|apply rt_schedule_user|idtac].
    + intros r s2 [[-> P] K]. split; [done|]. split; [done|]. apply (K n). by rewrite Es.
Qed.

(** ** rt_soft_timer_check *)

(** The application functions, as the theorem needs them: what a call of [f] with
    [p] does to the rest of the kernel is [step f p]; it leaves the soft timers
    and the clock alone, and the timer thread, which calls it, runs when it returns. *)
Definition timer_runs (s : kst) : Prop := forall t, k_timer_thread s = Some t -> running_again s t.
Definition soft_inv (s : kst) : Prop := kinv s /\ is_Some (k_current s) /\ k_lock_nest s = 0 /\ timer_runs s.
Definition soft_callback (step : Z -> Z -> kst -> kst -> Prop) (user : Z -> Z -> K unit) : Prop :=
  forall f p s, soft_inv s -> wp (user f p) s (fun _ s' => step f p s s' /\ soft_inv s' /\ user_kept s s' /\ k_soft_timer_list s' = k_soft_timer_list s /\ k_tick s' = k_tick s).

(** The calls that were made between two states, in their order; between them the
    IPC objects stay as they are. *)
Inductive ran (step : Z -> Z -> kst -> kst -> Prop) : list (Z * Z) -> kst -> kst -> Prop :=
| ran_nil s s' : ipc_data s' = ipc_data s -> ran step [] s s'
| ran_cons f p l s s1 s2 s' : ipc_data s1 = ipc_data s -> step f p s1 s2 -> ran step l s2 s' -> ran step ((f, p) :: l) s s'.

(** A soft timer that is due, one-shot or periodic, and the call it stands for. *)
Definition due_soft (s : kst) (tm : tmid) (call : Z * Z) : Prop := exists n ti ob, tm = TmUser n /\ k_timers s !! tm = Some ti /\ k_objects s !! OTimer tm = Some ob /\
  flag_test RT_TIMER_FLAG_SOFT_TIMER ob = true /\ (flag_test RT_TIMER_FLAG_PERIODIC ob = true -> 1 <= tm_init_tick ti < TICK_HALF) /\ tm_func ti = TFUser (fst call) (snd call) /\ timed_out (k_tick s) ti = true.
(** It will be started again. *)
Definition starts_again (s : kst) (tm : tmid) : bool := match k_objects s !! OTimer tm with Some ob => rearms ob | None => false end.
Definition init_tick (s : kst) (tm : tmid) : Z := match k_timers s !! tm with Some ti => tm_init_tick ti | None => 0 end.
Definition app_timer_same (s s' : kst) (n : nat) : Prop := k_objects s' !! OTimer (TmUser n) = k_objects s !! OTimer (TmUser n) /\ k_timers s' !! TmUser n = k_timers s !! TmUser n.

(** The timers after a check in which those of [tms] were due and [rest] were not: the
    periodic ones are in the list again, due in their time, the others inactive. *)
Record soft_result (s : kst) (tms rest : list tmid) (s' : kst) : Prop := {
  sr_list : k_soft_timer_list s' ≡ₚ filter (fun tm => starts_again s tm = true) tms ++ rest;
  sr_order : timers_ordered s rest -> timers_ordered s' (k_soft_timer_list s');
  sr_none : Forall (fun tm => ~ expired s' tm) (k_soft_timer_list s');
  sr_ran : forall tm, tm ∈ tms -> if starts_again s tm then timer_activated s' tm /\ ticks_left s' tm = init_tick s tm else ~ timer_activated s' tm;
  sr_others : forall n, TmUser n ∉ tms -> app_timer_same s s' n;
  sr_tick : k_tick s' = k_tick s
}.

Lemma kinv_user_flag s n ob : kinv s -> k_objects s !! OTimer (TmUser n) = Some ob -> kinv (set_k_objects (<[OTimer (TmUser n) := flag_clear RT_TIMER_FLAG_ACTIVATED ob]> (k_objects s)) s).
Proof.
  intros [W T] Eo. split; [by apply (wfx_same _ s)|]. apply (tinv_timer_update s _ (TmUser n) ob (flag_clear RT_TIMER_FLAG_ACTIVATED ob)); try done; [apply flag_bits_clear|apply T|].
  intros Hin. destruct (ti_listed T (TmUser n) Hin) as (? & ?). by split_and!.
Qed.

Lemma ran_first step l s s1 s' : ipc_data s1 = ipc_data s -> ran step l s1 s' -> ran step l s s'.
Proof. intros E H. inversion H as [? ? E'|f p l' ? s2 s3 ? E' Hs Hr]; subst; [apply ran_nil; congruence|]. by apply (ran_cons step f p l' s s2 s3); [congruence|..]. Qed.
Lemma enter_exit_frame s s' : sched_frame s s' -> ipc_data s' = ipc_data s /\ user_kept s s' /\ k_soft_timer_list s' = k_soft_timer_list s /\ k_tick s' = k_tick s.
Proof. intros F. destruct (sched_frame_timers s s' F) as (_ & _ & _ & -> & ->). split; [by apply kframe_ipc, sched_kframe|]. split; [by apply user_kept_sched|done]. Qed.

Lemma wake_running s (Q : unit -> kst -> Prop) : timer_runs s -> Q tt s -> wp wake_timer_thread s Q.
Proof.
  intros Hr HQ. unfold wake_timer_thread. kstep. kstep. destruct (k_timer_thread s) as [t|] eqn:Et; [|by kstep]. destruct (Hr t Et) as (th & Eth & Hrun). kstep. apply (wp_get_thread _ th); [done|].
  rewrite (proj2 (Z.eqb_neq _ _)); [by kstep|]. intros E. destruct Hrun as [H|H]; by rewrite E in H.
Qed.
Lemma rearm_soft s n ob ti : kinv s -> timer_runs s -> k_objects s !! OTimer (TmUser n) = Some ob -> Z.land (o_type ob) (Z.lnot RT_Object_Class_Static) = RT_Object_Class_Timer -> flag_test RT_TIMER_FLAG_SOFT_TIMER ob = true ->
  k_timers s !! TmUser n = Some ti -> (flag_test RT_TIMER_FLAG_PERIODIC ob = true -> tm_init_tick ti < TICK_HALF) -> wp (timer_rearm (TmUser n)) s (fun _ s' => kinv s' /\ rearmed k_soft_timer_list (TmUser n) s s').
Proof.
  intros Hk Hrun Eo Hty Hsoft Et Hti. destruct (rearms ob) eqn:Hr.
  2:{ eapply wp_mono; [by apply (rearm_stops s (TmUser n) ob ti k_soft_timer_list)|]. intros [] s' [-> ?]. split; [by apply kinv_user_flag|done]. }
  unfold timer_rearm. kstep. apply (wp_get_object _ ob); [done|]. fold (rearms ob). rewrite Hr. kstep. apply (wp_mod_object _ _ ob); [done|]. set (ob1 := flag_clear RT_TIMER_FLAG_ACTIVATED ob). set (s1 := set_k_objects (<[OTimer (TmUser n) := ob1]> (k_objects s)) s).
  assert (kinv s1) as Hk1 by by apply kinv_user_flag. assert (flag_test RT_TIMER_FLAG_SOFT_TIMER ob1 = true) as Hs1 by (unfold flag_test, ob1 in *; cbn; by rewrite <- Z.land_assoc). unfold rt_timer_start. kstep. kstep.
  eapply wp_mono; [apply (rt_timer_enqueue_wp s1 (TmUser n) ti ob1); [apply Hk1|apply lookup_insert_eq|done|done|apply Hti; unfold rearms in Hr; by apply andb_prop in Hr as [? _]|done]|].
  intros [] s2 (F & T & E1 & E2 & Hl). rewrite Hs1 in Hl. destruct Hl as [Hl _]. kstep. eapply wp_get_object; [rewrite E2; apply lookup_insert_eq|]. rewrite soft_after, Hs1. cbn [when]. kstep. pose proof F as (KF & F1 & F2 & F3 & F4).
  apply wake_running. { intros t Ht. destruct KF as [Em _]. unfold misc in Em. injection Em as _ _ _ _ _ Ett. unfold running_again. rewrite F1. apply Hrun. congruence. }
  kstep. kstep. split; [by apply (tframe_kinv s1)|]. exists ob, ti. rewrite Hr. split_and!; [done|done| | |by apply (activated_again _ _ (flag_clear RT_TIMER_FLAG_ACTIVATED ob1)); rewrite E2; apply lookup_insert_eq|done|done].
  - apply (tframe_trans _ s1); [by apply (tframe_timer_object _ (TmUser n) ob1)|done].
  - intros o Ho. rewrite E2, lookup_insert_ne by done. unfold s1. kproj. by rewrite lookup_insert_ne.
Qed.
Lemma runs_sched s s' : sched_frame s s' -> timer_runs s -> timer_runs s'.
Proof.
  intros F Hr t Ht. destruct (Hr t) as (th & Eth & Hrun). { destruct (sched_kframe s s' F) as [Em _]. unfold misc in Em. injection Em as _ _ _ _ _ _ _ _ _ Ett. congruence. } by apply (kept_runnable s s' t th); [apply kept_frame|..].
Qed.
Lemma soft_rest_user s l tm : kinv s -> k_soft_timer_list s = l -> tm ∈ l -> exists n, tm = TmUser n.
Proof. intros Hk El Hin. rewrite <- El, <- soft_list_users in Hin by done. apply list_elem_of_filter in Hin as [Hu _]. destruct tm as [t|n]; [done|by exists n]. Qed.
Lemma app_same_trans s1 s2 s3 n : app_timer_same s1 s2 n -> app_timer_same s2 s3 n -> app_timer_same s1 s3 n.
Proof. intros [A B] [C D]. split; congruence. Qed.
Lemma app_same_expired s s' n : k_tick s' = k_tick s -> app_timer_same s s' n -> (expired s' (TmUser n) <-> expired s (TmUser n)) /\ ticks_left s' (TmUser n) = ticks_left s (TmUser n) /\ overdue s' (TmUser n) = overdue s (TmUser n) /\ period s' (TmUser n) = period s (TmUser n).
Proof. intros Ek [E1 E2]. unfold expired, ticks_left, overdue, period. by rewrite Ek, E1, E2. Qed.

Lemma list_filter_iff' {A} (P Q : A -> Prop) `{!forall x, Decision (P x), !forall x, Decision (Q x)} (l : list A) : (forall x, x ∈ l -> P x <-> Q x) -> filter P l = filter Q l.
Proof.
  induction l as [|a l IH]; intros Hiff; [done|]. rewrite !filter_cons. rewrite IH by (intros x Hx; apply Hiff; by right). pose proof (Hiff a ltac:(left)). repeat case_decide; tauto.
Qed.

Section soft_check.
Context (step : Z -> Z -> kst -> kst -> Prop) (user : Z -> Z -> K unit) (user_ok : soft_callback step user).

(** A pass over a timer that is due. *)
Lemma soft_iteration s n call tms rest fuel (Q : unit -> kst -> Prop) :
  kinv s -> is_Some (k_current s) -> k_lock_nest s = 1 -> timer_runs s -> k_soft_timer_list s = TmUser n :: tms ++ rest -> due_soft s (TmUser n) call ->
  (forall s2 s3 s4 s', ipc_data s2 = ipc_data s -> step (fst call) (snd call) s2 s3 -> ipc_data s' = ipc_data s3 -> kinv s' -> is_Some (k_current s') -> k_lock_nest s' = 1 -> timer_runs s' ->
     kinv s4 -> (forall m, app_timer_same s s4 m) -> k_tick s4 = k_tick s -> k_soft_timer_list s4 = tms ++ rest -> rearmed k_soft_timer_list (TmUser n) s4 s' ->
     wp (soft_check_loop user fuel (k_tick s) (head (tms ++ rest))) s' Q) ->
  wp (soft_check_loop user (S fuel) (k_tick s) (Some (TmUser n))) s Q.
Proof using user_ok.
  intros Hk Hc Hl Hrun El (n' & ti & ob & [= <-] & Et & Eo & Hsoft & Hper & Hfn & Hout) HQ. pose proof (ti_nodup (proj2 Hk)) as Hnd. unfold all_timers in Hnd. apply NoDup_app in Hnd as (_ & _ & Hnd). rewrite El in Hnd.
  assert (TmUser n ∈ all_timers s) as Hin by (apply elem_of_app; right; rewrite El; left). destruct (ti_listed (proj2 Hk) _ Hin) as (_ & ob' & Eo' & Hty). rewrite Eo in Eo'. injection Eo' as <-.
  cbn [soft_check_loop]. kstep. apply (wp_get_timer _ ti); [done|]. rewrite Hout. kstep. kstep. rewrite El. cbn [next_node]. rewrite decide_True by done. unfold _rt_timer_remove. kstep. kstep. fold (unlisted (TmUser n) s). set (s1 := unlisted (TmUser n) s).
  assert (kinv s1) as Hk1 by by apply unlisted_kinv. assert (k_soft_timer_list s1 = tms ++ rest) as El1 by (unfold s1, unlisted; kproj; by rewrite El, without_head).
  kstep. eapply wp_mono; [apply exit_critical_kinv; [done|done|change (k_lock_nest s1) with (k_lock_nest s); lia]|]. intros [] s2 (Hk2 & F2 & Hc2). destruct (enter_exit_frame _ _ F2) as (E2 & U2 & Es2 & Ek2).
  destruct (sched_frame_objects _ _ F2) as (_ & _ & L2 & _). cbn [k_lock_nest set_k_lock_nest] in L2. change (k_lock_nest s1) with (k_lock_nest s) in L2. rewrite Hl in L2. assert (timer_runs s2) as Hrun2 by (by apply (runs_sched _ _ F2)).
  kstep. rewrite Hfn. cbn [call_timeout]. eapply wp_mono; [apply (user_ok (fst call) (snd call) s2); by split_and!|]. intros [] s3 (Hstep & (Hk3 & Hc3 & L3 & Hrun3) & U3 & Es3 & Ek3).
  assert (user_kept s1 s3) as U by (transitivity s2; [exact U2|done]). assert (k_tick s3 = k_tick s) as Ek by (rewrite Ek3, Ek2; done). kstep. kstep. kstep. unfold rt_enter_critical. kstep. rewrite L3. change (i16 (0 + 1)) with 1. set (s4 := set_k_lock_nest 1 s3). assert (kinv s4) as Hk4 by by apply kinv_lock_nest.
  assert (forall m, app_timer_same s s4 m) as Hsame by (intros m; destruct (U m) as (A & B & _); by split). destruct (Hsame n) as [So St]. kstep.
  eapply wp_mono; [apply (rearm_soft s4 n ob ti); [done|done|by rewrite So|done|done|by rewrite St|intros Hp; apply Hper in Hp; lia]|]. intros [] s5 [Hk5 Hre]. rewrite Ek.
  pose proof Hre as (_ & _ & _ & _ & (KF5 & F5 & _ & C5 & _) & _). destruct (kframe_nest s4 s5 KF5) as (_ & L5 & _). apply (HQ s2 s3 s4 s5); [exact E2|done| |done|by rewrite C5|by rewrite L5| |done|done|exact Ek|transitivity (k_soft_timer_list s3); [done|]; rewrite Es3, Es2; exact El1|done].
  - rewrite (kframe_ipc s4 s5 KF5). done.
  - intros t Ht. unfold running_again. rewrite F5. apply Hrun3. destruct KF5 as [Em _]. unfold misc in Em. injection Em as _ _ _ _ _ _ _ _ _ Ett. rewrite <- Ht. symmetry. exact Ett.
Qed.

(** The list after the timer has started again, or not. *)
Lemma soft_rearmed_list s s4 s' n tms rest : (forall m, app_timer_same s s4 m) -> kinv s4 -> k_tick s4 = k_tick s -> k_soft_timer_list s4 = tms ++ rest -> TmUser n ∉ tms ++ rest -> rearmed k_soft_timer_list (TmUser n) s4 s' ->
  Forall (expired s) tms -> Forall (fun tm => ~ expired s tm) rest -> (starts_again s (TmUser n) = true -> 1 <= init_tick s (TmUser n) < TICK_HALF) -> (starts_again s (TmUser n) = true -> forall a, a ∈ tms -> overdue s a + init_tick s (TmUser n) <= TICK_HALF) ->
  exists rest', k_soft_timer_list s' = tms ++ rest' /\ rest' ≡ₚ (if starts_again s (TmUser n) then [TmUser n] else []) ++ rest /\ k_tick s' = k_tick s /\ (forall m, m <> n -> app_timer_same s s' m) /\ Forall (fun tm => ~ expired s' tm) rest' /\
    (timers_ordered s rest -> timers_ordered s' rest') /\ (if starts_again s (TmUser n) then timer_activated s' (TmUser n) /\ ticks_left s' (TmUser n) = init_tick s (TmUser n) else ~ timer_activated s' (TmUser n)).
Proof.
  intros Hsame Hk4 Ek4 El Hn (ob & ti & Eo & Et & F & Hob & Hr) Hexp Hrest Hper Hin. destruct F as (KF & _). destruct (kframe_nest s4 s' KF) as (_ & _ & Ek5). assert (k_tick s' = k_tick s) as Ek by congruence.
  destruct (Hsame n) as [So St]. rewrite So in Eo. rewrite St in Et. unfold starts_again, init_tick in *. rewrite Eo, Et in *. rewrite Forall_forall in Hexp, Hrest.
  assert (forall tm, tm ∈ tms ++ rest -> exists m, tm = TmUser m /\ m <> n) as Huser. { intros tm Htm. destruct (soft_rest_user s4 _ tm Hk4 El Htm) as [m ->]. exists m. split; [done|]. by intros ->. }
  assert (timers_ordered s rest -> timers_ordered s4 rest) as Hord4. { apply timers_ordered_same. intros tm Htm. destruct (Huser tm) as (m & -> & _); [apply elem_of_app; by right|]. by apply (app_same_expired s s4 m). }
  assert (forall m, m <> n -> k_timers s' !! TmUser m = k_timers s4 !! TmUser m -> app_timer_same s s' m) as Hkeep. { intros m Hm E. apply (app_same_trans s s4 s' m (Hsame m)). split; [apply Hob; congruence|done]. }
  assert (forall tm, (forall m, m <> n -> app_timer_same s s' m) -> tm ∈ rest -> ~ expired s' tm) as Hne. { intros tm Hk' Htm. destruct (Huser tm) as (m & -> & Hm); [apply elem_of_app; by right|]. destruct (app_same_expired s s' m Ek (Hk' m Hm)) as [-> _]. by apply Hrest. }
  destruct (rearms ob) eqn:Er.
  - destruct Hr as (Ha & Etm & He). specialize (Hper eq_refl). specialize (Hin eq_refl). rewrite El in He. destruct (enqueued_behind s4 (TmUser n) (u32 (k_tick s4 + tm_init_tick ti)) tms rest (k_soft_timer_list s') Hn) as (rest' & E' & He'); [|done|].
    { apply Forall_forall. intros a Ha'. destruct (Huser a) as (m & -> & Hm); [apply elem_of_app; by left|]. destruct (app_same_expired s s4 m Ek4 (Hsame m)) as (A & _ & B & _). apply expired_not_later; [by apply A, Hexp|lia|rewrite B; by apply Hin]. }
    pose proof (enqueued_perm _ _ _ _ _ He') as Hperm. rewrite without_notin in Hperm by (rewrite elem_of_app in Hn; tauto). assert (forall m, m <> n -> app_timer_same s s' m) as Hk' by (intros m Hm; apply Hkeep; [done|]; rewrite Etm, lookup_insert_ne by congruence; done).
    assert (ticks_left s' (TmUser n) = tm_init_tick ti) as Etl by (eapply (ticks_left_new s4 s' _ (set_tm_timeout_tick _ ti)); [done|by rewrite Etm, lookup_insert_eq|done|lia]).
    exists rest'. split_and!; [done|done|done|done| | |done|done].
    + rewrite Hperm. constructor; [|apply Forall_forall; intros tm; by apply Hne]. intros (x & Ex & Hx). rewrite Etm, lookup_insert_eq in Ex. injection Ex as <-. apply timed_out_spec in Hx. rewrite Ek5, (started_not_due _ (tm_init_tick ti)) in Hx; done.
    + intros Hord. destruct (enqueued_ordered s4 s' (TmUser n) ti (tm_init_tick ti) rest rest' (Hord4 Hord)) as [? _]; [|lia|done|done|done|done]. intros t Ht. apply (ti_listed (proj2 Hk4)), elem_of_app. right. rewrite El. apply elem_of_app. by right.
  - destruct Hr as (Ha & Etm & He). assert (forall m, m <> n -> app_timer_same s s' m) as Hk' by (intros m Hm; apply Hkeep; [done|by rewrite Etm]). exists rest. split_and!; [by rewrite He|done|done|done|apply Forall_forall; intros tm; by apply Hne| |done].
    apply timers_ordered_same. intros tm Htm. destruct (Huser tm) as (m & -> & Hm); [apply elem_of_app; by right|]. apply (app_same_expired s s' m Ek), Hk', Hm.
Qed.

Lemma soft_check_loop_wp tms : forall calls rest fuel s node,
  kinv s -> is_Some (k_current s) -> k_lock_nest s = 1 -> timer_runs s -> k_soft_timer_list s = tms ++ rest -> Forall2 (due_soft s) tms calls -> Forall (fun tm => ~ expired s tm) rest -> in_time s tms ->
  match tms with tm :: _ => node = Some tm | [] => forall t, node = Some t -> exists ti, k_timers s !! t = Some ti /\ timed_out (k_tick s) ti = false end -> (length tms < fuel)%nat ->
  wp (soft_check_loop user fuel (k_tick s) node) s (fun _ s' => kinv s' /\ ran step calls s s' /\ soft_result s tms rest s').
Proof using user_ok.
  induction tms as [|tm tms IH]; intros calls rest fuel s node Hk Hc Hl Hrun El Hdue Hrest Hin Hnode Hf; (destruct fuel as [|fuel]; [cbn in Hf; lia|]); inversion Hdue as [|? call ? calls' Hd Hdue']; subst.
  - assert (wp rt_exit_critical s (fun _ s' => kinv s' /\ ran step [] s s' /\ soft_result s [] rest s')) as He.
    { eapply wp_mono; [apply exit_critical_kinv; [done|done|lia]|]. intros [] s' (Hk' & F & Hc'). destruct (enter_exit_frame _ _ F) as (E & _). destruct (sched_frame_timers _ _ F) as (F1 & F2 & _ & F4 & F5). cbn [app] in El. split_and!; [done|by constructor|]. split.
      - by rewrite F4, <- El.
      - rewrite F4. intros Ho. rewrite <- El in Ho. apply (timers_ordered_same s); [|done]. intros t _. unfold ticks_left. by rewrite F2, F5.
      - rewrite F4. kproj. rewrite El. eapply Forall_impl; [exact Hrest|]. intros t Ht Hx. apply Ht. unfold expired in *. by rewrite F2, F5 in Hx.
      - intros t Ht. by apply elem_of_nil in Ht.
      - intros n _. split; [by rewrite F1|by rewrite F2].
      - by rewrite F5. }
    cbn [soft_check_loop]. destruct node as [t|]; [|exact He]. destruct (Hnode t eq_refl) as (ti & Et & Hout). kstep. apply (wp_get_timer _ ti); [done|]. by rewrite Hout.
  - pose proof Hd as (n & ti & ob & -> & Et & Eo & Hsoft & Hper & Hfn & Hout). pose proof (ti_nodup (proj2 Hk)) as Hnd. unfold all_timers in Hnd. apply NoDup_app in Hnd as (_ & _ & Hnd). rewrite El in Hnd. apply NoDup_cons in Hnd as [Hn _]. assert (TmUser n ∉ tms) as Hn' by (intros E; apply Hn, elem_of_app; by left).
    assert (forall tm, tm ∈ tms -> exists m, tm = TmUser m /\ m <> n) as Huser. { intros tm Htm. destruct (soft_rest_user s _ tm Hk El) as [m ->]; [right; apply elem_of_app; by left|]. exists m. split; [done|]. by intros ->. }
    apply (soft_iteration s n call tms rest); [done|done|done|done|exact El|exact Hd|]. intros s2 s3 s4 s5 E2 Hstep E5 Hk5 Hc5 L5 Hrun5 Hk4 Hsame Ek4 El4 Hre.
    assert (forall a, a ∈ tms -> expired s a) as Hexp. { intros a Ha. apply list_elem_of_lookup in Ha as [i Hi]. destruct (Forall2_lookup_l _ _ _ _ _ Hdue' Hi) as (c & _ & m & tia & oba & -> & A & _ & _ & _ & _ & B). exists tia. by rewrite <- timed_out_spec. }
    destruct (soft_rearmed_list s s4 s5 n tms rest) as (rest' & El5 & Hperm & Ek5 & Hoth & Hrest5 & Hord & Hact); try done.
    { by apply Forall_forall. }
    { unfold starts_again, init_tick. rewrite Eo, Et. intros [Hp _]%andb_prop. by apply Hper. }
    { unfold starts_again, init_tick. rewrite Eo, Et. intros [Hp _]%andb_prop a Ha. assert (period s (TmUser n) = tm_init_tick ti) as <- by (unfold period; by rewrite Eo, Et, Hp). apply Hin; [by right|left]. }
    rewrite <- Ek5. eapply wp_mono; [apply (IH calls' rest' fuel s5 (head (tms ++ rest))); [done|done|done|done|done| |done| | |cbn in Hf; lia]|].
    + clear -Hdue' Huser Hoth Ek5. induction Hdue' as [|tm c tms cs Hd Hdues IHd]; constructor; [|apply IHd; intros a Ha; apply Huser; by right]. destruct (Huser tm) as (m & -> & Hm); [left|]. destruct Hd as (m' & ti1 & ob1 & [= <-] & A & B & C). exists m, ti1, ob1. destruct (Hoth m Hm) as [-> ->]. by rewrite Ek5.
    + intros a b Ha Hb. destruct (Huser a Ha) as (ma & -> & Hma), (Huser b Hb) as (mb & -> & Hmb). destruct (app_same_expired s s5 ma Ek5 (Hoth ma Hma)) as (_ & _ & -> & _). destruct (app_same_expired s s5 mb Ek5 (Hoth mb Hmb)) as (_ & _ & _ & ->). apply Hin; by right.
    + destruct tms as [|tm' tms']; [|done]. cbn [app]. intros t Ht. assert (t ∈ rest) as Hin' by (destruct rest; [done|injection Ht as ->; left]). destruct (soft_rest_user s _ t Hk El) as [m ->]; [by right|]. assert (m <> n) as Hm by (intros ->; by apply Hn). destruct (Hoth m Hm) as [_ ->]. rewrite Forall_forall in Hrest. specialize (Hrest _ Hin').
      destruct (ti_listed (proj2 Hk) (TmUser m)) as [[tim Etm] _]; [apply elem_of_app; right; rewrite El; by right|]. exists tim. split; [done|]. rewrite Ek5. destruct (timed_out (k_tick s) tim) eqn:Ex; [|done]. destruct Hrest. exists tim. by rewrite <- timed_out_spec.
    + intros [] s6 (Hk6 & R & [A1 A2 A3 A4 A5 A6]). split; [done|]. split; [destruct call as [f p]; apply (ran_cons step f p _ _ s2 s3); [done|done|]; by apply (ran_first step _ s3 s5)|]. assert (forall tm, tm ∈ tms -> starts_again s5 tm = starts_again s tm /\ init_tick s5 tm = init_tick s tm) as Hst. { intros tm Htm. destruct (Huser tm Htm) as (m & -> & Hm). unfold starts_again, init_tick. by destruct (Hoth m Hm) as [-> ->]. }
      split; [| |done| | |congruence].
      * rewrite A1, Hperm. rewrite (list_filter_iff' (fun tm => starts_again s5 tm = true) (fun tm => starts_again s tm = true) tms) by (intros tm Htm; by rewrite (proj1 (Hst tm Htm))). rewrite filter_cons. destruct (starts_again s (TmUser n)); [rewrite decide_True by done|by rewrite decide_False]. cbn. by rewrite Permutation_middle.
      * intros Ho. apply A2, Hord, Ho.
      * intros tm Htm. apply elem_of_cons in Htm as [->|Htm]; [|destruct (Hst tm Htm) as [<- <-]; by apply A4]. destruct (A5 n Hn') as [B1 B2]. unfold timer_activated, ticks_left in *. rewrite B1, B2, A6. exact Hact.
      * intros m Hm. rewrite not_elem_of_cons in Hm. apply (app_same_trans s s5 s6 m); [apply Hoth; intros ->; tauto|apply A5; tauto].
Qed.
End soft_check.

(** C17: rt_soft_timer_check.  It calls the functions of the soft timers that are due, one-shot and
    periodic, each once and in the order of the list, with the scheduler unlocked; afterwards
    the periodic ones that are active are in the list again, due in their time, and the
    others are inactive and out of it; the timers that were not due stay, no timer of the list is due, and if the
    list was ordered by time it is again.  It returns and keeps the kernel invariant,
    whatever the functions do to the rest of the kernel.  (No timer is overdue by so much
    that a period added to it exceeds RT_TICK_MAX/2, and the functions leave the soft timers
    alone.) *)
Theorem rt_soft_timer_check_correct step user s tms calls rest fuel :
  soft_callback step user -> soft_inv s -> k_soft_timer_list s = tms ++ rest -> Forall2 (due_soft s) tms calls -> Forall (fun tm => ~ expired s tm) rest -> in_time s tms -> (length tms < fuel)%nat ->
  wp (rt_soft_timer_check user fuel) s (fun _ s' => kinv s' /\ ran step calls s s' /\ soft_result s tms rest s').
Proof.
  intros Hu (Hk & Hc & Hl & Hrun) El Hdue Hrest Hin Hf. unfold rt_soft_timer_check, rt_enter_critical. kstep. kstep. kstep. kstep. rewrite Hl. change (i16 (0 + 1)) with 1. set (s1 := set_k_lock_nest 1 s). kstep. kstep.
  change (k_tick s) with (k_tick s1). eapply wp_mono; [apply (soft_check_loop_wp step user Hu tms calls rest fuel s1); [by apply kinv_lock_nest|done|done|done|done|done|done|done| |done]|].
  - change (k_soft_timer_list s1) with (k_soft_timer_list s). rewrite El. destruct tms as [|tm tms]; [|done]. cbn [app head]. intros t Ht. assert (t ∈ rest) as Hin' by (destruct rest; [done|injection Ht as ->; left]). rewrite Forall_forall in Hrest. specialize (Hrest _ Hin').
    destruct (ti_listed (proj2 Hk) t) as [[ti Et] _]; [apply elem_of_app; right; by rewrite El|]. exists ti. split; [done|]. change (k_tick s1) with (k_tick s). destruct (timed_out (k_tick s) ti) eqn:Ex; [|done]. destruct Hrest. exists ti. by rewrite <- timed_out_spec.
  - intros [] s' (H1 & R & [A1 A2 A3 A4 A5 A6]). split_and!; [done|by apply (ran_first step _ s s1)|by split].
Qed.

Lemma unlisted_user s n : kinv s -> kinv (unlisted (TmUser n) s).
Proof.
  intros Hk. destruct (decide (TmUser n ∈ all_timers s)) as [Hin|Hn]; [by apply unlisted_kinv|]. unfold all_timers in Hn. rewrite elem_of_app in Hn.
  unfold unlisted. rewrite !without_notin by tauto. by destruct s.
Qed.

(** A soft timer that is stopped by the function of the timer before it
    fires all the same.  The loop has taken the address of the next timer before
    it calls the function; the timer is out of the list, but the loop goes on
    with it and calls its function, here one that does not return. *)
Theorem stopped_soft_timer_fires user s a b fa pa fb pb tia tib oba obb fuel :
  soft_inv s -> k_soft_timer_list s = [TmUser a; TmUser b] -> k_timers s !! TmUser a = Some tia -> k_timers s !! TmUser b = Some tib ->
  k_objects s !! OTimer (TmUser a) = Some oba -> k_objects s !! OTimer (TmUser b) = Some obb -> flag_test RT_TIMER_FLAG_PERIODIC oba = false ->
  tm_func tia = TFUser fa pa -> tm_func tib = TFUser fb pb -> timed_out (k_tick s) tia = true -> timed_out (k_tick s) tib = true ->
  user fa pa = (rt_timer_stop (TmUser b) ;; ret tt) -> user fb pb = halt -> rt_soft_timer_check user (S (S fuel)) s = Halt.
Proof.
  intros (Hk & Hc & Hl & _) El Ea Eb Eoa Eob Hper Hfa Hfb Hoa Hob Ua Ub. assert (TmUser a ∈ all_timers s /\ TmUser b ∈ all_timers s) as [Hina Hinb] by (unfold all_timers; rewrite !elem_of_app, El; split; right; [left|right; left]).
  assert (a <> b) as Hab. { pose proof (ti_nodup (proj2 Hk)) as Hnd. apply NoDup_app in Hnd as (_ & _ & Hnd). rewrite El in Hnd. apply NoDup_cons in Hnd as [Hnd _]. intros ->. apply Hnd. left. }
  destruct (ti_listed (proj2 Hk) _ Hinb) as (_ & obb' & Eob' & Htb). rewrite Eob in Eob'. injection Eob' as <-.
  unfold rt_soft_timer_check, rt_enter_critical. apply bind_to_halt, wp_gets, bind_to_halt, wp_modify, bind_to_halt, wp_gets. rewrite Hl. change (i16 (0 + 1)) with 1. set (s1 := set_k_lock_nest 1 s). assert (kinv s1) as Hk1 by by apply kinv_lock_nest.
  change (k_soft_timer_list s1) with (k_soft_timer_list s). rewrite El. cbn [head]. cbn [soft_check_loop]. apply bind_to_halt, (wp_get_timer _ tia); [done|]. rewrite Hoa. apply bind_to_halt, wp_gets. change (k_soft_timer_list s1) with (k_soft_timer_list s). rewrite El.
  cbn [next_node]. rewrite decide_True by done. cbn [head]. unfold _rt_timer_remove at 1. apply bind_to_halt, wp_modify. fold (unlisted (TmUser a) s1). set (s2 := unlisted (TmUser a) s1).
  assert (kinv s2) as Hk2 by by apply unlisted_kinv. apply bind_to_halt. eapply wp_mono; [apply exit_critical_kinv; [done|done|change (k_lock_nest s2) with 1; lia]|]. intros [] s3 (Hk3 & F3 & Hc3).
  destruct (enter_exit_frame _ _ F3) as (_ & U3 & _ & Ek3). destruct (sched_frame_objects _ _ F3) as (_ & _ & L3 & _). change (k_lock_nest s3 = 0) in L3.
  destruct (U3 a) as (Oa & Ta & _). destruct (U3 b) as (Ob & Tb & _). rewrite Hfa. cbn [call_timeout]. rewrite Ua. apply bind_to_halt. kstep.
  eapply wp_mono; [apply (rt_timer_stop_user s3 b obb); [done|rewrite Ob; exact Eob|done]|]. intros r s4 (Hk4 & (KF4 & F4 & _ & C4 & _) & T4 & O4 & _). destruct (kframe_nest _ _ KF4) as (_ & L4 & Ek4). kstep.
  apply bind_to_halt, wp_gets, bind_to_halt, wp_modify. rewrite L4, L3. change (i16 (0 + 1)) with 1. set (s5 := set_k_lock_nest 1 s4). assert (kinv s5) as Hk5 by by apply kinv_lock_nest.
  assert (k_objects s5 !! OTimer (TmUser a) = Some oba) as Oa5. { change (k_objects s4 !! OTimer (TmUser a) = Some oba). rewrite O4 by congruence. rewrite Oa. exact Eoa. }
  apply bind_to_halt. unfold timer_rearm. kstep. apply (wp_get_object _ oba); [done|]. rewrite Hper. cbn [andb]. apply (wp_mod_object _ _ oba); [done|]. set (s6 := set_k_objects _ s5). assert (kinv s6) as Hk6 by by apply kinv_user_flag.
  assert (k_timers s6 !! TmUser b = Some tib) as Eb6. { change (k_timers s4 !! TmUser b = Some tib). rewrite T4, Tb. exact Eb. }
  apply bind_to_halt, (wp_get_timer _ tib); [done|]. rewrite Ek4, Ek3. change (k_tick (set_k_lock_nest (k_lock_nest s2 - 1) s2)) with (k_tick s). rewrite Hob. apply bind_to_halt, wp_gets. unfold _rt_timer_remove. apply bind_to_halt, wp_modify. fold (unlisted (TmUser b) s6).
  apply bind_to_halt. eapply wp_mono; [apply exit_critical_kinv; [by apply unlisted_user|change (is_Some (k_current s4)); by rewrite C4|change (k_lock_nest (unlisted (TmUser b) s6)) with 1; lia]|]. intros [] s7 _.
  rewrite Hfb. cbn [call_timeout]. rewrite Ub. done.
Qed.


(** ** Witnesses *)

(** At tick 100: two one-shot soft timers with functions 7 and 8, due at [t0] and
    [t1]; thread 1 runs, thread 2 is the timer thread. *)
Definition sample_soft (t0 t1 : Z) : kst :=
  set_k_timer_thread (Some 2%nat) (set_k_timer_list [TmThread 3] (set_k_soft_timer_list [TmUser 0; TmUser 1]
    (set_k_timers (<[TmUser 0 := mkTimer (TFUser 7 0) 50 t0]> (<[TmUser 1 := mkTimer (TFUser 8 0) 50 t1]> (k_timers sample)))
    (set_k_objects (<[OTimer (TmUser 0) := sample_header RT_Object_Class_Timer 5]> (<[OTimer (TmUser 1) := sample_header RT_Object_Class_Timer 5]> (k_objects sample))) sample)))).
Lemma sample_soft_kinv : kinv (sample_soft 90 95) /\ kinv (sample_soft 150 160) /\ kinv (sample_soft RT_TICK_MAX 160).
Proof. split_and!; apply kinvb_sound; vm_compute; reflexivity. Qed.

Lemma timer_thread_waits_witness :
  wp (next <- timer_entry_next ;; timer_entry_wait next) (sample_soft 150 160) (fun r s' => kinv s' /\ r = Delayed 1 /\ TmThread 1 ∈ k_timer_list s' /\ ticks_left s' (TmThread 1) = 50 /\
    exists th', k_threads s' !! 1%nat = Some th' /\ st th' = RT_THREAD_SUSPEND).
Proof.
  exact (timer_thread_waits (sample_soft 150 160) 1 (sample_thread 10 RT_THREAD_RUNNING) (proj1 (proj2 sample_soft_kinv)) ltac:(split; reflexivity)
    ltac:(intros tm ti [= <-] [= <-]; by split)).
Defined.
Lemma timer_thread_misses_last_tick_witness :
  wp (next <- timer_entry_next ;; timer_entry_wait next) (sample_soft RT_TICK_MAX 160) (fun r s' => r = Suspended 1 /\ parked (sample_soft RT_TICK_MAX 160) s' 1 (sample_thread 10 RT_THREAD_RUNNING) (-1)).
Proof.
  exact (timer_thread_misses_last_tick (sample_soft RT_TICK_MAX 160) 1 _ (TmUser 0) _ [TmUser 1] (proj2 (proj2 sample_soft_kinv)) ltac:(split; reflexivity) eq_refl eq_refl eq_refl).
Defined.
(** The first of the two timers is periodic. *)
Definition sample_soft_periodic : kst := set_k_objects (<[OTimer (TmUser 0) := sample_header RT_Object_Class_Timer 7]> (k_objects (sample_soft 90 95))) (sample_soft 90 95).
Lemma rt_soft_timer_check_correct_witness :
  wp (rt_soft_timer_check (fun _ _ => ret tt) 3) sample_soft_periodic (fun _ s' => kinv s' /\ k_soft_timer_list s' = [TmUser 0] /\ ticks_left s' (TmUser 0) = 50 /\ ran (fun f p s s' => s' = s) [(7, 0); (8, 0)] sample_soft_periodic s').
Proof.
  eapply wp_mono; [apply (rt_soft_timer_check_correct (fun f p s s' => s' = s) (fun _ _ => ret tt) sample_soft_periodic [TmUser 0; TmUser 1] [(7, 0); (8, 0)] [] 3)|].
  - intros f p s H. by apply wp_ret.
  - split_and!; [apply kinvb_sound; by vm_compute|by eexists|done|]. intros t [= <-]. eexists. split; [reflexivity|]. by left.
  - reflexivity.
  - constructor; [eexists 0%nat, _, _|constructor; [eexists 1%nat, _, _|constructor]]; (do 4 (split; [reflexivity|]); split; [by split|by split]).
  - by constructor.
  - intros a b Ha Hb. rewrite !list_elem_of_In in Ha, Hb. destruct Ha as [<-|[<-|[]]], Hb as [<-|[<-|[]]]; by vm_compute.
  - cbn. lia.
  - intros [] s' (Hk & R & S). split_and!; [done| | |done].
    + pose proof (sr_list _ _ _ _ S) as Hl. apply Permutation_singleton_r. rewrite Hl. by vm_compute.
    + destruct (sr_ran _ _ _ _ S (TmUser 0) ltac:(left)) as [_ ->]. done.
Defined.
Lemma stopped_soft_timer_fires_witness :
  rt_soft_timer_check (fun f _ => if f =? 7 then rt_timer_stop (TmUser 1) ;; ret tt else halt) 2 (sample_soft 90 95) = Halt.
Proof.
  apply (stopped_soft_timer_fires (fun f _ => if f =? 7 then rt_timer_stop (TmUser 1) ;; ret tt else halt) (sample_soft 90 95) 0 1 7 0 8 0
    (mkTimer (TFUser 7 0) 50 90) (mkTimer (TFUser 8 0) 50 95) (sample_header RT_Object_Class_Timer 5) (sample_header RT_Object_Class_Timer 5) 0); try reflexivity.
  split_and!; [apply sample_soft_kinv|by eexists|done|]. intros t [= <-]. eexists. split; [reflexivity|]. by left.
Defined.
Lemma timer_start_missed_witness : let s := set_k_soft_timer_list [] (sample_soft 90 95) in
  timer_entry_next s = Ok RT_TICK_MAX s /\
  wp (rt_timer_start (TmUser 0)) s (fun r s1 => r = RT_EOK /\ running_again s1 2 /\ TmUser 0 ∈ k_soft_timer_list s1 /\ ticks_left s1 (TmUser 0) = 50 /\
    forall k th', kinv k -> caller k 2 th' -> k_soft_timer_list k = k_soft_timer_list s1 ->
      wp (timer_entry_wait RT_TICK_MAX) k (fun r s2 => r = Suspended 2 /\ parked k s2 2 th' (-1) /\ TmUser 0 ∈ k_soft_timer_list s2)).
Proof.
  intros s. apply (timer_start_missed s 0 5 (mkTimer (TFUser 7 0) 50 90) 2 (sample_thread 10 RT_THREAD_READY)).
  - apply kinvb_sound. vm_compute. reflexivity.
  - by eexists.
  - reflexivity.
  - split; [eexists; split_and!; reflexivity|reflexivity].
  - done.
  - by rewrite TICK_HALF_val.
  - reflexivity.
  - reflexivity.
  - by left.
Defined.
