(* ===== verification/Startup.v ===== *)
(** * Start-up (src/components.c) and the idle thread's life (src/idle.c)

    From reset to the first thread: the board, the lists of the kernel, the main
    thread, the timer thread, the idle thread, and the switch to the most urgent
    one.  The board's initialisation and the init functions of drivers and
    components are arguments.  rt_show_version only prints and is left out. *)

From S2P Require Import Prelude Ffs KState Kservice Str Printf Wf Inv Sched Object Timer Thread TimerRun Sleep Idle Ipc Beside UserTimer SoftTimer.

(** Where the linker and the heap put what the start-up needs: thread objects,
    entries, stacks, and the address of rt_thread_exit.  The main thread's object
    and stack come from rt_malloc. *)
Record image := mkImage {
  im_main : option nat; im_main_stack : option Z; im_main_entry : Z;
  im_timer : nat; im_timer_stack : Z; im_timer_entry : Z;
  im_idle : nat; im_idle_stack : Z; im_idle_entry : Z;
  im_exit : Z
}.

Definition RT_MAIN_THREAD_STACK_SIZE : Z := 2048.
Definition RT_MAIN_THREAD_PRIORITY : Z := 10.
Definition IDLE_THREAD_STACK_SIZE : Z := 256.
Definition main_name : list Z := [109; 97; 105; 110; 0].
(** What rt_sprintf(tidle_name, "tidle%d", 0) leaves. *)
Definition tidle_name : list Z := [116; 105; 100; 108; 101; 48; 0].

(** The loops over the tables the linker collects. *)
Fixpoint run_inits (fns : list (K Z)) : K unit :=
  match fns with [] => ret tt | fn :: fns => fn ;; run_inits fns end.
Definition rt_components_board_init (fns : list (K Z)) : K unit := run_inits fns.
Definition rt_components_init (fns : list (K Z)) : K unit := run_inits fns.
Definition main_thread_entry (fns : list (K Z)) (main : K Z) : K unit := rt_components_init fns ;; main ;; ret tt.

Definition rt_application_init (im : image) : K unit :=
  tid <- rt_thread_create main_name (im_main_entry im) 0 RT_MAIN_THREAD_STACK_SIZE RT_MAIN_THREAD_PRIORITY 20 (im_exit im) (im_main im) (im_main_stack im) ;;
  RT_ASSERT (bool_decide (is_Some tid)) ;;
  t <- deref (fun _ => tid) ;;
  rt_thread_startup t ;;
  ret tt.

Definition rt_thread_idle_init (im : image) : K unit :=
  rt_thread_init (im_idle im) tidle_name (im_idle_entry im) 0 (im_idle_stack im) IDLE_THREAD_STACK_SIZE (RT_THREAD_PRIORITY_MAX - 1) 32 (im_exit im) ;;
  rt_thread_startup (im_idle im) ;;
  ret tt.

Definition rtthread_startup (board : K unit) (im : image) : K unit :=
  board ;;
  rt_system_timer_init ;;
  rt_system_scheduler_init ;;
  rt_application_init im ;;
  rt_system_timer_thread_init (im_timer im) (im_timer_entry im) (im_timer_stack im) (im_exit im) ;;
  rt_thread_idle_init im ;;
  rt_system_scheduler_start.

(** One round of rt_thread_idle_entry, with idle_hook_list beside the kernel:
    each slot is read when its turn comes. *)
Definition idle_state : Type := beside (list (option Z)).
Fixpoint idle_hooks_loop (hook : Z -> M idle_state unit) (i n : nat) : M idle_state unit :=
  match n with
  | O => ret tt
  | S n =>
      h <- in_x (deref (fun l => l !! i)) ;;
      match h with Some f => hook f | None => ret tt end ;;
      idle_hooks_loop hook (S i) n
  end.
Definition rt_thread_idle_entry (hook : Z -> M idle_state unit) (cleanup : Z -> nat -> M idle_state unit) (free : Z -> M idle_state unit) (fuel : nat) : M idle_state unit :=
  idle_hooks_loop hook 0 RT_IDLE_HOOK_LIST_SIZE ;;
  rt_thread_idle_excute cleanup free fuel.

Lemma tidle_name_printed : format_text (fun _ => None) (116 :: 105 :: 100 :: 108 :: 101 :: [37; 100]) [0] = Some (removelast tidle_name).
Proof. reflexivity. Qed.

(** ** Before the first thread runs *)

(** What the calls that set up thread [t] leave alone while no thread runs. *)
Definition booting (t : nat) (s s' : kst) : Prop := k_current s = None ->
  k_current s' = None /\ k_irq_nest s' = k_irq_nest s /\ k_timer_thread s' = k_timer_thread s /\ (forall u, u <> t -> k_threads s' !! u = k_threads s !! u) /\
  forall cls o, o <> OThread t -> o <> OTimer (TmThread t) -> (registered s' cls o <-> registered s cls o).
#[global] Instance booting_preorder t : PreOrder (booting t).
Proof.
  split; [by intros s H|]. intros s1 s2 s3 H1 H2 H. destruct (H1 H) as (A1 & A2 & A3 & A4 & A5). destruct (H2 A1) as (B1 & B2 & B3 & B4 & B5).
  split_and!; [done|congruence|congruence| |]; intros; [rewrite B4 by done; by apply A4|rewrite B5 by done; by apply A5].
Qed.

Lemma not_booting t s s' : is_Some (k_current s) -> booting t s s'.
Proof. intros [c Hc] H. congruence. Qed.
Lemma exit_critical_booting t : keeps (booting t) rt_exit_critical.
Proof.
  intros s. destruct (decide (is_Some (k_current s))) as [Hs|Hs]; [destruct (rt_exit_critical s); by auto using not_booting|].
  apply eq_None_not_Some in Hs. unfold rt_exit_critical, bind, gets, modify, when, ret. cbn. destruct (_ <=? 0); cbn; rewrite ?Hs; by intros H.
Qed.
Lemma container_booting t cls o : o = OThread t \/ o = OTimer (TmThread t) -> keeps (booting t) (container_insert cls o).
Proof.
  intros Ho. unfold container_insert. keeps_step. intros H. kproj. split_and!; try done. intros cls' o' H1 H2. unfold registered, object_list. kproj. rewrite lookup_insert. case_decide; subst; [|done].
  cbn. rewrite elem_of_cons. naive_solver.
Qed.
Lemma object_init_booting t o cls name : o = OThread t \/ o = OTimer (TmThread t) -> keeps (booting t) (rt_object_init o cls name).
Proof.
  intros Ho. unfold rt_object_init, rt_enter_critical. repeat keeps_step; first [apply exit_critical_booting|by apply container_booting|by intros ?].
Qed.
Lemma thread_init_booting t entry par start size prio tick ex : keeps (booting t) (_rt_thread_init t entry par start size prio tick ex).
Proof.
  unfold _rt_thread_init, rt_timer_init, _rt_timer_init, mod_object, get_object. cbv zeta. repeat keeps_step; try (apply object_init_booting; by right); intros H; split_and!; try done.
  intros u Hu. kproj. by rewrite lookup_insert_ne.
Qed.
Lemma rt_thread_init_booting t name entry par start size prio tick ex : keeps (booting t) (rt_thread_init t name entry par start size prio tick ex).
Proof. unfold rt_thread_init. repeat keeps_step; [apply object_init_booting; by left|apply thread_init_booting]. Qed.
Lemma rt_thread_create_booting t start name entry par size prio tick ex : keeps (booting t) (rt_thread_create name entry par size prio tick ex (Some t) (Some start)).
Proof.
  unfold rt_thread_create, rt_object_allocate, RT_DEBUG_NOT_IN_INTERRUPT. cbn [fmap option_fmap option_map]. repeat keeps_step; try (apply container_booting; by left); try (by intros ?).
  apply thread_init_booting.
Qed.
Lemma mod_thread_booting t f : keeps (booting t) (mod_thread t f).
Proof. unfold mod_thread, get_thread. repeat keeps_step. intros H. split_and!; try done. intros u Hu. kproj. by rewrite lookup_insert_ne. Qed.
Lemma rt_thread_startup_booting t : keeps (booting t) (rt_thread_startup t).
Proof.
  assert (keeps (booting t) (self <- rt_thread_self ;; when (bool_decide (is_Some self)) rt_schedule ;; ret RT_EOK)) as Hs.
  { intros s. unfold rt_thread_self, bind, gets, when, ret. destruct (k_current s) eqn:E; cbn -[rt_schedule]; [|by intros ?]. destruct (rt_schedule s); try done. apply not_booting. by rewrite E. }
  unfold rt_thread_startup, rt_thread_resume, assert_type, rt_object_get_type, q_remove, rt_timer_stop, rt_schedule_insert_thread, mod_object, get_object, get_thread, _rt_timer_remove, q_append.
  repeat (first [exact Hs|apply mod_thread_booting|keeps_step]); try (by intros ?).
  all: unfold assert_type, rt_object_get_type, get_object. all: repeat keeps_step.
Qed.

(** A thread that is ready to run for the first time. *)
Definition fresh_ready (s : kst) (t : nat) (entry prio : Z) : Prop :=
  exists th, k_threads s !! t = Some th /\ st th = RT_THREAD_READY /\ th_current_priority th = prio /\ th_entry th = entry.
Record launched (s s' : kst) (t : nat) (entry prio : Z) : Prop := {
  la_inv : kinv s';
  la_lock : k_lock_nest s' = k_lock_nest s;
  la_booting : booting t s s';
  la_ready : fresh_ready s' t entry prio
}.

Lemma launch_wp s0 s t raw entry par start size prio tick ex th :
  kinv s -> k_current s = None -> k_lock_nest s = k_lock_nest s0 -> booting t s0 s -> 0 <= prio < RT_THREAD_PRIORITY_MAX ->
  k_threads s !! t = Some th -> thread_step (new_thread raw entry par start size prio tick ex) th ->
  wp (rt_thread_startup t) s (fun _ s' => launched s0 s' t entry prio).
Proof.
  intros Hk Hc El B Hp Ht [Hs Hst]. assert (st th = RT_THREAD_INIT) as Hi by (destruct Hst as [->|[[Hx|Hx] _]]; done).
  assert (th_init_priority th = prio /\ th_entry th = entry) as [Ep Ee] by (injection Hs; by intros).
  eapply wp_mono; [apply (wp_keeps (booting t)); [apply (rt_thread_startup_wp s t th Hk Ht Hi); by rewrite Ep|apply rt_thread_startup_booting]|].
  intros r s2 [(_ & Hk2 & s1 & M & F) B2]. destruct (sched_frame_objects _ _ F) as (_ & _ & L2 & _). destruct (kframe_nest _ _ (mv_frame _ _ _ _ _ M)) as (_ & L1 & _).
  split; [done|congruence|by transitivity s|]. destruct (sched_frame_lookup s1 s2 t (with_st RT_THREAD_READY (started th)) F) as (th' & Et & [Hx Hy]); [rewrite (mv_threads _ _ _ _ _ M); apply lookup_insert_eq|].
  assert (th_current_priority th' = prio /\ th_entry th' = entry) as [Ep' Ee'] by (split; [change (th_current_priority (set_th_stat 0 th') = prio)|change (th_entry (set_th_stat 0 th') = entry)]; by rewrite Hx).
  exists th'. split; [done|]. split; [|done].
  destruct (decide (st th' = RT_THREAD_READY)) as [?|Hne]; [done|]. exfalso.
  assert (runnable th') as [Hr|Hr]; [|done|].
  { destruct Hy as [Hy|[_ Hy]]; [left; rewrite Hy; by apply st_with_st|done]. }
  assert (k_current s2 = Some t) as E by (apply (wf_thread (proj1 Hk2) t th' Et); [set_solver|done]).
  destruct (B2 Hc) as (E2 & _). congruence.
Qed.

(** The three threads are new. *)
Definition unused (s : kst) (t : nat) : Prop :=
  k_threads s !! t = None /\ ~ registered s RT_Object_Class_Thread (OThread t) /\ ~ registered s RT_Object_Class_Timer (OTimer (TmThread t)).
Lemma unused_kept s s' t u : booting t s s' -> k_current s = None -> u <> t -> unused s u -> unused s' u.
Proof.
  intros B Hc Hne (H1 & H2 & H3). destruct (B Hc) as (_ & _ & _ & B1 & B2). split_and!; [by rewrite B1|rewrite B2; congruence|rewrite B2; congruence].
Qed.
Lemma fresh_ready_kept s s' t u entry prio : booting t s s' -> k_current s = None -> u <> t -> fresh_ready s u entry prio -> fresh_ready s' u entry prio.
Proof. intros B Hc Hne (th & E & H). destruct (B Hc) as (_ & _ & _ & B1 & _). exists th. by rewrite B1. Qed.

Lemma static_thread_wp s t l entry start size prio tick ex :
  kinv s -> k_current s = None -> 0 <= k_lock_nest s < 2 ^ 15 - 1 -> unused s t -> chars_ok l -> start <> 0 -> stack_fits start size -> 0 <= prio < RT_THREAD_PRIORITY_MAX ->
  wp (rt_thread_init t (cstring l) entry 0 start size prio tick ex) s (fun _ s1 => kinv s1 /\ k_current s1 = None /\ booting t s s1 /\
    forall s2, s2 = s1 \/ s2 = set_k_timer_thread (Some t) s1 -> wp (rt_thread_startup t) s2 (fun _ s' => launched s2 s' t entry prio /\ k_lock_nest s' = k_lock_nest s)).
Proof.
  intros Hk Hc Hl (U1 & U2 & U3) Hch Hnz Hfit Hp. eapply wp_mono; [apply (wp_keeps (booting t)); [by apply (rt_thread_init_wp s t l entry 0 start size prio tick ex)|apply rt_thread_init_booting]|].
  intros r s1 [(_ & Hk1 & L1 & _ & th & Et & Hs) B1]. destruct (B1 Hc) as (C1 & _). split_and!; [done|done|done|].
  intros s2 Hs2. assert (kinv s2 /\ k_current s2 = None /\ k_lock_nest s2 = k_lock_nest s /\ k_threads s2 = k_threads s1) as (Hk2 & C2 & L2 & T2).
  { destruct Hs2 as [->| ->]; [done|]. split_and!; try done. destruct Hk1 as [W T]. split; [by apply (wfx_same _ s1)|]. apply (tinv_same s1); eauto. }
  rewrite <- L2. eapply wp_mono; [by apply (launch_wp s2 s2 t (raw_thread s t) entry 0 start size prio tick ex th); [..|rewrite T2|]|]. intros r' s' L. split; [done|apply L].
Qed.

(** ** The lists of the kernel *)

(** What the board's initialisation may leave: devices, semaphores and the like
    are registered, but there are no threads, nothing waits, and no interrupt is
    active.  [m] is the object the heap will give to the main thread. *)
Record boot_ok (im : image) (m : nat) (s : kst) : Prop := {
  bo_current : k_current s = None;
  bo_irq : k_irq_nest s = 0;
  bo_threads : k_threads s = ∅;
  bo_soft : k_soft_timer_list s = [];
  bo_queues : forall q, wait_list q -> qget s q = [];
  bo_ready : forall p, ~ 0 <= p < RT_THREAD_PRIORITY_MAX -> qget s (QReady p) = [];
  bo_fresh : forall t, t ∈ [m; im_timer im; im_idle im] -> ~ registered s RT_Object_Class_Thread (OThread t) /\ ~ registered s RT_Object_Class_Timer (OTimer (TmThread t))
}.
Record image_ok (im : image) (m : nat) : Prop := {
  io_main : im_main im = Some m;
  io_main_stack : exists a, im_main_stack im = Some a /\ stack_fits a RT_MAIN_THREAD_STACK_SIZE;
  io_timer_stack : im_timer_stack im <> 0 /\ stack_fits (im_timer_stack im) RT_TIMER_THREAD_STACK_SIZE;
  io_idle_stack : im_idle_stack im <> 0 /\ stack_fits (im_idle_stack im) IDLE_THREAD_STACK_SIZE;
  io_distinct : NoDup [m; im_timer im; im_idle im]
}.

Lemma init_priority_table_wp n : forall s, wp (init_priority_table n) s (fun _ s' => (exists qs, s' = set_k_queues qs s) /\
  (forall p, 0 <= p < Z.of_nat n -> qget s' (QReady p) = []) /\ forall q, qget s q = [] -> qget s' q = []).
Proof.
  induction n as [|n IH]; intros s; cbn [init_priority_table]; [kstep; split; [exists (k_queues s); by destruct s|split; [lia|done]]|].
  kstep. eapply wp_mono; [apply IH|]. intros [] s1 ([qs ->] & H1 & H2). unfold q_init. kstep. split; [by eexists|]. unfold qget in *. kproj. split.
  - intros p Hp. rewrite lookup_insert. case_decide as E; [done|]. apply H1. assert (p <> Z.of_nat n) by congruence. lia.
  - intros q Hq. rewrite lookup_insert. case_decide; [done|]. by apply H2.
Qed.

Lemma kinv_empty s : k_threads s = ∅ -> k_current s = None -> (forall q, qget s q = []) -> k_ready_group s = 0 -> all_timers s = [] -> kinv s.
Proof.
  intros Et Ec Eq Eg Ea. split; split; rewrite ?Et, ?Ec, ?Eg, ?Ea; try (intros t th E; by rewrite ?Et, lookup_empty in E); try done.
  - intros q. rewrite Eq. constructor.
  - intros q1 q2 t Hin. rewrite Eq in Hin. by apply elem_of_nil in Hin.
  - intros q t Hin. rewrite Eq in Hin. by apply elem_of_nil in Hin.
  - intros p Hp. by rewrite Z.bits_0, Eq.
  - constructor.
  - intros tm Hin. by apply elem_of_nil in Hin.
  - intros t Hin. by apply elem_of_nil in Hin.
Qed.

Lemma init_lists_wp im m s : boot_ok im m s -> wp (rt_system_timer_init ;; rt_system_scheduler_init) s (fun _ s' =>
  kinv s' /\ k_lock_nest s' = 0 /\ k_irq_nest s' = 0 /\ k_current s' = None /\ k_threads s' = ∅ /\ forall t, t ∈ [m; im_timer im; im_idle im] -> unused s' t).
Proof.
  intros [C I T S Q R U]. unfold rt_system_timer_init, rt_system_scheduler_init. kstep. kstep. kstep. kstep. kstep. eapply wp_mono; [apply init_priority_table_wp|].
  intros [] s1 ([qs ->] & H1 & H2). unfold q_init. kstep. kstep. kstep. set (s2 := set_k_queues _ _). assert (forall q, qget s2 q = []) as Eq.
  { intros q. unfold s2, qget in *. kproj. rewrite lookup_insert. case_decide as E; [done|]. destruct q; try (apply H2, Q; done).
    destruct (decide (0 <= p < RT_THREAD_PRIORITY_MAX)) as [Hp|Hp]; [by apply H1|by apply H2, R]. }
  split; [apply kinv_empty; try done; unfold all_timers, s2; kproj; by rewrite S|]. split_and!; try done. intros t Ht. destruct (U t Ht) as [U1 U2]. split; [unfold s2; kproj; by rewrite T|done].
Qed.

(** ** The first thread *)

Lemma scheduler_start_wp s t p th :
  kinv s -> k_current s = None -> highest_ready s t p -> k_threads s !! t = Some th ->
  wp rt_system_scheduler_start s (fun _ s' => kinv s' /\ k_current s' = Some t /\ k_threads s' = <[t := set_th_stat RT_THREAD_RUNNING th]> (k_threads s) /\ misc s' = misc s).
Proof.
  intros Hk Hc Hh Ht. pose proof Hk as [W T]. pose proof Hh as (Hp & Hhd & _). assert (t ∈ qget s (QReady p)) as Hin by (destruct (qget s (QReady p)); simplify_eq; set_solver).
  destruct (wf_place W _ _ Hin) as (x & E & (Hst & Hpr & Hm)). simplify_eq. assert (k_ready_group s <> 0) as Hg. { apply (group_nonzero ∅ s W). exists (th_current_priority th). split; [done|]. intros Hq. rewrite Hq in Hin. by apply elem_of_nil in Hin. }
  unfold rt_system_scheduler_start, set_current. kstep. eapply wp_mono; [by apply (get_highest_wp ∅)|]. intros [t' p'] s1 [-> Hh']. cbn [fst snd] in Hh'. destruct (highest_ready_unique s _ _ _ _ Hh Hh') as [<- _].
  kstep. kstep. kstep. set (s1 := set_k_current (Some t) s). assert (wfx {[t]} s1) as W1.
  { apply (wfx_set_current _ _ _ th); [by apply (wfx_weaken ∅)|done|set_solver|]. intros c cth Hc'. congruence. }
  eapply wp_mono; [apply (rt_schedule_remove_thread_wp {[t]} s1 t th W1 Ht); left; set_solver|]. intros [] s2 (W2 & g & ->). apply (wp_mod_thread _ _ th); [exact Ht|]. fold (upd_thread t (set_th_stat RT_THREAD_RUNNING th) (set_k_ready_group g (unlink t s1))).
  set (th' := set_th_stat RT_THREAD_RUNNING th). set (s2 := upd_thread t th' (set_k_ready_group g (unlink t s1))). assert (k_threads s2 !! t = Some th') as Ht2 by (unfold s2; kproj; apply lookup_insert_eq).
  split; [split|split; [done|split; done]].
  - apply (wfx_release _ _ t th'); [|done| |by left].
    + rewrite (right_id_L ∅ (∪)). apply (wfx_upd_exempt _ _ _ th); [done|done|set_solver| |exact (wf_prio W _ _ Ht)|exact (wf_stack W _ _ Ht)]. intros q. qsimp. rewrite elem_of_without. tauto.
    + split; [intros _ _; exact Hm|]. done.
  - refine (tinv_same s s2 eq_refl eq_refl eq_refl eq_refl _ _ T); intros u uth; unfold s2; kproj; rewrite lookup_insert; case_decide; subst; intros; simplify_eq; eauto.
    + exists th. by rewrite Hst.
    + by match goal with H : st _ = RT_THREAD_SUSPEND |- _ => rewrite Hst in H end.
Qed.

Lemma kinv_soft_init s : kinv s -> kinv (set_k_soft_timer_list [] s).
Proof.
  intros [W [T1 T2 T3 T4]]. assert (forall tm, tm ∈ all_timers (set_k_soft_timer_list [] s) -> tm ∈ all_timers s) as Hin.
  { intros tm. unfold all_timers. kproj. rewrite app_nil_r, elem_of_app. by left. }
  split; [by apply (wfx_same _ s)|]. split; [done| | |].
  - unfold all_timers in *. kproj. rewrite app_nil_r. by apply NoDup_app in T2 as (? & _).
  - intros tm Htm. by apply T3, Hin.
  - intros t Htm. by apply T4, Hin.
Qed.

(** With exactly these threads, the ready queues are known. *)
Lemma singleton_list {A} (l : list A) x : NoDup l -> x ∈ l -> (forall y, y ∈ l -> y = x) -> l = [x].
Proof.
  intros Hn Hx H. destruct l as [|a l]; [by apply elem_of_nil in Hx|]. rewrite (H a ltac:(left)). f_equal. destruct l as [|b l]; [done|]. exfalso. apply NoDup_cons in Hn as [Hn _].
  rewrite (H a ltac:(left)), (H b ltac:(right; left)) in Hn. apply Hn. left.
Qed.
Lemma empty_list {A} (l : list A) : (forall y, y ∈ l -> False) -> l = [].
Proof. destruct l as [|a l]; [done|]. intros H. destruct (H a). left. Qed.
Lemma queue_single s q t : kinv s -> t ∈ qget s q -> (forall u th, k_threads s !! u = Some th -> place_ok q th -> u = t) -> qget s q = [t].
Proof. intros [W _] Hin H. apply singleton_list; [apply (wf_nodup W)|done|]. intros u Hu. destruct (wf_place W q u Hu) as (th & E & Hp). by apply (H u th). Qed.
Lemma queue_none s q : kinv s -> (forall u th, k_threads s !! u = Some th -> ~ place_ok q th) -> qget s q = [].
Proof. intros [W _] H. apply empty_list. intros u Hu. destruct (wf_place W q u Hu) as (th & E & Hp). by apply (H u th). Qed.
Lemma fresh_ready_queued s t entry p : kinv s -> fresh_ready s t entry p -> t ∈ qget s (QReady p).
Proof. intros [W _] (th & E & Hr & <- & _). apply (wf_thread W t th E); [set_solver|done]. Qed.

(** The system as the start-up leaves it. *)
Record system_up (im : image) (m : nat) (s : kst) : Prop := {
  su_inv : kinv s;
  su_current : k_current s = Some (im_timer im);
  su_unlocked : k_lock_nest s = 0;
  su_timer_thread : k_timer_thread s = Some (im_timer im);
  su_timer : exists th, k_threads s !! im_timer im = Some th /\ st th = RT_THREAD_RUNNING /\ th_current_priority th = RT_TIMER_THREAD_PRIO /\ th_entry th = im_timer_entry im;
  su_main : fresh_ready s m (im_main_entry im) RT_MAIN_THREAD_PRIORITY;
  su_idle : fresh_ready s (im_idle im) (im_idle_entry im) (RT_THREAD_PRIORITY_MAX - 1);
  su_others : forall u, u ∉ [m; im_timer im; im_idle im] -> k_threads s !! u = None;
  su_queues : forall q, qget s q = if decide (q = QReady RT_MAIN_THREAD_PRIORITY) then [m] else if decide (q = QReady (RT_THREAD_PRIORITY_MAX - 1)) then [im_idle im] else []
}.

(** All threads are set up and none runs yet. *)
Record all_ready (im : image) (m : nat) (s : kst) : Prop := {
  ar_inv : kinv s;
  ar_current : k_current s = None;
  ar_unlocked : k_lock_nest s = 0;
  ar_timer_thread : k_timer_thread s = Some (im_timer im);
  ar_timer : fresh_ready s (im_timer im) (im_timer_entry im) RT_TIMER_THREAD_PRIO;
  ar_main : fresh_ready s m (im_main_entry im) RT_MAIN_THREAD_PRIORITY;
  ar_idle : fresh_ready s (im_idle im) (im_idle_entry im) (RT_THREAD_PRIORITY_MAX - 1);
  ar_others : forall u, u ∉ [m; im_timer im; im_idle im] -> k_threads s !! u = None
}.

Lemma all_ready_cases im m s u th : all_ready im m s -> k_threads s !! u = Some th -> st th = RT_THREAD_READY /\
  (u = im_timer im /\ th_current_priority th = RT_TIMER_THREAD_PRIO \/ u = m /\ th_current_priority th = RT_MAIN_THREAD_PRIORITY \/ u = im_idle im /\ th_current_priority th = RT_THREAD_PRIORITY_MAX - 1).
Proof.
  intros [_ _ _ _ (t1 & E1 & R1 & P1 & _) (t2 & E2 & R2 & P2 & _) (t3 & E3 & R3 & P3 & _) O] E. destruct (decide (u ∈ [m; im_timer im; im_idle im])) as [Hin|Hn]; [|by rewrite O in E].
  rewrite !elem_of_cons, elem_of_nil in Hin. destruct Hin as [->|[->|[->|[]]]]; simplify_eq; naive_solver.
Qed.

Lemma start_first_wp im m s : NoDup [m; im_timer im; im_idle im] -> all_ready im m s -> wp rt_system_scheduler_start s (fun _ s' => system_up im m s').
Proof.
  intros Hd A. pose proof A as [Hk Hc Hl Htt (th & Et & Hr & Hp & He) Hm Hi Ho]. assert (im_timer im <> m /\ im_timer im <> im_idle im /\ m <> im_idle im) as (D1 & D2 & D3).
  { rewrite !NoDup_cons, !not_elem_of_cons in Hd. naive_solver. }
  assert (highest_ready s (im_timer im) RT_TIMER_THREAD_PRIO) as Hh.
  { split; [done|]. split.
    - rewrite (queue_single s (QReady RT_TIMER_THREAD_PRIO) (im_timer im)); [done|done|by apply (fresh_ready_queued s _ (im_timer_entry im)); [|exists th]|]. intros u uth Eu (_ & Hpu & _). destruct (all_ready_cases im m s u uth A Eu) as (_ & [[-> _]|[[_ Q]|[_ Q]]]); [done|by rewrite Q in Hpu..].
    - intros p Hp'. apply queue_none; [done|]. intros u uth Eu (_ & Hpu & _). destruct (all_ready_cases im m s u uth A Eu) as (_ & [[_ Q]|[[_ Q]|[_ Q]]]); rewrite Q in Hpu; subst p; vm_compute in Hp'; naive_solver. }
  eapply wp_mono; [by apply (scheduler_start_wp s (im_timer im) RT_TIMER_THREAD_PRIO th)|]. intros [] s' (Hk' & Hc' & Ht' & Hmisc). unfold misc in Hmisc. injection Hmisc as M1 M2 M3 M4 M5 M6 M7 M8 M9 M10.
  assert (forall u, u <> im_timer im -> k_threads s' !! u = k_threads s !! u) as Hoth by (intros u Hu; by rewrite Ht', lookup_insert_ne).
  assert (k_threads s' !! im_timer im = Some (set_th_stat RT_THREAD_RUNNING th)) as Htm by (rewrite Ht'; apply lookup_insert_eq).
  assert (fresh_ready s' m (im_main_entry im) RT_MAIN_THREAD_PRIORITY) as Hm' by (destruct Hm as (x & ? & ?); exists x; by rewrite Hoth).
  assert (fresh_ready s' (im_idle im) (im_idle_entry im) (RT_THREAD_PRIORITY_MAX - 1)) as Hi' by (destruct Hi as (x & ? & ?); exists x; by rewrite Hoth).
  assert (forall u uth, k_threads s' !! u = Some uth -> u = im_timer im /\ st uth = RT_THREAD_RUNNING \/ st uth = RT_THREAD_READY /\ (u = m /\ th_current_priority uth = RT_MAIN_THREAD_PRIORITY \/ u = im_idle im /\ th_current_priority uth = RT_THREAD_PRIORITY_MAX - 1)) as Hall.
  { intros u uth Eu. destruct (decide (u = im_timer im)) as [->|Hne]; [left; split; [done|]; rewrite Htm in Eu; by injection Eu as <-|]. rewrite Hoth in Eu by done. destruct (all_ready_cases im m s u uth A Eu) as (? & [[-> _]|[?|?]]); [done|by right; auto..]. }
  split; try done; [congruence|congruence|eexists; split_and!; [done..|] |intros u Hu; rewrite Hoth; [by apply Ho|]|].
  - exact He.
  - intros ->. apply Hu. right. left.
  - intros q. case_decide as Eq1; [subst q; apply (queue_single s'); [done|by eapply fresh_ready_queued|]|case_decide as Eq2; [subst q; apply (queue_single s'); [done|by eapply fresh_ready_queued|]|apply queue_none; [done|]]].
    + intros u uth Eu (Hs & Hpu & _). destruct (Hall u uth Eu) as [[_ Q]|[_ [[-> _]|[_ Q]]]]; [by rewrite Q in Hs|done|by rewrite Q in Hpu].
    + intros u uth Eu (Hs & Hpu & _). destruct (Hall u uth Eu) as [[_ Q]|[_ [[_ Q]|[-> _]]]]; [by rewrite Q in Hs|by rewrite Q in Hpu|done].
    + intros u uth Eu Hpl. destruct (Hall u uth Eu) as [[_ Q]|[Q [[_ Q']|[_ Q']]]]; destruct q; cbn in Hpl; rewrite ?Q, ?Q' in Hpl; try done; destruct Hpl as (? & <- & _); done.
Qed.

Lemma rt_application_init_wp im m s :
  image_ok im m -> kinv s -> k_current s = None -> 0 <= k_lock_nest s < 2 ^ 15 - 1 -> k_irq_nest s = 0 -> unused s m ->
  wp (rt_application_init im) s (fun _ s' => launched s s' m (im_main_entry im) RT_MAIN_THREAD_PRIORITY).
Proof.
  intros [Em (a & Ea & Hfit) _ _ _] Hk Hc Hl Hi (U1 & _ & U3). unfold rt_application_init. rewrite Em, Ea. change main_name with (cstring [109; 97; 105; 110]). kstep.
  eapply wp_mono; [apply (wp_keeps (booting m)); [apply (rt_thread_create_wp s m [109; 97; 105; 110]); try done; by repeat constructor|apply rt_thread_create_booting]|].
  intros r s1 [(-> & Hk1 & L1 & _ & th & Et & Hs) B1]. kstep. apply wp_assert; [done|]. kstep. apply (wp_deref _ m); [done|]. kstep. destruct (B1 Hc) as (C1 & _).
  eapply wp_mono; [by apply (launch_wp s s1 m (raw_thread s m) (im_main_entry im) 0 a RT_MAIN_THREAD_STACK_SIZE RT_MAIN_THREAD_PRIORITY 20 (im_exit im) th)|]. intros r s2 L. by kstep.
Qed.

(** C6: Start-up.  Whatever the board's initialisation does, as long as it leaves
    no threads and no waiting, rtthread_startup gets through: it satisfies every
    assertion and establishes the kernel invariant.  The timer thread, which is
    the most urgent, runs; the main thread and the idle thread are ready, each
    alone in the queue of its priority, at their entries; there are no other
    threads, every other list is empty and the scheduler is unlocked. *)
Theorem rtthread_startup_correct board im m s :
  image_ok im m -> wp board s (fun _ s' => boot_ok im m s') -> wp (rtthread_startup board im) s (fun _ s' => system_up im m s').
Proof.
  intros Hio Hb. pose proof Hio as [_ _ [Tz Tf] [Iz If] Hd]. assert (m <> im_timer im /\ m <> im_idle im /\ im_timer im <> im_idle im) as (D1 & D2 & D3) by (rewrite !NoDup_cons, !not_elem_of_cons in Hd; naive_solver).
  unfold rtthread_startup. kstep. eapply wp_mono; [exact Hb|]. intros [] s0 B. apply wp_assoc. kstep. eapply wp_mono; [by apply (init_lists_wp im m)|].
  intros [] s1 (Hk1 & L1 & I1 & C1 & T1 & U1). kstep. eapply wp_mono; [apply (rt_application_init_wp im m s1); try done; [by rewrite L1|apply U1; left]|]. intros [] s2 [Hk2 L2 B2 R2]. destruct (B2 C1) as (C2 & _ & _ & O2 & _).
  unfold rt_system_timer_thread_init. kstep. kstep. kstep. kstep. set (s2' := set_k_soft_timer_list [] s2). assert (unused s2' (im_timer im) /\ unused s2' (im_idle im)) as [U2 U2'].
  { split; (apply (unused_kept s1 s2 m); [done|done|done|apply U1; set_solver]). }
  change timer_name with (cstring [116; 105; 109; 101; 114]). eapply wp_mono; [apply (static_thread_wp s2' (im_timer im)); try done; [by apply kinv_soft_init|change (k_lock_nest s2') with (k_lock_nest s2); by rewrite L2, L1|by repeat constructor]|].
  intros r s3 (Hk3 & C3 & B3 & H3). destruct (B3 C2) as (_ & _ & _ & O3 & _). kstep. kstep. kstep. set (s3' := set_k_timer_thread (Some (im_timer im)) s3). eapply wp_mono; [apply (H3 s3'); by right|]. intros r' s4 [[Hk4 _ B4 R4] L4].
  destruct (B4 C3) as (C4 & _ & Tt4 & O4 & _). unfold rt_thread_idle_init. kstep. kstep. kstep. assert (unused s4 (im_idle im)) as U4.
  { apply (unused_kept s3' s4 (im_timer im)); [done|done|done|]. apply (unused_kept s2' s3 (im_timer im)); [done|exact C2|done|done]. }
  assert (fresh_ready s4 m (im_main_entry im) RT_MAIN_THREAD_PRIORITY) as M4.
  { apply (fresh_ready_kept s3' s4 (im_timer im)); [done|done|done|]. by apply (fresh_ready_kept s2' s3 (im_timer im)). }
  change tidle_name with (cstring [116; 105; 100; 108; 101; 48]). eapply wp_mono; [apply (static_thread_wp s4 (im_idle im)); try done; [rewrite L4; change (k_lock_nest s2') with (k_lock_nest s2); by rewrite L2, L1|by repeat constructor]|].
  intros r2 s5 (Hk5 & C5 & B5 & H5). destruct (B5 C4) as (_ & _ & Tt5 & O5 & _). kstep. eapply wp_mono; [apply (H5 s5); by left|]. intros r2' s6 [[Hk6 _ B6 R6] L6]. destruct (B6 C5) as (C6 & _ & Tt6 & O6 & _).
  kstep. apply (start_first_wp im m); [done|]. split; try done.
  - rewrite L6, L4. change (k_lock_nest s2') with (k_lock_nest s2). congruence.
  - rewrite Tt6, Tt5, Tt4. done.
  - apply (fresh_ready_kept s5 s6 (im_idle im)); [done..|]. by apply (fresh_ready_kept s4 s5 (im_idle im)).
  - apply (fresh_ready_kept s5 s6 (im_idle im)); [done..|]. by apply (fresh_ready_kept s4 s5 (im_idle im)).
  - intros u Hu. rewrite !not_elem_of_cons in Hu. destruct Hu as (Hu1 & Hu2 & Hu3 & _). rewrite O6, O5, O4 by done. change (k_threads s3') with (k_threads s3). rewrite O3 by done. change (k_threads s2') with (k_threads s2). rewrite O2 by done. by rewrite T1.
Qed.

(** Without memory for the main thread the start-up stops in the assertion. *)
Theorem rt_application_init_no_memory im s :
  k_irq_nest s = 0 -> im_main im = None -> rt_application_init im s = Halt.
Proof.
  intros Hi Em. unfold rt_application_init. apply bind_to_halt. unfold rt_thread_create, rt_object_allocate, RT_DEBUG_NOT_IN_INTERRUPT. rewrite Em. kstep. kstep. kstep. kstep. apply wp_assert; [by rewrite Hi|].
  kstep. apply wp_assert; [by apply bool_decide_eq_true, thread_info|]. cbn [fmap option_fmap option_map]. kstep. by kstep.
Qed.

(** ** The main thread *)

(** The main thread, made on the heap, runs in thread context. *)
Definition in_main (m : nat) (s : kst) : Prop := kinv s /\ (exists th, caller s m th) /\ exists ob, k_objects s !! OThread m = Some ob /\ Z.land (o_type ob) RT_Object_Class_Static = 0.

Lemma run_inits_wp I fns s : Forall (fun fn : K Z => forall s, I s -> wp fn s (fun _ s' => I s')) fns -> I s -> wp (run_inits fns) s (fun _ s' => I s').
Proof.
  intros H. revert s. induction H as [|fn fns Hf _ IH]; intros s Hs; cbn [run_inits]; [by kstep|]. kstep. eapply wp_mono; [by apply Hf|]. intros r s' Hs'. by apply IH.
Qed.

(** The main thread.  It runs the init functions of the components and then
    main; when main returns the thread is closed and waits in the defunct list for
    the idle thread to free it, whatever the init functions and main have done, as
    long as each returns in the main thread with the kernel in order. *)
Theorem main_thread_returns m fns main s :
  Forall (fun fn => forall s, in_main m s -> wp fn s (fun _ s' => in_main m s')) (fns ++ [main]) -> in_main m s ->
  wp (main_thread_entry fns main ;; rt_thread_exit) s (fun _ s' => kinv s' /\ is_Some (k_current s') /\ m ∈ qget s' QDefunct /\ exists th, k_threads s' !! m = Some th /\ st th = RT_THREAD_CLOSE).
Proof.
  intros [Hf [Hm _]%Forall_cons]%Forall_app Hs. unfold main_thread_entry, rt_components_init. kstep. kstep. eapply wp_mono; [by apply (run_inits_wp (in_main m))|]. intros [] s1 H1. kstep. eapply wp_mono; [by apply Hm|].
  intros r s2 (Hk & (th & Hca) & ob & Eo & Hst). kstep. pose proof (ca_running _ _ _ Hca) as Hr. eapply wp_mono; [apply (rt_thread_exit_wp s2 m th); [done|apply Hca|apply Hca|by rewrite Hr]|].
  intros [] s3 (ob' & s2' & Eo' & [C1 C2 C3 _ _ _] & F & Hk3 & Hc3). simplify_eq. split; [done|]. split; [done|]. assert (goes_defunct ob th = true) as Hd by (unfold goes_defunct; by rewrite Hst). rewrite Hd in C3. split.
  - rewrite (sf_queues _ _ F) by done. rewrite C3. unfold closed_queue. cbn. left.
  - destruct (sched_frame_lookup s2' s3 m (set_th_stat RT_THREAD_CLOSE th) F) as (th' & E & [_ Hx]); [rewrite C2; apply lookup_insert_eq|]. exists th'. split; [done|]. destruct Hx as [->|[[Hx|Hx] _]]; done.
Qed.

(** ** The idle thread *)

(** What the idle thread works on: the closed threads have headers, and there
    are fewer than [fuel]. *)
Definition idle_inv (fuel : nat) (k : kst) : Prop :=
  kinv k /\ k_irq_nest k = 0 /\ 0 <= k_lock_nest k < 2 ^ 15 - 1 /\ (forall u, u ∈ qget k QDefunct -> is_Some (k_objects k !! OThread u)) /\ (length (qget k QDefunct) < fuel)%nat.
(** The calls of hooks between two states, in their order. *)
Inductive hooks_ran (step : Z -> kst -> kst -> Prop) : list Z -> kst -> kst -> Prop :=
| hooks_ran_nil k : hooks_ran step [] k k
| hooks_ran_cons f l k k1 k' : step f k k1 -> hooks_ran step l k1 k' -> hooks_ran step (f :: l) k k'.

Lemma idle_hooks_loop_wp step (hook : Z -> M idle_state unit) fuel x l : forall i k,
  (forall f k, idle_inv fuel k -> wp (hook f) (mkBeside k x) (fun _ s' => step f k (b_k s') /\ b_x s' = x /\ idle_inv fuel (b_k s'))) ->
  idle_inv fuel k -> drop i x = l ->
  wp (idle_hooks_loop hook i (length l)) (mkBeside k x) (fun _ s' => b_x s' = x /\ idle_inv fuel (b_k s') /\ hooks_ran step (idle_hook_calls l) k (b_k s')).
Proof.
  induction l as [|h l IH]; intros i k Hh Hk Hd; cbn [length idle_hooks_loop]; [kstep; by split_and!; [| |constructor]|].
  assert (x !! i = Some h) as Ei by (rewrite <- (Nat.add_0_r i), <- lookup_drop, Hd; done). assert (drop (S i) x = l) as Hd' by (apply drop_S in Ei; rewrite Hd in Ei; by injection Ei).
  kstep. apply wp_in_x. apply (wp_deref _ h); [done|]. kstep. destruct h as [f|].
  - eapply wp_mono; [by apply Hh|]. intros [] [k1 x1] (Hs & E & Hk1). cbn in *. subst x1. eapply wp_mono; [by apply (IH (S i) k1)|]. intros [] s' (? & ? & R). split_and!; [done|done|]. by apply (hooks_ran_cons _ _ _ _ k1).
  - kstep. by apply IH.
Qed.

(** One round of the idle thread.  The hooks that are installed are called,
    each once and in the order of their slots; then the closed heap threads up to
    the first static one, and that one, have been reclaimed.  The round returns
    and keeps the kernel invariant. *)
Theorem rt_thread_idle_entry_correct step hook cleanup free fuel k x :
  length x = RT_IDLE_HOOK_LIST_SIZE -> idle_calls_ok cleanup free (fun _ l => Some l) ->
  (forall f k, idle_inv fuel k -> wp (hook f) (mkBeside k x) (fun _ s' => step f k (b_k s') /\ b_x s' = x /\ idle_inv fuel (b_k s'))) -> idle_inv fuel k ->
  wp (rt_thread_idle_entry hook cleanup free fuel) (mkBeside k x) (fun _ s' => b_x s' = x /\ kinv (b_k s') /\
    exists k1, hooks_ran step (idle_hook_calls x) k k1 /\ qget (b_k s') QDefunct = remaining k1 (qget k1 QDefunct) /\
      forall u, u ∈ handled k1 (qget k1 QDefunct) -> static_thread k1 u = false -> k_objects (b_k s') !! OThread u = None).
Proof.
  intros Hl Hc Hh Hk. unfold rt_thread_idle_entry. kstep. rewrite <- Hl. eapply wp_mono; [by apply (idle_hooks_loop_wp step hook fuel x x 0 k)|]. intros [] [k1 x1] (E & (Hk1 & Hi & Hln & Hr & Hf) & R). cbn in *. subst x1.
  assert (forall l, run_calls (fun _ l => Some l) l x = Some x) as Hrun by (intros l; by induction l).
  eapply wp_mono; [by apply (reclaim_all cleanup free (fun _ l => Some l) Hc (qget k1 QDefunct) fuel k1 x x)|].
  intros [] s' (Ex & Hk2 & Hq & _ & Hg). split_and!; [done|done|]. exists k1. split_and!; [done|done|]. intros u Hu Es. by rewrite Hg, Es.
Qed.

(** ** Witnesses *)

(** Memory as the C runtime leaves it. *)
Definition reset_state : kst := mkKst ∅ ∅ ∅ ∅ ∅ [] [] ∅ ∅ ∅ ∅ ∅ 0 None 0 0 0 0 None.
Definition sample_image : image := mkImage (Some 2%nat) (Some 0x20002000) 0x8001000 0 0x20000100 0x8001100 1 0x20000400 0x8001200 0x8001300.
Lemma sample_image_ok : image_ok sample_image 2.
Proof.
  split; [done|exists 0x20002000; split; [done|]|..]; unfold stack_fits; try (split_and!; done). apply (proj1 (bool_decide_eq_true _)). vm_compute. reflexivity.
Qed.
Lemma reset_boot_ok : boot_ok sample_image 2 reset_state.
Proof. split; try done. intros t _. split; by intros ?%elem_of_nil. Qed.

Lemma rtthread_startup_correct_witness : wp (rtthread_startup (ret tt) sample_image) reset_state (fun _ s' => system_up sample_image 2 s').
Proof. apply (rtthread_startup_correct (ret tt) sample_image 2 reset_state); [exact sample_image_ok|apply wp_ret; exact reset_boot_ok]. Defined.

Lemma rt_application_init_no_memory_witness : rt_application_init (mkImage None None 0 0 1 0 1 1 0 0) reset_state = Halt.
Proof. apply (rt_application_init_no_memory _ reset_state); reflexivity. Defined.

Definition sample_main : kst := set_k_objects (<[OThread 1 := mkObject (repeat 97 RT_NAME_MAX) RT_Object_Class_Thread 0]> (k_objects sample)) sample.
Lemma sample_main_kinv : kinv sample_main.
Proof. apply kinvb_sound. vm_compute. reflexivity. Qed.
Lemma main_thread_returns_witness :
  wp (main_thread_entry [ret 0] (ret 0) ;; rt_thread_exit) sample_main (fun _ s' => kinv s' /\ is_Some (k_current s') /\ 1%nat ∈ qget s' QDefunct /\ exists th, k_threads s' !! 1%nat = Some th /\ st th = RT_THREAD_CLOSE).
Proof.
  apply (main_thread_returns 1 [ret 0] (ret 0) sample_main).
  - cbn. apply Forall_cons; split; [|apply Forall_cons; split; [|by apply Forall_nil]]; intros s H; by apply wp_ret.
  - split; [exact sample_main_kinv|]. split; [exists (sample_thread 10 RT_THREAD_RUNNING); split; reflexivity|]. eexists. split; reflexivity.
Defined.

Lemma rt_thread_idle_entry_correct_witness :
  wp (rt_thread_idle_entry (fun _ => ret tt) (fun _ _ => ret tt) (fun _ => ret tt) 5) (mkBeside sample_defunct [Some 5; None; Some 6; None]) (fun _ s' => b_x s' = [Some 5; None; Some 6; None] /\ kinv (b_k s') /\
    exists k1, hooks_ran (fun _ k k' => k' = k) [5; 6] sample_defunct k1 /\ qget (b_k s') QDefunct = remaining k1 (qget k1 QDefunct) /\
      forall u, u ∈ handled k1 (qget k1 QDefunct) -> static_thread k1 u = false -> k_objects (b_k s') !! OThread u = None).
Proof.
  apply (rt_thread_idle_entry_correct (fun _ k k' => k' = k) (fun _ => ret tt) (fun _ _ => ret tt) (fun _ => ret tt) 5 sample_defunct [Some 5; None; Some 6; None]).
  - reflexivity.
  - split; intros; simplify_eq; apply wp_ret; (split; [split; [done|done|done|by apply quiet_threads]|done]).
  - intros f k H. by apply wp_ret.
  - split; [apply kinvb_sound; vm_compute; reflexivity|]. split; [reflexivity|]. split; [vm_compute; split; [discriminate|reflexivity]|]. split; [|vm_compute; lia].
    intros u Hu. change (qget sample_defunct QDefunct) with [8%nat; 9%nat; 10%nat; 11%nat] in Hu. rewrite !elem_of_cons, elem_of_nil in Hu.
    destruct Hu as [->|[->|[->|[->|[]]]]]; vm_compute; eauto.
Defined.
