(* ===== verification/WorkQueue.v ===== *)
(** * Work queues (components/drivers/src/workqueue.c, include/ipc/workqueue.h)

    A work queue is a list of works and a thread that runs them.  Beside the
    kernel: the queues, the works and the pointer sys_workq.  The functions of the
    works are not part of it: what happens between taking a work and coming back
    from its function is left open, any sequence of steps. *)

From S2P Require Import Prelude Ffs KState Wf Inv Sched Object Timer Thread TimerRun Sleep Ipc Sem Beside UserTimer.

Definition RT_WORK_STATE_PENDING : Z := 0x0001.
Definition RT_WORK_STATE_SUBMITTING : Z := 0x0002.
Definition RT_WORK_TYPE_DELAYED : Z := 0x0001.
Definition RT_TIMER_FLAG_ONE_SHOT : Z := 0x0.
Definition EINVAL : Z := 22.  (** of errno.h *)

Record rt_work := mkWork {
  wk_func : Z;
  wk_data : Z;
  wk_flags : Z;  (** rt_uint16_t *)
  wk_type : Z;  (** rt_uint16_t *)
  wk_timer : nat;  (** which timer of the kernel the one in the structure is *)
  wk_workqueue : option nat
}.
Record rt_workqueue := mkWorkq {
  wq_work_list : list nat;
  wq_work_current : option nat;
  wq_sem : nat;
  wq_work_thread : nat
}.
Record workqueues := mkWkqs { x_queues : gmap nat rt_workqueue; x_works : gmap nat rt_work; sys_workq : option nat }.
Definition WQ (A : Type) : Type := M (beside workqueues) A.

Definition set_wk_flags (v : Z) (w : rt_work) : rt_work := mkWork (wk_func w) (wk_data w) v (wk_type w) (wk_timer w) (wk_workqueue w).
Definition set_wk_type (v : Z) (w : rt_work) : rt_work := mkWork (wk_func w) (wk_data w) (wk_flags w) v (wk_timer w) (wk_workqueue w).
Definition set_wk_workqueue (v : option nat) (w : rt_work) : rt_work := mkWork (wk_func w) (wk_data w) (wk_flags w) (wk_type w) (wk_timer w) v.
Definition set_work_list (v : list nat) (q : rt_workqueue) : rt_workqueue := mkWorkq v (wq_work_current q) (wq_sem q) (wq_work_thread q).
Definition set_work_current (v : option nat) (q : rt_workqueue) : rt_workqueue := mkWorkq (wq_work_list q) v (wq_sem q) (wq_work_thread q).
Definition set_x_queues (v : gmap nat rt_workqueue) (x : workqueues) : workqueues := mkWkqs v (x_works x) (sys_workq x).
Definition set_x_works (v : gmap nat rt_work) (x : workqueues) : workqueues := mkWkqs (x_queues x) v (sys_workq x).

(** [flags & mask], [flags |= mask] and [flags &= ~mask] *)
Definition wk_has (v mask : Z) : bool := negb (Z.land v mask =? 0).
Definition wk_raise (mask : Z) (w : rt_work) : rt_work := set_wk_flags (Z.lor (wk_flags w) mask) w.
Definition wk_clear (mask : Z) (w : rt_work) : rt_work := set_wk_flags (Z.ldiff (wk_flags w) mask) w.

Definition get_workq (n : nat) : WQ rt_workqueue := in_x (deref (fun x => x_queues x !! n)).
Definition put_workq (n : nat) (q : rt_workqueue) : WQ unit := in_x (modify (fun x => set_x_queues (<[n := q]> (x_queues x)) x)).
Definition get_work (w : nat) : WQ rt_work := in_x (deref (fun x => x_works x !! w)).
Definition mod_work (w : nat) (f : rt_work -> rt_work) : WQ unit :=
  work <- get_work w ;; in_x (modify (fun x => set_x_works (<[w := f work]> (x_works x)) x)).

(** rt_list_remove(&(work->list)): out of the list it is linked in, if any *)
Definition list_without (w : nat) (q : rt_workqueue) : rt_workqueue := set_work_list (without w (wq_work_list q)) q.
Definition list_remove (w : nat) : WQ unit := in_x (modify (fun x => set_x_queues (list_without w <$> x_queues x) x)).

Definition rt_work_init (w : nat) (timer : nat) (work_func work_data : Z) : WQ unit :=
  in_x (modify (fun x => set_x_works (<[w := mkWork work_func work_data 0 0 timer None]> (x_works x)) x)).
Definition rt_delayed_work_init : nat -> nat -> Z -> Z -> WQ unit := rt_work_init.

(** ** Submitting and cancelling *)

(** Wake the thread of the queue when it is not running a work. *)
Definition wake_worker (q : rt_workqueue) : WQ unit :=
  match wq_work_current q with
  | None => in_k (rt_thread_resume (wq_work_thread q) ;; rt_schedule)
  | Some _ => ret tt
  end.

Definition _workqueue_submit_work (queue : option nat) (w : nat) : WQ Z :=
  work <- get_work w ;;
  if wk_has (wk_flags work) RT_WORK_STATE_PENDING then ret (- RT_EBUSY)
  else
    n <- deref (fun _ => queue) ;;
    q <- get_workq n ;;
    if bool_decide (wq_work_current q = Some w) then ret (- RT_EBUSY)
    else
      list_remove w ;;
      q <- get_workq n ;;
      put_workq n (set_work_list (wq_work_list q ++ [w]) q) ;;
      mod_work w (wk_raise RT_WORK_STATE_PENDING) ;;
      wake_worker q ;;
      ret RT_EOK.

Definition _workqueue_cancel_work (n w : nat) : WQ Z :=
  q <- get_workq n ;;
  if bool_decide (wq_work_current q = Some w) then ret (- RT_EBUSY)
  else
    list_remove w ;;
    mod_work w (wk_clear RT_WORK_STATE_PENDING) ;;
    ret RT_EOK.

Definition _workqueue_cancel_delayed_work (w : nat) : WQ Z :=
  work <- get_work w ;;
  match wk_workqueue work with
  | None => ret (- EINVAL)
  | Some n =>
      r <- (if wk_has (wk_flags work) RT_WORK_STATE_PENDING then _workqueue_cancel_work n w
            else
              when (wk_has (wk_flags work) RT_WORK_STATE_SUBMITTING) (
                in_k (rt_timer_stop (TmUser (wk_timer work)) ;; rt_timer_detach (TmUser (wk_timer work))) ;;
                mod_work w (wk_clear RT_WORK_STATE_SUBMITTING)) ;;
              ret RT_EOK) ;;
      if negb (r =? RT_EOK) then ret r
      else
        mod_work w (set_wk_workqueue None) ;;
        mod_work w (wk_clear RT_WORK_STATE_PENDING) ;;
        ret RT_EOK
  end.

(** _delayed_work_timeout_handler with its parameter, as the timer has them *)
Definition delayed_work_timeout (w : nat) : timeout_fn := TFUser 0 (Z.of_nat w).
Definition work_name : list Z := [119; 111; 114; 107; 0].

Definition _workqueue_submit_delayed_work (n w : nat) (ticks : Z) : WQ Z :=
  work <- get_work w ;;
  if bool_decide (is_Some (wk_workqueue work)) && negb (bool_decide (wk_workqueue work = Some n)) then ret (- RT_EINVAL)
  else
    r <- (if bool_decide (wk_workqueue work = Some n) then _workqueue_cancel_delayed_work w else ret RT_EOK) ;;
    if r <? 0 then ret r
    else
      mod_work w (set_wk_workqueue (Some n)) ;;
      work <- get_work w ;;
      if ticks =? 0 then _workqueue_submit_work (wk_workqueue work) w
      else
        mod_work w (wk_raise RT_WORK_STATE_SUBMITTING) ;;
        in_k (
          rt_timer_init (TmUser (wk_timer work)) work_name (delayed_work_timeout w) ticks (Z.lor RT_TIMER_FLAG_ONE_SHOT RT_TIMER_FLAG_SOFT_TIMER) ;;
          rt_timer_start (TmUser (wk_timer work))) ;;
        ret r.

Definition _delayed_work_timeout_handler (w : nat) : WQ unit :=
  work <- get_work w ;;
  in_k (rt_timer_stop (TmUser (wk_timer work)) ;; rt_timer_detach (TmUser (wk_timer work))) ;;
  mod_work w (wk_clear RT_WORK_STATE_SUBMITTING) ;;
  mod_work w (fun w => set_wk_type (Z.ldiff (wk_type w) RT_WORK_TYPE_DELAYED) w) ;;
  work <- get_work w ;;
  _workqueue_submit_work (wk_workqueue work) w ;;
  ret tt.

(** ** The thread of a queue *)

(** The loop of _workqueue_work_completion; each iteration uses one unit of fuel. *)
Fixpoint completion_loop (fuel sem : nat) : K Z :=
  match fuel with
  | O => nofuel
  | S fuel =>
      r <- rt_sem_trytake sem ;;
      match r with
      | Returned result =>
          if result =? - RT_ETIMEOUT then rt_sem_release sem ;; completion_loop fuel sem
          else if result =? RT_EOK then ret RT_EOK
          else ret (- RT_ERROR)
      | Waiting _ => halt
      end
  end.
Definition _workqueue_work_completion (fuel n : nat) : WQ Z :=
  q <- get_workq n ;;
  in_k (
    rt_enter_critical ;;
    result <- completion_loop fuel (wq_sem q) ;;
    rt_exit_critical ;;
    ret result).

(** An iteration of _workqueue_thread_entry, in the pieces that interrupts and
    other threads can come between: the test for works, going to sleep when
    there are none, taking the first work, and what follows its function. *)
Definition worker_test (n : nat) : WQ bool :=
  q <- get_workq n ;; ret (bool_decide (wq_work_list q = [])).
Definition worker_sleep (n : nat) : WQ nat :=
  self <- in_k rt_thread_self ;;
  t <- deref (fun _ => self) ;;
  in_k (rt_thread_suspend t ;; rt_schedule) ;;
  ret t.
(** With no work in the list, work_list.next is the head of the list itself. *)
Definition worker_take (n : nat) : WQ nat :=
  q <- get_workq n ;;
  w <- deref (fun _ => head (wq_work_list q)) ;;
  list_remove w ;;
  q <- get_workq n ;;
  put_workq n (set_work_current (Some w) q) ;;
  mod_work w (wk_clear RT_WORK_STATE_PENDING) ;;
  mod_work w (set_wk_workqueue None) ;;
  ret w.
Definition worker_done (fuel n : nat) : WQ unit :=
  q <- get_workq n ;;
  put_workq n (set_work_current None q) ;;
  _workqueue_work_completion fuel n ;;
  ret tt.

(** ** The interface *)

Definition wqueue_name : list Z := [119; 113; 117; 101; 117; 101; 0].
(** [malloced]: the queue, with the semaphore in it, that RT_KERNEL_MALLOC found
    room for; [thread] and [stack] what rt_thread_create did; [entry], [exit] the
    addresses of the functions. *)
Definition rt_workqueue_create (name : list Z) (stack_size priority entry exit : Z) (malloced : option (nat * nat)) (thread : option nat) (stack : option Z) : WQ (option nat) :=
  match malloced with
  | None => ret None
  | Some (n, sem) =>
      in_k (rt_sem_init sem wqueue_name 0 RT_IPC_FLAG_FIFO) ;;
      t <- in_k (rt_thread_create name entry (Z.of_nat n) stack_size priority 10 exit thread stack) ;;
      match t with
      | None => ret None
      | Some t =>
          put_workq n (mkWorkq [] None sem t) ;;
          in_k (rt_thread_startup t) ;;
          ret (Some n)
      end
  end.

Definition rt_workqueue_destroy (n : nat) : WQ Z :=
  q <- get_workq n ;;
  in_k (rt_thread_delete (wq_work_thread q)) ;;
  in_x (modify (fun x => set_x_queues (delete n (x_queues x)) x)) ;;
  ret RT_EOK.

Definition rt_workqueue_dowork (n w : nat) : WQ Z := _workqueue_submit_work (Some n) w.

Definition rt_workqueue_submit_work (n w : nat) (time : Z) : WQ Z :=
  when (0 <? time) (mod_work w (fun w => set_wk_type (Z.lor (wk_type w) RT_WORK_TYPE_DELAYED) w)) ;;
  work <- get_work w ;;
  if wk_has (wk_type work) RT_WORK_TYPE_DELAYED then _workqueue_submit_delayed_work n w time
  else _workqueue_submit_work (Some n) w.

Definition rt_workqueue_critical_work (n w : nat) : WQ Z :=
  q <- get_workq n ;;
  if bool_decide (wq_work_current q = Some w) then ret (- RT_EBUSY)
  else
    list_remove w ;;
    q <- get_workq n ;;
    put_workq n (set_work_list (wq_work_list q ++ [w]) q) ;;
    wake_worker q ;;
    ret RT_EOK.

Definition rt_workqueue_cancel_work (n w : nat) : WQ Z :=
  work <- get_work w ;;
  if wk_has (wk_type work) RT_WORK_TYPE_DELAYED then _workqueue_cancel_delayed_work w
  else _workqueue_cancel_work n w.

(** It waits for the work that runs. *)
Definition rt_workqueue_cancel_work_sync_enter (n w : nat) : WQ (outcome Z) :=
  q <- get_workq n ;;
  if bool_decide (wq_work_current q = Some w) then
    r <- in_k (rt_sem_take_enter (wq_sem q) RT_WAITING_FOREVER) ;;
    match r with
    | Waiting t => ret (Waiting t)
    | Returned _ => mod_work w (wk_clear RT_WORK_STATE_PENDING) ;; ret (Returned RT_EOK)
    end
  else
    list_remove w ;;
    mod_work w (wk_clear RT_WORK_STATE_PENDING) ;;
    ret (Returned RT_EOK).
Definition rt_workqueue_cancel_work_sync_resume (t w : nat) : WQ Z :=
  in_k (rt_sem_take_resume t) ;;
  mod_work w (wk_clear RT_WORK_STATE_PENDING) ;;
  ret RT_EOK.

Fixpoint remove_nodes (l : list nat) : WQ unit :=
  match l with
  | [] => ret tt
  | w :: l => list_remove w ;; remove_nodes l
  end.
Definition rt_workqueue_cancel_all_work (n : nat) : WQ Z :=
  in_k rt_enter_critical ;;
  q <- get_workq n ;;
  remove_nodes (wq_work_list q) ;;
  in_k rt_exit_critical ;;
  ret RT_EOK.

(** The work queue of the system: RT_ASSERT(queue != RT_NULL) *)
Definition get_sys_workq : WQ nat :=
  sys <- in_x (gets sys_workq) ;; match sys with Some n => ret n | None => halt end.
Definition rt_work_submit (w : nat) (time : Z) : WQ Z := n <- get_sys_workq ;; rt_workqueue_submit_work n w time.
Definition rt_work_cancel (w : nat) : WQ Z := n <- get_sys_workq ;; rt_workqueue_cancel_work n w.
Definition RT_SYSTEM_WORKQUEUE_STACKSIZE : Z := 2048.
Definition RT_SYSTEM_WORKQUEUE_PRIORITY : Z := 23.
Definition sys_work_name : list Z := [115; 121; 115; 95; 119; 111; 114; 107; 0].
Definition rt_work_sys_workqueue_init (entry exit : Z) (malloced : option (nat * nat)) (thread : option nat) (stack : option Z) : WQ Z :=
  sys <- in_x (gets sys_workq) ;;
  if bool_decide (is_Some sys) then ret 0
  else
    queue <- rt_workqueue_create sys_work_name RT_SYSTEM_WORKQUEUE_STACKSIZE RT_SYSTEM_WORKQUEUE_PRIORITY entry exit malloced thread stack ;;
    in_x (modify (fun x => mkWkqs (x_queues x) (x_works x) queue)) ;;
    ret RT_EOK.

(** ** Correctness *)

(** Every listed work is known and in one list only, once; the thread of a queue
    exists. *)
Record wkq_ok (s : beside workqueues) : Prop := {
  ko_known : forall n q w, x_queues (b_x s) !! n = Some q -> w ∈ wq_work_list q -> is_Some (x_works (b_x s) !! w);
  ko_nodup : forall n q, x_queues (b_x s) !! n = Some q -> NoDup (wq_work_list q);
  ko_one : forall n n' q q' w, x_queues (b_x s) !! n = Some q -> x_queues (b_x s) !! n' = Some q' ->
    w ∈ wq_work_list q -> w ∈ wq_work_list q' -> n = n';
  ko_thread : forall n q, x_queues (b_x s) !! n = Some q -> exists th, k_threads (b_k s) !! wq_work_thread q = Some th /\ st th <> RT_THREAD_CLOSE
}.

Lemma wp_get_workq n q k x Q : x_queues x !! n = Some q -> Q q (mkBeside k x) -> wp (get_workq n) (mkBeside k x) Q.
Proof. intros E HQ. apply wp_in_x. by apply (wp_deref _ q). Qed.
Lemma wp_put_workq n q k x Q : Q tt (mkBeside k (set_x_queues (<[n := q]> (x_queues x)) x)) -> wp (put_workq n q) (mkBeside k x) Q.
Proof. intros HQ. apply wp_in_x. by kstep. Qed.
Lemma wp_get_work w v k x Q : x_works x !! w = Some v -> Q v (mkBeside k x) -> wp (get_work w) (mkBeside k x) Q.
Proof. intros E HQ. apply wp_in_x. by apply (wp_deref _ v). Qed.
Lemma wp_mod_work w v f k x Q : x_works x !! w = Some v -> Q tt (mkBeside k (set_x_works (<[w := f v]> (x_works x)) x)) -> wp (mod_work w f) (mkBeside k x) Q.
Proof. intros E HQ. unfold mod_work. kstep. apply (wp_get_work _ v); [done|]. apply wp_in_x. by kstep. Qed.
Lemma wp_list_remove w k x Q : Q tt (mkBeside k (set_x_queues (list_without w <$> x_queues x) x)) -> wp (list_remove w) (mkBeside k x) Q.
Proof. intros HQ. apply wp_in_x. by kstep. Qed.

(** The queues after a work has left its list, and after it was put last in the
    list of a queue. *)
Definition work_out (w : nat) (x : workqueues) : workqueues := set_x_queues (list_without w <$> x_queues x) x.
Definition work_last (n w : nat) (q : rt_workqueue) (x : workqueues) : workqueues :=
  set_x_queues (<[n := set_work_list (without w (wq_work_list q) ++ [w]) q]> (list_without w <$> x_queues x)) x.

Lemma lookup_out w x n q : x_queues (work_out w x) !! n = Some q -> exists q0, x_queues x !! n = Some q0 /\ q = list_without w q0.
Proof. cbn. rewrite lookup_fmap. destruct (x_queues x !! n) as [q0|]; [|done]. intros [= <-]. eauto. Qed.
Lemma wkq_ok_out s w : wkq_ok s -> wkq_ok (mkBeside (b_k s) (work_out w (b_x s))).
Proof.
  intros [K1 K2 K3 K4]. split; cbn [b_k b_x].
  - intros n q v Hn Hv. destruct (lookup_out _ _ _ _ Hn) as (q0 & E & ->). cbn in Hv. apply elem_of_without in Hv. apply (K1 n q0 v); tauto.
  - intros n q Hn. destruct (lookup_out _ _ _ _ Hn) as (q0 & E & ->). apply NoDup_filter. eauto.
  - intros n n' q q' v Hn Hn' Hv Hv'. destruct (lookup_out _ _ _ _ Hn) as (q0 & E & ->). destruct (lookup_out _ _ _ _ Hn') as (q0' & E' & ->).
    cbn in Hv, Hv'. apply elem_of_without in Hv. apply elem_of_without in Hv'. apply (K3 n n' q0 q0' v); tauto.
  - intros n q Hn. destruct (lookup_out _ _ _ _ Hn) as (q0 & E & ->). apply (K4 n q0 E).
Qed.
Lemma wkq_ok_last s n w q : wkq_ok s -> x_queues (b_x s) !! n = Some q -> is_Some (x_works (b_x s) !! w) -> wkq_ok (mkBeside (b_k s) (work_last n w q (b_x s))).
Proof.
  intros Hok Hn Hw. pose proof (wkq_ok_out s w Hok) as [K1 K2 K3 K4]. cbn [b_k b_x] in *.
  assert (x_queues (work_out w (b_x s)) !! n = Some (list_without w q)) as Hn' by (cbn; by rewrite lookup_fmap, Hn).
  assert (forall m r, w ∈ wq_work_list r -> x_queues (work_out w (b_x s)) !! m <> Some r) as Hout.
  { intros m r Hr E. destruct (lookup_out _ _ _ _ E) as (r0 & _ & ->). cbn in Hr. apply elem_of_without in Hr. tauto. }
  assert (forall m r v, x_queues (work_last n w q (b_x s)) !! m = Some r -> v ∈ wq_work_list r ->
    (exists r', x_queues (work_out w (b_x s)) !! m = Some r' /\ v ∈ wq_work_list r') \/ (m = n /\ v = w)) as Hold.
  { intros m r v. cbn [work_last set_x_queues x_queues]. rewrite lookup_insert. case_decide as E; [subst m|eauto]. intros [= <-] Hv. cbn in Hv. rewrite elem_of_app, list_elem_of_singleton in Hv.
    destruct Hv as [Hv|Hv]; [left; eauto|by right]. }
  split; cbn [b_k b_x].
  - intros m r v Hm Hv. destruct (Hold m r v Hm Hv) as [(r' & E & Hr)|[-> ->]]; [by apply (K1 m r')|done].
  - intros m r Hm. cbn [work_last set_x_queues x_queues] in Hm. rewrite lookup_insert in Hm. case_decide; [|by apply (K2 m)]. injection Hm as <-. cbn. apply NoDup_app. split_and!; [by apply (K2 n (list_without w q))| |apply NoDup_singleton].
    intros v Hv Hw'. apply list_elem_of_singleton in Hw' as ->. apply elem_of_without in Hv. tauto.
  - intros m m' r r' v Hm Hm' Hv Hv'. destruct (Hold m r v Hm Hv) as [(a & E & Ha)|[-> ->]], (Hold m' r' _ Hm' Hv') as [(b & E' & Hb)|[-> Ev]]; [by apply (K3 m m' a b v)| | |done]; exfalso; [subst v|]; by eapply Hout.
  - intros m r Hm. cbn [work_last set_x_queues x_queues] in Hm. rewrite lookup_insert in Hm. case_decide; [|by apply (K4 m)]. injection Hm as <-. by apply (K4 n (list_without w q)).
Qed.
Lemma wkq_ok_works s w v : wkq_ok s -> wkq_ok (mkBeside (b_k s) (set_x_works (<[w := v]> (x_works (b_x s))) (b_x s))).
Proof.
  intros [K1 K2 K3 K4]. split; try done. intros n q u Hn Hu. cbn. rewrite lookup_insert. case_decide; [by eexists|]. by apply (K1 n q u).
Qed.
Lemma wkq_ok_kept s k' : wkq_ok s -> (forall u, kept (b_k s) k' u \/ exists th, k_threads k' !! u = Some th /\ st th <> RT_THREAD_CLOSE) -> wkq_ok (mkBeside k' (b_x s)).
Proof.
  intros [K1 K2 K3 K4] H. split; try done. intros n q Hn. destruct (K4 n q Hn) as (th & Ht & Hc). cbn [b_k]. destruct (H (wq_work_thread q)) as [Hk|?]; [|done]. by eapply kept_open.
Qed.
Lemma awake_open s s' t th u : awake s s' t th -> kept s s' u \/ exists th', k_threads s' !! u = Some th' /\ st th' <> RT_THREAD_CLOSE.
Proof.
  intros A. destruct (decide (u = t)) as [->|Hu]; [|left; by apply (aw_others _ _ _ _ A)]. pose proof (aw_thread _ _ _ _ A) as H. destruct (st th =? RT_THREAD_SUSPEND); [|by left].
  right. destruct H as (th' & E & Hr & _). exists th'. split; [done|by apply runnable_open].
Qed.

(** What waking the thread of a queue does to the kernel. *)
Definition worker_woken (k k' : kst) (q : rt_workqueue) : Prop :=
  match wq_work_current q with
  | Some _ => k' = k
  | None => exists th, k_threads k !! wq_work_thread q = Some th /\ awake k k' (wq_work_thread q) th
  end.
Lemma wake_worker_wp s n q : kinv (b_k s) -> is_Some (k_current (b_k s)) -> wkq_ok s -> x_queues (b_x s) !! n = Some q ->
  wp (wake_worker q) s (fun _ s' => kinv (b_k s') /\ is_Some (k_current (b_k s')) /\ wkq_ok s' /\ b_x s' = b_x s /\ worker_woken (b_k s) (b_k s') q).
Proof.
  intros Hk Hc Hok Hn. destruct s as [k x]. cbn [b_k b_x] in *. unfold wake_worker, worker_woken. destruct (wq_work_current q) as [v|]; [by kstep|].
  destruct (ko_thread _ Hok n q Hn) as (th & Ht & Hcl). apply wp_beside_k. eapply wp_mono; [by apply (resume_schedule_wp k (wq_work_thread q) th)|]. intros r k' A. cbn [b_k b_x].
  split; [apply A|]. split; [apply A|]. split; [|split; [done|by exists th]]. apply (wkq_ok_kept (mkBeside k x)); [done|]. intros u. exact (awake_open _ _ _ _ u A).
Qed.

(** The work is put last and its thread woken: rt_workqueue_critical_work, and
    with the state of the work _workqueue_submit_work. *)
Lemma link_last_wp s n q w v (f : option (rt_work -> rt_work)) : kinv (b_k s) -> is_Some (k_current (b_k s)) -> wkq_ok s -> x_queues (b_x s) !! n = Some q -> x_works (b_x s) !! w = Some v ->
  wp (list_remove w ;; q <- get_workq n ;; put_workq n (set_work_list (wq_work_list q ++ [w]) q) ;;
      match f with Some f => mod_work w f | None => ret tt end ;; wake_worker q ;; ret RT_EOK) s
    (fun r s' => r = RT_EOK /\ kinv (b_k s') /\ is_Some (k_current (b_k s')) /\ wkq_ok s' /\ worker_woken (b_k s) (b_k s') q /\
      b_x s' = match f with Some f => set_x_works (<[w := f v]> (x_works (b_x s))) (work_last n w q (b_x s)) | None => work_last n w q (b_x s) end).
Proof.
  intros Hk Hc Hok Hn Hw. destruct s as [k x]. cbn [b_k b_x] in *. kstep. apply wp_list_remove. kstep. apply (wp_get_workq _ (list_without w q)); [cbn; by rewrite lookup_fmap, Hn|].
  kstep. apply wp_put_workq. change (set_x_queues _ (set_x_queues _ x)) with (work_last n w q x). pose proof (wkq_ok_last (mkBeside k x) n w q Hok Hn ltac:(by eexists)) as Hok1. cbn [b_k b_x] in Hok1.
  assert (x_queues (work_last n w q x) !! n = Some (set_work_list (without w (wq_work_list q) ++ [w]) q)) as Hn1 by apply lookup_insert_eq. kstep. destruct f as [f|].
  - apply (wp_mod_work _ v); [done|]. kstep. eapply wp_mono; [apply (wake_worker_wp _ n (set_work_list (without w (wq_work_list q) ++ [w]) q)); [done|done|by apply (wkq_ok_works (mkBeside k (work_last n w q x)))|done]|].
    intros [] s' (Hk' & Hc' & Hok' & Ex & Hwk). kstep. rewrite Ex. by split_and!.
  - kstep. kstep. eapply wp_mono; [apply (wake_worker_wp _ n (set_work_list (without w (wq_work_list q) ++ [w]) q)); [done|done|done|done]|].
    intros [] s' (Hk' & Hc' & Hok' & Ex & Hwk). kstep. rewrite Ex. by split_and!.
Qed.

Definition submit_result (s : beside workqueues) (n w : nat) (q : rt_workqueue) (v : rt_work) (r : Z) (s' : beside workqueues) : Prop :=
  if wk_has (wk_flags v) RT_WORK_STATE_PENDING || bool_decide (wq_work_current q = Some w) then r = - RT_EBUSY /\ s' = s
  else r = RT_EOK /\ worker_woken (b_k s) (b_k s') q /\
    b_x s' = set_x_works (<[w := wk_raise RT_WORK_STATE_PENDING v]> (x_works (b_x s))) (work_last n w q (b_x s)).

Lemma submit_wp s n w q v : kinv (b_k s) -> is_Some (k_current (b_k s)) -> wkq_ok s -> x_queues (b_x s) !! n = Some q -> x_works (b_x s) !! w = Some v ->
  wp (_workqueue_submit_work (Some n) w) s (fun r s' => kinv (b_k s') /\ is_Some (k_current (b_k s')) /\ wkq_ok s' /\ submit_result s n w q v r s').
Proof.
  intros Hk Hc Hok Hn Hw. unfold _workqueue_submit_work, submit_result. pose proof (link_last_wp s n q w v (Some (wk_raise RT_WORK_STATE_PENDING)) Hk Hc Hok Hn Hw) as H. destruct s as [k x]. cbn [b_k b_x] in *.
  kstep. apply (wp_get_work _ v); [done|]. destruct (wk_has (wk_flags v) RT_WORK_STATE_PENDING); cbn [orb]; [by kstep|]. kstep. apply (wp_deref _ n); [done|].
  kstep. apply (wp_get_workq _ q); [done|]. case_bool_decide as E; [by kstep|]. eapply wp_mono; [exact H|]. intros r s' (-> & Hk' & Hc' & Hok' & Hwk & Ex). by split_and!.
Qed.

(** Submitting a work (rt_workqueue_dowork).  A work that is pending, or runs
    in this queue, is refused with -RT_EBUSY and nothing changes.  Any other work
    becomes the last of the queue, leaving the list it was in, its pending flag is
    set and, when no work runs, the thread of the queue is made runnable and the
    scheduler runs.  The invariants of the kernel and of the queues are kept. *)
Theorem rt_workqueue_dowork_correct s n w q v :
  kinv (b_k s) -> is_Some (k_current (b_k s)) -> wkq_ok s -> x_queues (b_x s) !! n = Some q -> x_works (b_x s) !! w = Some v ->
  wp (rt_workqueue_dowork n w) s (fun r s' => kinv (b_k s') /\ wkq_ok s' /\ submit_result s n w q v r s').
Proof. intros Hk Hc Hok Hn Hw. eapply wp_mono; [by apply submit_wp|]. intros r s' (H1 & _ & H2 & H3). by split_and!. Qed.

(** Taking a work out of the lists changes only the list it was in. *)
Lemma work_out_one s n q w : wkq_ok s -> x_queues (b_x s) !! n = Some q -> w ∈ wq_work_list q -> x_queues (work_out w (b_x s)) = <[n := list_without w q]> (x_queues (b_x s)).
Proof.
  intros Hok Hn Hin. apply map_eq. intros m. cbn. rewrite lookup_fmap. destruct (decide (m = n)) as [->|Hne]; [by rewrite lookup_insert_eq, Hn|]. rewrite lookup_insert_ne by done.
  destruct (x_queues (b_x s) !! m) as [r|] eqn:E; [|done]. cbn. f_equal. unfold list_without. rewrite without_notin; [by destruct r|]. intros Hr. apply Hne. by apply (ko_one _ Hok m n r q w).
Qed.
Lemma wkq_ok_current s n q c : wkq_ok s -> x_queues (b_x s) !! n = Some q -> wkq_ok (mkBeside (b_k s) (set_x_queues (<[n := set_work_current c q]> (x_queues (b_x s))) (b_x s))).
Proof.
  intros [K1 K2 K3 K4] Hn. assert (forall m r, <[n := set_work_current c q]> (x_queues (b_x s)) !! m = Some r -> exists r0, x_queues (b_x s) !! m = Some r0 /\ wq_work_list r = wq_work_list r0 /\ wq_work_thread r = wq_work_thread r0) as Hold.
  { intros m r. rewrite lookup_insert. case_decide; [subst m; intros [= <-]; eauto|eauto]. }
  split; cbn [b_k b_x set_x_queues x_queues x_works].
  - intros m r w Hm Hw. destruct (Hold m r Hm) as (r0 & E & El & _). rewrite El in Hw. eauto.
  - intros m r Hm. destruct (Hold m r Hm) as (r0 & E & El & _). rewrite El. eauto.
  - intros m m' r r' w Hm Hm' Hw Hw'. destruct (Hold m r Hm) as (r0 & E & El & _). destruct (Hold m' r' Hm') as (r0' & E' & El' & _). rewrite El in Hw. rewrite El' in Hw'. eauto.
  - intros m r Hm. destruct (Hold m r Hm) as (r0 & E & _ & ->). eauto.
Qed.

Lemma worker_take_wp s n q :
  wkq_ok s -> x_queues (b_x s) !! n = Some q ->
  match wq_work_list q with
  | [] => worker_take n s = UB
  | w :: l => exists v, x_works (b_x s) !! w = Some v /\
      let s' := mkBeside (b_k s) (mkWkqs (<[n := mkWorkq l (Some w) (wq_sem q) (wq_work_thread q)]> (x_queues (b_x s)))
                                         (<[w := set_wk_workqueue None (wk_clear RT_WORK_STATE_PENDING v)]> (x_works (b_x s))) (sys_workq (b_x s))) in
      worker_take n s = Ok w s' /\ wkq_ok s'
  end.
Proof.
  intros Hok Hn. destruct s as [k x]. cbn [b_k b_x] in *. destruct (wq_work_list q) as [|w l] eqn:El.
  { unfold worker_take, get_workq, in_x, zoom, bind, deref. cbn. by rewrite Hn, El. }
  assert (w ∈ wq_work_list q) as Hin by (rewrite El; left). destruct (ko_known _ Hok n q w Hn Hin) as [v Hv]. exists v. split; [done|]. cbv zeta. set (s' := mkBeside k (mkWkqs _ _ _)).
  assert (wp (worker_take n) (mkBeside k x) (fun r s1 => r = w /\ s1 = s' /\ wkq_ok s1)) as H; [|destruct (wp_run _ _ _ H) as (? & ? & E & -> & -> & Ho); exact (conj E Ho)].
  pose proof (work_out_one (mkBeside k x) n q w Hok Hn Hin) as Eq. cbn [b_x] in Eq. pose proof (wkq_ok_out (mkBeside k x) w Hok) as Hok1. cbn [b_k b_x] in Hok1.
  pose proof (ko_nodup _ Hok n q Hn) as Hd. rewrite El in Hd. pose proof (without_head w l Hd) as Ew.
  assert (x_queues (work_out w x) !! n = Some (list_without w q)) as Hn1 by (by rewrite Eq, lookup_insert_eq). pose proof (wkq_ok_current _ n _ (Some w) Hok1 Hn1) as Hok2. cbn [b_k b_x] in Hok2.
  unfold worker_take. kstep. apply (wp_get_workq _ q); [done|]. kstep. apply (wp_deref _ w); [by rewrite El|]. kstep. apply wp_list_remove. change (set_x_queues (list_without w <$> x_queues x) x) with (work_out w x).
  kstep. apply (wp_get_workq _ (list_without w q)); [done|]. kstep. apply wp_put_workq. kstep. apply (wp_mod_work _ v); [done|]. kstep. eapply wp_mod_work; [apply lookup_insert_eq|]. kstep.
  split; [done|]. match goal with |- ?a = _ /\ _ => assert (a = s') as E end.
  - unfold s'. f_equal. cbn. rewrite insert_insert_eq. change (list_without w <$> x_queues x) with (x_queues (work_out w x)). rewrite Eq, insert_insert_eq. unfold list_without, set_work_list, set_work_current. cbn. by rewrite El, Ew.
  - split; [exact E|]. by apply (wkq_ok_works (mkBeside k _)), (wkq_ok_works (mkBeside k _)).
Qed.

(** The thread of a queue takes the works in the order of the list, the order
    they were submitted in: the first work leaves the list and is the current one,
    no longer pending and free to be submitted again after it ran; the rest of the
    list and everything else stays.  With no work in the list what follows is
    undefined. *)
Theorem worker_take_correct s n q :
  wkq_ok s -> x_queues (b_x s) !! n = Some q ->
  match wq_work_list q with
  | [] => worker_take n s = UB
  | w :: l => exists v, x_works (b_x s) !! w = Some v /\
      let s' := mkBeside (b_k s) (mkWkqs (<[n := mkWorkq l (Some w) (wq_sem q) (wq_work_thread q)]> (x_queues (b_x s)))
                                         (<[w := set_wk_workqueue None (wk_clear RT_WORK_STATE_PENDING v)]> (x_works (b_x s))) (sys_workq (b_x s))) in
      worker_take n s = Ok w s' /\ wkq_ok s'
  end.
Proof. exact (worker_take_wp s n q). Qed.

Lemma cancel_wp s n w q v : wkq_ok s -> x_queues (b_x s) !! n = Some q -> x_works (b_x s) !! w = Some v ->
  wp (_workqueue_cancel_work n w) s (fun r s' => wkq_ok s' /\
    if bool_decide (wq_work_current q = Some w) then r = - RT_EBUSY /\ s' = s
    else r = RT_EOK /\ s' = mkBeside (b_k s) (set_x_works (<[w := wk_clear RT_WORK_STATE_PENDING v]> (x_works (b_x s))) (work_out w (b_x s)))).
Proof.
  intros Hok Hn Hw. destruct s as [k x]. cbn [b_k b_x] in *. unfold _workqueue_cancel_work. kstep. apply (wp_get_workq _ q); [done|]. case_bool_decide; [by kstep|].
  kstep. apply wp_list_remove. kstep. apply (wp_mod_work _ v); [done|]. kstep. split; [|done]. by apply (wkq_ok_works (mkBeside k (work_out w x))), (wkq_ok_out (mkBeside k x)).
Qed.

(** ** The completion of a work *)

Lemma completion_loop_wp sem flag ws : forall fuel s,
  kinv s -> is_Some (k_current s) -> sem_ok s sem (ASem 0 ws) flag -> (length ws + 2 <= fuel)%nat ->
  wp (completion_loop fuel sem) s (fun r s' => r = RT_EOK /\ kinv s' /\ is_Some (k_current s') /\ sem_ok s' sem (ASem 0 []) flag /\ k_lock_nest s' = k_lock_nest s /\
    (forall t, t ∈ ws -> running_again s' t) /\ (forall t, t ∉ ws -> kept s s' t)).
Proof.
  induction ws as [|t ws IH]; intros fuel s Hk Hc Hs Hf; cbn [length] in Hf.
  - destruct fuel as [|[|fuel]]; [lia..|]. cbn [completion_loop]. unfold rt_sem_trytake. kstep. eapply wp_of_run; [by apply (rt_sem_take_poll s sem (ASem 0 []) flag)|]. cbv iota beta. rewrite Z.eqb_refl.
    kstep. eapply wp_of_run; [by apply (rt_sem_release_counts s sem (ASem 0 []) flag)|]. cbn [as_value]. set (s1 := set_k_sems _ s). assert (sem_ok s1 sem (ASem 1 []) flag) as Hs1 by (by apply (sem_ok_set s sem (ASem 0 []) 1 flag)).
    kstep. eapply wp_of_run; [by apply (rt_sem_take_available s1 sem (ASem 1 []) flag)|]. cbn [as_value]. cbv iota beta. change (RT_EOK =? - RT_ETIMEOUT) with false. change (RT_EOK =? RT_EOK) with true. cbv iota. apply wp_ret. split; [done|].
    split; [by apply kinv_set_sems, kinv_set_sems|]. split; [done|]. split; [apply (sem_ok_set s1 sem (ASem 1 []) 0 flag); [done|lia|done]|]. split; [done|]. split; [intros t Ht; by apply elem_of_nil in Ht|]. intros t _. apply option_Forall2_refl_step.
  - destruct fuel as [|fuel]; [lia|]. cbn [completion_loop]. unfold rt_sem_trytake. kstep. eapply wp_of_run; [by apply (rt_sem_take_poll s sem (ASem 0 (t :: ws)) flag)|]. cbv iota beta. rewrite Z.eqb_refl.
    kstep. eapply wp_mono; [by apply (rt_sem_release_handover s sem (ASem 0 (t :: ws)) flag t ws)|]. intros r s1 [-> P]. destruct (sem_ok_value _ _ _ _ Hs) as [_ El]. cbn [as_waiting] in El.
    assert (sem_ok s1 sem (ASem 0 ws) flag) as Hs1.
    { apply (sem_ok_frame s s1 sem (ASem 0 (t :: ws)) ws flag); [apply P|done| |cbn; lia]. rewrite (wo_queues _ _ _ _ P) by done. by rewrite decide_True, El. }
    assert (t ∉ ws) as Hnt by (pose proof (wf_nodup (proj1 Hk) (QSem sem)) as Hd; rewrite El in Hd; by apply NoDup_cons in Hd as [? _]).
    eapply wp_mono; [apply (IH fuel s1); [apply P|apply P|done|lia]|]. intros r s2 (-> & Hk2 & Hc2 & Hs2 & Hl2 & Hr2 & Hk3). split; [done|]. split; [done|]. split; [done|]. split; [done|].
    split; [by rewrite Hl2; apply (kframe_nest s s1 (wo_frame _ _ _ _ P))|]. split.
    + intros u [->|Hu]%elem_of_cons; [|by apply Hr2]. destruct (wo_thread _ _ _ _ P) as (th & th' & _ & E & Hr & _). by apply (kept_runnable s1 s2 t th'); [apply Hk3|..].
    + intros u [Hu1 Hu2]%not_elem_of_cons. eapply kept_trans; [by apply (wo_others _ _ _ _ P)|by apply Hk3].
Qed.

(** The end of a work.  When the function of the current work has returned,
    the thread of the queue has no current work any more and wakes every thread
    that waits in rt_workqueue_cancel_work_sync, however many they are; the
    semaphore is left empty, ready for the next work. *)
Theorem worker_done_correct s n q ws flag fuel :
  kinv (b_k s) -> is_Some (k_current (b_k s)) -> wkq_ok s -> x_queues (b_x s) !! n = Some q -> sem_ok (b_k s) (wq_sem q) (ASem 0 ws) flag ->
  0 <= k_lock_nest (b_k s) < 2 ^ 15 - 1 -> (length ws + 2 <= fuel)%nat ->
  wp (worker_done fuel n) s (fun _ s' => kinv (b_k s') /\ wkq_ok s' /\ x_queues (b_x s') = <[n := set_work_current None q]> (x_queues (b_x s)) /\ x_works (b_x s') = x_works (b_x s) /\
    sem_ok (b_k s') (wq_sem q) (ASem 0 []) flag /\ forall t, t ∈ ws -> running_again (b_k s') t).
Proof.
  intros Hk Hc Hok Hn Hs Hl Hf. destruct s as [k x]. cbn [b_k b_x] in *. unfold worker_done. kstep. apply (wp_get_workq _ q); [done|]. kstep. apply wp_put_workq. set (x1 := set_x_queues _ x).
  pose proof (wkq_ok_current (mkBeside k x) n q None Hok Hn) as Hok1. cbn [b_k b_x] in Hok1. fold x1 in Hok1.
  kstep. unfold _workqueue_work_completion. kstep. eapply wp_get_workq; [apply lookup_insert_eq|]. apply wp_beside_k. unfold rt_enter_critical. kstep. kstep. rewrite i16_small by lia.
  set (k1 := set_k_lock_nest (k_lock_nest k + 1) k). assert (kinv k1) as Hk1 by by apply kinv_lock_nest. kstep. cbn [wq_sem set_work_current].
  eapply wp_mono; [by apply (completion_loop_wp (wq_sem q) flag ws fuel k1)|]. intros r k2 (-> & Hk2 & Hc2 & Hs2 & Hl2 & Hr2 & Hkp).
  kstep. eapply wp_mono; [apply exit_critical_kinv; [done|done|rewrite Hl2; unfold k1; cbn; lia]|]. intros [] k3 (Hk3 & F3 & Hc3). kstep. kstep. cbn [b_k b_x].
  set (k2' := set_k_lock_nest (k_lock_nest k2 - 1) k2) in *. split; [done|]. split; [|split; [done|]; split; [done|]; split].
  - apply (wkq_ok_kept (mkBeside k x1)); [done|]. cbn [b_k]. intros u. destruct (decide (u ∈ ws)) as [Hu|Hu].
    + right. destruct (Hr2 u Hu) as (th & E & Hr). destruct (kept_runnable k2' k3 u th (kept_frame _ _ u F3) E Hr) as (th' & E' & Hr'). exists th'. split; [done|by apply runnable_open].
    + left. eapply kept_trans; [|exact (kept_frame _ _ u F3)]. exact (Hkp u Hu).
  - apply (sem_ok_frame k2' k3 (wq_sem q) (ASem 0 []) [] flag); [by apply sched_kframe|done| |done]. rewrite (sf_queues _ _ F3) by done. by destruct (sem_ok_value _ _ _ _ Hs2).
  - intros t Ht. destruct (Hr2 t Ht) as (th & E & Hr). exact (kept_runnable k2' k3 t th (kept_frame _ _ t F3) E Hr).
Qed.

(** ** Delayed works *)

Definition timer_thread_live (k : kst) : Prop := forall t, k_timer_thread k = Some t -> exists th, k_threads k !! t = Some th /\ st th <> RT_THREAD_CLOSE.
(** The work as a delayed submission leaves it, and as its timer leaves it. *)
Definition delayed (n : nat) (v : rt_work) : rt_work := wk_raise RT_WORK_STATE_SUBMITTING (set_wk_workqueue (Some n) (set_wk_type (Z.lor (wk_type v) RT_WORK_TYPE_DELAYED) v)).
Definition elapsed (v : rt_work) : rt_work := set_wk_type (Z.ldiff (wk_type v) RT_WORK_TYPE_DELAYED) (wk_clear RT_WORK_STATE_SUBMITTING v).

Lemma has_delayed t : wk_has (Z.lor t RT_WORK_TYPE_DELAYED) RT_WORK_TYPE_DELAYED = true.
Proof. unfold wk_has. rewrite Z.land_lor_distr_l. apply negb_true_iff, Z.eqb_neq. intros H. apply Z.lor_eq_0_iff in H as [_ H]. done. Qed.
Lemma work_name_ok : rt_strncpy RT_NAME_MAX work_name = Some (padded RT_NAME_MAX [119; 111; 114; 107]).
Proof. by apply (rt_strncpy_ok RT_NAME_MAX [119; 111; 114; 107]); repeat constructor. Qed.

Lemma submit_delayed_wp s n w v time :
  new_timer (b_k s) (wk_timer v) -> timer_thread_live (b_k s) -> wkq_ok s -> x_works (b_x s) !! w = Some v -> wk_workqueue v = None -> 0 < time < TICK_HALF ->
  wp (rt_workqueue_submit_work n w time) s (fun r s' => r = RT_EOK /\ kinv (b_k s') /\ is_Some (k_current (b_k s')) /\ wkq_ok s' /\ b_x s' = set_x_works (<[w := delayed n v]> (x_works (b_x s))) (b_x s) /\
    TmUser (wk_timer v) ∈ k_soft_timer_list (b_k s') /\ ticks_left (b_k s') (TmUser (wk_timer v)) = time /\
    exists ob, k_objects (b_k s') !! OTimer (TmUser (wk_timer v)) = Some ob /\ o_type ob = Z.lor RT_Object_Class_Timer RT_Object_Class_Static).
Proof.
  intros Hnt Htt Hok Hw Hq Ht. destruct s as [k x]. cbn [b_k b_x] in *. unfold rt_workqueue_submit_work. rewrite (proj2 (Z.ltb_lt 0 time)) by lia. unfold when. kstep. apply (wp_mod_work _ v); [done|].
  set (v1 := set_wk_type _ v). kstep. apply (wp_get_work _ v1); [apply lookup_insert_eq|]. change (wk_type v1) with (Z.lor (wk_type v) RT_WORK_TYPE_DELAYED). rewrite has_delayed.
  unfold _workqueue_submit_delayed_work. kstep. apply (wp_get_work _ v1); [apply lookup_insert_eq|]. change (wk_workqueue v1) with (wk_workqueue v). rewrite Hq. rewrite bool_decide_false by (by intros []). cbn [andb].
  rewrite bool_decide_false by done. kstep. kstep. change (RT_EOK <? 0) with false. cbv iota. kstep. apply (wp_mod_work _ v1); [apply lookup_insert_eq|]. kstep. eapply wp_get_work; [apply lookup_insert_eq|].
  rewrite (proj2 (Z.eqb_neq time 0)) by lia. kstep. eapply wp_mod_work; [apply lookup_insert_eq|]. cbn [set_x_works x_works x_queues]. rewrite !insert_insert_eq. change (wk_raise _ _) with (delayed n v). kstep. apply wp_beside_k.
  change (wk_timer (set_wk_workqueue (Some n) v1)) with (wk_timer v). kstep. eapply wp_mono; [by apply (rt_timer_init_user k (wk_timer v) work_name _ (delayed_work_timeout w) time (Z.lor RT_TIMER_FLAG_ONE_SHOT RT_TIMER_FLAG_SOFT_TIMER) Hnt work_name_ok)|].
  intros _ k1 (Hk1 & Hc1 & U & Ea & Ett & Etk & Hkp). eapply wp_mono; [apply (rt_timer_start_user k1 _ _ _ Hk1 Hc1 U)|].
  - done.
  - cbn. lia.
  - rewrite Ett. intros t E. destruct (Htt t E) as (th & E1 & E2). by eapply kept_open.
  - intros r k2 (-> & Hk2 & Hc2 & Hin & Hleft & Hob & Hopen). kstep. cbn [b_k b_x]. split; [done|]. split; [done|]. split; [done|]. split; [|done].
    apply (wkq_ok_kept (mkBeside k1 (set_x_works (<[w := delayed n v]> (x_works x)) x))); [|intros u; destruct (Hopen u) as [?|(_ & _ & _ & th & ? & ?)]; [by left|right; eauto using runnable_open]]. apply (wkq_ok_kept (mkBeside k (set_x_works (<[w := delayed n v]> (x_works x)) x))); [|intros u; left; apply Hkp].
    by apply (wkq_ok_works (mkBeside k x)).
Qed.

Lemma timeout_handler_wp s n w q v ob :
  kinv (b_k s) -> is_Some (k_current (b_k s)) -> wkq_ok s -> x_queues (b_x s) !! n = Some q -> x_works (b_x s) !! w = Some v -> wk_workqueue v = Some n ->
  k_objects (b_k s) !! OTimer (TmUser (wk_timer v)) = Some ob -> o_type ob = Z.lor RT_Object_Class_Timer RT_Object_Class_Static ->
  wp (_delayed_work_timeout_handler w) s (fun _ s' => kinv (b_k s') /\ wkq_ok s' /\
    exists k1 r, k_threads k1 = k_threads (b_k s) /\ submit_result (mkBeside k1 (set_x_works (<[w := elapsed v]> (x_works (b_x s))) (b_x s))) n w q (elapsed v) r s').
Proof.
  intros Hk Hc Hok Hn Hw Hq Eo Hty. destruct s as [k x]. cbn [b_k b_x] in *. unfold _delayed_work_timeout_handler. kstep. apply (wp_get_work _ v); [done|]. kstep. apply wp_beside_k.
  eapply wp_mono; [by apply (stop_detach_user k (wk_timer v) ob)|]. intros r k1 (Hk1 & _ & _ & F1 & F2 & F3 & _). kstep. apply (wp_mod_work _ v); [done|]. kstep. eapply wp_mod_work; [apply lookup_insert_eq|].
  cbn [set_x_works x_works x_queues]. rewrite insert_insert_eq. change (set_wk_type _ _) with (elapsed v). kstep. eapply wp_get_work; [apply lookup_insert_eq|]. change (wk_workqueue (elapsed v)) with (wk_workqueue v). rewrite Hq. kstep.
  match goal with |- wp _ (mkBeside _ ?y) _ => change y with (set_x_works (<[w := elapsed v]> (x_works x)) x) end. set (x1 := set_x_works _ x). assert (wkq_ok (mkBeside k1 x1)) as Hok1.
  { apply (wkq_ok_kept (mkBeside k x1)); [by apply (wkq_ok_works (mkBeside k x))|]. intros u. left. cbn [b_k]. unfold kept. rewrite F1. apply option_Forall2_refl_step. }
  eapply wp_mono; [apply (submit_wp (mkBeside k1 x1) n w q (elapsed v)); [done|cbn; by rewrite F3|done|done|cbn; apply lookup_insert_eq]|]. intros r' s' (Hk' & Hc' & Hok' & R). kstep. split; [done|]. split; [done|].
  exists k1, r'. by split.
Qed.

(** Delayed works.  A work that is in no queue and is submitted with a time is
    attached to its queue and marked, and its timer is started: a soft timer, due
    after exactly that time, whose function submits the work to that queue.  The
    invariants of the kernel and of the queues are kept. *)
Theorem delayed_work_correct s n w q v time :
  new_timer (b_k s) (wk_timer v) -> timer_thread_live (b_k s) -> wkq_ok s -> x_works (b_x s) !! w = Some v -> wk_workqueue v = None -> 0 < time < TICK_HALF -> x_queues (b_x s) !! n = Some q ->
  wp (rt_workqueue_submit_work n w time) s (fun r s' => r = RT_EOK /\ kinv (b_k s') /\ wkq_ok s' /\ b_x s' = set_x_works (<[w := delayed n v]> (x_works (b_x s))) (b_x s) /\
    TmUser (wk_timer v) ∈ k_soft_timer_list (b_k s') /\ ticks_left (b_k s') (TmUser (wk_timer v)) = time /\
    wp (_delayed_work_timeout_handler w) s' (fun _ s'' => kinv (b_k s'') /\ wkq_ok s'' /\
      exists k1 r, k_threads k1 = k_threads (b_k s') /\ submit_result (mkBeside k1 (set_x_works (<[w := elapsed (delayed n v)]> (x_works (b_x s))) (b_x s))) n w q (elapsed (delayed n v)) r s'')).
Proof.
  intros Hnt Htt Hok Hw Hq Ht Hn. eapply wp_mono; [by apply (submit_delayed_wp s n w v time)|]. intros r [k' x'] (-> & Hk & Hc & Hok' & Ex & Hin & Hleft & ob & Eo & Hty). cbn [b_k b_x] in *. subst x'. split_and!; try done.
  eapply wp_mono; [apply (timeout_handler_wp _ n w q (delayed n v) ob); [done|done|done|done|cbn; apply lookup_insert_eq|done|done|done]|]. intros [] s'' (H1 & H2 & k1 & r & E & R). split; [done|]. split; [done|]. exists k1, r. split; [done|].
  cbn [b_x b_k] in R. cbn [set_x_works x_works x_queues] in R. rewrite insert_insert_eq in R. exact R.
Qed.

(** ** Where it goes wrong *)

(** A work that is submitted and cancelled before the thread of the queue ran
    crashes the queue.  With no work listed and none running, both calls return
    RT_EOK and the thread, which slept, is runnable; it does not look at the list
    again and takes the head of the list itself for a work. *)
Theorem submit_cancel_undefined s n w q v th :
  kinv (b_k s) -> is_Some (k_current (b_k s)) -> wkq_ok s -> x_queues (b_x s) !! n = Some q -> wq_work_list q = [] -> wq_work_current q = None ->
  x_works (b_x s) !! w = Some v -> wk_flags v = 0 -> wk_type v = 0 ->
  k_threads (b_k s) !! wq_work_thread q = Some th -> st th = RT_THREAD_SUSPEND ->
  exists s', (r1 <- rt_workqueue_submit_work n w 0 ;; r2 <- rt_workqueue_cancel_work n w ;; ret (r1, r2)) s = Ok (RT_EOK, RT_EOK) s' /\
    running_again (b_k s') (wq_work_thread q) /\ worker_take n s' = UB.
Proof.
  intros Hk Hc Hok Hn Hl Hcur Hw Hf Hty Ht Hst.
  assert (wp (r1 <- rt_workqueue_submit_work n w 0 ;; r2 <- rt_workqueue_cancel_work n w ;; ret (r1, r2)) s (fun r s' => r = (RT_EOK, RT_EOK) /\
    running_again (b_k s') (wq_work_thread q) /\ exists q', x_queues (b_x s') !! n = Some q' /\ wq_work_list q' = [])) as H.
  { unfold rt_workqueue_submit_work. kstep. unfold when. change (0 <? 0) with false. cbv iota. kstep. kstep. kstep. destruct s as [k x]. cbn [b_k b_x] in *. apply (wp_get_work _ v); [done|]. rewrite Hty. change (wk_has 0 RT_WORK_TYPE_DELAYED) with false. cbv iota.
    eapply wp_mono; [by apply (submit_wp (mkBeside k x) n w q v)|]. intros r s1 (Hk1 & Hc1 & Hok1 & R). unfold submit_result in R. rewrite Hf, Hcur in R. change (wk_has 0 RT_WORK_STATE_PENDING) with false in R. rewrite bool_decide_false in R by done. cbn [orb] in R.
    destruct R as (-> & Hwk & Ex). destruct s1 as [k1 x1]. cbn [b_k b_x] in *. assert (x_works x1 !! w = Some (wk_raise RT_WORK_STATE_PENDING v)) as Hw1 by (rewrite Ex; cbn; apply lookup_insert_eq).
    assert (x_queues x1 !! n = Some (set_work_list [w] q)) as Hn1 by (rewrite Ex; cbn; by rewrite lookup_insert_eq, Hl).
    kstep. unfold rt_workqueue_cancel_work. kstep. apply (wp_get_work _ (wk_raise RT_WORK_STATE_PENDING v)); [done|]. change (wk_type (wk_raise RT_WORK_STATE_PENDING v)) with (wk_type v). rewrite Hty. change (wk_has 0 RT_WORK_TYPE_DELAYED) with false. cbv iota.
    eapply wp_mono; [by apply (cancel_wp (mkBeside k1 x1) n w (set_work_list [w] q) (wk_raise RT_WORK_STATE_PENDING v))|]. intros r s2 (Hok2 & R2). cbn [set_work_list wq_work_current] in R2. rewrite Hcur, bool_decide_false in R2 by done. destruct R2 as [-> ->].
    kstep. split; [done|]. cbn [b_k b_x]. split.
    - unfold worker_woken in Hwk. rewrite Hcur in Hwk. destruct Hwk as (th0 & E0 & A). simplify_eq. pose proof (aw_thread _ _ _ _ A) as Hth. rewrite Hst, Z.eqb_refl in Hth. destruct Hth as (th' & E & Hr & _). by exists th'.
    - cbn. rewrite lookup_fmap, Hn1. eexists. split; [done|]. cbn. by rewrite decide_False by tauto. }
  destruct (wp_run _ _ _ H) as (r & s' & E & -> & Hr & q' & Hq' & Hl'). exists s'. split; [done|]. split; [done|].
  unfold worker_take, get_workq, in_x, zoom, bind, deref. by rewrite Hq', Hl'.
Qed.

Lemma remove_nodes_wp l : forall k x, wp (remove_nodes l) (mkBeside k x) (fun _ s' => b_k s' = k /\ x_works (b_x s') = x_works x /\
  x_queues (b_x s') = (fun q => set_work_list (filter (fun v => v ∉ l) (wq_work_list q)) q) <$> x_queues x).
Proof.
  induction l as [|w l IH]; intros k x; cbn [remove_nodes].
  - kstep. split_and!; [done|done|]. cbn. rewrite <- (map_fmap_id (x_queues x)) at 1. apply map_fmap_ext. intros n q _. cbn. unfold set_work_list. destruct q as [ql ? ? ?]. cbn. f_equal.
    symmetry. apply filter_none. intros t _ Ht. by apply elem_of_nil in Ht.
  - kstep. apply wp_list_remove. eapply wp_mono; [apply IH|]. intros [] s' (-> & -> & ->). split_and!; [done|done|]. cbn [set_x_queues x_queues]. rewrite <- map_fmap_compose. apply map_fmap_ext. intros n q _. cbn.
    unfold list_without, set_work_list. cbn. f_equal. unfold without. rewrite list_filter_filter. apply list_filter_iff. intros v. rewrite not_elem_of_cons. tauto.
Qed.

(** Rt_workqueue_cancel_all_work forgets the state of the works.  It empties
    the list, but a work that was pending keeps its flag: every later attempt to
    submit it is refused with -RT_EBUSY although it is in no list. *)
Theorem cancel_all_blocks_works s n q w v :
  kinv (b_k s) -> is_Some (k_current (b_k s)) -> 0 <= k_lock_nest (b_k s) < 2 ^ 15 - 1 -> wkq_ok s -> x_queues (b_x s) !! n = Some q ->
  w ∈ wq_work_list q -> x_works (b_x s) !! w = Some v -> wk_has (wk_flags v) RT_WORK_STATE_PENDING = true ->
  wp (rt_workqueue_cancel_all_work n) s (fun r s' => r = RT_EOK /\ kinv (b_k s') /\ x_queues (b_x s') = <[n := set_work_list [] q]> (x_queues (b_x s)) /\
    rt_workqueue_dowork n w s' = Ok (- RT_EBUSY) s').
Proof.
  intros Hk Hc Hl Hok Hn Hin Hw Hp. destruct s as [k x]. cbn [b_k b_x] in *. unfold rt_workqueue_cancel_all_work. kstep. apply wp_beside_k. unfold rt_enter_critical. kstep. rewrite i16_small by lia.
  set (k1 := set_k_lock_nest (k_lock_nest k + 1) k). assert (kinv k1) as Hk1 by by apply kinv_lock_nest. kstep. apply (wp_get_workq _ q); [done|]. kstep. eapply wp_mono; [apply remove_nodes_wp|]. intros [] s1 (E1 & E2 & E3).
  destruct s1 as [k1' x1]. cbn [b_k b_x] in *. subst k1'. kstep. apply wp_beside_k. eapply wp_mono; [apply exit_critical_kinv; [done|done|unfold k1; cbn; lia]|]. intros [] k2 (Hk2 & F & Hc2). kstep. cbn [b_k b_x].
  split; [done|]. split; [done|]. split.
  - rewrite E3. apply map_eq. intros m. rewrite lookup_fmap. destruct (decide (m = n)) as [->|Hm]; [rewrite lookup_insert_eq, Hn; cbn; do 2 f_equal; apply filter_self|]. rewrite lookup_insert_ne by done.
    destruct (x_queues x !! m) as [r|] eqn:E; [|done]. cbn. f_equal. rewrite filter_none; [by destruct r|]. intros u Hu Hu'. apply Hm. by apply (ko_one _ Hok m n r q u).
  - unfold rt_workqueue_dowork, _workqueue_submit_work, get_work, in_x, zoom, bind, deref. cbn. by rewrite E2, Hw, Hp.
Qed.

Lemma worker_sleep_wp k x n c th : kinv k -> caller k c th ->
  wp (worker_sleep n) (mkBeside k x) (fun t s' => t = c /\ b_x s' = x /\ parked k (b_k s') c th (-1)).
Proof.
  intros Hk Hca. unfold worker_sleep. kstep. apply wp_beside_k. unfold rt_thread_self. kstep. rewrite (ca_current _ _ _ Hca). kstep. apply (wp_deref _ c); [done|]. kstep. apply wp_beside_k.
  assert (wp (rt_thread_suspend c ;; rt_schedule) k (fun _ s' => parked k s' c th (-1))) as H by exact (park_end_wp k c th (-1) Hk Hca ltac:(by rewrite TICK_HALF_val)).
  eapply wp_mono; [exact H|]. intros [] k' P. by kstep.
Qed.

(** A work can be submitted and not run.  When it is submitted after the
    thread of the queue has found the list empty and before that thread is
    suspended, the thread goes to sleep for ever with the work in its list: nobody
    wakes it before another work is submitted, and this one is refused. *)
Theorem submit_missed s n w q v c th :
  kinv (b_k s) -> is_Some (k_current (b_k s)) -> wkq_ok s -> x_queues (b_x s) !! n = Some q -> wq_work_list q = [] -> wq_work_current q = None ->
  x_works (b_x s) !! w = Some v -> wk_flags v = 0 -> wq_work_thread q = c -> k_threads (b_k s) !! c = Some th -> runnable th ->
  worker_test n s = Ok true s /\
  wp (rt_workqueue_dowork n w) s (fun r s1 => r = RT_EOK /\ running_again (b_k s1) c /\
    forall k th', kinv k -> caller k c th' -> wp (worker_sleep n) (mkBeside k (b_x s1)) (fun _ s2 => parked k (b_k s2) c th' (-1) /\
      (exists q', x_queues (b_x s2) !! n = Some q' /\ wq_work_list q' = [w]) /\ rt_workqueue_dowork n w s2 = Ok (- RT_EBUSY) s2)).
Proof.
  intros Hk Hc Hok Hn Hl Hcur Hw Hf Hq Ht Hr. destruct s as [k x]. cbn [b_k b_x] in *. split.
  { unfold worker_test, get_workq, in_x, zoom, bind, deref. cbn. rewrite Hn. cbn. by rewrite bool_decide_true. }
  eapply wp_mono; [by apply (submit_wp (mkBeside k x) n w q v)|]. intros r s1 (Hk1 & Hc1 & Hok1 & R). unfold submit_result in R. rewrite Hf, Hcur in R. change (wk_has 0 RT_WORK_STATE_PENDING) with false in R. rewrite bool_decide_false in R by done. cbn [orb] in R.
  destruct R as (-> & Hwk & Ex). split; [done|]. cbn [b_k b_x] in *. unfold worker_woken in Hwk. rewrite Hcur, Hq in Hwk. destruct Hwk as (th0 & E0 & A). simplify_eq. split.
  { pose proof (aw_thread _ _ _ _ A) as Hth. destruct (Z.eqb_spec (st th) RT_THREAD_SUSPEND); [destruct Hth as (th' & E & Hr' & _); by exists th'|]. by eapply kept_runnable. }
  intros k2 th' Hk2 Hca. eapply wp_mono; [by apply worker_sleep_wp|]. intros t [k3 x3] (-> & Ex3 & P). cbn [b_k b_x] in *. split; [done|]. subst x3. rewrite Ex. split.
  - eexists. split; [cbn; apply lookup_insert_eq|]. cbn. by rewrite Hl.
  - unfold rt_workqueue_dowork, _workqueue_submit_work, get_work, in_x, zoom, bind, deref. cbn. rewrite lookup_insert_eq. cbn. by rewrite Hf.
Qed.

(** A delayed submission of a work that is already pending ends in a null
    pointer.  Both calls return RT_EOK; the thread of the queue takes the work and
    clears its workqueue, and when the timer fires its function submits the work
    to the queue at address zero. *)
Theorem delayed_work_null_queue s n w c q v time :
  new_timer (b_k s) (wk_timer v) -> timer_thread_live (b_k s) -> wkq_ok s -> x_queues (b_x s) !! n = Some q -> wq_work_list q = [] -> wq_work_current q = Some c -> c <> w ->
  x_works (b_x s) !! w = Some v -> wk_flags v = 0 -> wk_type v = 0 -> wk_workqueue v = None -> 0 < time < TICK_HALF ->
  exists s1 s2, (r1 <- rt_workqueue_submit_work n w 0 ;; r2 <- rt_workqueue_submit_work n w time ;; ret (r1, r2)) s = Ok (RT_EOK, RT_EOK) s1 /\
    worker_take n s1 = Ok w s2 /\ _delayed_work_timeout_handler w s2 = UB.
Proof.
  intros Hnt Htt Hok Hn Hl Hcur Hne Hw Hf Hty Hq Ht. pose proof Hnt as [Hk Hc _ _ _]. destruct s as [k x]. cbn [b_k b_x] in *. set (v1 := wk_raise RT_WORK_STATE_PENDING v). set (q1 := set_work_list [w] q).
  assert (wp (r1 <- rt_workqueue_submit_work n w 0 ;; r2 <- rt_workqueue_submit_work n w time ;; ret (r1, r2)) (mkBeside k x) (fun r s1 => r = (RT_EOK, RT_EOK) /\ wkq_ok s1 /\ kinv (b_k s1) /\
    x_queues (b_x s1) !! n = Some q1 /\ x_works (b_x s1) !! w = Some (delayed n v1) /\
    exists ob, k_objects (b_k s1) !! OTimer (TmUser (wk_timer v)) = Some ob /\ o_type ob = Z.lor RT_Object_Class_Timer RT_Object_Class_Static)) as H.
  { kstep. unfold rt_workqueue_submit_work at 1, when. change (0 <? 0) with false. cbv iota. kstep. kstep. kstep. apply (wp_get_work _ v); [done|]. rewrite Hty. change (wk_has 0 RT_WORK_TYPE_DELAYED) with false. cbv iota.
    eapply wp_mono; [by apply (submit_wp (mkBeside k x) n w q v)|]. intros r s1 (_ & _ & Hok1 & R). unfold submit_result in R. rewrite Hf in R. change (wk_has 0 RT_WORK_STATE_PENDING) with false in R.
    rewrite bool_decide_false in R by (rewrite Hcur; congruence). cbn [orb] in R. destruct R as (-> & Hwk & Ex). unfold worker_woken in Hwk. rewrite Hcur in Hwk. destruct s1 as [k1 x1]. cbn [b_k b_x] in *. subst k1.
    assert (x_works x1 !! w = Some v1) as Hw1 by (rewrite Ex; cbn; apply lookup_insert_eq). assert (x_queues x1 !! n = Some q1) as Hn1 by (rewrite Ex; cbn; by rewrite lookup_insert_eq, Hl).
    kstep. eapply wp_mono; [by apply (submit_delayed_wp (mkBeside k x1) n w v1 time)|]. intros r s2 (-> & Hk2 & _ & Hok2 & Ex2 & _ & _ & Hob). kstep. rewrite Ex2. split_and!; try done. cbn. apply lookup_insert_eq. }
  destruct (wp_run _ _ _ H) as (r & s1 & E & -> & Hok1 & Hk1 & Hn1 & Hw1 & ob & Eo & Eob). pose proof (worker_take_wp s1 n q1 Hok1 Hn1) as Htk. cbn [q1 set_work_list wq_work_list] in Htk.
  destruct Htk as (v2 & Ev & Etk & _). rewrite Hw1 in Ev. injection Ev as <-. eexists s1, _. split; [exact E|]. split; [exact Etk|]. set (v3 := set_wk_workqueue None _).
  destruct (wp_run _ _ _ (stop_detach_user (b_k s1) (wk_timer v) ob Hk1 Eo Eob)) as (r' & k2 & Ed & _). unfold _delayed_work_timeout_handler. set (x2 := mkWkqs _ _ _).
  assert (x_works x2 !! w = Some v3) as Hw2 by apply lookup_insert_eq. set (v4 := wk_clear RT_WORK_STATE_SUBMITTING v3). set (v5 := elapsed v3).
  rewrite (bind_ok _ _ _ v3 (mkBeside (b_k s1) x2)) by (unfold get_work, in_x, zoom, deref; cbn [b_k b_x]; by rewrite Hw2).
  rewrite (bind_ok _ _ _ r' (mkBeside k2 x2)) by (unfold in_k, zoom; cbn [b_k b_x]; change (wk_timer v3) with (wk_timer v); by rewrite Ed).
  rewrite (bind_ok _ _ _ tt (mkBeside k2 (set_x_works (<[w := v4]> (x_works x2)) x2))) by (unfold mod_work, get_work, in_x, zoom, bind, deref; cbn [b_k b_x]; by rewrite Hw2).
  rewrite (bind_ok _ _ _ tt (mkBeside k2 (set_x_works (<[w := v5]> (<[w := v4]> (x_works x2))) x2))) by (unfold mod_work, get_work, in_x, zoom, bind, deref; cbn [b_k b_x set_x_works x_works]; by rewrite lookup_insert_eq).
  assert (forall y, y = set_x_works (<[w := v5]> (<[w := v4]> (x_works x2))) x2 -> x_works y !! w = Some v5) as Hw5 by (intros y ->; apply lookup_insert_eq). specialize (Hw5 _ eq_refl). set (x5 := set_x_works _ x2) in *.
  unfold _workqueue_submit_work, get_work, in_x, zoom, bind, deref. cbn [b_k b_x]. rewrite Hw5. cbn [b_k b_x]. rewrite Hw5.
  replace (wk_has (wk_flags v5) RT_WORK_STATE_PENDING) with false; [done|]. unfold v5, v3, v1. cbn. by rewrite Hf.
Qed.

(** ** Witnesses *)

(** Queue 0 has thread 3, which sleeps; queue 1 thread 2, which is runnable, and a
    work that runs; work 0 is free, work 1 pending in queue 1, work 2 runs. *)
Definition sample_works : beside workqueues := mkBeside sample
  (mkWkqs {[ 0%nat := mkWorkq [] None 0 3; 1%nat := mkWorkq [1%nat] (Some 2%nat) 0 2; 2%nat := mkWorkq [] None 0 2 ]}
     {[ 0%nat := mkWork 11 12 0 0 9 None; 1%nat := mkWork 11 13 RT_WORK_STATE_PENDING 0 10 None; 2%nat := mkWork 11 14 0 0 11 None ]} (Some 1%nat)).
Lemma sample_works_cases n q : x_queues (b_x sample_works) !! n = Some q ->
  (n = 0%nat /\ q = mkWorkq [] None 0 3) \/ (n = 1%nat /\ q = mkWorkq [1%nat] (Some 2%nat) 0 2) \/ (n = 2%nat /\ q = mkWorkq [] None 0 2).
Proof.
  cbn [sample_works b_x x_queues]. rewrite !lookup_insert. case_decide as E; [subst; intros [= <-]; by left|]. case_decide as E1; [subst; intros [= <-]; right; by left|].
  rewrite lookup_singleton. case_decide as E2; [|done]. subst. intros [= <-]. right. by right.
Qed.
Lemma sample_works_ok : wkq_ok sample_works.
Proof.
  split.
  - intros n q w Hn Hw. destruct (sample_works_cases n q Hn) as [[-> ->]|[[-> ->]|[-> ->]]]; cbn in Hw; [by apply elem_of_nil in Hw| |by apply elem_of_nil in Hw]. apply list_elem_of_singleton in Hw as ->. by eexists.
  - intros n q Hn. destruct (sample_works_cases n q Hn) as [[-> ->]|[[-> ->]|[-> ->]]]; [apply NoDup_nil_2|apply NoDup_singleton|apply NoDup_nil_2].
  - intros n n' q q' w Hn Hn' Hw Hw'. destruct (sample_works_cases n q Hn) as [[-> ->]|[[-> ->]|[-> ->]]]; cbn in Hw; [by apply elem_of_nil in Hw| |by apply elem_of_nil in Hw].
    destruct (sample_works_cases n' q' Hn') as [[-> ->]|[[-> ->]|[-> ->]]]; cbn in Hw'; [by apply elem_of_nil in Hw'|done|by apply elem_of_nil in Hw'].
  - intros n q Hn. destruct (sample_works_cases n q Hn) as [[-> ->]|[[-> ->]|[-> ->]]]; by eexists.
Qed.

Lemma rt_workqueue_dowork_correct_witness :
  wp (rt_workqueue_dowork 0 0) sample_works (fun r s' => kinv (b_k s') /\ wkq_ok s' /\ submit_result sample_works 0 0 (mkWorkq [] None 0 3) (mkWork 11 12 0 0 9 None) r s').
Proof. exact (rt_workqueue_dowork_correct sample_works 0 0 _ _ sample_kinv ltac:(by eexists) sample_works_ok eq_refl eq_refl). Defined.
Lemma worker_take_correct_witness : exists v, x_works (b_x sample_works) !! 1%nat = Some v /\
  let s' := mkBeside sample (mkWkqs (<[1%nat := mkWorkq [] (Some 1%nat) 0 2]> (x_queues (b_x sample_works)))
              (<[1%nat := set_wk_workqueue None (wk_clear RT_WORK_STATE_PENDING v)]> (x_works (b_x sample_works))) (Some 1%nat)) in
  worker_take 1 sample_works = Ok 1%nat s' /\ wkq_ok s'.
Proof. exact (worker_take_correct sample_works 1 _ sample_works_ok eq_refl). Defined.
Lemma worker_done_correct_witness :
  wp (worker_done 3 1) sample_works (fun _ s' => kinv (b_k s') /\ wkq_ok s' /\ x_queues (b_x s') = <[1%nat := mkWorkq [1%nat] None 0 2]> (x_queues (b_x sample_works)) /\
    x_works (b_x s') = x_works (b_x sample_works) /\ sem_ok (b_k s') 0 (ASem 0 []) RT_IPC_FLAG_FIFO /\ forall t, t ∈ [3%nat] -> running_again (b_k s') t).
Proof. exact (worker_done_correct sample_works 1 _ [3%nat] _ 3 sample_kinv ltac:(by eexists) sample_works_ok eq_refl sample_sem ltac:(by split) ltac:(cbn; lia)). Defined.
Lemma submit_cancel_undefined_witness :
  exists s', (r1 <- rt_workqueue_submit_work 0 0 0 ;; r2 <- rt_workqueue_cancel_work 0 0 ;; ret (r1, r2)) sample_works = Ok (RT_EOK, RT_EOK) s' /\
    running_again (b_k s') 3 /\ worker_take 0 s' = UB.
Proof.
  exact (submit_cancel_undefined sample_works 0 0 _ _ (sample_thread 5 RT_THREAD_SUSPEND) sample_kinv ltac:(by eexists) sample_works_ok eq_refl eq_refl eq_refl eq_refl eq_refl eq_refl eq_refl eq_refl).
Defined.
Lemma cancel_all_blocks_works_witness :
  wp (rt_workqueue_cancel_all_work 1) sample_works (fun r s' => r = RT_EOK /\ kinv (b_k s') /\
    x_queues (b_x s') = <[1%nat := mkWorkq [] (Some 2%nat) 0 2]> (x_queues (b_x sample_works)) /\ rt_workqueue_dowork 1 1 s' = Ok (- RT_EBUSY) s').
Proof. exact (cancel_all_blocks_works sample_works 1 _ 1 _ sample_kinv ltac:(by eexists) ltac:(by split) sample_works_ok eq_refl ltac:(left) eq_refl eq_refl). Defined.
Lemma submit_missed_witness :
  worker_test 2 sample_works = Ok true sample_works /\
  wp (rt_workqueue_dowork 2 0) sample_works (fun r s1 => r = RT_EOK /\ running_again (b_k s1) 2 /\
    forall k th', kinv k -> caller k 2 th' -> wp (worker_sleep 2) (mkBeside k (b_x s1)) (fun _ s2 => parked k (b_k s2) 2 th' (-1) /\
      (exists q', x_queues (b_x s2) !! 2%nat = Some q' /\ wq_work_list q' = [0%nat]) /\ rt_workqueue_dowork 2 0 s2 = Ok (- RT_EBUSY) s2)).
Proof.
  exact (submit_missed sample_works 2 0 _ _ 2 (sample_thread 10 RT_THREAD_READY) sample_kinv ltac:(by eexists) sample_works_ok eq_refl eq_refl eq_refl eq_refl eq_refl eq_refl eq_refl ltac:(by left)).
Defined.
Lemma sample_new_timer : new_timer sample 9.
Proof.
  split; [exact sample_kinv|by eexists|done| |].
  - intros H. destruct (ci_header _ sample_cinv _ _ H) as (ob & l & E & _). vm_compute in E. done.
  - cbn. by intros H; repeat (apply elem_of_cons in H as [H|H]); try apply elem_of_nil in H.
Qed.
Lemma delayed_work_correct_witness :
  wp (rt_workqueue_submit_work 0 0 10) sample_works (fun r s' => r = RT_EOK /\ kinv (b_k s') /\ wkq_ok s' /\
    b_x s' = set_x_works (<[0%nat := delayed 0 (mkWork 11 12 0 0 9 None)]> (x_works (b_x sample_works))) (b_x sample_works) /\
    TmUser 9 ∈ k_soft_timer_list (b_k s') /\ ticks_left (b_k s') (TmUser 9) = 10 /\
    wp (_delayed_work_timeout_handler 0) s' (fun _ s'' => kinv (b_k s'') /\ wkq_ok s'' /\
      exists k1 r, k_threads k1 = k_threads (b_k s') /\
        submit_result (mkBeside k1 (set_x_works (<[0%nat := elapsed (delayed 0 (mkWork 11 12 0 0 9 None))]> (x_works (b_x sample_works))) (b_x sample_works))) 0 0 (mkWorkq [] None 0 3) (elapsed (delayed 0 (mkWork 11 12 0 0 9 None))) r s'')).
Proof. exact (delayed_work_correct sample_works 0 0 (mkWorkq [] None 0 3) (mkWork 11 12 0 0 9 None) 10 sample_new_timer ltac:(done) sample_works_ok eq_refl eq_refl ltac:(by rewrite TICK_HALF_val) eq_refl). Defined.
(** Queue 0 with a work that runs. *)
Definition sample_busy : beside workqueues := mkBeside sample (set_x_queues (<[0%nat := mkWorkq [] (Some 2%nat) 0 3]> (x_queues (b_x sample_works))) (b_x sample_works)).
Lemma sample_busy_ok : wkq_ok sample_busy.
Proof. exact (wkq_ok_current sample_works 0 (mkWorkq [] None 0 3) (Some 2%nat) sample_works_ok eq_refl). Qed.
Lemma delayed_work_null_queue_witness :
  exists s1 s2, (r1 <- rt_workqueue_submit_work 0 0 0 ;; r2 <- rt_workqueue_submit_work 0 0 10 ;; ret (r1, r2)) sample_busy = Ok (RT_EOK, RT_EOK) s1 /\
    worker_take 0 s1 = Ok 0%nat s2 /\ _delayed_work_timeout_handler 0 s2 = UB.
Proof.
  exact (delayed_work_null_queue sample_busy 0 0 2 (mkWorkq [] (Some 2%nat) 0 3) (mkWork 11 12 0 0 9 None) 10 sample_new_timer ltac:(done) sample_busy_ok eq_refl eq_refl eq_refl ltac:(done) eq_refl eq_refl eq_refl eq_refl ltac:(by rewrite TICK_HALF_val)).
Defined.
