(* ===== verification/Device.v ===== *)
(** * Devices (src/device.c)

    A device is a kernel object with handlers of a driver.  device.c keeps the
    registry, counts the openings and decides when a handler is called.  The
    drivers are not part of it: their handlers are arguments ([rt_device_ops]),
    computations on the whole state, with a world [W] of their own; what the
    theorems need of them is [conforming]. *)

From S2P Require Import Prelude Ffs KState Wf Inv Sched Object Timer Thread TimerRun Sleep Ipc Errno Beside WaitQueue.

Definition RT_DEVICE_FLAG_STANDALONE : Z := 0x008.
Definition RT_DEVICE_FLAG_ACTIVATED : Z := 0x010.
Definition RT_DEVICE_OFLAG_CLOSE : Z := 0x000.
Definition RT_DEVICE_OFLAG_OPEN : Z := 0x008.
Definition RT_DEVICE_OFLAG_MASK : Z := 0xf0f.

(** struct rt_device (header and handlers apart; user_data and device_id are the
    driver's) *)
Record rt_device := mkDev {
  dev_type : Z;
  dev_flag : Z;  (** rt_uint16_t *)
  dev_open_flag : Z;  (** rt_uint16_t *)
  dev_ref_count : Z;  (** rt_uint8_t *)
  dev_rx_indicate : option Z;
  dev_tx_complete : option Z;
  dev_fops : option Z;
  dev_wait_queue : rt_wqueue
}.
Definition set_dev_flag (v : Z) (d : rt_device) : rt_device :=
  mkDev (dev_type d) v (dev_open_flag d) (dev_ref_count d) (dev_rx_indicate d) (dev_tx_complete d) (dev_fops d) (dev_wait_queue d).
Definition set_dev_open_flag (v : Z) (d : rt_device) : rt_device :=
  mkDev (dev_type d) (dev_flag d) v (dev_ref_count d) (dev_rx_indicate d) (dev_tx_complete d) (dev_fops d) (dev_wait_queue d).
Definition set_dev_ref_count (v : Z) (d : rt_device) : rt_device :=
  mkDev (dev_type d) (dev_flag d) (dev_open_flag d) v (dev_rx_indicate d) (dev_tx_complete d) (dev_fops d) (dev_wait_queue d).
Definition set_dev_rx (v : option Z) (d : rt_device) : rt_device :=
  mkDev (dev_type d) (dev_flag d) (dev_open_flag d) (dev_ref_count d) v (dev_tx_complete d) (dev_fops d) (dev_wait_queue d).
Definition set_dev_tx (v : option Z) (d : rt_device) : rt_device :=
  mkDev (dev_type d) (dev_flag d) (dev_open_flag d) (dev_ref_count d) (dev_rx_indicate d) v (dev_fops d) (dev_wait_queue d).
Definition set_dev_fops (v : option Z) (d : rt_device) : rt_device :=
  mkDev (dev_type d) (dev_flag d) (dev_open_flag d) (dev_ref_count d) (dev_rx_indicate d) (dev_tx_complete d) v (dev_wait_queue d).
Definition set_dev_wait_queue (v : rt_wqueue) (d : rt_device) : rt_device :=
  mkDev (dev_type d) (dev_flag d) (dev_open_flag d) (dev_ref_count d) (dev_rx_indicate d) (dev_tx_complete d) (dev_fops d) v.

Record dst (W : Type) := mkDst { d_k : kst; d_devs : gmap nat rt_device; d_errno : Z; d_world : W }.
Arguments mkDst {W}.
Arguments d_k {W}.
Arguments d_devs {W}.
Arguments d_errno {W}.
Arguments d_world {W}.

(** [dev->field & mask] is not zero. *)
Definition dev_has (v mask : Z) : bool := negb (Z.land v mask =? 0).

Section device.
Context {W : Type}.
Definition D (A : Type) : Type := M (dst W) A.

(** The handlers of a driver, RT_NULL or not. *)
Record rt_device_ops := mkOps {
  op_init : option (D Z);
  op_open : option (Z -> D Z);
  op_close : option (D Z);
  op_read : option (Z -> Z -> Z -> D Z);
  op_write : option (Z -> Z -> Z -> D Z);
  op_control : option (Z -> Z -> D Z)
}.

Definition set_d_k (k : kst) (s : dst W) : dst W := mkDst k (d_devs s) (d_errno s) (d_world s).
Definition set_d_devs (v : gmap nat rt_device) (s : dst W) : dst W := mkDst (d_k s) v (d_errno s) (d_world s).
Definition set_d_errno (v : Z) (s : dst W) : dst W := mkDst (d_k s) (d_devs s) v (d_world s).
Definition in_dk {A} (m : K A) : D A := zoom d_k set_d_k m.
Definition dev_set_errno : Z -> D unit := rt_set_errno d_k set_d_k set_d_errno.

Definition get_dev (n : nat) : D rt_device := deref (fun s => d_devs s !! n).
Definition mod_dev (n : nat) (f : rt_device -> rt_device) : D unit :=
  d <- get_dev n ;; modify (fun s => set_d_devs (<[n := f d]> (d_devs s)) s).

(** ** The registry *)

Definition rt_device_find (name : list Z) : D (option oid) :=
  in_dk (
    self <- rt_thread_self ;;
    when (bool_decide (is_Some self)) rt_enter_critical ;;
    RT_ASSERT (bool_decide (is_Some (rt_object_get_information RT_Object_Class_Device))) ;;
    l <- gets (fun s => object_list s RT_Object_Class_Device) ;;
    r <- find_named l name ;;
    self <- rt_thread_self ;;
    when (bool_decide (is_Some self)) rt_exit_critical ;;
    ret r).

Definition rt_device_register (dev : option nat) (name : list Z) (flags : Z) : D Z :=
  match dev with
  | None => ret (- RT_ERROR)
  | Some n =>
      found <- rt_device_find name ;;
      if bool_decide (is_Some found) then ret (- RT_ERROR)
      else
        in_dk (rt_object_init (ODevice n) RT_Object_Class_Device name) ;;
        mod_dev n (set_dev_flag flags) ;;
        mod_dev n (set_dev_ref_count 0) ;;
        mod_dev n (set_dev_open_flag 0) ;;
        mod_dev n (set_dev_fops None) ;;
        mod_dev n (set_dev_wait_queue empty_wqueue) ;;
        ret RT_EOK
  end.

Definition rt_device_unregister (n : nat) : D Z :=
  in_dk (
    assert_type (ODevice n) RT_Object_Class_Device ;;
    sys <- rt_object_is_systemobject (ODevice n) ;;
    RT_ASSERT sys ;;
    rt_object_detach (ODevice n) ;;
    ret RT_EOK).

Definition rt_device_init_all : D Z := ret RT_EOK.

(** [malloced]: the device rt_malloc found room for, if it did; rt_memset clears it (its
    waiting list is a list only after rt_device_register). *)
Definition rt_device_create (type : Z) (malloced : option nat) : D (option nat) :=
  match malloced with
  | None => ret None
  | Some n =>
      in_dk (modify (fun k => set_k_objects (<[ODevice n := mkObject (repeat 0 RT_NAME_MAX) 0 0]> (k_objects k)) k)) ;;
      modify (fun s => set_d_devs (<[n := mkDev type 0 0 0 None None None empty_wqueue]> (d_devs s)) s) ;;
      ret (Some n)
  end.

Definition rt_device_destroy (n : nat) : D unit :=
  in_dk (
    assert_type (ODevice n) RT_Object_Class_Device ;;
    sys <- rt_object_is_systemobject (ODevice n) ;;
    RT_ASSERT (negb sys) ;;
    rt_object_detach (ODevice n)) ;;
  modify (fun s => set_d_devs (delete n (d_devs s)) s).

(** ** Handlers *)

Context (ops : rt_device_ops).

Definition rt_device_init (n : nat) : D Z :=
  match op_init ops with
  | None => ret RT_EOK
  | Some init =>
      d <- get_dev n ;;
      if dev_has (dev_flag d) RT_DEVICE_FLAG_ACTIVATED then ret RT_EOK
      else
        result <- init ;;
        when (result =? RT_EOK) (mod_dev n (fun d => set_dev_flag (Z.lor (dev_flag d) RT_DEVICE_FLAG_ACTIVATED) d)) ;;
        ret result
  end.

(** The first part of rt_device_open: the device is initialised, if it is not. *)
Definition open_init (n : nat) : D Z :=
  d <- get_dev n ;;
  if dev_has (dev_flag d) RT_DEVICE_FLAG_ACTIVATED then ret RT_EOK
  else
    result <- (match op_init ops with None => ret RT_EOK | Some init => init end) ;;
    when (result =? RT_EOK) (mod_dev n (fun d => set_dev_flag (Z.lor (dev_flag d) RT_DEVICE_FLAG_ACTIVATED) d)) ;;
    ret result.

(** A handler's result that counts as success. *)
Definition succeeded (result : Z) : bool := (result =? RT_EOK) || (result =? - RT_ENOSYS).

Definition rt_device_open (n : nat) (oflag : Z) : D Z :=
  in_dk (assert_type (ODevice n) RT_Object_Class_Device) ;;
  result <- open_init n ;;
  if negb (result =? RT_EOK) then ret result else
  d <- get_dev n ;;
  if dev_has (dev_flag d) RT_DEVICE_FLAG_STANDALONE && dev_has (dev_open_flag d) RT_DEVICE_OFLAG_OPEN then ret (- RT_EBUSY) else
  result <- (match op_open ops with
             | Some open => open oflag
             | None => mod_dev n (set_dev_open_flag (Z.land oflag RT_DEVICE_OFLAG_MASK)) ;; ret RT_EOK
             end) ;;
  when (succeeded result)
    (mod_dev n (fun d => set_dev_open_flag (Z.lor (dev_open_flag d) RT_DEVICE_OFLAG_OPEN) d) ;;
     mod_dev n (fun d => set_dev_ref_count (u8 (dev_ref_count d + 1)) d) ;;
     d <- get_dev n ;;
     RT_ASSERT (negb (dev_ref_count d =? 0))) ;;
  ret result.

Definition rt_device_close (n : nat) : D Z :=
  in_dk (assert_type (ODevice n) RT_Object_Class_Device) ;;
  d <- get_dev n ;;
  if dev_ref_count d =? 0 then ret (- RT_ERROR) else
  mod_dev n (fun d => set_dev_ref_count (u8 (dev_ref_count d - 1)) d) ;;
  d <- get_dev n ;;
  if negb (dev_ref_count d =? 0) then ret RT_EOK else
  result <- (match op_close ops with Some close => close | None => ret RT_EOK end) ;;
  when (succeeded result) (mod_dev n (set_dev_open_flag RT_DEVICE_OFLAG_CLOSE)) ;;
  ret result.

(** rt_device_read and rt_device_write, [handler] the one of the driver. *)
Definition dev_transfer (handler : option (Z -> Z -> Z -> D Z)) (n : nat) (pos buffer size : Z) : D Z :=
  in_dk (assert_type (ODevice n) RT_Object_Class_Device) ;;
  d <- get_dev n ;;
  if dev_ref_count d =? 0 then dev_set_errno (- RT_ERROR) ;; ret 0 else
  match handler with
  | Some transfer => transfer pos buffer size
  | None => dev_set_errno (- RT_ENOSYS) ;; ret 0
  end.
Definition rt_device_read : nat -> Z -> Z -> Z -> D Z := dev_transfer (op_read ops).
Definition rt_device_write : nat -> Z -> Z -> Z -> D Z := dev_transfer (op_write ops).

Definition rt_device_control (n : nat) (cmd arg : Z) : D Z :=
  in_dk (assert_type (ODevice n) RT_Object_Class_Device) ;;
  match op_control ops with Some control => control cmd arg | None => ret (- RT_ENOSYS) end.

Definition rt_device_set_rx_indicate (n : nat) (rx_ind : option Z) : D Z :=
  in_dk (assert_type (ODevice n) RT_Object_Class_Device) ;;
  mod_dev n (set_dev_rx rx_ind) ;;
  ret RT_EOK.
Definition rt_device_set_tx_complete (n : nat) (tx_done : option Z) : D Z :=
  in_dk (assert_type (ODevice n) RT_Object_Class_Device) ;;
  mod_dev n (set_dev_tx tx_done) ;;
  ret RT_EOK.
End device.
Arguments rt_device_ops W : clear implicits.


(** ** Openings

    The state of a device the API maintains: a device that is open somewhere has
    been initialised and carries RT_DEVICE_OFLAG_OPEN, and a stand-alone device
    is open once at most. *)

Record dev_ok (d : rt_device) : Prop := {
  do_range : 0 <= dev_ref_count d < 256;
  do_open : 0 < dev_ref_count d -> dev_has (dev_open_flag d) RT_DEVICE_OFLAG_OPEN = true;
  do_active : 0 < dev_ref_count d -> dev_has (dev_flag d) RT_DEVICE_FLAG_ACTIVATED = true;
  do_alone : dev_has (dev_flag d) RT_DEVICE_FLAG_STANDALONE = true -> dev_ref_count d <= 1
}.

(** The bits that matter, of what the flag words hold. *)
Lemma dev_has_bit v i : 0 <= i -> dev_has v (2 ^ i) = Z.testbit v i.
Proof. apply land_bit. Qed.
Lemma has_standalone v : dev_has v RT_DEVICE_FLAG_STANDALONE = Z.testbit v 3.
Proof. by apply (dev_has_bit v 3). Qed.
Lemma has_activated v : dev_has v RT_DEVICE_FLAG_ACTIVATED = Z.testbit v 4.
Proof. by apply (dev_has_bit v 4). Qed.
Lemma has_open v : dev_has v RT_DEVICE_OFLAG_OPEN = Z.testbit v 3.
Proof. by apply (dev_has_bit v 3). Qed.
Lemma has_open_set v : dev_has (Z.lor v RT_DEVICE_OFLAG_OPEN) RT_DEVICE_OFLAG_OPEN = true.
Proof. by rewrite has_open, Z.lor_spec, orb_true_r. Qed.
Lemma has_activated_set v : dev_has (Z.lor v RT_DEVICE_FLAG_ACTIVATED) RT_DEVICE_FLAG_ACTIVATED = true.
Proof. by rewrite has_activated, Z.lor_spec, orb_true_r. Qed.
Lemma standalone_activated v : dev_has (Z.lor v RT_DEVICE_FLAG_ACTIVATED) RT_DEVICE_FLAG_STANDALONE = dev_has v RT_DEVICE_FLAG_STANDALONE.
Proof. by rewrite !has_standalone, Z.lor_spec, orb_false_r. Qed.

(** What a handler leaves to the API: the count of openings, whether the device
    is stand-alone and whether it is initialised. *)
Definition api_fields (d : rt_device) : Z * bool * bool :=
  (dev_ref_count d, dev_has (dev_flag d) RT_DEVICE_FLAG_STANDALONE, dev_has (dev_flag d) RT_DEVICE_FLAG_ACTIVATED).

Section conforming.
Context {W : Type} (n : nat).
Implicit Types s : dst W.

(** The device is a registered one; the running thread, if there is one, exists. *)
Record dev_at s (d : rt_device) : Prop := {
  da_type : has_type (d_k s) (ODevice n) RT_Object_Class_Device;
  da_self : forall c, k_current (d_k s) = Some c -> is_Some (k_threads (d_k s) !! c);
  da_dev : d_devs s !! n = Some d
}.

(** A handler that returns, and leaves the API's fields of the device alone;
    RT_DEVICE_OFLAG_OPEN is its own only in an open that succeeds. *)
Definition conforming_handler (keeps_open : Z -> bool) (h : D Z) : Prop :=
  forall s d, dev_at s d -> wp h s (fun r s' => exists d', dev_at s' d' /\ api_fields d' = api_fields d /\
    (keeps_open r = true -> dev_has (dev_open_flag d') RT_DEVICE_OFLAG_OPEN = dev_has (dev_open_flag d) RT_DEVICE_OFLAG_OPEN)).
Record conforming (ops : rt_device_ops W) : Prop := {
  cf_init : forall h, op_init ops = Some h -> conforming_handler (fun _ => true) h;
  cf_open : forall h oflag, op_open ops = Some h -> conforming_handler (fun r => negb (succeeded r)) (h oflag);
  cf_close : forall h, op_close ops = Some h -> conforming_handler (fun _ => true) h;
  cf_read : forall h pos buffer size, op_read ops = Some h -> conforming_handler (fun _ => true) (h pos buffer size);
  cf_write : forall h pos buffer size, op_write ops = Some h -> conforming_handler (fun _ => true) (h pos buffer size);
  cf_control : forall h cmd arg, op_control ops = Some h -> conforming_handler (fun _ => true) (h cmd arg)
}.

Lemma api_fields_ok d d' : api_fields d' = api_fields d -> dev_has (dev_open_flag d') RT_DEVICE_OFLAG_OPEN = dev_has (dev_open_flag d) RT_DEVICE_OFLAG_OPEN -> dev_ok d -> dev_ok d'.
Proof. intros [= E1 E2 E3] E4 [H1 H2 H3 H4]. split; rewrite ?E1, ?E2, ?E3, ?E4; done. Qed.

Lemma wp_dev_type s d (Q : unit -> dst W -> Prop) : dev_at s d -> Q tt s -> wp (in_dk (assert_type (ODevice n) RT_Object_Class_Device)) s Q.
Proof. intros [(ob & E & T) _ _] HQ. apply wp_zoom, (wp_assert_type _ ob); [done|done|]. by destruct s. Qed.
Lemma wp_get_dev s d (Q : rt_device -> dst W -> Prop) : dev_at s d -> Q d s -> wp (get_dev n) s Q.
Proof. intros H HQ. by apply (wp_deref _ d); [apply H|]. Qed.
Lemma wp_mod_dev s d f (Q : unit -> dst W -> Prop) : dev_at s d ->
  (dev_at (set_d_devs (<[n := f d]> (d_devs s)) s) (f d) -> Q tt (set_d_devs (<[n := f d]> (d_devs s)) s)) -> wp (mod_dev n f) s Q.
Proof.
  intros H HQ. unfold mod_dev. kstep. apply (wp_get_dev _ d); [done|]. kstep. apply HQ. split; [apply H|apply H|]. apply lookup_insert_eq.
Qed.
Lemma dev_set_errno_wp s d e : dev_at s d -> wp (dev_set_errno e) s (fun _ s' => dev_at s' d /\ d_devs s' = d_devs s /\ d_world s' = d_world s).
Proof.
  intros H. unfold dev_set_errno, rt_set_errno. kstep. apply wp_zoom. kstep. kstep; [kstep; split_and!; try done; by destruct H, s|].
  kstep. apply wp_zoom. unfold rt_thread_self. kstep. destruct (k_current (d_k s)) as [c|] eqn:Ec; cbn [set_d_k d_k]; rewrite Ec.
  - destruct (da_self _ _ H c Ec) as [th Et]. apply wp_zoom. apply (wp_mod_thread _ _ th); [done|]. split_and!; [|done|done].
    destruct H as [H1 H2 H3]. split; [done| |done]. intros c'. cbn. intros Hc'. rewrite Hc' in Ec. simplify_eq. cbn. rewrite lookup_insert_eq. eauto.
  - kstep. split_and!; try done. by destruct H, s.
Qed.

(** The calls on an open or closed device, in the order the application makes
    them. *)
Inductive dev_call :=
| CInit | COpen (oflag : Z) | CClose | CRead (pos buffer size : Z) | CWrite (pos buffer size : Z)
| CControl (cmd arg : Z) | CSetRx (rx_ind : option Z) | CSetTx (tx_done : option Z).
Definition run_call (ops : rt_device_ops W) (c : dev_call) : D Z :=
  match c with
  | CInit => rt_device_init ops n
  | COpen oflag => rt_device_open ops n oflag
  | CClose => rt_device_close ops n
  | CRead pos buffer size => rt_device_read ops n pos buffer size
  | CWrite pos buffer size => rt_device_write ops n pos buffer size
  | CControl cmd arg => rt_device_control ops n cmd arg
  | CSetRx rx_ind => rt_device_set_rx_indicate n rx_ind
  | CSetTx tx_done => rt_device_set_tx_complete n tx_done
  end.
Fixpoint run_calls (ops : rt_device_ops W) (cs : list dev_call) : D (list Z) :=
  match cs with
  | [] => ret []
  | c :: cs => r <- run_call ops c ;; rs <- run_calls ops cs ;; ret (r :: rs)
  end.

(** Openings before and after a call that returned [r]. *)
Definition counted (c : dev_call) (r m m' : Z) : Prop :=
  match c with
  | COpen _ => m' = m + 1 /\ succeeded r = true \/ m' = m /\ r <> RT_EOK
  | CClose => m = 0 /\ m' = 0 /\ r = - RT_ERROR \/ 0 < m /\ m' = m - 1
  | _ => m' = m
  end.
Fixpoint counts (m : Z) (l : list (dev_call * Z)) (m' : Z) : Prop :=
  match l with
  | [] => m' = m
  | (c, r) :: l => exists m1, counted c r m m1 /\ counts m1 l m'
  end.
Fixpoint opens (cs : list dev_call) : Z :=
  match cs with [] => 0 | COpen _ :: cs => 1 + opens cs | _ :: cs => opens cs end.

Lemma handler_wp h s d k : conforming_handler k h -> (forall r, k r = true) -> dev_at s d -> dev_ok d ->
  wp h s (fun r s' => exists d', dev_at s' d' /\ dev_ok d' /\ api_fields d' = api_fields d /\
    dev_has (dev_open_flag d') RT_DEVICE_OFLAG_OPEN = dev_has (dev_open_flag d) RT_DEVICE_OFLAG_OPEN).
Proof.
  intros Hh Hk Hd Ho. eapply wp_mono; [by apply Hh|]. intros r s' (d' & Hd' & E & Eo). specialize (Eo (Hk r)). exists d'. split_and!; [done|by apply (api_fields_ok d)|done|done].
Qed.

Context (ops : rt_device_ops W) (Hops : conforming ops).

Definition call_result (d : rt_device) (c : dev_call) (r : Z) (s' : dst W) : Prop :=
  exists d', dev_at s' d' /\ dev_ok d' /\ counted c r (dev_ref_count d) (dev_ref_count d').

(** A device is initialised. *)
Lemma activate_wp s d : dev_at s d -> dev_ok d ->
  wp (mod_dev n (fun d => set_dev_flag (Z.lor (dev_flag d) RT_DEVICE_FLAG_ACTIVATED) d)) s (fun _ s' => exists d', dev_at s' d' /\ dev_ok d' /\
    dev_ref_count d' = dev_ref_count d /\ dev_open_flag d' = dev_open_flag d /\ dev_has (dev_flag d') RT_DEVICE_FLAG_ACTIVATED = true).
Proof.
  intros Hd [H1 H2 H3 H4]. apply (wp_mod_dev _ d); [done|]. intros Hd'. eexists. split; [done|]. split_and!; [|done|done|apply has_activated_set].
  split; cbn; [done|done|by rewrite has_activated_set|by rewrite standalone_activated].
Qed.

Lemma rt_device_init_wp s d : dev_at s d -> dev_ok d -> wp (rt_device_init ops n) s (call_result d CInit).
Proof using Hops.
  intros Hd Ho. unfold rt_device_init. destruct (op_init ops) as [h|] eqn:Eh; [|kstep; by exists d]. kstep.
  apply (wp_get_dev _ d); [done|]. kstep; [kstep; by exists d|]. kstep. eapply wp_mono; [eapply handler_wp; [by apply (cf_init _ Hops)|done|done|done]|].
  intros r s' (d' & Hd' & Ho' & [= E1 E2 E3] & E4). kstep. kstep. kstep.
  - eapply wp_mono; [by apply (activate_wp _ d')|]. intros _ s2 (d2 & Hd2 & Ho2 & Er & _). kstep. exists d2. cbn. split_and!; [done|done|lia].
  - kstep. kstep. by exists d'.
Qed.

Lemma open_init_wp s d : dev_at s d -> dev_ok d ->
  wp (open_init ops n) s (fun r s' => exists d', dev_at s' d' /\ dev_ok d' /\ dev_ref_count d' = dev_ref_count d /\
    (r = RT_EOK -> dev_has (dev_flag d') RT_DEVICE_FLAG_ACTIVATED = true)).
Proof using Hops.
  intros Hd Ho. unfold open_init. kstep. apply (wp_get_dev _ d); [done|]. kstep; [kstep; by exists d|]. kstep.
  eapply (wp_mono _ _ (fun _ s' => exists d', dev_at s' d' /\ dev_ok d' /\ dev_ref_count d' = dev_ref_count d)).
  { destruct (op_init ops) as [h|] eqn:Eh; [|kstep; by exists d]. eapply wp_mono; [eapply handler_wp; [by apply (cf_init _ Hops)|done|done|done]|].
    intros r s' (d' & Hd' & Ho' & [= E1 E2 E3] & E4). eauto. }
  intros r s' (d' & Hd' & Ho' & E). kstep. kstep. kstep.
  - eapply wp_mono; [by apply (activate_wp _ d')|]. intros _ s2 (d2 & Hd2 & Ho2 & Er & _ & Ha). kstep. exists d2. split_and!; [done|done|lia|done].
  - kstep. kstep. exists d'. split_and!; try done. intros ->. done.
Qed.

(** The count goes up: the device is initialised and marked open. *)
Lemma opened_wp s d d0 r : dev_at s d -> dev_ok d0 -> api_fields d = api_fields d0 -> dev_ref_count d0 < 255 ->
  dev_has (dev_flag d0) RT_DEVICE_FLAG_ACTIVATED = true ->
  (dev_has (dev_flag d0) RT_DEVICE_FLAG_STANDALONE = true -> dev_ref_count d0 = 0) -> succeeded r = true ->
  wp (mod_dev n (fun d => set_dev_open_flag (Z.lor (dev_open_flag d) RT_DEVICE_OFLAG_OPEN) d) ;;
     mod_dev n (fun d => set_dev_ref_count (u8 (dev_ref_count d + 1)) d) ;;
     d <- get_dev n ;;
     RT_ASSERT (negb (dev_ref_count d =? 0))) s (fun _ s' => forall oflag, call_result d0 (COpen oflag) r s').
Proof.
  intros Hd [H1 H2 H3 H4] [= E1 E2 E3] Hb Ha Hs Hr. kstep. apply (wp_mod_dev _ d); [done|]. intros Hd1. kstep.
  assert (u8 (dev_ref_count d + 1) = dev_ref_count d0 + 1) as Eu by (rewrite u8_small; lia).
  apply (wp_mod_dev _ _ _ _ Hd1). intros Hd2. kstep.
  eapply wp_get_dev; [exact Hd2|]. apply wp_assert; [apply negb_true_iff, Z.eqb_neq; cbn; lia|]. intros oflag. eexists. split; [exact Hd2|].
  split; [|left; cbn; split; [lia|done]]. split; cbn; rewrite ?Eu, ?E2, ?E3; [lia|by rewrite has_open_set|done|]. intros Hst. specialize (Hs Hst). lia.
Qed.

Lemma rt_device_open_wp s d oflag : dev_at s d -> dev_ok d -> dev_ref_count d < 255 ->
  wp (rt_device_open ops n oflag) s (call_result d (COpen oflag)).
Proof using Hops.
  intros Hd Ho Hb. unfold rt_device_open. kstep. apply (wp_dev_type _ d); [done|]. kstep. eapply wp_mono; [by apply (open_init_wp _ d)|].
  intros r s1 (d1 & Hd1 & Ho1 & E1 & Ha). kstep.
  { kstep. exists d1. split_and!; [done|done|]. right. split; [done|]. by apply negb_true_iff, Z.eqb_neq in Heqb. }
  apply negb_false_iff, Z.eqb_eq in Heqb. specialize (Ha Heqb). kstep. apply (wp_get_dev _ d1); [done|]. kstep; [kstep; exists d1; split_and!; [done|done|by right]|].
  assert (dev_has (dev_flag d1) RT_DEVICE_FLAG_STANDALONE = true -> dev_ref_count d1 = 0) as Hs.
  { intros Hst. rewrite Hst in Heqb0. pose proof (do_range _ Ho1) as Hr. destruct (decide (0 < dev_ref_count d1)) as [Hp|]; [|lia].
    rewrite (do_open _ Ho1 Hp) in Heqb0. done. }
  kstep. eapply (wp_mono _ _ (fun r s' => exists d', dev_at s' d' /\ api_fields d' = api_fields d1 /\ (succeeded r = false -> dev_ok d'))).
  { destruct (op_open ops) as [h|] eqn:Eh.
    - eapply wp_mono; [by apply (cf_open _ Hops h oflag Eh)|]. intros r2 s2 (d2 & Hd2 & E2 & Eo). exists d2. split_and!; [done|done|]. intros Hf.
      apply (api_fields_ok d1); [done| |done]. apply Eo. by rewrite Hf.
    - kstep. apply (wp_mod_dev _ d1); [done|]. intros Hd2. kstep. eexists. split_and!; [exact Hd2|done|done]. }
  intros r2 s2 (d2 & Hd2 & E2 & Hf). kstep. kstep. kstep.
  - eapply wp_mono; [apply (opened_wp s2 d2 d1 r2); try done; lia|]. intros [] s3 Hcr. kstep. destruct (Hcr oflag) as (d3 & ? & ? & Hc). exists d3. split_and!; [done|done|].
    by rewrite <- E1.
  - kstep. kstep. exists d2. specialize (Hf eq_refl). split_and!; [done|done|]. right. injection E2 as E2 _ _. split; [lia|]. intros ->. done.
Qed.

Lemma rt_device_close_wp s d : dev_at s d -> dev_ok d -> wp (rt_device_close ops n) s (call_result d CClose).
Proof using Hops.
  intros Hd Ho. pose proof (do_range _ Ho) as Hr. unfold rt_device_close. kstep. apply (wp_dev_type _ d); [done|]. kstep.
  apply (wp_get_dev _ d); [done|]. kstep.
  { kstep. apply Z.eqb_eq in Heqb. exists d. split_and!; [done|done|by left]. }
  apply Z.eqb_neq in Heqb. assert (u8 (dev_ref_count d - 1) = dev_ref_count d - 1) as Eu by (rewrite u8_small; lia).
  kstep. apply (wp_mod_dev _ d); [done|]. intros Hd1. kstep. eapply wp_get_dev; [exact Hd1|]. cbn [dev_ref_count set_dev_ref_count]. rewrite Eu in *.
  assert (dev_ok (set_dev_ref_count (dev_ref_count d - 1) d)) as Ho1.
  { destruct Ho as [H1 H2 H3 H4]. split; cbn; [lia| | |]; intros Hp; [apply H2; lia|apply H3; lia|specialize (H4 Hp); lia]. }
  kstep; [kstep; eexists; split_and!; [exact Hd1|done|right; cbn; lia]|]. apply negb_false_iff, Z.eqb_eq in Heqb0.
  kstep. eapply (wp_mono _ _ (fun _ s' => exists d', dev_at s' d' /\ dev_ok d' /\ dev_ref_count d' = 0)).
  { destruct (op_close ops) as [h|] eqn:Eh; [|kstep; eauto]. eapply wp_mono; [eapply handler_wp; [by apply (cf_close _ Hops)|done|exact Hd1|done]|].
    intros r s' (d' & Hd' & Ho' & [= E1 E2 E3] & E4). eauto with lia. }
  intros r s' (d' & Hd' & Ho' & E). kstep. kstep. kstep.
  - apply (wp_mod_dev _ d'); [done|]. intros Hd2. kstep. eexists. split; [exact Hd2|]. split; [|right; cbn; lia].
    destruct Ho' as [H1 H2 H3 H4]. split; cbn; [done|lia|lia|done].
  - kstep. kstep. exists d'. split_and!; [done|done|right; lia].
Qed.

Lemma dev_transfer_wp h s d pos buffer size c : (forall g, h = Some g -> conforming_handler (fun _ => true) (g pos buffer size)) ->
  dev_at s d -> dev_ok d -> (forall r m, counted c r m m) -> wp (dev_transfer h n pos buffer size) s (call_result d c).
Proof.
  intros Hh Hd Ho Hc. unfold dev_transfer. kstep. apply (wp_dev_type _ d); [done|]. kstep. apply (wp_get_dev _ d); [done|]. kstep.
  { kstep. eapply wp_mono; [by apply (dev_set_errno_wp _ d)|]. intros _ s' (Hd' & _). kstep. exists d. auto. }
  destruct h as [g|].
  - eapply wp_mono; [eapply handler_wp; [by apply Hh|done|done|done]|]. intros r s' (d' & Hd' & Ho' & [= E1 E2 E3] & E4). exists d'. rewrite E1. auto.
  - kstep. eapply wp_mono; [by apply (dev_set_errno_wp _ d)|]. intros _ s' (Hd' & _). kstep. exists d. auto.
Qed.

Lemma call_wp c s d : dev_at s d -> dev_ok d -> dev_ref_count d + opens [c] <= 255 -> wp (run_call ops c) s (call_result d c).
Proof using Hops.
  intros Hd Ho Hb. destruct c; cbn [run_call].
  - by apply rt_device_init_wp.
  - cbn in Hb. apply rt_device_open_wp; [done|done|lia].
  - by apply rt_device_close_wp.
  - apply dev_transfer_wp; [|done|done|done]. intros. by apply (cf_read _ Hops).
  - apply dev_transfer_wp; [|done|done|done]. intros. by apply (cf_write _ Hops).
  - unfold rt_device_control. kstep. apply (wp_dev_type _ d); [done|]. destruct (op_control ops) as [h|] eqn:Eh; [|kstep; by exists d].
    eapply wp_mono; [eapply handler_wp; [by apply (cf_control _ Hops)|done|done|done]|]. intros r s' (d' & Hd' & Ho' & [= E1 E2 E3] & E4). by exists d'.
  - unfold rt_device_set_rx_indicate. kstep. apply (wp_dev_type _ d); [done|]. kstep. apply (wp_mod_dev _ d); [done|]. intros Hd1. kstep. eexists. split; [exact Hd1|]. split; [by destruct Ho|done].
  - unfold rt_device_set_tx_complete. kstep. apply (wp_dev_type _ d); [done|]. kstep. apply (wp_mod_dev _ d); [done|]. intros Hd1. kstep. eexists. split; [exact Hd1|]. split; [by destruct Ho|done].
Qed.
End conforming.

(** C32: Openings are counted, and a conforming driver cannot upset the count.
    Any sequence of calls on a registered device returns, as long as it does not
    open the device more than 255 times; at every call an open that reports
    success counts one up, a close counts one down and fails at zero, and no
    other call changes the count; a device that is open somewhere stays
    initialised and marked open, and a stand-alone device is never open twice. *)
Theorem device_openings_counted {W} n (ops : rt_device_ops W) cs s d :
  conforming n ops -> dev_at n s d -> dev_ok d -> dev_ref_count d + opens cs <= 255 ->
  exists rs s' d', run_calls n ops cs s = Ok rs s' /\ length rs = length cs /\ dev_at n s' d' /\ dev_ok d' /\
    counts (dev_ref_count d) (zip cs rs) (dev_ref_count d').
Proof.
  intros Hops. revert s d. induction cs as [|c cs IH]; intros s d Hd Ho Hb; [exists [], s, d; by split_and!|].
  assert (opens (c :: cs) = opens [c] + opens cs /\ 0 <= opens cs) as [Eo Hp].
  { split; [by destruct c|]. clear. induction cs as [|[] cs]; cbn; lia. }
  destruct (wp_run _ _ _ (call_wp n ops Hops c s d Hd Ho ltac:(lia))) as (r & s1 & E1 & d1 & Hd1 & Ho1 & Hc).
  destruct (IH s1 d1 Hd1 Ho1) as (rs & s' & d' & E2 & El & Hd' & Ho' & Hcs).
  { rewrite Eo in Hb. destruct c; cbn in Hc, Hb; lia. }
  exists (r :: rs), s', d'. split_and!; [|cbn; lia|done|done|cbn; eauto]. cbn [run_calls]. unfold bind. by rewrite E1, E2.
Qed.

(** A closed device is not read or written: rt_device_read and
    rt_device_write return 0, set the errno of the calling thread to -RT_ERROR
    and do nothing else, whatever the driver; on an open device they are exactly
    the driver's handler, and give errno -RT_ENOSYS where there is none. *)
Theorem device_transfer_guarded {W} n (h : option (Z -> Z -> Z -> D Z)) (s : dst W) d c th pos buffer size :
  dev_at n s d -> caller (d_k s) c th ->
  let failed e := Ok 0 (set_d_k (upd_thread c (set_th_error e th) (d_k s)) s) in
  dev_transfer h n pos buffer size s =
    if dev_ref_count d =? 0 then failed (- RT_ERROR)
    else match h with Some g => g pos buffer size s | None => failed (- RT_ENOSYS) end.
Proof.
  intros Hd Hca failed. assert (forall e, (dev_set_errno e ;; ret 0) s = failed e) as He.
  { intros e. unfold bind. destruct (wp_run _ _ _ (wp_set_errno d_k set_d_k set_d_errno ltac:(by intros []) s c th e (fun _ s' => s' = _) Hca eq_refl)) as ([] & s' & E & ->).
    unfold dev_set_errno. by rewrite E. }
  destruct Hd as [(ob & Eo & Et) _ Ed]. unfold dev_transfer.
  assert (in_dk (W := W) (assert_type (ODevice n) RT_Object_Class_Device) s = Ok tt s) as Ea.
  { unfold in_dk, zoom. destruct (wp_run _ _ _ (wp_assert_type _ ob _ (d_k s) (fun _ s' => s' = d_k s) Eo Et eq_refl)) as ([] & s' & -> & ->). by destruct s. }
  unfold bind at 1. rewrite Ea. unfold bind at 1, get_dev, deref. rewrite Ed. destruct (dev_ref_count d =? 0); [apply He|]. by destruct h.
Qed.

(** ** Registry *)

Lemma rt_device_find_wp {W} (s : dst W) nm :
  wf (d_k s) -> cinv (d_k s) -> 0 <= k_lock_nest (d_k s) < 2 ^ 15 - 1 -> chars_ok nm ->
  wp (rt_device_find (cstring nm)) s (fun r s' => exists k, s' = set_d_k k s /\ wf k /\ sched_frame (d_k s) k /\
    r = head (filter (name_is (d_k s) nm) (object_list (d_k s) RT_Object_Class_Device))).
Proof.
  intros H Hc Hn Hnm. apply wp_zoom. set (k := d_k s) in *. unfold rt_thread_self. ksteps.
  all: first [apply bool_decide_eq_true in Heqb as Hs|apply bool_decide_eq_false in Heqb as Hs].
  - unfold rt_enter_critical. ksteps. apply wp_assert; [done|]. ksteps. rewrite i16_small by lia. set (k1 := set_k_lock_nest (k_lock_nest k + 1) k).
    eapply wp_mono.
    { apply (find_named_wp k1 _ nm); [|done]. intros o Ho. destruct (ci_header _ Hc RT_Object_Class_Device o Ho) as (ob & l & ? & _ & ? & ?). eauto. }
    intros r k2 [-> ->]. ksteps; [|by unfold k1 in *; kproj; rewrite Heqb in *].
    eapply wp_mono; [apply rt_exit_critical_wp; [by apply (wfx_same _ k)|unfold k1; kproj; lia]|].
    intros _ k2 [H2 F]. unfold k1 in F. kproj. rewrite Z.add_simpl_r in F. ksteps. exists k2. split_and!; [done|done| |done].
    replace k with (set_k_lock_nest (k_lock_nest k) (set_k_lock_nest (k_lock_nest k + 1) k)) by (by destruct k). exact F.
  - apply wp_assert; [done|]. ksteps. eapply wp_mono.
    { apply (find_named_wp k _ nm); [|done]. intros o Ho. destruct (ci_header _ Hc RT_Object_Class_Device o Ho) as (ob & l & ? & _ & ? & ?). eauto. }
    intros r k2 [-> ->]. ksteps; [by rewrite Heqb in *|]. exists k. split_and!; [by destruct s|done|apply sched_frame_refl|done].
Qed.

Lemma rt_device_register_wp {W} n l flags (s : dst W) d :
  wf (d_k s) -> cinv (d_k s) -> 0 <= k_lock_nest (d_k s) < 2 ^ 15 - 1 -> chars_ok l ->
  (forall c, ~ registered (d_k s) c (ODevice n)) -> d_devs s !! n = Some d ->
  wp (rt_device_register (Some n) (cstring l) flags) s (fun r s' => wf (d_k s') /\ cinv (d_k s') /\
    (d_world s' = d_world s /\ k_tick (d_k s') = k_tick (d_k s) /\ k_lock_nest (d_k s') = k_lock_nest (d_k s)) /\
    if decide (Exists (name_is (d_k s) l) (object_list (d_k s) RT_Object_Class_Device))
    then r = - RT_ERROR /\ d_devs s' = d_devs s /\ k_containers (d_k s') = k_containers (d_k s)
    else r = RT_EOK /\ d_devs s' = <[n := mkDev (dev_type d) flags 0 0 (dev_rx_indicate d) (dev_tx_complete d) None empty_wqueue]> (d_devs s) /\
      dev_at n s' (mkDev (dev_type d) flags 0 0 (dev_rx_indicate d) (dev_tx_complete d) None empty_wqueue) /\
      forall nm, chars_ok nm -> take RT_NAME_MAX nm = take RT_NAME_MAX l -> head (filter (name_is (d_k s') nm) (object_list (d_k s') RT_Object_Class_Device)) = Some (ODevice n)).
Proof.
  intros H Hc Hn Hl Ho Ed. unfold rt_device_register. kstep. eapply wp_mono; [by apply rt_device_find_wp|].
  intros r s1 (k1 & -> & H1 & F & Er). destruct (sched_frame_objects _ _ F) as (E1 & E2 & E3 & E4).
  assert (k_tick k1 = k_tick (d_k s)) as E1t by (by apply sched_frame_tick). set (ls := object_list (d_k s) RT_Object_Class_Device) in *. assert (Exists (name_is (d_k s) l) ls <-> is_Some r) as Hex.
  { rewrite Er. rewrite Exists_exists. split.
    - intros (o & Ho1 & Ho2). assert (o ∈ filter (name_is (d_k s) l) ls) as Hin by by apply list_elem_of_filter. destruct (filter _ ls); [by apply not_elem_of_nil in Hin|cbn; eauto].
    - intros [o Ho1]. assert (o ∈ filter (name_is (d_k s) l) ls) as Hin by (destruct (filter _ ls); simplify_eq/=; left). apply list_elem_of_filter in Hin as [? ?]. eauto. }
  destruct (decide (Exists _ ls)) as [Hx|Hx]; apply Hex in Hx || rewrite Hex in Hx; [rewrite bool_decide_true by done|rewrite bool_decide_false by done].
  { kstep. split_and!; [done|by apply (cinv_same (d_k s))|done|done|done|done|done|done]. }
  assert (forall c, ~ registered k1 c (ODevice n)) as Ho1 by (intros c; unfold registered, object_list; rewrite E2; apply Ho).
  kstep. apply wp_zoom. eapply wp_mono; [apply (rt_object_init_wp _ _ _ _ l); [done|cbn; by rewrite E3|done|by apply rt_strncpy_ok|done]|].
  intros _ k' (k2 & H2 & F2 & ->). destruct (sched_frame_objects _ _ F2) as (E5 & E6 & E7 & E8).
  set (k3 := attach _ _ _ k2). assert (wf k3) as H3 by by apply (wfx_same _ k2).  cbn [d_k set_d_k] in E5, E6, E7, E8.
  assert (cinv k3) as Hc3.
  { apply (cinv_attach _ _ _ _ l); [by apply (cinv_same (d_k s)); congruence| |apply static_class; [by apply class_known|auto]|done|done]. intros c. unfold registered, object_list. rewrite E6. apply Ho1. }
  assert (dev_at n (set_d_k k3 (set_d_k k1 s)) d) as Hd.
  { split; [|intros c Hcur; destruct (wf_current H3 c Hcur) as (th & ? & _); eauto|done].
    eexists. split; [apply lookup_insert_eq|apply static_class; [by apply class_known|auto]]. }
  kstep. apply (wp_mod_dev _ _ d); [done|]. intros Hd1. kstep. apply (wp_mod_dev _ _ _ _ _ Hd1). intros Hd2. kstep. apply (wp_mod_dev _ _ _ _ _ Hd2). intros Hd3.
  kstep. apply (wp_mod_dev _ _ _ _ _ Hd3). intros Hd4. kstep. apply (wp_mod_dev _ _ _ _ _ Hd4). intros Hd5. kstep.
  split_and!; [done|done|done|cbn; rewrite (sched_frame_tick _ _ F2); exact E1t|cbn; by rewrite E7, E3|done|cbn; by rewrite !insert_insert_eq|exact Hd5|]. intros nm Hnm Heq. cbn [d_k set_d_devs set_d_k]. unfold k3. rewrite object_list_attach, decide_True by done.
  rewrite filter_cons, decide_True; [done|]. unfold name_is. cbn [k_objects attach set_k_containers set_k_objects]. rewrite lookup_insert_eq. cbn. f_equal. by apply padded_inj.
Qed.

(** The registry of devices.  rt_device_register refuses a null device and
    a name whose first RT_NAME_MAX characters are already taken by a device,
    changing no device; otherwise it registers the device with no flag but the
    given ones, closed, and rt_device_find finds it under that name. *)
Theorem rt_device_register_correct {W} n l flags (s : dst W) d :
  wf (d_k s) -> cinv (d_k s) -> 0 <= k_lock_nest (d_k s) < 2 ^ 15 - 1 -> chars_ok l ->
  (forall c, ~ registered (d_k s) c (ODevice n)) -> d_devs s !! n = Some d ->
  rt_device_register None (cstring l) flags s = Ok (- RT_ERROR) s /\
  wp (rt_device_register (Some n) (cstring l) flags) s (fun r s' => wf (d_k s') /\ cinv (d_k s') /\
    if decide (Exists (name_is (d_k s) l) (object_list (d_k s) RT_Object_Class_Device))
    then r = - RT_ERROR /\ d_devs s' = d_devs s /\ k_containers (d_k s') = k_containers (d_k s)
    else r = RT_EOK /\ d_devs s' = <[n := mkDev (dev_type d) flags 0 0 (dev_rx_indicate d) (dev_tx_complete d) None empty_wqueue]> (d_devs s) /\
      dev_at n s' (mkDev (dev_type d) flags 0 0 (dev_rx_indicate d) (dev_tx_complete d) None empty_wqueue) /\
      forall nm, chars_ok nm -> take RT_NAME_MAX nm = take RT_NAME_MAX l -> wp (rt_device_find (cstring nm)) s' (fun r _ => r = Some (ODevice n))).
Proof.
  intros H Hc Hn Hl Ho Ed. split; [done|]. eapply wp_mono; [by apply (rt_device_register_wp n l flags s d)|]. intros r s' (H' & Hc' & (_ & _ & En) & Hr). split_and!; [done|done|]. destruct (decide _); [done|]. destruct Hr as (-> & Ed' & Hd' & Hh). split_and!; [done|done|done|].
  intros nm Hnm Heq. eapply wp_mono; [apply rt_device_find_wp; [done|done|by rewrite En|done]|]. intros r2 s2 (k4 & _ & _ & _ & ->). by apply Hh.
Qed.

(** Rt_device_destroy never destroys a device.  It stops on an assertion
    for a device that is registered (its header is static, rt_object_init made
    it so), that has been unregistered, and that rt_device_create has just
    returned (their headers have type 0): the memory of a created device cannot
    be given back. *)
Theorem rt_device_destroy_halts {W} n type (s : dst W) ob :
  k_objects (d_k s) !! ODevice n = Some ob -> o_type ob = Z.lor RT_Object_Class_Device RT_Object_Class_Static ->
  rt_device_destroy n s = Halt /\
  (rt_device_unregister n ;; rt_device_destroy n) s = Halt /\
  (rt_device_create type (Some n) ;; rt_device_destroy n) s = Halt.
Proof.
  intros Eo Et. assert (forall (s : dst W) ob, k_objects (d_k s) !! ODevice n = Some ob -> o_type ob = 0 -> rt_device_destroy n s = Halt) as H0.
  { intros s1 ob1 E1 T1. unfold rt_device_destroy, in_dk, zoom, bind, assert_type, rt_object_get_type, get_object, deref, RT_ASSERT, ret, bind. rewrite E1. cbn. by rewrite T1. }
  split_and!.
  - unfold rt_device_destroy, in_dk, zoom, bind, assert_type, rt_object_get_type, rt_object_is_systemobject, get_object, deref, RT_ASSERT, ret, bind. rewrite Eo. cbv beta iota. rewrite Et. rewrite static_class by (first [by apply class_known|auto]). rewrite Z.eqb_refl. cbv beta iota. rewrite Eo. cbv beta iota. by rewrite Et.
  - assert (wp (rt_device_unregister n) s (fun _ s' => rt_device_destroy n s' = Halt)) as (r & s' & E & H)%wp_run.
    { apply wp_zoom. kstep. apply (wp_assert_type _ ob); [done|rewrite Et; done|]. kstep. unfold rt_object_is_systemobject. kstep. apply (wp_get_object _ ob); [done|]. kstep.
      kstep. apply wp_assert; [by rewrite Et|]. unfold rt_object_detach. kstep. kstep. apply (wp_mod_object _ _ ob); [done|]. unfold container_remove. ksteps.
      eapply (H0 _ (set_o_type 0 ob)); [|done]. kproj. apply lookup_insert_eq. }
    unfold bind. by rewrite E.
  - unfold bind, rt_device_create. unfold in_dk, zoom, bind, modify, ret. eapply (H0 _ (mkObject (repeat 0 RT_NAME_MAX) 0 0)); [|done]. cbn. apply lookup_insert_eq.
Qed.

(** A stand-alone device whose driver fails to close is stuck.  The count
    is already back at zero, and RT_DEVICE_OFLAG_OPEN stays: the device can
    neither be opened (-RT_EBUSY) nor closed (-RT_ERROR) again. *)
Theorem failed_close_sticks {W} n (ops : rt_device_ops W) close (s : dst W) d oflag :
  dev_at n s d -> dev_ok d -> dev_ref_count d = 1 -> dev_has (dev_flag d) RT_DEVICE_FLAG_STANDALONE = true ->
  op_close ops = Some close -> conforming_handler n (fun _ => true) close -> (forall s, wp close s (fun r _ => succeeded r = false)) ->
  wp (r1 <- rt_device_close ops n ;; r2 <- rt_device_open ops n oflag ;; r3 <- rt_device_close ops n ;; ret (r1, r2, r3)) s
    (fun rs s' => exists e, succeeded e = false /\ rs = (e, - RT_EBUSY, - RT_ERROR)).
Proof.
  intros Hd [H1 H2 H3 H4] Hr Hs Ec Hcl Hf. unfold rt_device_close at 1. kstep. kstep. apply (wp_dev_type _ _ d); [done|]. kstep. apply (wp_get_dev _ _ d); [done|].
  rewrite Hr. cbn [Z.eqb]. kstep. apply (wp_mod_dev _ _ d); [done|]. intros Hd1. rewrite Hr in Hd1 |- *. change (u8 (1 - 1)) with 0 in *. kstep.
  eapply wp_get_dev; [exact Hd1|]. cbn [dev_ref_count set_dev_ref_count]. cbn [Z.eqb negb]. rewrite Ec. kstep.
  set (s1 := set_d_devs _ s) in *. destruct (wp_run _ _ _ (Hcl _ _ Hd1)) as (e & s2 & Er & d2 & Hd2 & [= E1 E2 E3] & Eo).
  destruct (wp_run _ _ _ (Hf s1)) as (e' & s2' & Er' & He). rewrite Er in Er'. simplify_eq. unfold wp at 1. rewrite Er. kstep. rewrite He. cbn [when]. kstep. kstep.
  cbn in E1, E2, E3. specialize (Eo eq_refl). cbn in Eo. rewrite H2 in Eo by lia. rewrite H3 in E3 by lia. rewrite Hs in E2.
  kstep. unfold rt_device_open. kstep. apply (wp_dev_type _ _ d2); [done|]. kstep. unfold open_init. kstep. apply (wp_get_dev _ _ d2); [done|]. rewrite E3. apply wp_ret.
  rewrite Z.eqb_refl. cbn [negb]. kstep. apply (wp_get_dev _ _ d2); [done|]. rewrite E2, Eo. cbn [andb]. kstep. kstep. unfold rt_device_close. kstep.
  apply (wp_dev_type _ _ d2); [done|]. kstep. apply (wp_get_dev _ _ d2); [done|]. rewrite E1. cbn [Z.eqb]. kstep. kstep. eauto.
Qed.

(** ** Witnesses *)

(** A stand-alone device, open once, in the sample state; its driver counts the
    calls in its world, reads nothing and writes everything. *)
Definition sample_device : rt_device := mkDev 0 0x018 0x00b 1 None None None empty_wqueue.
Definition sample_devices : dst Z :=
  mkDst (set_k_objects (<[ODevice 64 := mkObject (padded RT_NAME_MAX [100]) (Z.lor RT_Object_Class_Device RT_Object_Class_Static) 0]> (k_objects sample)) sample)
    {[ 64%nat := sample_device ]} 0 0.
Definition tally (r : Z) : D (W := Z) Z := modify (fun s => mkDst (d_k s) (d_devs s) (d_errno s) (d_world s + 1)) ;; ret r.
Definition sample_driver : rt_device_ops Z :=
  mkOps (Some (tally RT_EOK)) (Some (fun _ => tally RT_EOK)) (Some (tally RT_EOK)) (Some (fun _ _ _ => tally 0)) (Some (fun _ _ size => tally size)) None.
Definition stuck_driver : rt_device_ops Z := mkOps None None (Some (tally (- RT_EIO))) None None None.

Lemma tally_conforming n k r : conforming_handler n k (tally r).
Proof. intros s d [H1 H2 H3]. unfold tally. ksteps. exists d. split_and!; [by split|done|done]. Qed.
Lemma sample_driver_conforming n : conforming n sample_driver.
Proof. split; intros; simplify_eq/=; apply tally_conforming. Qed.
Lemma sample_dev_at : dev_at 64 sample_devices sample_device.
Proof.
  split; [|intros c [= <-]; by eexists|done]. eexists. split; [apply lookup_insert_eq|done].
Qed.
Lemma sample_dev_caller : caller (d_k sample_devices) 1 (sample_thread 10 RT_THREAD_RUNNING).
Proof. by split. Qed.
Lemma sample_dev_ok : dev_ok sample_device.
Proof. by split. Qed.

Lemma device_openings_counted_witness :
  exists rs s' d', run_calls 64 sample_driver [COpen 3; CWrite 0 0 5; CClose; COpen 3; CClose; CClose] sample_devices = Ok rs s' /\ length rs = 6%nat /\
    dev_at 64 s' d' /\ dev_ok d' /\ counts 1 (zip [COpen 3; CWrite 0 0 5; CClose; COpen 3; CClose; CClose] rs) (dev_ref_count d').
Proof.
  exact (device_openings_counted 64 sample_driver [COpen 3; CWrite 0 0 5; CClose; COpen 3; CClose; CClose] sample_devices sample_device
    (sample_driver_conforming 64) sample_dev_at sample_dev_ok ltac:(done)).
Defined.
Lemma device_transfer_guarded_witness :
  rt_device_write sample_driver 64 0 0 5 sample_devices = tally 5 sample_devices.
Proof. exact (device_transfer_guarded 64 (op_write sample_driver) sample_devices sample_device 1 _ 0 0 5 sample_dev_at sample_dev_caller). Defined.
Lemma rt_device_destroy_halts_witness :
  rt_device_destroy 64 sample_devices = Halt /\ (rt_device_unregister 64 ;; rt_device_destroy 64) sample_devices = Halt /\
  (rt_device_create 0 (Some 64%nat) ;; rt_device_destroy 64) sample_devices = Halt.
Proof. exact (rt_device_destroy_halts 64 0 sample_devices _ (lookup_insert_eq _ _ _) eq_refl). Defined.
Lemma failed_close_sticks_witness :
  wp (r1 <- rt_device_close stuck_driver 64 ;; r2 <- rt_device_open stuck_driver 64 3 ;; r3 <- rt_device_close stuck_driver 64 ;; ret (r1, r2, r3)) sample_devices
    (fun rs s' => exists e, succeeded e = false /\ rs = (e, - RT_EBUSY, - RT_ERROR)).
Proof.
  exact (failed_close_sticks 64 stuck_driver _ sample_devices sample_device 3 sample_dev_at sample_dev_ok eq_refl eq_refl eq_refl
    (tally_conforming _ _ _) ltac:(by intros)).
Defined.
Lemma rt_device_register_correct_witness :
  rt_device_register None (cstring [100]) 3 (mkDst sample {[ 64%nat := sample_device ]} 0 tt) = Ok (- RT_ERROR) (mkDst sample {[ 64%nat := sample_device ]} 0 tt) /\
  wp (rt_device_register (Some 64%nat) (cstring [100]) 3) (mkDst sample {[ 64%nat := sample_device ]} 0 tt) (fun r s' => wf (d_k s') /\ cinv (d_k s') /\
    r = RT_EOK /\ wp (rt_device_find (cstring [100])) s' (fun r _ => r = Some (ODevice 64))).
Proof.
  destruct (rt_device_register_correct 64 [100] 3 (mkDst sample {[ 64%nat := sample_device ]} 0 tt) sample_device (proj1 sample_kinv) sample_cinv
    ltac:(split; done) ltac:(repeat constructor; lia)) as [H1 H2]; [|done|].
  { intros c H. destruct (ci_header _ sample_cinv _ _ H) as (ob & l & E & _). vm_compute in E. done. }
  split; [exact H1|]. eapply wp_mono; [exact H2|]. intros r s' (Hw & Hc & H). rewrite decide_False in H.
  - destruct H as (-> & _ & _ & Hf). split_and!; [done|done|done|]. apply Hf; [repeat constructor; lia|done].
  - intros Hx. apply Exists_exists in Hx as (o & Ho & _). vm_compute in Ho. by apply not_elem_of_nil in Ho.
Defined.
