(* ===== verification/Console.v ===== *)
(** * The console (src/kservice.c): rt_console_set_device, rt_kputs, rt_kprintf

    What the kernel prints goes to a device, or, before there is one, to a
    function of the board.  The memory, the console device and the world of the
    drivers are the world of the device layer. *)

From S2P Require Import Prelude Ffs KState Kservice Str Printf Format Wf Inv Sched Object Timer Thread TimerRun Sleep Ipc Errno Beside WaitQueue Device.

Definition RT_DEVICE_FLAG_STREAM : Z := 0x040.
Definition RT_DEVICE_OFLAG_RDWR : Z := 0x003.
Definition RT_CONSOLEBUF_SIZE : Z := 256.

Record con (W : Type) := mkCon { c_mem : mem; c_console : option nat; c_world : W }.
Arguments mkCon {W}.
Arguments c_mem {W}.
Arguments c_console {W}.
Arguments c_world {W}.

Section console.
Context {W : Type}.
Notation C A := (D (W := con W) A).

Definition set_d_world (w : con W) (s : dst (con W)) : dst (con W) := mkDst (d_k s) (d_devs s) (d_errno s) w.
Definition in_mem {A} (b : B A) : C A := zoom (fun s => c_mem (d_world s)) (fun m s => set_d_world (mkCon m (c_console (d_world s)) (c_world (d_world s))) s) b.

(** The drivers of all devices, and the board's rt_hw_console_output. *)
Context (ops : nat -> rt_device_ops (con W)) (rt_hw_console_output : Z -> C unit).

Definition rt_console_get_device : C (option nat) := gets (fun s => c_console (d_world s)).

Definition rt_console_set_device (name : list Z) : C (option nat) :=
  old_device <- rt_console_get_device ;;
  new_device <- rt_device_find name ;;
  match new_device with
  | Some (ODevice n) =>
      match old_device with Some o => rt_device_close (ops o) o ;; ret tt | None => ret tt end ;;
      rt_device_open (ops n) n (Z.lor RT_DEVICE_OFLAG_RDWR RT_DEVICE_FLAG_STREAM) ;;
      modify (fun s => set_d_world (mkCon (c_mem (d_world s)) (Some n) (c_world (d_world s))) s)
  | _ => ret tt
  end ;;
  ret old_device.

(** The bytes go to the device in stream mode. *)
Definition console_write (n : nat) (buf size : Z) : C unit :=
  d <- get_dev n ;;
  let old_flag := dev_open_flag d in
  mod_dev n (fun d => set_dev_open_flag (Z.lor (dev_open_flag d) RT_DEVICE_FLAG_STREAM) d) ;;
  rt_device_write (ops n) n 0 buf size ;;
  mod_dev n (set_dev_open_flag old_flag).

Definition rt_kputs (str : Z) : C unit :=
  if str =? 0 then ret tt
  else
    console <- rt_console_get_device ;;
    match console with
    | None => rt_hw_console_output str
    | Some n => len <- in_mem (rt_strlen str) ;; console_write n str len
    end.

(** [rt_log_buf]: the address of the static buffer. *)
Definition rt_kprintf (rt_log_buf fmt : Z) (args : list Z) : C unit :=
  n <- in_mem (rt_vsnprintf rt_log_buf (RT_CONSOLEBUF_SIZE - 1) fmt args) ;;
  let length := u32 n in
  let length := if RT_CONSOLEBUF_SIZE - 1 <? length then RT_CONSOLEBUF_SIZE - 1 else length in
  console <- rt_console_get_device ;;
  match console with
  | None => rt_hw_console_output rt_log_buf
  | Some n => console_write n rt_log_buf length
  end.

(** ** The driver of the console

    In stream mode the driver sends [enc true bytes] for the bytes it is given
    (line ends, for instance), otherwise [enc false bytes]; [out] is what it has
    sent. *)
Context (out : W -> list Z) (enc : bool -> list Z -> list Z).
Definition mem_of (s : dst (con W)) : mem := c_mem (d_world s).
Definition sent (s : dst (con W)) : list Z := out (c_world (d_world s)).
Definition console_driver (n : nat) : Prop := exists h, op_write (ops n) = Some h /\
  forall s d pos buf bytes, dev_at n s d -> read_bytes (mem_of s) buf (length bytes) = Some bytes ->
    wp (h pos buf (Z.of_nat (length bytes))) s (fun _ s' => dev_at n s' d /\ mem_of s' = mem_of s /\ c_console (d_world s') = c_console (d_world s) /\
      sent s' = sent s ++ enc (dev_has (dev_open_flag d) RT_DEVICE_FLAG_STREAM) bytes).

Lemma has_stream v : dev_has (Z.lor v RT_DEVICE_FLAG_STREAM) RT_DEVICE_FLAG_STREAM = true.
Proof using. change RT_DEVICE_FLAG_STREAM with (2 ^ 6). rewrite dev_has_bit by lia. rewrite Z.lor_spec. by rewrite orb_true_r. Qed.

(** What console_write leaves as it was. *)
Record console_kept (n : nat) (d : rt_device) (s s' : dst (con W)) : Prop := {
  ck_dev : dev_at n s' d;
  ck_mem : mem_of s' = mem_of s;
  ck_console : c_console (d_world s') = c_console (d_world s)
}.
Lemma console_write_wp n s d buf bytes :
  console_driver n -> dev_at n s d -> read_bytes (mem_of s) buf (length bytes) = Some bytes ->
  wp (console_write n buf (Z.of_nat (length bytes))) s (fun _ s' => console_kept n d s s' /\ sent s' = if dev_ref_count d =? 0 then sent s else sent s ++ enc true bytes).
Proof using.
  intros (h & Eh & Hh) Hd Hb. unfold console_write, rt_device_write, dev_transfer. kstep. apply (wp_get_dev n _ d); [done|]. cbv zeta. kstep. apply (wp_mod_dev n _ d); [done|]. intros Hd1.
  set (d1 := set_dev_open_flag _ d) in *. set (s1 := set_d_devs _ s) in *. kstep. kstep. apply (wp_dev_type n _ d1); [done|]. kstep. apply (wp_get_dev n _ d1); [done|]. change (dev_ref_count d1) with (dev_ref_count d).
  assert (forall s2, dev_at n s2 d1 -> mem_of s2 = mem_of s -> c_console (d_world s2) = c_console (d_world s) -> wp (mod_dev n (set_dev_open_flag (dev_open_flag d))) s2 (fun _ s' => console_kept n d s s' /\ sent s' = sent s2)) as Hend.
  { intros s2 Hd2 Em Ec. apply (wp_mod_dev n _ d1); [done|]. intros Hd3. replace (set_dev_open_flag (dev_open_flag d) d1) with d in * by by destruct d. by split; [split|]. }
  destruct (dev_ref_count d =? 0).
  - kstep. eapply wp_mono; [by apply (dev_set_errno_wp n _ d1)|]. intros [] s2 (Hd2 & _ & Ew). kstep. assert (d_world s2 = d_world s) as Ew' by done. eapply wp_mono; [apply (Hend s2); [done|unfold mem_of; by rewrite Ew'|by rewrite Ew']|]. intros [] s' [? Hs]. split; [done|]. rewrite Hs. unfold sent. by rewrite Ew'.
  - rewrite Eh. eapply wp_mono; [apply (Hh s1 d1); [done|done]|]. intros r s2 (Hd2 & Em & Ec & Es). eapply wp_mono; [by apply (Hend s2)|]. intros [] s' [? Hs]. split; [done|]. rewrite Hs, Es. unfold d1. cbn [dev_open_flag set_dev_open_flag]. by rewrite has_stream.
Qed.

(** Rt_kputs.  The string goes to the console device in stream mode, if the
    device is open, and nowhere otherwise; the open flags of the device and the
    memory are afterwards what they were.  Without a console device the board's
    function gets the string; RT_NULL is ignored. *)
Theorem rt_kputs_correct s str l :
  cstr (mem_of s) str l -> str <> 0 ->
  rt_kputs 0 s = Ok tt s /\
  (c_console (d_world s) = None -> rt_kputs str s = rt_hw_console_output str s) /\
  forall n d, c_console (d_world s) = Some n -> console_driver n -> dev_at n s d ->
    wp (rt_kputs str) s (fun _ s' => console_kept n d s s' /\ sent s' = if dev_ref_count d =? 0 then sent s else sent s ++ enc true l).
Proof using.
  intros Hs Hz. split; [done|]. unfold rt_kputs, rt_console_get_device. rewrite (proj2 (Z.eqb_neq str 0)) by done. split.
  - intros Ec. unfold bind, gets. by rewrite Ec.
  - intros n d Ec Hdr Hd. kstep. kstep. rewrite Ec. kstep. apply wp_zoom. eapply wp_mono; [by apply (rt_strlen_wp _ _ l)|]. intros r m' [-> ->]. replace (set_d_world _ s) with s by by destruct s as [? ? ? []].
    apply (console_write_wp n s d str l); [done|done|]. destruct Hs as [_ Hr]. apply (read_bytes_take _ _ _ _ (length l)) in Hr; [|lia]. rewrite Hr. unfold cstring. by rewrite take_app_length.
Qed.

(** What rt_kprintf sends for a text: all of it up to 254 characters; of a longer
    one the first 254, and the NUL behind them. *)
Definition console_text (t : list Z) : list Z := if decide (length t <= 254)%nat then t else take 254 t ++ [0].

(** Rt_kprintf.  The text of the format, cut to the size of the buffer, goes
    to the console device in stream mode, if the device is open, and nowhere
    otherwise; outside the buffer nothing changes.  Without a console device the
    board's function gets the buffer. *)
Theorem rt_kprintf_correct s buf fmt args l t strs :
  let size := RT_CONSOLEBUF_SIZE - 1 in
  0 <= buf -> buf + size < 2 ^ 32 -> Z.of_nat (length t) < 2 ^ 31 -> buf + Z.of_nat (length t) < 2 ^ 32 -> mapped (mem_of s) buf 256 = true -> readable (mem_of s) buf size t fmt l ->
  (forall a x, strs a = Some x -> readable (mem_of s) buf size t a x /\ Z.of_nat (length x) < 2 ^ 31) -> format_text strs l args = Some t ->
  let s1 := set_d_world (mkCon (write_bytes buf (printed size t) (mem_of s)) (c_console (d_world s)) (c_world (d_world s))) s in
  (c_console (d_world s) = None -> rt_kprintf buf fmt args s = rt_hw_console_output buf s1) /\
  forall n d, c_console (d_world s) = Some n -> console_driver n -> dev_at n s d ->
    wp (rt_kprintf buf fmt args) s (fun _ s' => console_kept n d s1 s' /\ sent s' = if dev_ref_count d =? 0 then sent s else sent s ++ enc true (console_text t)).
Proof using.
  intros size Hb He Hl Hf Hm Hr Hstrs Ht s1.
  assert (wp (rt_vsnprintf buf size fmt args) (mem_of s) (fun r m' => r = Z.of_nat (length t) /\ m' = write_bytes buf (printed size t) (mem_of s))) as Hv.
  { apply (rt_vsnprintf_wp _ _ _ _ _ l t strs); try done. pose proof (mapped_sub _ _ _ 0 (used_part size t) Hm) as Hx. rewrite Z.add_0_r in Hx. apply Hx. unfold used_part. change (Z.to_nat size) with 255%nat. lia. }
  destruct (wp_run _ _ _ Hv) as (r & m' & Er & -> & ->). assert (in_mem (rt_vsnprintf buf size fmt args) s = Ok (Z.of_nat (length t)) s1) as Ein by (unfold in_mem, zoom; change (c_mem (d_world s)) with (mem_of s); by rewrite Er).
  assert (printed size t = take 254 t ++ [0]) as Epr by done. assert (length (printed size t) = Nat.min 255 (S (length t))) as Hpl. { rewrite Epr, length_app, length_take. cbn [length]. lia. }
  assert ((if RT_CONSOLEBUF_SIZE - 1 <? u32 (Z.of_nat (length t)) then RT_CONSOLEBUF_SIZE - 1 else u32 (Z.of_nat (length t))) = Z.of_nat (length (console_text t))) as Elen.
  { rewrite u32_small by lia. change (RT_CONSOLEBUF_SIZE - 1) with 255. unfold console_text. destruct (Z.ltb_spec 255 (Z.of_nat (length t))); case_decide; rewrite ?length_app, ?length_take; cbn [length]; lia. }
  split; unfold rt_kprintf.
  - intros Ec. rewrite (bind_ok _ _ _ _ _ Ein). cbv zeta. unfold rt_console_get_device, bind, gets. change (c_console (d_world s1)) with (c_console (d_world s)). by rewrite Ec.
  - intros n d Ec Hdr Hd. apply wp_bind. unfold wp at 1. fold size in Elen |- *. rewrite Ein. cbv zeta. rewrite Elen. unfold rt_console_get_device. apply wp_bind, wp_gets. change (c_console (d_world s1)) with (c_console (d_world s)). rewrite Ec.
    change (sent s) with (sent s1). apply (console_write_wp n s1 d buf (console_text t)); [done|by destruct Hd|]. change (mem_of s1) with (write_bytes buf (printed size t) (mem_of s)).
    assert (exists rest, printed size t = console_text t ++ rest) as [rest Ep].
    { rewrite Epr. unfold console_text. case_decide; [exists [0]; by rewrite take_ge|exists []; by rewrite app_nil_r]. }
    pose proof (read_write_same (mem_of s) buf (length (printed size t)) (printed size t) eq_refl) as Hx. apply (read_bytes_take _ _ _ _ (length (console_text t))) in Hx; [|rewrite Ep, length_app; lia]. rewrite Hx, Ep. by rewrite take_app_length.
Qed.

(** A console device that could not be opened swallows everything.
    rt_console_set_device ignores the result of rt_device_open: with a device
    whose driver fails to initialise, the console is that device, the call
    returns as if all were well, and nothing is printed from then on. *)
Theorem console_failed_open s n d name h :
  wf (d_k s) -> cinv (d_k s) -> 0 <= k_lock_nest (d_k s) < 2 ^ 15 - 1 -> chars_ok name -> c_console (d_world s) = None ->
  head (filter (name_is (d_k s) name) (object_list (d_k s) RT_Object_Class_Device)) = Some (ODevice n) ->
  dev_at n s d -> dev_has (dev_flag d) RT_DEVICE_FLAG_ACTIVATED = false -> dev_ref_count d = 0 -> op_init (ops n) = Some h -> (forall s, h s = Ok (- RT_ERROR) s) -> console_driver n ->
  wp (rt_console_set_device (cstring name)) s (fun r s' => r = None /\ c_console (d_world s') = Some n /\ dev_at n s' d /\ mem_of s' = mem_of s /\ sent s' = sent s /\
    forall str l, cstr (mem_of s') str l -> str <> 0 -> wp (rt_kputs str) s' (fun _ s2 => sent s2 = sent s)).
Proof using.
  intros Hw Hc Hl Hn Ec Hfind Hd Ha Hr Eh Hh Hdr. unfold rt_console_set_device, rt_console_get_device. kstep. kstep. rewrite Ec. kstep. eapply wp_mono; [by apply rt_device_find_wp|]. intros r s1 (k & -> & Hwk & F & ->). rewrite Hfind.
  set (s1 := set_d_k k s). assert (dev_at n s1 d) as Hd1.
  { destruct Hd as [T _ E]. destruct (sched_frame_objects _ _ F) as (Eo & _). split; [unfold has_type, s1; cbn; by rewrite Eo| |done]. intros c Hcur. destruct (wf_current Hwk c Hcur) as (th & Et & _). by exists th. }
  kstep. kstep. kstep. kstep. unfold rt_device_open, open_init. kstep. apply (wp_dev_type n _ d); [done|]. kstep. kstep. apply (wp_get_dev n _ d); [done|]. rewrite Ha, Eh. kstep. unfold wp at 1. rewrite Hh. change (- RT_ERROR =? RT_EOK) with false. cbn [when]. kstep. kstep. kstep. cbn [negb]. kstep. kstep. kstep.
  split_and!; [done|done|by destruct Hd1|done|done|]. intros str l Hs Hz. unfold rt_kputs, rt_console_get_device. rewrite (proj2 (Z.eqb_neq str 0)) by done. kstep. kstep. cbn [set_d_world d_world c_console]. kstep. apply wp_zoom. eapply wp_mono; [by apply (rt_strlen_wp _ _ l)|]. intros r m' [-> ->].
  eapply wp_mono; [apply (console_write_wp n _ d str l); [done|by destruct Hd1|]|].
  - destruct Hs as [_ Hx]. apply (read_bytes_take _ _ _ _ (length l)) in Hx; [|lia]. unfold cstring in Hx. by rewrite take_app_length in Hx.
  - intros [] s' [_ Es]. rewrite Hr in Es. cbn [Z.eqb] in Es. by rewrite Es.
  - done.
Qed.
End console.

(** ** Witnesses *)

(** A driver that keeps what it is given; the format "a%dz" is at 100, the buffer
    at 2000. *)
Definition keep_write : Z -> Z -> Z -> D (W := con (list Z)) Z := fun _ buf size =>
  bytes <- deref (fun s => read_bytes (c_mem (d_world s)) buf (Z.to_nat size)) ;;
  modify (fun s => set_d_world (mkCon (c_mem (d_world s)) (c_console (d_world s)) (c_world (d_world s) ++ bytes)) s) ;;
  ret size.
Definition keep_driver (n : nat) : rt_device_ops (con (list Z)) := mkOps (Some (ret (- RT_ERROR))) None None None (Some keep_write) None.
Definition no_output : Z -> D (W := con (list Z)) unit := fun _ => ret tt.
Definition sample_console_mem : mem := write_bytes 100 [97; 37; 100; 122; 0] (write_bytes 2000 (replicate 256 0) ∅).
Definition sample_console (flag : Z) (refs : Z) (c : option nat) : dst (con (list Z)) :=
  mkDst (set_k_containers (<[RT_Object_Class_Device := [ODevice 64]]> (k_containers sample)) (d_k sample_devices)) {[ 64%nat := mkDev 0 flag 0x00b refs None None None empty_wqueue ]} 0 (mkCon sample_console_mem c []).

Lemma keep_console_driver n : console_driver keep_driver id (fun _ l => l) n.
Proof.
  eexists. split; [reflexivity|]. intros s d pos buf bytes Hd Hb. unfold keep_write. kstep. apply (wp_deref _ bytes); [by rewrite Nat2Z.id|]. kstep. kstep. kstep. split_and!; try done. by destruct Hd.
Qed.
Lemma sample_console_at flag refs c : dev_at 64 (sample_console flag refs c) (mkDev 0 flag 0x00b refs None None None empty_wqueue).
Proof. split; [|intros t [= <-]; by eexists|done]. eexists. split; [apply lookup_insert_eq|done]. Qed.
Lemma sample_console_text flag refs c : cstr (mem_of (sample_console flag refs c)) 100 [97; 37; 100; 122].
Proof. split; [repeat constructor; lia|]. unfold mem_of, sample_console. cbn [d_world c_mem]. vm_compute. reflexivity. Qed.

Lemma rt_kputs_correct_witness :
  wp (rt_kputs keep_driver no_output 100) (sample_console 0x018 1 (Some 64%nat)) (fun _ s' => sent id s' = [97; 37; 100; 122]).
Proof.
  destruct (rt_kputs_correct keep_driver no_output id (fun _ l => l) (sample_console 0x018 1 (Some 64%nat)) 100 _ (sample_console_text _ _ _) ltac:(done)) as (_ & _ & H).
  eapply wp_mono; [exact (H 64%nat _ eq_refl (keep_console_driver 64) (sample_console_at _ _ _))|]. by intros [] s' [_ ->].
Defined.
Lemma rt_kprintf_correct_witness :
  wp (rt_kprintf keep_driver no_output 2000 100 [7]) (sample_console 0x018 1 (Some 64%nat)) (fun _ s' => sent id s' = [97; 55; 122]).
Proof.
  destruct (rt_kprintf_correct keep_driver no_output id (fun _ l => l) (sample_console 0x018 1 (Some 64%nat)) 2000 100 [7] [97; 37; 100; 122] [97; 55; 122] (fun _ => None)) as (_ & H).
  - lia.
  - unfold RT_CONSOLEBUF_SIZE. lia.
  - cbn [length]. lia.
  - cbn [length]. lia.
  - vm_compute. reflexivity.
  - split; [apply sample_console_text|]. intros i Hi. cbn in Hi |- *. lia.
  - discriminate.
  - vm_compute. reflexivity.
  - eapply wp_mono; [exact (H 64%nat _ eq_refl (keep_console_driver 64) (sample_console_at _ _ _))|]. intros [] s' [_ ->]. vm_compute. reflexivity.
Defined.
