(* ===== verification/Rtc.v ===== *)
(** * The clock of the system (time and gettimeofday of time.c, components/drivers/rtc)

    time asks the device "rtc" for the seconds since 1970; set_time and set_date
    compute new seconds with the calendar and hand them to it.  The device is the
    one of soft_rtc.c, which counts the ticks of the kernel.  A time_t variable a
    pointer is passed to is a cell of the driver's world. *)

From S2P Require Import Prelude Ffs KState Kservice Str Calendar Wf Inv Sched Object Timer Thread TimerRun Sleep Clock Ipc Errno Beside WaitQueue Device.

Definition RT_DEVICE_CTRL_RTC_GET_TIME : Z := 0x10.
Definition RT_DEVICE_CTRL_RTC_SET_TIME : Z := 0x11.
Definition RT_DEVICE_FLAG_RDWR : Z := 0x003.
Definition RT_Device_Class_RTC : Z := 5.

(** The static variables of soft_rtc.c and of time, and the time_t variables. *)
Record rtc := mkRtc { init_tick : Z; init_time : Z; init_ok : bool; time_device : option nat; cells : gmap Z Z }.
Definition set_init_tick (v : Z) (w : rtc) : rtc := mkRtc v (init_time w) (init_ok w) (time_device w) (cells w).
Definition set_init_time (v : Z) (w : rtc) : rtc := mkRtc (init_tick w) v (init_ok w) (time_device w) (cells w).
Definition set_init_ok (v : bool) (w : rtc) : rtc := mkRtc (init_tick w) (init_time w) v (time_device w) (cells w).
Definition set_time_device (v : option nat) (w : rtc) : rtc := mkRtc (init_tick w) (init_time w) (init_ok w) v (cells w).
Definition set_cells (v : gmap Z Z) (w : rtc) : rtc := mkRtc (init_tick w) (init_time w) (init_ok w) (time_device w) v.

Notation R A := (D (W := rtc) A).
Definition set_w (f : rtc -> rtc) : R unit := modify (fun s => mkDst (d_k s) (d_devs s) (d_errno s) (f (d_world s))).
Definition get_cell (a : Z) : R Z := deref (fun s => cells (d_world s) !! a).
Definition set_cell (a v : Z) : R unit := set_w (fun w => set_cells (<[a := v]> (cells w)) w).

(** "rtc" *)
Definition rtc_name : list Z := [114; 116; 99].

Section rtc.
Context (time_t : Z -> Z).

(** ** soft_rtc.c *)

(** [(rt_tick_get() - init_tick) / RT_TICK_PER_SECOND] *)
Definition seconds_passed (tick : Z) (w : rtc) : Z := u32 (tick - init_tick w) / RT_TICK_PER_SECOND.

Definition soft_rtc_control (cmd args : Z) : R Z :=
  tick <- in_dk rt_tick_get ;;
  w <- gets d_world ;;
  (if cmd =? RT_DEVICE_CTRL_RTC_GET_TIME then set_cell args (time_t (init_time w + seconds_passed tick w))
   else if cmd =? RT_DEVICE_CTRL_RTC_SET_TIME then v <- get_cell args ;; set_w (set_init_time (time_t (v - seconds_passed tick w)))
   else ret tt) ;;
  ret RT_EOK.
Definition soft_rtc_ops : rt_device_ops rtc := mkOps None None None None None (Some soft_rtc_control).

(** SOFT_RTC_TIME_DEFAULT: the first of January 2018 *)
Definition soft_rtc_time_default : tm := mkTm 0 0 0 1 (1 - 1) (2018 - 1900) 0 0.

(** [soft_rtc_dev]: the device of the driver. *)
Definition rt_soft_rtc_init (soft_rtc_dev : nat) : R Z :=
  w <- gets d_world ;;
  if init_ok w then ret 0
  else
    found <- rt_device_find (cstring rtc_name) ;;
    RT_ASSERT (bool_decide (found = None)) ;;
    tick <- in_dk rt_tick_get ;;
    set_w (set_init_tick tick) ;;
    '(t, _) <- mktime time_t soft_rtc_time_default ;;
    set_w (set_init_time t) ;;
    mod_dev soft_rtc_dev (fun d => mkDev RT_Device_Class_RTC (dev_flag d) (dev_open_flag d) (dev_ref_count d) (dev_rx_indicate d) (dev_tx_complete d) (dev_fops d) (dev_wait_queue d)) ;;
    rt_device_register (Some soft_rtc_dev) (cstring rtc_name) RT_DEVICE_FLAG_RDWR ;;
    set_w (set_init_ok true) ;;
    ret 0.

(** ** time.c *)

(** [time_now] is the address of the local variable of time and gettimeofday,
    [v_now] that of set_date and set_time. *)
Context (ops : nat -> rt_device_ops rtc) (time_now v_now : Z).

(** [t]: the argument, if it is not RT_NULL. *)
Definition time (t : option Z) : R Z :=
  set_cell time_now 0 ;;
  w <- gets d_world ;;
  match time_device w with
  | Some _ => ret tt
  | None =>
      found <- rt_device_find (cstring rtc_name) ;;
      match found with Some (ODevice n) => set_w (set_time_device (Some n)) | _ => ret tt end
  end ;;
  w <- gets d_world ;;
  match time_device w with
  | Some n =>
      r <- rt_device_open (ops n) n 0 ;;
      when (r =? RT_EOK) (rt_device_control (ops n) n RT_DEVICE_CTRL_RTC_GET_TIME time_now ;; rt_device_close (ops n) n ;; ret tt)
  | None => ret tt
  end ;;
  now <- get_cell time_now ;;
  match t with Some a => set_cell a now | None => ret tt end ;;
  ret now.

(** [tp]: the addresses of tv_sec and tv_usec, if it is not RT_NULL; the result is
    an int. *)
Definition gettimeofday (tp : option (Z * Z)) : R Z :=
  set_cell time_now 0 ;;
  found <- rt_device_find (cstring rtc_name) ;;
  RT_ASSERT (bool_decide (is_Some found)) ;;
  match found with
  | Some (ODevice n) =>
      rt_device_control (ops n) n RT_DEVICE_CTRL_RTC_GET_TIME time_now ;;
      now <- get_cell time_now ;;
      match tp with Some (sec, usec) => set_cell sec now ;; set_cell usec 0 | None => ret tt end ;;
      ret (i32 now)
  | _ => halt
  end.

(** ** rtc.c *)

(** The common part of set_date and set_time: [change] gives the new fields. *)
Definition set_clock (change : tm -> tm) : R Z :=
  now <- time None ;;
  set_cell v_now now ;;
  in_dk rt_enter_critical ;;
  tm_new <- localtime_r time_t now ;;
  in_dk rt_exit_critical ;;
  '(now, _) <- mktime time_t (change tm_new) ;;
  set_cell v_now now ;;
  found <- rt_device_find (cstring rtc_name) ;;
  match found with
  | Some (ODevice n) => rt_device_control (ops n) n RT_DEVICE_CTRL_RTC_SET_TIME v_now
  | _ => ret (- RT_ERROR)
  end.

Definition with_date (year month day : Z) (t : tm) : tm :=
  mkTm (tm_sec t) (tm_min t) (tm_hour t) (i32 day) (i32 (month - 1)) (i32 (year - 1900)) (tm_wday t) (tm_yday t).
Definition with_time (hour minute second : Z) (t : tm) : tm :=
  mkTm (i32 second) (i32 minute) (i32 hour) (tm_mday t) (tm_mon t) (tm_year t) (tm_wday t) (tm_yday t).
Definition set_date (year month day : Z) : R Z := set_clock (with_date year month day).
Definition set_time (hour minute second : Z) : R Z := set_clock (with_time hour minute second).

(** What the command date prints. *)
Inductive date_message := ShowTime (t : Z) | YearRange | MonthRange | DayRange | HourRange | MinuteRange | SecondRange | Usage | Quiet.
(** [args]: what atoi makes of the words behind the command. *)
Definition date (args : list Z) : R date_message :=
  match args with
  | [] => now <- time None ;; ret (ShowTime now)
  | year :: month :: day :: hour :: min :: sec :: _ =>
      let year := u16 year in let month := u8 month in let day := u8 day in
      let hour := u8 hour in let min := u8 min in let sec := u8 sec in
      if (2099 <? year) || (year <? 2000) then ret YearRange
      else if (month =? 0) || (12 <? month) then ret MonthRange
      else if (day =? 0) || (31 <? day) then ret DayRange
      else if 23 <? hour then ret HourRange
      else if 59 <? min then ret MinuteRange
      else if 59 <? sec then ret SecondRange
      else set_time hour min sec ;; set_date year month day ;; ret Quiet
  | _ => ret Usage
  end.
End rtc.

Section correct.
Context (time_t : Z -> Z) (time_max : Z).
Context (time_max_low : 2 ^ 31 <= time_max) (time_max_high : time_max <= 2 ^ 55) (time_t_fits : forall x, 0 <= x < time_max -> time_t x = x).
(** An integer type wraps around: *)
Context (time_t_wraps : forall x y, time_t (time_t x + y) = time_t (x + y)).
(** The device [n] of the driver of soft_rtc.c is the one called "rtc". *)
Context (ops : nat -> rt_device_ops rtc) (time_now v_now : Z) (n : nat) (ops_n : ops n = soft_rtc_ops time_t).
Implicit Types s : dst rtc.

Record rtc_sys s : Prop := {
  rs_wf : wf (d_k s);
  rs_cinv : cinv (d_k s);
  rs_lock : 0 <= k_lock_nest (d_k s) < 2 ^ 15 - 1;
  rs_found : head (filter (name_is (d_k s) rtc_name) (object_list (d_k s) RT_Object_Class_Device)) = Some (ODevice n);
  rs_cache : time_device (d_world s) = None \/ time_device (d_world s) = Some n;
  rs_dev : exists d, dev_at n s d /\ dev_has (dev_flag d) RT_DEVICE_FLAG_STANDALONE = false /\ 0 <= dev_ref_count d < 255
}.
(** The time the clock shows. *)
Definition clock_time s : Z := time_t (init_time (d_world s) + seconds_passed (k_tick (d_k s)) (d_world s)).
Definition same_clock s s' : Prop :=
  k_tick (d_k s') = k_tick (d_k s) /\ init_tick (d_world s') = init_tick (d_world s) /\ init_time (d_world s') = init_time (d_world s).

Lemma same_clock_time s s' : same_clock s s' -> clock_time s' = clock_time s.
Proof using. intros (E1 & E2 & E3). unfold clock_time, seconds_passed. by rewrite E1, E2, E3. Qed.
Lemma same_clock_refl s : same_clock s s.
Proof using. done. Qed.
Lemma same_clock_trans s1 s2 s3 : same_clock s1 s2 -> same_clock s2 s3 -> same_clock s1 s3.
Proof using. intros (? & ? & ?) (? & ? & ?). split_and!; congruence. Qed.

(** A change of the kernel state by the scheduler. *)
Lemma rtc_sys_frame s k : rtc_sys s -> wf k -> sched_frame (d_k s) k -> rtc_sys (set_d_k k s) /\ same_clock s (set_d_k k s).
Proof using.
  intros [H1 H2 H3 H4 H5 (d & [T _ E] & Ha & Hr)] Hw F. destruct (sched_frame_objects _ _ F) as (E1 & E2 & E3 & _). split; [split|]; cbn [d_k d_world set_d_k].
  - done.
  - by apply (cinv_same (d_k s)).
  - by rewrite E3.
  - rewrite (list_filter_iff _ (name_is (d_k s) rtc_name)) by (intros o; unfold name_is; by rewrite E1). unfold object_list in *. by rewrite E2.
  - done.
  - exists d. split_and!; [split; [unfold has_type; cbn; by rewrite E1|intros c Hc; destruct (wf_current Hw c Hc) as (th & Et & _); by exists th|done]|done|lia..].
  - split_and!; [by apply sched_frame_tick|done|done].
Qed.
(** A change of the driver's world. *)
Lemma rtc_sys_world s f : rtc_sys s -> time_device (f (d_world s)) = None \/ time_device (f (d_world s)) = Some n -> rtc_sys (mkDst (d_k s) (d_devs s) (d_errno s) (f (d_world s))).
Proof using. intros [H1 H2 H3 H4 H5 (d & [T C E] & Ha & Hr)] Hf. split; [done..|exact Hf|]. exists d. split_and!; [by split|done|lia..]. Qed.
Lemma set_cell_wp s a v (Q : unit -> dst rtc -> Prop) : rtc_sys s ->
  (forall s', rtc_sys s' -> same_clock s s' -> cells (d_world s') !! a = Some v -> time_device (d_world s') = time_device (d_world s) -> Q tt s') -> wp (set_cell a v) s Q.
Proof using.
  intros Hs HQ. unfold set_cell, set_w. kstep. apply HQ; [apply (rtc_sys_world s (fun w => set_cells (<[a := v]> (cells w)) w)); [done|by destruct Hs]|done|cbn; apply lookup_insert_eq|done].
Qed.
Lemma find_rtc_wp s : rtc_sys s -> wp (rt_device_find (cstring rtc_name)) s (fun r s' => r = Some (ODevice n) /\ rtc_sys s' /\ same_clock s s' /\ d_world s' = d_world s).
Proof using.
  intros Hs. destruct (Hs) as [H1 H2 H3 H4 _ _]. eapply wp_mono; [apply rt_device_find_wp; [done|done|done|by repeat constructor]|]. intros r s' (k & -> & Hw & F & ->). destruct (rtc_sys_frame s k Hs Hw F). by split_and!.
Qed.

(** ** The driver through the device layer *)

Definition shared (lo hi : Z) s : Prop := exists d, dev_at n s d /\ dev_has (dev_flag d) RT_DEVICE_FLAG_STANDALONE = false /\ lo <= dev_ref_count d < hi.
Lemma rtc_sys_dev s s' : rtc_sys s -> d_k s' = d_k s -> d_world s' = d_world s -> shared 0 255 s' -> rtc_sys s'.
Proof using. intros [H1 H2 H3 H4 H5 _] E1 E2 Hd. split; rewrite ?E1, ?E2; done. Qed.

Lemma soft_open_wp s : shared 0 255 s -> wp (rt_device_open (ops n) n 0) s (fun r s' => r = RT_EOK /\ shared 1 256 s' /\ d_k s' = d_k s /\ d_world s' = d_world s).
Proof using ops_n.
  intros (d & Hd & Ha & Hr). rewrite ops_n. unfold rt_device_open, open_init, soft_rtc_ops. cbn [op_init op_open]. kstep. apply (wp_dev_type n _ d); [done|].
  kstep. apply (wp_mono _ _ (fun r s1 => r = RT_EOK /\ d_k s1 = d_k s /\ d_world s1 = d_world s /\ exists d1, dev_at n s1 d1 /\ dev_has (dev_flag d1) RT_DEVICE_FLAG_STANDALONE = false /\ dev_ref_count d1 = dev_ref_count d)).
  { kstep. apply (wp_get_dev n _ d); [done|]. kstep; kstep; [by split_and!; try done; exists d|]. kstep. kstep. change (RT_EOK =? RT_EOK) with true. cbn [when]. apply (wp_mod_dev n _ d); [done|]. intros Hd1. kstep. split_and!; [done|done|done|]. eexists. split_and!; [exact Hd1| |done]. cbn [dev_flag set_dev_flag]. by rewrite standalone_activated. }
  intros r s1 (-> & Ek & Ew & d1 & Hd1 & Ha1 & Er1). cbn [negb Z.eqb]. change (RT_EOK =? RT_EOK) with true. cbn [negb]. kstep. apply (wp_get_dev n _ d1); [done|]. rewrite Ha1. cbn [andb]. kstep. kstep. apply (wp_mod_dev n _ d1); [done|]. intros Hd2. kstep. kstep. change (succeeded RT_EOK) with true. cbn [when].
  kstep. apply (wp_mod_dev n _ _ _ _ Hd2). intros Hd3. kstep. apply (wp_mod_dev n _ _ _ _ Hd3). intros Hd4. kstep. apply (wp_get_dev n _ _ _ Hd4). assert (u8 (dev_ref_count d1 + 1) = dev_ref_count d + 1) as Eu by (rewrite Er1; apply u8_small; lia).
  apply wp_assert; [cbn [dev_ref_count set_dev_ref_count set_dev_open_flag]; rewrite Eu; by rewrite (proj2 (Z.eqb_neq _ _)) by lia|]. kstep. split_and!; [done| |done|done]. eexists. split_and!; [exact Hd4|done|cbn; rewrite Eu; lia..].
Qed.
Lemma soft_close_wp s : shared 1 256 s -> wp (rt_device_close (ops n) n) s (fun r s' => shared 0 255 s' /\ d_k s' = d_k s /\ d_world s' = d_world s).
Proof using ops_n.
  intros (d & Hd & Ha & Hr). rewrite ops_n. unfold rt_device_close, soft_rtc_ops. cbn [op_close]. kstep. apply (wp_dev_type n _ d); [done|]. kstep. apply (wp_get_dev n _ d); [done|]. rewrite (proj2 (Z.eqb_neq _ _)) by lia.
  kstep. apply (wp_mod_dev n _ d); [done|]. intros Hd1. kstep. apply (wp_get_dev n _ _ _ Hd1). assert (u8 (dev_ref_count d - 1) = dev_ref_count d - 1) as Eu by (apply u8_small; lia). kstep.
  - kstep. split_and!; [|done|done]. eexists. split_and!; [exact Hd1|done|cbn; rewrite Eu; lia..].
  - kstep. kstep. kstep. change (succeeded RT_EOK) with true. cbn [when]. apply (wp_mod_dev n _ _ _ _ Hd1). intros Hd2. kstep. split_and!; [|done|done]. eexists. split_and!; [exact Hd2|done|cbn; rewrite Eu; lia..].
Qed.
Lemma get_time_wp s a lo hi (Q : Z -> dst rtc -> Prop) : shared lo hi s ->
  (forall s', shared lo hi s' -> d_k s' = d_k s -> d_world s' = set_cells (<[a := clock_time s]> (cells (d_world s))) (d_world s) -> Q RT_EOK s') ->
  wp (rt_device_control (ops n) n RT_DEVICE_CTRL_RTC_GET_TIME a) s Q.
Proof using ops_n.
  intros (d & Hd & Ha & Hr) HQ. rewrite ops_n. unfold rt_device_control, soft_rtc_ops, soft_rtc_control. cbn [op_control]. kstep. apply (wp_dev_type n _ d); [done|]. unfold rt_tick_get. kstep. apply wp_zoom. kstep. kstep. kstep. change (RT_DEVICE_CTRL_RTC_GET_TIME =? RT_DEVICE_CTRL_RTC_GET_TIME) with true. cbv iota. unfold set_cell, set_w. kstep. kstep. kstep.
  apply HQ; [|done|done]. exists d. split_and!; [by destruct Hd; split|done|lia..].
Qed.

Lemma set_time_ctrl_wp s a v (Q : Z -> dst rtc -> Prop) : rtc_sys s -> cells (d_world s) !! a = Some v -> 0 <= v < time_max ->
  (forall s', rtc_sys s' -> k_tick (d_k s') = k_tick (d_k s) -> init_tick (d_world s') = init_tick (d_world s) -> clock_time s' = v -> Q RT_EOK s') ->
  wp (rt_device_control (ops n) n RT_DEVICE_CTRL_RTC_SET_TIME a) s Q.
Proof using ops_n time_t_fits time_t_wraps.
  intros Hs Ea Hv HQ. destruct (rs_dev _ Hs) as (d & Hd & _). rewrite ops_n. unfold rt_device_control, soft_rtc_ops, soft_rtc_control. cbn [op_control]. kstep. apply (wp_dev_type n _ d); [done|]. unfold rt_tick_get. kstep. apply wp_zoom. kstep. kstep. kstep.
  change (RT_DEVICE_CTRL_RTC_SET_TIME =? RT_DEVICE_CTRL_RTC_GET_TIME) with false. change (RT_DEVICE_CTRL_RTC_SET_TIME =? RT_DEVICE_CTRL_RTC_SET_TIME) with true. cbv iota. unfold get_cell, set_w. kstep. kstep. apply (wp_deref _ v); [done|]. kstep. kstep.
  apply HQ; [apply (rtc_sys_world s (set_init_time _)); [done|by destruct Hs]|done|done|]. unfold clock_time. cbn [d_world d_k init_time set_init_time]. rewrite time_t_wraps. change (seconds_passed _ (set_init_time _ (d_world s))) with (seconds_passed (k_tick (d_k s)) (d_world s)). rewrite Z.sub_add. by apply time_t_fits.
Qed.

Lemma time_wp t s : rtc_sys s -> wp (time ops time_now t) s (fun r s' => r = clock_time s /\ rtc_sys s' /\ same_clock s s' /\ forall a, t = Some a -> cells (d_world s') !! a = Some r).
Proof using ops_n.
  intros Hs. unfold time. kstep. apply set_cell_wp; [done|]. intros s1 Hs1 C1 _ _. kstep. kstep. kstep.
  apply (wp_mono _ _ (fun _ s2 => rtc_sys s2 /\ same_clock s s2 /\ time_device (d_world s2) = Some n)).
  { destruct (rs_cache _ Hs1) as [E|E]; rewrite E; [|by kstep]. kstep. eapply wp_mono; [by apply find_rtc_wp|]. intros r s2 (-> & Hs2 & C2 & _). unfold set_w. kstep. split_and!; [apply (rtc_sys_world s2 (set_time_device (Some n))); [done|by right]|by apply (same_clock_trans _ s1); [|apply (same_clock_trans _ s2)]|done]. }
  intros [] s2 (Hs2 & C2 & E2). kstep. kstep. rewrite E2. kstep. kstep. eapply wp_mono; [apply soft_open_wp; by destruct Hs2|]. intros r s3 (-> & Hsh & Ek & Ew). change (RT_EOK =? RT_EOK) with true. cbn [when]. kstep. eapply get_time_wp; [exact Hsh|]. intros s4 Hsh4 Ek4 Ew4. kstep. eapply wp_mono; [by apply soft_close_wp|]. intros r s5 (Hsh5 & Ek5 & Ew5). kstep.
  assert (clock_time s3 = clock_time s) as Et. { rewrite <- (same_clock_time s s2 C2). unfold clock_time. by rewrite Ek, Ew. } rewrite Et in Ew4.
  assert (rtc_sys s5) as Hs5. { apply (rtc_sys_dev (mkDst (d_k s2) (d_devs s2) (d_errno s2) (set_cells (<[time_now:=clock_time s]> (cells (d_world s3))) (d_world s2)))); [apply (rtc_sys_world s2 (set_cells _)); [done|by right]|cbn; congruence| |done]. cbn. by rewrite Ew5, Ew4, Ew. }
  assert (same_clock s s5) as C5. { destruct C2 as (A1 & A2 & A3). unfold same_clock. rewrite Ek5, Ek4, Ek, Ew5, Ew4, Ew. by split_and!. }
  unfold get_cell. kstep. apply (wp_deref _ (clock_time s)); [rewrite Ew5, Ew4; apply lookup_insert_eq|]. kstep. destruct t as [a|].
  - apply set_cell_wp; [done|]. intros s6 Hs6 C6 Ea _. kstep. split_and!; [done|done|by apply (same_clock_trans _ s5)|]. by intros ? [= <-].
  - kstep. kstep. by split_and!.
Qed.

Lemma seconds_bounds t : valid_tm t -> 0 <= seconds_of t.
Proof using. intros V. pose proof (day_number_year t V) as [H _]. pose proof (days_before_year_low (Z.to_nat (tm_year t - 70))). destruct V. unfold seconds_of. lia. Qed.

(** What set_date and set_time have in common: the clock shows the date [change]
    makes of the one it showed. *)
Definition clock_changed (change : tm -> tm) s s' : Prop :=
  rtc_sys s' /\ k_tick (d_k s') = k_tick (d_k s) /\ init_tick (d_world s') = init_tick (d_world s) /\
  exists d, valid_tm d /\ seconds_of d = clock_time s /\ valid_tm (change d) /\ clock_time s' = seconds_of (change d).
Lemma set_clock_wp change s : rtc_sys s -> 0 <= clock_time s < time_max ->
  (forall d, valid_tm d -> seconds_of d = clock_time s -> valid_tm (change d) /\ seconds_of (change d) < time_max) ->
  wp (set_clock time_t ops time_now v_now change) s (fun r s' => r = RT_EOK /\ clock_changed change s s').
Proof using time_max_low time_max_high time_t_fits time_t_wraps ops_n.
  intros Hs Ht Hch. unfold set_clock. kstep. eapply wp_mono; [by apply time_wp|]. intros now s1 (-> & Hs1 & C1 & _). kstep. apply set_cell_wp; [done|]. intros s2 Hs2 C2 _ _. unfold rt_enter_critical. kstep. apply wp_zoom. kstep. pose proof (rs_lock _ Hs2) as Hl. rewrite i16_small by lia.
  set (k1 := set_k_lock_nest _ (d_k s2)). unfold localtime_r. kstep. eapply wp_mono; [by eapply (gmtime_r_wp time_t time_max)|]. intros d s' (-> & V & E & _). kstep. apply wp_zoom. cbn [d_k set_d_k].
  eapply wp_mono; [apply rt_exit_critical_wp; [by apply (wfx_same _ (d_k s2)), Hs2|unfold k1; kproj; lia]|]. intros [] k2 [Hw2 F2]. unfold k1 in F2. kproj. rewrite Z.add_simpl_r in F2.
  replace (set_k_lock_nest (k_lock_nest (d_k s2)) (set_k_lock_nest (k_lock_nest (d_k s2) + 1) (d_k s2))) with (d_k s2) in F2 by by destruct (d_k s2). destruct (rtc_sys_frame s2 k2 Hs2 Hw2 F2) as [Hs3 C3]. change (set_d_k k2 (set_d_k k1 s2)) with (set_d_k k2 s2). set (s3 := set_d_k k2 s2) in *.
  destruct (Hch d V E) as [V' Hmax]. kstep. eapply wp_mono; [by eapply (mktime_wp time_t time_max)|]. intros [v d'] s' (-> & Ev & _). cbn [fst] in Ev. subst v. kstep. apply set_cell_wp; [done|]. intros s4 Hs4 C4 Ec _. kstep. eapply wp_mono; [by apply find_rtc_wp|]. intros r s5 (-> & Hs5 & C5 & Ew5).
  assert (same_clock s s5) as (B1 & B2 & B3). { do 4 (eapply same_clock_trans; [|done]). done. }
  apply (set_time_ctrl_wp s5 _ (seconds_of (change d))); [done|by rewrite Ew5|split; [by apply seconds_bounds|done]|]. intros s6 Hs6 T6 I6 C6. split; [done|]. split_and!; [done|congruence|congruence|]. by exists d.
Qed.

Definition day_of (year month day : Z) : tm := mkTm 0 0 0 day (month - 1) (year - 1900) 0 0.
(** The day and the second of the day a date stands for. *)
Lemma seconds_split d : valid_tm d -> day_number d = seconds_of d / 86400 /\ tm_hour d * 3600 + tm_min d * 60 + tm_sec d = seconds_of d mod 86400.
Proof using.
  intros [V1 V2 V3 _ _ _]. unfold seconds_of. pose proof (Z.div_mod_unique 86400 (day_number d) (seconds_of d / 86400) (tm_hour d * 3600 + tm_min d * 60 + tm_sec d) (seconds_of d mod 86400)) as Hu. unfold seconds_of in Hu. apply Hu; [lia|left; apply Z.mod_pos_bound; lia|]. rewrite <- (Z.div_mod (_ + _ + _ + _) 86400) by lia. lia.
Qed.
Lemma set_time_wp hour minute second s : rtc_sys s -> 0 <= clock_time s -> clock_time s + 86400 <= time_max -> 0 <= hour < 24 -> 0 <= minute < 60 -> 0 <= second < 60 ->
  wp (set_time time_t ops time_now v_now hour minute second) s (fun r s' => r = RT_EOK /\ rtc_sys s' /\ k_tick (d_k s') = k_tick (d_k s) /\ init_tick (d_world s') = init_tick (d_world s) /\
    clock_time s' = clock_time s / 86400 * 86400 + hour * 3600 + minute * 60 + second).
Proof using time_max_low time_max_high time_t_fits time_t_wraps ops_n.
  intros Hs H0 Hm Hh Hmi Hse. eapply wp_mono; [apply (set_clock_wp (with_time hour minute second)); [done|lia|]|].
  - intros d [V1 V2 V3 V4 V5 V6] E. unfold with_time. rewrite !i32_small by lia. split; [by split|]. unfold seconds_of in E |- *. change (day_number (mkTm _ _ _ _ _ _ _ _)) with (day_number d). cbn [tm_sec tm_min tm_hour]. lia.
  - intros r s' (-> & Hs' & E1 & E2 & d & V & E & _ & ->). split_and!; try done. destruct (seconds_split d V) as [Ed _]. rewrite <- E, <- Ed. unfold seconds_of, with_time. change (day_number (mkTm _ _ _ _ _ _ _ _)) with (day_number d). cbn [tm_sec tm_min tm_hour]. by rewrite !i32_small by lia.
Qed.
Lemma set_date_wp year month day s : rtc_sys s -> 0 <= clock_time s < time_max -> valid_tm (day_of year month day) -> (day_number (day_of year month day) + 1) * 86400 <= time_max ->
  wp (set_date time_t ops time_now v_now year month day) s (fun r s' => r = RT_EOK /\ rtc_sys s' /\ k_tick (d_k s') = k_tick (d_k s) /\ init_tick (d_world s') = init_tick (d_world s) /\
    clock_time s' = day_number (day_of year month day) * 86400 + clock_time s mod 86400).
Proof using time_max_low time_max_high time_t_fits time_t_wraps ops_n.
  intros Hs H0 Vd Hm. pose proof (day_number_year _ Vd) as [Hlow _]. pose proof (days_before_year_low (Z.to_nat (tm_year (day_of year month day) - 70))) as Hy. destruct (Vd) as [_ _ _ W4 W5 W6]. unfold year_of, day_of in W4, W5, W6. cbn [tm_mon tm_mday tm_year] in W4, W5, W6. change (tm_year (day_of year month day)) with (year - 1900) in Hlow, Hy. destruct (month_room (year - 1900 + 1900) (month - 1) W5) as (_ & _ & H31).
  assert (forall d, with_date year month day d = mkTm (tm_sec d) (tm_min d) (tm_hour d) day (month - 1) (year - 1900) (tm_wday d) (tm_yday d)) as Ew by (intros d; unfold with_date; rewrite !i32_small by lia; done).
  eapply wp_mono; [apply (set_clock_wp (with_date year month day)); [done|lia|]|].
  - intros d [V1 V2 V3 V4 V5 V6] E. rewrite Ew. split; [split; [exact V1|exact V2|exact V3|exact W4|exact W5|exact W6]|]. unfold seconds_of. change (day_number (mkTm _ _ _ day (month - 1) (year - 1900) _ _)) with (day_number (day_of year month day)). cbn [tm_sec tm_min tm_hour]. lia.
  - intros r s' (-> & Hs' & E1 & E2 & d & V & E & _ & ->). split_and!; try done. destruct (seconds_split d V) as [_ Ed]. rewrite <- E, <- Ed, Ew. unfold seconds_of. change (day_number (mkTm _ _ _ day (month - 1) (year - 1900) _ _)) with (day_number (day_of year month day)). cbn [tm_sec tm_min tm_hour]. lia.
Qed.

(** Set_time keeps the day the clock shows and changes the time of the day;
    set_date changes the day and keeps the time of the day. *)
Theorem set_clock_correct s :
  rtc_sys s -> 0 <= clock_time s -> clock_time s + 86400 <= time_max ->
  (forall hour minute second, 0 <= hour < 24 -> 0 <= minute < 60 -> 0 <= second < 60 ->
    wp (set_time time_t ops time_now v_now hour minute second) s (fun r s' => r = RT_EOK /\ rtc_sys s' /\ clock_time s' = clock_time s / 86400 * 86400 + hour * 3600 + minute * 60 + second)) /\
  (forall year month day, valid_tm (day_of year month day) -> (day_number (day_of year month day) + 1) * 86400 <= time_max ->
    wp (set_date time_t ops time_now v_now year month day) s (fun r s' => r = RT_EOK /\ rtc_sys s' /\ clock_time s' = day_number (day_of year month day) * 86400 + clock_time s mod 86400)).
Proof using time_max_low time_max_high time_t_fits time_t_wraps ops_n.
  intros Hs H0 Hm. split.
  - intros. eapply wp_mono; [by apply set_time_wp|]. by intros r s' (-> & ? & _ & _ & ->).
  - intros. eapply wp_mono; [apply set_date_wp; [done|lia|done|done]|]. by intros r s' (-> & ? & _ & _ & ->).
Qed.

(** C40: The command date with the six numbers of a valid date of 2000 to 2099 sets
    the clock to exactly that second: time and gettimeofday return it. *)
Theorem date_correct s year month day hour min sec rest :
  let d := mkTm sec min hour day (month - 1) (year - 1900) 0 0 in
  rtc_sys s -> 0 <= clock_time s -> clock_time s + 86400 <= time_max -> 2000 <= year <= 2099 -> valid_tm d -> seconds_of d + 86400 <= time_max ->
  wp (date time_t ops time_now v_now (year :: month :: day :: hour :: min :: sec :: rest)) s (fun r s' => r = Quiet /\ rtc_sys s' /\ clock_time s' = seconds_of d /\
    wp (time ops time_now None) s' (fun t _ => t = seconds_of d)).
Proof using time_max_low time_max_high time_t_fits time_t_wraps ops_n.
  intros d Hs H0 Hm Hy V Hd. destruct (V) as [V1 V2 V3 V4 V5 V6]. unfold d, year_of in V1, V2, V3, V4, V5, V6. cbn [tm_sec tm_min tm_hour tm_mday tm_mon tm_year] in V1, V2, V3, V4, V5, V6. destruct (month_room (year - 1900 + 1900) (month - 1) V5) as (_ & _ & H31).
  unfold date. cbv zeta. rewrite u16_small, !u8_small by lia. rewrite (proj2 (Z.ltb_ge 2099 year)), (proj2 (Z.ltb_ge year 2000)), (proj2 (Z.eqb_neq month 0)), (proj2 (Z.ltb_ge 12 month)), (proj2 (Z.eqb_neq day 0)), (proj2 (Z.ltb_ge 31 day)), (proj2 (Z.ltb_ge 23 hour)), (proj2 (Z.ltb_ge 59 min)), (proj2 (Z.ltb_ge 59 sec)) by lia. cbn [orb].
  assert (valid_tm (day_of year month day)) as Vday by (split; cbn; try lia; done). assert (day_number (day_of year month day) = day_number d) as Edn by done. pose proof (seconds_bounds d V) as Hb.
  kstep. eapply wp_mono; [by apply set_time_wp|]. intros r s1 (_ & Hs1 & _ & _ & E1). pose proof (Z.div_mod (clock_time s) 86400 ltac:(lia)) as Hdm. pose proof (Z.mod_pos_bound (clock_time s) 86400 ltac:(lia)) as Hmb. assert (0 <= clock_time s / 86400) as Hdp by (apply Z.div_pos; lia).
  kstep. eapply wp_mono; [apply set_date_wp; [done|lia|done|]|]. { rewrite Edn. destruct (seconds_split d V) as [-> _]. pose proof (Z.div_mod (seconds_of d) 86400 ltac:(lia)). pose proof (Z.mod_pos_bound (seconds_of d) 86400 ltac:(lia)). lia. }
  intros r' s2 (_ & Hs2 & _ & _ & E2). assert (clock_time s2 = seconds_of d) as E3.
  { rewrite E2, E1, Edn. replace (clock_time s / 86400 * 86400 + hour * 3600 + min * 60 + sec) with (hour * 3600 + min * 60 + sec + clock_time s / 86400 * 86400) by lia. rewrite Z.mod_add, Z.mod_small by lia. unfold seconds_of. cbn [d tm_sec tm_min tm_hour]. lia. }
  kstep. split_and!; [done|done|done|]. eapply wp_mono; [by apply time_wp|]. intros t s3 (-> & _). done.
Qed.

(** Time, with and without an argument, and gettimeofday return what the clock
    shows; the clock, the openings of the device and the kernel's invariants stay
    as they were. *)
Theorem time_correct s : rtc_sys s ->
  (forall t, wp (time ops time_now t) s (fun r s' => r = clock_time s /\ rtc_sys s' /\ clock_time s' = clock_time s /\ forall a, t = Some a -> cells (d_world s') !! a = Some r)) /\
  (forall sec usec, sec <> usec -> wp (gettimeofday ops time_now (Some (sec, usec))) s (fun r s' => r = i32 (clock_time s) /\ rtc_sys s' /\ clock_time s' = clock_time s /\
    cells (d_world s') !! sec = Some (clock_time s) /\ cells (d_world s') !! usec = Some 0)).
Proof using ops_n.
  intros Hs. split.
  - intros t. eapply wp_mono; [by apply time_wp|]. intros r s' (-> & H' & C & Ha). split_and!; [done|done|by apply same_clock_time|done].
  - intros sec usec Hne. unfold gettimeofday. kstep. apply set_cell_wp; [done|]. intros s1 Hs1 C1 _ _. kstep. eapply wp_mono; [by apply find_rtc_wp|]. intros r s2 (-> & Hs2 & C2 & _). kstep. apply wp_assert; [done|]. kstep. eapply get_time_wp; [apply Hs2|]. intros s3 Hsh Ek Ew.
    assert (clock_time s2 = clock_time s) as Et by (rewrite (same_clock_time s1 s2 C2); by apply same_clock_time). rewrite Et in Ew.
    assert (rtc_sys s3) as Hs3. { apply (rtc_sys_dev (mkDst (d_k s2) (d_devs s2) (d_errno s2) (d_world s3))); [rewrite Ew; apply (rtc_sys_world s2 (set_cells _)); [done|by destruct Hs2]|by rewrite Ek|done|done]. }
    unfold get_cell. kstep. apply (wp_deref _ (clock_time s)); [rewrite Ew; apply lookup_insert_eq|]. kstep. kstep. apply set_cell_wp; [done|]. intros s4 Hs4 C4 E4 _.
    unfold set_cell, set_w. kstep. kstep. assert (clock_time s4 = clock_time s) as E4t. { rewrite (same_clock_time s3 s4 C4). unfold clock_time, seconds_passed. rewrite Ek, Ew. exact Et. }
    split_and!; [done|apply (rtc_sys_world s4 (fun w => set_cells (<[usec:=0]> (cells w)) w)); [done|by destruct Hs4]|done|cbn; by rewrite lookup_insert_ne|cbn; apply lookup_insert_eq].
Qed.

(** [k] ticks later. *)
Definition advance (k : Z) s : dst rtc := set_d_k (set_k_tick (u32 (k_tick (d_k s) + k)) (d_k s)) s.
Definition elapsed s : Z := u32 (k_tick (d_k s) - init_tick (d_world s)).
Lemma elapsed_advance k s : elapsed (advance k s) = u32 (elapsed s + k).
Proof using. unfold elapsed, advance, u32. cbn [d_k d_world set_d_k]. kproj. rewrite Zminus_mod_idemp_l, Zplus_mod_idemp_l. f_equal. lia. Qed.

(** The clock runs with the ticks of the kernel, a second for RT_TICK_PER_SECOND
    of them, as long as fewer than 2^32 ticks have passed since it was started;
    with the tick after that it falls back by 4294967 seconds (49 days). *)
Theorem soft_rtc_runs s :
  (forall k, 0 <= k -> elapsed s + k < 2 ^ 32 -> clock_time (advance k s) = time_t (clock_time s + (elapsed s mod 1000 + k) / 1000)) /\
  (elapsed s = 2 ^ 32 - 1 -> clock_time (advance 1 s) = time_t (clock_time s - 4294967)).
Proof using time_t_wraps.
  assert (0 <= elapsed s < 2 ^ 32) as He by apply u32_range. assert (forall x, clock_time x = time_t (init_time (d_world x) + elapsed x / 1000)) as Hc by done.
  split.
  - intros k Hk Hb. rewrite !Hc, elapsed_advance, u32_small by lia. change (init_time (d_world (advance k s))) with (init_time (d_world s)). rewrite time_t_wraps. f_equal. rewrite <- Z.add_assoc. f_equal. pose proof (Z.div_mod (elapsed s) 1000 ltac:(lia)) as Hd. rewrite (Z.add_comm (elapsed s / 1000)), <- Z.div_add by lia. f_equal. lia.
  - intros E. rewrite !Hc, elapsed_advance, E. change (u32 (2 ^ 32 - 1 + 1)) with 0. change (init_time (d_world (advance 1 s))) with (init_time (d_world s)). unfold Z.sub at 1. rewrite time_t_wraps. f_equal. change ((2 ^ 32 - 1) / 1000) with 4294967. change (0 / 1000) with 0. lia.
Qed.

(** Rt_soft_rtc_init registers the clock and starts it at the first of January
    2018; a second call does nothing. *)
Theorem rt_soft_rtc_init_correct s d :
  wf (d_k s) -> cinv (d_k s) -> 0 <= k_lock_nest (d_k s) < 2 ^ 15 - 1 -> (forall c, ~ registered (d_k s) c (ODevice n)) -> d_devs s !! n = Some d ->
  Forall (fun o => ~ name_is (d_k s) rtc_name o) (object_list (d_k s) RT_Object_Class_Device) -> init_ok (d_world s) = false -> time_device (d_world s) = None ->
  wp (rt_soft_rtc_init time_t n) s (fun r s' => r = 0 /\ rtc_sys s' /\ clock_time s' = seconds_of (day_of 2018 1 1) /\ elapsed s' = 0 /\ rt_soft_rtc_init time_t n s' = Ok 0 s').
Proof using time_max_low time_max_high time_t_fits.
  intros H1 H2 H3 Hun Ed Hno Hi Ht. unfold rt_soft_rtc_init. kstep. kstep. rewrite Hi. kstep. eapply wp_mono; [apply rt_device_find_wp; [done|done|done|by repeat constructor]|]. intros r s1 (k & -> & Hw & F & ->).
  assert (filter (name_is (d_k s) rtc_name) (object_list (d_k s) RT_Object_Class_Device) = []) as Ef. { clear -Hno. induction Hno as [|o l Ho _ IH]; [done|]. by rewrite filter_cons, decide_False. } rewrite Ef. kstep. apply wp_assert; [done|]. unfold rt_tick_get. kstep. apply wp_zoom. kstep. unfold set_w. kstep. kstep.
  assert (valid_tm soft_rtc_time_default) as V by (split; first [by vm_compute|cbn; lia]). kstep. eapply wp_mono; [eapply (mktime_wp time_t time_max); [done..|]|]. { replace (seconds_of soft_rtc_time_default) with 1514764800 by (by vm_compute). lia. }
  intros [v t'] s2 (-> & Ev & _). cbn [fst] in Ev. subst v. kstep. kstep. cbn [d_k d_devs d_errno d_world set_d_k].
  destruct (sched_frame_objects _ _ F) as (E1 & E2 & E3 & _). kstep. unfold mod_dev. kstep. unfold get_dev. apply (wp_deref _ d); [done|]. kstep. kstep. set (d1 := mkDev RT_Device_Class_RTC _ _ _ _ _ _ _). set (s2 := set_d_devs _ _).
  eapply wp_mono; [apply (rt_device_register_wp n rtc_name _ s2 d1); [done|by apply (cinv_same (d_k s))|cbn; by rewrite E3|by repeat constructor|intros c; unfold registered, object_list; cbn [s2 d_k set_d_devs]; rewrite E2; apply Hun|apply lookup_insert_eq]|].
  intros r s3 (Hw3 & Hc3 & (Ew3 & Et3 & El3) & Hr). assert (object_list k RT_Object_Class_Device = object_list (d_k s) RT_Object_Class_Device) as Eol by (unfold object_list; by rewrite E2).
  rewrite decide_False in Hr. 2: { cbn [s2 d_k set_d_devs]. rewrite Eol. intros (o & Ho & Hn)%Exists_exists. rewrite Forall_forall in Hno. apply (Hno o Ho). unfold name_is in *. by rewrite E1 in Hn. }
  destruct Hr as (-> & Ed3 & Hd3 & Hh3). kstep. kstep. kstep. split; [done|]. set (s4 := mkDst (d_k s3) _ _ _).
  split_and!.
  - split; [done|done|cbn; rewrite El3; cbn; by rewrite E3|apply Hh3; [by repeat constructor|done]|left; cbn; rewrite Ew3; done|]. eexists. split_and!; [destruct Hd3 as [T C E]; split; [exact T|exact C|exact E]|done|done|done].
  - unfold clock_time, seconds_passed. cbn [s4 d_world d_k init_time init_tick set_init_ok]. rewrite Ew3, Et3. cbn [s2 d_k d_world set_d_devs init_time init_tick set_init_time set_init_tick]. rewrite Z.sub_diag. change (u32 0 / RT_TICK_PER_SECOND) with 0. rewrite Z.add_0_r. change (seconds_of soft_rtc_time_default) with (seconds_of (day_of 2018 1 1)). apply time_t_fits. replace (seconds_of (day_of 2018 1 1)) with 1514764800 by (by vm_compute). lia.
  - unfold elapsed. cbn [s4 d_world d_k init_tick set_init_ok]. rewrite Ew3, Et3. cbn [s2 d_k d_world set_d_devs init_tick set_init_time set_init_tick]. by rewrite Z.sub_diag.
  - done.
Qed.
End correct.

(** ** Witnesses *)

(** The clock is device 64; tick 5 of the sample is its first; it shows the 29th of
    February 2020. *)
Definition rtc_object : rt_object := mkObject (padded RT_NAME_MAX rtc_name) (Z.lor RT_Object_Class_Device RT_Object_Class_Static) 0.
Definition sample_rtc : dst rtc :=
  mkDst (attach (ODevice 64) rtc_object RT_Object_Class_Device sample) {[ 64%nat := mkDev RT_Device_Class_RTC RT_DEVICE_FLAG_RDWR 0 0 None None None empty_wqueue ]} 0
    (mkRtc (k_tick sample) 1582934400 true None ∅).
Definition sample_rtc_ops (_ : nat) : rt_device_ops rtc := soft_rtc_ops i32.

Lemma sample_unregistered c : ~ registered sample c (ODevice 64).
Proof. intros H. destruct (ci_header _ sample_cinv _ _ H) as (ob & l & E & _). by vm_compute in E. Qed.
Lemma sample_rtc_sys : rtc_sys 64 sample_rtc.
Proof.
  split; cbn [sample_rtc d_k d_world].
  - by apply (wfx_same _ sample), (proj1 sample_kinv).
  - apply (cinv_attach _ _ _ _ rtc_name); [exact sample_cinv|exact sample_unregistered|done|by repeat constructor|done].
  - done.
  - rewrite object_list_attach, decide_True by done. rewrite filter_cons, decide_True; [done|]. unfold name_is. cbn. by rewrite lookup_insert_eq.
  - by left.
  - eexists (mkDev _ _ _ _ _ _ _ _). split_and!; [split; [eexists; split; [cbn; apply lookup_insert_eq|done]|intros t [= <-]; by eexists|reflexivity]|done|done|done].
Qed.
Lemma i32_wraps x y : i32 (i32 x + y) = i32 (x + y).
Proof. unfold i32. replace ((x + 2 ^ 31) `mod` 2 ^ 32 - 2 ^ 31 + y + 2 ^ 31) with ((x + 2 ^ 31) `mod` 2 ^ 32 + y) by lia. rewrite Zplus_mod_idemp_l. do 2 f_equal. lia. Qed.
Lemma sample_rtc_time : clock_time i32 sample_rtc = 1582934400.
Proof. by vm_compute. Qed.

Lemma set_clock_correct_witness : wp (set_time i32 sample_rtc_ops 100 104 12 30 0) sample_rtc (fun r s' => r = RT_EOK /\ rtc_sys 64 s' /\ clock_time i32 s' = 1582979400).
Proof.
  destruct (set_clock_correct i32 (2 ^ 31) ltac:(lia) ltac:(lia) time32 i32_wraps sample_rtc_ops 100 104 64 eq_refl sample_rtc sample_rtc_sys) as [H _]; [by rewrite sample_rtc_time|by rewrite sample_rtc_time|].
  specialize (H 12 30 0 ltac:(lia) ltac:(lia) ltac:(lia)). rewrite sample_rtc_time in H. exact H.
Defined.
Lemma date_correct_witness : wp (date i32 sample_rtc_ops 100 104 [2024; 12; 31; 23; 59; 59]) sample_rtc (fun r s' => r = Quiet /\ clock_time i32 s' = 1735689599 /\ wp (time sample_rtc_ops 100 None) s' (fun t _ => t = 1735689599)).
Proof.
  assert (seconds_of (mkTm 59 59 23 31 (12 - 1) (2024 - 1900) 0 0) = 1735689599) as E by (by vm_compute).
  eapply wp_mono; [apply (date_correct i32 (2 ^ 31) ltac:(lia) ltac:(lia) time32 i32_wraps sample_rtc_ops 100 104 64 eq_refl sample_rtc 2024 12 31 23 59 59 [] sample_rtc_sys)|].
  - by rewrite sample_rtc_time.
  - by rewrite sample_rtc_time.
  - lia.
  - split; first [by vm_compute|cbn; lia].
  - rewrite E. lia.
  - intros r s' (-> & _ & H1 & H2). rewrite E in H1, H2. by split_and!.
Defined.
Lemma time_correct_witness : wp (time sample_rtc_ops 100 (Some 200)) sample_rtc (fun r s' => r = 1582934400 /\ cells (d_world s') !! 200 = Some r).
Proof.
  destruct (time_correct i32 sample_rtc_ops 100 64 eq_refl sample_rtc sample_rtc_sys) as [H _]. eapply wp_mono; [exact (H (Some 200))|]. intros r s' (-> & _ & _ & Ha). rewrite sample_rtc_time in Ha |- *. split; [done|by apply Ha].
Defined.
Lemma soft_rtc_runs_witness : clock_time i32 (advance 2500 sample_rtc) = 1582934402.
Proof. rewrite (proj1 (soft_rtc_runs i32 i32_wraps sample_rtc) 2500 ltac:(lia) ltac:(by vm_compute)). by vm_compute. Defined.
Lemma rt_soft_rtc_init_correct_witness :
  wp (rt_soft_rtc_init i32 64) (mkDst sample {[ 64%nat := mkDev 0 0 0 0 None None None empty_wqueue ]} 0 (mkRtc 0 0 false None ∅)) (fun r s' => r = 0 /\ rtc_sys 64 s' /\ clock_time i32 s' = seconds_of (day_of 2018 1 1)).
Proof.
  eapply wp_mono; [apply (rt_soft_rtc_init_correct i32 (2 ^ 31) ltac:(lia) ltac:(lia) time32 64 _ (mkDev 0 0 0 0 None None None empty_wqueue)); [exact (proj1 sample_kinv)|exact sample_cinv|done|exact sample_unregistered|apply lookup_singleton_eq|by repeat constructor|done|done]|]. intros r s' (-> & ? & ? & _). by split_and!.
Defined.
