(* ===== verification/Serial.v ===== *)
(** * Serial devices (components/drivers/serial/serial.c): the receive buffer

    Characters that arrive go to a ring with two indices and a flag, in the interrupt
    routine one by one or by DMA in pieces, and are read from it.  A section with
    interrupts disabled is one piece: the turns of the two loops interleave as the
    interrupts come. *)

From S2P Require Import Prelude Kservice.

(** struct rt_serial_rx_fifo; config.bufsz is the length of the buffer. *)
Record rt_serial_rx_fifo := mkRx { rx_buffer : list Z; rx_put : Z; rx_get : Z; rx_full : bool }.
Definition bufsz (s : rt_serial_rx_fifo) : Z := Z.of_nat (length (rx_buffer s)).
Notation R A := (M rt_serial_rx_fifo A).

(** An index that has reached the end starts again. *)
Definition wrapped (i n : Z) : Z := if n <=? i then 0 else i.

(** ** Interrupt mode *)

(** A turn of the loop of _serial_int_rx. *)
Definition int_rx_turn : R (option Z) :=
  s <- get ;;
  if (rx_get s =? rx_put s) && negb (rx_full s) then ret None
  else
    ch <- deref (fun s => rx_buffer s !! Z.to_nat (rx_get s)) ;;
    modify (fun s => mkRx (rx_buffer s) (rx_put s) (wrapped (u16 (rx_get s + 1)) (bufsz s)) false) ;;
    ret (Some (Z.land ch 0xff)).
Fixpoint _serial_int_rx (length : nat) : R (list Z) :=
  match length with
  | O => ret []
  | S length => ch <- int_rx_turn ;; match ch with None => ret [] | Some ch => data <- _serial_int_rx length ;; ret (ch :: data) end
  end.

(** A turn of the loop of rt_hw_serial_isr, with the character getc returned. *)
Definition isr_rx_turn (ch : Z) : R unit :=
  s <- get ;;
  valid (bool_decide (Z.to_nat (rx_put s) < length (rx_buffer s))%nat) ;;
  modify (fun s => mkRx (<[Z.to_nat (rx_put s) := u8 ch]> (rx_buffer s)) (wrapped (u16 (rx_put s + 1)) (bufsz s)) (rx_get s) (rx_full s)) ;;
  s <- get ;;
  when (rx_put s =? rx_get s)
    (modify (fun s => mkRx (rx_buffer s) (rx_put s) (wrapped (u16 (rx_get s + 1)) (bufsz s)) true)).
(** The length the callback gets. *)
Definition isr_rx_length : R Z :=
  s <- get ;;
  ret (if rx_get s <=? rx_put s then rx_put s - rx_get s else bufsz s - (rx_get s - rx_put s)).
(** RT_SERIAL_EVENT_RX_IND: [chars] are what getc returned before -1. *)
Fixpoint isr_rx_ind (chars : list Z) : R Z :=
  match chars with
  | [] => isr_rx_length
  | ch :: chars => isr_rx_turn ch ;; isr_rx_ind chars
  end.

(** ** DMA mode *)

Definition _serial_fifo_calc_recved_len : R Z :=
  s <- get ;;
  ret (if rx_put s =? rx_get s then (if negb (rx_full s) then 0 else bufsz s)
       else if rx_get s <? rx_put s then rx_put s - rx_get s
       else bufsz s - (rx_get s - rx_put s)).
Definition rt_dma_recv_update_get_index (len : Z) : R unit :=
  n <- _serial_fifo_calc_recved_len ;;
  RT_ASSERT (len <=? n) ;;
  s <- get ;;
  let full := if rx_full s && negb (len =? 0) then false else rx_full s in
  let g := u16 (rx_get s + len) in
  modify (fun s => mkRx (rx_buffer s) (rx_put s) (if bufsz s <=? g then g `mod` bufsz s else g) full).
Definition rt_dma_recv_update_put_index (len : Z) : R unit :=
  s <- get ;;
  let p := u16 (rx_put s + len) in
  (if rx_get s <=? rx_put s then
     if bufsz s <=? p then
       let p := p `mod` bufsz s in
       modify (fun s => mkRx (rx_buffer s) p (rx_get s) (if rx_get s <=? p then true else rx_full s))
     else modify (fun s => mkRx (rx_buffer s) p (rx_get s) (rx_full s))
   else if rx_get s <=? p then
     modify (fun s => mkRx (rx_buffer s) (if bufsz s <=? p then p `mod` bufsz s else p) (rx_get s) true)
   else modify (fun s => mkRx (rx_buffer s) p (rx_get s) (rx_full s))) ;;
  s <- get ;;
  when (rx_full s) (modify (fun s => mkRx (rx_buffer s) (rx_put s) (rx_put s) (rx_full s))).

(** rt_memcpy from the buffer *)
Definition fifo_copy (from : Z) (len : Z) : R (list Z) :=
  s <- get ;;
  valid ((0 <=? len) && (from + len <=? bufsz s)) ;;
  ret (take (Z.to_nat len) (drop (Z.to_nat from) (rx_buffer s))).
(** _serial_dma_rx with a buffer (config.bufsz is not 0). *)
Definition _serial_dma_rx (length : Z) : R (list Z) :=
  n <- _serial_fifo_calc_recved_len ;;
  let recv_len := if length <? n then length else n in
  s <- get ;;
  data <- (if rx_get s + recv_len <? bufsz s then fifo_copy (rx_get s) recv_len
           else
             d1 <- fifo_copy (rx_get s) (bufsz s - rx_get s) ;;
             d2 <- fifo_copy 0 (recv_len + rx_get s - bufsz s) ;;
             ret (d1 ++ d2)) ;;
  rt_dma_recv_update_get_index recv_len ;;
  ret data.

(** ** The ring *)

Definition at_ (g i n : Z) : nat := Z.to_nat ((g + i) `mod` n).
Lemma ring_mod g i n : 0 <= g < n -> 0 <= i <= n -> (g + i) `mod` n = if g + i <? n then g + i else g + i - n.
Proof.
  intros Hg Hi. destruct (Z.ltb_spec (g + i) n); [apply Z.mod_small; lia|]. symmetry. apply (Zmod_unique _ _ 1); lia.
Qed.
(** [q] is in the ring from [get] on. *)
Definition in_ring (b : list Z) (g : Z) (q : list Z) : Prop := forall i x, q !! i = Some x -> b !! at_ g (Z.of_nat i) (Z.of_nat (length b)) = Some x.

Lemma at_ne g i j n : 0 <= g < n -> 0 <= i < n -> 0 <= j < n -> i <> j -> at_ g i n <> at_ g j n.
Proof. intros Hg Hi Hj Hn. unfold at_. rewrite !ring_mod by lia. destruct (Z.ltb_spec (g + i) n), (Z.ltb_spec (g + j) n); lia. Qed.
Lemma at_lt g i n : 0 <= g < n -> 0 <= i <= n -> (at_ g i n < Z.to_nat n)%nat.
Proof. intros Hg Hi. unfold at_. rewrite ring_mod by lia. destruct (Z.ltb_spec (g + i) n); lia. Qed.
Lemma wrapped_next g n : 0 <= g < n -> n <= 2 ^ 16 - 1 -> wrapped (u16 (g + 1)) n = (g + 1) `mod` n.
Proof. intros Hg Hn. rewrite u16_small by lia. unfold wrapped. rewrite ring_mod by lia. destruct (Z.leb_spec n (g + 1)), (Z.ltb_spec (g + 1) n); lia. Qed.
Lemma at_shift g i n : 0 <= g < n -> 0 <= i -> at_ ((g + 1) `mod` n) i n = at_ g (i + 1) n.
Proof. intros Hg Hi. unfold at_. rewrite Zplus_mod_idemp_l. do 2 f_equal. lia. Qed.
(** The oldest is taken out. *)
Lemma in_ring_tail b g x q : 0 <= g < Z.of_nat (length b) -> in_ring b g (x :: q) -> in_ring b ((g + 1) `mod` Z.of_nat (length b)) q.
Proof. intros Hg H i y Hi. rewrite at_shift by lia. replace (Z.of_nat i + 1) with (Z.of_nat (S i)) by lia. by apply H. Qed.
(** A character is put behind the last. *)
Lemma in_ring_snoc b g q x : 0 <= g < Z.of_nat (length b) -> (length q < length b)%nat -> in_ring b g q -> in_ring (<[at_ g (Z.of_nat (length q)) (Z.of_nat (length b)) := x]> b) g (q ++ [x]).
Proof.
  intros Hg Hq H i y Hi. rewrite length_insert. apply lookup_app_Some in Hi as [Hi|[Hl Hi]].
  - apply lookup_lt_Some in Hi as Hlt. rewrite list_lookup_insert_ne by (apply at_ne; lia). by apply H.
  - apply list_lookup_singleton_Some in Hi as [Hi ->]. replace i with (length q) by lia. apply list_lookup_insert_eq. pose proof (at_lt g (Z.of_nat (length q)) (Z.of_nat (length b)) Hg ltac:(lia)). lia.
Qed.

(** ** Interrupt mode: a queue of the newest characters *)

(** The ring holds [q]; one place of it is always free. *)
Record rx_int (s : rt_serial_rx_fifo) (q : list Z) : Prop := {
  ri_size : 2 <= bufsz s <= 2 ^ 16 - 1;
  ri_get : 0 <= rx_get s < bufsz s;
  ri_put : rx_put s = (rx_get s + Z.of_nat (length q)) `mod` bufsz s;
  ri_free : (length q < length (rx_buffer s))%nat;
  ri_full : rx_full s = true -> q <> [];
  ri_data : in_ring (rx_buffer s) (rx_get s) q
}.
(** The newest [cap] of a sequence. *)
Definition newest (cap : nat) (q : list Z) : list Z := drop (length q - cap) q.

Lemma put_is_get s q : rx_int s q -> rx_get s = rx_put s <-> q = [].
Proof.
  intros [H1 H2 H3 H4 H5 H6]. rewrite H3. unfold bufsz in *. rewrite ring_mod by lia. split; [|intros ->; rewrite (proj2 (Z.ltb_lt _ _)); cbn [length]; lia].
  intros E. destruct q; [done|]. cbn [length] in *. destruct (Z.ltb_spec (rx_get s + Z.of_nat (S (length q))) (Z.of_nat (length (rx_buffer s)))); lia.
Qed.
Lemma int_rx_turn_wp s q : rx_int s q -> Forall (fun c => 0 <= c < 256) q -> wp int_rx_turn s (fun r s' => r = head q /\ rx_int s' (tail q) /\ bufsz s' = bufsz s).
Proof.
  intros Hr Hq. pose proof (put_is_get s q Hr) as He. destruct Hr as [H1 H2 H3 H4 H5 H6]. unfold int_rx_turn. kstep. kstep. destruct q as [|x q].
  - rewrite (proj2 (Z.eqb_eq _ _)) by (by apply He). destruct (rx_full s) eqn:Ef; [by destruct (H5 eq_refl)|]. cbn [andb negb]. kstep. split; [done|]. split; [|done]. split; try done. by rewrite Ef.
  - rewrite (proj2 (Z.eqb_neq _ _)) by (intros E; by apply He in E). cbn [andb]. kstep. apply (wp_deref _ x).
    { pose proof (H6 0%nat x eq_refl) as Hx. unfold at_ in Hx. rewrite Z.add_0_r, Z.mod_small in Hx by (unfold bufsz in H2; lia). exact Hx. }
    kstep. kstep. kstep. inversion Hq as [|? ? Hx Hq']; subst. change 255 with (Z.ones 8). rewrite Z.land_ones, Z.mod_small by lia. split; [done|]. split; [|done]. unfold bufsz in *. split; cbn [rx_buffer rx_put rx_get rx_full]; rewrite ?wrapped_next by (unfold bufsz; cbn in *; lia); [exact H1| | |cbn in H4 |- *; lia|done|by apply (in_ring_tail _ _ x)].
    + unfold bufsz; cbn [rx_buffer]. apply Z.mod_pos_bound. lia.
    + unfold bufsz; cbn [rx_buffer]. rewrite H3, Zplus_mod_idemp_l. f_equal. cbn. lia.
Qed.
Lemma isr_rx_turn_wp s q ch : rx_int s q -> 0 <= ch < 256 -> wp (isr_rx_turn ch) s (fun _ s' => rx_int s' (newest (length (rx_buffer s) - 1) (q ++ [ch])) /\ bufsz s' = bufsz s).
Proof.
  intros Hr Hc. pose proof Hr as [H1 H2 H3 H4 H5 H6]. unfold isr_rx_turn, newest. rewrite length_app. cbn [length]. set (n := Z.of_nat (length (rx_buffer s))) in *. assert (bufsz s = n) as En by done. assert (n = Z.of_nat (length (rx_buffer s))) as Hn by done. assert (0 <= rx_put s < n) as Hp by (rewrite H3; apply Z.mod_pos_bound; lia).
  kstep. kstep. kstep. apply wp_valid; [apply bool_decide_eq_true_2; lia|]. kstep. kstep. kstep. kstep. rewrite u8_small by lia. rewrite wrapped_next by lia. rewrite En in *. assert (Z.to_nat (rx_put s) = at_ (rx_get s) (Z.of_nat (length q)) n) as Eput by (unfold at_; by rewrite H3).
  assert (in_ring (<[Z.to_nat (rx_put s) := ch]> (rx_buffer s)) (rx_get s) (q ++ [ch])) as Hring by (rewrite Eput; by apply in_ring_snoc). kstep. cbn [rx_put rx_get]. assert ((rx_put s + 1) `mod` n = (rx_get s + Z.of_nat (length (q ++ [ch]))) `mod` n) as Enext by (rewrite H3, Zplus_mod_idemp_l, length_app; f_equal; cbn; lia).
  destruct (Z.eqb_spec ((rx_put s + 1) `mod` n) (rx_get s)) as [E|E].
  - assert (length q = length (rx_buffer s) - 1)%nat as Efull. { rewrite Enext, length_app in E. cbn [length] in E. rewrite ring_mod in E by lia. destruct (Z.ltb_spec (rx_get s + Z.of_nat (length q + 1)) n); lia. }
    kstep. split; [|by unfold bufsz; cbn; rewrite length_insert]. replace (length q + 1 - (length (rx_buffer s) - 1))%nat with 1%nat by lia. destruct q as [|x q]; [cbn in Efull; lia|]. cbn [drop app]. rewrite drop_0. unfold bufsz; cbn [rx_buffer rx_put rx_get rx_full]; rewrite length_insert; fold n. rewrite wrapped_next by lia. split; unfold bufsz; cbn [rx_buffer rx_put rx_get rx_full]; rewrite ?length_insert; fold n.
    + lia.
    + apply Z.mod_pos_bound. lia.
    + rewrite Enext, Zplus_mod_idemp_l. f_equal. cbn [app length]. lia.
    + rewrite length_app. cbn in *. lia.
    + intros _. by destruct q.
    + pose proof (in_ring_tail (<[Z.to_nat (rx_put s) := ch]> (rx_buffer s)) (rx_get s) x (q ++ [ch])) as Ht. rewrite length_insert in Ht. by apply Ht.
  - assert (length q < length (rx_buffer s) - 1)%nat as Hroom. { destruct (decide (length q = length (rx_buffer s) - 1)%nat) as [El|]; [|lia]. destruct E. rewrite Enext, length_app. cbn [length]. rewrite ring_mod by lia. destruct (Z.ltb_spec (rx_get s + Z.of_nat (length q + 1)) n); lia. }
    kstep. split; [|by unfold bufsz; cbn; rewrite length_insert]. replace (length q + 1 - (length (rx_buffer s) - 1))%nat with 0%nat by lia. rewrite drop_0. split; unfold bufsz; cbn [rx_buffer rx_put rx_get rx_full]; rewrite ?length_insert; fold n; [lia|lia|done|rewrite length_app; cbn; lia|intros _; by destruct q|done].
Qed.
Lemma isr_rx_length_wp s q : rx_int s q -> wp isr_rx_length s (fun r s' => r = Z.of_nat (length q) /\ s' = s).
Proof.
  intros [H1 H2 H3 H4 H5 H6]. unfold isr_rx_length. kstep. kstep. kstep. split; [|done]. rewrite H3. unfold bufsz in *. rewrite ring_mod by lia. destruct (Z.ltb_spec (rx_get s + Z.of_nat (length q)) (Z.of_nat (length (rx_buffer s)))); [rewrite (proj2 (Z.leb_le _ _))|rewrite (proj2 (Z.leb_gt _ _))]; lia.
Qed.

(** The turns of the reader and of the interrupt routine, as they interleave. *)
Inductive rx_turn := TTake | TPut (ch : Z) | TLength.
Inductive rx_answer := TChar (ch : option Z) | TDone | TLen (n : Z).
Definition rx_do (t : rx_turn) : R rx_answer :=
  match t with
  | TTake => r <- int_rx_turn ;; ret (TChar r)
  | TPut ch => isr_rx_turn ch ;; ret TDone
  | TLength => r <- isr_rx_length ;; ret (TLen r)
  end.
Fixpoint rx_run (ts : list rx_turn) : R (list rx_answer) :=
  match ts with
  | [] => ret []
  | t :: ts => a <- rx_do t ;; l <- rx_run ts ;; ret (a :: l)
  end.
(** The queue that keeps the newest [cap] characters. *)
Definition lossy_do (cap : nat) (t : rx_turn) (q : list Z) : rx_answer * list Z :=
  match t with
  | TTake => (TChar (head q), tail q)
  | TPut ch => (TDone, newest cap (q ++ [ch]))
  | TLength => (TLen (Z.of_nat (length q)), q)
  end.
Fixpoint lossy_run (cap : nat) (ts : list rx_turn) (q : list Z) : list rx_answer * list Z :=
  match ts with
  | [] => ([], q)
  | t :: ts => let '(a, q1) := lossy_do cap t q in let '(l, q2) := lossy_run cap ts q1 in (a :: l, q2)
  end.
Definition turn_ok (t : rx_turn) : Prop := match t with TPut ch => 0 <= ch < 256 | _ => True end.

Lemma newest_chars cap q : Forall (fun c => 0 <= c < 256) q -> Forall (fun c => 0 <= c < 256) (newest cap q).
Proof. apply Forall_drop. Qed.
Lemma rx_do_wp t s q : rx_int s q -> Forall (fun c => 0 <= c < 256) q -> turn_ok t ->
  wp (rx_do t) s (fun a s' => bufsz s' = bufsz s /\ let '(a', q') := lossy_do (length (rx_buffer s) - 1) t q in a = a' /\ rx_int s' q' /\ Forall (fun c => 0 <= c < 256) q').
Proof.
  intros Hr Hq Ht. destruct t as [|ch|]; cbn [rx_do lossy_do]; kstep.
  - eapply wp_mono; [by apply (int_rx_turn_wp s q)|]. intros r s' (-> & H1 & H2). kstep. split_and!; [done|done|done|]. by destruct Hq.
  - eapply wp_mono; [by apply (isr_rx_turn_wp s q)|]. intros [] s' [H1 H2]. kstep. split_and!; [done|done|done|]. apply newest_chars, Forall_app_2; [done|]. constructor; [done|by apply Forall_nil].
  - eapply wp_mono; [by apply (isr_rx_length_wp s q)|]. intros r s' [-> ->]. kstep. by split_and!.
Qed.

(** The receive buffer in interrupt mode.  However the turns of _serial_int_rx and of
    the interrupt routine interleave, the ring of n characters is a queue that keeps the
    newest n - 1 of them: what is read is what arrived, in order, and when the buffer
    overflows the oldest characters are lost. *)
Theorem serial_int_refines ts : forall s q, rx_int s q -> Forall (fun c => 0 <= c < 256) q -> Forall turn_ok ts ->
  wp (rx_run ts) s (fun l s' => let '(l', q') := lossy_run (length (rx_buffer s) - 1) ts q in l = l' /\ rx_int s' q').
Proof.
  induction ts as [|t ts IH]; intros s q Hr Hq Hts; cbn [rx_run lossy_run]; [by kstep|]. inversion Hts as [|? ? Ht Hts']; subst. kstep. eapply wp_mono; [by apply (rx_do_wp t s q)|]. intros a s1 [Hb Ha]. destruct (lossy_do _ t q) as [a' q1]. destruct Ha as (-> & H1 & H2). kstep.
  eapply wp_mono; [by apply (IH s1 q1)|]. intros l s2 Hl. kstep. unfold bufsz in Hb. replace (length (rx_buffer s)) with (length (rx_buffer s1)) by lia. destruct (lossy_run _ ts q1) as [l' q2]. destruct Hl as [-> ?]. done.
Qed.

(** Without an interrupt in between, _serial_int_rx reads the oldest characters, and the
    interrupt routine appends what it gets. *)
Lemma int_rx_wp k : forall s q, rx_int s q -> Forall (fun c => 0 <= c < 256) q -> wp (_serial_int_rx k) s (fun r s' => r = take k q /\ rx_int s' (drop k q) /\ bufsz s' = bufsz s).
Proof.
  induction k as [|k IH]; intros s q Hr Hq; cbn [_serial_int_rx]; [kstep; by rewrite drop_0|]. kstep. eapply wp_mono; [by apply (int_rx_turn_wp s q)|]. intros r s1 (-> & H1 & H2). destruct q as [|x q]; cbn [head tail]; [by kstep|]. kstep. inversion Hq as [|? ? _ Hq']; subst. eapply wp_mono; [by apply (IH s1 q)|]. intros r s2 (-> & G3 & G4). kstep. split_and!; [done|done|congruence].
Qed.

(** ** DMA mode *)

Record rx_dma (s : rt_serial_rx_fifo) (q : list Z) : Prop := {
  rd_size : 1 <= bufsz s <= 2 ^ 15;
  rd_get : 0 <= rx_get s < bufsz s;
  rd_put : rx_put s = (rx_get s + Z.of_nat (length q)) `mod` bufsz s;
  rd_fits : (length q <= length (rx_buffer s))%nat;
  rd_full : rx_full s = true <-> length q = length (rx_buffer s);
  rd_data : in_ring (rx_buffer s) (rx_get s) q
}.
Lemma calc_recved_wp s q : rx_dma s q -> wp _serial_fifo_calc_recved_len s (fun r s' => r = Z.of_nat (length q) /\ s' = s).
Proof.
  intros [H1 H2 H3 H4 H5 H6]. unfold _serial_fifo_calc_recved_len. kstep. kstep. kstep. split; [|done]. rewrite H3. unfold bufsz in *. rewrite ring_mod by lia. destruct (Z.ltb_spec (rx_get s + Z.of_nat (length q)) (Z.of_nat (length (rx_buffer s)))) as [Hlt|Hge].
  - destruct (Z.eqb_spec (rx_get s + Z.of_nat (length q)) (rx_get s)); [|rewrite (proj2 (Z.ltb_lt _ _)); lia]. destruct (rx_full s) eqn:Ef; [|cbn; lia]. assert (length q = length (rx_buffer s)) by (by apply H5). cbn. lia.
  - destruct (Z.eqb_spec (rx_get s + Z.of_nat (length q) - Z.of_nat (length (rx_buffer s))) (rx_get s)); [|rewrite (proj2 (Z.ltb_ge _ _)); lia]. rewrite (proj2 H5) by lia. cbn. lia.
Qed.
Lemma at_plus g m i n : at_ ((g + m) `mod` n) i n = at_ g (m + i) n.
Proof. unfold at_. rewrite Zplus_mod_idemp_l. do 2 f_equal. lia. Qed.
Lemma at_diff g i j n : 0 < n -> i < j < i + n -> at_ g i n <> at_ g j n.
Proof.
  intros Hn Hij E. unfold at_ in E. pose proof (Z.mod_pos_bound (g + i) n Hn). pose proof (Z.mod_pos_bound (g + j) n Hn). assert ((g + i) `mod` n = (g + j) `mod` n) as E' by lia. assert (((g + j) - (g + i)) `mod` n = 0) as E0 by (rewrite Zminus_mod, E', Z.sub_diag; done). replace (g + j - (g + i)) with (j - i) in E0 by lia. rewrite Z.mod_small in E0; lia.
Qed.
Lemma at_wrap g i n : 0 < n -> at_ g (i + n) n = at_ g i n.
Proof. intros Hn. unfold at_. rewrite Z.add_assoc. replace (g + i + n) with (g + i + 1 * n) by lia. by rewrite Z_mod_plus_full. Qed.

(** What the reader takes. *)
Lemma in_ring_slice b g q k : 0 <= g < Z.of_nat (length b) -> (length q <= length b)%nat -> (k <= length q)%nat -> in_ring b g q ->
  take k q = (if g + Z.of_nat k <? Z.of_nat (length b) then take k (drop (Z.to_nat g) b) else drop (Z.to_nat g) b ++ take (Z.to_nat (Z.of_nat k + g - Z.of_nat (length b))) b).
Proof.
  intros Hg Hq Hk H. apply list_eq. intros i. destruct (decide (i < k)%nat) as [Hi|Hi].
  - rewrite lookup_take_lt by done. destruct (lookup_lt_is_Some_2 q i ltac:(lia)) as [x Hx]. rewrite Hx. specialize (H i x Hx). unfold at_ in H. rewrite ring_mod in H by lia. destruct (Z.ltb_spec (g + Z.of_nat k) (Z.of_nat (length b))).
    + rewrite (proj2 (Z.ltb_lt _ _)) in H by lia. rewrite lookup_take_lt by lia. rewrite lookup_drop. rewrite <- H. f_equal. lia.
    + destruct (Z.ltb_spec (g + Z.of_nat i) (Z.of_nat (length b))).
      * rewrite lookup_app_l by (rewrite length_drop; lia). rewrite lookup_drop, <- H. f_equal. lia.
      * rewrite lookup_app_r by (rewrite length_drop; lia). rewrite length_drop, lookup_take_lt by lia. rewrite <- H. f_equal. lia.
  - rewrite (lookup_ge_None_2 (take k q)) by (rewrite length_take; lia). symmetry. apply lookup_ge_None_2. destruct (Z.ltb_spec (g + Z.of_nat k) (Z.of_nat (length b))); [rewrite length_take; lia|]. rewrite length_app, length_drop, length_take. lia.
Qed.
Lemma update_get_wp s q k : rx_dma s q -> (k <= length q)%nat -> wp (rt_dma_recv_update_get_index (Z.of_nat k)) s (fun _ s' => rx_dma s' (drop k q) /\ bufsz s' = bufsz s).
Proof.
  intros Hr Hk. pose proof Hr as [H1 H2 H3 H4 H5 H6]. unfold rt_dma_recv_update_get_index. kstep. eapply wp_mono; [by apply (calc_recved_wp s q)|]. intros r s1 [-> ->]. kstep. apply wp_assert; [apply Z.leb_le; lia|]. kstep. kstep. cbv zeta. kstep. split; [|done]. unfold bufsz in *. rewrite u16_small by lia.
  set (n := Z.of_nat (length (rx_buffer s))) in *. assert (n = Z.of_nat (length (rx_buffer s))) as Hn by done. assert ((if n <=? rx_get s + Z.of_nat k then (rx_get s + Z.of_nat k) `mod` n else rx_get s + Z.of_nat k) = (rx_get s + Z.of_nat k) `mod` n) as Eg by (destruct (Z.leb_spec n (rx_get s + Z.of_nat k)); [done|]; symmetry; apply Z.mod_small; lia).
  split; unfold bufsz; cbn [rx_buffer rx_put rx_get rx_full]; fold n; rewrite ?Eg.
  - done.
  - apply Z.mod_pos_bound. lia.
  - rewrite H3, Zplus_mod_idemp_l, length_drop. f_equal. lia.
  - rewrite length_drop. lia.
  - rewrite length_drop. destruct (Z.eqb_spec (Z.of_nat k) 0) as [E|E]; cbn [negb].
    + rewrite andb_false_r. rewrite H5. lia.
    + rewrite andb_true_r. destruct (rx_full s) eqn:Ef; (split; [done|]); intros; [lia|]. assert (length q = length (rx_buffer s)) as Hq by lia. apply H5 in Hq. congruence.
  - intros i x. rewrite lookup_drop. intros Hi. fold n. rewrite at_plus. replace (Z.of_nat k + Z.of_nat i) with (Z.of_nat (k + i)) by lia. by apply H6.
Qed.
Lemma fifo_copy_wp s from len (Q : list Z -> rt_serial_rx_fifo -> Prop) : 0 <= len -> from + len <= bufsz s -> Q (take (Z.to_nat len) (drop (Z.to_nat from) (rx_buffer s))) s -> wp (fifo_copy from len) s Q.
Proof. intros H1 H2 HQ. unfold fifo_copy. kstep. kstep. kstep. apply wp_valid; [apply andb_true_intro; split; by apply Z.leb_le|]. by kstep. Qed.
Lemma dma_rx_wp s q k : rx_dma s q -> wp (_serial_dma_rx (Z.of_nat k)) s (fun r s' => r = take k q /\ rx_dma s' (drop k q) /\ bufsz s' = bufsz s).
Proof.
  intros Hr. pose proof Hr as [H1 H2 H3 H4 H5 H6]. unfold _serial_dma_rx. kstep. eapply wp_mono; [by apply (calc_recved_wp s q)|]. intros r s1 [-> ->]. cbv zeta. set (m := if Z.of_nat k <? Z.of_nat (length q) then Z.of_nat k else Z.of_nat (length q)). assert (m = Z.of_nat (k `min` length q)) as Em by (unfold m; destruct (Z.ltb_spec (Z.of_nat k) (Z.of_nat (length q))); lia). clearbody m. subst m. set (m := (k `min` length q)%nat) in *. assert (m <= length q)%nat as Hm by lia.
  assert (take k q = take m q /\ drop k q = drop m q) as [-> ->]. { unfold m. destruct (decide (k <= length q)%nat); [by rewrite Nat.min_l by lia|]. rewrite Nat.min_r, !take_ge, !drop_ge by lia. done. }
  kstep. kstep. kstep. pose proof (in_ring_slice _ _ q m H2 H4 Hm H6) as Es. apply (wp_mono _ _ (fun r s' => r = take m q /\ s' = s)).
  - unfold bufsz in *. destruct (Z.ltb_spec (rx_get s + Z.of_nat m) (Z.of_nat (length (rx_buffer s)))) as [Hlt|Hge]; rewrite Es.
    + apply fifo_copy_wp; [lia|unfold bufsz; lia|]. by rewrite Nat2Z.id.
    + kstep. apply fifo_copy_wp; [lia|unfold bufsz; lia|]. kstep. apply fifo_copy_wp; [lia|unfold bufsz; lia|]. kstep. split; [|done]. rewrite drop_0. rewrite take_ge by (rewrite length_drop; lia). done.
  - intros r s' [-> ->]. kstep. eapply wp_mono; [by apply (update_get_wp s q m)|]. intros [] s' [G1 G2]. by kstep.
Qed.

(** The DMA writes the [d] bytes that arrive to the ring from the put index on. *)
Definition dma_wrote (b : list Z) (p : Z) (d : list Z) (b' : list Z) : Prop :=
  let n := Z.of_nat (length b) in
  length b' = length b /\ (forall i x, d !! i = Some x -> b' !! at_ p (Z.of_nat i) n = Some x) /\ (forall j, (forall i, (i < length d)%nat -> j <> at_ p (Z.of_nat i) n) -> b' !! j = b !! j).
Lemma in_ring_newest b g q d b' : 0 <= g < Z.of_nat (length b) -> (length q <= length b)%nat -> (length d <= length b)%nat -> in_ring b g q -> dma_wrote b ((g + Z.of_nat (length q)) `mod` Z.of_nat (length b)) d b' ->
  in_ring b' ((g + Z.of_nat (length (q ++ d) - length b)) `mod` Z.of_nat (length b)) (newest (length b) (q ++ d)).
Proof.
  intros Hg Hq Hd H (Hl & Hnew & Hold) i x Hi. unfold newest in Hi. rewrite lookup_drop in Hi. rewrite Hl, at_plus. set (n := Z.of_nat (length b)) in *. assert (n = Z.of_nat (length b)) as Hn by done. rewrite length_app in *. set (k := (length q + length d - length b + i)%nat) in *. replace (Z.of_nat (length q + length d - length b) + Z.of_nat i) with (Z.of_nat k) by lia. apply lookup_lt_Some in Hi as Hk. rewrite length_app in Hk. apply lookup_app_Some in Hi as [Hi|[Hge Hi]].
  - rewrite Hold; [by apply H|]. intros j Hj. rewrite at_plus. apply lookup_lt_Some in Hi. apply at_diff; lia.
  - specialize (Hnew _ _ Hi). rewrite at_plus in Hnew. rewrite <- Hnew. do 2 f_equal. lia.
Qed.
(** The ring after a transfer: full with the newest n, or not full. *)
Lemma dma_arrived s q d b' : rx_dma s q -> (length d <= length (rx_buffer s))%nat -> dma_wrote (rx_buffer s) (rx_put s) d b' ->
  let n := bufsz s in let t := Z.of_nat (length q + length d) in let p := (rx_get s + t) `mod` n in
  rx_dma (mkRx b' p (if n <=? t then p else rx_get s) (n <=? t)) (newest (length (rx_buffer s)) (q ++ d)).
Proof.
  intros [H1 H2 H3 H4 H5 H6] Hd Hw n t p. assert (n = Z.of_nat (length (rx_buffer s))) as Hn by done. assert (bufsz s = n) as En by done. rewrite En in *. rewrite H3 in Hw. pose proof (in_ring_newest _ _ q d b' H2 H4 Hd H6 Hw) as Hring. destruct Hw as (Hl & _). assert (0 <= p < n) as Hp by (apply Z.mod_pos_bound; lia).
  assert (length (newest (length (rx_buffer s)) (q ++ d)) = (length q + length d) `min` length (rx_buffer s))%nat as Elen by (unfold newest; rewrite length_drop, !length_app; lia).
  assert ((rx_get s + Z.of_nat (length (q ++ d) - length (rx_buffer s))) `mod` n = if n <=? t then p else rx_get s) as Eg.
  { rewrite length_app. unfold p. destruct (Z.leb_spec n t).
    - replace (Z.of_nat (length q + length d - length (rx_buffer s))) with (t - n) by lia. replace (rx_get s + (t - n)) with (rx_get s + t + (-1) * n) by lia. apply Z_mod_plus_full.
    - replace (length q + length d - length (rx_buffer s))%nat with 0%nat by lia. rewrite Z.add_0_r. by apply Z.mod_small. }
  rewrite <- Hn, Eg in Hring. split; unfold bufsz; cbn [rx_buffer rx_put rx_get rx_full]; rewrite ?Elen, ?Hl, <- ?Hn.
  - done.
  - destruct (n <=? t); lia.
  - destruct (Z.leb_spec n t).
    + replace (Z.of_nat ((length q + length d) `min` length (rx_buffer s))) with (1 * n) by lia. rewrite Z_mod_plus_full. symmetry. by apply Z.mod_small.
    + unfold p. f_equal. lia.
  - lia.
  - rewrite Z.leb_le. lia.
  - exact Hring.
Qed.
Lemma update_put_wp s q d b' : rx_dma s q -> (length d <= length (rx_buffer s))%nat -> dma_wrote (rx_buffer s) (rx_put s) d b' ->
  wp (rt_dma_recv_update_put_index (Z.of_nat (length d))) (mkRx b' (rx_put s) (rx_get s) (rx_full s)) (fun _ s' => rx_dma s' (newest (length (rx_buffer s)) (q ++ d)) /\ bufsz s' = bufsz s).
Proof.
  intros Hr Hd Hw. pose proof (dma_arrived s q d b' Hr Hd Hw) as Ha. destruct Hr as [H1 H2 H3 H4 H5 H6]. destruct Hw as (Hl & _). cbv zeta in Ha. set (n := bufsz s) in *. set (p := (rx_get s + Z.of_nat (length q + length d)) `mod` n) in *. assert (n = Z.of_nat (length (rx_buffer s))) as Hn by done.
  assert (p = (rx_put s + Z.of_nat (length d)) `mod` n) as Ep by (unfold p; rewrite H3, Zplus_mod_idemp_l; f_equal; lia). clearbody p. assert (0 <= rx_put s < n) as Hput by (rewrite H3; apply Z.mod_pos_bound; lia). pose proof (ring_mod (rx_put s) (Z.of_nat (length d)) n Hput ltac:(lia)) as Er. rewrite ring_mod in H3 by lia.
  assert (forall g f, f = (n <=? Z.of_nat (length q + length d)) -> (f = false -> g = rx_get s) -> wp (s <- get ;; when (rx_full s) (modify (fun s => mkRx (rx_buffer s) (rx_put s) (rx_put s) (rx_full s)))) (mkRx b' p g f) (fun _ s' => rx_dma s' (newest (length (rx_buffer s)) (q ++ d)) /\ bufsz s' = n)) as Hend.
  { intros g f Ef Eg. kstep. kstep. kstep. cbn [rx_full]. rewrite <- Ef in Ha. destruct f; kstep; cbn [rx_buffer rx_put rx_full]; [|rewrite Eg by done]; (split; [exact Ha|unfold bufsz; cbn; lia]). }
  unfold rt_dma_recv_update_put_index. kstep. kstep. cbn [rx_buffer rx_put rx_get rx_full]. unfold bufsz at 1 2. cbn [rx_buffer]. rewrite Hl, <- Hn. rewrite u16_small by lia. cbv zeta. kstep.
  set (m := rx_put s + Z.of_nat (length d)) in *. assert (rx_full s = true -> length q = length (rx_buffer s)) as Hf1 by apply H5. assert (rx_full s = false -> (length q < length (rx_buffer s))%nat) as Hf2 by (intros Ef; destruct (decide (length q = length (rx_buffer s))) as [El|]; [apply H5 in El; congruence|lia]).
  clear H5 H6 Ha.
  destruct (Z.leb_spec (rx_get s) (rx_put s)); [destruct (Z.leb_spec n m)|destruct (Z.leb_spec (rx_get s) m)]; kstep; cbn [rx_buffer rx_put rx_get rx_full].
  all: change (bufsz (mkRx b' (rx_put s) (rx_get s) (rx_full s))) with (Z.of_nat (length b')); rewrite ?Hl, <- ?Hn, <- ?Ep.
  all: match goal with |- wp _ (mkRx _ ?a _ _) _ => replace a with p; [apply Hend; [|done]|] end; rewrite ?Ep, ?Er; fold m.
  all: destruct (rx_full s) eqn:Ef; [specialize (Hf1 eq_refl)|specialize (Hf2 eq_refl)]; clear Hend.
  all: repeat match goal with |- context[?x <=? ?y] => destruct (Z.leb_spec x y) | |- context[?x <? ?y] => destruct (Z.ltb_spec x y) | H : context[?x <? ?y] |- _ => destruct (Z.ltb_spec x y) end; try done; try (exfalso; lia); lia.
Qed.

(** RT_SERIAL_EVENT_RX_DMADONE with a buffer: what the callback gets. *)
Definition isr_rx_dmadone (length : Z) : R Z :=
  rt_dma_recv_update_put_index length ;;
  _serial_fifo_calc_recved_len.

Inductive dma_turn := DRead (length : nat) | DArrive (d : list Z).
Inductive dma_answer := DData (d : list Z) | DLen (n : Z).
(** The queue that keeps the newest [cap] characters. *)
Definition lossy_dma (cap : nat) (t : dma_turn) (q : list Z) : dma_answer * list Z :=
  match t with
  | DRead k => (DData (take k q), drop k q)
  | DArrive d => (DLen (Z.of_nat (length (newest cap (q ++ d)))), newest cap (q ++ d))
  end.
Fixpoint lossy_dma_run (cap : nat) (ts : list dma_turn) (q : list Z) : list dma_answer * list Z :=
  match ts with
  | [] => ([], q)
  | t :: ts => let '(a, q1) := lossy_dma cap t q in let '(l, q2) := lossy_dma_run cap ts q1 in (a :: l, q2)
  end.
(** A transfer is at most the buffer long. *)
Definition dma_turn_ok (n : nat) (t : dma_turn) : Prop := match t with DArrive d => (length d <= n)%nat | _ => True end.

Section dma.
  (** The DMA controller, programmed to write to the buffer in a circle: the buffer after
      it wrote [d] from an index on. *)
  Variable dma : list Z -> Z -> list Z -> list Z.
  Hypothesis dma_circular : forall b p d, 0 <= p < Z.of_nat (length b) -> (length d <= length b)%nat -> dma_wrote b p d (dma b p d).

(** The reader, and a transfer with the interrupt that ends it, in turn. *)
Definition dma_do (t : dma_turn) : R dma_answer :=
  match t with
  | DRead k => d <- _serial_dma_rx (Z.of_nat k) ;; ret (DData d)
  | DArrive d =>
      modify (fun s => mkRx (dma (rx_buffer s) (rx_put s) d) (rx_put s) (rx_get s) (rx_full s)) ;;
      n <- isr_rx_dmadone (Z.of_nat (length d)) ;; ret (DLen n)
  end.
Fixpoint dma_run (ts : list dma_turn) : R (list dma_answer) :=
  match ts with
  | [] => ret []
  | t :: ts => a <- dma_do t ;; l <- dma_run ts ;; ret (a :: l)
  end.

Lemma dma_do_wp t s q : rx_dma s q -> dma_turn_ok (length (rx_buffer s)) t ->
  wp (dma_do t) s (fun a s' => bufsz s' = bufsz s /\ let '(a', q') := lossy_dma (length (rx_buffer s)) t q in a = a' /\ rx_dma s' q').
Proof.
  intros Hr Ht. destruct t as [k|d]; cbn [dma_do lossy_dma].
  - kstep. eapply wp_mono; [by apply (dma_rx_wp s q)|]. intros r s' (-> & H1 & H2). by kstep.
  - kstep. kstep. kstep. unfold isr_rx_dmadone. kstep. eapply wp_mono; [apply (update_put_wp s q d); [done|done|]|].
    { pose proof Hr as [H1 H2 H3 H4 H5 H6]. apply dma_circular; [|done]. fold (bufsz s). rewrite H3. apply Z.mod_pos_bound. lia. }
    intros [] s1 [G1 G2]. eapply wp_mono; [by apply (calc_recved_wp s1 (newest (length (rx_buffer s)) (q ++ d)))|]. intros r s2 [-> ->]. by kstep.
Qed.

(** The receive buffer in DMA mode.  For every sequence of reads and of transfers of
    at most the buffer's length, the ring of n characters is a queue that keeps the newest
    n of them, also when a transfer overwrites what was not read: a read gives the oldest
    of these, in order, and the callback gets their number. *)
Theorem serial_dma_refines ts : forall s q, rx_dma s q -> Forall (dma_turn_ok (length (rx_buffer s))) ts ->
  wp (dma_run ts) s (fun l s' => let '(l', q') := lossy_dma_run (length (rx_buffer s)) ts q in l = l' /\ rx_dma s' q').
Proof.
  induction ts as [|t ts IH]; intros s q Hr Hts; cbn [dma_run lossy_dma_run]; [by kstep|]. inversion Hts as [|? ? Ht Hts']; subst. kstep. eapply wp_mono; [by apply (dma_do_wp t s q)|]. intros a s1 [Hb Ha]. destruct (lossy_dma _ t q) as [a' q1]. destruct Ha as (-> & H1). kstep.
  unfold bufsz in Hb. assert (length (rx_buffer s) = length (rx_buffer s1)) as El by lia. rewrite El in *. eapply wp_mono; [by apply (IH s1 q1)|]. intros l s2 Hl. kstep. destruct (lossy_dma_run _ ts q1) as [l' q2]. destruct Hl as [-> ?]. done.
Qed.
End dma.

(** ** On a buffer of four *)

Definition rx_empty4 : rt_serial_rx_fifo := mkRx [0; 0; 0; 0] 3 3 false.
Lemma rx_empty4_int : rx_int rx_empty4 [].
Proof. split; try done; cbn; lia. Qed.
Lemma rx_empty4_dma : rx_dma rx_empty4 [].
Proof. split; try done; cbn; lia. Qed.
Lemma serial_int_refines_witness : wp (rx_run [TPut 65; TPut 66; TPut 67; TPut 68; TLength; TTake; TPut 69; TTake]) rx_empty4
  (fun l s' => l = [TDone; TDone; TDone; TDone; TLen 3; TChar (Some 66); TDone; TChar (Some 67)] /\ rx_int s' [68; 69]).
Proof. apply (serial_int_refines [TPut 65; TPut 66; TPut 67; TPut 68; TLength; TTake; TPut 69; TTake] rx_empty4 [] rx_empty4_int); [by apply Forall_nil|]. repeat (apply Forall_cons_2; [cbn; first [done|lia]|]). by apply Forall_nil. Defined.

(** A controller that writes byte by byte. *)
Fixpoint dma_bytes (b : list Z) (p : Z) (d : list Z) : list Z :=
  match d with
  | [] => b
  | x :: d => dma_bytes (<[Z.to_nat p := x]> b) ((p + 1) `mod` Z.of_nat (length b)) d
  end.
Lemma dma_bytes_circular d : forall b p, 0 <= p < Z.of_nat (length b) -> (length d <= length b)%nat -> dma_wrote b p d (dma_bytes b p d).
Proof.
  induction d as [|x d IH]; intros b p Hp Hd; cbn [dma_bytes]; [by split_and!|]. set (n := Z.of_nat (length b)) in *. assert (n = Z.of_nat (length b)) as Hn by done. cbn [length] in *. pose proof (Z.mod_pos_bound (p + 1) n ltac:(lia)) as Hm. assert (at_ p 0 n = Z.to_nat p) as E0 by (unfold at_; rewrite Z.add_0_r, Z.mod_small; lia).
  destruct (IH (<[Z.to_nat p := x]> b) ((p + 1) `mod` n)) as (Hl & Hnew & Hold); rewrite ?length_insert; [exact Hm|lia|]. rewrite length_insert in *. fold n in Hnew, Hold. split_and!; [done| |].
  - intros [|i] y Hi; cbn in Hi.
    + injection Hi as <-. change (Z.of_nat 0) with 0. fold n. rewrite E0, Hold; [apply list_lookup_insert_eq; lia|]. intros i Hi E. rewrite at_plus in E. rewrite <- E0 in E. revert E. apply at_diff; lia.
    + specialize (Hnew i y Hi). rewrite at_plus in Hnew. fold n. replace (Z.of_nat (S i)) with (1 + Z.of_nat i) by lia. done.
  - intros j Hj. fold n in Hj. cbn [length] in Hj. rewrite Hold.
    + apply list_lookup_insert_ne. specialize (Hj 0%nat ltac:(lia)). change (Z.of_nat 0) with 0 in Hj. congruence.
    + intros i Hi. rewrite at_plus. specialize (Hj (S i) ltac:(lia)). replace (1 + Z.of_nat i) with (Z.of_nat (S i)) by lia. done.
Qed.
Lemma serial_dma_refines_witness : wp (dma_run dma_bytes [DArrive [65; 66; 67]; DRead 2; DArrive [68; 69; 70; 71]; DRead 9]) rx_empty4
  (fun l s' => l = [DLen 3; DData [65; 66]; DLen 4; DData [68; 69; 70; 71]] /\ rx_dma s' []).
Proof.
  apply (serial_dma_refines dma_bytes (fun b p d => dma_bytes_circular d b p) [DArrive [65; 66; 67]; DRead 2; DArrive [68; 69; 70; 71]; DRead 9] rx_empty4 [] rx_empty4_dma). repeat (apply Forall_cons_2; [cbn; first [done|lia]|]). by apply Forall_nil.
Defined.
