(* ===== verification/SerialDev.v ===== *)
(** * Serial devices (components/drivers/serial/serial.c): the handlers of the device

    The driver behind rt_device_open, rt_device_close, rt_device_read and
    rt_device_control: it allocates the structure of the receive and of the transmit
    side when the device is opened and frees it when it is closed for the last time.
    Its world is what rt_serial_device adds to rt_device, with the memory the calls write
    to and the state of the hardware, which the functions of the chip's driver
    (rt_uart_ops) change.  Of rt_serial_write only the polling mode is modelled: in the
    other modes it waits. *)

From S2P Require Import Prelude Ffs KState Kservice Wf Inv Sched Object Timer Thread TimerRun Sleep Ipc Errno Beside WaitQueue Device Console Serial.

Definition RT_DEVICE_FLAG_SUSPENDED : Z := 0x020.
Definition RT_DEVICE_FLAG_INT_RX : Z := 0x100.
Definition RT_DEVICE_FLAG_DMA_RX : Z := 0x200.
Definition RT_DEVICE_FLAG_INT_TX : Z := 0x400.
Definition RT_DEVICE_FLAG_DMA_TX : Z := 0x800.
Definition RT_DEVICE_CTRL_RESUME : Z := 0x01.
Definition RT_DEVICE_CTRL_SUSPEND : Z := 0x02.
Definition RT_DEVICE_CTRL_CONFIG : Z := 0x03.
Definition RT_DEVICE_CTRL_SET_INT : Z := 0x10.
Definition RT_DEVICE_CTRL_CLR_INT : Z := 0x11.
Definition RT_SERIAL_DMA_RX : Z := 0x01.
Definition O_ACCMODE : Z := 3.
Definition O_WRONLY : Z := 1.
Definition O_RDWR : Z := 2.

Record serial_configure := mkCfg {
  baud_rate : Z; data_bits : Z; stop_bits : Z; parity : Z; bit_order : Z; invert : Z;
  cfg_bufsz : Z  (** 16 bits *)
}.
(** What serial_rx points to: a struct rt_serial_rx_fifo with its buffer or a struct
    rt_serial_rx_dma (activated). *)
Inductive serial_rx := RxFifo (f : rt_serial_rx_fifo) | RxDma (activated : bool).
(** What serial_tx points to: a struct rt_serial_tx_fifo, or a struct rt_serial_tx_dma
    (activated, and whether its data queue has the array of its items). *)
Inductive serial_tx := TxFifo | TxDma (activated items : bool).

(** [w_configs]: the configurations the application has in memory; [w_room]: what
    rt_malloc answers, at each of the calls to come, whether there is memory; [w_live]: the
    blocks it has given and that are not free. *)
Record serial (H : Type) := mkSerial {
  w_config : serial_configure;
  w_rx : option serial_rx;
  w_tx : option serial_tx;
  w_mem : mem;
  w_configs : gmap Z serial_configure;
  w_room : list bool;
  w_live : nat;
  w_hw : H
}.
Arguments mkSerial {H}.
Arguments w_config {H}.
Arguments w_rx {H}.
Arguments w_tx {H}.
Arguments w_mem {H}.
Arguments w_configs {H}.
Arguments w_room {H}.
Arguments w_live {H}.
Arguments w_hw {H}.

(** struct rt_uart_ops, on the hardware. *)
Record rt_uart_ops (H : Type) := mkUart {
  uart_configure : option (serial_configure -> H -> Z * H);
  uart_control : Z -> Z -> H -> Z * H;
  uart_putc : Z -> H -> Z * H;
  uart_getc : H -> Z * H;
  uart_dma_transmit : option (Z -> Z -> Z -> H -> Z * H)
}.
Arguments mkUart {H}.
Arguments uart_configure {H}.
Arguments uart_control {H}.
Arguments uart_putc {H}.
Arguments uart_getc {H}.
Arguments uart_dma_transmit {H}.

Section serial.
Context {H : Type} (uart : rt_uart_ops H).
Notation U A := (D (W := serial H) A).

Definition set_w_config v (w : serial H) : serial H := mkSerial v (w_rx w) (w_tx w) (w_mem w) (w_configs w) (w_room w) (w_live w) (w_hw w).
Definition set_w_rx v (w : serial H) : serial H := mkSerial (w_config w) v (w_tx w) (w_mem w) (w_configs w) (w_room w) (w_live w) (w_hw w).
Definition set_w_tx v (w : serial H) : serial H := mkSerial (w_config w) (w_rx w) v (w_mem w) (w_configs w) (w_room w) (w_live w) (w_hw w).
Definition set_w_mem v (w : serial H) : serial H := mkSerial (w_config w) (w_rx w) (w_tx w) v (w_configs w) (w_room w) (w_live w) (w_hw w).
Definition set_w_heap v l (w : serial H) : serial H := mkSerial (w_config w) (w_rx w) (w_tx w) (w_mem w) (w_configs w) v l (w_hw w).
Definition set_w_hw v (w : serial H) : serial H := mkSerial (w_config w) (w_rx w) (w_tx w) (w_mem w) (w_configs w) (w_room w) (w_live w) v.

Definition world : U (serial H) := gets d_world.
Definition with_world (w : serial H) (s : dst (serial H)) : dst (serial H) := mkDst (d_k s) (d_devs s) (d_errno s) w.
Definition set_serial (f : serial H -> serial H) : U unit := modify (fun s => with_world (f (d_world s)) s).
(** A function of the chip's driver is called. *)
Definition hardware {A} (f : H -> A * H) : U A :=
  w <- world ;;
  let '(a, h) := f (w_hw w) in
  set_serial (set_w_hw h) ;; ret a.
(** rt_malloc: whether it gave a block. *)
Definition serial_malloc : U bool :=
  w <- world ;;
  match w_room w with
  | true :: room => set_serial (fun w => set_w_heap room (S (w_live w)) w) ;; ret true
  | room => set_serial (set_w_heap (tail room) (w_live w)) ;; ret false
  end.
Definition serial_free : U unit := set_serial (fun w => set_w_heap (w_room w) (pred (w_live w)) w).

(** A new receive buffer. *)
Definition new_rx_fifo (bufsz : Z) : rt_serial_rx_fifo := mkRx (repeat 0 (Z.to_nat bufsz)) 0 0 false.
(** The structure serial_rx points to as a struct rt_serial_rx_fifo, the buffer of which
    has config.bufsz characters; [op] with it. *)
Definition with_fifo {A} (op : M rt_serial_rx_fifo A) : U A :=
  w <- world ;;
  RT_ASSERT (bool_decide (is_Some (w_rx w))) ;;
  f <- deref (fun s => match w_rx (d_world s) with Some (RxFifo f) => Some f | _ => None end) ;;
  valid (bufsz f =? cfg_bufsz (w_config w)) ;;
  match op f with
  | Ok a f => set_serial (set_w_rx (Some (RxFifo f))) ;; ret a
  | Halt => halt
  | UB => valid false ;; halt
  | NoFuel => fun _ => NoFuel
  end.

(** ** The handlers; [n] is the device *)

Context (n : nat).
Definition or_open_flag (v : Z) : U unit := mod_dev n (fun d => set_dev_open_flag (Z.lor (dev_open_flag d) v) d).
Definition clear_open_flag (v : Z) : U unit := mod_dev n (fun d => set_dev_open_flag (Z.land (dev_open_flag d) (Z.lnot v)) d).

Definition rt_serial_init : U Z :=
  set_serial (set_w_rx None) ;;
  set_serial (set_w_tx None) ;;
  match uart_configure uart with
  | Some configure => w <- world ;; hardware (configure (w_config w))
  | None => ret RT_EOK
  end.

(** The receive side of rt_serial_open. *)
Definition open_rx (oflag : Z) : U unit :=
  w <- world ;;
  match w_rx w with
  | None =>
      if dev_has oflag RT_DEVICE_FLAG_INT_RX then
        rx_fifo <- serial_malloc ;;
        RT_ASSERT rx_fifo ;;
        set_serial (set_w_rx (Some (RxFifo (new_rx_fifo (cfg_bufsz (w_config w)))))) ;;
        or_open_flag RT_DEVICE_FLAG_INT_RX ;;
        hardware (uart_control uart RT_DEVICE_CTRL_SET_INT RT_DEVICE_FLAG_INT_RX) ;;
        ret tt
      else if dev_has oflag RT_DEVICE_FLAG_DMA_RX then
        (if cfg_bufsz (w_config w) =? 0 then
           rx_dma <- serial_malloc ;;
           RT_ASSERT rx_dma ;;
           set_serial (set_w_rx (Some (RxDma false)))
         else
           rx_fifo <- serial_malloc ;;
           RT_ASSERT rx_fifo ;;
           set_serial (set_w_rx (Some (RxFifo (new_rx_fifo (cfg_bufsz (w_config w)))))) ;;
           hardware (uart_control uart RT_DEVICE_CTRL_CONFIG RT_DEVICE_FLAG_DMA_RX) ;;
           ret tt) ;;
        or_open_flag RT_DEVICE_FLAG_DMA_RX
      else set_serial (set_w_rx None)
  | Some _ =>
      if dev_has oflag RT_DEVICE_FLAG_INT_RX then or_open_flag RT_DEVICE_FLAG_INT_RX
      else when (dev_has oflag RT_DEVICE_FLAG_DMA_RX) (or_open_flag RT_DEVICE_FLAG_DMA_RX)
  end.
(** The transmit side.  What rt_data_queue_init returns is not looked at. *)
Definition open_tx (oflag : Z) : U unit :=
  w <- world ;;
  match w_tx w with
  | None =>
      if dev_has oflag RT_DEVICE_FLAG_INT_TX then
        tx_fifo <- serial_malloc ;;
        RT_ASSERT tx_fifo ;;
        set_serial (set_w_tx (Some TxFifo)) ;;
        or_open_flag RT_DEVICE_FLAG_INT_TX ;;
        hardware (uart_control uart RT_DEVICE_CTRL_SET_INT RT_DEVICE_FLAG_INT_TX) ;;
        ret tt
      else if dev_has oflag RT_DEVICE_FLAG_DMA_TX then
        tx_dma <- serial_malloc ;;
        RT_ASSERT tx_dma ;;
        items <- serial_malloc ;;
        set_serial (set_w_tx (Some (TxDma false items))) ;;
        or_open_flag RT_DEVICE_FLAG_DMA_TX ;;
        hardware (uart_control uart RT_DEVICE_CTRL_CONFIG RT_DEVICE_FLAG_DMA_TX) ;;
        ret tt
      else set_serial (set_w_tx None)
  | Some _ =>
      if dev_has oflag RT_DEVICE_FLAG_INT_TX then or_open_flag RT_DEVICE_FLAG_INT_TX
      else when (dev_has oflag RT_DEVICE_FLAG_DMA_TX) (or_open_flag RT_DEVICE_FLAG_DMA_TX)
  end.
(** [oflag] asks for a mode the device does not have. *)
Definition mode_missing (oflag flag mode : Z) : bool := dev_has oflag mode && negb (dev_has flag mode).
Definition rt_serial_open (oflag : Z) : U Z :=
  d <- get_dev n ;;
  if mode_missing oflag (dev_flag d) RT_DEVICE_FLAG_DMA_RX then ret (- RT_EIO)
  else if mode_missing oflag (dev_flag d) RT_DEVICE_FLAG_DMA_TX then ret (- RT_EIO)
  else if mode_missing oflag (dev_flag d) RT_DEVICE_FLAG_INT_RX then ret (- RT_EIO)
  else if mode_missing oflag (dev_flag d) RT_DEVICE_FLAG_INT_TX then ret (- RT_EIO)
  else
    let stream_flag := if dev_has oflag RT_DEVICE_FLAG_STREAM || dev_has (dev_open_flag d) RT_DEVICE_FLAG_STREAM then RT_DEVICE_FLAG_STREAM else 0 in
    mod_dev n (set_dev_open_flag (Z.land oflag 0xff)) ;;
    open_rx oflag ;;
    open_tx oflag ;;
    or_open_flag stream_flag ;;
    ret RT_EOK.

Definition rt_serial_close : U Z :=
  d <- get_dev n ;;
  if 1 <? dev_ref_count d then ret RT_EOK
  else
    (if dev_has (dev_open_flag d) RT_DEVICE_FLAG_INT_RX then
       w <- world ;;
       RT_ASSERT (bool_decide (is_Some (w_rx w))) ;;
       serial_free ;;
       set_serial (set_w_rx None) ;;
       clear_open_flag RT_DEVICE_FLAG_INT_RX ;;
       hardware (uart_control uart RT_DEVICE_CTRL_CLR_INT RT_DEVICE_FLAG_INT_RX) ;;
       ret tt
     else when (dev_has (dev_open_flag d) RT_DEVICE_FLAG_DMA_RX)
       (w <- world ;;
        RT_ASSERT (bool_decide (is_Some (w_rx w))) ;;
        serial_free ;;
        hardware (uart_control uart RT_DEVICE_CTRL_CLR_INT RT_DEVICE_FLAG_DMA_RX) ;;
        set_serial (set_w_rx None) ;;
        clear_open_flag RT_DEVICE_FLAG_DMA_RX)) ;;
    d <- get_dev n ;;
    (if dev_has (dev_open_flag d) RT_DEVICE_FLAG_INT_TX then
       w <- world ;;
       RT_ASSERT (bool_decide (is_Some (w_tx w))) ;;
       serial_free ;;
       set_serial (set_w_tx None) ;;
       clear_open_flag RT_DEVICE_FLAG_INT_TX ;;
       hardware (uart_control uart RT_DEVICE_CTRL_CLR_INT RT_DEVICE_FLAG_INT_TX) ;;
       ret tt
     else when (dev_has (dev_open_flag d) RT_DEVICE_FLAG_DMA_TX)
       (w <- world ;;
        RT_ASSERT (bool_decide (is_Some (w_tx w))) ;;
        serial_free ;;
        set_serial (set_w_tx None) ;;
        clear_open_flag RT_DEVICE_FLAG_DMA_TX)) ;;
    ret RT_EOK.

(** ** Reading and control *)

(** [length] more characters at most; a line is read to its end. *)
Fixpoint _serial_poll_rx (length : nat) : U (list Z) :=
  match length with
  | O => ret []
  | S length =>
      ch <- hardware (uart_getc uart) ;;
      if ch =? -1 then ret []
      else if ch =? 10 then ret [u8 ch]
      else data <- _serial_poll_rx length ;; ret (u8 ch :: data)
  end.
(** putc with a carriage return before the end of a line in stream mode. *)
Definition poll_tx_turn (ch : Z) : U unit :=
  d <- get_dev n ;;
  when ((ch =? 10) && dev_has (dev_open_flag d) RT_DEVICE_FLAG_STREAM) (hardware (uart_putc uart 13) ;; ret tt) ;;
  hardware (uart_putc uart ch) ;;
  ret tt.
Fixpoint _serial_poll_tx (data : list Z) : U Z :=
  match data with
  | [] => ret 0
  | ch :: data => poll_tx_turn ch ;; r <- _serial_poll_tx data ;; ret (1 + r)
  end.
(** The characters go to the buffer of the caller. *)
Definition to_buffer (buffer : Z) (data : list Z) : U Z :=
  w <- world ;;
  valid (mapped (w_mem w) buffer (length data)) ;;
  set_serial (fun w => set_w_mem (write_bytes buffer data (w_mem w)) w) ;;
  ret (Z.of_nat (length data)).
(** _serial_dma_rx without a buffer in the driver: the DMA writes to the caller's. *)
Definition dma_rx_direct (data length : Z) : U Z :=
  activated <- deref (fun s => match w_rx (d_world s) with Some (RxDma activated) => Some activated | _ => None end) ;;
  if negb activated then
    set_serial (set_w_rx (Some (RxDma true))) ;;
    RT_ASSERT (bool_decide (is_Some (uart_dma_transmit uart))) ;;
    match uart_dma_transmit uart with
    | Some dma_transmit => hardware (dma_transmit data length RT_SERIAL_DMA_RX) ;; ret length
    | None => halt
    end
  else dev_set_errno (- RT_EBUSY) ;; ret 0.
Definition rt_serial_read (pos buffer size : Z) : U Z :=
  if size =? 0 then ret 0
  else
    d <- get_dev n ;;
    if dev_has (dev_open_flag d) RT_DEVICE_FLAG_INT_RX then data <- with_fifo (_serial_int_rx (Z.to_nat size)) ;; to_buffer buffer data
    else if dev_has (dev_open_flag d) RT_DEVICE_FLAG_DMA_RX then
      w <- world ;;
      if cfg_bufsz (w_config w) =? 0 then RT_ASSERT (bool_decide (is_Some (w_rx w))) ;; dma_rx_direct buffer size
      else data <- with_fifo (_serial_dma_rx (i32 size)) ;; to_buffer buffer data
    else data <- _serial_poll_rx (Z.to_nat size) ;; to_buffer buffer data.

(** [FIONREAD] is a constant of the C library. *)
Context (FIONREAD : Z).
Definition rt_serial_control (cmd args : Z) : U Z :=
  if cmd =? RT_DEVICE_CTRL_SUSPEND then mod_dev n (fun d => set_dev_flag (Z.lor (dev_flag d) RT_DEVICE_FLAG_SUSPENDED) d) ;; ret RT_EOK
  else if cmd =? RT_DEVICE_CTRL_RESUME then mod_dev n (fun d => set_dev_flag (Z.land (dev_flag d) (Z.lnot RT_DEVICE_FLAG_SUSPENDED)) d) ;; ret RT_EOK
  else if cmd =? RT_DEVICE_CTRL_CONFIG then
    if args =? 0 then ret RT_EOK
    else
      pconfig <- deref (fun s => w_configs (d_world s) !! args) ;;
      w <- world ;;
      d <- get_dev n ;;
      if negb (cfg_bufsz pconfig =? cfg_bufsz (w_config w)) && negb (dev_ref_count d =? 0) then ret RT_EBUSY
      else
        set_serial (set_w_config pconfig) ;;
        when (negb (dev_ref_count d =? 0))
          (configure <- deref (fun _ => uart_configure uart) ;; hardware (configure pconfig) ;; ret tt) ;;
        ret RT_EOK
  else if cmd =? FIONREAD then
    recved <- with_fifo _serial_fifo_calc_recved_len ;;
    w <- world ;;
    valid (mapped (w_mem w) args 4) ;;
    set_serial (fun w => set_w_mem (write_bytes args (le_bytes 4 recved) (w_mem w)) w) ;;
    ret RT_EOK
  else hardware (uart_control uart cmd args).

(** serial_ops; no call of the model writes. *)
Definition serial_ops : rt_device_ops (serial H) :=
  mkOps (Some rt_serial_init) (Some rt_serial_open) (Some rt_serial_close) (Some rt_serial_read) None (Some rt_serial_control).

(** The device as a file; [serial_fops_rx_ind] is the address of the callback, and
    [fops] that of _serial_fops. *)
Context (serial_fops_rx_ind fops : Z).
Definition serial_fops_open (fd_flags : Z) : U Z :=
  let acc := Z.land fd_flags O_ACCMODE in
  let flags :=
    if acc =? 0 then Z.lor RT_DEVICE_FLAG_INT_RX 0x001
    else if acc =? O_WRONLY then 0x002
    else if acc =? O_RDWR then Z.lor RT_DEVICE_FLAG_INT_RX 0x003
    else 0 in
  when (negb (acc =? O_WRONLY)) (rt_device_set_rx_indicate n (Some serial_fops_rx_ind) ;; ret tt) ;;
  rt_device_open serial_ops n flags.
Definition serial_fops_close : U Z :=
  rt_device_set_rx_indicate n None ;;
  rt_device_close serial_ops n ;;
  ret 0.
Definition serial_fops_ioctl (cmd args : Z) : U Z := rt_device_control serial_ops n cmd args.

Definition rt_hw_serial_register (name : list Z) (flag : Z) : U Z :=
  mod_dev n (fun d => mkDev 0 (dev_flag d) (dev_open_flag d) (dev_ref_count d) None None (dev_fops d) (dev_wait_queue d)) ;;
  result <- rt_device_register (Some n) name flag ;;
  mod_dev n (set_dev_fops (Some fops)) ;;
  ret result.
End serial.

(** ** What the flags say *)

Inductive mode := MInt | MDma | MPoll.
Definition rx_mode (v : Z) : mode := if dev_has v RT_DEVICE_FLAG_INT_RX then MInt else if dev_has v RT_DEVICE_FLAG_DMA_RX then MDma else MPoll.
Definition tx_mode (v : Z) : mode := if dev_has v RT_DEVICE_FLAG_INT_TX then MInt else if dev_has v RT_DEVICE_FLAG_DMA_TX then MDma else MPoll.
(** The flag of a mode. *)
Definition rx_flag (m : mode) : Z := match m with MInt => RT_DEVICE_FLAG_INT_RX | MDma => RT_DEVICE_FLAG_DMA_RX | MPoll => 0 end.
Definition tx_flag (m : mode) : Z := match m with MInt => RT_DEVICE_FLAG_INT_TX | MDma => RT_DEVICE_FLAG_DMA_TX | MPoll => 0 end.

Lemma has_int_rx v : dev_has v RT_DEVICE_FLAG_INT_RX = Z.testbit v 8.
Proof. by apply (dev_has_bit v 8). Qed.
Lemma has_dma_rx v : dev_has v RT_DEVICE_FLAG_DMA_RX = Z.testbit v 9.
Proof. by apply (dev_has_bit v 9). Qed.
Lemma has_int_tx v : dev_has v RT_DEVICE_FLAG_INT_TX = Z.testbit v 10.
Proof. by apply (dev_has_bit v 10). Qed.
Lemma has_dma_tx v : dev_has v RT_DEVICE_FLAG_DMA_TX = Z.testbit v 11.
Proof. by apply (dev_has_bit v 11). Qed.
Ltac flag_bits := unfold rx_mode, tx_mode in *; rewrite ?has_int_rx, ?has_dma_rx, ?has_int_tx, ?has_dma_tx, ?Z.lor_spec, ?Z.land_spec, ?Z.lnot_spec in * by lia.
Lemma mode_lor_low v f : Z.testbit f 8 = false -> Z.testbit f 9 = false -> Z.testbit f 10 = false -> Z.testbit f 11 = false -> rx_mode (Z.lor v f) = rx_mode v /\ tx_mode (Z.lor v f) = tx_mode v.
Proof. intros E1 E2 E3 E4. flag_bits. by rewrite E1, E2, E3, E4, !orb_false_r. Qed.
(** The flags an open leaves: the modes of both sides. *)
Lemma opened_modes oflag f mr mt : f = 0 \/ f = RT_DEVICE_FLAG_STREAM -> rx_mode (Z.lor (Z.lor (Z.lor (Z.land oflag 0xff) (rx_flag mr)) (tx_flag mt)) f) = mr /\ tx_mode (Z.lor (Z.lor (Z.lor (Z.land oflag 0xff) (rx_flag mr)) (tx_flag mt)) f) = mt.
Proof. intros Hf. flag_bits. destruct Hf as [-> | ->]; destruct mr, mt; cbn -[Z.testbit]; by rewrite ?andb_false_r. Qed.

(** ** The invariant *)

Section invariant.
Context {H : Type} (uart : rt_uart_ops H) (n : nat).
Implicit Types w : serial H.
Implicit Types s : dst (serial H).

Definition size_ok (c : serial_configure) : Prop := 2 <= cfg_bufsz c <= 2 ^ 15.
Definition byte (c : Z) : Prop := 0 <= c < 256.
(** The receive side is what its mode asks for; [q] is what has arrived. *)
Definition rx_ok (m : mode) (size : Z) (rx : option serial_rx) (q : list Z) : Prop :=
  match m with
  | MInt => exists f, rx = Some (RxFifo f) /\ bufsz f = size /\ rx_int f q /\ Forall byte q
  | MDma => exists f, rx = Some (RxFifo f) /\ bufsz f = size /\ rx_dma f q
  | MPoll => rx = None /\ q = []
  end.
Definition tx_ok (m : mode) (tx : option serial_tx) : Prop :=
  match m with
  | MInt => tx = Some TxFifo
  | MDma => exists activated items, tx = Some (TxDma activated items)
  | MPoll => tx = None
  end.
(** The blocks of memory the two sides have. *)
Definition rx_blocks (rx : option serial_rx) : nat := match rx with Some _ => 1 | None => 0 end.
Definition tx_blocks (tx : option serial_tx) : nat := match tx with Some (TxDma _ true) => 2 | Some _ => 1 | None => 0 end.

Record serial_ok (leaked : nat) (q : list Z) (d : rt_device) (w : serial H) : Prop := {
  so_size : size_ok (w_config w);
  so_configs : forall a c, w_configs w !! a = Some c -> size_ok c;
  so_rx : rx_ok (rx_mode (dev_open_flag d)) (cfg_bufsz (w_config w)) (w_rx w) q;
  so_tx : tx_ok (tx_mode (dev_open_flag d)) (w_tx w);
  so_closed : dev_ref_count d = 0 -> rx_mode (dev_open_flag d) = MPoll /\ tx_mode (dev_open_flag d) = MPoll;
  so_live : w_live w = (leaked + rx_blocks (w_rx w) + tx_blocks (w_tx w))%nat
}.

(** ** Rules *)

Definition serial_at s (d : rt_device) (w : serial H) : Prop := dev_at n s d /\ d_world s = w.
Lemma wp_world s d w (Q : serial H -> dst (serial H) -> Prop) : serial_at s d w -> Q w s -> wp world s Q.
Proof. intros [? <-] HQ. unfold world. by kstep. Qed.
Lemma wp_set_serial s d w f (Q : unit -> dst (serial H) -> Prop) : serial_at s d w -> (forall s', serial_at s' d (f w) -> Q tt s') -> wp (set_serial f) s Q.
Proof. intros [[H1 H2 H3] <-] HQ. unfold set_serial. kstep. apply HQ. by split. Qed.
Lemma wp_hardware {A} s d w (f : H -> A * H) (Q : A -> dst (serial H) -> Prop) : serial_at s d w -> (forall a h s', serial_at s' d (set_w_hw h w) -> Q a s') -> wp (hardware f) s Q.
Proof. intros Hh HQ. unfold hardware. kstep. apply (wp_world _ d w); [done|]. destruct (f (w_hw w)) as [a h]. kstep. apply (wp_set_serial _ d w); [done|]. intros s' Hs'. kstep. by apply (HQ a h). Qed.
Lemma wp_malloc s d w room (Q : bool -> dst (serial H) -> Prop) : serial_at s d w -> w_room w = true :: room -> (forall s', serial_at s' d (set_w_heap room (S (w_live w)) w) -> Q true s') -> wp serial_malloc s Q.
Proof. intros Hh E HQ. unfold serial_malloc. kstep. apply (wp_world _ d w); [done|]. rewrite E. kstep. apply (wp_set_serial _ d w); [done|]. intros s' Hs'. kstep. by apply HQ. Qed.
Lemma wp_read_dev s d w (Q : rt_device -> dst (serial H) -> Prop) : serial_at s d w -> Q d s -> wp (get_dev n) s Q.
Proof. intros [Hd _] HQ. by apply (wp_get_dev n _ d). Qed.
Lemma wp_change_dev s d w f (Q : unit -> dst (serial H) -> Prop) : serial_at s d w -> (forall s', serial_at s' (f d) w -> Q tt s') -> wp (mod_dev n f) s Q.
Proof. intros [Hd Hw] HQ. apply (wp_mod_dev n _ d); [done|]. intros Hd'. apply HQ. by split. Qed.
Lemma wp_with_fifo {A} s d w f (op : M rt_serial_rx_fifo A) (P : A -> rt_serial_rx_fifo -> Prop) (Q : A -> dst (serial H) -> Prop) : serial_at s d w -> w_rx w = Some (RxFifo f) -> bufsz f = cfg_bufsz (w_config w) -> wp op f P ->
  (forall a f' s', P a f' -> serial_at s' d (set_w_rx (Some (RxFifo f')) w) -> Q a s') -> wp (with_fifo op) s Q.
Proof.
  intros Hh Erx Eb Hop HQ. unfold with_fifo. kstep. apply (wp_world _ d w); [done|]. kstep. apply wp_assert; [by rewrite Erx|]. kstep. apply (wp_deref _ f); [destruct Hh as [_ ->]; by rewrite Erx|]. kstep. apply wp_valid; [by apply Z.eqb_eq|]. unfold wp in Hop. destruct (op f) as [a f'| | |]; try done. kstep. apply (wp_set_serial _ d w); [done|]. intros s' Hs'. kstep. by apply (HQ a f').
Qed.
Ltac sstep :=
  lazymatch goal with
  | |- wp (bind _ _) _ _ => kstep
  | |- wp (ret _) _ _ => kstep
  | |- wp (when _ _) _ _ => unfold when
  | h : serial_at ?s ?d ?w |- wp world ?s _ => apply (wp_world s d w _ h)
  | h : serial_at ?s ?d ?w |- wp (set_serial _) ?s _ => apply (wp_set_serial s d w _ _ h); clear h; let s' := fresh "s" in intros s' h
  | h : serial_at ?s ?d ?w |- wp serial_free ?s _ => apply (wp_set_serial s d w _ _ h); clear h; let s' := fresh "s" in intros s' h
  | h : serial_at ?s ?d ?w |- wp (hardware _) ?s _ => apply (wp_hardware s d w _ _ h); clear h; let a := fresh "a" in let hw := fresh "hw" in let s' := fresh "s" in intros a hw s' h
  | h : serial_at ?s ?d ?w |- wp (get_dev n) ?s _ => apply (wp_read_dev s d w _ h)
  | h : serial_at ?s ?d ?w |- wp (mod_dev n _) ?s _ => apply (wp_change_dev s d w _ _ h); clear h; let s' := fresh "s" in intros s' h
  | h : serial_at ?s ?d ?w |- wp (or_open_flag n _) ?s _ => apply (wp_change_dev s d w _ _ h); clear h; let s' := fresh "s" in intros s' h
  | h : serial_at ?s ?d ?w |- wp (clear_open_flag n _) ?s _ => apply (wp_change_dev s d w _ _ h); clear h; let s' := fresh "s" in intros s' h
  end; cbv beta.

(** ** Opening *)

Definition configs_of (w : serial H) := (w_config w, w_configs w).
Definition has_room (k : nat) w : Prop := take k (w_room w) = repeat true k.
Lemma room_less j k w : has_room k w -> (j <= k)%nat -> has_room j w.
Proof. unfold has_room. intros E Hj. apply (f_equal (take j)) in E. rewrite take_take, Nat.min_l in E by lia. rewrite E. clear E. revert k Hj. induction j as [|j IH]; intros [|k] Hk; cbn; [done|done|lia|]. f_equal. apply IH. lia. Qed.
Lemma wp_malloc_room s d w k (Q : bool -> dst (serial H) -> Prop) : serial_at s d w -> has_room (S k) w -> (forall s' w', serial_at s' d w' -> has_room k w' -> w' = set_w_heap (w_room w') (S (w_live w)) w -> Q true s') -> wp serial_malloc s Q.
Proof.
  intros Hh Hr HQ. unfold has_room in Hr. destruct (w_room w) as [|b room] eqn:E; [done|]. cbn in Hr. injection Hr as -> Hr. apply (wp_malloc _ d w room); [done|done|]. intros s' Hs'. by apply (HQ s' _ Hs').
Qed.
Lemma set_open_same d : set_dev_open_flag (Z.lor (dev_open_flag d) 0) d = d.
Proof. rewrite Z.lor_0_r. by destruct d. Qed.
Lemma new_fifo_int c : size_ok c -> rx_int (new_rx_fifo (cfg_bufsz c)) [].
Proof. intros Hc. unfold size_ok in Hc. split; unfold bufsz; cbn; rewrite ?repeat_length; try done; try lia. Qed.
Lemma new_fifo_dma c : size_ok c -> rx_dma (new_rx_fifo (cfg_bufsz c)) [].
Proof. intros Hc. unfold size_ok in Hc. split; unfold bufsz; cbn; rewrite ?repeat_length; try done; try lia. Qed.
Lemma new_fifo_size c : size_ok c -> bufsz (new_rx_fifo (cfg_bufsz c)) = cfg_bufsz c.
Proof. intros Hc. unfold size_ok in Hc. unfold bufsz; cbn; rewrite repeat_length. lia. Qed.

Lemma open_rx_wp s d w oflag k q : serial_at s d w -> size_ok (w_config w) -> has_room (S k) w -> (w_rx w = None /\ q = [] \/ rx_ok (rx_mode oflag) (cfg_bufsz (w_config w)) (w_rx w) q) ->
  wp (open_rx uart n oflag) s (fun _ s' => exists w', serial_at s' (set_dev_open_flag (Z.lor (dev_open_flag d) (rx_flag (rx_mode oflag))) d) w' /\ rx_ok (rx_mode oflag) (cfg_bufsz (w_config w)) (w_rx w') q /\ configs_of w' = configs_of w /\ w_tx w' = w_tx w /\ has_room k w' /\ (w_live w' + rx_blocks (w_rx w) = w_live w + rx_blocks (w_rx w'))%nat).
Proof.
  intros Hh Hs Hr Hrx. assert (k <= S k)%nat as Hk by lia. pose proof (room_less k _ w Hr Hk) as Hr'. unfold open_rx. sstep. sstep. destruct (w_rx w) as [rx|] eqn:Erx.
  - destruct Hrx as [[]|Hrx]; [done|]. unfold rx_mode in *. destruct (dev_has oflag RT_DEVICE_FLAG_INT_RX); [|destruct (dev_has oflag RT_DEVICE_FLAG_DMA_RX)]; cbn [rx_flag rx_ok when] in *; [| |by destruct Hrx]; sstep; exists w; rewrite Erx; by split_and!.
  - assert (q = []) as ->. { destruct Hrx as [[_ E]|E]; [done|]. destruct (rx_mode oflag); [by destruct E as (? & [=] & _)|by destruct E as (? & [=] & _)|by destruct E]. }
    unfold rx_mode in *. destruct (dev_has oflag RT_DEVICE_FLAG_INT_RX); [|destruct (dev_has oflag RT_DEVICE_FLAG_DMA_RX)]; cbn [rx_flag rx_ok] in *.
    + sstep. apply (wp_malloc_room _ d w k); [done|done|]. clear s Hh. intros s1 w1 Hh Hr1 E1. sstep. apply wp_assert; [done|]. repeat sstep. eexists. split; [done|]. rewrite E1. cbn. split_and!; [|done|done|exact Hr1|lia]. eexists. split_and!; [done|by apply new_fifo_size|by apply new_fifo_int|done].
    + rewrite (proj2 (Z.eqb_neq _ 0)) by (unfold size_ok in Hs; lia). sstep. sstep. apply (wp_malloc_room _ d w k); [done|done|]. clear s Hh. intros s1 w1 Hh Hr1 E1. sstep. apply wp_assert; [done|]. repeat sstep. eexists. split; [done|]. rewrite E1. cbn. split_and!; [|done|done|exact Hr1|lia]. eexists. split_and!; [done|by apply new_fifo_size|by apply new_fifo_dma].
    + sstep. eexists. rewrite set_open_same. split; [done|]. cbn. split_and!; [done|done|done|done|exact Hr'|lia].
Qed.
Lemma open_tx_wp s d w oflag : serial_at s d w -> has_room 2 w -> (w_tx w = None \/ tx_ok (tx_mode oflag) (w_tx w)) ->
  wp (open_tx uart n oflag) s (fun _ s' => exists w', serial_at s' (set_dev_open_flag (Z.lor (dev_open_flag d) (tx_flag (tx_mode oflag))) d) w' /\ tx_ok (tx_mode oflag) (w_tx w') /\ configs_of w' = configs_of w /\ w_rx w' = w_rx w /\ (w_live w' + tx_blocks (w_tx w) = w_live w + tx_blocks (w_tx w'))%nat).
Proof.
  intros Hh Hr Htx. unfold open_tx. sstep. sstep. destruct (w_tx w) as [tx|] eqn:Etx.
  - destruct Htx as [|Htx]; [done|]. unfold tx_mode in *. destruct (dev_has oflag RT_DEVICE_FLAG_INT_TX); [|destruct (dev_has oflag RT_DEVICE_FLAG_DMA_TX)]; cbn [tx_flag tx_ok when] in *; [| |done]; sstep; exists w; rewrite Etx; by split_and!.
  - unfold tx_mode in *. destruct (dev_has oflag RT_DEVICE_FLAG_INT_TX); [|destruct (dev_has oflag RT_DEVICE_FLAG_DMA_TX)]; cbn [tx_flag tx_ok] in *.
    + sstep. apply (wp_malloc_room _ d w 1); [done|done|]. clear s Hh. intros s1 w1 Hh Hr1 E1. sstep. apply wp_assert; [done|]. repeat sstep. eexists. split; [done|]. rewrite E1. cbn. split_and!; try done; lia.
    + sstep. apply (wp_malloc_room _ d w 1); [done|done|]. clear s Hh. intros s1 w1 Hh Hr1 E1. sstep. apply wp_assert; [done|]. sstep. apply (wp_malloc_room _ d w1 0); [done|done|]. clear s1 Hh. intros s2 w2 Hh Hr2 E2. repeat sstep. eexists. split; [done|]. rewrite E2, E1. cbn. split_and!; [by eexists _, _|done|done|lia].
    + sstep. eexists. rewrite set_open_same. split; [done|]. cbn. split_and!; try done; lia.
Qed.

Lemma serial_open_wp s d w leaked q oflag : serial_at s d w -> serial_ok leaked q d w -> has_room 3 w -> (0 < dev_ref_count d -> rx_mode oflag = rx_mode (dev_open_flag d) /\ tx_mode oflag = tx_mode (dev_open_flag d)) -> 0 <= dev_ref_count d ->
  wp (rt_serial_open uart n oflag) s (fun r s' => exists d' w', serial_at s' d' w' /\ api_fields d' = api_fields d /\
    (r = RT_EOK /\ rx_ok (rx_mode (dev_open_flag d')) (cfg_bufsz (w_config w')) (w_rx w') q /\ tx_ok (tx_mode (dev_open_flag d')) (w_tx w') /\ configs_of w' = configs_of w /\ w_live w' = (leaked + rx_blocks (w_rx w') + tx_blocks (w_tx w'))%nat
     \/ r = - RT_EIO /\ d' = d /\ w' = w)).
Proof.
  intros Hh [H1 H2 H3 H4 H5 H6] Hr Hm Hc. unfold rt_serial_open. sstep. sstep. do 4 (destruct (mode_missing oflag (dev_flag d) _); [sstep; exists d, w; split_and!; [done|done|by right]|]). cbv zeta.
  assert (w_rx w = None /\ q = [] \/ rx_ok (rx_mode oflag) (cfg_bufsz (w_config w)) (w_rx w) q) as Hrx. { destruct (decide (0 < dev_ref_count d)) as [Hp|Hp]; [right; by rewrite (proj1 (Hm Hp))|left]. destruct H5 as [E _]; [lia|]. rewrite E in H3. exact H3. }
  assert (w_tx w = None \/ tx_ok (tx_mode oflag) (w_tx w)) as Htx. { destruct (decide (0 < dev_ref_count d)) as [Hp|Hp]; [right; by rewrite (proj2 (Hm Hp))|left]. destruct H5 as [_ E]; [lia|]. by rewrite E in H4. }
  sstep. sstep. sstep. eapply wp_mono; [by apply (open_rx_wp _ (set_dev_open_flag (Z.land oflag 255) d) w oflag 2 q)|]. intros [] s1 (w1 & Hh1 & Hx1 & Er1 & Et1 & Hr1 & Hl1). sstep. eapply wp_mono; [apply (open_tx_wp _ _ w1 oflag Hh1 Hr1); by rewrite Et1|]. intros [] s2 (w2 & Hh2 & Hx2 & Er2 & Et2 & Hl2). cbn [set_dev_open_flag dev_open_flag] in Hh2. sstep. sstep. sstep. eexists _, w2. split; [done|]. split; [done|]. left. cbn [set_dev_open_flag dev_open_flag].
  match goal with |- context[Z.lor _ (if ?b then _ else _)] => destruct (opened_modes oflag (if b then RT_DEVICE_FLAG_STREAM else 0) (rx_mode oflag) (tx_mode oflag)) as [-> ->]; [destruct b; auto|] end.
  unfold configs_of in *. rewrite Er1 in Er2. injection Er2 as E1 E2. rewrite E1, E2, Et2 in *. rewrite Et1 in *. split_and!; try done. lia.
Qed.

Lemma serial_init_wp s d w leaked q : serial_at s d w -> serial_ok leaked q d w -> dev_ref_count d = 0 -> wp (rt_serial_init uart) s (fun r s' => exists w', serial_at s' d w' /\ serial_ok leaked q d w' /\ w_room w' = w_room w).
Proof.
  intros Hh [H1 H2 H3 H4 H5 H6] Hc. destruct (H5 Hc) as [Er Et]. rewrite Er, Et in *. destruct H3 as [Hrx ->]. cbn in H4.
  assert (forall w', configs_of w' = configs_of w -> w_rx w' = None -> w_tx w' = None -> w_live w' = w_live w -> serial_ok leaked [] d w') as Hok.
  { intros w' [= E1 E2] E3 E4 E5. split; rewrite ?E1, ?E2, ?E3, ?E4, ?E5, ?Er, ?Et; try done. rewrite Hrx, H4 in H6. exact H6. }
  unfold rt_serial_init. sstep. sstep. sstep. sstep. destruct (uart_configure uart) as [c|].
  - sstep. sstep. sstep. eexists. split; [done|]. split; [by apply Hok|done].
  - sstep. eexists. split; [done|]. split; [by apply Hok|done].
Qed.
Lemma activated_ok d : dev_ok d -> dev_ok (set_dev_flag (Z.lor (dev_flag d) RT_DEVICE_FLAG_ACTIVATED) d).
Proof. intros [H1 H2 H3 H4]. split; cbn; [done|done|by rewrite has_activated_set|by rewrite standalone_activated]. Qed.
(** The handlers keep the flags of the device and what they say. *)
Lemma serial_ok_flag leaked q d w v : serial_ok leaked q d w -> serial_ok leaked q (set_dev_flag v d) w.
Proof. intros [H1 H2 H3 H4 H5 H6]. by split. Qed.

Context (FIONREAD : Z).
Notation ops := (serial_ops uart n FIONREAD).

Lemma serial_open_init_wp s d w leaked q : serial_at s d w -> dev_ok d -> serial_ok leaked q d w ->
  wp (open_init ops n) s (fun r s' => exists d' w', serial_at s' d' w' /\ dev_ok d' /\ serial_ok leaked q d' w' /\ w_room w' = w_room w /\ dev_ref_count d' = dev_ref_count d /\ dev_open_flag d' = dev_open_flag d /\ (r = RT_EOK -> dev_has (dev_flag d') RT_DEVICE_FLAG_ACTIVATED = true)).
Proof.
  intros Hh Ho Hs. unfold open_init. sstep. sstep. destruct (dev_has (dev_flag d) RT_DEVICE_FLAG_ACTIVATED) eqn:Ea; [sstep; by exists d, w|]. cbn [op_init serial_ops]. sstep.
  assert (dev_ref_count d = 0) as Hc. { pose proof (do_range _ Ho). destruct (decide (0 < dev_ref_count d)) as [Hp|]; [|lia]. rewrite (do_active _ Ho Hp) in Ea. done. }
  eapply wp_mono; [by apply (serial_init_wp s d w leaked q)|]. intros r s1 (w1 & Hh1 & Hs1 & Er1). sstep. sstep. destruct (Z.eqb_spec r RT_EOK) as [->|Hr].
  - sstep. sstep. eexists _, w1. split; [done|]. split_and!; [by apply activated_ok|by apply serial_ok_flag|done|done|done|]. intros _. apply has_activated_set.
  - sstep. sstep. exists d, w1. by split_and!.
Qed.
Lemma serial_device_init_wp s d w leaked q : serial_at s d w -> dev_ok d -> serial_ok leaked q d w ->
  wp (rt_device_init ops n) s (fun r s' => exists d' w', serial_at s' d' w' /\ dev_ok d' /\ serial_ok leaked q d' w').
Proof.
  intros Hh Ho Hs. eapply wp_mono; [by apply (serial_open_init_wp s d w leaked q)|]. intros r s' (d' & w' & ? & ? & ? & _). by exists d', w'.
Qed.
Lemma serial_device_open_wp s d w leaked q oflag : serial_at s d w -> dev_ok d -> serial_ok leaked q d w -> has_room 3 w -> dev_ref_count d < 255 -> (0 < dev_ref_count d -> rx_mode oflag = rx_mode (dev_open_flag d) /\ tx_mode oflag = tx_mode (dev_open_flag d)) ->
  wp (rt_device_open ops n oflag) s (fun r s' => exists d' w', serial_at s' d' w' /\ dev_ok d' /\ serial_ok leaked q d' w').
Proof.
  intros Hh Ho Hs Hr Hc Hm. unfold rt_device_open. sstep. apply (wp_dev_type n _ d); [apply Hh|]. sstep. eapply wp_mono; [by apply (serial_open_init_wp s d w leaked q)|]. intros r s1 (d1 & w1 & Hh1 & Ho1 & Hs1 & Er1 & Ec1 & Ef1 & Ha1).
  destruct (Z.eqb_spec r RT_EOK) as [Er|]; [|cbn [negb]; sstep; by exists d1, w1]. cbn [negb]. specialize (Ha1 Er). sstep. sstep. destruct (dev_has (dev_flag d1) RT_DEVICE_FLAG_STANDALONE && dev_has (dev_open_flag d1) RT_DEVICE_OFLAG_OPEN) eqn:Est; [sstep; by exists d1, w1|].
  assert (dev_has (dev_flag d1) RT_DEVICE_FLAG_STANDALONE = true -> dev_ref_count d1 = 0) as Hst. { intros E. rewrite E in Est. pose proof (do_range _ Ho1). destruct (decide (0 < dev_ref_count d1)) as [Hp|]; [|lia]. by rewrite (do_open _ Ho1 Hp) in Est. }
  cbn [op_open serial_ops]. sstep. pose proof (do_range _ Ho1) as Hrange. eapply wp_mono; [apply (serial_open_wp s1 d1 w1 leaked q oflag); [done|done|unfold has_room; by rewrite Er1|rewrite Ec1, Ef1; exact Hm|lia]|].
  intros r2 s2 (d2 & w2 & Hh2 & [= E1 E2 E3] & [(-> & Hx & Ht & Erest & Hl)|(-> & -> & ->)]); [|change (succeeded (- RT_EIO)) with false; cbn [when]; do 3 sstep; by exists d1, w1]. change (succeeded RT_EOK) with true. cbn [when].
  assert (u8 (dev_ref_count d2 + 1) = dev_ref_count d1 + 1) as Eu by (rewrite u8_small; lia). do 6 sstep. sstep. apply wp_assert; [cbn [dev_ref_count set_dev_ref_count set_dev_open_flag]; apply negb_true_iff, Z.eqb_neq; lia|]. sstep. eexists _, w2. split; [done|]. destruct (mode_lor_low (dev_open_flag d2) RT_DEVICE_OFLAG_OPEN) as [Em1 Em2]; try done. destruct Ho1 as [G1 G2 G3 G4], Hs1 as [H1 H2 H3 H4 H5 H6]. injection Erest as F1 F2. split; split; cbn; rewrite ?Eu, ?E2, ?E3, ?Em1, ?Em2, ?F1, ?F2, <- ?F1; try done; try lia.
  - intros _. apply has_open_set.
  - intros E. specialize (Hst E). lia.
  - by rewrite F1.
Qed.

(** ** Closing *)

(** The array of the transmit queue is lost when the device is closed for the last time. *)
Definition lost (d : rt_device) w : nat :=
  if dev_ref_count d =? 1 then match w_tx w with Some (TxDma _ true) => 1 | _ => 0 end else 0.

Lemma serial_close_wp s d w leaked q : serial_at s d w -> rx_ok (rx_mode (dev_open_flag d)) (cfg_bufsz (w_config w)) (w_rx w) q -> tx_ok (tx_mode (dev_open_flag d)) (w_tx w) -> w_live w = (leaked + rx_blocks (w_rx w) + tx_blocks (w_tx w))%nat -> dev_ref_count d = 0 ->
  wp (rt_serial_close uart n) s (fun r s' => r = RT_EOK /\ exists d' w', serial_at s' d' w' /\ api_fields d' = api_fields d /\ configs_of w' = configs_of w /\ w_rx w' = None /\ w_tx w' = None /\ w_live w' = (leaked + match w_tx w with Some (TxDma _ true) => 1 | _ => 0 end)%nat).
Proof.
  intros Hh Hrx Htx Hl Hc. unfold rt_serial_close. sstep. sstep. rewrite Hc. change (1 <? 0) with false. cbv iota. sstep.
  apply (wp_mono _ _ (fun _ s' => exists d' w', serial_at s' d' w' /\ api_fields d' = api_fields d /\ tx_mode (dev_open_flag d') = tx_mode (dev_open_flag d) /\ configs_of w' = configs_of w /\ w_rx w' = None /\ w_tx w' = w_tx w /\ w_live w' = (leaked + tx_blocks (w_tx w))%nat)).
  - unfold rx_mode in Hrx. destruct (dev_has (dev_open_flag d) RT_DEVICE_FLAG_INT_RX) eqn:Ei; [|destruct (dev_has (dev_open_flag d) RT_DEVICE_FLAG_DMA_RX) eqn:Ed]; cbn [rx_ok] in Hrx.
    + destruct Hrx as (f & Ef & _). sstep. sstep. sstep. apply wp_assert; [by rewrite Ef|]. repeat sstep. eexists _, _. split; [done|]. cbn. rewrite Hl, Ef. split_and!; try done; [|cbn; lia]. flag_bits. cbn -[Z.testbit]. by rewrite !andb_true_r.
    + destruct Hrx as (f & Ef & _). sstep. sstep. sstep. sstep. apply wp_assert; [by rewrite Ef|]. repeat sstep. eexists _, _. split; [done|]. cbn. rewrite Hl, Ef. split_and!; try done; [|cbn; lia]. flag_bits. cbn -[Z.testbit]. by rewrite !andb_true_r.
    + destruct Hrx as [Ef _]. sstep. sstep. exists d, w. rewrite Ef in *. split_and!; try done. cbn in Hl. lia.
  - clear s Hh. intros [] s (d1 & w1 & Hh & Ea & Et & Er & Ex & Etx & Hl1). sstep. sstep. sstep.
    apply (wp_mono _ _ (fun _ s' => exists d' w', serial_at s' d' w' /\ api_fields d' = api_fields d /\ configs_of w' = configs_of w /\ w_rx w' = None /\ w_tx w' = None /\ w_live w' = (leaked + match w_tx w with Some (TxDma _ true) => 1 | _ => 0 end)%nat)); [|intros [] s' Hp; by sstep].
    rewrite <- Et, <- Etx in Htx. unfold tx_mode in Htx. destruct (dev_has (dev_open_flag d1) RT_DEVICE_FLAG_INT_TX) eqn:Ei; [|destruct (dev_has (dev_open_flag d1) RT_DEVICE_FLAG_DMA_TX) eqn:Ed]; cbn [tx_ok] in Htx.
    + sstep. sstep. sstep. apply wp_assert; [by rewrite Htx|]. repeat sstep. eexists _, _. split; [done|]. cbn. rewrite Hl1, <- Etx, Htx. split_and!; try done. cbn; lia.
    + destruct Htx as (b & i & Htx). sstep. sstep. sstep. sstep. apply wp_assert; [by rewrite Htx|]. repeat sstep. eexists _, _. split; [done|]. cbn. rewrite Hl1, <- Etx, Htx. split_and!; try done. destruct i; cbn; lia.
    + sstep. sstep. exists d1, w1. rewrite <- Etx, Htx in *. split_and!; try done.
Qed.
Lemma serial_device_close_wp s d w leaked q : serial_at s d w -> dev_ok d -> serial_ok leaked q d w ->
  wp (rt_device_close ops n) s (fun r s' => exists d' w', serial_at s' d' w' /\ dev_ok d' /\ serial_ok (leaked + lost d w) (if dev_ref_count d =? 1 then [] else q) d' w').
Proof.
  intros Hh Ho Hs. pose proof (do_range _ Ho) as Hrange. unfold rt_device_close, lost. sstep. apply (wp_dev_type n _ d); [apply Hh|]. sstep. sstep. destruct (Z.eqb_spec (dev_ref_count d) 0) as [E0|E0].
  { sstep. rewrite E0. cbn. exists d, w. by rewrite Nat.add_0_r. }
  sstep. sstep. assert (u8 (dev_ref_count d - 1) = dev_ref_count d - 1) as Eu by (rewrite u8_small; lia). sstep. sstep. cbn [dev_ref_count set_dev_ref_count]. rewrite Eu in *. destruct Ho as [G1 G2 G3 G4], Hs as [H1 H2 H3 H4 H5 H6]. destruct (Z.eqb_spec (dev_ref_count d) 1) as [E1|E1].
  - rewrite E1 in *. cbn [Z.sub]. change (1 - 1 =? 0) with true. cbn [negb]. cbv iota. cbn [op_close serial_ops]. sstep. eapply wp_mono; [by apply (serial_close_wp s0 _ w leaked q Hh)|]. intros r s1 (-> & d1 & w1 & Hh1 & [= A1 A2 A3] & Erest & Ex & Et & Hl). change (succeeded RT_EOK) with true. cbn [when]. do 3 sstep. injection Erest as F1 F2. eexists _, w1. split; [done|]. cbn in A1, A2, A3. split; split; cbn; rewrite ?A1, ?A2, ?A3, ?F1, ?F2, ?Ex, ?Et; try done; try lia. cbn. lia.
  - rewrite (proj2 (Z.eqb_neq _ 0)) by lia. cbn [negb]. sstep. eexists _, w. split; [done|]. rewrite Nat.add_0_r. split; split; cbn; try done; try lia.
    + intros; apply G2; lia.
    + intros; apply G3; lia.
    + intros E. specialize (G4 E). lia.
Qed.

(** ** Reading, control, interrupts *)

Lemma newest_app cap q d : newest cap (newest cap q ++ d) = newest cap (q ++ d).
Proof.
  unfold newest. rewrite !length_app, length_drop. destruct (decide (length q <= cap)%nat) as [Hl|Hl]; [replace (length q - cap)%nat with 0%nat by lia; by rewrite Nat.sub_0_r|].
  assert (q ++ d = take (length q - cap) q ++ (drop (length q - cap) q ++ d)) as -> by (by rewrite app_assoc, take_drop). rewrite (drop_app_ge (take _ _)) by (rewrite length_take; lia). f_equal. rewrite length_take. lia.
Qed.
Lemma isr_rx_ind_wp chars : forall f q, rx_int f q -> Forall byte q -> Forall byte chars ->
  wp (isr_rx_ind chars) f (fun r f' => r = Z.of_nat (length (newest (length (rx_buffer f) - 1) (q ++ chars))) /\ rx_int f' (newest (length (rx_buffer f) - 1) (q ++ chars)) /\ bufsz f' = bufsz f).
Proof.
  induction chars as [|c chars IH]; intros f q Hr Hq Hc; cbn [isr_rx_ind].
  - rewrite app_nil_r. assert (newest (length (rx_buffer f) - 1) q = q) as ->. { unfold newest. pose proof (ri_free _ _ Hr). by replace (length q - (length (rx_buffer f) - 1))%nat with 0%nat by lia. } eapply wp_mono; [by apply (isr_rx_length_wp f q)|]. by intros r f' [-> ->].
  - apply Forall_cons in Hc as [Hc Hcs]. kstep. eapply wp_mono; [by apply (isr_rx_turn_wp f q c)|]. intros [] f1 [G1 G2]. assert (length (rx_buffer f1) = length (rx_buffer f)) as El by (unfold bufsz in G2; lia). eapply wp_mono; [apply (IH f1 _ G1); [|done]|].
    + apply newest_chars, Forall_app_2; [done|]. by constructor.
    + intros r f' (-> & G3 & G4). rewrite El in *. rewrite newest_app, <- app_assoc in *. cbn [app] in *. split_and!; [done|done|congruence].
Qed.
Lemma int_recved_wp f q : rx_int f q -> wp _serial_fifo_calc_recved_len f (fun r f' => r = Z.of_nat (length q) /\ f' = f).
Proof.
  intros Hr. pose proof (put_is_get f q Hr) as He. destruct Hr as [H1 H2 H3 H4 H5 H6]. unfold _serial_fifo_calc_recved_len. kstep. kstep. kstep. split; [|done]. destruct (Z.eqb_spec (rx_put f) (rx_get f)) as [E|E].
  - symmetry in E. apply He in E as ->. destruct (rx_full f); [by destruct (H5 eq_refl)|done].
  - rewrite H3. unfold bufsz in *. rewrite ring_mod by lia. destruct (Z.ltb_spec (rx_get f + Z.of_nat (length q)) (Z.of_nat (length (rx_buffer f)))); [|rewrite (proj2 (Z.ltb_ge _ _)); lia]. assert (q <> []) as Hq by (intros ->; apply E; symmetry; by apply He). destruct q; [done|]. cbn [length] in *. rewrite (proj2 (Z.ltb_lt _ _)); lia.
Qed.

(** The receive side changes, or memory, or the hardware. *)
Lemma serial_ok_rx leaked q q' d w rx : serial_ok leaked q d w -> rx_ok (rx_mode (dev_open_flag d)) (cfg_bufsz (w_config w)) rx q' -> rx_blocks rx = rx_blocks (w_rx w) -> serial_ok leaked q' d (set_w_rx rx w).
Proof. intros [H1 H2 H3 H4 H5 H6] Hx Hb. split; cbn; try done. by rewrite Hb. Qed.
Lemma serial_ok_mem leaked q d w v : serial_ok leaked q d w -> serial_ok leaked q d (set_w_mem v w).
Proof. intros [H1 H2 H3 H4 H5 H6]. by split. Qed.
Lemma serial_ok_hw leaked q d w v : serial_ok leaked q d w -> serial_ok leaked q d (set_w_hw v w).
Proof. intros [H1 H2 H3 H4 H5 H6]. by split. Qed.

Lemma to_buffer_wp s d w buffer data k (Q : Z -> dst (serial H) -> Prop) : serial_at s d w -> mapped (w_mem w) buffer k = true -> (length data <= k)%nat -> (forall s', serial_at s' d (set_w_mem (write_bytes buffer data (w_mem w)) w) -> Q (Z.of_nat (length data)) s') -> wp (to_buffer buffer data) s Q.
Proof.
  intros Hh Hm Hk HQ. unfold to_buffer. sstep. sstep. sstep. apply wp_valid. { pose proof (mapped_sub _ _ _ 0 (length data) Hm ltac:(lia)) as G. by rewrite Z.add_0_r in G. } sstep. sstep. sstep. by apply HQ.
Qed.
Lemma poll_rx_wp k : forall s d w (Q : list Z -> dst (serial H) -> Prop), serial_at s d w -> (forall data h s', (length data <= k)%nat -> serial_at s' d (set_w_hw h w) -> Q data s') -> wp (_serial_poll_rx uart k) s Q.
Proof.
  induction k as [|k IH]; intros s d w Q Hh HQ; cbn [_serial_poll_rx].
  - sstep. apply (HQ [] (w_hw w)); [done|]. by destruct w.
  - sstep. sstep. destruct (a =? -1); [sstep; apply (HQ [] hw); [cbn; lia|done]|]. destruct (a =? 10); [sstep; apply (HQ [u8 a] hw); [cbn; lia|done]|]. sstep. apply (IH _ d (set_w_hw hw w)); [done|]. intros data h s' Hl Hh'. sstep. apply (HQ (u8 a :: data) h); [cbn; lia|done].
Qed.
(** The characters that are put on the line. *)
Definition on_line (stream : bool) (data : list Z) : list Z := data ≫= fun ch => if (ch =? 10) && stream then [13; ch] else [ch].
Definition line_after (h : H) (chars : list Z) : H := foldl (fun h ch => (uart_putc uart ch h).2) h chars.

(** _serial_poll_tx puts exactly the characters of the buffer on the line, in order, in stream
    mode with a carriage return before every line feed, and returns their number. *)
Theorem serial_poll_tx_correct data : forall s d w, serial_at s d w ->
  wp (_serial_poll_tx uart n data) s (fun r s' => r = Z.of_nat (length data) /\ serial_at s' d (set_w_hw (line_after (w_hw w) (on_line (dev_has (dev_open_flag d) RT_DEVICE_FLAG_STREAM) data)) w)).
Proof.
  induction data as [|ch data IH]; intros s d w Hh; cbn [_serial_poll_tx]; [sstep; split; [done|by destruct w]|]. sstep. unfold poll_tx_turn. sstep. sstep. sstep.
  assert (forall s1 h1, serial_at s1 d (set_w_hw h1 w) -> wp (hardware (uart_putc uart ch) ;; ret tt) s1 (fun _ s' => serial_at s' d (set_w_hw (uart_putc uart ch h1).2 w))) as Hput.
  { intros s1 h1 H1. sstep. unfold hardware. sstep. sstep. destruct (uart_putc uart ch (w_hw (set_w_hw h1 w))) as [a h] eqn:E. do 2 sstep. sstep. sstep. cbn in E. rewrite E. exact H1. }
  assert (forall s1 h1, serial_at s1 d (set_w_hw h1 w) -> wp (hardware (uart_putc uart ch) ;; ret tt) s1 (fun _ s' => wp (r <- _serial_poll_tx uart n data ;; ret (1 + r)) s' (fun r s'' => r = Z.of_nat (length (ch :: data)) /\ serial_at s'' d (set_w_hw (line_after (uart_putc uart ch h1).2 (on_line (dev_has (dev_open_flag d) RT_DEVICE_FLAG_STREAM) data)) w)))) as Hrest.
  { intros s1 h1 H1. eapply wp_mono; [by apply Hput|]. intros [] s2 H2. sstep. eapply wp_mono; [by apply (IH s2 d _ H2)|]. intros r s3 [-> H3]. sstep. split; [cbn [length]; lia|exact H3]. }
  unfold on_line. rewrite bind_cons. fold (on_line (dev_has (dev_open_flag d) RT_DEVICE_FLAG_STREAM) data). unfold line_after. rewrite foldl_app. destruct ((ch =? 10) && dev_has (dev_open_flag d) RT_DEVICE_FLAG_STREAM); cbn [when foldl].
  - sstep. unfold hardware at 1. sstep. sstep. destruct (uart_putc uart 13 (w_hw w)) as [a h] eqn:E. do 2 sstep. sstep. sstep. by apply (Hrest _ h).
  - sstep. apply (Hrest _ (w_hw w)). by destruct w.
Qed.
(** What a read says and leaves. *)
Definition read_result (d : rt_device) (q : list Z) (buffer size : Z) (r : Z) w' : Prop :=
  rx_mode (dev_open_flag d) <> MPoll -> r = Z.of_nat (length (take (Z.to_nat size) q)) /\ read_bytes (w_mem w') buffer (length (take (Z.to_nat size) q)) = Some (take (Z.to_nat size) q).
Lemma serial_read_wp s d w leaked q pos buffer size : serial_at s d w -> serial_ok leaked q d w -> 0 <= size < 2 ^ 31 -> mapped (w_mem w) buffer (Z.to_nat size) = true ->
  wp (rt_serial_read uart n pos buffer size) s (fun r s' => exists w', serial_at s' d w' /\ serial_ok leaked (drop (Z.to_nat size) q) d w' /\ read_result d q buffer size r w').
Proof.
  intros Hh Hs Hz Hm. pose proof Hs as [H1 H2 H3 H4 H5 H6]. unfold rt_serial_read, read_result. destruct (Z.eqb_spec size 0) as [->|_]; [sstep; exists w; by rewrite drop_0|]. sstep. sstep. unfold rx_mode at 1. unfold rx_mode in H3 at 1. destruct (dev_has (dev_open_flag d) RT_DEVICE_FLAG_INT_RX) eqn:Ei; [|destruct (dev_has (dev_open_flag d) RT_DEVICE_FLAG_DMA_RX) eqn:Ed]; cbn [rx_ok] in H3.
  - destruct H3 as (f & Ef & Eb & Hf & Hq). sstep. eapply (wp_with_fifo s d w f); [done|done|done|by apply (int_rx_wp _ f q)|]. intros data f' s' (-> & G1 & G2) Hh'. eapply to_buffer_wp; [done|exact Hm|rewrite length_take; lia|]. intros s2 Hh2. eexists. split; [done|]. split; [|intros _; split; [done|cbn; by apply read_write_same]]. apply serial_ok_mem, (serial_ok_rx _ q); [done| |by rewrite Ef]. unfold rx_mode. rewrite Ei. exists f'. split_and!; [done|congruence|done|by apply Forall_drop].
  - destruct H3 as (f & Ef & Eb & Hf). sstep. sstep. rewrite (proj2 (Z.eqb_neq _ 0)) by (unfold size_ok in H1; lia). sstep. rewrite i32_small by lia. replace size with (Z.of_nat (Z.to_nat size)) at 1 by lia. eapply (wp_with_fifo s d w f); [done|done|done|by apply (dma_rx_wp f q)|]. intros data f' s' (-> & G1 & G2) Hh'. eapply to_buffer_wp; [done|exact Hm|rewrite length_take; lia|]. intros s2 Hh2. eexists. split; [done|]. split; [|intros _; split; [done|cbn; by apply read_write_same]]. apply serial_ok_mem, (serial_ok_rx _ q); [done| |by rewrite Ef]. unfold rx_mode. rewrite Ei, Ed. exists f'. split_and!; [done|congruence|done].
  - destruct H3 as [Ef ->]. sstep. eapply poll_rx_wp; [done|]. intros data h s' Hl Hh'. eapply to_buffer_wp; [done|exact Hm|done|]. intros s2 Hh2. eexists. split; [done|]. split; [|done]. rewrite drop_nil. by apply serial_ok_mem, serial_ok_hw.
Qed.

Hypothesis uart_configures : is_Some (uart_configure uart).
(** The cases of the switch are different. *)
Hypothesis fionread_other : FIONREAD <> RT_DEVICE_CTRL_SUSPEND /\ FIONREAD <> RT_DEVICE_CTRL_RESUME /\ FIONREAD <> RT_DEVICE_CTRL_CONFIG.

Definition control_ok (d : rt_device) w (cmd args : Z) : Prop :=
  (cmd = RT_DEVICE_CTRL_CONFIG -> args = 0 \/ is_Some (w_configs w !! args)) /\
  (cmd = FIONREAD -> rx_mode (dev_open_flag d) <> MPoll /\ mapped (w_mem w) args 4 = true).
Definition control_result (q : list Z) (cmd args r : Z) w' : Prop :=
  cmd = FIONREAD -> r = RT_EOK /\ read_bytes (w_mem w') args 4 = Some (le_bytes 4 (Z.of_nat (length q))).
Lemma recved_wp m size rx q : rx_ok m size rx q -> m <> MPoll -> exists f, rx = Some (RxFifo f) /\ bufsz f = size /\ wp _serial_fifo_calc_recved_len f (fun r f' => r = Z.of_nat (length q) /\ f' = f).
Proof.
  destruct m; cbn; intros Hx Hm; [| |done].
  - destruct Hx as (f & -> & Hb & Hf & _). exists f. split; [done|]. split; [done|]. by apply int_recved_wp.
  - destruct Hx as (f & -> & Hb & Hf). exists f. split; [done|]. split; [done|]. by apply calc_recved_wp.
Qed.
Lemma suspended_ok d v : dev_ok d -> Z.testbit v 3 = Z.testbit (dev_flag d) 3 -> Z.testbit v 4 = Z.testbit (dev_flag d) 4 -> dev_ok (set_dev_flag v d).
Proof. intros [G1 G2 G3 G4] E3 E4. rewrite has_standalone in G4. rewrite has_activated in G3. split; cbn; [done|done|by rewrite has_activated, E4|by rewrite has_standalone, E3]. Qed.
Lemma serial_control_wp s d w leaked q cmd args : serial_at s d w -> dev_ok d -> serial_ok leaked q d w -> control_ok d w cmd args ->
  wp (rt_serial_control uart n FIONREAD cmd args) s (fun r s' => exists d' w', serial_at s' d' w' /\ dev_ok d' /\ serial_ok leaked q d' w' /\ control_result q cmd args r w').
Proof.
  intros Hh Ho Hs [Hc1 Hc2]. unfold rt_serial_control, control_result. destruct fionread_other as (N1 & N2 & N3). destruct (Z.eqb_spec cmd RT_DEVICE_CTRL_SUSPEND) as [->|].
  { do 3 sstep. eexists _, w. split; [done|]. split_and!; [|by apply serial_ok_flag|intros; congruence]. apply suspended_ok; [done|by rewrite Z.lor_spec, orb_false_r..]. }
  destruct (Z.eqb_spec cmd RT_DEVICE_CTRL_RESUME) as [->|].
  { do 3 sstep. eexists _, w. split; [done|]. split_and!; [|by apply serial_ok_flag|intros; congruence]. apply suspended_ok; [done|by rewrite Z.land_spec, andb_true_r..]. }
  destruct (Z.eqb_spec cmd RT_DEVICE_CTRL_CONFIG) as [->|].
  { destruct (Z.eqb_spec args 0); [sstep; exists d, w; split_and!; try done; intros; congruence|]. destruct Hc1 as [|[c Ec]]; [done|done|]. sstep. apply (wp_deref _ c); [by destruct Hh as [_ ->]|]. do 4 sstep. destruct (negb (cfg_bufsz c =? cfg_bufsz (w_config w)) && negb (dev_ref_count d =? 0)) eqn:Eb; [sstep; exists d, w; split_and!; try done; intros; congruence|].
    assert (serial_ok leaked q d (set_w_config c w)) as Hs'. { destruct Hs as [H1 H2 H3 H4 H5 H6]. split; cbn; try done; [by apply (H2 args)|]. destruct (Z.eqb_spec (cfg_bufsz c) (cfg_bufsz (w_config w))) as [->|]; [done|]. cbn in Eb. apply negb_false_iff, Z.eqb_eq in Eb. destruct (H5 Eb) as [E _]. by rewrite E in *. }
    sstep. sstep. sstep. destruct (dev_ref_count d =? 0); cbn [negb when]; [sstep; sstep; eexists d, _; split_and!; [done|done|done|intros; congruence]|]. destruct uart_configures as [g Eg]. sstep. apply (wp_deref _ g); [done|]. repeat sstep. eexists d, _. split_and!; [done|done|by apply serial_ok_hw|intros; congruence]. }
  destruct (Z.eqb_spec cmd FIONREAD) as [->|].
  - destruct (Hc2 eq_refl) as [Hm Ha]. pose proof (so_rx _ _ _ _ Hs) as Hx. destruct (recved_wp _ _ _ _ Hx Hm) as (f & Ef & Eb & Hf). sstep. eapply (wp_with_fifo s d w f); [done|done|done|exact Hf|]. intros r f' s' [-> ->] Hh'. assert (set_w_rx (Some (RxFifo f)) w = w) as E by (rewrite <- Ef; by destruct w). rewrite E in Hh'. sstep. sstep. sstep. apply wp_valid; [done|]. do 3 sstep. eexists d, _. split_and!; [done|done|by apply serial_ok_mem|]. intros _. split; [done|]. cbn [w_mem set_w_mem]. by apply read_write_same.
  - sstep. eexists d, _. split_and!; [done|done|by apply serial_ok_hw|done].
Qed.

(** ** Steps: calls of the application, and interrupts *)

Variable dma : list Z -> Z -> list Z -> list Z.
Hypothesis dma_circular : forall b p d, 0 <= p < Z.of_nat (length b) -> (length d <= length b)%nat -> dma_wrote b p d (dma b p d).

Inductive serial_step := SCall (c : dev_call) | SRxInd (chars : list Z) | SRxDma (data : list Z).
(** An interrupt gives the length the callback gets. *)
Definition do_step (st : serial_step) : D (W := serial H) Z :=
  match st with
  | SCall c => run_call n ops c
  | SRxInd chars => with_fifo (isr_rx_ind chars)
  | SRxDma data => with_fifo (modify (fun f => mkRx (dma (rx_buffer f) (rx_put f) data) (rx_put f) (rx_get f) (rx_full f)) ;; isr_rx_dmadone (Z.of_nat (length data)))
  end.
(** What is allowed: as long as the device is open it is opened in the same modes, rt_malloc
    has memory for an open, the arguments point to memory, and the interrupts of a mode come
    in this mode. *)
Definition step_ok (d : rt_device) w (st : serial_step) : Prop :=
  match st with
  | SCall (COpen oflag) => has_room 3 w /\ dev_ref_count d < 255 /\ (0 < dev_ref_count d -> rx_mode oflag = rx_mode (dev_open_flag d) /\ tx_mode oflag = tx_mode (dev_open_flag d))
  | SCall (CRead _ buffer size) => 0 <= size < 2 ^ 31 /\ mapped (w_mem w) buffer (Z.to_nat size) = true
  | SCall (CControl cmd args) => control_ok d w cmd args
  | SCall (CWrite _ _ _) => False
  | SCall _ => True
  | SRxInd chars => rx_mode (dev_open_flag d) = MInt /\ Forall byte chars
  | SRxDma data => rx_mode (dev_open_flag d) = MDma /\ Z.of_nat (length data) <= cfg_bufsz (w_config w)
  end.
(** The characters that wait to be read after a step. *)
Definition after (d : rt_device) w (q : list Z) (st : serial_step) : list Z :=
  match st with
  | SCall CClose => if dev_ref_count d =? 1 then [] else q
  | SCall (CRead _ _ size) => drop (Z.to_nat size) q
  | SRxInd chars => newest (Z.to_nat (cfg_bufsz (w_config w)) - 1) (q ++ chars)
  | SRxDma data => newest (Z.to_nat (cfg_bufsz (w_config w))) (q ++ data)
  | _ => q
  end.
Definition leaks (d : rt_device) w (st : serial_step) : nat := match st with SCall CClose => lost d w | _ => 0 end.
(** What a step answers. *)
Definition answer_ok (d : rt_device) w (q : list Z) (st : serial_step) (r : Z) w' : Prop :=
  match st with
  | SCall (CRead _ buffer size) => read_result d q buffer size r w'
  | SCall (CControl cmd args) => control_result q cmd args r w'
  | SRxInd _ | SRxDma _ => r = Z.of_nat (length (after d w q st))
  | _ => True
  end.

Lemma rx_ind_wp s d w leaked q chars : serial_at s d w -> serial_ok leaked q d w -> rx_mode (dev_open_flag d) = MInt -> Forall byte chars ->
  let q' := newest (Z.to_nat (cfg_bufsz (w_config w)) - 1) (q ++ chars) in wp (with_fifo (isr_rx_ind chars)) s (fun r s' => exists w', serial_at s' d w' /\ serial_ok leaked q' d w' /\ r = Z.of_nat (length q')).
Proof.
  intros Hh Hs Hm Hc q'. pose proof (so_rx _ _ _ _ Hs) as Hx. rewrite Hm in Hx. destruct Hx as (f & Ef & Eb & Hf & Hq). eapply (wp_with_fifo s d w f); [done|done|done|by apply (isr_rx_ind_wp chars f q)|]. unfold q'. replace (Z.to_nat (cfg_bufsz (w_config w))) with (length (rx_buffer f)) by (rewrite <- Eb; unfold bufsz; lia). intros r f' s' (-> & G1 & G2) Hh'. eexists. split; [done|]. split; [|done]. apply (serial_ok_rx _ q); [done| |by rewrite Ef]. rewrite Hm. exists f'. split_and!; [done|congruence|done|]. by apply newest_chars, Forall_app_2.
Qed.
Lemma rx_dmadone_wp s d w leaked q data : serial_at s d w -> serial_ok leaked q d w -> rx_mode (dev_open_flag d) = MDma -> Z.of_nat (length data) <= cfg_bufsz (w_config w) ->
  let q' := newest (Z.to_nat (cfg_bufsz (w_config w))) (q ++ data) in wp (do_step (SRxDma data)) s (fun r s' => exists w', serial_at s' d w' /\ serial_ok leaked q' d w' /\ r = Z.of_nat (length q')).
Proof using dma_circular.
  intros Hh Hs Hm Hc q'. pose proof (so_rx _ _ _ _ Hs) as Hx. rewrite Hm in Hx. destruct Hx as (f & Ef & Eb & Hf). assert (Z.to_nat (cfg_bufsz (w_config w)) = length (rx_buffer f)) as El by (rewrite <- Eb; unfold bufsz; lia). cbn [do_step].
  eapply (wp_with_fifo s d w f _ (fun r f' => r = Z.of_nat (length q') /\ rx_dma f' q' /\ bufsz f' = bufsz f)); [done|done|done| |].
  - kstep. kstep. unfold isr_rx_dmadone. kstep. eapply wp_mono; [apply (update_put_wp f q data); [done|lia|]|].
    { apply dma_circular; [|lia]. destruct Hf as [H1 H2 H3 H4 H5 H6]. fold (bufsz f). rewrite H3. apply Z.mod_pos_bound. lia. }
    intros [] f1 [G1 G2]. rewrite <- El in G1. eapply wp_mono; [by apply (calc_recved_wp f1 q')|]. by intros r f2 [-> ->].
  - intros r f' s' (-> & G1 & G2) Hh'. eexists. split; [done|]. split; [|done]. apply (serial_ok_rx _ q); [done| |by rewrite Ef]. rewrite Hm. exists f'. split_and!; [done|congruence|done].
Qed.

Lemma serial_step_wp s d w leaked q st : serial_at s d w -> dev_ok d -> serial_ok leaked q d w -> step_ok d w st ->
  wp (do_step st) s (fun r s' => exists d' w', serial_at s' d' w' /\ dev_ok d' /\ serial_ok (leaked + leaks d w st) (after d w q st) d' w' /\ answer_ok d w q st r w').
Proof using uart_configures fionread_other dma_circular.
  intros Hh Ho Hs Hst. destruct st as [c|chars|data]; [destruct c|..]; cbn [do_step run_call leaks after answer_ok step_ok] in *; rewrite ?Nat.add_0_r.
  - eapply wp_mono; [by apply (serial_device_init_wp s d w leaked q)|]. intros r s' (d' & w' & ? & ? & ?). by exists d', w'.
  - destruct Hst as (? & ? & ?). eapply wp_mono; [by apply (serial_device_open_wp s d w leaked q oflag)|]. intros r s' (d' & w' & ? & ? & ?). by exists d', w'.
  - eapply wp_mono; [by apply (serial_device_close_wp s d w leaked q)|]. intros r s' (d' & w' & ? & ? & ?). by exists d', w'.
  - destruct Hst as [Hz Hm]. unfold rt_device_read, dev_transfer. sstep. apply (wp_dev_type n _ d); [apply Hh|]. sstep. sstep. destruct (Z.eqb_spec (dev_ref_count d) 0) as [E0|_].
    + sstep. eapply wp_mono; [apply (dev_set_errno_wp n _ d); apply Hh|]. intros [] s1 (Hd1 & _ & Ew1). sstep. exists d, w. destruct (so_closed _ _ _ _ Hs E0) as [Em _]. pose proof (so_rx _ _ _ _ Hs) as Hx. rewrite Em in Hx. destruct Hx as [_ ->]. rewrite drop_nil. split_and!; [split; [done|]|done|done|by intros ?]. rewrite Ew1. apply Hh.
    + cbn [op_read serial_ops]. eapply wp_mono; [by apply (serial_read_wp s d w leaked q)|]. intros r s' (w' & ? & ? & ?). by exists d, w'.
  - done.
  - unfold rt_device_control. sstep. apply (wp_dev_type n _ d); [apply Hh|]. cbn [op_control serial_ops]. by apply (serial_control_wp s d w).
  - unfold rt_device_set_rx_indicate. sstep. apply (wp_dev_type n _ d); [apply Hh|]. do 3 sstep. eexists _, w. split; [done|]. split_and!; [by destruct Ho|by destruct Hs|done].
  - unfold rt_device_set_tx_complete. sstep. apply (wp_dev_type n _ d); [apply Hh|]. do 3 sstep. eexists _, w. split; [done|]. split_and!; [by destruct Ho|by destruct Hs|done].
  - destruct Hst as [Hm Hc]. eapply wp_mono; [by apply (rx_ind_wp s d w leaked q chars)|]. intros r s' (w' & ? & ? & ?). by exists d, w'.
  - destruct Hst as [Hm Hc]. eapply wp_mono; [by apply (rx_dmadone_wp s d w leaked q data)|]. intros r s' (w' & ? & ? & ?). by exists d, w'.
Qed.

(** The states the steps lead to, with the blocks of memory that are lost and the
    characters that wait. *)
Inductive serial_reach (s0 : dst (serial H)) : nat -> list Z -> dst (serial H) -> Prop :=
| reach_start : serial_reach s0 0 [] s0
| reach_step l q s d w st r s' : serial_reach s0 l q s -> serial_at s d w -> step_ok d w st -> do_step st s = Ok r s' -> serial_reach s0 (l + leaks d w st) (after d w q st) s'.
Lemma holds_same s d w d' w' : serial_at s d w -> serial_at s d' w' -> d' = d /\ w' = w.
Proof. intros [[_ _ E1] E2] [[_ _ E3] E4]. split; congruence. Qed.
Lemma serial_reach_ok s0 d0 w0 l q s : serial_at s0 d0 w0 -> dev_ok d0 -> serial_ok 0 [] d0 w0 -> serial_reach s0 l q s -> exists d w, serial_at s d w /\ dev_ok d /\ serial_ok l q d w.
Proof using uart_configures fionread_other dma_circular.
  intros Hh Ho Hs. induction 1 as [|l q s d w st r s' _ (d1 & w1 & Hh1 & Ho1 & Hs1) Hd Hst Er]; [by exists d0, w0|]. destruct (holds_same _ _ _ _ _ Hh1 Hd) as [-> ->]. pose proof (serial_step_wp s d1 w1 l q st Hh1 Ho1 Hs1 Hst) as Hw. unfold wp in Hw. rewrite Er in Hw. destruct Hw as (d2 & w2 & ? & ? & ? & _). by exists d2, w2.
Qed.

(** C33: A serial device, from the calls of the application to the interrupts.  However opens
    (in the same modes while the device is open), closes, reads, controls, receive
    interrupts and DMA transfers follow each other, every step returns: no assertion fails
    and no access goes wrong.  The characters that wait are a queue of the newest ones: a
    read in interrupt or DMA mode moves the oldest of them to the caller's buffer, FIONREAD
    and the callback get their number, and the last close drops them.  The structures of
    both sides exist exactly while the device is open in their modes, with a buffer of
    config.bufsz characters; the memory is given back except for one block per session in
    DMA transmit mode. *)
Theorem serial_device_refines s0 d0 w0 l q s : serial_at s0 d0 w0 -> dev_ok d0 -> serial_ok 0 [] d0 w0 -> serial_reach s0 l q s ->
  exists d w, serial_at s d w /\ dev_ok d /\ serial_ok l q d w /\
    forall st, step_ok d w st -> exists r s' d' w', do_step st s = Ok r s' /\ serial_at s' d' w' /\ dev_ok d' /\ serial_ok (l + leaks d w st) (after d w q st) d' w' /\ answer_ok d w q st r w'.
Proof using uart_configures fionread_other dma_circular.
  intros Hh Ho Hs Hr. destruct (serial_reach_ok _ _ _ _ _ _ Hh Ho Hs Hr) as (d & w & Hh1 & Ho1 & Hs1). exists d, w. split_and!; [done|done|done|]. intros st Hst. destruct (wp_run _ _ _ (serial_step_wp s d w l q st Hh1 Ho1 Hs1 Hst)) as (r & s' & Er & d' & w' & ?). by exists r, s', d', w'.
Qed.
End invariant.

(** ** A device in the sample state *)

Definition sample_uart : rt_uart_ops unit := mkUart (Some (fun _ h => (RT_EOK, h))) (fun _ _ h => (RT_EOK, h)) (fun _ h => (1, h)) (fun h => (-1, h)) None.
Definition config_of (size : Z) : serial_configure := mkCfg 115200 8 0 0 0 0 size.
Definition serial_device : rt_device := mkDev 0 0xf03 0 0 None None None empty_wqueue.
(** A buffer of 4 is configured; the application has a configuration with 8 at 64. *)
Definition serial_world : serial unit := mkSerial (config_of 4) None None (write_bytes 1000 [0; 0; 0; 0; 0; 0; 0; 0] ∅) {[ 64 := config_of 8 ]} (repeat true 9) 0 tt.
Definition serial_state : dst (serial unit) :=
  mkDst (set_k_objects (<[ODevice 64 := mkObject (padded RT_NAME_MAX [100]) (Z.lor RT_Object_Class_Device RT_Object_Class_Static) 0]> (k_objects sample)) sample)
    {[ 64%nat := serial_device ]} 0 serial_world.
Notation sample_step := (do_step sample_uart 64 99 dma_bytes).
Lemma serial_state_holds : serial_at 64 serial_state serial_device serial_world.
Proof. split; [|done]. split; [|intros c [= <-]; by eexists|done]. eexists. split; [apply lookup_insert_eq|done]. Qed.
Lemma serial_world_ok : serial_ok 0 [] serial_device serial_world.
Proof.
  split; try done. intros a c Hc. cbn in Hc. apply lookup_singleton_Some in Hc as [_ <-]. done.
Qed.
(** After an open in interrupt mode, and after five characters. *)
Definition run_step (st : serial_step) (s : dst (serial unit)) : dst (serial unit) := match sample_step st s with Ok _ s' => s' | _ => s end.
Definition serial_opened : dst (serial unit) := run_step (SCall (COpen 0x103)) serial_state.
Definition serial_received : dst (serial unit) := run_step (SRxInd [65; 66; 67; 68; 69]) serial_opened.
Definition opened_device : rt_device := mkDev 0 0xf13 0x10b 1 None None None empty_wqueue.
Lemma serial_opened_holds : serial_at 64 serial_opened opened_device (d_world serial_opened).
Proof.
  split; [|done]. split; [|intros c Hc; vm_compute in Hc; injection Hc as <-; by eexists|by vm_compute]. eexists. split; [by vm_compute|by vm_compute].
Qed.
Lemma serial_device_refines_witness : exists d w, serial_at 64 serial_received d w /\ serial_ok 0 [67; 68; 69] d w.
Proof.
  destruct (serial_device_refines sample_uart 64 99 ltac:(by eexists) ltac:(done) dma_bytes (fun b p d => dma_bytes_circular d b p) serial_state serial_device serial_world 0 [67; 68; 69] serial_received serial_state_holds) as (d & w & Hd & _ & Hs & _).
  - by split.
  - exact serial_world_ok.
  - apply (reach_step sample_uart 64 99 dma_bytes serial_state 0 [] serial_opened opened_device (d_world serial_opened) (SRxInd [65; 66; 67; 68; 69]) 3); [|exact serial_opened_holds|split; [done|]; repeat (apply Forall_cons_2; [unfold byte; lia|]); by apply Forall_nil|by vm_compute].
    apply (reach_step sample_uart 64 99 dma_bytes serial_state 0 [] serial_state serial_device serial_world (SCall (COpen 0x103)) 0); [apply reach_start|exact serial_state_holds|split_and!; [done|done|cbn; lia]|by vm_compute].
  - by exists d, w.
Defined.

(** ** Where the structures do not follow the flags *)

(** Calls on the device, and the files that are open on it. *)
Inductive file_call := FOpen (flags : Z) | FClose | FDevice (c : dev_call).
Definition file_do (c : file_call) : D (W := serial unit) Z :=
  match c with
  | FOpen flags => serial_fops_open sample_uart 64 99 7 flags
  | FClose => serial_fops_close sample_uart 64 99
  | FDevice c => run_call 64 (serial_ops sample_uart 64 99) c
  end.
Fixpoint sample_calls (cs : list file_call) (s : dst (serial unit)) : option (serial unit * rt_device) :=
  match cs with
  | [] => d ← d_devs s !! 64%nat; Some (d_world s, d)
  | c :: cs => match file_do c s with Ok _ s => sample_calls cs s | _ => None end
  end.
(** When the device is opened for reading and then for writing, rt_serial_open forgets the
    interrupt mode of the first open (its read is a poll now), and the last close keeps the
    buffer; the next open uses it, also when the configuration has asked for a bigger one in
    the meantime: the interrupt routine writes up to config.bufsz characters to the old
    one. *)
Theorem serial_buffer_kept :
  (exists w d f, sample_calls [FOpen 0; FOpen O_WRONLY] serial_state = Some (w, d) /\ rx_mode (dev_open_flag d) = MPoll /\ w_rx w = Some (RxFifo f)) /\
  (exists w d f, sample_calls [FOpen 0; FOpen O_WRONLY; FClose; FClose] serial_state = Some (w, d) /\ dev_ref_count d = 0 /\ w_rx w = Some (RxFifo f) /\ w_live w = 1%nat) /\
  (exists w d f, sample_calls [FOpen 0; FOpen O_WRONLY; FClose; FClose; FDevice (CControl RT_DEVICE_CTRL_CONFIG 64); FOpen 0] serial_state = Some (w, d) /\
     rx_mode (dev_open_flag d) = MInt /\ w_rx w = Some (RxFifo f) /\ length (rx_buffer f) = 4%nat /\ cfg_bufsz (w_config w) = 8).
Proof. split_and!; eexists _, _, _; (split; [by vm_compute|by vm_compute]). Qed.
(** Two files are open for reading; when one is closed, no callback wakes the reader of the
    other. *)
Theorem serial_callback_removed :
  exists w d, sample_calls [FOpen 0; FOpen 0; FClose] serial_state = Some (w, d) /\ dev_ref_count d = 1 /\ dev_rx_indicate d = None.
Proof. eexists _, _. split; by vm_compute. Qed.
(** rt_serial_close does not free the items of the transmit queue. *)
Theorem serial_dma_tx_leaks :
  exists w d, sample_calls [FDevice (COpen 0x803); FDevice CClose; FDevice (COpen 0x803); FDevice CClose] serial_state = Some (w, d) /\ dev_ref_count d = 0 /\ w_tx w = None /\ w_live w = 2%nat.
Proof. eexists _, _. split; by vm_compute. Qed.
(** Interrupt mode without a buffer: the first character goes beyond it. *)
Theorem serial_int_without_buffer ch : isr_rx_turn ch (new_rx_fifo 0) = UB.
Proof. reflexivity. Qed.

