(* ===== verification/Fd.v ===== *)
(** * File descriptors (components/dfs/src/dfs.c)

    The state of the virtual file system, next to the device layer, and its table
    of file descriptors.  A section under the lock of the file system is one
    piece; strings are values here, the memory they are in belongs to Path.v. *)

From S2P Require Import Prelude Ffs KState Kservice Str Wf Inv Sched Object Timer Thread TimerRun Sleep Ipc Errno Beside WaitQueue Device.

Definition DFS_FD_MAX : nat := 16.
Definition DFS_FD_OFFSET : Z := 3.
Definition DFS_FD_MAGIC : Z := 0xfdfd.

(** What [data] points to: nothing, the file system, a device, or the list of devices
    of an open directory of devices with the number of those already read. *)
Inductive fdata := DNull | DFs (fs : nat) | DDev (dev : nat) | DDir (devices : list oid) (read_index : Z).
(** struct dfs_fd: [fd_fs] is an index of the table of file systems, [fd_fops] the
    address of the operations of the file. *)
Record dfs_fd := mkFd {
  fd_magic : Z;
  fd_type : Z;
  fd_path : option (list Z);
  fd_ref_count : Z;
  fd_fs : option nat;
  fd_fops : option Z;
  fd_flags : Z;
  fd_size : Z;
  fd_pos : Z;
  fd_data : fdata
}.
Definition set_fd_magic (v : Z) (d : dfs_fd) : dfs_fd := mkFd v (fd_type d) (fd_path d) (fd_ref_count d) (fd_fs d) (fd_fops d) (fd_flags d) (fd_size d) (fd_pos d) (fd_data d).
Definition set_fd_type (v : Z) (d : dfs_fd) : dfs_fd := mkFd (fd_magic d) v (fd_path d) (fd_ref_count d) (fd_fs d) (fd_fops d) (fd_flags d) (fd_size d) (fd_pos d) (fd_data d).
Definition set_fd_path (v : option (list Z)) (d : dfs_fd) : dfs_fd := mkFd (fd_magic d) (fd_type d) v (fd_ref_count d) (fd_fs d) (fd_fops d) (fd_flags d) (fd_size d) (fd_pos d) (fd_data d).
Definition set_fd_ref_count (v : Z) (d : dfs_fd) : dfs_fd := mkFd (fd_magic d) (fd_type d) (fd_path d) v (fd_fs d) (fd_fops d) (fd_flags d) (fd_size d) (fd_pos d) (fd_data d).
Definition set_fd_fs (v : option nat) (d : dfs_fd) : dfs_fd := mkFd (fd_magic d) (fd_type d) (fd_path d) (fd_ref_count d) v (fd_fops d) (fd_flags d) (fd_size d) (fd_pos d) (fd_data d).
Definition set_fd_fops (v : option Z) (d : dfs_fd) : dfs_fd := mkFd (fd_magic d) (fd_type d) (fd_path d) (fd_ref_count d) (fd_fs d) v (fd_flags d) (fd_size d) (fd_pos d) (fd_data d).
Definition set_fd_flags (v : Z) (d : dfs_fd) : dfs_fd := mkFd (fd_magic d) (fd_type d) (fd_path d) (fd_ref_count d) (fd_fs d) (fd_fops d) v (fd_size d) (fd_pos d) (fd_data d).
Definition set_fd_size (v : Z) (d : dfs_fd) : dfs_fd := mkFd (fd_magic d) (fd_type d) (fd_path d) (fd_ref_count d) (fd_fs d) (fd_fops d) (fd_flags d) v (fd_pos d) (fd_data d).
Definition set_fd_pos (v : Z) (d : dfs_fd) : dfs_fd := mkFd (fd_magic d) (fd_type d) (fd_path d) (fd_ref_count d) (fd_fs d) (fd_fops d) (fd_flags d) (fd_size d) v (fd_data d).
Definition set_fd_data (v : fdata) (d : dfs_fd) : dfs_fd := mkFd (fd_magic d) (fd_type d) (fd_path d) (fd_ref_count d) (fd_fs d) (fd_fops d) (fd_flags d) (fd_size d) (fd_pos d) v.
(** what rt_calloc leaves *)
Definition cleared_fd : dfs_fd := mkFd 0 0 None 0 None None 0 0 0 DNull.

(** struct dfs_filesystem: [fs_ops] is a type of file system. *)
Record dfs_filesystem := mkFs { fs_dev_id : option nat; fs_path : option (list Z); fs_ops : option nat }.
Definition cleared_fs : dfs_filesystem := mkFs None None None.

(** [v_types] and [v_mounted] are filesystem_operation_table and filesystem_table,
    [v_fds] is the table of descriptors, as long as its maxfd, [v_files] the files by
    their address, [v_wd] the working directory, [v_init] the flag of dfs_init. *)
Record vfs (W : Type) := mkVfs {
  v_dev : dst W;
  v_types : list (option nat);
  v_mounted : list dfs_filesystem;
  v_fds : list (option nat);
  v_files : gmap nat dfs_fd;
  v_wd : list Z;
  v_init : bool
}.
Arguments mkVfs {W}.
Arguments v_dev {W}.
Arguments v_types {W}.
Arguments v_mounted {W}.
Arguments v_fds {W}.
Arguments v_files {W}.
Arguments v_wd {W}.
Arguments v_init {W}.

Section fd.
Context {W : Type}.
Definition V (A : Type) : Type := M (vfs W) A.
Definition set_v_dev (v : dst W) (s : vfs W) : vfs W := mkVfs v (v_types s) (v_mounted s) (v_fds s) (v_files s) (v_wd s) (v_init s).
Definition set_v_types (v : list (option nat)) (s : vfs W) : vfs W := mkVfs (v_dev s) v (v_mounted s) (v_fds s) (v_files s) (v_wd s) (v_init s).
Definition set_v_mounted (v : list dfs_filesystem) (s : vfs W) : vfs W := mkVfs (v_dev s) (v_types s) v (v_fds s) (v_files s) (v_wd s) (v_init s).
Definition set_v_fds (v : list (option nat)) (s : vfs W) : vfs W := mkVfs (v_dev s) (v_types s) (v_mounted s) v (v_files s) (v_wd s) (v_init s).
Definition set_v_files (v : gmap nat dfs_fd) (s : vfs W) : vfs W := mkVfs (v_dev s) (v_types s) (v_mounted s) (v_fds s) v (v_wd s) (v_init s).
Definition set_v_wd (v : list Z) (s : vfs W) : vfs W := mkVfs (v_dev s) (v_types s) (v_mounted s) (v_fds s) (v_files s) v (v_init s).
Definition set_v_init (v : bool) (s : vfs W) : vfs W := mkVfs (v_dev s) (v_types s) (v_mounted s) (v_fds s) (v_files s) (v_wd s) v.

Definition get_fd (p : nat) : V dfs_fd := deref (fun s => v_files s !! p).
Definition mod_fd (p : nat) (f : dfs_fd -> dfs_fd) : V unit := d <- get_fd p ;; modify (fun s => set_v_files (<[p := f d]> (v_files s)) s).

(** ** Allocation *)

(** The first entry of the table that is empty or not in use. *)
Fixpoint find_empty (fds : list (option nat)) (idx : nat) : V nat :=
  match fds with
  | [] => ret idx
  | None :: _ => ret idx
  | Some p :: fds => d <- get_fd p ;; if fd_ref_count d =? 0 then ret idx else find_empty fds (S idx)
  end.

(** A file for the entry [idx], if the table has that entry and it is empty.
    [calloced]: the memory rt_calloc found, if it did. *)
Definition fd_fill (idx : nat) (calloced : option nat) : V nat :=
  fds <- gets v_fds ;;
  if (idx <? length fds)%nat then
    e <- deref (fun s => v_fds s !! idx) ;;
    match e with
    | Some _ => ret idx
    | None =>
        match calloced with
        | Some p =>
            modify (fun s => set_v_files (<[p := cleared_fd]> (v_files s)) s) ;;
            modify (fun s => set_v_fds (<[idx := Some p]> (v_fds s)) s) ;;
            ret idx
        | None => ret (length fds)
        end
    end
  else ret idx.

(** [realloced]: whether rt_realloc found memory for a longer table. *)
Definition fd_alloc (startfd : nat) (realloced : bool) (calloced : option nat) : V nat :=
  fds <- gets v_fds ;;
  idx <- find_empty (drop startfd fds) startfd ;;
  let maxfd := length fds in
  if (idx =? maxfd)%nat && (maxfd <? DFS_FD_MAX)%nat then
    let cnt := (maxfd + 4)%nat in
    let cnt := if (DFS_FD_MAX <? cnt)%nat then DFS_FD_MAX else cnt in
    if negb realloced then ret idx
    else
      modify (set_v_fds (fds ++ replicate (cnt - maxfd) None)) ;;
      fd_fill idx calloced
  else fd_fill idx calloced.

(** The entry is put to use. *)
Definition fd_use (idx : nat) : V Z :=
  fds <- gets v_fds ;;
  if (idx =? length fds)%nat then ret (- (1 + DFS_FD_OFFSET) + DFS_FD_OFFSET)
  else
    e <- deref (fun s => v_fds s !! idx) ;;
    d <- deref (fun _ => e) ;;
    mod_fd d (set_fd_ref_count 1) ;;
    mod_fd d (set_fd_magic DFS_FD_MAGIC) ;;
    ret (Z.of_nat idx + DFS_FD_OFFSET).
Definition fd_new (realloced : bool) (calloced : option nat) : V Z :=
  idx <- fd_alloc 0 realloced calloced ;;
  fd_use idx.

(** [console]: what libc_stdio_get_console returns for the standard descriptors. *)
Definition fd_get (console fd : Z) : V (option nat) :=
  let fd := if (0 <=? fd) && (fd <=? 2) then console else fd in
  let fd := fd - DFS_FD_OFFSET in
  fds <- gets v_fds ;;
  if (fd <? 0) || (Z.of_nat (length fds) <=? fd) then ret None
  else
    e <- deref (fun s => v_fds s !! Z.to_nat fd) ;;
    match e with
    | None => ret None
    | Some p =>
        d <- get_fd p ;;
        if negb (fd_magic d =? DFS_FD_MAGIC) then ret None
        else mod_fd p (fun d => set_fd_ref_count (i32 (fd_ref_count d + 1)) d) ;; ret (Some p)
    end.

(** The entry of [fd] in the table is cleared. *)
Fixpoint clear_entry (fds : list (option nat)) (p : nat) : list (option nat) :=
  match fds with
  | [] => []
  | e :: fds => if decide (e = Some p) then None :: fds else e :: clear_entry fds p
  end.
Definition fd_put (fd : nat) : V unit :=
  mod_fd fd (fun d => set_fd_ref_count (i32 (fd_ref_count d - 1)) d) ;;
  d <- get_fd fd ;;
  when (fd_ref_count d =? 0)
    (fds <- gets v_fds ;;
     when (bool_decide (Some fd ∈ fds))
       (modify (fun s => set_v_files (delete fd (v_files s)) s) ;;
        modify (set_v_fds (clear_entry fds fd)))).
End fd.

(** ** The table

    Descriptors in use are different files with a positive count; the abstract
    table maps a descriptor to its file and its count. *)

Section table.
Context {W : Type}.
Implicit Types s : vfs W.

(** Entry [i] of the table is the file [d] at [p]. *)
Definition fd_at s (i p : nat) (d : dfs_fd) : Prop := v_fds s !! i = Some (Some p) /\ v_files s !! p = Some d.
Record fd_ok s : Prop := {
  fo_max : (length (v_fds s) <= DFS_FD_MAX)%nat;
  fo_file : forall i p, v_fds s !! i = Some (Some p) -> exists d, v_files s !! p = Some d /\ fd_magic d = DFS_FD_MAGIC /\ 1 <= fd_ref_count d < 2 ^ 31;
  fo_once : forall i j p, v_fds s !! i = Some (Some p) -> v_fds s !! j = Some (Some p) -> i = j;
  fo_used : forall p, is_Some (v_files s !! p) -> exists i, v_fds s !! i = Some (Some p)
}.
Definition counts_of s (A : gmap Z (nat * Z)) : Prop := forall fd c, A !! fd = Some c <-> exists i p d, fd = Z.of_nat i + DFS_FD_OFFSET /\ fd_at s i p d /\ (p, fd_ref_count d) = c.
(** What the descriptors do not touch. *)
Definition vfs_kept s s' : Prop := v_dev s' = v_dev s /\ v_types s' = v_types s /\ v_mounted s' = v_mounted s /\ v_wd s' = v_wd s /\ v_init s' = v_init s.

(** The files there are afterwards are those of before, but for the count, and the new one. *)
Definition files_from (new : option nat) s s' : Prop :=
  forall q d', v_files s' !! q = Some d' -> new = Some q \/ exists d, v_files s !! q = Some d /\ d' = set_fd_ref_count (fd_ref_count d') d.
Lemma files_from_same new s s' : v_files s' = v_files s -> files_from new s s'.
Proof. intros E q d' Hq. right. exists d'. rewrite <- E. split; [done|by destruct d']. Qed.
Lemma files_from_count new s s' p d c : v_files s !! p = Some d -> v_files s' = <[p := set_fd_ref_count c d]> (v_files s) -> files_from new s s'.
Proof. intros Ed E q d' Hq. right. rewrite E, lookup_insert in Hq. case_decide as Hp; [subst; injection Hq as <-; by exists d|]. exists d'. split; [done|by destruct d']. Qed.

Lemma wp_get_fd s p d (Q : dfs_fd -> vfs W -> Prop) : v_files s !! p = Some d -> Q d s -> wp (get_fd p) s Q.
Proof. intros E HQ. by apply (wp_deref _ d). Qed.
Lemma wp_mod_fd s p d f (Q : unit -> vfs W -> Prop) : v_files s !! p = Some d -> Q tt (set_v_files (<[p := f d]> (v_files s)) s) -> wp (mod_fd p f) s Q.
Proof. intros E HQ. unfold mod_fd. kstep. apply (wp_get_fd _ _ d); [done|]. by kstep. Qed.

Lemma counts_lookup s A i : counts_of s A -> fd_ok s -> A !! (Z.of_nat i + DFS_FD_OFFSET) = None <-> (v_fds s !! i = None \/ v_fds s !! i = Some None).
Proof.
  intros HA Hok. split.
  - intros E. destruct (v_fds s !! i) as [[p|]|] eqn:Ei; [|by right|by left]. destruct (fo_file _ Hok i p Ei) as (d & Ed & _). exfalso. enough (A !! (Z.of_nat i + DFS_FD_OFFSET) = Some (p, fd_ref_count d)) by congruence. apply HA. exists i, p, d. by split_and!.
  - intros Hi. destruct (A !! _) as [c|] eqn:E; [|done]. apply HA in E as (j & p & d & Ej & [Hj _] & _). assert (j = i) as -> by lia. destruct Hi; congruence.
Qed.

(** Entries in use are passed. *)
Lemma find_empty_wp s l : forall k, fd_ok s -> (k <= length (v_fds s))%nat -> drop k (v_fds s) = l ->
  wp (find_empty l k) s (fun idx s' => s' = s /\ (k <= idx <= length (v_fds s))%nat /\ (forall j, (k <= j < idx)%nat -> exists p, v_fds s !! j = Some (Some p)) /\ (v_fds s !! idx = None \/ v_fds s !! idx = Some None)).
Proof.
  induction l as [|e l IH]; intros k Hok Hk El; cbn [find_empty].
  - kstep. split_and!; [done|done|done|intros; lia|]. left. apply lookup_ge_None. apply (f_equal length) in El. rewrite length_drop in El. cbn in El. lia.
  - assert (v_fds s !! k = Some e) as Ek by (rewrite <- (Nat.add_0_r k), <- lookup_drop, El; done). destruct e as [p|]; [|kstep; split_and!; [done|done|done|intros; lia|by right]].
    destruct (fo_file _ Hok k p Ek) as (d & Ed & _ & Hr). kstep. apply (wp_get_fd _ _ d); [done|]. rewrite (proj2 (Z.eqb_neq _ _)) by lia. apply lookup_lt_Some in Ek as Hlt. eapply wp_mono; [apply (IH (S k)); [done|lia|]|].
    { rewrite <- (Nat.add_1_r k), <- drop_drop, El. done. }
    intros idx s' (-> & H1 & H2 & H3). split_and!; [done|lia|lia| |done]. intros j Hj. destruct (decide (j = k)) as [->|]; [eauto|]. apply H2. lia.
Qed.

Lemma table_grow s A k : fd_ok s -> counts_of s A -> (length (v_fds s) + k <= DFS_FD_MAX)%nat -> fd_ok (set_v_fds (v_fds s ++ replicate k None) s) /\ counts_of (set_v_fds (v_fds s ++ replicate k None) s) A.
Proof.
  intros [H1 H2 H3 H4] HA Hk. assert (forall i p, (v_fds s ++ replicate k None) !! i = Some (Some p) <-> v_fds s !! i = Some (Some p)) as Hl.
  { intros i p. rewrite lookup_app. destruct (v_fds s !! i) eqn:E; [done|]. split; [|done]. intros [? _]%lookup_replicate. done. }
  split; [split|].
  - cbn. rewrite length_app, length_replicate. lia.
  - intros i p. cbn. rewrite Hl. apply H2.
  - intros i j p. cbn. rewrite !Hl. apply H3.
  - intros p. cbn. setoid_rewrite Hl. apply H4.
  - intros fd c. rewrite (HA fd c). unfold fd_at. cbn. by setoid_rewrite Hl.
Qed.
Lemma table_insert s A i p d : fd_ok s -> counts_of s A -> v_fds s !! i = Some None -> v_files s !! p = None -> fd_magic d = DFS_FD_MAGIC -> 1 <= fd_ref_count d < 2 ^ 31 ->
  let s' := set_v_files (<[p := d]> (v_files s)) (set_v_fds (<[i := Some p]> (v_fds s)) s) in fd_ok s' /\ counts_of s' (<[Z.of_nat i + DFS_FD_OFFSET := (p, fd_ref_count d)]> A).
Proof.
  intros Hok HA Ei Ep Hm Hr s'. apply lookup_lt_Some in Ei as Hi. assert (forall j q, <[i := Some p]> (v_fds s) !! j = Some (Some q) <-> j = i /\ q = p \/ j <> i /\ v_fds s !! j = Some (Some q)) as Hl.
  { intros j q. rewrite list_lookup_insert. split; [case_decide as E; [intros [= <-]; destruct E; auto|]|].
    - intros Hj. destruct (decide (j = i)) as [->|]; [congruence|auto].
    - intros [[-> ->]|[Hn Hj]]; [by rewrite decide_True|]. by rewrite decide_False by (intros [? _]; congruence). }
  assert (forall j q, v_fds s !! j = Some (Some q) -> q <> p) as Hfresh by (intros j q Hj ->; destruct (fo_file _ Hok j p Hj) as (? & ? & _); congruence).
  split; [split|].
  - cbn. rewrite length_insert. apply Hok.
  - intros j q. cbn. rewrite Hl. intros [[-> ->]|[Hn Hj]]; [exists d; by rewrite lookup_insert_eq|]. rewrite lookup_insert_ne by (intros <-; by apply (Hfresh j p)). by apply (fo_file _ Hok j).
  - intros j k q. cbn. rewrite !Hl. intros [[-> ->]|[Hn Hj]] [[-> E]|[Hn' Hk]]; try done; [by destruct (Hfresh k p Hk)|subst; by destruct (Hfresh j p Hj)|by apply (fo_once _ Hok j k q)].
  - intros q. cbn. rewrite lookup_insert. case_decide as E; [intros _; exists i; apply Hl; by left|]. intros [j Hj]%(fo_used _ Hok). exists j. apply Hl. right. split; [|done]. intros ->. congruence.
  - intros fd c. rewrite lookup_insert. case_decide as E.
    + split; [intros [= <-]; exists i, p, d; split_and!; [done| |done]; split; cbn; [by apply Hl; left|apply lookup_insert_eq]|]. intros (j & q & d' & Ej & [Hj Hd] & <-). assert (j = i) as -> by lia. cbn in Hj, Hd. apply Hl in Hj as [[_ ->]|[? _]]; [|done]. rewrite lookup_insert_eq in Hd. congruence.
    + rewrite (HA fd c). split; intros (j & q & d' & Ej & [Hj Hd] & Ec); exists j, q, d'; (split_and!; [done| |done]); (assert (j <> i) by (intros ->; done)).
      * split; cbn; [apply Hl; by right|by rewrite lookup_insert_ne by (intros <-; by apply (Hfresh j p))].
      * cbn in Hj, Hd. apply Hl in Hj as [[? _]|[_ Hj]]; [done|]. rewrite lookup_insert_ne in Hd by (intros <-; by apply (Hfresh j p)). by split.
Qed.
Lemma table_update s A i p d d' : fd_ok s -> counts_of s A -> fd_at s i p d -> fd_magic d' = DFS_FD_MAGIC -> 1 <= fd_ref_count d' < 2 ^ 31 ->
  let s' := set_v_files (<[p := d']> (v_files s)) s in fd_ok s' /\ counts_of s' (<[Z.of_nat i + DFS_FD_OFFSET := (p, fd_ref_count d')]> A).
Proof.
  intros Hok HA [Ei Ep] Hm Hr s'. assert (forall j q, v_fds s !! j = Some (Some q) -> j <> i -> q <> p) as Hne by (intros j q Hj Hn ->; apply Hn; by apply (fo_once _ Hok j i p)).
  split; [split|].
  - apply Hok.
  - intros j q Hj. cbn in *. destruct (decide (q = p)) as [->|Hn]; [exists d'; by rewrite lookup_insert_eq|]. rewrite lookup_insert_ne by done. by apply (fo_file _ Hok j).
  - apply (fo_once _ Hok).
  - intros q. cbn. rewrite lookup_insert. case_decide as E; [intros _; subst; by exists i|]. apply (fo_used _ Hok).
  - intros fd c. rewrite lookup_insert. case_decide as E.
    + split; [intros [= <-]; exists i, p, d'; split_and!; [done| |done]; split; cbn; [done|apply lookup_insert_eq]|]. intros (j & q & e & Ej & [Hj Hd] & <-). assert (j = i) as -> by lia. cbn in Hj, Hd. assert (q = p) as -> by congruence. rewrite lookup_insert_eq in Hd. congruence.
    + rewrite (HA fd c). split; intros (j & q & e & Ej & [Hj Hd] & Ec); exists j, q, e; (split_and!; [done| |done]); (assert (j <> i) by (intros ->; done)); cbn in *; (split; cbn; [done|]); pose proof (Hne j q Hj ltac:(done)); [by rewrite lookup_insert_ne|by rewrite lookup_insert_ne in Hd].
Qed.
Lemma clear_entry_lookup fds p i : fds !! i = Some (Some p) -> (forall j, fds !! j = Some (Some p) -> j = i) -> clear_entry fds p = <[i := None]> fds.
Proof.
  revert i. induction fds as [|e fds IH]; intros i Hi Hu; [done|]. cbn [clear_entry]. destruct i as [|i].
  - injection Hi as ->. by rewrite decide_True.
  - rewrite decide_False by (intros ->; by specialize (Hu 0%nat eq_refl)). cbn. f_equal. apply IH; [done|]. intros j Hj. specialize (Hu (S j) Hj). lia.
Qed.
Lemma table_remove s A i p d : fd_ok s -> counts_of s A -> fd_at s i p d ->
  let s' := set_v_fds (<[i := None]> (v_fds s)) (set_v_files (delete p (v_files s)) s) in fd_ok s' /\ counts_of s' (delete (Z.of_nat i + DFS_FD_OFFSET) A).
Proof.
  intros Hok HA [Ei Ep] s'. apply lookup_lt_Some in Ei as Hi. assert (forall j q, v_fds s !! j = Some (Some q) -> j <> i -> q <> p) as Hne by (intros j q Hj Hn ->; apply Hn; by apply (fo_once _ Hok j i p)).
  assert (forall j q, <[i := None]> (v_fds s) !! j = Some (Some q) <-> j <> i /\ v_fds s !! j = Some (Some q)) as Hl.
  { intros j q. rewrite list_lookup_insert. case_decide as E; [destruct E as [-> _]; split; [done|by intros [? _]]|]. split; [|by intros [_ ?]]. intros Hj. split; [|done]. intros ->. by apply E. }
  split; [split|].
  - cbn. rewrite length_insert. apply Hok.
  - intros j q. cbn. rewrite Hl. intros [Hn Hj]. rewrite lookup_delete_ne by (intros <-; by apply (Hne j p)). by apply (fo_file _ Hok j).
  - intros j k q. cbn. rewrite !Hl. intros [_ Hj] [_ Hk]. by apply (fo_once _ Hok j k q).
  - intros q. cbn. rewrite lookup_delete. case_decide as E; [by intros []|]. intros [j Hj]%(fo_used _ Hok). exists j. apply Hl. split; [|done]. intros ->. congruence.
  - intros fd c. rewrite lookup_delete. case_decide as E.
    + split; [done|]. intros (j & q & e & Ej & [Hj _] & _). cbn in Hj. apply Hl in Hj as [? _]. lia.
    + rewrite (HA fd c). split; intros (j & q & e & Ej & [Hj Hd] & Ec); exists j, q, e; (split_and!; [done| |done]); (assert (j <> i) by (intros ->; done)); cbn in *.
      * split; cbn; [by apply Hl|]. by rewrite lookup_delete_ne by (intros <-; by apply (Hne j p)).
      * apply Hl in Hj as [_ Hj]. rewrite lookup_delete_ne in Hd by (intros <-; by apply (Hne j p)). by split.
Qed.

(** The table depends on the descriptors and the files only. *)
Lemma fd_ok_same s s' : v_fds s' = v_fds s -> v_files s' = v_files s -> fd_ok s -> fd_ok s'.
Proof. intros E1 E2 [H1 H2 H3 H4]. split; rewrite ?E1, ?E2; [done|done|done|]. done. Qed.
Lemma counts_of_same s s' A : v_fds s' = v_fds s -> v_files s' = v_files s -> counts_of s A -> counts_of s' A.
Proof. intros E1 E2 HA fd c. unfold fd_at. rewrite E1, E2. apply HA. Qed.
(** A file may change, but for its number and its count. *)
Lemma table_touch s s' A p d d' : v_fds s' = v_fds s -> v_files s !! p = Some d -> v_files s' = <[p := d']> (v_files s) -> fd_magic d' = fd_magic d -> fd_ref_count d' = fd_ref_count d -> fd_ok s -> counts_of s A -> fd_ok s' /\ counts_of s' A.
Proof.
  intros E1 Ed E2 Hm Hr Hok HA. destruct (fo_used _ Hok p ltac:(eauto)) as [i Hi]. destruct (fo_file _ Hok i p Hi) as (d0 & Ed0 & Hm0 & Hr0). assert (d0 = d) as -> by congruence.
  destruct (table_update s A i p d d' Hok HA (conj Hi Ed) ltac:(congruence) ltac:(congruence)) as [H1 H2]. split; [apply (fd_ok_same (set_v_files (<[p := d']> (v_files s)) s)); done|].
  apply (counts_of_same (set_v_files (<[p := d']> (v_files s)) s)); [done|done|]. rewrite Hr, (insert_id A) in H2; [done|]. apply HA. exists i, p, d. by split_and!.
Qed.

(** ** The calls *)

(** fd_new gives out the lowest free descriptor; it fails without memory or with
    all descriptors in use. *)
Definition new_result (A : gmap Z (nat * Z)) (realloced : bool) (calloced : option nat) (r : Z) (A' : gmap Z (nat * Z)) : Prop :=
  (r = -1 /\ A' = A /\ (realloced = false \/ calloced = None \/ forall fd, 3 <= fd < 19 -> is_Some (A !! fd))) \/
  (3 <= r < 19 /\ A !! r = None /\ (forall fd, 3 <= fd < r -> is_Some (A !! fd)) /\ exists p, calloced = Some p /\ A' = <[r := (p, 1)]> A).

Lemma used_below s A k : fd_ok s -> counts_of s A -> (forall j, (0 <= j < k)%nat -> exists p, v_fds s !! j = Some (Some p)) -> forall fd, 3 <= fd < Z.of_nat k + 3 -> is_Some (A !! fd).
Proof.
  intros Hok HA Hu fd Hfd. destruct (Hu (Z.to_nat (fd - 3)) ltac:(lia)) as [p Hp]. destruct (fo_file _ Hok _ _ Hp) as (d & Ed & _). exists (p, fd_ref_count d). apply HA. exists (Z.to_nat (fd - 3)), p, d. unfold DFS_FD_OFFSET. split_and!; [lia|done|done].
Qed.
(** The new file is put to use. *)
Lemma fd_use_wp s A i p : fd_ok s -> counts_of s A -> v_fds s !! i = Some None -> v_files s !! p = None ->
  wp (fd_use i) (set_v_fds (<[i := Some p]> (v_fds s)) (set_v_files (<[p := cleared_fd]> (v_files s)) s))
    (fun r s' => r = Z.of_nat i + DFS_FD_OFFSET /\ fd_ok s' /\ vfs_kept s s' /\ counts_of s' (<[Z.of_nat i + DFS_FD_OFFSET := (p, 1)]> A) /\ files_from (Some p) s s').
Proof.
  intros Hok HA Ei Ep. apply lookup_lt_Some in Ei as Hi. unfold fd_use. kstep. kstep. cbn [v_fds set_v_fds set_v_files]. rewrite length_insert, (proj2 (Nat.eqb_neq _ _)) by lia.
  kstep. apply (wp_deref _ (Some p)); [cbn; by apply list_lookup_insert_eq|]. kstep. apply (wp_deref _ p); [done|]. kstep. apply (wp_mod_fd _ _ cleared_fd); [cbn; apply lookup_insert_eq|]. kstep. eapply wp_mod_fd; [cbn; apply lookup_insert_eq|]. kstep. cbn.
  destruct (table_insert s A i p (mkFd DFS_FD_MAGIC 0 None 1 None None 0 0 0 DNull) Hok HA Ei Ep eq_refl ltac:(cbn; lia)) as [H1 H2]. cbn in H1, H2. rewrite !insert_insert_eq. split_and!; [done..|]. intros q d' Hq. cbn in Hq. rewrite lookup_insert in Hq. case_decide as E; [left; by rewrite E|right]. exists d'. split; [done|by destruct d'].
Qed.
Lemma fd_use_full s (Q : Z -> vfs W -> Prop) : Q (-1) s -> wp (fd_use (length (v_fds s))) s Q.
Proof. intros HQ. unfold fd_use. kstep. kstep. rewrite Nat.eqb_refl. by kstep. Qed.
(** The entry [idx] is empty, or the table ends there and is as long as it gets. *)
Lemma fd_fill_wp s A realloced calloced idx : fd_ok s -> counts_of s A -> (forall p, calloced = Some p -> v_files s !! p = None) -> (idx <= length (v_fds s))%nat ->
  (forall fd, 3 <= fd < Z.of_nat idx + 3 -> is_Some (A !! fd)) -> (length (v_fds s) = idx -> idx = 16%nat) -> ((idx < length (v_fds s))%nat -> v_fds s !! idx = Some None) ->
  wp (fd_fill idx calloced) s (fun idx s' => wp (fd_use idx) s' (fun r s' => fd_ok s' /\ vfs_kept s s' /\ files_from calloced s s' /\ exists A', counts_of s' A' /\ new_result A realloced calloced r A')).
Proof.
  intros Hok HA Hf Hi Hu Hfull Hin. pose proof (fo_max _ Hok) as Hmax. unfold DFS_FD_MAX in Hmax. unfold fd_fill. kstep. kstep. destruct (Nat.ltb_spec idx (length (v_fds s))) as [Hlt|Hge].
  - specialize (Hin Hlt). kstep. apply (wp_deref _ None); [done|]. destruct calloced as [p|].
    + kstep. kstep. kstep. kstep. kstep. eapply wp_mono; [apply (fd_use_wp s A idx p); [done|done|done|by apply Hf]|].
      intros r s' (-> & H1 & H3 & H2 & H4). split; [done|]. split; [done|]. split; [done|]. eexists. split; [exact H2|]. right. unfold DFS_FD_OFFSET. split_and!; [lia|lia| |exact Hu|by exists p]. apply (counts_lookup s A idx HA Hok). by right.
    + kstep. apply fd_use_full. split; [done|]. split; [done|]. split; [by apply files_from_same|]. exists A. split; [done|]. left. auto.
  - kstep. assert (idx = length (v_fds s)) as Ei by lia. rewrite Ei at 1. apply fd_use_full. split; [done|]. split; [done|]. split; [by apply files_from_same|]. exists A. split; [done|]. left. split; [done|]. split; [done|]. right. right. intros fd Hfd. apply Hu. lia.
Qed.

Lemma fd_new_wp s A realloced calloced : fd_ok s -> counts_of s A -> (forall p, calloced = Some p -> v_files s !! p = None) ->
  wp (fd_new realloced calloced) s (fun r s' => fd_ok s' /\ vfs_kept s s' /\ files_from calloced s s' /\ exists A', counts_of s' A' /\ new_result A realloced calloced r A').
Proof.
  intros Hok HA Hf. unfold fd_new, fd_alloc. kstep. kstep. kstep. kstep. eapply wp_mono; [apply (find_empty_wp s (v_fds s) 0); [done|lia|done]|]. intros idx s' (-> & Hi & Hu & He). cbv zeta. pose proof (fo_max _ Hok) as Hmax. unfold DFS_FD_MAX in *.
  assert (forall fd, 3 <= fd < Z.of_nat idx + 3 -> is_Some (A !! fd)) as Hused by (apply (used_below s); [done|done|intros j Hj; by apply Hu]).
  assert ((idx < length (v_fds s))%nat -> v_fds s !! idx = Some None) as Hin by (intros Hlt; destruct He as [E|E]; [apply lookup_ge_None in E; lia|done]).
  destruct (Nat.eqb_spec idx (length (v_fds s))) as [E|E]; [destruct (Nat.ltb_spec (length (v_fds s)) 16) as [Hlt|Hge]|]; cbn [andb].
  - destruct realloced; cbn [negb].
    + set (cnt := if (16 <? _)%nat then _ else _). assert (length (v_fds s) < cnt <= 16)%nat as Hc by (unfold cnt; destruct (Nat.ltb_spec 16 (length (v_fds s) + 4)); lia). clearbody cnt. kstep. kstep.
      destruct (table_grow s A (cnt - length (v_fds s)) Hok HA ltac:(unfold DFS_FD_MAX; lia)) as [H1 H2]. eapply wp_mono; [apply (fd_fill_wp _ A true calloced idx); [done|done|done| |done| |]|done].
      all: cbn [v_fds set_v_fds]; rewrite ?length_app, ?length_replicate; try lia. intros _. rewrite lookup_app_r by lia. apply lookup_replicate. split; [done|lia].
    + kstep. rewrite E. apply fd_use_full. split; [done|]. split; [done|]. split; [by apply files_from_same|]. exists A. split; [done|]. left. auto.
  - by apply fd_fill_wp; try done; lia.
  - by apply fd_fill_wp; try done; lia.
Qed.

Lemma counts_some s A i p c : counts_of s A -> A !! (Z.of_nat i + DFS_FD_OFFSET) = Some (p, c) -> exists d, fd_at s i p d /\ fd_ref_count d = c.
Proof. intros HA E. apply HA in E as (j & q & d & Ej & Hd & [= <- <-]). assert (j = i) as -> by lia. eauto. Qed.
Lemma counts_range s A fd c : fd_ok s -> counts_of s A -> A !! fd = Some c -> 3 <= fd < 19.
Proof. intros Hok HA E. apply HA in E as (i & p & d & -> & [Hi _] & _). apply lookup_lt_Some in Hi. pose proof (fo_max _ Hok). unfold DFS_FD_MAX, DFS_FD_OFFSET in *. lia. Qed.

(** The descriptor fd_get looks up. *)
Definition std_fd (console fd : Z) : Z := if (0 <=? fd) && (fd <=? 2) then console else fd.
Definition get_result (A : gmap Z (nat * Z)) (fd : Z) (r : option nat) (A' : gmap Z (nat * Z)) : Prop :=
  match A !! fd with
  | Some (p, c) => r = Some p /\ A' = <[fd := (p, c + 1)]> A
  | None => r = None /\ A' = A
  end.
Lemma fd_get_wp s A console fd : fd_ok s -> counts_of s A -> (forall p c, A !! std_fd console fd = Some (p, c) -> c + 1 < 2 ^ 31) ->
  wp (fd_get console fd) s (fun r s' => fd_ok s' /\ vfs_kept s s' /\ files_from None s s' /\ exists A', counts_of s' A' /\ get_result A (std_fd console fd) r A').
Proof.
  intros Hok HA Hc. unfold fd_get. fold (std_fd console fd). set (f := std_fd console fd) in *. clearbody f. cbv zeta. kstep. kstep. unfold get_result. destruct ((_ <? 0) || _) eqn:Eb.
  - kstep. destruct (A !! f) as [c|] eqn:E; [exfalso|by split; [done|]; split; [done|]; split; [by apply files_from_same|]; exists A]. apply HA in E as (i & p & d & Ei & [Hi _] & _). apply lookup_lt_Some in Hi. lia.
  - apply orb_false_elim in Eb as [E1%Z.ltb_ge E2%Z.leb_gt]. set (i := Z.to_nat (f - DFS_FD_OFFSET)). assert (f = Z.of_nat i + DFS_FD_OFFSET) as Ef by lia. clearbody i. subst f. destruct (lookup_lt_is_Some_2 (v_fds s) i ltac:(lia)) as [e Ee]. kstep. apply (wp_deref _ e); [done|]. destruct e as [p|].
    + destruct (fo_file _ Hok i p Ee) as (d & Ed & Hm & Hr). kstep. apply (wp_get_fd _ _ d); [done|]. rewrite Hm, Z.eqb_refl. cbn [negb]. kstep. apply (wp_mod_fd _ _ d); [done|]. kstep.
      assert (A !! (Z.of_nat i + DFS_FD_OFFSET) = Some (p, fd_ref_count d)) as EA by (apply HA; exists i, p, d; by split_and!). specialize (Hc _ _ EA). rewrite i32_small by lia.
      destruct (table_update s A i p d (set_fd_ref_count (fd_ref_count d + 1) d) Hok HA (conj Ee Ed) Hm ltac:(cbn; lia)) as [H1 H2]. split; [exact H1|]. split; [done|]. split; [by eapply files_from_count|]. eexists. split; [exact H2|]. by rewrite EA.
    + kstep. rewrite (proj2 (counts_lookup s A i HA Hok)) by auto. split; [done|]. split; [done|]. split; [by apply files_from_same|]. by exists A.
Qed.

Lemma fd_get_none s A console fd (Q : option nat -> vfs W -> Prop) : fd_ok s -> counts_of s A -> A !! std_fd console fd = None -> Q None s -> wp (fd_get console fd) s Q.
Proof.
  intros Hok HA E HQ. unfold fd_get. fold (std_fd console fd). set (f := std_fd console fd) in *. clearbody f. cbv zeta. kstep. kstep. destruct ((_ <? 0) || _) eqn:Eb; [by kstep|]. apply orb_false_elim in Eb as [E1%Z.ltb_ge E2%Z.leb_gt].
  set (i := Z.to_nat (f - DFS_FD_OFFSET)). assert (f = Z.of_nat i + DFS_FD_OFFSET) as Ef by lia. clearbody i. subst f. apply (counts_lookup s A i HA Hok) in E as [E|E]; [apply lookup_ge_None in E; lia|]. kstep. apply (wp_deref _ None); [done|]. by kstep.
Qed.

(** The last reference frees the descriptor. *)
Definition put_result (A : gmap Z (nat * Z)) (fd : Z) (p : nat) (c : Z) : gmap Z (nat * Z) := if c =? 1 then delete fd A else <[fd := (p, c - 1)]> A.
Lemma fd_put_wp s A fd p c : fd_ok s -> counts_of s A -> A !! fd = Some (p, c) ->
  wp (fd_put p) s (fun _ s' => fd_ok s' /\ vfs_kept s s' /\ files_from None s s' /\ counts_of s' (put_result A fd p c)).
Proof.
  intros Hok HA E. apply HA in E as (i & q & d & -> & [Ei Ed] & [= -> <-]). destruct (fo_file _ Hok i p Ei) as (d' & Ed' & Hm & Hr). assert (d' = d) as -> by congruence. unfold fd_put, put_result. kstep. apply (wp_mod_fd _ _ d); [done|]. kstep. eapply wp_get_fd; [cbn; apply lookup_insert_eq|]. kstep. cbn [fd_ref_count set_fd_ref_count]. rewrite i32_small by lia. destruct (Z.eqb_spec (fd_ref_count d) 1) as [E|E].
  - rewrite (proj2 (Z.eqb_eq _ 0)) by lia. kstep. kstep. rewrite bool_decide_eq_true_2 by (cbn; eapply list_elem_of_lookup_2, Ei). kstep. kstep. kstep. cbn. rewrite (clear_entry_lookup _ _ i) by (try done; intros j Hj; by apply (fo_once _ Hok j i p)). rewrite delete_insert_eq. destruct (table_remove s A i p d Hok HA (conj Ei Ed)) as [H1 H2]. split; [done|]. split; [done|]. split; [|done]. intros q d' Hq. cbn in Hq. apply lookup_delete_Some in Hq as [_ Hq]. right. exists d'. split; [done|by destruct d'].
  - rewrite (proj2 (Z.eqb_neq _ 0)) by lia. kstep. destruct (table_update s A i p d (set_fd_ref_count (fd_ref_count d - 1) d) Hok HA (conj Ei Ed) Hm ltac:(cbn; lia)) as [H1 H2]. split; [done|]. split; [done|]. split; [by eapply files_from_count|done].
Qed.

(** ** Sequences of calls *)

Inductive fd_call := FNew (realloced : bool) (calloced : option nat) | FGet (console fd : Z) | FPut (fd : nat).
(** What a call gives back: a descriptor, or a file. *)
Inductive fd_answer := AFd (fd : Z) | AFile (d : option nat) | ANone.
Definition fd_do (c : fd_call) : V (W := W) fd_answer :=
  match c with
  | FNew realloced calloced => r <- fd_new realloced calloced ;; ret (AFd r)
  | FGet console fd => d <- fd_get console fd ;; ret (AFile d)
  | FPut fd => fd_put fd ;; ret ANone
  end.
Fixpoint fd_run (cs : list fd_call) : V (W := W) (list fd_answer) :=
  match cs with
  | [] => ret []
  | c :: cs => a <- fd_do c ;; l <- fd_run cs ;; ret (a :: l)
  end.

(** The abstract table: fd_new gives out the lowest free descriptor, fd_get counts a
    reference, fd_put drops one and frees the descriptor with the last. *)
Inductive fd_step (A : gmap Z (nat * Z)) : fd_call -> fd_answer -> gmap Z (nat * Z) -> Prop :=
  | StNew realloced calloced r A' : new_result A realloced calloced r A' -> fd_step A (FNew realloced calloced) (AFd r) A'
  | StGet console fd r A' : get_result A (std_fd console fd) r A' -> fd_step A (FGet console fd) (AFile r) A'
  | StPut fd p c : A !! fd = Some (p, c) -> fd_step A (FPut p) ANone (put_result A fd p c).
Inductive fd_steps : gmap Z (nat * Z) -> list fd_call -> list fd_answer -> gmap Z (nat * Z) -> Prop :=
  | SsNil A : fd_steps A [] [] A
  | SsCons A c a A' cs l A'' : fd_step A c a A' -> fd_steps A' cs l A'' -> fd_steps A (c :: cs) (a :: l) A''.
(** What the callers owe, whatever the calls before returned: memory that is given out
    is not in use, a file is put only while it is referenced, and no count reaches
    2^31. *)
Definition fd_call_ok (A : gmap Z (nat * Z)) (c : fd_call) : Prop :=
  match c with
  | FNew _ calloced => forall p fd c, calloced = Some p -> A !! fd <> Some (p, c)
  | FGet console fd => forall p c, A !! std_fd console fd = Some (p, c) -> c + 1 < 2 ^ 31
  | FPut p => exists fd c, A !! fd = Some (p, c)
  end.

Lemma fd_do_wp s A c : fd_ok s -> counts_of s A -> fd_call_ok A c -> wp (fd_do c) s (fun a s' => fd_ok s' /\ vfs_kept s s' /\ exists A', counts_of s' A' /\ fd_step A c a A').
Proof.
  intros Hok HA Hc. destruct c as [re ca|console fd|p]; cbn [fd_do]; kstep.
  - eapply wp_mono; [apply (fd_new_wp s A); [done|done|]|].
    { intros p ->. destruct (v_files s !! p) as [d|] eqn:E; [exfalso|done]. destruct (fo_used _ Hok p ltac:(eauto)) as [i Hi]. apply (Hc p (Z.of_nat i + DFS_FD_OFFSET) (fd_ref_count d) eq_refl). apply HA. exists i, p, d. by split_and!. }
    intros r s' (H1 & H2 & _ & A' & H3 & H4). kstep. split; [done|]. split; [done|]. exists A'. split; [done|]. by constructor.
  - eapply wp_mono; [by apply (fd_get_wp s A)|]. intros r s' (H1 & H2 & _ & A' & H3 & H4). kstep. split; [done|]. split; [done|]. exists A'. split; [done|]. by constructor.
  - destruct Hc as (fd & c & E). eapply wp_mono; [by apply (fd_put_wp s A fd p c)|]. intros r s' (H1 & H2 & _ & H3). kstep. split; [done|]. split; [done|]. eexists. split; [exact H3|]. by constructor.
Qed.

(** The sequences in which every call keeps to that. *)
Fixpoint fd_calls_ok (A : gmap Z (nat * Z)) (cs : list fd_call) : Prop :=
  match cs with
  | [] => True
  | c :: cs => fd_call_ok A c /\ forall a A', fd_step A c a A' -> fd_calls_ok A' cs
  end.
Lemma fd_run_wp cs : forall s A, fd_ok s -> counts_of s A -> fd_calls_ok A cs ->
  wp (fd_run cs) s (fun l s' => fd_ok s' /\ vfs_kept s s' /\ exists A', counts_of s' A' /\ fd_steps A cs l A').
Proof.
  induction cs as [|c cs IH]; intros s A Hok HA Hcs; cbn [fd_run].
  - kstep. split; [done|]. split; [done|]. exists A. split; [done|]. constructor.
  - destruct Hcs as [Hc Hcs]. kstep. eapply wp_mono; [by apply (fd_do_wp s A)|]. intros a s1 (H1 & (K1 & K2 & K3 & K4 & K5) & A1 & H3 & H4). kstep. eapply wp_mono; [apply (IH s1 A1); [done|done|by apply (Hcs a)]|]. intros l s2 (G1 & (L1 & L2 & L3 & L4 & L5) & A2 & G3 & G4). kstep. split; [done|]. split; [split_and!; congruence|]. exists A2. split; [done|]. by econstructor.
Qed.

(** At most 16 descriptors are in use. *)
Lemma counts_size s A : fd_ok s -> counts_of s A -> (size A <= DFS_FD_MAX)%nat.
Proof.
  intros Hok HA. rewrite <- size_dom. transitivity (size (list_to_set (seqZ 3 16) : gset Z)); [|done]. apply subseteq_size. intros fd [c E]%elem_of_dom. apply elem_of_list_to_set, elem_of_seqZ. by apply (counts_range s A fd c).
Qed.

(** C35: The table of file descriptors (fd_new, fd_get, fd_put).  Any sequence of calls
    that puts only files it holds returns, and every answer is the one of the abstract
    table: fd_new gives out the lowest free descriptor, or -1 when there is no memory or
    all 16 are in use; fd_get finds the file of a descriptor in use, of any other none,
    and counts a reference; fd_put drops one and frees the descriptor with the last.
    Every descriptor in use is in 3 .. 18, at most 16 of them, each has a file of its
    own and a positive count. *)
Theorem fd_table_refines s A cs : fd_ok s -> counts_of s A -> fd_calls_ok A cs ->
  wp (fd_run cs) s (fun l s' => vfs_kept s s' /\ exists A', fd_steps A cs l A' /\ counts_of s' A' /\ fd_ok s' /\
    (size A' <= DFS_FD_MAX)%nat /\ forall fd p c, A' !! fd = Some (p, c) -> 3 <= fd < 19 /\ 1 <= c < 2 ^ 31 /\ forall fd' c', A' !! fd' = Some (p, c') -> fd' = fd).
Proof.
  intros Hok HA Hcs. eapply wp_mono; [by apply (fd_run_wp cs s A)|]. intros l s' (H1 & H2 & A' & H3 & H4). split; [done|]. exists A'. split; [done|]. split; [done|]. split; [done|]. split; [by apply (counts_size s')|].
  intros fd p c E. split; [by apply (counts_range s' A' fd (p, c))|]. apply H3 in E as (i & q & d & -> & [Hi Hd] & [= -> <-]). destruct (fo_file _ H1 i p Hi) as (d' & Hd' & _ & Hr). split; [congruence|]. intros fd' c' (j & q & e & -> & [Hj _] & [= -> _])%H3. by rewrite (fo_once _ H1 j i p).
Qed.
End table.

(** ** A sample: an empty table; a descriptor is opened, looked up through the
    standard output, released and closed. *)

Definition sample_vfs : vfs Z := mkVfs sample_devices [] [] [] ∅ [47] false.
Definition sample_fd_calls : list fd_call := [FNew true (Some 7%nat); FGet 3 1; FPut 7; FPut 7; FGet 3 3; FNew true None].
Example sample_fd_run : wp (fd_run sample_fd_calls) sample_vfs (fun l s => l = [AFd 3; AFile (Some 7%nat); ANone; ANone; AFile None; AFd (-1)] /\ v_fds s = [None; None; None; None]).
Proof. vm_compute. auto. Qed.
Lemma sample_fd_ok : fd_ok sample_vfs.
Proof. split; cbn; [lia|by intros i p ?|by intros i j p ?|by intros p []]. Qed.
Lemma sample_fd_counts : counts_of sample_vfs ∅.
Proof. intros fd c. rewrite lookup_empty. split; [done|]. by intros (i & p & d & _ & [? _] & _). Qed.
Lemma sample_new_step a A' : fd_step ∅ (FNew true (Some 7%nat)) a A' -> A' = {[3 := (7%nat, 1)]}.
Proof.
  inversion 1 as [? ? r ? Hr| |]; subst. destruct Hr as [(_ & _ & [?|[?|Hall]])|(Hr & _ & Hlow & p & [= <-] & ->)]; [done|done| |].
  - destruct (Hall 3 ltac:(lia)) as [? [=]].
  - destruct (decide (r = 3)) as [->|]; [done|]. destruct (Hlow 3 ltac:(lia)) as [? [=]].
Qed.
Lemma sample_get_step c a A' : fd_step {[3 := (7%nat, c)]} (FGet 3 1) a A' -> A' = {[3 := (7%nat, c + 1)]}.
Proof. inversion 1 as [|? ? ? ? Hg|]; subst. unfold get_result in Hg. change (std_fd 3 1) with 3 in Hg. rewrite lookup_singleton_eq in Hg. destruct Hg as [_ ->]. apply insert_singleton_eq. Qed.
Lemma sample_put_step c a A' : fd_step {[3 := (7%nat, c)]} (FPut 7) a A' -> A' = if c =? 1 then ∅ else {[3 := (7%nat, c - 1)]}.
Proof. inversion 1 as [| |fd p c' E]; subst. apply lookup_singleton_Some in E as [<- [= ->]]. unfold put_result. destruct (c' =? 1); [apply delete_singleton_eq|apply insert_singleton_eq]. Qed.
Lemma sample_fd_calls_ok : fd_calls_ok ∅ sample_fd_calls.
Proof.
  cbn [fd_calls_ok sample_fd_calls]. split; [done|]. intros a1 A1 ->%sample_new_step.
  split; [by intros p c [_ [= <- <-]]%lookup_singleton_Some|]. intros a2 A2 ->%sample_get_step. split; [exists 3, 2; apply lookup_singleton_eq|]. intros a3 A3 ->%sample_put_step. cbn [Z.eqb].
  split; [exists 3, 1; apply lookup_singleton_eq|]. intros a4 A4 ->%sample_put_step. cbn. split; [done|]. intros a5 A5 _. done.
Qed.
Lemma fd_table_refines_witness : exists l s' A', fd_run sample_fd_calls sample_vfs = Ok l s' /\ fd_steps ∅ sample_fd_calls l A' /\ counts_of s' A' /\ (size A' <= DFS_FD_MAX)%nat.
Proof.
  pose proof (fd_table_refines sample_vfs ∅ sample_fd_calls sample_fd_ok sample_fd_counts sample_fd_calls_ok) as H. unfold wp in H. destruct (fd_run sample_fd_calls sample_vfs) as [l s'| | |]; try done. destruct H as (_ & A' & H1 & H2 & _ & H3 & _). by exists l, s', A'.
Defined.
