(* ===== verification/Vfs.v ===== *)
(** * The virtual file system (components/dfs/src/dfs_fs.c, dfs_file.c)

    Types of file systems are registered and mounted on paths; a file is opened on the
    file system whose mount point is the longest that covers its path, and every
    operation on it is handed to that file system.  The file systems are arguments.
    Paths are values: what dfs_normalize_path makes of one is the text Path.v
    proves. *)

From S2P Require Import Prelude Ffs KState Kservice Str Path Wf Inv Sched Object Timer Thread TimerRun Sleep Ipc Mutex Errno Beside WaitQueue Device Console Fd.

(** The error codes of libc_errno.h for GCC, as they are negated in the code. *)
Definition ENOENT : Z := 2.
Definition EIO : Z := 5.
Definition ENXIO : Z := 6.
Definition EBADF : Z := 9.
Definition ENOMEM : Z := 12.
Definition EBUSY : Z := 16.
Definition EEXIST : Z := 17.
Definition EXDEV : Z := 18.
Definition ENODEV : Z := 19.
Definition ENOTDIR : Z := 20.
Definition EINVAL : Z := 22.
Definition ENOSPC : Z := 28.
Definition ENOSYS : Z := 38.
Definition DFS_FS_FLAG_FULLPATH : Z := 0x01.
Definition FT_REGULAR : Z := 0.
Definition FT_DIRECTORY : Z := 2.
Definition DFS_F_OPEN : Z := 0x01000000.
Definition DFS_F_DIRECTORY : Z := 0x02000000.
Definition DFS_F_EOF : Z := 0x04000000.
Definition O_RDONLY : Z := 0.
Definition O_CREAT : Z := 0x40.
Definition O_APPEND : Z := 0x400.
Definition O_NONBLOCK : Z := 0x800.
Definition O_DIRECTORY : Z := 0x10000.
Definition F_GETFL : Z := 3.
Definition F_SETFL : Z := 4.
Definition RT_FIOFTRUNCATE : Z := 0x52540000.
Definition S_IFREG : Z := 0x8000.
Definition S_IFDIR : Z := 0x4000.
(** S_IRUSR | S_IRGRP | S_IROTH | S_IWUSR | S_IWGRP | S_IWOTH, and the three S_IX. *)
Definition S_RW : Z := 0x1b6.
Definition S_X : Z := 0x49.
Definition DFS_FILESYSTEMS_MAX : nat := 2.
Definition DFS_FILESYSTEM_TYPES_MAX : nat := 2.

(** The fields of struct stat that are written here, and struct statfs. *)
Record stat_buf := mkStat { st_dev : Z; st_mode : Z; st_size : Z; st_mtime : Z }.
Record statfs_buf := mkStatfs { f_bsize : Z; f_blocks : Z; f_bfree : Z }.
(** The argument of an ioctl: a value, or the address of a local variable that has the value. *)
Inductive ioctl_arg := AVal (v : Z) | ARef (v : Z).

(** struct dfs_file_ops: the routines get the address of the file; what they write to a
    buffer is part of their result. *)
Record dfs_file_ops (W : Type) := mkFops {
  f_open : option (nat -> V (W := W) Z);
  f_close : option (nat -> V (W := W) Z);
  f_ioctl : option (nat -> Z -> ioctl_arg -> V (W := W) Z);
  f_read : option (nat -> Z -> Z -> V (W := W) Z);
  f_write : option (nat -> Z -> Z -> V (W := W) Z);
  f_flush : option (nat -> V (W := W) Z);
  f_lseek : option (nat -> Z -> V (W := W) Z);
  f_getdents : option (nat -> list Z -> Z -> V (W := W) (Z * list Z))
}.
Arguments mkFops {W}.
Arguments f_open {W}.
Arguments f_close {W}.
Arguments f_ioctl {W}.
Arguments f_read {W}.
Arguments f_write {W}.
Arguments f_flush {W}.
Arguments f_lseek {W}.
Arguments f_getdents {W}.
(** struct dfs_filesystem_ops; a file system is an index of the table. *)
Record dfs_filesystem_ops (W : Type) := mkFsops {
  o_name : list Z;
  o_flags : Z;
  o_fops : Z;
  o_mount : option (nat -> Z -> Z -> V (W := W) Z);
  o_unmount : option (nat -> V (W := W) Z);
  o_mkfs : option (nat -> V (W := W) Z);
  o_statfs : option (nat -> statfs_buf -> V (W := W) (Z * statfs_buf));
  o_unlink : option (nat -> list Z -> V (W := W) Z);
  o_stat : option (nat -> list Z -> stat_buf -> V (W := W) (Z * stat_buf));
  o_rename : option (nat -> option (list Z) -> option (list Z) -> V (W := W) Z)
}.
Arguments mkFsops {W}.
Arguments o_name {W}.
Arguments o_flags {W}.
Arguments o_fops {W}.
Arguments o_mount {W}.
Arguments o_unmount {W}.
Arguments o_mkfs {W}.
Arguments o_statfs {W}.
Arguments o_unlink {W}.
Arguments o_stat {W}.
Arguments o_rename {W}.

(** ** The routines *)

Section vfs.
Context {W : Type}.
Local Notation V := (@Fd.V W).
(** [typ]: the types of file systems; [fops_at]: the file operations at an address;
    [driver]: the handlers of a device. *)
Context (typ : nat -> dfs_filesystem_ops W) (fops_at : Z -> dfs_file_ops W) (driver : nat -> rt_device_ops W).

Definition on_dev {A} (m : D (W := W) A) : V A := zoom v_dev set_v_dev m.
Definition vfs_set_errno (e : Z) : V unit := on_dev (dev_set_errno e).
Definition get_fs (i : nat) : V dfs_filesystem := deref (fun s => v_mounted s !! i).
Definition put_fs (i : nat) (f : dfs_filesystem) : V unit := modify (fun s => set_v_mounted (<[i := f]> (v_mounted s)) s).
(** fs->ops and fs->path *)
Definition get_ops (i : nat) : V (dfs_filesystem_ops W) := f <- get_fs i ;; o <- deref (fun _ => fs_ops f) ;; ret (typ o).
Definition get_fs_path (i : nat) : V (list Z) := f <- get_fs i ;; deref (fun _ => fs_path f).
Definition get_fops (p : nat) : V (dfs_file_ops W) := d <- get_fd p ;; o <- deref (fun _ => fd_fops d) ;; ret (fops_at o).

(** dfs_normalize_path(NULL, path): [malloced] says whether there is memory for it. *)
Definition normalized (malloced : bool) (path : list Z) : V (option (list Z)) :=
  wd <- gets v_wd ;;
  ret (if malloced then path_text <$> path_names (joined wd path) else None).

(** *** Types *)

(** The first empty entry of the table of types, and whether the name is in it (the
    search ends there). *)
Fixpoint types_scan (name : list Z) (types : list (option nat)) (i : nat) (empty : option nat) : option nat * bool :=
  match types with
  | [] => (empty, false)
  | None :: types => types_scan name types (S i) (match empty with None => Some i | Some _ => empty end)
  | Some o :: types => if decide (o_name (typ o) = name) then (empty, true) else types_scan name types (S i) empty
  end.
Definition dfs_register (ops : nat) : V Z :=
  types <- gets v_types ;;
  let '(empty, found) := types_scan (o_name (typ ops)) types 0 None in
  when found (vfs_set_errno (- EEXIST)) ;;
  let r := if found then -1 else RT_EOK in
  match empty with
  | None => vfs_set_errno (- ENOSPC) ;; ret (-1)
  | Some i => if r =? RT_EOK then modify (fun s => set_v_types (<[i := Some ops]> (v_types s)) s) ;; ret r else ret r
  end.
(** The type with the name, if it is registered. *)
Fixpoint find_type (name : list Z) (types : list (option nat)) : option nat :=
  match types with
  | [] => None
  | None :: types => find_type name types
  | Some o :: types => if decide (o_name (typ o) = name) then Some o else find_type name types
  end.

(** *** Lookup *)

(** [path] starts with the [n] characters of the mount point and goes on there with a slash. *)
Definition covered (mount path : list Z) : bool :=
  bool_decide (take (length mount) path = mount) &&
  negb ((1 <? length mount)%nat && (length mount <? length path)%nat && negb (bool_decide (path !! length mount = Some 47))).
Fixpoint lookup_loop (path : list Z) (l : list dfs_filesystem) (i : nat) (fs : option nat) (prefixlen : nat) : option nat :=
  match l with
  | [] => fs
  | f :: l =>
      match fs_path f, fs_ops f with
      | Some m, Some _ =>
          if (length m <? prefixlen)%nat || negb (covered m path) then lookup_loop path l (S i) fs prefixlen
          else lookup_loop path l (S i) (Some i) (length m)
      | _, _ => lookup_loop path l (S i) fs prefixlen
      end
  end.
Definition dfs_filesystem_lookup (path : list Z) : V (option nat) :=
  l <- gets v_mounted ;;
  ret (lookup_loop path l 0 None 0).
Fixpoint mounted_path (device : option nat) (l : list dfs_filesystem) : option (list Z) :=
  match l with
  | [] => None
  | f :: l => if bool_decide (fs_ops f = None) then mounted_path device l else if decide (fs_dev_id f = device) then fs_path f else mounted_path device l
  end.
Definition dfs_filesystem_get_mounted_path (device : option nat) : V (option (list Z)) :=
  l <- gets v_mounted ;;
  ret (mounted_path device l).

(** The part of [filename] below [directory]: None where they are as long. *)
Definition dfs_subdir (directory filename : list Z) : V (option (list Z)) :=
  let k := length directory in
  if (k =? length filename)%nat then ret None
  else
    c <- deref (fun _ => (filename ++ [0]) !! k) ;;
    ret (Some (drop (if negb (c =? 47) && negb (k =? 0)%nat then k - 1 else k) filename)).
(** The path a file system gets. *)
Definition fs_rest (fs : nat) (fullpath : list Z) : V (list Z) :=
  m <- get_fs_path fs ;;
  r <- dfs_subdir m fullpath ;;
  match r with
  | None => ret [47]
  | Some r => ret r
  end.

(** *** Files *)

(** [malloced], [strduped]: whether there is memory for the path and for its copy. *)
Definition dfs_file_open (malloced strduped : bool) (fd : option nat) (path : list Z) (flags : Z) : V Z :=
  match fd with
  | None => ret (- EINVAL)
  | Some p =>
      fullpath <- normalized malloced path ;;
      match fullpath with
      | None => ret (- ENOMEM)
      | Some fullpath =>
          fs <- dfs_filesystem_lookup fullpath ;;
          match fs with
          | None => ret (- ENOENT)
          | Some fs =>
              ops <- get_ops fs ;;
              mod_fd p (set_fd_fs (Some fs)) ;;
              mod_fd p (set_fd_fops (Some (o_fops ops))) ;;
              mod_fd p (fun d => set_fd_data (DFs fs) (set_fd_pos 0 (set_fd_size 0 (set_fd_flags (u32 flags) (set_fd_type FT_REGULAR d))))) ;;
              (if Z.land (o_flags ops) DFS_FS_FLAG_FULLPATH =? 0 then
                 r <- fs_rest fs fullpath ;;
                 mod_fd p (set_fd_path (if strduped then Some r else None))
               else mod_fd p (set_fd_path (Some fullpath))) ;;
              fops <- get_fops p ;;
              match f_open fops with
              | None => mod_fd p (set_fd_path None) ;; ret (- ENOSYS)
              | Some open =>
                  result <- open p ;;
                  if result <? 0 then mod_fd p (set_fd_path None) ;; ret result
                  else
                    mod_fd p (fun d => set_fd_flags (Z.lor (fd_flags d) DFS_F_OPEN) d) ;;
                    when (negb (Z.land flags O_DIRECTORY =? 0))
                      (mod_fd p (fun d => set_fd_flags (Z.lor (fd_flags d) DFS_F_DIRECTORY) (set_fd_type FT_DIRECTORY d))) ;;
                    ret 0
              end
          end
      end
  end.

Definition dfs_file_close (fd : option nat) : V Z :=
  match fd with
  | None => ret (- ENXIO)
  | Some p =>
      fops <- get_fops p ;;
      result <- (match f_close fops with None => ret 0 | Some close => close p end) ;;
      if result <? 0 then ret result
      else mod_fd p (set_fd_path None) ;; ret result
  end.

Definition dfs_file_ioctl (fd : option nat) (cmd args : Z) : V Z :=
  match fd with
  | None => ret (- EINVAL)
  | Some p =>
      d <- get_fd p ;;
      if (fd_type d =? FT_REGULAR) && (cmd =? F_GETFL) then ret (i32 (fd_flags d))
      else if (fd_type d =? FT_REGULAR) && (cmd =? F_SETFL) then
        let mask := Z.lor O_NONBLOCK O_APPEND in
        let flags := Z.land (i32 args) mask in
        mod_fd p (fun d => set_fd_flags (Z.land (fd_flags d) (u32 (Z.lnot mask))) d) ;;
        mod_fd p (fun d => set_fd_flags (Z.lor (fd_flags d) flags) d) ;;
        ret 0
      else
        fops <- get_fops p ;;
        match f_ioctl fops with
        | None => ret (- ENOSYS)
        | Some ioctl => ioctl p cmd (AVal args)
        end
  end.

Definition dfs_file_read (fd : option nat) (buf len : Z) : V Z :=
  match fd with
  | None => ret (- EINVAL)
  | Some p =>
      fops <- get_fops p ;;
      match f_read fops with
      | None => ret (- ENOSYS)
      | Some read =>
          result <- read p buf len ;;
          when (result <? 0) (mod_fd p (fun d => set_fd_flags (Z.lor (fd_flags d) DFS_F_EOF) d)) ;;
          ret result
      end
  end.
(** [dirp]: the bytes of the buffer. *)
Definition dfs_file_getdents (fd : option nat) (dirp : list Z) (nbytes : Z) : V (Z * list Z) :=
  match fd with
  | None => ret (- EINVAL, dirp)
  | Some p =>
      d <- get_fd p ;;
      if negb (fd_type d =? FT_DIRECTORY) then ret (- EINVAL, dirp)
      else
        fops <- get_fops p ;;
        match f_getdents fops with
        | Some getdents => getdents p dirp nbytes
        | None => ret (- ENOSYS, dirp)
        end
  end.
Definition dfs_file_write (fd : option nat) (buf len : Z) : V Z :=
  match fd with
  | None => ret (- EINVAL)
  | Some p => fops <- get_fops p ;; match f_write fops with None => ret (- ENOSYS) | Some write => write p buf len end
  end.
Definition dfs_file_flush (fd : option nat) : V Z :=
  match fd with
  | None => ret (- EINVAL)
  | Some p => fops <- get_fops p ;; match f_flush fops with None => ret (- ENOSYS) | Some flush => flush p end
  end.
Definition dfs_file_lseek (fd : option nat) (offset : Z) : V Z :=
  match fd with
  | None => ret (- EINVAL)
  | Some p =>
      fops <- get_fops p ;;
      match f_lseek fops with
      | None => ret (- ENOSYS)
      | Some lseek =>
          result <- lseek p offset ;;
          when (0 <=? result) (mod_fd p (set_fd_pos result)) ;;
          ret result
      end
  end.
Definition dfs_file_ftruncate (fd : option nat) (length : Z) : V Z :=
  match fd with
  | None => ret (- EINVAL)
  | Some p =>
      d <- get_fd p ;;
      if negb (fd_type d =? FT_REGULAR) || (length <? 0) then ret (- EINVAL)
      else
        fops <- get_fops p ;;
        match f_ioctl fops with
        | None => ret (- ENOSYS)
        | Some ioctl =>
            result <- ioctl p RT_FIOFTRUNCATE (ARef length) ;;
            when (result =? 0) (mod_fd p (set_fd_size length)) ;;
            ret result
        end
  end.

(** *** Names *)

Fixpoint fd_open_loop (fs : nat) (mountpath : list Z) (fds : list (option nat)) : V bool :=
  match fds with
  | [] => ret false
  | None :: fds => fd_open_loop fs mountpath fds
  | Some p :: fds =>
      d <- get_fd p ;;
      if bool_decide (is_Some (fd_fops d)) && bool_decide (fd_fs d = Some fs) && bool_decide (fd_path d = Some mountpath) then ret true
      else fd_open_loop fs mountpath fds
  end.
Definition fd_is_open (malloced : bool) (pathname : list Z) : V Z :=
  fullpath <- normalized malloced pathname ;;
  match fullpath with
  | None => ret (-1)
  | Some fullpath =>
      fs <- dfs_filesystem_lookup fullpath ;;
      match fs with
      | None => ret (-1)
      | Some fs =>
          m <- get_fs_path fs ;;
          let mountpath := if decide (m = [47]) then fullpath else drop (length m) fullpath in
          fds <- gets v_fds ;;
          found <- fd_open_loop fs mountpath fds ;;
          ret (if found then 0 else -1)
      end
  end.

(** [m1], [m2]: whether there is memory for the path, here and in fd_is_open. *)
Definition dfs_file_unlink (m1 m2 : bool) (path : list Z) : V Z :=
  fullpath <- normalized m1 path ;;
  match fullpath with
  | None => ret (- EINVAL)
  | Some fullpath =>
      fs <- dfs_filesystem_lookup fullpath ;;
      match fs with
      | None => ret (- ENOENT)
      | Some fs =>
          o <- fd_is_open m2 fullpath ;;
          if o =? 0 then ret (- EBUSY)
          else
            ops <- get_ops fs ;;
            match o_unlink ops with
            | None => ret (- ENOSYS)
            | Some unlink =>
                if Z.land (o_flags ops) DFS_FS_FLAG_FULLPATH =? 0 then r <- fs_rest fs fullpath ;; unlink fs r
                else unlink fs fullpath
            end
      end
  end.

Definition dfs_file_stat (malloced : bool) (path : list Z) (buf : stat_buf) : V (Z * stat_buf) :=
  fullpath <- normalized malloced path ;;
  match fullpath with
  | None => ret (-1, buf)
  | Some fullpath =>
      fs <- dfs_filesystem_lookup fullpath ;;
      match fs with
      | None => ret (- ENOENT, buf)
      | Some fs =>
          m <- get_fs_path fs ;;
          r <- (if decide (fullpath = [47]) then ret None else dfs_subdir m fullpath) ;;
          match r with
          | None => ret (RT_EOK, mkStat 0 (Z.lor S_RW (Z.lor S_IFDIR S_X)) 0 0)
          | Some r =>
              ops <- get_ops fs ;;
              match o_stat ops with
              | None => ret (- ENOSYS, buf)
              | Some stat => if Z.land (o_flags ops) DFS_FS_FLAG_FULLPATH =? 0 then stat fs r buf else stat fs fullpath buf
              end
          end
      end
  end.

Definition dfs_file_rename (m1 m2 : bool) (oldpath newpath : list Z) : V Z :=
  oldfullpath <- normalized m1 oldpath ;;
  match oldfullpath with
  | None => ret (- ENOENT)
  | Some oldfullpath =>
      newfullpath <- normalized m2 newpath ;;
      match newfullpath with
      | None => ret (- ENOENT)
      | Some newfullpath =>
          oldfs <- dfs_filesystem_lookup oldfullpath ;;
          newfs <- dfs_filesystem_lookup newfullpath ;;
          if decide (oldfs = newfs) then
            oldfs <- deref (fun _ => oldfs) ;;
            ops <- get_ops oldfs ;;
            match o_rename ops with
            | None => ret (- ENOSYS)
            | Some rename =>
                if negb (Z.land (o_flags ops) DFS_FS_FLAG_FULLPATH =? 0) then rename oldfs (Some oldfullpath) (Some newfullpath)
                else
                  m <- get_fs_path oldfs ;;
                  o <- dfs_subdir m oldfullpath ;;
                  n <- dfs_subdir m newfullpath ;;
                  rename oldfs o n
            end
          else ret (- EXDEV)
      end
  end.

(** *** Mounting *)

Definition device_of (o : option oid) : option nat := match o with Some (ODevice n) => Some n | _ => None end.
(** The first empty entry, and whether the path is mounted (the search ends there). *)
Fixpoint mount_scan (path : list Z) (l : list dfs_filesystem) (i : nat) (fs : option nat) : V (option nat * bool) :=
  match l with
  | [] => ret (fs, false)
  | f :: l =>
      if bool_decide (fs_ops f = None) then mount_scan path l (S i) (match fs with None => Some i | Some _ => fs end)
      else
        m <- deref (fun _ => fs_path f) ;;
        if decide (m = path) then ret (fs, true) else mount_scan path l (S i) fs
  end.
(** The file system is entered, its device opened and its mount routine called. *)
Definition mount_at (fs : nat) (o : nat) (dev_id : option nat) (fullpath : list Z) (rwflag data : Z) : V Z :=
  put_fs fs (mkFs dev_id (Some fullpath) (Some o)) ;;
  opened <- (match dev_id with None => ret RT_EOK | Some n => on_dev (rt_device_open (driver n) n RT_DEVICE_OFLAG_RDWR) end) ;;
  if negb (opened =? RT_EOK) then put_fs fs cleared_fs ;; ret (-1)
  else
    mount <- deref (fun _ => o_mount (typ o)) ;;
    result <- mount fs rwflag data ;;
    if result <? 0 then
      (match dev_id with None => ret tt | Some n => on_dev (rt_device_close (driver n) n) ;; ret tt end) ;;
      put_fs fs cleared_fs ;; ret (-1)
    else ret 0.
(** [local]: the address of the local file, [d0] what it holds; [malloced], [m2],
    [strduped]: whether there is memory for the path, and in dfs_file_open. *)
Definition dfs_mount (local : nat) (d0 : dfs_fd) (malloced m2 strduped : bool) (device_name : option (list Z)) (path filesystemtype : list Z) (rwflag data : Z) : V Z :=
  dev_id <- (match device_name with None => ret None | Some name => o <- on_dev (rt_device_find (cstring name)) ;; ret (device_of o) end) ;;
  if bool_decide (is_Some device_name) && bool_decide (dev_id = None) then vfs_set_errno (- ENODEV) ;; ret (-1) else
  types <- gets v_types ;;
  match find_type filesystemtype types with
  | None => vfs_set_errno (- ENODEV) ;; ret (-1)
  | Some o =>
      if bool_decide (o_mount (typ o) = None) then vfs_set_errno (- ENOSYS) ;; ret (-1) else
      fullpath <- normalized malloced path ;;
      match fullpath with
      | None => vfs_set_errno (- ENOTDIR) ;; ret (-1)
      | Some fullpath =>
          there <- (if bool_decide (fullpath <> [47]) && bool_decide (fullpath <> [47; 100; 101; 118]) then
                      modify (fun s => set_v_files (<[local := d0]> (v_files s)) s) ;;
                      r <- dfs_file_open m2 strduped (Some local) fullpath (Z.lor O_RDONLY O_DIRECTORY) ;;
                      when (negb (r <? 0)) (dfs_file_close (Some local) ;; ret tt) ;;
                      modify (fun s => set_v_files (delete local (v_files s)) s) ;;
                      ret (negb (r <? 0))
                    else ret true) ;;
          if negb there then vfs_set_errno (- ENOTDIR) ;; ret (-1)
          else
            l <- gets v_mounted ;;
            '(fs, mounted) <- mount_scan path l 0 None ;;
            if mounted then vfs_set_errno (- EINVAL) ;; ret (-1)
            else
              match fs with
              | None => vfs_set_errno (- ENOSPC) ;; ret (-1)
              | Some fs => mount_at fs o dev_id fullpath rwflag data
              end
      end
  end.

Fixpoint unmount_scan (fullpath : list Z) (l : list dfs_filesystem) (i : nat) : option nat :=
  match l with
  | [] => None
  | f :: l => if decide (fs_path f = Some fullpath) then Some i else unmount_scan fullpath l (S i)
  end.
Definition dfs_unmount (malloced : bool) (specialfile : list Z) : V Z :=
  fullpath <- normalized malloced specialfile ;;
  match fullpath with
  | None => vfs_set_errno (- ENOTDIR) ;; ret (-1)
  | Some fullpath =>
      l <- gets v_mounted ;;
      match unmount_scan fullpath l 0 with
      | None => ret (-1)
      | Some fs =>
          ops <- get_ops fs ;;
          match o_unmount ops with
          | None => ret (-1)
          | Some unmount =>
              r <- unmount fs ;;
              if r <? 0 then ret (-1)
              else
                f <- get_fs fs ;;
                (match fs_dev_id f with None => ret tt | Some n => on_dev (rt_device_close (driver n) n) ;; ret tt end) ;;
                put_fs fs cleared_fs ;;
                ret 0
          end
      end
  end.

Definition dfs_mkfs (fs_name : list Z) (device_name : option (list Z)) : V Z :=
  dev_id <- (match device_name with None => ret None | Some name => o <- on_dev (rt_device_find (cstring name)) ;; ret (device_of o) end) ;;
  match dev_id with
  | None => vfs_set_errno (- ENODEV) ;; ret (-1)
  | Some n =>
      types <- gets v_types ;;
      match find_type fs_name types with
      | None => ret (-1)
      | Some o =>
          match o_mkfs (typ o) with
          | None => vfs_set_errno (- ENOSYS) ;; ret (-1)
          | Some mkfs => mkfs n
          end
      end
  end.
Definition dfs_statfs (path : list Z) (buffer : statfs_buf) : V (Z * statfs_buf) :=
  fs <- dfs_filesystem_lookup path ;;
  match fs with
  | None => ret (-1, buffer)
  | Some fs => ops <- get_ops fs ;; match o_statfs ops with None => ret (-1, buffer) | Some statfs => statfs fs buffer end
  end.

(** [fslock]: the mutex; [devfs]: the type devfs_init registers.  The names are "fslock",
    "/dev" and "devfs". *)
Definition dfs_init (fslock devfs local : nat) (d0 : dfs_fd) (malloced m2 strduped : bool) : V Z :=
  ok <- gets v_init ;;
  if (ok : bool) then ret 0
  else
    modify (fun s => set_v_fds [] (set_v_mounted (replicate DFS_FILESYSTEMS_MAX cleared_fs) (set_v_types (replicate DFS_FILESYSTEM_TYPES_MAX None) s))) ;;
    on_dev (in_dk (rt_mutex_init fslock (cstring [102; 115; 108; 111; 99; 107]) RT_IPC_FLAG_FIFO)) ;;
    modify (set_v_wd [47]) ;;
    dfs_register devfs ;;
    dfs_mount local d0 malloced m2 strduped None [47; 100; 101; 118] [100; 101; 118; 102; 115] 0 0 ;;
    modify (set_v_init true) ;;
    ret 0.
End vfs.

(** ** Mount points *)

(** A mount point covers the paths below it: the root all absolute ones, another itself
    and what follows it with a slash. *)
Lemma covered_root path : covered [47] path = true <-> exists r, path = 47 :: r.
Proof.
  unfold covered. cbn [length]. change (1 <? 1)%nat with false. cbn [andb negb]. rewrite andb_true_r, bool_decide_eq_true. split; [|by intros [r ->]].
  destruct path as [|c r]; [done|]. cbn. intros [= ->]. eauto.
Qed.
Lemma covered_below m path : (1 < length m)%nat -> covered m path = true <-> path = m \/ exists r, path = m ++ 47 :: r.
Proof.
  intros Hm. unfold covered. rewrite (proj2 (Nat.ltb_lt 1 _) Hm), andb_true_iff, bool_decide_eq_true, negb_true_iff. cbn [andb]. split.
  - intros [Hp Hn]. rewrite <- (take_drop (length m) path), Hp. destruct (drop (length m) path) as [|c r] eqn:E; [left; apply app_nil_r|right].
    assert (path !! length m = Some c) as Ec by (rewrite <- (Nat.add_0_r (length m)), <- lookup_drop, E; done). apply lookup_lt_Some in Ec as Hl. rewrite (proj2 (Nat.ltb_lt _ _) Hl) in Hn. apply negb_false_iff, bool_decide_eq_true in Hn. exists r. congruence.
  - intros [->|[r ->]].
    + rewrite take_ge by lia. split; [done|]. by rewrite Nat.ltb_irrefl.
    + rewrite take_app_length. split; [done|]. rewrite list_lookup_middle by done. by rewrite bool_decide_eq_true_2, andb_false_r.
Qed.

(** The file system at [i] is mounted on [m]. *)
Definition mounted_at (l : list dfs_filesystem) (i : nat) (m : list Z) : Prop := exists f o, l !! i = Some f /\ fs_path f = Some m /\ fs_ops f = Some o.
(** [i] is the last of the file systems with the longest mount point that covers [path]. *)
Definition best (l : list dfs_filesystem) (path : list Z) (i : nat) (m : list Z) : Prop :=
  mounted_at l i m /\ covered m path = true /\ forall j m', mounted_at l j m' -> covered m' path = true -> (length m' < length m)%nat \/ (length m' = length m /\ j <= i)%nat.
Definition lookup_state (l : list dfs_filesystem) (path : list Z) (fs : option nat) (n : nat) : Prop :=
  match fs with
  | None => n = 0%nat /\ forall j m, mounted_at l j m -> covered m path = false
  | Some i => exists m, n = length m /\ best l path i m
  end.
Lemma mounted_snoc l f j m : mounted_at (l ++ [f]) j m <-> mounted_at l j m \/ j = length l /\ fs_path f = Some m /\ is_Some (fs_ops f).
Proof.
  unfold mounted_at. split.
  - intros (g & o & Hj & H1 & H2). apply lookup_app_Some in Hj as [Hj|[Hl Hj]]; [left; eauto|right]. apply list_lookup_singleton_Some in Hj as [? <-]. split_and!; [lia|done|eauto].
  - intros [(g & o & Hj & H1 & H2)|(-> & H1 & [o H2])]; [exists g, o; split_and!; [by apply lookup_app_l_Some|done|done]|]. exists f, o. split_and!; [by apply list_lookup_middle|done|done].
Qed.
Lemma lookup_loop_ok path l : forall pre fs n, lookup_state pre path fs n -> exists n', lookup_state (pre ++ l) path (lookup_loop path l (length pre) fs n) n'.
Proof.
  induction l as [|f l IH]; intros pre fs n Hst; cbn [lookup_loop]; [rewrite app_nil_r; eauto|].
  assert (forall fs' n', lookup_state (pre ++ [f]) path fs' n' -> exists n'', lookup_state (pre ++ f :: l) path (lookup_loop path l (S (length pre)) fs' n') n'') as Hgo.
  { intros fs' n' H. specialize (IH _ _ _ H). rewrite length_app, <- app_assoc in IH. cbn in IH. by rewrite Nat.add_1_r in IH. }
  assert ((forall m, fs_path f = Some m -> is_Some (fs_ops f) -> (length m < n)%nat \/ covered m path = false) -> lookup_state (pre ++ [f]) path fs n) as Hskip.
  { intros Hf. destruct fs as [i|]; cbn in *.
    - destruct Hst as (m & -> & Hm & Hc & Hb). exists m. split; [done|]. split; [apply mounted_snoc; by left|]. split; [done|]. intros j m' [Hj|(-> & Hp & Ho)]%mounted_snoc Hcov; [by apply Hb|]. destruct (Hf m' Hp Ho); [by left|congruence].
    - destruct Hst as [-> Hb]. split; [done|]. intros j m' [Hj|(-> & Hp & Ho)]%mounted_snoc; [by apply (Hb j)|]. destruct (Hf m' Hp Ho); [lia|done]. }
  destruct (fs_path f) as [m|] eqn:Ep; [|by apply Hgo, Hskip]. destruct (fs_ops f) as [o|] eqn:Eo; [|apply Hgo, Hskip; intros m' _ [? [=]]].
  destruct (Nat.ltb_spec (length m) n) as [Hlt|Hge]; cbn [orb].
  { apply Hgo, Hskip. intros m' [= <-] _. by left. }
  destruct (covered m path) eqn:Ec; cbn [negb]; [|apply Hgo, Hskip; intros m' [= <-] _; by right].
  apply Hgo. exists m. split; [done|]. split; [apply mounted_snoc; right; by rewrite Eo|]. split; [done|]. intros j m' [Hj|(-> & Hp & _)]%mounted_snoc Hcov; [|right; split; [congruence|done]].
  destruct fs as [i|]; cbn in Hst; [|destruct Hst as [_ Hb]; specialize (Hb j m' Hj); congruence]. destruct Hst as (m0 & -> & _ & _ & Hb). destruct Hj as (g & og & Hj & ? & ?). apply lookup_lt_Some in Hj as Hl. destruct (Hb j m') as [?|[? ?]]; [by exists g, og|done|left; lia|]. destruct (decide (length m' = length m)); [right|left]; lia.
Qed.
Lemma lookup_wp {W} (s : vfs W) path (Q : option nat -> vfs W -> Prop) :
  (forall r n, lookup_state (v_mounted s) path r n -> Q r s) -> wp (dfs_filesystem_lookup path) s Q.
Proof.
  intros HQ. unfold dfs_filesystem_lookup. kstep. kstep. kstep. destruct (lookup_loop_ok path (v_mounted s) [] None 0) as [n Hn]; [split; [done|]; intros j m (? & ? & ? & _); done|]. by apply (HQ _ n).
Qed.

(** ** The path a file system gets *)

(** Normalised paths are plain names, with an empty one in front if they are absolute. *)
Definition stack_ok (st : list (list Z)) : Prop := exists ps, Forall plain ps /\ (st = ps \/ st = ps ++ [[]]).
Lemma walk_stack cs : forall st st', Forall name_ok cs -> stack_ok st -> walk cs st = Some st' -> stack_ok st'.
Proof.
  induction cs as [|c cs IH]; intros st st' Hc Hst; cbn [walk]; [by intros [= <-]|]. inversion Hc; subst. repeat case_decide; [by apply IH| |].
  - destruct st as [|x st]; [done|]. apply IH; [done|]. destruct Hst as (ps & Hps & [<-|E]); [exists st; inversion Hps; auto|]. destruct ps as [|y ps]; injection E as -> ->; [by exists []; split; [by apply Forall_nil|left]|]. exists ps. inversion Hps; auto.
  - apply IH; [done|]. destruct Hst as (ps & Hps & Hst). exists (c :: ps). split; [constructor; [split_and!; [done|tauto|tauto|done]|done]|]. destruct Hst as [->| ->]; auto.
Qed.
Lemma path_names_stack t st : chars_ok t -> path_names t = Some st -> stack_ok st.
Proof.
  intros Ht. assert (stack_ok []) as H0 by (exists []; split; [by apply Forall_nil|by left]). assert (stack_ok [[]]) as H1 by (exists []; split; [by apply Forall_nil|by right]). unfold path_names. destruct t as [|c t]; [by apply walk_stack; [apply path_names_ok|]|]. destruct (c =? 47); apply walk_stack; try done; apply path_names_ok; [by inversion Ht|done].
Qed.
Lemma join_start a y l : exists r, join ((a :: y) :: l) = a :: r.
Proof. destruct l; cbn; eauto. Qed.
Lemma path_text_start st r : stack_ok st -> path_text st <> 47 :: 47 :: r.
Proof.
  intros (ps & Hps & Hst) E. unfold path_text in E. case_decide as Hd; [done|]. apply Forall_rev in Hps. assert (forall l, Forall plain l -> l <> [] -> exists a r', join l = a :: r' /\ a <> 47) as Hj.
  { intros l Hl Hn. destruct l as [|[|a y] l]; [done|by inversion Hl as [|? ? (_ & ? & _)]|]. destruct (join_start a y l) as [r' Hr]. exists a, r'. split; [done|]. inversion Hl as [|? ? (Hy & _) _]; subst. inversion Hy; subst. tauto. }
  destruct Hst as [->| ->].
  - destruct (Hj (rev ps)) as (a & r' & Hr & Ha); [done|intros E0; apply (f_equal (@rev _)) in E0; rewrite rev_involutive in E0; tauto|]. congruence.
  - rewrite rev_app_distr in E. cbn [rev app] in E. destruct (rev ps) as [|y l] eqn:El; [done|]. destruct (Hj (y :: l)) as (a & r' & Hr & Ha); [done|done|]. cbn in E. cbn in Hr. congruence.
Qed.

(** What is left of [path] below the mount point [m]. *)
Definition rest_of (m path : list Z) : list Z := if decide (m = [47]) then path else if decide (path = m) then [47] else drop (length m) path.
(** Mount points are the root or longer than a character. *)
Definition mount_ok (m : list Z) : Prop := m = [47] \/ (1 < length m)%nat.

Section files.
Context {W : Type} (typ : nat -> dfs_filesystem_ops W) (fops_at : Z -> dfs_file_ops W).
Local Notation V := (@Fd.V W).
Implicit Types s : vfs W.

Lemma fs_rest_wp s i m path (Q : list Z -> vfs W -> Prop) : mounted_at (v_mounted s) i m -> mount_ok m -> covered m path = true -> (forall r, path <> 47 :: 47 :: r) -> Q (rest_of m path) s -> wp (fs_rest i path) s Q.
Proof.
  intros (f & o & Ef & Em & _) Hm Hc Hp HQ. unfold fs_rest, get_fs_path, get_fs, dfs_subdir, rest_of in *. kstep. kstep. apply (wp_deref _ f); [done|]. apply (wp_deref _ m); [done|]. kstep. destruct Hm as [->|Hm].
  - apply covered_root in Hc as [r ->]. rewrite decide_True in HQ by done. destruct r as [|c r]; [by do 2 kstep|]. cbn [length Nat.eqb]. kstep. apply (wp_deref _ c); [done|]. kstep. kstep. cbn [Nat.eqb negb]. rewrite andb_true_r. destruct (Z.eqb_spec c 47) as [->|Hn]; cbn [negb]; [|done]. by destruct (Hp r).
  - rewrite decide_False in HQ by (intros ->; cbn in Hm; lia). apply (covered_below m path Hm) in Hc as [->|[r ->]].
    + rewrite decide_True in HQ by done. rewrite Nat.eqb_refl. by do 2 kstep.
    + rewrite decide_False in HQ by (intros E%(f_equal length); rewrite length_app in E; cbn in E; lia). rewrite (proj2 (Nat.eqb_neq _ _)) by (rewrite length_app; cbn; lia). kstep. apply (wp_deref _ 47); [rewrite <- app_assoc; by apply list_lookup_middle|]. kstep. by kstep.
Qed.

(** ** Opening *)

Definition upd_fd (p : nat) (d : dfs_fd) s : vfs W := set_v_files (<[p := d]> (v_files s)) s.
(** The path in full, if there is memory and no ".." too many. *)
Definition full_path s (malloced : bool) (path : list Z) : option (list Z) := if malloced then path_text <$> path_names (joined (v_wd s) path) else None.
(** The file the file system's open routine gets, and what becomes of it then. *)
Definition opening (i : nat) (m : list Z) (ops : dfs_filesystem_ops W) (full : list Z) (strduped : bool) (flags : Z) (d : dfs_fd) : dfs_fd :=
  mkFd (fd_magic d) FT_REGULAR (if Z.land (o_flags ops) DFS_FS_FLAG_FULLPATH =? 0 then if strduped then Some (rest_of m full) else None else Some full) (fd_ref_count d) (Some i) (Some (o_fops ops)) (u32 flags) 0 0 (DFs i).
Definition opened (flags : Z) (d : dfs_fd) : dfs_fd :=
  let d := set_fd_flags (Z.lor (fd_flags d) DFS_F_OPEN) d in
  if Z.land flags O_DIRECTORY =? 0 then d else set_fd_flags (Z.lor (fd_flags d) DFS_F_DIRECTORY) (set_fd_type FT_DIRECTORY d).

(** The file systems that are mounted. *)
Definition mounts_ok s : Prop := forall i m, mounted_at (v_mounted s) i m -> mount_ok m.
Lemma wp_get_ops s i f o (Q : dfs_filesystem_ops W -> vfs W -> Prop) : v_mounted s !! i = Some f -> fs_ops f = Some o -> Q (typ o) s -> wp (get_ops typ i) s Q.
Proof. intros Ef Eo HQ. unfold get_ops, get_fs. kstep. apply (wp_deref _ f); [done|]. kstep. apply (wp_deref _ o); [done|]. by kstep. Qed.
Lemma wp_get_fops s p d a (Q : dfs_file_ops W -> vfs W -> Prop) : v_files s !! p = Some d -> fd_fops d = Some a -> Q (fops_at a) s -> wp (get_fops fops_at p) s Q.
Proof. intros Ed Ea HQ. unfold get_fops. kstep. apply (wp_get_fd _ _ d); [done|]. kstep. apply (wp_deref _ a); [done|]. by kstep. Qed.
Lemma wp_normalized s malloced path (Q : option (list Z) -> vfs W -> Prop) : Q (full_path s malloced path) s -> wp (normalized malloced path) s Q.
Proof. intros HQ. unfold normalized. by do 3 kstep. Qed.
Lemma wp_upd s p d f (Q : unit -> vfs W -> Prop) : Q tt (upd_fd p (f d) s) -> wp (mod_fd p f) (upd_fd p d s) Q.
Proof. intros HQ. unfold upd_fd in *. eapply wp_mod_fd; [cbn; apply lookup_insert_eq|]. cbn. by rewrite insert_insert_eq. Qed.
Lemma upd_upd p d d' s : upd_fd p d' (upd_fd p d s) = upd_fd p d' s.
Proof. unfold upd_fd. cbn. by rewrite insert_insert_eq. Qed.
Lemma upd_same p d s : v_files s !! p = Some d -> upd_fd p d s = s.
Proof. intros E. unfold upd_fd. rewrite insert_id by done. by destruct s. Qed.

(** dfs_file_open on every branch; [P] is what the open routine of the file system
    promises. *)
Lemma dfs_file_open_wp s malloced strduped p d path flags (P : Z -> dfs_fd -> vfs W -> Prop) (Q : Z -> vfs W -> Prop) : v_files s !! p = Some d -> chars_ok (joined (v_wd s) path) -> mounts_ok s ->
  (full_path s malloced path = None -> Q (- ENOMEM) s) ->
  (forall full, full_path s malloced path = Some full -> (forall i m, mounted_at (v_mounted s) i m -> covered m full = false) -> Q (- ENOENT) s) ->
  (forall full i m f o, full_path s malloced path = Some full -> best (v_mounted s) full i m -> v_mounted s !! i = Some f -> fs_ops f = Some o ->
    let d1 := opening i m (typ o) full strduped flags d in
    match f_open (fops_at (o_fops (typ o))) with
    | None => Q (- ENOSYS) (upd_fd p (set_fd_path None d1) s)
    | Some open => wp (open p) (upd_fd p d1 s) (fun r s' => exists d', v_files s' !! p = Some d' /\ P r d' s')
    end) ->
  (forall r d' s', v_files s' !! p = Some d' -> P r d' s' -> if r <? 0 then Q r (upd_fd p (set_fd_path None d') s') else Q 0 (upd_fd p (opened flags d') s')) ->
  wp (dfs_file_open typ fops_at malloced strduped (Some p) path flags) s Q.
Proof.
  intros Ed Hch Hm Hmem Hent Hopen Hdone. unfold dfs_file_open. kstep. apply wp_normalized. destruct (full_path s malloced path) as [full|] eqn:Ef; [|kstep; by apply Hmem].
  kstep. apply lookup_wp. intros [i|] n; cbn [lookup_state]; [|intros [_ Hno]; kstep; by apply (Hent full)]. intros (m & -> & Hb). destruct (proj1 Hb) as (f & o & Hf & Hfp & Hfo). specialize (Hopen full i m f o eq_refl Hb Hf Hfo). cbv zeta in Hopen.
  kstep. apply (wp_get_ops _ _ f o); [done|done|]. rewrite <- (upd_same p d s) at 1 by done. kstep. apply wp_upd. kstep. apply wp_upd. kstep. apply wp_upd. kstep.
  match goal with |- wp _ _ ?K => enough (K tt (upd_fd p (opening i m (typ o) full strduped flags d) s)) as HK end.
  - destruct (Z.land (o_flags (typ o)) DFS_FS_FLAG_FULLPATH =? 0) eqn:Efl.
    + kstep. apply (fs_rest_wp _ i m); [by apply Hb|apply (Hm i m), Hb|by apply Hb| |].
      { unfold full_path in Ef. destruct malloced; [|done]. destruct (path_names _) as [st|] eqn:En; [|done]. injection Ef as <-. intros r. apply path_text_start. by apply (path_names_stack (joined (v_wd s) path)). }
      apply wp_upd. unfold opening in HK. rewrite Efl in HK. exact HK.
    + apply wp_upd. unfold opening in HK. rewrite Efl in HK. exact HK.
  - kstep. eapply (wp_get_fops _ _ (opening i m (typ o) full strduped flags d)); [apply lookup_insert_eq|done|]. destruct (f_open _) as [open|].
    + kstep. eapply wp_mono; [exact Hopen|]. intros r s' (d' & Ed' & HP). specialize (Hdone r d' s' Ed' HP). rewrite <- (upd_same p d' s' Ed') at 1. destruct (r <? 0).
      * kstep. apply wp_upd. by kstep.
      * kstep. apply wp_upd. unfold opened in Hdone. kstep. kstep. destruct (Z.land flags O_DIRECTORY =? 0); cbn [negb]; [by kstep|]. apply wp_upd. by kstep.
    + kstep. apply wp_upd. by kstep.
Qed.
End files.

(** ** Theorems *)

(** Dfs_filesystem_lookup.  The result is the file system with the longest mount point
    that covers the path (of several as long, the last), and none only if no mount
    point covers it; "/a" covers "/a" and what follows it with a slash, not "/ab". *)
Theorem dfs_filesystem_lookup_correct {W} (s : vfs W) path : mounts_ok s ->
  wp (dfs_filesystem_lookup path) s (fun r s' => s' = s /\
    match r with
    | None => forall i m, mounted_at (v_mounted s) i m -> ~ (m = [47] /\ (exists rest, path = 47 :: rest) \/ path = m \/ exists rest, path = m ++ 47 :: rest)
    | Some i => exists m, mounted_at (v_mounted s) i m /\ (m = [47] /\ (exists rest, path = 47 :: rest) \/ path = m \/ exists rest, path = m ++ 47 :: rest) /\
        forall j m', mounted_at (v_mounted s) j m' -> (path = m' \/ exists rest, path = m' ++ 47 :: rest) -> (length m' < length m)%nat \/ (length m' = length m /\ j <= i)%nat
    end).
Proof.
  intros Hm. assert (forall i m, mounted_at (v_mounted s) i m -> covered m path = true <-> (m = [47] /\ (exists rest, path = 47 :: rest) \/ path = m \/ exists rest, path = m ++ 47 :: rest)) as Hc.
  { intros i m Hi. destruct (Hm i m Hi) as [->|Hl].
    - rewrite covered_root. split; [auto|]. intros [[_ ?]|[->|[r ->]]]; [done|by exists []|by exists (47 :: r)].
    - rewrite (covered_below m path Hl). split; [auto|]. intros [[-> _]|?]; [cbn in Hl; lia|done]. }
  apply lookup_wp. intros [i|] n; cbn [lookup_state].
  - intros (m & _ & Hi & Hcov & Hb). split; [done|]. exists m. split; [done|]. split; [by apply (Hc i)|]. intros j m' Hj Hp. apply (Hb j m' Hj). apply (Hc j m' Hj). auto.
  - intros [_ Hno]. split; [done|]. intros i m Hi Hp. apply (Hc i m Hi) in Hp. rewrite (Hno i m Hi) in Hp. done.
Qed.

(** Dfs_file_open.  The path is made absolute, the file system looked up, and its open
    routine called with the file as described: the path below the mount point (or the
    full path, if the file system wants it), no flags but those given, position and
    size 0.  The call returns what the routine returned; only if that is not negative
    is the file marked open, and as a directory if that was asked for. *)
Theorem dfs_file_open_correct {W} typ fops_at (s : vfs W) strduped p d path flags full i m f o open r d' s' :
  v_files s !! p = Some d -> chars_ok (joined (v_wd s) path) -> mounts_ok s -> full_path s true path = Some full ->
  best (v_mounted s) full i m -> v_mounted s !! i = Some f -> fs_ops f = Some o -> f_open (fops_at (o_fops (typ o))) = Some open ->
  open p (upd_fd p (opening i m (typ o) full strduped flags d) s) = Ok r s' -> v_files s' !! p = Some d' ->
  dfs_file_open typ fops_at true strduped (Some p) path flags s = (if r <? 0 then Ok r (upd_fd p (set_fd_path None d') s') else Ok 0 (upd_fd p (opened flags d') s')) /\
  (m <> [47] -> full <> m -> full = m ++ rest_of m full /\ head (rest_of m full) = Some 47).
Proof.
  intros Ed Hch Hm Hfull Hb Hf Ho Hop Hopen Ed'. assert (forall j m', best (v_mounted s) full j m' -> j = i /\ m' = m) as Hu.
  { intros j m' Hj. destruct Hb as (Hi & Hc & Hbi), Hj as (Hj & Hcj & Hbj). assert (j = i) as ->. { destruct (Hbi j m' Hj Hcj) as [|[]]; destruct (Hbj i m Hi Hc) as [|[]]; lia. } destruct Hi as (? & ? & ? & ? & _), Hj as (? & ? & ? & ? & _). split; [done|congruence]. }
  split.
  - assert (wp (dfs_file_open typ fops_at true strduped (Some p) path flags) s (fun r' t => (r', t) = if r <? 0 then (r, upd_fd p (set_fd_path None d') s') else (0, upd_fd p (opened flags d') s'))) as Hwp.
    { apply (dfs_file_open_wp typ fops_at s true strduped p d path flags (fun r2 d2 s2 => r2 = r /\ d2 = d' /\ s2 = s')); [done|done|done|congruence| | |].
      - intros full' E Hno. exfalso. assert (full' = full) as -> by congruence. pose proof (Hno i m (proj1 Hb)) as Hx. destruct Hb as (_ & Hc & _). congruence.
      - intros full' j m' f' o' E Hj Hf' Ho'. assert (full' = full) as -> by congruence. destruct (Hu j m' Hj) as [-> ->]. assert (f' = f) as -> by congruence. assert (o' = o) as -> by congruence. cbv zeta. rewrite Hop. unfold wp. rewrite Hopen. eauto.
      - intros r2 d2 s2 _ (-> & -> & ->). by destruct (r <? 0). }
    unfold wp in Hwp. destruct (dfs_file_open typ fops_at true strduped (Some p) path flags s) as [r' t| | |]; try done. destruct (r <? 0); congruence.
  - intros Hroot Hne. destruct Hb as (Hi & Hc & _). destruct (Hm i m Hi) as [->|Hl]; [done|]. apply (covered_below m full Hl) in Hc as [->|[rr ->]]; [done|]. unfold rest_of. rewrite decide_False by done. rewrite decide_False by done. by rewrite drop_app_length.
Qed.

(** Rename of two paths of which neither is on a file system (before the root is mounted):
    the lookups both give RT_NULL, which are equal, and it is followed. *)
Theorem rename_unmounted_undefined {W} typ (s : vfs W) oldpath newpath oldfull newfull :
  full_path s true oldpath = Some oldfull -> full_path s true newpath = Some newfull ->
  (forall i m, mounted_at (v_mounted s) i m -> covered m oldfull = false /\ covered m newfull = false) ->
  dfs_file_rename typ true true oldpath newpath s = UB.
Proof.
  intros E1 E2 Hno. assert (forall full, (forall i m, mounted_at (v_mounted s) i m -> covered m full = false) -> lookup_loop full (v_mounted s) 0 None 0 = None) as Hl.
  { intros full Hf. destruct (lookup_loop_ok full (v_mounted s) [] None 0) as [n Hn]; [split; [done|]; intros j m (? & ? & ? & _); done|]. cbn [app length] in Hn. destruct (lookup_loop full (v_mounted s) 0 None 0) as [i|]; [exfalso|done]. destruct Hn as (m & _ & Hi & Hc & _). rewrite (Hf i m Hi) in Hc. done. }
  unfold full_path in E1, E2. unfold dfs_file_rename, normalized, dfs_filesystem_lookup, bind, gets, ret, deref. rewrite E1, E2, !Hl; [done|..]; intros i m Hi; by apply (Hno i m).
Qed.
