(* ===== verification/Posix.v ===== *)
(** * The POSIX calls (components/dfs/src/dfs_posix.c)

    A call finds the file of its descriptor, counts a reference to it, has the file
    system do the work, and drops the reference.  A call is one piece.  The theorems
    are proved for every file system that leaves the tables alone. *)

From S2P Require Import Prelude Ffs KState Kservice Str Path Wf Inv Sched Object Timer Thread TimerRun Sleep Ipc Mutex Errno Beside WaitQueue Device Console Fd Vfs.

Definition SEEK_SET : Z := 0.
Definition SEEK_CUR : Z := 1.
Definition SEEK_END : Z := 2.
Definition DFS_PATH_MAX : nat := 256.

(** What the allocations of a call find: memory for a longer table, for a file, for the
    path and for its copy. *)
Record grants := mkGrants { g_realloc : bool; g_calloc : option nat; g_path : bool; g_strdup : bool }.
(** DIR, without the memory it is in. *)
Record DIR := mkDir { dir_fd : Z; dir_buf : list Z; dir_num : Z; dir_cur : Z }.

(** ** The calls *)

Section calls.
Context {W : Type}.
Local Notation V := (@Fd.V W).
(** [console]: the descriptor libc_stdio_get_console returns. *)
Context (typ : nat -> dfs_filesystem_ops W) (fops_at : Z -> dfs_file_ops W) (console : Z).

(** errno is set and the call fails. *)
Definition fails (e : Z) : V Z := vfs_set_errno e ;; ret (-1).

Definition open (g : grants) (file : list Z) (flags : Z) : V Z :=
  fd <- fd_new (g_realloc g) (g_calloc g) ;;
  if fd <? 0 then fails (- ENOMEM)
  else
    d <- fd_get console fd ;;
    result <- dfs_file_open typ fops_at (g_path g) (g_strdup g) d file flags ;;
    RT_ASSERT (bool_decide (is_Some d)) ;;
    p <- deref (fun _ => d) ;;
    if result <? 0 then fd_put p ;; fd_put p ;; fails result
    else fd_put p ;; ret fd.

Definition close (fd : Z) : V Z :=
  d <- fd_get console fd ;;
  match d with
  | None => fails (- EBADF)
  | Some p =>
      result <- dfs_file_close fops_at d ;;
      fd_put p ;;
      if result <? 0 then fails result else fd_put p ;; ret 0
  end.

(** The part read, write and ftruncate have in common. *)
Definition with_file (fd : Z) (op : option nat -> V Z) (result_of : Z -> Z) : V Z :=
  d <- fd_get console fd ;;
  match d with
  | None => fails (- EBADF)
  | Some p =>
      result <- op d ;;
      if result <? 0 then fd_put p ;; fails result else fd_put p ;; ret (result_of result)
  end.
Definition read (fd buf len : Z) : V Z := with_file fd (fun d => dfs_file_read fops_at d buf len) (fun r => r).
Definition write (fd buf len : Z) : V Z := with_file fd (fun d => dfs_file_write fops_at d buf len) (fun r => r).
Definition ftruncate (fd length : Z) : V Z :=
  with_file fd (fun d => if length <? 0 then ret (- EINVAL) else dfs_file_ftruncate fops_at d length) (fun _ => 0).

Definition lseek (fd offset whence : Z) : V Z :=
  d <- fd_get console fd ;;
  match d with
  | None => fails (- EBADF)
  | Some p =>
      f <- get_fd p ;;
      let offset := if whence =? SEEK_SET then Some offset else if whence =? SEEK_CUR then Some (i32 (offset + fd_pos f)) else if whence =? SEEK_END then Some (i32 (offset + fd_size f)) else None in
      match offset with
      | None => fd_put p ;; fails (- EINVAL)
      | Some offset =>
          if offset <? 0 then fd_put p ;; fails (- EINVAL)
          else
            result <- dfs_file_lseek fops_at d offset ;;
            if result <? 0 then fd_put p ;; fails result else fd_put p ;; ret offset
      end
  end.

(** A failure of the routines below becomes errno. *)
Definition or_errno (result ok : Z) : V Z := if result <? 0 then fails result else ret ok.
Definition rename (m1 m2 : bool) (old_file new_file : list Z) : V Z := result <- dfs_file_rename typ m1 m2 old_file new_file ;; or_errno result 0.
Definition unlink (m1 m2 : bool) (pathname : list Z) : V Z := result <- dfs_file_unlink typ m1 m2 pathname ;; or_errno result 0.
Definition rmdir (m1 m2 : bool) (pathname : list Z) : V Z := result <- dfs_file_unlink typ m1 m2 pathname ;; or_errno result 0.
Definition stat (malloced : bool) (file : list Z) (buf : stat_buf) : V (Z * stat_buf) :=
  '(result, buf) <- dfs_file_stat typ malloced file buf ;;
  r <- or_errno result result ;;
  ret (r, buf).
Definition access (malloced : bool) (path : list Z) (amode : Z) (sb : stat_buf) : V Z :=
  '(r, _) <- stat malloced path sb ;;
  ret (if r <? 0 then -1 else 0).
Definition statfs (path : list Z) (buf : statfs_buf) : V (Z * statfs_buf) :=
  '(result, buf) <- dfs_statfs typ path buf ;;
  r <- or_errno result result ;;
  ret (r, buf).

Definition fstat (fildes : Z) (buf : stat_buf) : V (Z * stat_buf) :=
  d <- fd_get console fildes ;;
  match d with
  | None => r <- fails (- EBADF) ;; ret (r, buf)
  | Some p =>
      f <- get_fd p ;;
      let mode := Z.lor S_IFREG S_RW in
      let mode := if fd_type f =? FT_DIRECTORY then Z.lor (Z.land mode (Z.lnot S_IFREG)) (Z.lor S_IFDIR S_X) else mode in
      fd_put p ;;
      ret (RT_EOK, mkStat 0 (u16 mode) (fd_size f) 0)
  end.
Definition fsync (fildes : Z) : V Z :=
  d <- fd_get console fildes ;;
  match d with
  | None => fails (- EBADF)
  | Some p => r <- dfs_file_flush fops_at d ;; fd_put p ;; ret r
  end.
Definition fcntl (fildes cmd arg : Z) : V Z :=
  d <- fd_get console fildes ;;
  r <- (match d with
        | Some p => r <- dfs_file_ioctl fops_at d cmd arg ;; fd_put p ;; ret r
        | None => ret (- EBADF)
        end) ;;
  or_errno r r.
Definition ioctl (fildes cmd arg : Z) : V Z := fcntl fildes cmd arg.

(** *** Directories *)

Definition mkdir (g : grants) (path : list Z) : V Z :=
  fd <- fd_new (g_realloc g) (g_calloc g) ;;
  if fd =? -1 then fails (- ENOMEM)
  else
    d <- fd_get console fd ;;
    result <- dfs_file_open typ fops_at (g_path g) (g_strdup g) d path (Z.lor O_DIRECTORY O_CREAT) ;;
    RT_ASSERT (bool_decide (is_Some d)) ;;
    p <- deref (fun _ => d) ;;
    if result <? 0 then fd_put p ;; fd_put p ;; fails result
    else dfs_file_close fops_at d ;; fd_put p ;; fd_put p ;; ret 0.
(** [malloced]: whether there is memory for the DIR. *)
Definition opendir (g : grants) (malloced : bool) (name : list Z) : V (option DIR) :=
  fd <- fd_new (g_realloc g) (g_calloc g) ;;
  if fd =? -1 then vfs_set_errno (- ENOMEM) ;; ret None
  else
    d <- fd_get console fd ;;
    result <- dfs_file_open typ fops_at (g_path g) (g_strdup g) d name (Z.lor O_RDONLY O_DIRECTORY) ;;
    RT_ASSERT (bool_decide (is_Some d)) ;;
    p <- deref (fun _ => d) ;;
    if 0 <=? result then
      if (malloced : bool) then fd_put p ;; ret (Some (mkDir fd (replicate 512 0) 0 0))
      else dfs_file_close fops_at d ;; fd_put p ;; fd_put p ;; ret None
    else fd_put p ;; fd_put p ;; vfs_set_errno result ;; ret None.
(** The record at [cur] of the buffer: d_reclen has two bytes at 2. *)
Definition reclen (buf : list Z) (cur : Z) : V Z :=
  valid (0 <=? cur) ;;
  lo <- deref (fun _ => buf !! (Z.to_nat cur + 2)%nat) ;;
  hi <- deref (fun _ => buf !! (Z.to_nat cur + 3)%nat) ;;
  ret (lo + 256 * hi).
(** The offset of the entry in the buffer, if there is one. *)
Definition readdir (t : DIR) : V (option Z * DIR) :=
  d <- fd_get console (dir_fd t) ;;
  match d with
  | None => vfs_set_errno (- EBADF) ;; ret (None, t)
  | Some p =>
      t <- (if negb (dir_num t =? 0) then l <- reclen (dir_buf t) (dir_cur t) ;; ret (mkDir (dir_fd t) (dir_buf t) (dir_num t) (i32 (dir_cur t + l))) else ret t) ;;
      if (dir_num t =? 0) || (dir_num t <=? dir_cur t) then
        '(result, buf) <- dfs_file_getdents fops_at d (dir_buf t) 511 ;;
        if result <=? 0 then fd_put p ;; vfs_set_errno result ;; ret (None, mkDir (dir_fd t) buf (dir_num t) (dir_cur t))
        else fd_put p ;; ret (Some 0, mkDir (dir_fd t) buf result 0)
      else fd_put p ;; ret (Some (dir_cur t), t)
  end.
Definition telldir (t : DIR) : V Z :=
  d <- fd_get console (dir_fd t) ;;
  match d with
  | None => vfs_set_errno (- EBADF) ;; ret 0
  | Some p => f <- get_fd p ;; fd_put p ;; ret (i32 (fd_pos f - dir_num t + dir_cur t))
  end.
Definition seekdir (t : DIR) (offset : Z) : V DIR :=
  d <- fd_get console (dir_fd t) ;;
  match d with
  | None => vfs_set_errno (- EBADF) ;; ret t
  | Some p =>
      r <- dfs_file_lseek fops_at d offset ;;
      fd_put p ;;
      ret (if 0 <=? r then mkDir (dir_fd t) (dir_buf t) 0 0 else t)
  end.
Definition rewinddir (t : DIR) : V DIR := seekdir t 0.
Definition closedir (t : DIR) : V Z :=
  d <- fd_get console (dir_fd t) ;;
  match d with
  | None => fails (- EBADF)
  | Some p =>
      result <- dfs_file_close fops_at d ;;
      fd_put p ;;
      fd_put p ;;
      or_errno result 0
  end.
(** strncpy(working_directory, fullpath, DFS_PATH_MAX): without a NUL in the first 256
    characters the buffer would have none. *)
Definition chdir (g : grants) (m1 malloced : bool) (path : option (list Z)) : V Z :=
  match path with
  | None => ret 0
  | Some path =>
      if (DFS_PATH_MAX <? length path)%nat then fails (- ENOTDIR)
      else
        fullpath <- normalized m1 path ;;
        match fullpath with
        | None => fails (- ENOTDIR)
        | Some fullpath =>
            d <- opendir g malloced fullpath ;;
            match d with
            | None => ret (-1)
            | Some t =>
                closedir t ;;
                valid (length fullpath <? DFS_PATH_MAX)%nat ;;
                modify (set_v_wd fullpath) ;;
                ret 0
            end
        end
  end.
(** The bytes strncpy leaves in the buffer. *)
Definition getcwd (size : nat) : V (list Z) := wd <- gets v_wd ;; ret (take size (wd ++ replicate size 0)).
End calls.

(** ** What the file systems promise

    A routine of a file system returns, keeps the tables, and of the files changes only
    the one it is called for, not its number, its count and not that it has
    operations.  [able]: what the routines and errno need of the kernel and the
    devices. *)

Class ErrnoAble {W} (able : dst W -> Prop) : Prop := able_errno : forall d e, able d -> wp (dev_set_errno e) d (fun _ d' => able d').
#[export] Instance caller_able {W} : ErrnoAble (W := W) (fun d => exists c th, caller (d_k d) c th).
Proof.
  intros d e (c & th & Hc). apply (wp_set_errno d_k set_d_k set_d_errno ltac:(by intros []) d c th); [done|]. destruct Hc as [H1 H2 H3 H4]. exists c, (set_th_error e th). split; cbn; [done|apply lookup_insert_eq|by destruct th|done].
Qed.

Section promise.
Context {W : Type} (able : dst W -> Prop).
Local Notation V := (@Fd.V W).
Implicit Types s : vfs W.
Definition tables_kept s s' : Prop := v_types s' = v_types s /\ v_mounted s' = v_mounted s /\ v_fds s' = v_fds s /\ v_wd s' = v_wd s /\ v_init s' = v_init s.
Definition file_step (p : nat) s s' : Prop := tables_kept s s' /\ able (v_dev s') /\
  exists d d', v_files s !! p = Some d /\ v_files s' = <[p := d']> (v_files s) /\ fd_magic d' = fd_magic d /\ fd_ref_count d' = fd_ref_count d /\ (is_Some (fd_fops d) -> is_Some (fd_fops d')).
Definition leaves {R} (p : nat) (h : V R) : Prop := forall s d, able (v_dev s) -> v_files s !! p = Some d -> is_Some (fd_fops d) -> wp h s (fun _ s' => file_step p s s').
Record fops_ok (o : dfs_file_ops W) : Prop := {
  fk_open : forall h p, f_open o = Some h -> leaves p (h p);
  fk_close : forall h p, f_close o = Some h -> leaves p (h p);
  fk_ioctl : forall h p cmd a, f_ioctl o = Some h -> leaves p (h p cmd a);
  fk_read : forall h p buf len, f_read o = Some h -> leaves p (h p buf len);
  fk_write : forall h p buf len, f_write o = Some h -> leaves p (h p buf len);
  fk_flush : forall h p, f_flush o = Some h -> leaves p (h p);
  fk_lseek : forall h p off, f_lseek o = Some h -> leaves p (h p off)
}.

Lemma file_step_refl p d s : able (v_dev s) -> v_files s !! p = Some d -> file_step p s s.
Proof. intros Ha Ed. split; [done|]. split; [done|]. exists d, d. by rewrite insert_id. Qed.
Lemma file_step_upd p s s' d' f : file_step p s s' -> v_files s' !! p = Some d' -> fd_magic (f d') = fd_magic d' -> fd_ref_count (f d') = fd_ref_count d' -> fd_fops (f d') = fd_fops d' -> file_step p s (upd_fd p (f d') s').
Proof.
  intros (Hk & Ha & d & d1 & Ed & E1 & Hm & Hr & Ho) Ed' Fm Fr Fo. rewrite E1, lookup_insert_eq in Ed'. injection Ed' as <-. split; [done|]. split; [done|]. exists d, (f d1). split; [done|]. cbn. rewrite E1, insert_insert_eq, Fm, Fr, Fo. done.
Qed.
Lemma file_step_lookup p s s' : file_step p s s' -> exists d d', v_files s !! p = Some d /\ v_files s' !! p = Some d' /\ fd_ref_count d' = fd_ref_count d /\ (is_Some (fd_fops d) -> is_Some (fd_fops d')).
Proof. intros (_ & _ & d & d' & Ed & E & _ & Hr & Ho). exists d, d'. rewrite E, lookup_insert_eq. done. Qed.
Lemma file_step_trans p s s' s'' : file_step p s s' -> file_step p s' s'' -> file_step p s s''.
Proof.
  intros ((K1 & K2 & K3 & K4 & K5) & _ & d & d1 & Ed & E1 & Hm & Hr & Ho) ((L1 & L2 & L3 & L4 & L5) & Ha & d1' & d2 & Ed1 & E2 & Hm2 & Hr2 & Ho2). rewrite E1, lookup_insert_eq in Ed1. injection Ed1 as <-. split; [split_and!; congruence|]. split; [done|]. exists d, d2. split; [done|]. rewrite E2, E1, insert_insert_eq. split; [done|]. split_and!; [congruence|congruence|auto].
Qed.

(** ** The files keep their places *)

Context (typ : nat -> dfs_filesystem_ops W) (fops_at : Z -> dfs_file_ops W) (Hfops : forall a, fops_ok (fops_at a)).

(** A step of the file, then possibly a change of its other fields. *)
Lemma wp_touch p s s' f (Q : unit -> vfs W -> Prop) : file_step p s s' -> (forall d, fd_magic (f d) = fd_magic d /\ fd_ref_count (f d) = fd_ref_count d /\ fd_fops (f d) = fd_fops d) -> (forall s'', file_step p s s'' -> Q tt s'') -> wp (mod_fd p f) s' Q.
Proof.
  intros Hs Hf HQ. destruct (file_step_lookup _ _ _ Hs) as (d & d' & _ & Ed' & _). apply (wp_mod_fd _ _ d'); [done|]. apply HQ. apply (file_step_upd p s s' d' f); [done|done|apply Hf..].
Qed.
(** A routine that may be missing: the call is refused, or made. *)
Lemma wp_handler {R} p s d a (get : dfs_file_ops W -> option R) (none : Z) (call : R -> V Z) : able (v_dev s) -> v_files s !! p = Some d -> fd_fops d = Some a -> (forall h, get (fops_at a) = Some h -> leaves p (call h)) ->
  wp (fops <- get_fops fops_at p ;; match get fops with None => ret none | Some h => call h end) s (fun _ s' => file_step p s s').
Proof.
  intros Ha Ed Ea Hh. kstep. apply (wp_get_fops _ _ _ d a); [done|done|]. destruct (get (fops_at a)) as [h|] eqn:Eh; [|kstep; by apply (file_step_refl p d)]. by apply (Hh h eq_refl s d).
Qed.
Lemma leaves_then p (m : V Z) (b : Z -> bool) f : leaves p m -> (forall d r, fd_magic (f r d) = fd_magic d /\ fd_ref_count (f r d) = fd_ref_count d /\ fd_fops (f r d) = fd_fops d) -> leaves p (r <- m ;; when (b r) (mod_fd p (f r)) ;; ret r).
Proof.
  intros Hm Hf s d Ha Ed Ho. kstep. eapply wp_mono; [by apply (Hm s d)|]. intros r s' Hs. kstep. kstep. destruct (b r); [|by do 2 kstep]. apply (wp_touch p s); [done|intros d'; apply Hf|]. intros s'' Hs''. by kstep.
Qed.
Lemma dfs_file_read_wp p buf len : leaves p (dfs_file_read fops_at (Some p) buf len).
Proof. intros s d Ha Ed [a Ea]. apply (wp_handler p s d a f_read); [done..|]. intros h Eh. apply leaves_then; [by eapply fk_read|done]. Qed.
Lemma dfs_file_write_wp p buf len : leaves p (dfs_file_write fops_at (Some p) buf len).
Proof. intros s d Ha Ed [a Ea]. apply (wp_handler p s d a f_write); [done..|]. intros h Eh. by eapply fk_write. Qed.
Lemma dfs_file_flush_wp p : leaves p (dfs_file_flush fops_at (Some p)).
Proof. intros s d Ha Ed [a Ea]. apply (wp_handler p s d a f_flush); [done..|]. intros h Eh. by eapply fk_flush. Qed.
Lemma dfs_file_lseek_wp p off : leaves p (dfs_file_lseek fops_at (Some p) off).
Proof. intros s d Ha Ed [a Ea]. apply (wp_handler p s d a f_lseek); [done..|]. intros h Eh. apply (leaves_then p _ (fun r => 0 <=? r) (fun r => set_fd_pos r)); [by eapply fk_lseek|done]. Qed.
Lemma dfs_file_ftruncate_wp p len : leaves p (dfs_file_ftruncate fops_at (Some p) len).
Proof.
  intros s d Ha Ed [a Ea]. unfold dfs_file_ftruncate. kstep. apply (wp_get_fd _ _ d); [done|]. destruct (_ || _); [kstep; by apply (file_step_refl p d)|]. apply (wp_handler p s d a f_ioctl); [done..|]. intros h Eh. apply (leaves_then p _ (fun r => r =? 0) (fun _ => set_fd_size len)); [by eapply fk_ioctl|done].
Qed.
Lemma dfs_file_ioctl_wp p cmd args : leaves p (dfs_file_ioctl fops_at (Some p) cmd args).
Proof.
  intros s d Ha Ed [a Ea]. unfold dfs_file_ioctl. kstep. apply (wp_get_fd _ _ d); [done|]. pose proof (file_step_refl p d s Ha Ed) as H0. destruct (_ && (cmd =? F_GETFL)); [by kstep|]. destruct (_ && _).
  - cbv zeta. kstep. apply (wp_touch p s); [done|done|]. intros s1 H1. kstep. apply (wp_touch p s); [done|done|]. intros s2 H2. by kstep.
  - apply (wp_handler p s d a f_ioctl); [done..|]. intros h Eh. by eapply fk_ioctl.
Qed.
Lemma dfs_file_close_wp p : leaves p (dfs_file_close fops_at (Some p)).
Proof.
  intros s d Ha Ed Ho. destruct (Ho) as [a Ea]. unfold dfs_file_close. kstep. apply (wp_get_fops _ _ _ d a); [done|done|]. kstep. apply (wp_mono _ _ (fun _ s' => file_step p s s')).
  - destruct (f_close (fops_at a)) as [h|] eqn:Eh; [by eapply (fk_close _ (Hfops a) h p Eh); eauto|kstep; by apply (file_step_refl p d)].
  - intros r s' Hs. destruct (r <? 0); [by kstep|]. kstep. apply (wp_touch p s); [done|done|]. intros s'' Hs''. by kstep.
Qed.
(** A file that was opened has operations. *)
Lemma file_open_wp s malloced strduped p d path flags : able (v_dev s) -> v_files s !! p = Some d -> chars_ok (joined (v_wd s) path) -> mounts_ok s ->
  wp (dfs_file_open typ fops_at malloced strduped (Some p) path flags) s (fun r s' => file_step p s s' /\ (0 <= r -> exists d', v_files s' !! p = Some d' /\ is_Some (fd_fops d'))).
Proof.
  intros Ha Ed Hch Hm. pose proof (file_step_refl p d s Ha Ed) as H0. apply (dfs_file_open_wp typ fops_at s malloced strduped p d path flags (fun _ d' s' => file_step p s s' /\ is_Some (fd_fops d'))); [done|done|done|done|done| |].
  - intros full i m f o _ _ _ _ d1. assert (file_step p s (upd_fd p d1 s)) as H1 by (split; [done|]; split; [done|]; by exists d, d1). destruct (f_open _) as [h|] eqn:Eh.
    + eapply wp_mono; [eapply (fk_open _ (Hfops (o_fops (typ o))) h p Eh); [done|apply lookup_insert_eq|by eexists]|]. intros r s' Hs. destruct (file_step_lookup _ _ _ Hs) as (d1' & d' & E1 & E2 & _ & Hf). exists d'. split; [done|]. split; [by eapply file_step_trans|]. apply Hf. cbn in E1. rewrite lookup_insert_eq in E1. injection E1 as <-. by eexists.
    + split; [|done]. rewrite <- (upd_upd p d1). by apply (file_step_upd p s _ d1 (set_fd_path None)); [done|apply lookup_insert_eq|..].
  - intros r d' s' Ed' [Hs Hf]. destruct (r <? 0) eqn:Er.
    + split; [by apply (file_step_upd p s s' d' (set_fd_path None))|]. apply Z.ltb_lt in Er. lia.
    + assert (fd_magic (opened flags d') = fd_magic d' /\ fd_ref_count (opened flags d') = fd_ref_count d' /\ fd_fops (opened flags d') = fd_fops d') as (F1 & F2 & F3) by (unfold opened; by destruct (_ =? 0)). split; [by apply (file_step_upd p s s' d' (opened flags))|]. intros _. exists (opened flags d'). split; [apply lookup_insert_eq|by rewrite F3].
Qed.
End promise.

(** ** The invariant

    [pinv x s A]: the table is in order, its counts are [A], and every file in use but
    [x] has operations. *)

Section calls_proof.
Context {W : Type} (able : dst W -> Prop) `{!ErrnoAble able}.
Context (typ : nat -> dfs_filesystem_ops W) (fops_at : Z -> dfs_file_ops W) (Hfops : forall a, fops_ok able (fops_at a)) (console : Z).
Local Notation V := (@Fd.V W).
Implicit Types (s : vfs W) (A : gmap Z (nat * Z)).

Record pinv (x : option nat) s A : Prop := {
  pi_ok : fd_ok s;
  pi_counts : counts_of s A;
  pi_able : able (v_dev s);
  pi_open : forall q d, v_files s !! q = Some d -> Some q <> x -> is_Some (fd_fops d);
  pi_mounts : mounts_ok s;
  pi_wd : chars_ok (v_wd s)
}.

Lemma pinv_errno x s A e (Q : unit -> vfs W -> Prop) : pinv x s A -> (forall s', pinv x s' A -> Q tt s') -> wp (vfs_set_errno e) s Q.
Proof using ErrnoAble0.
  intros [H1 H2 H3 H4 H5 H6] HQ. apply wp_zoom. eapply wp_mono; [by apply able_errno|]. intros [] d' Hd. apply HQ. split; [by apply (fd_ok_same s)|by apply (counts_of_same s)|done|done|done|done].
Qed.
Lemma pinv_fails x s A e (Q : Z -> vfs W -> Prop) : pinv x s A -> (forall s', pinv x s' A -> Q (-1) s') -> wp (fails e) s Q.
Proof using ErrnoAble0. intros Hp HQ. unfold fails. kstep. apply (pinv_errno x s A); [done|]. intros s' Hp'. kstep. by apply HQ. Qed.
Lemma pinv_step x s s' A p : pinv x s A -> file_step able p s s' -> pinv x s' A.
Proof.
  intros [H1 H2 H3 H4 H5 H6] ((K1 & K2 & K3 & K4 & K5) & Ha & d & d' & Ed & E & Hm & Hr & Ho). destruct (table_touch s s' A p d d' K3 Ed E Hm Hr H1 H2) as [T1 T2]. split; [done|done|done| |by unfold mounts_ok; rewrite K2|by rewrite K4].
  intros q dq. rewrite E, lookup_insert. case_decide as Hq; [subst q; intros [= <-] Hx; apply Ho; by apply (H4 p)|apply H4].
Qed.
Lemma pinv_file x s A fd p c : pinv x s A -> A !! fd = Some (p, c) -> exists d, v_files s !! p = Some d /\ (Some p <> x -> is_Some (fd_fops d)).
Proof. intros Hp E. apply (pi_counts _ _ _ Hp) in E as (i & q & d & _ & [_ Hd] & [= -> _]). exists d. split; [done|]. by apply (pi_open _ _ _ Hp). Qed.
Lemma pinv_frame x s s' A A' : pinv x s A -> fd_ok s' -> counts_of s' A' -> vfs_kept s s' -> files_from None s s' -> pinv x s' A'.
Proof.
  intros [H1 H2 H3 H4 H5 H6] Hok HA (K1 & K2 & K3 & K4 & K5) Hf. split; [done|done|by rewrite K1| |by unfold mounts_ok; rewrite K3|by rewrite K4]. intros q d' Hq Hx. destruct (Hf q d' Hq) as [?|(d & Ed & ->)]; [done|]. cbn. by apply (H4 q).
Qed.
Lemma pinv_get x s A fd p c (Q : option nat -> vfs W -> Prop) : pinv x s A -> A !! std_fd console fd = Some (p, c) -> c + 1 < 2 ^ 31 -> (forall s', pinv x s' (<[std_fd console fd := (p, c + 1)]> A) -> Q (Some p) s') -> wp (fd_get console fd) s Q.
Proof.
  intros Hp E Hc HQ. eapply wp_mono; [apply (fd_get_wp s A); [apply Hp|apply Hp|intros ? ?; rewrite E; by intros [= <- <-]]|]. intros r s' (H1 & H2 & H3 & A' & H4 & H5). unfold get_result in H5. rewrite E in H5. destruct H5 as [-> ->]. apply HQ. by apply (pinv_frame x s s' A).
Qed.
Lemma pinv_put x s A fd p c (Q : unit -> vfs W -> Prop) : pinv x s A -> A !! fd = Some (p, c) -> (forall s', pinv x s' (put_result A fd p c) -> Q tt s') -> wp (fd_put p) s Q.
Proof. intros Hp E HQ. eapply wp_mono; [by apply (fd_put_wp s A fd p c); [apply Hp|apply Hp|]|]. intros [] s' (H1 & H2 & H3 & H4). apply HQ. by apply (pinv_frame x s s' A). Qed.
Lemma put_after_get A fd p c : 1 <= c -> A !! fd = Some (p, c) -> put_result (<[fd := (p, c + 1)]> A) fd p (c + 1) = A.
Proof. intros Hc E. unfold put_result. rewrite (proj2 (Z.eqb_neq _ _)) by lia. rewrite insert_insert_eq, Z.add_simpl_r. by apply insert_id. Qed.
Lemma pinv_pos x s A fd p c : pinv x s A -> A !! fd = Some (p, c) -> 1 <= c < 2 ^ 31.
Proof. intros Hp E. apply (pi_counts _ _ _ Hp) in E as (i & q & d & _ & [Hi Hd] & [= -> <-]). destruct (fo_file _ (pi_ok _ _ _ Hp) i p Hi) as (d' & ? & _ & ?). congruence. Qed.

(** A reference is counted, the file used, and the reference dropped. *)
Lemma pinv_drop x s A fd p c (Q : unit -> vfs W -> Prop) : pinv x s (<[fd := (p, c + 1)]> A) -> 1 <= c -> A !! fd = Some (p, c) -> (forall s', pinv x s' A -> Q tt s') -> wp (fd_put p) s Q.
Proof. intros Hp Hc E HQ. apply (pinv_put x s (<[fd := (p, c + 1)]> A) fd p (c + 1)); [done|apply lookup_insert_eq|]. rewrite put_after_get by done. done. Qed.
Lemma pinv_use {R} x s A fd p c (m : V R) (Q : R -> vfs W -> Prop) : pinv x s A -> Some p <> x -> A !! fd = Some (p, c) -> leaves able p m -> (forall r s', pinv x s' A -> Q r s') -> wp m s Q.
Proof. intros Hp Hx E Hm HQ. destruct (pinv_file x s A fd p c Hp E) as (d & Ed & Ho). eapply wp_mono; [apply (Hm s d); [apply Hp|done|by apply Ho]|]. intros r s' Hs. apply HQ. by apply (pinv_step x s s' A p). Qed.

(** Every count has room for one more. *)
Definition bounded A : Prop := forall fd p c, A !! fd = Some (p, c) -> c + 1 < 2 ^ 31.
Lemma get_then {R} fd (k : option nat -> V R) s A (Q : R -> vfs W -> Prop) : pinv None s A -> bounded A ->
  (A !! std_fd console fd = None -> wp (k None) s Q) ->
  (forall p c s1, A !! std_fd console fd = Some (p, c) -> 1 <= c -> pinv None s1 (<[std_fd console fd := (p, c + 1)]> A) -> wp (k (Some p)) s1 Q) ->
  wp (d <- fd_get console fd ;; k d) s Q.
Proof.
  intros Hp Hb Hn Hs. kstep. destruct (A !! std_fd console fd) as [[p c]|] eqn:E.
  - specialize (Hb _ _ _ E) as Hc. pose proof (pinv_pos _ _ _ _ _ _ Hp E) as Hc1. apply (pinv_get None s A fd p c); [done|done|done|]. intros s1 Hp1. apply (Hs p c); [done|lia|done].
  - apply (fd_get_none s A); [apply Hp|apply Hp|done|]. by apply Hn.
Qed.

(** The calls on a descriptor that leave the table as it is. *)
Definition neutral (fd : Z) (m : V Z) : Prop := forall s A, pinv None s A -> bounded A -> wp m s (fun r s' => pinv None s' A /\ (A !! std_fd console fd = None -> r = -1)).
(** The file is used, with the reference counted. *)
Lemma use_counted {R} s A fd p c (m : V R) (Q : R -> vfs W -> Prop) : pinv None s (<[fd := (p, c + 1)]> A) -> leaves able p m -> (forall r s', pinv None s' (<[fd := (p, c + 1)]> A) -> Q r s') -> wp m s Q.
Proof. intros Hp Hm HQ. by apply (pinv_use None s (<[fd := (p, c + 1)]> A) fd p (c + 1)); [done|done|apply lookup_insert_eq|..]. Qed.
Lemma leaves_ret {R} p (r : R) : leaves able p (ret r).
Proof. intros s d Ha Ed _. kstep. by apply (file_step_refl able p d). Qed.
Lemma with_file_neutral fd op result_of : (forall p, leaves able p (op (Some p))) -> neutral fd (with_file console fd op result_of).
Proof using ErrnoAble0.
  intros Hop s A Hp Hb. apply (get_then fd _ s A); [done|done|intros E; by apply (pinv_fails None s A)|]. intros p c s1 E Hc Hp1. kstep. apply (use_counted s1 A (std_fd console fd) p c); [done|done|]. intros r s2 Hp2.
  destruct (r <? 0); kstep; (apply (pinv_drop None s2 A (std_fd console fd) p c); [done|done|done|]; intros s3 Hp3).
  - apply (pinv_fails None s3 A); [done|]. intros s4 Hp4. split; [done|congruence].
  - kstep. split; [done|congruence].
Qed.
Lemma read_neutral fd buf len : neutral fd (read fops_at console fd buf len).
Proof using ErrnoAble0 Hfops. apply with_file_neutral. intros p. by apply dfs_file_read_wp. Qed.
Lemma write_neutral fd buf len : neutral fd (write fops_at console fd buf len).
Proof using ErrnoAble0 Hfops. apply with_file_neutral. intros p. by apply dfs_file_write_wp. Qed.
Lemma ftruncate_neutral fd len : neutral fd (ftruncate fops_at console fd len).
Proof using ErrnoAble0 Hfops. apply with_file_neutral. intros p. destruct (len <? 0); [apply leaves_ret|]. by apply dfs_file_ftruncate_wp. Qed.
Lemma fsync_neutral fd : neutral fd (fsync fops_at console fd).
Proof using ErrnoAble0 Hfops.
  intros s A Hp Hb. apply (get_then fd _ s A); [done|done|intros E; by apply (pinv_fails None s A)|]. intros p c s1 E Hc Hp1. kstep. apply (use_counted s1 A (std_fd console fd) p c); [done|by apply dfs_file_flush_wp|]. intros r s2 Hp2. kstep. apply (pinv_drop None s2 A (std_fd console fd) p c); [done|done|done|]. intros s3 Hp3. kstep. split; [done|congruence].
Qed.
Lemma fcntl_neutral fd cmd arg : neutral fd (fcntl fops_at console fd cmd arg).
Proof using ErrnoAble0 Hfops.
  intros s A Hp Hb. apply (get_then fd _ s A); [done|done| |].
  - intros E. kstep. kstep. unfold or_errno. cbn [Z.ltb Z.compare Z.opp EBADF]. by apply (pinv_fails None s A).
  - intros p c s1 E Hc Hp1. kstep. kstep. apply (use_counted s1 A (std_fd console fd) p c); [done|by apply dfs_file_ioctl_wp|]. intros r s2 Hp2. kstep. apply (pinv_drop None s2 A (std_fd console fd) p c); [done|done|done|]. intros s3 Hp3. kstep. unfold or_errno. destruct (r <? 0); [apply (pinv_fails None s3 A); [done|]; intros s4 Hp4|kstep]; (split; [done|congruence]).
Qed.
Lemma lseek_neutral fd offset whence : neutral fd (lseek fops_at console fd offset whence).
Proof using ErrnoAble0 Hfops.
  intros s A Hp Hb. apply (get_then fd _ s A); [done|done|intros E; by apply (pinv_fails None s A)|]. intros p c s1 E Hc Hp1. kstep. destruct (pinv_file None s1 _ (std_fd console fd) p (c + 1) Hp1 (lookup_insert_eq _ _ _)) as (d & Ed & _). apply (wp_get_fd _ _ d); [done|]. cbv zeta.
  assert (forall s2 e, pinv None s2 (<[std_fd console fd := (p, c + 1)]> A) -> wp (fd_put p ;; fails e) s2 (fun r s' => pinv None s' A /\ (A !! std_fd console fd = None -> r = -1))) as Hfail.
  { intros s2 e Hp2. kstep. apply (pinv_drop None s2 A (std_fd console fd) p c); [done|done|done|]. intros s3 Hp3. apply (pinv_fails None s3 A); [done|]. intros s4 Hp4. split; [done|congruence]. }
  set (off := if whence =? SEEK_SET then _ else _). clearbody off. destruct off as [off|]; [|by apply Hfail]. destruct (off <? 0); [by apply Hfail|]. kstep. apply (use_counted s1 A (std_fd console fd) p c); [done|by apply dfs_file_lseek_wp|]. intros r s2 Hp2. destruct (r <? 0); [by apply Hfail|]. kstep. apply (pinv_drop None s2 A (std_fd console fd) p c); [done|done|done|]. intros s3 Hp3. kstep. split; [done|congruence].
Qed.
Lemma fstat_wp fd buf s A : pinv None s A -> bounded A -> wp (fstat console fd buf) s (fun r s' => pinv None s' A /\ (A !! std_fd console fd = None -> r = (-1, buf))).
Proof using ErrnoAble0.
  intros Hp Hb. apply (get_then fd _ s A); [done|done|intros E; kstep; apply (pinv_fails None s A); [done|]; intros s' Hp'; by kstep|]. intros p c s1 E Hc Hp1. kstep. destruct (pinv_file None s1 _ (std_fd console fd) p (c + 1) Hp1 (lookup_insert_eq _ _ _)) as (d & Ed & _). apply (wp_get_fd _ _ d); [done|]. cbv zeta. kstep. apply (pinv_drop None s1 A (std_fd console fd) p c); [done|done|done|]. intros s3 Hp3. kstep. split; [done|congruence].
Qed.

(** *** Closing *)

(** The descriptor is released; the last reference frees it. *)
Definition close_step A (fd r : Z) A' : Prop :=
  match A !! std_fd console fd with
  | None => r = -1 /\ A' = A
  | Some (p, c) => (r = -1 /\ A' = A) \/ (r = 0 /\ A' = put_result A (std_fd console fd) p c)
  end.
Lemma close_wp fd s A : pinv None s A -> bounded A -> wp (close fops_at console fd) s (fun r s' => exists A', pinv None s' A' /\ close_step A fd r A').
Proof using ErrnoAble0 Hfops.
  intros Hp Hb. unfold close_step. apply (get_then fd _ s A); [done|done| |].
  - intros E. apply (pinv_fails None s A); [done|]. intros s' Hp'. exists A. by rewrite E.
  - intros p c s1 E Hc Hp1. rewrite E. kstep. apply (use_counted s1 A (std_fd console fd) p c); [done|by apply dfs_file_close_wp|]. intros r s2 Hp2. kstep. apply (pinv_drop None s2 A (std_fd console fd) p c); [done|done|done|]. intros s3 Hp3. destruct (r <? 0).
    + apply (pinv_fails None s3 A); [done|]. intros s4 Hp4. exists A. auto.
    + kstep. apply (pinv_put None s3 A (std_fd console fd) p c); [done|done|]. intros s4 Hp4. kstep. eauto.
Qed.
(** The descriptor of a directory is released even when the file system fails. *)
Definition closedir_step A (fd r : Z) A' : Prop :=
  match A !! std_fd console fd with
  | None => r = -1 /\ A' = A
  | Some (p, c) => (r = -1 \/ r = 0) /\ A' = put_result A (std_fd console fd) p c
  end.
Lemma closedir_wp t s A : pinv None s A -> bounded A -> wp (closedir fops_at console t) s (fun r s' => exists A', pinv None s' A' /\ closedir_step A (dir_fd t) r A').
Proof using ErrnoAble0 Hfops.
  intros Hp Hb. unfold closedir_step. apply (get_then (dir_fd t) _ s A); [done|done| |].
  - intros E. apply (pinv_fails None s A); [done|]. intros s' Hp'. exists A. by rewrite E.
  - intros p c s1 E Hc Hp1. rewrite E. kstep. apply (use_counted s1 A (std_fd console (dir_fd t)) p c); [done|by apply dfs_file_close_wp|]. intros r s2 Hp2. kstep. apply (pinv_drop None s2 A (std_fd console (dir_fd t)) p c); [done|done|done|]. intros s3 Hp3. kstep. apply (pinv_put None s3 A (std_fd console (dir_fd t)) p c); [done|done|]. intros s4 Hp4.
    unfold or_errno. destruct (r <? 0); [apply (pinv_fails None s4 _ _ _ Hp4); intros s5 Hp5|kstep]; eauto 6.
Qed.

(** *** Opening *)

(** The memory a call gets for a file is not in use. *)
Definition fresh A (g : grants) : Prop := forall p fd c, g_calloc g = Some p -> A !! fd <> Some (p, c).
(** The lowest free descriptor is in use afterwards, or the call failed. *)
Definition open_step A (r : Z) A' : Prop :=
  (r = -1 /\ A' = A) \/ (3 <= r < 19 /\ A !! r = None /\ (forall fd, 3 <= fd < r -> is_Some (A !! fd)) /\ exists p, A' = <[r := (p, 1)]> A).

Lemma pinv_forget p s A : pinv (Some p) s A -> (forall fd c, A !! fd <> Some (p, c)) -> pinv None s A.
Proof.
  intros [H1 H2 H3 H4 H5 H6] Hn. split; [done..| |done|done]. intros q d Hq _. apply (H4 q d Hq). intros [= ->]. destruct (fo_used _ H1 p ltac:(eauto)) as [i Hi]. apply (Hn (Z.of_nat i + DFS_FD_OFFSET) (fd_ref_count d)), H2. exists i, p, d. by split_and!.
Qed.
Lemma pinv_opened p s A d : pinv (Some p) s A -> v_files s !! p = Some d -> is_Some (fd_fops d) -> pinv None s A.
Proof. intros [H1 H2 H3 H4 H5 H6] Ed Ho. split; [done..| |done|done]. intros q e Hq _. destruct (decide (q = p)) as [->|Hn]; [congruence|]. apply (H4 q e Hq). congruence. Qed.
Lemma joined_chars d f : chars_ok d -> chars_ok f -> chars_ok (joined d f).
Proof. intros Hd Hf. unfold joined. destruct (absolute f); [done|]. apply Forall_app_2; [done|]. constructor; [lia|done]. Qed.

Lemma open_begin {R} g path flags (bad : Z -> bool) (kfail : V R) (k : Z -> option nat -> Z -> V R) s A (Q : R -> vfs W -> Prop) :
  pinv None s A -> fresh A g -> chars_ok path -> bad (-1) = true -> (forall fd, 3 <= fd -> bad fd = false) ->
  (forall s1, pinv None s1 A -> wp kfail s1 Q) ->
  (forall fd p r s1, 3 <= fd < 19 -> A !! fd = None -> (forall i, 3 <= i < fd -> is_Some (A !! i)) -> g_calloc g = Some p -> pinv (Some p) s1 (<[fd := (p, 2)]> A) -> (0 <= r -> pinv None s1 (<[fd := (p, 2)]> A)) -> wp (k fd (Some p) r) s1 Q) ->
  wp (fd <- fd_new (g_realloc g) (g_calloc g) ;; if bad fd then kfail else d <- fd_get console fd ;; r <- dfs_file_open typ fops_at (g_path g) (g_strdup g) d path flags ;; k fd d r) s Q.
Proof using Hfops.
  intros Hp Hfr Hch Hb1 Hb2 Hfail Hk. kstep. eapply wp_mono; [apply (fd_new_wp s A); [apply Hp|apply Hp|]|].
  { intros p Ep. destruct (v_files s !! p) as [d|] eqn:Ed; [exfalso|done]. destruct (fo_used _ (pi_ok _ _ _ Hp) p ltac:(eauto)) as [i Hi]. apply (Hfr p (Z.of_nat i + DFS_FD_OFFSET) (fd_ref_count d) Ep). apply (pi_counts _ _ _ Hp). exists i, p, d. by split_and!. }
  intros fd s1 (H1 & H2 & H3 & A' & H4 & H5). assert (pinv (g_calloc g) s1 A') as Hp1.
  { destruct Hp as [P1 P2 P3 P4 P5 P6]. destruct H2 as (K1 & K2 & K3 & K4 & K5). split; [done|done|by rewrite K1| |by unfold mounts_ok; rewrite K3|by rewrite K4]. intros q d' Hq Hx. destruct (H3 q d' Hq) as [?|(d & Ed & ->)]; [congruence|]. cbn. by apply (P4 q). }
  destruct H5 as [(-> & -> & _)|(Hfd & Ha & Hlow & p & Ep & ->)].
  - rewrite Hb1. apply Hfail. destruct (g_calloc g) as [p|] eqn:Ep; [|done]. apply (pinv_forget p); [done|]. intros fd c. by apply Hfr.
  - rewrite Hb2 by lia. rewrite Ep in Hp1. assert (std_fd console fd = fd) as Estd by (unfold std_fd; destruct (Z.leb_spec 0 fd), (Z.leb_spec fd 2); cbn; lia). kstep. apply (pinv_get (Some p) s1 (<[fd := (p, 1)]> A) fd p 1); [done|rewrite Estd; apply lookup_insert_eq|lia|]. rewrite Estd, insert_insert_eq. intros s2 Hp2. kstep.
    destruct (pinv_file (Some p) s2 _ fd p 2 Hp2 (lookup_insert_eq _ _ _)) as (d & Ed & _). eapply wp_mono; [apply (file_open_wp able typ fops_at Hfops s2 (g_path g) (g_strdup g) p d); [apply Hp2|done|apply joined_chars; [apply Hp2|done]|apply Hp2]|].
    intros r s3 [Hs Hr]. pose proof (pinv_step (Some p) s2 s3 _ p Hp2 Hs) as Hp3. apply (Hk fd p r s3); [done|done|done|done|exact Hp3|]. intros H0. destruct (Hr H0) as (d' & Ed' & Ho). by apply (pinv_opened p s3 _ d').
Qed.
(** Both references to a file that could not be opened are dropped. *)
Lemma abandon {R} x s A g fd p (k : V R) (Q : R -> vfs W -> Prop) : pinv x s (<[fd := (p, 2)]> A) -> x = None \/ x = Some p -> A !! fd = None -> fresh A g -> g_calloc g = Some p -> (forall s', pinv None s' A -> wp k s' Q) -> wp (fd_put p ;; fd_put p ;; k) s Q.
Proof.
  intros Hp Hx Ha Hfr Ep HQ. kstep. apply (pinv_put x s (<[fd := (p, 2)]> A) fd p 2); [done|apply lookup_insert_eq|]. intros s1. unfold put_result at 1. rewrite insert_insert_eq. cbn [Z.eqb Z.sub Z.add Z.pos_sub Z.opp Pos.pred_double]. intros Hp1. kstep. apply (pinv_put x s1 (<[fd := (p, 1)]> A) fd p 1); [done|apply lookup_insert_eq|]. intros s2. unfold put_result. cbn [Z.eqb Pos.eqb]. rewrite delete_insert_id by done. intros Hp2. apply HQ. destruct Hx as [->| ->]; [done|]. apply (pinv_forget p); [done|]. intros i c. by apply Hfr.
Qed.
(** The caller's reference of a file that was opened. *)
Lemma keep_one s A fd p (Q : unit -> vfs W -> Prop) : pinv None s (<[fd := (p, 2)]> A) -> (forall s', pinv None s' (<[fd := (p, 1)]> A) -> Q tt s') -> wp (fd_put p) s Q.
Proof. intros Hp HQ. apply (pinv_put None s (<[fd := (p, 2)]> A) fd p 2); [done|apply lookup_insert_eq|]. intros s1. unfold put_result. rewrite insert_insert_eq. apply HQ. Qed.
Lemma wp_some {R} p (k : nat -> V R) s (Q : R -> vfs W -> Prop) : wp (k p) s Q -> wp (RT_ASSERT (bool_decide (is_Some (Some p))) ;; p <- deref (fun _ => Some p) ;; k p) s Q.
Proof. intros H. kstep. apply wp_assert; [done|]. kstep. by apply (wp_deref _ p). Qed.

Lemma open_wp g file flags s A : pinv None s A -> fresh A g -> chars_ok file -> wp (open typ fops_at console g file flags) s (fun r s' => exists A', pinv None s' A' /\ open_step A r A').
Proof using ErrnoAble0 Hfops.
  intros Hp Hfr Hch. unfold open_step. apply (open_begin g file flags (fun fd => fd <? 0) _ _ s A); [done|done|done|done|intros fd Hfd; by apply Z.ltb_ge; lia| |].
  - intros s1 Hp1. apply (pinv_fails None s1 A); [done|]. intros s2 Hp2. exists A. auto.
  - intros fd p r s1 Hfd Ha Hlow Ep Hp1 Hr. apply wp_some. destruct (Z.ltb_spec r 0) as [Hneg|H0].
    + apply (abandon (Some p) s1 A g fd p); [done|by right|done|done|done|]. intros s2 Hp2. apply (pinv_fails None s2 A); [done|]. intros s3 Hp3. exists A. auto.
    + kstep. apply (keep_one s1 A fd p); [by apply Hr|]. intros s2 Hp2. kstep. eauto 10.
Qed.
Lemma mkdir_wp g path s A : pinv None s A -> fresh A g -> chars_ok path -> wp (mkdir typ fops_at console g path) s (fun r s' => pinv None s' A /\ (r = -1 \/ r = 0)).
Proof using ErrnoAble0 Hfops.
  intros Hp Hfr Hch. apply (open_begin g path (Z.lor O_DIRECTORY O_CREAT) (fun fd => fd =? -1) _ _ s A); [done|done|done|done|intros fd Hfd; by apply Z.eqb_neq; lia| |].
  - intros s1 Hp1. apply (pinv_fails None s1 A); [done|]. auto.
  - intros fd p r s1 Hfd Ha Hlow Ep Hp1 Hr. apply wp_some. destruct (Z.ltb_spec r 0) as [Hneg|H0].
    + apply (abandon (Some p) s1 A g fd p); [done|by right|done|done|done|]. intros s2 Hp2. apply (pinv_fails None s2 A); [done|]. auto.
    + kstep. apply (use_counted s1 A fd p 1); [by apply Hr|by apply dfs_file_close_wp|]. intros r' s2 Hp2. apply (abandon None s2 A g fd p); [done|by left|done|done|done|]. intros s3 Hp3. kstep. auto.
Qed.
(** The descriptor of a directory, or -1. *)
Definition dir_answer (t : option DIR) : Z := match t with Some t => dir_fd t | None => -1 end.
Lemma opendir_wp g malloced name s A : pinv None s A -> fresh A g -> chars_ok name -> wp (opendir typ fops_at console g malloced name) s (fun t s' => exists A', pinv None s' A' /\ open_step A (dir_answer t) A').
Proof using ErrnoAble0 Hfops.
  intros Hp Hfr Hch. unfold open_step. apply (open_begin g name (Z.lor O_RDONLY O_DIRECTORY) (fun fd => fd =? -1) _ _ s A); [done|done|done|done|intros fd Hfd; by apply Z.eqb_neq; lia| |].
  - intros s1 Hp1. kstep. apply (pinv_errno None s1 A); [done|]. intros s2 Hp2. kstep. exists A. auto.
  - intros fd p r s1 Hfd Ha Hlow Ep Hp1 Hr. apply wp_some. destruct (Z.leb_spec 0 r) as [H0|Hneg]; [destruct malloced|].
    + kstep. apply (keep_one s1 A fd p); [by apply Hr|]. intros s2 Hp2. kstep. cbn [dir_answer dir_fd]. eauto 10.
    + kstep. apply (use_counted s1 A fd p 1); [by apply Hr|by apply dfs_file_close_wp|]. intros r' s2 Hp2. apply (abandon None s2 A g fd p); [done|by left|done|done|done|]. intros s3 Hp3. kstep. exists A. auto.
    + apply (abandon (Some p) s1 A g fd p); [done|by right|done|done|done|]. intros s2 Hp2. kstep. apply (pinv_errno None s2 A); [done|]. intros s3 Hp3. kstep. exists A. auto.
Qed.

(** ** Sequences of calls *)

Inductive posix_call :=
  | POpen (g : grants) (file : list Z) (flags : Z) | POpendir (g : grants) (malloced : bool) (name : list Z) | PMkdir (g : grants) (path : list Z)
  | PClose (fd : Z) | PClosedir (t : DIR) | PRead (fd buf len : Z) | PWrite (fd buf len : Z) | PLseek (fd offset whence : Z) | PFtruncate (fd length : Z)
  | PFsync (fd : Z) | PFcntl (fd cmd arg : Z) | PFstat (fd : Z) (buf : stat_buf).
Definition posix_do (c : posix_call) : V Z :=
  match c with
  | POpen g file flags => open typ fops_at console g file flags
  | POpendir g malloced name => t <- opendir typ fops_at console g malloced name ;; ret (dir_answer t)
  | PMkdir g path => mkdir typ fops_at console g path
  | PClose fd => close fops_at console fd
  | PClosedir t => closedir fops_at console t
  | PRead fd buf len => read fops_at console fd buf len
  | PWrite fd buf len => write fops_at console fd buf len
  | PLseek fd offset whence => lseek fops_at console fd offset whence
  | PFtruncate fd length => ftruncate fops_at console fd length
  | PFsync fd => fsync fops_at console fd
  | PFcntl fd cmd arg => fcntl fops_at console fd cmd arg
  | PFstat fd buf => '(r, _) <- fstat console fd buf ;; ret r
  end.
Fixpoint posix_run (cs : list posix_call) : V (list Z) :=
  match cs with
  | [] => ret []
  | c :: cs => r <- posix_do c ;; l <- posix_run cs ;; ret (r :: l)
  end.

(** What a call does to the descriptors in use. *)
Definition posix_step A (c : posix_call) (r : Z) A' : Prop :=
  match c with
  | POpen _ _ _ | POpendir _ _ _ => open_step A r A'
  | PMkdir _ _ => A' = A /\ (r = -1 \/ r = 0)
  | PClose fd => close_step A fd r A'
  | PClosedir t => closedir_step A (dir_fd t) r A'
  | PRead fd _ _ | PWrite fd _ _ | PLseek fd _ _ | PFtruncate fd _ | PFsync fd | PFcntl fd _ _ | PFstat fd _ => A' = A /\ (A !! std_fd console fd = None -> r = -1)
  end.
Inductive posix_steps : gmap Z (nat * Z) -> list posix_call -> list Z -> gmap Z (nat * Z) -> Prop :=
  | PsNil A : posix_steps A [] [] A
  | PsCons A c r A' cs l A'' : posix_step A c r A' -> posix_steps A' cs l A'' -> posix_steps A (c :: cs) (r :: l) A''.
(** Paths are C strings, and memory that is given out is not in use. *)
Definition posix_call_ok A (c : posix_call) : Prop :=
  match c with
  | POpen g path _ | POpendir g _ path | PMkdir g path => fresh A g /\ chars_ok path
  | _ => True
  end.
Fixpoint posix_calls_ok A (cs : list posix_call) : Prop :=
  match cs with
  | [] => True
  | c :: cs => posix_call_ok A c /\ forall r A', posix_step A c r A' -> posix_calls_ok A' cs
  end.

Lemma posix_do_wp c s A : pinv None s A -> bounded A -> posix_call_ok A c -> wp (posix_do c) s (fun r s' => exists A', pinv None s' A' /\ posix_step A c r A').
Proof using ErrnoAble0 Hfops.
  intros Hp Hb Hc. assert (forall fd m, neutral fd m -> wp m s (fun r s' => exists A', pinv None s' A' /\ A' = A /\ (A !! std_fd console fd = None -> r = -1))) as Hn.
  { intros fd m Hm. eapply wp_mono; [by apply (Hm s A)|]. intros r s' [? ?]. by exists A. }
  destruct c; cbn [posix_do posix_step posix_call_ok] in *; try (destruct Hc as [Hc1 Hc2]).
  - by apply open_wp.
  - kstep. eapply wp_mono; [by apply (opendir_wp g malloced name s A)|]. intros t s' H. by kstep.
  - eapply wp_mono; [by apply (mkdir_wp g path s A)|]. intros r s' [? ?]. by exists A.
  - by apply close_wp.
  - by apply closedir_wp.
  - by apply Hn, read_neutral.
  - by apply Hn, write_neutral.
  - by apply Hn, lseek_neutral.
  - by apply Hn, ftruncate_neutral.
  - by apply Hn, fsync_neutral.
  - by apply Hn, fcntl_neutral.
  - kstep. eapply wp_mono; [by apply (fstat_wp fd buf s A)|]. intros [r b] s' [? H]. kstep. exists A. split; [done|]. split; [done|]. intros E. specialize (H E). congruence.
Qed.
Lemma bounded_step A c r A' : bounded A -> posix_step A c r A' -> bounded A'.
Proof.
  intros Hb Hs. assert (forall fd p c0, A !! fd = Some (p, c0) -> bounded (put_result A fd p c0)) as Hput.
  { intros fd p c0 E i q c1. unfold put_result. destruct (c0 =? 1); [intros [_ ?]%lookup_delete_Some; by eapply Hb|]. rewrite lookup_insert. case_decide; [|by apply Hb]. intros [= _ <-]. specialize (Hb _ _ _ E). lia. }
  destruct c; cbn [posix_step] in Hs; try (by destruct Hs as [-> _]).
  - destruct Hs as [[_ ->]|(_ & _ & _ & p & ->)]; [done|]. intros i q c1. rewrite lookup_insert. case_decide; [intros [= _ <-]; lia|by apply Hb].
  - destruct Hs as [[_ ->]|(_ & _ & _ & p & ->)]; [done|]. intros i q c1. rewrite lookup_insert. case_decide; [intros [= _ <-]; lia|by apply Hb].
  - unfold close_step in Hs. destruct (A !! std_fd console fd) as [[p c0]|] eqn:E; [|by destruct Hs as [_ ->]]. destruct Hs as [[_ ->]|[_ ->]]; [done|by apply Hput].
  - unfold closedir_step in Hs. destruct (A !! std_fd console (dir_fd t)) as [[p c0]|] eqn:E; [|by destruct Hs as [_ ->]]. destruct Hs as [_ ->]. by apply Hput.
Qed.

(** The sequence was answered with [l], and [A'] are the descriptors in use. *)
Definition answered A (cs : list posix_call) (l : list Z) s' A' : Prop :=
  posix_steps A cs l A' /\ pinv None s' A' /\ bounded A' /\
  forall fd p c, A' !! fd = Some (p, c) -> 3 <= fd < 19 /\ exists d, v_files s' !! p = Some d /\ fd_ref_count d = c /\ is_Some (fd_fops d).

(** Sequences of calls over file systems whose routines return ([fops_ok]). *)
Lemma posix_run_wp cs : forall s A, pinv None s A -> bounded A -> posix_calls_ok A cs ->
  wp (posix_run cs) s (fun l s' => exists A', answered A cs l s' A').
Proof using ErrnoAble0 Hfops.
  induction cs as [|c cs IH]; intros s A Hp Hb Hcs; cbn [posix_run].
  - kstep. exists A. split; [constructor|]. split; [done|]. split; [done|]. intros fd p c E. split; [by apply (counts_range s A fd (p, c)); [apply Hp|apply Hp|]|]. apply (pi_counts _ _ _ Hp) in E as (i & q & d & _ & [_ Hd] & [= -> <-]). exists d. split_and!; [done|done|by apply (pi_open _ _ _ Hp p d)].
  - destruct Hcs as [Hc Hcs]. kstep. eapply wp_mono; [by apply (posix_do_wp c s A)|]. intros r s1 (A1 & Hp1 & Hs1). kstep. eapply wp_mono; [apply (IH s1 A1); [done|by eapply bounded_step|by apply (Hcs r)]|]. intros l s2 (A2 & Hs2 & Hrest). kstep. exists A2. split; [by econstructor|done].
Qed.
End calls_proof.

(** ** Routines that may not return

    What a routine of a file system has to promise is weaker: that it has left the
    tables alone if it returns.  Where it does not return, the run stops in it; the
    calls themselves never stop.  To say so, the routines are replaced by routines that
    fail with -EIO, and change nothing, where these do not return. *)

Section tame.
Context {W : Type} (able : dst W -> Prop).
Local Notation V := (@Fd.V W).
Implicit Types s : vfs W.

Definition tame {R} (p : nat) (h : V R) : Prop := forall s d r s', able (v_dev s) -> v_files s !! p = Some d -> is_Some (fd_fops d) -> h s = Ok r s' -> file_step able p s s'.
Record fops_tame (o : dfs_file_ops W) : Prop := {
  ft_open : forall h p, f_open o = Some h -> tame p (h p);
  ft_close : forall h p, f_close o = Some h -> tame p (h p);
  ft_ioctl : forall h p cmd a, f_ioctl o = Some h -> tame p (h p cmd a);
  ft_read : forall h p buf len, f_read o = Some h -> tame p (h p buf len);
  ft_write : forall h p buf len, f_write o = Some h -> tame p (h p buf len);
  ft_flush : forall h p, f_flush o = Some h -> tame p (h p);
  ft_lseek : forall h p off, f_lseek o = Some h -> tame p (h p off)
}.

Definition ended (h : V Z) : V Z := fun s => match h s with Ok r s' => Ok r s' | _ => Ok (- EIO) s end.
Definition ended_fops (o : dfs_file_ops W) : dfs_file_ops W :=
  mkFops ((fun h p => ended (h p)) <$> f_open o) ((fun h p => ended (h p)) <$> f_close o) ((fun h p c a => ended (h p c a)) <$> f_ioctl o)
    ((fun h p b l => ended (h p b l)) <$> f_read o) ((fun h p b l => ended (h p b l)) <$> f_write o) ((fun h p => ended (h p)) <$> f_flush o)
    ((fun h p off => ended (h p off)) <$> f_lseek o) (f_getdents o).

Lemma ended_leaves p h : tame p h -> leaves able p (ended h).
Proof.
  intros Ht s d Ha Ed Ho. unfold wp, ended. destruct (h s) as [r s'| | |] eqn:E; [by apply (Ht s d r s')|by apply (file_step_refl able p d)..].
Qed.
Lemma ended_ok o : fops_tame o -> fops_ok able (ended_fops o).
Proof.
  intros [T1 T2 T3 T4 T5 T6 T7]. split; cbn; intros h *; (intros (g & E & ->)%fmap_Some; apply ended_leaves; eauto).
Qed.

(** [m'] returns wherever [m] does, with the same result. *)
Definition below {R} (m m' : V R) : Prop := forall s a s', m s = Ok a s' -> m' s = Ok a s'.
Lemma below_refl {R} (m : V R) : below m m.
Proof. by intros s a s'. Qed.
Lemma below_ended h : below h (ended h).
Proof. intros s a s' E. unfold ended. by rewrite E. Qed.
Lemma below_bind {A R} (m m' : V A) (k k' : A -> V R) : below m m' -> (forall a, below (k a) (k' a)) -> below (bind m k) (bind m' k').
Proof.
  intros Hm Hk s r s' H. unfold bind in *. destruct (m s) as [a s1| | |] eqn:E; [|done..]. rewrite (Hm _ _ _ E). by apply Hk.
Qed.
Lemma below_get_fops {R} fops_at p (k k' : dfs_file_ops W -> V R) : (forall a, below (k (fops_at a)) (k' (ended_fops (fops_at a)))) ->
  below (bind (get_fops fops_at p) k) (bind (get_fops (fun a => ended_fops (fops_at a)) p) k').
Proof.
  intros Hk s r s' H. unfold get_fops, get_fd, deref, bind, ret in *. destruct (v_files s !! p) as [d|]; [|done]. destruct (fd_fops d) as [a|]; [|done]. by apply Hk.
Qed.
Lemma below_option {A R} (o : option A) (f : A -> A) (n : V R) (k k' : A -> V R) : (forall h, below (k h) (k' (f h))) ->
  below (match o with None => n | Some h => k h end) (match f <$> o with None => n | Some h => k' h end).
Proof. intros Hk. destruct o; [apply Hk|apply below_refl]. Qed.
End tame.

Ltac below_step :=
  first [ apply below_ended | apply below_refl | apply below_get_fops; intros ?; cbn [f_open f_close f_ioctl f_read f_write f_flush f_lseek ended_fops]
        | (refine (below_option _ _ _ _ _ _); intros ?) | (apply below_bind; [|intros ?]) ].

Section tame_calls.
Context {W : Type} (able : dst W -> Prop) `{!ErrnoAble able}.
Context (typ : nat -> dfs_filesystem_ops W) (fops_at : Z -> dfs_file_ops W) (Htame : forall a, fops_tame able (fops_at a)) (console : Z).
Local Notation V := (@Fd.V W).
Local Notation fops_at' := (fun a => ended_fops (fops_at a)).

Lemma file_open_below m1 m2 d path flags : below (dfs_file_open typ fops_at m1 m2 d path flags) (dfs_file_open typ fops_at' m1 m2 d path flags).
Proof.
  unfold dfs_file_open. destruct d as [p|]; [|apply below_refl]. below_step; [below_step|]. destruct a as [full|]; [|apply below_refl]. below_step; [below_step|]. destruct a as [fs|]; [|apply below_refl].
  do 5 (below_step; [below_step|]). below_step. refine (below_option (f_open (fops_at a4)) (fun h p => ended (h p)) _ _ _ _). intros h. below_step; [below_step|]. below_step.
Qed.
Lemma file_close_below d : below (dfs_file_close fops_at d) (dfs_file_close fops_at' d).
Proof.
  unfold dfs_file_close. destruct d as [p|]; [|apply below_refl]. below_step. below_step; [|below_step]. refine (below_option (f_close (fops_at a)) (fun h p => ended (h p)) _ _ _ _). intros h. below_step.
Qed.
Lemma file_read_below d buf len : below (dfs_file_read fops_at d buf len) (dfs_file_read fops_at' d buf len).
Proof.
  unfold dfs_file_read. destruct d as [p|]; [|apply below_refl]. below_step. refine (below_option (f_read (fops_at a)) (fun h p b l => ended (h p b l)) _ _ _ _). intros h. below_step; below_step.
Qed.
Lemma file_write_below d buf len : below (dfs_file_write fops_at d buf len) (dfs_file_write fops_at' d buf len).
Proof.
  unfold dfs_file_write. destruct d as [p|]; [|apply below_refl]. below_step. refine (below_option (f_write (fops_at a)) (fun h p b l => ended (h p b l)) _ _ _ _). intros h. below_step.
Qed.
Lemma file_flush_below d : below (dfs_file_flush fops_at d) (dfs_file_flush fops_at' d).
Proof.
  unfold dfs_file_flush. destruct d as [p|]; [|apply below_refl]. below_step. refine (below_option (f_flush (fops_at a)) (fun h p => ended (h p)) _ _ _ _). intros h. below_step.
Qed.
Lemma file_lseek_below d off : below (dfs_file_lseek fops_at d off) (dfs_file_lseek fops_at' d off).
Proof.
  unfold dfs_file_lseek. destruct d as [p|]; [|apply below_refl]. below_step. refine (below_option (f_lseek (fops_at a)) (fun h p o => ended (h p o)) _ _ _ _). intros h. below_step; below_step.
Qed.
Lemma file_ftruncate_below d len : below (dfs_file_ftruncate fops_at d len) (dfs_file_ftruncate fops_at' d len).
Proof.
  unfold dfs_file_ftruncate. destruct d as [p|]; [|apply below_refl]. below_step; [below_step|]. destruct (_ || _); [apply below_refl|]. below_step.
  refine (below_option (f_ioctl (fops_at a0)) (fun h p c x => ended (h p c x)) _ _ _ _). intros h. below_step; below_step.
Qed.
Lemma file_ioctl_below d cmd args : below (dfs_file_ioctl fops_at d cmd args) (dfs_file_ioctl fops_at' d cmd args).
Proof.
  unfold dfs_file_ioctl. destruct d as [p|]; [|apply below_refl]. below_step; [below_step|]. destruct (_ && _); [apply below_refl|]. destruct (_ && _); [apply below_refl|]. below_step.
  refine (below_option (f_ioctl (fops_at a0)) (fun h p c x => ended (h p c x)) _ _ _ _). intros h. below_step.
Qed.
Hint Resolve below_refl file_open_below file_close_below file_read_below file_write_below file_flush_below file_lseek_below file_ftruncate_below : below.

Lemma posix_do_below c : below (posix_do typ fops_at console c) (posix_do typ fops_at' console c).
Proof.
  assert (forall fd op op' f, (forall d, below (op d) (op' d)) -> below (with_file console fd op f) (with_file (W := W) console fd op' f)) as Hw.
  { intros fd op op' f Hop. unfold with_file. apply below_bind; [apply below_refl|]. intros [p|]; [|apply below_refl]. apply below_bind; [apply Hop|intros r; apply below_refl]. }
  destruct c; cbn [posix_do].
  - unfold open. apply below_bind; [apply below_refl|]. intros x. destruct (_ <? _); [apply below_refl|]. do 4 (apply below_bind; [auto with below|intros ?]). apply below_refl.
  - apply below_bind; [|intros; apply below_refl]. unfold opendir. apply below_bind; [apply below_refl|]. intros x. destruct (_ =? _); [apply below_refl|]. do 4 (apply below_bind; [auto with below|intros ?]). destruct (_ <=? _); [|apply below_refl]. destruct malloced; [apply below_refl|].
    apply below_bind; [auto with below|intros ?; apply below_refl].
  - unfold mkdir. apply below_bind; [apply below_refl|]. intros x. destruct (_ =? _); [apply below_refl|]. do 4 (apply below_bind; [auto with below|intros ?]). destruct (_ <? _); [apply below_refl|]. apply below_bind; [auto with below|intros ?; apply below_refl].
  - unfold close. apply below_bind; [apply below_refl|]. intros [p|]; [|apply below_refl]. apply below_bind; [auto with below|intros ?; apply below_refl].
  - unfold closedir. apply below_bind; [apply below_refl|]. intros [p|]; [|apply below_refl]. apply below_bind; [auto with below|intros ?; apply below_refl].
  - apply Hw. auto with below.
  - apply Hw. auto with below.
  - unfold lseek. apply below_bind; [apply below_refl|]. intros [p|]; [|apply below_refl]. apply below_bind; [apply below_refl|]. intros f. cbv zeta. destruct (if whence =? SEEK_SET then _ else _) as [off|]; [|apply below_refl]. destruct (_ <? _); [apply below_refl|]. apply below_bind; [auto with below|intros ?; apply below_refl].
  - apply Hw. intros d. destruct (_ <? _); auto with below.
  - unfold fsync. apply below_bind; [apply below_refl|]. intros [p|]; [|apply below_refl]. apply below_bind; [auto with below|intros ?; apply below_refl].
  - unfold fcntl. apply below_bind; [apply below_refl|]. intros d. apply below_bind; [|intros ?; apply below_refl]. destruct d as [p|]; [|apply below_refl]. apply below_bind; [apply file_ioctl_below|intros ?; apply below_refl].
  - apply below_refl.
Qed.
Lemma posix_run_below cs : below (posix_run typ fops_at console cs) (posix_run typ fops_at' console cs).
Proof.
  induction cs as [|c cs IH]; [apply below_refl|]. cbn [posix_run]. apply below_bind; [apply posix_do_below|]. intros r. apply below_bind; [exact IH|intros; apply below_refl].
Qed.

(** C34: the descriptors of open, opendir, mkdir, close, closedir, read, write, lseek,
    ftruncate, fsync, fcntl and fstat.  Assumed of the routines of every file system
    ([fops_tame]): if one returns, it has left the tables alone, has changed no file but
    the one it was called for, and not that one's number and count, and a thread is
    running as before.  (devfs keeps this promise
    if the drivers do: Devfs.device_fops_tame.)  Then every
    sequence of calls that returns is answered as the table of descriptors says: open and
    opendir take the lowest free descriptor or fail and take none, mkdir takes none, close
    and closedir release one, and no other call changes a reference; a descriptor that is
    not in use gives -1; every descriptor in use is in 3 .. 18, and its file has the
    operations of a file system.  And a sequence that does not return has stopped in a
    routine of a file system: with each such routine failing instead, every sequence
    returns, and is answered so. *)
Theorem posix_descriptors cs s A : pinv able None s A -> bounded A -> posix_calls_ok console A cs ->
  (forall l s', posix_run typ fops_at console cs s = Ok l s' -> exists A', answered able console A cs l s' A') /\
  wp (posix_run typ fops_at' console cs) s (fun l s' => exists A', answered able console A cs l s' A').
Proof using ErrnoAble0 Htame.
  intros Hp Hb Hc. pose proof (posix_run_wp able typ fops_at' (fun a => ended_ok able (fops_at a) (Htame a)) console cs s A Hp Hb Hc) as H. split; [|exact H].
  intros l s' E. apply posix_run_below in E. unfold wp in H. by rewrite E in H.
Qed.
End tame_calls.

(** ** A sample: a file system in which every file can be opened, written and closed,
    mounted on the root *)

Definition ram_write (p : nat) (buf len : Z) : V (W := Z) Z := mod_fd p (fun d => set_fd_size (fd_size d + len) d) ;; ret len.
Definition ram_fops : dfs_file_ops Z :=
  mkFops (Some (fun _ => ret 0)) None None (Some (fun _ _ _ => ret (- EINVAL))) (Some ram_write) None (Some (fun _ off => ret off)) None.
Definition ram_fs : dfs_filesystem_ops Z := mkFsops [114; 97; 109] 0 0 (Some (fun _ _ _ => ret 0)) None None None None None None.
Definition sample_mounted : vfs Z := mkVfs sample_devices [Some 0%nat; None] [mkFs None (Some [47]) (Some 0%nat); cleared_fs] [] ∅ [47] true.
Definition sample_able (d : dst Z) : Prop := exists c th, caller (d_k d) c th.
Lemma ram_fops_ok : fops_ok sample_able ram_fops.
Proof.
  split; cbn; intros h *; try done; intros [= <-].
  all: try (intros s d Ha Ed Ho; kstep; by apply (file_step_refl _ _ d)).
  intros s d Ha Ed Ho. unfold ram_write. kstep. apply (wp_touch sample_able p s); [by apply (file_step_refl _ _ d)|done|]. intros s' Hs. by kstep.
Qed.
Lemma sample_pinv : pinv sample_able None sample_mounted ∅.
Proof.
  split.
  - split; cbn; [lia|by intros i p ?|by intros i j p ?|by intros p []].
  - intros fd c. rewrite lookup_empty. split; [done|]. by intros (i & p & d & _ & [? _] & _).
  - exists 1%nat, (sample_thread 10 RT_THREAD_RUNNING). exact sample_dev_caller.
  - done.
  - intros i m (f & o & Hf & Hp & Ho). destruct i as [|[|i]]; cbn in Hf; [|injection Hf as <-; done|done]. injection Hf as <-. injection Hp as <-. by left.
  - constructor; [lia|by apply Forall_nil].
Qed.
Definition sample_posix_calls : list posix_call := [POpen (mkGrants true (Some 7%nat) true true) [47; 97] 0; PWrite 3 0 5; PRead 9 0 1; PLseek 3 (-1) SEEK_END; PClose 3; PClose 3].
Example sample_posix_run : wp (posix_run (fun _ => ram_fs) (fun _ => ram_fops) 3 sample_posix_calls) sample_mounted (fun l s => l = [3; 5; -1; 4; 0; -1] /\ v_files s = ∅).
Proof. vm_compute. auto. Qed.
