(* ===== verification/Mount.v ===== *)
(** * Mounting (components/dfs/src/dfs_fs.c): dfs_register, dfs_mount and dfs_unmount

    The table of mounted file systems changes only when a call succeeds; a file system
    without a device that is mounted and unmounted again leaves it as it was. *)

From S2P Require Import Prelude Ffs KState Kservice Str Path Wf Inv Sched Object Timer Thread TimerRun Sleep Ipc Mutex Errno Beside WaitQueue Device Console Fd Vfs Posix.

(** An entry of the table is in use or cleared. *)
Definition slots_ok (l : list dfs_filesystem) : Prop := Forall (fun f => f = cleared_fs \/ exists dev m o, f = mkFs dev (Some m) (Some o)) l.

Lemma mount_scan_wp {W} path l : forall i fs (s : vfs W), slots_ok l ->
  wp (mount_scan path l i fs) s (fun r s' => s' = s /\
    if snd r then exists j dev o, l !! j = Some (mkFs dev (Some path) (Some o))
    else (forall j dev m o, l !! j = Some (mkFs dev (Some m) (Some o)) -> m <> path) /\
      match fs, fst r with
      | Some k, r => r = Some k
      | None, Some k => exists j, k = (i + j)%nat /\ l !! j = Some cleared_fs
      | None, None => cleared_fs ∉ l
      end).
Proof.
  induction l as [|f l IH]; intros i fs s Hl; cbn [mount_scan].
  - kstep. split; [done|]. cbn [snd fst]. split; [done|]. destruct fs; [done|]. apply not_elem_of_nil.
  - inversion Hl as [|? ? Hf Hl']; subst. destruct Hf as [->|(dev & m & o & ->)]; cbn [fs_ops fs_path cleared_fs].
    + rewrite bool_decide_eq_true_2 by done. eapply wp_mono; [by apply IH|]. intros [r []] s' [-> Hr]; cbn [snd fst] in *; (split; [done|]).
      * destruct Hr as (j & Hj). by exists (S j).
      * destruct Hr as [Hno Hr]. split; [intros [|j] ? ? ? Hj; [done|by eapply Hno]|]. destruct fs as [k|]; [done|]. rewrite Hr. exists 0%nat. split; [lia|done].
    + rewrite bool_decide_eq_false_2 by done. kstep. apply (wp_deref _ m); [done|]. destruct (decide (m = path)) as [->|Hn].
      * kstep. cbn [snd]. split; [done|]. by exists 0%nat, dev, o.
      * eapply wp_mono; [by apply IH|]. intros [r []] s' [-> Hr]; cbn [snd fst] in *; (split; [done|]).
        -- destruct Hr as (j & Hj). by exists (S j).
        -- destruct Hr as [Hno Hr]. split; [intros [|j] ? ? ? Hj; [injection Hj as <- <- <-; done|by eapply Hno]|]. destruct fs as [k|]; [done|]. destruct r as [k|]; [|by apply not_elem_of_cons]. destruct Hr as (j & -> & Hj). exists (S j). split; [lia|done].
Qed.

Lemma join_chars ps : Forall name_ok ps -> chars_ok (join ps).
Proof.
  assert (forall x, name_ok x -> chars_ok x) as Hx by (intros x Hx; eapply Forall_impl; [exact Hx|]; cbn; intros; lia).
  induction 1 as [|x ps Hn Hps IH]; [by apply Forall_nil|]. cbn [join]. destruct ps as [|y ps]; [by apply Hx|]. apply Forall_app_2; [by apply Hx|]. constructor; [lia|done].
Qed.
Lemma full_path_chars {W} (s : vfs W) malloced path full : chars_ok (v_wd s) -> chars_ok path -> full_path s malloced path = Some full -> chars_ok full.
Proof.
  intros Hw Hp. unfold full_path. destruct malloced; [|done]. destruct (path_names _) as [st|] eqn:E; [|done]. intros [= <-]. apply path_names_stack in E as (ps & Hps & Hst); [|by apply joined_chars]. unfold path_text. case_decide; [constructor; [lia|by apply Forall_nil]|]. apply join_chars, Forall_rev.
  assert (Forall name_ok ps) as Hn by (eapply Forall_impl; [exact Hps|]; by intros x [? _]). destruct Hst as [->| ->]; [done|]. apply Forall_app_2; [done|]. constructor; by apply Forall_nil.
Qed.

Section mount.
Context {W : Type} (able : dst W -> Prop) `{!ErrnoAble able}.
Context (typ : nat -> dfs_filesystem_ops W) (fops_at : Z -> dfs_file_ops W) (Hfops : forall a, fops_ok able (fops_at a)) (driver : nat -> rt_device_ops W).
Local Notation V := (@Fd.V W).
Implicit Types s : vfs W.

(** A routine of a file system that keeps tables and files. *)
Definition keeps_all {R} (h : V R) : Prop := forall s, able (v_dev s) -> wp h s (fun _ s' => able (v_dev s') /\ tables_kept s s' /\ v_files s' = v_files s).
Lemma keeps_errno e : keeps_all (vfs_set_errno e).
Proof using ErrnoAble0. intros s Ha. apply wp_zoom. eapply wp_mono; [by apply able_errno|]. by intros [] d' Hd. Qed.
Lemma keeps_fails e s (Q : Z -> vfs W -> Prop) : able (v_dev s) -> (forall s', able (v_dev s') -> tables_kept s s' -> v_files s' = v_files s -> Q (-1) s') -> wp (vfs_set_errno e ;; ret (-1)) s Q.
Proof using ErrnoAble0. intros Ha HQ. kstep. eapply wp_mono; [by apply keeps_errno|]. intros [] s' (H1 & H2 & H3). kstep. by apply HQ. Qed.
Lemma tables_kept_trans s s' s'' : tables_kept s s' -> tables_kept s' s'' -> tables_kept s s''.
Proof. intros (K1 & K2 & K3 & K4 & K5) (L1 & L2 & L3 & L4 & L5). split_and!; congruence. Qed.

(** The check that the path is a directory, with a file of its own. *)
Lemma mount_check_wp local d0 m2 strduped fullpath s (P : Z -> Prop) : able (v_dev s) -> mounts_ok s -> chars_ok (v_wd s) -> chars_ok fullpath -> v_files s !! local = None ->
  wp (dfs_file_open typ fops_at m2 strduped (Some local) fullpath (Z.lor O_RDONLY O_DIRECTORY)) (upd_fd local d0 s) (fun r _ => P r) ->
  wp (modify (fun s => set_v_files (<[local := d0]> (v_files s)) s) ;;
      r <- dfs_file_open typ fops_at m2 strduped (Some local) fullpath (Z.lor O_RDONLY O_DIRECTORY) ;;
      when (negb (r <? 0)) (dfs_file_close fops_at (Some local) ;; ret tt) ;;
      modify (fun s => set_v_files (delete local (v_files s)) s) ;;
      ret (negb (r <? 0))) s (fun b s' => (able (v_dev s') /\ tables_kept s s' /\ v_files s' = v_files s) /\ exists r, P r /\ b = negb (r <? 0)).
Proof using Hfops.
  intros Ha Hm Hw Hc Hl HP. kstep. kstep. kstep. eapply wp_mono; [apply wp_and; [exact HP|apply (file_open_wp able typ fops_at Hfops _ m2 strduped local d0); [done|apply lookup_insert_eq|by apply joined_chars|done]]|]. intros r s1 [Hr1 [Hs Hr]].
  assert (forall s2, file_step able local (upd_fd local d0 s) s2 -> able (v_dev s2) /\ tables_kept s (set_v_files (delete local (v_files s2)) s2) /\ delete local (v_files s2) = v_files s) as Hend.
  { intros s2 (Hk & Ha2 & d & d' & Ed & E & _). split; [done|]. split; [exact Hk|]. rewrite E. cbn. rewrite insert_insert_eq. by rewrite delete_insert_id. }
  kstep. kstep. destruct (Z.ltb_spec r 0) as [Hneg|H0]; cbn [negb].
  - kstep. kstep. kstep. kstep. split; [exact (Hend s1 Hs)|]. exists r. split; [done|]. lia.
  - destruct (Hr H0) as (d' & Ed' & Ho). kstep. eapply wp_mono; [apply (dfs_file_close_wp able fops_at Hfops local s1 d'); [apply Hs|done|done]|]. intros r' s2 Hs2. kstep. kstep. kstep. kstep. split; [apply (Hend s2); by eapply file_step_trans|]. exists r. split; [done|]. lia.
Qed.

(** What is the same after a call, whatever becomes of the table. *)
Definition rest_kept s s' : Prop := able (v_dev s') /\ v_types s' = v_types s /\ v_fds s' = v_fds s /\ v_wd s' = v_wd s /\ v_files s' = v_files s.
Lemma kept_rest s s' : able (v_dev s') -> tables_kept s s' -> v_files s' = v_files s -> rest_kept s s' /\ v_mounted s' = v_mounted s.
Proof. intros Ha (K1 & K2 & K3 & K4 & K5) Hf. by split_and!. Qed.

(** The file system is entered, and taken out again if its routine fails. *)
Lemma mount_at_wp i o full rwflag data h s : able (v_dev s) -> v_mounted s !! i = Some cleared_fs -> o_mount (typ o) = Some h -> keeps_all (h i rwflag data) ->
  wp (mount_at typ driver i o None full rwflag data) s (fun r s' => rest_kept s s' /\ (r = -1 /\ v_mounted s' = v_mounted s \/ r = 0 /\ v_mounted s' = <[i := mkFs None (Some full) (Some o)]> (v_mounted s))).
Proof.
  intros Ha Hi Hh Hk. unfold mount_at, put_fs. kstep. kstep. kstep. kstep. change (RT_EOK =? RT_EOK) with true. cbn [negb]. kstep. apply (wp_deref _ h); [done|]. kstep. eapply wp_mono; [by apply Hk|]. intros r s1 (H1 & (K1 & K2 & K3 & K4 & K5) & H3). cbn in K1, K2, K3, K4, K5, H3. destruct (r <? 0).
  - kstep. kstep. kstep. kstep. kstep. split; [by split_and!|]. left. split; [done|]. cbn. rewrite K2, list_insert_insert_eq. by apply list_insert_id.
  - kstep. split; [by split_and!|]. by right.
Qed.

Lemma dfs_mount_wp local d0 malloced m2 strduped path type rwflag data s : able (v_dev s) -> slots_ok (v_mounted s) -> mounts_ok s -> chars_ok (v_wd s) -> chars_ok path -> v_files s !! local = None ->
  (forall o h i, o_mount (typ o) = Some h -> keeps_all (h i rwflag data)) ->
  wp (dfs_mount typ fops_at driver local d0 malloced m2 strduped None path type rwflag data) s (fun r s' => rest_kept s s' /\
    (r = -1 /\ v_mounted s' = v_mounted s \/
     r = 0 /\ exists i o full, full_path s malloced path = Some full /\ find_type typ type (v_types s) = Some o /\ v_mounted s !! i = Some cleared_fs /\
       (forall j dev m o, v_mounted s !! j = Some (mkFs dev (Some m) (Some o)) -> m <> path) /\ v_mounted s' = <[i := mkFs None (Some full) (Some o)]> (v_mounted s))).
Proof using ErrnoAble0 Hfops.
  intros Ha Hsl Hm Hw Hp Hl Hmount. set (Post := fun (r : Z) s' => rest_kept s s' /\ _). assert (forall e s1, able (v_dev s1) -> tables_kept s s1 -> v_files s1 = v_files s -> wp (vfs_set_errno e ;; ret (-1)) s1 Post) as Hfail.
  { intros e s1 H1 H2 H3. apply keeps_fails; [done|]. intros s2 G1 G2 G3. destruct (kept_rest s s2 G1) as [R1 R2]; [by eapply tables_kept_trans|congruence|]. split; [done|by left]. }
  assert (tables_kept s s) as Hk0 by done. unfold dfs_mount. kstep. kstep. rewrite (bool_decide_eq_false_2 (is_Some None)) by (by intros [? [=]]). cbn [andb]. kstep. kstep. destruct (find_type typ type (v_types s)) as [o|] eqn:Eo; [|by apply Hfail].
  destruct (o_mount (typ o)) as [h|] eqn:Eh; [rewrite bool_decide_eq_false_2 by done|rewrite bool_decide_eq_true_2 by done; by apply Hfail]. kstep. apply wp_normalized. destruct (full_path s malloced path) as [full|] eqn:Ef; [|by apply Hfail].
  kstep. apply (wp_mono _ _ (fun _ s' => able (v_dev s') /\ tables_kept s s' /\ v_files s' = v_files s)).
  { match goal with |- wp (if ?b then _ else _) _ _ => destruct b end; [|by kstep]. assert (chars_ok full) as Hcf by (by apply (full_path_chars s malloced path)). eapply wp_mono; [apply (mount_check_wp local d0 m2 strduped full s (fun _ => True)); try done|by intros b s' [? _]].
    eapply wp_mono; [apply (file_open_wp able typ fops_at Hfops _ m2 strduped local d0); [done|apply lookup_insert_eq|by apply joined_chars|done]|done]. }
  intros there s1 (H1 & H2 & H3). destruct there; cbn [negb]; [|by apply Hfail]. destruct H2 as (K1 & K2 & K3 & K4 & K5). kstep. kstep. rewrite K2. kstep. eapply wp_mono; [by apply (mount_scan_wp path (v_mounted s) 0 None s1)|]. intros [fs mounted] s1' [-> Hr]. cbn [fst snd] in Hr. destruct mounted; [by apply Hfail|]. destruct Hr as [Hno Hr]. destruct fs as [i|]; [|by apply Hfail].
  destruct Hr as (j & -> & Hj). eapply wp_mono; [apply (mount_at_wp j o full rwflag data h s1); [done|by rewrite K2|done|by apply (Hmount o)]|]. intros r s2 [(R1 & R2 & R3 & R4 & R5) Hr]. split; [split_and!; congruence|]. rewrite K2 in Hr. destruct Hr as [[-> ->]|[-> ->]]; [by left|right]. split; [done|]. by exists j, o, full.
Qed.

Lemma unmount_scan_ok full l : forall k i, unmount_scan full l k = Some i -> exists j f, i = (k + j)%nat /\ l !! j = Some f /\ fs_path f = Some full.
Proof.
  induction l as [|f l IH]; intros k i; cbn [unmount_scan]; [done|]. case_decide as E; [intros [= <-]; exists 0%nat, f; split; [lia|done]|]. intros H. destruct (IH _ _ H) as (j & g & -> & Hj & Hg). exists (S j), g. split; [lia|done].
Qed.
Lemma unmount_scan_some full l j f k : l !! j = Some f -> fs_path f = Some full -> (forall i g, (i < j)%nat -> l !! i = Some g -> fs_path g <> Some full) -> unmount_scan full l k = Some (k + j)%nat.
Proof.
  revert j k. induction l as [|g l IH]; intros j k Hj Hf Hn; [done|]. cbn [unmount_scan]. destruct j as [|j]; [injection Hj as ->; rewrite decide_True by done; f_equal; lia|]. rewrite decide_False by (apply (Hn 0%nat); [lia|done]). rewrite (IH j (S k)); [f_equal; lia|done|done|]. intros i g' Hi Hg. by apply (Hn (S i)); [lia|].
Qed.
Lemma dfs_unmount_wp malloced path i f full o h (P : Z -> Prop) s : able (v_dev s) -> full_path s malloced path = Some full -> unmount_scan full (v_mounted s) 0 = Some i -> v_mounted s !! i = Some f -> fs_ops f = Some o -> fs_dev_id f = None -> o_unmount (typ o) = Some h ->
  wp (h i) s (fun r s' => P r /\ able (v_dev s') /\ tables_kept s s' /\ v_files s' = v_files s) ->
  wp (dfs_unmount typ driver malloced path) s (fun r s' => rest_kept s s' /\ (r = -1 /\ (exists r0, P r0 /\ r0 < 0) /\ v_mounted s' = v_mounted s \/ r = 0 /\ v_mounted s' = <[i := cleared_fs]> (v_mounted s))).
Proof.
  intros Ha Ef Ei Hi Ho Hd Hh Hk. unfold dfs_unmount. kstep. apply wp_normalized. rewrite Ef. kstep. kstep. rewrite Ei. kstep. apply (wp_get_ops _ _ _ f o); [done|done|]. rewrite Hh. kstep. eapply wp_mono; [exact Hk|]. intros r s1 (HP & H1 & H2 & H3). destruct (kept_rest s s1 H1 H2 H3) as [R Rm]. destruct (Z.ltb_spec r 0); [kstep; split; [done|left; eauto]|]. kstep. apply (wp_deref _ f); [by rewrite Rm|]. rewrite Hd. kstep. kstep. kstep. unfold put_fs. kstep. kstep. split; [done|]. right. split; [done|]. cbn. by rewrite Rm.
Qed.

(** Dfs_mount of a file system without a device.  The call returns; it fails, and then
    the table of mounted file systems is as before, or it succeeds, and then a free
    entry of the table has the file system, of the registered type of that name, on the
    full path.  Descriptors, files and types are the same. *)
Theorem dfs_mount_correct local d0 malloced m2 strduped path type rwflag data s : able (v_dev s) -> slots_ok (v_mounted s) -> mounts_ok s -> chars_ok (v_wd s) -> chars_ok path -> v_files s !! local = None ->
  (forall o h i, o_mount (typ o) = Some h -> keeps_all (h i rwflag data)) ->
  wp (dfs_mount typ fops_at driver local d0 malloced m2 strduped None path type rwflag data) s (fun r s' => rest_kept s s' /\ slots_ok (v_mounted s') /\
    (r = -1 /\ v_mounted s' = v_mounted s \/
     r = 0 /\ exists i o full, full_path s malloced path = Some full /\ find_type typ type (v_types s) = Some o /\ v_mounted s !! i = Some cleared_fs /\ v_mounted s' = <[i := mkFs None (Some full) (Some o)]> (v_mounted s))).
Proof using ErrnoAble0 Hfops.
  intros Ha Hsl Hm Hw Hp Hl Hmount. eapply wp_mono; [by apply dfs_mount_wp|]. intros r s' (R & Hr). split; [done|]. destruct Hr as [[-> ->]|(-> & i & o & full & E1 & E2 & E3 & _ & ->)]; [by split; [|left]|]. split; [|right; split; [done|]; by exists i, o, full]. apply Forall_insert; [done|]. right. eauto.
Qed.

(** The path is there to be mounted on: "/" and "/dev" always are; any other path
    has to open as a directory and to close, and nothing else has changed then. *)
Definition mount_point local d0 m2 strduped full s : Prop :=
  full = [47] \/ full = [47; 100; 101; 118] \/
  wp (r <- dfs_file_open typ fops_at m2 strduped (Some local) full (Z.lor O_RDONLY O_DIRECTORY) ;; dfs_file_close fops_at (Some local) ;; ret r) (upd_fd local d0 s)
    (fun r s' => 0 <= r /\ able (v_dev s') /\ tables_kept s s' /\ delete local (v_files s') = v_files s).
(** So it is where the routines of the file systems return ([fops_ok]) and opening succeeds. *)
Lemma opens_mount_point local d0 m2 strduped full s : able (v_dev s) -> mounts_ok s -> chars_ok (v_wd s) -> chars_ok full -> v_files s !! local = None ->
  wp (dfs_file_open typ fops_at m2 strduped (Some local) full (Z.lor O_RDONLY O_DIRECTORY)) (upd_fd local d0 s) (fun r _ => 0 <= r) -> mount_point local d0 m2 strduped full s.
Proof using Hfops.
  intros Ha Hm Hw Hc Hl Hr0. right. right. kstep. eapply wp_mono; [apply wp_and; [exact Hr0|apply (file_open_wp able typ fops_at Hfops _ m2 strduped local d0); [done|apply lookup_insert_eq|by apply joined_chars|done]]|].
  intros r s1 [H0 [Hs Hr]]. destruct (Hr H0) as (d' & Ed' & Ho). kstep. eapply wp_mono; [apply (dfs_file_close_wp able fops_at Hfops local s1 d'); [apply Hs|done|done]|]. intros r' s2 Hs2. kstep. split; [done|].
  destruct (file_step_trans _ _ _ _ _ Hs Hs2) as (Hk & Ha2 & d & e & Ed & E & _). split; [done|]. split; [exact Hk|]. rewrite E. cbn. rewrite insert_insert_eq. by rewrite delete_insert_id.
Qed.
(** A mount or unmount routine that succeeds and keeps tables and files. *)
Definition succeeds (h : V Z) : Prop := forall s, able (v_dev s) -> wp h s (fun r s' => 0 <= r /\ able (v_dev s') /\ tables_kept s s' /\ v_files s' = v_files s).

Lemma mount_at_ok_wp i o full rwflag data h s : able (v_dev s) -> o_mount (typ o) = Some h -> succeeds (h i rwflag data) ->
  wp (mount_at typ driver i o None full rwflag data) s (fun r s' => r = 0 /\ rest_kept s s' /\ v_mounted s' = <[i := mkFs None (Some full) (Some o)]> (v_mounted s)).
Proof.
  intros Ha Hh Hk. unfold mount_at, put_fs. kstep. kstep. kstep. kstep. change (RT_EOK =? RT_EOK) with true. cbn [negb]. kstep. apply (wp_deref _ h); [done|]. kstep. eapply wp_mono; [by apply Hk|].
  intros r s1 (H0 & H1 & (K1 & K2 & K3 & K4 & K5) & H3). cbn in K1, K2, K3, K4, K5, H3. rewrite (proj2 (Z.ltb_ge _ _)) by lia. kstep. split; [done|]. by split; [split_and!|].
Qed.
(** What dfs_mount needs to succeed. *)
Lemma dfs_mount_ok_wp local d0 m2 strduped path type rwflag data o hm full s : able (v_dev s) -> slots_ok (v_mounted s) -> mounts_ok s -> chars_ok (v_wd s) -> chars_ok path -> v_files s !! local = None ->
  find_type typ type (v_types s) = Some o -> o_mount (typ o) = Some hm -> (forall i, succeeds (hm i rwflag data)) ->
  full_path s true path = Some full -> mount_point local d0 m2 strduped full s -> cleared_fs ∈ v_mounted s ->
  (forall f, f ∈ v_mounted s -> fs_path f <> Some path) ->
  wp (dfs_mount typ fops_at driver local d0 true m2 strduped None path type rwflag data) s (fun r s' => r = 0 /\ rest_kept s s' /\
    exists i, v_mounted s !! i = Some cleared_fs /\ v_mounted s' = <[i := mkFs None (Some full) (Some o)]> (v_mounted s)).
Proof.
  intros Ha Hsl Hm Hw Hp Hl Eo Eh Hok Ef Hpt Hfree Hno. unfold dfs_mount. kstep. kstep. rewrite (bool_decide_eq_false_2 (is_Some None)) by (by intros [? [=]]). cbn [andb]. kstep. kstep. rewrite Eo, Eh.
  rewrite bool_decide_eq_false_2 by done. kstep. apply wp_normalized. rewrite Ef. kstep. apply (wp_mono _ _ (fun b s' => (able (v_dev s') /\ tables_kept s s' /\ v_files s' = v_files s) /\ b = true)).
  { case_bool_decide as E1; [case_bool_decide as E2|]; cbn [andb]; [|by kstep..]. destruct Hpt as [?|[?|Hpt]]; [done|done|]. kstep. kstep. kstep.
    apply wp_unbind in Hpt. eapply wp_mono; [exact Hpt|]. intros r s1 H1. cbv beta in H1. apply wp_unbind in H1. assert (0 <= r) as H0 by (destruct (wp_run _ _ _ H1) as (x & s2 & _ & H2); by apply H2). rewrite (proj2 (Z.ltb_ge _ _)) by done. cbn [negb]. kstep. kstep.
    kstep. eapply wp_mono; [exact H1|]. intros x s2 (_ & G1 & G2 & G3). kstep. kstep. kstep. kstep. by split. }
  intros there s1 [(H1 & (K1 & K2 & K3 & K4 & K5) & H3) ->]. cbn [negb]. kstep. kstep. rewrite K2. kstep. eapply wp_mono; [by apply (mount_scan_wp path (v_mounted s) 0 None s1)|].
  intros [fs mounted] s1' [-> Hr]. cbn [fst snd] in Hr. destruct mounted. { destruct Hr as (j & dev & o' & Hj). by destruct (Hno _ (list_elem_of_lookup_2 _ _ _ Hj)). }
  destruct Hr as [_ Hr]. destruct fs as [i|]; [|done]. destruct Hr as (j & -> & Hj). eapply wp_mono; [by apply (mount_at_ok_wp j o full rwflag data hm s1)|].
  intros r s2 (-> & (R1 & R2 & R3 & R4 & R5) & Hr). split; [done|]. split; [split_and!; congruence|]. rewrite K2 in Hr. by exists j.
Qed.
Lemma dfs_unmount_none_wp path i f full o s : able (v_dev s) -> full_path s true path = Some full -> unmount_scan full (v_mounted s) 0 = Some i -> v_mounted s !! i = Some f -> fs_ops f = Some o -> o_unmount (typ o) = None ->
  wp (dfs_unmount typ driver true path) s (fun r s' => r = -1 /\ s' = s).
Proof.
  intros Ha Ef Ei Hi Ho Hh. unfold dfs_unmount. kstep. apply wp_normalized. rewrite Ef. kstep. kstep. rewrite Ei. kstep. apply (wp_get_ops _ _ _ f o); [done|done|]. rewrite Hh. by kstep.
Qed.

(** C37: mounting and unmounting a file system without a device.  dfs_mount
    succeeds when the type is registered and has a mount routine that succeeds,
    there is memory for the path, the path is "/", "/dev" or opens as a
    directory and closes again ([mount_point]), nothing is mounted there and the table has a free entry; then a
    free entry has the file system on the full path and the rest of the table,
    the types, the files and the descriptors are as before.  After that
    dfs_unmount of the same path succeeds and the table is as it was before the
    mount, if the type has an unmount routine and that succeeds; for a type
    without one, such as devfs, it fails and changes nothing. *)
Theorem mount_unmount_roundtrip local d0 m2 strduped path type rwflag data o hm full s : able (v_dev s) -> slots_ok (v_mounted s) -> mounts_ok s -> chars_ok (v_wd s) -> chars_ok path -> v_files s !! local = None ->
  find_type typ type (v_types s) = Some o -> o_mount (typ o) = Some hm -> (forall i, succeeds (hm i rwflag data)) ->
  full_path s true path = Some full -> mount_point local d0 m2 strduped full s -> cleared_fs ∈ v_mounted s ->
  (forall f, f ∈ v_mounted s -> fs_path f <> Some path /\ fs_path f <> Some full) ->
  wp (dfs_mount typ fops_at driver local d0 true m2 strduped None path type rwflag data) s (fun r s1 => r = 0 /\ rest_kept s s1 /\
    exists i, v_mounted s !! i = Some cleared_fs /\ v_mounted s1 = <[i := mkFs None (Some full) (Some o)]> (v_mounted s) /\
      match o_unmount (typ o) with
      | Some hu => succeeds (hu i) -> wp (dfs_unmount typ driver true path) s1 (fun r s2 => r = 0 /\ rest_kept s s2 /\ v_mounted s2 = v_mounted s)
      | None => wp (dfs_unmount typ driver true path) s1 (fun r s2 => r = -1 /\ s2 = s1)
      end).
Proof.
  intros Ha Hsl Hm Hw Hp Hl Eo Eh Hok Ef Hpt Hfree Hno. eapply wp_mono; [apply (dfs_mount_ok_wp local d0 m2 strduped path type rwflag data o hm full s); try done; intros f Hf; by apply Hno|].
  intros r s1 (-> & R & i & Hi & Em). split; [done|]. split; [done|]. exists i. split; [done|]. split; [done|]. destruct R as (R1 & R2 & R3 & R4 & R5). apply lookup_lt_Some in Hi as Hlt.
  assert (unmount_scan full (v_mounted s1) 0 = Some i) as Escan.
  { rewrite Em. apply (unmount_scan_some full _ i (mkFs None (Some full) (Some o)) 0); [by apply list_lookup_insert_eq|done|]. intros j g Hj. rewrite list_lookup_insert_ne by lia. intros Hg. apply Hno. by eapply list_elem_of_lookup_2. }
  assert (v_mounted s1 !! i = Some (mkFs None (Some full) (Some o))) as Ei by (rewrite Em; by apply list_lookup_insert_eq).
  assert (full_path s1 true path = Some full) as E1' by (unfold full_path in *; by rewrite R4). destruct (o_unmount (typ o)) as [hu|] eqn:Eu.
  - intros Hu. eapply wp_mono; [apply (dfs_unmount_wp true path i (mkFs None (Some full) (Some o)) full o hu (fun r => 0 <= r) s1); try done; by apply Hu|].
    intros r s2 [(T1 & T2 & T3 & T4 & T5) Hr]. destruct Hr as [(_ & (r0 & ? & ?) & _)|[-> Er]]; [lia|]. split; [done|]. split; [split_and!; congruence|]. rewrite Er, Em, list_insert_insert_eq. by apply list_insert_id.
  - by apply (dfs_unmount_none_wp path i (mkFs None (Some full) (Some o)) full o s1).
Qed.

(** ** Registration *)

Lemma types_scan_ok name l : forall k empty, let '(e, found) := types_scan typ name l k empty in
  if found then exists o, find_type typ name l = Some o
  else find_type typ name l = None /\
    match empty with
    | Some _ => e = empty
    | None => match e with Some i => exists j, i = (k + j)%nat /\ l !! j = Some None | None => None ∉ l end
    end.
Proof.
  induction l as [|[o|] l IH]; intros k empty; cbn [types_scan find_type].
  - split; [done|]. destruct empty; [done|]. apply not_elem_of_nil.
  - destruct (decide (o_name (typ o) = name)); [by exists o|]. specialize (IH (S k) empty). destruct (types_scan typ name l (S k) empty) as [e []]; [done|]. destruct IH as [H1 H2]. split; [done|]. destruct empty; [done|]. destruct e as [i|]; [|by apply not_elem_of_cons]. destruct H2 as (j & -> & Hj). exists (S j). split; [lia|done].
  - specialize (IH (S k) (match empty with None => Some k | Some _ => empty end)). destruct (types_scan typ name l (S k) _) as [e []]; [done|]. destruct IH as [H1 H2]. split; [done|]. destruct empty; [done|]. subst e. exists 0%nat. split; [lia|done].
Qed.
Lemma find_type_insert name l i o : find_type typ name l = None -> l !! i = Some None -> o_name (typ o) = name -> find_type typ name (<[i := Some o]> l) = Some o.
Proof.
  revert i. induction l as [|[o'|] l IH]; intros i Hn Hi Ho; [done| |]; destruct i as [|i]; cbn in *; [done| | |].
  - destruct (decide (o_name (typ o') = name)); [done|]. by apply IH.
  - by rewrite decide_True.
  - by apply IH.
Qed.
(** Dfs_register.  A type whose name is registered, and any type when the table is
    full, is refused and the table is the same; otherwise the type is entered in a
    free place and found under its name. *)
Theorem dfs_register_correct ops s : able (v_dev s) ->
  wp (dfs_register typ ops) s (fun r s' => able (v_dev s') /\ v_mounted s' = v_mounted s /\ v_fds s' = v_fds s /\ v_files s' = v_files s /\
    if decide (find_type typ (o_name (typ ops)) (v_types s) = None /\ None ∈ v_types s)
    then r = 0 /\ find_type typ (o_name (typ ops)) (v_types s') = Some ops /\ exists i, v_types s !! i = Some None /\ v_types s' = <[i := Some ops]> (v_types s)
    else r = -1 /\ v_types s' = v_types s).
Proof using ErrnoAble0.
  intros Ha. destruct (decide (find_type typ (o_name (typ ops)) (v_types s) = None /\ None ∈ v_types s)) as [[Hd1 Hd2]|Hd]; unfold dfs_register; kstep; kstep; pose proof (types_scan_ok (o_name (typ ops)) (v_types s) 0 None) as Hsc; destruct (types_scan typ _ _ 0 None) as [e found].
  - destruct found; [destruct Hsc; congruence|]. destruct Hsc as [_ He]. kstep. kstep. kstep. cbv zeta. destruct e as [i|]; [|done]. destruct He as (j & -> & Hj). change (RT_EOK =? RT_EOK) with true. cbv iota. kstep. kstep. kstep. split_and!; try done; [by apply find_type_insert|by exists j].
  - destruct found.
    + kstep. kstep. cbv iota. eapply wp_mono; [by apply keeps_errno|]. intros [] s1 (H1 & (K1 & K2 & K3 & K4 & K5) & H3). cbv zeta. destruct e as [i|].
      * change (-1 =? RT_EOK) with false. cbv iota. kstep. by split_and!.
      * apply keeps_fails; [done|]. intros s2 G1 (L1 & L2 & L3 & L4 & L5) G3. split_and!; try done; congruence.
    + destruct Hsc as [Hn He]. kstep. kstep. kstep. cbv zeta. destruct e as [i|].
      * destruct He as (j & -> & Hj). destruct Hd. split; [done|eapply list_elem_of_lookup_2, Hj].
      * apply keeps_fails; [done|]. intros s2 G1 (L1 & L2 & L3 & L4 & L5) G3. by split_and!.
Qed.
End mount.

(** ** Witnesses and samples *)

Definition ram2_fs : dfs_filesystem_ops Z := mkFsops [114; 97; 109] 0 0 (Some (fun _ _ _ => ret 0)) (Some (fun _ => ret 0)) None None None None None.
Definition no_driver : nat -> rt_device_ops Z := fun _ => sample_driver.
Lemma ret_keeps (r : Z) : keeps_all sample_able (ret r).
Proof. intros s Ha. by kstep. Qed.
Lemma ram2_mount_keeps h i rw data : o_mount ram2_fs = Some h -> keeps_all sample_able (h i rw data).
Proof. intros [= <-]. apply ret_keeps. Qed.
Lemma sample_slots : slots_ok (v_mounted sample_mounted).
Proof. constructor; [right; eauto|]. constructor; [by left|by apply Forall_nil]. Qed.
(** "/b" is mounted below the root, and unmounted again. *)
Lemma dfs_mount_correct_witness : wp (dfs_mount (fun _ => ram2_fs) (fun _ => ram_fops) no_driver 9 cleared_fd true true true None [47; 98] [114; 97; 109] 0 0) sample_mounted
  (fun r s' => (r = -1 \/ r = 0) /\ slots_ok (v_mounted s')).
Proof.
  eapply wp_mono; [apply (dfs_mount_correct sample_able (fun _ => ram2_fs) (fun _ => ram_fops) (fun _ => ram_fops_ok) no_driver 9 cleared_fd true true true [47; 98] [114; 97; 109] 0 0 sample_mounted (pi_able _ _ _ _ sample_pinv) sample_slots (pi_mounts _ _ _ _ sample_pinv) (pi_wd _ _ _ _ sample_pinv) ltac:(repeat (constructor; [lia|]); by apply Forall_nil) eq_refl (fun o h i H => ram2_mount_keeps h i 0 0 H))|].
  intros r s' (_ & H & [[-> _]|[-> _]]); auto.
Defined.
Example sample_mount : wp (dfs_mount (fun _ => ram2_fs) (fun _ => ram_fops) no_driver 9 cleared_fd true true true None [47; 98] [114; 97; 109] 0 0) sample_mounted (fun r s' => r = 0 /\ v_mounted s' = [mkFs None (Some [47]) (Some 0%nat); mkFs None (Some [47; 98]) (Some 0%nat)]).
Proof. vm_compute. auto. Qed.
Lemma ram2_succeeds : succeeds sample_able (ret 0).
Proof. intros s Ha. by kstep. Qed.
(** "/b" opens as a directory of the file system on the root. *)
Lemma mount_unmount_roundtrip_witness : wp (dfs_mount (fun _ => ram2_fs) (fun _ => ram_fops) no_driver 9 cleared_fd true true true None [47; 98] [114; 97; 109] 0 0) sample_mounted
  (fun r s1 => r = 0 /\ v_mounted s1 <> v_mounted sample_mounted /\ wp (dfs_unmount (fun _ => ram2_fs) no_driver true [47; 98]) s1 (fun r s2 => r = 0 /\ v_mounted s2 = v_mounted sample_mounted)).
Proof.
  eapply wp_mono; [apply (mount_unmount_roundtrip sample_able (fun _ => ram2_fs) (fun _ => ram_fops) no_driver 9 cleared_fd true true [47; 98] [114; 97; 109] 0 0 0 (fun _ _ _ => ret 0) [47; 98] sample_mounted
    (pi_able _ _ _ _ sample_pinv) sample_slots (pi_mounts _ _ _ _ sample_pinv) (pi_wd _ _ _ _ sample_pinv) ltac:(repeat (constructor; [lia|]); by apply Forall_nil) eq_refl eq_refl eq_refl (fun _ => ram2_succeeds) eq_refl)|].
  - apply (opens_mount_point sample_able (fun _ => ram2_fs) (fun _ => ram_fops) (fun _ => ram_fops_ok)); [apply sample_pinv|apply sample_pinv|apply sample_pinv|repeat (constructor; [lia|]); by apply Forall_nil|done|vm_compute; discriminate].
  - right. left.
  - intros f Hf. cbn in Hf. rewrite !elem_of_cons, elem_of_nil in Hf. destruct Hf as [->|[->|[]]]; done.
  - intros r s1 (-> & _ & i & Hi & Em & Hu). split; [done|]. split.
    + rewrite Em. intros E. apply (f_equal (fun l => l !! i)) in E. rewrite list_lookup_insert_eq in E by (by eapply lookup_lt_Some). rewrite Hi in E. done.
    + eapply wp_mono; [apply Hu, ram2_succeeds|]. by intros r s2 (-> & _ & ?).
Defined.
Lemma dfs_register_correct_witness : wp (dfs_register (fun _ => ram_fs) 1) sample_mounted (fun r s' => r = -1 /\ v_types s' = v_types sample_mounted).
Proof.
  eapply wp_mono; [apply (dfs_register_correct sample_able (fun _ => ram_fs) 1 sample_mounted (pi_able _ _ _ _ sample_pinv))|]. intros r s' (_ & _ & _ & _ & H). rewrite decide_False in H by (by intros [? _]). exact H.
Defined.

(** The path of a mount is compared as it was given.  With a file system on "/", a second
    one can be mounted on "//", which is the same path. *)
Theorem mounted_twice : wp (dfs_mount (fun _ => ram2_fs) (fun _ => ram_fops) no_driver 9 cleared_fd true true true None [47; 47] [114; 97; 109] 0 0) sample_mounted
  (fun r s' => r = 0 /\ v_mounted s' = [mkFs None (Some [47]) (Some 0%nat); mkFs None (Some [47]) (Some 0%nat)]).
Proof. vm_compute. auto. Qed.

Definition full_fs : dfs_filesystem_ops Z := mkFsops [102] DFS_FS_FLAG_FULLPATH 0 (Some (fun _ _ _ => ret 0)) None None None (Some (fun _ _ => ret 0)) None None.
Definition sample_full : vfs Z := mkVfs sample_devices [Some 0%nat; None] [mkFs None (Some [47; 98]) (Some 0%nat); cleared_fs] [] ∅ [47] true.
(** A file of a file system that gets full paths, mounted below the root, is not found open:
    its path is compared with the part below the mount point.  The file is removed while
    it is open. *)
Theorem open_file_unlinked : wp (r <- open (fun _ => full_fs) (fun _ => ram_fops) 3 (mkGrants true (Some 7%nat) true true) [47; 98; 47; 99] 0 ;; u <- unlink (fun _ => full_fs) true true [47; 98; 47; 99] ;; ret (r, u)) sample_full
  (fun r s' => r = (3, 0) /\ (fd_path <$> v_files s' !! 7%nat) = Some (Some [47; 98; 47; 99])).
Proof. vm_compute. auto. Qed.

Lemma dfs_filesystem_lookup_correct_witness : wp (dfs_filesystem_lookup [47; 97]) sample_mounted (fun r s' => s' = sample_mounted).
Proof. eapply wp_mono; [apply (dfs_filesystem_lookup_correct sample_mounted [47; 97] (pi_mounts _ _ _ _ sample_pinv))|]. by intros r s' [? _]. Defined.
(** The file at 7 is opened as "/a" on the root. *)
Definition sample_new_file : vfs Z := set_v_files {[7%nat := cleared_fd]} sample_mounted.
Lemma sample_best : best (v_mounted sample_new_file) [47; 97] 0 [47].
Proof.
  split; [by exists (mkFs None (Some [47]) (Some 0%nat)), 0%nat|]. split; [done|]. intros j m (f & o & Hj & Hp & _) _. destruct j as [|[|j]]; cbn in Hj; [injection Hj as <-; injection Hp as <-; right; cbn; lia|injection Hj as <-; done|done].
Qed.
Lemma dfs_file_open_correct_witness : exists s', dfs_file_open (fun _ => ram_fs) (fun _ => ram_fops) true true (Some 7%nat) [97] 0 sample_new_file = Ok 0 s' /\ (fd_path <$> v_files s' !! 7%nat) = Some (Some [47; 97]).
Proof.
  eexists. split; [|]. 1: exact (proj1 (dfs_file_open_correct (fun _ => ram_fs) (fun _ => ram_fops) sample_new_file true 7 cleared_fd [97] 0 [47; 97] 0 [47] (mkFs None (Some [47]) (Some 0%nat)) 0 (fun _ => ret 0) 0 (opening 0 [47] ram_fs [47; 97] true 0 cleared_fd) _
    (lookup_singleton_eq _ _) ltac:(repeat (constructor; [lia|]); by apply Forall_nil) (pi_mounts _ _ _ _ sample_pinv) eq_refl sample_best eq_refl eq_refl eq_refl eq_refl (lookup_insert_eq _ _ _))).
  done.
Defined.
Lemma rename_unmounted_undefined_witness : dfs_file_rename (fun _ => ram_fs) true true [47; 97] [47; 98] sample_vfs = UB.
Proof. apply (rename_unmounted_undefined (fun _ => ram_fs) sample_vfs [47; 97] [47; 98] [47; 97] [47; 98] eq_refl eq_refl). by intros i m (f & o & Hi & _). Defined.
