(* ===== verification/Devfs.v ===== *)
(** * Devices as files (components/dfs/filesystems/devfs/devfs.c)

    The file system mounted on "/dev": its files are the registered devices, its only
    directory lists them.  It is one of the file systems Vfs.v takes as an argument,
    and a client of the device layer (Device.v).  It keeps the promise Posix.v asks of a
    file system ([device_fops_tame]). *)

From S2P Require Import Prelude Ffs KState Kservice Str Path Wf Inv Sched Object Timer Thread TimerRun Sleep Ipc Mutex Errno Beside WaitQueue Device Console Fd Vfs Posix.

Definition RT_Device_Class_Char : Z := 0.
Definition RT_Device_Class_Block : Z := 1.
Definition RT_Device_Class_Pipe : Z := 15.
Definition S_IFCHR : Z := 0x2000.
Definition S_IFBLK : Z := 0x6000.
Definition S_IFIFO : Z := 0x1000.
Definition DT_REG : Z := 1.
Definition SIZEOF_DIRENT : Z := 260.

Section devfs.
Context {W : Type}.
Local Notation V := (@Fd.V W).
Context (fops_at : Z -> dfs_file_ops W) (driver : nat -> rt_device_ops W).

Definition dfs_device_fs_mount (fs : nat) (rwflag data : Z) : V Z := ret RT_EOK.

(** (rt_device_t)file->data *)
Definition file_device (p : nat) : V nat :=
  d <- get_fd p ;;
  RT_ASSERT (match fd_data d with DNull => false | _ => true end) ;;
  deref (fun _ => match fd_data d with DDev n => Some n | _ => None end).

(** [local]: the address of the variable dfs_file_ftruncate passes. *)
Definition dfs_device_fs_ioctl (local : Z) (p : nat) (cmd : Z) (args : ioctl_arg) : V Z :=
  n <- file_device p ;;
  on_dev (rt_device_control (driver n) n cmd (match args with AVal v => v | ARef _ => local end)).
Definition dfs_device_fs_read (p : nat) (buf count : Z) : V Z :=
  n <- file_device p ;;
  d <- get_fd p ;;
  result <- on_dev (rt_device_read (driver n) n (fd_pos d) buf count) ;;
  let result := i32 result in
  mod_fd p (fun d => set_fd_pos (i32 (fd_pos d + result)) d) ;;
  ret result.
Definition dfs_device_fs_write (p : nat) (buf count : Z) : V Z :=
  n <- file_device p ;;
  d <- get_fd p ;;
  result <- on_dev (rt_device_write (driver n) n (fd_pos d) buf count) ;;
  let result := i32 result in
  mod_fd p (fun d => set_fd_pos (i32 (fd_pos d + result)) d) ;;
  ret result.

(** rt_free of what is not a list of devices is undefined. *)
Definition dfs_device_fs_close (p : nat) : V Z :=
  d <- get_fd p ;;
  if fd_type d =? FT_DIRECTORY then
    RT_ASSERT (match fd_data d with DNull => false | _ => true end) ;;
    valid (match fd_data d with DDir _ _ => true | _ => false end) ;;
    ret RT_EOK
  else
    n <- file_device p ;;
    result <- on_dev (rt_device_close (driver n) n) ;;
    if result =? RT_EOK then mod_fd p (set_fd_data DNull) ;; ret RT_EOK else ret (- EIO).

(** The devices in the order of the registry. *)
Definition list_devices : D (W := W) (list oid) :=
  in_dk (
    rt_enter_critical ;;
    RT_ASSERT (bool_decide (is_Some (rt_object_get_information RT_Object_Class_Device))) ;;
    l <- gets (fun s => object_list s RT_Object_Class_Device) ;;
    rt_exit_critical ;;
    ret l).
(** The device of the file is opened: with its own operations, or through the device layer. *)
Definition open_device (p n : nat) : V Z :=
  dev <- on_dev (get_dev n) ;;
  match dev_fops dev with
  | Some a =>
      mod_fd p (set_fd_fops (Some a)) ;;
      mod_fd p (set_fd_data (DDev n)) ;;
      match f_open (fops_at a) with
      | Some open =>
          result <- open p ;;
          if succeeded result then ret 0 else mod_fd p (set_fd_data DNull) ;; ret (- EIO)
      | None => mod_fd p (set_fd_data DNull) ;; ret (- EIO)
      end
  | None =>
      result <- on_dev (rt_device_open (driver n) n RT_DEVICE_OFLAG_RDWR) ;;
      if succeeded result then mod_fd p (set_fd_data (DDev n)) ;; ret RT_EOK
      else mod_fd p (set_fd_data DNull) ;; ret (- EIO)
  end.
(** [malloced]: whether there is memory for the list of devices. *)
Definition dfs_device_fs_open (malloced : bool) (p : nat) : V Z :=
  d <- get_fd p ;;
  path <- deref (fun _ => fd_path d) ;;
  if bool_decide (path = [47]) && negb (Z.land (fd_flags d) O_DIRECTORY =? 0) then
    l <- on_dev list_devices ;;
    mod_fd p (set_fd_data (if malloced then DDir l 0 else DNull)) ;;
    ret RT_EOK
  else
    name <- deref (fun _ => match path with [] => None | _ :: name => Some name end) ;;
    device <- on_dev (rt_device_find (cstring name)) ;;
    match device_of device with
    | None => ret (- ENODEV)
    | Some n => open_device p n
    end.

Definition dfs_device_fs_stat (fs : nat) (path : list Z) (st : stat_buf) : V (Z * stat_buf) :=
  if decide (path = [47]) then ret (RT_EOK, mkStat 0 (Z.lor S_RW (Z.lor S_IFDIR S_X)) 0 0)
  else
    name <- deref (fun _ => match path with [] => None | _ :: name => Some name end) ;;
    device <- on_dev (rt_device_find (cstring name)) ;;
    match device_of device with
    | None => ret (- ENOENT, st)
    | Some n =>
        dev <- on_dev (get_dev n) ;;
        let kind := if dev_type dev =? RT_Device_Class_Char then S_IFCHR else if dev_type dev =? RT_Device_Class_Block then S_IFBLK else if dev_type dev =? RT_Device_Class_Pipe then S_IFIFO else S_IFREG in
        ret (RT_EOK, mkStat 0 (Z.lor S_RW kind) 0 0)
    end.

(** The head of an entry: type, length of the name, length of the record, name. *)
Definition entry_bytes (name : list Z) : list Z := [DT_REG; Z.of_nat RT_NAME_MAX; u8 SIZEOF_DIRENT; SIZEOF_DIRENT / 256] ++ name.
Definition splice (buf : list Z) (at_ : nat) (bytes : list Z) : list Z := take at_ buf ++ bytes ++ drop (at_ + length bytes) buf.
Fixpoint dents_loop (devices : list oid) (n index : nat) (dirp : list Z) : V (nat * list Z) :=
  match n, devices with
  | O, _ | _, [] => ret (index, dirp)
  | S n, o :: devices =>
      ob <- on_dev (in_dk (get_object o)) ;;
      name <- deref (fun _ => rt_strncpy RT_NAME_MAX (KState.o_name ob)) ;;
      let at_ := (index * Z.to_nat SIZEOF_DIRENT)%nat in
      valid (at_ + length (entry_bytes name) <=? length dirp)%nat ;;
      dents_loop devices n (S index) (splice dirp at_ (entry_bytes name))
  end.
Definition dfs_device_fs_getdents (p : nat) (dirp : list Z) (count : Z) : V (Z * list Z) :=
  d <- get_fd p ;;
  RT_ASSERT (match fd_data d with DNull => false | _ => true end) ;;
  '(l, read_index) <- deref (fun _ => match fd_data d with DDir l i => Some (l, i) | _ => None end) ;;
  let count := count / SIZEOF_DIRENT in
  if count =? 0 then ret (- EINVAL, dirp)
  else
    '(index, dirp) <- dents_loop (drop (Z.to_nat read_index) l) (Z.to_nat count) 0 dirp ;;
    mod_fd p (set_fd_data (DDir l (u16 (read_index + Z.of_nat index)))) ;;
    ret (Z.of_nat index * SIZEOF_DIRENT, dirp).

(** _device_fops and _device_fs; [address]: the address of _device_fops. *)
Definition device_fops (malloced : bool) (local : Z) : dfs_file_ops W :=
  mkFops (Some (dfs_device_fs_open malloced)) (Some dfs_device_fs_close) (Some (dfs_device_fs_ioctl local)) (Some dfs_device_fs_read) (Some dfs_device_fs_write) None None (Some dfs_device_fs_getdents).
Definition device_fs (address : Z) : dfs_filesystem_ops W :=
  mkFsops [100; 101; 118; 102; 115] 0 address (Some dfs_device_fs_mount) None None None None (Some dfs_device_fs_stat) None.
End devfs.

(** ** A device as a file *)

Section device_file.
Context {W : Type} (fops_at : Z -> dfs_file_ops W) (driver : nat -> rt_device_ops W) (n : nat).
Local Notation V := (@Fd.V W).
Context (Hdriver : conforming n (driver n)).

(** Opening a device that has been initialised: it counts exactly when it succeeds. *)
Lemma open_active_wp (s : dst W) d oflag : dev_at n s d -> dev_ok d -> dev_ref_count d < 255 -> dev_has (dev_flag d) RT_DEVICE_FLAG_ACTIVATED = true ->
  wp (rt_device_open (driver n) n oflag) s (fun r s' => exists d', dev_at n s' d' /\ dev_ok d' /\ dev_ref_count d' = dev_ref_count d + if succeeded r then 1 else 0).
Proof using Hdriver.
  intros Hd Ho Hb Ha. unfold rt_device_open, open_init. kstep. apply (wp_dev_type n _ d); [done|]. kstep. kstep. apply (wp_get_dev n _ d); [done|]. rewrite Ha. kstep. change (RT_EOK =? RT_EOK) with true. cbn [negb]. kstep. apply (wp_get_dev n _ d); [done|]. kstep; [kstep; exists d; split_and!; [done|done|change (succeeded (- RT_EBUSY)) with false; cbv iota; lia]|].
  assert (dev_has (dev_flag d) RT_DEVICE_FLAG_STANDALONE = true -> dev_ref_count d = 0) as Hs.
  { intros Hst. rewrite Hst in Heqb. pose proof (do_range _ Ho) as Hr. destruct (decide (0 < dev_ref_count d)) as [Hp|]; [|lia]. rewrite (do_open _ Ho Hp) in Heqb. done. }
  kstep. eapply (wp_mono _ _ (fun r s' => exists d', dev_at n s' d' /\ api_fields d' = api_fields d /\ (succeeded r = false -> dev_ok d'))).
  { destruct (op_open (driver n)) as [h|] eqn:Eh.
    - eapply wp_mono; [by apply (cf_open _ _ Hdriver h oflag Eh)|]. intros r2 s2 (d2 & Hd2 & E2 & Eo). exists d2. split_and!; [done|done|]. intros Hf. apply (api_fields_ok d); [done| |done]. apply Eo. by rewrite Hf.
    - kstep. apply (wp_mod_dev n _ d); [done|]. intros Hd2. kstep. eexists. split_and!; [exact Hd2|done|done]. }
  intros r2 s2 (d2 & Hd2 & E2 & Hf). kstep. kstep. kstep.
  - eapply wp_mono; [apply (opened_wp n s2 d2 d RT_EOK); try done; lia|]. intros [] s3 Hcr. kstep. destruct (Hcr oflag) as (d3 & H1 & H2 & [[Hc _]|[_ Hc]]); [|done]. exists d3. split_and!; [done|done|]. rewrite Heqb0. cbv iota. lia.
  - kstep. kstep. exists d2. specialize (Hf eq_refl). split_and!; [done|done|]. injection E2 as E2 _ _. rewrite Heqb0. cbv iota. lia.
Qed.

(** The device is found under its name, is closed or shared, and works through the device
    layer. *)
Record usable (s : dst W) (name : list Z) (d : rt_device) : Prop := {
  us_wf : wf (d_k s);
  us_cinv : cinv (d_k s);
  us_lock : 0 <= k_lock_nest (d_k s) < 2 ^ 15 - 1;
  us_name : chars_ok name;
  us_found : head (filter (name_is (d_k s) name) (object_list (d_k s) RT_Object_Class_Device)) = Some (ODevice n);
  us_at : dev_at n s d;
  us_ok : dev_ok d;
  us_room : dev_ref_count d < 255;
  us_active : dev_has (dev_flag d) RT_DEVICE_FLAG_ACTIVATED = true;
  us_fops : dev_fops d = None
}.
Lemma dev_at_frame (s : dst W) d k : dev_at n s d -> wf k -> sched_frame (d_k s) k -> dev_at n (set_d_k k s) d.
Proof.
  intros [T _ E] Hw F. destruct (sched_frame_objects _ _ F) as (Eo & _). split; [unfold has_type; cbn; by rewrite Eo| |done]. intros c Hcur. destruct (wf_current Hw c Hcur) as (th & Et & _). by exists th.
Qed.
(** The file [f] at [p] becomes the device, and the opening is counted; or neither. *)
Lemma devfs_open_wp malloced (s : vfs W) p f c name dev : v_files s !! p = Some f -> fd_path f = Some (c :: name) -> name <> [] -> usable (v_dev s) name dev ->
  wp (dfs_device_fs_open fops_at driver malloced p) s (fun r s' => tables_kept s s' /\ exists dev', dev_at n (v_dev s') dev' /\ dev_ok dev' /\
    (r = 0 /\ dev_ref_count dev' = dev_ref_count dev + 1 /\ v_files s' = <[p := set_fd_data (DDev n) f]> (v_files s) \/
     r = - EIO /\ dev_ref_count dev' = dev_ref_count dev /\ v_files s' = <[p := set_fd_data DNull f]> (v_files s))).
Proof using Hdriver.
  intros Ef Ep Hn [U1 U2 U3 U4 U5 U6 U7 U8 U9 U10]. unfold dfs_device_fs_open. kstep. apply (wp_get_fd _ _ f); [done|]. kstep. apply (wp_deref _ (c :: name)); [done|]. rewrite bool_decide_eq_false_2 by (by intros [= _ ->]). cbn [andb]. kstep. apply (wp_deref _ name); [done|]. kstep. apply wp_zoom. eapply wp_mono; [by apply rt_device_find_wp|]. intros r d1 (k & -> & Hwk & F & ->). rewrite U5. cbn [device_of].
  pose proof (dev_at_frame _ _ k U6 Hwk F) as Hd1. unfold open_device. kstep. apply wp_zoom. apply (wp_get_dev n _ dev); [done|]. rewrite U10. kstep. apply wp_zoom. eapply wp_mono; [by apply (open_active_wp _ dev)|]. intros r d2 (dev' & Hd2 & Ho2 & Er). destruct (succeeded r).
  - kstep. apply (wp_mod_fd _ _ f); [done|]. kstep. split; [done|]. exists dev'. split; [done|]. split; [done|]. left. by split_and!.
  - kstep. apply (wp_mod_fd _ _ f); [done|]. kstep. split; [done|]. exists dev'. split; [done|]. split; [done|]. right. split_and!; [done|lia|done].
Qed.
Lemma wp_file_device (s : vfs W) p f (Q : nat -> vfs W -> Prop) : v_files s !! p = Some f -> fd_data f = DDev n -> Q n s -> wp (file_device p) s Q.
Proof. intros Ef Ed HQ. unfold file_device. kstep. apply (wp_get_fd _ _ f); [done|]. rewrite Ed. kstep. apply wp_assert; [done|]. by apply (wp_deref _ n). Qed.
Lemma devfs_close_wp (s : vfs W) p f dev : v_files s !! p = Some f -> fd_type f = FT_REGULAR -> fd_data f = DDev n -> dev_at n (v_dev s) dev -> dev_ok dev -> 0 < dev_ref_count dev ->
  wp (dfs_device_fs_close driver p) s (fun r s' => tables_kept s s' /\ (r = 0 \/ r = - EIO) /\ exists dev', dev_at n (v_dev s') dev' /\ dev_ok dev' /\ dev_ref_count dev' = dev_ref_count dev - 1).
Proof using Hdriver.
  intros Ef Et Ed Hd Ho Hr. unfold dfs_device_fs_close. kstep. apply (wp_get_fd _ _ f); [done|]. rewrite Et. change (FT_REGULAR =? FT_DIRECTORY) with false. cbv iota. kstep. apply (wp_file_device _ _ f); [done|done|]. kstep. apply wp_zoom. eapply wp_mono; [by apply (rt_device_close_wp n (driver n) Hdriver _ dev)|]. intros r d' (dev' & Hd' & Ho' & [(? & _)|(_ & Hc)]); [lia|]. destruct (r =? RT_EOK).
  - kstep. apply (wp_mod_fd _ _ f); [done|]. kstep. split; [done|]. split; [by left|]. by exists dev'.
  - kstep. split; [done|]. split; [by right|]. by exists dev'.
Qed.

(** A device as a file.  The open routine of the device file system finds the device of the
    name and opens it once more, or fails with -EIO and leaves its count; reads and writes
    then reach the driver with the position of the file, which moves by the result; and
    closing the file closes the device as often as it was opened by it. *)
Theorem device_file_correct malloced (s : vfs W) p f c name dev : v_files s !! p = Some f -> fd_type f = FT_REGULAR -> fd_path f = Some (c :: name) -> name <> [] -> usable (v_dev s) name dev ->
  wp (r <- dfs_device_fs_open fops_at driver malloced p ;; if r =? 0 then dfs_device_fs_close driver p else ret r) s
    (fun r s' => tables_kept s s' /\ (r = 0 \/ r = - EIO) /\ exists dev', dev_at n (v_dev s') dev' /\ dev_ok dev' /\ dev_ref_count dev' = dev_ref_count dev) /\
  (forall h g pos buf count r d' s1 f1, v_files s1 !! p = Some f1 -> fd_data f1 = DDev n -> fd_pos f1 = pos -> dev_at n (v_dev s1) g -> 0 < dev_ref_count g -> op_write (driver n) = Some h -> h pos buf count (v_dev s1) = Ok r d' ->
    dfs_device_fs_write driver p buf count s1 = Ok (i32 r) (set_v_files (<[p := set_fd_pos (i32 (pos + i32 r)) f1]> (v_files s1)) (set_v_dev d' s1))).
Proof using Hdriver.
  intros Ef Et Ep Hn Hu. split.
  - kstep. eapply wp_mono; [by apply (devfs_open_wp malloced s p f c name dev)|]. intros r s1 ((K1 & K2 & K3 & K4 & K5) & dev1 & Hd1 & Ho1 & [(-> & Er & Ev)|(-> & Er & Ev)]).
    + change (0 =? 0) with true. cbv iota. pose proof (do_range _ (us_ok _ _ _ Hu)). eapply wp_mono; [apply (devfs_close_wp s1 p (set_fd_data (DDev n) f) dev1); [rewrite Ev; apply lookup_insert_eq|done|done|done|done|lia]|]. intros r s2 ((L1 & L2 & L3 & L4 & L5) & Hr & dev2 & Hd2 & Ho2 & Er2). split; [split_and!; congruence|]. split; [done|]. exists dev2. split_and!; [done|done|lia].
    + change (- EIO =? 0) with false. cbv iota. kstep. split; [by split_and!|]. split; [by right|]. by exists dev1.
  - intros h g pos buf count r d' s1 f1 Ef1 Ed1 Epos Hg Hr Eh Hh. assert (wp (dfs_device_fs_write driver p buf count) s1 (fun r' t => r' = i32 r /\ t = set_v_files (<[p := set_fd_pos (i32 (pos + i32 r)) f1]> (v_files s1)) (set_v_dev d' s1))) as Hwp.
    { unfold dfs_device_fs_write. kstep. apply (wp_file_device _ _ f1); [done|done|]. kstep. apply (wp_get_fd _ _ f1); [done|]. kstep. apply wp_zoom. unfold rt_device_write, dev_transfer. kstep. apply (wp_dev_type n _ g); [done|]. kstep. apply (wp_get_dev n _ g); [done|]. rewrite (proj2 (Z.eqb_neq _ _)) by lia. rewrite Eh. unfold wp at 1. rewrite Epos, Hh. cbv zeta. kstep. apply (wp_mod_fd _ _ f1); [done|]. kstep. rewrite Epos. done. }
    destruct (wp_run _ _ _ Hwp) as (r' & t & E & -> & ->). exact E.
Qed.
End device_file.

(** ** What devfs promises

    The promise the POSIX calls rely on ([fops_tame]): a routine of devfs that returns
    has changed nothing but its file and the devices.  The drivers, and the operations
    devices have of their own, are assumed to keep [ready], where they return. *)

(** Threads run, outside interrupts. *)
Definition ready {W} (d : dst W) : Prop := kinv (d_k d) /\ is_Some (k_current (d_k d)) /\ 0 <= k_lock_nest (d_k d) < 2 ^ 15 - 1 /\ k_irq_nest (d_k d) = 0.
#[export] Instance ready_errno {W} : ErrnoAble (W := W) ready.
Proof.
  intros d e (Hk & [c Hc] & Hl & Hi). destruct (wf_current (proj1 Hk) c Hc) as (th & Et & _). unfold dev_set_errno, rt_set_errno.
  kstep. apply wp_zoom. kstep. rewrite Hi. change (negb (0 =? 0)) with false. cbv iota. kstep. apply wp_zoom. unfold rt_thread_self. kstep. cbn [d_k set_d_k]. rewrite Hc.
  apply wp_zoom, (wp_mod_thread _ _ th); [done|]. split; [|by split; [eexists|]]. by apply (kinv_upd_same _ c th); [..|split_and!].
Qed.

Section tame_devfs.
Context {W : Type}.
Local Notation V := (@Fd.V W).
Implicit Types s : dst W.

(** A computation on the devices that, if it returns, leaves threads running. *)
Definition steady {A} (m : D (W := W) A) : Prop := forall s a s', ready s -> m s = Ok a s' -> ready s'.
Lemma steady_bind {A B} (m : D A) (f : A -> D B) : steady m -> (forall a, steady (f a)) -> steady (bind m f).
Proof. intros Hm Hf s b s' Hr E. unfold bind in E. destruct (m s) as [a s1| | |] eqn:E1; [|done..]. eapply Hf; [|exact E]. by eapply Hm. Qed.
Lemma steady_ret {A} (a : A) : steady (ret a).
Proof. by intros s ? ? Hr [= <- <-]. Qed.
Lemma steady_deref {A} (f : dst W -> option A) : steady (deref f).
Proof. intros s a s' Hr E. unfold deref in E. destruct (f s); [by injection E as <- <-|done]. Qed.
Lemma steady_assert b : steady (RT_ASSERT b).
Proof. intros s a s' Hr E. unfold RT_ASSERT in E. destruct b; [by injection E as <- <-|done]. Qed.
Lemma steady_when b (m : D unit) : steady m -> steady (when b m).
Proof. destruct b; [done|intros _; apply steady_ret]. Qed.
Lemma steady_mod_dev n f : steady (mod_dev n f).
Proof. unfold mod_dev. apply steady_bind; [apply steady_deref|]. by intros d s a s' Hr [= <- <-]. Qed.
Lemma steady_reads {A} (m : K A) : (forall k a k', m k = Ok a k' -> k' = k) -> steady (in_dk m).
Proof. intros Hm s a s' Hr E. unfold in_dk, zoom in E. destruct (m (d_k s)) as [b k| | |] eqn:E1; [|done..]. injection E as <- <-. apply Hm in E1 as ->. done. Qed.
Lemma steady_wp {A} (m : D A) : (forall s, ready s -> wp m s (fun _ s' => ready s')) -> steady m.
Proof. intros Hm s a s' Hr E. specialize (Hm s Hr). unfold wp in Hm. by rewrite E in Hm. Qed.

Lemma bind_reads {A B} (m : K A) (f : A -> K B) : (forall k a k', m k = Ok a k' -> k' = k) -> (forall a k b k', f a k = Ok b k' -> k' = k) -> forall k b k', bind m f k = Ok b k' -> k' = k.
Proof. intros Hm Hf k b k' E. unfold bind in E. destruct (m k) as [a k1| | |] eqn:E1; [|done..]. rewrite (Hf _ _ _ _ E). by eapply Hm. Qed.
Lemma deref_reads {A} (f : kst -> option A) k a k' : deref f k = Ok a k' -> k' = k.
Proof. unfold deref. destruct (f k); [by intros [= _ <-]|done]. Qed.
Lemma assert_reads b k a k' : RT_ASSERT (S := kst) b k = Ok a k' -> k' = k.
Proof. unfold RT_ASSERT. destruct b; [by intros [= _ <-]|done]. Qed.
Lemma ret_reads {A} (x : A) (k : kst) a k' : ret x k = Ok a k' -> k' = k.
Proof. by intros [= _ <-]. Qed.
Lemma find_named_reads l name k r k' : find_named l name k = Ok r k' -> k' = k.
Proof.
  revert k r k'. induction l as [|o l IH]; cbn [find_named]; [apply ret_reads|]. apply bind_reads; [apply deref_reads|]. intros ob. apply bind_reads; [apply deref_reads|]. intros r. destruct (r =? 0); [apply ret_reads|exact IH].
Qed.
Lemma steady_type n : steady (in_dk (assert_type (ODevice n) RT_Object_Class_Device)).
Proof.
  apply steady_reads. apply bind_reads; [|intros ty; apply assert_reads]. apply bind_reads; [apply deref_reads|intros ob; apply ret_reads].
Qed.

(** The walks over the registry, with the scheduler locked. *)
Lemma unlocked_ready s u k : ready s -> rt_exit_critical (set_k_lock_nest (i16 (k_lock_nest (d_k s) + 1)) (d_k s)) = Ok u k -> ready (set_d_k k s).
Proof.
  intros (Hk & Hc & Hl & Hi). rewrite i16_small by lia. set (k1 := set_k_lock_nest _ _). pose proof (exit_critical_kinv k1 (kinv_lock_nest _ _ Hk) Hc ltac:(cbn; lia)) as Hw. unfold wp in Hw. intros E. rewrite E in Hw.
  destruct Hw as (Hk' & F & Hc'). destruct (sched_frame_objects _ _ F) as (_ & _ & El & Ei). split; [done|]. split; [done|]. cbn in *. rewrite El, Ei. lia.
Qed.
Lemma steady_list : steady list_devices.
Proof.
  intros s a s' Hr E. unfold list_devices, in_dk, zoom, rt_enter_critical, modify, gets, bind, RT_ASSERT in E. cbn [bool_decide] in E. rewrite bool_decide_true in E by (by vm_compute; eexists).
  destruct (rt_exit_critical _) as [u k| | |] eqn:E1; [|done..]. injection E as <- <-. by apply (unlocked_ready s u).
Qed.
Lemma steady_find name : steady (rt_device_find name).
Proof.
  intros s a s' Hr E. destruct (Hr) as (_ & [c Hc] & _). unfold rt_device_find, in_dk, zoom, rt_enter_critical, rt_thread_self, modify, gets, bind, RT_ASSERT, when in E. rewrite Hc in E. rewrite !bool_decide_true in E by (by vm_compute; eexists).
  destruct (find_named _ _ _) as [r k1| | |] eqn:Ef; [|done..]. apply find_named_reads in Ef as ->. cbn [k_current set_k_lock_nest] in E. rewrite Hc in E. rewrite bool_decide_true in E by (by eexists).
  destruct (rt_exit_critical _) as [u k| | |] eqn:E1; [|done..]. injection E as <- <-. by apply (unlocked_ready s u).
Qed.
Lemma steady_errno e : steady (dev_set_errno e).
Proof. apply steady_wp. intros s. apply able_errno. Qed.
(** *** The device layer *)

(** The handlers of a driver leave threads running, where they return. *)
Record driver_steady (ops : rt_device_ops W) : Prop := {
  ds_init : forall h, op_init ops = Some h -> steady h;
  ds_open : forall h oflag, op_open ops = Some h -> steady (h oflag);
  ds_close : forall h, op_close ops = Some h -> steady h;
  ds_read : forall h pos buffer size, op_read ops = Some h -> steady (h pos buffer size);
  ds_write : forall h pos buffer size, op_write ops = Some h -> steady (h pos buffer size);
  ds_control : forall h cmd arg, op_control ops = Some h -> steady (h cmd arg)
}.
Ltac steady := repeat match goal with
  | |- steady (bind _ _) => apply steady_bind; [|intros ?]
  | |- steady (ret _) => apply steady_ret
  | |- steady (get_dev _) => apply steady_deref
  | |- steady (mod_dev _ _) => apply steady_mod_dev
  | |- steady (when _ _) => apply steady_when
  | |- steady (RT_ASSERT _) => apply steady_assert
  | |- steady (in_dk (assert_type _ _)) => apply steady_type
  | |- steady (dev_set_errno _) => apply steady_errno
  | |- steady (if ?b then _ else _) => destruct b
  | |- steady (match ?o with Some _ => _ | None => _ end) => destruct o eqn:?
  | |- steady _ => progress eauto
  end.
Section layer.
Context (ops : rt_device_ops W) (Hops : driver_steady ops) (n : nat).
Lemma steady_open oflag : steady (rt_device_open ops n oflag).
Proof using Hops. destruct Hops. unfold rt_device_open, open_init. steady. Qed.
Lemma steady_close : steady (rt_device_close ops n).
Proof using Hops. destruct Hops. unfold rt_device_close. steady. Qed.
Lemma steady_read pos buffer size : steady (rt_device_read ops n pos buffer size).
Proof using Hops. destruct Hops. unfold rt_device_read, dev_transfer. steady. Qed.
Lemma steady_write pos buffer size : steady (rt_device_write ops n pos buffer size).
Proof using Hops. destruct Hops. unfold rt_device_write, dev_transfer. steady. Qed.
Lemma steady_control cmd arg : steady (rt_device_control ops n cmd arg).
Proof using Hops. destruct Hops. unfold rt_device_control. steady. Qed.
End layer.

(** *** The routines of devfs *)

Local Notation tame := (tame (W := W) ready).
Lemma tame_bind {A B} p (m : V A) (f : A -> V B) : tame p m -> (forall a, tame p (f a)) -> tame p (bind m f).
Proof.
  intros Hm Hf s d r s' Ha Ed Ho E. unfold bind in E. destruct (m s) as [a s1| | |] eqn:E1; [|done..]. pose proof (Hm s d a s1 Ha Ed Ho E1) as H1.
  destruct (file_step_lookup ready p s s1 H1) as (d0 & d1 & E0 & Ed1 & _ & Ho1). rewrite Ed in E0. injection E0 as <-. eapply file_step_trans; [exact H1|]. eapply (Hf a s1 d1); [apply H1|done|by apply Ho1|exact E].
Qed.
Lemma tame_ret {A} p (a : A) : tame p (ret a).
Proof. intros s d r s' Ha Ed Ho [= <- <-]. by apply (file_step_refl ready p d). Qed.
Lemma tame_deref {A} p (f : vfs W -> option A) : tame p (deref f).
Proof. intros s d r s' Ha Ed Ho E. unfold deref in E. destruct (f s); [|done]. injection E as <- <-. by apply (file_step_refl ready p d). Qed.
Lemma tame_assert p b : tame p (RT_ASSERT b).
Proof. intros s d r s' Ha Ed Ho E. unfold RT_ASSERT in E. destruct b; [|done]. injection E as <- <-. by apply (file_step_refl ready p d). Qed.
Lemma tame_valid p b : tame p (valid b).
Proof. intros s d r s' Ha Ed Ho E. unfold valid in E. destruct b; [|done]. injection E as <- <-. by apply (file_step_refl ready p d). Qed.
Lemma tame_on_dev {A} p (m : D (W := W) A) : steady m -> tame p (on_dev m).
Proof.
  intros Hm s d r s' Ha Ed Ho E. unfold on_dev, zoom in E. destruct (m (v_dev s)) as [a dv| | |] eqn:E1; [|done..]. injection E as <- <-. split; [done|]. split; [by apply (Hm _ _ _ Ha E1)|]. exists d, d. cbn. by rewrite insert_id.
Qed.
Lemma tame_mod_fd p f : (forall d, fd_magic (f d) = fd_magic d /\ fd_ref_count (f d) = fd_ref_count d /\ (is_Some (fd_fops d) -> is_Some (fd_fops (f d)))) -> tame p (mod_fd p f).
Proof.
  intros Hf s d r s' Ha Ed Ho E. unfold mod_fd, get_fd, deref, bind, modify in E. rewrite Ed in E. injection E as <- <-. split; [done|]. split; [done|]. exists d, (f d). split; [done|]. split; [done|]. apply Hf.
Qed.
Lemma tame_file_device p : tame p (file_device p).
Proof. unfold file_device. apply tame_bind; [apply tame_deref|]. intros d. apply tame_bind; [apply tame_assert|]. intros []. apply tame_deref. Qed.
Ltac tame := repeat match goal with
  | |- Posix.tame _ _ (bind _ _) => apply tame_bind; [|intros ?]
  | |- Posix.tame _ _ (ret _) => apply tame_ret
  | |- Posix.tame _ _ (get_fd _) => apply tame_deref
  | |- Posix.tame _ _ (deref _) => apply tame_deref
  | |- Posix.tame _ _ (RT_ASSERT _) => apply tame_assert
  | |- Posix.tame _ _ (valid _) => apply tame_valid
  | |- Posix.tame _ _ (mod_fd _ _) => apply tame_mod_fd; (done || (intros ?; split_and!; [done|done|by eexists]))
  | |- Posix.tame _ _ (file_device _) => apply tame_file_device
  | |- Posix.tame _ _ (on_dev _) => apply tame_on_dev
  | |- Posix.tame _ _ (let _ := _ in _) => cbv zeta
  | |- Posix.tame _ _ (if ?b then _ else _) => destruct b
  | |- Posix.tame _ _ (match ?o with Some _ => _ | None => _ end) => destruct o eqn:?
  end.
Context (fops_at : Z -> dfs_file_ops W) (Hown : forall a, fops_tame ready (fops_at a)) (driver : nat -> rt_device_ops W) (Hdriver : forall n, driver_steady (driver n)).

(** The file operations of devfs keep the promise, whatever device the file is, and also
    where the device is opened as a directory or the list of devices has no memory. *)
Theorem device_fops_tame malloced local : fops_tame ready (device_fops fops_at driver malloced local).
Proof using Hown Hdriver.
  split; cbn [device_fops f_open f_close f_ioctl f_read f_write f_flush f_lseek]; intros h *; intros [= <-].
  - unfold dfs_device_fs_open. tame; [apply steady_list|apply steady_find|]. unfold open_device. tame; [apply steady_deref|by eapply ft_open|by apply steady_open].
  - unfold dfs_device_fs_close. tame. by apply steady_close.
  - unfold dfs_device_fs_ioctl. tame. by apply steady_control.
  - unfold dfs_device_fs_read. tame. by apply steady_read.
  - unfold dfs_device_fs_write. tame. by apply steady_write.
Qed.
End tame_devfs.

(** ** The directory *)

Section directory.
Context {W : Type}.
Local Notation V := (@Fd.V W).

(** What a device is called in the directory. *)
Definition listed (k : kst) (o : oid) (nm : list Z) : Prop := exists ob, k_objects k !! o = Some ob /\ rt_strncpy RT_NAME_MAX (KState.o_name ob) = Some nm /\ length nm = RT_NAME_MAX.
Lemma getdents_next (s : vfs W) p f l i o nm buf : v_files s !! p = Some f -> fd_data f = DDir l (Z.of_nat i) -> l !! i = Some o -> listed (d_k (v_dev s)) o nm -> Z.of_nat (length l) < 2 ^ 16 -> length buf = 512%nat ->
  wp (dfs_device_fs_getdents p buf 511) s (fun r s' => fst r = SIZEOF_DIRENT /\ length (snd r) = 512%nat /\ take RT_NAME_MAX (drop 4 (snd r)) = nm /\ v_dev s' = v_dev s /\ v_files s' = <[p := set_fd_data (DDir l (Z.of_nat (S i))) f]> (v_files s)).
Proof.
  intros Ef Ed Hi (ob & Eo & En & Hn) Hl Hb. unfold dfs_device_fs_getdents. kstep. apply (wp_get_fd _ _ f); [done|]. rewrite Ed. kstep. apply wp_assert; [done|]. kstep. apply (wp_deref _ (l, Z.of_nat i)); [done|]. change (511 / SIZEOF_DIRENT) with 1. cbv zeta. change (1 =? 0) with false. cbv iota. rewrite Nat2Z.id. change (Z.to_nat 1) with 1%nat. rewrite (drop_S _ o) by done. kstep. cbn [dents_loop]. kstep. apply wp_zoom, wp_zoom. apply (wp_get_object _ ob); [done|]. cbv beta. kstep. apply (wp_deref _ nm); [done|]. cbv zeta. kstep.
  assert (length (entry_bytes nm) = 12%nat) as El by (unfold entry_bytes; rewrite length_app, Hn; done). apply wp_valid; [apply Nat.leb_le; rewrite El, Hb; cbn; lia|].
  assert (splice buf (0 * Z.to_nat SIZEOF_DIRENT) (entry_bytes nm) = entry_bytes nm ++ drop 12 buf) as Es by (unfold splice; rewrite El; done). rewrite Es. assert (forall k m b, dents_loop (W := W) k 0 m b = ret (m, b)) as -> by (by intros []). kstep. kstep. apply (wp_mod_fd _ _ f); [done|]. kstep. cbn [fst snd].
  split; [done|]; split; [rewrite length_app, El, length_drop, Hb; done|]; split; [unfold entry_bytes; cbn [app drop]; rewrite <- Hn; apply take_app_length|].
  split; [cbn; by destruct s as [[]]|]; cbn; apply lookup_lt_Some in Hi; replace (u16 (Z.of_nat i + Z.of_nat 1)) with (Z.of_nat (S i)) by (unfold u16; rewrite Z.mod_small; lia). done.
Qed.
Lemma getdents_end (s : vfs W) p f l buf : v_files s !! p = Some f -> fd_data f = DDir l (Z.of_nat (length l)) -> Z.of_nat (length l) < 2 ^ 16 ->
  wp (dfs_device_fs_getdents p buf 511) s (fun r s' => r = (0, buf) /\ v_dev s' = v_dev s).
Proof.
  intros Ef Ed Hl. unfold dfs_device_fs_getdents. kstep. apply (wp_get_fd _ _ f); [done|]. rewrite Ed. kstep. apply wp_assert; [done|]. kstep. apply (wp_deref _ (l, Z.of_nat (length l))); [done|]. change (511 / SIZEOF_DIRENT) with 1. cbv zeta. change (1 =? 0) with false. cbv iota. rewrite Nat2Z.id, drop_all. change (Z.to_nat 1) with 1%nat. cbn [dents_loop]. kstep. kstep. kstep. apply (wp_mod_fd _ _ f); [done|]. by kstep.
Qed.

(** The names of the entries that are left, [fuel] at most. *)
Fixpoint list_names (fuel : nat) (p : nat) (buf : list Z) : V (list (list Z)) :=
  match fuel with
  | O => nofuel
  | S fuel =>
      '(r, buf) <- dfs_device_fs_getdents p buf 511 ;;
      if r <=? 0 then ret [] else names <- list_names fuel p buf ;; ret (take RT_NAME_MAX (drop 4 buf) :: names)
  end.
(** The directory of devices.  Read entry by entry until the end, it gives the name of
    every device that was registered when it was opened, in the order of the registry,
    each once. *)
Theorem directory_lists_devices p l nms : forall i (s : vfs W) f buf, v_files s !! p = Some f -> fd_data f = DDir l (Z.of_nat i) -> (i <= length l)%nat -> Forall2 (listed (d_k (v_dev s))) (drop i l) nms -> Z.of_nat (length l) < 2 ^ 16 -> length buf = 512%nat ->
  wp (list_names (S (length nms)) p buf) s (fun r _ => r = nms).
Proof.
  induction nms as [|nm nms IH]; intros i s f buf Ef Ed Hi Hall Hl Hb; cbn [list_names length].
  - apply Forall2_nil_inv_r in Hall. assert (i = length l) as -> by (apply (f_equal length) in Hall; rewrite length_drop in Hall; cbn in Hall; lia). kstep. eapply wp_mono; [by apply (getdents_end s p f l buf)|]. intros r s' [-> _]. by kstep.
  - apply Forall2_cons_inv_r in Hall as (o & l' & Ho & Hall & El). assert (l !! i = Some o) as Hio by (rewrite <- (Nat.add_0_r i), <- lookup_drop, El; done). apply lookup_lt_Some in Hio as Hlt. kstep. eapply wp_mono; [by apply (getdents_next s p f l i o nm buf)|]. intros [r b] s' (Hr & Hlen & Ht & Hdev & Hf). cbn [fst snd] in *. subst r. change (SIZEOF_DIRENT <=? 0) with false. cbv iota. kstep.
    eapply wp_mono; [apply (IH (S i) s' (set_fd_data (DDir l (Z.of_nat (S i))) f) b); [rewrite Hf; apply lookup_insert_eq|done|lia| |done|done]|].
    { rewrite Hdev. by rewrite (drop_S _ o) in El by done; injection El as <-. }
    intros names s2 ->. kstep. by rewrite Ht.
Qed.
End directory.

(** ** Witnesses and samples: the device "d" *)

Definition devfs_dev : dst Z :=
  mkDst (attach (ODevice 64) (mkObject (padded RT_NAME_MAX [100]) (Z.lor RT_Object_Class_Device RT_Object_Class_Static) 0) RT_Object_Class_Device sample)
    {[ 64%nat := mkDev 0 RT_DEVICE_FLAG_ACTIVATED 0 0 None None None empty_wqueue ]} 0 0.
Definition devfs_file : dfs_fd := mkFd DFS_FD_MAGIC FT_REGULAR (Some [47; 100]) 1 (Some 0%nat) (Some 0) 0 0 0 (DFs 0).
Definition no_fops : Z -> dfs_file_ops Z := fun _ => mkFops None None None None None None None None.
Definition devfs_ops (malloced : bool) : Z -> dfs_file_ops Z := fun _ => device_fops no_fops (fun _ => sample_driver) malloced 0.
Definition devfs_vfs (files : gmap nat dfs_fd) : vfs Z := mkVfs devfs_dev [Some 0%nat; None] [mkFs None (Some [47; 100; 101; 118]) (Some 0%nat); cleared_fs] [] files [47] true.
Definition sample_devfs_type : nat -> dfs_filesystem_ops Z := fun _ => device_fs 0.
Definition sample_grants : grants := mkGrants true (Some 7%nat) true true.

(** "/dev/d" is opened, written and closed through the POSIX calls. *)
Example sample_device_file : wp (posix_run sample_devfs_type (devfs_ops true) 3 [POpen sample_grants [47; 100; 101; 118; 47; 100] 0; PWrite 3 0 5; PClose 3]) (devfs_vfs ∅)
  (fun l s => l = [3; 5; 0] /\ d_world (v_dev s) = 3).
Proof. vm_compute. auto. Qed.
Lemma devfs_usable : usable 64 devfs_dev [100] (mkDev 0 RT_DEVICE_FLAG_ACTIVATED 0 0 None None None empty_wqueue).
Proof.
  split; [by apply (wfx_same _ sample), (proj1 sample_kinv)| |done|by repeat constructor| | |by split|done|done|done].
  - apply (cinv_attach _ _ _ _ [100]); [exact sample_cinv| |done|by repeat constructor|done]. intros c H. destruct (ci_header _ sample_cinv _ _ H) as (ob & l & E & _). by vm_compute in E.
  - unfold devfs_dev. cbn [d_k]. rewrite object_list_attach, decide_True by done. rewrite filter_cons, decide_True; [done|]. unfold name_is. cbn. by rewrite lookup_insert_eq.
  - split; [eexists; split; [cbn; apply lookup_insert_eq|done]|intros t [= <-]; by eexists|reflexivity].
Qed.
Lemma device_file_correct_witness :
  wp (r <- dfs_device_fs_open no_fops (fun _ => sample_driver) true 7 ;; if r =? 0 then dfs_device_fs_close (fun _ => sample_driver) 7 else ret r) (devfs_vfs {[7%nat := devfs_file]})
    (fun r s' => (r = 0 \/ r = - EIO) /\ exists dev', dev_at 64 (v_dev s') dev' /\ dev_ref_count dev' = 0).
Proof.
  destruct (device_file_correct no_fops (fun _ => sample_driver) 64 (sample_driver_conforming 64) true (devfs_vfs {[7%nat := devfs_file]}) 7 devfs_file 47 [100] _ (lookup_singleton_eq _ _) eq_refl eq_refl ltac:(done) devfs_usable) as [H _].
  eapply wp_mono; [exact H|]. intros r s' (_ & Hr & dev' & H1 & _ & H2). split; [done|]. by exists dev'.
Defined.
Lemma directory_lists_devices_witness :
  wp (list_names 2 7 (replicate 512 0)) (devfs_vfs {[7%nat := set_fd_data (DDir [ODevice 64] 0) devfs_file]}) (fun r _ => r = [padded RT_NAME_MAX [100]]).
Proof.
  apply (directory_lists_devices 7 [ODevice 64] [padded RT_NAME_MAX [100]] 0 (devfs_vfs {[7%nat := set_fd_data (DDir [ODevice 64] 0) devfs_file]}) (set_fd_data (DDir [ODevice 64] 0) devfs_file) (replicate 512 0)); [apply lookup_singleton_eq|done|cbn; lia| |done|done].
  constructor; [|constructor]. eexists. split; [apply lookup_insert_eq|]. by split.
Defined.

(** devfs is mounted on "/dev" and, without a routine for it, is not unmounted again. *)
Example sample_devfs_mount : wp (r <- dfs_mount sample_devfs_type (devfs_ops true) (fun _ => sample_driver) 9 cleared_fd true true true None [47; 100; 101; 118] [100; 101; 118; 102; 115] 0 0 ;; u <- dfs_unmount sample_devfs_type (fun _ => sample_driver) true [47; 100; 101; 118] ;; ret (r, u))
  (mkVfs devfs_dev [Some 0%nat; None] [cleared_fs; cleared_fs] [] ∅ [47] true) (fun r s => r = (0, -1) /\ v_mounted s = [mkFs None (Some [47; 100; 101; 118]) (Some 0%nat); cleared_fs]).
Proof. vm_compute. auto. Qed.

(** *** The POSIX calls over devfs *)

Lemma tally_steady r : steady (tally r).
Proof. intros s a s' Hr E. unfold tally in E. by injection E as <- <-. Qed.
Lemma sample_driver_steady : driver_steady sample_driver.
Proof. split; intros; simplify_eq/=; apply tally_steady. Qed.
Lemma devfs_ops_tame malloced a : fops_tame ready (devfs_ops malloced a).
Proof. apply device_fops_tame; [by split|]. intros n. apply sample_driver_steady. Qed.
Lemma devfs_ready : ready devfs_dev.
Proof.
  split; [|split; [by eexists|done]]. apply kinvb_sound. by vm_compute.
Qed.
Lemma devfs_pinv : pinv ready None (devfs_vfs ∅) ∅.
Proof.
  split; [|by intros fd c; rewrite lookup_empty; split; [done|]; intros (i & p & d & _ & [? _] & _)|exact devfs_ready|done| |constructor; [lia|by apply Forall_nil]].
  - split; cbn; [lia|by intros i p ?|by intros i j p ?|by intros p []].
  - intros i m (f & o & Hf & Hp & Ho). destruct i as [|[|i]]; cbn in Hf; [|injection Hf as <-; done|done]. injection Hf as <-. injection Hp as <-. right. cbn. lia.
Qed.
Definition devfs_calls : list posix_call := [POpen sample_grants [47; 100; 101; 118; 47; 100] 0; PWrite 3 0 5; PRead 9 0 1; PClose 3; PClose 3].
Lemma posix_descriptors_witness : exists s' A', posix_run sample_devfs_type (devfs_ops true) 3 devfs_calls (devfs_vfs ∅) = Ok [3; 5; -1; 0; -1] s' /\ answered ready 3 ∅ devfs_calls [3; 5; -1; 0; -1] s' A'.
Proof.
  destruct (posix_descriptors ready sample_devfs_type (devfs_ops true) (devfs_ops_tame true) 3 devfs_calls (devfs_vfs ∅) ∅ devfs_pinv ltac:(done) ltac:(repeat (split; [|intros ? ? _]); repeat constructor; try done; lia)) as [H _].
  destruct (posix_run sample_devfs_type (devfs_ops true) 3 devfs_calls (devfs_vfs ∅)) as [l s'| | |] eqn:E; [|by vm_compute in E..].
  assert (l = [3; 5; -1; 0; -1]) as ->. { pose proof (f_equal (fun r => match r with Ok l _ => Some l | _ => None end) E) as El. vm_compute in El. by injection El as <-. }
  destruct (H _ _ eq_refl) as [A' HA]. by exists s', A'.
Defined.

(** A device that is opened as a directory is freed when the directory is closed.
    dfs_file_open makes the file a directory because O_DIRECTORY was given, whatever the
    path is; dfs_device_fs_close then takes the device for the list of devices and passes
    it to rt_free.  chdir of a device does this. *)
Theorem device_as_directory_freed :
  (t <- opendir sample_devfs_type (devfs_ops true) 3 sample_grants true [47; 100; 101; 118; 47; 100] ;; match t with Some t => closedir (devfs_ops true) 3 t | None => ret 0 end) (devfs_vfs ∅) = UB /\
  chdir sample_devfs_type (devfs_ops true) 3 sample_grants true true (Some [47; 100; 101; 118; 47; 100]) (devfs_vfs ∅) = UB.
Proof. by vm_compute. Qed.
(** Without memory for the list, the directory of devices is opened all the same, and closing
    it stops in an assertion. *)
Theorem directory_without_memory_halts :
  (t <- opendir sample_devfs_type (devfs_ops false) 3 sample_grants true [47; 100; 101; 118] ;; match t with Some t => closedir (devfs_ops false) 3 t | None => ret 0 end) (devfs_vfs ∅) = Halt.
Proof. by vm_compute. Qed.
