(* ===== verification/Partition.v ===== *)
(** * Partition tables (components/dfs/src/dfs_fs.c): dfs_filesystem_get_partition

    The entry of a partition in the boot sector of a disk, decoded from byte memory; what
    is printed about it is left out. *)

From S2P Require Import Prelude Kservice Str Vfs.

Definition DPT_ADDRESS : Z := 0x1be.
Definition DPT_ITEM_SIZE : Z := 16.

(** struct dfs_partition without its lock *)
Record dfs_partition := mkPart { part_type : Z; part_offset : Z; part_size : Z }.

(** Four bytes from [a], the lowest first, as an int. *)
Definition word_at (a : Z) : B Z :=
  b0 <- load 1 a ;;
  b1 <- load 1 (a + 1) ;;
  b2 <- load 1 (a + 2) ;;
  b3 <- load 1 (a + 3) ;;
  ret (i32 (Z.lor (Z.lor (Z.lor b0 (Z.shiftl b1 8)) (Z.shiftl b2 16)) (Z.shiftl b3 24))).
(** [part]: what it was before. *)
Definition dfs_filesystem_get_partition (part : dfs_partition) (buf pindex : Z) : B (Z * dfs_partition) :=
  let dpt := buf + DPT_ADDRESS + pindex * DPT_ITEM_SIZE in
  c <- load 1 dpt ;;
  if negb (c =? 0x80) && negb (c =? 0x00) then ret (- EIO, part)
  else
    type <- load 1 (dpt + 4) ;;
    if type =? 0 then ret (- EIO, part)
    else
      offset <- word_at (dpt + 8) ;;
      size <- word_at (dpt + 12) ;;
      ret (RT_EOK, mkPart type offset (u32 size)).

(** ** Decoding *)

Lemma lor_add a b k : 0 <= k -> 0 <= a < 2 ^ k -> Z.lor a (Z.shiftl b k) = a + b * 2 ^ k.
Proof.
  intros Hk Ha. rewrite <- (Z.shiftl_mul_pow2 b k) by done. pose proof (Z.add_lor_land a (Z.shiftl b k)) as E. enough (Z.land a (Z.shiftl b k) = 0) by lia. destruct (decide (a = 0)) as [->|]; [apply Z.land_0_l|]. apply Z.bits_inj'. intros i Hi. rewrite Z.land_spec, Z.bits_0. destruct (Z.lt_ge_cases i k) as [Hlt|Hge].
  - by rewrite (Z.shiftl_spec_low b k i), andb_false_r.
  - rewrite (Z.bits_above_log2 a i); [done|lia|]. apply Z.log2_lt_pow2; [lia|]. apply (Z.lt_le_trans _ (2 ^ k)); [lia|]. apply Z.pow_le_mono_r; lia.
Qed.
Lemma word_le b0 b1 b2 b3 : Forall (fun b => 0 <= b < 256) [b0; b1; b2; b3] -> Z.lor (Z.lor (Z.lor b0 (Z.shiftl b1 8)) (Z.shiftl b2 16)) (Z.shiftl b3 24) = le_value [b0; b1; b2; b3].
Proof.
  intros H. repeat (apply Forall_cons in H as [? H]). rewrite (lor_add b0) by lia. rewrite (lor_add _ b2) by lia. rewrite (lor_add _ b3) by lia. cbn. lia.
Qed.
(** A partition with the entry [e] of the table. *)
Definition entry_of (part : dfs_partition) (e : list Z) : Z * dfs_partition :=
  let flag := default 0 (e !! 0%nat) in
  let type := default 0 (e !! 4%nat) in
  if bool_decide ((flag = 0x80 \/ flag = 0) /\ type <> 0) then (RT_EOK, mkPart type (i32 (le_value (take 4 (drop 8 e)))) (le_value (drop 12 e)))
  else (- EIO, part).
Lemma le_value_bound b0 b1 b2 b3 : Forall (fun b => 0 <= b < 256) [b0; b1; b2; b3] -> 0 <= le_value [b0; b1; b2; b3] < 2 ^ 32.
Proof. intros H. repeat (apply Forall_cons in H as [? H]). cbn. lia. Qed.
Lemma word_at_wp m a b0 b1 b2 b3 (Q : Z -> mem -> Prop) : m !! a = Some b0 -> m !! (a + 1) = Some b1 -> m !! (a + 2) = Some b2 -> m !! (a + 3) = Some b3 -> Forall (fun b => 0 <= b < 256) [b0; b1; b2; b3] ->
  Q (i32 (le_value [b0; b1; b2; b3])) m -> wp (word_at a) m Q.
Proof.
  intros H0 H1 H2 H3 Hb HQ. unfold word_at. kstep. apply (wp_load1 _ _ b0); [done|]. kstep. apply (wp_load1 _ _ b1); [done|]. kstep. apply (wp_load1 _ _ b2); [done|]. kstep. apply (wp_load1 _ _ b3); [done|]. kstep. by rewrite word_le.
Qed.

(** Dfs_filesystem_get_partition.  The entry of the partition is decoded as the boot sector
    has it: -EIO if its flag is neither 0x80 nor 0 or its type is 0, and otherwise its
    type, its first sector (as a signed number) and its size, little endian.  The sector is
    only read. *)
Theorem get_partition_correct m part buf pindex e : length e = 16%nat -> Forall (fun b => 0 <= b < 256) e -> (forall i b, e !! i = Some b -> m !! (buf + DPT_ADDRESS + pindex * DPT_ITEM_SIZE + Z.of_nat i) = Some b) ->
  wp (dfs_filesystem_get_partition part buf pindex) m (fun r m' => r = entry_of part e /\ m' = m).
Proof.
  intros Hl Hb Hm. do 16 (destruct e as [|? e]; [done|]). destruct e; [|done]. unfold dfs_filesystem_get_partition. cbv zeta. set (a := buf + DPT_ADDRESS + pindex * DPT_ITEM_SIZE) in *.
  assert (forall i b, [z; z0; z1; z2; z3; z4; z5; z6; z7; z8; z9; z10; z11; z12; z13; z14] !! i = Some b -> forall k, k = a + Z.of_nat i -> m !! k = Some b) as Hm' by (intros i b Hi k ->; by apply Hm). clear Hm.
  kstep. apply (wp_load1 _ _ z); [apply (Hm' 0%nat); [done|lia]|]. unfold entry_of. cbn [lookup list_lookup default drop take id].
  destruct (negb (z =? 128) && negb (z =? 0)) eqn:Ef.
  { kstep. rewrite bool_decide_eq_false_2; [done|]. apply andb_prop in Ef as [E1%negb_true_iff%Z.eqb_neq E2%negb_true_iff%Z.eqb_neq]. lia. }
  kstep. apply (wp_load1 _ _ z3); [apply (Hm' 4%nat); [done|lia]|]. destruct (Z.eqb_spec z3 0) as [->|Hn]; [kstep; rewrite bool_decide_eq_false_2; [done|tauto]|].
  assert (z = 128 \/ z = 0) as Hz by (apply andb_false_iff in Ef as [E%negb_false_iff%Z.eqb_eq|E%negb_false_iff%Z.eqb_eq]; auto).
  kstep. apply (word_at_wp _ _ z7 z8 z9 z10); [apply (Hm' 8%nat); [done|lia]|apply (Hm' 9%nat); [done|lia]|apply (Hm' 10%nat); [done|lia]|apply (Hm' 11%nat); [done|lia]|exact (Forall_take _ 4 _ (Forall_drop _ 8 _ Hb))|].
  kstep. apply (word_at_wp _ _ z11 z12 z13 z14); [apply (Hm' 12%nat); [done|lia]|apply (Hm' 13%nat); [done|lia]|apply (Hm' 14%nat); [done|lia]|apply (Hm' 15%nat); [done|lia]|exact (Forall_drop _ 12 _ Hb)|].
  kstep. split; [|done]. rewrite bool_decide_eq_true_2 by done. do 2 f_equal. assert (0 <= le_value [z11; z12; z13; z14] < 2 ^ 32) as Hs by exact (le_value_bound _ _ _ _ (Forall_drop _ 12 _ Hb)). unfold u32, i32. rewrite Zminus_mod, Zmod_mod, <- Zminus_mod, Z.add_simpl_r. by apply Z.mod_small.
Qed.

(** ** Witness: a bootable FAT partition of 2048 sectors at sector 63 *)

Definition sample_entry : list Z := [128; 1; 1; 0; 11; 254; 63; 1; 63; 0; 0; 0; 0; 8; 0; 0].
Lemma get_partition_correct_witness : wp (dfs_filesystem_get_partition (mkPart 0 0 0) 1000 1) (write_bytes 1462 sample_entry ∅) (fun r _ => r = (RT_EOK, mkPart 11 63 2048)).
Proof.
  eapply wp_mono; [apply (get_partition_correct (write_bytes 1462 sample_entry ∅) (mkPart 0 0 0) 1000 1 sample_entry eq_refl)|].
  - repeat (constructor; [lia|]). by apply Forall_nil.
  - intros i b. do 16 (destruct i as [|i]; [intros [= <-]; by vm_compute|]). done.
  - intros r m' [-> _]. by vm_compute.
Defined.
