(* ===== verification/Mem.v ===== *)
(** * The heap (src/mem.c): data and routines

    The allocator of small memories.  The heap is a piece of memory, byte by
    byte, divided into blocks that each start with a [struct heap_mem]: a magic
    number, a used flag and the offsets of the next and the previous block.
    [heap] is that memory with the static variables of mem.c; pointers are
    addresses, RT_NULL is 0.  A semaphore protects the heap: [mst] is the kernel
    state beside the heap, and a call that has to wait for the semaphore ends as
    [Waiting]; what runs once the semaphore is taken is a routine of its own
    ([_locked]).  RT_MEM_STATS is defined, RT_USING_MEMTRACE and ARCH_CPU_64BIT
    are not. *)

From S2P Require Import Prelude Ffs KState Kservice Ipc Sem.

Definition HEAP_MAGIC : Z := 0x1ea0.
Definition SIZEOF_STRUCT_MEM : Z := 12.
Definition MIN_SIZE : Z := 12.
Definition MIN_SIZE_ALIGNED : Z := RT_ALIGN MIN_SIZE RT_ALIGN_SIZE.

(** struct heap_mem *)
Record heap_mem := Hm {
  hm_magic : Z;  (** rt_uint16_t *)
  hm_used : Z;  (** rt_uint16_t *)
  hm_next : Z;  (** rt_size_t *)
  hm_prev : Z  (** rt_size_t *)
}.

(** The heap with the static variables of mem.c. *)
Record heap := mkHeap {
  h_mem : mem;
  heap_ptr : Z;
  heap_end : Z;
  lfree : Z;
  mem_size_aligned : Z;
  used_mem : Z;
  max_mem : Z
}.

Definition set_h_mem (v : mem) (h : heap) : heap :=
  mkHeap v (heap_ptr h) (heap_end h) (lfree h) (mem_size_aligned h) (used_mem h) (max_mem h).
Definition set_heap_ptr (v : Z) (h : heap) : heap :=
  mkHeap (h_mem h) v (heap_end h) (lfree h) (mem_size_aligned h) (used_mem h) (max_mem h).
Definition set_heap_end (v : Z) (h : heap) : heap :=
  mkHeap (h_mem h) (heap_ptr h) v (lfree h) (mem_size_aligned h) (used_mem h) (max_mem h).
Definition set_lfree (v : Z) (h : heap) : heap :=
  mkHeap (h_mem h) (heap_ptr h) (heap_end h) v (mem_size_aligned h) (used_mem h) (max_mem h).
Definition set_mem_size_aligned (v : Z) (h : heap) : heap :=
  mkHeap (h_mem h) (heap_ptr h) (heap_end h) (lfree h) v (used_mem h) (max_mem h).
Definition set_stats (used max : Z) (h : heap) : heap :=
  mkHeap (h_mem h) (heap_ptr h) (heap_end h) (lfree h) (mem_size_aligned h) used max.

Definition H (A : Type) : Type := M heap A.
Definition at_mem {A} (b : B A) : H A := zoom h_mem set_h_mem b.

(** [mem->field] and [mem->field = v] *)
Definition get_magic (mem : Z) : H Z := at_mem (load 2 mem).
Definition get_used (mem : Z) : H Z := at_mem (load 2 (mem + 2)).
Definition get_next (mem : Z) : H Z := at_mem (load 4 (mem + 4)).
Definition get_prev (mem : Z) : H Z := at_mem (load 4 (mem + 8)).
Definition set_magic (mem v : Z) : H unit := at_mem (store 2 mem v).
Definition set_used (mem v : Z) : H unit := at_mem (store 2 (mem + 2) v).
Definition set_next (mem v : Z) : H unit := at_mem (store 4 (mem + 4) v).
Definition set_prev (mem v : Z) : H unit := at_mem (store 4 (mem + 8) v).

(** ** plug_holes *)

Definition plug_forward (mem : Z) : H unit :=
  h <- get ;;
  next <- get_next mem ;;
  let nmem := heap_ptr h + next in
  hole <- (if negb (mem =? nmem) then u <- get_used nmem ;; ret ((u =? 0) && negb (nmem =? heap_end h)) else ret false) ;;
  when hole
    (when (lfree h =? nmem) (modify (set_lfree mem)) ;;
     nn <- get_next nmem ;; set_next mem nn ;;
     nn <- get_next nmem ;; set_prev (heap_ptr h + nn) (mem - heap_ptr h)).

Definition plug_backward (mem : Z) : H unit :=
  h <- get ;;
  prev <- get_prev mem ;;
  let pmem := heap_ptr h + prev in
  hole <- (if negb (pmem =? mem) then u <- get_used pmem ;; ret (u =? 0) else ret false) ;;
  when hole
    (when (lfree h =? mem) (modify (set_lfree pmem)) ;;
     nx <- get_next mem ;; set_next pmem nx ;;
     nx <- get_next mem ;; set_prev (heap_ptr h + nx) (pmem - heap_ptr h)).

Definition plug_holes (mem : Z) : H unit :=
  h <- get ;;
  RT_ASSERT (heap_ptr h <=? mem) ;;
  RT_ASSERT (mem <? heap_end h) ;;
  used <- get_used mem ;;
  RT_ASSERT (used =? 0) ;;
  plug_forward mem ;;
  plug_backward mem.

(** ** The critical sections *)

(** The loop of rt_malloc: the offset of the first block, from [ptr] on, that is
    free and large enough. *)
Fixpoint malloc_search (fuel : nat) (size ptr : Z) : H (option Z) :=
  h <- get ;;
  if ptr <? u32 (mem_size_aligned h - size) then
    match fuel with
    | O => nofuel
    | S fuel =>
        used <- get_used (heap_ptr h + ptr) ;;
        next <- get_next (heap_ptr h + ptr) ;;
        if (used =? 0) && (size <=? u32 (next - (ptr + SIZEOF_STRUCT_MEM))) then ret (Some ptr)
        else malloc_search fuel size next
    end
  else ret None.

(** RT_MEM_STATS: [used_mem += n], and the maximum. *)
Definition account (n : Z) : H unit :=
  modify (fun h => let used := u32 (used_mem h + n) in set_stats used (if max_mem h <? used then used else max_mem h) h).

(** [while (lfree->used && lfree != heap_end) lfree = &heap_ptr[lfree->next]] *)
Fixpoint skip_used (fuel : nat) : H unit :=
  h <- get ;;
  u <- get_used (lfree h) ;;
  if negb (u =? 0) && negb (lfree h =? heap_end h) then
    match fuel with
    | O => nofuel
    | S fuel => nx <- get_next (lfree h) ;; modify (set_lfree (heap_ptr h + nx)) ;; skip_used fuel
    end
  else ret tt.

(** The block at [ptr] is taken, the rest of it split off if it is large enough. *)
Definition malloc_take (fuel : nat) (size ptr : Z) : H unit :=
  h <- get ;;
  let mem := heap_ptr h + ptr in
  next <- get_next mem ;;
  (if size + SIZEOF_STRUCT_MEM + MIN_SIZE_ALIGNED <=? u32 (next - (ptr + SIZEOF_STRUCT_MEM)) then
     let ptr2 := u32 (ptr + SIZEOF_STRUCT_MEM + size) in
     let mem2 := heap_ptr h + ptr2 in
     set_magic mem2 HEAP_MAGIC ;;
     set_used mem2 0 ;;
     nx <- get_next mem ;; set_next mem2 nx ;;
     set_prev mem2 ptr ;;
     set_next mem ptr2 ;;
     set_used mem 1 ;;
     nx2 <- get_next mem2 ;;
     when (negb (nx2 =? u32 (mem_size_aligned h + SIZEOF_STRUCT_MEM))) (set_prev (heap_ptr h + nx2) ptr2) ;;
     account (size + SIZEOF_STRUCT_MEM)
   else
     set_used mem 1 ;;
     nx <- get_next mem ;;
     account (nx - (mem - heap_ptr h))) ;;
  set_magic mem HEAP_MAGIC ;;
  lf <- gets lfree ;;
  when (mem =? lf)
    (skip_used fuel ;;
     lf <- gets lfree ;;
     u <- get_used lf ;;
     RT_ASSERT ((lf =? heap_end h) || (u =? 0))).

(** rt_free, once the semaphore is taken, up to its release. *)
Definition free_block (mem : Z) : H unit :=
  u <- get_used mem ;; RT_ASSERT (negb (u =? 0)) ;;
  mg <- get_magic mem ;; RT_ASSERT (mg =? HEAP_MAGIC) ;;
  set_used mem 0 ;;
  set_magic mem HEAP_MAGIC ;;
  h <- get ;;
  when (mem <? lfree h) (modify (set_lfree mem)) ;;
  nx <- get_next mem ;;
  modify (fun h => set_stats (u32 (used_mem h - (nx - (mem - heap_ptr h)))) (max_mem h) h) ;;
  plug_holes mem.

(** rt_realloc shrinks the block in place: the rest of it becomes a free block. *)
Definition shrink_block (mem newsize size : Z) : H unit :=
  modify (fun h => set_stats (u32 (used_mem h - (size - newsize))) (max_mem h) h) ;;
  h <- get ;;
  let ptr := mem - heap_ptr h in
  let ptr2 := u32 (ptr + SIZEOF_STRUCT_MEM + newsize) in
  let mem2 := heap_ptr h + ptr2 in
  set_magic mem2 HEAP_MAGIC ;;
  set_used mem2 0 ;;
  nx <- get_next mem ;; set_next mem2 nx ;;
  set_prev mem2 ptr ;;
  set_next mem ptr2 ;;
  nx2 <- get_next mem2 ;;
  when (negb (nx2 =? u32 (mem_size_aligned h + SIZEOF_STRUCT_MEM))) (set_prev (heap_ptr h + nx2) ptr2) ;;
  plug_holes mem2.

(** ** The routines, with the heap semaphore *)

Record mst := mkMst { m_k : kst; m_h : heap }.
Definition in_k {A} (m : K A) : M mst A := zoom m_k (fun k s => mkMst k (m_h s)) m.
Definition in_h {A} (m : H A) : M mst A := zoom m_h (fun h s => mkMst (m_k s) h) m.

Section routines.
(** static struct rt_semaphore heap_sem *)
Context (heap_sem : nat).

Definition rt_system_heap_init (begin_addr end_addr : Z) : M mst unit :=
  let begin_align := u32 (RT_ALIGN begin_addr RT_ALIGN_SIZE) in
  let end_align := RT_ALIGN_DOWN end_addr RT_ALIGN_SIZE in
  in_k RT_DEBUG_NOT_IN_INTERRUPT ;;
  if (2 * SIZEOF_STRUCT_MEM <? end_align) && (begin_align <=? end_align - 2 * SIZEOF_STRUCT_MEM) then
    let size := end_align - begin_align - 2 * SIZEOF_STRUCT_MEM in
    in_h (modify (set_mem_size_aligned size) ;;
          modify (set_heap_ptr begin_align) ;;
          let mem := begin_align in
          set_magic mem HEAP_MAGIC ;;
          set_next mem (size + SIZEOF_STRUCT_MEM) ;;
          set_prev mem 0 ;;
          set_used mem 0 ;;
          nx <- get_next mem ;;
          let e := begin_align + nx in
          modify (set_heap_end e) ;;
          set_magic e HEAP_MAGIC ;;
          set_used e 1 ;;
          set_next e (size + SIZEOF_STRUCT_MEM) ;;
          set_prev e (size + SIZEOF_STRUCT_MEM)) ;;
    in_k (rt_sem_init heap_sem [104; 101; 97; 112; 0] 1 RT_IPC_FLAG_FIFO) ;;
    in_h (modify (set_lfree begin_align))
  else ret tt.

Definition rt_malloc_locked (size : Z) : M mst Z :=
  h <- gets m_h ;;
  let fuel := S (Z.to_nat (mem_size_aligned h)) in
  found <- in_h (malloc_search fuel size (lfree h - heap_ptr h)) ;;
  match found with
  | Some ptr =>
      in_h (malloc_take fuel size ptr) ;;
      in_k (rt_sem_release heap_sem) ;;
      let mem := heap_ptr h + ptr in
      RT_ASSERT (mem + SIZEOF_STRUCT_MEM + size <=? heap_end h) ;;
      RT_ASSERT ((mem + SIZEOF_STRUCT_MEM) `mod` RT_ALIGN_SIZE =? 0) ;;
      RT_ASSERT (Z.land mem (RT_ALIGN_SIZE - 1) =? 0) ;;
      ret (mem + SIZEOF_STRUCT_MEM)
  | None => in_k (rt_sem_release heap_sem) ;; ret 0
  end.

(** rt_sem_take(&heap_sem, RT_WAITING_FOREVER), then [k]. *)
Definition with_heap {A} (k : M mst (outcome A)) : M mst (outcome A) :=
  o <- in_k (rt_sem_take_enter heap_sem RT_WAITING_FOREVER) ;;
  match o with Returned _ => k | Waiting t => ret (Waiting t) end.

Definition rt_malloc (size : Z) : M mst (outcome Z) :=
  if size =? 0 then ret (Returned 0) else
  in_k RT_DEBUG_NOT_IN_INTERRUPT ;;
  let size := RT_ALIGN size RT_ALIGN_SIZE `mod` 2 ^ 32 in
  h <- gets m_h ;;
  if mem_size_aligned h <? size then ret (Returned 0) else
  let size := if size <? MIN_SIZE_ALIGNED then MIN_SIZE_ALIGNED else size in
  with_heap (p <- rt_malloc_locked size ;; ret (Returned p)).

Definition rt_free_locked (rmem : Z) : M mst unit :=
  in_h (free_block (rmem - SIZEOF_STRUCT_MEM)) ;;
  in_k (rt_sem_release heap_sem) ;;
  ret tt.

Definition rt_free (rmem : Z) : M mst (outcome unit) :=
  if rmem =? 0 then ret (Returned tt) else
  in_k RT_DEBUG_NOT_IN_INTERRUPT ;;
  RT_ASSERT (Z.land rmem (RT_ALIGN_SIZE - 1) =? 0) ;;
  h <- gets m_h ;;
  RT_ASSERT ((heap_ptr h <=? rmem) && (rmem <? heap_end h)) ;;
  if (rmem <? heap_ptr h) || (heap_end h <=? rmem) then ret (Returned tt) else
  with_heap (rt_free_locked rmem ;; ret (Returned tt)).

(** rt_realloc, the new block allocated: copy, and free the old one. *)
Definition rt_realloc_move (rmem nmem size newsize : Z) : M mst (outcome Z) :=
  if nmem =? 0 then ret (Returned nmem) else
  in_h (at_mem (rt_memcpy nmem rmem (if size <? newsize then size else newsize))) ;;
  o <- rt_free rmem ;;
  match o with Returned _ => ret (Returned nmem) | Waiting t => ret (Waiting t) end.

Definition rt_realloc_locked (rmem newsize : Z) : M mst (outcome Z) :=
  h <- gets m_h ;;
  if (rmem <? heap_ptr h) || (heap_end h <=? rmem) then
    in_k (rt_sem_release heap_sem) ;; ret (Returned rmem)
  else
  let mem := rmem - SIZEOF_STRUCT_MEM in
  let ptr := mem - heap_ptr h in
  next <- in_h (get_next mem) ;;
  let size := u32 (next - ptr - SIZEOF_STRUCT_MEM) in
  if size =? newsize then
    in_k (rt_sem_release heap_sem) ;; ret (Returned rmem)
  else if u32 (newsize + SIZEOF_STRUCT_MEM + MIN_SIZE) <? size then
    in_h (shrink_block mem newsize size) ;;
    in_k (rt_sem_release heap_sem) ;;
    ret (Returned rmem)
  else
    in_k (rt_sem_release heap_sem) ;;
    o <- rt_malloc newsize ;;
    match o with Returned nmem => rt_realloc_move rmem nmem size newsize | Waiting t => ret (Waiting t) end.

Definition rt_realloc (rmem newsize : Z) : M mst (outcome Z) :=
  in_k RT_DEBUG_NOT_IN_INTERRUPT ;;
  let newsize := RT_ALIGN newsize RT_ALIGN_SIZE `mod` 2 ^ 32 in
  h <- gets m_h ;;
  if mem_size_aligned h <? newsize then ret (Returned 0)
  else if newsize =? 0 then
    o <- rt_free rmem ;;
    match o with Returned _ => ret (Returned 0) | Waiting t => ret (Waiting t) end
  else if rmem =? 0 then rt_malloc newsize
  else with_heap (rt_realloc_locked rmem newsize).

(** rt_calloc, the block allocated: zero it. *)
Definition rt_calloc (count size : Z) : M mst (outcome Z) :=
  o <- rt_malloc (u32 (count * size)) ;;
  match o with
  | Returned p => when (negb (p =? 0)) (in_h (at_mem (rt_memset p 0 (u32 (count * size)))) ;; ret tt) ;; ret (Returned p)
  | Waiting t => ret (Waiting t)
  end.
End routines.

(** total, used and max_used of rt_memory_info *)
Definition rt_memory_info (h : heap) : Z * Z * Z := (mem_size_aligned h, used_mem h, max_mem h).
