(* ===== verification/MemBlocks.v ===== *)
(** * The heap (src/mem.c): block lists

    [hdr m a] is the header the bytes of [m] hold at address [a].  [view m0 m f]
    follows the headers [f] through a sequence of stores: [m] holds them, and
    agrees with the memory [m0] at the start outside of them.  [seg] reads the
    headers as a list of blocks, and [heap_ok h bs] says that the heap [h] is
    divided into the blocks [bs]. *)

From S2P Require Import Prelude KState Kservice Mem.

Definition hdr (m : mem) (a : Z) : option heap_mem :=
  match read_bytes m a 2, read_bytes m (a + 2) 2, read_bytes m (a + 4) 4, read_bytes m (a + 8) 4 with
  | Some mg, Some us, Some nx, Some pv => Some (Hm (le_value mg) (le_value us) (le_value nx) (le_value pv))
  | _, _, _, _ => None
  end.

Definition bytes_ok (m : mem) : Prop := map_Forall (fun _ x => 0 <= x < 256) m.

Lemma hdr_frame m m' a : (forall b, a <= b < a + 12 -> m' !! b = m !! b) -> hdr m' a = hdr m a.
Proof.
  intros E. unfold hdr. by rewrite !(read_bytes_frame m m') by (intros i Hi; apply E; lia).
Qed.
Lemma hdr_mapped m a : (forall b, a <= b < a + 12 -> is_Some (m !! b)) -> is_Some (hdr m a).
Proof.
  intros E. assert (forall k n, 0 <= k -> k + Z.of_nat n <= 12 -> is_Some (read_bytes m (a + k) n)) as Hr.
  { intros k n. revert k. induction n as [|n IH]; intros k Hk Hn; cbn [read_bytes]; [by eexists|].
    destruct (E (a + k) ltac:(lia)) as [x ->]. replace (a + k + 1) with (a + (k + 1)) by lia.
    destruct (IH (k + 1) ltac:(lia) ltac:(lia)) as [l ->]. by eexists. }
  unfold hdr. pose proof (Hr 0 2%nat ltac:(lia) ltac:(lia)) as H0. rewrite Z.add_0_r in H0. destruct H0 as [? ->].
  destruct (Hr 2 2%nat ltac:(lia) ltac:(lia)) as [? ->]. destruct (Hr 4 4%nat ltac:(lia) ltac:(lia)) as [? ->].
  destruct (Hr 8 4%nat ltac:(lia) ltac:(lia)) as [? ->]. by eexists.
Qed.

Lemma bytes_ok_write m a l : bytes_ok m -> byte_range l -> bytes_ok (write_bytes a l m).
Proof.
  intros Hm. revert a. induction l as [|x l IH]; intros a Hl; cbn [write_bytes]; [done|].
  apply Forall_cons in Hl as [Hx Hl]. apply map_Forall_insert_2; [done|by apply IH].
Qed.
Lemma le_bytes_range n v : byte_range (le_bytes n v).
Proof. revert v. induction n as [|n IH]; intros v; cbn; constructor; [apply Z.mod_pos_bound; lia|apply IH]. Qed.
Lemma bytes_ok_read m a n l : bytes_ok m -> read_bytes m a n = Some l -> byte_range l.
Proof.
  intros Hm [E Hl]%read_bytes_Some. apply Forall_lookup_2. intros i x Hx. apply (Hm (a + Z.of_nat i)).
  rewrite Hl; [done|]. apply lookup_lt_Some in Hx. lia.
Qed.

(** ** Following headers through stores *)

Record view (m0 m : mem) (f : gmap Z heap_mem) : Prop := {
  vw_hdr : forall a x, f !! a = Some x -> hdr m a = Some x;
  vw_apart : forall a b, is_Some (f !! a) -> is_Some (f !! b) -> a <> b -> a + 12 <= b \/ b + 12 <= a;
  vw_frame : forall b, (forall a, is_Some (f !! a) -> b < a \/ a + 12 <= b) -> m !! b = m0 !! b;
  vw_mapped : forall b, is_Some (m0 !! b) -> is_Some (m !! b);
  vw_bytes : bytes_ok m0 -> bytes_ok m
}.
Arguments vw_hdr {m0 m f}.
Arguments vw_apart {m0 m f}.
Arguments vw_frame {m0 m f}.
Arguments vw_mapped {m0 m f}.
Arguments vw_bytes {m0 m f}.

Lemma view_empty m : view m m ∅.
Proof. split; try done. intros a b [x Hx]. by rewrite lookup_empty in Hx. Qed.
(** Following one more header. *)
Lemma view_add m0 m f a x :
  view m0 m f -> hdr m a = Some x -> (forall b, is_Some (f !! b) -> a + 12 <= b \/ b + 12 <= a) -> view m0 m (<[a := x]> f).
Proof.
  intros [V1 V2 V3 V4 V5] Ha Hap. split; try done.
  - intros b y Hy. destruct (decide (b = a)) as [->|Hn]; [rewrite lookup_insert_eq in Hy; by injection Hy as <-|].
    rewrite lookup_insert_ne in Hy by done. eauto.
  - intros b c Hb Hc Hn. rewrite lookup_insert_is_Some in Hb, Hc. destruct Hb as [<-|[_ Hb]], Hc as [<-|[_ Hc]]; [done| | |by apply V2].
    + by apply Hap.
    + apply Hap in Hb. lia.
  - intros b Hb. apply V3. intros c Hc. apply Hb. rewrite lookup_insert_is_Some. destruct (decide (a = c)); eauto.
Qed.
(** Headers away from the followed ones are the ones of the start. *)
Lemma view_hdr_out m0 m f a : view m0 m f -> (forall b, is_Some (f !! b) -> a + 12 <= b \/ b + 12 <= a) -> hdr m a = hdr m0 a.
Proof. intros V Ha. apply hdr_frame. intros b Hb. apply (vw_frame V). intros c Hc. apply Ha in Hc. lia. Qed.

(** A store into a followed header. *)
Lemma view_store m0 m f a x k l x' :
  view m0 m f -> f !! a = Some x -> byte_range l -> 0 <= k -> k + Z.of_nat (length l) <= 12 ->
  hdr (write_bytes (a + k) l m) a = Some x' -> view m0 (write_bytes (a + k) l m) (<[a := x']> f).
Proof.
  intros [V1 V2 V3 V4 V5] Ha Hl Hk Hn Hx'.
  assert (forall b, is_Some (<[a := x']> f !! b) -> is_Some (f !! b)) as Hdom.
  { intros b [<-|[_ ?]]%lookup_insert_is_Some; eauto. }
  split.
  - intros b y Hy. destruct (decide (b = a)) as [->|Hb]; [rewrite lookup_insert_eq in Hy; by injection Hy as <-|].
    rewrite lookup_insert_ne in Hy by done. rewrite <- (V1 b y Hy). apply hdr_frame. intros c Hc. apply lookup_write_out.
    destruct (V2 a b ltac:(eauto) ltac:(eauto) ltac:(done)); lia.
  - intros b c Hb Hc. apply V2; eauto.
  - intros b Hb. rewrite lookup_write_out; [apply V3; intros c Hc; apply Hb|].
    + rewrite lookup_insert_is_Some. destruct (decide (a = c)); eauto.
    + destruct (Hb a ltac:(rewrite lookup_insert_eq; eauto)); lia.
  - intros b Hb. rewrite lookup_write_bytes. destruct ((a + k <=? b) && (b <? a + k + Z.of_nat (length l))) eqn:E; [|by apply V4].
    apply lookup_lt_is_Some_2. lia.
  - intros H0. apply bytes_ok_write; auto.
Qed.

Lemma hdr_Some m a x : hdr m a = Some x -> exists mg us nx pv,
  read_bytes m a 2 = Some mg /\ read_bytes m (a + 2) 2 = Some us /\ read_bytes m (a + 4) 4 = Some nx /\ read_bytes m (a + 8) 4 = Some pv /\
  x = Hm (le_value mg) (le_value us) (le_value nx) (le_value pv).
Proof. unfold hdr. repeat case_match; try done. intros [= <-]. by eauto 10. Qed.

Section access.
Context (h : heap) (m0 : mem) (f : gmap Z heap_mem) (a : Z) (x : heap_mem).
Hypothesis (V : view m0 (h_mem h) f) (Hx : f !! a = Some x).

Lemma wp_get_magic (Q : Z -> heap -> Prop) : Q (hm_magic x) h -> wp (get_magic a) h Q.
Proof using All.
  intros HQ. apply wp_zoom. destruct (hdr_Some _ _ _ (vw_hdr V a x Hx)) as (mg & us & nx & pv & E & _ & _ & _ & Ex).
  eapply wp_load; [exact E|]. rewrite Ex in HQ. by destruct h.
Qed.
Lemma wp_get_used (Q : Z -> heap -> Prop) : Q (hm_used x) h -> wp (get_used a) h Q.
Proof using All.
  intros HQ. apply wp_zoom. destruct (hdr_Some _ _ _ (vw_hdr V a x Hx)) as (mg & us & nx & pv & _ & E & _ & _ & Ex).
  eapply wp_load; [exact E|]. rewrite Ex in HQ. by destruct h.
Qed.
Lemma wp_get_next (Q : Z -> heap -> Prop) : Q (hm_next x) h -> wp (get_next a) h Q.
Proof using All.
  intros HQ. apply wp_zoom. destruct (hdr_Some _ _ _ (vw_hdr V a x Hx)) as (mg & us & nx & pv & _ & _ & E & _ & Ex).
  eapply wp_load; [exact E|]. rewrite Ex in HQ. by destruct h.
Qed.
Lemma wp_get_prev (Q : Z -> heap -> Prop) : Q (hm_prev x) h -> wp (get_prev a) h Q.
Proof using All.
  intros HQ. apply wp_zoom. destruct (hdr_Some _ _ _ (vw_hdr V a x Hx)) as (mg & us & nx & pv & _ & _ & _ & E & Ex).
  eapply wp_load; [exact E|]. rewrite Ex in HQ. by destruct h.
Qed.

(** A store of a field of [n] bytes at offset [k] of the header. *)
Lemma wp_store_field n k v x' (Q : unit -> heap -> Prop) :
  0 <= k -> k + Z.of_nat n <= 12 -> is_Some (read_bytes (h_mem h) (a + k) n) ->
  hdr (write_bytes (a + k) (le_bytes n v) (h_mem h)) a = Some x' ->
  (forall m, view m0 m (<[a := x']> f) -> Q tt (set_h_mem m h)) -> wp (at_mem (store n (a + k) v)) h Q.
Proof using All.
  intros Hk Hn Hm Hx' HQ. apply wp_zoom. apply wp_store; [by apply mapped_true|]. apply HQ.
  eapply view_store; [exact V|exact Hx|apply le_bytes_range|done|by rewrite le_bytes_length|done].
Qed.

Ltac field_store k HQ :=
  destruct (hdr_Some _ _ _ (vw_hdr V a x Hx)) as (mg & us & nx & pv & E1 & E2 & E3 & E4 & Ex); rewrite Ex in HQ;
  eapply (wp_store_field _ k); [lia|cbn; lia|by rewrite ?Z.add_0_r; eauto|
    rewrite ?Z.add_0_r; unfold hdr;
    rewrite ?read_write_same by apply le_bytes_length; rewrite ?read_write_out by (rewrite ?le_bytes_length; cbn; lia);
    rewrite ?read_write_same by apply le_bytes_length;
    rewrite ?E1, ?E2, ?E3, ?E4, ?le_value_bytes; reflexivity|exact HQ].

Lemma wp_set_magic v (Q : unit -> heap -> Prop) :
  (forall m, view m0 m (<[a := Hm (u16 v) (hm_used x) (hm_next x) (hm_prev x)]> f) -> Q tt (set_h_mem m h)) -> wp (set_magic a v) h Q.
Proof using All.
  intros HQ. unfold set_magic. replace (store 2 a v) with (store 2 (a + 0) v) by (by rewrite Z.add_0_r). field_store 0 HQ.
Qed.
Lemma wp_set_used v (Q : unit -> heap -> Prop) :
  (forall m, view m0 m (<[a := Hm (hm_magic x) (u16 v) (hm_next x) (hm_prev x)]> f) -> Q tt (set_h_mem m h)) -> wp (set_used a v) h Q.
Proof using All. intros HQ. unfold set_used. field_store 2 HQ. Qed.
Lemma wp_set_next v (Q : unit -> heap -> Prop) :
  (forall m, view m0 m (<[a := Hm (hm_magic x) (hm_used x) (u32 v) (hm_prev x)]> f) -> Q tt (set_h_mem m h)) -> wp (set_next a v) h Q.
Proof using All. intros HQ. unfold set_next. field_store 4 HQ. Qed.
Lemma wp_set_prev v (Q : unit -> heap -> Prop) :
  (forall m, view m0 m (<[a := Hm (hm_magic x) (hm_used x) (hm_next x) (u32 v)]> f) -> Q tt (set_h_mem m h)) -> wp (set_prev a v) h Q.
Proof using All. intros HQ. unfold set_prev. field_store 8 HQ. Qed.
End access.

(** The fields of a header, read. *)
Lemma read_hdr h a x : hdr (h_mem h) a = Some x -> get_used a h = Ok (hm_used x) h /\ get_next a h = Ok (hm_next x) h.
Proof.
  intros Hx. pose proof (view_add _ _ _ _ _ (view_empty (h_mem h)) Hx ltac:(by intros ? [? ?%lookup_empty_Some])) as V.
  assert (wp (get_used a) h (fun r h1 => r = hm_used x /\ h1 = h) /\ wp (get_next a) h (fun r h1 => r = hm_next x /\ h1 = h)) as [Hu Hn].
  { split; [eapply wp_get_used|eapply wp_get_next]; [exact V|apply lookup_insert_eq|done|exact V|apply lookup_insert_eq|done]. }
  destruct (wp_run _ _ _ Hu) as (? & ? & -> & -> & ->). destruct (wp_run _ _ _ Hn) as (? & ? & -> & -> & ->). done.
Qed.

(** ** Block lists *)

(** A block: its used flag and its length, header included. *)
Record blk := Blk { b_used : bool; b_len : Z }.

Definition total (bs : list blk) : Z := foldr (fun b n => b_len b + n) 0 bs.
(** The bytes RT_MEM_STATS counts. *)
Definition used_total (bs : list blk) : Z := foldr (fun b n => (if b_used b then b_len b else 0) + n) 0 bs.
(** The [prev] field of the block that follows [bs], [bs] starting at [p] with [prev] field [pv]. *)
Fixpoint last_start (pv p : Z) (bs : list blk) : Z :=
  match bs with [] => pv | b :: bs => last_start p (p + b_len b) bs end.
(** Where the free blocks start. *)
Fixpoint free_starts (p : Z) (bs : list blk) : list Z :=
  match bs with [] => [] | b :: bs => (if b_used b then [] else [p]) ++ free_starts (p + b_len b) bs end.
(** Offset [a] is in the data of a used block. *)
Fixpoint in_data (p : Z) (bs : list blk) (a : Z) : Prop :=
  match bs with
  | [] => False
  | b :: bs => (b_used b = true /\ p + 12 <= a < p + b_len b) \/ in_data (p + b_len b) bs a
  end.
(** No two free blocks side by side. *)
Fixpoint coalesced (bs : list blk) : Prop :=
  match bs with
  | [] => True
  | b :: bs => match bs with c :: _ => b_used b = true \/ b_used c = true | [] => True end /\ coalesced bs
  end.

Definition len_ok (b : blk) : Prop := 16 <= b_len b /\ b_len b `mod` 4 = 0.
Definition blk_hdr (b : blk) (p pv : Z) : heap_mem := Hm HEAP_MAGIC (if b_used b then 1 else 0) (p + b_len b) pv.

(** The headers from offset [p] on are those of the blocks [bs]. *)
Fixpoint seg (m : mem) (hp pv p : Z) (bs : list blk) : Prop :=
  match bs with
  | [] => True
  | b :: bs => hdr m (hp + p) = Some (blk_hdr b p pv) /\ len_ok b /\ seg m hp p (p + b_len b) bs
  end.

Lemma total_cons b bs : total (b :: bs) = b_len b + total bs.
Proof. done. Qed.
Lemma used_total_cons b bs : used_total (b :: bs) = (if b_used b then b_len b else 0) + used_total bs.
Proof. done. Qed.
Lemma total_app b1 b2 : total (b1 ++ b2) = total b1 + total b2.
Proof. induction b1 as [|b b1 IH]; [done|]. cbn [app]. rewrite !total_cons, IH. lia. Qed.
Lemma used_total_app b1 b2 : used_total (b1 ++ b2) = used_total b1 + used_total b2.
Proof. induction b1 as [|b b1 IH]; [done|]. cbn [app]. rewrite !used_total_cons, IH. lia. Qed.
Lemma last_start_app pv p b1 b2 : last_start pv p (b1 ++ b2) = last_start (last_start pv p b1) (p + total b1) b2.
Proof.
  revert pv p. induction b1 as [|b b1 IH]; intros pv p; cbn [app last_start]; [by rewrite Z.add_0_r|].
  rewrite IH, total_cons. f_equal. lia.
Qed.
Lemma free_starts_app p b1 b2 : free_starts p (b1 ++ b2) = free_starts p b1 ++ free_starts (p + total b1) b2.
Proof.
  revert p. induction b1 as [|b b1 IH]; intros p; cbn [app free_starts]; [by rewrite Z.add_0_r|].
  rewrite IH, total_cons, <- app_assoc. do 3 f_equal. lia.
Qed.
Lemma in_data_app p b1 b2 a : in_data p (b1 ++ b2) a <-> in_data p b1 a \/ in_data (p + total b1) b2 a.
Proof.
  revert p. induction b1 as [|b b1 IH]; intros p; cbn [app in_data]; [rewrite Z.add_0_r; tauto|].
  rewrite IH, total_cons. replace (p + b_len b + total b1) with (p + (b_len b + total b1)) by lia. tauto.
Qed.
Lemma seg_app m hp pv p b1 b2 :
  seg m hp pv p (b1 ++ b2) <-> seg m hp pv p b1 /\ seg m hp (last_start pv p b1) (p + total b1) b2.
Proof.
  revert pv p. induction b1 as [|b b1 IH]; intros pv p; cbn [app seg last_start]; [rewrite Z.add_0_r; tauto|].
  rewrite IH, total_cons. replace (p + b_len b + total b1) with (p + (b_len b + total b1)) by lia. tauto.
Qed.

Lemma seg_len m hp pv p bs : seg m hp pv p bs -> Forall len_ok bs.
Proof. revert pv p. induction bs as [|b bs IH]; intros pv p; cbn; constructor; [naive_solver|]. eapply IH. naive_solver. Qed.
Lemma total_mod bs : Forall len_ok bs -> total bs `mod` 4 = 0.
Proof.
  induction 1 as [|b bs [Hb Hb4] _ IH]; [done|]. rewrite total_cons, Z.add_mod, Hb4, IH by lia. done.
Qed.
Lemma total_bound bs : Forall len_ok bs -> 16 * Z.of_nat (length bs) <= total bs.
Proof. induction 1 as [|b bs [Hb _] _ IH]; [done|]. rewrite total_cons. cbn [length]. lia. Qed.
Lemma used_total_bound bs : Forall len_ok bs -> 0 <= used_total bs <= total bs.
Proof. induction 1 as [|b bs [Hb _] _ IH]; [done|]. rewrite total_cons, used_total_cons. destruct (b_used b); lia. Qed.
Lemma in_data_bound p bs a : Forall len_ok bs -> in_data p bs a -> p + 12 <= a < p + total bs.
Proof.
  intros Hl. revert p. induction Hl as [|b bs [Hb _] Hl IH]; intros p; cbn [in_data]; [done|]. rewrite total_cons.
  pose proof (total_bound bs Hl). intros [[_ ?]|?%IH]; lia.
Qed.
Lemma free_starts_bound p bs a : Forall len_ok bs -> a ∈ free_starts p bs -> p <= a < p + total bs.
Proof.
  intros Hl. revert p. induction Hl as [|b bs [Hb _] Hl IH]; intros p; cbn [free_starts]; [by intros ?%elem_of_nil|].
  rewrite total_cons, elem_of_app. pose proof (total_bound bs Hl).
  intros [Ha|?%IH]; [|lia]. destruct (b_used b); lset; lia.
Qed.
Lemma last_start_bound pv p bs : Forall len_ok bs -> bs <> [] -> p <= last_start pv p bs < p + total bs.
Proof.
  intros Hl. revert pv p. induction Hl as [|b bs [Hb _] Hl IH]; intros pv p Hne; [done|]. cbn [last_start]. rewrite total_cons.
  destruct bs as [|c bs]; [cbn; lia|]. pose proof (IH p (p + b_len b) ltac:(done)). pose proof (total_bound _ Hl). lia.
Qed.

Lemma seg_frame m m' hp pv p bs :
  (forall q, p <= q -> q + 12 <= p + total bs -> hdr m' (hp + q) = hdr m (hp + q)) -> seg m hp pv p bs -> seg m' hp pv p bs.
Proof.
  revert pv p. induction bs as [|b bs IH]; intros pv p Hf; cbn [seg]; [done|]. intros (H1 & H2 & H3).
  pose proof (seg_len _ _ _ _ _ H3) as Hl. apply total_bound in Hl. rewrite total_cons in Hf. destruct H2 as [H2 H2'].
  split_and!; [rewrite Hf by lia; done|done|]. apply IH; [|done]. intros q Hq1 Hq2. apply Hf; lia.
Qed.

(** A position in the list where a free block starts. *)
Lemma free_starts_split p bs a : a ∈ free_starts p bs ->
  exists lo b hi, bs = lo ++ b :: hi /\ b_used b = false /\ a = p + total lo.
Proof.
  revert p. induction bs as [|b bs IH]; intros p; cbn [free_starts]; [by intros ?%elem_of_nil|].
  rewrite elem_of_app. intros [Ha|Ha].
  - destruct (b_used b) eqn:E; [by apply elem_of_nil in Ha|]. apply list_elem_of_singleton in Ha as ->.
    exists [], b, bs. split_and!; [done|done|cbn; lia].
  - destruct (IH _ Ha) as (lo & c & hi & -> & Hc & ->). exists (b :: lo), c, hi. split_and!; [done|done|]. rewrite total_cons. lia.
Qed.

Lemma coalesced_app b1 b2 : coalesced (b1 ++ b2) -> coalesced b1 /\ coalesced b2.
Proof.
  induction b1 as [|b b1 IH]; cbn [app coalesced]; [done|]. intros [H1 [H2 H3]%IH]. split; [split|]; [|done..]. by destruct b1.
Qed.
(** Joining two lists of which the first ends or the second starts with a used block. *)
Lemma coalesced_join b1 b2 :
  coalesced b1 -> coalesced b2 ->
  (forall lo b c hi, b1 = lo ++ [b] -> b2 = c :: hi -> b_used b = true \/ b_used c = true) -> coalesced (b1 ++ b2).
Proof.
  induction b1 as [|b b1 IH]; intros H1 H2 Hj; cbn [app coalesced] in *; [done|]. destruct H1 as [H1 H1']. split.
  - destruct b1 as [|c b1]; cbn [app] in *; [|done]. destruct b2 as [|d b2]; [done|]. by apply (Hj [] b d b2).
  - apply IH; [done|done|]. intros lo x c hi -> ->. by apply (Hj (b :: lo) x c hi).
Qed.
Lemma coalesced_mid lo b c hi : coalesced (lo ++ b :: c :: hi) -> b_used b = true \/ b_used c = true.
Proof. intros [_ H]%coalesced_app. by destruct H as [? _]. Qed.

(** ** The heap invariant *)

Record heap_wf (h : heap) (bs : list blk) : Prop := {
  hw_seg : seg (h_mem h) (heap_ptr h) 0 0 bs;
  hw_end : exists pv, hdr (h_mem h) (heap_end h) = Some (Hm HEAP_MAGIC 1 (total bs) pv);
  hw_heap_end : heap_end h = heap_ptr h + total bs;
  hw_size : mem_size_aligned h + 12 = total bs;
  hw_min : 12 <= mem_size_aligned h;
  hw_ptr : 0 < heap_ptr h /\ heap_ptr h `mod` 4 = 0 /\ heap_ptr h + total bs + 12 <= 2 ^ 32;
  hw_mapped : forall a, heap_ptr h <= a < heap_ptr h + total bs + 12 -> is_Some (h_mem h !! a);
  hw_bytes : bytes_ok (h_mem h);
  hw_lfree : lfree h - heap_ptr h ∈ free_starts 0 bs \/ lfree h = heap_end h;
  hw_used : used_mem h = used_total bs;
  hw_max : used_mem h <= max_mem h
}.

(** The heap [h] is divided into the blocks [bs], free blocks apart. *)
Definition heap_ok (h : heap) (bs : list blk) : Prop := heap_wf h bs /\ coalesced bs.
