(* ===== verification/MemOps.v ===== *)
(** * The heap (src/mem.c): the critical sections

    What the code that holds the heap semaphore does to the block list:
    [malloc_search] finds the first block that fits, [malloc_take] turns it into
    a used block and a remainder, [free_block] and [shrink_block] give memory
    back and join it with its neighbours. *)

From S2P Require Import Prelude KState Kservice Mem MemBlocks.

(** The header at the start of [post], which lies at offset [p] behind a block
    that starts at [pv]; behind the last block it is the one of heap_end. *)
Definition after_hdr (post : list blk) (p pv : Z) (x : heap_mem) : Prop :=
  match post with [] => exists pv', x = Hm HEAP_MAGIC 1 p pv' | c :: _ => x = blk_hdr c p pv end.

Lemma after_hdr_prev post p pv pv' x : after_hdr post p pv x -> after_hdr post p pv' (Hm (hm_magic x) (hm_used x) (hm_next x) pv').
Proof. destruct post as [|c post]; [by intros [? ->]; eexists|by intros ->]. Qed.

(** A position in the block list of a heap: the header there and the one behind. *)
Lemma wf_at h pre b post : heap_wf h (pre ++ b :: post) ->
  hdr (h_mem h) (heap_ptr h + total pre) = Some (blk_hdr b (total pre) (last_start 0 0 pre)) /\ len_ok b /\
  0 <= total pre /\ 0 <= total post /\ total (pre ++ b :: post) = total pre + b_len b + total post /\
  exists x, hdr (h_mem h) (heap_ptr h + (total pre + b_len b)) = Some x /\ after_hdr post (total pre + b_len b) (total pre) x.
Proof.
  intros W. pose proof (hw_seg _ _ W) as Hs. pose proof (seg_len _ _ _ _ _ Hs) as Hl.
  apply seg_app in Hs as [_ Hs]. rewrite Z.add_0_l in Hs. destruct Hs as (H1 & H2 & H3).
  assert (total (pre ++ b :: post) = total pre + b_len b + total post) as Et by (rewrite total_app, total_cons; lia).
  apply Forall_app in Hl as [Hl1 [_ Hl2]%Forall_cons]. apply total_bound in Hl1, Hl2.
  split_and!; [done|done|lia|lia|done|]. destruct post as [|c post].
  - destruct (hw_end _ _ W) as [pv E]. rewrite (hw_heap_end _ _ W), Et in E. cbn [total foldr] in E. rewrite Z.add_0_r in E.
    exists (Hm HEAP_MAGIC 1 (total pre + b_len b) pv). split; [done|]. by exists pv.
  - destruct H3 as (H3 & _). by eexists.
Qed.

(** Rewriting the middle of the list. *)
Lemma wf_replace h pre mid post m f mid' lf us mx x :
  heap_wf h (pre ++ mid ++ post) -> view (h_mem h) m f ->
  (forall a, is_Some (f !! a) -> heap_ptr h + total pre <= a /\ (a + 12 <= heap_ptr h + (total pre + total mid) \/ a = heap_ptr h + (total pre + total mid))) ->
  seg m (heap_ptr h) (last_start 0 0 pre) (total pre) mid' -> total mid' = total mid -> mid' <> [] ->
  hdr m (heap_ptr h + (total pre + total mid)) = Some x ->
  after_hdr post (total pre + total mid) (last_start (last_start 0 0 pre) (total pre) mid') x ->
  (lf - heap_ptr h ∈ free_starts 0 (pre ++ mid' ++ post) \/ lf = heap_end h) ->
  us = used_total (pre ++ mid' ++ post) -> us <= mx ->
  heap_wf (mkHeap m (heap_ptr h) (heap_end h) lf (mem_size_aligned h) us mx) (pre ++ mid' ++ post).
Proof.
  intros W V Hf Hmid Et Hne Hx Hpost Hlf -> Hmx. pose proof W as [H1 H2 H3 H4 H5 H6 H7 H8 _ _ _].
  assert (total (pre ++ mid' ++ post) = total (pre ++ mid ++ post)) as Et' by (rewrite !total_app; lia).
  pose proof (seg_len _ _ _ _ _ H1) as Hl. apply Forall_app in Hl as [Hl1 [Hl2 Hl3]%Forall_app].
  apply seg_app in H1 as [S1 S2]. rewrite Z.add_0_l in S2. apply seg_app in S2 as [S2 S3].
  apply total_bound in Hl1, Hl2, Hl3. assert (total (pre ++ mid ++ post) = total pre + total mid + total post) as Et2 by (rewrite !total_app; lia).
  assert (forall q, total pre + total mid + 12 <= q -> hdr m (heap_ptr h + q) = hdr (h_mem h) (heap_ptr h + q)) as Hback.
  { intros q Hq. apply (view_hdr_out _ _ _ _ V). intros a Ha%Hf. lia. }
  split; cbn [h_mem heap_ptr heap_end lfree mem_size_aligned used_mem max_mem]; rewrite ?Et'; try done.
  - apply seg_app. split; [|rewrite Z.add_0_l; apply seg_app; split; [done|]].
    + eapply seg_frame; [|done]. intros q Hq1 Hq2. apply (view_hdr_out _ _ _ _ V). intros a Ha%Hf. lia.
    + rewrite Et. destruct post as [|c post]; [done|]. cbn in Hpost. destruct S3 as (S3 & S4 & S5).
      rewrite total_cons in *. destruct S4 as [S4 S4']. pose proof (total_bound _ (seg_len _ _ _ _ _ S5)).
      split_and!; [by rewrite Hx, Hpost|done|]. eapply seg_frame; [|done]. intros q Hq1 Hq2. apply Hback. lia.
  - destruct post as [|c post].
    + destruct Hpost as [pv ->]. exists pv. rewrite H3, Et2. cbn [total foldr]. rewrite Z.add_0_r. done.
    + destruct H2 as [pv E]. exists pv. rewrite <- E, H3. apply Hback. rewrite Et2.
      destruct S3 as (_ & [S4 _] & S5). rewrite total_cons in *. pose proof (total_bound _ (seg_len _ _ _ _ _ S5)). lia.
  - intros a Ha. by apply (vw_mapped V), H7.
  - by apply (vw_bytes V).
Qed.

(** The bytes of used blocks outside the middle do not change. *)
Lemma view_data h pre mid post m f a :
  heap_wf h (pre ++ mid ++ post) -> view (h_mem h) m f ->
  (forall a, is_Some (f !! a) -> heap_ptr h + total pre <= a /\ (a + 12 <= heap_ptr h + (total pre + total mid) \/ a = heap_ptr h + (total pre + total mid))) ->
  in_data 0 pre a \/ in_data (total pre + total mid) post a -> m !! (heap_ptr h + a) = h_mem h !! (heap_ptr h + a).
Proof.
  intros W V Hf Ha. apply (vw_frame V). intros b Hb%Hf. pose proof (seg_len _ _ _ _ _ (hw_seg _ _ W)) as Hl.
  apply Forall_app in Hl as [Hl1 [Hl2 Hl3]%Forall_app].
  destruct Ha as [Ha%in_data_bound|Ha%in_data_bound]; [lia|done|lia|done].
Qed.

(** Looking up a followed header. *)
Ltac look := repeat first [rewrite lookup_insert_eq | rewrite lookup_insert_ne by lia]; reflexivity.

(** A followed header is one of those named. *)
Ltac in_view := let c := fresh in let Hc := fresh in intros c; rewrite ?lookup_insert_is_Some'; intros Hc;
  repeat (destruct Hc as [Hc|Hc]; [subst; try lia|]); try (by destruct Hc as [? ?%lookup_empty_Some]).
(** One read or store of a followed header. *)
Ltac hget lem V := kstep; eapply lem; [exact V|look|]; cbn [hm_magic hm_used hm_next hm_prev blk_hdr].
Ltac hset lem V := kstep; eapply lem; [exact V|look|]; clear V; let m := fresh "m" in intros m V; cbn [hm_magic hm_used hm_next hm_prev blk_hdr] in V.

(** ** Search *)

(** The first block that is free, large enough, and not too close to the end. *)
Fixpoint first_fit (size_aligned size p : Z) (bs : list blk) : option Z :=
  match bs with
  | [] => None
  | b :: bs =>
      if negb (b_used b) && (size + 12 <=? b_len b) && (p <? size_aligned - size) then Some p
      else first_fit size_aligned size (p + b_len b) bs
  end.

Lemma first_fit_late sa size p bs : Forall len_ok bs -> sa - size <= p -> first_fit sa size p bs = None.
Proof.
  intros Hl. revert p. induction Hl as [|b bs [Hb _] Hl IH]; intros p Hp; cbn [first_fit]; [done|].
  rewrite (proj2 (Z.ltb_ge p _)), andb_false_r by lia. apply IH. lia.
Qed.
Lemma first_fit_Some sa size p bs q : first_fit sa size p bs = Some q ->
  exists pre b post, bs = pre ++ b :: post /\ q = p + total pre /\ b_used b = false /\ size + 12 <= b_len b /\ q < sa - size.
Proof.
  revert p. induction bs as [|b bs IH]; intros p; cbn [first_fit]; [done|].
  destruct (negb (b_used b) && (size + 12 <=? b_len b) && (p <? sa - size)) eqn:E.
  - intros [= <-]. exists [], b, bs. apply andb_true_iff in E as [[E1%negb_true_iff E2%Z.leb_le]%andb_true_iff E3%Z.ltb_lt].
    split_and!; [done|cbn; lia|done..].
  - intros (pre & c & post & -> & -> & ?)%IH. exists (b :: pre), c, post. rewrite total_cons. split; [done|]. split; [lia|done].
Qed.

Lemma malloc_search_wp h bs0 pre bs size fuel :
  heap_wf h bs0 -> bs0 = pre ++ bs -> 12 <= size <= mem_size_aligned h -> (length bs < fuel)%nat ->
  wp (malloc_search fuel size (total pre)) h (fun r h' => h' = h /\ r = first_fit (mem_size_aligned h) size (total pre) bs).
Proof.
  intros W -> Hs. revert pre fuel W. induction bs as [|b bs IH]; intros pre fuel W Hf.
  - pose proof (hw_size _ _ W). rewrite app_nil_r in *. pose proof (hw_ptr _ _ W).
    destruct fuel as [|fuel]; [cbn in Hf; lia|]. cbn [malloc_search]. kstep. kstep. rewrite u32_small by lia.
    rewrite (proj2 (Z.ltb_ge _ _)) by lia. by kstep.
  - destruct (wf_at h pre b bs W) as (E & [Hb Hb4] & Hp & Hq & Et & _). pose proof (hw_size _ _ W). pose proof (hw_ptr _ _ W).
    destruct fuel as [|fuel]; [cbn in Hf; lia|]. cbn [malloc_search first_fit]. kstep. kstep. rewrite u32_small by lia.
    destruct (Z.ltb_spec (total pre) (mem_size_aligned h - size)) as [Hlt|Hge].
    + pose proof (view_add _ _ _ _ _ (view_empty (h_mem h)) E ltac:(by intros ? [? ?%lookup_empty_Some])) as V.
      kstep. eapply wp_get_used; [exact V|look|]. kstep. eapply wp_get_next; [exact V|look|]. cbn [blk_hdr hm_used hm_next].
      unfold SIZEOF_STRUCT_MEM. rewrite u32_small by lia. rewrite andb_true_r.
      assert (((if b_used b then 1 else 0) =? 0) = negb (b_used b)) as -> by (by destruct (b_used b)).
      assert ((size <=? total pre + b_len b - (total pre + 12)) = (size + 12 <=? b_len b)) as ->
        by (destruct (Z.leb_spec (size + 12) (b_len b)); [apply Z.leb_le|apply Z.leb_gt]; lia).
      destruct (negb (b_used b) && (size + 12 <=? b_len b)); [by kstep|].
      replace (total pre + b_len b) with (total (pre ++ [b])) by (rewrite total_app; cbn; lia).
      apply IH; [by rewrite <- app_assoc|cbn in Hf; lia].
    + rewrite andb_false_r. kstep. split; [done|]. symmetry. apply first_fit_late; [|lia].
      pose proof (seg_len _ _ _ _ _ (hw_seg _ _ W)) as Hl. apply Forall_app in Hl as [_ [_ Hl]%Forall_cons]. done.
Qed.

(** ** The lowest free block *)

(** Where the first free block of [bs] starts, or where [bs] ends. *)
Fixpoint first_free (p : Z) (bs : list blk) : Z :=
  match bs with [] => p | b :: bs => if b_used b then first_free (p + b_len b) bs else p end.

Lemma first_free_in p bs : first_free p bs ∈ free_starts p bs \/ first_free p bs = p + total bs.
Proof.
  revert p. induction bs as [|b bs IH]; intros p; cbn [first_free free_starts]; [right; cbn; lia|]. rewrite total_cons.
  destruct (b_used b); [destruct (IH (p + b_len b)) as [?|?]; [by left|right; lia]|]. left. cbn. left.
Qed.

Lemma skip_used_wp m hp he sa us mx pre bs fuel pv :
  seg m hp pv (total pre) bs -> he = hp + (total pre + total bs) ->
  (exists pv', hdr m he = Some (Hm HEAP_MAGIC 1 (total pre + total bs) pv')) -> (length bs <= fuel)%nat ->
  wp (skip_used fuel) (mkHeap m hp he (hp + total pre) sa us mx) (fun _ h' => h' = mkHeap m hp he (hp + first_free (total pre) bs) sa us mx).
Proof.
  revert pre fuel pv. induction bs as [|b bs IH]; intros pre fuel pv Hs He [pv' Hend] Hf.
  - rewrite Z.add_0_r in *. pose proof (view_add _ _ _ _ _ (view_empty m) Hend ltac:(by intros ? [? ?%lookup_empty_Some])) as V.
    rewrite He in V. destruct fuel as [|fuel]; cbn [skip_used]; kstep; kstep; kstep; (eapply wp_get_used; [exact V|cbn [lfree]; look|]);
      cbn [lfree heap_end hm_used]; rewrite He, Z.eqb_refl, andb_false_r; by kstep.
  - destruct Hs as (E & [Hb Hb4] & Hs). pose proof (total_bound _ (seg_len _ _ _ _ _ Hs)).
    pose proof (view_add _ _ _ _ _ (view_empty m) E ltac:(by intros ? [? ?%lookup_empty_Some])) as V.
    rewrite total_cons in He, Hend. destruct fuel as [|fuel]; [cbn in Hf; lia|]. cbn [skip_used first_free]. kstep. kstep. kstep.
    eapply wp_get_used; [exact V|cbn [lfree]; look|]. cbn [lfree heap_end blk_hdr hm_used]. destruct (b_used b).
    + rewrite (proj2 (Z.eqb_neq (hp + total pre) he)) by lia. cbn [Z.eqb negb andb]. kstep. eapply wp_get_next; [exact V|look|].
      kstep. kstep. cbn [blk_hdr hm_next heap_ptr]. unfold set_lfree. cbn [h_mem heap_ptr heap_end mem_size_aligned used_mem max_mem].
      assert (total (pre ++ [b]) = total pre + b_len b) as Ep by (rewrite total_app; cbn; lia). rewrite <- Ep in *.
      apply (IH _ _ (total pre)); [done|lia|exists pv'; rewrite Hend; do 2 f_equal; lia|cbn in Hf; lia].
    + cbn [Z.eqb negb andb]. by kstep.
Qed.

(** ** Taking a block *)

(** The blocks rt_malloc makes of a free block. *)
Definition place (size : Z) (b : blk) : list blk :=
  if size + 36 <=? b_len b then [Blk true (size + 12); Blk false (b_len b - size - 12)] else [Blk true (b_len b)].

(** The variables that only rt_system_heap_init sets. *)
Definition same_heap (h h' : heap) : Prop :=
  heap_ptr h' = heap_ptr h /\ heap_end h' = heap_end h /\ mem_size_aligned h' = mem_size_aligned h.

Lemma total_place size b : total (place size b) = b_len b.
Proof. unfold place. destruct (_ <=? _); cbn; lia. Qed.
Lemma place_ne size b : place size b <> [].
Proof. unfold place. by destruct (_ <=? _). Qed.

Lemma wf_set_lfree h bs lf m hp he lf0 sa us mx :
  heap_wf h bs -> h = mkHeap m hp he lf0 sa us mx -> (lf - hp ∈ free_starts 0 bs \/ lf = he) -> heap_wf (mkHeap m hp he lf sa us mx) bs.
Proof. intros [H1 H2 H3 H4 H5 H6 H7 H8 H9 H10 H11] -> Hlf. by split. Qed.

(** The end of [malloc_take], on a heap whose blocks are [pre ++ bs]. *)
Lemma take_tail_wp m hp he lf0 lf sa us mx pre bs fuel :
  heap_wf (mkHeap m hp he lf0 sa us mx) (pre ++ bs) -> (length bs <= fuel)%nat ->
  wp (lf <- gets lfree ;;
      when (hp + total pre =? lf)
        (skip_used fuel ;; lf <- gets lfree ;; u <- get_used lf ;; RT_ASSERT ((lf =? he) || (u =? 0))))
    (mkHeap m hp he lf sa us mx)
    (fun _ h' => h' = mkHeap m hp he (if hp + total pre =? lf then hp + first_free (total pre) bs else lf) sa us mx).
Proof.
  intros W Hf. kstep. kstep. cbn [lfree]. destruct (Z.eqb_spec (hp + total pre) lf) as [<-|Hn]; unfold when; [|by kstep].
  pose proof (hw_seg _ _ W) as Hs. apply seg_app in Hs as [_ Hs]. rewrite Z.add_0_l in Hs. cbn [h_mem heap_ptr] in Hs.
  pose proof (hw_heap_end _ _ W) as He. cbn in He. rewrite total_app in He.
  destruct (hw_end _ _ W) as [pv Hend]. cbn [h_mem heap_end] in Hend. rewrite total_app in Hend.
  kstep. eapply wp_mono; [apply (skip_used_wp m hp he sa us mx pre bs fuel _ Hs); [done|by eexists|done]|]. intros [] ? ->.
  kstep. kstep. cbn [lfree]. kstep. destruct (first_free_in (total pre) bs) as [Hin|Heq].
  - destruct (free_starts_split _ _ _ Hin) as (lo & c & hi & -> & Hc & Ec). rewrite Ec.
    replace (total pre + total lo) with (total (pre ++ lo)) in * by (by rewrite total_app).
    rewrite app_assoc in W. destruct (wf_at _ _ _ _ W) as (E & _). cbn [h_mem heap_ptr] in E.
    pose proof (view_add _ _ _ _ _ (view_empty m) E ltac:(by intros ? [? ?%lookup_empty_Some])) as V.
    eapply wp_get_used; [exact V|look|]. apply wp_assert; [|done]. cbn [blk_hdr hm_used]. rewrite Hc. apply orb_true_r.
  - rewrite Heq. pose proof (view_add _ _ _ _ _ (view_empty m) Hend ltac:(by intros ? [? ?%lookup_empty_Some])) as V. rewrite He in V.
    eapply wp_get_used; [exact V|look|]. apply wp_assert; [|done]. by rewrite He, Z.eqb_refl.
Qed.

Lemma account_wp n h (Q : unit -> heap -> Prop) :
  0 <= used_mem h + n < 2 ^ 32 -> Q tt (set_stats (used_mem h + n) (Z.max (max_mem h) (used_mem h + n)) h) -> wp (account n) h Q.
Proof.
  intros Hr HQ. unfold account. kstep. rewrite u32_small by done.
  by replace (Z.max (max_mem h) (used_mem h + n)) with (if max_mem h <? used_mem h + n then used_mem h + n else max_mem h) in HQ
    by (destruct (Z.ltb_spec (max_mem h) (used_mem h + n)); lia).
Qed.

Lemma len_ok_place size b : len_ok b -> 12 <= size -> size `mod` 4 = 0 -> Forall len_ok (place size b).
Proof.
  intros [H1 H2] Hs Hs4. unfold place. destruct (Z.leb_spec (size + 36) (b_len b)); [|by repeat constructor].
  apply Forall_cons_2; [|apply Forall_cons_2; [|apply Forall_nil_2]]; split; cbn [b_len]; try lia; Z.div_mod_to_equations; lia.
Qed.

(** ** Splitting a block

    rt_malloc and rt_realloc write a new header behind the first [size] bytes of
    a block, and link it in. *)

Section split.
Context (h0 h : heap) (pre : list blk) (b : blk) (post : list blk) (size : Z).
Hypothesis (W : heap_wf h0 (pre ++ b :: post)) (Em : h_mem h = h_mem h0) (Ep : heap_ptr h = heap_ptr h0).
Hypothesis (Hs : 0 < size) (Hfit : size + 28 <= b_len b).
Local Notation p := (total pre).
Local Notation p2 := (total pre + 12 + size).
Local Notation nx := (total pre + b_len b).

(** The headers of the block, of the remainder and behind it. *)
Definition split_view (m : mem) (used : Z) (x : heap_mem) : Prop :=
  view (h_mem h0) m (<[heap_ptr h0 + p := Hm HEAP_MAGIC used p2 (last_start 0 0 pre)]>
    (<[heap_ptr h0 + p2 := Hm HEAP_MAGIC 0 nx p]> (<[heap_ptr h0 + nx := x]> ∅))).

Lemma split_bounds : 0 <= p /\ nx <= total (pre ++ b :: post) /\ 0 <= heap_ptr h0 /\ heap_ptr h0 + total (pre ++ b :: post) + 12 <= 2 ^ 32.
Proof using All.
  destruct (wf_at h0 pre b post W) as (_ & _ & ? & ? & ? & _). destruct (hw_ptr _ _ W) as (? & _ & ?). lia.
Qed.

Lemma split_wp {A} (k : H A) (Q : A -> heap -> Prop) :
  (forall m x, after_hdr post nx p x -> split_view m (if b_used b then 1 else 0) x -> wp k (set_h_mem m h) Q) ->
  wp (set_magic (heap_ptr h0 + p2) HEAP_MAGIC ;;
      set_used (heap_ptr h0 + p2) 0 ;;
      n <- get_next (heap_ptr h0 + p) ;; set_next (heap_ptr h0 + p2) n ;;
      set_prev (heap_ptr h0 + p2) p ;;
      set_next (heap_ptr h0 + p) p2 ;; k) h Q.
Proof using All.
  intros Hk. destruct (wf_at h0 pre b post W) as (E & [Hb Hb4] & Hp & Hq & Et & xn & En & Hn).
  pose proof split_bounds as (_ & B1 & B2 & B3).
  destruct (hdr_mapped (h_mem h0) (heap_ptr h0 + p2)) as [x2 E2]; [intros c Hc; apply (hw_mapped _ _ W); lia|].
  assert (view (h_mem h0) (h_mem h) (<[heap_ptr h0 + nx := xn]> (<[heap_ptr h0 + p2 := x2]> (<[heap_ptr h0 + p := blk_hdr b p (last_start 0 0 pre)]> ∅)))) as V.
  { rewrite Em. apply view_add; [apply view_add; [apply view_add; [apply view_empty|done|]|done|]|done|]; in_view. }
  hset wp_set_magic V. hset wp_set_used V. hget wp_get_next V. hset wp_set_next V. hset wp_set_prev V. hset wp_set_next V.
  apply (Hk _ xn Hn). unfold split_view. rewrite !u32_small in V by lia.
  match type of V with view _ _ ?f => replace f with (<[heap_ptr h0 + p := Hm HEAP_MAGIC (if b_used b then 1 else 0) p2 (last_start 0 0 pre)]>
    (<[heap_ptr h0 + p2 := Hm HEAP_MAGIC 0 nx p]> (<[heap_ptr h0 + nx := xn]> (∅ : gmap Z heap_mem)))) in V; [done|] end.
  apply map_eq. intros c. rewrite !lookup_insert. repeat case_decide; try done; lia.
Qed.

(** Linking the block behind the remainder back to it, unless it is the end. *)
Lemma relink_wp {A} m used x (k : H A) (Q : A -> heap -> Prop) :
  split_view m used x -> after_hdr post nx p x ->
  (forall m x, after_hdr post nx p2 x -> split_view m used x -> wp k (set_h_mem m h) Q) ->
  wp (nx2 <- get_next (heap_ptr h0 + p2) ;;
      when (negb (nx2 =? u32 (mem_size_aligned h0 + SIZEOF_STRUCT_MEM))) (set_prev (heap_ptr h0 + nx2) p2) ;; k) (set_h_mem m h) Q.
Proof using All.
  intros V Hx Hk. destruct (wf_at h0 pre b post W) as (_ & [Hb Hb4] & Hp & Hq & Et & _). pose proof (hw_size _ _ W) as Hsz.
  pose proof (seg_len _ _ _ _ _ (hw_seg _ _ W)) as Hl. apply Forall_app in Hl as [_ [_ Hl]%Forall_cons].
  pose proof split_bounds as (_ & B1 & B2 & B3). unfold split_view in V. unfold SIZEOF_STRUCT_MEM.
  rewrite u32_small by lia.
  hget wp_get_next V. kstep. destruct (Z.eqb_spec nx (mem_size_aligned h0 + 12)) as [Ee|Ee]; cbn [negb when].
  - kstep. apply (Hk m x); [|done]. destruct post as [|c post']; [done|].
    apply Forall_cons in Hl as [[Hc _] Hl]. apply total_bound in Hl. rewrite total_cons in *. lia.
  - eapply wp_set_prev; [exact V|look|]. clear V. intros m' V. apply (Hk m' _ (after_hdr_prev _ _ _ p2 _ Hx)). unfold split_view.
    rewrite u32_small in V by lia.
    match type of V with view _ _ ?f => replace f with (<[heap_ptr h0 + p := Hm HEAP_MAGIC used p2 (last_start 0 0 pre)]>
      (<[heap_ptr h0 + p2 := Hm HEAP_MAGIC 0 nx p]> (<[heap_ptr h0 + nx := Hm (hm_magic x) (hm_used x) (hm_next x) p2]> (∅ : gmap Z heap_mem)))) in V; [done|] end.
    apply map_eq. intros c. rewrite !lookup_insert. repeat case_decide; try done; lia.
Qed.
End split.

(** What [malloc_take] establishes. *)
Definition taken (h : heap) (pre : list blk) (b : blk) (post : list blk) (size : Z) (h' : heap) : Prop :=
  same_heap h h' /\ (exists lf0, heap_wf (set_lfree lf0 h') (pre ++ place size b ++ post)) /\
  lfree h' = (if heap_ptr h + total pre =? lfree h then heap_ptr h + first_free (total pre) (place size b ++ post) else lfree h) /\
  forall a, in_data 0 (pre ++ b :: post) a -> h_mem h' !! (heap_ptr h + a) = h_mem h !! (heap_ptr h + a).

Section take.
Context (h : heap) (pre : list blk) (b : blk) (post : list blk) (size : Z).
Hypothesis (W : heap_wf h (pre ++ b :: post)) (Hbu : b_used b = false).
Hypothesis (Hs : 12 <= size) (Hfit : size + 12 <= b_len b) (Hs4 : size `mod` 4 = 0).

(** [n] bytes more are used. *)
Lemma take_used n : n = (if size + 36 <=? b_len b then size + 12 else b_len b) ->
  used_total (pre ++ place size b ++ post) = used_mem h + n /\ 0 <= used_mem h + n < 2 ^ 32.
Proof using All.
  intros ->. destruct (wf_at h pre b post W) as (_ & Hb & _ & _ & Et & _). pose proof (hw_ptr _ _ W) as (? & _ & ?). rewrite Et in *.
  assert (used_total (pre ++ place size b ++ post) = used_mem h + (if size + 36 <=? b_len b then size + 12 else b_len b)) as E.
  { rewrite (hw_used _ _ W), !used_total_app, used_total_cons, Hbu. unfold place. destruct (_ <=? _); cbn; lia. }
  split; [done|]. rewrite <- E. pose proof (seg_len _ _ _ _ _ (hw_seg _ _ W)) as Hl. apply Forall_app in Hl as [Hl1 [_ Hl2]%Forall_cons].
  assert (Forall len_ok (pre ++ place size b ++ post)) as Hl.
  { apply Forall_app; split; [done|]. apply Forall_app; split; [by apply len_ok_place|done]. }
  pose proof (used_total_bound _ Hl) as Hb2. rewrite !total_app, total_place in Hb2. lia.
Qed.

Lemma take_finish m f x mx fuel :
  view (h_mem h) m f ->
  (forall a, is_Some (f !! a) -> heap_ptr h + total pre <= a /\ (a + 12 <= heap_ptr h + (total pre + b_len b) \/ a = heap_ptr h + (total pre + b_len b))) ->
  seg m (heap_ptr h) (last_start 0 0 pre) (total pre) (place size b) ->
  hdr m (heap_ptr h + (total pre + b_len b)) = Some x ->
  after_hdr post (total pre + b_len b) (last_start (last_start 0 0 pre) (total pre) (place size b)) x ->
  used_total (pre ++ place size b ++ post) <= mx -> (length post + 2 <= fuel)%nat ->
  wp (lf <- gets lfree ;;
      when (heap_ptr h + total pre =? lf)
        (skip_used fuel ;; lf <- gets lfree ;; u <- get_used lf ;; RT_ASSERT ((lf =? heap_end h) || (u =? 0))))
    (mkHeap m (heap_ptr h) (heap_end h) (lfree h) (mem_size_aligned h) (used_total (pre ++ place size b ++ post)) mx)
    (fun _ h' => taken h pre b post size h').
Proof using All.
  intros V Hf Hseg Hx Hpost Hmx Hfuel. assert (total [b] = b_len b) as Eb by (cbn; lia).
  assert (heap_wf (mkHeap m (heap_ptr h) (heap_end h) (heap_end h) (mem_size_aligned h) (used_total (pre ++ place size b ++ post)) mx)
    (pre ++ place size b ++ post)) as W1.
  { apply (wf_replace h pre [b] post m f (place size b) (heap_end h) _ mx x W V);
      rewrite ?Eb; [done|done|apply total_place|apply place_ne|done|done|by right|reflexivity|done]. }
  eapply wp_mono; [apply (take_tail_wp _ _ _ _ _ _ _ _ _ _ _ W1)|].
  { rewrite length_app. unfold place. destruct (_ <=? _); cbn; lia. }
  intros [] h' ->. split; [done|]. split; [by exists (heap_end h)|]. split; [done|]. intros a Ha. cbn [h_mem].
  apply (view_data h pre [b] post m f a W V); [by rewrite Eb|]. rewrite Eb.
  apply in_data_app in Ha as [Ha|Ha]; [by left|]. cbn [in_data] in Ha. rewrite Z.add_0_l, Hbu in Ha. destruct Ha as [[? _]|Ha]; [done|by right].
Qed.

Lemma malloc_take_wp fuel : (length post + 2 <= fuel)%nat -> wp (malloc_take fuel size (total pre)) h (fun _ h' => taken h pre b post size h').
Proof using All.
  intros Hfuel. destruct (wf_at h pre b post W) as (E & [Hb Hb4] & Hp & Hq & Et & xn & En & Hn).
  pose proof (hw_size _ _ W) as Hsz. pose proof (hw_ptr _ _ W) as (Hp0 & _ & Hpr). pose proof (hw_max _ _ W) as Hmx. rewrite Et in *.
  pose proof (take_used _ eq_refl) as [Eu Hu].
  pose proof (view_add _ _ _ _ _ (view_empty (h_mem h)) E ltac:(by intros ? [? ?%lookup_empty_Some])) as V0.
  unfold malloc_take. kstep. kstep. hget wp_get_next V0.
  change MIN_SIZE_ALIGNED with 12. rewrite (u32_small (total pre + b_len b - _)) by (unfold SIZEOF_STRUCT_MEM; lia).
  assert ((size + SIZEOF_STRUCT_MEM + 12 <=? total pre + b_len b - (total pre + SIZEOF_STRUCT_MEM)) = (size + 36 <=? b_len b)) as ->
    by (unfold SIZEOF_STRUCT_MEM; destruct (Z.leb_spec (size + 36) (b_len b)); [apply Z.leb_le|apply Z.leb_gt]; lia).
  kstep. destruct (Z.leb_spec (size + 36) (b_len b)) as [Hsplit|Hwhole].
  - assert (place size b = [Blk true (size + 12); Blk false (b_len b - size - 12)]) as Epl
      by (unfold place; by rewrite (proj2 (Z.leb_le _ _)) by lia).
    rewrite (u32_small (total pre + SIZEOF_STRUCT_MEM + size)) by (unfold SIZEOF_STRUCT_MEM; lia).
    apply (split_wp h h pre b post size); [done|done|done|lia|lia|]. intros m x Hx V. unfold split_view in V.
    hset wp_set_used V. rewrite insert_insert_eq in V. change (u16 1) with 1 in V.
    apply (relink_wp h h pre b post size W eq_refl eq_refl ltac:(lia) ltac:(lia) _ 1 x); [exact V|done|]. clear V x Hx. intros m2 x Hx V.
    apply account_wp; [exact Hu|]. unfold split_view in V. hset wp_set_magic V. rewrite insert_insert_eq in V. change (u16 HEAP_MAGIC) with HEAP_MAGIC in V.
    pose proof (take_finish m1 _ x (Z.max (max_mem h) (used_mem h + (size + 12))) fuel V) as G. rewrite Eu, Epl in G. apply G; [|..|lia|done].
    + in_view.
    + cbn [seg].
      pose proof (vw_hdr V (heap_ptr h + total pre) _ ltac:(look)) as G1.
      pose proof (vw_hdr V (heap_ptr h + (total pre + 12 + size)) _ ltac:(look)) as G2.
      assert (len_ok (Blk true (size + 12)) /\ len_ok (Blk false (b_len b - size - 12))) as [L1 L2]
        by (split; split; cbn [b_len]; try lia; Z.div_mod_to_equations; lia).
      split; [rewrite G1; unfold blk_hdr; cbn [b_used b_len]; do 2 f_equal; lia|]. split; [done|]. cbn [b_len].
      split; [|done]. replace (total pre + (size + 12)) with (total pre + 12 + size) by lia.
      rewrite G2. unfold blk_hdr. cbn [b_used b_len]. do 2 f_equal. lia.
    + apply (vw_hdr V). look.
    + cbn [last_start b_len]. by replace (total pre + (size + 12)) with (total pre + 12 + size) by lia.
  - assert (place size b = [Blk true (b_len b)]) as Epl by (unfold place; by rewrite (proj2 (Z.leb_gt _ _)) by lia).
    hset wp_set_used V0. rewrite insert_insert_eq in V0. hget wp_get_next V0.
    replace (total pre + b_len b - (heap_ptr h + total pre - heap_ptr h)) with (b_len b) by lia.
    apply account_wp; [exact Hu|]. hset wp_set_magic V0. rewrite insert_insert_eq in V0.
    pose proof (take_finish m0 _ xn (Z.max (max_mem h) (used_mem h + b_len b)) fuel V0) as G. rewrite Eu, Epl in G. apply G; [|..|lia|done].
    + in_view.
    + cbn [seg]. split_and!; [|by split|done]. apply (vw_hdr V0). look.
    + rewrite <- En. apply (view_hdr_out _ _ _ _ V0). in_view.
    + done.
Qed.
End take.

(** ** Joining free blocks *)

(** What giving memory back keeps: the static variables, the data of used blocks;
    lfree does not move up. *)
Definition heap_kept (h h' : heap) (bs : list blk) : Prop :=
  same_heap h h' /\ lfree h' <= lfree h /\ forall a, in_data 0 bs a -> h_mem h' !! (heap_ptr h + a) = h_mem h !! (heap_ptr h + a).
(** Joining free blocks also leaves lfree at the end if it was there. *)
Definition given (h h' : heap) (bs : list blk) : Prop :=
  same_heap h h' /\ (lfree h' <= lfree h /\ (lfree h = heap_end h -> lfree h' = lfree h)) /\
  forall a, in_data 0 bs a -> h_mem h' !! (heap_ptr h + a) = h_mem h !! (heap_ptr h + a).

(** The bytes at [a] read as the header of a block that is not used. *)
Definition unused (h : heap) (a : Z) : Prop := exists x, hdr (h_mem h) a = Some x /\ hm_used x = 0.

Section join.
Context (h : heap) (pre : list blk) (b c : blk) (post : list blk).
Hypothesis (W : heap_wf h (pre ++ b :: c :: post)) (Hb : b_used b = false) (Hc : b_used c = false).

(** The two headers and the one behind, which exist. *)
Lemma join_view : exists x, after_hdr post (total pre + b_len b + b_len c) (total pre + b_len b) x /\
  16 <= b_len b /\ 16 <= b_len c /\ 0 <= total pre /\ 0 <= heap_ptr h /\ 0 <= total post /\
  total (pre ++ b :: c :: post) = total pre + b_len b + b_len c + total post /\
  heap_ptr h + (total pre + b_len b + b_len c + total post) + 12 <= 2 ^ 32 /\
  view (h_mem h) (h_mem h) (<[heap_ptr h + total pre := blk_hdr b (total pre) (last_start 0 0 pre)]>
    (<[heap_ptr h + (total pre + b_len b) := blk_hdr c (total pre + b_len b) (total pre)]>
    (<[heap_ptr h + (total pre + b_len b + b_len c) := x]> ∅))).
Proof using All.
  destruct (wf_at h pre b (c :: post) W) as (E1 & [L1 _] & B1 & _ & Et & x1 & E2 & ->).
  pose proof W as W'. rewrite (cons_middle b pre (c :: post)), app_assoc in W'.
  destruct (wf_at h _ _ _ W') as (_ & [L2 _] & _ & B2 & _ & x & E3 & Hx). rewrite total_cons in Et.
  assert (total (pre ++ [b]) = total pre + b_len b) as Ep by (rewrite total_app; cbn; lia). rewrite Ep in E3, Hx.
  destruct (hw_ptr _ _ W) as (? & _ & ?). exists x. split_and!; [done|lia..|].
  apply view_add; [apply view_add; [apply view_add; [apply view_empty|done|]|done|]|done|]; in_view.
Qed.

(** The stores that join the second block to the first. *)
Lemma join_wf m x :
  view (h_mem h) m (<[heap_ptr h + total pre := Hm HEAP_MAGIC 0 (total pre + b_len b + b_len c) (last_start 0 0 pre)]>
    (<[heap_ptr h + (total pre + b_len b) := blk_hdr c (total pre + b_len b) (total pre)]>
    (<[heap_ptr h + (total pre + b_len b + b_len c) := x]> ∅))) ->
  after_hdr post (total pre + b_len b + b_len c) (total pre) x ->
  let h' := mkHeap m (heap_ptr h) (heap_end h) (if lfree h =? heap_ptr h + (total pre + b_len b) then heap_ptr h + total pre else lfree h)
    (mem_size_aligned h) (used_mem h) (max_mem h) in
  heap_wf h' (pre ++ Blk false (b_len b + b_len c) :: post) /\ given h h' (pre ++ b :: c :: post) /\
  unused h' (heap_ptr h + total pre) /\ unused h' (heap_ptr h + (total pre + b_len b)).
Proof using All.
  intros V Hx h'. destruct join_view as (x0 & _ & L1 & L2 & B1 & B2 & B3 & Et & B4 & _).
  destruct (wf_at h pre b (c :: post) W) as (_ & [_ L1'] & _).
  pose proof W as W'. rewrite (cons_middle b pre (c :: post)), app_assoc in W'. destruct (wf_at h _ _ _ W') as (_ & [_ L2'] & _).
  assert (total [b; c] = b_len b + b_len c) as Em by (cbn; lia).
  match type of V with view _ _ ?f => assert (forall a, is_Some (f !! a) -> heap_ptr h + total pre <= a /\
    (a + 12 <= heap_ptr h + (total pre + total [b; c]) \/ a = heap_ptr h + (total pre + total [b; c]))) as Hf by (rewrite Em; in_view) end.
  split; [|split; [|split; eexists; (split; [apply (vw_hdr V); look|]); [done|by cbn; rewrite Hc]]].
  - unfold h'. eapply (wf_replace h pre [b; c] post m _ [Blk false (b_len b + b_len c)] _ _ _ x W V Hf); rewrite ?Em.
    + split_and!; [|split; cbn [b_len]; [lia|Z.div_mod_to_equations; lia]|done].
      rewrite (vw_hdr V _ _ ltac:(look)). unfold blk_hdr. cbn [b_used b_len]. do 2 f_equal. lia.
    + cbn. lia.
    + done.
    + rewrite (Z.add_assoc (total pre)). apply (vw_hdr V). look.
    + by rewrite (Z.add_assoc (total pre)).
    + destruct (hw_lfree _ _ W) as [Hl|Hl].
      * left. rewrite free_starts_app in Hl |- *. cbn [free_starts app] in Hl |- *. rewrite Hb, Hc in Hl. cbn [b_used b_len app] in Hl |- *.
        rewrite Z.add_0_l in *. replace (total pre + (b_len b + b_len c)) with (total pre + b_len b + b_len c) by lia.
        destruct (Z.eqb_spec (lfree h) (heap_ptr h + (total pre + b_len b))) as [El|El].
        -- replace (heap_ptr h + total pre - heap_ptr h) with (total pre) by lia. set_solver.
        -- rewrite elem_of_app, !elem_of_cons in Hl |- *. rewrite elem_of_cons in Hl. destruct Hl as [Hl|[Hl|[Hl|Hl]]]; [by left|by right; left|lia|by right; right].
      * right. rewrite (hw_heap_end _ _ W), Et in Hl |- *. by rewrite (proj2 (Z.eqb_neq _ _)) by lia.
    + rewrite (hw_used _ _ W), !used_total_app, !used_total_cons, Hb, Hc. cbn. lia.
    + apply (hw_max _ _ W).
  - unfold given, h'. cbn [lfree h_mem]. split; [done|].
    split; [rewrite (hw_heap_end _ _ W), Et; destruct (Z.eqb_spec (lfree h) (heap_ptr h + (total pre + b_len b))); lia|].
    intros a Ha. apply (view_data h pre [b; c] post m _ a W V Hf). rewrite Em. apply in_data_app in Ha as [Ha|Ha]; [by left|right].
    cbn [in_data] in Ha. rewrite Hb, Hc in Ha. rewrite Z.add_0_l in Ha. destruct Ha as [[? _]|[[? _]|Ha]]; [done..|].
    by replace (total pre + (b_len b + b_len c)) with (total pre + b_len b + b_len c) by lia.
Qed.
End join.

Lemma given_refl h bs : given h h bs.
Proof. by split_and!. Qed.

(** Forward and backward, as lists. *)
Definition merge_next (n : Z) (post : list blk) : Z * list blk :=
  match post with c :: post' => if b_used c then (n, post) else (n + b_len c, post') | [] => (n, []) end.

Lemma plug_forward_wp h pre n post :
  heap_wf h (pre ++ Blk false n :: post) ->
  wp (plug_forward (heap_ptr h + total pre)) h (fun _ h' =>
    heap_wf h' (pre ++ Blk false (fst (merge_next n post)) :: snd (merge_next n post)) /\ given h h' (pre ++ Blk false n :: post)).
Proof.
  intros W. destruct (wf_at h pre _ post W) as (E & [Hb _] & B1 & B2 & Et & x & En & Hx). cbn [b_len] in *.
  unfold plug_forward. kstep. kstep.
  assert (view (h_mem h) (h_mem h) (<[heap_ptr h + total pre := blk_hdr (Blk false n) (total pre) (last_start 0 0 pre)]> (<[heap_ptr h + (total pre + n) := x]> ∅))) as V.
  { apply view_add; [apply view_add; [apply view_empty|done|]|done|]; in_view. }
  hget wp_get_next V. cbn [b_len]. kstep. rewrite (proj2 (Z.eqb_neq (heap_ptr h + total pre) _)) by lia. cbn [negb]. hget wp_get_used V. kstep.
  destruct post as [|c post]; cbn [merge_next].
  - destruct Hx as [pv ->]. cbn [hm_used Z.eqb andb when]. kstep. split; [done|apply given_refl].
  - cbn in Hx. subst x. cbn [blk_hdr hm_used]. destruct (b_used c) eqn:Hc; [cbn [Z.eqb andb when]; kstep; split; [done|apply given_refl]|].
    destruct (join_view h pre (Blk false n) c post W) as (x & Hx & _ & L2 & _ & B3 & B4 & Et' & B5 & V'); [done|done|]. cbn [b_len] in *. clear V.
    rewrite (hw_heap_end _ _ W), Et'. rewrite (proj2 (Z.eqb_neq (heap_ptr h + (total pre + n)) _)) by lia. cbn [Z.eqb andb negb when fst snd].
    set (lf := if lfree h =? heap_ptr h + (total pre + n) then heap_ptr h + total pre else lfree h).
    kstep. eapply (wp_mono _ _ (fun _ h1 => h1 = set_lfree lf h)).
    { unfold when, lf. destruct (_ =? _); kstep; [done|by destruct h]. }
    intros [] ? ->. change (h_mem h) with (h_mem (set_lfree lf h)) in V' at 2.
    hget wp_get_next V'. cbn [b_len]. hset wp_set_next V'. rewrite insert_insert_eq in V'. hget wp_get_next V'.
    rewrite (u32_small (total pre + n + b_len c)) in V' by lia.
    eapply wp_set_prev; [exact V'|look|]. clear V'. intros m' V'. cbn [blk_hdr hm_magic hm_used hm_next hm_prev b_used b_len] in V'.
    rewrite u32_small in V' by lia. replace (heap_ptr h + total pre - heap_ptr h) with (total pre) in V' by lia.
    edestruct (join_wf h pre (Blk false n) c post W eq_refl Hc m' (Hm (hm_magic x) (hm_used x) (hm_next x) (total pre))) as (J1 & J2 & _); [| |exact (conj J1 J2)].
    + cbn [b_len]. match type of V' with view _ _ ?f => match goal with |- view _ _ ?g => replace g with f; [done|] end end.
      apply map_eq. intros k. rewrite !lookup_insert. repeat case_decide; try done; lia.
    + by apply (after_hdr_prev _ _ (total pre + n)).
Qed.

Lemma plug_backward_wp h pre n post :
  heap_wf h (pre ++ Blk false n :: post) ->
  wp (plug_backward (heap_ptr h + total pre)) h (fun _ h' => exists pre' k,
    (pre = pre' ++ [Blk false (k - n)] \/ (pre' = pre /\ k = n /\ forall lo c, pre = lo ++ [c] -> b_used c = true)) /\
    heap_wf h' (pre' ++ Blk false k :: post) /\ given h h' (pre ++ Blk false n :: post) /\ unused h' (heap_ptr h + total pre)).
Proof.
  intros W. destruct (wf_at h pre _ post W) as (E & [Hb _] & B1 & B2 & Et & x & En & Hx). cbn [b_len] in *.
  pose proof (view_add _ _ _ _ _ (view_empty (h_mem h)) E ltac:(by intros ? [? ?%lookup_empty_Some])) as V.
  unfold plug_backward. kstep. kstep. hget wp_get_prev V. kstep.
  destruct pre as [|c pre _] using rev_ind.
  - cbn [last_start total foldr]. rewrite Z.eqb_refl. cbn [negb]. kstep. cbn [when]. kstep. exists [], n.
    split_and!; [right; split_and!; [done|done|by intros [] ?]|done|apply given_refl|by eexists].
  - rewrite last_start_app. cbn [last_start]. rewrite Z.add_0_l. assert (total (pre ++ [c]) = total pre + b_len c) as Ep by (rewrite total_app; cbn; lia).
    pose proof W as W'. rewrite <- app_assoc in W'. cbn [app] in W'. destruct (wf_at h pre c _ W') as (E' & [Hlc _] & B1' & _ & _ & _). clear V.
    rewrite Ep in *. rewrite (proj2 (Z.eqb_neq (heap_ptr h + total pre) _)) by lia. cbn [negb].
    pose proof (view_add _ _ _ _ _ (view_empty (h_mem h)) E' ltac:(by intros ? [? ?%lookup_empty_Some])) as V. hget wp_get_used V. kstep.
    destruct (b_used c) eqn:Hc; cbn [Z.eqb when].
    { kstep. exists (pre ++ [c]), n. split_and!; [right; split_and!; [done|done|]|done|apply given_refl|by eexists].
      by intros lo d [-> [= ->]]%app_inj_tail. }
    destruct (join_view h pre c (Blk false n) post W') as (x' & Hx' & _ & _ & _ & B3 & B4 & Et' & B5 & V'); [done|done|]. cbn [b_len] in *. clear V.
    set (lf := if lfree h =? heap_ptr h + (total pre + b_len c) then heap_ptr h + total pre else lfree h).
    kstep. eapply (wp_mono _ _ (fun _ h1 => h1 = set_lfree lf h)).
    { unfold when, lf. destruct (_ =? _); kstep; [done|by destruct h]. }
    intros [] ? ->. change (h_mem h) with (h_mem (set_lfree lf h)) in V' at 2.
    hget wp_get_next V'. cbn [b_len]. hset wp_set_next V'. rewrite insert_insert_eq in V'. hget wp_get_next V'. cbn [b_len].
    rewrite (u32_small (total pre + b_len c + n)) in V' by lia.
    eapply wp_set_prev; [exact V'|look|]. clear V'. intros m' V'. cbn [blk_hdr hm_magic hm_used hm_next hm_prev b_used b_len] in V'.
    rewrite u32_small in V' by lia. replace (heap_ptr h + total pre - heap_ptr h) with (total pre) in V' by lia. rewrite Hc in V'.
    exists pre, (b_len c + n). split.
    + left. f_equal. destruct c as [u k]. cbn in *. subst u. do 2 f_equal. lia.
    + rewrite <- app_assoc. cbn [app].
      edestruct (join_wf h pre c (Blk false n) post W' Hc eq_refl m' (Hm (hm_magic x') (hm_used x') (hm_next x') (total pre))) as (J1 & J2 & _ & J3); [| |exact (conj J1 (conj J2 J3))].
      * cbn [b_len]. match type of V' with view _ _ ?f => match goal with |- view _ _ ?g => replace g with f; [done|] end end.
        apply map_eq. intros k. rewrite !lookup_insert. repeat case_decide; try done; lia.
      * by apply (after_hdr_prev _ _ (total pre + b_len c)).
Qed.

(** The list after the free block of length [n] between [pre] and [post] is joined
    with its free neighbours. *)
Definition merge (pre : list blk) (n : Z) (post : list blk) : list blk :=
  let n' := fst (merge_next n post) in
  let post' := snd (merge_next n post) in
  match last pre with
  | Some c => if b_used c then pre ++ Blk false n' :: post' else removelast pre ++ Blk false (b_len c + n') :: post'
  | None => pre ++ Blk false n' :: post'
  end.

Lemma merge_snoc pre c n post :
  merge (pre ++ [c]) n post = if b_used c then (pre ++ [c]) ++ Blk false (fst (merge_next n post)) :: snd (merge_next n post)
    else pre ++ Blk false (b_len c + fst (merge_next n post)) :: snd (merge_next n post).
Proof. unfold merge. by rewrite last_snoc, removelast_last. Qed.

(** A list function that skips free blocks and adds up over [++]: joining free
    blocks does not change it. *)
Lemma merge_next_coalesced n post : coalesced post ->
  coalesced (snd (merge_next n post)) /\ forall c hi, snd (merge_next n post) = c :: hi -> b_used c = true.
Proof.
  destruct post as [|c post]; cbn [merge_next]; [done|]. intros [H1 H2]. destruct (b_used c) eqn:E; cbn [snd].
  - split; [split; [rewrite E; exact H1|done]|]. by intros ? ? [= <- <-].
  - split; [done|]. intros d hi ->. by destruct H1 as [H1|H1].
Qed.
Lemma merge_coalesced pre n post : coalesced pre -> coalesced post -> coalesced (merge pre n post).
Proof.
  intros H1 H2. destruct (merge_next_coalesced n post H2) as [H3 H4].
  assert (forall k, coalesced (Blk false k :: snd (merge_next n post))) as H5.
  { intros k. split; [|done]. destruct (snd (merge_next n post)) as [|d hi]; [done|]. right. by apply (H4 d hi). }
  destruct pre as [|c pre _] using rev_ind; [exact (H5 _)|]. rewrite merge_snoc. destruct (b_used c) eqn:E.
  - apply coalesced_join; [done|apply H5|]. intros lo b d hi [-> [= ->]]%app_inj_tail _. by left.
  - pose proof (coalesced_app _ _ H1) as [H1' _]. apply coalesced_join; [done|apply H5|]. intros lo b d hi -> _.
    rewrite <- app_assoc in H1. apply coalesced_mid in H1. left. naive_solver congruence.
Qed.

Lemma plug_holes_wp h pre n post :
  heap_wf h (pre ++ Blk false n :: post) -> coalesced pre -> coalesced post ->
  wp (plug_holes (heap_ptr h + total pre)) h (fun _ h' =>
    heap_ok h' (merge pre n post) /\ given h h' (pre ++ Blk false n :: post) /\ unused h' (heap_ptr h + total pre)).
Proof.
  intros W C1 C2. destruct (wf_at h pre _ post W) as (E & [Hb _] & B1 & B2 & Et & _). cbn [b_len] in *.
  pose proof (view_add _ _ _ _ _ (view_empty (h_mem h)) E ltac:(by intros ? [? ?%lookup_empty_Some])) as V.
  unfold plug_holes. kstep. kstep. kstep. apply wp_assert; [apply Z.leb_le; lia|]. kstep.
  apply wp_assert; [apply Z.ltb_lt; rewrite (hw_heap_end _ _ W); lia|]. hget wp_get_used V. kstep. apply wp_assert; [done|].
  kstep. eapply wp_mono; [by apply plug_forward_wp|]. intros [] h1 [W1 G1]. pose proof G1 as ((Ep & Ee & Es) & Gl & Gd). rewrite <- Ep.
  eapply wp_mono; [by apply plug_backward_wp|]. intros [] h2 (pre' & k & Hpre & W2 & ((Ep2 & Ee2 & Es2) & Gl2 & Gd2) & U).
  assert (pre' ++ Blk false k :: snd (merge_next n post) = merge pre n post) as Em.
  { destruct Hpre as [->|(-> & -> & Hlast)].
    - rewrite merge_snoc. cbn [b_used b_len]. do 3 f_equal. lia.
    - destruct pre as [|c pre _] using rev_ind; [done|]. rewrite merge_snoc. by rewrite (Hlast pre c eq_refl). }
  split; [split; [by rewrite <- Em|by apply merge_coalesced]|]. split; [|by rewrite ?Ep in U |- *]. split; [unfold same_heap; split_and!; congruence|]. split; [lia|].
  intros a Ha. rewrite <- Ep. rewrite Gd2, Ep by (rewrite Z.add_0_r in * || idtac;
    apply in_data_app in Ha as [Ha|Ha]; apply in_data_app; [by left|right]; cbn [in_data b_used b_len] in *;
    destruct Ha as [[? _]|Ha]; [done|right]; destruct post as [|c post]; cbn [merge_next] in *; [done|];
    destruct (b_used c) eqn:Hc; [done|]; cbn [in_data] in Ha; rewrite Hc in Ha; destruct Ha as [[? _]|Ha]; [done|];
    cbn [fst snd]; by replace (0 + total pre + (n + b_len c)) with (0 + total pre + n + b_len c) by lia).
  by apply Gd.
Qed.

(** ** What the clients hold

    The used blocks, as offset and size of their data; and the condition under
    which rt_malloc overlooks no block: none is free below lfree. *)

Fixpoint live (p : Z) (bs : list blk) : list (Z * Z) :=
  match bs with [] => [] | b :: bs => (if b_used b then [(p + 12, b_len b - 12)] else []) ++ live (p + b_len b) bs end.
Definition lowest (h : heap) (bs : list blk) : Prop := forall a, a ∈ free_starts 0 bs -> lfree h <= heap_ptr h + a.

Lemma live_app p b1 b2 : live p (b1 ++ b2) = live p b1 ++ live (p + total b1) b2.
Proof.
  revert p. induction b1 as [|b b1 IH]; intros p; cbn [app live]; [by rewrite Z.add_0_r|].
  rewrite IH, total_cons, <- app_assoc. do 3 f_equal. lia.
Qed.
Lemma merge_next_live p n post :
  live (p + fst (merge_next n post)) (snd (merge_next n post)) = live (p + n) post /\
  free_starts (p + fst (merge_next n post)) (snd (merge_next n post)) ⊆ free_starts (p + n) post.
Proof.
  destruct post as [|c post]; cbn [merge_next]; [done|]. destruct (b_used c) eqn:E; [done|]. cbn [fst snd live free_starts].
  rewrite E, Z.add_assoc. split; [done|]. set_solver.
Qed.
Lemma merge_live pre n post :
  live 0 (merge pre n post) = live 0 (pre ++ Blk false n :: post) /\
  free_starts 0 (merge pre n post) ⊆ free_starts 0 (pre ++ Blk false n :: post).
Proof.
  pose proof (merge_next_live (0 + total pre) n post) as [L F]. destruct pre as [|c pre _] using rev_ind.
  - unfold merge. cbn [last app live free_starts b_used b_len total foldr] in *. rewrite !Z.add_0_r in *. rewrite L. split; [done|]. set_solver.
  - rewrite merge_snoc. destruct (b_used c) eqn:E.
    + rewrite !live_app, !free_starts_app. cbn [live free_starts b_used b_len app] in *. rewrite L. split; [done|]. set_solver.
    + rewrite <- (app_assoc pre), !live_app, !free_starts_app in *. cbn [app live free_starts b_used b_len] in *. rewrite E. cbn [app].
      rewrite total_app, total_cons in L, F. cbn [total foldr] in L, F. rewrite Z.add_0_r in L, F.
      replace (0 + total pre + (b_len c + fst (merge_next n post))) with (0 + (total pre + b_len c) + fst (merge_next n post)) by lia.
      assert (total [c] = b_len c) as -> by (cbn; lia).
      replace (0 + total pre + b_len c + n) with (0 + (total pre + b_len c) + n) by lia. rewrite L. split; [done|]. set_solver.
Qed.

(** ** Freeing a block *)

Lemma free_block_wp h pre b post :
  heap_ok h (pre ++ b :: post) -> b_used b = true ->
  wp (free_block (heap_ptr h + total pre)) h (fun _ h' =>
    heap_ok h' (merge pre (b_len b) post) /\ heap_kept h h' (pre ++ Blk false (b_len b) :: post) /\
    (lowest h (pre ++ b :: post) -> lowest h' (merge pre (b_len b) post)) /\ unused h' (heap_ptr h + total pre)).
Proof.
  intros [W C] Hu. destruct (wf_at h pre b post W) as (E & Hb & B1 & B2 & Et & xn & En & Hn).
  pose proof (view_add _ _ _ _ _ (view_empty (h_mem h)) E ltac:(by intros ? [? ?%lookup_empty_Some])) as V.
  destruct (coalesced_app _ _ C) as [C1 [_ C2]]. pose proof Hb as [Hb1 _].
  unfold free_block. hget wp_get_used V. rewrite Hu. kstep. apply wp_assert; [done|]. hget wp_get_magic V. kstep. apply wp_assert; [done|].
  hset wp_set_used V. rewrite insert_insert_eq in V. hset wp_set_magic V. rewrite insert_insert_eq in V.
  kstep. kstep. cbn [lfree set_h_mem]. set (lf := if heap_ptr h + total pre <? lfree h then heap_ptr h + total pre else lfree h).
  kstep. eapply (wp_mono _ _ (fun _ h1 => h1 = set_lfree lf (set_h_mem m0 h))).
  { unfold when, lf. destruct (_ <? _); kstep; [done|by destruct h]. }
  intros [] ? ->. change m0 with (h_mem (set_lfree lf (set_h_mem m0 h))) in V. hget wp_get_next V. kstep. kstep.
  cbn [used_mem max_mem heap_ptr set_lfree set_h_mem] in *.
  assert (used_total (pre ++ [Blk false (b_len b)] ++ post) = used_mem h - b_len b) as Eu
    by (rewrite (hw_used _ _ W), !used_total_app, !used_total_cons, Hu; cbn; lia).
  pose proof (seg_len _ _ _ _ _ (hw_seg _ _ W)) as Hl. apply Forall_app in Hl as [Hl1 [_ Hl2]%Forall_cons].
  pose proof (used_total_bound _ Hl1). pose proof (used_total_bound _ Hl2). destruct (hw_ptr _ _ W) as (? & _ & ?). rewrite Et in *.
  rewrite u32_small by (rewrite (hw_used _ _ W), used_total_app, used_total_cons, Hu; lia).
  replace (total pre + b_len b - (heap_ptr h + total pre - heap_ptr h)) with (b_len b) by lia. rewrite <- Eu.
  assert (total [b] = b_len b) as Eb by (cbn; lia).
  match type of V with view _ _ ?f => assert (forall a, is_Some (f !! a) -> heap_ptr h + total pre <= a /\
    (a + 12 <= heap_ptr h + (total pre + total [b]) \/ a = heap_ptr h + (total pre + total [b]))) as Hf by (rewrite Eb; in_view) end.
  assert (lf - heap_ptr h ∈ free_starts 0 (pre ++ [Blk false (b_len b)] ++ post) \/ lf = heap_end h) as Hlf.
  { unfold lf. destruct (Z.ltb_spec (heap_ptr h + total pre) (lfree h)).
    - left. replace (heap_ptr h + total pre - heap_ptr h) with (0 + total pre) by lia. rewrite free_starts_app. cbn [free_starts app b_used]. set_solver.
    - destruct (hw_lfree _ _ W) as [Hin|Hin]; [left|by right]. rewrite free_starts_app in Hin |- *. cbn [free_starts app b_used b_len] in *.
      rewrite Hu in Hin. set_solver. }
  set (h1 := set_stats _ _ _).
  assert (heap_wf h1 (pre ++ [Blk false (b_len b)] ++ post)) as W1.
  { eapply (wf_replace h pre [b] post _ _ [Blk false (b_len b)] lf _ _ xn W V Hf); rewrite ?Eb.
    - split_and!; [|done|done]. apply (vw_hdr V). look.
    - cbn. lia.
    - done.
    - rewrite <- En. apply (view_hdr_out _ _ _ _ V). in_view.
    - done.
    - done.
    - done.
    - rewrite Eu. pose proof (hw_max _ _ W). lia. }
  change (heap_ptr h) with (heap_ptr h1). eapply wp_mono; [by apply plug_holes_wp|]. intros [] h2 (Hok & ((Ep & Ee & Es) & Gl & Gd) & U).
  assert (lf <= lfree h /\ lf <= heap_ptr h + total pre) as Hlf' by (unfold lf; destruct (Z.ltb_spec (heap_ptr h + total pre) (lfree h)); lia).
  change (lfree h1) with lf in Gl. change (heap_ptr h1) with (heap_ptr h) in *.
  split_and!; [done| | |done].
  - split; [done|]. split; [lia|]. intros a Ha. rewrite Gd by done. change (h_mem h1) with m0.
    apply (view_data h pre [b] post _ _ a W V Hf). rewrite Eb. apply in_data_app in Ha as [Ha|Ha]; [by left|]. cbn [in_data b_used] in Ha.
    rewrite Z.add_0_l in Ha. destruct Ha as [[? _]|Ha]; [done|by right].
  - intros Hlow a Ha. rewrite Ep. apply (proj2 (merge_live pre (b_len b) post)) in Ha. rewrite free_starts_app in Ha.
    cbn [free_starts b_used b_len] in Ha. rewrite elem_of_app, elem_of_app, list_elem_of_singleton in Ha.
    destruct Ha as [Ha|[->|Ha]]; [|lia|]; (enough (lfree h <= heap_ptr h + a) by lia; apply Hlow; rewrite free_starts_app; cbn [free_starts]; rewrite Hu; set_solver).
Qed.

(** ** Shrinking a block *)

Lemma shrink_block_wp h pre b post newsize :
  heap_ok h (pre ++ b :: post) -> b_used b = true -> 0 < newsize -> newsize `mod` 4 = 0 -> newsize + 36 < b_len b ->
  let pre' := pre ++ [Blk true (newsize + 12)] in
  wp (shrink_block (heap_ptr h + total pre) newsize (b_len b - 12)) h (fun _ h' =>
    heap_ok h' (merge pre' (b_len b - newsize - 12) post) /\ given h h' (pre' ++ Blk false (b_len b - newsize - 12) :: post)).
Proof.
  intros [W C] Hu Hn Hn4 Hfit pre'. destruct (wf_at h pre b post W) as (E & [Hb Hb4] & B1 & B2 & Et & xn & En & Hnx).
  destruct (hw_ptr _ _ W) as (? & _ & ?). rewrite Et in *. destruct (coalesced_app _ _ C) as [C1 [_ C2]].
  pose proof (seg_len _ _ _ _ _ (hw_seg _ _ W)) as Hl. apply Forall_app in Hl as [Hl1 [_ Hl2]%Forall_cons].
  pose proof (used_total_bound _ Hl1). pose proof (used_total_bound _ Hl2).
  assert (used_mem h = used_total pre + (b_len b + used_total post)) as Euh by (by rewrite (hw_used _ _ W), used_total_app, used_total_cons, Hu).
  set (mid' := [Blk true (newsize + 12); Blk false (b_len b - newsize - 12)]).
  assert (used_total (pre ++ mid' ++ post) = used_mem h - (b_len b - 12 - newsize)) as Eu by (rewrite Euh, !used_total_app; cbn; lia).
  unfold shrink_block. kstep. kstep. rewrite u32_small by lia. rewrite <- Eu. kstep. kstep.
  set (h1 := set_stats _ _ h). change (heap_ptr h1) with (heap_ptr h). change (mem_size_aligned h1) with (mem_size_aligned h).
  replace (heap_ptr h + total pre - heap_ptr h) with (total pre) by lia. change SIZEOF_STRUCT_MEM with 12.
  rewrite (u32_small (total pre + 12 + newsize)) by lia.
  apply (split_wp h h1 pre b post newsize W eq_refl eq_refl); [lia..|]. intros m x Hx V.
  apply (relink_wp h h1 pre b post newsize W eq_refl eq_refl ltac:(lia) ltac:(lia) m _ x _ _ V Hx). clear V x Hx. intros m2 x Hx V.
  unfold split_view in V. rewrite Hu in V. assert (total [b] = b_len b) as Eb by (cbn; lia).
  match type of V with view _ _ ?f => assert (forall a, is_Some (f !! a) -> heap_ptr h + total pre <= a /\
    (a + 12 <= heap_ptr h + (total pre + total [b]) \/ a = heap_ptr h + (total pre + total [b]))) as Hf by (rewrite Eb; in_view) end.
  set (h2 := set_h_mem m2 h1). assert (heap_wf h2 (pre ++ mid' ++ post)) as W2.
  { eapply (wf_replace h pre [b] post m2 _ mid' (lfree h) (used_total (pre ++ mid' ++ post)) (max_mem h) x W V Hf); rewrite ?Eb.
    - pose proof (vw_hdr V (heap_ptr h + total pre) _ ltac:(look)) as G1.
      pose proof (vw_hdr V (heap_ptr h + (total pre + 12 + newsize)) _ ltac:(look)) as G2.
      assert (len_ok (Blk true (newsize + 12)) /\ len_ok (Blk false (b_len b - newsize - 12))) as [L1 L2]
        by (split; split; cbn [b_len]; try lia; Z.div_mod_to_equations; lia).
      unfold mid'. cbn [seg b_len]. split; [rewrite G1; unfold blk_hdr; cbn [b_used b_len]; do 2 f_equal; lia|]. split; [done|].
      split; [|done]. replace (total pre + (newsize + 12)) with (total pre + 12 + newsize) by lia.
      rewrite G2. unfold blk_hdr. cbn [b_used b_len]. do 2 f_equal. lia.
    - cbn. lia.
    - done.
    - apply (vw_hdr V). look.
    - cbn [last_start mid' b_len]. by replace (total pre + (newsize + 12)) with (total pre + 12 + newsize) by lia.
    - destruct (hw_lfree _ _ W) as [Hin|Hin]; [left|by right]. rewrite !free_starts_app in *. cbn [free_starts mid' app b_used b_len] in *.
      rewrite Hu in Hin. cbn [total foldr mid' b_len app] in *.
      replace (0 + total pre + (newsize + 12 + (b_len b - newsize - 12 + 0))) with (0 + total pre + b_len b) by lia. set_solver.
    - done.
    - rewrite Eu. pose proof (hw_max _ _ W). lia. }
  assert (heap_wf h2 (pre' ++ Blk false (b_len b - newsize - 12) :: post)) as W3.
  { unfold pre'. rewrite <- app_assoc. exact W2. }
  assert (total pre' = total pre + 12 + newsize) as Ep' by (unfold pre'; rewrite total_app; cbn; lia). rewrite <- Ep'.
  change (heap_ptr h) with (heap_ptr h2).
  eapply wp_mono; [apply plug_holes_wp; [done| |done]|].
  { unfold pre'. apply coalesced_join; [done|done|]. intros lo c d hi _ [= <- _]. by right. }
  intros [] h3 (Hok & ((Ep & Ee & Es) & Gl & Gd) & _). split; [done|]. split; [done|]. split; [done|]. intros a Ha. rewrite Gd by done.
  change (heap_ptr h2) with (heap_ptr h). change (h_mem h2) with m2. unfold pre' in Ha. rewrite <- app_assoc in Ha.
  apply in_data_app in Ha as [Ha|Ha].
  { apply (view_data h pre [b] post _ _ a W V Hf). by left. }
  cbn [in_data app b_used b_len] in Ha. rewrite Z.add_0_l in Ha. destruct Ha as [[_ Ha]|[[? _]|Ha]]; [|done|].
  - apply (vw_frame V). in_view.
  - apply (view_data h pre [b] post _ _ a W V Hf). right. rewrite Eb.
    by replace (total pre + b_len b) with (total pre + (newsize + 12) + (b_len b - newsize - 12)) by lia.
Qed.
