(* ===== verification/Memory.v ===== *)
(** * The heap (src/mem.c): what the routines promise

    rt_malloc, rt_free, rt_realloc and rt_calloc on a heap divided into blocks,
    with the heap semaphore around their critical sections.  [live] lists the
    blocks the clients hold; the theorems say which blocks a call adds, removes
    or moves, that no call touches the bytes of another block, and what remains
    true along any sequence of calls and client writes. *)

From S2P Require Import Prelude Ffs KState Kservice Wf Inv Sched Object Timer Thread TimerRun Sleep Ipc Sem Mem MemBlocks MemOps.

Lemma wp_in_k {A} (m : K A) k h a k' (Q : A -> mst -> Prop) : m k = Ok a k' -> Q a (mkMst k' h) -> wp (in_k m) (mkMst k h) Q.
Proof. intros E HQ. unfold wp, in_k, zoom. cbn. by rewrite E. Qed.
Lemma wp_in_h {A} (m : H A) k h (Q : A -> mst -> Prop) : wp m h (fun a h' => Q a (mkMst k h')) -> wp (in_h m) (mkMst k h) Q.
Proof. intros HQ. by apply wp_zoom. Qed.

(** ** Allocation on the block list *)

Lemma first_free_le p bs a : Forall len_ok bs -> a ∈ free_starts p bs -> first_free p bs <= a.
Proof.
  intros Hl. revert p. induction Hl as [|b bs [Hb _] Hl IH]; intros p; cbn [free_starts first_free]; [by intros ?%elem_of_nil|].
  destruct (b_used b); [apply IH|]. cbn [app]. intros [->|Ha]%elem_of_cons; [lia|]. apply free_starts_bound in Ha; [lia|done].
Qed.

(** Where the search starts. *)
Lemma lfree_split h bs : heap_wf h bs -> exists lo hi, bs = lo ++ hi /\ lfree h = heap_ptr h + total lo.
Proof.
  intros W. destruct (hw_lfree _ _ W) as [Hin|Heq].
  - destruct (free_starts_split _ _ _ Hin) as (lo & b & hi & -> & _ & E). exists lo, (b :: hi). split; [done|]. lia.
  - exists bs, []. split; [by rewrite app_nil_r|]. by rewrite Heq, (hw_heap_end _ _ W).
Qed.

Lemma place_free_starts size b p a : 12 <= size -> size + 12 <= b_len b ->
  a ∈ free_starts p (place size b) -> p < a.
Proof.
  intros Hs Hf. unfold place. destruct (_ <=? _); cbn [free_starts b_used b_len app]; [|by intros ?%elem_of_nil].
  intros ->%list_elem_of_singleton. lia.
Qed.

Lemma place_coalesced pre b post size : coalesced (pre ++ b :: post) -> b_used b = false -> coalesced (pre ++ place size b ++ post).
Proof.
  intros C Hb. destruct (coalesced_app _ _ C) as [C1 [Cb C2]].
  assert (forall c hi, post = c :: hi -> b_used c = true) as Hpost.
  { intros c hi ->. apply coalesced_mid in C as [?|?]; congruence. }
  assert (forall k, coalesced (Blk k (b_len b) :: post)) as Hk.
  { intros k. split; [|done]. destruct post; [done|]. right. by eapply Hpost. }
  apply coalesced_join; [done| |].
  - unfold place. destruct (_ <=? _); cbn [app]; [|apply Hk]. split; [by left|]. split; [|done].
    destruct post; [done|]. right. by eapply Hpost.
  - intros lo c d hi -> E. right. unfold place in E. destruct (_ <=? _); by injection E as <- _.
Qed.

(** A block of at least [n] bytes is taken at offset [total pre]: what the heap
    is then. *)
Lemma taken_ok h pre b post size h' :
  heap_ok h (pre ++ b :: post) -> b_used b = false -> 12 <= size -> size + 12 <= b_len b -> size `mod` 4 = 0 ->
  taken h pre b post size h' ->
  heap_ok h' (pre ++ place size b ++ post) /\
  (lowest h (pre ++ b :: post) -> lowest h' (pre ++ place size b ++ post)).
Proof.
  intros [W C] Hb Hs Hf Hs4 ((Ep & Ee & Es) & [lf0 W0] & Elf & _). destruct (wf_at h pre b post W) as (_ & Hlb & B1 & _).
  pose proof (seg_len _ _ _ _ _ (hw_seg _ _ W)) as Hl. apply Forall_app in Hl as [Hl1 [_ Hl2]%Forall_cons].
  pose proof (len_ok_place size b Hlb Hs Hs4) as Hlp.
  assert (forall a, a ∈ free_starts 0 (pre ++ place size b ++ post) <->
    a ∈ free_starts 0 pre \/ a ∈ free_starts (total pre) (place size b ++ post)) as Hfs by (intros a; by rewrite free_starts_app, elem_of_app).
  assert (forall a, a ∈ free_starts 0 (pre ++ b :: post) <-> a ∈ free_starts 0 pre \/ a = total pre \/ a ∈ free_starts (total pre + b_len b) post) as Hfs0.
  { intros a. rewrite free_starts_app. cbn [free_starts]. rewrite Hb, Z.add_0_l. cbn [app]. set_solver. }
  assert (free_starts (total pre) (place size b ++ post) = free_starts (total pre) (place size b) ++ free_starts (total pre + b_len b) post) as Epl.
  { by rewrite free_starts_app, total_place. }
  split; [split; [|by apply place_coalesced]|].
  - destruct h' as [m hp he lf sa us mx]. cbn in *. apply (wf_set_lfree _ _ _ _ _ _ lf0 _ _ _ W0 eq_refl). subst hp he. rewrite Elf. cbn [heap_ptr heap_end].
    destruct (Z.eqb_spec (heap_ptr h + total pre) (lfree h)) as [E|E].
    + destruct (first_free_in (total pre) (place size b ++ post)) as [Hin|Heq].
      * left. apply Hfs. right. by replace (heap_ptr h + first_free (total pre) (place size b ++ post) - heap_ptr h) with (first_free (total pre) (place size b ++ post)) by lia.
      * right. rewrite Heq, (hw_heap_end _ _ W). rewrite !total_app, total_place, total_cons. lia.
    + destruct (hw_lfree _ _ W) as [Hin|Heq]; [left|by right]. apply Hfs. rewrite Epl, elem_of_app.
      apply Hfs0 in Hin as [?|[?|?]]; [by left|lia|by right; right].
  - intros Hlow a [Ha|Ha]%Hfs; rewrite Ep, Elf; destruct (Z.eqb_spec (heap_ptr h + total pre) (lfree h)) as [E|E].
    + pose proof (Hlow a ltac:(apply Hfs0; by left)). apply free_starts_bound in Ha; [lia|done].
    + apply Hlow, Hfs0. by left.
    + apply first_free_le in Ha; [lia|by apply Forall_app].
    + pose proof (Hlow (total pre) ltac:(apply Hfs0; by right; left)). rewrite Epl in Ha.
      apply elem_of_app in Ha as [Ha%place_free_starts|Ha%free_starts_bound]; [lia|done|done|destruct Hlb; lia|done].
Qed.

(** ** rt_malloc *)

(** What rt_malloc does with a request of [n] bytes, [n] a multiple of four and
    at least twelve: [r] is its result. *)
Definition allocated (h : heap) (bs : list blk) (n r : Z) (h' : heap) (bs' : list blk) : Prop :=
  exists lo hi, bs = lo ++ hi /\ lfree h = heap_ptr h + total lo /\
    match first_fit (mem_size_aligned h) n (total lo) hi with
    | None => r = 0 /\ h' = h /\ bs' = bs
    | Some p =>
        r = heap_ptr h + p + 12 /\ heap_ok h' bs' /\ same_heap h h' /\
        (exists pre b post, bs = pre ++ b :: post /\ p = total pre /\ b_used b = false /\ n + 12 <= b_len b /\ bs' = pre ++ place n b ++ post) /\
        (forall a, in_data 0 bs a -> h_mem h' !! (heap_ptr h + a) = h_mem h !! (heap_ptr h + a)) /\
        (lowest h bs -> lowest h' bs')
    end.

(** The size of the block a request for [size] bytes asks for. *)
Definition request (size : Z) : Z := Z.max 12 (u32 (RT_ALIGN size RT_ALIGN_SIZE)).

Lemma align_four x : RT_ALIGN x RT_ALIGN_SIZE = x + 3 - (x + 3) `mod` 4.
Proof. change RT_ALIGN_SIZE with (2 ^ 2). rewrite align_spec by lia. done. Qed.
Lemma align_bounds x : x <= RT_ALIGN x RT_ALIGN_SIZE < x + 4 /\ RT_ALIGN x RT_ALIGN_SIZE `mod` 4 = 0.
Proof. rewrite align_four. Z.div_mod_to_equations. lia. Qed.
Lemma u32_mod4 x : x `mod` 4 = 0 -> u32 x `mod` 4 = 0.
Proof. intros Hx. unfold u32. Z.div_mod_to_equations. lia. Qed.
Lemma request_mod size : request size `mod` 4 = 0.
Proof.
  unfold request. destruct (Z.max_spec 12 (u32 (RT_ALIGN size RT_ALIGN_SIZE))) as [[_ ->]|[_ ->]]; [|done].
  apply u32_mod4, align_bounds.
Qed.
Lemma request_size size : 0 <= size <= 2 ^ 32 - 4 -> size <= u32 (RT_ALIGN size RT_ALIGN_SIZE) <= request size.
Proof.
  intros Hs. assert (RT_ALIGN size RT_ALIGN_SIZE <= 2 ^ 32 - 4) by (rewrite align_four; Z.div_mod_to_equations; lia).
  pose proof (align_bounds size). unfold request. rewrite u32_small by lia. lia.
Qed.

(** ** Blocks, as their holders see them *)

(** The bytes of the block [e] = (offset, size). *)
Definition contents (h : heap) (e : Z * Z) : option (list Z) := read_bytes (h_mem h) (heap_ptr h + fst e) (Z.to_nat (snd e)).

Lemma live_split p bs e : e ∈ live p bs -> exists pre b post, bs = pre ++ b :: post /\ b_used b = true /\
  e = (p + total pre + 12, b_len b - 12) /\ live p bs = live p pre ++ e :: live (p + total pre + b_len b) post.
Proof.
  revert p. induction bs as [|b bs IH]; intros p; cbn [live]; [by intros ?%elem_of_nil|]. rewrite elem_of_app. intros [He|He].
  - destruct (b_used b) eqn:Hb; [|by apply elem_of_nil in He]. apply list_elem_of_singleton in He as ->.
    exists [], b, bs. cbn [total foldr live app]. rewrite Z.add_0_r. done.
  - destruct (IH _ He) as (pre & c & post & -> & Hc & Ee & El). exists (b :: pre), c, post. rewrite total_cons. split; [done|]. split; [done|].
    split; [rewrite Ee; f_equal; lia|]. rewrite El. cbn [live app]. rewrite <- app_assoc. do 4 f_equal. lia.
Qed.
Lemma live_in_data p bs e a : e ∈ live p bs -> fst e <= a < fst e + snd e -> in_data p bs a.
Proof.
  intros (pre & b & post & -> & Hb & -> & _)%live_split Ha. cbn in Ha. apply in_data_app. right. cbn [in_data]. left. split; [done|lia].
Qed.
Lemma contents_kept h h' bs e :
  heap_ptr h' = heap_ptr h -> (forall a, in_data 0 bs a -> h_mem h' !! (heap_ptr h + a) = h_mem h !! (heap_ptr h + a)) ->
  e ∈ live 0 bs -> contents h' e = contents h e.
Proof.
  intros Ep Hd He. unfold contents. rewrite Ep. apply read_bytes_frame. intros i Hi. rewrite <- !Z.add_assoc. apply Hd.
  eapply live_in_data; [done|]. lia.
Qed.

Lemma live_bounds p bs e : Forall len_ok bs -> e ∈ live p bs -> p + 12 <= fst e /\ fst e + snd e <= p + total bs /\ 4 <= snd e.
Proof.
  intros Hl (pre & b & post & -> & _ & -> & _)%live_split.
  apply Forall_app in Hl as [Hl1 [[Hb _] Hl2]%Forall_cons]. rewrite total_app, total_cons. apply total_bound in Hl1, Hl2. cbn [fst snd]. lia.
Qed.
(** Two blocks of clients lie apart by at least a header. *)
Definition apart (e1 e2 : Z * Z) : Prop := fst e1 + snd e1 + 12 <= fst e2 \/ fst e2 + snd e2 + 12 <= fst e1.

Lemma live_apart p bs l : Forall len_ok bs -> live p bs ≡ₚ l -> ForallOrdPairs apart l.
Proof.
  intros Hl Hp. assert (ForallOrdPairs apart (live p bs)) as G.
  { clear l Hp. revert p. induction Hl as [|b bs [Hb _] Hl IH]; intros p; cbn [live]; [constructor|].
    destruct (b_used b); cbn [app]; [|apply IH]. constructor; [|apply IH]. apply Forall_forall. intros e He%live_bounds; [|done]. left. cbn [fst snd]. lia. }
  revert G. induction Hp as [|e l1 l2 Hp IH|e1 e2 l|l1 l2 l3 _ IH1 _ IH2].
  - done.
  - inversion 1 as [|? ? H1 H2]; subst. constructor; [by rewrite <- Hp|by apply IH].
  - inversion 1 as [|? ? H1 H2]; subst. inversion H2 as [|? ? H3 H4]; subst. apply Forall_cons in H1 as [H1 H1'].
    constructor; [constructor; [unfold apart in *; lia|done]|by constructor].
  - by auto.
Qed.

(** What [allocated] means for the clients. *)
Lemma allocated_live h bs n r h' bs' :
  heap_ok h bs -> 12 <= n -> allocated h bs n r h' bs' -> r <> 0 ->
  exists k, n <= k /\ live 0 bs' ≡ₚ (r - heap_ptr h, k) :: live 0 bs /\ r `mod` 4 = 0 /\ heap_ptr h <= r < heap_end h.
Proof.
  intros [W C] Hn (lo & hi & -> & El & Hf) Hr. destruct (first_fit _ _ _ _) as [p|]; [|by destruct Hf].
  destruct Hf as (-> & _ & _ & (pre & b & post & Ebs & -> & Hb & Hlb & ->) & _). rewrite Ebs in W |- *.
  destruct (wf_at h pre b post W) as (_ & [Hb16 _] & B1 & B2 & Et & _). rewrite (hw_heap_end _ _ W), Et.
  pose proof (seg_len _ _ _ _ _ (hw_seg _ _ W)) as Hl. apply Forall_app in Hl as [Hl _]. apply total_mod in Hl. destruct (hw_ptr _ _ W) as (_ & Hp4 & _).
  exists (if n + 36 <=? b_len b then n else b_len b - 12). split; [destruct (_ <=? _); lia|].
  split; [|split; [Z.div_mod_to_equations; lia|lia]]. rewrite !live_app, total_place. cbn [live]. rewrite Hb.
  replace (heap_ptr h + total pre + 12 - heap_ptr h) with (0 + total pre + 12) by lia. cbn [app]. unfold place.
  destruct (Z.leb_spec (n + 36) (b_len b)); cbn [live b_used b_len app]; rewrite Permutation_middle; do 3 f_equiv; f_equal; lia.
Qed.

Lemma first_fit_None sa n p bs : first_fit sa n p bs = None ->
  forall pre b post, bs = pre ++ b :: post -> b_used b = false -> n + 12 <= b_len b -> sa - n <= p + total pre.
Proof.
  revert p. induction bs as [|c bs IH]; intros p Hf pre b post E Hb Hl; [by destruct pre|]. cbn [first_fit] in Hf.
  destruct (negb (b_used c) && (n + 12 <=? b_len c) && (p <? sa - n)) eqn:Ec; [done|]. destruct pre as [|d pre]; injection E as -> E.
  - rewrite Hb, (proj2 (Z.leb_le _ _) Hl) in Ec. cbn in Ec. apply Z.ltb_ge in Ec. cbn. lia.
  - specialize (IH _ Hf pre b post E Hb Hl). rewrite total_cons. lia.
Qed.

(** The search overlooks no free block at or above lfree. *)
Lemma allocated_none h bs n r h' bs' :
  heap_ok h bs -> allocated h bs n r h' bs' -> r = 0 ->
  forall pre b post, bs = pre ++ b :: post -> b_used b = false -> lfree h <= heap_ptr h + total pre -> n + 12 <= b_len b -> post = [] /\ b_len b = n + 12.
Proof.
  intros [W C] (lo & hi & Ebs & El & Hf) -> pre b post E Hb Hge Hl. subst bs.
  destruct (wf_at h pre b post ltac:(by rewrite <- E)) as (_ & [Hb16 _] & B1 & B2 & Et & _). pose proof (hw_size _ _ W) as Hsz. rewrite E, Et in Hsz.
  destruct (first_fit _ _ _ _) as [p|] eqn:Ef.
  { destruct Hf as (Er & _ & _ & (pre' & b' & post' & E' & -> & _) & _). destruct (wf_at h pre' b' post' ltac:(by rewrite <- E')) as (_ & _ & ? & _).
    destruct (hw_ptr _ _ W) as (? & _). lia. }
  assert (exists pre2, pre = lo ++ pre2 /\ hi = pre2 ++ b :: post) as (pre2 & -> & ->).
  { apply app_eq_inv in E as [(k & -> & Ek)|(k & -> & Ek)]; [|by exists k].
    destruct k as [|c k]; cbn in Ek; [exists []; by rewrite !app_nil_r|]. injection Ek as -> ->. exfalso.
    rewrite total_app, total_cons in *. pose proof (seg_len _ _ _ _ _ (hw_seg _ _ W)) as Hall. apply Forall_app in Hall as [Hall _].
    apply Forall_app in Hall as [_ [_ Hall]%Forall_cons]. apply total_bound in Hall. lia. }
  pose proof (first_fit_None _ _ _ _ Ef pre2 b post eq_refl Hb Hl) as Hn. rewrite total_app in *.
  destruct post as [|c post]; [cbn in *; split; [done|lia]|]. exfalso.
  pose proof (seg_len _ _ _ _ _ (hw_seg _ _ W)) as Hall. rewrite !Forall_app, !Forall_cons in Hall. destruct Hall as (_ & _ & _ & [Hc _] & Hall).
  apply total_bound in Hall. rewrite total_cons in *. lia.
Qed.

(** Allocation keeps what the clients hold. *)
Lemma allocated_keeps h bs n r h' bs' : heap_ok h bs -> allocated h bs n r h' bs' ->
  heap_ok h' bs' /\ same_heap h h' /\ (lowest h bs -> lowest h' bs') /\ (forall e, e ∈ live 0 bs -> contents h' e = contents h e) /\
  (r = 0 -> h' = h /\ bs' = bs).
Proof.
  intros Hok (lo & hi & Ebs & El & Hf). destruct (first_fit _ _ _ _) as [p|]; [|by destruct Hf as (_ & -> & ->)].
  destruct Hf as (Er & H1 & H2 & (pre & b & post & -> & -> & _) & H3 & H4). split; [done|]. split; [done|]. split; [done|].
  split; [intros e He; by apply (contents_kept h h' (pre ++ b :: post)); [apply H2| |]|].
  destruct (wf_at h pre b post (proj1 Hok)) as (_ & _ & ? & _). destruct (hw_ptr _ _ (proj1 Hok)) as (? & _). lia.
Qed.

(** ** Writes of clients *)

Definition write_heap (a : Z) (l : list Z) (h : heap) : heap := set_h_mem (write_bytes (heap_ptr h + a) l (h_mem h)) h.

(** Writing into a block a client holds leaves the blocks as they are. *)
Lemma write_heap_ok h bs e a l :
  heap_ok h bs -> e ∈ live 0 bs -> fst e <= a -> a + Z.of_nat (length l) <= fst e + snd e -> byte_range l ->
  heap_ok (write_heap a l h) bs /\ forall e', apart e e' -> 0 <= snd e' -> contents (write_heap a l h) e' = contents h e'.
Proof.
  intros [W C] He Ha Hl Hr. destruct (live_split _ _ _ He) as (pre & b & post & -> & Hb & -> & _). cbn [fst snd] in *.
  destruct (wf_at h pre b post W) as (_ & [Hb16 _] & B1 & B2 & Et & _).
  assert (forall q, q + 12 <= a \/ a + Z.of_nat (length l) <= q -> hdr (write_bytes (heap_ptr h + a) l (h_mem h)) (heap_ptr h + q) = hdr (h_mem h) (heap_ptr h + q)) as Hh.
  { intros q Hq. apply hdr_frame. intros c Hc. apply lookup_write_out. lia. }
  split; [split; [|done]|].
  - destruct W as [H1 H2 H3 H4 H5 H6 H7 H8 H9 H10 H11]. split; cbn [write_heap set_h_mem h_mem heap_ptr heap_end lfree mem_size_aligned used_mem max_mem]; try done.
    + apply seg_app in H1 as [S1 S2]. rewrite Z.add_0_l in S2. cbn [seg] in S2. destruct S2 as (S2 & S3 & S4).
      apply seg_app. rewrite Z.add_0_l. split; [eapply seg_frame; [|done]; intros q ? ?; apply Hh; lia|].
      split; [rewrite Hh by lia; done|]. split; [done|]. eapply seg_frame; [|done]. intros q ? ?. apply Hh. lia.
    + destruct H2 as [pv H2]. exists pv. rewrite <- H2, H3. apply Hh. rewrite Et. lia.
    + intros c Hc. destruct (H7 c Hc) as [y Hy]. rewrite lookup_write_bytes. destruct (_ && _) eqn:E; [|by eexists].
      apply lookup_lt_is_Some_2. lia.
    + by apply bytes_ok_write.
  - intros e' Hap Hp. unfold contents, write_heap. cbn [h_mem heap_ptr set_h_mem]. apply read_write_out. unfold apart in Hap. cbn [fst snd] in Hap. lia.
Qed.

(** The bytes of a block are there, and they are bytes. *)
Lemma contents_some h bs e k : heap_ok h bs -> e ∈ live 0 bs -> 0 <= k <= snd e ->
  exists l, read_bytes (h_mem h) (heap_ptr h + fst e) (Z.to_nat k) = Some l /\ byte_range l.
Proof.
  intros [W _] He Hk. pose proof (seg_len _ _ _ _ _ (hw_seg _ _ W)) as Hl. pose proof (live_bounds _ _ _ Hl He) as (B1 & B2 & _).
  assert (is_Some (read_bytes (h_mem h) (heap_ptr h + fst e) (Z.to_nat k))) as [l El].
  { assert (forall n a, heap_ptr h <= a -> a + Z.of_nat n <= heap_ptr h + total bs -> is_Some (read_bytes (h_mem h) a n)) as G; [|apply G; lia].
    induction n as [|n IH]; intros a Ha Hn; cbn [read_bytes]; [by eexists|]. destruct (hw_mapped _ _ W a ltac:(lia)) as [x ->].
    destruct (IH (a + 1) ltac:(lia) ltac:(lia)) as [l ->]. by eexists. }
  exists l. split; [done|]. by eapply bytes_ok_read; [apply (hw_bytes _ _ W)|].
Qed.

Section memory.
Context (hs : nat).

(** Nobody is inside the heap. *)
Definition unlocked (k : kst) : Prop := sem_ok k hs (ASem 1 []) RT_IPC_FLAG_FIFO.
(** The kernel while the caller holds the heap semaphore. *)
Definition held (k : kst) : kst := set_k_sems (<[hs := 0]> (k_sems k)) k.

Lemma take_unlocked k : unlocked k -> rt_sem_take_enter hs RT_WAITING_FOREVER k = Ok (Returned RT_EOK) (held k).
Proof. intros Hk. by rewrite (rt_sem_take_available k hs (ASem 1 []) RT_IPC_FLAG_FIFO). Qed.
Lemma release_held k : unlocked k -> rt_sem_release hs (held k) = Ok RT_EOK k.
Proof.
  intros Hk. pose proof (sem_ok_set k hs (ASem 1 []) 0 RT_IPC_FLAG_FIFO Hk ltac:(lia) ltac:(done)) as Hh.
  rewrite (rt_sem_release_counts (held k) hs (ASem 0 []) RT_IPC_FLAG_FIFO) by done. f_equal.
  destruct (sem_ok_value _ _ _ _ Hk) as [Ev _]. cbn in Ev. unfold held. cbn [as_value k_sems set_k_sems].
  rewrite insert_insert_eq, insert_id by done. by destruct k.
Qed.
Lemma with_heap_wp {A} (c : M mst (outcome A)) k h Q :
  unlocked k -> wp c (mkMst (held k) h) Q -> wp (with_heap hs c) (mkMst k h) Q.
Proof. intros Hk Hc. unfold with_heap. kstep. eapply wp_in_k; [by apply take_unlocked|]. done. Qed.

Lemma rt_malloc_locked_wp k h bs n :
  unlocked k -> heap_ok h bs -> 12 <= n <= mem_size_aligned h -> n `mod` 4 = 0 ->
  wp (rt_malloc_locked hs n) (mkMst (held k) h) (fun r s' => exists h' bs', s' = mkMst k h' /\ allocated h bs n r h' bs').
Proof.
  intros Hk [W C] Hn Hn4. destruct (lfree_split h bs W) as (lo & hi & -> & El). unfold rt_malloc_locked. kstep. kstep. cbn [m_h].
  pose proof (total_bound _ (seg_len _ _ _ _ _ (hw_seg _ _ W))) as Hlen. pose proof (hw_size _ _ W) as Hsz. rewrite length_app in Hlen.
  replace (lfree h - heap_ptr h) with (total lo) by lia. kstep. apply wp_in_h.
  eapply wp_mono; [apply (malloc_search_wp h (lo ++ hi) lo hi); [done|done|done|lia]|]. intros r h1 [-> ->].
  destruct (first_fit (mem_size_aligned h) n (total lo) hi) as [p|] eqn:Ef.
  - destruct (first_fit_Some _ _ _ _ _ Ef) as (pre & b & post & -> & -> & Hb & Hf & Hlt).
    rewrite app_assoc in W, C. rewrite <- (total_app lo pre). kstep. apply wp_in_h.
    eapply wp_mono; [apply (malloc_take_wp h (lo ++ pre) b post n); [done|done|lia|done|done|]|].
    { rewrite length_app in Hlen. cbn in Hlen. lia. }
    intros [] h' T. destruct (taken_ok h (lo ++ pre) b post n h') as [Hok Hlow]; [by split|done|lia|done|done|done|].
    kstep. eapply wp_in_k; [by apply release_held|]. destruct (wf_at h (lo ++ pre) b post W) as (_ & _ & B1 & B2 & Et & _).
    destruct (hw_ptr _ _ W) as (H1 & H2 & H3).
    assert (total (lo ++ pre) `mod` 4 = 0) as H4.
    { apply total_mod. pose proof (seg_len _ _ _ _ _ (hw_seg _ _ W)) as Hl. by apply Forall_app in Hl as [? _]. }
    unfold SIZEOF_STRUCT_MEM. kstep. apply wp_assert; [apply Z.leb_le; rewrite (hw_heap_end _ _ W); lia|].
    kstep. apply wp_assert; [apply Z.eqb_eq; change RT_ALIGN_SIZE with 4; Z.div_mod_to_equations; lia|].
    kstep. apply wp_assert; [apply Z.eqb_eq; change (RT_ALIGN_SIZE - 1) with (Z.ones 2); rewrite Z.land_ones by lia; change (2 ^ 2) with 4; Z.div_mod_to_equations; lia|].
    kstep. exists h', ((lo ++ pre) ++ place n b ++ post). split; [done|]. exists lo, (pre ++ b :: post). split; [done|]. split; [done|].
    rewrite Ef. destruct T as (S & _ & _ & D). rewrite (app_assoc lo pre). rewrite total_app.
    split_and!; [done|done|done|exists (lo ++ pre), b, post; by rewrite total_app|done|done].
  - kstep. eapply wp_in_k; [by apply release_held|]. kstep. exists h, (lo ++ hi). split; [done|]. exists lo, hi. by rewrite Ef.
Qed.

(** The kernel in which a thread may call: not in an interrupt, and nobody inside
    the heap. *)
Definition callable (k : kst) : Prop := unlocked k /\ k_irq_nest k = 0.

Lemma not_in_interrupt k h (Q : unit -> mst -> Prop) : callable k -> Q tt (mkMst k h) -> wp (in_k RT_DEBUG_NOT_IN_INTERRUPT) (mkMst k h) Q.
Proof. intros [_ Hi] HQ. apply (wp_in_k _ _ _ tt k); [|done]. unfold RT_DEBUG_NOT_IN_INTERRUPT, bind, gets. by rewrite Hi. Qed.

Lemma rt_malloc_wp k h bs size :
  callable k -> heap_ok h bs -> 0 < size < 2 ^ 32 ->
  wp (rt_malloc hs size) (mkMst k h) (fun o s' => exists r h' bs', o = Returned r /\ s' = mkMst k h' /\
    if mem_size_aligned h <? u32 (RT_ALIGN size RT_ALIGN_SIZE) then r = 0 /\ h' = h /\ bs' = bs
    else allocated h bs (request size) r h' bs').
Proof.
  intros Hc Hok Hs. unfold rt_malloc. rewrite (proj2 (Z.eqb_neq _ _)) by lia. kstep. apply not_in_interrupt; [done|].
  fold (u32 (RT_ALIGN size RT_ALIGN_SIZE)). kstep. kstep. cbn [m_h]. destruct (Z.ltb_spec (mem_size_aligned h) (u32 (RT_ALIGN size RT_ALIGN_SIZE))) as [Hlt|Hge].
  { kstep. by exists 0, h, bs. }
  assert ((if u32 (RT_ALIGN size RT_ALIGN_SIZE) <? MIN_SIZE_ALIGNED then MIN_SIZE_ALIGNED else u32 (RT_ALIGN size RT_ALIGN_SIZE)) = request size) as ->.
  { unfold request. change MIN_SIZE_ALIGNED with 12. destruct (Z.ltb_spec (u32 (RT_ALIGN size RT_ALIGN_SIZE)) 12); lia. }
  apply with_heap_wp; [apply Hc|]. kstep. eapply wp_mono; [apply (rt_malloc_locked_wp k h bs); [apply Hc|done| |apply request_mod]|].
  - pose proof (hw_min _ _ (proj1 Hok)). unfold request. lia.
  - intros r s' (h' & bs' & -> & A). kstep. by exists r, h', bs'.
Qed.

(** Nothing below lfree is free: the search then sees every free block. *)
Lemma lowest_above h pre b post : lowest h (pre ++ b :: post) -> b_used b = false -> lfree h <= heap_ptr h + total pre.
Proof.
  intros Hlow Hb. apply Hlow. rewrite free_starts_app. cbn [free_starts]. rewrite Hb, Z.add_0_l. set_solver.
Qed.

(** C7: rt_malloc.  In a kernel where the heap is not in use, the call returns
    without waiting and leaves the kernel as it was.  A result that is not
    RT_NULL is an aligned block of at least [size] bytes inside the heap, which
    no client held; what the clients hold is that block more, with every byte of
    the other blocks unchanged.  RT_NULL means that the heap is unchanged and
    that no free block at or above lfree, where the search starts, is large
    enough, except one: a block at the very end that fits exactly is never given
    out.  Free blocks below lfree are not searched.  There are none as long as
    the heap is [lowest], which rt_malloc keeps; then no free block at all is
    large enough. *)
Theorem rt_malloc_correct k h bs size :
  callable k -> heap_ok h bs -> 0 < size <= 2 ^ 32 - 4 ->
  exists r h' bs', rt_malloc hs size (mkMst k h) = Ok (Returned r) (mkMst k h') /\ heap_ok h' bs' /\ same_heap h h' /\
    (lowest h bs -> lowest h' bs') /\ (forall e, e ∈ live 0 bs -> contents h' e = contents h e) /\
    if r =? 0 then h' = h /\ bs' = bs /\ (forall pre b post, bs = pre ++ b :: post -> b_used b = false ->
        (lfree h <= heap_ptr h + total pre \/ lowest h bs) ->
        b_len b < request size + 12 \/ (post = [] /\ b_len b = request size + 12))
    else exists n, size <= n /\ live 0 bs' ≡ₚ (r - heap_ptr h, n) :: live 0 bs /\ r `mod` 4 = 0 /\ heap_ptr h <= r < heap_end h.
Proof.
  intros Hc Hok Hs. destruct (wp_run _ _ _ (rt_malloc_wp k h bs size Hc Hok ltac:(lia))) as (o & s' & E & r & h' & bs' & -> & -> & HA).
  exists r, h', bs'. split; [done|]. pose proof (request_size size ltac:(lia)) as Hreq.
  destruct (Z.ltb_spec (mem_size_aligned h) (u32 (RT_ALIGN size RT_ALIGN_SIZE))) as [Hlt|Hge].
  - destruct HA as (-> & -> & ->). split_and!; [done|done|done|done|]. cbn [Z.eqb]. split_and!; [done|done|]. intros pre b post -> Hb _. left.
    destruct Hok as [W _]. destruct (wf_at h pre b post W) as (_ & _ & ? & ? & Et & _). pose proof (hw_size _ _ W). lia.
  - destruct (allocated_keeps h bs _ r h' bs' Hok HA) as (H1 & H2 & H3 & H4 & H5). split_and!; [done..|]. destruct (Z.eqb_spec r 0) as [->|Hr].
    + destruct (H5 eq_refl) as [-> ->]. split_and!; [done|done|]. intros pre b post Eb Hb Hat.
      assert (lfree h <= heap_ptr h + total pre) as Hge' by (destruct Hat as [?|Hlow]; [done|apply (lowest_above h pre b post); [by rewrite <- Eb|done]]).
      destruct (decide (b_len b < request size + 12)); [by left|right].
      apply (allocated_none h bs _ 0 h bs Hok HA eq_refl pre b post Eb Hb); [done|lia].
    + destruct (allocated_live h bs (request size) r h' bs' Hok ltac:(unfold request; lia) HA Hr) as (n & Hn & Hp & Hr4 & Hb). exists n. split; [lia|]. split; [done|]. by split.
Qed.

(** ** rt_free *)

Lemma live_address h bs o n : heap_ok h bs -> (o, n) ∈ live 0 bs ->
  12 <= o /\ 4 <= n /\ o `mod` 4 = 0 /\ heap_ptr h + o < heap_end h /\ 0 <= heap_ptr h /\
  Z.land (heap_ptr h + o) (RT_ALIGN_SIZE - 1) = 0.
Proof.
  intros [W _] (pre & b & post & -> & Hb & [= -> ->] & _)%live_split. destruct (wf_at h pre b post W) as (_ & [Hb1 Hb4] & B1 & B2 & Et & _).
  pose proof (seg_len _ _ _ _ _ (hw_seg _ _ W)) as Hl. apply Forall_app in Hl as [Hl _]. apply total_mod in Hl.
  destruct (hw_ptr _ _ W) as (? & Hp4 & _). rewrite (hw_heap_end _ _ W), Et.
  split_and!; [lia|lia|Z.div_mod_to_equations; lia|lia|lia|]. change (RT_ALIGN_SIZE - 1) with (Z.ones 2). rewrite Z.land_ones by lia.
  change (2 ^ 2) with 4. Z.div_mod_to_equations. lia.
Qed.

Lemma rt_free_locked_wp k h bs o n :
  unlocked k -> heap_ok h bs -> (o, n) ∈ live 0 bs ->
  wp (rt_free_locked hs (heap_ptr h + o)) (mkMst (held k) h) (fun _ s' => exists h' bs', s' = mkMst k h' /\
    heap_ok h' bs' /\ same_heap h h' /\ (lowest h bs -> lowest h' bs') /\ live 0 bs ≡ₚ (o, n) :: live 0 bs' /\
    (forall e, e ∈ live 0 bs' -> contents h' e = contents h e) /\ unused h' (heap_ptr h + o - 12) /\
    exists pre b post, bs = pre ++ b :: post /\ o = total pre + 12 /\ bs' = merge pre (b_len b) post).
Proof.
  intros Hk Hok He. destruct (live_split _ _ _ He) as (pre & b & post & -> & Hb & [= -> ->] & El). rewrite Z.add_0_l in *.
  unfold rt_free_locked. kstep. apply wp_in_h. change SIZEOF_STRUCT_MEM with 12.
  replace (heap_ptr h + (total pre + 12) - 12) with (heap_ptr h + total pre) by lia.
  eapply wp_mono; [by apply free_block_wp|]. intros [] h' (Hok' & (S & Gl & Gd) & Hlow & U). kstep. eapply wp_in_k; [by apply release_held|]. kstep.
  destruct (merge_live pre (b_len b) post) as [Lm _].
  assert (live 0 (merge pre (b_len b) post) = live 0 pre ++ live (total pre + b_len b) post) as Elm by (rewrite Lm, live_app; done).
  exists h', (merge pre (b_len b) post). split_and!; [done|done|apply S..|done| | |done|by exists pre, b, post].
  - rewrite El, Elm. by rewrite Permutation_middle.
  - intros e He'. rewrite Lm in He'. by apply (contents_kept h h' _ e (proj1 S) Gd).
Qed.

(** The checks of rt_free pass for a block a client held. *)
Lemma rt_free_enter k h h1 bs o n :
  callable k -> heap_ok h bs -> (o, n) ∈ live 0 bs -> same_heap h h1 ->
  rt_free hs (heap_ptr h + o) (mkMst k h1) = (rt_free_locked hs (heap_ptr h + o) ;; ret (Returned tt)) (mkMst (held k) h1).
Proof.
  intros Hc Hok He (Ep & Ee & _). destruct (live_address h bs o n Hok He) as (Ho & Hn & Ho4 & Hend & Hp & Hland).
  destruct Hc as [Hk Hi]. unfold rt_free. rewrite (proj2 (Z.eqb_neq _ _)) by lia.
  rewrite (bind_ok _ _ _ tt (mkMst k h1)) by (unfold in_k, zoom, RT_DEBUG_NOT_IN_INTERRUPT, bind, gets; cbn; by rewrite Hi).
  rewrite (bind_ok (RT_ASSERT _) _ _ tt (mkMst k h1)) by (unfold RT_ASSERT; by rewrite Hland).
  rewrite (bind_ok (gets m_h) _ _ h1 (mkMst k h1)) by done. rewrite Ep, Ee.
  rewrite (proj2 (Z.leb_le (heap_ptr h) _)), (proj2 (Z.ltb_lt _ (heap_end h))), (proj2 (Z.ltb_ge _ (heap_ptr h))), (proj2 (Z.leb_gt (heap_end h) _)) by lia.
  rewrite (bind_ok (RT_ASSERT _) _ _ tt (mkMst k h1)) by done. cbn [orb]. unfold with_heap.
  by rewrite (bind_ok _ _ _ (Returned RT_EOK) (mkMst (held k) h1)) by (unfold in_k, zoom; cbn [m_k]; by rewrite take_unlocked).
Qed.

(** The block at [o] is given back. *)
Definition freed (h : heap) (bs : list blk) (o n : Z) (h' : heap) (bs' : list blk) : Prop :=
  heap_ok h' bs' /\ same_heap h h' /\ (lowest h bs -> lowest h' bs') /\ live 0 bs ≡ₚ (o, n) :: live 0 bs' /\
  forall e, e ∈ live 0 bs' -> contents h' e = contents h e.

Lemma rt_free_wp k h bs o n :
  callable k -> heap_ok h bs -> (o, n) ∈ live 0 bs ->
  wp (rt_free hs (heap_ptr h + o)) (mkMst k h) (fun r s' => exists h' bs', r = Returned tt /\ s' = mkMst k h' /\ freed h bs o n h' bs').
Proof.
  intros Hc Hok He. unfold wp. rewrite (rt_free_enter k h h bs o n) by done. fold (wp (rt_free_locked hs (heap_ptr h + o) ;; ret (Returned tt))
    (mkMst (held k) h) (fun r s' => exists h' bs', r = Returned tt /\ s' = mkMst k h' /\ freed h bs o n h' bs')).
  kstep. eapply wp_mono; [by apply rt_free_locked_wp; [apply Hc| |]|]. intros [] s' (h' & bs' & -> & H1 & H2 & H3 & H4 & H5 & _). kstep.
  exists h', bs'. by split_and!.
Qed.

(** C28: rt_free gives a block back: the clients hold that block less, no byte
    of the other blocks changes, the free memory is joined (no two free blocks
    side by side, see [heap_ok]), the search for memory still overlooks no block
    if it did not before, and the kernel is as it was.  RT_NULL is accepted and
    does nothing.  Freeing the same pointer again stops in an assertion. *)
Theorem rt_free_correct k h bs o n :
  callable k -> heap_ok h bs -> (o, n) ∈ live 0 bs ->
  rt_free hs 0 (mkMst k h) = Ok (Returned tt) (mkMst k h) /\
  exists h' bs', rt_free hs (heap_ptr h + o) (mkMst k h) = Ok (Returned tt) (mkMst k h') /\ freed h bs o n h' bs' /\
    rt_free hs (heap_ptr h + o) (mkMst k h') = Halt.
Proof.
  intros Hc Hok He. split; [done|].
  destruct (wp_run _ _ _ (rt_free_locked_wp k h bs o n (proj1 Hc) Hok He)) as ([] & s' & E & h' & bs' & -> & Hok' & S & Hlow & Hl & Hcont & (x & Hx & Hx0) & _).
  exists h', bs'. split; [|split].
  - rewrite (rt_free_enter k h h bs o n) by done. unfold bind. by rewrite E.
  - by split_and!.
  - rewrite (rt_free_enter k h h' bs o n) by done. apply bind_halt. unfold rt_free_locked. apply bind_halt.
    unfold in_h, zoom. cbn [m_h]. change SIZEOF_STRUCT_MEM with 12.
    assert (free_block (heap_ptr h + o - 12) h' = Halt) as ->; [|done].
    destruct (read_hdr h' _ _ Hx) as [Eu _]. rewrite Hx0 in Eu.
    unfold free_block. by rewrite (bind_ok _ _ _ _ _ Eu).
Qed.

(** ** rt_malloc and rt_free undo each other *)

Lemma prefix_unique pre1 b1 post1 pre2 b2 post2 :
  Forall len_ok (pre1 ++ b1 :: post1) -> pre1 ++ b1 :: post1 = pre2 ++ b2 :: post2 -> total pre1 = total pre2 -> pre1 = pre2 /\ b1 = b2 /\ post1 = post2.
Proof.
  revert pre2. induction pre1 as [|c pre1 IH]; intros [|d pre2] Hl E Ht; cbn [app] in *; apply Forall_cons in Hl as [[Hb _] Hl].
  - by injection E as -> ->.
  - injection E as <- ->. rewrite total_cons in Ht. apply Forall_app in Hl as [Hl _]. apply total_bound in Hl. cbn in Ht. lia.
  - injection E as -> E. rewrite total_cons in Ht. apply Forall_app in Hl as [Hl _]. apply total_bound in Hl. cbn in Ht. lia.
  - injection E as -> E. rewrite !total_cons in Ht. destruct (IH pre2 Hl E ltac:(lia)) as (-> & -> & ->). done.
Qed.
(** Giving back what was split off a free block restores the list. *)
Lemma merge_place pre b post n b' rest :
  coalesced (pre ++ b :: post) -> b_used b = false -> place n b = b' :: rest -> merge pre (b_len b') (rest ++ post) = pre ++ b :: post.
Proof.
  intros C Hb Ep. assert (merge_next (b_len b') (rest ++ post) = (b_len b, post)) as Em.
  { unfold place in Ep. destruct (n + 36 <=? b_len b); injection Ep as <- <-; cbn [app merge_next b_used b_len]; [f_equal; lia|].
    destruct post as [|c post]; [done|]. apply coalesced_mid in C as [C|C]; [congruence|]. cbn. by rewrite C. }
  assert (Blk false (b_len b) = b) as Eb by (destruct b as [[] ?]; done).
  destruct pre as [|c pre _] using rev_ind; [unfold merge; cbn [last]; by rewrite Em; cbn [fst snd]; rewrite Eb|].
  rewrite merge_snoc, Em. cbn [fst snd]. rewrite <- app_assoc in C. apply coalesced_mid in C as [->|C]; [by rewrite Eb|congruence].
Qed.

(** Rt_free undoes rt_malloc.  Freeing the block that rt_malloc just gave out
    leaves the heap divided into the very blocks it had before, so that no memory
    is lost to fragmentation, with the same number of bytes in use, and the bytes
    of all other blocks unchanged. *)
Theorem malloc_free_roundtrip k h bs size r h1 :
  callable k -> heap_ok h bs -> 0 < size <= 2 ^ 32 - 4 ->
  rt_malloc hs size (mkMst k h) = Ok (Returned r) (mkMst k h1) -> r <> 0 ->
  exists h2, rt_free hs r (mkMst k h1) = Ok (Returned tt) (mkMst k h2) /\ heap_ok h2 bs /\ same_heap h h2 /\ used_mem h2 = used_mem h /\
    forall e, e ∈ live 0 bs -> contents h2 e = contents h e.
Proof.
  intros Hc Hok Hs E Hr. destruct (wp_run _ _ _ (rt_malloc_wp k h bs size Hc Hok ltac:(lia))) as (o & s' & E' & r' & h' & bs1 & -> & -> & HA).
  rewrite E' in E. injection E as -> ->. destruct (_ <? _); [by destruct HA|].
  destruct (allocated_keeps h bs _ r h1 bs1 Hok HA) as (Hok1 & S1 & _ & Hk1 & _).
  destruct (allocated_live h bs (request size) r h1 bs1 Hok ltac:(unfold request; lia) HA Hr) as (n & Hn & Hl & _).
  assert ((r - heap_ptr h, n) ∈ live 0 bs1) as He by (rewrite Hl; set_solver).
  destruct (wp_run _ _ _ (rt_free_locked_wp k h1 bs1 _ n (proj1 Hc) Hok1 He)) as ([] & s2 & E2 & h2 & bs2 & -> & Hok2 & S2 & _ & Hl2 & Hk2 & _ & pre & b & post & Ebs & Eo & ->).
  destruct HA as (lo & hi & _ & _ & Hf). destruct (first_fit _ _ _ _) as [p|]; [|by destruct Hf].
  destruct Hf as (-> & _ & _ & (pre0 & b0 & post0 & -> & -> & Hb0 & _ & Ebs1) & _).
  destruct (place (request size) b0) as [|b' rest] eqn:Epl; [by apply place_ne in Epl|].
  assert (merge pre (b_len b) post = pre0 ++ b0 :: post0) as Em.
  { pose proof (seg_len _ _ _ _ _ (hw_seg _ _ (proj1 Hok1))) as Hlen. rewrite Ebs in Hlen. cbn [app] in Ebs1.
    destruct (prefix_unique pre b post pre0 b' (rest ++ post0) Hlen ltac:(congruence) ltac:(lia)) as (-> & -> & ->). by eapply merge_place; [apply Hok| |]. }
  rewrite Em in *. exists h2. destruct S1 as (P1 & P2 & P3), S2 as (P4 & P5 & P6). split_and!.
  - replace (heap_ptr h + total pre0 + 12) with (heap_ptr h1 + (heap_ptr h + total pre0 + 12 - heap_ptr h)) by lia.
    rewrite (rt_free_enter k h1 h1 bs1 _ n) by done. unfold bind. by rewrite E2.
  - done.
  - split_and!; congruence.
  - by rewrite (hw_used _ _ (proj1 Hok2)), (hw_used _ _ (proj1 Hok)).
  - intros e Hel. rewrite Hk2 by done. by apply Hk1.
Qed.

(** ** rt_realloc *)

(** The first [k] bytes of a block. *)
Lemma contents_prefix h h' bs e k :
  heap_ok h bs -> e ∈ live 0 bs -> 0 <= k <= snd e -> heap_ptr h' = heap_ptr h -> contents h' e = contents h e ->
  read_bytes (h_mem h') (heap_ptr h + fst e) (Z.to_nat k) = read_bytes (h_mem h) (heap_ptr h + fst e) (Z.to_nat k).
Proof.
  intros Hok He Hk Ep Ec. destruct (contents_some h bs e (snd e) Hok He ltac:(lia)) as (l & El & _).
  unfold contents in Ec. rewrite Ep, El in Ec.
  by rewrite (read_bytes_take _ _ _ _ (Z.to_nat k) Ec), (read_bytes_take _ _ _ _ (Z.to_nat k) El) by lia.
Qed.

(** The new block is allocated: the data moves there, the old block is freed. *)
Lemma rt_realloc_move_wp k h bs o n o' n' rest m :
  callable k -> heap_ok h bs -> live 0 bs ≡ₚ (o', n') :: (o, n) :: rest -> 0 < m <= n' ->
  wp (rt_realloc_move hs (heap_ptr h + o) (heap_ptr h + o') n m) (mkMst k h) (fun r s' => exists h' bs',
    r = Returned (heap_ptr h + o') /\ s' = mkMst k h' /\ heap_ok h' bs' /\ same_heap h h' /\ (lowest h bs -> lowest h' bs') /\
    live 0 bs' ≡ₚ (o', n') :: rest /\ (forall e, e ∈ rest -> contents h' e = contents h e) /\
    read_bytes (h_mem h') (heap_ptr h + o') (Z.to_nat (Z.min n m)) = read_bytes (h_mem h) (heap_ptr h + o) (Z.to_nat (Z.min n m))).
Proof.
  intros Hc Hok Hl Hm. pose proof (seg_len _ _ _ _ _ (hw_seg _ _ (proj1 Hok))) as Hlen.
  assert ((o, n) ∈ live 0 bs /\ (o', n') ∈ live 0 bs) as [He He'] by (rewrite Hl; set_solver).
  assert (forall e, e ∈ rest -> e ∈ live 0 bs) as Hrest by (intros e; rewrite Hl; set_solver).
  pose proof (live_apart _ _ _ Hlen Hl) as Hap. inversion Hap as [|? ? Hap1 _]; subst. apply Forall_cons in Hap1 as [Hap1 Hap2].
  destruct (live_address h bs o n Hok He) as (? & ? & _ & _ & ? & _). destruct (live_address h bs o' n' Hok He') as (? & ? & _).
  unfold rt_realloc_move. rewrite (proj2 (Z.eqb_neq _ _)) by lia.
  assert ((if n <? m then n else m) = Z.min n m) as -> by (destruct (Z.ltb_spec n m); lia). set (c := Z.min n m).
  destruct (contents_some h bs (o, n) c Hok He ltac:(cbn; lia)) as (l & El & Hr). pose proof (read_bytes_length _ _ _ _ El) as Ell.
  destruct (contents_some h bs (o', n') c Hok He' ltac:(cbn; lia)) as (l' & El' & _). cbn [fst] in *.
  kstep. apply wp_in_h, wp_zoom. eapply wp_mono; [apply (rt_memcpy_wp _ _ _ _ l); [done|done|by apply mapped_true; eexists|lia|unfold apart in Hap1; cbn in Hap1; lia]|].
  intros _ m' [_ ->]. change (set_h_mem _ h) with (write_heap o' l h).
  destruct (write_heap_ok h bs (o', n') o' l Hok He') as [Hok2 Hk2]; [cbn; lia|cbn; lia|done|].
  kstep. change (heap_ptr h + o) with (heap_ptr (write_heap o' l h) + o). eapply wp_mono; [by apply rt_free_wp|].
  intros _ s' (h' & bs' & -> & -> & Hok3 & S & Hlow & Hl3 & Hk3). kstep.
  assert (live 0 bs' ≡ₚ (o', n') :: rest) as Hl'.
  { apply (Permutation_cons_inv (a := (o, n))). rewrite <- Hl3, Hl. constructor. }
  exists h', bs'. split_and!; [done|done|done|apply S..|done|done| |].
  - intros e He2. rewrite Hk3 by (rewrite Hl'; set_solver). apply Hk2; [by rewrite Forall_forall in Hap2; apply Hap2|].
    pose proof (live_bounds _ _ _ Hlen (Hrest e He2)). lia.
  - pose proof (contents_prefix (write_heap o' l h) h' bs (o', n') c Hok2 He' ltac:(cbn; lia) (proj1 S) ltac:(apply Hk3; rewrite Hl'; set_solver)) as Epre.
    cbn [fst] in Epre. change (heap_ptr (write_heap o' l h)) with (heap_ptr h) in *. rewrite Epre, El. by apply read_write_same.
Qed.

(** What rt_realloc does for a block of [n] bytes at [o] and [m] bytes asked for,
    [m] a multiple of four: [rest] are the other blocks.  A block of the size
    asked for stays; one that is larger by more than 24 bytes is cut to [m] bytes
    and the rest given back; RT_NULL is returned when rt_malloc finds no block. *)
Definition reallocated (h : heap) (bs : list blk) (o n m : Z) (rest : list (Z * Z)) (r : Z) (h' : heap) (bs' : list blk) : Prop :=
  heap_ok h' bs' /\ same_heap h h' /\ (n <= m + 24 -> lowest h bs -> lowest h' bs') /\
  (forall e, e ∈ rest -> contents h' e = contents h e) /\
  (m = n -> r = heap_ptr h + o /\ h' = h /\ bs' = bs) /\
  (m + 24 < n -> r = heap_ptr h + o /\ live 0 bs' ≡ₚ (o, m) :: rest /\ used_mem h' = used_mem h - (n - m)) /\
  if r =? 0 then h' = h /\ bs' = bs /\ forall pre b post, bs = pre ++ b :: post -> b_used b = false -> lfree h <= heap_ptr h + total pre ->
    b_len b < request m + 12 \/ (post = [] /\ b_len b = request m + 12)
  else exists n', m <= n' /\ live 0 bs' ≡ₚ (r - heap_ptr h, n') :: rest /\
    read_bytes (h_mem h') r (Z.to_nat (Z.min n m)) = read_bytes (h_mem h) (heap_ptr h + o) (Z.to_nat (Z.min n m)).

Lemma in_place h bs o n : heap_ok h bs -> (o, n) ∈ live 0 bs -> (heap_ptr h + o =? 0) = false.
Proof. intros Hok He. destruct (live_address h bs o n Hok He) as (? & _ & _ & _ & ? & _). lia. Qed.

(** The bytes in use, from the blocks in use. *)
Lemma used_total_live p bs : used_total bs = foldr (fun e n => snd e + 12 + n) 0 (live p bs).
Proof.
  revert p. induction bs as [|b bs IH]; intros p; [done|]. rewrite used_total_cons. cbn [live]. rewrite foldr_app, <- IH. destruct (b_used b); cbn; lia.
Qed.

Lemma shrink_live h pre b post m h' rest :
  let pre' := pre ++ [Blk true (m + 12)] in
  heap_ok h (pre ++ b :: post) -> b_used b = true -> 0 < m -> m + 36 < b_len b -> m `mod` 4 = 0 ->
  live 0 (pre ++ b :: post) ≡ₚ (total pre + 12, b_len b - 12) :: rest ->
  heap_ok h' (merge pre' (b_len b - m - 12) post) -> given h h' (pre' ++ Blk false (b_len b - m - 12) :: post) ->
  reallocated h (pre ++ b :: post) (total pre + 12) (b_len b - 12) m rest (heap_ptr h + (total pre + 12)) h' (merge pre' (b_len b - m - 12) post).
Proof.
  intros pre' Hok Hb Hm Hfit Hm4 Hl Hok' (S & _ & Gd). destruct (merge_live pre' (b_len b - m - 12) post) as [Lm _].
  assert ((total pre + 12, b_len b - 12) ∈ live 0 (pre ++ b :: post)) as He by (rewrite Hl; set_solver).
  set (bs2 := pre' ++ Blk false (b_len b - m - 12) :: post) in *.
  assert (live 0 bs2 = live 0 pre ++ (total pre + 12, m) :: live (total pre + b_len b) post) as E2.
  { unfold bs2, pre'. rewrite <- app_assoc, live_app. cbn [app live b_used b_len]. rewrite Z.add_0_l. do 2 f_equal; [f_equal; lia|]. f_equal. lia. }
  assert (live 0 pre ++ live (total pre + b_len b) post ≡ₚ rest) as Er.
  { rewrite live_app in Hl. cbn [live] in Hl. rewrite Hb in Hl. cbn [app] in Hl. rewrite Z.add_0_l in Hl.
    rewrite <- Permutation_middle in Hl. by apply Permutation_cons_inv in Hl. }
  assert (live 0 bs2 ≡ₚ (total pre + 12, m) :: rest) as Hl2 by (rewrite E2, <- Permutation_middle, Er; done).
  assert (forall e, e ∈ live 0 bs2 -> contents h' e = contents h e) as Hk by (intros e He2; by apply (contents_kept h h' bs2); [apply S| |]).
  split; [done|]. split; [done|]. split; [lia|]. split; [intros e He2; apply Hk; rewrite Hl2; set_solver|]. split; [lia|]. split.
  { intros _. split; [done|]. split; [by rewrite Lm, Hl2|]. rewrite (hw_used _ _ (proj1 Hok')), (hw_used _ _ (proj1 Hok)), (used_total_live 0 (merge _ _ _)), Lm, <- used_total_live.
    unfold bs2, pre'. rewrite !used_total_app, !used_total_cons, Hb. cbn. lia. }
  rewrite (in_place _ _ _ _ Hok He). exists m. split; [done|]. split.
  - rewrite Lm, Hl2. by replace (heap_ptr h + (total pre + 12) - heap_ptr h) with (total pre + 12) by lia.
  - rewrite Z.min_r by lia. pose proof (Hk (total pre + 12, m) ltac:(rewrite Hl2; set_solver)) as E. unfold contents in E. cbn [fst snd] in E. by rewrite (proj1 S) in E.
Qed.

(** The block does not shrink enough: a new one is allocated. *)
Lemma rt_realloc_grow_wp k h bs o n rest m :
  callable k -> heap_ok h bs -> live 0 bs ≡ₚ (o, n) :: rest -> 0 < m <= mem_size_aligned h -> m `mod` 4 = 0 -> n <> m -> n <= m + 24 ->
  wp (out <- rt_malloc hs m ;; match out with Returned nmem => rt_realloc_move hs (heap_ptr h + o) nmem n m | Waiting t => ret (Waiting t) end)
    (mkMst k h) (fun out s' => exists r h' bs', out = Returned r /\ s' = mkMst k h' /\ reallocated h bs o n m rest r h' bs').
Proof.
  intros Hc Hok Hl Hm Hm4 Em Hge. assert ((o, n) ∈ live 0 bs) as He by (rewrite Hl; set_solver).
  destruct (live_address h bs o n Hok He) as (H1 & H2 & _). destruct (hw_ptr _ _ (proj1 Hok)) as (Hp0 & _ & Hp). pose proof (hw_size _ _ (proj1 Hok)) as Hsz.
  kstep. eapply wp_mono; [apply (rt_malloc_wp k h bs m); [done|done|lia]|].
  intros out s' (r & h1 & bs1 & -> & -> & HA). assert (u32 (RT_ALIGN m RT_ALIGN_SIZE) = m) as Eal.
  { rewrite align_four, u32_small; Z.div_mod_to_equations; lia. }
  rewrite Eal, (proj2 (Z.ltb_ge _ _)) in HA by lia. pose proof (allocated_live h bs (request m) r h1 bs1 Hok ltac:(unfold request; lia) HA) as Hlive.
  pose proof HA as (lo & hi & Elo & _ & Hf). destruct (first_fit _ _ _ _) as [p|] eqn:Ef.
  - destruct Hf as (Er & Hok1 & S1 & (pre' & b' & post' & Ebs' & -> & _) & Gd & Hlow).
    destruct (wf_at h pre' b' post' ltac:(by rewrite <- Ebs'; apply Hok)) as (_ & _ & ? & _).
    destruct (Hlive ltac:(lia)) as (n' & Hn' & Hl1 & _). rewrite Hl in Hl1. assert (m <= n') as Hmn by (unfold request in Hn'; rewrite Eal in Hn'; lia).
    assert (forall e, e ∈ (o, n) :: rest -> contents h1 e = contents h e) as Hk1.
    { intros e He1. apply (contents_kept h h1 bs); [apply S1|done|by rewrite Hl]. }
    destruct S1 as (Ep & Ee & Es). replace r with (heap_ptr h1 + (r - heap_ptr h)) by lia. rewrite <- Ep at 1.
    eapply wp_mono; [apply (rt_realloc_move_wp k h1 bs1 _ _ _ n' rest); [done|done|done|lia]|].
    intros out s' (h' & bs' & -> & -> & Hok' & (Ep' & Ee' & Es') & Hlow' & Hl' & Hk' & Hpre). rewrite Ep in *.
    exists (heap_ptr h + (r - heap_ptr h)), h', bs'. split; [done|]. split; [done|].
    split; [done|]. split; [by split_and!; congruence|]. split; [by auto|]. split; [intros e He2; rewrite Hk' by done; apply Hk1; set_solver|].
    split; [lia|]. split; [lia|]. rewrite (proj2 (Z.eqb_neq _ _)) by lia. exists n'. split; [done|].
    split; [by replace (heap_ptr h + (r - heap_ptr h) - heap_ptr h) with (r - heap_ptr h) by lia|]. rewrite Hpre.
    apply (contents_prefix h h1 bs (o, n)); [done|done|cbn; lia|done|]. apply Hk1. set_solver.
  - destruct Hf as (-> & -> & ->). unfold rt_realloc_move. cbn [Z.eqb]. kstep. exists 0, h, bs. split; [done|]. split; [done|].
    split; [done|]. split; [done|]. split; [done|]. split; [done|]. split; [lia|]. split; [lia|]. split; [done|]. split; [done|]. intros pre b post Eb Hbu Hge'.
    destruct (decide (b_len b < request m + 12)); [by left|right]. apply (allocated_none h bs _ 0 h bs Hok HA eq_refl pre b post Eb Hbu); [done|lia].
Qed.

(** rt_realloc at a block a client holds, its checks passed. *)
Lemma rt_realloc_locked_at k h pre b post m (Q : outcome Z -> mst -> Prop) :
  heap_ok h (pre ++ b :: post) -> 0 < m <= mem_size_aligned h ->
  let p := heap_ptr h + (total pre + 12) in
  wp (if b_len b - 12 =? m then in_k (rt_sem_release hs) ;; ret (Returned p)
      else if m + 24 <? b_len b - 12 then in_h (shrink_block (heap_ptr h + total pre) m (b_len b - 12)) ;; in_k (rt_sem_release hs) ;; ret (Returned p)
      else in_k (rt_sem_release hs) ;; o <- rt_malloc hs m ;;
        match o with Returned nmem => rt_realloc_move hs p nmem (b_len b - 12) m | Waiting t => ret (Waiting t) end) (mkMst k h) Q ->
  wp (rt_realloc_locked hs p m) (mkMst k h) Q.
Proof.
  intros Hok Hm p HQ. destruct (wf_at h pre b post (proj1 Hok)) as (Eh & [Hb16 _] & B1 & B2 & Et & _). destruct (hw_ptr _ _ (proj1 Hok)) as (Hp0 & _ & Hp).
  pose proof (hw_size _ _ (proj1 Hok)) as Hsz. pose proof (hw_heap_end _ _ (proj1 Hok)) as He. rewrite Et in *.
  unfold rt_realloc_locked, p. kstep. kstep. cbn [m_h]. rewrite (proj2 (Z.ltb_ge _ _)), (proj2 (Z.leb_gt _ _)) by lia. cbn [orb].
  change SIZEOF_STRUCT_MEM with 12. change MIN_SIZE with 12. replace (heap_ptr h + (total pre + 12) - 12) with (heap_ptr h + total pre) by lia.
  pose proof (view_add _ _ _ _ _ (view_empty (h_mem h)) Eh ltac:(by intros ? [? ?%lookup_empty_Some])) as V.
  kstep. apply wp_in_h. eapply wp_get_next; [exact V|look|]. cbn [hm_next blk_hdr].
  replace (u32 (total pre + b_len b - (heap_ptr h + total pre - heap_ptr h) - 12)) with (b_len b - 12) by (rewrite u32_small by lia; lia).
  rewrite (u32_small (m + 12 + 12)) by lia. by replace (m + 12 + 12) with (m + 24) by lia.
Qed.

Lemma rt_realloc_locked_wp k h bs o n rest m :
  callable k -> heap_ok h bs -> live 0 bs ≡ₚ (o, n) :: rest -> 0 < m <= mem_size_aligned h -> m `mod` 4 = 0 ->
  wp (rt_realloc_locked hs (heap_ptr h + o) m) (mkMst (held k) h) (fun out s' => exists r h' bs',
    out = Returned r /\ s' = mkMst k h' /\ reallocated h bs o n m rest r h' bs').
Proof.
  intros Hc Hok Hl Hm Hm4. assert ((o, n) ∈ live 0 bs) as He by (rewrite Hl; set_solver). pose proof (in_place h bs o n Hok He) as Hr0.
  destruct (live_split _ _ _ He) as (pre & b & post & -> & Hb & E & _). rewrite Z.add_0_l in E. injection E as -> ->.
  apply (rt_realloc_locked_at (held k) h pre b post m); [done|done|]. destruct (Z.eqb_spec (b_len b - 12) m) as [Em|Em].
  { kstep. eapply wp_in_k; [by apply release_held, Hc|]. kstep. exists (heap_ptr h + (total pre + 12)), h, (pre ++ b :: post).
    split; [done|]. split; [done|]. unfold reallocated. rewrite Hr0. split_and!; [done..|lia|]. exists m. split; [done|]. rewrite Em in Hl. split; [|done].
    by replace (heap_ptr h + (total pre + 12) - heap_ptr h) with (total pre + 12) by lia. }
  destruct (Z.ltb_spec (m + 24) (b_len b - 12)) as [Hlt|Hge].
  { kstep. apply wp_in_h. eapply wp_mono; [apply shrink_block_wp; [done|done|lia|done|lia]|]. intros [] h' [Hok' G].
    kstep. eapply wp_in_k; [by apply release_held, Hc|]. kstep. eexists _, h', _. split_and!; [done..|]. apply shrink_live; (done || lia). }
  kstep. eapply wp_in_k; [by apply release_held, Hc|]. apply (rt_realloc_grow_wp k h (pre ++ b :: post)); (done || lia).
Qed.

Lemma rt_realloc_wp k h bs o n rest size :
  callable k -> heap_ok h bs -> live 0 bs ≡ₚ (o, n) :: rest -> 0 < size <= 2 ^ 32 - 4 -> RT_ALIGN size RT_ALIGN_SIZE <= mem_size_aligned h ->
  wp (rt_realloc hs (heap_ptr h + o) size) (mkMst k h) (fun out s' => exists r h' bs', out = Returned r /\ s' = mkMst k h' /\
    reallocated h bs o n (RT_ALIGN size RT_ALIGN_SIZE) rest r h' bs').
Proof.
  intros Hc Hok Hl Hs Hm. assert ((o, n) ∈ live 0 bs) as He by (rewrite Hl; set_solver).
  pose proof (align_bounds size) as [Hb Hb4]. pose proof (hw_ptr _ _ (proj1 Hok)) as (_ & _ & Hp). pose proof (hw_size _ _ (proj1 Hok)) as Hsz.
  unfold rt_realloc. kstep. apply not_in_interrupt; [done|]. rewrite (Z.mod_small (RT_ALIGN size RT_ALIGN_SIZE)) by lia.
  kstep. kstep. cbn [m_h]. rewrite (proj2 (Z.ltb_ge _ _)), (proj2 (Z.eqb_neq (RT_ALIGN _ _) _)), (in_place h bs o n) by (done || lia).
  apply with_heap_wp; [apply Hc|]. apply rt_realloc_locked_wp; (done || lia).
Qed.

Lemma rt_realloc_large_wp k h p size :
  callable k -> 0 <= size <= 2 ^ 32 - 4 -> mem_size_aligned h < RT_ALIGN size RT_ALIGN_SIZE ->
  wp (rt_realloc hs p size) (mkMst k h) (fun out s' => out = Returned 0 /\ s' = mkMst k h).
Proof.
  intros Hc Hs Hm. assert (RT_ALIGN size RT_ALIGN_SIZE < 2 ^ 32) by (rewrite align_four; Z.div_mod_to_equations; lia).
  pose proof (align_bounds size) as [Hb _]. unfold rt_realloc. kstep. apply not_in_interrupt; [done|].
  rewrite (Z.mod_small (RT_ALIGN size RT_ALIGN_SIZE)) by lia. kstep. kstep. cbn [m_h]. rewrite (proj2 (Z.ltb_lt _ _)) by done. by kstep.
Qed.
Lemma rt_realloc_zero_wp k h bs o n :
  callable k -> heap_ok h bs -> (o, n) ∈ live 0 bs ->
  wp (rt_realloc hs (heap_ptr h + o) 0) (mkMst k h) (fun out s' => exists h' bs', out = Returned 0 /\ s' = mkMst k h' /\ freed h bs o n h' bs').
Proof.
  intros Hc Hok He. unfold rt_realloc. kstep. apply not_in_interrupt; [done|]. change (RT_ALIGN 0 RT_ALIGN_SIZE `mod` 2 ^ 32) with 0. kstep. kstep. cbn [m_h].
  pose proof (hw_min _ _ (proj1 Hok)). rewrite (proj2 (Z.ltb_ge _ _)) by lia. cbn [Z.eqb]. kstep. eapply wp_mono; [by apply rt_free_wp|].
  intros out s' (h' & bs' & -> & -> & F). kstep. by exists h', bs'.
Qed.

(** C12: rt_realloc of a block a client holds returns and leaves the kernel as it
    was.  A size larger than the heap is refused; a size of 0 frees the block and
    returns RT_NULL.  Otherwise, with the size rounded up to a multiple of four: a
    block of that size is returned as it is; a block larger by more than 24 bytes
    stays where it is, is cut to exactly that size, and the rest is given back to
    the free memory; any other block is replaced by a new one of at least that
    size, or the result is RT_NULL, nothing has changed, and no free block at or
    above lfree was large enough (but for one at the very end that fits exactly).
    The block returned takes the place of the old one among the blocks of the
    clients and starts with its bytes, as many as fit; the other blocks keep
    theirs. *)
Theorem rt_realloc_correct k h bs o n rest size :
  callable k -> heap_ok h bs -> live 0 bs ≡ₚ (o, n) :: rest -> 0 <= size <= 2 ^ 32 - 4 ->
  let m := RT_ALIGN size RT_ALIGN_SIZE in
  exists r h' bs', rt_realloc hs (heap_ptr h + o) size (mkMst k h) = Ok (Returned r) (mkMst k h') /\
    if mem_size_aligned h <? m then r = 0 /\ h' = h
    else if size =? 0 then r = 0 /\ freed h bs o n h' bs'
    else size <= m /\ reallocated h bs o n m rest r h' bs'.
Proof.
  intros Hc Hok Hl Hs m. assert ((o, n) ∈ live 0 bs) as He by (rewrite Hl; set_solver). pose proof (align_bounds size) as [Hb Hb4]. fold m in Hb, Hb4.
  destruct (Z.ltb_spec (mem_size_aligned h) m) as [Hlt|Hge].
  { destruct (wp_run _ _ _ (rt_realloc_large_wp k h (heap_ptr h + o) size Hc Hs Hlt)) as (? & ? & E & -> & ->). by exists 0, h, bs. }
  destruct (Z.eqb_spec size 0) as [->|Hne].
  - destruct (wp_run _ _ _ (rt_realloc_zero_wp k h bs o n Hc Hok He)) as (? & ? & E & h' & bs' & -> & -> & ?). by exists 0, h', bs'.
  - destruct (wp_run _ _ _ (rt_realloc_wp k h bs o n rest size Hc Hok Hl ltac:(lia) ltac:(done))) as (? & ? & E & r & h' & bs' & -> & -> & R).
    exists r, h', bs'. split; [done|]. split; [lia|done].
Qed.

(** ** rt_calloc *)

(** rt_calloc.  When the product of its arguments fits in 32 bits, it is
    rt_malloc of the product followed by zeroing that many bytes: the block is
    fresh, its bytes are 0 and no other block changes. *)
Lemma rt_calloc_ok k h bs count size :
  callable k -> heap_ok h bs -> 0 < count -> 0 < size -> count * size <= 2 ^ 32 - 4 ->
  exists r h' bs', rt_calloc hs count size (mkMst k h) = Ok (Returned r) (mkMst k h') /\ heap_ok h' bs' /\ same_heap h h' /\
    (lowest h bs -> lowest h' bs') /\ (forall e, e ∈ live 0 bs -> contents h' e = contents h e) /\
    if r =? 0 then h' = h /\ bs' = bs
    else exists n, count * size <= n /\ live 0 bs' ≡ₚ (r - heap_ptr h, n) :: live 0 bs /\
      read_bytes (h_mem h') r (Z.to_nat (count * size)) = Some (replicate (Z.to_nat (count * size)) 0).
Proof.
  intros Hc Hok Hcn Hsz Hp. set (c := count * size) in *. assert (0 < c) as Hc0 by (unfold c; nia).
  enough (wp (rt_calloc hs count size) (mkMst k h) (fun out s' => exists r h' bs', out = Returned r /\ s' = mkMst k h' /\ heap_ok h' bs' /\ same_heap h h' /\
    (lowest h bs -> lowest h' bs') /\ (forall e, e ∈ live 0 bs -> contents h' e = contents h e) /\
    if r =? 0 then h' = h /\ bs' = bs
    else exists n, c <= n /\ live 0 bs' ≡ₚ (r - heap_ptr h, n) :: live 0 bs /\ read_bytes (h_mem h') r (Z.to_nat c) = Some (replicate (Z.to_nat c) 0))) as Hwp.
  { destruct (wp_run _ _ _ Hwp) as (? & ? & E & r & h' & bs' & -> & -> & R). by exists r, h', bs'. }
  unfold rt_calloc. fold c. rewrite (u32_small c) by lia. kstep. eapply wp_mono; [apply (rt_malloc_wp k h bs c Hc Hok ltac:(lia))|].
  intros out s' (r & h1 & bs1 & -> & -> & HA). destruct (mem_size_aligned h <? _).
  { destruct HA as (-> & -> & ->). cbn [Z.eqb negb]. kstep. kstep. kstep. by exists 0, h, bs. }
  destruct (allocated_keeps h bs _ r h1 bs1 Hok HA) as (H1 & H2 & H3 & H4 & H5). destruct (Z.eqb_spec r 0) as [->|Hr]; cbn [negb].
  { destruct (H5 eq_refl) as [-> ->]. kstep. kstep. kstep. by exists 0, h, bs. }
  destruct (allocated_live h bs (request c) r h1 bs1 Hok ltac:(unfold request; lia) HA Hr) as (n & Hn & Hl & _).
  pose proof (request_size c ltac:(lia)) as [Hq1 Hq2]. assert ((r - heap_ptr h, n) ∈ live 0 bs1) as He by (rewrite Hl; set_solver).
  destruct (contents_some h1 bs1 _ c H1 He ltac:(cbn; lia)) as (l & El & _). cbn [fst] in El. rewrite (proj1 H2) in El. replace (heap_ptr h + (r - heap_ptr h)) with r in El by lia.
  kstep. kstep. kstep. apply wp_in_h, wp_zoom. eapply wp_mono; [apply rt_memset_wp; [lia|by apply mapped_true; eexists]|]. intros _ m' [_ ->]. kstep. kstep.
  set (z := replicate (Z.to_nat c) (0 `mod` 256)). assert (Z.of_nat (length z) = c) as Elz by (unfold z; rewrite length_replicate; lia).
  destruct (write_heap_ok h1 bs1 (r - heap_ptr h, n) (r - heap_ptr h) z H1 He) as [W1 W2]; [cbn; lia|cbn; lia|by apply Forall_replicate|].
  assert (write_heap (r - heap_ptr h) z h1 = set_h_mem (write_bytes r z (h_mem h1)) h1) as Ew by (unfold write_heap; do 2 f_equal; rewrite (proj1 H2); lia). rewrite Ew in W1, W2.
  exists r, (set_h_mem (write_bytes r z (h_mem h1)) h1), bs1. split_and!; [done|done|done|apply H2..|done| |].
  - intros e Hel. pose proof (seg_len _ _ _ _ _ (hw_seg _ _ (proj1 H1))) as Hlen. pose proof (live_apart _ _ _ Hlen Hl) as Hap. inversion Hap as [|? ? Hap1 _]; subst.
    rewrite W2; [by apply H4|by rewrite Forall_forall in Hap1; apply Hap1|]. pose proof (live_bounds 0 bs1 e Hlen ltac:(rewrite Hl; set_solver)). lia.
  - rewrite (proj2 (Z.eqb_neq _ _)) by done. exists n. split; [lia|]. split; [done|]. cbn [h_mem set_h_mem]. apply read_write_same. unfold z. by rewrite length_replicate.
Qed.

End memory.
