(* ===== verification/Heap.v ===== *)
(** * The heap (src/mem.c): start-up, and the heap as its clients see it

    rt_system_heap_init makes a heap of one free block.  From there on the heap
    implements an abstract store: a map from the pointers the clients hold to the
    bytes they keep there.  [hsim] relates the two, and every call a client may
    make takes related states to related states. *)

From S2P Require Import Prelude Ffs KState Kservice Wf Inv Sched Object Timer Thread TimerRun Sleep Ipc Sem IpcObjects Mem MemBlocks MemOps Memory.

(** ** Initialisation *)

Lemma heap_headers_wp h hp n :
  0 < hp -> hp `mod` 4 = 0 -> 12 <= n -> n `mod` 4 = 0 -> hp + n + 24 <= 2 ^ 32 ->
  (forall a, hp <= a < hp + n + 24 -> is_Some (h_mem h !! a)) -> bytes_ok (h_mem h) -> used_mem h = 0 -> 0 <= max_mem h ->
  wp (modify (set_mem_size_aligned n) ;;
      modify (set_heap_ptr hp) ;;
      set_magic hp HEAP_MAGIC ;;
      set_next hp (n + 12) ;;
      set_prev hp 0 ;;
      set_used hp 0 ;;
      nx <- get_next hp ;;
      modify (set_heap_end (hp + nx)) ;;
      set_magic (hp + nx) HEAP_MAGIC ;;
      set_used (hp + nx) 1 ;;
      set_next (hp + nx) (n + 12) ;;
      set_prev (hp + nx) (n + 12)) h (fun _ h' =>
    heap_ok (set_lfree hp h') [Blk false (n + 12)] /\ heap_ptr h' = hp /\ mem_size_aligned h' = n /\ used_mem h' = 0).
Proof.
  intros Hp Hp4 Hn Hn4 Hend Hm Hb Hu Hx.
  destruct (hdr_mapped (h_mem h) hp) as [x1 E1]; [intros; apply Hm; lia|].
  destruct (hdr_mapped (h_mem h) (hp + (n + 12))) as [x2 E2]; [intros; apply Hm; lia|].
  assert (view (h_mem h) (h_mem h) (<[hp + (n + 12) := x2]> (<[hp := x1]> ∅))) as V.
  { apply view_add; [apply view_add; [apply view_empty|done|]|done|]; in_view. }
  kstep. kstep. kstep. kstep. hset wp_set_magic V. hset wp_set_next V. hset wp_set_prev V. hset wp_set_used V. hget wp_get_next V.
  rewrite (u32_small (n + 12)) in * by lia. kstep. kstep. hset wp_set_magic V. hset wp_set_used V. hset wp_set_next V.
  eapply wp_set_prev; [exact V|look|]. clear V. intros m' V. cbn [hm_magic hm_used hm_next hm_prev] in V. rewrite (u32_small (n + 12)) in * by lia.
  pose proof (vw_hdr V hp _ ltac:(look)) as G1. pose proof (vw_hdr V (hp + (n + 12)) _ ltac:(look)) as G2.
  split; [|done]. split; [|done]. split; cbn [h_mem heap_ptr heap_end lfree mem_size_aligned used_mem max_mem set_lfree set_h_mem set_heap_end set_heap_ptr set_mem_size_aligned total used_total foldr b_len b_used seg].
  - rewrite Z.add_0_r. split; [exact G1|]. split; [|done]. split; cbn [b_len]; Z.div_mod_to_equations; lia.
  - eexists. rewrite Z.add_0_r. exact G2.
  - lia.
  - lia.
  - lia.
  - split_and!; [done|done|lia].
  - intros a Ha. apply (vw_mapped V), Hm. lia.
  - by apply (vw_bytes V).
  - left. cbn [free_starts b_used app]. rewrite Z.sub_diag. set_solver.
  - done.
  - lia.
Qed.

Section heap.
Context (hs : nat).

(** Rt_system_heap_init.  Given an area of at least 36 bytes between the
    aligned addresses, in a kernel where the heap semaphore is new, it makes the
    whole area one free block, creates the semaphore with one token and keeps the
    kernel invariant: the heap can be used. *)
Theorem rt_system_heap_init_correct k h begin_addr end_addr :
  let b := RT_ALIGN begin_addr RT_ALIGN_SIZE in let e := RT_ALIGN_DOWN end_addr RT_ALIGN_SIZE in
  fresh_object k (OSem hs) RT_Object_Class_Semaphore (QSem hs) -> k_irq_nest k = 0 ->
  0 < begin_addr -> end_addr <= 2 ^ 32 -> b + 36 <= e ->
  (forall a, b <= a < e -> is_Some (h_mem h !! a)) -> bytes_ok (h_mem h) -> used_mem h = 0 -> 0 <= max_mem h ->
  exists k' h', rt_system_heap_init hs begin_addr end_addr (mkMst k h) = Ok tt (mkMst k' h') /\ kinv k' /\ callable hs k' /\
    heap_ok h' [Blk false (e - b - 12)] /\ lowest h' [Blk false (e - b - 12)] /\ heap_ptr h' = b /\ lfree h' = b /\ rt_memory_info h' = (e - b - 24, 0, max_mem h').
Proof.
  intros b e Hf Hi Hb He Hsz Hm Hby Hu Hx. pose proof (align_bounds begin_addr) as [Hb1 Hb4]. fold b in Hb1, Hb4.
  assert (e = end_addr - end_addr `mod` 4) as Ee by (unfold e; change RT_ALIGN_SIZE with (2 ^ 2); rewrite align_down_spec by lia; done).
  assert (e `mod` 4 = 0 /\ e <= end_addr) as [He4 He1] by (rewrite Ee; Z.div_mod_to_equations; lia).
  enough (wp (rt_system_heap_init hs begin_addr end_addr) (mkMst k h) (fun _ s' => exists k' h', s' = mkMst k' h' /\ kinv k' /\ callable hs k' /\
    heap_ok h' [Blk false (e - b - 12)] /\ heap_ptr h' = b /\ lfree h' = b /\ rt_memory_info h' = (e - b - 24, 0, max_mem h'))) as Hwp.
  { destruct (wp_run _ _ _ Hwp) as ([] & ? & E & k' & h' & -> & H1 & H2 & H3 & H4 & H5 & H6). exists k', h'. split_and!; try done.
    intros a. cbn [free_starts b_used app]. rewrite elem_of_cons, elem_of_nil. intros [->|[]]. lia. }
  unfold rt_system_heap_init. fold e. fold b. rewrite (u32_small b) by lia. unfold SIZEOF_STRUCT_MEM.
  kstep. apply (wp_in_k _ _ _ tt k); [unfold RT_DEBUG_NOT_IN_INTERRUPT, bind, gets; by rewrite Hi|].
  rewrite (proj2 (Z.ltb_lt _ e)), (proj2 (Z.leb_le b _)) by lia. cbn [andb]. replace (e - b - 2 * 12) with (e - b - 24) by lia.
  kstep. apply wp_in_h. eapply wp_mono; [apply (heap_headers_wp h b (e - b - 24)); try done; [lia|lia|Z.div_mod_to_equations; lia|lia|intros; apply Hm; lia]|].
  intros [] h1 (Hok & E1 & E2 & E3).
  destruct (wp_run _ _ _ (rt_sem_init_irq_wp k hs [104; 101; 97; 112] 1 RT_IPC_FLAG_FIFO Hf ltac:(repeat constructor; lia) ltac:(lia) ltac:(by left)))
    as (r & k' & E & -> & Hk' & Hs' & Hi').
  kstep. eapply wp_in_k; [exact E|]. apply wp_in_h. kstep. exists k', (set_lfree b h1). replace (e - b - 24 + 12) with (e - b - 12) in Hok by lia.
  split_and!; try done; [unfold callable; by rewrite Hi'|]. unfold rt_memory_info. cbn [mem_size_aligned used_mem set_lfree max_mem]. by rewrite E2, E3.
Qed.

(** ** The abstract store *)

(** The calls of a client. *)
Inductive hop := Malloc (size : Z) | Calloc (count size : Z) | Realloc (p size : Z) | Free (p : Z) | Write (p i : Z) (l : list Z).

(** What a client holds: its pointers, and the bytes it keeps there. *)
Notation store_of := (gmap Z (list Z)).

Definition run (op : hop) : M mst (outcome Z) :=
  match op with
  | Malloc size => rt_malloc hs size
  | Calloc count size => rt_calloc hs count size
  | Realloc p size => rt_realloc hs p size
  | Free p => o <- rt_free hs p ;; match o with Returned _ => ret (Returned 0) | Waiting t => ret (Waiting t) end
  | Write p i l => in_h (modify (fun h => write_heap (p + i - heap_ptr h) l h)) ;; ret (Returned 0)
  end.

(** The calls a client may make: sizes that do not wrap around, and pointers it
    holds. *)
Definition valid (L : store_of) (op : hop) : Prop :=
  match op with
  | Malloc size => 0 <= size <= 2 ^ 32 - 4
  | Calloc count size => 0 < count /\ 0 < size /\ count * size <= 2 ^ 32 - 4
  | Realloc p size => is_Some (L !! p) /\ 0 <= size <= 2 ^ 32 - 4
  | Free p => p = 0 \/ is_Some (L !! p)
  | Write p i l => byte_range l /\ exists old, L !! p = Some old /\ 0 <= i /\ i + Z.of_nat (length l) <= Z.of_nat (length old)
  end.

(** The bytes [l] over those of [old] from [i] on. *)
Definition splice (old : list Z) (i : nat) (l : list Z) : list Z := take i old ++ l ++ drop (i + length l) old.

(** What a call promises: a result, and what the client holds after. *)
Definition promise (L : store_of) (op : hop) (r : Z) (L' : store_of) : Prop :=
  match op with
  | Malloc size => (r = 0 /\ L' = L) \/ (r <> 0 /\ L !! r = None /\ exists l, Z.of_nat (length l) = size /\ L' = <[r := l]> L)
  | Calloc count size => (r = 0 /\ L' = L) \/ (r <> 0 /\ L !! r = None /\ L' = <[r := replicate (Z.to_nat (count * size)) 0]> L)
  | Realloc p size =>
      if size =? 0 then r = 0 /\ L' = delete p L
      else (r = 0 /\ L' = L) \/
        (r <> 0 /\ delete p L !! r = None /\ exists old l, L !! p = Some old /\ Z.of_nat (length l) = size /\
           (let c := Nat.min (length old) (length l) in take c l = take c old) /\ L' = <[r := l]> (delete p L))
  | Free p => r = 0 /\ L' = delete p L
  | Write p i l => r = 0 /\ L' = alter (fun old => splice old (Z.to_nat i) l) p L
  end.

(** The heap holds what the clients keep. *)
Definition holds (h : heap) (bs : list blk) (L : store_of) : Prop :=
  (forall p l, L !! p = Some l -> exists n, (p - heap_ptr h, n) ∈ live 0 bs /\ Z.of_nat (length l) <= n /\
     read_bytes (h_mem h) p (length l) = Some l) /\
  (forall o n, (o, n) ∈ live 0 bs -> is_Some (L !! (heap_ptr h + o))).

Definition hsim (s : mst) (L : store_of) : Prop :=
  callable hs (m_k s) /\ exists bs, heap_ok (m_h s) bs /\ holds (m_h s) bs L.

(** ** The simulation *)

Lemma live_fresh h bs o n rest e : heap_ok h bs -> live 0 bs ≡ₚ (o, n) :: rest -> e ∈ rest -> fst e <> o.
Proof.
  intros [W _] Hl He. pose proof (seg_len _ _ _ _ _ (hw_seg _ _ W)) as Hlen. pose proof (live_apart _ _ _ Hlen Hl) as Hap.
  inversion Hap as [|? ? Hap1 _]; subst. rewrite Forall_forall in Hap1. specialize (Hap1 e He). unfold apart in Hap1. cbn [fst snd] in Hap1.
  pose proof (live_bounds 0 bs e Hlen ltac:(rewrite Hl; set_solver)). pose proof (live_bounds 0 bs (o, n) Hlen ltac:(rewrite Hl; set_solver)) as B.
  cbn [fst snd] in B. lia.
Qed.
Lemma live_unique h bs o n n' : heap_ok h bs -> (o, n) ∈ live 0 bs -> (o, n') ∈ live 0 bs -> n' = n.
Proof.
  intros Hok He He'. destruct (proj1 (elem_of_Permutation _ _) He) as [rest Hl]. rewrite Hl in He'.
  apply elem_of_cons in He' as [[= ->]|He']; [done|]. by destruct (live_fresh h bs o n rest _ Hok Hl He').
Qed.
Lemma store_nonnull h bs L p : heap_ok h bs -> holds h bs L -> is_Some (L !! p) -> p <> 0.
Proof.
  intros Hok [H1 _] [l Hl] ->. destruct (H1 _ _ Hl) as (n & He & _). destruct (live_address h bs _ _ Hok He) as (? & _ & _ & _ & ? & _). lia.
Qed.

(** The blocks after a call are blocks that were there, with the same bytes, or
    blocks whose bytes the client knows. *)
Lemma holds_step h bs L h' bs' L' :
  heap_ok h bs -> heap_ptr h' = heap_ptr h -> holds h bs L ->
  (forall e, e ∈ live 0 bs' ->
     (e ∈ live 0 bs /\ contents h' e = contents h e /\ L' !! (heap_ptr h + fst e) = L !! (heap_ptr h + fst e)) \/
     (exists l, L' !! (heap_ptr h + fst e) = Some l /\ Z.of_nat (length l) <= snd e /\ read_bytes (h_mem h') (heap_ptr h + fst e) (length l) = Some l)) ->
  (forall p, is_Some (L' !! p) -> exists n, (p - heap_ptr h, n) ∈ live 0 bs') ->
  holds h' bs' L'.
Proof.
  intros Hok Ep [H1 H2] Hb Hd. unfold holds. rewrite Ep. split.
  - intros p l Hl. destruct (Hd p ltac:(by eexists)) as [n He]. exists n. split; [done|]. specialize (Hb _ He). cbn [fst snd] in Hb.
    replace (heap_ptr h + (p - heap_ptr h)) with p in Hb by lia. destruct Hb as [(Hin & Hc & EL)|(l' & El' & Hlen & Hr)]; [|by simplify_eq].
    rewrite EL in Hl. destruct (H1 p l Hl) as (n0 & Hin0 & Hlen & Hr). assert (n0 = n) as -> by (by eapply live_unique). split; [done|].
    pose proof (contents_prefix h h' bs _ (Z.of_nat (length l)) Hok Hin ltac:(cbn; lia) Ep Hc) as E. cbn [fst] in E.
    replace (heap_ptr h + (p - heap_ptr h)) with p in E by lia. rewrite Nat2Z.id in E. by rewrite E.
  - intros o n He. destruct (Hb _ He) as [(Hin & _ & EL)|(l & El & _)]; [|by eexists]. cbn [fst] in EL. rewrite EL. by eapply H2.
Qed.

(** A call that gives the client a block: [l] are its bytes. *)
Lemma holds_gain h bs L h' bs' r n l :
  heap_ok h bs -> heap_ok h' bs' -> heap_ptr h' = heap_ptr h -> holds h bs L -> live 0 bs' ≡ₚ (r - heap_ptr h, n) :: live 0 bs ->
  (forall e, e ∈ live 0 bs -> contents h' e = contents h e) -> Z.of_nat (length l) <= n -> read_bytes (h_mem h') r (length l) = Some l ->
  holds h' bs' (<[r := l]> L) /\ L !! r = None.
Proof.
  intros Hok Hok' Ep Hh Hl Hk Hn Hr.
  assert (forall e, e ∈ live 0 bs -> heap_ptr h + fst e <> r) as Hne by (intros e He; pose proof (live_fresh h' bs' _ _ _ e Hok' Hl He); lia). split.
  - apply (holds_step h bs L); try done.
    + intros e. rewrite Hl, elem_of_cons. intros [->|He].
      * right. exists l. cbn [fst snd]. replace (heap_ptr h + (r - heap_ptr h)) with r by lia. by rewrite lookup_insert_eq.
      * left. split_and!; [done|by apply Hk|]. by rewrite lookup_insert_ne by (symmetry; by apply Hne).
    + intros p. rewrite lookup_insert_is_Some'. intros [<-|[l' Hp]]; [exists n; rewrite Hl; set_solver|].
      destruct Hh as [H1 _]. destruct (H1 _ _ Hp) as (n' & He & _). exists n'. rewrite Hl. set_solver.
  - destruct (L !! r) as [l'|] eqn:E; [|done]. destruct Hh as [H1 _]. destruct (H1 _ _ E) as (n' & He & _). apply Hne in He. cbn in He. lia.
Qed.
Lemma holds_lose h bs L h' bs' o n :
  heap_ok h bs -> heap_ptr h' = heap_ptr h -> holds h bs L -> live 0 bs ≡ₚ (o, n) :: live 0 bs' ->
  (forall e, e ∈ live 0 bs' -> contents h' e = contents h e) -> holds h' bs' (delete (heap_ptr h + o) L).
Proof.
  intros Hok Ep Hh Hl Hk. apply (holds_step h bs L); try done.
  - intros e He. left. pose proof (live_fresh h bs _ _ _ e Hok Hl He). split_and!; [rewrite Hl; set_solver|by apply Hk|].
    by rewrite lookup_delete_ne by lia.
  - intros p. rewrite lookup_delete_is_Some. intros [Hne [l Hp]]. destruct Hh as [H1 _]. destruct (H1 _ _ Hp) as (n' & He & _). exists n'.
    rewrite Hl in He. apply elem_of_cons in He as [[= E _]|He]; [lia|done].
Qed.

Lemma holds_move h bs L h' bs' o n rest r n' l :
  heap_ok h bs -> heap_ok h' bs' -> heap_ptr h' = heap_ptr h -> holds h bs L ->
  live 0 bs ≡ₚ (o, n) :: rest -> live 0 bs' ≡ₚ (r - heap_ptr h, n') :: rest ->
  (forall e, e ∈ rest -> contents h' e = contents h e) -> Z.of_nat (length l) <= n' -> read_bytes (h_mem h') r (length l) = Some l ->
  holds h' bs' (<[r := l]> (delete (heap_ptr h + o) L)) /\ delete (heap_ptr h + o) L !! r = None.
Proof.
  intros Hok Hok' Ep Hh Hl Hl' Hk Hn Hr.
  assert (forall e, e ∈ rest -> heap_ptr h + fst e <> r) as Hne by (intros e He; pose proof (live_fresh h' bs' _ _ _ e Hok' Hl' He); lia).
  assert (forall p, is_Some (delete (heap_ptr h + o) L !! p) -> exists n, (p - heap_ptr h, n) ∈ rest) as Hd.
  { intros p. rewrite lookup_delete_is_Some. intros [Hp [l' El]]. destruct Hh as [H1 _]. destruct (H1 _ _ El) as (n0 & He & _). exists n0.
    rewrite Hl in He. apply elem_of_cons in He as [[= E _]|He]; [lia|done]. }
  split.
  - apply (holds_step h bs L); try done.
    + intros e. rewrite Hl', elem_of_cons. intros [->|He].
      * right. exists l. cbn [fst snd]. replace (heap_ptr h + (r - heap_ptr h)) with r by lia. by rewrite lookup_insert_eq.
      * left. pose proof (live_fresh h bs _ _ _ e Hok Hl He). split_and!; [rewrite Hl; set_solver|by apply Hk|].
        by rewrite lookup_insert_ne, lookup_delete_ne by (lia || (symmetry; by apply Hne)).
    + intros p. rewrite lookup_insert_is_Some'. intros [<-|Hp]; [exists n'; rewrite Hl'; set_solver|].
      destruct (Hd p Hp) as [n0 He]. exists n0. rewrite Hl'. set_solver.
  - destruct (delete _ L !! r) eqn:E; [|done]. destruct (Hd r ltac:(by eexists)) as [n0 He]. apply Hne in He. cbn in He. lia.
Qed.

(** A call that runs as promised. *)
Definition simulated (s : mst) (L : store_of) (op : hop) : Prop :=
  wp (run op) s (fun o s' => exists r L', o = Returned r /\ m_k s' = m_k s /\ hsim s' L' /\ promise L op r L').

Lemma sim_malloc k h L size : hsim (mkMst k h) L -> valid L (Malloc size) -> simulated (mkMst k h) L (Malloc size).
Proof.
  intros [Hc (bs & Hok & Hh)] Hs. cbn [m_k m_h valid] in *. unfold simulated. cbn [run]. destruct (Z.eqb_spec size 0) as [->|Hne].
  { unfold rt_malloc. cbn [Z.eqb]. kstep. exists 0, L. split_and!; [done|done|split; [done|by exists bs]|by left]. }
  eapply wp_mono; [apply (rt_malloc_wp hs k h bs size Hc Hok ltac:(lia))|]. intros out s' (r & h' & bs' & -> & -> & HA).
  destruct (mem_size_aligned h <? _).
  { destruct HA as (-> & -> & ->). exists 0, L. split_and!; [done|done|split; [done|by exists bs]|by left]. }
  destruct (allocated_keeps h bs _ r h' bs' Hok HA) as (H1 & H2 & _ & H4 & H5). destruct (decide (r = 0)) as [->|Hr].
  { destruct (H5 eq_refl) as [-> ->]. exists 0, L. split_and!; [done|done|split; [done|by exists bs]|by left]. }
  destruct (allocated_live h bs (request size) r h' bs' Hok ltac:(unfold request; lia) HA Hr) as (n & Hn & Hl & _). pose proof (request_size size ltac:(lia)) as [Hq1 Hq2].
  destruct (contents_some h' bs' (r - heap_ptr h, n) size H1 ltac:(rewrite Hl; set_solver) ltac:(cbn; lia)) as (l & El & _). cbn [fst] in El.
  rewrite (proj1 H2) in El. replace (heap_ptr h + (r - heap_ptr h)) with r in El by lia. pose proof (read_bytes_length _ _ _ _ El) as Ell. rewrite <- Ell in El.
  destruct (holds_gain h bs L h' bs' r n l) as [G1 G2]; [done|done|apply H2|done|done|done|lia|done|].
  exists r, (<[r := l]> L). split_and!; [done|done|split; [done|by exists bs']|]. right. split_and!; [done|done|]. exists l. split; [lia|done].
Qed.

Lemma sim_calloc k h L count size : hsim (mkMst k h) L -> valid L (Calloc count size) -> simulated (mkMst k h) L (Calloc count size).
Proof.
  intros [Hc (bs & Hok & Hh)] (V1 & V2 & V3). cbn [m_k m_h] in *. unfold simulated. cbn [run].
  destruct (rt_calloc_ok hs k h bs count size Hc Hok V1 V2 V3) as (r & h' & bs' & E & H1 & H2 & _ & H4 & H5). unfold wp. rewrite E.
  destruct (Z.eqb_spec r 0) as [->|Hr].
  { destruct H5 as [-> ->]. exists 0, L. split_and!; [done|done|split; [done|by exists bs]|by left]. }
  destruct H5 as (n & Hn & Hl & Hz). destruct (holds_gain h bs L h' bs' r n (replicate (Z.to_nat (count * size)) 0)) as [G1 G2]; rewrite ?length_replicate; try done; [apply H2|lia|].
  eexists r, _. split_and!; [done|done|split; [done|by exists bs']|]. by right.
Qed.

Lemma sim_free k h L p : hsim (mkMst k h) L -> valid L (Free p) -> simulated (mkMst k h) L (Free p).
Proof.
  intros [Hc (bs & Hok & Hh)] V. cbn [m_k m_h valid] in *. unfold simulated. cbn [run]. destruct (decide (p = 0)) as [->|Hp].
  { unfold rt_free. cbn [Z.eqb]. kstep. kstep. kstep. assert (L !! 0 = None) as E0.
    { destruct (L !! 0) eqn:E; [|done]. by destruct (store_nonnull h bs L 0 Hok Hh ltac:(by eexists)). }
    exists 0, L. split_and!; [done|done|split; [done|by exists bs]|]. cbn [promise]. by rewrite delete_id. }
  destruct V as [?|[l Hl]]; [done|]. destruct (proj1 Hh _ _ Hl) as (n & He & _). replace p with (heap_ptr h + (p - heap_ptr h)) at 1 by lia.
  kstep. eapply wp_mono; [by apply rt_free_wp|]. intros out s' (h' & bs' & -> & -> & Hok' & S & _ & Hl' & Hk). kstep.
  exists 0, (delete p L). split_and!; [done|done| |done]. split; [done|]. exists bs'. split; [done|].
  replace p with (heap_ptr h + (p - heap_ptr h)) by lia. apply (holds_lose h bs L h' bs' _ n); [done|apply S|done..].
Qed.

Lemma sim_realloc k h L p size : hsim (mkMst k h) L -> valid L (Realloc p size) -> simulated (mkMst k h) L (Realloc p size).
Proof.
  intros [Hc (bs & Hok & Hh)] [[old Ho] Hs]. cbn [m_k m_h] in *. unfold simulated. cbn [run]. destruct (proj1 Hh _ _ Ho) as (n & He & Hlen & Hold).
  set (o := p - heap_ptr h) in *. assert (p = heap_ptr h + o) as Ep by lia. clearbody o. subst p.
  destruct (proj1 (elem_of_Permutation _ _) He) as [rest Hl]. pose proof (hw_min _ _ (proj1 Hok)) as Hmin. cbn [promise].
  destruct (decide (mem_size_aligned h < RT_ALIGN size RT_ALIGN_SIZE)) as [Hlt|Hge].
  { eapply wp_mono; [by apply rt_realloc_large_wp|]. intros out s' [-> ->]. exists 0, L. split_and!; [done|done|split; [done|by exists bs]|].
    rewrite (proj2 (Z.eqb_neq _ _)); [by left|]. intros ->. change (RT_ALIGN 0 RT_ALIGN_SIZE) with 0 in Hlt. lia. }
  destruct (Z.eqb_spec size 0) as [->|Hne].
  { eapply wp_mono; [by apply rt_realloc_zero_wp|]. intros out s' (h' & bs' & -> & -> & Hok' & S & _ & Hl' & Hk).
    exists 0, (delete (heap_ptr h + o) L). split_and!; [done|done| |done|done]. split; [done|]. exists bs'. split; [done|].
    apply (holds_lose h bs L h' bs' o n); [done|apply S|done..]. }
  eapply wp_mono; [apply (rt_realloc_wp hs k h bs o n rest size); (done || lia)|].
  intros out s' (r & h' & bs' & -> & -> & Hok' & S & _ & Hk & _ & _ & HR). pose proof (align_bounds size) as [Hb _]. destruct (Z.eqb_spec r 0) as [->|Hr].
  { destruct HR as (-> & -> & _). exists 0, L. split_and!; [done|done|split; [done|by exists bs]|by left]. }
  destruct HR as (n' & Hn' & Hl' & Hpre).
  destruct (contents_some h' bs' (r - heap_ptr h, n') size Hok' ltac:(rewrite Hl'; set_solver) ltac:(cbn; lia)) as (l & El & _). cbn [fst] in El.
  rewrite (proj1 S) in El. replace (heap_ptr h + (r - heap_ptr h)) with r in El by lia. pose proof (read_bytes_length _ _ _ _ El) as Ell. rewrite <- Ell in El.
  destruct (holds_move h bs L h' bs' o n rest r n' l) as [G1 G2]; [done|done|apply S|done|done|done|done|lia|done|].
  exists r, (<[r := l]> (delete (heap_ptr h + o) L)). split_and!; [done|done|split; [done|by exists bs']|]. right. split_and!; [done|done|]. exists old, l.
  split_and!; [done|lia| |done]. cbn zeta. set (c := Nat.min (length old) (length l)).
  destruct (contents_some h bs (o, n) (Z.min n (RT_ALIGN size RT_ALIGN_SIZE)) Hok He ltac:(cbn; lia)) as (x & Ex & _). cbn [fst] in Ex. rewrite Ex in Hpre.
  pose proof (read_bytes_take _ _ _ _ c Hpre ltac:(lia)) as E1. pose proof (read_bytes_take _ _ _ _ c Ex ltac:(lia)) as E2.
  rewrite (read_bytes_take _ _ _ _ c El) in E1 by lia. rewrite (read_bytes_take _ _ _ _ c Hold) in E2 by lia. congruence.
Qed.

Lemma read_splice m p old i l : read_bytes m p (length old) = Some old -> (i + length l <= length old)%nat ->
  read_bytes (write_bytes (p + Z.of_nat i) l m) p (length old) = Some (splice old i l).
Proof.
  intros Ho Hi. unfold splice. replace (length old) with (i + (length l + (length old - i - length l)))%nat by lia.
  apply read_bytes_app; [rewrite read_write_out by lia; apply (read_bytes_take _ _ _ _ i Ho); lia|].
  apply read_bytes_app; [by apply read_write_same|]. rewrite read_write_out by lia.
  pose proof (read_bytes_sub _ _ _ _ (i + length l) (length old - i - length l) Ho ltac:(lia)) as E.
  replace (p + Z.of_nat i + Z.of_nat (length l)) with (p + Z.of_nat (i + length l)) by lia. rewrite E. f_equal. apply take_ge. rewrite length_drop. lia.
Qed.
Lemma length_splice old i l : (i + length l <= length old)%nat -> length (splice old i l) = length old.
Proof. intros Hi. unfold splice. rewrite !length_app, length_take, length_drop. lia. Qed.

Lemma sim_write k h L p i l : hsim (mkMst k h) L -> valid L (Write p i l) -> simulated (mkMst k h) L (Write p i l).
Proof.
  intros [Hc (bs & Hok & Hh)] [Hr (old & Ho & Hi & Hlen)]. cbn [m_k m_h] in *. unfold simulated. cbn [run promise]. destruct (proj1 Hh _ _ Ho) as (n & He & Hn & Hold).
  destruct (write_heap_ok h bs _ (p + i - heap_ptr h) l Hok He ltac:(cbn; lia) ltac:(cbn; lia) Hr) as [Hok' Hk].
  kstep. apply wp_in_h. kstep. kstep. eexists 0, _. split_and!; [done|done| |done|done]. split; [done|]. exists bs. split; [done|]. cbn [m_h].
  destruct (proj1 (elem_of_Permutation _ _) He) as [rest Hl].
  pose proof (seg_len _ _ _ _ _ (hw_seg _ _ (proj1 Hok))) as Hlb. pose proof (live_apart _ _ _ Hlb Hl) as Hap. inversion Hap as [|? ? Hap1 _]; subst.
  apply (holds_step h bs L); [done|done|done| |].
  - intros e He2. pose proof He2 as He3. rewrite Hl in He3. apply elem_of_cons in He3 as [->|He3].
    + right. exists (splice old (Z.to_nat i) l). cbn [fst snd]. replace (heap_ptr h + (p - heap_ptr h)) with p by lia.
      rewrite lookup_alter_eq, Ho. split; [done|]. rewrite length_splice by lia. split; [done|].
      cbn [write_heap h_mem set_h_mem]. replace (heap_ptr h + (p + i - heap_ptr h)) with (p + Z.of_nat (Z.to_nat i)) by lia. apply read_splice; [done|lia].
    + left. split; [done|]. split; [apply Hk; [by rewrite Forall_forall in Hap1; apply Hap1|pose proof (live_bounds _ _ _ Hlb He2); lia]|].
      pose proof (live_fresh h bs _ _ _ e Hok Hl He3). by rewrite lookup_alter_ne by lia.
  - intros q Hq. rewrite lookup_alter_is_Some in Hq. destruct Hq as [x Hq]. destruct (proj1 Hh _ _ Hq) as (n' & ? & _). by exists n'.
Qed.

(** C2: the heap implements a store of blocks.  Along every sequence of calls,
    related states stay related: a valid rt_malloc, rt_calloc, rt_realloc or
    rt_free, or a write into a block a client holds, returns (no assertion fails,
    no loop runs on), leaves the kernel as it was, and does to the clients' blocks
    what the abstract call promises.  In particular the blocks never overlap, a
    new block is one nobody holds, and every block keeps the bytes its holder
    wrote until it is freed, also when rt_realloc moves it. *)
Theorem heap_refines_store s L op :
  hsim s L -> valid L op ->
  exists r s' L', run op s = Ok (Returned r) s' /\ m_k s' = m_k s /\ hsim s' L' /\ promise L op r L'.
Proof.
  intros Hs Hv. destruct s as [k h]. assert (simulated (mkMst k h) L op) as Hwp.
  { destruct op; [by apply sim_malloc|by apply sim_calloc|by apply sim_realloc|by apply sim_free|by apply sim_write]. }
  destruct (wp_run _ _ _ Hwp) as (? & s' & E & r & L' & -> & Ek & Hs' & Hp). by exists r, s', L'.
Qed.

(** ** Mutual exclusion *)

(** The call gets as far as the heap semaphore. *)
Definition enters (h : heap) (op : hop) : Prop :=
  let inside p := Z.land p (RT_ALIGN_SIZE - 1) = 0 /\ p <> 0 /\ heap_ptr h <= p < heap_end h in
  let fits size := 0 < size <= 2 ^ 32 - 4 /\ RT_ALIGN size RT_ALIGN_SIZE <= mem_size_aligned h in
  match op with
  | Malloc size => fits size
  | Calloc count size => 0 < count /\ fits (count * size)
  | Realloc p size => inside p /\ fits size
  | Free p => inside p
  | Write _ _ _ => False
  end.

(** A call that finds the heap in use goes to wait, and nothing of the heap changes. *)
Definition turned_away {A} (k : kst) (h : heap) (flag : Z) (c : nat) (th : rt_thread) (m : M mst (outcome A)) : Prop :=
  wp m (mkMst k h) (fun o s' => o = Waiting c /\ m_h s' = h /\
    blocked_post k (m_k s') (QSem hs) flag c (set_th_error RT_EOK th) RT_WAITING_FOREVER).

Section busy.
Context (k : kst) (h : heap) (w : list nat) (flag : Z) (c : nat) (th : rt_thread).
Hypothesis (Hk : kinv k) (Hs : sem_ok k hs (ASem 0 w) flag) (Hca : caller k c th) (Hi : k_irq_nest k = 0).
Local Notation busy := (turned_away k h flag c th).

Lemma busy_with_heap {A} (m : M mst (outcome A)) : busy (with_heap hs m).
Proof using All.
  unfold turned_away, with_heap. kstep. apply wp_zoom. cbn [m_k m_h].
  eapply wp_mono; [apply (rt_sem_take_block_wp k hs (ASem 0 w) flag RT_WAITING_FOREVER c th); try done; by rewrite TICK_HALF_val|].
  intros r s' [-> B]. by kstep.
Qed.
Lemma busy_enter {A} (m : M mst (outcome A)) : busy m -> busy (in_k RT_DEBUG_NOT_IN_INTERRUPT ;; m).
Proof using Hi.
  intros Hm. unfold turned_away. kstep. apply (wp_in_k _ _ _ tt k); [unfold RT_DEBUG_NOT_IN_INTERRUPT, bind, gets; by rewrite Hi|done].
Qed.
Lemma busy_heap {A} (m : heap -> M mst (outcome A)) : busy (m h) -> busy (x <- gets m_h ;; m x).
Proof using. done. Qed.
Lemma busy_then {A B} (m : M mst (outcome A)) (f : A -> M mst (outcome B)) :
  busy m -> busy (o <- m ;; match o with Returned a => f a | Waiting t => ret (Waiting t) end).
Proof using. intros Hm. unfold turned_away. kstep. eapply wp_mono; [exact Hm|]. intros o s' (-> & H1 & H2). by kstep. Qed.

Lemma busy_malloc size : 0 < size <= 2 ^ 32 - 4 -> RT_ALIGN size RT_ALIGN_SIZE <= mem_size_aligned h -> busy (rt_malloc hs size).
Proof using All.
  intros Hsz Hm. unfold rt_malloc. rewrite (proj2 (Z.eqb_neq _ _)) by lia. apply busy_enter. cbv zeta. apply busy_heap.
  pose proof (align_bounds size) as [Hb _]. assert (RT_ALIGN size RT_ALIGN_SIZE < 2 ^ 32) by (rewrite align_four; Z.div_mod_to_equations; lia).
  rewrite (Z.mod_small (RT_ALIGN size RT_ALIGN_SIZE)), (proj2 (Z.ltb_ge (mem_size_aligned h) _)) by lia. apply busy_with_heap.
Qed.
Lemma busy_free p : Z.land p (RT_ALIGN_SIZE - 1) = 0 -> p <> 0 -> heap_ptr h <= p < heap_end h -> busy (rt_free hs p).
Proof using All.
  intros H1 H2 H3. unfold rt_free. rewrite (proj2 (Z.eqb_neq _ _)), H1 by done. apply busy_enter.
  change (busy (RT_ASSERT ((heap_ptr h <=? p) && (p <? heap_end h)) ;; if (p <? heap_ptr h) || (heap_end h <=? p) then ret (Returned tt) else with_heap hs (rt_free_locked hs p ;; ret (Returned tt)))).
  rewrite (proj2 (Z.leb_le _ _)), (proj2 (Z.ltb_lt p _)), (proj2 (Z.ltb_ge p _)), (proj2 (Z.leb_gt (heap_end h) _)) by lia. apply busy_with_heap.
Qed.
Lemma busy_realloc p size : p <> 0 -> 0 < size <= 2 ^ 32 - 4 -> RT_ALIGN size RT_ALIGN_SIZE <= mem_size_aligned h -> busy (rt_realloc hs p size).
Proof using All.
  intros Hp Hsz Hm. unfold rt_realloc. apply busy_enter. cbv zeta. apply busy_heap.
  pose proof (align_bounds size) as [Hb _]. assert (RT_ALIGN size RT_ALIGN_SIZE < 2 ^ 32) by (rewrite align_four; Z.div_mod_to_equations; lia).
  rewrite (Z.mod_small (RT_ALIGN size RT_ALIGN_SIZE)), (proj2 (Z.ltb_ge (mem_size_aligned h) _)), (proj2 (Z.eqb_neq (RT_ALIGN _ _) _)), (proj2 (Z.eqb_neq p _)) by lia.
  apply busy_with_heap.
Qed.
End busy.

(** C29: one thread at a time inside the heap.  While the heap semaphore has no
    token, a call that needs the heap returns control by putting the caller into
    the semaphore's waiting list, suspended; no byte and no variable of the
    heap is touched, and kernel and semaphore stay well formed. *)
Theorem heap_exclusion k h w flag c th op :
  kinv k -> sem_ok k hs (ASem 0 w) flag -> caller k c th -> enters h op ->
  exists k', run op (mkMst k h) = Ok (Waiting c) (mkMst k' h) /\ kinv k' /\ sem_ok k' hs (ASem 0 (wait_insert k flag c w)) flag.
Proof.
  intros Hk Hs Hca He. pose proof (ca_nest _ _ _ Hca) as Hi. assert (turned_away k h flag c th (run op)) as Hwp.
  { destruct op as [size|count size|p size|p|p i l]; cbn [run enters] in *.
    - by apply (busy_malloc k h w); try apply He.
    - destruct He as (Hc & [Hp1 Hp2] & Hf). unfold rt_calloc. rewrite u32_small by lia. apply (busy_then k h flag c th), (busy_malloc k h w); (done || lia).
    - destruct He as [(? & ? & ?) [? ?]]. by apply (busy_realloc k h w).
    - destruct He as (? & ? & ?). apply (busy_then k h flag c th (rt_free hs p) (fun _ => ret (Returned 0))). by apply (busy_free k h w).
    - done. }
  destruct (wp_run _ _ _ Hwp) as (o & [k' h'] & E & -> & Eh & B). cbn in Eh, B. subst h'. exists k'. split; [done|]. split; [apply B|].
  apply (sem_ok_frame k k' hs (ASem 0 w)); [apply B|done| |done]. rewrite (blocked_here _ _ _ _ _ _ _ B) by done. by destruct (sem_ok_value _ _ _ _ Hs) as [_ ->].
Qed.

(** ** Where the heap does less than it could *)

(** When lfree is at the end, rt_malloc looks nowhere. *)
Lemma malloc_at_end k h bs size :
  callable hs k -> heap_ok h bs -> lfree h = heap_end h -> 0 < size < 2 ^ 32 ->
  rt_malloc hs size (mkMst k h) = Ok (Returned 0) (mkMst k h).
Proof.
  intros Hc Hok El Hs. destruct (wp_run _ _ _ (rt_malloc_wp hs k h bs size Hc Hok Hs)) as (o & s' & E & r & h' & bs' & -> & -> & HA). rewrite E.
  destruct (_ <? _); [by destruct HA as (-> & -> & ->)|]. destruct HA as (lo & hi & -> & El' & Hf). destruct Hok as [W _].
  pose proof (hw_size _ _ W) as Hsz. pose proof (hw_heap_end _ _ W) as He. pose proof (seg_len _ _ _ _ _ (hw_seg _ _ W)) as Hl.
  assert (12 <= request size) by (unfold request; lia). apply Forall_app in Hl as [_ Hl].
  rewrite first_fit_late in Hf by (done || lia). by destruct Hf as (-> & -> & ->).
Qed.

(** Rt_realloc that shrinks a block in place does not tell rt_malloc about
    the memory it gives back.  In a heap with no free block, the rest of the block
    lies below lfree, where rt_malloc does not look: every request fails, though
    the heap is well formed and has a free block. *)
Theorem rt_realloc_hides_memory k h pre b post size :
  let m := RT_ALIGN size RT_ALIGN_SIZE in
  callable hs k -> heap_ok h (pre ++ b :: post) -> Forall (fun c => b_used c = true) (pre ++ b :: post) -> 0 < size -> m + 36 < b_len b ->
  exists h', rt_realloc hs (heap_ptr h + (total pre + 12)) size (mkMst k h) = Ok (Returned (heap_ptr h + (total pre + 12))) (mkMst k h') /\
    heap_ok h' (pre ++ Blk true (m + 12) :: Blk false (b_len b - m - 12) :: post) /\
    forall n, 0 < n < 2 ^ 32 -> rt_malloc hs n (mkMst k h') = Ok (Returned 0) (mkMst k h').
Proof.
  intros m Hc Hok Hu Hs Hm. pose proof (align_bounds size) as [Hb Hb4]. fold m in Hb, Hb4.
  destruct (wf_at h pre b post (proj1 Hok)) as (_ & _ & B1 & B2 & Et & _). destruct (hw_ptr _ _ (proj1 Hok)) as (Hp0 & _ & Hp).
  pose proof (hw_size _ _ (proj1 Hok)) as Hsz. rewrite Et in *.
  assert (lfree h = heap_end h) as Elf.
  { destruct (hw_lfree _ _ (proj1 Hok)) as [Hin|]; [|done]. apply free_starts_split in Hin as (lo & c & hi & E & Hc' & _).
    rewrite E, Forall_app, Forall_cons in Hu. destruct Hu as (_ & ? & _). congruence. }
  pose proof (proj1 (Forall_app _ _ _) Hu) as [Hup [Hub Huq]%Forall_cons].
  enough (wp (rt_realloc hs (heap_ptr h + (total pre + 12)) size) (mkMst k h) (fun o s' => exists h', o = Returned (heap_ptr h + (total pre + 12)) /\
    s' = mkMst k h' /\ heap_ok h' (pre ++ Blk true (m + 12) :: Blk false (b_len b - m - 12) :: post) /\ lfree h' = heap_end h')) as Hwp.
  { destruct (wp_run _ _ _ Hwp) as (? & ? & E & h' & -> & -> & Hok' & El'). exists h'. split; [done|]. split; [done|].
    intros n Hn. by apply (malloc_at_end k h' _ n Hc Hok'). }
  unfold rt_realloc. kstep. apply (not_in_interrupt hs); [done|]. fold m. rewrite (Z.mod_small m) by lia. kstep. kstep. cbn [m_h].
  rewrite (proj2 (Z.ltb_ge _ _)), (proj2 (Z.eqb_neq m _)), (proj2 (Z.eqb_neq (heap_ptr h + _) _)) by lia.
  apply with_heap_wp; [apply Hc|]. apply (rt_realloc_locked_at hs (held hs k) h pre b post m); [done|lia|].
  rewrite (proj2 (Z.eqb_neq _ _)), (proj2 (Z.ltb_lt _ _)) by lia. kstep. apply wp_in_h. eapply wp_mono; [apply shrink_block_wp; [done|done|lia|done|lia]|].
  intros [] h' (Hok' & (_ & Ee & _) & [_ Gl] & _). kstep. eapply wp_in_k; [by apply release_held, Hc|]. kstep. exists h'. split; [done|]. split; [done|].
  split; [|by rewrite Gl, Ee]. rewrite merge_snoc in Hok'. cbn [b_used] in Hok'. rewrite <- app_assoc in Hok'.
  destruct post as [|c post]; cbn [merge_next] in Hok'; [exact Hok'|]. apply Forall_cons in Huq as [Hq _]. rewrite Hq in Hok'. exact Hok'.
Qed.

(** A request for a free block at the very end that fits exactly fails, when the
    other blocks are in use. *)
Theorem rt_malloc_tail_block k h pre size :
  callable hs k -> heap_ok h (pre ++ [Blk false (request size + 12)]) -> Forall (fun c => b_used c = true) pre -> 0 < size < 2 ^ 32 ->
  rt_malloc hs size (mkMst k h) = Ok (Returned 0) (mkMst k h).
Proof.
  intros Hc Hok Hu Hs. destruct (wp_run _ _ _ (rt_malloc_wp hs k h _ size Hc Hok Hs)) as (o & s' & E & r & h' & bs' & -> & -> & HA). rewrite E.
  destruct (_ <? _); [by destruct HA as (-> & -> & ->)|]. destruct HA as (lo & hi & Ebs & _ & Hf). destruct (first_fit _ _ _ _) as [p|] eqn:Ef; [|by destruct Hf as (-> & -> & ->)].
  exfalso. destruct (first_fit_Some _ _ _ _ _ Ef) as (p1 & b & p2 & -> & -> & Hb & _ & Hlt). rewrite app_assoc in Ebs.
  pose proof (hw_size _ _ (proj1 Hok)) as Hsz. rewrite total_app in Hsz. cbn [total foldr b_len] in Hsz.
  destruct p2 as [|c p2 _] using rev_ind.
  - apply app_inj_tail in Ebs as [-> <-]. rewrite total_app in *. lia.
  - rewrite (app_comm_cons p2 [c] b), app_assoc in Ebs. apply app_inj_tail in Ebs as [-> _]. rewrite !Forall_app, Forall_cons in Hu.
    destruct Hu as (_ & ? & _). congruence.
Qed.

(** A size within three bytes of 2^32 wraps around to 0 when it is aligned: the
    call returns a block of 12 bytes. *)
Theorem rt_malloc_wraps k h bs size :
  callable hs k -> heap_ok h bs -> 2 ^ 32 - 4 < size < 2 ^ 32 ->
  exists r h' bs', rt_malloc hs size (mkMst k h) = Ok (Returned r) (mkMst k h') /\ allocated h bs 12 r h' bs'.
Proof.
  intros Hc Hok Hs. destruct (wp_run _ _ _ (rt_malloc_wp hs k h bs size Hc Hok ltac:(lia))) as (o & s' & E & r & h' & bs' & -> & -> & HA).
  assert (u32 (RT_ALIGN size RT_ALIGN_SIZE) = 0) as E0.
  { rewrite align_four. assert (size + 3 - (size + 3) `mod` 4 = 2 ^ 32) as -> by (Z.div_mod_to_equations; lia). done. }
  exists r, h', bs'. split; [done|]. pose proof (hw_min _ _ (proj1 Hok)). rewrite (proj2 (Z.ltb_ge _ _)) in HA by lia.
  unfold request in HA. by rewrite E0 in HA.
Qed.
End heap.

(** ** A heap to start from

    116 bytes of blocks from address 100 in the kernel [sample], with semaphore 4
    as the heap semaphore: blocks of 20 and 32 bytes are in use, 28 bytes are
    free. *)

Definition hdr_bytes (x : heap_mem) : list Z := le_bytes 2 (hm_magic x) ++ le_bytes 2 (hm_used x) ++ le_bytes 4 (hm_next x) ++ le_bytes 4 (hm_prev x).
(** The bytes of a list of blocks, the data 0. *)
Fixpoint image (pv p : Z) (bs : list blk) : list Z :=
  match bs with
  | [] => hdr_bytes (Hm HEAP_MAGIC 1 p p)
  | b :: bs => hdr_bytes (blk_hdr b p pv) ++ replicate (Z.to_nat (b_len b - 12)) 0 ++ image p (p + b_len b) bs
  end.
Definition heap_image (hp lf : Z) (bs : list blk) : heap :=
  mkHeap (write_bytes hp (image 0 0 bs) ∅) hp (hp + total bs) (hp + lf) (total bs - 12) (used_total bs) (total bs).

Lemma hdr_image hp l1 x l2 a :
  0 <= hm_magic x < 2 ^ 16 -> 0 <= hm_used x < 2 ^ 16 -> 0 <= hm_next x < 2 ^ 32 -> 0 <= hm_prev x < 2 ^ 32 ->
  a = hp + Z.of_nat (length l1) -> hdr (write_bytes hp (l1 ++ hdr_bytes x ++ l2) ∅) a = Some x.
Proof.
  intros H1 H2 H3 H4 ->. set (m := write_bytes hp (l1 ++ hdr_bytes x ++ l2) ∅).
  assert (read_bytes m hp (length (l1 ++ hdr_bytes x ++ l2)) = Some (l1 ++ hdr_bytes x ++ l2)) as E by (by apply read_write_same).
  assert (forall k n, (k + n <= 12)%nat -> read_bytes m (hp + Z.of_nat (length l1) + Z.of_nat k) n = Some (take n (drop k (hdr_bytes x)))) as G.
  { intros k n Hk. pose proof (read_bytes_sub _ _ _ _ (length l1 + k) n E) as E2. rewrite !length_app in E2. specialize (E2 ltac:(cbn; lia)).
    rewrite drop_app_add, drop_app_le, take_app_le in E2 by (rewrite ?length_drop; cbn; lia).
    replace (hp + Z.of_nat (length l1) + Z.of_nat k) with (hp + Z.of_nat (length l1 + k)) by lia. exact E2. }
  pose proof (G 0%nat 2%nat ltac:(lia)) as G0. pose proof (G 2%nat 2%nat ltac:(lia)) as G2. pose proof (G 4%nat 4%nat ltac:(lia)) as G4.
  pose proof (G 8%nat 4%nat ltac:(lia)) as G8. clear G. change (Z.of_nat 0) with 0 in G0. change (Z.of_nat 2) with 2 in G2. change (Z.of_nat 4) with 4 in G4.
  change (Z.of_nat 8) with 8 in G8. rewrite Z.add_0_r in G0. unfold hdr. rewrite G0, G2, G4, G8. destruct x as [mg us nx pv]. cbn [hm_magic hm_used hm_next hm_prev] in *. do 2 f_equal.
  - transitivity (mg `mod` 256 ^ Z.of_nat 2); [|by apply Z.mod_small]. by rewrite <- le_value_bytes.
  - transitivity (us `mod` 256 ^ Z.of_nat 2); [|by apply Z.mod_small]. by rewrite <- le_value_bytes.
  - transitivity (nx `mod` 256 ^ Z.of_nat 4); [|by apply Z.mod_small]. by rewrite <- le_value_bytes.
  - transitivity (pv `mod` 256 ^ Z.of_nat 4); [|by apply Z.mod_small]. by rewrite <- le_value_bytes.
Qed.
Lemma length_image pv p bs : Forall len_ok bs -> Z.of_nat (length (image pv p bs)) = total bs + 12.
Proof.
  intros Hl. revert pv p. induction Hl as [|b bs [Hb _] Hl IH]; intros pv p; [done|]. cbn [image]. rewrite !length_app, length_replicate, total_cons.
  change (length (hdr_bytes (blk_hdr b p pv))) with 12%nat. specialize (IH p (p + b_len b)). lia.
Qed.
Lemma byte_range_image pv p bs : byte_range (image pv p bs).
Proof.
  assert (forall x, byte_range (hdr_bytes x)) as Hx by (intros x; unfold hdr_bytes, byte_range; rewrite !Forall_app; split_and!; apply le_bytes_range).
  revert pv p. induction bs as [|b bs IH]; intros pv p; cbn [image]; [apply Hx|]. apply Forall_app; split; [apply Hx|].
  apply Forall_app; split; [by apply Forall_replicate|apply IH].
Qed.

Lemma seg_image hp bs : forall l1 pv p, Forall len_ok bs -> Z.of_nat (length l1) = p -> 0 <= pv <= p -> p + total bs < 2 ^ 32 ->
  let m := write_bytes hp (l1 ++ image pv p bs) ∅ in
  seg m hp pv p bs /\ hdr m (hp + (p + total bs)) = Some (Hm HEAP_MAGIC 1 (p + total bs) (p + total bs)).
Proof.
  induction bs as [|b bs IH]; intros l1 pv p Hl El Hpv Ht m.
  - cbn [total foldr seg] in *. rewrite Z.add_0_r in *. split; [done|]. unfold m. cbn [image]. rewrite <- (app_nil_r (hdr_bytes _)).
    apply hdr_image; cbn [hm_magic hm_used hm_next hm_prev]; unfold HEAP_MAGIC; lia.
  - apply Forall_cons in Hl as [[Hb Hb4] Hl]. rewrite total_cons in *. pose proof (total_bound bs Hl).
    destruct (IH (l1 ++ hdr_bytes (blk_hdr b p pv) ++ replicate (Z.to_nat (b_len b - 12)) 0) p (p + b_len b) Hl) as [S E].
    + rewrite !length_app, length_replicate. change (length (hdr_bytes (blk_hdr b p pv))) with 12%nat. lia.
    + lia.
    + lia.
    + rewrite <- !app_assoc in S, E. fold (image pv p (b :: bs)) in *. change (write_bytes hp _ ∅) with m in S, E.
      replace (p + b_len b + total bs) with (p + (b_len b + total bs)) in E by lia. split; [|exact E]. cbn [seg]. split; [|split; [by split|exact S]].
      unfold m. cbn [image]. apply hdr_image; cbn [blk_hdr hm_magic hm_used hm_next hm_prev]; unfold HEAP_MAGIC; try destruct (b_used b); lia.
Qed.

Lemma heap_image_ok hp lf bs :
  Forall len_ok bs -> coalesced bs -> 0 < hp -> hp `mod` 4 = 0 -> hp + total bs + 12 <= 2 ^ 32 -> 24 <= total bs ->
  lf ∈ free_starts 0 bs \/ lf = total bs -> heap_ok (heap_image hp lf bs) bs.
Proof.
  intros Hl C Hp Hp4 He Ht Hlf. split; [|done]. pose proof (seg_image hp bs [] 0 0 Hl eq_refl ltac:(lia) ltac:(lia)) as [S E]. cbn [app] in S, E. rewrite Z.add_0_l in E.
  pose proof (used_total_bound _ Hl). split; cbn [heap_image h_mem heap_ptr heap_end lfree mem_size_aligned used_mem max_mem]; try done; try lia.
  - by eexists.
  - intros a Ha. rewrite lookup_write_in by (rewrite length_image by done; lia). apply lookup_lt_is_Some_2.
    pose proof (length_image 0 0 bs Hl). lia.
  - apply bytes_ok_write; [apply map_Forall_empty|apply byte_range_image].
  - replace (hp + lf - hp) with lf by lia. destruct Hlf; [by left|right; lia].
Qed.

Definition sample_blocks : list blk := [Blk true 32; Blk true 44; Blk false 40].
Definition sample_k : kst :=
  set_k_sems (<[4%nat := 1]> (k_sems sample)) (set_k_objects (<[OSem 4 := sample_header RT_Object_Class_Semaphore RT_IPC_FLAG_FIFO]> (k_objects sample)) sample).
Definition sample_h : heap := heap_image 100 76 sample_blocks.

Lemma sample_callable : callable 4 sample_k.
Proof. split; [|done]. split_and!; [done| |cbn; lia..|done]. eexists. split; [reflexivity|]. split_and!; [done|done|by left]. Qed.
Lemma sample_heap_ok : heap_ok sample_h sample_blocks.
Proof. apply heap_image_ok; try done; [by repeat constructor|cbn; auto|left; cbn; set_solver]. Qed.

(** What the client keeps in the two blocks. *)
Definition sample_store : gmap Z (list Z) := {[ 112 := replicate 20 0; 144 := replicate 30 0 ]}.
Lemma sample_hsim : hsim 4 (mkMst sample_k sample_h) sample_store.
Proof.
  split; [exact sample_callable|]. exists sample_blocks. cbn [m_h]. split; [exact sample_heap_ok|]. unfold holds. change (heap_ptr sample_h) with 100. split.
  - apply (map_Forall_lookup (fun p l => exists n, (p - 100, n) ∈ live 0 sample_blocks /\ Z.of_nat (length l) <= n /\
      read_bytes (h_mem sample_h) p (length l) = Some l)).
    apply map_Forall_insert_2; [exists 20|apply map_Forall_singleton; exists 32]; (split_and!; [cbn; set_solver|done|vm_compute; reflexivity]).
  - intros o n. cbn. rewrite !elem_of_cons, elem_of_nil. intros [[= -> ->]|[[= -> ->]|[]]]; by eexists.
Qed.

Lemma heap_refines_store_witness :
  exists r s' L', run 4 (Realloc 112 40) (mkMst sample_k sample_h) = Ok (Returned r) s' /\ m_k s' = sample_k /\ hsim 4 s' L' /\
    promise sample_store (Realloc 112 40) r L'.
Proof. exact (heap_refines_store 4 (mkMst sample_k sample_h) sample_store (Realloc 112 40) sample_hsim ltac:(split; [by eexists|lia])). Defined.

Lemma heap_exclusion_witness :
  exists k', run 0 (Malloc 10) (mkMst sample sample_h) = Ok (Waiting 1) (mkMst k' sample_h) /\ kinv k' /\
    sem_ok k' 0 (ASem 0 [3%nat; 1%nat]) RT_IPC_FLAG_FIFO.
Proof.
  refine (heap_exclusion 0 sample sample_h [3%nat] RT_IPC_FLAG_FIFO 1 _ (Malloc 10) sample_kinv sample_sem sample_caller _).
  split; [lia|]. done.
Defined.

Definition sample_area : heap := mkHeap (write_bytes 100 (replicate 128 0) ∅) 0 0 0 0 0 0.
Lemma rt_system_heap_init_correct_witness :
  exists k' h', rt_system_heap_init 4 100 228 (mkMst sample sample_area) = Ok tt (mkMst k' h') /\ kinv k' /\ callable 4 k' /\ heap_ok h' [Blk false 116] /\
    lowest h' [Blk false 116] /\ heap_ptr h' = 100 /\ lfree h' = 100 /\ rt_memory_info h' = (104, 0, max_mem h').
Proof.
  refine (rt_system_heap_init_correct 4 sample sample_area 100 228 sample_new_sem eq_refl _ _ _ _ _ eq_refl _); [done|done|done| | |done].
  - intros a Ha. change (100 <= a < 228) in Ha. unfold sample_area. cbn [h_mem]. rewrite lookup_write_in by (rewrite length_replicate; lia).
    apply lookup_lt_is_Some_2. rewrite length_replicate. lia.
  - apply bytes_ok_write; [apply map_Forall_empty|by apply Forall_replicate].
Defined.

Lemma rt_malloc_correct_witness :
  exists r h' bs', rt_malloc 4 10 (mkMst sample_k sample_h) = Ok (Returned r) (mkMst sample_k h') /\ heap_ok h' bs' /\
    (r <> 0 -> exists n, 10 <= n /\ live 0 bs' ≡ₚ (r - heap_ptr sample_h, n) :: [(12, 20); (44, 32)]).
Proof.
  destruct (rt_malloc_correct 4 sample_k sample_h sample_blocks 10 sample_callable sample_heap_ok ltac:(lia))
    as (r & h' & bs' & E & Hok & _ & _ & _ & HR).
  exists r, h', bs'. split; [exact E|]. split; [exact Hok|]. intros Hr%Z.eqb_neq. rewrite Hr in HR. destruct HR as (n & Hn & Hl & _). exists n. split; [exact Hn|exact Hl].
Defined.

Lemma rt_free_correct_witness :
  rt_free 4 0 (mkMst sample_k sample_h) = Ok (Returned tt) (mkMst sample_k sample_h) /\
  exists h' bs', rt_free 4 (heap_ptr sample_h + 12) (mkMst sample_k sample_h) = Ok (Returned tt) (mkMst sample_k h') /\
    freed sample_h sample_blocks 12 20 h' bs' /\
    rt_free 4 (heap_ptr sample_h + 12) (mkMst sample_k h') = Halt.
Proof.
  exact (rt_free_correct 4 sample_k sample_h sample_blocks 12 20 sample_callable sample_heap_ok ltac:(cbn; set_solver)).
Defined.

Lemma rt_realloc_correct_witness :
  exists r h' bs', rt_realloc 4 (heap_ptr sample_h + 12) 40 (mkMst sample_k sample_h) =
      Ok (Returned r) (mkMst sample_k h') /\
    if mem_size_aligned sample_h <? 40 then r = 0 /\ h' = sample_h
    else 40 <= 40 /\ reallocated sample_h sample_blocks 12 20 40 [(44, 32)] r h' bs'.
Proof.
  exact (rt_realloc_correct 4 sample_k sample_h sample_blocks 12 20 [(44, 32)] 40 sample_callable sample_heap_ok
    (Permutation_refl _) ltac:(lia)).
Defined.

Lemma malloc_free_roundtrip_witness :
  exists r h1 h2, rt_malloc 4 10 (mkMst sample_k sample_h) = Ok (Returned r) (mkMst sample_k h1) /\
    rt_free 4 r (mkMst sample_k h1) = Ok (Returned tt) (mkMst sample_k h2) /\ heap_ok h2 sample_blocks.
Proof.
  destruct (wp_run _ _ _ (rt_malloc_wp 4 sample_k sample_h sample_blocks 10 sample_callable sample_heap_ok ltac:(lia)))
    as (o & s' & E & r & h1 & bs1 & -> & -> & HA). change (allocated sample_h sample_blocks 12 r h1 bs1) in HA.
  assert (r <> 0) as Hr.
  { intros ->. destruct (allocated_none sample_h sample_blocks 12 0 h1 bs1 sample_heap_ok HA eq_refl) with (pre := [Blk true 32; Blk true 44]) (b := Blk false 40) (post := @nil blk)
      as [_ E2]; done. }
  destruct (malloc_free_roundtrip 4 sample_k sample_h sample_blocks 10 r h1 sample_callable sample_heap_ok ltac:(lia) E Hr) as (h2 & E2 & Hok & _).
  exists r, h1, h2. split; [exact E|]. split; [exact E2|exact Hok].
Defined.

(** A full heap: the first block shrinks from 56 to 12 bytes. *)
Lemma rt_realloc_hides_memory_witness :
  exists h', rt_realloc 4 112 12 (mkMst sample_k (heap_image 100 116 [Blk true 68; Blk true 48])) = Ok (Returned 112) (mkMst sample_k h') /\
    heap_ok h' [Blk true 24; Blk false 44; Blk true 48] /\
    forall n, 0 < n < 2 ^ 32 -> rt_malloc 4 n (mkMst sample_k h') = Ok (Returned 0) (mkMst sample_k h').
Proof.
  refine (rt_realloc_hides_memory 4 sample_k (heap_image 100 116 [Blk true 68; Blk true 48]) [] (Blk true 68) [Blk true 48] 12 sample_callable _ _ _ _);
    [|by repeat constructor|done|done].
  apply heap_image_ok; try done; [by repeat constructor|cbn; auto|by right].
Defined.

(** An area of 28 bytes makes a heap of 4 bytes, in which the search for 12 bytes
    never ends: [mem_size_aligned - size] wraps around, and the block behind the
    last one is its own successor. *)
Theorem rt_malloc_tiny_heap fuel : malloc_search fuel 12 0 (heap_image 100 0 [Blk false 16]) = NoFuel.
Proof.
  set (h := heap_image 100 0 [Blk false 16]).
  destruct (seg_image 100 [Blk false 16] [] 0 0 ltac:(by repeat constructor) eq_refl ltac:(lia) ltac:(done)) as [[S _] E].
  change (hdr (h_mem h) 116 = Some (Hm HEAP_MAGIC 1 16 16)) in E. change (hdr (h_mem h) 100 = Some (Hm HEAP_MAGIC 0 16 0)) in S.
  destruct (read_hdr h _ _ E) as [Eu En]. destruct (read_hdr h _ _ S) as [Su Sn].
  assert (forall n, malloc_search n 12 16 h = NoFuel) as Hend.
  { intros n. induction n as [|n IH]; [done|]. cbn [malloc_search]. unfold bind at 1, get at 1. change (heap_ptr h + 16) with 116.
    change (16 <? u32 (mem_size_aligned h - 12)) with true. cbn iota. by rewrite (bind_ok _ _ _ _ _ Eu), (bind_ok _ _ _ _ _ En). }
  destruct fuel as [|n]; [done|]. cbn [malloc_search]. unfold bind at 1, get at 1. change (heap_ptr h + 0) with 100.
  change (0 <? u32 (mem_size_aligned h - 12)) with true. cbn iota. rewrite (bind_ok _ _ _ _ _ Su), (bind_ok _ _ _ _ _ Sn). apply Hend.
Qed.
