(* ===== verification/HeapUse.v ===== *)
(** * Clients of the heap (src/kservice.c): rt_strdup, rt_malloc_align, rt_free_align

    Routines that call the heap and keep data in its blocks.  Their theorems are
    proved against the abstract store of Heap.v, not against the heap. *)

From S2P Require Import Prelude Ffs KState Kservice Str Wf Inv Sched Object Timer Thread TimerRun Sleep Ipc Sem IpcObjects Mem MemBlocks MemOps Memory Heap.

Section routines.
Context (heap_sem : nat).

Definition rt_strdup (s : Z) : M mst (outcome Z) :=
  n <- in_h (at_mem (rt_strlen s)) ;;
  let len := u32 (n + 1) in
  o <- rt_malloc heap_sem len ;;
  match o with
  | Waiting t => ret (Waiting t)
  | Returned tmp =>
      if tmp =? 0 then ret (Returned 0)
      else in_h (at_mem (rt_memcpy tmp s len)) ;; ret (Returned tmp)
  end.

Definition rt_malloc_align (size align : Z) : M mst (outcome Z) :=
  let align := Z.land (u32 (align + 3)) (Z.lnot 3) in
  let align_size := u32 (Z.land (u32 (size + 3)) (Z.lnot 3) + align) in
  o <- rt_malloc heap_sem align_size ;;
  match o with
  | Waiting t => ret (Waiting t)
  | Returned ptr =>
      if ptr =? 0 then ret (Returned 0)
      else
        let align_ptr := if Z.land ptr (u32 (align - 1)) =? 0 then u32 (ptr + align)
                         else Z.land (u32 (ptr + u32 (align - 1))) (Z.lnot (u32 (align - 1))) in
        in_h (at_mem (store 4 (u32 (align_ptr - 4)) ptr)) ;;
        ret (Returned align_ptr)
  end.

Definition rt_free_align (ptr : Z) : M mst (outcome unit) :=
  real_ptr <- in_h (at_mem (load 4 (u32 (ptr - 4)))) ;;
  rt_free heap_sem real_ptr.
End routines.

Section clients.
Context (hs : nat).
Notation store_of := (gmap Z (list Z)).

(** ** What a client knows of the blocks it holds *)

Lemma held_block s (L : store_of) p l : hsim hs s L -> L !! p = Some l ->
  0 < p /\ p `mod` 4 = 0 /\ p + Z.of_nat (length l) < 2 ^ 32 /\ read_bytes (h_mem (m_h s)) p (length l) = Some l /\ byte_range l.
Proof.
  intros [_ (bs & Hok & Hh)] E. destruct (proj1 Hh p l E) as (n & He & Hn & Hl). destruct (live_address _ _ _ _ Hok He) as (A1 & A2 & A3 & A4 & A5 & _). destruct (hw_ptr _ _ (proj1 Hok)) as (P1 & P2 & P3).
  pose proof (seg_len _ _ _ _ _ (hw_seg _ _ (proj1 Hok))) as Hlen. pose proof (live_bounds _ _ _ Hlen He) as (B1 & B2 & _). cbn [fst snd] in *.
  split_and!; [lia|Z.div_mod_to_equations; lia|lia|done|]. by apply (bytes_ok_read _ _ _ _ (hw_bytes _ _ (proj1 Hok)) Hl).
Qed.
Lemma held_apart s (L : store_of) p q l1 l2 : hsim hs s L -> L !! p = Some l1 -> L !! q = Some l2 -> p <> q -> p + Z.of_nat (length l1) <= q \/ q + Z.of_nat (length l2) <= p.
Proof.
  intros [_ (bs & Hok & Hh)] E1 E2 Hne. destruct (proj1 Hh p l1 E1) as (n1 & H1 & Hn1 & _), (proj1 Hh q l2 E2) as (n2 & H2 & Hn2 & _). pose proof (seg_len _ _ _ _ _ (hw_seg _ _ (proj1 Hok))) as Hlen.
  destruct (proj1 (elem_of_Permutation _ _) H1) as [rest Hl]. pose proof (live_apart _ _ _ Hlen Hl) as Hap. inversion Hap as [|? ? Hap1 _]; subst. rewrite Hl in H2. apply elem_of_cons in H2 as [[= ? ?]|H2]; [lia|].
  rewrite Forall_forall in Hap1. specialize (Hap1 _ H2). unfold apart in Hap1. cbn [fst snd] in Hap1. lia.
Qed.

(** Writing into a block. *)
Lemma hsim_write k h (L : store_of) p i l old : hsim hs (mkMst k h) L -> L !! p = Some old -> 0 <= i -> i + Z.of_nat (length l) <= Z.of_nat (length old) -> byte_range l ->
  hsim hs (mkMst k (set_h_mem (write_bytes (p + i) l (h_mem h)) h)) (alter (fun old => splice old (Z.to_nat i) l) p L).
Proof.
  intros Hs E Hi Hl Hr. pose proof (sim_write hs k h L p i l Hs ltac:(split; [done|by exists old])) as Hw. unfold simulated in Hw. cbn [run] in Hw. apply wp_unbind in Hw. destruct (wp_run _ _ _ Hw) as ([] & s1 & E1 & Hw1).
  unfold in_h, zoom, modify in E1. cbn in E1. injection E1 as <-. destruct (wp_run _ _ _ Hw1) as (o & s2 & E2 & r & L' & -> & _ & Hs2 & _ & ->). injection E2 as _ <-. unfold write_heap in Hs2. by replace (heap_ptr h + (p + i - heap_ptr h)) with (p + i) in Hs2 by lia.
Qed.
Lemma write_block_wp {A} (b : B A) s (L : store_of) p i l old (Q : A -> mst -> Prop) :
  hsim hs s L -> L !! p = Some old -> 0 <= i -> i + Z.of_nat (length l) <= Z.of_nat (length old) -> byte_range l ->
  wp b (h_mem (m_h s)) (fun a m' => m' = write_bytes (p + i) l (h_mem (m_h s)) /\ forall s', m_k s' = m_k s -> hsim hs s' (alter (fun old => splice old (Z.to_nat i) l) p L) -> Q a s') ->
  wp (in_h (at_mem b)) s Q.
Proof.
  intros Hs E Hi Hl Hr Hb. destruct s as [k h]. cbn [m_h m_k] in *. apply wp_in_h. unfold at_mem. apply wp_zoom. eapply wp_mono; [exact Hb|]. intros a m' [-> HQ]. apply HQ; [done|]. by apply (hsim_write k h L p i l old).
Qed.
Lemma block_mapped s (L : store_of) p l i n : hsim hs s L -> L !! p = Some l -> 0 <= i -> i + Z.of_nat n <= Z.of_nat (length l) -> mapped (h_mem (m_h s)) (p + i) n = true.
Proof.
  intros Hs E Hi Hn. destruct (held_block s L p l Hs E) as (_ & _ & _ & Hr & _). replace i with (Z.of_nat (Z.to_nat i)) by lia. apply (mapped_sub _ _ (length l)); [apply mapped_true; by eexists|lia].
Qed.

Lemma malloc_step s (L : store_of) n (f : outcome Z -> M mst (outcome Z)) Q :
  hsim hs s L -> 0 <= n <= 2 ^ 32 - 4 -> (forall r s' L', m_k s' = m_k s -> hsim hs s' L' -> promise L (Malloc n) r L' -> wp (f (Returned r)) s' Q) -> wp (bind (rt_malloc hs n) f) s Q.
Proof.
  intros Hs Hn H. destruct s as [k h]. apply wp_bind. eapply wp_mono; [exact (sim_malloc hs k h L n Hs Hn)|]. intros o s' (r & L' & -> & Ek & Hs' & Hp). by apply (H r s' L').
Qed.

(** Rt_strdup.  The copy of a string that lies in a block a client holds is
    RT_NULL, with nothing changed, or a new block that holds the characters and
    the NUL; every other block keeps its bytes. *)
Theorem rt_strdup_correct s (L : store_of) p i l old :
  hsim hs s L -> L !! p = Some old -> 0 <= i -> take (S (length l)) (drop (Z.to_nat i) old) = cstring l -> chars_ok l ->
  wp (rt_strdup hs (p + i)) s (fun o s' => exists r L', o = Returned r /\ m_k s' = m_k s /\ hsim hs s' L' /\ ((r = 0 /\ L' = L) \/ (r <> 0 /\ L !! r = None /\ L' = <[r := cstring l]> L))).
Proof.
  intros Hs E Hi Hstr Hch. destruct (held_block s L p old Hs E) as (B1 & B2 & B3 & B4 & B5). assert (4 <= p) as B6 by (Z.div_mod_to_equations; lia).
  assert (length (cstring l) = S (length l)) as Hlen by (unfold cstring; rewrite length_app; cbn; lia). pose proof (f_equal length Hstr) as Hle. rewrite length_take, length_drop, Hlen in Hle.
  assert (forall s' L', hsim hs s' L' -> L' !! p = Some old -> read_bytes (h_mem (m_h s')) (p + i) (S (length l)) = Some (cstring l)) as Hread.
  { intros s' L' Hs' E'. destruct (held_block s' L' p old Hs' E') as (_ & _ & _ & Hr & _). pose proof (read_bytes_sub _ _ _ _ (Z.to_nat i) (S (length l)) Hr ltac:(lia)) as Hx. rewrite Hstr in Hx. replace (Z.of_nat (Z.to_nat i)) with i in Hx by lia. done. }
  unfold rt_strdup. kstep. destruct s as [k h]. apply wp_in_h. unfold at_mem. apply wp_zoom. eapply wp_mono; [apply (rt_strlen_wp _ _ l); split; [done|by apply (Hread (mkMst k h) L)]|]. intros r m' [-> ->].
  replace (set_h_mem (h_mem h) h) with h by by destruct h. cbv zeta. rewrite u32_small by lia. apply (malloc_step (mkMst k h) L); [done|lia|]. intros r s1 L1 Ek Hs1 [[-> ->]|(Hr & Hn & l' & Hl' & ->)].
  { cbn [Z.eqb]. kstep. exists 0, L. split_and!; [done|done|done|by left]. }
  rewrite (proj2 (Z.eqb_neq r 0)) by done. assert (r <> p) as Hrp by congruence. assert (<[r := l']> L !! p = Some old) as Ep by by rewrite lookup_insert_ne. assert (<[r := l']> L !! r = Some l') as Er by apply lookup_insert_eq.
  assert (byte_range (cstring l)) as Hbr.
  { unfold cstring. apply Forall_app. split; [eapply Forall_impl; [exact Hch|]; cbn; lia|by repeat constructor]. }
  kstep. apply (write_block_wp _ s1 (<[r := l']> L) r 0 (cstring l) l'); [done|done|done|lia|done|].
  assert (r <= p + i \/ p + i + (Z.of_nat (length l) + 1) <= r) as Hd by (destruct (held_apart s1 (<[r := l']> L) r p l' old Hs1 Er Ep Hrp); lia).
  assert (Z.to_nat (Z.of_nat (length l) + 1) = S (length l)) as En by lia. eapply wp_mono; [apply (rt_memcpy_wp _ r (p + i) _ (cstring l)); rewrite ?En; [by apply (Hread s1 (<[r := l']> L))|done| |lia|done]|].
  { rewrite <- (Z.add_0_r r). apply (block_mapped s1 (<[r := l']> L) r l'); [done|done|lia|lia]. }
  intros x m' [_ ->]. rewrite Z.add_0_r. split; [done|]. intros s2 Ek2 Hs2. kstep. exists r, (<[r := cstring l]> L). split_and!; [done|congruence| |by right].
  rewrite alter_insert_eq in Hs2. replace (splice l' (Z.to_nat 0) (cstring l)) with (cstring l) in Hs2; [done|]. unfold splice. cbn [Z.to_nat take app Nat.add]. rewrite drop_ge by lia. by rewrite app_nil_r.
Qed.

(** ** Aligned blocks *)

(** [r] is an aligned pointer for [size] bytes inside the block [base]; the word
    in front of it is the address of the block. *)
Record aligned_in (L : store_of) (r size align base : Z) : Prop := {
  al_mod : r `mod` align = 0;
  al_low : base + 4 <= r;
  al_block : exists l, L !! base = Some l /\ r + size <= base + Z.of_nat (length l) /\ take 4 (drop (Z.to_nat (r - 4 - base)) l) = le_bytes 4 base
}.

Lemma align_up_spec p k : 2 <= k -> 0 < p -> p `mod` 4 = 0 ->
  let a := 2 ^ k in let r := if p `mod` a =? 0 then p + a else p + (a - 1) - (p + (a - 1)) `mod` a in r `mod` a = 0 /\ p + 4 <= r <= p + a.
Proof.
  intros Hk Hp H4 a r. assert (0 < a /\ a = 4 * 2 ^ (k - 2)) as [Ha Ea]. { unfold a. split; [apply Z.pow_pos_nonneg; lia|]. change 4 with (2 ^ 2). rewrite <- Z.pow_add_r by lia. f_equal. lia. }
  assert (a `mod` 4 = 0) as Ha4 by (rewrite Ea, Z.mul_comm; apply Z.mod_mul; lia). assert (4 <= a) by (Z.div_mod_to_equations; lia). unfold r. destruct (Z.eqb_spec (p `mod` a) 0) as [E|E].
  - split; [|lia]. rewrite Z.add_mod, E, Z.mod_same by lia. apply Z.mod_0_l. lia.
  - assert (p `mod` a `mod` 4 = 0) as Hm. { rewrite Ea. rewrite <- Z.mod_mod_divide with (b := a); [|rewrite Ea; apply Z.divide_factor_l]. rewrite <- Ea, Z.mod_mod by lia. rewrite Z.mod_mod_divide; [done|rewrite Ea; apply Z.divide_factor_l]. }
    pose proof (Z.mod_pos_bound p a Ha). assert ((p + (a - 1)) `mod` a = p `mod` a - 1) as ->.
    { symmetry. apply (Z.mod_unique _ _ (p / a + 1)); [lia|]. pose proof (Z.div_mod p a ltac:(lia)). lia. }
    split; [|Z.div_mod_to_equations; lia]. pose proof (Z.div_mod p a ltac:(lia)). replace (p + (a - 1) - (p `mod` a - 1)) with ((p / a + 1) * a) by lia. apply Z.mod_mul. lia.
Qed.

Lemma align_word x : 0 <= x -> x + 3 < 2 ^ 32 -> Z.land (u32 (x + 3)) (Z.lnot 3) = RT_ALIGN x 4.
Proof. intros H0 H1. rewrite u32_small by lia. unfold RT_ALIGN. f_equal. lia. Qed.

(** Rt_malloc_align.  The result is RT_NULL, with nothing changed, or a
    multiple of the alignment inside a new block of the heap, with at least
    [size] bytes behind it that no client held, and the address of the block in
    the word in front of it. *)
Theorem rt_malloc_align_correct s (L : store_of) size align k :
  hsim hs s L -> 0 <= size -> 0 < align -> RT_ALIGN align 4 = 2 ^ k -> 2 <= k -> size + align + 6 <= 2 ^ 32 - 4 ->
  wp (rt_malloc_align hs size align) s (fun o s' => exists r L', o = Returned r /\ m_k s' = m_k s /\ hsim hs s' L' /\
    ((r = 0 /\ L' = L) \/ exists base l, L !! base = None /\ L' = <[base := l]> L /\ aligned_in L' r size (2 ^ k) base)).
Proof.
  intros Hs Hz Ha Ek Hk Hmax. pose proof (align_bounds size) as [Bs _]. pose proof (align_bounds align) as [Ba _]. change RT_ALIGN_SIZE with 4 in *. rewrite Ek in Ba.
  unfold rt_malloc_align. cbv zeta. rewrite !align_word by lia. rewrite Ek. rewrite (u32_small (RT_ALIGN size 4 + 2 ^ k)) by lia. apply (malloc_step s L); [done|lia|]. intros p s1 L1 Ek1 Hs1 [[-> ->]|(Hp & Hn & l & Hl & ->)].
  { cbn [Z.eqb]. kstep. exists 0, L. split_and!; [done|done|done|by left]. }
  rewrite (proj2 (Z.eqb_neq p 0)) by done. assert (<[p := l]> L !! p = Some l) as Ep by apply lookup_insert_eq. destruct (held_block s1 _ p l Hs1 Ep) as (B1 & B2 & B3 & _).
  assert (0 < 2 ^ k) as Hpk by (apply Z.pow_pos_nonneg; lia). rewrite !(u32_small (2 ^ k - 1)), (u32_small (p + 2 ^ k)), (u32_small (p + (2 ^ k - 1))) by lia.
  replace (Z.land p (2 ^ k - 1)) with (p `mod` 2 ^ k) by (rewrite <- Z.land_ones, Z.ones_equiv by lia; f_equal; lia).
  replace (Z.land (p + (2 ^ k - 1)) (Z.lnot (2 ^ k - 1))) with (p + (2 ^ k - 1) - (p + (2 ^ k - 1)) `mod` 2 ^ k) by (rewrite <- align_down_spec by lia; done).
  pose proof (align_up_spec p k Hk B1 B2) as Hr. cbv zeta in Hr. set (r := if p `mod` 2 ^ k =? 0 then _ else _) in *. destruct Hr as [Hr1 Hr2]. rewrite (u32_small (r - 4)) by lia.
  kstep. apply (write_block_wp _ s1 (<[p := l]> L) p (r - 4 - p) (le_bytes 4 p) l); [done|done|lia|rewrite le_bytes_length; lia|apply le_bytes_range|]. replace (p + (r - 4 - p)) with (r - 4) by lia.
  apply wp_store; [replace (r - 4) with (p + (r - 4 - p)) by lia; apply (block_mapped s1 (<[p := l]> L) p l); [done|done|lia|lia]|]. split; [done|]. intros s2 Ek2 Hs2. rewrite alter_insert_eq in Hs2. kstep.
  exists r, (<[p := splice l (Z.to_nat (r - 4 - p)) (le_bytes 4 p)]> L). split_and!; [done|congruence|done|]. right. exists p, (splice l (Z.to_nat (r - 4 - p)) (le_bytes 4 p)). split_and!; [done|done|]. split; [done|lia|].
  eexists. split; [apply lookup_insert_eq|]. assert (Z.to_nat (r - 4 - p) + length (le_bytes 4 p) <= length l)%nat as Hfit by (rewrite le_bytes_length; lia). split; [rewrite length_splice by done; lia|].
  unfold splice. rewrite drop_app_length' by (rewrite length_take; lia). rewrite take_app_length' by (symmetry; apply le_bytes_length). done.
Qed.

(** Rt_free_align gives back the block an aligned pointer lies in: what the
    clients hold is that block less. *)
Theorem rt_free_align_correct s (L : store_of) r size align base :
  hsim hs s L -> aligned_in L r size align base -> 0 <= size ->
  wp (rt_free_align hs r) s (fun o s' => o = Returned tt /\ m_k s' = m_k s /\ hsim hs s' (delete base L)).
Proof.
  intros Hs [_ Hlow (l & E & Hend & Hw)] Hz. destruct (held_block s L base l Hs E) as (B1 & B2 & B3 & B4 & B5). destruct s as [k h]. unfold rt_free_align. kstep. apply wp_in_h. unfold at_mem. apply wp_zoom. rewrite u32_small by lia.
  apply (wp_load _ _ _ (le_bytes 4 base)).
  { pose proof (read_bytes_sub _ _ _ _ (Z.to_nat (r - 4 - base)) 4 B4 ltac:(lia)) as Hx. rewrite Hw in Hx. by replace (base + Z.of_nat (Z.to_nat (r - 4 - base))) with (r - 4) in Hx by lia. }
  rewrite le_value_bytes. change (256 ^ Z.of_nat 4) with (2 ^ 32). rewrite Z.mod_small by lia. replace (set_h_mem (h_mem h) h) with h by by destruct h.
  pose proof (sim_free hs k h L base Hs (or_intror (mk_is_Some _ _ E))) as Hf. unfold simulated in Hf. cbn [run] in Hf. apply wp_unbind in Hf. eapply wp_mono; [exact Hf|]. cbv beta. intros [[]|t] s' (o & s2 & E2 & H2)%wp_run; injection E2 as <- <-; destruct H2 as (r' & L' & [=] & ? & ? & _ & ->).
  split_and!; done.
Qed.

(** Writing into the bytes behind an aligned pointer does not touch the word in
    front of it. *)
Lemma aligned_write (L : store_of) r size align base i l :
  aligned_in L r size align base -> 0 <= i -> i + Z.of_nat (length l) <= size -> aligned_in (alter (fun old => splice old (Z.to_nat (r - base + i)) l) base L) r size align base.
Proof.
  intros [H1 H2 (old & E & H3 & H4)] Hi Hl. split; [done|done|]. eexists. split; [rewrite lookup_alter_eq, E; reflexivity|]. split; [rewrite length_splice by lia; done|].
  rewrite <- H4. unfold splice. rewrite <- (take_drop (Z.to_nat (r - base + i)) old) at 3. rewrite !drop_app_le by (rewrite length_take; lia). rewrite !take_app_le by (rewrite length_drop, length_take; lia). done.
Qed.

(** A size within three bytes of 2^32 wraps around: the call is one for no bytes. *)
Theorem rt_malloc_align_wraps size align : 2 ^ 32 - 3 <= size < 2 ^ 32 -> rt_malloc_align hs size align = rt_malloc_align hs 0 align.
Proof.
  intros Hs. unfold rt_malloc_align. cbv zeta. assert (Z.land (u32 (size + 3)) (Z.lnot 3) = Z.land (u32 (0 + 3)) (Z.lnot 3)) as ->; [|done].
  unfold u32. rewrite <- (Z.mod_unique (size + 3) (2 ^ 32) 1 (size + 3 - 2 ^ 32)) by lia. assert (size + 3 - 2 ^ 32 = 0 \/ size + 3 - 2 ^ 32 = 1 \/ size + 3 - 2 ^ 32 = 2) as [->|[->| ->]] by lia; done.
Qed.
End clients.

(** ** Witnesses *)

Lemma rt_malloc_align_correct_witness :
  wp (rt_malloc_align 4 5 8) (mkMst sample_k sample_h) (fun o s' => exists r L', o = Returned r /\ m_k s' = sample_k /\ hsim 4 s' L' /\
    ((r = 0 /\ L' = sample_store) \/ exists base l, sample_store !! base = None /\ L' = <[base := l]> sample_store /\ aligned_in L' r 5 8 base)).
Proof. apply (rt_malloc_align_correct 4 (mkMst sample_k sample_h) sample_store 5 8 3 sample_hsim); done. Defined.

(** The client writes a string into one block and the address of the other into it. *)
Definition sample_text : gmap Z (list Z) := alter (fun old => splice old 4 [144; 0; 0; 0]) 144 (alter (fun old => splice old 0 [104; 105; 0]) 112 sample_store).
Definition sample_text_h : heap := let h := set_h_mem (write_bytes 112 [104; 105; 0] (h_mem sample_h)) sample_h in set_h_mem (write_bytes 148 [144; 0; 0; 0] (h_mem h)) h.
Lemma sample_text_hsim : hsim 4 (mkMst sample_k sample_text_h) sample_text.
Proof.
  unfold sample_text, sample_text_h. cbv zeta. apply (hsim_write 4 sample_k _ _ 144 4 [144; 0; 0; 0] (replicate 30 0)); [|by vm_compute|lia|cbn; lia|by repeat constructor].
  apply (hsim_write 4 sample_k sample_h sample_store 112 0 [104; 105; 0] (replicate 20 0) sample_hsim); [by vm_compute|lia|cbn; lia|by repeat constructor].
Qed.
Lemma rt_free_align_correct_witness : wp (rt_free_align 4 152) (mkMst sample_k sample_text_h) (fun o s' => o = Returned tt /\ m_k s' = sample_k /\ hsim 4 s' (delete 144 sample_text)).
Proof.
  apply (rt_free_align_correct 4 (mkMst sample_k sample_text_h) sample_text 152 8 8 144 sample_text_hsim); [|done]. split; [done|done|]. eexists. split; [reflexivity|]. by split.
Defined.
Lemma rt_strdup_correct_witness : wp (rt_strdup 4 (112 + 0)) (mkMst sample_k sample_text_h) (fun o s' => exists r L', o = Returned r /\ m_k s' = sample_k /\ hsim 4 s' L' /\
  ((r = 0 /\ L' = sample_text) \/ (r <> 0 /\ sample_text !! r = None /\ L' = <[r := [104; 105; 0]]> sample_text))).
Proof. apply (rt_strdup_correct 4 (mkMst sample_k sample_text_h) sample_text 112 0 [104; 105] ([104; 105; 0] ++ replicate 17 0) sample_text_hsim); try done. by repeat constructor. Defined.
Lemma rt_malloc_align_wraps_witness : rt_malloc_align 4 (2 ^ 32 - 1) 8 = rt_malloc_align 4 0 8.
Proof. apply (rt_malloc_align_wraps 4 (2 ^ 32 - 1) 8). lia. Defined.
